(* ===== verification/_CoqProject ===== *)
-Q . S2P
Prelude.v
Effects.v
Constants.v
Frames.v
FramesFacts.v
Commands.v
CommandsFacts.v
ReadoutParser.v
ParserSteps.v
ParserSafety.v
ParserFacts.v
ReadoutBuffer.v
ListfileGen.v
Framing.v
RoundTrip.v
GeneratedFiles.v
StackErrors.v
Bits.v
DataFilter.v
EventBuilder2.v
EventBuilder2Facts.v
TriggerIO.v
TriggerIOScript.v
TriggerIOFacts.v
TriggerIORoundTrip.v
Errors.v
CmdPipe.v
CmdPipeFacts.v
CmdApi.v
CmdApiLaws.v
CmdApiFacts.v
CmdApiController.v
CmdApiExec.v
TicketMutex.v
ReadoutSetup.v
ReadoutSetupFacts.v
StackExecutor.v
Text.v
CommandText.v
Listfile.v
ListfileFacts.v
BufferQueues.v
Replay.v
ReplayFacts.v
ReadoutWorker.v
ReadoutWorkerFacts.v
ReadoutLoop.v
ReadoutLoopFacts.v
EventBuilder.v
EventBuilderFacts.v
Dialog.v
DialogFacts.v
DialogVme.v
EthImpl.v
EthFacts.v
EthConnect.v
DialogInvariant.v
EthInvariant.v
UsbImpl.v
UsbFacts.v
UsbWindows.v
Yaml.v
ReadoutConfig.v
ReadoutConfigFacts.v
ReplayFacade.v
Zip.v
ZipNames.v
ZipLaws.v
ZipReading.v
ZipWriting.v
ZipSim.v
ZipFacts.v
BlockingApi.v
BlockingFacts.v
BlockingLive.v
