(* ===== verification/Prelude.v ===== *)
(** * A verification of the mesytec-mvlc driver library

    mesytec-mvlc is the C++ driver library for the MVLC, a VME bus controller.  A DAQ
    application describes what to read out as lists of VME commands (command stacks),
    uploads them to the controller, receives readout data as USB buffers or UDP
    packets, stores it in listfiles and parses it into the data of the single VME modules.
    The sources are under src/src/mesytec-mvlc.

    ** The parts of the program and their models

    Foundations:
    - Prelude (this file): machine integers as [Z] with explicit wrap-around, the
      outcomes of C++ code ([Return], [Throw], [Undefined]), little endian words and
      list lemmas.  Effects: computations with a state that return, throw, wait for ever or
      are undefined ([SM]).  Errors: mvlc_error.h/.cc.  Text: numbers and words in text.
    - Constants: mvlc_constants.h and vme_constants.h, one module per namespace.
    - Frames, FramesFacts: frame headers, trigger values, buffer type detection and the
      buffer walkers of mvlc_util.cc, the ETH payload headers (mvlc_eth_interface.h).

    Commands and the way to the controller:
    - Commands, CommandsFacts: mvlc_command_builders.cc, that is SuperCommand,
      StackCommand, the builders, encoders, decoders, sizes and the stack upload.
      CommandText: the text form of commands in the same file.
    - Yaml, ReadoutConfig, ReadoutConfigFacts: the YAML form of configurations
      (mvlc_readout_config.cc), for any library that emits and loads documents
      ([YamlLibrary], [YamlLaws]).
    - CmdPipe, CmdPipeFacts: the reader thread of the command pipe (mvlc.cc, first part):
      its buffer, frame handlers, pending responses, counters and loop.
    - CmdApi: transactions, register and VME accesses, uploads and the class MVLC (mvlc.cc,
      second part), for any connection ([Connection]).  CmdApiLaws: what controllers
      promise ([Controller], [VMEController]) and a simulated controller [Sim].
      CmdApiFacts: every call returns.  CmdApiController, CmdApiExec: what the calls do with
      a controller that answers.
    - Dialog: MVLCDialog_internal (mvlc_dialog.h/.cc), the request and response handling
      without a reader thread, for any connection ([BasicInterface]).  DialogFacts:
      connections that deliver a stream ([StreamLaws]) and controllers behind them
      ([DialogController]), registers, uploads, responses.  DialogVme: VME accesses and a
      simulated controller.
    - EthImpl: eth::Impl (mvlc_impl_eth.cc) with its sockets (util/udp_sockets.cc) and
      statistics (mvlc_counters.h).  EthFacts: the stream of bytes, the instance of
      [StreamLaws], lost packets.  EthConnect: connecting and what it leaves behind.
      DialogInvariant, EthInvariant: the state stays well-formed.
    - UsbImpl: the USB connection for any driver library ([Ftdi]), that is device lists, reads,
      writes, connect and its cleanup on Linux (mvlc_impl_usb_common.cc,
      mvlc_impl_usb_internal.cc, mvlc_impl_usb_linux_x86_64.cc); the thread of the
      data pipe is interleaved with the calls of the other one.  UsbFacts: connecting, with
      laws of the driver and the device ([FtdiLaws], [UsbLaws], [UsbDevice]).  UsbWindows: the
      buffered reads of mvlc_impl_usb_windows.cc.
    - ReadoutSetup, ReadoutSetupFacts: mvlc_dialog_util.h for any [Dialog], with laws
      ([DialogLaws]) that class MVLC satisfies.  StackExecutor: mvlc_stack_executor.cc.
    - TicketMutex: util/ticketmutex.h as interleaved atomic steps.
    - TriggerIO, TriggerIOScript, TriggerIOFacts, TriggerIORoundTrip: the trigger I/O
      configuration, its serialization to register writes and back.

    Readout data:
    - ReadoutBuffer: readout_buffer.h.  The class [WordBuffer] is the interface the generator
      uses; its laws are proved for the byte buffer.  BufferQueues: the queues of buffers.
    - ReadoutParser: mvlc_readout_parser.cc.  [World] holds the parser state, the
      counters, the calls of the callbacks so far and the input view; a function of the
      source is a computation in the monad [PM], whose results are falling through,
      continue, return and an exception in flight.  ParserSteps has the equations of its
      parts, ParserSafety the invariant of ReadoutParserState, ParserFacts the properties of
      whole runs.
    - ListfileGen: mvlc_listfile_gen.cc, which writes events back into readout format,
      for any [WordBuffer].  Framing describes its output as a relation read from left
      to right, RoundTrip follows the parser along this relation, GeneratedFiles states
      the result for sequences of events.
    - Listfile, ListfileFacts: mvlc_listfile.cc, preamble and system events, for any write
      and read handles ([WriteHandle], [ReadHandle]) with their laws.
    - Zip: mvlc_listfile_zip.cc, archives with plain and compressed entries, split into
      several archives, for any ZIP and LZ4 library ([Minizip], [Lz4Compression],
      [Lz4Decompression]).  ZipLaws: their laws; ZipNames: file names; ZipReading, ZipWriting:
      what readers and creators do; ZipSim: small libraries for examples; ZipFacts: both
      together.
    - ReadoutWorker, ReadoutWorkerFacts: reading of the data pipe into buffers of complete
      frames, the listfile writer, start and end of a readout (mvlc_readout_worker.cc).
      ReadoutLoop, ReadoutLoopFacts: the readout thread as a state machine interleaved with
      the other threads.  Replay, ReplayFacts: mvlc_replay_worker.cc likewise.
      ReplayFacade: from an opened listfile to configuration and parser (mvlc_replay.cc).
    - BlockingApi, BlockingFacts, BlockingLive: mvlc_blocking_data_api.cc and the parser
      thread of mvlc_readout_parser_util.cc, with the condition variable that connects
      parser, monitor and user.
    - StackErrors: mvlc_stack_errors.h, the counters of stack errors and their stored form.
    - Bits, DataFilter: util/bits.h and util/data_filter.h/.cc.
    - EventBuilder, EventBuilderFacts: event_builder.cc; EventBuilder2, EventBuilder2Facts:
      event_builder2.hpp/.cc, which match the data of several modules by timestamp.

    The parts interact as in the source: commands are encoded by Commands and sent by
    CmdApi or Dialog over a connection; EthImpl is a connection for Dialog and uses Dialog
    itself to connect; ReadoutSetup and StackExecutor run on top of CmdApi; the
    workers pass [ReadoutBuffer]s to listfiles and parsers; the readout structure of the
    parser is built from the command stacks; the generator writes and the event builders
    consume the [ModuleData] that the parser hands out.  UsbImpl is a connection for Dialog and
    uses it to connect, as EthImpl does.

    ** What the theorems show

    - Round trips: generated listfiles are parsed back to exactly the events written
      ([generated_file_roundtrip]); listfile preambles; command stacks; the text of
      commands; crate configurations; trigger I/O configurations; uploaded stacks are read
      back; a listfile that was split into several archives is read as one stream
      ([split_archives_roundtrip]).  A listfile is opened for replay with the configuration and the parser of its
      readout ([replay_opens_readout]).
    - Safety and termination: whatever the input is, the parser never leaves a
      container, its loop ends, and every callback gets consistent module data
      ([parser_run_safe], [parser_callbacks_consistent]); every call of the command interface
      returns ([api_calls_return]); no operation on the event builders is undefined, and
      their counters account for every entry ([builder_conservation], [builder_accounts]).
    - Refinement and equivalence: the read buffer of the command pipe is a queue, and how
      its input is cut into reads does not matter; what the ticket mutex
      shows of its threads is an execution of a queue, so that threads enter in the order in which
      they arrived ([mutex_refines_fifo]); readout data reaches the listfile unchanged; the ETH connection delivers the payloads of its packets as one
      stream of bytes ([eth_reads_stream]).
    - Functional behaviour: register and VME accesses through class MVLC and through the
      dialog layer have the effect and the result of the bus access; block reads return all
      frames of a response; lost packets are counted; events are matched in their time windows and
      put out in order ([matching_rows_assembled]); filters gather the bits of their pattern.
    - Concurrency: runs of the readout and replay threads under every interleaving with
      users and consumers: a request to stop ends the run, buffers are delivered in order.
      The user of the blocking interface gets the parser's events one by one, in order and to
      the end ([blocking_events_in_order], [blocking_delivers]).
    - Connecting: a USB connect ends with the data acquisition switched off, under every
      interleaving of its two threads and also when up to 14 writes of the register time out
      ([usb_connect_ready]); which devices are open after a connect that succeeds or fails
      ([usb_connect_outcome]).
    - Well-formedness: the state of the ETH connection keeps its types, and its arrays of
      channel statistics are never accessed out of range ([eth_state_typed]).
    - Deviations: where the code does not do what its documentation says or what it means
      to, a theorem or lemma states what it does, on every input or on a concrete one.

    ** Bounds and fuel

    Integers keep the width of the source; counters of type size_t wrap at 2^64.  Loops
    that do not follow the structure of a list take fuel, and running out of it is a result
    of its own ([None], [Hangs]) that the theorems exclude.  A round of
    parse_readout_contents that consumes no word leaves the prefix state, so two rounds
    per word and two more are enough; the loops over packets and buffers consume at least
    a word per round.  [flush_loop] takes one more than the reference timestamps of the event,
    since every successful flush removes one; [force_loop] one more than the queued entries;
    [build_event] one more than the entries of the main module; [fixup_buffer] one more than the
    bytes, and is shown not to end for trailing bytes; the command pipe one more than the
    words of its buffer; uploads one round per part; transactions three attempts;
    [read_stack_words] the words of the stack memory; [write_sections] one more than the
    words; [read_preamble] more than the bytes of the preamble; numbers in text 64
    digits.  The loops of the dialog layer take a number of rounds as a parameter; the
    theorems hold for every number above that of the notifications and frames.  The theorems
    on archives and on USB give a number of rounds from which on they hold: it depends on the
    sizes of the compressed entries and on what waits in the data pipe.  The
    mutual recursion of continue_stack_frame and start_new_block_frame is at most three
    calls deep.

    ** What is not modelled

    Asserts are compiled out, as in a release build.  Logging and output formatting are
    left out.  The operating system, third-party libraries and the controller are parameters
    or inputs: results of system calls and reads, the YAML library, classes of
    controllers, the driver of the USB chip, ZIP and LZ4.  The JSON forms, the copying of
    finished archives and ZMQ output, the aarch64 and Windows variants of the USB connect, the ETH throttle thread, whose computations are in
    floating point, the stream server, the facade of mvlc_readout.cc and the factories of the
    blocking interface, which connect modelled parts, are not modelled.  The histograms of the
    event builders, which only count, are left out. *)
From stdpp Require Export base tactics option list numbers gmap strings.
From Stdlib Require Export ZArith Lia Bool.

#[global] Open Scope Z_scope.

(** ** Machine integers

    A C++ unsigned integer of width [w] is a [Z] in the range [0 .. 2^w - 1];
    every operation that can leave the range is followed by the wrap-around the
    language performs. *)

Definition u8 (z : Z) : Z := z mod 2 ^ 8.
Definition u16 (z : Z) : Z := z mod 2 ^ 16.
Definition u32 (z : Z) : Z := z mod 2 ^ 32.
Definition u64 (z : Z) : Z := z mod 2 ^ 64.

(** [++] and [--] on counters of type [size_t] *)
Definition inc64 (n : Z) : Z := u64 (n + 1).
Definition dec64 (n : Z) : Z := u64 (n - 1).

Definition is_u8 (z : Z) : Prop := 0 ≤ z < 2 ^ 8.
Definition is_u16 (z : Z) : Prop := 0 ≤ z < 2 ^ 16.
Definition is_u32 (z : Z) : Prop := 0 ≤ z < 2 ^ 32.

Lemma u8_id n : is_u8 n → u8 n = n.
Proof. apply Z.mod_small. Qed.
Lemma u16_id n : is_u16 n → u16 n = n.
Proof. apply Z.mod_small. Qed.
Lemma u32_id n : is_u32 n → u32 n = n.
Proof. apply Z.mod_small. Qed.

Declare Scope mvlc_scope.
Delimit Scope mvlc_scope with mvlc.
Infix ".&" := Z.land (at level 40, left associativity) : mvlc_scope.
Infix ".|" := Z.lor (at level 50, left associativity) : mvlc_scope.
Infix ".^" := Z.lxor (at level 45, left associativity) : mvlc_scope.
#[global] Open Scope mvlc_scope.

(** ** Outcomes of C++ code

    [Return a] is a normal return, [Throw e] an exception leaving the function,
    and [Undefined] stands for undefined behaviour (an access outside of a
    container, a decrement below the start of a buffer, ...), after which the
    language promises nothing. *)

Inductive exn : Type :=
| end_of_buffer
| end_of_frame
| runtime_error (what : string)
| invalid_argument
| out_of_range
| length_error.

Inductive outcome (A : Type) : Type :=
| Return (a : A)
| Throw (e : exn)
| Undefined.
Arguments Return {A} a.
Arguments Throw {A} e.
Arguments Undefined {A}.

#[global] Instance exn_eq_dec : EqDecision exn.
Proof. intros x y. unfold Decision. decide equality. apply String.string_dec. Defined.

#[global] Instance outcome_eq_dec {A} {HA : EqDecision A} : EqDecision (outcome A).
Proof. intros x y. unfold Decision. decide equality; [apply HA | apply exn_eq_dec]. Defined.

#[global] Instance outcome_ret : MRet outcome := λ A a, Return a.
#[global] Instance outcome_bind : MBind outcome := λ A B f m,
  match m with
  | Return a => f a
  | Throw e => Throw e
  | Undefined => Undefined
  end.

Lemma outcome_bind_Return {A B} (m : outcome A) (f : A → outcome B) b :
  m ≫= f = Return b ↔ ∃ a, m = Return a ∧ f a = Return b.
Proof. destruct m; simpl; split; try done; try (intros (?&?&?); congruence); eauto. Qed.

Lemma outcome_bind_assoc {A B C} (m : outcome A) (f : A → outcome B) (g : B → outcome C) :
  ((m ≫= f) ≫= g) = (m ≫= λ a, f a ≫= g).
Proof. by destruct m. Qed.

(** ** Automation *)

Create HintDb mvlc discriminated.
Create Rewrite HintDb mvlc_len.

Ltac zlia := Z.div_mod_to_equations; lia.

(** Case analysis on the [if]s and [match]es of the goal, keeping equations. *)
Ltac case_all :=
  repeat match goal with
  | |- context [ match ?x with _ => _ end ] =>
      lazymatch x with
      | context [ match _ with _ => _ end ] => fail
      | _ => destruct x eqn:?
      end
  end.

(** Turn boolean comparisons in the context into propositions. *)
Ltac breflect :=
  repeat match goal with
  | H : (_ && _)%bool = true |- _ => apply andb_true_iff in H as [? ?]
  | H : (_ && _)%bool = false |- _ => apply andb_false_iff in H
  | H : (_ || _)%bool = true |- _ => apply orb_true_iff in H
  | H : (_ || _)%bool = false |- _ => apply orb_false_iff in H as [? ?]
  | H : negb _ = true |- _ => apply negb_true_iff in H
  | H : negb _ = false |- _ => apply negb_false_iff in H
  | H : (_ =? _)%Z = true |- _ => apply Z.eqb_eq in H
  | H : (_ =? _)%Z = false |- _ => apply Z.eqb_neq in H
  | H : (_ <? _)%Z = true |- _ => apply Z.ltb_lt in H
  | H : (_ <? _)%Z = false |- _ => apply Z.ltb_ge in H
  | H : (_ <=? _)%Z = true |- _ => apply Z.leb_le in H
  | H : (_ <=? _)%Z = false |- _ => apply Z.leb_gt in H
  | H : (_ >? _)%Z = true |- _ => apply Z.gtb_lt in H
  | H : (_ >? _)%Z = false |- _ => rewrite Z.gtb_ltb in H
  | H : (_ >=? _)%Z = true |- _ => apply Z.geb_le in H
  | H : (_ >=? _)%Z = false |- _ => rewrite Z.geb_leb in H
  | H : bool_decide _ = true |- _ => apply bool_decide_eq_true in H
  | H : bool_decide _ = false |- _ => apply bool_decide_eq_false in H
  end.

(** ** Bit fields

    A field of [w] bits at position [s] is read with a shift and a mask and
    written with a mask, a shift and an [or].  The lemmas below turn both into
    division and remainder, where [lia] works. *)

Lemma land_mask (x w : Z) : 0 ≤ w → x .& (2 ^ w - 1) = x mod 2 ^ w.
Proof. intros. rewrite <- Z.land_ones by done. by rewrite Z.ones_equiv, Z.sub_1_r. Qed.

Lemma shiftr_div (x s : Z) : 0 ≤ s → x ≫ s = x / 2 ^ s.
Proof. apply Z.shiftr_div_pow2. Qed.

Lemma shiftl_mul (x s : Z) : 0 ≤ s → x ≪ s = x * 2 ^ s.
Proof. apply Z.shiftl_mul_pow2. Qed.

Lemma field_eq (x s w m : Z) :
  0 ≤ s → 0 ≤ w → m = 2 ^ w - 1 → (x ≫ s) .& m = (x / 2 ^ s) mod 2 ^ w.
Proof. intros ?? ->. by rewrite land_mask, shiftr_div. Qed.

(** [or] of two values that occupy disjoint bits is their sum. *)
Lemma lor_add (a b s : Z) :
  0 ≤ s → 0 ≤ a < 2 ^ s → b mod 2 ^ s = 0 → b .| a = b + a.
Proof.
  intros Hs Ha Hb.
  enough (Hz : Z.land b a = 0)
    by (by rewrite <- Z.lxor_lor, <- Z.add_nocarry_lxor).
  apply Z.bits_inj'; intros i Hi. rewrite Z.land_spec, Z.bits_0.
  destruct (decide (i < s)) as [Hlt|Hge].
  - rewrite <- (Z.mod_pow2_bits_low b s i), Hb, Z.bits_0 by lia. done.
  - rewrite <- (Z.mod_small a (2 ^ s)) by done.
    rewrite Z.mod_pow2_bits_high by lia. apply andb_false_r.
Qed.

Lemma lor_mul_add (a b s : Z) :
  0 ≤ s → 0 ≤ a < 2 ^ s → a .| (b * 2 ^ s) = a + b * 2 ^ s.
Proof.
  intros Hs Ha. rewrite Z.lor_comm, (lor_add a (b * 2 ^ s) s);
    [lia | done | done | apply Z.mod_mul; lia].
Qed.

(** [or] into an empty field between [a] and [b]. *)
Lemma lor_hole (a b c s t : Z) :
  0 ≤ s ≤ t → 0 ≤ b < 2 ^ s → 0 ≤ c * 2 ^ s < 2 ^ t → a mod 2 ^ t = 0 →
  (a + b) .| (c * 2 ^ s) = a + c * 2 ^ s + b.
Proof.
  intros Hst Hb Hc Ha. assert (Hle : 2 ^ s ≤ 2 ^ t) by (apply Z.pow_le_mono_r; lia).
  rewrite <- (lor_add b a t ltac:(lia) ltac:(lia) Ha), <- Z.lor_assoc, (Z.lor_comm b), Z.lor_assoc.
  rewrite (lor_add (c * 2 ^ s) a t ltac:(lia) ltac:(lia) Ha).
  apply (lor_add b _ s); [lia|done|]. rewrite Z.mod_add by lia.
  apply Z.mod_divide in Ha; [|lia]. apply Z.mod_divide; [lia|].
  etrans; [|exact Ha]. exists (2 ^ (t - s)). rewrite <- Z.pow_add_r by lia. f_equal. lia.
Qed.

Lemma field_range (x w : Z) : 0 ≤ w → 0 ≤ x mod 2 ^ w < 2 ^ w.
Proof. intros. apply Z.mod_pos_bound. lia. Qed.

(** ** Words and bytes

    The C++ code reinterprets byte buffers as little-endian 32-bit words. *)

Definition le_word (b : list Z) : Z :=
  match b with
  | b0 :: b1 :: b2 :: b3 :: _ =>
      b0 .| (b1 ≪ 8) .| (b2 ≪ 16) .| (b3 ≪ 24)
  | _ => 0
  end.

Definition le_bytes (w : Z) : list Z :=
  [w .& 0xff; (w ≫ 8) .& 0xff; (w ≫ 16) .& 0xff; (w ≫ 24) .& 0xff].

Definition words_to_bytes (ws : list Z) : list Z := ws ≫= le_bytes.

Lemma length_le_bytes w : length (le_bytes w) = 4%nat.
Proof. done. Qed.

Lemma length_words_to_bytes ws : length (words_to_bytes ws) = (4 * length ws)%nat.
Proof.
  induction ws as [|w ws IH]; [done|]. unfold words_to_bytes in *.
  rewrite bind_cons, length_app, IH, length_le_bytes. simpl; lia.
Qed.

Lemma le_word_bytes w rest : is_u32 w → le_word (le_bytes w ++ rest) = w.
Proof.
  intros [H0 H1]. unfold le_word, le_bytes. simpl app.
  change 255 with (2 ^ 8 - 1).
  rewrite !land_mask, !shiftr_div, !shiftl_mul by lia.
  pose proof (field_range w 8 ltac:(lia)).
  pose proof (field_range (w / 2 ^ 8) 8 ltac:(lia)).
  pose proof (field_range (w / 2 ^ 16) 8 ltac:(lia)).
  pose proof (field_range (w / 2 ^ 24) 8 ltac:(lia)).
  rewrite (lor_mul_add _ _ 8), (lor_mul_add _ _ 16), (lor_mul_add _ _ 24) by lia.
  zlia.
Qed.

Lemma words_to_bytes_cons w ws : words_to_bytes (w :: ws) = le_bytes w ++ words_to_bytes ws.
Proof. done. Qed.

Lemma words_to_bytes_app ws1 ws2 :
  words_to_bytes (ws1 ++ ws2) = words_to_bytes ws1 ++ words_to_bytes ws2.
Proof. apply bind_app. Qed.

(** ** Lists *)

Lemma drop_words_to_bytes n ws :
  drop (4 * n) (words_to_bytes ws) = words_to_bytes (drop n ws).
Proof.
  revert ws; induction n as [|n IH]; intros ws; [done|].
  destruct ws as [|w ws]; [by rewrite !drop_nil|].
  rewrite words_to_bytes_cons.
  replace (4 * S n)%nat with (length (le_bytes w) + 4 * n)%nat by (simpl; lia).
  rewrite drop_app_add. apply IH.
Qed.

(** Sizes of containers as integers. *)
Definition zlen {A} (l : list A) : Z := Z.of_nat (length l).

Lemma zlen_nonneg {A} (l : list A) : 0 ≤ zlen l.
Proof. unfold zlen; lia. Qed.

Lemma zlen_words_to_bytes ws : zlen (words_to_bytes ws) = 4 * zlen ws.
Proof. unfold zlen. rewrite length_words_to_bytes. lia. Qed.

Lemma zlen_nil {A} : zlen (@nil A) = 0.
Proof. done. Qed.

Lemma zlen_cons {A} (x : A) l : zlen (x :: l) = 1 + zlen l.
Proof. unfold zlen; simpl; lia. Qed.

Lemma zlen_app {A} (l k : list A) : zlen (l ++ k) = zlen l + zlen k.
Proof. unfold zlen; rewrite length_app; lia. Qed.

Lemma zlen_0 {A} (l : list A) : zlen l = 0 ↔ l = [].
Proof. unfold zlen; destruct l; simpl; split; try done; lia. Qed.

(** [remove_prefix] of the C++ views; the callers check the size first. *)
Definition zdrop {A} (n : Z) (l : list A) : list A := drop (Z.to_nat n) l.
Definition ztake {A} (n : Z) (l : list A) : list A := take (Z.to_nat n) l.

Lemma zlen_zdrop {A} n (l : list A) : 0 ≤ n ≤ zlen l → zlen (zdrop n l) = zlen l - n.
Proof. unfold zlen, zdrop; intros; rewrite length_drop; lia. Qed.

Lemma zdrop_app {A} (l k : list A) : zdrop (zlen l) (l ++ k) = k.
Proof. unfold zlen, zdrop. rewrite Nat2Z.id, drop_app_length. done. Qed.

Lemma ztake_app {A} (l k : list A) : ztake (zlen l) (l ++ k) = l.
Proof. unfold zlen, ztake. rewrite Nat2Z.id, take_app_length. done. Qed.

Lemma zlen_ztake {A} n (l : list A) : 0 ≤ n ≤ zlen l → zlen (ztake n l) = n.
Proof. unfold zlen, ztake; intros; rewrite length_take; lia. Qed.

Lemma ztake_zdrop {A} n (l : list A) : ztake n l ++ zdrop n l = l.
Proof. apply take_drop. Qed.

Lemma ztake_app_le {A} n (l k : list A) : 0 ≤ n ≤ zlen l → ztake n (l ++ k) = ztake n l.
Proof. intros. unfold ztake. rewrite take_app_le; [done|]. unfold zlen in *. lia. Qed.

Lemma zdrop_app_l {A} n (v r : list A) : n ≤ zlen v → zdrop n (v ++ r) = zdrop n v ++ r.
Proof. unfold zdrop, zlen. intros. apply drop_app_le. lia. Qed.

Lemma Forall_zdrop {A} (P : A → Prop) n l : Forall P l → Forall P (zdrop n l).
Proof. apply Forall_drop. Qed.

Lemma Forall_ztake {A} (P : A → Prop) n l : Forall P l → Forall P (ztake n l).
Proof. apply Forall_take. Qed.

Lemma zlen_replicate {A} n (x : A) : zlen (replicate n x) = Z.of_nat n.
Proof. unfold zlen. by rewrite length_replicate. Qed.

Lemma zlen_pos {A} (l : list A) : l ≠ [] → 0 < zlen l.
Proof. destruct l; [done|]. rewrite zlen_cons. pose proof (zlen_nonneg l). lia. Qed.

Lemma ztake_all {A} n (l : list A) : zlen l ≤ n → ztake n l = l.
Proof. unfold ztake, zlen. intros. apply take_ge. lia. Qed.

Lemma zdrop_all {A} n (l : list A) : zlen l ≤ n → zdrop n l = [].
Proof. unfold zdrop, zlen. intros. apply drop_ge. lia. Qed.

Lemma zdrop_nonempty {A} n (l : list A) : 0 ≤ n < zlen l → zdrop n l ≠ [].
Proof.
  intros Hn He. apply (f_equal zlen) in He. rewrite zlen_zdrop in He by lia.
  change (zlen (@nil A)) with 0 in He. lia.
Qed.

#[export] Hint Rewrite @zlen_nil @zlen_cons @zlen_app : mvlc_len.
