(* ===== verification/Effects.v ===== *)
(** * Computations with state

    Calls that return, throw, wait for ever or have undefined behaviour, and computations
    that pass a state along. *)

From S2P Require Import Prelude.

(** A call returns, throws, waits for ever, or has undefined behaviour. *)
Inductive res (A : Type) : Type :=
| Done (a : A)
| Raise (e : exn)
| Hangs
| Broken.
Arguments Done {A} a.
Arguments Raise {A} e.
Arguments Hangs {A}.
Arguments Broken {A}.

(** A computation on a state of type [S]. *)
Definition SM (S A : Type) : Type := S → res (A * S).
#[global] Instance SM_ret {S} : MRet (SM S) := λ A a s, Done (a, s).
#[global] Instance SM_bind {S} : MBind (SM S) := λ A B f m s,
  match m s with
  | Done (a, s) => f a s
  | Raise e => Raise e
  | Hangs => Hangs
  | Broken => Broken
  end.

Definition lift {S A} (o : outcome A) : SM S A := λ s,
  match o with Return a => Done (a, s) | Throw e => Raise e | Undefined => Broken end.

Definition get_state {S A} (f : S → A) : SM S A := λ s, Done (f s, s).
Definition raise {S A} (e : exn) : SM S A := λ _, Raise e.
(** A loop that ran out of the rounds it was given. *)
Definition hang {S A} : SM S A := λ _, Hangs.

Lemma bind_Done_eq {S A B} (m : SM S A) (f : A → SM S B) s a s' : m s = Done (a, s') → (m ≫= f) s = f a s'.
Proof. intros H. unfold mbind, SM_bind. by rewrite H. Qed.
