(* ===== verification/Constants.v ===== *)
(** * Constants of the MVLC protocol

    The constants of [mvlc_constants.h] and [vme_constants.h] that the other
    files use, one [Module] per C++ namespace, with the same names.  Widths and
    masks are written as in the headers; binary literals as decimals. *)

From S2P Require Import Prelude.

Definition AddressIncrement : Z := 4. (* mvlc_constants.h:42 *)
Definition MirrorTransactionMaxWords : Z := 2048. (* mvlc_constants.h:49 *)
Definition MirrorTransactionMaxContentsWords : Z := MirrorTransactionMaxWords - 2. (* mvlc_constants.h:50 *)
Definition ReadLocalBlockMaxWords : Z := 768. (* mvlc_constants.h:43 *)

Module super_commands.
Definition SuperCmdMask : Z := 0xFFFF. (* mvlc_constants.h:61 *)
Definition SuperCmdShift : Z := 16. (* mvlc_constants.h:62 *)
Definition SuperCmdArgMask : Z := 0xFFFF. (* mvlc_constants.h:63 *)
Definition SuperCmdArgShift : Z := 0. (* mvlc_constants.h:64 *)
End super_commands.

Module stack_commands.
Definition CmdMask : Z := 0xFF. (* mvlc_constants.h:92 *)
Definition CmdShift : Z := 24. (* mvlc_constants.h:93 *)
Definition CmdArg0Mask : Z := 0x00FF. (* mvlc_constants.h:94 *)
Definition CmdArg0Shift : Z := 16. (* mvlc_constants.h:95 *)
Definition CmdArg1Mask : Z := 0x0000FFFF. (* mvlc_constants.h:96 *)
Definition CmdArg1Shift : Z := 0. (* mvlc_constants.h:97 *)
Definition LateReadShift : Z := 2. (* mvlc_constants.h:101 *)
End stack_commands.

Module SuperCommandType.
Definition CmdBufferStart : Z := 0xF100. (* mvlc_constants.h:68 *)
Definition CmdBufferEnd : Z := 0xF200. (* mvlc_constants.h:69 *)
Definition ReferenceWord : Z := 0x0101. (* mvlc_constants.h:70 *)
Definition ReadLocal : Z := 0x0102. (* mvlc_constants.h:71 *)
Definition ReadLocalBlock : Z := 0x0103. (* mvlc_constants.h:72 *)
Definition WriteLocal : Z := 0x0204. (* mvlc_constants.h:73 *)
Definition WriteReset : Z := 0x0206. (* mvlc_constants.h:74 *)
Definition EthDelay : Z := 0x0207. (* mvlc_constants.h:75 *)
End SuperCommandType.

Module StackCommandType.
Definition StackStart : Z := 0xF3. (* mvlc_constants.h:105 *)
Definition StackEnd : Z := 0xF4. (* mvlc_constants.h:106 *)
Definition VMERead : Z := 0x12. (* mvlc_constants.h:108 *)
Definition VMEReadSwapped : Z := 0x13. (* mvlc_constants.h:112 *)
Definition VMEReadMem : Z := 0x32. (* mvlc_constants.h:116 *)
Definition VMEReadMemSwapped : Z := 0x33. (* mvlc_constants.h:118 *)
Definition VMEWrite : Z := 0x23. (* mvlc_constants.h:120 *)
Definition WriteMarker : Z := 0xC2. (* mvlc_constants.h:121 *)
Definition WriteSpecial : Z := 0xC1. (* mvlc_constants.h:122 *)
Definition Wait : Z := 0xC4. (* mvlc_constants.h:125 *)
Definition SignalAccu : Z := 0xC6. (* mvlc_constants.h:128 *)
Definition MaskShiftAccu : Z := 0xC5. (* mvlc_constants.h:130 *)
Definition SetAccu : Z := 0xC8. (* mvlc_constants.h:131 *)
Definition ReadToAccu : Z := 0x14. (* mvlc_constants.h:132 *)
Definition CompareLoopAccu : Z := 0xC7. (* mvlc_constants.h:133 *)
End StackCommandType.

Module frame_headers.
Definition SuperFrame : Z := 0xF1. (* mvlc_constants.h:144 *)
Definition SuperContinuation : Z := 0xF2. (* mvlc_constants.h:145 *)
Definition StackFrame : Z := 0xF3. (* mvlc_constants.h:147 *)
Definition BlockRead : Z := 0xF5. (* mvlc_constants.h:148 *)
Definition StackError : Z := 0xF7. (* mvlc_constants.h:149 *)
Definition StackContinuation : Z := 0xF9. (* mvlc_constants.h:151 *)
Definition SystemEvent : Z := 0xFA. (* mvlc_constants.h:153 *)
Definition SystemEvent2 : Z := 0xFB. (* mvlc_constants.h:156 *)
Definition TypeShift : Z := 24. (* mvlc_constants.h:165 *)
Definition TypeMask : Z := 0xff. (* mvlc_constants.h:166 *)
Definition FrameFlagsMask : Z := 0xf. (* mvlc_constants.h:168 *)
Definition FrameFlagsShift : Z := 20. (* mvlc_constants.h:169 *)
Definition StackNumShift : Z := 16. (* mvlc_constants.h:171 *)
Definition StackNumMask : Z := 0xf. (* mvlc_constants.h:172 *)
Definition CtrlIdShift : Z := 13. (* mvlc_constants.h:174 *)
Definition CtrlIdMask : Z := 7. (* mvlc_constants.h:175 *)
Definition LengthShift : Z := 0. (* mvlc_constants.h:177 *)
Definition LengthMask : Z := 0x1fff. (* mvlc_constants.h:178 *)
End frame_headers.

Module frame_flags.
Module shifts.
Definition Timeout : Z := 0. (* mvlc_constants.h:193 *)
Definition BusError : Z := 1. (* mvlc_constants.h:194 *)
Definition SyntaxError : Z := 2. (* mvlc_constants.h:195 *)
Definition Continue : Z := 3. (* mvlc_constants.h:196 *)
End shifts.
Definition Timeout : Z := 1 ≪ shifts.Timeout. (* mvlc_constants.h:199 *)
Definition BusError : Z := 1 ≪ shifts.BusError. (* mvlc_constants.h:200 *)
Definition SyntaxError : Z := 1 ≪ shifts.SyntaxError. (* mvlc_constants.h:201 *)
Definition Continue : Z := 1 ≪ shifts.Continue. (* mvlc_constants.h:202 *)
(* mvlc_constants.h:204-207 AllErrorFlags *)
Definition AllErrorFlags : Z := Timeout .| BusError .| SyntaxError.
End frame_flags.

Module system_event.
Definition ContinueShift : Z := 23. (* mvlc_constants.h:221 *)
Definition ContinueMask : Z := 1. (* mvlc_constants.h:222 *)
Definition CtrlIdShift : Z := 20. (* mvlc_constants.h:224 *)
Definition CtrlIdMask : Z := 7. (* mvlc_constants.h:225 *)
Definition SubtypeShift : Z := 13. (* mvlc_constants.h:227 *)
Definition SubtypeMask : Z := 0x7f. (* mvlc_constants.h:228 *)
Definition LengthShift : Z := 0. (* mvlc_constants.h:230 *)
Definition LengthMask : Z := 0x1fff. (* mvlc_constants.h:231 *)
Definition EndianMarkerValue : Z := 0x12345678. (* mvlc_constants.h:233 *)
Module subtype.
Definition EndianMarker : Z := 0x01. (* mvlc_constants.h:237 *)
Definition BeginRun : Z := 0x02. (* mvlc_constants.h:240 *)
Definition EndRun : Z := 0x03. (* mvlc_constants.h:243 *)
Definition MVMEConfig : Z := 0x10. (* mvlc_constants.h:248 *)
Definition UnixTimetick : Z := 0x11. (* mvlc_constants.h:252 *)
Definition Pause : Z := 0x12. (* mvlc_constants.h:255 *)
Definition Resume : Z := 0x13. (* mvlc_constants.h:258 *)
Definition MVLCCrateConfig : Z := 0x14. (* mvlc_constants.h:261 *)
Definition StackErrors : Z := 0x15. (* mvlc_constants.h:268 *)
Definition UserMin : Z := 0x20. (* mvlc_constants.h:272 *)
Definition UserMax : Z := 0x2F. (* mvlc_constants.h:273 *)
Definition EndOfFile : Z := 0x77. (* mvlc_constants.h:276 *)
Definition SubtypeMax : Z := SubtypeMask. (* mvlc_constants.h:278 *)
End subtype.
(* mvlc_constants.h:281-284 extract_subtype *)
Definition extract_subtype (header : Z) : Z := (header ≫ SubtypeShift) .& SubtypeMask.
End system_event.

Module VMEDataWidth.
Definition D16 : Z := 0x1. (* mvlc_constants.h:289 *)
Definition D32 : Z := 0x2. (* mvlc_constants.h:290 *)
End VMEDataWidth.

Module Blk2eSSTRate.
Definition Rate160MB : Z := 0. (* mvlc_constants.h:295 *)
Definition Rate276MB : Z := 1. (* mvlc_constants.h:296 *)
Definition Rate320MB : Z := 2. (* mvlc_constants.h:297 *)
End Blk2eSSTRate.

Definition Blk2eSSTRateShift : Z := 6. (* mvlc_constants.h:301 *)
Module AccuComparator.
Definition EQ : Z := 0. (* mvlc_constants.h:312 *)
Definition LT : Z := 1. (* mvlc_constants.h:313 *)
Definition GT : Z := 2. (* mvlc_constants.h:314 *)
End AccuComparator.

Module stacks.
Definition StackCountPreFW0037 : Z := 8. (* mvlc_constants.h:320 *)
Definition StackCount : Z := 16. (* mvlc_constants.h:321 *)
Definition Stack0TriggerRegister : Z := 0x1100. (* mvlc_constants.h:324 *)
Definition Stack0OffsetRegister : Z := 0x1200. (* mvlc_constants.h:328 *)
Definition StackMemoryBegin : Z := 0x2000. (* mvlc_constants.h:330 *)
Definition StackMemoryWords : Z := 2048. (* mvlc_constants.h:331 *)
Definition StackMemoryBytes : Z := StackMemoryWords * 4. (* mvlc_constants.h:332 *)
Definition StackMemoryEnd : Z := StackMemoryBegin + StackMemoryBytes. (* mvlc_constants.h:333 *)
Definition StackOffsetBitMaskWords : Z := 0x03FF. (* mvlc_constants.h:337 *)
Definition StackOffsetBitMaskBytes : Z := StackOffsetBitMaskWords * 4. (* mvlc_constants.h:338 *)
Definition ImmediateStackID : Z := 0. (* mvlc_constants.h:343 *)
Definition ImmediateStackStartOffsetWords : Z := 1. (* mvlc_constants.h:348 *)
Definition ImmediateStackStartOffsetBytes : Z := ImmediateStackStartOffsetWords * 4. (* mvlc_constants.h:349 *)
Definition ImmediateStackReservedWords : Z := 256 - ImmediateStackStartOffsetWords. (* mvlc_constants.h:352 *)
Definition ImmediateStackReservedBytes : Z := ImmediateStackReservedWords * 4. (* mvlc_constants.h:353 *)
Definition StackMemorySegmentSize : Z := 128. (* mvlc_constants.h:357 *)
Definition FirstReadoutStackID : Z := 1. (* mvlc_constants.h:361 *)
Definition ReadoutStackCount : Z := StackCount - 1. (* mvlc_constants.h:362 *)
Definition NoTrigger : Z := 0. (* mvlc_constants.h:366 *)
Definition IRQWithIACK : Z := 1. (* mvlc_constants.h:367 *)
Definition IRQNoIACK : Z := 2. (* mvlc_constants.h:368 *)
Definition External : Z := 3. (* mvlc_constants.h:369 *)
Definition TriggerBitsMask : Z := 31. (* mvlc_constants.h:374 *)
Definition TriggerBitsShift : Z := 0. (* mvlc_constants.h:375 *)
Definition TriggerTypeMask : Z := 7. (* mvlc_constants.h:376 *)
Definition TriggerTypeShift : Z := 5. (* mvlc_constants.h:377 *)
Definition ImmediateMask : Z := 1. (* mvlc_constants.h:378 *)
Definition ImmediateShift : Z := 8. (* mvlc_constants.h:379 *)
Definition IRQ1 : Z := 0. (* mvlc_constants.h:393 *)
Definition IRQ2 : Z := 1. (* mvlc_constants.h:394 *)
Definition IRQ3 : Z := 2. (* mvlc_constants.h:395 *)
Definition IRQ4 : Z := 3. (* mvlc_constants.h:396 *)
Definition IRQ5 : Z := 4. (* mvlc_constants.h:397 *)
Definition IRQ6 : Z := 5. (* mvlc_constants.h:398 *)
Definition IRQ7 : Z := 6. (* mvlc_constants.h:399 *)
Definition IRQ8 : Z := 7. (* mvlc_constants.h:400 *)
Definition IRQ9 : Z := 8. (* mvlc_constants.h:401 *)
Definition IRQ10 : Z := 9. (* mvlc_constants.h:402 *)
Definition IRQ11 : Z := 10. (* mvlc_constants.h:403 *)
Definition IRQ12 : Z := 11. (* mvlc_constants.h:404 *)
Definition IRQ13 : Z := 12. (* mvlc_constants.h:405 *)
Definition IRQ14 : Z := 13. (* mvlc_constants.h:406 *)
Definition IRQ15 : Z := 14. (* mvlc_constants.h:407 *)
Definition IRQ16 : Z := 15. (* mvlc_constants.h:408 *)
Definition Slave0 : Z := 16. (* mvlc_constants.h:412 *)
Definition Slave1 : Z := 17. (* mvlc_constants.h:413 *)
Definition Slave2 : Z := 18. (* mvlc_constants.h:414 *)
Definition Slave3 : Z := 19. (* mvlc_constants.h:415 *)
Definition Timer0 : Z := 20. (* mvlc_constants.h:418 *)
Definition Timer1 : Z := 21. (* mvlc_constants.h:419 *)
Definition Timer2 : Z := 22. (* mvlc_constants.h:420 *)
Definition Timer3 : Z := 23. (* mvlc_constants.h:421 *)
Definition SlaveTriggersCount : Z := 4. (* mvlc_constants.h:438 *)
Definition StackTimersCount : Z := 4. (* mvlc_constants.h:444 *)
Definition StackTimer0OffsetRegister : Z := 0x1180. (* mvlc_constants.h:445 *)
(* mvlc_constants.h:381-384 get_trigger_register *)
Definition get_trigger_register (stackId : Z) : Z :=
  u16 (Stack0TriggerRegister + stackId * AddressIncrement).
(* mvlc_constants.h:386-389 get_offset_register *)
Definition get_offset_register (stackId : Z) : Z :=
  u16 (Stack0OffsetRegister + stackId * AddressIncrement).
(* mvlc_constants.h:447-451 get_stacktimer_register *)
Definition get_stacktimer_register (timerId : Z) : Z :=
  u16 (StackTimer0OffsetRegister + timerId * 2).
End stacks.

Definition SelfVMEAddress : Z := 0xFFFF0000. (* mvlc_constants.h:454 *)

Module usb.
Definition USBSingleTransferMaxBytes : Z := 1 * 1024 * 1024. (* mvlc_constants.h:459 *)
Definition USBSingleTransferMaxWords : Z := USBSingleTransferMaxBytes / 4. (* mvlc_constants.h:460 *)
Definition USBStreamPipeReadSize : Z := USBSingleTransferMaxBytes. (* mvlc_constants.h:464 *)
End usb.

Module eth.
Definition CommandPort : Z := 0x8000. (* mvlc_constants.h:469 *)
Definition DataPort : Z := CommandPort + 1. (* mvlc_constants.h:470 *)
Definition DelayPort : Z := DataPort + 1. (* mvlc_constants.h:471 *)
Definition HeaderWords : Z := 2. (* mvlc_constants.h:473 *)
Definition HeaderBytes : Z := HeaderWords * 4. (* mvlc_constants.h:474 *)
Definition JumboFrameMaxSize : Z := 9000. (* mvlc_constants.h:523 *)
Module header0.
Definition MagicMask : Z := 3. (* mvlc_constants.h:479 *)
Definition MagicShift : Z := 30. (* mvlc_constants.h:480 *)
Definition MagicValue : Z := 0. (* mvlc_constants.h:481 *)
Definition PacketChannelMask : Z := 3. (* mvlc_constants.h:486 *)
Definition PacketChannelShift : Z := 28. (* mvlc_constants.h:487 *)
Definition PacketNumberMask : Z := 0xfff. (* mvlc_constants.h:491 *)
Definition PacketNumberShift : Z := 16. (* mvlc_constants.h:492 *)
Definition CtrlIdMask : Z := 0x7. (* mvlc_constants.h:495 *)
Definition CtrlIdShift : Z := 13. (* mvlc_constants.h:496 *)
Definition NumDataWordsMask : Z := 0x1fff. (* mvlc_constants.h:500 *)
Definition NumDataWordsShift : Z := 0. (* mvlc_constants.h:501 *)
End header0.
Module header1.
Definition TimestampMask : Z := 0xfffff. (* mvlc_constants.h:508 *)
Definition TimestampShift : Z := 12. (* mvlc_constants.h:509 *)
Definition HeaderPointerMask : Z := 0xfff. (* mvlc_constants.h:518 *)
Definition HeaderPointerShift : Z := 0. (* mvlc_constants.h:519 *)
Definition NoHeaderPointerPresent : Z := HeaderPointerMask. (* mvlc_constants.h:520 *)
End header1.
End eth.

Module registers.
Definition daq_mode : Z := 0x1300. (* mvlc_constants.h:548 *)
Definition controller_id : Z := 0x1304. (* mvlc_constants.h:551 *)
Definition stack_exec_status0 : Z := 0x1400. (* mvlc_constants.h:571 *)
Definition stack_exec_status1 : Z := 0x1404. (* mvlc_constants.h:572 *)
Definition jumbo_frame_enable : Z := 0x4430. (* mvlc_constants.h:604 *)
Definition hardware_id : Z := 0x6008. (* mvlc_constants.h:622 *)
Definition firmware_revision : Z := 0x600e. (* mvlc_constants.h:624 *)
Definition parse_error_counter : Z := 0x8000. (* mvlc_constants.h:648 *)
End registers.

Definition CommandPipe : Z := 0. (* mvlc_constants.h:651 *)
Definition DataPipe : Z := 1. (* mvlc_constants.h:652 *)
Definition SuppressPipeOutput : Z := 2. (* mvlc_constants.h:653 *)
Definition PipeCount : Z := 2. (* mvlc_constants.h:654 *)

Module stack_error_info.
Definition StackLineMask : Z := 0xffff. (* mvlc_constants.h:670 *)
Definition StackLineShift : Z := 0. (* mvlc_constants.h:671 *)
Definition StackNumberMask : Z := 0xffff. (* mvlc_constants.h:672 *)
Definition StackNumberShift : Z := 16. (* mvlc_constants.h:673 *)
End stack_error_info.

Module vme_amods.
Definition a32UserData : Z := 0x09. (* vme_constants.h:17 *)
Definition a32UserProgram : Z := 0x0A. (* vme_constants.h:18 *)
Definition a32UserBlock : Z := 0x0B. (* vme_constants.h:19 *)
Definition a32UserBlock64 : Z := 0x08. (* vme_constants.h:20 *)
Definition a32PrivData : Z := 0x0D. (* vme_constants.h:22 *)
Definition a32PrivProgram : Z := 0x0E. (* vme_constants.h:23 *)
Definition a32PrivBlock : Z := 0x0F. (* vme_constants.h:24 *)
Definition a32PrivBlock64 : Z := 0x0C. (* vme_constants.h:25 *)
Definition a24UserData : Z := 0x39. (* vme_constants.h:28 *)
Definition a24UserProgram : Z := 0x3A. (* vme_constants.h:29 *)
Definition a24UserBlock : Z := 0x3B. (* vme_constants.h:30 *)
Definition a24PrivData : Z := 0x3D. (* vme_constants.h:32 *)
Definition a24PrivProgram : Z := 0x3E. (* vme_constants.h:33 *)
Definition a24PrivBlock : Z := 0x3F. (* vme_constants.h:34 *)
Definition cr : Z := 0x2F. (* vme_constants.h:36 *)
Definition a16User : Z := 0x29. (* vme_constants.h:39 *)
Definition a16Priv : Z := 0x2D. (* vme_constants.h:40 *)
Definition A16 : Z := a16User. (* vme_constants.h:43 *)
Definition A24 : Z := a24UserData. (* vme_constants.h:44 *)
Definition A32 : Z := a32UserData. (* vme_constants.h:45 *)
Definition BLT32 : Z := a32UserBlock. (* vme_constants.h:46 *)
Definition MBLT64 : Z := a32UserBlock64. (* vme_constants.h:47 *)
Definition Blk2eSST64 : Z := 0x20. (* vme_constants.h:48 *)
Definition BLT : Z := BLT32. (* vme_constants.h:51 *)
Definition MBLT : Z := MBLT64. (* vme_constants.h:52 *)
Definition VmeAmodMask : Z := 63. (* vme_constants.h:55 *)
(* vme_constants.h:57-72 is_block_mode *)
Definition is_block_mode (amod : Z) : bool :=
  let m := amod .& VmeAmodMask in
  (m =? a32UserBlock) || (m =? a32UserBlock64) || (m =? a32PrivBlock) || (m =?
  a32PrivBlock64) || (m =? a24UserBlock) || (m =? a24PrivBlock) || (m =?
  Blk2eSST64).
(* vme_constants.h:74-86 is_blt_mode *)
Definition is_blt_mode (amod : Z) : bool :=
  let m := amod .& VmeAmodMask in
  (m =? a32UserBlock) || (m =? a32PrivBlock) || (m =? a24UserBlock) || (m =?
  a24PrivBlock).
(* vme_constants.h:88-98 is_mblt_mode *)
Definition is_mblt_mode (amod : Z) : bool :=
  let m := amod .& VmeAmodMask in
  (m =? a32UserBlock64) || (m =? a32PrivBlock64).
(* vme_constants.h:100-103 is_esst64_mode *)
Definition is_esst64_mode (amod : Z) : bool := (amod .& VmeAmodMask) =? Blk2eSST64.
(* vme_constants.h:105-108 is_2esst_mode *)
Definition is_2esst_mode (amod : Z) : bool := is_esst64_mode amod.
End vme_amods.

(* mvlc_constants.h:656-660 Pipe *)
Inductive Pipe : Type := Command | Data.

(* mvlc_constants.h:662-666 ConnectionType *)
Inductive ConnectionType : Type := USB | ETH.

#[global] Instance ConnectionType_eq_dec : EqDecision ConnectionType.
Proof. solve_decision. Defined.

(* mvlc_constants.h:181-184 get_frame_type *)
Definition get_frame_type (header : Z) : Z :=
  (header ≫ frame_headers.TypeShift) .& frame_headers.TypeMask.
