(* ===== verification/Frames.v ===== *)
(** * Frame headers and buffers: [mvlc_util.h], [mvlc_util.cc], [mvlc_buffer_validators.h]

    Decoding of frame header words, the classification of buffers, and the
    functions that walk the framing structure of a raw byte buffer.  The loops
    are written with fuel; the theorems state how much is enough, or that no
    amount is. *)

From S2P Require Import Prelude Constants.

(** ** Frame headers *)

(* mvlc_util.h:37-45 FrameInfo *)
Record FrameInfo : Type := mkFrameInfo {
  fi_len : Z;
  fi_type : Z;
  fi_flags : Z;
  fi_stack : Z;
  fi_ctrl : Z;
  fi_sysEventSubType : Z
}.

(* mvlc_util.h:47-71 extract_frame_info *)
Definition extract_frame_info (header : Z) : FrameInfo :=
  let type := (header ≫ frame_headers.TypeShift) .& frame_headers.TypeMask in
  let len := (header ≫ frame_headers.LengthShift) .& frame_headers.LengthMask in
  if type =? frame_headers.SystemEvent then
    {| fi_len := len;
       fi_type := type;
       fi_ctrl := (header ≫ system_event.CtrlIdShift) .& system_event.CtrlIdMask;
       fi_sysEventSubType := (header ≫ system_event.SubtypeShift) .& system_event.SubtypeMask;
       fi_flags := ((header ≫ system_event.ContinueShift) .& system_event.ContinueMask)
                     ≪ frame_flags.shifts.Continue;
       fi_stack := 0 |}
  else
    {| fi_len := len;
       fi_type := type;
       fi_flags := (header ≫ frame_headers.FrameFlagsShift) .& frame_headers.FrameFlagsMask;
       fi_stack := (header ≫ frame_headers.StackNumShift) .& frame_headers.StackNumMask;
       fi_ctrl := (header ≫ frame_headers.CtrlIdShift) .& frame_headers.CtrlIdMask;
       fi_sysEventSubType := 0 |}.

(* mvlc_util.h:73-73 extract_frame_flags *)
Definition extract_frame_flags (header : Z) : Z := fi_flags (extract_frame_info header).

(* mvlc_util.h:78-81 has_error_flag_set *)
Definition has_error_flag_set (frameFlags : Z) : bool :=
  negb ((frameFlags .& frame_flags.AllErrorFlags) =? 0).

(* mvlc_util.h:83-83 get_frame_length *)
Definition get_frame_length (header : Z) : Z := fi_len (extract_frame_info header).

(* mvlc_buffer_validators.h:14-17 is_super_buffer *)
Definition is_super_buffer (header : Z) : bool :=
  get_frame_type header =? frame_headers.SuperFrame.

(* mvlc_buffer_validators.h:19-22 is_super_buffer_continuation *)
Definition is_super_buffer_continuation (header : Z) : bool :=
  get_frame_type header =? frame_headers.SuperContinuation.

(* mvlc_buffer_validators.h:24-27 is_stack_buffer *)
Definition is_stack_buffer (header : Z) : bool :=
  get_frame_type header =? frame_headers.StackFrame.

(* mvlc_buffer_validators.h:29-32 is_blockread_buffer *)
Definition is_blockread_buffer (header : Z) : bool :=
  get_frame_type header =? frame_headers.BlockRead.

(* mvlc_buffer_validators.h:34-37 is_stackerror_notification *)
Definition is_stackerror_notification (header : Z) : bool :=
  get_frame_type header =? frame_headers.StackError.

(* mvlc_buffer_validators.h:39-42 is_stack_buffer_continuation *)
Definition is_stack_buffer_continuation (header : Z) : bool :=
  get_frame_type header =? frame_headers.StackContinuation.

(* mvlc_buffer_validators.h:44-47 is_system_event *)
Definition is_system_event (header : Z) : bool :=
  get_frame_type header =? frame_headers.SystemEvent.

(* mvlc_buffer_validators.h:49-62 is_known_frame_header *)
Definition is_known_frame_header (header : Z) : bool :=
  let type := get_frame_type header in
  (type =? frame_headers.SuperFrame)
  || (type =? frame_headers.SuperContinuation)
  || (type =? frame_headers.StackFrame)
  || (type =? frame_headers.BlockRead)
  || (type =? frame_headers.StackError)
  || (type =? frame_headers.StackContinuation)
  || (type =? frame_headers.SystemEvent)
  || (type =? frame_headers.SystemEvent2).

(* mvlc_util.h:103-106 is_eth_header0 *)
Definition is_eth_header0 (header : Z) : bool :=
  ((header ≫ eth.header0.MagicShift) .& eth.header0.MagicMask) =? eth.header0.MagicValue.

(* mvlc_util.cc:480-494 is_super_command *)
Definition is_super_command (dataWord : Z) : bool :=
  let v := (dataWord ≫ super_commands.SuperCmdShift) .& super_commands.SuperCmdMask in
  (v =? SuperCommandType.CmdBufferStart)
  || (v =? SuperCommandType.CmdBufferEnd)
  || (v =? SuperCommandType.ReferenceWord)
  || (v =? SuperCommandType.ReadLocal)
  || (v =? SuperCommandType.ReadLocalBlock)
  || (v =? SuperCommandType.WriteLocal)
  || (v =? SuperCommandType.WriteReset).

(* mvlc_util.cc:496-519 is_stack_command *)
Definition is_stack_command (dataWord : Z) : bool :=
  let v := (dataWord ≫ stack_commands.CmdShift) .& stack_commands.CmdMask in
  (v =? StackCommandType.StackStart)
  || (v =? StackCommandType.StackEnd)
  || (v =? StackCommandType.VMEWrite)
  || (v =? StackCommandType.VMERead)
  || (v =? StackCommandType.VMEReadSwapped)
  || (v =? StackCommandType.VMEReadMem)
  || (v =? StackCommandType.VMEReadMemSwapped)
  || (v =? StackCommandType.WriteMarker)
  || (v =? StackCommandType.WriteSpecial)
  || (v =? StackCommandType.Wait)
  || (v =? StackCommandType.SignalAccu)
  || (v =? StackCommandType.MaskShiftAccu)
  || (v =? StackCommandType.SetAccu)
  || (v =? StackCommandType.ReadToAccu)
  || (v =? StackCommandType.CompareLoopAccu).

(* mvlc_util.h:158-164 get_super_command_arg *)
Definition get_super_command_arg (dataWord : Z) : option Z :=
  if negb (is_super_command dataWord) then None
  else Some (dataWord .& super_commands.SuperCmdArgMask).

(* mvlc_util.h:166-172 get_stack_command_arg0 *)
Definition get_stack_command_arg0 (dataWord : Z) : option Z :=
  if negb (is_stack_command dataWord) then None
  else Some ((dataWord ≫ stack_commands.CmdArg0Shift) .& stack_commands.CmdArg0Mask).

(* mvlc_util.h:174-180 get_stack_command_arg1 *)
Definition get_stack_command_arg1 (dataWord : Z) : option Z :=
  if negb (is_stack_command dataWord) then None
  else Some ((dataWord ≫ stack_commands.CmdArg1Shift) .& stack_commands.CmdArg1Mask).

(** ** Stack triggers

    The union [stacks::Trigger] overlays a [u16] with bit fields of 5, 3, 1 and
    7 bits, lowest bits first. *)

(* mvlc_constants.h:424-434 Trigger *)
Record Trigger : Type := mkTrigger {
  tr_subtype : Z;
  tr_type : Z;
  tr_immediate : Z;
  tr_unused : Z
}.

(* mvlc_constants.h:424-434 Trigger *)
Definition trigger_of_value (value : Z) : Trigger :=
  {| tr_subtype := value .& (2 ^ 5 - 1);
     tr_type := (value ≫ 5) .& (2 ^ 3 - 1);
     tr_immediate := (value ≫ 8) .& (2 ^ 1 - 1);
     tr_unused := (value ≫ 9) .& (2 ^ 7 - 1) |}.

(* mvlc_constants.h:424-434 Trigger *)
Definition trigger_value (t : Trigger) : Z :=
  tr_subtype t .| (tr_type t ≪ 5) .| (tr_immediate t ≪ 8) .| (tr_unused t ≪ 9).

(* mvlc_util.cc:277-286 get_trigger_irq_value *)
Definition get_trigger_irq_value (trigger : Trigger) : option Z :=
  if (tr_type trigger =? stacks.IRQNoIACK) || (tr_type trigger =? stacks.IRQWithIACK)
  then Some (tr_subtype trigger + 1)
  else None.

(* mvlc_util.cc:288-291 get_trigger_irq_value *)
Definition get_trigger_irq_value_u16 (triggerValue : Z) : option Z :=
  get_trigger_irq_value (trigger_of_value triggerValue).

(** ** ETH payload headers: [mvlc_eth_interface.h] and [calc_packet_loss] *)

(* mvlc_eth_interface.h:40-43 PayloadHeaderInfo *)
Record PayloadHeaderInfo : Type := mkPayloadHeaderInfo { header0 : Z; header1 : Z }.

(* mvlc_eth_interface.h:45-48 packetChannel *)
Definition packetChannel (i : PayloadHeaderInfo) : Z :=
  u16 ((header0 i ≫ eth.header0.PacketChannelShift) .& eth.header0.PacketChannelMask).

(* mvlc_eth_interface.h:50-53 packetNumber *)
Definition packetNumber (i : PayloadHeaderInfo) : Z :=
  u16 ((header0 i ≫ eth.header0.PacketNumberShift) .& eth.header0.PacketNumberMask).

(* mvlc_eth_interface.h:55-58 controllerId *)
Definition controllerId (i : PayloadHeaderInfo) : Z :=
  u16 ((header0 i ≫ eth.header0.CtrlIdShift) .& eth.header0.CtrlIdMask).

(* mvlc_eth_interface.h:60-63 dataWordCount *)
Definition dataWordCount (i : PayloadHeaderInfo) : Z :=
  u16 ((header0 i ≫ eth.header0.NumDataWordsShift) .& eth.header0.NumDataWordsMask).

(* mvlc_eth_interface.h:65-68 udpTimestamp *)
Definition udpTimestamp (i : PayloadHeaderInfo) : Z :=
  u16 ((header1 i ≫ eth.header1.TimestampShift) .& eth.header1.TimestampMask).

(* mvlc_eth_interface.h:70-73 nextHeaderPointer *)
Definition nextHeaderPointer (i : PayloadHeaderInfo) : Z :=
  u16 ((header1 i ≫ eth.header1.HeaderPointerShift) .& eth.header1.HeaderPointerMask).

(* mvlc_eth_interface.h:75-78 isNextHeaderPointerPresent *)
Definition isNextHeaderPointerPresent (i : PayloadHeaderInfo) : bool :=
  negb (nextHeaderPointer i =? eth.header1.NoHeaderPointerPresent).

(* mvlc_eth_interface.h:80-85 isNextHeaderPointerValid *)
Definition isNextHeaderPointerValid (i : PayloadHeaderInfo) : bool :=
  if isNextHeaderPointerPresent i then nextHeaderPointer i <? dataWordCount i else false.

(* mvlc_impl_eth.cc:1282-1295 calc_packet_loss *)
Definition calc_packet_loss (lastPacketNumber packetNumber : Z) : Z :=
  let PacketNumberMax := eth.header0.PacketNumberMask in
  let diff := packetNumber - lastPacketNumber in
  if diff <? 1 then PacketNumberMax + diff else diff - 1.

(** ** Walking raw buffers *)

(* mvlc_util.cc:343-352 skip_one_frame_usb *)
Definition skip_one_frame_usb (view : list Z) : Z :=
  if zlen view <? 4 then 0
  else
    let header := le_word view in
    let result := 1 + fi_len (extract_frame_info header) in
    u32 (result * 4).

(* mvlc_util.cc:355-380 skip_one_frame_eth *)
Definition skip_one_frame_eth (view : list Z) : Z :=
  if zlen view <? 4 then 0
  else
    let header := le_word view in
    if get_frame_type header =? frame_headers.SystemEvent then
      u32 ((1 + fi_len (extract_frame_info header)) * 4)
    else if zlen view >=? 2 * 4 then
      let h1 := le_word (zdrop 4 view) in
      let ethHdrs := {| header0 := header; header1 := h1 |} in
      u32 ((eth.HeaderWords + dataWordCount ethHdrs) * 4)
    else 0.

(** The loop of [fixup_buffer].  The result is the number of moved bytes and the
    new contents of [tmpBuf]; [None] means that the fuel ran out. *)
(* mvlc_util.cc:307-340 fixup_buffer *)
Fixpoint fixup_buffer_loop (fuel : nat) (skip_count : list Z → Z)
    (view tmpBuf : list Z) : option (Z * list Z) :=
  match fuel with
  | O => None
  | S fuel =>
      match view with
      | [] => Some (0, tmpBuf)
      | _ =>
          if zlen view >=? 4 then
            let bytesToSkip := skip_count view in
            if (bytesToSkip =? 0) || (bytesToSkip >? zlen view) then
              Some (zlen view, tmpBuf ++ view)
            else
              fixup_buffer_loop fuel skip_count (zdrop bytesToSkip view) tmpBuf
          else
            fixup_buffer_loop fuel skip_count view tmpBuf
      end
  end.

(* mvlc_util.h:113-120 fixup_buffer *)
Definition fixup_buffer (fuel : nat) (bufferType : ConnectionType) (msgBuf tmpBuf : list Z)
  : option (Z * list Z) :=
  match bufferType with
  | ETH => fixup_buffer_loop fuel skip_one_frame_eth msgBuf tmpBuf
  | USB => fixup_buffer_loop fuel skip_one_frame_usb msgBuf tmpBuf
  end.

(* mvlc_util.cc:451-466 calculate_complete_frames_bytes *)
Fixpoint complete_frames_loop (fuel : nat) (bufferType : ConnectionType)
    (view : list Z) (totalSize : Z) : option Z :=
  match fuel with
  | O => None
  | S fuel =>
      match view with
      | [] => Some totalSize
      | _ =>
          let bytesToSkip :=
            match bufferType with
            | USB => u32 (skip_one_frame_usb view * 4)
            | ETH => u32 (skip_one_frame_eth view * 4)
            end in
          if (bytesToSkip =? 0) || (bytesToSkip >? zlen view) then Some totalSize
          else
            complete_frames_loop fuel bufferType (zdrop bytesToSkip view)
              (totalSize + bytesToSkip)
      end
  end.

(* mvlc_util.cc:444-473 calculate_complete_frames_bytes *)
Definition calculate_complete_frames_bytes (bufferType : ConnectionType) (buf : list Z)
  : option Z :=
  complete_frames_loop (S (length buf)) bufferType buf 0.

(** The word loop of [detect_buffer_type]; [None] means that the fuel ran out. *)
(* mvlc_util.cc:417-441 detect_buffer_type *)
Fixpoint detect_buffer_type_loop (fuel : nat) (view : list Z)
  : option (option ConnectionType) :=
  match fuel with
  | O => None
  | S fuel =>
      match view with
      | [] => Some None
      | h :: _ =>
          if is_system_event h then
            let len := fi_len (extract_frame_info h) in
            if zlen view <? len + 1 then Some None
            else detect_buffer_type_loop fuel (zdrop (len + 1) view)
          else if is_eth_header0 h then Some (Some ETH)
          else if is_known_frame_header h then Some (Some USB)
          else Some None
      end
  end.

(* mvlc_util.cc:399-442 detect_buffer_type *)
Definition detect_buffer_type (buffer : list Z) : option ConnectionType :=
  match buffer with
  | [] => None
  | h :: _ =>
      if is_eth_header0 h then Some ETH
      else if is_known_frame_header h && negb (is_system_event h) then Some USB
      else default None (detect_buffer_type_loop (S (length buffer)) buffer)
  end.

#[global] Arguments extract_frame_info : simpl never.
#[global] Arguments get_frame_type : simpl never.
#[global] Arguments is_system_event : simpl never.
#[global] Arguments is_known_frame_header : simpl never.
#[global] Arguments is_eth_header0 : simpl never.
#[global] Arguments is_stack_command : simpl never.
#[global] Arguments is_super_command : simpl never.
#[global] Arguments dataWordCount : simpl never.
#[global] Arguments nextHeaderPointer : simpl never.
#[global] Arguments packetNumber : simpl never.
