(* ===== verification/FramesFacts.v ===== *)
(** * Facts about frame headers and buffers

    Range and round-trip lemmas for header words, the specification of the
    buffer walkers of [mvlc_util.cc] and of the loss counters. *)

From S2P Require Import Prelude Constants Frames.

(** ** Header words as sums of fields *)

(** The frame header layout [TTTT TTTT FFFF SSSS IIIL LLLL LLLL LLLL] as a sum. *)
Definition frame_word (type flags stack ctrl len : Z) : Z :=
  type * 2 ^ 24 + flags * 2 ^ 20 + stack * 2 ^ 16 + ctrl * 2 ^ 13 + len.

(** The system event layout [TTTT TTTT CIII SSSS SSSL LLLL LLLL LLLL]. *)
Definition sysevent_word (cont ctrl subtype len : Z) : Z :=
  frame_headers.SystemEvent * 2 ^ 24 + cont * 2 ^ 23 + ctrl * 2 ^ 20 + subtype * 2 ^ 13 + len.

Ltac unfold_headers :=
  unfold get_frame_type, extract_frame_info, frame_word, sysevent_word, is_eth_header0,
    packetNumber, packetChannel, dataWordCount, nextHeaderPointer, udpTimestamp, controllerId,
    frame_headers.TypeShift, frame_headers.TypeMask, frame_headers.LengthShift,
    frame_headers.LengthMask, frame_headers.FrameFlagsShift, frame_headers.FrameFlagsMask,
    frame_headers.StackNumShift, frame_headers.StackNumMask, frame_headers.CtrlIdShift,
    frame_headers.CtrlIdMask, system_event.CtrlIdShift, system_event.CtrlIdMask,
    system_event.SubtypeShift, system_event.SubtypeMask, system_event.ContinueShift,
    system_event.ContinueMask, frame_flags.shifts.Continue, frame_headers.SystemEvent,
    eth.header0.MagicShift, eth.header0.MagicMask, eth.header0.MagicValue,
    eth.header0.PacketChannelShift, eth.header0.PacketChannelMask,
    eth.header0.PacketNumberShift, eth.header0.PacketNumberMask,
    eth.header0.CtrlIdShift, eth.header0.CtrlIdMask,
    eth.header0.NumDataWordsShift, eth.header0.NumDataWordsMask,
    eth.header1.TimestampShift, eth.header1.TimestampMask,
    eth.header1.HeaderPointerShift, eth.header1.HeaderPointerMask in *.

Lemma frame_type_eq h : get_frame_type h = (h / 2 ^ 24) mod 2 ^ 8.
Proof. unfold_headers. by apply field_eq. Qed.

Lemma frame_type_range h : 0 ≤ get_frame_type h < 256.
Proof. rewrite frame_type_eq. apply (Z.mod_pos_bound _ 256). lia. Qed.

Lemma fi_type_eq h : fi_type (extract_frame_info h) = get_frame_type h.
Proof. unfold extract_frame_info, get_frame_type. by case_match. Qed.

Lemma fi_len_eq h : fi_len (extract_frame_info h) = h mod 2 ^ 13.
Proof.
  transitivity ((h / 2 ^ 0) mod 2 ^ 13); [|by rewrite Z.div_1_r].
  unfold_headers. rewrite <- (field_eq h 0 13 8191) by lia. by case_match.
Qed.

Lemma fi_len_range h : 0 ≤ fi_len (extract_frame_info h) < 8192.
Proof. rewrite fi_len_eq. apply (Z.mod_pos_bound _ 8192). lia. Qed.

Lemma fi_ctrl_range h : 0 ≤ fi_ctrl (extract_frame_info h) < 8.
Proof.
  unfold_headers. case_match; simpl fi_ctrl.
  - rewrite (field_eq h 20 3) by lia. apply (Z.mod_pos_bound _ 8); lia.
  - rewrite (field_eq h 13 3) by lia. apply (Z.mod_pos_bound _ 8); lia.
Qed.

Lemma fi_stack_range h : 0 ≤ fi_stack (extract_frame_info h) < 16.
Proof.
  unfold_headers. case_match; simpl fi_stack; [lia|].
  rewrite (field_eq h 16 4) by lia. apply (Z.mod_pos_bound _ 16); lia.
Qed.

Lemma fi_flags_range h : 0 ≤ fi_flags (extract_frame_info h) < 16.
Proof.
  unfold_headers. case_match; simpl fi_flags.
  - rewrite (field_eq h 23 1), shiftl_mul by lia.
    pose proof (Z.mod_pos_bound (h / 2 ^ 23) (2 ^ 1)). lia.
  - rewrite (field_eq h 20 4) by lia. apply (Z.mod_pos_bound _ 16); lia.
Qed.

#[export] Hint Resolve frame_type_range fi_len_range fi_ctrl_range fi_stack_range
  fi_flags_range : mvlc.

(** Decoding a header word that was put together from its fields gives the
    fields back. *)
Lemma extract_frame_word type flags stack ctrl len :
  0 ≤ type < 256 → type ≠ frame_headers.SystemEvent →
  0 ≤ flags < 16 → 0 ≤ stack < 16 → 0 ≤ ctrl < 8 → 0 ≤ len < 8192 →
  extract_frame_info (frame_word type flags stack ctrl len) =
    {| fi_len := len; fi_type := type; fi_flags := flags; fi_stack := stack;
       fi_ctrl := ctrl; fi_sysEventSubType := 0 |}.
Proof.
  intros ? Hne ????. unfold_headers.
  rewrite (field_eq _ 24 8 255), (field_eq _ 0 13 8191), (field_eq _ 20 4 15),
    (field_eq _ 16 4 15), (field_eq _ 13 3 7) by lia.
  match goal with |- (if ?b then _ else _) = _ => replace b with false by zlia end.
  f_equal; zlia.
Qed.

Lemma extract_sysevent_word cont ctrl subtype len :
  0 ≤ cont < 2 → 0 ≤ ctrl < 8 → 0 ≤ subtype < 128 → 0 ≤ len < 8192 →
  extract_frame_info (sysevent_word cont ctrl subtype len) =
    {| fi_len := len; fi_type := frame_headers.SystemEvent; fi_flags := cont * 8; fi_stack := 0;
       fi_ctrl := ctrl; fi_sysEventSubType := subtype |}.
Proof.
  intros ????. unfold_headers.
  rewrite (field_eq _ 24 8 255), (field_eq _ 0 13 8191), (field_eq _ 20 3 7),
    (field_eq _ 13 7 127), (field_eq _ 23 1 1), shiftl_mul by lia.
  match goal with |- (if ?b then _ else _) = _ => replace b with true by zlia end.
  f_equal; zlia.
Qed.

(** Every header word is the sum of the fields that [extract_frame_info] finds. *)
Lemma frame_word_surj h :
  is_u32 h → get_frame_type h ≠ frame_headers.SystemEvent →
  let i := extract_frame_info h in
  h = frame_word (fi_type i) (fi_flags i) (fi_stack i) (fi_ctrl i) (fi_len i).
Proof.
  intros [? ?] Hne. rewrite frame_type_eq in Hne. unfold_headers.
  rewrite (field_eq _ 24 8 255), (field_eq _ 0 13 8191), (field_eq _ 20 4 15),
    (field_eq _ 16 4 15), (field_eq _ 13 3 7) by lia.
  match goal with |- context [if ?b then _ else _] => replace b with false by lia end.
  simpl. zlia.
Qed.

(** ** Triggers *)

Lemma trigger_value_sum t :
  0 ≤ tr_subtype t < 32 → 0 ≤ tr_type t < 8 → 0 ≤ tr_immediate t < 2 →
  trigger_value t =
    tr_subtype t + tr_type t * 2 ^ 5 + tr_immediate t * 2 ^ 8 + tr_unused t * 2 ^ 9.
Proof.
  intros. unfold trigger_value. rewrite !shiftl_mul by lia.
  by rewrite (lor_mul_add _ _ 5), (lor_mul_add _ _ 8), (lor_mul_add _ _ 9) by lia.
Qed.

(** The trigger union reads back the bit fields that were stored in it, and
    the fields of a 16-bit trigger value determine the value: both views of
    [stacks::Trigger] carry the same information. *)
Theorem trigger_roundtrip :
  (∀ t, 0 ≤ tr_subtype t < 32 → 0 ≤ tr_type t < 8 → 0 ≤ tr_immediate t < 2 →
        0 ≤ tr_unused t < 128 →
        is_u16 (trigger_value t) ∧ trigger_of_value (trigger_value t) = t) ∧
  (∀ v, is_u16 v → trigger_value (trigger_of_value v) = v).
Proof.
  split.
  - intros [s ty im un] Hs Ht Hi Hu; simpl in *.
    rewrite trigger_value_sum by done. unfold trigger_of_value, is_u16; simpl.
    rewrite !land_mask, !shiftr_div by lia. split; [lia|]. f_equal; zlia.
  - intros v [H0 H1]. unfold trigger_of_value.
    rewrite trigger_value_sum; simpl; rewrite ?land_mask, ?shiftr_div by lia;
      try (apply field_range; lia).
    zlia.
Qed.

Lemma trigger_roundtrip_witness :
  trigger_of_value (trigger_value (mkTrigger 6 2 1 0)) = mkTrigger 6 2 1 0 ∧
  trigger_value (trigger_of_value 0x146) = 0x146.
Proof.
  destruct trigger_roundtrip as [H1 H2]. split.
  - apply (H1 (mkTrigger 6 2 1 0)); simpl; lia.
  - apply H2. unfold is_u16. lia.
Defined.

(** ** Packet loss *)

(** [calc_packet_loss] is the number of packets missing between two
    consecutively received packet numbers of the 12-bit counter, also across its
    wrap-around. *)
Theorem calc_packet_loss_mod last cur :
  0 ≤ last < 4096 → 0 ≤ cur < 4096 →
  calc_packet_loss last cur = (cur - last - 1) mod 4096 ∧
  (calc_packet_loss last cur = 0 ↔ cur = (last + 1) mod 4096).
Proof.
  intros. unfold calc_packet_loss. unfold_headers.
  assert ((if cur - last <? 1 then 4095 + (cur - last) else cur - last - 1)
          = (cur - last - 1) mod 4096) as ->.
  { case_match; breflect; zlia. }
  split; [done|]. split; intros; zlia.
Qed.

Lemma calc_packet_loss_mod_witness :
  0 ≤ 4095 < 4096 ∧ calc_packet_loss 4095 2 = 2.
Proof. split; [lia|]. rewrite (proj1 (calc_packet_loss_mod 4095 2 ltac:(lia) ltac:(lia))). done. Defined.

(** [udpTimestamp] returns the low 16 bits of the 20-bit ETH timestamp of
    header1: the accessor truncates the timestamp it is named after. *)
Theorem udpTimestamp_truncated h0 h1 :
  is_u32 h1 →
  udpTimestamp {| header0 := h0; header1 := h1 |} = (h1 / 2 ^ 12) mod 2 ^ 16 ∧
  (udpTimestamp {| header0 := h0; header1 := h1 |} = h1 / 2 ^ 12 ↔ h1 < 2 ^ 28).
Proof.
  intros [? ?]. unfold_headers. simpl header1.
  rewrite (field_eq h1 12 20) by lia. unfold u16.
  split; [zlia|]. split; intros; zlia.
Qed.

Lemma udpTimestamp_truncated_witness :
  is_u32 0x10000000 ∧ udpTimestamp {| header0 := 0; header1 := 0x10000000 |} = 0.
Proof.
  assert (H : is_u32 0x10000000) by (unfold is_u32; lia).
  split; [done|]. rewrite (proj1 (udpTimestamp_truncated 0 _ H)). done.
Defined.

(** ** Buffer classification *)

Lemma known_not_eth h : is_known_frame_header h = true → is_eth_header0 h = false.
Proof.
  intros Hk. unfold is_known_frame_header in Hk. rewrite frame_type_eq in Hk.
  unfold_headers. rewrite (field_eq h 30 2) by lia.
  apply Z.eqb_neq. intros Heq.
  assert ((h / 2 ^ 24) mod 2 ^ 8 < 64) by zlia.
  unfold frame_headers.SuperFrame, frame_headers.SuperContinuation, frame_headers.StackFrame,
    frame_headers.BlockRead, frame_headers.StackError, frame_headers.StackContinuation,
    frame_headers.SystemEvent2 in Hk.
  repeat (apply orb_true_iff in Hk as [Hk|Hk]); breflect; lia.
Qed.

Lemma sysevent_known h : is_system_event h = true → is_known_frame_header h = true.
Proof.
  unfold is_system_event, is_known_frame_header. intros ->. by rewrite orb_true_r.
Qed.

(** A complete system event frame: the header and as many words as it announces. *)
Definition sysevent_frame (f : list Z) : Prop :=
  ∃ h ws, f = h :: ws ∧ is_system_event h = true ∧ zlen ws = fi_len (extract_frame_info h).

Lemma detect_loop_sysevents fs tail fuel :
  Forall sysevent_frame fs →
  detect_buffer_type_loop (length fs + fuel) (concat fs ++ tail) =
  detect_buffer_type_loop fuel tail.
Proof.
  induction 1 as [|f fs (h & ws & -> & Hs & Hl) Hfs IH]; [done|].
  change (concat ((h :: ws) :: fs)) with ((h :: ws) ++ concat fs). rewrite <- app_assoc.
  change (length ((h :: ws) :: fs) + fuel)%nat with (S (length fs + fuel)).
  cbn [detect_buffer_type_loop app]. rewrite Hs.
  replace (zlen (h :: ws ++ concat fs ++ tail) <? fi_len (extract_frame_info h) + 1) with false
    by (symmetry; autorewrite with mvlc_len; rewrite Hl;
        pose proof (zlen_nonneg (concat fs)); pose proof (zlen_nonneg tail); lia).
  rewrite <- Hl. replace (zlen ws + 1) with (zlen (h :: ws)) by (rewrite zlen_cons; lia).
  change (h :: ws ++ concat fs ++ tail) with ((h :: ws) ++ (concat fs ++ tail)).
  by rewrite zdrop_app.
Qed.

Lemma detect_loop_fuel_mono fuel fuel' view r :
  detect_buffer_type_loop fuel view = Some r → (fuel ≤ fuel')%nat →
  detect_buffer_type_loop fuel' view = Some r.
Proof.
  revert fuel' view; induction fuel as [|fuel IH]; intros fuel' view H Hle; [done|].
  destruct fuel' as [|fuel']; [lia|]. cbn [detect_buffer_type_loop] in *.
  destruct view as [|h view]; [done|].
  repeat case_match; try done. eapply IH; [done|lia].
Qed.

Lemma concat_frames_length fs : Forall sysevent_frame fs → (length fs ≤ length (concat fs))%nat.
Proof.
  induction 1 as [|f fs (h & ws & -> & _) Hfs IH]; simpl; [lia|]. rewrite length_app. lia.
Qed.

Lemma detect_buffer_type_cons h l :
  detect_buffer_type (h :: l) =
    if is_eth_header0 h then Some ETH
    else if is_known_frame_header h && negb (is_system_event h) then Some USB
    else default None (detect_buffer_type_loop (S (length (h :: l))) (h :: l)).
Proof. done. Qed.

(** [detect_buffer_type] skips every leading system event frame and decides by
    the first other word: a word with the ETH magic means ETH, any other known
    frame header means USB, and a buffer of system events only is ambiguous. *)
Theorem detect_buffer_type_spec fs :
  Forall sysevent_frame fs →
  detect_buffer_type (concat fs) = None ∧
  (∀ h rest, is_eth_header0 h = true → detect_buffer_type (concat fs ++ h :: rest) = Some ETH) ∧
  (∀ h rest, is_known_frame_header h = true → is_system_event h = false →
             detect_buffer_type (concat fs ++ h :: rest) = Some USB).
Proof.
  intros Hfs.
  assert (Hgo : ∀ tail r, detect_buffer_type_loop 1 tail = Some r →
    default None (detect_buffer_type_loop (S (length (concat fs ++ tail))) (concat fs ++ tail)) = r).
  { intros tail r Hr.
    erewrite detect_loop_fuel_mono; [done| |].
    - rewrite (detect_loop_sysevents fs tail 1) by done. exact Hr.
    - rewrite length_app. pose proof (concat_frames_length _ Hfs). lia. }
  assert (Hhd : ∀ f fs', fs = f :: fs' → ∃ h ws, f = h :: ws ∧ is_system_event h = true).
  { intros f fs' ->. apply Forall_cons in Hfs as [(h & ws & -> & ? & _) _]. eauto. }
  assert (Hdet : ∀ tail, fs ≠ [] → detect_buffer_type (concat fs ++ tail) =
    default None (detect_buffer_type_loop (S (length (concat fs ++ tail))) (concat fs ++ tail))).
  { intros tail Hne. destruct fs as [|f fs']; [done|].
    destruct (Hhd f fs' eq_refl) as (h & ws & -> & Hs).
    change (concat ((h :: ws) :: fs') ++ tail) with (h :: (ws ++ concat fs') ++ tail).
    rewrite detect_buffer_type_cons.
    rewrite (known_not_eth h (sysevent_known h Hs)), Hs, andb_false_r. done. }
  split; [|split].
  - destruct (decide (fs = [])) as [->|Hne]; [done|].
    rewrite <- (app_nil_r (concat fs)), Hdet by done. by apply Hgo.
  - intros h rest He.
    assert (is_system_event h = false) as Hns.
    { destruct (is_system_event h) eqn:E; [|done].
      by rewrite (known_not_eth h (sysevent_known h E)) in He. }
    destruct (decide (fs = [])) as [->|Hne];
      [cbn [concat app]; by rewrite detect_buffer_type_cons, He|].
    rewrite Hdet by done. apply Hgo. cbn [detect_buffer_type_loop]. by rewrite Hns, He.
  - intros h rest Hk Hns.
    destruct (decide (fs = [])) as [->|Hne];
      [cbn [concat app]; by rewrite detect_buffer_type_cons, (known_not_eth h Hk), Hk, Hns|].
    rewrite Hdet by done. apply Hgo. cbn [detect_buffer_type_loop]. by rewrite Hns, (known_not_eth h Hk), Hk.
Qed.

Lemma detect_buffer_type_spec_witness :
  Forall sysevent_frame [[0xFA022001; 7]] ∧
  detect_buffer_type [0xFA022001; 7; 0xF3010000] = Some USB.
Proof.
  assert (H : Forall sysevent_frame [[0xFA022001; 7]]).
  { constructor; [|constructor]. exists 0xFA022001, [7]. done. }
  split; [done|].
  destruct (detect_buffer_type_spec _ H) as (_ & _ & Hu). by apply (Hu 0xF3010000 []).
Defined.

(** ** The buffer walkers *)

Definition skip_one_frame (t : ConnectionType) : list Z → Z :=
  match t with USB => skip_one_frame_usb | ETH => skip_one_frame_eth end.

(** A complete frame (USB) or a complete packet or system event frame (ETH). *)
Definition complete_frame (t : ConnectionType) (f : list Z) : Prop :=
  0 < skip_one_frame t f ∧ skip_one_frame t f = zlen f.

(** What is left has no complete frame at its start. *)
Definition incomplete (t : ConnectionType) (r : list Z) : Prop :=
  skip_one_frame t r = 0 ∨ zlen r < skip_one_frame t r.

Lemma skip_usb_eq v :
  skip_one_frame_usb v =
    if zlen v <? 4 then 0 else (1 + fi_len (extract_frame_info (le_word v))) * 4.
Proof.
  unfold skip_one_frame_usb. case_match; [done|]. unfold u32. apply Z.mod_small.
  pose proof (fi_len_range (le_word v)). lia.
Qed.

Lemma dataWordCount_range i : 0 ≤ dataWordCount i < 8192.
Proof.
  unfold_headers. unfold u16. rewrite (field_eq _ 0 13) by lia.
  pose proof (field_range (header0 i / 2 ^ 0) 13). rewrite Z.mod_small; lia.
Qed.

Lemma skip_eth_eq v :
  skip_one_frame_eth v =
    if zlen v <? 4 then 0
    else if get_frame_type (le_word v) =? frame_headers.SystemEvent
         then (1 + fi_len (extract_frame_info (le_word v))) * 4
         else if zlen v >=? 8
              then (2 + dataWordCount {| header0 := le_word v; header1 := le_word (zdrop 4 v) |}) * 4
              else 0.
Proof.
  unfold skip_one_frame_eth, u32, eth.HeaderWords. change (2 * 4) with 8.
  pose proof (fi_len_range (le_word v)).
  pose proof (dataWordCount_range {| header0 := le_word v; header1 := le_word (zdrop 4 v) |}).
  repeat case_match; try done; apply Z.mod_small; lia.
Qed.

Lemma le_word_app v r : 4 ≤ zlen v → le_word (v ++ r) = le_word v.
Proof.
  unfold zlen. do 4 (destruct v as [|? v]; [simpl; lia|]). done.
Qed.

Lemma skip_app t f r : complete_frame t f → skip_one_frame t (f ++ r) = zlen f.
Proof.
  intros [Hpos Hf]. rewrite <- Hf. pose proof (zlen_nonneg r).
  destruct t; simpl in *.
  - rewrite !skip_usb_eq in *. autorewrite with mvlc_len.
    destruct (zlen f <? 4) eqn:E; [lia|]. breflect.
    replace (zlen f + zlen r <? 4) with false by lia. by rewrite le_word_app.
  - rewrite !skip_eth_eq in *. autorewrite with mvlc_len.
    destruct (zlen f <? 4) eqn:E; [lia|]. breflect.
    replace (zlen f + zlen r <? 4) with false by lia. rewrite le_word_app by done.
    case_match; [done|]. destruct (zlen f >=? 8) eqn:E8; [|lia].
    replace (zlen f + zlen r >=? 8) with true by lia. apply Z.geb_le in E8.
    rewrite zdrop_app_l, le_word_app; [done| |lia].
    rewrite zlen_zdrop; lia.
Qed.

Lemma skip_multiple t v : 0 ≤ skip_one_frame t v ∧ (skip_one_frame t v) mod 4 = 0.
Proof.
  destruct t; simpl; [rewrite skip_usb_eq | rewrite skip_eth_eq];
    repeat case_match; try done; split; try (apply Z.mod_mul; lia).
  - pose proof (fi_len_range (le_word v)); lia.
  - pose proof (fi_len_range (le_word v)); lia.
  - pose proof (dataWordCount_range {| header0 := le_word v; header1 := le_word (zdrop 4 v) |}). lia.
Qed.

Lemma skip_take t v :
  0 < skip_one_frame t v ≤ zlen v → complete_frame t (ztake (skip_one_frame t v) v).
Proof.
  intros [Hpos Hle]. set (n := skip_one_frame t v) in *.
  assert (Hn4 : 4 ≤ n).
  { pose proof (skip_multiple t v) as [_ Hm]. fold n in Hm. zlia. }
  assert (Hlen : zlen (ztake n v) = n) by (unfold zlen, ztake in *; rewrite length_take; lia).
  assert (Hv : v = ztake n v ++ zdrop n v) by (unfold ztake, zdrop; by rewrite take_drop).
  assert (Hw : le_word (ztake n v) = le_word v) by (rewrite Hv at 2; rewrite le_word_app; lia).
  enough (Hs : skip_one_frame t (ztake n v) = n) by (split; lia).
  destruct t; simpl in *.
  - unfold n at 2. rewrite !skip_usb_eq. rewrite Hlen, Hw.
    assert ((zlen v <? 4) = false) as -> by lia. by assert ((n <? 4) = false) as -> by lia.
  - unfold n at 2. rewrite !skip_eth_eq. rewrite Hlen, Hw.
    assert ((zlen v <? 4) = false) as -> by lia. assert ((n <? 4) = false) as -> by lia.
    case_match; [done|].
    destruct (zlen v >=? 8) eqn:E8.
    + assert (Hn8 : 8 ≤ n).
      { unfold n. rewrite skip_eth_eq. assert ((zlen v <? 4) = false) as -> by lia.
        rewrite E8. match goal with H : _ = false |- _ => rewrite H end.
        pose proof (dataWordCount_range {| header0 := le_word v; header1 := le_word (zdrop 4 v) |}).
        lia. }
      assert ((n >=? 8) = true) as -> by lia.
      enough (le_word (zdrop 4 (ztake n v)) = le_word (zdrop 4 v)) as -> by done.
      rewrite Hv at 2. rewrite zdrop_app_l, le_word_app; [done| |lia].
      rewrite zlen_zdrop; lia.
    + exfalso. revert Hpos. unfold n. rewrite skip_eth_eq, E8.
      match goal with H : _ = false |- _ => rewrite H end. case_match; lia.
Qed.

Lemma fixup_loop_frames t fs r tmp fuel :
  Forall (complete_frame t) fs →
  fixup_buffer_loop (length fs + fuel) (skip_one_frame t) (concat fs ++ r) tmp =
  fixup_buffer_loop fuel (skip_one_frame t) r tmp.
Proof.
  induction 1 as [|f fs Hf Hfs IH]; [done|].
  change (concat (f :: fs)) with (f ++ concat fs). rewrite <- app_assoc.
  cbn [length Nat.add fixup_buffer_loop]. rewrite (skip_app t f _ Hf).
  destruct Hf as [Hpos Hf]. pose proof (skip_multiple t f) as [_ Hm].
  pose proof (zlen_nonneg (concat fs ++ r)).
  destruct (f ++ concat fs ++ r) as [|b l] eqn:E.
  { apply (f_equal zlen) in E. rewrite zlen_app in E. change (zlen (@nil Z)) with 0 in E. lia. }
  rewrite <- E in *. clear E b l. rewrite zlen_app.
  replace (zlen f + zlen (concat fs ++ r) >=? 4) with true by zlia.
  replace ((zlen f =? 0) || (zlen f >? zlen f + zlen (concat fs ++ r)))%bool with false by lia.
  by rewrite zdrop_app.
Qed.

Lemma fixup_buffer_eq fuel t buf tmp :
  fixup_buffer fuel t buf tmp = fixup_buffer_loop fuel (skip_one_frame t) buf tmp.
Proof. by destruct t. Qed.

Lemma fixup_loop_incomplete t r tmp fuel :
  (r = [] ∨ 4 ≤ zlen r) → incomplete t r →
  fixup_buffer_loop (S fuel) (skip_one_frame t) r tmp = Some (zlen r, tmp ++ r).
Proof.
  intros Hr Hi. cbn [fixup_buffer_loop]. destruct r as [|b r].
  { by rewrite app_nil_r. }
  destruct Hr as [|Hr]; [done|].
  replace (zlen (b :: r) >=? 4) with true by lia.
  destruct Hi as [Hi|Hi]; [rewrite Hi; done|].
  replace (skip_one_frame t (b :: r) >? zlen (b :: r)) with true by lia.
  by rewrite orb_true_r.
Qed.

Lemma complete_frames_length t fs :
  Forall (complete_frame t) fs → (length fs ≤ length (concat fs))%nat.
Proof.
  induction 1 as [|f fs Hf Hfs IH]; [done|].
  change (concat (f :: fs)) with (f ++ concat fs). rewrite length_app. cbn [length].
  destruct Hf as [? Hf]. unfold zlen in Hf. lia.
Qed.

(** Every buffer splits into complete frames and an incomplete rest. *)
Lemma split_frames t buf :
  ∃ fs r, buf = concat fs ++ r ∧ Forall (complete_frame t) fs ∧ incomplete t r.
Proof.
  induction buf as [buf IH] using (induction_ltof1 _ (@length Z)); unfold ltof in IH.
  destruct (decide (incomplete t buf)) as [Hi|Hi]; [by exists [], buf|].
  assert (Hs : 0 < skip_one_frame t buf ≤ zlen buf).
  { unfold incomplete in Hi. pose proof (skip_multiple t buf). lia. }
  destruct (IH (zdrop (skip_one_frame t buf) buf)) as (fs & r & Heq & Hfs & Hr).
  { unfold zdrop, zlen in *. rewrite length_drop. lia. }
  exists (ztake (skip_one_frame t buf) buf :: fs), r. split; [|split; [|done]].
  - cbn [concat]. rewrite <- app_assoc, <- Heq. unfold ztake, zdrop. by rewrite take_drop.
  - constructor; [by apply skip_take | done].
Qed.

Lemma complete_frames_mod4 t fs : Forall (complete_frame t) fs → zlen (concat fs) mod 4 = 0.
Proof.
  induction 1 as [|f fs [Hpos Hf] Hfs IH]; [done|].
  change (concat (f :: fs)) with (f ++ concat fs). rewrite zlen_app.
  pose proof (skip_multiple t f) as [_ Hm]. zlia.
Qed.

(** [fixup_buffer] on a buffer of whole words always returns: it finds the
    complete frames at the front of the buffer and copies exactly the incomplete
    rest behind the contents of [tmpBuf], returning its size.  As many loop
    iterations as the buffer has bytes, plus one, are enough. *)
Theorem fixup_buffer_moves_tail t buf tmp :
  zlen buf mod 4 = 0 →
  ∃ fs r, buf = concat fs ++ r ∧ Forall (complete_frame t) fs ∧ incomplete t r ∧
    ∀ fuel, (length buf < fuel)%nat → fixup_buffer fuel t buf tmp = Some (zlen r, tmp ++ r).
Proof.
  intros Hmod. destruct (split_frames t buf) as (fs & r & -> & Hfs & Hr).
  exists fs, r. split; [done|]. split; [done|]. split; [done|]. intros fuel Hfuel.
  rewrite length_app in Hfuel. pose proof (complete_frames_length _ _ Hfs).
  rewrite fixup_buffer_eq.
  replace fuel with (length fs + S (fuel - length fs - 1))%nat by lia.
  rewrite fixup_loop_frames by done. apply fixup_loop_incomplete; [|done].
  pose proof (complete_frames_mod4 _ _ Hfs). rewrite zlen_app in Hmod.
  destruct r as [|b r]; [by left|]. right. pose proof (zlen_nonneg r).
  rewrite zlen_cons in *. zlia.
Qed.

Lemma fixup_buffer_moves_tail_witness :
  zlen (words_to_bytes [0xF3010001; 1; 0xF3010002; 2]) mod 4 = 0 ∧
  ∃ r, fixup_buffer 17 USB (words_to_bytes [0xF3010001; 1; 0xF3010002; 2]) [] = Some (8, r).
Proof.
  assert (H : zlen (words_to_bytes [0xF3010001; 1; 0xF3010002; 2]) mod 4 = 0) by done.
  split; [done|].
  destruct (fixup_buffer_moves_tail USB _ [] H) as (fs & r & _ & _ & _ & Hf).
  exists r. specialize (Hf 17%nat ltac:(vm_compute; lia)).
  assert (Hc : fixup_buffer 17 USB (words_to_bytes [0xF3010001; 1; 0xF3010002; 2]) [] =
               Some (8, words_to_bytes [0xF3010002; 2])) by (by vm_compute).
  rewrite Hc in Hf |- *. by simplify_eq/=.
Defined.

(** If one to three bytes remain behind the complete frames of a buffer, the
    loop of [fixup_buffer] makes no progress: no number of iterations returns. *)
Theorem fixup_buffer_hangs t fs r tmp fuel :
  Forall (complete_frame t) fs → 1 ≤ zlen r ≤ 3 →
  fixup_buffer fuel t (concat fs ++ r) tmp = None.
Proof.
  intros Hfs Hr. rewrite fixup_buffer_eq.
  assert (Hstuck : ∀ n, fixup_buffer_loop n (skip_one_frame t) r tmp = None).
  { induction n as [|n IH]; [done|]. cbn [fixup_buffer_loop].
    destruct r as [|b r]; [rewrite zlen_nil in Hr; lia|].
    by replace (zlen (b :: r) >=? 4) with false by lia. }
  assert (Hmono : ∀ n, fixup_buffer_loop (n + fuel) (skip_one_frame t) (concat fs ++ r) tmp = None →
                       fixup_buffer_loop fuel (skip_one_frame t) (concat fs ++ r) tmp = None).
  { generalize (concat fs ++ r) as v. clear. intros v n. revert v.
    induction fuel as [|fuel IH]; intros v H; [done|].
    rewrite Nat.add_succ_r in H. cbn [fixup_buffer_loop] in *.
    repeat case_match; try done; by apply IH. }
  apply (Hmono (length fs)). by rewrite fixup_loop_frames.
Qed.

Lemma fixup_buffer_hangs_witness :
  1 ≤ zlen [1; 2] ≤ 3 ∧ ∀ fuel, fixup_buffer fuel USB (words_to_bytes [0xF3010000] ++ [1; 2]) [] = None.
Proof.
  split; [vm_compute; split; congruence|]. intros fuel.
  apply (fixup_buffer_hangs USB [words_to_bytes [0xF3010000]] [1; 2] [] fuel);
    [|vm_compute; split; congruence].
  constructor; [|constructor]. by vm_compute.
Defined.

(** [calculate_complete_frames_bytes] scales the byte counts of the skip
    functions by four once more: for a buffer that is exactly one complete frame
    it reports no complete frame at all. *)
Theorem calculate_complete_frames_bytes_scaled t f :
  complete_frame t f → calculate_complete_frames_bytes t f = Some 0.
Proof.
  intros [Hpos Hf]. unfold calculate_complete_frames_bytes. cbn [complete_frames_loop].
  destruct f as [|b f]; [done|]. set (v := b :: f) in *.
  assert (Hb : skip_one_frame t v ≤ 4 * 8194).
  { destruct t; simpl; [rewrite skip_usb_eq | rewrite skip_eth_eq];
      pose proof (fi_len_range (le_word v));
      pose proof (dataWordCount_range {| header0 := le_word v; header1 := le_word (zdrop 4 v) |});
      repeat case_match; lia. }
  assert ((match t with
           | USB => u32 (skip_one_frame_usb v * 4)
           | ETH => u32 (skip_one_frame_eth v * 4)
           end) = zlen v * 4) as ->.
  { destruct t; simpl in *; rewrite Hf in *; unfold u32; apply Z.mod_small; lia. }
  by replace ((zlen v * 4 =? 0) || (zlen v * 4 >? zlen v))%bool with true by lia.
Qed.

Lemma calculate_complete_frames_bytes_scaled_witness :
  complete_frame USB (words_to_bytes [0xF3010001; 1]) ∧
  calculate_complete_frames_bytes USB (words_to_bytes [0xF3010001; 1]) = Some 0.
Proof.
  assert (H : complete_frame USB (words_to_bytes [0xF3010001; 1])) by (by vm_compute).
  split; [done|]. by apply (calculate_complete_frames_bytes_scaled USB _ H).
Defined.
