(* ===== verification/Commands.v ===== *)
(** * Commands and command builders: [mvlc_command_builders.h/.cc]

    Super commands and stack commands, the two builders, the encoding into the
    MVLC buffer format and the decoding of such buffers.  [assert]s are not part
    of the model (release builds drop them); the conditions they name appear as
    hypotheses where a theorem needs them. *)

From S2P Require Import Prelude Constants Frames.

(** ** Super commands *)

(* mvlc_constants.h:66-79 SuperCommandType *)
Inductive SuperCT : Type :=
| CmdBufferStart | CmdBufferEnd | ReferenceWord | ReadLocal
| ReadLocalBlock | WriteLocal | WriteReset | EthDelay.

#[global] Instance SuperCT_eq_dec : EqDecision SuperCT.
Proof. solve_decision. Defined.

(* mvlc_constants.h:66-79 SuperCommandType *)
Definition SuperCT_value (t : SuperCT) : Z :=
  match t with
  | CmdBufferStart => SuperCommandType.CmdBufferStart
  | CmdBufferEnd => SuperCommandType.CmdBufferEnd
  | ReferenceWord => SuperCommandType.ReferenceWord
  | ReadLocal => SuperCommandType.ReadLocal
  | ReadLocalBlock => SuperCommandType.ReadLocalBlock
  | WriteLocal => SuperCommandType.WriteLocal
  | WriteReset => SuperCommandType.WriteReset
  | EthDelay => SuperCommandType.EthDelay
  end.

(** The [static_cast] from [u16] for values that are enumerators. *)
Definition SuperCT_of_value (v : Z) : option SuperCT :=
  if v =? SuperCommandType.CmdBufferStart then Some CmdBufferStart
  else if v =? SuperCommandType.CmdBufferEnd then Some CmdBufferEnd
  else if v =? SuperCommandType.ReferenceWord then Some ReferenceWord
  else if v =? SuperCommandType.ReadLocal then Some ReadLocal
  else if v =? SuperCommandType.ReadLocalBlock then Some ReadLocalBlock
  else if v =? SuperCommandType.WriteLocal then Some WriteLocal
  else if v =? SuperCommandType.WriteReset then Some WriteReset
  else if v =? SuperCommandType.EthDelay then Some EthDelay
  else None.

(* mvlc_command_builders.h:25-41 SuperCommand *)
Record SuperCommand : Type := mkSuper {
  su_type : SuperCT;
  su_address : Z;
  su_value : Z
}.

#[global] Instance SuperCommand_eq_dec : EqDecision SuperCommand.
Proof. solve_decision. Defined.

(** A [SuperCommandBuilder] is its list [m_commands]. *)
Abbreviation SuperCommandBuilder := (list SuperCommand).

(* mvlc_command_builders.cc:23-27 SuperCommandBuilder::addReferenceWord *)
Definition su_addReferenceWord (b : SuperCommandBuilder) (refValue : Z) : SuperCommandBuilder :=
  b ++ [mkSuper ReferenceWord 0 refValue].

(* mvlc_command_builders.cc:29-33 SuperCommandBuilder::addReadLocal *)
Definition su_addReadLocal (b : SuperCommandBuilder) (address : Z) : SuperCommandBuilder :=
  b ++ [mkSuper ReadLocal address 0].

(* mvlc_command_builders.cc:35-39 SuperCommandBuilder::addReadLocalBlock *)
Definition su_addReadLocalBlock (b : SuperCommandBuilder) (address words : Z)
  : SuperCommandBuilder :=
  b ++ [mkSuper ReadLocalBlock address words].

(* mvlc_command_builders.cc:41-45 SuperCommandBuilder::addWriteLocal *)
Definition su_addWriteLocal (b : SuperCommandBuilder) (address value : Z) : SuperCommandBuilder :=
  b ++ [mkSuper WriteLocal address value].

(* mvlc_command_builders.cc:47-51 SuperCommandBuilder::addWriteReset *)
Definition su_addWriteReset (b : SuperCommandBuilder) : SuperCommandBuilder :=
  b ++ [mkSuper WriteReset 0 0].

(* mvlc_command_builders.cc:53-57 SuperCommandBuilder::addCommand *)
Definition su_addCommand (b : SuperCommandBuilder) (cmd : SuperCommand) : SuperCommandBuilder :=
  b ++ [cmd].

(* mvlc_command_builders.cc:59-63 SuperCommandBuilder::addCommands *)
Definition su_addCommands (b : SuperCommandBuilder) (commands : list SuperCommand)
  : SuperCommandBuilder :=
  b ++ commands.

(** ** Stack commands *)

(* mvlc_command_builders.h:96-132 StackCommand::CommandType *)
Inductive CommandType : Type :=
| Invalid | StackStart | StackEnd | VMEWrite | VMERead | VMEReadSwapped
| VMEReadMem | VMEReadMemSwapped | WriteMarker | WriteSpecial | Wait
| SignalAccu | MaskShiftAccu | SetAccu | ReadToAccu | CompareLoopAccu
| SoftwareDelay | Custom.

#[global] Instance CommandType_eq_dec : EqDecision CommandType.
Proof. solve_decision. Defined.

(* mvlc_command_builders.h:96-132 StackCommand::CommandType *)
Definition CommandType_value (t : CommandType) : Z :=
  match t with
  | Invalid => 0x0
  | StackStart => StackCommandType.StackStart
  | StackEnd => StackCommandType.StackEnd
  | VMEWrite => StackCommandType.VMEWrite
  | VMERead => StackCommandType.VMERead
  | VMEReadSwapped => StackCommandType.VMEReadSwapped
  | VMEReadMem => StackCommandType.VMEReadMem
  | VMEReadMemSwapped => StackCommandType.VMEReadMemSwapped
  | WriteMarker => StackCommandType.WriteMarker
  | WriteSpecial => StackCommandType.WriteSpecial
  | Wait => StackCommandType.Wait
  | SignalAccu => StackCommandType.SignalAccu
  | MaskShiftAccu => StackCommandType.MaskShiftAccu
  | SetAccu => StackCommandType.SetAccu
  | ReadToAccu => StackCommandType.ReadToAccu
  | CompareLoopAccu => StackCommandType.CompareLoopAccu
  | SoftwareDelay => 0xED
  | Custom => 0xEE
  end.

Definition all_command_types : list CommandType :=
  [Invalid; StackStart; StackEnd; VMEWrite; VMERead; VMEReadSwapped; VMEReadMem;
   VMEReadMemSwapped; WriteMarker; WriteSpecial; Wait; SignalAccu; MaskShiftAccu;
   SetAccu; ReadToAccu; CompareLoopAccu; SoftwareDelay; Custom].

(** The [static_cast] from [u8] for values that are enumerators. *)
Definition CommandType_of_value (v : Z) : option CommandType :=
  snd <$> list_find (λ t, CommandType_value t = v) all_command_types.

(* mvlc_command_builders.h:134-143 StackCommand *)
Record StackCommand : Type := mkCmd {
  sc_type : CommandType;
  sc_address : Z;
  sc_value : Z;
  sc_amod : Z;
  sc_dataWidth : Z;
  sc_transfers : Z;
  sc_rate : Z;
  sc_customValues : list Z;
  sc_lateRead : bool;
  sc_comment : string
}.

#[global] Instance StackCommand_eq_dec : EqDecision StackCommand.
Proof. solve_decision. Defined.

(** [StackCommand cmd = {}] followed by an assignment of the type. *)
Definition cmd_of_type (t : CommandType) : StackCommand :=
  {| sc_type := t; sc_address := 0; sc_value := 0; sc_amod := 0;
     sc_dataWidth := VMEDataWidth.D16; sc_transfers := 0; sc_rate := 0;
     sc_customValues := []; sc_lateRead := false; sc_comment := EmptyString |}.

Definition set_address (a : Z) (c : StackCommand) : StackCommand :=
  mkCmd (sc_type c) a (sc_value c) (sc_amod c) (sc_dataWidth c) (sc_transfers c) (sc_rate c)
    (sc_customValues c) (sc_lateRead c) (sc_comment c).
Definition set_value (v : Z) (c : StackCommand) : StackCommand :=
  mkCmd (sc_type c) (sc_address c) v (sc_amod c) (sc_dataWidth c) (sc_transfers c) (sc_rate c)
    (sc_customValues c) (sc_lateRead c) (sc_comment c).
Definition set_amod (m : Z) (c : StackCommand) : StackCommand :=
  mkCmd (sc_type c) (sc_address c) (sc_value c) m (sc_dataWidth c) (sc_transfers c) (sc_rate c)
    (sc_customValues c) (sc_lateRead c) (sc_comment c).
Definition set_dataWidth (d : Z) (c : StackCommand) : StackCommand :=
  mkCmd (sc_type c) (sc_address c) (sc_value c) (sc_amod c) d (sc_transfers c) (sc_rate c)
    (sc_customValues c) (sc_lateRead c) (sc_comment c).
Definition set_transfers (n : Z) (c : StackCommand) : StackCommand :=
  mkCmd (sc_type c) (sc_address c) (sc_value c) (sc_amod c) (sc_dataWidth c) n (sc_rate c)
    (sc_customValues c) (sc_lateRead c) (sc_comment c).
Definition set_rate (r : Z) (c : StackCommand) : StackCommand :=
  mkCmd (sc_type c) (sc_address c) (sc_value c) (sc_amod c) (sc_dataWidth c) (sc_transfers c) r
    (sc_customValues c) (sc_lateRead c) (sc_comment c).
Definition set_customValues (l : list Z) (c : StackCommand) : StackCommand :=
  mkCmd (sc_type c) (sc_address c) (sc_value c) (sc_amod c) (sc_dataWidth c) (sc_transfers c)
    (sc_rate c) l (sc_lateRead c) (sc_comment c).
Definition set_lateRead (b : bool) (c : StackCommand) : StackCommand :=
  mkCmd (sc_type c) (sc_address c) (sc_value c) (sc_amod c) (sc_dataWidth c) (sc_transfers c)
    (sc_rate c) (sc_customValues c) b (sc_comment c).

(* mvlc_command_builders.h:145-157 StackCommand::operator== *)
Definition StackCommand_eqb (a b : StackCommand) : bool :=
  bool_decide (sc_type a = sc_type b)
  && (sc_address a =? sc_address b)
  && (sc_value a =? sc_value b)
  && (sc_amod a =? sc_amod b)
  && (sc_dataWidth a =? sc_dataWidth b)
  && (sc_transfers a =? sc_transfers b)
  && (sc_rate a =? sc_rate b)
  && bool_decide (sc_customValues a = sc_customValues b)
  && eqb (sc_lateRead a) (sc_lateRead b).

(* mvlc_command_builders.h:186-202 is_read_command *)
Definition is_read_command (cmd : StackCommand) : bool :=
  match sc_type cmd with
  | VMERead | VMEReadSwapped | VMEReadMem | VMEReadMemSwapped => true
  | _ => false
  end.

(* mvlc_command_builders.cc:899-920 produces_output *)
Definition produces_output (cmd : StackCommand) : bool :=
  if is_read_command cmd then true
  else match sc_type cmd with
       | WriteMarker | WriteSpecial => true
       | Custom => sc_transfers cmd >? 0
       | _ => false
       end.

(** ** The stack command builder *)

(* mvlc_command_builders.h:211-235 StackCommandBuilder::Group *)
Record Group : Type := mkGroup {
  g_name : string;
  g_commands : list StackCommand;
  g_meta : gmap string string
}.

Definition empty_group : Group := mkGroup EmptyString [] ∅.

(* mvlc_command_builders.h:385-391 StackCommandBuilder *)
Record StackCommandBuilder : Type := mkBuilder {
  m_name : string;
  m_groups : list Group;
  m_yamlMeta : gmap string string;
  m_suppressPipeOutput : bool
}.

Definition empty_builder : StackCommandBuilder := mkBuilder EmptyString [] ∅ false.

(* mvlc_command_builders.h:338-344 empty *)
Definition builder_empty (b : StackCommandBuilder) : bool :=
  forallb (λ g, match g_commands g with [] => true | _ => false end) (m_groups b).

Definition set_groups (gs : list Group) (b : StackCommandBuilder) : StackCommandBuilder :=
  mkBuilder (m_name b) gs (m_yamlMeta b) (m_suppressPipeOutput b).

(* mvlc_command_builders.h:293-293 StackCommandBuilder::hasOpenGroup *)
Definition hasOpenGroup (b : StackCommandBuilder) : bool :=
  match m_groups b with [] => false | _ => true end.

(* mvlc_command_builders.cc:806-818 StackCommandBuilder::beginGroup *)
Definition beginGroup (name : string) (meta : gmap string string) (b : StackCommandBuilder)
  : StackCommandBuilder :=
  set_groups (m_groups b ++ [mkGroup name [] meta]) b.

(** [m_groups.back().commands.push_back(cmd)]; [back] of an empty vector is undefined. *)
Fixpoint push_back_last (gs : list Group) (cmd : StackCommand) : list Group :=
  match gs with
  | [] => []
  | [g] => [mkGroup (g_name g) (g_commands g ++ [cmd]) (g_meta g)]
  | g :: gs => g :: push_back_last gs cmd
  end.

(* mvlc_command_builders.cc:782-792 StackCommandBuilder::addCommand *)
Definition addCommand (cmd : StackCommand) (b : StackCommandBuilder) : StackCommandBuilder :=
  let b := if negb (hasOpenGroup b) then beginGroup EmptyString ∅ b else b in
  set_groups (push_back_last (m_groups b) cmd) b.

Definition addCommands (cmds : list StackCommand) (b : StackCommandBuilder)
  : StackCommandBuilder :=
  foldl (λ b c, addCommand c b) b cmds.

(* mvlc_command_builders.cc:598-602 StackCommandBuilder::StackCommandBuilder *)
Definition builder_of_commands (commands : list StackCommand) : StackCommandBuilder :=
  addCommands commands empty_builder.

(* mvlc_command_builders.cc:608-613 StackCommandBuilder::StackCommandBuilder *)
Definition named_builder_of_commands (name : string) (commands : list StackCommand)
  : StackCommandBuilder :=
  addCommands commands (mkBuilder name [] ∅ false).

(* mvlc_command_builders.cc:622-632 StackCommandBuilder::addVMERead *)
Definition addVMERead (address amod dataWidth : Z) (lateRead fifo : bool)
  : StackCommandBuilder → StackCommandBuilder :=
  addCommand (set_lateRead lateRead (set_dataWidth dataWidth (set_amod amod (set_address address
    (cmd_of_type (if fifo then VMERead else VMEReadMem)))))).

(* mvlc_command_builders.cc:634-644 StackCommandBuilder::addVMEBlockRead *)
Definition addVMEBlockRead (address amod maxTransfers : Z) (fifo : bool)
  : StackCommandBuilder → StackCommandBuilder :=
  addCommand (set_transfers maxTransfers (set_amod amod (set_address address
    (cmd_of_type (if fifo then VMERead else VMEReadMem))))).

(* mvlc_command_builders.cc:646-656 StackCommandBuilder::addVMEBlockRead *)
Definition addVMEBlockRead2eSST (address rate maxTransfers : Z) (fifo : bool)
  : StackCommandBuilder → StackCommandBuilder :=
  addCommand (set_transfers maxTransfers (set_rate rate (set_amod vme_amods.Blk2eSST64
    (set_address address (cmd_of_type (if fifo then VMERead else VMEReadMem)))))).

(* mvlc_command_builders.cc:658-668 StackCommandBuilder::addVMEBlockReadSwapped *)
Definition addVMEBlockReadSwapped (address amod maxTransfers : Z) (fifo : bool)
  : StackCommandBuilder → StackCommandBuilder :=
  addCommand (set_transfers maxTransfers (set_amod amod (set_address address
    (cmd_of_type (if fifo then VMEReadSwapped else VMEReadMemSwapped))))).

(* mvlc_command_builders.cc:670-680 StackCommandBuilder::addVMEBlockReadSwapped *)
Definition addVMEBlockReadSwapped2eSST (address rate maxTransfers : Z) (fifo : bool)
  : StackCommandBuilder → StackCommandBuilder :=
  addCommand (set_transfers maxTransfers (set_rate rate (set_amod vme_amods.Blk2eSST64
    (set_address address (cmd_of_type (if fifo then VMEReadSwapped else VMEReadMemSwapped)))))).

(* mvlc_command_builders.cc:683-693 StackCommandBuilder::addVMEWrite *)
Definition addVMEWrite (address value amod dataWidth : Z)
  : StackCommandBuilder → StackCommandBuilder :=
  addCommand (set_dataWidth dataWidth (set_amod amod (set_value value (set_address address
    (cmd_of_type VMEWrite))))).

(* mvlc_command_builders.cc:695-702 StackCommandBuilder::addWriteMarker *)
Definition addWriteMarker (value : Z) : StackCommandBuilder → StackCommandBuilder :=
  addCommand (set_value value (cmd_of_type WriteMarker)).

(* mvlc_command_builders.cc:704-711 StackCommandBuilder::addWait *)
Definition addWait (clocks : Z) : StackCommandBuilder → StackCommandBuilder :=
  addCommand (set_value clocks (cmd_of_type Wait)).

(* mvlc_command_builders.cc:713-719 StackCommandBuilder::addSignalAccu *)
Definition addSignalAccu : StackCommandBuilder → StackCommandBuilder :=
  addCommand (cmd_of_type SignalAccu).

(* mvlc_command_builders.cc:721-729 StackCommandBuilder::addMaskShiftAccu *)
Definition addMaskShiftAccu (mask shift : Z) : StackCommandBuilder → StackCommandBuilder :=
  addCommand (set_address mask (set_value shift (cmd_of_type MaskShiftAccu))).

(* mvlc_command_builders.cc:731-738 StackCommandBuilder::addSetAccu *)
Definition addSetAccu (value : Z) : StackCommandBuilder → StackCommandBuilder :=
  addCommand (set_value value (cmd_of_type SetAccu)).

(* mvlc_command_builders.cc:740-750 StackCommandBuilder::addReadToAccu *)
Definition addReadToAccu (address amod dataWidth : Z) (lateRead : bool)
  : StackCommandBuilder → StackCommandBuilder :=
  addCommand (set_lateRead lateRead (set_dataWidth dataWidth (set_amod amod (set_address address
    (cmd_of_type ReadToAccu))))).

(* mvlc_command_builders.cc:752-760 StackCommandBuilder::addCompareLoopAccu *)
Definition addCompareLoopAccu (comp value : Z) : StackCommandBuilder → StackCommandBuilder :=
  addCommand (set_address value (set_value comp (cmd_of_type CompareLoopAccu))).

(* mvlc_command_builders.cc:762-769 StackCommandBuilder::addWriteSpecial *)
Definition addWriteSpecial (specialValue : Z) : StackCommandBuilder → StackCommandBuilder :=
  addCommand (set_value specialValue (cmd_of_type WriteSpecial)).

(* mvlc_command_builders.cc:771-780 StackCommandBuilder::addSoftwareDelay *)
Definition addSoftwareDelay (ms : Z) : StackCommandBuilder → StackCommandBuilder :=
  addCommand (set_value (u32 ms) (cmd_of_type SoftwareDelay)).

(* mvlc_command_builders.cc:820-834 StackCommandBuilder::getCommands *)
Definition getCommands (b : StackCommandBuilder) : list StackCommand :=
  m_groups b ≫= g_commands.

(* mvlc_command_builders.cc:846-851 StackCommandBuilder::commandCount *)
Definition commandCount (b : StackCommandBuilder) : Z :=
  foldl (λ accu g, accu + zlen (g_commands g)) 0 (m_groups b).

(* mvlc_command_builders.cc:853-856 StackCommandBuilder::getGroup *)
Definition getGroup_const (b : StackCommandBuilder) (groupIndex : Z) : outcome Group :=
  match m_groups b !! Z.to_nat groupIndex with Some g => Return g | None => Undefined end.

(* mvlc_command_builders.cc:858-861 StackCommandBuilder::getGroup *)
Definition getGroup_at (b : StackCommandBuilder) (groupIndex : Z) : outcome Group :=
  match m_groups b !! Z.to_nat groupIndex with Some g => Return g | None => Throw out_of_range end.

(* mvlc_command_builders.cc:863-876 StackCommandBuilder::getGroup *)
Definition getGroup_name (b : StackCommandBuilder) (groupName : string) : Group :=
  match list_find (λ g, g_name g = groupName) (m_groups b) with
  | Some (_, g) => g
  | None => empty_group
  end.

(* mvlc_command_builders.cc:836-839 StackCommandBuilder::getCommands *)
Definition getCommands_index (b : StackCommandBuilder) (groupIndex : Z)
  : outcome (list StackCommand) :=
  g ← getGroup_const b groupIndex; Return (g_commands g).

(* mvlc_command_builders.cc:841-844 StackCommandBuilder::getCommands *)
Definition getCommands_name (b : StackCommandBuilder) (groupName : string) : list StackCommand :=
  g_commands (getGroup_name b groupName).

(* mvlc_command_builders.cc:878-889 StackCommandBuilder::addGroup *)
Definition addGroup (name : string) (commands : list StackCommand) (meta : gmap string string)
    (b : StackCommandBuilder) : StackCommandBuilder :=
  addCommands commands (beginGroup name meta b).

(* mvlc_command_builders.cc:891-897 StackCommandBuilder::addGroup *)
Definition addGroup_group (group : Group) (b : StackCommandBuilder) : StackCommandBuilder :=
  set_groups (m_groups b ++ [group]) b.

(* mvlc_command_builders.cc:922-927 produces_output *)
Definition group_produces_output (group : Group) : bool := existsb produces_output (g_commands group).

(* mvlc_command_builders.cc:929-936 produces_output *)
Definition stack_produces_output (stack : StackCommandBuilder) : bool :=
  existsb group_produces_output (m_groups stack).

(** ** Encoded sizes *)

(* mvlc_command_builders.cc:942-962 get_encoded_size *)
Definition super_get_encoded_size (type : SuperCT) : Z :=
  match type with
  | ReferenceWord | ReadLocal | WriteReset | CmdBufferStart | CmdBufferEnd | EthDelay => 1
  | ReadLocalBlock | WriteLocal => 2
  end.

(* mvlc_command_builders.cc:969-1007 get_encoded_size *)
Definition stack_get_encoded_size (type : CommandType) : Z :=
  match type with
  | StackStart | StackEnd | Wait | SignalAccu | Custom => 1
  | VMERead | VMEReadSwapped | VMEReadMem | VMEReadMemSwapped
  | MaskShiftAccu | SetAccu | ReadToAccu | CompareLoopAccu => 2
  | VMEWrite => 3
  | WriteMarker => 2
  | WriteSpecial => 1
  | Invalid | SoftwareDelay => 0
  end.

(* mvlc_command_builders.cc:1014-1024 get_encoded_stack_size *)
Definition get_encoded_stack_size (commands : list StackCommand) : Z :=
  2 + foldl (λ encodedSize cmd, encodedSize + stack_get_encoded_size (sc_type cmd)) 0 commands.

(** ** Super command buffers *)

(* mvlc_command_builders.cc:1046-1083 make_command_buffer *)
Definition encode_super_command (cmd : SuperCommand) : list Z :=
  let cmdWord := u32 (SuperCT_value (su_type cmd) ≪ super_commands.SuperCmdShift) in
  match su_type cmd with
  | ReferenceWord => [cmdWord .| (su_value cmd .& super_commands.SuperCmdArgMask)]
  | ReadLocal => [cmdWord .| (su_address cmd .& super_commands.SuperCmdArgMask)]
  | ReadLocalBlock | WriteLocal =>
      [cmdWord .| (su_address cmd .& super_commands.SuperCmdArgMask); su_value cmd]
  | WriteReset | CmdBufferStart | CmdBufferEnd | EthDelay => [cmdWord]
  end.

(* mvlc_command_builders.cc:1036-1089 make_command_buffer *)
Definition make_command_buffer (commands : list SuperCommand) : list Z :=
  [u32 (SuperCT_value CmdBufferStart ≪ super_commands.SuperCmdShift)]
  ++ (commands ≫= encode_super_command)
  ++ [u32 (SuperCT_value CmdBufferEnd ≪ super_commands.SuperCmdShift)].

(** Where a two-word command ends the buffer, [++it] reaches the end and the
    loop increment leaves the buffer: undefined behaviour. *)
(* mvlc_command_builders.cc:1091-1147 super_builder_from_buffer *)
Fixpoint super_builder_from_buffer (buffer : list Z) : outcome SuperCommandBuilder :=
  match buffer with
  | [] => Return []
  | w :: rest =>
      let sct := (w ≫ super_commands.SuperCmdShift) .& super_commands.SuperCmdMask in
      let arg := (w ≫ super_commands.SuperCmdArgShift) .& super_commands.SuperCmdArgMask in
      if negb (is_super_command w) then Return []
      else
        match SuperCT_of_value sct with
        | None => Return []
        | Some type =>
            match type with
            | CmdBufferStart | CmdBufferEnd | EthDelay => super_builder_from_buffer rest
            | ReferenceWord =>
                cs ← super_builder_from_buffer rest; Return (mkSuper type 0 arg :: cs)
            | ReadLocal =>
                cs ← super_builder_from_buffer rest; Return (mkSuper type arg 0 :: cs)
            | ReadLocalBlock | WriteLocal =>
                match rest with
                | [] => Undefined
                | v :: rest' =>
                    cs ← super_builder_from_buffer rest'; Return (mkSuper type arg v :: cs)
                end
            | WriteReset =>
                cs ← super_builder_from_buffer rest; Return (mkSuper type 0 0 :: cs)
            end
        end
  end.

(** ** Stack buffers *)

(** The first word of the four VME read commands. *)
(* mvlc_command_builders.cc:1164-1197 make_stack_buffer *)
Definition encode_read_word (cmd : StackCommand) (cmdWord : Z) : Z :=
  if negb (vme_amods.is_block_mode (sc_amod cmd)) then
    let dataWidth :=
      sc_dataWidth cmd .| (Z.b2z (sc_lateRead cmd) ≪ stack_commands.LateReadShift) in
    cmdWord .| (sc_amod cmd ≪ stack_commands.CmdArg0Shift)
            .| u32 (dataWidth ≪ stack_commands.CmdArg1Shift)
  else if vme_amods.is_blt_mode (sc_amod cmd) || vme_amods.is_mblt_mode (sc_amod cmd) then
    cmdWord .| (sc_amod cmd ≪ stack_commands.CmdArg0Shift)
            .| ((sc_transfers cmd .& stack_commands.CmdArg1Mask) ≪ stack_commands.CmdArg1Shift)
  else if vme_amods.is_esst64_mode (sc_amod cmd) then
    cmdWord .| u32 ((sc_amod cmd .| (sc_rate cmd ≪ Blk2eSSTRateShift))
                      ≪ stack_commands.CmdArg0Shift)
            .| ((sc_transfers cmd .& stack_commands.CmdArg1Mask) ≪ stack_commands.CmdArg1Shift)
  else cmdWord.

(* mvlc_command_builders.cc:1158-1275 make_stack_buffer *)
Definition encode_stack_command (cmd : StackCommand) : outcome (list Z) :=
  let cmdWord := u32 (CommandType_value (sc_type cmd) ≪ stack_commands.CmdShift) in
  match sc_type cmd with
  | VMERead | VMEReadSwapped | VMEReadMem | VMEReadMemSwapped =>
      Return [encode_read_word cmd cmdWord; sc_address cmd]
  | VMEWrite =>
      Return [cmdWord .| (sc_amod cmd ≪ stack_commands.CmdArg0Shift)
                      .| u32 (sc_dataWidth cmd ≪ stack_commands.CmdArg1Shift);
              sc_address cmd; sc_value cmd]
  | WriteMarker => Return [cmdWord; sc_value cmd]
  | WriteSpecial => Return [cmdWord .| (sc_value cmd .& 0x00FFFFFF)]
  | StackStart | StackEnd => Return [cmdWord]
  | SoftwareDelay => Throw (runtime_error "unsupported stack buffer command: SoftwareDelay")
  | Invalid => Throw (runtime_error "unsupported stack buffer command: Invalid")
  | Custom => Return (sc_customValues cmd)
  | Wait => Return [cmdWord .| (sc_value cmd .& 0x00FFFFFF)]
  | SignalAccu => Return [cmdWord]
  | MaskShiftAccu => Return [cmdWord .| sc_value cmd; sc_address cmd]
  | SetAccu => Return [cmdWord; sc_value cmd]
  | ReadToAccu =>
      let dataWidth :=
        sc_dataWidth cmd .| (Z.b2z (sc_lateRead cmd) ≪ stack_commands.LateReadShift) in
      Return [cmdWord .| (sc_amod cmd ≪ stack_commands.CmdArg0Shift)
                      .| u32 (dataWidth ≪ stack_commands.CmdArg1Shift);
              sc_address cmd]
  | CompareLoopAccu => Return [cmdWord .| sc_value cmd; sc_address cmd]
  end.

(* mvlc_command_builders.cc:1154-1278 make_stack_buffer *)
Fixpoint make_stack_buffer (stack : list StackCommand) : outcome (list Z) :=
  match stack with
  | [] => Return []
  | cmd :: stack =>
      ws ← encode_stack_command cmd;
      rest ← make_stack_buffer stack;
      Return (ws ++ rest)
  end.

(** Fields of the read commands and [ReadToAccu] that come from the first word. *)
(* mvlc_command_builders.cc:1330-1367 stack_commands_from_buffer *)
Definition decode_read_fields (cmd : StackCommand) (arg0 arg1 : Z) : StackCommand :=
  let amod := arg0 .& vme_amods.VmeAmodMask in
  let cmd := set_amod amod cmd in
  if vme_amods.is_esst64_mode amod then
    set_transfers arg1 (set_rate (arg0 ≫ Blk2eSSTRateShift) cmd)
  else if vme_amods.is_blt_mode amod then set_transfers arg1 cmd
  else if vme_amods.is_mblt_mode amod then set_transfers arg1 cmd
  else if negb (vme_amods.is_block_mode amod) then
    let dataWidth := arg1 .& 3 in
    let lateRead := negb (((arg1 ≫ stack_commands.LateReadShift) .& 1) =? 0) in
    set_lateRead lateRead (set_dataWidth dataWidth cmd)
  else cmd.

(** A command that needs more words than the buffer has leaves the buffer with
    [++it]: undefined behaviour, as in [super_builder_from_buffer]. *)
(* mvlc_command_builders.cc:1291-1421 stack_commands_from_buffer *)
Fixpoint stack_commands_from_buffer (buffer : list Z) : outcome (list StackCommand) :=
  match buffer with
  | [] => Return []
  | w :: rest =>
      let sct := (w ≫ stack_commands.CmdShift) .& stack_commands.CmdMask in
      let arg0 := (w ≫ stack_commands.CmdArg0Shift) .& stack_commands.CmdArg0Mask in
      let arg1 := (w ≫ stack_commands.CmdArg1Shift) .& stack_commands.CmdArg1Mask in
      if negb (is_stack_command w) then
        cs ← stack_commands_from_buffer rest;
        Return (set_customValues [w] (cmd_of_type Custom) :: cs)
      else
        match CommandType_of_value sct with
        | None => Undefined
        | Some type =>
            let cmd := cmd_of_type type in
            match type with
            | StackStart | StackEnd | SoftwareDelay | Invalid | Custom =>
                stack_commands_from_buffer rest
            | VMERead | VMEReadSwapped | VMEReadMem | VMEReadMemSwapped | ReadToAccu =>
                match rest with
                | [] => Undefined
                | a :: rest' =>
                    cs ← stack_commands_from_buffer rest';
                    Return (set_address a (decode_read_fields cmd arg0 arg1) :: cs)
                end
            | VMEWrite =>
                match rest with
                | a :: v :: rest' =>
                    cs ← stack_commands_from_buffer rest';
                    Return (set_value v (set_address a
                      (set_dataWidth (arg1 .& 3) (set_amod arg0 cmd))) :: cs)
                | _ => Undefined
                end
            | WriteMarker | SetAccu =>
                match rest with
                | [] => Undefined
                | v :: rest' =>
                    cs ← stack_commands_from_buffer rest'; Return (set_value v cmd :: cs)
                end
            | WriteSpecial | Wait =>
                cs ← stack_commands_from_buffer rest;
                Return (set_value (w .& 0x00FFFFFF) cmd :: cs)
            | SignalAccu =>
                cs ← stack_commands_from_buffer rest; Return (cmd :: cs)
            | MaskShiftAccu =>
                match rest with
                | [] => Undefined
                | a :: rest' =>
                    cs ← stack_commands_from_buffer rest';
                    Return (set_address a (set_value (w .& 0x00FFFFFF) cmd) :: cs)
                end
            | CompareLoopAccu =>
                match rest with
                | [] => Undefined
                | a :: rest' =>
                    cs ← stack_commands_from_buffer rest';
                    Return (set_address a (set_value arg1 cmd) :: cs)
                end
            end
        end
  end.

(* mvlc_command_builders.cc:1285-1288 stack_builder_from_buffer *)
Definition stack_builder_from_buffer (buffer : list Z) : outcome StackCommandBuilder :=
  cs ← stack_commands_from_buffer buffer; Return (builder_of_commands cs).

(** ** Stack uploads *)

(** One [WriteLocal] per stack word, at increasing 16-bit addresses. *)
(* mvlc_command_builders.cc:1464-1469 make_stack_upload_commands *)
Fixpoint upload_words (super : SuperCommandBuilder) (address : Z) (stackBuffer : list Z)
  : SuperCommandBuilder * Z :=
  match stackBuffer with
  | [] => (super, address)
  | stackWord :: stackBuffer =>
      upload_words (su_addWriteLocal super address stackWord)
        (u16 (address + AddressIncrement)) stackBuffer
  end.

(* mvlc_command_builders.cc:1449-1478 make_stack_upload_commands *)
Definition make_stack_upload_commands (stackOutputPipe stackMemoryOffset : Z)
    (stackBuffer : list Z) : list SuperCommand :=
  let address := u16 (stacks.StackMemoryBegin + stackMemoryOffset) in
  let super :=
    su_addWriteLocal [] address
      (u32 (StackCommandType.StackStart ≪ stack_commands.CmdShift)
         .| (stackOutputPipe ≪ stack_commands.CmdArg0Shift)) in
  let address := u16 (address + AddressIncrement) in
  let '(super, address) := upload_words super address stackBuffer in
  su_addWriteLocal super address (u32 (StackCommandType.StackEnd ≪ stack_commands.CmdShift)).

(* mvlc_command_builders.cc:1435-1441 make_stack_upload_commands *)
Definition make_stack_upload_commands_of (stackOutputPipe stackMemoryOffset : Z)
    (stack : list StackCommand) : outcome (list SuperCommand) :=
  stackBuffer ← make_stack_buffer stack;
  Return (make_stack_upload_commands stackOutputPipe stackMemoryOffset stackBuffer).

(* mvlc_command_builders.cc:103-108 SuperCommandBuilder::addStackUpload *)
Definition su_addStackUpload (b : SuperCommandBuilder) (stackBuilder : StackCommandBuilder)
    (stackOutputPipe stackMemoryOffset : Z) : outcome SuperCommandBuilder :=
  cs ← make_stack_upload_commands_of stackOutputPipe stackMemoryOffset (getCommands stackBuilder);
  Return (su_addCommands b cs).

(* mvlc_command_builders.cc:67-71 SuperCommandBuilder::addVMERead *)
Definition su_addVMERead (b : SuperCommandBuilder) (address amod dataWidth : Z)
    (lateRead fifo : bool) : outcome SuperCommandBuilder :=
  su_addStackUpload b (addVMERead address amod dataWidth lateRead fifo empty_builder) CommandPipe 0.

(* mvlc_command_builders.cc:73-77 SuperCommandBuilder::addVMEBlockRead *)
Definition su_addVMEBlockRead (b : SuperCommandBuilder) (address amod maxTransfers : Z)
    (fifo : bool) : outcome SuperCommandBuilder :=
  su_addStackUpload b (addVMEBlockRead address amod maxTransfers fifo empty_builder) CommandPipe 0.

(* mvlc_command_builders.cc:79-83 SuperCommandBuilder::addVMEBlockRead *)
Definition su_addVMEBlockRead2eSST (b : SuperCommandBuilder) (address rate maxTransfers : Z)
    (fifo : bool) : outcome SuperCommandBuilder :=
  su_addStackUpload b (addVMEBlockRead2eSST address rate maxTransfers fifo empty_builder)
    CommandPipe 0.

(* mvlc_command_builders.cc:85-89 SuperCommandBuilder::addVMEBlockReadSwapped *)
Definition su_addVMEBlockReadSwapped (b : SuperCommandBuilder) (address amod maxTransfers : Z)
    (fifo : bool) : outcome SuperCommandBuilder :=
  su_addStackUpload b (addVMEBlockReadSwapped address amod maxTransfers fifo empty_builder)
    CommandPipe 0.

(* mvlc_command_builders.cc:91-95 SuperCommandBuilder::addVMEBlockReadSwapped *)
Definition su_addVMEBlockReadSwapped2eSST (b : SuperCommandBuilder)
    (address rate maxTransfers : Z) (fifo : bool) : outcome SuperCommandBuilder :=
  su_addStackUpload b (addVMEBlockReadSwapped2eSST address rate maxTransfers fifo empty_builder)
    CommandPipe 0.

(* mvlc_command_builders.cc:97-101 SuperCommandBuilder::addVMEWrite *)
Definition su_addVMEWrite (b : SuperCommandBuilder) (address value amod dataWidth : Z)
  : outcome SuperCommandBuilder :=
  su_addStackUpload b (addVMEWrite address value amod dataWidth empty_builder) CommandPipe 0.
