(* ===== verification/CommandsFacts.v ===== *)
(** * Facts about commands

    The encoding of super and stack commands is inverted by the decoders, the
    announced sizes are the real ones, and uploading a stack leaves its words at
    consecutive addresses of the stack memory. *)

From S2P Require Import Prelude Constants Frames Commands.

(** ** VME address modifiers *)

Ltac unfold_amods :=
  unfold vme_amods.is_block_mode, vme_amods.is_blt_mode, vme_amods.is_mblt_mode,
    vme_amods.is_esst64_mode, vme_amods.Blk2eSST64, vme_amods.a32UserBlock,
    vme_amods.a32UserBlock64, vme_amods.a32PrivBlock, vme_amods.a32PrivBlock64,
    vme_amods.a24UserBlock, vme_amods.a24PrivBlock in *; cbv zeta in *.

(** The block modes are exactly BLT, MBLT and 2eSST, and these exclude each other. *)
Lemma amod_modes m :
  vme_amods.is_block_mode m =
    vme_amods.is_blt_mode m || vme_amods.is_mblt_mode m || vme_amods.is_esst64_mode m.
Proof.
  unfold_amods. generalize (m .& vme_amods.VmeAmodMask). intros x.
  repeat match goal with |- context [?a =? ?b] => destruct (Z.eqb_spec a b) end; subst; try done; lia.
Qed.

Lemma amod_esst_excl m :
  vme_amods.is_esst64_mode m = true →
  vme_amods.is_blt_mode m = false ∧ vme_amods.is_mblt_mode m = false.
Proof. unfold_amods. intros H. apply Z.eqb_eq in H. by rewrite H. Qed.

Lemma amod_mask m : 0 ≤ m < 64 → m .& vme_amods.VmeAmodMask = m.
Proof.
  intros. unfold vme_amods.VmeAmodMask. change 63 with (2 ^ 6 - 1).
  rewrite land_mask by lia. apply Z.mod_small; lia.
Qed.

(** ** Command words as sums *)

Definition stack_word (t arg0 arg1 : Z) : Z := t * 2 ^ 24 + arg0 * 2 ^ 16 + arg1.

Lemma stack_word_fields t arg0 arg1 :
  0 ≤ t < 256 → 0 ≤ arg0 < 256 → 0 ≤ arg1 < 65536 →
  let w := stack_word t arg0 arg1 in
  (w ≫ stack_commands.CmdShift) .& stack_commands.CmdMask = t ∧
  (w ≫ stack_commands.CmdArg0Shift) .& stack_commands.CmdArg0Mask = arg0 ∧
  (w ≫ stack_commands.CmdArg1Shift) .& stack_commands.CmdArg1Mask = arg1 ∧
  w .& 0x00FFFFFF = arg0 * 2 ^ 16 + arg1.
Proof.
  intros. unfold stack_commands.CmdShift, stack_commands.CmdMask, stack_commands.CmdArg0Shift,
    stack_commands.CmdArg0Mask, stack_commands.CmdArg1Shift, stack_commands.CmdArg1Mask.
  rewrite (field_eq _ 24 8), (field_eq _ 16 8), (field_eq _ 0 16) by lia.
  change 0x00FFFFFF with (2 ^ 24 - 1). rewrite land_mask by lia.
  subst w. unfold stack_word. repeat split; zlia.
Qed.

Lemma cmd_word_sum t : 0 ≤ t < 256 → u32 (t ≪ stack_commands.CmdShift) = stack_word t 0 0.
Proof.
  intros. unfold u32, stack_word, stack_commands.CmdShift. rewrite shiftl_mul by lia.
  rewrite Z.mod_small; lia.
Qed.

Lemma stack_word_or t arg0 arg1 :
  0 ≤ arg0 < 256 → 0 ≤ arg1 < 65536 →
  stack_word t 0 0 .| (arg0 ≪ stack_commands.CmdArg0Shift)
                   .| (arg1 ≪ stack_commands.CmdArg1Shift) = stack_word t arg0 arg1.
Proof.
  intros. unfold stack_word, stack_commands.CmdArg0Shift, stack_commands.CmdArg1Shift.
  rewrite !shiftl_mul by lia.
  rewrite (lor_add (arg0 * 2 ^ 16) _ 24) by first [lia | zlia].
  rewrite (lor_add (arg1 * 2 ^ 0) _ 16) by first [lia | zlia]. lia.
Qed.

Lemma stack_word_or24 t v :
  0 ≤ v < 2 ^ 24 → stack_word t 0 0 .| v = stack_word t (v / 2 ^ 16) (v mod 2 ^ 16).
Proof.
  intros. unfold stack_word.
  rewrite (lor_add v _ 24) by first [lia | zlia]. zlia.
Qed.

Lemma CommandType_of_value_value t : CommandType_of_value (CommandType_value t) = Some t.
Proof. by destruct t. Qed.

Lemma CommandType_value_range t : 0 ≤ CommandType_value t < 256.
Proof. destruct t; vm_compute; split; congruence. Qed.

Definition is_stack_type (t : CommandType) : bool :=
  match t with Invalid | SoftwareDelay | Custom => false | _ => true end.

Lemma is_stack_command_word t arg0 arg1 :
  0 ≤ arg0 < 256 → 0 ≤ arg1 < 65536 →
  is_stack_command (stack_word (CommandType_value t) arg0 arg1) = is_stack_type t.
Proof.
  intros. unfold is_stack_command.
  destruct (stack_word_fields (CommandType_value t) arg0 arg1) as (-> & _);
    [apply CommandType_value_range|done|done|]. by destruct t.
Qed.

(** ** Round trip of stack buffers *)

Definition is_read_type (t : CommandType) : bool :=
  match t with VMERead | VMEReadSwapped | VMEReadMem | VMEReadMemSwapped => true | _ => false end.

(** The commands that a stack buffer can carry without loss: those the builder
    methods create, with arguments that fit their fields. *)
Inductive encodable : StackCommand → Prop :=
| enc_single t a m d late :
    is_read_type t = true ∨ t = ReadToAccu → is_u32 a → 0 ≤ m < 64 →
    vme_amods.is_block_mode m = false → 0 ≤ d < 4 →
    encodable (mkCmd t a 0 m d 0 0 [] late EmptyString)
| enc_block t a m n :
    is_read_type t = true → is_u32 a → 0 ≤ m < 64 →
    vme_amods.is_blt_mode m || vme_amods.is_mblt_mode m = true → is_u16 n →
    encodable (mkCmd t a 0 m VMEDataWidth.D16 n 0 [] false EmptyString)
| enc_2esst t a r n :
    is_read_type t = true → is_u32 a → 0 ≤ r < 4 → is_u16 n →
    encodable (mkCmd t a 0 vme_amods.Blk2eSST64 VMEDataWidth.D16 n r [] false EmptyString)
| enc_write a v m d :
    is_u32 a → is_u32 v → is_u8 m → 0 ≤ d < 4 →
    encodable (mkCmd VMEWrite a v m d 0 0 [] false EmptyString)
| enc_value t v :
    t = WriteMarker ∨ t = SetAccu → is_u32 v → encodable (set_value v (cmd_of_type t))
| enc_24bit t v :
    t = WriteSpecial ∨ t = Wait → 0 ≤ v < 2 ^ 24 → encodable (set_value v (cmd_of_type t))
| enc_signal : encodable (cmd_of_type SignalAccu)
| enc_mask_shift mask shift :
    is_u32 mask → 0 ≤ shift < 2 ^ 24 →
    encodable (set_address mask (set_value shift (cmd_of_type MaskShiftAccu)))
| enc_compare comp v :
    is_u32 v → is_u16 comp →
    encodable (set_address v (set_value comp (cmd_of_type CompareLoopAccu)))
| enc_custom w :
    is_u32 w → is_stack_command w = false →
    encodable (set_customValues [w] (cmd_of_type Custom)).

(** The first word of a command without arguments in it. *)
Lemma from_buffer_word t arg0 arg1 rest :
  0 ≤ arg0 < 256 → 0 ≤ arg1 < 65536 → is_stack_type t = true →
  let w := stack_word (CommandType_value t) arg0 arg1 in
  stack_commands_from_buffer (w :: rest) =
    match t with
    | StackStart | StackEnd | SoftwareDelay | Invalid | Custom => stack_commands_from_buffer rest
    | VMERead | VMEReadSwapped | VMEReadMem | VMEReadMemSwapped | ReadToAccu =>
        match rest with
        | [] => Undefined
        | a :: rest' =>
            cs ← stack_commands_from_buffer rest';
            Return (set_address a (decode_read_fields (cmd_of_type t) arg0 arg1) :: cs)
        end
    | VMEWrite =>
        match rest with
        | a :: v :: rest' =>
            cs ← stack_commands_from_buffer rest';
            Return (set_value v (set_address a
              (set_dataWidth (arg1 .& 3) (set_amod arg0 (cmd_of_type t)))) :: cs)
        | _ => Undefined
        end
    | WriteMarker | SetAccu =>
        match rest with
        | [] => Undefined
        | v :: rest' =>
            cs ← stack_commands_from_buffer rest'; Return (set_value v (cmd_of_type t) :: cs)
        end
    | WriteSpecial | Wait =>
        cs ← stack_commands_from_buffer rest;
        Return (set_value (arg0 * 2 ^ 16 + arg1) (cmd_of_type t) :: cs)
    | SignalAccu => cs ← stack_commands_from_buffer rest; Return (cmd_of_type t :: cs)
    | MaskShiftAccu =>
        match rest with
        | [] => Undefined
        | a :: rest' =>
            cs ← stack_commands_from_buffer rest';
            Return (set_address a (set_value (arg0 * 2 ^ 16 + arg1) (cmd_of_type t)) :: cs)
        end
    | CompareLoopAccu =>
        match rest with
        | [] => Undefined
        | a :: rest' =>
            cs ← stack_commands_from_buffer rest';
            Return (set_address a (set_value arg1 (cmd_of_type t)) :: cs)
        end
    end.
Proof.
  intros H0 H1 Ht w. subst w. cbn [stack_commands_from_buffer].
  rewrite is_stack_command_word, Ht by done. cbn [negb].
  destruct (stack_word_fields (CommandType_value t) arg0 arg1) as (-> & -> & -> & ->);
    [apply CommandType_value_range|done|done|].
  rewrite CommandType_of_value_value. by destruct t.
Qed.

Lemma from_buffer_custom w rest :
  is_stack_command w = false →
  stack_commands_from_buffer (w :: rest) =
    (cs ← stack_commands_from_buffer rest;
     Return (set_customValues [w] (cmd_of_type Custom) :: cs)).
Proof. intros H. cbn [stack_commands_from_buffer]. by rewrite H. Qed.

Lemma land3 x : x .& 3 = x mod 4.
Proof. change 3 with (2 ^ 2 - 1). by rewrite land_mask. Qed.

Lemma data_width_late d late :
  0 ≤ d < 4 →
  let a := d .| (Z.b2z late ≪ stack_commands.LateReadShift) in
  0 ≤ a < 8 ∧ a .& 3 = d ∧ negb (((a ≫ stack_commands.LateReadShift) .& 1) =? 0) = late.
Proof.
  intros Hd a. assert (a = d + Z.b2z late * 2 ^ 2) as ->.
  { subst a. unfold stack_commands.LateReadShift. rewrite shiftl_mul by lia.
    by apply lor_mul_add. }
  rewrite land3. unfold stack_commands.LateReadShift. rewrite (field_eq _ 2 1) by lia.
  destruct late; simpl Z.b2z; repeat split; zlia.
Qed.

Lemma u32_arg1 a : 0 ≤ a < 65536 → u32 (a ≪ stack_commands.CmdArg1Shift) = a ≪ stack_commands.CmdArg1Shift.
Proof.
  intros. unfold u32, stack_commands.CmdArg1Shift. rewrite shiftl_mul by lia.
  apply Z.mod_small; lia.
Qed.

Lemma arg1_mask n : is_u16 n → n .& stack_commands.CmdArg1Mask = n.
Proof.
  intros [? ?]. unfold stack_commands.CmdArg1Mask. change 0x0000FFFF with (2 ^ 16 - 1).
  rewrite land_mask by lia. apply Z.mod_small; lia.
Qed.

(** Word and fields of single value reads. *)
Lemma decode_single t m d late :
  0 ≤ m < 64 → vme_amods.is_block_mode m = false → 0 ≤ d < 4 →
  decode_read_fields (cmd_of_type t) m (d .| (Z.b2z late ≪ stack_commands.LateReadShift)) =
    mkCmd t 0 0 m d 0 0 [] late EmptyString.
Proof.
  intros Hm Hb Hd. unfold decode_read_fields. rewrite amod_mask by done.
  destruct (data_width_late d late Hd) as (_ & -> & ->).
  rewrite Hb. rewrite amod_modes in Hb. apply orb_false_iff in Hb as [Hb ->].
  by apply orb_false_iff in Hb as [-> ->].
Qed.

Lemma decode_block t m n :
  0 ≤ m < 64 → vme_amods.is_blt_mode m || vme_amods.is_mblt_mode m = true →
  decode_read_fields (cmd_of_type t) m n = mkCmd t 0 0 m VMEDataWidth.D16 n 0 [] false EmptyString.
Proof.
  intros Hm Hb. unfold decode_read_fields. rewrite amod_mask by done.
  destruct (vme_amods.is_esst64_mode m) eqn:He.
  { destruct (amod_esst_excl m He) as [H1 H2]. by rewrite H1, H2 in Hb. }
  by destruct (vme_amods.is_blt_mode m), (vme_amods.is_mblt_mode m).
Qed.

Lemma decode_2esst t r n :
  0 ≤ r < 4 →
  decode_read_fields (cmd_of_type t) (vme_amods.Blk2eSST64 .| (r ≪ Blk2eSSTRateShift)) n =
    mkCmd t 0 0 vme_amods.Blk2eSST64 VMEDataWidth.D16 n r [] false EmptyString.
Proof.
  intros Hr. assert (r = 0 ∨ r = 1 ∨ r = 2 ∨ r = 3) as [->|[->|[->| ->]]] by lia; done.
Qed.

(** Encoding one command and decoding it at the front of a buffer. *)
Definition roundtrips (c : StackCommand) : Prop :=
  ∃ ws, encode_stack_command c = Return ws ∧
    ∀ rest, stack_commands_from_buffer (ws ++ rest) =
      (cs ← stack_commands_from_buffer rest; Return (c :: cs)).

Lemma roundtrips_single t a m d late :
  is_read_type t = true ∨ t = ReadToAccu → 0 ≤ m < 64 → vme_amods.is_block_mode m = false →
  0 ≤ d < 4 → roundtrips (mkCmd t a 0 m d 0 0 [] late EmptyString).
Proof.
  intros Ht Hm Hb Hd. destruct (data_width_late d late Hd) as (Hr & _).
  set (arg1 := d .| (Z.b2z late ≪ stack_commands.LateReadShift)) in *.
  exists [stack_word (CommandType_value t) m arg1; a]. split.
  - rewrite <- (stack_word_or _ m arg1), <- (u32_arg1 arg1) by lia.
    unfold encode_stack_command, encode_read_word. cbn [sc_type sc_amod sc_dataWidth sc_lateRead].
    rewrite Hb, cmd_word_sum by apply CommandType_value_range.
    destruct Ht as [Ht| ->]; [by destruct t|done].
  - intros rest. cbn [app].
    rewrite from_buffer_word by (lia || by destruct Ht as [Ht| ->]; [destruct t|]).
    subst arg1. rewrite decode_single by done.
    destruct Ht as [Ht| ->]; [by destruct t|done].
Qed.

Lemma roundtrips_block t a m n :
  is_read_type t = true → 0 ≤ m < 64 →
  vme_amods.is_blt_mode m || vme_amods.is_mblt_mode m = true → is_u16 n →
  roundtrips (mkCmd t a 0 m VMEDataWidth.D16 n 0 [] false EmptyString).
Proof.
  intros Ht Hm Hb Hn. exists [stack_word (CommandType_value t) m n; a]. split.
  - rewrite <- (stack_word_or _ m n) by (unfold is_u16 in Hn; lia).
    unfold encode_stack_command, encode_read_word. cbn [sc_type sc_amod sc_transfers].
    rewrite amod_modes, Hb, (arg1_mask n Hn), cmd_word_sum by apply CommandType_value_range.
    by destruct t.
  - intros rest. cbn [app].
    rewrite from_buffer_word by (unfold is_u16 in Hn; lia || by destruct t).
    rewrite decode_block by done. by destruct t.
Qed.

Lemma roundtrips_2esst t a r n :
  is_read_type t = true → 0 ≤ r < 4 → is_u16 n →
  roundtrips (mkCmd t a 0 vme_amods.Blk2eSST64 VMEDataWidth.D16 n r [] false EmptyString).
Proof.
  intros Ht Hr Hn. set (arg0 := vme_amods.Blk2eSST64 .| (r ≪ Blk2eSSTRateShift)).
  assert (Hrange : 0 ≤ arg0 < 256).
  { assert (r = 0 ∨ r = 1 ∨ r = 2 ∨ r = 3) as [->|[->|[->| ->]]] by lia;
      vm_compute; split; congruence. }
  exists [stack_word (CommandType_value t) arg0 n; a]. split.
  - rewrite <- (stack_word_or _ _ n) by (unfold is_u16 in Hn; lia).
    assert (Hu : u32 (arg0 ≪ stack_commands.CmdArg0Shift) = arg0 ≪ stack_commands.CmdArg0Shift).
    { unfold u32, stack_commands.CmdArg0Shift. rewrite shiftl_mul by lia. apply Z.mod_small. lia. }
    rewrite <- Hu. unfold encode_stack_command, encode_read_word.
    cbn [sc_type sc_amod sc_transfers sc_rate].
    rewrite (arg1_mask n Hn), cmd_word_sum by apply CommandType_value_range.
    by destruct t.
  - intros rest. cbn [app].
    rewrite from_buffer_word by (unfold is_u16 in Hn; lia || by destruct t).
    subst arg0. rewrite decode_2esst by done. by destruct t.
Qed.

Lemma roundtrips_write a v m d :
  is_u8 m → 0 ≤ d < 4 → roundtrips (mkCmd VMEWrite a v m d 0 0 [] false EmptyString).
Proof.
  intros [? ?] Hd. exists [stack_word (CommandType_value VMEWrite) m d; a; v]. split.
  - rewrite <- (stack_word_or _ m d), <- (u32_arg1 d) by lia.
    unfold encode_stack_command. by rewrite cmd_word_sum by apply CommandType_value_range.
  - intros rest. cbn [app]. rewrite from_buffer_word by (done || lia). cbn [app].
    by rewrite land3, Z.mod_small by lia.
Qed.

(** Commands with a 24-bit argument in the first word. *)
Lemma encode_24bit t v :
  0 ≤ v < 2 ^ 24 →
  u32 (CommandType_value t ≪ stack_commands.CmdShift) .| v =
    stack_word (CommandType_value t) (v / 2 ^ 16) (v mod 2 ^ 16) ∧ v .& 0x00FFFFFF = v ∧
  0 ≤ v / 2 ^ 16 < 256 ∧ 0 ≤ v mod 2 ^ 16 < 65536 ∧ v / 2 ^ 16 * 2 ^ 16 + v mod 2 ^ 16 = v.
Proof.
  intros Hv. rewrite cmd_word_sum, stack_word_or24 by (done || apply CommandType_value_range).
  change 0x00FFFFFF with (2 ^ 24 - 1). rewrite land_mask, (Z.mod_small v (2 ^ 24)) by lia.
  repeat split; zlia.
Qed.

Lemma encodable_roundtrips c : encodable c → roundtrips c.
Proof.
  intros Hc.
  destruct Hc as [t a m d late Ht Ha Hm Hb Hd|t a m n Ht Ha Hm Hb Hn|t a r n Ht Ha Hr Hn
    |a v m d Ha Hv Hm Hd|t v Ht Hv|t v Ht Hv| |mask shift Hmask Hs|comp v Hv Hc|w Hw Hnw];
    eauto using roundtrips_single, roundtrips_block, roundtrips_2esst, roundtrips_write.
  - exists [stack_word (CommandType_value t) 0 0; v].
    split; [destruct Ht; by subst t|]. intros rest. cbn [app].
    rewrite from_buffer_word by first [lia | destruct Ht; by subst t]. destruct Ht; by subst t.
  - destruct (encode_24bit t v Hv) as (Hw & Hm & H0 & H1 & Hs).
    exists [stack_word (CommandType_value t) (v / 2 ^ 16) (v mod 2 ^ 16)].
    split.
    { rewrite <- Hw. unfold encode_stack_command. destruct Ht; subst t;
        cbn [sc_type sc_value set_value cmd_of_type]; by rewrite Hm. }
    intros rest. cbn [app].
    rewrite from_buffer_word by first [done | destruct Ht; by subst t]. rewrite Hs.
    destruct Ht; by subst t.
  - exists [stack_word (CommandType_value SignalAccu) 0 0]. split; [done|]. intros rest.
    cbn [app]. by rewrite from_buffer_word by done.
  - destruct (encode_24bit MaskShiftAccu shift Hs) as (Hw & Hm & H0 & H1 & Hsum).
    exists [stack_word (CommandType_value MaskShiftAccu) (shift / 2 ^ 16) (shift mod 2 ^ 16); mask].
    split; [by rewrite <- Hw|]. intros rest. cbn [app].
    rewrite from_buffer_word by done. by rewrite Hsum.
  - unfold is_u16 in Hc. destruct (encode_24bit CompareLoopAccu comp ltac:(lia)) as (Hw & _ & H0 & H1 & _).
    exists [stack_word (CommandType_value CompareLoopAccu) (comp / 2 ^ 16) (comp mod 2 ^ 16); v].
    split; [by rewrite <- Hw|]. intros rest. cbn [app].
    rewrite from_buffer_word by done. by rewrite Z.mod_small by lia.
  - exists [w]. split; [done|]. intros rest. cbn [app]. by rewrite from_buffer_custom.
Qed.

(** What a buffer says of a command: stack frames are not listed, and a custom command comes back
    as one command per word. *)
Definition custom_word (w : Z) : StackCommand := set_customValues [w] (cmd_of_type Custom).
Definition carried (c : StackCommand) : list StackCommand :=
  match sc_type c with
  | StackStart | StackEnd => []
  | Custom => custom_word <$> sc_customValues c
  | _ => [c]
  end.

(** The commands with a buffer: those that come back, stack frames, and custom commands whose words
    do not look like stack commands. *)
Definition sendable (c : StackCommand) : Prop :=
  encodable c ∨ sc_type c = StackStart ∨ sc_type c = StackEnd
  ∨ sc_type c = Custom ∧ Forall (λ w, is_u32 w ∧ is_stack_command w = false) (sc_customValues c).

Lemma custom_words_decode ws rest :
  Forall (λ w, is_u32 w ∧ is_stack_command w = false) ws →
  stack_commands_from_buffer (ws ++ rest) = (ds ← stack_commands_from_buffer rest; Return ((custom_word <$> ws) ++ ds)).
Proof.
  induction 1 as [|w ws [Hw Hs] Hws IH]; cbn [app fmap list_fmap]; [by destruct (stack_commands_from_buffer rest)|].
  rewrite from_buffer_custom by done. rewrite IH. by destruct (stack_commands_from_buffer rest).
Qed.

Lemma encodable_carried c : encodable c → carried c = [c].
Proof.
  destruct 1 as [t a m d late Ht|t a m n Ht|t a r n Ht| |t v Ht|t v Ht| | | |]; try done; unfold carried; cbn [sc_type set_value cmd_of_type];
    [destruct Ht as [Ht| ->]; [by destruct t|done]|by destruct t|by destruct t|by destruct Ht; subst t|by destruct Ht; subst t].
Qed.

Lemma sendable_carries c :
  sendable c → ∃ ws, encode_stack_command c = Return ws ∧
    ∀ rest, stack_commands_from_buffer (ws ++ rest) = (ds ← stack_commands_from_buffer rest; Return (carried c ++ ds)).
Proof.
  intros [Hc|[Ht|[Ht|[Ht Hw]]]].
  - rewrite (encodable_carried c Hc). exact (encodable_roundtrips c Hc).
  - exists [stack_word (CommandType_value StackStart) 0 0]. unfold encode_stack_command, carried. rewrite Ht. split; [done|]. intros rest. cbn [app].
    rewrite from_buffer_word by done. by destruct (stack_commands_from_buffer rest).
  - exists [stack_word (CommandType_value StackEnd) 0 0]. unfold encode_stack_command, carried. rewrite Ht. split; [done|]. intros rest. cbn [app].
    rewrite from_buffer_word by done. by destruct (stack_commands_from_buffer rest).
  - exists (sc_customValues c). unfold encode_stack_command, carried. rewrite Ht. split; [done|]. intros rest. by apply custom_words_decode.
Qed.

Lemma make_stack_buffer_roundtrip cs :
  Forall sendable cs →
  ∃ buf, make_stack_buffer cs = Return buf ∧
    ∀ rest, stack_commands_from_buffer (buf ++ rest) =
      (ds ← stack_commands_from_buffer rest; Return ((cs ≫= carried) ++ ds)).
Proof.
  induction 1 as [|c cs Hc Hcs (buf & Hbuf & Hdec)].
  { exists []. split; [done|]. intros rest. cbn. by destruct (stack_commands_from_buffer rest). }
  destruct (sendable_carries c Hc) as (ws & Hws & Hone). exists (ws ++ buf). split.
  - cbn [make_stack_buffer]. by rewrite Hws, Hbuf.
  - intros rest. rewrite <- app_assoc, Hone, Hdec. cbn [mbind list_bind]. destruct (stack_commands_from_buffer rest); try done. cbn [mbind outcome_bind]. by rewrite <- app_assoc.
Qed.

Lemma make_stack_buffer_refuses cs c more :
  Forall sendable cs → sc_type c = SoftwareDelay ∨ sc_type c = Invalid → ∃ e, make_stack_buffer (cs ++ c :: more) = Throw e.
Proof.
  intros Hcs Ht. induction Hcs as [|d cs Hd Hcs [e IH]]; cbn [app make_stack_buffer].
  - unfold encode_stack_command. destruct Ht as [-> | ->]; by eexists.
  - destruct (sendable_carries d Hd) as (ws & -> & _). cbn [mbind outcome_bind]. rewrite IH. by exists e.
Qed.

(** ** Uploads *)

(** The MVLC side of an upload: every [WriteLocal] stores its value. *)
Definition apply_write (m : gmap Z Z) (c : SuperCommand) : gmap Z Z :=
  match su_type c with WriteLocal => <[su_address c := su_value c]> m | _ => m end.

(** The words [ws] stored from address [a] on. *)
Definition stored_at (m : gmap Z Z) (a : Z) (ws : list Z) : Prop :=
  ∀ (i : nat) w, ws !! i = Some w → m !! (a + 4 * Z.of_nat i) = Some w.

(** The words of an uploaded stack. *)
Definition upload_contents (pipe : Z) (buf : list Z) : list Z :=
  [u32 (StackCommandType.StackStart ≪ stack_commands.CmdShift)
     .| (pipe ≪ stack_commands.CmdArg0Shift)]
  ++ buf ++ [u32 (StackCommandType.StackEnd ≪ stack_commands.CmdShift)].

(** [WriteLocal]s of consecutive words from address [a]. *)
Definition writes_at (a : Z) (ws : list Z) : list SuperCommand :=
  imap (λ i w, mkSuper WriteLocal (u16 (a + 4 * Z.of_nat i)) w) ws.

Lemma writes_at_cons a w ws :
  writes_at (u16 a) (w :: ws) = mkSuper WriteLocal (u16 a) w :: writes_at (u16 (u16 a + 4)) ws.
Proof.
  unfold writes_at. rewrite imap_cons. f_equal.
  - f_equal. unfold u16. zlia.
  - apply imap_ext. intros i x _. unfold compose. f_equal. unfold u16.
    rewrite !Zplus_mod_idemp_l, Nat2Z.inj_succ, <- Z.add_assoc. rewrite Zplus_mod_idemp_l.
    f_equal. lia.
Qed.

Lemma upload_words_spec ws super a :
  upload_words super (u16 a) ws =
    (super ++ writes_at (u16 a) ws, u16 (a + 4 * zlen ws)).
Proof.
  revert super a; induction ws as [|w ws IH]; intros super a.
  { cbn [upload_words]. unfold writes_at. simpl. rewrite app_nil_r. f_equal.
    unfold zlen; simpl. by rewrite Z.add_0_r. }
  cbn [upload_words]. unfold AddressIncrement. rewrite IH, writes_at_cons.
  unfold su_addWriteLocal. rewrite <- app_assoc. f_equal.
  rewrite zlen_cons. unfold u16. zlia.
Qed.

Lemma upload_commands_writes pipe off buf :
  make_stack_upload_commands pipe off buf =
    writes_at (u16 (stacks.StackMemoryBegin + off)) (upload_contents pipe buf).
Proof.
  unfold make_stack_upload_commands, upload_contents.
  rewrite upload_words_spec. unfold su_addWriteLocal. cbn [app].
  rewrite writes_at_cons. unfold AddressIncrement. cbn [app].
  set (a := stacks.StackMemoryBegin + off). f_equal.
  unfold writes_at. rewrite imap_app. f_equal. simpl. f_equal. f_equal.
  unfold u16, zlen. zlia.
Qed.

Lemma stored_at_writes ws m a :
  0 ≤ a → a + 4 * zlen ws ≤ 2 ^ 16 →
  stored_at (foldl apply_write m (writes_at (u16 a) ws)) a ws ∧
  ∀ k, k < a ∨ a + 4 * zlen ws ≤ k →
       foldl apply_write m (writes_at (u16 a) ws) !! k = m !! k.
Proof.
  revert m a; induction ws as [|w ws IH]; intros m a Ha Hb.
  { split; [intros i x; by rewrite lookup_nil | done]. }
  rewrite zlen_cons in Hb. pose proof (zlen_nonneg ws).
  rewrite writes_at_cons. cbn [foldl apply_write su_type su_address su_value].
  replace (u16 (u16 a + 4)) with (u16 (a + 4)) by (unfold u16; zlia).
  destruct (IH (<[u16 a:=w]> m) (a + 4)) as [Hs Hf]; [lia|lia|].
  assert (u16 a = a) as Hua by (unfold u16; apply Z.mod_small; lia).
  split.
  - intros [|i] x Hx; simpl in Hx.
    + simplify_eq. rewrite Z.mul_0_r, Z.add_0_r, Hf by lia.
      rewrite Hua. apply lookup_insert_eq.
    + replace (a + 4 * Z.of_nat (S i)) with (a + 4 + 4 * Z.of_nat i) by lia. by apply Hs.
  - intros k Hk. rewrite zlen_cons in Hk. rewrite Hf by lia. rewrite Hua.
    apply lookup_insert_ne. lia.
Qed.

Lemma writes_at_values a ws : su_value <$> writes_at a ws = ws.
Proof.
  unfold writes_at. apply list_eq. intros i.
  rewrite list_lookup_fmap, list_lookup_imap. by destruct (ws !! i).
Qed.

Lemma upload_start_word pipe :
  is_u8 pipe →
  u32 (StackCommandType.StackStart ≪ stack_commands.CmdShift)
    .| (pipe ≪ stack_commands.CmdArg0Shift) = stack_word (CommandType_value StackStart) pipe 0.
Proof.
  intros [? ?]. rewrite <- (stack_word_or _ pipe 0) by lia. by rewrite Z.lor_0_r.
Qed.



(** Executing the super commands of a stack upload stores StackStart with the
    output pipe, the stack words in order and StackEnd at consecutive word
    addresses from the stack memory offset on, and changes no other address, as
    long as the stack does not run past the 16-bit address space. *)
Theorem stack_upload_memory pipe off buf m :
  0 ≤ off → stacks.StackMemoryBegin + off + 4 * (zlen buf + 2) ≤ 2 ^ 16 →
  let m' := foldl apply_write m (make_stack_upload_commands pipe off buf) in
  stored_at m' (stacks.StackMemoryBegin + off) (upload_contents pipe buf) ∧
  ∀ k, k < stacks.StackMemoryBegin + off ∨
       stacks.StackMemoryBegin + off + 4 * (zlen buf + 2) ≤ k → m' !! k = m !! k.
Proof.
  intros Hoff Hfit m'. subst m'. rewrite upload_commands_writes.
  pose proof (stored_at_writes (upload_contents pipe buf) m (stacks.StackMemoryBegin + off)) as Hw.
  assert (zlen (upload_contents pipe buf) = zlen buf + 2) as Hl.
  { unfold upload_contents. rewrite !zlen_app. unfold zlen; simpl; lia. }
  rewrite Hl in Hw. apply Hw; [unfold stacks.StackMemoryBegin; lia | done].
Qed.

Lemma stack_upload_memory_witness :
  foldl apply_write ∅ (make_stack_upload_commands 0 4 [0xC6000000]) !! 0x2008 = Some 0xC6000000.
Proof.
  destruct (stack_upload_memory 0 4 [0xC6000000] ∅) as [Hs _]; [lia|vm_compute; congruence|].
  apply (Hs 1%nat). done.
Defined.

(** ** Sizes *)

Lemma encoded_size_fold cs n :
  foldl (λ encodedSize cmd, encodedSize + stack_get_encoded_size (sc_type cmd)) n cs =
  n + foldl (λ encodedSize cmd, encodedSize + stack_get_encoded_size (sc_type cmd)) 0 cs.
Proof.
  revert n; induction cs as [|c cs IH]; intros n; cbn [foldl]; [lia|].
  rewrite IH, (IH (0 + _)). lia.
Qed.

Definition custom_single (c : StackCommand) : Prop :=
  sc_type c = Custom → zlen (sc_customValues c) = 1.

Lemma encode_size c ws :
  custom_single c → encode_stack_command c = Return ws →
  zlen ws = stack_get_encoded_size (sc_type c).
Proof.
  unfold custom_single, encode_stack_command. intros Hc.
  destruct (sc_type c); intros [= <-]; try done. by apply Hc.
Qed.

Lemma make_stack_buffer_size cs buf :
  Forall custom_single cs → make_stack_buffer cs = Return buf →
  2 + zlen buf = get_encoded_stack_size cs.
Proof.
  intros Hcs. revert buf. unfold get_encoded_stack_size.
  induction Hcs as [|c cs Hc Hcs IH]; intros buf H.
  { by simplify_eq/=. }
  cbn [make_stack_buffer] in H.
  apply outcome_bind_Return in H as (ws & Hws & H).
  apply outcome_bind_Return in H as (rest & Hrest & [= <-]).
  cbn [foldl]. rewrite encoded_size_fold, zlen_app, (encode_size c ws) by done.
  specialize (IH _ Hrest). lia.
Qed.

(** The size announced by [get_encoded_stack_size] is the number of words that
    an upload of the stack writes, for stacks whose Custom commands carry one word
    each. *)
Theorem encoded_stack_size_exact pipe off cs ups :
  Forall custom_single cs → make_stack_upload_commands_of pipe off cs = Return ups →
  zlen ups = get_encoded_stack_size cs.
Proof.
  intros Hcs H. apply outcome_bind_Return in H as (buf & Hbuf & [= <-]).
  rewrite <- (make_stack_buffer_size cs buf) by done.
  rewrite upload_commands_writes. unfold writes_at, zlen. rewrite length_imap.
  unfold upload_contents. rewrite !length_app. simpl. lia.
Qed.

Lemma encoded_stack_size_exact_witness :
  ∃ ups, make_stack_upload_commands_of 0 0 [set_value 7 (cmd_of_type WriteMarker)] = Return ups ∧
         zlen ups = get_encoded_stack_size [set_value 7 (cmd_of_type WriteMarker)].
Proof.
  eexists. split; [reflexivity|].
  apply (encoded_stack_size_exact 0 0); [|reflexivity].
  constructor; [done|constructor].
Defined.

(** A Custom command is announced as a single word whatever it contains: the
    announced stack size is wrong for every Custom command that does not carry
    exactly one word. *)
Theorem custom_encoded_size_wrong pipe off ws ups :
  zlen ws ≠ 1 →
  make_stack_upload_commands_of pipe off [set_customValues ws (cmd_of_type Custom)] = Return ups →
  get_encoded_stack_size [set_customValues ws (cmd_of_type Custom)] = 3 ∧ zlen ups = 2 + zlen ws.
Proof.
  intros Hne H. split; [done|].
  apply outcome_bind_Return in H as (buf & [= <-] & [= <-]).
  rewrite upload_commands_writes. unfold writes_at, zlen. rewrite length_imap.
  unfold upload_contents. rewrite !length_app. simpl. lia.
Qed.

Lemma custom_encoded_size_wrong_witness :
  ∃ ups, make_stack_upload_commands_of 0 0 [set_customValues [1; 2; 3] (cmd_of_type Custom)]
           = Return ups ∧ zlen ups = 5.
Proof.
  eexists. split; [reflexivity|].
  apply (custom_encoded_size_wrong 0 0 [1; 2; 3]); [done|reflexivity].
Defined.

(** Decoding a buffer that ends inside a command leaves the buffer: for every
    command type whose encoding has more than one word, a buffer holding only the
    first word is undefined behaviour. *)
Theorem truncated_buffer_undefined t arg0 arg1 :
  0 ≤ arg0 < 256 → 0 ≤ arg1 < 65536 → 1 < stack_get_encoded_size t →
  stack_commands_from_buffer [stack_word (CommandType_value t) arg0 arg1] = Undefined.
Proof.
  intros H0 H1 Hs.
  assert (is_stack_type t = true) by (destruct t; done).
  rewrite from_buffer_word by done. by destruct t.
Qed.

Lemma truncated_buffer_undefined_witness :
  stack_commands_from_buffer [0x12090001] = Undefined.
Proof. apply (truncated_buffer_undefined VMERead 9 1); [lia|lia|done]. Defined.

(** ** Super commands *)

(** The super commands that a buffer can carry without loss. *)
Definition super_encodable (c : SuperCommand) : Prop :=
  match su_type c with
  | ReferenceWord => su_address c = 0 ∧ is_u16 (su_value c)
  | ReadLocal => is_u16 (su_address c) ∧ su_value c = 0
  | ReadLocalBlock | WriteLocal => is_u16 (su_address c) ∧ is_u32 (su_value c)
  | WriteReset => su_address c = 0 ∧ su_value c = 0
  | CmdBufferStart | CmdBufferEnd | EthDelay => False
  end.

Lemma super_word_sum t arg :
  is_u16 arg →
  u32 (SuperCT_value t ≪ super_commands.SuperCmdShift)
    .| (arg .& super_commands.SuperCmdArgMask) = SuperCT_value t * 2 ^ 16 + arg.
Proof.
  intros [? ?]. unfold super_commands.SuperCmdShift, super_commands.SuperCmdArgMask.
  change 0xFFFF with (2 ^ 16 - 1). rewrite land_mask, (Z.mod_small arg) by lia.
  assert (0 ≤ SuperCT_value t < 2 ^ 16) by (destruct t; vm_compute; split; congruence).
  unfold u32. rewrite shiftl_mul, Z.mod_small by lia.
  apply (lor_add _ _ 16); [lia|lia|apply Z.mod_mul; lia].
Qed.

Lemma super_decode_word t arg rest :
  is_u16 arg → t ≠ EthDelay →
  let w := SuperCT_value t * 2 ^ 16 + arg in
  super_builder_from_buffer (w :: rest) =
    match t with
    | CmdBufferStart | CmdBufferEnd | EthDelay => super_builder_from_buffer rest
    | ReferenceWord => cs ← super_builder_from_buffer rest; Return (mkSuper t 0 arg :: cs)
    | ReadLocal => cs ← super_builder_from_buffer rest; Return (mkSuper t arg 0 :: cs)
    | ReadLocalBlock | WriteLocal =>
        match rest with
        | [] => Undefined
        | v :: rest' => cs ← super_builder_from_buffer rest'; Return (mkSuper t arg v :: cs)
        end
    | WriteReset => cs ← super_builder_from_buffer rest; Return (mkSuper t 0 0 :: cs)
    end.
Proof.
  intros [H0 H1] Ht w. cbn [super_builder_from_buffer].
  assert (Hf : (w ≫ super_commands.SuperCmdShift) .& super_commands.SuperCmdMask = SuperCT_value t).
  { unfold super_commands.SuperCmdShift, super_commands.SuperCmdMask.
    rewrite (field_eq _ 16 16) by lia.
    assert (0 ≤ SuperCT_value t < 2 ^ 16) by (destruct t; vm_compute; split; congruence).
    subst w. zlia. }
  assert (Ha : (w ≫ super_commands.SuperCmdArgShift) .& super_commands.SuperCmdArgMask = arg).
  { unfold super_commands.SuperCmdArgShift, super_commands.SuperCmdArgMask.
    rewrite (field_eq _ 0 16) by lia. subst w. zlia. }
  unfold is_super_command. rewrite Hf, Ha. by destruct t.
Qed.

Lemma super_roundtrips c rest :
  super_encodable c →
  super_builder_from_buffer (encode_super_command c ++ rest) =
    (cs ← super_builder_from_buffer rest; Return (c :: cs)).
Proof.
  intros Hc. destruct c as [t a v]. unfold super_encodable, encode_super_command in *.
  cbn [su_type su_address su_value] in *.
  destruct t; try done; destruct Hc as [H1 H2]; subst; cbn [app];
    rewrite ?super_word_sum by done; try (by rewrite super_decode_word).
  change (u32 _) with (SuperCT_value WriteReset * 2 ^ 16 + 0).
  by rewrite super_decode_word by (done || unfold is_u16; lia).
Qed.

Lemma command_buffer_decodes cs :
  Forall super_encodable cs →
  super_builder_from_buffer (make_command_buffer cs) = Return cs.
Proof.
  intros Hcs. unfold make_command_buffer. cbn [app].
  change (u32 (SuperCT_value CmdBufferStart ≪ super_commands.SuperCmdShift))
    with (SuperCT_value CmdBufferStart * 2 ^ 16 + 0).
  change (u32 (SuperCT_value CmdBufferEnd ≪ super_commands.SuperCmdShift))
    with (SuperCT_value CmdBufferEnd * 2 ^ 16 + 0).
  rewrite super_decode_word by (done || unfold is_u16; lia).
  induction Hcs as [|c cs Hc Hcs IH].
  { cbn [mbind list_bind app]. by rewrite super_decode_word by (done || unfold is_u16; lia). }
  rewrite bind_cons, <- app_assoc, super_roundtrips, IH by done. done.
Qed.

(** The command buffer built from a list of super commands decodes to the
    same list: the decoder skips CmdBufferStart and CmdBufferEnd and inverts the
    encoding of every command whose arguments fit. *)
Theorem super_commands_roundtrip cs :
  Forall super_encodable cs →
  super_builder_from_buffer (make_command_buffer cs) = Return cs.
Proof. apply command_buffer_decodes. Qed.

Lemma super_commands_roundtrip_witness :
  super_builder_from_buffer (make_command_buffer
    [mkSuper ReferenceWord 0 7; mkSuper WriteLocal 0x2004 0xC6000000; mkSuper ReadLocal 0x1304 0]) =
  Return [mkSuper ReferenceWord 0 7; mkSuper WriteLocal 0x2004 0xC6000000; mkSuper ReadLocal 0x1304 0].
Proof.
  apply super_commands_roundtrip.
  repeat constructor; unfold super_encodable, is_u16, is_u32; simpl; lia.
Defined.

(** ** Builders *)

Lemma push_back_last_commands gs c :
  gs ≠ [] → push_back_last gs c ≫= g_commands = (gs ≫= g_commands) ++ [c].
Proof.
  induction gs as [|g [|g' gs] IH]; intros Hne; [done|simpl; by rewrite !app_nil_r|].
  change (push_back_last (g :: g' :: gs) c) with (g :: push_back_last (g' :: gs) c).
  rewrite bind_cons, IH, (bind_cons g_commands g (g' :: gs)) by done. by rewrite <- app_assoc.
Qed.

Lemma getCommands_addCommand c b : getCommands (addCommand c b) = getCommands b ++ [c].
Proof.
  unfold getCommands, addCommand, hasOpenGroup.
  destruct (m_groups b) as [|g gs] eqn:E; cbn [negb].
  - unfold beginGroup. cbn [m_groups set_groups]. rewrite E. done.
  - cbn [set_groups m_groups]. rewrite E. by apply push_back_last_commands.
Qed.

Lemma getCommands_addCommands cs b : getCommands (addCommands cs b) = getCommands b ++ cs.
Proof.
  revert b; induction cs as [|c cs IH]; intros b; cbn; [by rewrite app_nil_r|].
  fold (addCommands cs (addCommand c b)). rewrite IH, getCommands_addCommand, <- app_assoc. done.
Qed.

(** Whatever the grouping, a builder holds its commands in the order in which
    they were added: appending single commands, named groups and whole groups
    appends to [getCommands], [commandCount] counts exactly these commands, and a
    builder made from a decoded buffer holds the decoded commands. *)
Theorem builder_commands b c cs name meta g :
  getCommands (addCommand c b) = getCommands b ++ [c] ∧
  getCommands (addGroup name cs meta b) = getCommands b ++ cs ∧
  getCommands (addGroup_group g b) = getCommands b ++ g_commands g ∧
  getCommands (builder_of_commands cs) = cs ∧
  commandCount b = zlen (getCommands b).
Proof.
  split_and!.
  - apply getCommands_addCommand.
  - unfold addGroup. rewrite getCommands_addCommands. f_equal.
    unfold getCommands, beginGroup. cbn [set_groups m_groups].
    rewrite bind_app. simpl. by rewrite app_nil_r.
  - unfold getCommands, addGroup_group. cbn [set_groups m_groups].
    rewrite bind_app. simpl. by rewrite app_nil_r.
  - unfold builder_of_commands. by rewrite getCommands_addCommands.
  - unfold commandCount, getCommands.
    assert (H : ∀ gs n, foldl (λ accu g, accu + zlen (g_commands g)) n gs
                        = n + zlen (gs ≫= g_commands)).
    { induction gs as [|g' gs IH]; intros n; [cbn; unfold zlen; simpl; lia|].
      cbn [foldl]. rewrite IH, bind_cons, zlen_app. lia. }
    by rewrite H.
Qed.
