(* ===== verification/ReadoutParser.v ===== *)
(** * The readout parser: [mvlc_readout_parser.h], [mvlc_readout_parser.cc]

    The state machine that turns USB and ETH readout buffers into calls of the
    [eventData] and [systemEvent] callbacks.

    The C++ functions share, by reference, the parser state, the counters, the
    callbacks and the input view.  Here these four form a [World]; a function is
    a computation of the monad [PM], which also carries the control flow of the
    body of the parse loop: falling through, [continue], [return] and an
    exception in flight.  An exception keeps the changes made before it, so the
    world is part of every result.

    Callbacks are recorded: each call appends one [CallbackEvent].  The data
    pointers passed to a callback are resolved when the call is made, that is
    [md_data] holds the words that are readable from [data.data] on, and
    [md_size] is [data.size].

    [assert] is compiled out as in a release build ([NDEBUG]), [userContext] is
    passed through unchanged and not represented, and log output is dropped. *)

From S2P Require Import Prelude Constants Frames Commands.

(** ** Data *)

(* mvlc_readout_parser.h:85-102 ModuleData *)
Record ModuleData : Type := mkModuleData {
  md_data : list Z;
  md_size : Z;
  md_prefixSize : Z;
  md_dynamicSize : Z;
  md_suffixSize : Z;
  md_hasDynamic : bool
}.

Definition empty_module_data : ModuleData := mkModuleData [] 0 0 0 0 false.

(* mvlc_readout_parser.h:104-112 size_consistency_check *)
Definition size_consistency_check (md : ModuleData) : bool :=
  let partSum := u32 (u32 (md_prefixSize md + md_dynamicSize md) + md_suffixSize md) in
  let sumOk := partSum =? md_size md in
  let dynOk := if md_dynamicSize md >? 0 then md_hasDynamic md else true in
  sumOk && dynOk.

(* mvlc_readout_parser.h:114-118 prefix_span *)
Definition prefix_span (md : ModuleData) : list Z :=
  ztake (md_prefixSize md) (md_data md).

(* mvlc_readout_parser.h:120-124 dynamic_span *)
Definition dynamic_span (md : ModuleData) : list Z :=
  ztake (md_dynamicSize md) (zdrop (md_prefixSize md) (md_data md)).

(* mvlc_readout_parser.h:126-130 suffix_span *)
Definition suffix_span (md : ModuleData) : list Z :=
  ztake (md_suffixSize md) (zdrop (md_prefixSize md + md_dynamicSize md) (md_data md)).

(* mvlc_readout_parser.h:155-187 ReadoutParserCallbacks *)
Inductive CallbackEvent : Type :=
| EventData (crateIndex eventIndex : Z) (moduleDataList : list ModuleData)
| SystemEvent (crateIndex : Z) (words : list Z).

(* mvlc_readout_parser.h:191-208 ModuleReadoutStructure *)
Record ModuleReadoutStructure : Type := mkMRS {
  prefixLen : Z;
  suffixLen : Z;
  hasDynamic : bool;
  mrs_name : string;
  mrs_commands : list StackCommand;
  mrs_meta : gmap string string;
  isMesytecAndUsing2eSST : bool
}.

(* mvlc_readout_parser.h:210-213 is_empty *)
Definition mrs_is_empty (mrs : ModuleReadoutStructure) : bool :=
  (prefixLen mrs =? 0) && (suffixLen mrs =? 0) && negb (hasDynamic mrs).

(* mvlc_readout_parser.h:215-219 Span *)
Record Span : Type := mkSpan { sp_offset : Z; sp_size : Z }.

(* mvlc_readout_parser.h:221-226 ModuleReadoutSpans *)
Record ModuleReadoutSpans : Type := mkSpans {
  prefixSpan : Span;
  dynamicSpan : Span;
  suffixSpan : Span
}.

Definition empty_span : Span := mkSpan 0 0.
Definition empty_spans : ModuleReadoutSpans := mkSpans empty_span empty_span empty_span.

(* mvlc_readout_parser.h:228-233 is_empty *)
Definition spans_is_empty (spans : ModuleReadoutSpans) : bool :=
  (sp_size (prefixSpan spans) =? 0)
  && (sp_size (dynamicSpan spans) =? 0)
  && (sp_size (suffixSpan spans) =? 0).

(* mvlc_readout_parser.h:237-266 ParseResult *)
Inductive ParseResult : Type :=
| Ok | NoHeaderPresent | NoStackFrameFound
| NotAStackFrame | NotABlockFrame | NotAStackContinuation
| StackIndexChanged | StackIndexOutOfRange | GroupIndexOutOfRange
| EmptyStackFrame | UnexpectedOpenBlockFrame | UnexpectedNonEmptyStackFrame
| ParseReadoutContentsNotAdvancing | ParseEthBufferNotAdvancing | ParseEthPacketNotAdvancing
| UnexpectedEndOfBuffer | UnhandledException | UnknownBufferType
| ParseResultMax.

#[global] Instance ParseResult_eq_dec : EqDecision ParseResult.
Proof. solve_decision. Defined.

(** [static_cast<size_t>] of a parse result, used as an array index. *)
Definition ParseResult_index (pr : ParseResult) : nat :=
  match pr with
  | Ok => 0 | NoHeaderPresent => 1 | NoStackFrameFound => 2
  | NotAStackFrame => 3 | NotABlockFrame => 4 | NotAStackContinuation => 5
  | StackIndexChanged => 6 | StackIndexOutOfRange => 7 | GroupIndexOutOfRange => 8
  | EmptyStackFrame => 9 | UnexpectedOpenBlockFrame => 10 | UnexpectedNonEmptyStackFrame => 11
  | ParseReadoutContentsNotAdvancing => 12 | ParseEthBufferNotAdvancing => 13
  | ParseEthPacketNotAdvancing => 14
  | UnexpectedEndOfBuffer => 15 | UnhandledException => 16 | UnknownBufferType => 17
  | ParseResultMax => 18
  end%nat.

(* mvlc_readout_parser.cc:218-279 get_parse_result_name *)
Definition get_parse_result_name (pr : ParseResult) : string :=
  match pr with
  | Ok => "Ok"
  | NoHeaderPresent => "NoHeaderPresent"
  | NoStackFrameFound => "NoStackFrameFound"
  | NotAStackFrame => "NotAStackFrame"
  | NotABlockFrame => "NotABlockFrame"
  | NotAStackContinuation => "NotAStackContinuation"
  | StackIndexChanged => "StackIndexChanged"
  | StackIndexOutOfRange => "StackIndexOutOfRange"
  | GroupIndexOutOfRange => "GroupIndexOutOfRange"
  | EmptyStackFrame => "EmptyStackFrame"
  | UnexpectedOpenBlockFrame => "UnexpectedOpenBlockFrame"
  | UnexpectedNonEmptyStackFrame => "UnexpectedNonEmptyStackFrame"
  | ParseReadoutContentsNotAdvancing => "ParseReadoutContentsNotAdvancing"
  | ParseEthBufferNotAdvancing => "ParseEthBufferNotAdvancing"
  | ParseEthPacketNotAdvancing => "ParseEthPacketNotAdvancing"
  | UnexpectedEndOfBuffer => "UnexpectedEndOfBuffer"
  | UnhandledException => "UnhandledException"
  | UnknownBufferType => "UnknownBufferType"
  | ParseResultMax => "UnknownParseResult"
  end%string.

(* mvlc_readout_parser.h:321-326 PartSizeInfo *)
Record PartSizeInfo : Type := mkPSI { psi_min : Z; psi_max : Z; psi_sum : Z }.

Definition default_PartSizeInfo : PartSizeInfo := mkPSI (2 ^ 64 - 1) 0 0.

(* mvlc_readout_parser.h:280-339 ReadoutParserCounters *)
Record ReadoutParserCounters : Type := mkCounters {
  internalBufferLoss : Z;
  buffersProcessed : Z;
  bytesProcessed : Z;
  unusedBytes : Z;
  ethPacketsProcessed : Z;
  ethPacketLoss : Z;
  systemEvents : list Z;
  parseResults : list Z;
  parserExceptions : Z;
  emptyStackFrames : Z;
  eventHits : gmap Z Z;
  groupHits : gmap (Z * Z) Z;
  groupSizes : gmap (Z * Z) PartSizeInfo
}.

(* mvlc_readout_parser.h:280-286 ReadoutParserCounters *)
Definition new_counters : ReadoutParserCounters :=
  mkCounters 0 0 0 0 0 0
    (replicate (Z.to_nat (system_event.subtype.SubtypeMax + 1)) 0)
    (replicate (ParseResult_index ParseResultMax) 0) 0 0 ∅ ∅ ∅.

(* mvlc_readout_parser.h:345-375 FrameParseState *)
Record FrameParseState : Type := mkFPS { fps_header : Z; fps_wordsLeft : Z }.

(* mvlc_readout_parser.h:347-350 FrameParseState *)
Definition new_frame (frameHeader : Z) : FrameParseState :=
  mkFPS frameHeader (fi_len (extract_frame_info frameHeader)).

(* mvlc_readout_parser.h:355-355 FrameParseState *)
Definition fps_bool (f : FrameParseState) : bool := negb (fps_wordsLeft f =? 0).

(* mvlc_readout_parser.h:356-356 FrameParseState *)
Definition fps_info (f : FrameParseState) : FrameInfo := extract_frame_info (fps_header f).

(* mvlc_readout_parser.h:366-372 FrameParseState *)
Definition consumeWords (count : Z) (f : FrameParseState) : outcome FrameParseState :=
  if fps_wordsLeft f <? count then Throw end_of_frame
  else Return (mkFPS (fps_header f) (u16 (fps_wordsLeft f - count))).

(* mvlc_readout_parser.h:377-377 GroupParseState *)
Inductive GroupParseState : Type := Prefix | Dynamic | Suffix.

#[global] Instance GroupParseState_eq_dec : EqDecision GroupParseState.
Proof. solve_decision. Defined.

(* mvlc_readout_parser.h:381-387 WorkBuffer *)
Record WorkBuffer : Type := mkWB { wb_buffer : list Z; wb_used : Z }.

(* mvlc_readout_parser.h:386-386 WorkBuffer *)
Definition wb_free (b : WorkBuffer) : Z := zlen (wb_buffer b) - wb_used b.

(* mvlc_readout_parser.h:341-428 ReadoutParserState *)
Record ReadoutParserState : Type := mkState {
  lastBufferNumber : Z;
  workBuffer : WorkBuffer;
  readoutDataSpans : list ModuleReadoutSpans;
  moduleDataBuffer : list ModuleData;
  readoutStructure : list (list ModuleReadoutStructure);
  eventIndex : Z;
  moduleIndex : Z;
  groupParseState : GroupParseState;
  curStackFrame : FrameParseState;
  curBlockFrame : FrameParseState;
  lastPacketNumber : Z
}.

(** Assignments to the members of the state and of the counters. *)

Definition set_lastBufferNumber (v : Z) (s : ReadoutParserState) : ReadoutParserState :=
  mkState v (workBuffer s) (readoutDataSpans s) (moduleDataBuffer s) (readoutStructure s)
    (eventIndex s) (moduleIndex s) (groupParseState s) (curStackFrame s) (curBlockFrame s)
    (lastPacketNumber s).
Definition set_workBuffer (v : WorkBuffer) (s : ReadoutParserState) : ReadoutParserState :=
  mkState (lastBufferNumber s) v (readoutDataSpans s) (moduleDataBuffer s) (readoutStructure s)
    (eventIndex s) (moduleIndex s) (groupParseState s) (curStackFrame s) (curBlockFrame s)
    (lastPacketNumber s).
Definition set_readoutDataSpans (v : list ModuleReadoutSpans) (s : ReadoutParserState) :
    ReadoutParserState :=
  mkState (lastBufferNumber s) (workBuffer s) v (moduleDataBuffer s) (readoutStructure s)
    (eventIndex s) (moduleIndex s) (groupParseState s) (curStackFrame s) (curBlockFrame s)
    (lastPacketNumber s).
Definition set_moduleDataBuffer (v : list ModuleData) (s : ReadoutParserState) :
    ReadoutParserState :=
  mkState (lastBufferNumber s) (workBuffer s) (readoutDataSpans s) v (readoutStructure s)
    (eventIndex s) (moduleIndex s) (groupParseState s) (curStackFrame s) (curBlockFrame s)
    (lastPacketNumber s).
Definition set_eventIndex (v : Z) (s : ReadoutParserState) : ReadoutParserState :=
  mkState (lastBufferNumber s) (workBuffer s) (readoutDataSpans s) (moduleDataBuffer s)
    (readoutStructure s) v (moduleIndex s) (groupParseState s) (curStackFrame s) (curBlockFrame
    s) (lastPacketNumber s).
Definition set_moduleIndex (v : Z) (s : ReadoutParserState) : ReadoutParserState :=
  mkState (lastBufferNumber s) (workBuffer s) (readoutDataSpans s) (moduleDataBuffer s)
    (readoutStructure s) (eventIndex s) v (groupParseState s) (curStackFrame s) (curBlockFrame
    s) (lastPacketNumber s).
Definition set_groupParseState (v : GroupParseState) (s : ReadoutParserState) :
    ReadoutParserState :=
  mkState (lastBufferNumber s) (workBuffer s) (readoutDataSpans s) (moduleDataBuffer s)
    (readoutStructure s) (eventIndex s) (moduleIndex s) v (curStackFrame s) (curBlockFrame s)
    (lastPacketNumber s).
Definition set_curStackFrame (v : FrameParseState) (s : ReadoutParserState) : ReadoutParserState
    :=
  mkState (lastBufferNumber s) (workBuffer s) (readoutDataSpans s) (moduleDataBuffer s)
    (readoutStructure s) (eventIndex s) (moduleIndex s) (groupParseState s) v (curBlockFrame s)
    (lastPacketNumber s).
Definition set_curBlockFrame (v : FrameParseState) (s : ReadoutParserState) : ReadoutParserState
    :=
  mkState (lastBufferNumber s) (workBuffer s) (readoutDataSpans s) (moduleDataBuffer s)
    (readoutStructure s) (eventIndex s) (moduleIndex s) (groupParseState s) (curStackFrame s) v
    (lastPacketNumber s).
Definition set_lastPacketNumber (v : Z) (s : ReadoutParserState) : ReadoutParserState :=
  mkState (lastBufferNumber s) (workBuffer s) (readoutDataSpans s) (moduleDataBuffer s)
    (readoutStructure s) (eventIndex s) (moduleIndex s) (groupParseState s) (curStackFrame s)
    (curBlockFrame s) v.

Definition set_internalBufferLoss (v : Z) (s : ReadoutParserCounters) : ReadoutParserCounters :=
  mkCounters v (buffersProcessed s) (bytesProcessed s) (unusedBytes s) (ethPacketsProcessed s)
    (ethPacketLoss s) (systemEvents s) (parseResults s) (parserExceptions s) (emptyStackFrames
    s) (eventHits s) (groupHits s) (groupSizes s).
Definition set_buffersProcessed (v : Z) (s : ReadoutParserCounters) : ReadoutParserCounters :=
  mkCounters (internalBufferLoss s) v (bytesProcessed s) (unusedBytes s) (ethPacketsProcessed s)
    (ethPacketLoss s) (systemEvents s) (parseResults s) (parserExceptions s) (emptyStackFrames
    s) (eventHits s) (groupHits s) (groupSizes s).
Definition set_bytesProcessed (v : Z) (s : ReadoutParserCounters) : ReadoutParserCounters :=
  mkCounters (internalBufferLoss s) (buffersProcessed s) v (unusedBytes s) (ethPacketsProcessed
    s) (ethPacketLoss s) (systemEvents s) (parseResults s) (parserExceptions s)
    (emptyStackFrames s) (eventHits s) (groupHits s) (groupSizes s).
Definition set_unusedBytes (v : Z) (s : ReadoutParserCounters) : ReadoutParserCounters :=
  mkCounters (internalBufferLoss s) (buffersProcessed s) (bytesProcessed s) v
    (ethPacketsProcessed s) (ethPacketLoss s) (systemEvents s) (parseResults s)
    (parserExceptions s) (emptyStackFrames s) (eventHits s) (groupHits s) (groupSizes s).
Definition set_ethPacketsProcessed (v : Z) (s : ReadoutParserCounters) : ReadoutParserCounters :=
  mkCounters (internalBufferLoss s) (buffersProcessed s) (bytesProcessed s) (unusedBytes s) v
    (ethPacketLoss s) (systemEvents s) (parseResults s) (parserExceptions s) (emptyStackFrames
    s) (eventHits s) (groupHits s) (groupSizes s).
Definition set_ethPacketLoss (v : Z) (s : ReadoutParserCounters) : ReadoutParserCounters :=
  mkCounters (internalBufferLoss s) (buffersProcessed s) (bytesProcessed s) (unusedBytes s)
    (ethPacketsProcessed s) v (systemEvents s) (parseResults s) (parserExceptions s)
    (emptyStackFrames s) (eventHits s) (groupHits s) (groupSizes s).
Definition set_systemEvents (v : list Z) (s : ReadoutParserCounters) : ReadoutParserCounters :=
  mkCounters (internalBufferLoss s) (buffersProcessed s) (bytesProcessed s) (unusedBytes s)
    (ethPacketsProcessed s) (ethPacketLoss s) v (parseResults s) (parserExceptions s)
    (emptyStackFrames s) (eventHits s) (groupHits s) (groupSizes s).
Definition set_parseResults (v : list Z) (s : ReadoutParserCounters) : ReadoutParserCounters :=
  mkCounters (internalBufferLoss s) (buffersProcessed s) (bytesProcessed s) (unusedBytes s)
    (ethPacketsProcessed s) (ethPacketLoss s) (systemEvents s) v (parserExceptions s)
    (emptyStackFrames s) (eventHits s) (groupHits s) (groupSizes s).
Definition set_parserExceptions (v : Z) (s : ReadoutParserCounters) : ReadoutParserCounters :=
  mkCounters (internalBufferLoss s) (buffersProcessed s) (bytesProcessed s) (unusedBytes s)
    (ethPacketsProcessed s) (ethPacketLoss s) (systemEvents s) (parseResults s) v
    (emptyStackFrames s) (eventHits s) (groupHits s) (groupSizes s).
Definition set_emptyStackFrames (v : Z) (s : ReadoutParserCounters) : ReadoutParserCounters :=
  mkCounters (internalBufferLoss s) (buffersProcessed s) (bytesProcessed s) (unusedBytes s)
    (ethPacketsProcessed s) (ethPacketLoss s) (systemEvents s) (parseResults s)
    (parserExceptions s) v (eventHits s) (groupHits s) (groupSizes s).
Definition set_eventHits (v : gmap Z Z) (s : ReadoutParserCounters) : ReadoutParserCounters :=
  mkCounters (internalBufferLoss s) (buffersProcessed s) (bytesProcessed s) (unusedBytes s)
    (ethPacketsProcessed s) (ethPacketLoss s) (systemEvents s) (parseResults s)
    (parserExceptions s) (emptyStackFrames s) v (groupHits s) (groupSizes s).
Definition set_groupHits (v : gmap (Z * Z) Z) (s : ReadoutParserCounters) :
    ReadoutParserCounters :=
  mkCounters (internalBufferLoss s) (buffersProcessed s) (bytesProcessed s) (unusedBytes s)
    (ethPacketsProcessed s) (ethPacketLoss s) (systemEvents s) (parseResults s)
    (parserExceptions s) (emptyStackFrames s) (eventHits s) v (groupSizes s).
Definition set_groupSizes (v : gmap (Z * Z) PartSizeInfo) (s : ReadoutParserCounters) :
    ReadoutParserCounters :=
  mkCounters (internalBufferLoss s) (buffersProcessed s) (bytesProcessed s) (unusedBytes s)
    (ethPacketsProcessed s) (ethPacketLoss s) (systemEvents s) (parseResults s)
    (parserExceptions s) (emptyStackFrames s) (eventHits s) (groupHits s) v.

(** ** The readout structure *)

(** The local state of [parse_module_readout_commands]. *)
Record module_parse : Type := mkMP {
  mp_state : GroupParseState;
  mp_parts : ModuleReadoutStructure;
  mp_accumulatorActive : bool
}.

Definition add_prefixLen (n : Z) (p : ModuleReadoutStructure) : ModuleReadoutStructure :=
  mkMRS (u8 (prefixLen p + n)) (suffixLen p) (hasDynamic p) (mrs_name p) (mrs_commands p)
    (mrs_meta p) (isMesytecAndUsing2eSST p).
Definition add_suffixLen (n : Z) (p : ModuleReadoutStructure) : ModuleReadoutStructure :=
  mkMRS (prefixLen p) (u8 (suffixLen p + n)) (hasDynamic p) (mrs_name p) (mrs_commands p)
    (mrs_meta p) (isMesytecAndUsing2eSST p).
Definition set_dynamic (esst : bool) (p : ModuleReadoutStructure) : ModuleReadoutStructure :=
  mkMRS (prefixLen p) (suffixLen p) true (mrs_name p) (mrs_commands p) (mrs_meta p) esst.
Definition set_name (n : string) (p : ModuleReadoutStructure) : ModuleReadoutStructure :=
  mkMRS (prefixLen p) (suffixLen p) (hasDynamic p) n (mrs_commands p) (mrs_meta p)
    (isMesytecAndUsing2eSST p).

(** The [switch] that counts [n] fixed words in the current part. *)
(* mvlc_readout_parser.cc:112-124 parse_module_readout_commands *)
Definition count_fixed_words (n : Z) (m : module_parse) : module_parse :=
  match mp_state m with
  | Prefix => mkMP Prefix (add_prefixLen n (mp_parts m)) (mp_accumulatorActive m)
  | Dynamic => mkMP Suffix (add_suffixLen n (mp_parts m)) (mp_accumulatorActive m)
  | Suffix => mkMP Suffix (add_suffixLen n (mp_parts m)) (mp_accumulatorActive m)
  end.

(* mvlc_readout_parser.cc:101-189 parse_module_readout_commands *)
Definition parse_module_command (isMesytecModule : bool) (m : module_parse) (cmd : StackCommand)
  : outcome module_parse :=
  if (is_read_command cmd && negb (vme_amods.is_block_mode (sc_amod cmd))
        && negb (mp_accumulatorActive m))
     || bool_decide (sc_type cmd = WriteMarker)
     || bool_decide (sc_type cmd = WriteSpecial) then
    Return (count_fixed_words 1 m)
  else if is_read_command cmd then
    match mp_state m with
    | Prefix =>
        Return (mkMP Dynamic
                  (set_dynamic (isMesytecModule && vme_amods.is_esst64_mode (sc_amod cmd))
                     (mp_parts m)) false)
    | Dynamic => Throw (runtime_error "multiple block reads in module readout")
    | Suffix => Throw (runtime_error "block read inside the suffix part in module readout")
    end
  else
    match sc_type cmd with
    | Custom => Return (count_fixed_words (sc_transfers cmd) m)
    | SetAccu | ReadToAccu | CompareLoopAccu => Return (mkMP (mp_state m) (mp_parts m) true)
    | SignalAccu => Return (mkMP (mp_state m) (mp_parts m) false)
    | _ => Return m
    end.

(* mvlc_readout_parser.cc:101-189 parse_module_readout_commands *)
Fixpoint parse_module_commands (isMesytecModule : bool) (m : module_parse)
    (cmds : list StackCommand) : outcome module_parse :=
  match cmds with
  | [] => Return m
  | cmd :: rest =>
      m' ← parse_module_command isMesytecModule m cmd;
      parse_module_commands isMesytecModule m' rest
  end.

(* mvlc_readout_parser.cc:72-100 parse_module_readout_commands *)
Definition parse_module_readout_commands (cmdGroup : Group) : outcome ModuleReadoutStructure :=
  let modParts := mkMRS 0 0 false EmptyString (g_commands cmdGroup) (g_meta cmdGroup) false in
  let isMesytecModule := bool_decide (g_meta cmdGroup !! "vme_module_vendor"%string
                                      = Some "mesytec"%string) in
  m ← parse_module_commands isMesytecModule (mkMP Prefix modParts false) (g_commands cmdGroup);
  Return (mp_parts m).

(* mvlc_readout_parser.cc:203-210 build_readout_structure *)
Fixpoint build_group_structures (groups : list Group) : outcome (list ModuleReadoutStructure) :=
  match groups with
  | [] => Return []
  | group :: rest =>
      s ← parse_module_readout_commands group;
      ss ← build_group_structures rest;
      Return (set_name (g_name group) s :: ss)
  end.

(* mvlc_readout_parser.cc:196-216 build_readout_structure *)
Fixpoint build_readout_structure (readoutStacks : list StackCommandBuilder)
  : outcome (list (list ModuleReadoutStructure)) :=
  match readoutStacks with
  | [] => Return []
  | stack :: rest =>
      groupStructure ← build_group_structures (m_groups stack);
      result ← build_readout_structure rest;
      Return (groupStructure :: result)
  end.

(* mvlc_readout_parser.cc:296-300 ensure_free_space *)
Definition ensure_free_space (freeWords : Z) (b : WorkBuffer) : WorkBuffer :=
  if wb_free b <? freeWords
  then mkWB (wb_buffer b ++ replicate (Z.to_nat freeWords) 0) (wb_used b)
  else b.

(* mvlc_readout_parser.cc:325-325 InitialWorkerBufferSize *)
Definition InitialWorkerBufferSize : Z := 1024 * 1024 / 4.

(* mvlc_readout_parser.cc:327-349 make_readout_parser *)
Definition make_readout_parser (readoutStacks : list StackCommandBuilder)
  : outcome ReadoutParserState :=
  readoutStructure ← build_readout_structure readoutStacks;
  let maxGroupCount := foldl (λ m g, Nat.max m (length g)) 0%nat readoutStructure in
  Return (mkState 0 (ensure_free_space InitialWorkerBufferSize (mkWB [] 0))
            (replicate maxGroupCount empty_spans)
            (replicate maxGroupCount empty_module_data)
            readoutStructure (-1) (-1) Prefix (new_frame 0) (new_frame 0) (-1)).

(** ** The world and the control flow of the parse loop *)

Record World : Type := mkWorld {
  w_state : ReadoutParserState;
  w_counters : ReadoutParserCounters;
  w_callbacks : list CallbackEvent;
  w_input : list Z
}.

Inductive flow (A : Type) : Type :=
| Go (a : A)
| Continue_
| Ret (pr : ParseResult)
| Exc (e : exn)
| Undef.
Arguments Go {A} a.
Arguments Continue_ {A}.
Arguments Ret {A} pr.
Arguments Exc {A} e.
Arguments Undef {A}.

Definition PM (A : Type) : Type := World → flow A * World.

#[global] Instance PM_ret : MRet PM := λ A a w, (Go a, w).
#[global] Instance PM_bind : MBind PM := λ A B f m w,
  match m w with
  | (Go a, w') => f a w'
  | (Continue_, w') => (Continue_, w')
  | (Ret pr, w') => (Ret pr, w')
  | (Exc e, w') => (Exc e, w')
  | (Undef, w') => (Undef, w')
  end.

Definition get_state : PM ReadoutParserState := λ w, (Go (w_state w), w).
Definition get_input : PM (list Z) := λ w, (Go (w_input w), w).
Definition upd_state (f : ReadoutParserState → ReadoutParserState) : PM unit := λ w,
  (Go tt, mkWorld (f (w_state w)) (w_counters w) (w_callbacks w) (w_input w)).
Definition upd_counters (f : ReadoutParserCounters → ReadoutParserCounters) : PM unit := λ w,
  (Go tt, mkWorld (w_state w) (f (w_counters w)) (w_callbacks w) (w_input w)).
Definition invoke (c : CallbackEvent) : PM unit := λ w,
  (Go tt, mkWorld (w_state w) (w_counters w) (w_callbacks w ++ [c]) (w_input w)).
Definition remove_prefix (n : Z) : PM unit := λ w,
  (Go tt, mkWorld (w_state w) (w_counters w) (w_callbacks w) (zdrop n (w_input w))).
Definition continue_ : PM unit := λ w, (Continue_, w).
Definition return_ (pr : ParseResult) : PM unit := λ w, (Ret pr, w).
Definition throw_ {A} (e : exn) : PM A := λ w, (Exc e, w).
(** [operator[]] of a vector: outside of it the behaviour is undefined. *)
Definition at_index {A} (l : list A) (i : Z) : PM A := λ w,
  if i <? 0 then (Undef, w)
  else match l !! Z.to_nat i with Some x => (Go x, w) | None => (Undef, w) end.
Definition lift_outcome {A} (o : outcome A) : PM A := λ w,
  match o with
  | Return a => (Go a, w)
  | Throw e => (Exc e, w)
  | Undefined => (Undef, w)
  end.
Definition when (b : bool) (m : PM unit) : PM unit := if b then m else mret tt.

(** ** Helpers of the parse loop *)

(* mvlc_readout_parser.h:358-364 FrameParseState *)
Definition consumeWord (f : FrameParseState) : outcome FrameParseState :=
  if fps_wordsLeft f =? 0 then Throw end_of_frame
  else Return (mkFPS (fps_header f) (u16 (fps_wordsLeft f - 1))).

Definition undefined {A} : PM A := λ w, (Undef, w).

(** [std::copy] into a vector at an offset from which on it has room. *)
Definition overwrite (buf : list Z) (off : Z) (src : list Z) : list Z :=
  ztake off buf ++ src ++ zdrop (off + zlen src) buf.

Definition sub_wordsLeft (n : Z) (f : FrameParseState) : FrameParseState :=
  mkFPS (fps_header f) (u16 (fps_wordsLeft f - n)).

(** Writing past the end of the work buffer is undefined. *)
(* mvlc_readout_parser.cc:302-321 copy_to_workbuffer *)
Definition copy_to_workbuffer (wordsToCopy : Z) : PM unit :=
  source ← get_input;
  if zlen source <? wordsToCopy then throw_ end_of_buffer
  else
    s ← get_state;
    let dest := ensure_free_space wordsToCopy (workBuffer s) in
    (if zlen (wb_buffer dest) <? wb_used dest + wordsToCopy then undefined
     else upd_state (set_workBuffer
            (mkWB (overwrite (wb_buffer dest) (wb_used dest) (ztake wordsToCopy source))
               (wb_used dest + wordsToCopy))));;
    remove_prefix wordsToCopy;;
    upd_state (λ s, set_curStackFrame (sub_wordsLeft wordsToCopy (curStackFrame s)) s).

(* mvlc_readout_parser.cc:351-354 clear_readout_data_spans *)
Definition clear_readout_data_spans (spans : list ModuleReadoutSpans)
  : list ModuleReadoutSpans := (λ _, empty_spans) <$> spans.

(* mvlc_readout_parser.cc:356-359 is_event_in_progress *)
Definition is_event_in_progress (s : ReadoutParserState) : bool := eventIndex s >=? 0.

(* mvlc_readout_parser.cc:361-369 parser_clear_event_state *)
Definition parser_clear_event_state (s : ReadoutParserState) : ReadoutParserState :=
  set_groupParseState Prefix
    (set_curBlockFrame (new_frame 0)
       (set_curStackFrame (new_frame 0)
          (set_moduleIndex (-1) (set_eventIndex (-1) s)))).

(* mvlc_readout_parser.cc:371-404 parser_begin_event *)
Definition parser_begin_event (s : ReadoutParserState) (frameHeader : Z)
  : ParseResult * ReadoutParserState :=
  let frameInfo := extract_frame_info frameHeader in
  if negb (fi_type frameInfo =? frame_headers.StackFrame) then (NotAStackFrame, s)
  else
    let ei := fi_stack frameInfo - 1 in
    if (ei <? 0) || (ei >=? zlen (readoutStructure s)) then (StackIndexOutOfRange, s)
    else
      (Ok,
       set_curBlockFrame (new_frame 0)
         (set_curStackFrame (new_frame frameHeader)
            (set_groupParseState Prefix
               (set_moduleIndex 0
                  (set_eventIndex ei
                     (set_readoutDataSpans (clear_readout_data_spans (readoutDataSpans s))
                        (set_workBuffer (mkWB (wb_buffer (workBuffer s)) 0) s))))))).

Definition inc_at (l : list Z) (i : nat) : list Z := alter (λ n, u32 (n + 1)) i l.

(* mvlc_readout_parser.cc:413-449 try_handle_system_event *)
Definition try_handle_system_event : PM bool :=
  input ← get_input;
  match input with
  | [] => mret false
  | frameHeader :: _ =>
      if get_frame_type frameHeader =? frame_headers.SystemEvent then
        let frameInfo := extract_frame_info frameHeader in
        if zlen input <=? fi_len frameInfo then throw_ end_of_buffer
        else
          let subtype := system_event.extract_subtype frameHeader in
          upd_counters (λ c, set_systemEvents (inc_at (systemEvents c) (Z.to_nat subtype)) c);;
          invoke (SystemEvent (fi_ctrl frameInfo) (ztake (fi_len frameInfo + 1) input));;
          remove_prefix (fi_len frameInfo + 1);;
          mret true
      else mret false
  end.

(* mvlc_readout_parser.cc:462-466 find_stack_frame_header *)
Definition is_accepted_frame_type (frameType : Z) : bool :=
  (frameType =? frame_headers.StackFrame) || (frameType =? frame_headers.StackContinuation).

(** The search moves the view; [true] stands for a pointer to its first word,
    [false] for [nullptr].  Every round removes at least one word. *)
(* mvlc_readout_parser.cc:459-502 find_stack_frame_header *)
Fixpoint find_stack_frame_header (fuel : nat) (input : list Z) (wantedFrameType : Z)
  : bool * list Z :=
  match fuel, input with
  | S fuel', header :: _ =>
      let frameInfo := extract_frame_info header in
      if fi_type frameInfo =? wantedFrameType then (true, input)
      else if negb (is_accepted_frame_type (fi_type frameInfo)) then (false, input)
      else if zlen input <=? fi_len frameInfo then (false, input)
      else find_stack_frame_header fuel' (zdrop (fi_len frameInfo + 1) input) wantedFrameType
  | _, _ => (false, input)
  end.

Definition set_input (l : list Z) : PM unit := λ w,
  (Go tt, mkWorld (w_state w) (w_counters w) (w_callbacks w) l).

Definition add_unusedBytes (n : Z) (c : ReadoutParserCounters) : ReadoutParserCounters :=
  set_unusedBytes (u64 (unusedBytes c + n)) c.

(** ** The body of the parse loop *)

(** The next frame of an event in progress. *)
(* mvlc_readout_parser.cc:557-613 parse_readout_contents *)
Definition next_continuation_frame : PM unit :=
  s ← get_state;
  input ← get_input;
  match input with
  | [] => throw_ end_of_buffer
  | header :: _ =>
      let frameInfo := extract_frame_info header in
      if negb (fi_type frameInfo =? frame_headers.StackContinuation)
      then return_ NotAStackContinuation
      else if negb (fi_stack frameInfo - 1 =? eventIndex s) then return_ StackIndexChanged
      else
        upd_state (set_curStackFrame (new_frame header));;
        remove_prefix 1;;
        when (fps_wordsLeft (new_frame header) =? 0)
          (upd_counters (λ c, set_emptyStackFrames (u32 (emptyStackFrames c + 1)) c);;
           upd_state (set_curBlockFrame (new_frame 0)))
  end.

(** The first frame of a new event. *)
(* mvlc_readout_parser.cc:614-661 parse_readout_contents *)
Definition next_event_frame : PM unit :=
  input ← get_input;
  let '(found, input') :=
    find_stack_frame_header (length input) input frame_headers.StackFrame in
  set_input input';;
  if negb found then return_ NoStackFrameFound
  else
    upd_counters (add_unusedBytes ((zlen input - zlen input') * 4));;
    match input' with
    | [] => return_ NoStackFrameFound
    | header :: _ =>
        s ← get_state;
        let '(pr, s') := parser_begin_event s header in
        upd_state (λ _, s');;
        if bool_decide (pr = Ok) then remove_prefix 1 else return_ pr
    end.

(* mvlc_readout_parser.cc:535-661 parse_readout_contents *)
Definition find_stack_frame (is_eth : bool) : PM unit :=
  s ← get_state;
  when (negb (fps_bool (curStackFrame s)))
    (if fps_bool (curBlockFrame s) then return_ UnexpectedOpenBlockFrame
     else
       handled ← (if negb is_eth then try_handle_system_event else mret false);
       if handled : bool then continue_
       else if is_event_in_progress s then next_continuation_frame
       else next_event_frame).

(** Accesses to the elements [0 .. n - 1] of [moduleDataBuffer]. *)
Definition check_index_below (n : nat) : PM unit :=
  s ← get_state;
  lift_outcome (if (length (moduleDataBuffer s) <? n)%nat then Undefined else Return tt).

(** A stack frame of length 0: all module data is cleared and handed out. *)
(* mvlc_readout_parser.cc:669-700 parse_readout_contents *)
Definition handle_empty_stack_frame (moduleCount : nat) : PM unit :=
  upd_counters (λ c, set_emptyStackFrames (u32 (emptyStackFrames c + 1)) c);;
  check_index_below moduleCount;;
  upd_state (λ s, set_moduleDataBuffer
    (replicate moduleCount empty_module_data ++ drop moduleCount (moduleDataBuffer s)) s);;
  s ← get_state;
  invoke (EventData (fi_ctrl (fps_info (curStackFrame s))) (eventIndex s)
            (take moduleCount (moduleDataBuffer s)));;
  upd_state parser_clear_event_state;;
  continue_.

(* mvlc_readout_parser.cc:706-722 parse_readout_contents *)
Definition handle_event_without_modules : PM unit :=
  s ← get_state;
  upd_state parser_clear_event_state;;
  if negb (fi_len (fps_info (curStackFrame s)) =? 0)
  then return_ UnexpectedNonEmptyStackFrame
  else return_ Ok.

(** The reference [moduleSpans] into [readoutDataSpans]. *)
Definition upd_spans (mi : Z) (f : ModuleReadoutSpans → ModuleReadoutSpans) : PM unit :=
  upd_state (λ s, set_readoutDataSpans (alter f (Z.to_nat mi) (readoutDataSpans s)) s).

Definition set_prefixSpan (sp : Span) (m : ModuleReadoutSpans) : ModuleReadoutSpans :=
  mkSpans sp (dynamicSpan m) (suffixSpan m).
Definition set_dynamicSpan (sp : Span) (m : ModuleReadoutSpans) : ModuleReadoutSpans :=
  mkSpans (prefixSpan m) sp (suffixSpan m).
Definition set_suffixSpan (sp : Span) (m : ModuleReadoutSpans) : ModuleReadoutSpans :=
  mkSpans (prefixSpan m) (dynamicSpan m) sp.

(** Record the offset of the first word of a span. *)
(* mvlc_readout_parser.cc:757-759 parse_readout_contents *)
Definition start_span (used : Z) (sp : Span) : Span :=
  if sp_size sp =? 0 then mkSpan (u32 used) (sp_size sp) else sp.
(* mvlc_readout_parser.cc:769-769 parse_readout_contents *)
Definition grow_span (n : Z) (sp : Span) : Span := mkSpan (sp_offset sp) (u32 (sp_size sp + n)).

(** Done with the current module. *)
(* mvlc_readout_parser.cc:790-796 parse_readout_contents *)
Definition next_module : PM unit :=
  upd_state (λ s, set_groupParseState Prefix (set_moduleIndex (moduleIndex s + 1) s)).

(** [std::min({wordsLeftInSpan, curStackFrame.wordsLeft, input.size()})] *)
(* mvlc_readout_parser.cc:761-766 parse_readout_contents *)
Definition fixed_words_to_copy (len : Z) (sp : Span) (frame : FrameParseState) (input : list Z) : Z :=
  Z.min (Z.min (u32 (len - sp_size sp)) (fps_wordsLeft frame)) (u32 (zlen input)).

(* mvlc_readout_parser.cc:752-796 parse_readout_contents *)
Definition parse_prefix (moduleParts : ModuleReadoutStructure) (mi : Z) : PM unit :=
  s ← get_state;
  moduleSpans ← at_index (readoutDataSpans s) mi;
  when (sp_size (prefixSpan moduleSpans) <? prefixLen moduleParts)
    (let sp := start_span (wb_used (workBuffer s)) (prefixSpan moduleSpans) in
     input ← get_input;
     let wordsToCopy := fixed_words_to_copy (prefixLen moduleParts) sp (curStackFrame s) input in
     upd_spans mi (set_prefixSpan sp);;
     copy_to_workbuffer wordsToCopy;;
     upd_spans mi (set_prefixSpan (grow_span wordsToCopy sp)));;
  s' ← get_state;
  moduleSpans' ← at_index (readoutDataSpans s') mi;
  when (sp_size (prefixSpan moduleSpans') =? prefixLen moduleParts)
    (if hasDynamic moduleParts then upd_state (set_groupParseState Dynamic);; continue_
     else if negb (suffixLen moduleParts =? 0)
     then upd_state (set_groupParseState Suffix);; continue_
     else next_module).

(** Reads the header of the next block frame if none is open. *)
(* mvlc_readout_parser.cc:799-844 parse_readout_contents *)
Definition open_block_frame : PM unit :=
  s ← get_state;
  when ((fps_wordsLeft (curStackFrame s) >? 0) && negb (fps_bool (curBlockFrame s)))
    (input ← get_input;
     match input with
     | [] => return_ Ok
     | header :: _ =>
         upd_state (set_curBlockFrame (new_frame header));;
         if negb (fi_type (extract_frame_info header) =? frame_headers.BlockRead) then
           upd_state (set_curBlockFrame (new_frame 0));;
           upd_state parser_clear_event_state;;
           return_ NotABlockFrame
         else
           remove_prefix 1;;
           f ← lift_outcome (consumeWord (curStackFrame s));
           upd_state (set_curStackFrame f)
     end).

(** Two trailing 0xffffffff words of a 2eSST transfer are cut off.  The span lies
    inside of the work buffer, see [spans_ok] in ParserSafety. *)
(* mvlc_readout_parser.cc:865-881 parse_readout_contents *)
Definition trim_2eSST (buffer : list Z) (sp : Span) : Span :=
  let dyn := ztake (sp_size sp) (zdrop (sp_offset sp) buffer) in
  if (sp_size sp >=? 2) && (sp_size sp mod 4 =? 0) then
    match rev dyn with
    | a :: b :: _ =>
        if (a =? 0xffffffff) && (b =? 0xffffffff)
        then mkSpan (sp_offset sp) (u32 (sp_size sp - 2)) else sp
    | _ => sp
    end
  else sp.

(* mvlc_readout_parser.cc:797-894 parse_readout_contents *)
Definition parse_dynamic (moduleParts : ModuleReadoutStructure) (mi : Z) : PM unit :=
  open_block_frame;;
  s ← get_state;
  moduleSpans ← at_index (readoutDataSpans s) mi;
  let sp := start_span (wb_used (workBuffer s)) (dynamicSpan moduleSpans) in
  input ← get_input;
  let wordsToCopy := Z.min (fps_wordsLeft (curBlockFrame s)) (u32 (zlen input)) in
  upd_spans mi (set_dynamicSpan sp);;
  copy_to_workbuffer wordsToCopy;;
  upd_spans mi (set_dynamicSpan (grow_span wordsToCopy sp));;
  upd_state (λ s, set_curBlockFrame (sub_wordsLeft wordsToCopy (curBlockFrame s)) s);;
  s' ← get_state;
  when ((fps_wordsLeft (curBlockFrame s') =? 0)
        && ((fi_flags (fps_info (curBlockFrame s')) .& frame_flags.Continue) =? 0))
    (when (isMesytecAndUsing2eSST moduleParts)
       (upd_spans mi (λ m, set_dynamicSpan
          (trim_2eSST (wb_buffer (workBuffer s')) (dynamicSpan m)) m));;
     if suffixLen moduleParts =? 0 then next_module
     else upd_state (set_groupParseState Suffix);; continue_).

(* mvlc_readout_parser.cc:895-920 parse_readout_contents *)
Definition parse_suffix (moduleParts : ModuleReadoutStructure) (mi : Z) : PM unit :=
  s ← get_state;
  moduleSpans ← at_index (readoutDataSpans s) mi;
  when (sp_size (suffixSpan moduleSpans) <? suffixLen moduleParts)
    (let sp := start_span (wb_used (workBuffer s)) (suffixSpan moduleSpans) in
     input ← get_input;
     let wordsToCopy := fixed_words_to_copy (suffixLen moduleParts) sp (curStackFrame s) input in
     upd_spans mi (set_suffixSpan sp);;
     copy_to_workbuffer wordsToCopy;;
     upd_spans mi (set_suffixSpan (grow_span wordsToCopy sp)));;
  s' ← get_state;
  moduleSpans' ← at_index (readoutDataSpans s') mi;
  when (sp_size (suffixSpan moduleSpans') >=? suffixLen moduleParts) next_module.

(* mvlc_readout_parser.cc:724-921 parse_readout_contents *)
Definition parse_module (moduleReadoutInfos : list ModuleReadoutStructure) : PM unit :=
  s ← get_state;
  if (moduleIndex s <? 0) || (moduleIndex s >=? zlen moduleReadoutInfos)
  then return_ GroupIndexOutOfRange
  else
    moduleParts ← at_index moduleReadoutInfos (moduleIndex s);
    if mrs_is_empty moduleParts
    then upd_state (λ s, set_moduleIndex (moduleIndex s + 1) s)
    else
      match groupParseState s with
      | Prefix => parse_prefix moduleParts (moduleIndex s)
      | Dynamic => parse_dynamic moduleParts (moduleIndex s)
      | Suffix => parse_suffix moduleParts (moduleIndex s)
      end.

(** The first module from index [mi] on that produces data. *)
(* mvlc_readout_parser.cc:923-929 parse_readout_contents *)
Fixpoint skip_empty_modules (mods : list ModuleReadoutStructure) (mi : Z) : Z :=
  match mods with
  | m :: rest => if mrs_is_empty m then skip_empty_modules rest (mi + 1) else mi
  | [] => mi
  end.

(* mvlc_readout_parser.cc:931-936 parse_readout_contents *)
Definition update_part_size_info (size : Z) (i : PartSizeInfo) : PartSizeInfo :=
  mkPSI (Z.min (psi_min i) size) (Z.max (psi_max i) size) (u64 (psi_sum i + size)).

(** The pointer-based view of the spans of a module. *)
(* mvlc_readout_parser.cc:947-977 parse_readout_contents *)
Definition make_module_data (buffer : list Z) (spans : ModuleReadoutSpans) (dyn : bool)
  : ModuleData :=
  let startOffset :=
    if negb (sp_size (prefixSpan spans) =? 0) then sp_offset (prefixSpan spans)
    else if negb (sp_size (dynamicSpan spans) =? 0) then sp_offset (dynamicSpan spans)
    else if negb (sp_size (suffixSpan spans) =? 0) then sp_offset (suffixSpan spans)
    else 0 in
  let dataSize := u32 (u32 (sp_size (prefixSpan spans) + sp_size (dynamicSpan spans))
                       + sp_size (suffixSpan spans)) in
  {| md_data := ztake dataSize (zdrop startOffset buffer);
     md_size := dataSize;
     md_prefixSize := sp_size (prefixSpan spans);
     md_dynamicSize := sp_size (dynamicSpan spans);
     md_suffixSize := sp_size (suffixSpan spans);
     md_hasDynamic := dyn |}.

(* mvlc_readout_parser.cc:978-987 parse_readout_contents *)
Definition count_module_data (ei mi : Z) (md : ModuleData) (c : ReadoutParserCounters)
  : ReadoutParserCounters :=
  if md_size md =? 0 then c
  else
    let partIndex := (ei, mi) in
    let c' := set_groupHits
      (<[partIndex := u64 (default 0 (groupHits c !! partIndex) + 1)]> (groupHits c)) c in
    set_groupSizes
      (<[partIndex := update_part_size_info (md_size md)
           (default default_PartSizeInfo (groupSizes c' !! partIndex))]> (groupSizes c')) c'.

(** The module data of modules [mi], [mi + 1], ... *)
(* mvlc_readout_parser.cc:947-987 parse_readout_contents *)
Fixpoint flush_modules (mods : list ModuleReadoutStructure) (mi : Z) : PM unit :=
  match mods with
  | [] => mret tt
  | m :: rest =>
      s ← get_state;
      moduleSpans ← at_index (readoutDataSpans s) mi;
      old ← at_index (moduleDataBuffer s) mi;
      let md := make_module_data (wb_buffer (workBuffer s)) moduleSpans (hasDynamic m) in
      upd_state (λ s, set_moduleDataBuffer (<[Z.to_nat mi := md]> (moduleDataBuffer s)) s);;
      upd_counters (count_module_data (eventIndex s) mi md);;
      flush_modules rest (mi + 1)
  end.

(* mvlc_readout_parser.cc:938-1006 parse_readout_contents *)
Definition flush_event (moduleReadoutInfos : list ModuleReadoutStructure) : PM unit :=
  flush_modules moduleReadoutInfos 0;;
  s ← get_state;
  invoke (EventData (fi_ctrl (fps_info (curStackFrame s))) (eventIndex s)
            (take (length moduleReadoutInfos) (moduleDataBuffer s)));;
  upd_counters (λ c, set_eventHits
    (<[eventIndex s := u64 (default 0 (eventHits c !! eventIndex s) + 1)]> (eventHits c)) c);;
  upd_state parser_clear_event_state.

(** One round of the [while] loop; [Go] and [Continue_] both start the next one. *)
(* mvlc_readout_parser.cc:529-1011 parse_readout_contents *)
Definition parse_iteration (is_eth : bool) : PM unit :=
  lastInput ← get_input;
  find_stack_frame is_eth;;
  s ← get_state;
  moduleReadoutInfos ← at_index (readoutStructure s) (eventIndex s);
  (if get_frame_length (fps_header (curStackFrame s)) =? 0
   then handle_empty_stack_frame (length moduleReadoutInfos)
   else if bool_decide (moduleReadoutInfos = []) then handle_event_without_modules
   else
     parse_module moduleReadoutInfos;;
     upd_state (λ s, set_moduleIndex
       (skip_empty_modules (zdrop (moduleIndex s) moduleReadoutInfos) (moduleIndex s)) s);;
     s' ← get_state;
     when (moduleIndex s' >=? zlen moduleReadoutInfos) (flush_event moduleReadoutInfos);;
     input ← get_input;
     when (zlen input =? zlen lastInput) (return_ ParseReadoutContentsNotAdvancing)).

(** The loop.  [None] means that the fuel is used up. *)
(* mvlc_readout_parser.cc:528-1013 parse_readout_contents *)
Fixpoint contents_loop (fuel : nat) (is_eth : bool) (w : World)
  : option (outcome ParseResult * World) :=
  match fuel with
  | O => None
  | S fuel' =>
      match w_input w with
      | [] => Some (Return Ok, w)
      | _ :: _ =>
          match parse_iteration is_eth w with
          | (Go _, w') | (Continue_, w') => contents_loop fuel' is_eth w'
          | (Ret pr, w') => Some (Return pr, w')
          | (Exc e, w') => Some (Throw e, w')
          | (Undef, w') => Some (Undefined, w')
          end
      end
  end.

(** A round that does not consume a word leaves the [Prefix] state, so two rounds
    per word and two more are enough (see [contents_loop_terminates]). *)
(* mvlc_readout_parser.cc:514-1021 parse_readout_contents *)
Definition parse_readout_contents (is_eth : bool) (w : World)
  : option (outcome ParseResult * World) :=
  contents_loop (2 * length (w_input w) + 2) is_eth w.

(** ** Buffers *)

Definition map_state (f : ReadoutParserState → ReadoutParserState) (w : World) : World :=
  mkWorld (f (w_state w)) (w_counters w) (w_callbacks w) (w_input w).
Definition map_counters (f : ReadoutParserCounters → ReadoutParserCounters) (w : World) : World :=
  mkWorld (w_state w) (f (w_counters w)) (w_callbacks w) (w_input w).
Definition with_input (l : list Z) (w : World) : World :=
  mkWorld (w_state w) (w_counters w) (w_callbacks w) l.

(* mvlc_readout_parser.cc:1023-1026 count_parse_result *)
Definition count_parse_result (pr : ParseResult) (c : ReadoutParserCounters)
  : ReadoutParserCounters :=
  set_parseResults (inc_at (parseResults c) (ParseResult_index pr)) c.

(* mvlc_readout_parser.h:497-507 calc_buffer_loss *)
Definition calc_buffer_loss (bufferNumber lastBufferNumber : Z) : Z :=
  let diff := u32 (bufferNumber - lastBufferNumber) in
  if diff <? 1 then (2 ^ 32 - 1) + diff else diff - 1.

(** The loop over the contents of one packet. *)
(* mvlc_readout_parser.cc:1081-1100 parse_eth_packet *)
Fixpoint packet_loop (fuel : nat) (w : World) : option (outcome ParseResult * World) :=
  match fuel with
  | O => None
  | S fuel' =>
      match w_input w with
      | [] => Some (Return Ok, w)
      | _ :: _ =>
          match parse_readout_contents true w with
          | Some (Return pr, w') =>
              if negb (bool_decide (pr = Ok)) then Some (Return pr, w')
              else if zlen (w_input w') =? zlen (w_input w)
              then Some (Return ParseEthPacketNotAdvancing, w')
              else packet_loop fuel' w'
          | r => r
          end
      end
  end.

(** The packet is the input of the world. *)
(* mvlc_readout_parser.cc:1031-1117 parse_eth_packet *)
Definition parse_eth_packet (w : World) : option (outcome ParseResult * World) :=
  match w_input w with
  | h0 :: h1 :: contents =>
      let ethHdrs := mkPayloadHeaderInfo h0 h1 in
      if is_event_in_progress (w_state w)
      then packet_loop (S (length contents)) (with_input contents w)
      else if negb (isNextHeaderPointerPresent ethHdrs)
      then Some (Return NoHeaderPresent, with_input contents w)
      else if zlen contents <? nextHeaderPointer ethHdrs
      then Some (Throw end_of_buffer, with_input contents w)
      else
        packet_loop (S (length contents))
          (map_counters (add_unusedBytes (nextHeaderPointer ethHdrs * 4))
             (with_input (zdrop (nextHeaderPointer ethHdrs) contents) w))
  | _ => Some (Throw end_of_buffer, w)
  end.

(** The [catch] blocks of the buffer functions: the event in progress is dropped,
    the rest of the input is counted, the exception is thrown again. *)
(* mvlc_readout_parser.cc:1399-1418 parse_readout_buffer_eth *)
Definition catch_buffer_exception (w : World) : World :=
  map_counters (λ c, set_parserExceptions (u32 (parserExceptions c + 1)) c)
    (map_counters (add_unusedBytes (zlen (w_input w) * 4))
       (map_state parser_clear_event_state w)).

(** The handling of the result of one packet of [packetWords] words at the start
    of [input]: the outer result and the world after the packet.  A packet has at least its
    two header words, so that the check for a round that does not advance, at the end of the
    loop, never holds. *)
(* mvlc_readout_parser.cc:1277-1398 parse_readout_buffer_eth *)
Definition finish_packet (r : outcome ParseResult) (input : list Z) (packetWords : Z)
    (result : ParseResult) (w : World) : ParseResult * World :=
  let w1 := match r with
            | Return pr => map_counters (count_parse_result pr) w
            | _ => w
            end in
  let count_packet c := set_ethPacketsProcessed (u32 (ethPacketsProcessed c + 1)) c in
  match r with
  | Return Ok =>
      (result, with_input (zdrop packetWords input) (map_counters count_packet w1))
  | _ =>
      let w2 := map_counters (add_unusedBytes (packetWords * 4))
                  (map_counters count_packet (map_state parser_clear_event_state w1)) in
      let w3 := match r with
                | Return _ => w2
                | _ => map_counters (λ c, set_parserExceptions (u32 (parserExceptions c + 1)) c) w2
                end in
      (if bool_decide (result = Ok)
       then match r with Return pr => pr | _ => UnhandledException end
       else result,
       with_input (zdrop packetWords input) w3)
  end.

(* mvlc_readout_parser.cc:1259-1275 parse_readout_buffer_eth *)
Definition check_packet_loss (packetNumber : Z) (w : World) : World :=
  let s := w_state w in
  let loss := calc_packet_loss (u16 (lastPacketNumber s)) packetNumber in
  let w1 :=
    if (lastPacketNumber s >=? 0) && negb (loss =? 0) then
      map_counters (λ c, set_ethPacketLoss (u32 (ethPacketLoss c + loss)) c)
        (map_state parser_clear_event_state w)
    else w in
  map_state (set_lastPacketNumber packetNumber) w1.

(** The loop over the system events and packets of an ETH buffer. *)
(* mvlc_readout_parser.cc:1212-1398 parse_readout_buffer_eth *)
Fixpoint eth_loop (fuel : nat) (result : ParseResult) (w : World)
  : option (outcome ParseResult * World) :=
  match fuel with
  | O => None
  | S fuel' =>
      match w_input w with
      | [] => Some (Return result, w)
      | _ :: _ =>
          match try_handle_system_event w with
          | (Go true, w1) => eth_loop fuel' result w1
          | (Go false, w1) =>
              match w_input w1 with
              | h0 :: h1 :: _ =>
                  let ethHdrs := mkPayloadHeaderInfo h0 h1 in
                  let packetWords := eth.HeaderWords + dataWordCount ethHdrs in
                  if zlen (w_input w1) <? packetWords then Some (Throw end_of_buffer, w1)
                  else
                    let input := w_input w1 in
                    let w2 := check_packet_loss (packetNumber ethHdrs) w1 in
                    match parse_eth_packet (with_input (ztake packetWords input) w2) with
                    | None => None
                    | Some (Undefined, w3) => Some (Undefined, w3)
                    | Some (r, w3) =>
                        let '(result', w4) := finish_packet r input packetWords result w3 in
                        eth_loop fuel' result' w4
                    end
              | _ => Some (Throw end_of_buffer, w1)
              end
          | (Exc e, w1) => Some (Throw e, w1)
          | (_, w1) => Some (Undefined, w1)
          end
      end
  end.

(* mvlc_readout_parser.cc:1196-1210 parse_readout_buffer_eth *)
Definition check_buffer_loss (clearPacketNumber : bool) (bufferNumber : Z) (w : World) : World :=
  let bufferLoss := calc_buffer_loss bufferNumber (lastBufferNumber (w_state w)) in
  let w1 := map_state (set_lastBufferNumber bufferNumber) w in
  if negb (bufferLoss =? 0) then
    map_state (λ s, if clearPacketNumber then set_lastPacketNumber (-1) s else s)
      (map_counters (λ c, set_internalBufferLoss (u32 (internalBufferLoss c + bufferLoss)) c)
         (map_state parser_clear_event_state w1))
  else w1.

(* mvlc_readout_parser.cc:1421-1424 parse_readout_buffer_eth *)
Definition count_buffer (bufferWords : Z) (w : World) : World :=
  map_counters (λ c,
    set_bytesProcessed (u64 (bytesProcessed c + bufferWords * 4))
      (add_unusedBytes (zlen (w_input w) * 4)
         (set_buffersProcessed (u32 (buffersProcessed c + 1)) c))) w.

(* mvlc_readout_parser.cc:1183-1430 parse_readout_buffer_eth *)
Definition parse_readout_buffer_eth (bufferNumber : Z) (buffer : list Z) (w : World)
  : option (outcome ParseResult * World) :=
  let w1 := with_input buffer (check_buffer_loss true bufferNumber w) in
  match eth_loop (S (length buffer)) Ok w1 with
  | Some (Return result, w2) => Some (Return result, count_buffer (zlen buffer) w2)
  | Some (Throw e, w2) => Some (Throw e, catch_buffer_exception w2)
  | r => r
  end.

(* mvlc_readout_parser.cc:1456-1470 parse_readout_buffer_usb *)
Fixpoint usb_loop (fuel : nat) (w : World) : option (outcome ParseResult * World) :=
  match fuel with
  | O => None
  | S fuel' =>
      match w_input w with
      | [] => Some (Return Ok, w)
      | _ :: _ =>
          match parse_readout_contents false w with
          | Some (Return pr, w1) =>
              let w2 := map_counters (count_parse_result pr) w1 in
              if negb (bool_decide (pr = Ok)) then
                Some (Return pr, map_counters (add_unusedBytes (zlen (w_input w2) * 4))
                                   (map_state parser_clear_event_state w2))
              else usb_loop fuel' w2
          | r => r
          end
      end
  end.

(* mvlc_readout_parser.cc:1432-1499 parse_readout_buffer_usb *)
Definition parse_readout_buffer_usb (bufferNumber : Z) (buffer : list Z) (w : World)
  : option (outcome ParseResult * World) :=
  let w1 := with_input buffer (check_buffer_loss false bufferNumber w) in
  match usb_loop (S (length buffer)) w1 with
  | Some (Return pr, w2) =>
      if bool_decide (pr = Ok) then Some (Return Ok, count_buffer (zlen buffer) w2)
      else Some (Return pr, w2)
  | Some (Throw e, w2) => Some (Throw e, catch_buffer_exception w2)
  | r => r
  end.

(* mvlc_readout_parser.cc:1135-1181 parse_readout_buffer *)
Definition parse_readout_buffer_typed (bufferType : ConnectionType) (bufferNumber : Z)
    (buffer : list Z) (w : World) : option (outcome ParseResult * World) :=
  match (match bufferType with
         | ETH => parse_readout_buffer_eth bufferNumber buffer w
         | USB => parse_readout_buffer_usb bufferNumber buffer w
         end) with
  | Some (Throw end_of_buffer, w') => Some (Return UnexpectedEndOfBuffer, w')
  | Some (Throw _, w') => Some (Return UnhandledException, w')
  | r => r
  end.

(* mvlc_readout_parser.cc:1119-1133 parse_readout_buffer *)
Definition parse_readout_buffer (bufferNumber : Z) (buffer : list Z) (w : World)
  : option (outcome ParseResult * World) :=
  match detect_buffer_type buffer with
  | None => Some (Return UnknownBufferType, w)
  | Some bufferType => parse_readout_buffer_typed bufferType bufferNumber buffer w
  end.

Definition initial_world (s : ReadoutParserState) : World := mkWorld s new_counters [] [].
