(* ===== verification/ParserSteps.v ===== *)
(** * Equations of the parse loop

    What one part of the loop body does to the world, as equations between
    computations and explicit worlds.  The safety proofs (ParserSafety) and the
    round trip (RoundTrip) both rewrite with these. *)

From S2P Require Import Prelude Constants Frames FramesFacts Commands ReadoutParser.

(** ** The monad *)

Lemma bind_Go {A B} (m : PM A) (f : A → PM B) w a w' :
  m w = (Go a, w') → (m ≫= f) w = f a w'.
Proof. intros H. unfold mbind, PM_bind. by rewrite H. Qed.

Lemma bind_get_state {B} (f : ReadoutParserState → PM B) w :
  (get_state ≫= f) w = f (w_state w) w.
Proof. done. Qed.

Lemma bind_get_input {B} (f : list Z → PM B) w : (get_input ≫= f) w = f (w_input w) w.
Proof. done. Qed.

Lemma bind_upd_state {B} g (f : unit → PM B) w :
  (upd_state g ≫= f) w = f tt (map_state g w).
Proof. done. Qed.

Lemma bind_upd_counters {B} g (f : unit → PM B) w :
  (upd_counters g ≫= f) w = f tt (map_counters g w).
Proof. done. Qed.

Lemma bind_remove_prefix {B} n (f : unit → PM B) w :
  (remove_prefix n ≫= f) w = f tt (with_input (zdrop n (w_input w)) w).
Proof. done. Qed.

Lemma bind_set_input {B} l (f : unit → PM B) w :
  (set_input l ≫= f) w = f tt (with_input l w).
Proof. done. Qed.

Lemma bind_mret {A B} (a : A) (f : A → PM B) w : (mret a ≫= f) w = f a w.
Proof. done. Qed.

Lemma at_index_Some {A} (l : list A) i x w :
  0 ≤ i → l !! Z.to_nat i = Some x → at_index l i w = (Go x, w).
Proof.
  intros Hi Hl. unfold at_index. destruct (Z.ltb_spec i 0); [lia|]. by rewrite Hl.
Qed.

Lemma bind_at_index {A B} (l : list A) i x (f : A → PM B) w :
  0 ≤ i → l !! Z.to_nat i = Some x → (at_index l i ≫= f) w = f x w.
Proof. intros. by apply bind_Go, at_index_Some. Qed.

Lemma when_true m w : when true m w = m w.
Proof. done. Qed.

Lemma when_false m w : when false m w = (Go tt, w).
Proof. done. Qed.

Create Rewrite HintDb mvlc_pm.
#[export] Hint Rewrite @bind_get_state @bind_get_input @bind_upd_state @bind_upd_counters
  @bind_remove_prefix @bind_set_input @bind_mret when_true when_false : mvlc_pm.

Ltac pm_step := autorewrite with mvlc_pm.

(** ** Copying words *)

Definition copied_state (ws : list Z) (s : ReadoutParserState) : ReadoutParserState :=
  let dest := ensure_free_space (zlen ws) (workBuffer s) in
  set_curStackFrame (sub_wordsLeft (zlen ws) (curStackFrame s))
    (set_workBuffer
       (mkWB (overwrite (wb_buffer dest) (wb_used dest) ws) (wb_used dest + zlen ws)) s).

Definition copied (n : Z) (w : World) : World :=
  mkWorld (copied_state (ztake n (w_input w)) (w_state w)) (w_counters w) (w_callbacks w)
    (zdrop n (w_input w)).

Lemma ensure_free_space_used n b : wb_used (ensure_free_space n b) = wb_used b.
Proof. unfold ensure_free_space. by destruct (_ <? _). Qed.

Lemma ensure_free_space_size n b :
  0 ≤ n → 0 ≤ wb_used b ≤ zlen (wb_buffer b) →
  wb_used b + n ≤ zlen (wb_buffer (ensure_free_space n b)).
Proof.
  intros Hn Hu. unfold ensure_free_space, wb_free.
  destruct (Z.ltb_spec (zlen (wb_buffer b) - wb_used b) n); cbn [wb_buffer]; [|lia].
  rewrite zlen_app, zlen_replicate. lia.
Qed.

Lemma copy_to_workbuffer_eq n w :
  0 ≤ n ≤ zlen (w_input w) →
  0 ≤ wb_used (workBuffer (w_state w)) ≤ zlen (wb_buffer (workBuffer (w_state w))) →
  copy_to_workbuffer n w = (Go tt, copied n w).
Proof.
  intros Hn Hu. unfold copy_to_workbuffer. rewrite bind_get_input.
  destruct (Z.ltb_spec (zlen (w_input w)) n); [lia|]. rewrite bind_get_state. cbv zeta.
  pose proof (ensure_free_space_size n (workBuffer (w_state w)) (proj1 Hn) Hu).
  pose proof (ensure_free_space_used n (workBuffer (w_state w))).
  destruct (Z.ltb_spec (zlen (wb_buffer (ensure_free_space n (workBuffer (w_state w)))))
    (wb_used (ensure_free_space n (workBuffer (w_state w))) + n)); [lia|].
  pm_step. unfold upd_state, copied, copied_state, map_state, with_input.
  rewrite zlen_ztake by done. done.
Qed.

Definition map_spans (mi : Z) (f : ModuleReadoutSpans → ModuleReadoutSpans) (w : World) : World :=
  map_state (λ s, set_readoutDataSpans (alter f (Z.to_nat mi) (readoutDataSpans s)) s) w.

Lemma copied_map_spans n mi f w : copied n (map_spans mi f w) = map_spans mi f (copied n w).
Proof. done. Qed.

Lemma map_spans_compose mi f g w :
  map_spans mi f (map_spans mi g w) = map_spans mi (f ∘ g) w.
Proof.
  unfold map_spans, map_state. cbn. f_equal. unfold set_readoutDataSpans. cbn. f_equal.
  by rewrite list_alter_alter_eq.
Qed.

Lemma map_spans_ext mi f g w :
  (∀ m, readoutDataSpans (w_state w) !! Z.to_nat mi = Some m → f m = g m) →
  map_spans mi f w = map_spans mi g w.
Proof.
  intros H. unfold map_spans, map_state. cbn. f_equal. unfold set_readoutDataSpans.
  f_equal. apply list_alter_ext; [|done]. intros m Hm. by apply H.
Qed.

Lemma map_spans_lookup mi f w m :
  readoutDataSpans (w_state w) !! Z.to_nat mi = Some m →
  readoutDataSpans (w_state (map_spans mi f w)) !! Z.to_nat mi = Some (f m).
Proof. intros H. cbn. by rewrite list_lookup_alter_eq, H. Qed.

(** ** Fixed parts *)

Definition next_module_world (w : World) : World :=
  map_state (λ s, set_groupParseState Prefix (set_moduleIndex (moduleIndex s + 1) s)) w.

Definition enter_part (g : GroupParseState) (w : World) : World :=
  map_state (set_groupParseState g) w.

(** What follows a complete prefix. *)
Definition after_prefix (parts : ModuleReadoutStructure) (w : World) : flow unit * World :=
  if hasDynamic parts then (Continue_, enter_part Dynamic w)
  else if negb (suffixLen parts =? 0) then (Continue_, enter_part Suffix w)
  else (Go tt, next_module_world w).

(** The span of a part after [n] more words, the first of them at [used]. *)
Definition extend_span (used n : Z) (sp : Span) : Span :=
  mkSpan (if sp_size sp =? 0 then used else sp_offset sp) (sp_size sp + n).

Lemma grow_start_span used n sp :
  0 ≤ used < 2 ^ 32 → 0 ≤ sp_size sp → 0 ≤ n → sp_size sp + n < 2 ^ 32 →
  grow_span n (start_span used sp) = extend_span used n sp.
Proof.
  intros. unfold grow_span, start_span, extend_span, u32.
  destruct (Z.eqb_spec (sp_size sp) 0); cbn [sp_offset sp_size];
    rewrite ?(Z.mod_small used), Z.mod_small by lia; done.
Qed.

Lemma start_span_size used sp : sp_size (start_span used sp) = sp_size sp.
Proof. unfold start_span. by destruct (sp_size sp =? 0). Qed.

(** The sizes that keep the 32-bit arithmetic of the spans exact. *)
Record sizes_ok (w : World) : Prop := {
  so_input : zlen (w_input w) < 2 ^ 32;
  so_used : 0 ≤ wb_used (workBuffer (w_state w)) < 2 ^ 32;
  so_room : wb_used (workBuffer (w_state w)) ≤ zlen (wb_buffer (workBuffer (w_state w)));
  so_stack : 0 ≤ fps_wordsLeft (curStackFrame (w_state w)) < 2 ^ 16;
  so_block : 0 ≤ fps_wordsLeft (curBlockFrame (w_state w)) < 2 ^ 16
}.

Definition fixed_count (len size : Z) (w : World) : Z :=
  Z.min (Z.min (len - size) (fps_wordsLeft (curStackFrame (w_state w)))) (zlen (w_input w)).

Lemma fixed_words_eq len sp w :
  sizes_ok w → 0 ≤ sp_size sp ≤ len → len < 256 →
  fixed_words_to_copy len sp (curStackFrame (w_state w)) (w_input w)
    = fixed_count len (sp_size sp) w ∧
  0 ≤ fixed_count len (sp_size sp) w ≤ zlen (w_input w).
Proof.
  intros [Hi Hu _ Hs Hb] Hsz Hl. unfold fixed_words_to_copy, fixed_count, u32.
  pose proof (zlen_nonneg (w_input w)).
  rewrite !Z.mod_small by lia. split; [done|lia].
Qed.

Lemma bind_upd_spans {B} mi g (f : unit → PM B) w :
  (upd_spans mi g ≫= f) w = f tt (map_spans mi g w).
Proof. done. Qed.

(** Copying [n] words into the part of a module that [set] stores. *)
Definition part_taken (set : Span → ModuleReadoutSpans → ModuleReadoutSpans) (sp : Span)
    (n mi : Z) (w : World) : World :=
  map_spans mi (set (extend_span (wb_used (workBuffer (w_state w))) n sp)) (copied n w).

Lemma take_part_eq set sp n mi w :
  (∀ a b m, set a (set b m) = set a m) →
  sizes_ok w → 0 ≤ n ≤ zlen (w_input w) → 0 ≤ sp_size sp → sp_size sp + n < 2 ^ 32 →
  (upd_spans mi (set (start_span (wb_used (workBuffer (w_state w))) sp));;
   copy_to_workbuffer n;;
   upd_spans mi (set (grow_span n (start_span (wb_used (workBuffer (w_state w))) sp)))) w
  = (Go tt, part_taken set sp n mi w).
Proof.
  intros Hset [Hi Hu Hr Hs Hb] Hn Hsz Hsum. rewrite bind_upd_spans.
  rewrite (bind_Go _ _ _ tt _ (copy_to_workbuffer_eq n (map_spans mi _ w) Hn (conj (proj1 Hu) Hr))).
  rewrite copied_map_spans. unfold part_taken.
  change (upd_spans mi ?f ?v) with (@Go unit tt, map_spans mi f v). f_equal.
  rewrite map_spans_compose, grow_start_span by lia.
  apply map_spans_ext. intros m' _. apply Hset.
Qed.

Lemma parse_prefix_eq parts mi m w :
  sizes_ok w → 0 ≤ mi → readoutDataSpans (w_state w) !! Z.to_nat mi = Some m →
  0 ≤ sp_size (prefixSpan m) < prefixLen parts → prefixLen parts < 256 →
  let n := fixed_count (prefixLen parts) (sp_size (prefixSpan m)) w in
  let w' := part_taken set_prefixSpan (prefixSpan m) n mi w in
  parse_prefix parts mi w =
    if sp_size (prefixSpan m) + n =? prefixLen parts then after_prefix parts w' else (Go tt, w').
Proof.
  intros Hok Hmi Hm Hsz Hl n w'. unfold parse_prefix. rewrite bind_get_state.
  rewrite (bind_at_index _ _ m) by done.
  destruct (Z.ltb_spec (sp_size (prefixSpan m)) (prefixLen parts)); [|lia].
  destruct (fixed_words_eq (prefixLen parts)
    (start_span (wb_used (workBuffer (w_state w))) (prefixSpan m)) w) as [Hn Hr];
    [done|rewrite start_span_size; lia|done|].
  rewrite start_span_size in Hn, Hr. fold n in Hn, Hr.
  erewrite bind_Go; [|rewrite when_true, bind_get_input, Hn; cbv zeta;
    apply take_part_eq; [done|done|done|lia|subst n; unfold fixed_count; lia]].
  fold w'. rewrite bind_get_state.
  rewrite (bind_at_index (readoutDataSpans (w_state w')) mi _ _ w' Hmi
    (map_spans_lookup _ _ (copied n w) m Hm)).
  cbn [set_prefixSpan prefixSpan extend_span sp_size].
  destruct (_ =? _); [|done]. unfold after_prefix.
  destruct (hasDynamic parts); [done|]. by destruct (negb _).
Qed.

(** A module without a prefix leaves the prefix state at once. *)
Lemma parse_prefix_none parts mi m w :
  0 ≤ mi → readoutDataSpans (w_state w) !! Z.to_nat mi = Some m →
  sp_size (prefixSpan m) = prefixLen parts →
  parse_prefix parts mi w = after_prefix parts w.
Proof.
  intros Hmi Hm Hsz. unfold parse_prefix. rewrite bind_get_state.
  rewrite (bind_at_index _ _ m) by done. rewrite Hsz, Z.ltb_irrefl.
  rewrite (bind_Go (when false _) _ _ tt w) by done. rewrite bind_get_state.
  rewrite (bind_at_index _ _ m) by done. rewrite Hsz, Z.eqb_refl. unfold after_prefix.
  rewrite when_true. destruct (hasDynamic parts); [done|]. by destruct (negb _).
Qed.

Lemma parse_suffix_eq parts mi m w :
  sizes_ok w → 0 ≤ mi → readoutDataSpans (w_state w) !! Z.to_nat mi = Some m →
  0 ≤ sp_size (suffixSpan m) < suffixLen parts → suffixLen parts < 256 →
  let n := fixed_count (suffixLen parts) (sp_size (suffixSpan m)) w in
  let w' := part_taken set_suffixSpan (suffixSpan m) n mi w in
  parse_suffix parts mi w =
    (Go tt, if sp_size (suffixSpan m) + n =? suffixLen parts then next_module_world w' else w').
Proof.
  intros Hok Hmi Hm Hsz Hl n w'. unfold parse_suffix. rewrite bind_get_state.
  rewrite (bind_at_index _ _ m) by done.
  destruct (Z.ltb_spec (sp_size (suffixSpan m)) (suffixLen parts)); [|lia].
  destruct (fixed_words_eq (suffixLen parts)
    (start_span (wb_used (workBuffer (w_state w))) (suffixSpan m)) w) as [Hn Hr];
    [done|rewrite start_span_size; lia|done|].
  rewrite start_span_size in Hn, Hr. fold n in Hn, Hr.
  assert (n ≤ suffixLen parts - sp_size (suffixSpan m)) by (subst n; unfold fixed_count; lia).
  erewrite bind_Go; [|rewrite when_true, bind_get_input, Hn; cbv zeta;
    apply take_part_eq; [done|done|done|lia|lia]].
  fold w'. rewrite bind_get_state.
  rewrite (bind_at_index (readoutDataSpans (w_state w')) mi _ _ w' Hmi
    (map_spans_lookup _ _ (copied n w) m Hm)).
  cbn [set_suffixSpan suffixSpan extend_span sp_size].
  destruct (Z.geb_spec (sp_size (suffixSpan m) + n) (suffixLen parts)),
    (Z.eqb_spec (sp_size (suffixSpan m) + n) (suffixLen parts)); try lia; done.
Qed.

(** ** The dynamic part *)

(** Reading a block frame header. *)
Definition block_opened (header : Z) (rest : list Z) (w : World) : World :=
  with_input rest
    (map_state (λ s, set_curStackFrame (sub_wordsLeft 1 (curStackFrame s))
                       (set_curBlockFrame (new_frame header) s)) w).

Lemma open_block_frame_eq w header rest :
  fps_wordsLeft (curStackFrame (w_state w)) > 0 →
  fps_bool (curBlockFrame (w_state w)) = false →
  w_input w = header :: rest →
  open_block_frame w =
    if fi_type (extract_frame_info header) =? frame_headers.BlockRead
    then (Go tt, block_opened header rest w)
    else (Ret NotABlockFrame, map_state parser_clear_event_state w).
Proof.
  intros Hs Hb Hi. unfold open_block_frame. rewrite bind_get_state, Hb.
  destruct (Z.gtb_spec (fps_wordsLeft (curStackFrame (w_state w))) 0); [|lia].
  cbn [andb negb]. rewrite when_true, bind_get_input, Hi, bind_upd_state.
  destruct (fi_type (extract_frame_info header) =? frame_headers.BlockRead); [|done].
  cbn [negb]. rewrite bind_remove_prefix. unfold consumeWord.
  destruct (Z.eqb_spec (fps_wordsLeft (curStackFrame (w_state w))) 0); [lia|].
  rewrite (bind_Go (lift_outcome (Return _)) _ _ (sub_wordsLeft 1 (curStackFrame (w_state w))) _)
    by done.
  unfold upd_state, block_opened, map_state, with_input. cbn. by rewrite Hi.
Qed.

Lemma open_block_frame_empty w :
  fps_wordsLeft (curStackFrame (w_state w)) > 0 →
  fps_bool (curBlockFrame (w_state w)) = false →
  w_input w = [] → open_block_frame w = (Ret Ok, w).
Proof.
  intros Hs Hb Hi. unfold open_block_frame. rewrite bind_get_state, Hb.
  destruct (Z.gtb_spec (fps_wordsLeft (curStackFrame (w_state w))) 0); [|lia].
  cbn [andb negb]. by rewrite when_true, bind_get_input, Hi.
Qed.

Lemma open_block_frame_open w :
  fps_bool (curBlockFrame (w_state w)) = true → open_block_frame w = (Go tt, w).
Proof. intros Hb. unfold open_block_frame. by rewrite bind_get_state, Hb, andb_false_r. Qed.

Definition block_count (w : World) : Z :=
  Z.min (fps_wordsLeft (curBlockFrame (w_state w))) (zlen (w_input w)).

Definition has_continue (header : Z) : bool :=
  negb ((fi_flags (extract_frame_info header) .& frame_flags.Continue) =? 0).

(** The world after copying what is available of the open block frame. *)
Definition block_taken (m : ModuleReadoutSpans) (mi : Z) (w : World) : World :=
  let n := block_count w in
  map_state (λ s, set_curBlockFrame (sub_wordsLeft n (curBlockFrame s)) s)
    (part_taken set_dynamicSpan (dynamicSpan m) n mi w).

Definition trimmed (parts : ModuleReadoutStructure) (mi : Z) (w : World) : World :=
  if isMesytecAndUsing2eSST parts
  then map_spans mi (λ m, set_dynamicSpan
         (trim_2eSST (wb_buffer (workBuffer (w_state w))) (dynamicSpan m)) m) w
  else w.

(** What follows the last block frame of a module. *)
Definition after_dynamic (parts : ModuleReadoutStructure) (w : World) : flow unit * World :=
  if suffixLen parts =? 0 then (Go tt, next_module_world w)
  else (Continue_, enter_part Suffix w).

Lemma parse_dynamic_eq parts mi m w w1 :
  open_block_frame w = (Go tt, w1) →
  sizes_ok w1 → 0 ≤ mi → readoutDataSpans (w_state w1) !! Z.to_nat mi = Some m →
  0 ≤ sp_size (dynamicSpan m) → sp_size (dynamicSpan m) + block_count w1 < 2 ^ 32 →
  let w2 := block_taken m mi w1 in
  parse_dynamic parts mi w =
    if (fps_wordsLeft (curBlockFrame (w_state w1)) =? block_count w1)
       && negb (has_continue (fps_header (curBlockFrame (w_state w1))))
    then after_dynamic parts (trimmed parts mi w2)
    else (Go tt, w2).
Proof.
  intros Ho Hok Hmi Hm Hsz Hsum w2. pose proof Hok as [Hi Hu Hr Hs Hb].
  pose proof (zlen_nonneg (w_input w1)).
  unfold parse_dynamic. rewrite (bind_Go _ _ _ _ _ Ho).
  rewrite bind_get_state, (bind_at_index _ _ m), bind_get_input by done. cbv zeta.
  replace (Z.min (fps_wordsLeft (curBlockFrame (w_state w1))) (u32 (zlen (w_input w1))))
    with (block_count w1) by (unfold block_count, u32; by rewrite Z.mod_small by lia).
  assert (Hn : 0 ≤ block_count w1 ≤ zlen (w_input w1)) by (unfold block_count; lia).
  assert (Ht := take_part_eq set_dynamicSpan (dynamicSpan m) (block_count w1) mi w1
    (λ _ _ _, eq_refl) Hok Hn Hsz Hsum).
  rewrite bind_upd_spans in Ht. rewrite bind_upd_spans.
  rewrite (bind_Go _ _ _ tt _ (copy_to_workbuffer_eq _ (map_spans mi _ w1) Hn (conj (proj1 Hu) Hr))) in Ht.
  rewrite (bind_Go _ _ _ tt _ (copy_to_workbuffer_eq _ (map_spans mi _ w1) Hn (conj (proj1 Hu) Hr))).
  rewrite bind_upd_spans. change (upd_spans mi ?f ?v) with (@Go unit tt, map_spans mi f v) in Ht.
  apply (f_equal snd) in Ht. cbn [snd] in Ht. rewrite Ht, bind_upd_state, bind_get_state. fold (block_taken m mi w1). fold w2.
  assert (Hbl : curBlockFrame (w_state w2) = sub_wordsLeft (block_count w1) (curBlockFrame (w_state w1)))
    by done.
  rewrite Hbl. cbn [sub_wordsLeft fps_wordsLeft fps_header]. unfold fps_info. cbn [fps_header].
  unfold u16. rewrite (Z.mod_small (_ - _)) by (unfold block_count; lia).
  unfold has_continue. rewrite negb_involutive.
  destruct (Z.eqb_spec (fps_wordsLeft (curBlockFrame (w_state w1)) - block_count w1) 0),
    (Z.eqb_spec (fps_wordsLeft (curBlockFrame (w_state w1))) (block_count w1)); try lia; [|done].
  cbn [andb]. destruct (_ =? 0); [|done].
  rewrite when_true. unfold trimmed, after_dynamic.
  destruct (isMesytecAndUsing2eSST parts); by destruct (suffixLen parts =? 0).
Qed.

(** ** Flushing an event *)

Definition event_module_data (s : ReadoutParserState) (k : nat)
    (mods : list ModuleReadoutStructure) : list ModuleData :=
  zip_with (λ m sp, make_module_data (wb_buffer (workBuffer s)) sp (hasDynamic m))
    mods (drop k (readoutDataSpans s)).

Definition with_module_data (k : nat) (mds : list ModuleData) (s : ReadoutParserState)
  : ReadoutParserState :=
  set_moduleDataBuffer
    (take k (moduleDataBuffer s) ++ mds ++ drop (k + length mds) (moduleDataBuffer s)) s.

Lemma take_drop_insert {A} k (x : A) (mds l : list A) :
  (k < length l)%nat →
  take (S k) (<[k:=x]> l) ++ mds ++ drop (S k + length mds) (<[k:=x]> l)
  = take k l ++ (x :: mds) ++ drop (k + S (length mds)) l.
Proof.
  intros Hk. rewrite (take_S_r _ _ x) by (by apply list_lookup_insert_eq).
  rewrite take_insert_ge, drop_insert_lt, <- app_assoc by lia.
  by replace (k + S (length mds))%nat with (S k + length mds)%nat by lia.
Qed.

Lemma flush_modules_eq mods k w :
  (k + length mods ≤ length (readoutDataSpans (w_state w)))%nat →
  (k + length mods ≤ length (moduleDataBuffer (w_state w)))%nat →
  ∃ c, flush_modules mods (Z.of_nat k) w =
    (Go tt, mkWorld (with_module_data k (event_module_data (w_state w) k mods) (w_state w))
              c (w_callbacks w) (w_input w)).
Proof.
  revert k w; induction mods as [|m mods IH]; intros k w Hk1 Hk2.
  { exists (w_counters w). destruct w as [s c cb i]. cbn. do 2 f_equal.
    unfold with_module_data, event_module_data. cbn. rewrite Nat.add_0_r, take_drop. by destruct s. }
  cbn [length] in *. cbn [flush_modules]. rewrite bind_get_state.
  destruct (lookup_lt_is_Some_2 (readoutDataSpans (w_state w)) k) as [sp Hsp]; [lia|].
  destruct (lookup_lt_is_Some_2 (moduleDataBuffer (w_state w)) k) as [old Hold]; [lia|].
  rewrite (bind_at_index _ _ sp), (bind_at_index _ _ old) by (rewrite ?Nat2Z.id; done || lia).
  cbv zeta. rewrite bind_upd_state, bind_upd_counters, Nat2Z.id.
  set (md := make_module_data _ _ _).
  replace (Z.of_nat k + 1) with (Z.of_nat (S k)) by lia.
  match goal with |- ∃ _, flush_modules _ _ ?v = _ => destruct (IH (S k) v) as [c Hc] end.
  { cbn. lia. }
  { cbn. rewrite length_insert. lia. }
  exists c. rewrite Hc. do 2 f_equal. unfold with_module_data.
  cbn [map_counters map_state w_state set_moduleDataBuffer].
  unfold event_module_data at 1 2. cbn [map_counters map_state w_state set_moduleDataBuffer
    readoutDataSpans workBuffer moduleDataBuffer].
  assert (He : event_module_data (w_state w) k (m :: mods)
    = md :: event_module_data (w_state w) (S k) mods).
  { unfold event_module_data. by rewrite (drop_S _ _ _ Hsp). }
  rewrite He. fold (event_module_data (w_state w) (S k) mods).
  unfold set_moduleDataBuffer. cbn. f_equal. apply take_drop_insert. lia.
Qed.

Lemma length_event_module_data mods s :
  (length mods ≤ length (readoutDataSpans s))%nat →
  length (event_module_data s 0 mods) = length mods.
Proof. intros. unfold event_module_data. rewrite length_zip_with, drop_0. lia. Qed.

(** All modules are handed out in one call, then the event state is cleared. *)
Definition flushed (c : ReadoutParserCounters) (mds : list ModuleData) (w : World) : World :=
  let s := w_state w in
  map_state parser_clear_event_state
    (mkWorld (with_module_data 0 mds s) c
       (w_callbacks w ++ [EventData (fi_ctrl (fps_info (curStackFrame s))) (eventIndex s) mds])
       (w_input w)).

Lemma flush_event_eq mods w :
  (length mods ≤ length (readoutDataSpans (w_state w)))%nat →
  (length mods ≤ length (moduleDataBuffer (w_state w)))%nat →
  ∃ c, flush_event mods w = (Go tt, flushed c (event_module_data (w_state w) 0 mods) w).
Proof.
  intros H1 H2. destruct (flush_modules_eq mods 0 w ltac:(lia) ltac:(lia)) as [c Hc].
  unfold flush_event. rewrite (bind_Go _ _ _ _ _ Hc). rewrite bind_get_state.
  eexists. unfold flushed. unfold mbind, PM_bind, invoke, upd_counters, upd_state, map_state.
  cbn -[take drop app parser_clear_event_state event_module_data].
  rewrite take_0, app_nil_l, <- (length_event_module_data mods (w_state w) H1) at 1.
  rewrite take_app_length. reflexivity.
Qed.
