(* ===== verification/ParserSafety.v ===== *)
(** * Safety and termination of the readout parser

    The invariant of [ReadoutParserState] that holds between two rounds of the
    parse loop, whatever the input is, and what follows from it: no access
    outside of a container, the loop ends, the parser always advances, and every
    [ModuleData] handed to a callback is consistent and readable. *)

From S2P Require Import Prelude Constants Frames FramesFacts Commands ReadoutParser ParserSteps.

(** ** The invariant *)

Definition start_offset (m : ModuleReadoutSpans) : Z :=
  if negb (sp_size (prefixSpan m) =? 0) then sp_offset (prefixSpan m)
  else if negb (sp_size (dynamicSpan m) =? 0) then sp_offset (dynamicSpan m)
  else if negb (sp_size (suffixSpan m) =? 0) then sp_offset (suffixSpan m)
  else 0.

Definition total_size (m : ModuleReadoutSpans) : Z :=
  sp_size (prefixSpan m) + sp_size (dynamicSpan m) + sp_size (suffixSpan m).

(** A span lies inside of the used part of the work buffer. *)
Definition span_ok (used : Z) (sp : Span) : Prop :=
  0 ≤ sp_size sp ∧ (sp_size sp ≠ 0 → 0 ≤ sp_offset sp ∧ sp_offset sp + sp_size sp ≤ used).

Record spans_ok (used : Z) (parts : ModuleReadoutStructure) (m : ModuleReadoutSpans) : Prop := {
  sok_prefix : span_ok used (prefixSpan m);
  sok_dynamic : span_ok used (dynamicSpan m);
  sok_suffix : span_ok used (suffixSpan m);
  sok_start : 0 ≤ start_offset m;
  sok_range : start_offset m + total_size m ≤ used;
  sok_dyn : sp_size (dynamicSpan m) ≠ 0 → hasDynamic parts = true
}.

(** A module whose fixed parts are complete. *)
Definition module_done (parts : ModuleReadoutStructure) (m : ModuleReadoutSpans) : Prop :=
  sp_size (prefixSpan m) = prefixLen parts ∧ sp_size (suffixSpan m) = suffixLen parts.

Definition module_blank (m : ModuleReadoutSpans) : Prop :=
  sp_size (prefixSpan m) = 0 ∧ sp_size (dynamicSpan m) = 0 ∧ sp_size (suffixSpan m) = 0.

(** The module that is being parsed. *)
Definition module_current (g : GroupParseState) (parts : ModuleReadoutStructure)
    (m : ModuleReadoutSpans) : Prop :=
  match g with
  | Prefix =>
      sp_size (dynamicSpan m) = 0 ∧ sp_size (suffixSpan m) = 0
      ∧ (sp_size (prefixSpan m) = 0 ∨ sp_size (prefixSpan m) < prefixLen parts)
  | Dynamic =>
      hasDynamic parts = true ∧ sp_size (prefixSpan m) = prefixLen parts
      ∧ sp_size (suffixSpan m) = 0
  | Suffix => sp_size (prefixSpan m) = prefixLen parts ∧ sp_size (suffixSpan m) < suffixLen parts
  end.

(** The modules of an event while module [mi] is being parsed and satisfies [P]. *)
Definition modules_ok (used : Z) (mods : list ModuleReadoutStructure)
    (spans : list ModuleReadoutSpans) (mi : Z)
    (P : ModuleReadoutStructure → ModuleReadoutSpans → Prop) : Prop :=
  ∀ j parts m, mods !! j = Some parts → spans !! j = Some m →
    spans_ok used parts m
    ∧ (Z.of_nat j < mi → module_done parts m)
    ∧ (mi < Z.of_nat j → module_blank m)
    ∧ (Z.of_nat j = mi → P parts m).

Definition parts_ok (p : ModuleReadoutStructure) : Prop := is_u8 (prefixLen p) ∧ is_u8 (suffixLen p).

(** The part of the invariant that does not depend on an event. *)
Record base_inv (s : ReadoutParserState) : Prop := {
  bi_structure : ∀ i mods, readoutStructure s !! i = Some mods →
    (length mods ≤ length (readoutDataSpans s) ∧ length mods ≤ length (moduleDataBuffer s))%nat
    ∧ Forall parts_ok mods;
  bi_used : 0 ≤ wb_used (workBuffer s) ≤ zlen (wb_buffer (workBuffer s));
  bi_stack : 0 ≤ fps_wordsLeft (curStackFrame s) < 2 ^ 16;
  bi_block : 0 ≤ fps_wordsLeft (curBlockFrame s) < 2 ^ 16
}.

(** No event in progress. *)
Definition idle (s : ReadoutParserState) : Prop :=
  eventIndex s = -1 ∧ groupParseState s = Prefix
  ∧ fps_wordsLeft (curStackFrame s) = 0 ∧ fps_wordsLeft (curBlockFrame s) = 0.

(** Parsing event [eventIndex s], whose modules are [mods]; [P] holds of the
    current module. *)
Record in_event (P : ModuleReadoutStructure → ModuleReadoutSpans → Prop)
    (mods : list ModuleReadoutStructure) (s : ReadoutParserState) : Prop := {
  ie_event : 0 ≤ eventIndex s;
  ie_mods : readoutStructure s !! Z.to_nat (eventIndex s) = Some mods;
  ie_module : 0 ≤ moduleIndex s ≤ zlen mods;
  ie_spans : modules_ok (wb_used (workBuffer s)) mods (readoutDataSpans s) (moduleIndex s) P
}.

Definition at_nonempty (mods : list ModuleReadoutStructure) (s : ReadoutParserState) : Prop :=
  ∃ parts, mods !! Z.to_nat (moduleIndex s) = Some parts ∧ mrs_is_empty parts = false.

(** A block frame is open only while the dynamic part of a module is parsed. *)
Definition block_inv (s : ReadoutParserState) : Prop :=
  groupParseState s ≠ Dynamic → fps_wordsLeft (curBlockFrame s) = 0.

Definition parser_inv (s : ReadoutParserState) : Prop :=
  base_inv s
  ∧ (fps_wordsLeft (curStackFrame s) ≠ 0 → get_frame_length (fps_header (curStackFrame s)) ≠ 0)
  ∧ block_inv s
  ∧ (idle s ∨ ∃ mods, in_event (module_current (groupParseState s)) mods s ∧ at_nonempty mods s).

(** What the callbacks can rely on. *)
Definition module_data_ok (md : ModuleData) : Prop :=
  size_consistency_check md = true ∧ zlen (md_data md) = md_size md.

Definition module_data_complete (parts : ModuleReadoutStructure) (md : ModuleData) : Prop :=
  md_prefixSize md = prefixLen parts ∧ md_suffixSize md = suffixLen parts
  ∧ md_hasDynamic md = hasDynamic parts.

Definition callback_ok (st : list (list ModuleReadoutStructure)) (c : CallbackEvent) : Prop :=
  match c with
  | SystemEvent _ ws =>
      ∃ h contents, ws = h :: contents ∧ get_frame_type h = frame_headers.SystemEvent
                    ∧ zlen contents = get_frame_length h
  | EventData _ ei mds =>
      ∃ mods, 0 ≤ ei ∧ st !! Z.to_nat ei = Some mods ∧ length mds = length mods
              ∧ Forall module_data_ok mds
              ∧ (mds = replicate (length mods) empty_module_data
                 ∨ Forall2 module_data_complete mods mds)
  end.

(** The words of the event in progress and of the input together stay below a
    bound [B] of at most 2^32: a copy only moves words from one to the other. *)
Section Bounded.
Context (B : Z) (HB : B ≤ 2 ^ 32).

Record world_inv (w : World) : Prop := {
  wi_parser : parser_inv (w_state w);
  wi_size : wb_used (workBuffer (w_state w)) + zlen (w_input w) < B;
  wi_callbacks : Forall (callback_ok (readoutStructure (w_state w))) (w_callbacks w)
}.

Lemma world_sizes_ok w : base_inv (w_state w) →
  wb_used (workBuffer (w_state w)) + zlen (w_input w) < B → sizes_ok w.
Proof.
  intros [Hst Hu Hs Hb] Hz. pose proof (zlen_nonneg (w_input w)). split; try done; lia.
Qed.

(** ** Changing the spans of the current module *)

Lemma span_ok_mono used used' sp : span_ok used sp → used ≤ used' → span_ok used' sp.
Proof. intros [H1 H2] Hu. split; [done|]. intros Hne. specialize (H2 Hne). lia. Qed.

Lemma modules_ok_update used used' mods spans mi (P Q : _ → _ → Prop) parts m f :
  modules_ok used mods spans mi P → 0 ≤ mi → used ≤ used' →
  mods !! Z.to_nat mi = Some parts → spans !! Z.to_nat mi = Some m →
  spans_ok used' parts (f m) → Q parts (f m) →
  modules_ok used' mods (alter f (Z.to_nat mi) spans) mi Q.
Proof.
  intros H Hmi Hu Hp Hm Hf Hc j parts' m' Hj Hm'.
  destruct (decide (j = Z.to_nat mi)) as [->|Hne].
  - rewrite list_lookup_alter_eq, Hm in Hm'. injection Hm' as <-.
    rewrite Hp in Hj. injection Hj as <-.
    split_and!; [done|lia|lia|done].
  - rewrite list_lookup_alter_ne in Hm' by done.
    destruct (H j parts' m' Hj Hm') as ([Hs1 Hs2 Hs3 Hs4 Hs5 Hs6] & Hd & Hb & _).
    split_and!; [|done|done|lia].
    split; try done; try lia; by eapply span_ok_mono.
Qed.

Lemma modules_ok_next used mods spans mi :
  modules_ok used mods spans mi module_done → 0 ≤ mi →
  modules_ok used mods spans (mi + 1) (module_current Prefix).
Proof.
  intros H Hmi j parts' m' Hj Hm'.
  destruct (H j parts' m' Hj Hm') as (Hs & Hd' & Hb & Hc).
  split_and!; [done| |intros; apply Hb; lia|intros].
  - intros Hlt. destruct (decide (Z.of_nat j < mi)); [by apply Hd'|apply Hc; lia].
  - destruct Hb as (H1 & H2 & H3); [lia|]. split_and!; [done|done|by left].
Qed.

(** An empty module is done as soon as it is reached. *)
Lemma empty_module_done used mods spans mi g parts m :
  modules_ok used mods spans mi (module_current g) → 0 ≤ mi → mrs_is_empty parts = true →
  mods !! Z.to_nat mi = Some parts → spans !! Z.to_nat mi = Some m →
  g = Prefix ∧ module_done parts m.
Proof.
  intros H Hmi He Hp Hm. destruct (H _ _ _ Hp Hm) as (Hs & _ & _ & Hc).
  specialize (Hc ltac:(lia)). unfold mrs_is_empty in He. breflect.
  destruct Hs as [[? ?] [? ?] [? ?] _ _ _]. unfold module_done, module_current in *.
  destruct g; destruct Hc as (?&?); try destruct_and?; [split_and!; [done|lia..]|congruence|lia].
Qed.

Lemma skip_empty_ok used mods spans g mi :
  modules_ok used mods spans mi (module_current g) → 0 ≤ mi ≤ zlen mods → (length mods ≤ length spans)%nat →
  let k := skip_empty_modules (zdrop mi mods) mi in
  mi ≤ k ≤ zlen mods ∧ modules_ok used mods spans k (module_current g)
  ∧ (k < zlen mods → ∃ parts, mods !! Z.to_nat k = Some parts ∧ mrs_is_empty parts = false).
Proof.
  intros H Hmi Hlen. remember (zdrop mi mods) as l eqn:El. revert mi H Hmi El.
  induction l as [|p l IH]; intros mi H Hmi El; cbn.
  - assert (zlen mods ≤ mi).
    { assert (Hl := f_equal zlen El). rewrite zlen_zdrop, zlen_nil in Hl by lia. lia. }
    split_and!; try done; lia.
  - assert (Hp : mods !! Z.to_nat mi = Some p).
    { assert (Hl := f_equal (λ l, l !! 0%nat) El). unfold zdrop in Hl.
      rewrite lookup_drop, Nat.add_0_r in Hl. done. }
    assert (Hlt : mi < zlen mods) by (apply lookup_lt_Some in Hp; unfold zlen; lia).
    destruct (mrs_is_empty p) eqn:He; [|split_and!; [lia|lia|done|by exists p]].
    destruct (lookup_lt_is_Some_2 spans (Z.to_nat mi)) as [m Hm]; [unfold zlen in Hlt; lia|].
    destruct (empty_module_done _ _ _ _ _ _ _ H (proj1 Hmi) He Hp Hm) as [-> Hd].
    destruct (IH (mi + 1)) as (Hr & Hok & Hne); [|lia| |by split_and!; [lia|lia|done|done]].
    + apply modules_ok_next; [|lia]. intros j parts' m' Hj Hm'.
      destruct (H j parts' m' Hj Hm') as (?&?&?&?). split_and!; try done.
      intros ?. assert (j = Z.to_nat mi) as -> by lia. by simplify_eq.
    + unfold zdrop in *. rewrite Z2Nat.inj_add, <- drop_drop, <- El by lia. done.
Qed.

(** ** Inside of a round *)

Record mid (P : ModuleReadoutStructure → ModuleReadoutSpans → Prop)
    (mods : list ModuleReadoutStructure) (w : World) : Prop := {
  mid_base : base_inv (w_state w);
  mid_header : get_frame_length (fps_header (curStackFrame (w_state w))) ≠ 0;
  mid_event : in_event P mods (w_state w);
  mid_size : wb_used (workBuffer (w_state w)) + zlen (w_input w) < B;
  mid_callbacks : Forall (callback_ok (readoutStructure (w_state w))) (w_callbacks w)
}.

Lemma mid_world_inv mods w :
  mid (module_current (groupParseState (w_state w))) mods w →
  block_inv (w_state w) → at_nonempty mods (w_state w) → world_inv w.
Proof.
  intros [Hb Hh He Hz Hc] Hblk Hne. split; [|done|done].
  split_and!; [done|done|done|]. right. eauto.
Qed.

(** The current module and its spans. *)
Lemma mid_current P mods w :
  mid P mods w → moduleIndex (w_state w) < zlen mods →
  ∃ parts m, mods !! Z.to_nat (moduleIndex (w_state w)) = Some parts
    ∧ readoutDataSpans (w_state w) !! Z.to_nat (moduleIndex (w_state w)) = Some m
    ∧ parts_ok parts ∧ spans_ok (wb_used (workBuffer (w_state w))) parts m ∧ P parts m.
Proof.
  intros [Hb Hh [He Hm Hmi Hs] Hz Hc] Hlt.
  destruct (bi_structure _ Hb _ _ Hm) as [[Hl1 Hl2] Hp].
  destruct (lookup_lt_is_Some_2 mods (Z.to_nat (moduleIndex (w_state w)))) as [parts Hparts];
    [unfold zlen in *; lia|].
  destruct (lookup_lt_is_Some_2 (readoutDataSpans (w_state w))
              (Z.to_nat (moduleIndex (w_state w)))) as [m Hspan]; [unfold zlen in *; lia|].
  exists parts, m. destruct (Hs _ _ _ Hparts Hspan) as (Hok & _ & _ & Hcur).
  split_and!; try done.
  - by eapply (Forall_lookup_1 _ _ _ _ Hp).
  - apply Hcur. lia.
Qed.

Lemma zlen_overwrite buf off src :
  0 ≤ off → off + zlen src ≤ zlen buf → zlen (overwrite buf off src) = zlen buf.
Proof.
  intros H1 H2. pose proof (zlen_nonneg src). unfold overwrite. rewrite !zlen_app.
  rewrite zlen_ztake, zlen_zdrop by lia. lia.
Qed.

Lemma sub_wordsLeft_range n f :
  0 ≤ fps_wordsLeft (sub_wordsLeft n f) < 2 ^ 16.
Proof. apply Z.mod_pos_bound. lia. Qed.

Lemma copied_base n w :
  base_inv (w_state w) → 0 ≤ n ≤ zlen (w_input w) → base_inv (w_state (copied n w)).
Proof.
  intros [Hst Hu Hs Hb] Hn. split; cbn -[sub_wordsLeft overwrite ensure_free_space Z.pow];
    [done| |apply sub_wordsLeft_range|done].
  pose proof (ensure_free_space_size n (workBuffer (w_state w)) (proj1 Hn) Hu).
  pose proof (ensure_free_space_used n (workBuffer (w_state w))).
  rewrite zlen_overwrite; rewrite zlen_ztake by done; rewrite ensure_free_space_used; lia.
Qed.

Lemma copied_used n w :
  0 ≤ n ≤ zlen (w_input w) →
  wb_used (workBuffer (w_state (copied n w))) = wb_used (workBuffer (w_state w)) + n.
Proof.
  intros Hn. cbn -[ensure_free_space]. by rewrite zlen_ztake, ensure_free_space_used.
Qed.

Lemma map_spans_base mi f w : base_inv (w_state w) → base_inv (w_state (map_spans mi f w)).
Proof.
  intros [Hst Hu Hs Hb]. split; try done. intros i mods Hi.
  cbn. rewrite length_alter. by apply (Hst i).
Qed.

Lemma mid_map_state P Q mods w f :
  mid P mods w → base_inv (f (w_state w)) → in_event Q mods (f (w_state w)) →
  fps_header (curStackFrame (f (w_state w))) = fps_header (curStackFrame (w_state w)) →
  workBuffer (f (w_state w)) = workBuffer (w_state w) →
  readoutStructure (f (w_state w)) = readoutStructure (w_state w) →
  mid Q mods (map_state f w).
Proof.
  intros [Hb Hh He Hz Hc] H1 H2 H3 H4 H5. split; cbn; rewrite ?H3, ?H4, ?H5; done.
Qed.

(** Copying words into a part of the current module. *)
Lemma part_taken_mid P (Q : _ → _ → Prop) mods w parts m set sp n :
  mid P mods w →
  mods !! Z.to_nat (moduleIndex (w_state w)) = Some parts →
  readoutDataSpans (w_state w) !! Z.to_nat (moduleIndex (w_state w)) = Some m →
  0 ≤ n ≤ zlen (w_input w) →
  (let used := wb_used (workBuffer (w_state w)) in
   let m' := set (extend_span used n sp) m in spans_ok (used + n) parts m' ∧ Q parts m') →
  mid Q mods (part_taken set sp n (moduleIndex (w_state w)) w).
Proof.
  intros [Hb Hh [He Hm Hmi Hs] Hz Hc] Hp Hsp Hn [Hok HQ].
  assert (Hu := copied_used n w Hn). unfold part_taken. split.
  - by apply map_spans_base, copied_base.
  - done.
  - split; try done. change (workBuffer (w_state (map_spans _ _ (copied n w))))
      with (workBuffer (w_state (copied n w))). rewrite Hu.
    apply (modules_ok_update (wb_used (workBuffer (w_state w))) _ _ _ _ P _ parts m);
      try done; lia.
  - change (workBuffer (w_state (map_spans _ _ (copied n w))))
      with (workBuffer (w_state (copied n w))). rewrite Hu.
    change (w_input (map_spans _ _ (copied n w))) with (zdrop n (w_input w)).
    rewrite zlen_zdrop by done. lia.
  - done.
Qed.

Lemma next_module_mid mods w :
  mid module_done mods w → moduleIndex (w_state w) < zlen mods →
  mid (module_current Prefix) mods (next_module_world w).
Proof.
  intros H Hlt. pose proof H as [Hb Hh [He Hm Hmi Hs] Hz Hc].
  apply (mid_map_state module_done); try done.
  - by destruct Hb.
  - split; try done; cbn; [lia|]. apply modules_ok_next; [done|lia].
Qed.

Lemma enter_part_mid P mods g w : mid P mods w → mid P mods (enter_part g w).
Proof.
  intros H. pose proof H as [Hb Hh He Hz Hc]. apply (mid_map_state P); try done.
  - by destruct Hb.
  - by destruct He.
Qed.

Lemma mid_weaken (P Q : _ → _ → Prop) mods w :
  mid P mods w → (∀ parts m, P parts m → Q parts m) → mid Q mods w.
Proof.
  intros [Hb Hh [He Hm Hmi Hs] Hz Hc] HPQ. split; try done. split; try done.
  intros j parts m Hj Hj'. destruct (Hs j parts m Hj Hj') as (?&?&?&?). split_and!; auto.
Qed.

(** ** Growing and trimming a part *)

Ltac spans_crush :=
  unfold span_ok, start_offset, total_size, extend_span in *; cbn in *;
  repeat match goal with
  | |- context [?a =? 0] => destruct (Z.eqb_spec a 0)
  | H : context [?a =? 0] |- _ => destruct (Z.eqb_spec a 0)
  end; cbn in *; try lia; try tauto.

Lemma span_ok_extend used n sp :
  span_ok used sp → 0 ≤ used → 0 ≤ n → span_ok (used + n) (extend_span used n sp).
Proof. intros [H1 H2] Hu Hn. spans_crush; split; intros; lia. Qed.

Lemma spans_ok_extend_prefix used n parts m :
  spans_ok used parts m → 0 ≤ used → 0 ≤ n →
  sp_size (dynamicSpan m) = 0 → sp_size (suffixSpan m) = 0 →
  spans_ok (used + n) parts (set_prefixSpan (extend_span used n (prefixSpan m)) m).
Proof.
  intros [H1 H2 H3 H4 H5 H6] Hu Hn Hd Hs. split; cbn [set_prefixSpan prefixSpan dynamicSpan suffixSpan].
  1: by apply span_ok_extend.
  1,2: eapply span_ok_mono; [done|lia].
  1,2: clear H6; spans_crush.
  done.
Qed.

Lemma spans_ok_extend_dynamic used n parts m :
  spans_ok used parts m → 0 ≤ used → 0 ≤ n →
  hasDynamic parts = true → sp_size (suffixSpan m) = 0 →
  spans_ok (used + n) parts (set_dynamicSpan (extend_span used n (dynamicSpan m)) m).
Proof.
  intros [H1 H2 H3 H4 H5 H6] Hu Hn Hd Hs. split; cbn [set_dynamicSpan prefixSpan dynamicSpan suffixSpan].
  2: by apply span_ok_extend.
  1,2: eapply span_ok_mono; [done|lia].
  1,2: clear H6; spans_crush.
  done.
Qed.

Lemma spans_ok_extend_suffix used n parts m :
  spans_ok used parts m → 0 ≤ used → 0 ≤ n →
  spans_ok (used + n) parts (set_suffixSpan (extend_span used n (suffixSpan m)) m).
Proof.
  intros [H1 H2 H3 H4 H5 H6] Hu Hn. split; cbn [set_suffixSpan prefixSpan dynamicSpan suffixSpan].
  3: by apply span_ok_extend.
  1,2: eapply span_ok_mono; [done|lia].
  1,2: clear H6; spans_crush.
  done.
Qed.

(** Cutting off two words of a dynamic part of at least four words. *)
Lemma trim_2eSST_cases buffer sp :
  sp_size sp < 2 ^ 32 →
  trim_2eSST buffer sp = sp
  ∨ (4 ≤ sp_size sp ∧ trim_2eSST buffer sp = mkSpan (sp_offset sp) (sp_size sp - 2)).
Proof.
  intros Hlt. unfold trim_2eSST.
  destruct (Z.geb_spec (sp_size sp) 2), (Z.eqb_spec (sp_size sp mod 4) 0);
    cbn [andb]; [|by left..].
  destruct (rev _) as [|a [|b ?]]; [by left..|].
  destruct (_ && _); [|by left]. right. unfold u32.
  assert (4 ≤ sp_size sp) by zlia. rewrite Z.mod_small by lia. done.
Qed.

Lemma spans_ok_trim used buffer parts m :
  spans_ok used parts m → used < 2 ^ 32 →
  spans_ok used parts (set_dynamicSpan (trim_2eSST buffer (dynamicSpan m)) m).
Proof.
  intros [H1 H2 H3 H4 H5 H6] Hu.
  assert (sp_size (dynamicSpan m) < 2 ^ 32).
  { destruct H2 as [Ha Hb]. destruct (decide (sp_size (dynamicSpan m) = 0)); [lia|].
    specialize (Hb ltac:(done)). lia. }
  destruct (trim_2eSST_cases buffer (dynamicSpan m)) as [->|[Hge ->]]; [done|by destruct m|].
  split; cbn [set_dynamicSpan prefixSpan dynamicSpan suffixSpan]; try done.
  - destruct H2 as [Ha Hb]. specialize (Hb ltac:(lia)). split; cbn; [lia|]. intros; lia.
  - clear H6. spans_crush.
  - clear H6. spans_crush.
  - intros _. apply H6. lia.
Qed.

(** ** One module part *)

(** Every round decreases this. *)
Definition measure (w : World) : Z :=
  2 * zlen (w_input w) + (if bool_decide (groupParseState (w_state w) = Prefix) then 1 else 0).

Lemma measure_enter g w : g ≠ Prefix → measure (enter_part g w) = 2 * zlen (w_input w).
Proof. intros Hg. unfold measure. rewrite bool_decide_eq_false_2 by done. simpl. lia. Qed.

(** After the code for the current module. *)
Definition module_post (mods : list ModuleReadoutStructure) (w : World)
    (r : flow unit * World) : Prop :=
  let w' := r.2 in
  readoutStructure (w_state w') = readoutStructure (w_state w)
  ∧ zlen (w_input w') ≤ zlen (w_input w)
  ∧ match r.1 with
    | Go _ =>
        mid (module_current (groupParseState (w_state w'))) mods w' ∧ block_inv (w_state w')
        ∧ (w_input w ≠ [] → at_nonempty mods (w_state w) → zlen (w_input w') < zlen (w_input w))
    | Continue_ => world_inv w' ∧ measure w' < measure w
    | Ret pr => world_inv w' ∧ ((pr = Ok ∧ w_input w' = []) ∨ pr = NotABlockFrame)
    | Exc _ | Undef => False
    end.

Definition prefix_complete (parts : ModuleReadoutStructure) (m : ModuleReadoutSpans) : Prop :=
  sp_size (dynamicSpan m) = 0 ∧ sp_size (suffixSpan m) = 0
  ∧ sp_size (prefixSpan m) = prefixLen parts.

(** [P] at the current module only matters for the modules the event has. *)
Lemma mid_weaken_current (P Q : _ → _ → Prop) mods w parts :
  mid P mods w → mods !! Z.to_nat (moduleIndex (w_state w)) = Some parts →
  (∀ m, readoutDataSpans (w_state w) !! Z.to_nat (moduleIndex (w_state w)) = Some m →
        P parts m → Q parts m) → mid Q mods w.
Proof.
  intros [Hb Hh [He Hm Hmi Hs] Hz Hc] Hp HPQ. split; try done. split; try done.
  intros j parts' m Hj Hj'. destruct (Hs j parts' m Hj Hj') as (?&?&?&Hcur). split_and!; auto.
  intros Heq. assert (j = Z.to_nat (moduleIndex (w_state w))) as -> by lia.
  simplify_eq. auto.
Qed.

Lemma after_prefix_post mods w w1 parts :
  mid prefix_complete mods w1 → moduleIndex (w_state w1) = moduleIndex (w_state w) →
  mods !! Z.to_nat (moduleIndex (w_state w)) = Some parts →
  moduleIndex (w_state w) < zlen mods → mrs_is_empty parts = false → parts_ok parts →
  groupParseState (w_state w) = Prefix → fps_wordsLeft (curBlockFrame (w_state w1)) = 0 →
  readoutStructure (w_state w1) = readoutStructure (w_state w) →
  zlen (w_input w1) ≤ zlen (w_input w) →
  (prefixLen parts ≠ 0 → w_input w ≠ [] → zlen (w_input w1) < zlen (w_input w)) →
  module_post mods w (after_prefix parts w1).
Proof.
  intros Hmid Hmi Hp Hlt Hne [Hp1 Hp2] Hg Hblk Hst Hz Hadv. unfold after_prefix.
  assert (Hp' : mods !! Z.to_nat (moduleIndex (w_state w1)) = Some parts) by (by rewrite Hmi).
  assert (Hm : measure w = 2 * zlen (w_input w) + 1)
    by (unfold measure; by rewrite bool_decide_eq_true_2).
  destruct (hasDynamic parts) eqn:Hd; [|destruct (Z.eqb_spec (suffixLen parts) 0) as [Hs0|Hs0]; cbn [negb]].
  - split_and!; [done|done|cbn -[measure]]. split; [|rewrite Hm, measure_enter by done; lia].
    apply (mid_world_inv mods); [|by intros ?|by exists parts].
    apply enter_part_mid, (mid_weaken_current _ _ _ _ parts Hmid Hp').
    intros m _ (?&?&?). done.
  - split_and!; [done|done|cbn]. split_and!; [|by intros ?|].
    + apply next_module_mid; [|lia]. apply (mid_weaken_current _ _ _ _ parts Hmid Hp').
      intros m _ (?&?&?). by split; [|congruence].
    + intros Hin _. apply Hadv; [|done]. intros Hp0. unfold mrs_is_empty in Hne.
      by rewrite Hp0, Hs0, Hd in Hne.
  - split_and!; [done|done|cbn -[measure]]. split; [|rewrite Hm, measure_enter by done; lia].
    apply (mid_world_inv mods); [|by intros ?|by exists parts].
    apply enter_part_mid, (mid_weaken_current _ _ _ _ parts Hmid Hp').
    intros m _ (?&?&?). split; [done|]. destruct Hp2. lia.
Qed.

Lemma parse_prefix_post mods w parts :
  mid (module_current Prefix) mods w → block_inv (w_state w) →
  groupParseState (w_state w) = Prefix → 0 < fps_wordsLeft (curStackFrame (w_state w)) →
  moduleIndex (w_state w) < zlen mods →
  mods !! Z.to_nat (moduleIndex (w_state w)) = Some parts → mrs_is_empty parts = false →
  module_post mods w (parse_prefix parts (moduleIndex (w_state w)) w).
Proof.
  intros Hmid Hblk Hg Hw Hlt Hp Hne.
  destruct (mid_current _ _ _ Hmid Hlt) as (parts' & m & Hp' & Hm & Hpo & Hso & Hd & Hs & Hc).
  rewrite Hp in Hp'. injection Hp' as <-. pose proof Hpo as [Hp1 Hp2].
  pose proof Hmid as [Hb Hh [He Hmo Hmi Hsp] Hz Hcb].
  assert (Hbw : fps_wordsLeft (curBlockFrame (w_state w)) = 0) by (apply Hblk; congruence).
  pose proof (world_sizes_ok w Hb Hz) as Hsz. destruct (sok_prefix _ _ _ Hso) as [Hps _].
  pose proof (zlen_nonneg (w_input w)). unfold is_u8 in *. pose proof (bi_used _ Hb).
  destruct (decide (sp_size (prefixSpan m) < prefixLen parts)) as [Hlt'|Hge].
  - rewrite (parse_prefix_eq parts _ m) by (done || lia).
    set (n := fixed_count _ _ _).
    assert (Hn : 0 ≤ n ≤ zlen (w_input w) ∧ n ≤ prefixLen parts - sp_size (prefixSpan m)
                 ∧ (w_input w ≠ [] → 0 < n)).
    { subst n. unfold fixed_count. split_and!; try lia. intros Hin%zlen_pos. lia. }
    destruct Hn as (Hn1 & Hn2 & Hn3).
    assert (Hzw : zlen (w_input (part_taken set_prefixSpan (prefixSpan m) n
                     (moduleIndex (w_state w)) w)) = zlen (w_input w) - n)
      by (cbn; by rewrite zlen_zdrop).
    pose proof (spans_ok_extend_prefix _ n _ _ Hso (proj1 (bi_used _ Hb)) (proj1 Hn1) Hd Hs).
    destruct (Z.eqb_spec (sp_size (prefixSpan m) + n) (prefixLen parts)) as [Heq|Hneq].
    + apply after_prefix_post; try done; try lia. by eapply part_taken_mid.
    + unfold module_post. cbn [fst snd]. split_and!; [done|lia|..].
      * change (groupParseState (w_state (part_taken _ _ _ _ w)))
          with (groupParseState (w_state w)). rewrite Hg.
        eapply (part_taken_mid _ _ _ _ parts m); try done. split; [done|].
        split_and!; try done. right. cbn. lia.
      * by intros ?.
      * intros Hin%Hn3 _. lia.
  - assert (sp_size (prefixSpan m) = 0 ∧ prefixLen parts = 0) as [Hz1 Hz2] by lia.
    rewrite (parse_prefix_none parts _ m) by (done || lia).
    apply after_prefix_post; try done.
    apply (mid_weaken_current _ _ _ _ parts Hmid Hp). intros m' Hm' (?&?&?).
    simplify_eq. split_and!; [done|done|lia].
Qed.

Lemma parse_suffix_post mods w parts :
  mid (module_current Suffix) mods w → block_inv (w_state w) →
  groupParseState (w_state w) = Suffix → 0 < fps_wordsLeft (curStackFrame (w_state w)) →
  moduleIndex (w_state w) < zlen mods →
  mods !! Z.to_nat (moduleIndex (w_state w)) = Some parts →
  module_post mods w (parse_suffix parts (moduleIndex (w_state w)) w).
Proof.
  intros Hmid Hblk Hg Hw Hlt Hp.
  destruct (mid_current _ _ _ Hmid Hlt) as (parts' & m & Hp' & Hm & Hpo & Hso & Hpre & Hc).
  rewrite Hp in Hp'. injection Hp' as <-. pose proof Hpo as [Hp1 Hp2].
  pose proof Hmid as [Hb Hh [He Hmo Hmi Hsp] Hz Hcb].
  assert (Hbw : fps_wordsLeft (curBlockFrame (w_state w)) = 0) by (apply Hblk; congruence).
  pose proof (world_sizes_ok w Hb Hz) as Hsz. destruct (sok_suffix _ _ _ Hso) as [Hss _].
  pose proof (zlen_nonneg (w_input w)). unfold is_u8 in *. pose proof (bi_used _ Hb).
  rewrite (parse_suffix_eq parts _ m) by (done || lia).
  set (n := fixed_count _ _ _).
  assert (Hn : 0 ≤ n ≤ zlen (w_input w) ∧ n ≤ suffixLen parts - sp_size (suffixSpan m)
               ∧ (w_input w ≠ [] → 0 < n)).
  { subst n. unfold fixed_count. split_and!; try lia. intros Hin%zlen_pos. lia. }
  destruct Hn as (Hn1 & Hn2 & Hn3). unfold module_post. cbn [fst snd].
  assert (Hzw : zlen (w_input (part_taken set_suffixSpan (suffixSpan m) n
                   (moduleIndex (w_state w)) w)) = zlen (w_input w) - n)
    by (cbn; by rewrite zlen_zdrop).
  pose proof (spans_ok_extend_suffix _ n _ _ Hso (proj1 (bi_used _ Hb)) (proj1 Hn1)).
  destruct (Z.eqb_spec (sp_size (suffixSpan m) + n) (suffixLen parts)) as [Heq|Hneq].
  - change (w_input (next_module_world ?v)) with (w_input v).
    split_and!; [done|lia| |by intros ?|intros Hin%Hn3 _; lia].
    apply next_module_mid; [|done]. eapply (part_taken_mid _ _ _ _ parts m); try done.
  - split_and!; [done|lia| |by intros ?|intros Hin%Hn3 _; lia].
    change (groupParseState (w_state (part_taken _ _ _ _ w)))
      with (groupParseState (w_state w)). rewrite Hg.
    eapply (part_taken_mid _ _ _ _ parts m); try done. split; [done|].
    split; [done|]. cbn. lia.
Qed.

Lemma new_frame_0 : fps_wordsLeft (new_frame 0) = 0.
Proof. done. Qed.

Lemma new_frame_range h : 0 ≤ fps_wordsLeft (new_frame h) < 2 ^ 16.
Proof. cbn -[extract_frame_info Z.pow]. pose proof (fi_len_range h). lia. Qed.

Lemma cleared_parser_inv s : base_inv s → parser_inv (parser_clear_event_state s).
Proof.
  intros [Hst Hu Hs Hb]. split_and!; [|done|done|by left].
  split; try done; apply new_frame_range.
Qed.

Lemma cleared_world_inv w :
  base_inv (w_state w) → wb_used (workBuffer (w_state w)) + zlen (w_input w) < B →
  Forall (callback_ok (readoutStructure (w_state w))) (w_callbacks w) →
  world_inv (map_state parser_clear_event_state w).
Proof. intros. split; try done. by apply cleared_parser_inv. Qed.

Lemma block_opened_mid P mods w header rest :
  mid P mods w → w_input w = header :: rest → mid P mods (block_opened header rest w).
Proof.
  intros [Hb Hh [He Hm Hmi Hs] Hz Hc] Hi.
  split; [|done|done| |done].
  - destruct Hb. split; try done; [apply sub_wordsLeft_range|apply new_frame_range].
  - rewrite Hi, zlen_cons in Hz. cbn. lia.
Qed.

(** The dynamic part is complete, only the suffix is missing. *)
Definition dynamic_complete (parts : ModuleReadoutStructure) (m : ModuleReadoutSpans) : Prop :=
  sp_size (prefixSpan m) = prefixLen parts ∧ sp_size (suffixSpan m) = 0.

Lemma trimmed_fields parts mi w :
  moduleIndex (w_state (trimmed parts mi w)) = moduleIndex (w_state w)
  ∧ curBlockFrame (w_state (trimmed parts mi w)) = curBlockFrame (w_state w)
  ∧ readoutStructure (w_state (trimmed parts mi w)) = readoutStructure (w_state w)
  ∧ w_input (trimmed parts mi w) = w_input w.
Proof. unfold trimmed. by destruct (isMesytecAndUsing2eSST parts). Qed.

Lemma trimmed_mid mods w parts :
  mid (module_current Dynamic) mods w → moduleIndex (w_state w) < zlen mods →
  mods !! Z.to_nat (moduleIndex (w_state w)) = Some parts →
  mid dynamic_complete mods (trimmed parts (moduleIndex (w_state w)) w).
Proof.
  intros Hmid Hlt Hp. unfold trimmed.
  destruct (isMesytecAndUsing2eSST parts).
  2: { apply (mid_weaken _ _ _ _ Hmid). by intros ? ? (?&?&?). }
  destruct (mid_current _ _ _ Hmid Hlt) as (? & m & Hp' & Hm & Hpo & Hso & Hd & Hpre & Hsuf).
  simplify_eq. pose proof Hmid as [Hb Hh [He Hmo Hmi Hsp] Hsz Hcb].
  pose proof (zlen_nonneg (w_input w)).
  apply (mid_map_state _ _ _ _ _ Hmid); try done; [by apply map_spans_base|].
  split; try done. cbn. eapply modules_ok_update; try done; try lia.
  apply spans_ok_trim; [done|lia].
Qed.

Lemma after_dynamic_post mods w w1 parts :
  mid dynamic_complete mods w1 → moduleIndex (w_state w1) < zlen mods →
  mods !! Z.to_nat (moduleIndex (w_state w1)) = Some parts → mrs_is_empty parts = false →
  parts_ok parts →
  groupParseState (w_state w) = Dynamic → fps_wordsLeft (curBlockFrame (w_state w1)) = 0 →
  readoutStructure (w_state w1) = readoutStructure (w_state w) →
  zlen (w_input w1) < zlen (w_input w) →
  module_post mods w (after_dynamic parts w1).
Proof.
  intros Hmid Hlt Hp Hne [Hp1 Hp2] Hg Hblk Hst Hz. unfold after_dynamic.
  destruct (Z.eqb_spec (suffixLen parts) 0) as [Hs0|Hs0].
  - unfold module_post. cbn [fst snd]. change (w_input (next_module_world w1)) with (w_input w1).
    split_and!; [done|lia| |by intros ?|lia].
    apply next_module_mid; [|done]. apply (mid_weaken_current _ _ _ _ parts Hmid Hp).
    intros m _ [? ?]. by split; [|congruence].
  - unfold module_post. cbn [fst snd]. change (w_input (enter_part Suffix w1)) with (w_input w1).
    split_and!; [done|lia| |].
    + apply (mid_world_inv mods); [|by intros ?|by exists parts].
      apply enter_part_mid, (mid_weaken_current _ _ _ _ parts Hmid Hp).
      intros m _ [? ?]. split; [done|]. destruct Hp2. lia.
    + rewrite measure_enter by done. unfold measure. rewrite Hg, bool_decide_eq_false_2 by done. lia.
Qed.

(** What the code after [open_block_frame] needs of the world. *)
Lemma dynamic_tail_post mods w w1 parts m :
  open_block_frame w = (Go tt, w1) →
  mid (module_current Dynamic) mods w1 →
  groupParseState (w_state w1) = Dynamic → groupParseState (w_state w) = Dynamic →
  moduleIndex (w_state w1) = moduleIndex (w_state w) → moduleIndex (w_state w) < zlen mods →
  mods !! Z.to_nat (moduleIndex (w_state w1)) = Some parts → mrs_is_empty parts = false →
  readoutDataSpans (w_state w1) !! Z.to_nat (moduleIndex (w_state w1)) = Some m →
  readoutStructure (w_state w1) = readoutStructure (w_state w) →
  zlen (w_input w1) ≤ zlen (w_input w) →
  (zlen (w_input w1) < zlen (w_input w) ∨ 0 < fps_wordsLeft (curBlockFrame (w_state w1))) →
  module_post mods w (parse_dynamic parts (moduleIndex (w_state w)) w).
Proof.
  intros Ho Hmid Hg1 Hg Hmi1 Hlt Hp Hne Hm Hst Hz Hadv.
  destruct (mid_current _ _ _ Hmid ltac:(lia)) as (? & ? & Hp' & Hm' & Hpo & Hso & Hd & Hpre & Hsuf).
  simplify_eq. pose proof Hmid as [Hb Hh [He Hmo Hmi Hsp] Hsz Hcb].
  pose proof (world_sizes_ok w1 Hb Hsz) as Hok. pose proof (bi_used _ Hb) as Hu.
  pose proof (bi_block _ Hb) as Hblk. pose proof (zlen_nonneg (w_input w1)).
  destruct (sok_dynamic _ _ _ Hso) as [Hds Hds'].
  set (n := block_count w1).
  assert (Hn : 0 ≤ n ≤ zlen (w_input w1)) by (subst n; unfold block_count; lia).
  assert (sp_size (dynamicSpan m) ≤ wb_used (workBuffer (w_state w1)))
    by (destruct (decide (sp_size (dynamicSpan m) = 0)); [lia|specialize (Hds' ltac:(done)); lia]).
  rewrite <- Hmi1, (parse_dynamic_eq parts _ m w w1) by (done || fold n; lia).
  assert (Hsp2 := spans_ok_extend_dynamic _ n _ _ Hso (proj1 Hu) (proj1 Hn) Hd Hsuf).
  assert (Hzw : zlen (w_input (block_taken m (moduleIndex (w_state w1)) w1)) = zlen (w_input w1) - n)
    by (cbn; by rewrite zlen_zdrop).
  assert (Hmid2 : mid (module_current Dynamic) mods (block_taken m (moduleIndex (w_state w1)) w1)).
  { assert (Hpt := part_taken_mid _ (module_current Dynamic) _ _ parts m set_dynamicSpan
      (dynamicSpan m) n Hmid Hp Hm Hn (conj Hsp2 (conj Hd (conj Hpre Hsuf)))).
    unfold block_taken. fold n. pose proof Hpt as [[? ? ? ?] ? [] ? ?].
    eapply mid_map_state; [done| |done..].
    split; try done. apply sub_wordsLeft_range. }
  destruct (_ && _) eqn:Hcond.
  - breflect. fold n in H1.
    destruct (trimmed_fields parts (moduleIndex (w_state w1))
      (block_taken m (moduleIndex (w_state w1)) w1)) as (F1 & F2 & F3 & F4).
    apply after_dynamic_post; try done; rewrite ?F1, ?F2, ?F3, ?F4; try done; try (cbn; lia).
    + exact (trimmed_mid mods (block_taken m _ w1) parts Hmid2 ltac:(cbn; lia) Hp).
    + cbn -[Z.pow]. fold n. unfold u16. rewrite Z.mod_small; lia.
    + lia.
  - unfold module_post. cbn [fst snd]. split_and!; [done|lia| |intros Hn0; by destruct (Hn0 Hg1)|].
    + change (groupParseState (w_state (block_taken _ _ w1)))
        with (groupParseState (w_state w1)). by rewrite Hg1.
    + intros Hin%zlen_pos _. assert (n = fps_wordsLeft (curBlockFrame (w_state w1)) ∨ n = zlen (w_input w1))
        by (subst n; unfold block_count; lia). lia.
Qed.

Lemma fps_bool_false f : 0 ≤ fps_wordsLeft f → fps_bool f = false ↔ fps_wordsLeft f = 0.
Proof. intros. unfold fps_bool. destruct (Z.eqb_spec (fps_wordsLeft f) 0); done. Qed.

Lemma parse_dynamic_post mods w parts :
  mid (module_current Dynamic) mods w →
  groupParseState (w_state w) = Dynamic → 0 < fps_wordsLeft (curStackFrame (w_state w)) →
  moduleIndex (w_state w) < zlen mods →
  mods !! Z.to_nat (moduleIndex (w_state w)) = Some parts → mrs_is_empty parts = false →
  module_post mods w (parse_dynamic parts (moduleIndex (w_state w)) w).
Proof.
  intros Hmid Hg Hw Hlt Hp Hne.
  destruct (mid_current _ _ _ Hmid Hlt) as (? & m & Hp' & Hm & Hpo & Hso & _).
  simplify_eq. pose proof Hmid as [Hb Hh He Hsz Hcb]. pose proof (bi_block _ Hb) as Hblk.
  destruct (fps_bool (curBlockFrame (w_state w))) eqn:Hbo.
  - apply (dynamic_tail_post mods w w parts m); try done; [by apply open_block_frame_open|].
    right. unfold fps_bool in Hbo. breflect. lia.
  - destruct (w_input w) as [|header rest] eqn:Hin.
    + unfold parse_dynamic, mbind, PM_bind. rewrite open_block_frame_empty by (done || lia).
      unfold module_post. cbn [fst snd]. split_and!; try done; [|by left].
      apply (mid_world_inv mods); [by rewrite Hg| |by exists parts]. intros Hn. by destruct (Hn Hg).
    + assert (Ho := open_block_frame_eq w header rest ltac:(lia) Hbo Hin).
      destruct (_ =? _).
      * apply (dynamic_tail_post mods w (block_opened header rest w) parts m); try done.
        -- by apply block_opened_mid.
        -- cbn. rewrite Hin, zlen_cons. lia.
        -- left. cbn. rewrite Hin, zlen_cons. lia.
      * unfold parse_dynamic, mbind, PM_bind. rewrite Ho. unfold module_post. cbn [fst snd].
        split_and!; try done; [|by right]. apply cleared_world_inv; [done|by rewrite Hin|done].
Qed.

Lemma parse_module_post mods w :
  mid (module_current (groupParseState (w_state w))) mods w → block_inv (w_state w) →
  0 < fps_wordsLeft (curStackFrame (w_state w)) → moduleIndex (w_state w) < zlen mods →
  module_post mods w (parse_module mods w).
Proof.
  intros Hmid Hblk Hw Hlt.
  destruct (mid_current _ _ _ Hmid Hlt) as (parts & m & Hp & Hm & Hpo & Hso & Hcur).
  pose proof Hmid as [Hb Hh [He Hmo Hmi Hsp] Hsz Hcb].
  unfold parse_module. rewrite bind_get_state.
  destruct (Z.ltb_spec (moduleIndex (w_state w)) 0); [lia|].
  destruct (Z.geb_spec (moduleIndex (w_state w)) (zlen mods)); [lia|]. cbn [orb].
  rewrite (bind_at_index _ _ parts) by (done || lia).
  destruct (mrs_is_empty parts) eqn:Hne.
  - destruct (empty_module_done _ _ _ _ _ _ _ Hsp (proj1 Hmi) Hne Hp Hm) as [Hg Hd].
    change (upd_state ?f w) with (@Go unit tt, map_state f w).
    unfold module_post. cbn [fst snd].
    split_and!; [done|done| |by intros ?; apply Hblk|].
    + cbn [map_state w_state groupParseState set_moduleIndex]. rewrite Hg.
      apply (mid_map_state _ _ _ _ _ Hmid); try done; [by destruct Hb|].
      split; try done; cbn; [lia|]. apply modules_ok_next; [|lia].
      intros j parts' m' Hj Hj'. destruct (Hsp j parts' m' Hj Hj') as (?&?&?&?).
      split_and!; try done. intros ?.
      assert (j = Z.to_nat (moduleIndex (w_state w))) as -> by lia. by simplify_eq.
    + intros _ (parts' & Hp' & Hne'). congruence.
  - destruct (groupParseState (w_state w)) eqn:Hg.
    + by apply parse_prefix_post.
    + by apply parse_dynamic_post.
    + by apply parse_suffix_post.
Qed.

(** ** Handing out an event *)

Lemma make_module_data_ok buffer used parts m :
  spans_ok used parts m → used ≤ zlen buffer → used < 2 ^ 32 → module_done parts m →
  let md := make_module_data buffer m (hasDynamic parts) in
  module_data_ok md ∧ module_data_complete parts md.
Proof.
  intros [[? ?] [? ?] [? ?] Hs Hr Hd] Hb Hu [Hp1 Hp2] md. split; [|by split_and!].
  assert (Hsz : md_size md = total_size m).
  { subst md. unfold total_size in *. cbn -[Z.pow]. unfold u32.
    rewrite (Z.mod_small (_ + sp_size (dynamicSpan m))), Z.mod_small; lia. }
  split.
  - unfold size_consistency_check. subst md. cbn -[Z.pow u32].
    rewrite Z.eqb_refl. cbn [andb].
    destruct (Z.gtb_spec (sp_size (dynamicSpan m)) 0); [|done]. apply Hd. lia.
  - change (md_data md) with (ztake (md_size md) (zdrop (start_offset m) buffer)).
    rewrite Hsz. unfold total_size in *. rewrite zlen_ztake; [done|]. rewrite zlen_zdrop; lia.
Qed.

Lemma event_module_data_ok mods s :
  base_inv s → wb_used (workBuffer s) < 2 ^ 32 →
  (length mods ≤ length (readoutDataSpans s))%nat →
  (∀ j parts m, mods !! j = Some parts → readoutDataSpans s !! j = Some m →
     spans_ok (wb_used (workBuffer s)) parts m ∧ module_done parts m) →
  let mds := event_module_data s 0 mods in
  length mds = length mods ∧ Forall module_data_ok mds ∧ Forall2 module_data_complete mods mds.
Proof.
  intros Hb Hu Hl H mds. pose proof (bi_used _ Hb).
  assert (Hlen : length mds = length mods).
  { subst mds. unfold event_module_data. rewrite length_zip_with, drop_0. lia. }
  assert (Hall : ∀ j md, mds !! j = Some md → ∃ parts, mods !! j = Some parts
    ∧ module_data_ok md ∧ module_data_complete parts md).
  { intros j md Hj. subst mds. unfold event_module_data in Hj.
    apply lookup_zip_with_Some in Hj as (parts & m & -> & Hp & Hm). rewrite drop_0 in Hm.
    destruct (H j parts m Hp Hm) as [Hok Hd].
    destruct (make_module_data_ok (wb_buffer (workBuffer s)) _ _ _ Hok ltac:(lia) Hu Hd).
    eauto. }
  split_and!; [done| |].
  - apply Forall_lookup_2. intros j md Hj. by destruct (Hall j md Hj) as (?&?&?&?).
  - apply Forall2_same_length_lookup_2; [done|]. intros j parts md Hp Hj.
    destruct (Hall j md Hj) as (parts' & Hp' & ? & ?). by simplify_eq.
Qed.

Lemma flush_event_post P mods w :
  mid P mods w → moduleIndex (w_state w) = zlen mods →
  ∃ w', flush_event mods w = (Go tt, w') ∧ world_inv w' ∧ w_input w' = w_input w
        ∧ readoutStructure (w_state w') = readoutStructure (w_state w).
Proof.
  intros [Hb Hh [He Hmo Hmi Hsp] Hsz Hcb] Hlast. pose proof (zlen_nonneg (w_input w)).
  destruct (bi_structure _ Hb _ _ Hmo) as [[Hl1 Hl2] Hpo].
  destruct (flush_event_eq mods w Hl1 Hl2) as [c Hc].
  destruct (event_module_data_ok mods (w_state w) Hb ltac:(lia) Hl1) as (Hlen & Hok & Hcomp).
  { intros j parts m Hj Hm. destruct (Hsp j parts m Hj Hm) as (?&Hd&_&_). split; [done|].
    apply Hd. rewrite Hlast. apply lookup_lt_Some in Hj. unfold zlen. lia. }
  eexists. split_and!; [exact Hc| |done|done].
  apply cleared_world_inv; try done.
  - destruct Hb as [Hst ? ? ?]. split; try done. intros i mods' Hi. cbn -[drop].
    destruct (Hst i mods' Hi) as [[? ?] ?]. split; [|done]. split; [done|].
    rewrite !length_app, length_drop, Hlen. lia.
  - cbn. apply Forall_app. split; [done|]. constructor; [|constructor].
    cbn. exists mods. split_and!; try done. by right.
Qed.

(** ** Finding the next stack frame *)

(** An event is in progress and its current stack frame is open or empty. *)
Record ready (mods : list ModuleReadoutStructure) (w : World) : Prop := {
  rd_base : base_inv (w_state w);
  rd_event : in_event (module_current (groupParseState (w_state w))) mods (w_state w);
  rd_block : block_inv (w_state w);
  rd_size : wb_used (workBuffer (w_state w)) + zlen (w_input w) < B;
  rd_callbacks : Forall (callback_ok (readoutStructure (w_state w))) (w_callbacks w);
  rd_module : moduleIndex (w_state w) < zlen mods ∨ mods = [];
  rd_frame : get_frame_length (fps_header (curStackFrame (w_state w))) ≠ 0 →
             0 < fps_wordsLeft (curStackFrame (w_state w))
}.

(** The results that [parse_readout_contents] returns besides [Ok]. *)
Definition contents_error (pr : ParseResult) : Prop :=
  pr ∈ [NoStackFrameFound; NotABlockFrame; NotAStackContinuation; StackIndexChanged;
        StackIndexOutOfRange; UnexpectedOpenBlockFrame; UnexpectedNonEmptyStackFrame].

Ltac ce_solve := unfold contents_error; rewrite !elem_of_cons; tauto.

Lemma contents_error_not_Ok pr : contents_error pr → pr ≠ Ok.
Proof.
  intros H ->. unfold contents_error in H. rewrite !elem_of_cons, elem_of_nil in H.
  intuition congruence.
Qed.

Definition find_post (w : World) (r : flow unit * World) : Prop :=
  let w' := r.2 in
  readoutStructure (w_state w') = readoutStructure (w_state w)
  ∧ zlen (w_input w') ≤ zlen (w_input w)
  ∧ match r.1 with
    | Go _ => ∃ mods, ready mods w'
        ∧ (zlen (w_input w') < zlen (w_input w) ∨ (w' = w ∧ at_nonempty mods (w_state w)
               ∧ get_frame_length (fps_header (curStackFrame (w_state w))) ≠ 0))
    | Continue_ => world_inv w' ∧ zlen (w_input w') < zlen (w_input w)
    | Ret pr => world_inv w' ∧ contents_error pr
    | Exc e => world_inv w' ∧ e = end_of_buffer
    | Undef => False
    end.

Lemma world_inv_shrink w l :
  world_inv w → zlen l ≤ zlen (w_input w) → world_inv (with_input l w).
Proof. intros [Hp Hs Hc] Hl. split; [done| |done]. cbn. lia. Qed.

Lemma world_inv_counters w f : world_inv w → world_inv (map_counters f w).
Proof. by intros [Hp Hs Hc]. Qed.

(** The system event at the start of the input, if there is one. *)
Definition system_event_taken (h : Z) (w : World) : World :=
  let n := fi_len (extract_frame_info h) + 1 in
  with_input (zdrop n (w_input w))
    (mkWorld (w_state w)
       (set_systemEvents (inc_at (systemEvents (w_counters w))
          (Z.to_nat (system_event.extract_subtype h))) (w_counters w))
       (w_callbacks w ++ [SystemEvent (fi_ctrl (extract_frame_info h)) (ztake n (w_input w))])
       (w_input w)).

Lemma try_handle_system_event_eq w h rest :
  w_input w = h :: rest →
  try_handle_system_event w =
    if get_frame_type h =? frame_headers.SystemEvent then
      if zlen (w_input w) <=? fi_len (extract_frame_info h) then (Exc end_of_buffer, w)
      else (Go true, system_event_taken h w)
    else (Go false, w).
Proof.
  intros Hi. destruct w as [s c cb i]. cbn in Hi. subst i.
  unfold try_handle_system_event. rewrite bind_get_input. cbn [w_input].
  destruct (_ =? _); [|done]. by destruct (_ <=? _).
Qed.

Lemma system_event_taken_inv w h rest :
  world_inv w → w_input w = h :: rest → get_frame_type h = frame_headers.SystemEvent →
  fi_len (extract_frame_info h) < zlen (w_input w) →
  world_inv (system_event_taken h w)
  ∧ zlen (w_input (system_event_taken h w)) < zlen (w_input w).
Proof.
  intros [Hp Hs Hc] Hi Ht Hl. pose proof (fi_len_range h) as Hr.
  assert (Hz : zlen (w_input (system_event_taken h w))
               = zlen (w_input w) - (fi_len (extract_frame_info h) + 1))
    by (cbn -[extract_frame_info]; rewrite zlen_zdrop; lia).
  split; [|lia]. split; [done|cbn [system_event_taken w_state with_input]; lia|].
  cbn -[extract_frame_info]. apply Forall_app. split; [done|]. constructor; [|constructor].
  exists h, (ztake (fi_len (extract_frame_info h)) rest). split_and!; [|done|].
  - rewrite Hi. unfold ztake. by rewrite Z2Nat.inj_add, Nat.add_1_r by lia.
  - rewrite Hi, zlen_cons in Hl. rewrite zlen_ztake by lia. done.
Qed.

Lemma find_stack_frame_header_spec fuel input t :
  (∃ k, (find_stack_frame_header fuel input t).2 = drop k input)
  ∧ ((find_stack_frame_header fuel input t).1 = true →
     ∃ h rest, (find_stack_frame_header fuel input t).2 = h :: rest
               ∧ fi_type (extract_frame_info h) = t).
Proof.
  revert input; induction fuel as [|fuel IH]; intros input; cbn [find_stack_frame_header].
  { split; [by exists 0%nat|done]. }
  destruct input as [|h rest]; [split; [by exists 0%nat|done]|].
  destruct (Z.eqb_spec (fi_type (extract_frame_info h)) t);
    [split; [by exists 0%nat|eauto]|].
  destruct (negb _); [split; [by exists 0%nat|done]|].
  destruct (_ <=? _); [split; [by exists 0%nat|done]|].
  destruct (IH (zdrop (fi_len (extract_frame_info h) + 1) (h :: rest))) as [[k Hk] Hf].
  split; [|done]. rewrite Hk. unfold zdrop. rewrite drop_drop. eauto.
Qed.

Lemma zlen_drop_le {A} k (l : list A) : zlen (drop k l) ≤ zlen l.
Proof. unfold zlen. rewrite length_drop. lia. Qed.

Lemma next_continuation_frame_post w mods :
  world_inv w → in_event (module_current (groupParseState (w_state w))) mods (w_state w) →
  at_nonempty mods (w_state w) → w_input w ≠ [] →
  find_post w (next_continuation_frame w).
Proof.
  intros Hw Hev (parts & Hp & _) Hin. pose proof Hw as [(Hb & Hh & Hblk & _) Hs Hc].
  unfold next_continuation_frame. rewrite bind_get_state, bind_get_input.
  destruct (w_input w) as [|h rest] eqn:Hi; [done|].
  destruct (negb (fi_type (extract_frame_info h) =? _)).
  { split_and!; [done|done|]. cbn. split; [done|]. ce_solve. }
  destruct (negb (fi_stack (extract_frame_info h) - 1 =? _)).
  { split_and!; [done|done|]. cbn. split; [done|]. ce_solve. }
  rewrite bind_upd_state, bind_remove_prefix. cbn [map_state w_input]. rewrite Hi.
  change (zdrop 1 (h :: rest)) with rest. rewrite zlen_cons in Hs.
  assert (Hlt : moduleIndex (w_state w) < zlen mods).
  { apply lookup_lt_Some in Hp. unfold zlen. destruct Hev. lia. }
  destruct Hb as [Hst Hu Hsf Hbf]. pose proof (new_frame_range h).
  destruct (Z.eqb_spec (fps_wordsLeft (new_frame h)) 0) as [H0|H0].
  - rewrite when_true, bind_upd_counters.
    change (upd_state ?f ?v) with (@Go unit tt, map_state f v).
    unfold find_post. cbn [fst snd]. rewrite Hi, zlen_cons. split_and!; [done|cbn; lia|].
    exists mods. split; [|left; cbn; lia].
    split; try done; try (by left); try (cbn; lia).
    by destruct Hev.
  - rewrite when_false. unfold find_post. cbn [fst snd]. rewrite Hi, zlen_cons.
    split_and!; [done|cbn; lia|]. exists mods. split; [|left; cbn; lia].
    split; try done; try (by left); try (cbn; lia); try (intros _; cbn -[fps_wordsLeft]; lia).
    by destruct Hev.
Qed.

(** The world in which a new event starts. *)
Lemma parser_begin_event_cases s h :
  (∃ pr, parser_begin_event s h = (pr, s)
     ∧ ((pr = NotAStackFrame ∧ fi_type (extract_frame_info h) ≠ frame_headers.StackFrame)
        ∨ pr = StackIndexOutOfRange))
  ∨ (∃ s' mods, parser_begin_event s h = (Ok, s')
     ∧ readoutStructure s !! Z.to_nat (eventIndex s') = Some mods
     ∧ 0 ≤ eventIndex s' ∧ eventIndex s' = fi_stack (extract_frame_info h) - 1
     ∧ s' = mkState (lastBufferNumber s) (mkWB (wb_buffer (workBuffer s)) 0)
              (clear_readout_data_spans (readoutDataSpans s)) (moduleDataBuffer s)
              (readoutStructure s) (eventIndex s') 0 Prefix (new_frame h) (new_frame 0)
              (lastPacketNumber s)).
Proof.
  unfold parser_begin_event.
  destruct (Z.eqb_spec (fi_type (extract_frame_info h)) frame_headers.StackFrame); cbn [negb];
    [|by left; eauto 6].
  destruct (_ || _) eqn:Hr; [by left; eauto 6|]. breflect. right.
  destruct (lookup_lt_is_Some_2 (readoutStructure s)
    (Z.to_nat (fi_stack (extract_frame_info h) - 1))) as [mods Hm]; [unfold zlen in *; lia|].
  eexists _, mods. split_and!; [reflexivity|done|done|done|done].
Qed.

Lemma blank_modules_ok mods spans :
  modules_ok 0 mods (clear_readout_data_spans spans) 0 (module_current Prefix).
Proof.
  intros j parts m Hj Hm. unfold clear_readout_data_spans in Hm.
  apply list_lookup_fmap_Some in Hm as (m0 & -> & _).
  split_and!; [split; try done; by (split; [done|])|lia|done|].
  intros _. split_and!; try done. by left.
Qed.

Lemma next_event_frame_post w :
  world_inv w → idle (w_state w) → w_input w ≠ [] → find_post w (next_event_frame w).
Proof.
  intros Hw Hidle Hin. pose proof Hw as [(Hb & Hh & Hblk & _) Hs Hc].
  unfold next_event_frame. rewrite bind_get_input.
  destruct (find_stack_frame_header_spec (length (w_input w)) (w_input w)
    frame_headers.StackFrame) as [[k Hk] Hf].
  destruct (find_stack_frame_header _ _ _) as [found input'].
  cbn [fst snd] in Hk, Hf. rewrite bind_set_input.
  assert (Hle : zlen input' ≤ zlen (w_input w)) by (subst; apply zlen_drop_le).
  assert (Hw1 := world_inv_shrink w input' Hw Hle).
  destruct found; cbn [negb].
  2: { split_and!; [done|done|split; [done|]]. ce_solve. }
  destruct Hf as (h & rest & -> & Ht); [done|]. rewrite bind_upd_counters, bind_get_state.
  cbn [map_counters with_input w_state].
  destruct (parser_begin_event_cases (w_state w) h)
    as [(pr & -> & [[-> Hn]|Hpr])|(s' & mods & -> & Hm & He & _ & Hs')]; [done|subst pr|].
  { rewrite bind_upd_state. rewrite bool_decide_eq_false_2 by done.
    split_and!; [done|done|split; [|ce_solve]].
    by destruct Hw1. }
  rewrite bind_upd_state, bool_decide_eq_true_2 by done.
  change (remove_prefix 1 ?v) with (@Go unit tt, with_input (zdrop 1 (w_input v)) v).
  unfold find_post. rewrite zlen_cons in Hle. cbn -[Z.pow zlen zdrop].
  change (zdrop 1 (h :: rest)) with rest. split_and!; [by rewrite Hs'|lia|].
  exists mods. split; [|left; lia]. pose proof (zlen_nonneg rest).
  destruct Hb as [Hst Hu Hsf Hbf]. destruct (Hst _ _ Hm) as [[Hl1 Hl2] Hpo].
  split; cbn -[Z.pow zlen]; rewrite Hs'; cbn -[Z.pow zlen].
  - split; cbn -[Z.pow zlen]; [|lia|apply new_frame_range|apply new_frame_range].
    intros i mods' Hi. unfold clear_readout_data_spans. rewrite length_fmap. by apply (Hst i).
  - split; cbn -[Z.pow zlen]; try done; [pose proof (zlen_nonneg mods); lia|].
    apply blank_modules_ok.
  - by intros ?.
  - lia.
  - done.
  - destruct mods; [by right|left]. rewrite zlen_cons. pose proof (zlen_nonneg mods). lia.
  - pose proof (fi_len_range h). unfold get_frame_length. lia.
Qed.

Lemma find_stack_frame_post is_eth w :
  world_inv w → w_input w ≠ [] → find_post w (find_stack_frame is_eth w).
Proof.
  intros Hw Hin. pose proof Hw as [(Hb & Hh & Hblk & Hev) Hs Hc].
  unfold find_stack_frame. rewrite bind_get_state.
  destruct (fps_bool (curStackFrame (w_state w))) eqn:Hsf; cbn [negb].
  { rewrite when_false. unfold fps_bool in Hsf. breflect. pose proof (bi_stack _ Hb).
    destruct Hev as [(?&?&?&?)|(mods & Hev & Hne)]; [done|].
    split_and!; [done|done|]. exists mods. split; [|right; by auto]. split; try done; [|intros _; cbn; lia].
    left. destruct Hne as (parts & Hp & _). apply lookup_lt_Some in Hp.
    pose proof (ie_module _ _ _ Hev). unfold zlen. cbn. lia. }
  rewrite when_true. destruct (fps_bool (curBlockFrame (w_state w))).
  { split_and!; [done|done|split; [done|]]. ce_solve. }
  assert (Hnext : find_post w ((if is_event_in_progress (w_state w)
                                then next_continuation_frame else next_event_frame) w)).
  { unfold is_event_in_progress. destruct Hev as [Hid|(mods & Hev & Hne)].
    - destruct (Z.geb_spec (eventIndex (w_state w)) 0); [destruct Hid; lia|].
      by apply next_event_frame_post.
    - destruct (Z.geb_spec (eventIndex (w_state w)) 0); [|destruct Hev; lia].
      by eapply next_continuation_frame_post. }
  destruct is_eth; cbn [negb]; [rewrite bind_mret; by destruct (is_event_in_progress _)|].
  destruct (w_input w) as [|h rest] eqn:Hi; [done|].
  pose proof (try_handle_system_event_eq w h rest Hi) as Ht.
  destruct (Z.eqb_spec (get_frame_type h) frame_headers.SystemEvent) as [Hty|Hty].
  2: { rewrite (bind_Go _ _ _ _ _ Ht). by destruct (is_event_in_progress _). }
  destruct (Z.leb_spec (zlen (w_input w)) (fi_len (extract_frame_info h))) as [Hl|Hl].
  { unfold mbind, PM_bind. rewrite Ht. by split_and!. }
  rewrite (bind_Go _ _ _ _ _ Ht).
  destruct (system_event_taken_inv w h rest Hw Hi Hty Hl) as [Hw' Hz].
  split_and!; [done|exact (Z.lt_le_incl _ _ Hz)|split; done].
Qed.

(** ** One round of the loop *)

Definition iteration_post (w : World) (r : flow unit * World) : Prop :=
  let w' := r.2 in
  readoutStructure (w_state w') = readoutStructure (w_state w)
  ∧ zlen (w_input w') ≤ zlen (w_input w) ∧ world_inv w'
  ∧ match r.1 with
    | Go _ | Continue_ => measure w' < measure w
    | Ret pr => (pr = Ok ∧ w_input w' = []) ∨ contents_error pr
    | Exc e => e = end_of_buffer
    | Undef => False
    end.

Lemma measure_range w : 2 * zlen (w_input w) ≤ measure w ≤ 2 * zlen (w_input w) + 1.
Proof. unfold measure. destruct (bool_decide _); lia. Qed.

(** The loop body after the current module was parsed. *)
Lemma finish_iteration_post mods w (lastInput : list Z) :
  mid (module_current (groupParseState (w_state w))) mods w → block_inv (w_state w) →
  zlen (w_input w) < zlen lastInput →
  let m :=
    upd_state (λ s, set_moduleIndex
      (skip_empty_modules (zdrop (moduleIndex s) mods) (moduleIndex s)) s);;
    s' ← get_state;
    when (moduleIndex s' >=? zlen mods) (flush_event mods);;
    input ← get_input;
    when (zlen input =? zlen lastInput) (return_ ParseReadoutContentsNotAdvancing) in
  ∃ w', m w = (Go tt, w') ∧ world_inv w' ∧ w_input w' = w_input w
        ∧ readoutStructure (w_state w') = readoutStructure (w_state w).
Proof.
  intros Hmid Hblk Hadv m. subst m. rewrite bind_upd_state, bind_get_state.
  pose proof Hmid as [Hb Hh [He Hmo Hmi Hsp] Hsz Hcb].
  destruct (bi_structure _ Hb _ _ Hmo) as [[Hl1 Hl2] Hpo].
  destruct (skip_empty_ok _ _ _ _ _ Hsp Hmi Hl1) as (Hr & Hok & Hne).
  set (k := skip_empty_modules _ _) in *.
  assert (Hw1 : map_state (λ s, set_moduleIndex
    (skip_empty_modules (zdrop (moduleIndex s) mods) (moduleIndex s)) s) w
    = map_state (set_moduleIndex k) w) by done. rewrite Hw1.
  assert (Hmid1 : mid (module_current (groupParseState (w_state w))) mods
                    (map_state (set_moduleIndex k) w)).
  { apply (mid_map_state _ _ _ _ _ Hmid); try done; [by destruct Hb|].
    split; try done. cbn. lia. }
  change (moduleIndex (w_state (map_state (set_moduleIndex k) w))) with k.
  assert (Hend : ∀ w', w_input w' = w_input w →
    (input ← get_input;
     when (zlen input =? zlen lastInput) (return_ ParseReadoutContentsNotAdvancing)) w' = (Go tt, w')).
  { intros w' Hi. rewrite bind_get_input, Hi. by destruct (Z.eqb_spec (zlen (w_input w)) (zlen lastInput)); [lia|]. }
  destruct (Z.geb_spec k (zlen mods)).
  - destruct (flush_event_post _ _ _ Hmid1) as (w' & Hf & Hw' & Hi & Hst); [cbn; lia|].
    exists w'. split; [|done]. change (when true (flush_event mods)) with (flush_event mods). rewrite (bind_Go _ _ _ _ _ Hf). by apply Hend.
  - eexists. rewrite (bind_Go (when false _) _ _ tt _) by done. rewrite Hend by done.
    split_and!; [reflexivity| |done|done].
    apply (mid_world_inv mods); [done|done|]. apply Hne. done.
Qed.

Lemma handle_empty_stack_frame_eq n w :
  (n ≤ length (moduleDataBuffer (w_state w)))%nat →
  let s := set_moduleDataBuffer
    (replicate n empty_module_data ++ drop n (moduleDataBuffer (w_state w))) (w_state w) in
  handle_empty_stack_frame n w =
    (Continue_, map_state parser_clear_event_state
       (mkWorld s (set_emptyStackFrames (u32 (emptyStackFrames (w_counters w) + 1)) (w_counters w))
          (w_callbacks w ++ [EventData (fi_ctrl (fps_info (curStackFrame s))) (eventIndex s)
                               (replicate n empty_module_data)])
          (w_input w))).
Proof.
  intros Hn s. unfold handle_empty_stack_frame. rewrite bind_upd_counters.
  erewrite bind_Go.
  2: { unfold check_index_below. rewrite bind_get_state. cbn [map_counters w_state].
       destruct (Nat.ltb_spec (length (moduleDataBuffer (w_state w))) n); [lia|]. reflexivity. }
  rewrite bind_upd_state, bind_get_state. unfold mbind, PM_bind, invoke, upd_state, continue_.
  cbn -[take drop replicate app parser_clear_event_state]. unfold map_state. do 2 f_equal.
  cbn -[take drop replicate app]. do 3 f_equal.
  rewrite <- (length_replicate n empty_module_data) at 1. by rewrite take_app_length.
Qed.

Lemma empty_frame_inv mods w :
  ready mods w →
  let r := handle_empty_stack_frame (length mods) w in
  r.1 = Continue_ ∧ world_inv r.2 ∧ w_input r.2 = w_input w
  ∧ readoutStructure (w_state r.2) = readoutStructure (w_state w)
  ∧ groupParseState (w_state r.2) = Prefix.
Proof.
  intros [Hb [He Hmo Hmi Hsp] Hblk Hsz Hcb _ _] r. subst r.
  destruct (bi_structure _ Hb _ _ Hmo) as [[Hl1 Hl2] Hpo].
  rewrite handle_empty_stack_frame_eq by done. cbn [fst snd]. split_and!; try done.
  apply cleared_world_inv; [|done|].
  - destruct Hb as [Hst ? ? ?]. split; try done. intros i mods' Hi.
    destruct (Hst i mods' Hi) as [[? ?] ?]. cbn -[drop replicate].
    split; [|done]. split; [done|]. rewrite length_app, length_replicate, length_drop. lia.
  - cbn -[replicate]. apply Forall_app. split; [done|]. constructor; [|constructor].
    exists mods. split_and!; [done|done|by rewrite length_replicate| |by left].
    apply Forall_replicate. by split.
Qed.

Lemma parse_iteration_post is_eth w :
  world_inv w → w_input w ≠ [] → iteration_post w (parse_iteration is_eth w).
Proof.
  intros Hw Hin. unfold parse_iteration. rewrite bind_get_input.
  pose proof (find_stack_frame_post is_eth w Hw Hin) as Hf. pose proof (measure_range w).
  unfold mbind at 1, PM_bind at 1.
  destruct (find_stack_frame is_eth w) as [[u| |pr|e|] w1]; destruct Hf as (Hst & Hz & Hf);
    cbn [fst snd] in Hst, Hz, Hf.
  2: { destruct Hf as [? ?]. split_and!; try done. cbn. pose proof (measure_range w1). lia. }
  2: { destruct Hf as [? ?]. split_and!; try done. cbn. by right. }
  2: { destruct Hf as [? ?]. by split_and!. }
  2: done.
  destruct Hf as (mods & Hrd & Hadv). rewrite bind_get_state.
  pose proof Hrd as [Hb Hev Hblk Hsz Hcb Hmod Hfr].
  rewrite (bind_at_index _ _ mods) by apply Hev.
  destruct (Z.eqb_spec (get_frame_length (fps_header (curStackFrame (w_state w1)))) 0) as [H0|H0].
  { pose proof (empty_frame_inv mods w1 Hrd) as (Hr1 & Hr2 & Hr3 & Hr4 & Hr5).
    split_and!; [congruence|by rewrite Hr3|done|]. rewrite Hr1.
    destruct Hadv as [Hlt|[-> Hne]].
    - pose proof (measure_range (handle_empty_stack_frame (length mods) w1).2). rewrite Hr3 in *. lia.
    - by destruct Hne. }
  destruct (bool_decide_reflect (mods = [])) as [->|Hmods].
  { unfold handle_event_without_modules. rewrite bind_get_state, bind_upd_state.
    change (fi_len (fps_info (curStackFrame (w_state w1))))
      with (get_frame_length (fps_header (curStackFrame (w_state w1)))).
    destruct (Z.eqb_spec (get_frame_length (fps_header (curStackFrame (w_state w1)))) 0); [done|].
    split_and!; [done|done| |right; ce_solve]. by apply cleared_world_inv. }
  assert (Hlt : moduleIndex (w_state w1) < zlen mods) by (by destruct Hmod).
  assert (Hmid : mid (module_current (groupParseState (w_state w1))) mods w1) by done.
  pose proof (parse_module_post mods w1 Hmid Hblk (Hfr H0) Hlt) as Hp.
  pose proof (measure_range w1).
  unfold mbind at 1, PM_bind at 1.
  destruct (parse_module mods w1) as [[u'| |pr|e|] w2]; destruct Hp as (Hst2 & Hz2 & Hp);
    cbn [fst snd] in Hst2, Hz2, Hp; try done.
  - destruct Hp as (Hmid2 & Hblk2 & Hadv2).
    assert (Hz3 : zlen (w_input w2) < zlen (w_input w)).
    { destruct Hadv as [?|(-> & Hne & _)]; [lia|]. by apply Hadv2. }
    destruct (finish_iteration_post mods w2 (w_input w) Hmid2 Hblk2 Hz3)
      as (w3 & Hfin & Hw3 & Hi3 & Hst3).
    rewrite Hfin. split_and!; [cbn; congruence|cbn; rewrite Hi3; lia|done|].
    cbn. pose proof (measure_range w3). rewrite Hi3 in *. lia.
  - destruct Hp as [Hw2 Hm2]. split_and!; [cbn; congruence|cbn; lia|done|].
    cbn. destruct Hadv as [?|(-> & _ & _)]; [|done]. lia.
  - destruct Hp as [Hw2 Hpr]. split_and!; [cbn; congruence|cbn; lia|done|].
    cbn. destruct Hpr as [?| ->]; [by left|]. right. ce_solve.
Qed.

(** ** The loop *)

Definition contents_result (r : outcome ParseResult) (w' : World) : Prop :=
  match r with
  | Return pr => (pr = Ok ∧ w_input w' = []) ∨ contents_error pr
  | Throw e => e = end_of_buffer
  | Undefined => False
  end.

Lemma contents_loop_ok fuel is_eth w :
  world_inv w → measure w < Z.of_nat fuel →
  ∃ r w', contents_loop fuel is_eth w = Some (r, w') ∧ contents_result r w' ∧ world_inv w'
    ∧ readoutStructure (w_state w') = readoutStructure (w_state w)
    ∧ zlen (w_input w') ≤ zlen (w_input w).
Proof.
  revert w; induction fuel as [|fuel IH]; intros w Hw Hm.
  { pose proof (measure_range w). pose proof (zlen_nonneg (w_input w)). lia. }
  cbn [contents_loop]. destruct (w_input w) as [|h rest] eqn:Hi.
  { exists (Return Ok), w. split_and!; try done; [by left|]. by rewrite Hi. }
  pose proof (parse_iteration_post is_eth w Hw ltac:(by rewrite Hi)) as Hp. rewrite <- Hi.
  destruct (parse_iteration is_eth w) as [[u| |pr|e|] w1]; destruct Hp as (Hst & Hz & Hw1 & Hp);
    cbn [fst snd] in Hst, Hz, Hw1, Hp; try done.
  1,2: destruct (IH w1 Hw1 ltac:(lia)) as (r & w' & Hl & Hr & Hw' & Hst' & Hz');
    exists r, w'; split_and!; [done|done|done|congruence|lia].
  - by exists (Return pr), w1.
  - by exists (Throw e), w1.
Qed.

Lemma parse_readout_contents_ok is_eth w :
  world_inv w →
  ∃ r w', parse_readout_contents is_eth w = Some (r, w') ∧ contents_result r w' ∧ world_inv w'
    ∧ readoutStructure (w_state w') = readoutStructure (w_state w)
    ∧ zlen (w_input w') ≤ zlen (w_input w).
Proof.
  intros Hw. apply contents_loop_ok; [done|]. pose proof (measure_range w). unfold zlen in *. lia.
Qed.

(** ** Buffers *)

Lemma usb_loop_ok w :
  world_inv w →
  ∃ r w', usb_loop (S (length (w_input w))) w = Some (r, w') ∧ contents_result r w' ∧ world_inv w'
    ∧ readoutStructure (w_state w') = readoutStructure (w_state w).
Proof.
  intros Hw. cbn [usb_loop]. destruct (w_input w) as [|h rest] eqn:Hi.
  { exists (Return Ok), w. split_and!; [done|by left|done|done]. }
  destruct (parse_readout_contents_ok false w Hw) as (r & w1 & Hp & Hr & Hw1 & Hst & Hz).
  rewrite Hp. destruct r as [pr|e|]; [|by eexists _, _|done].
  destruct Hr as [[-> Hi1]|Hr].
  - rewrite bool_decide_eq_true_2 by done. cbn [negb length usb_loop map_counters w_input].
    rewrite Hi1. eexists _, _. split_and!; [done|by left|by destruct Hw1|done].
  - pose proof (contents_error_not_Ok pr Hr).
    rewrite bool_decide_eq_false_2 by done. cbn [negb].
    eexists _, _. split_and!; [done|by right| |done].
    destruct Hw1 as [(Hb & _) Hs Hc].
    apply (cleared_world_inv (map_counters (count_parse_result pr) w1)) in Hs; try done.
    by destruct Hs.
Qed.

Lemma packet_loop_ok fuel w :
  world_inv w → (length (w_input w) < fuel)%nat →
  ∃ r w', packet_loop fuel w = Some (r, w') ∧ contents_result r w'
    ∧ world_inv w' ∧ readoutStructure (w_state w') = readoutStructure (w_state w).
Proof.
  intros Hw Hfuel. destruct fuel as [|fuel]; [lia|].
  cbn [packet_loop]. destruct (w_input w) as [|h rest] eqn:Hi.
  { exists (Return Ok), w. split_and!; [done|by left|done|done]. }
  destruct (parse_readout_contents_ok true w Hw) as (r & w1 & Hp & Hr & Hw1 & Hst & Hz).
  rewrite Hp. destruct r as [pr|e|]; [|by eexists _, _|done].
  destruct Hr as [[-> Hi1]|Hr].
  - rewrite bool_decide_eq_true_2 by done. cbn [negb].
    rewrite Hi1, zlen_nil, zlen_cons. pose proof (zlen_nonneg rest).
    destruct (Z.eqb_spec 0 (1 + zlen rest)); [lia|].
    cbn [length] in Hfuel. destruct fuel as [|fuel]; [lia|].
    cbn [packet_loop]. rewrite Hi1. eexists _, _. split_and!; [done|by left|done|done].
  - pose proof (contents_error_not_Ok pr Hr).
    rewrite bool_decide_eq_false_2 by done. cbn [negb].
    eexists _, _. split_and!; [done|by right|done|done].
Qed.

End Bounded.

Lemma contents_result_input r w w' :
  contents_result r w → w_input w' = w_input w → contents_result r w'.
Proof. intros Hr Hi. destruct r; try done. cbn in *. by rewrite Hi. Qed.

(** The state components that do not take part in the invariant. *)
Lemma world_inv_same_event B w f :
  world_inv B w →
  (∀ s, workBuffer (f s) = workBuffer s ∧ readoutDataSpans (f s) = readoutDataSpans s
        ∧ moduleDataBuffer (f s) = moduleDataBuffer s
        ∧ readoutStructure (f s) = readoutStructure s ∧ eventIndex (f s) = eventIndex s
        ∧ moduleIndex (f s) = moduleIndex s ∧ groupParseState (f s) = groupParseState s
        ∧ curStackFrame (f s) = curStackFrame s ∧ curBlockFrame (f s) = curBlockFrame s) →
  world_inv B (map_state f w).
Proof.
  intros [(Hb & Hh & Hblk & Hev) Hs Hc] Hf.
  destruct (Hf (w_state w)) as (E1 & E2 & E3 & E4 & E5 & E6 & E7 & E8 & E9).
  split; cbn; [|by rewrite E1|by rewrite E4].
  unfold parser_inv, block_inv, idle, at_nonempty. rewrite E5, E6, E7, E8, E9.
  split_and!; [|done|done|].
  - destruct Hb. split; rewrite ?E1, ?E2, ?E3, ?E4, ?E8, ?E9; done.
  - destruct Hev as [Hi|(mods & Hev & Hne)]; [by left|right]. exists mods. split; [|done].
    destruct Hev. split; rewrite ?E1, ?E2, ?E4, ?E5, ?E6; done.
Qed.

Lemma cleared_inv B w : world_inv B w → world_inv B (map_state parser_clear_event_state w).
Proof. intros [(Hb & _) Hs Hc]. by apply cleared_world_inv. Qed.

Lemma check_packet_loss_inv B n w :
  world_inv B w → world_inv B (check_packet_loss n w)
  ∧ w_input (check_packet_loss n w) = w_input w
  ∧ readoutStructure (w_state (check_packet_loss n w)) = readoutStructure (w_state w)
  ∧ workBuffer (w_state (check_packet_loss n w)) = workBuffer (w_state w).
Proof.
  intros Hw. unfold check_packet_loss. split; [|by destruct (_ && _)].
  apply world_inv_same_event; [|done].
  destruct (_ && _); [|done]. by apply world_inv_counters, cleared_inv.
Qed.

Lemma check_buffer_loss_inv B b n w :
  world_inv B w → world_inv B (check_buffer_loss b n w)
  ∧ readoutStructure (w_state (check_buffer_loss b n w)) = readoutStructure (w_state w)
  ∧ workBuffer (w_state (check_buffer_loss b n w)) = workBuffer (w_state w).
Proof.
  intros Hw. unfold check_buffer_loss. split; [|by destruct (negb _), b].
  assert (world_inv B (map_state (set_lastBufferNumber n) w)) by (by apply world_inv_same_event).
  destruct (negb _); [|done]. apply world_inv_same_event; [|by destruct b].
  by apply world_inv_counters, cleared_inv.
Qed.

Lemma check_buffer_loss_input b n l w :
  check_buffer_loss b n (with_input l w) = with_input l (check_buffer_loss b n w).
Proof. unfold check_buffer_loss. cbn [with_input w_state map_state]. by destruct (negb _). Qed.

(** The results of the buffer functions. *)
Definition eth_error (pr : ParseResult) : Prop :=
  contents_error pr ∨ pr = NoHeaderPresent ∨ pr = UnhandledException.

Definition packet_result (r : outcome ParseResult) : Prop :=
  match r with
  | Return pr => pr = Ok ∨ eth_error pr
  | Throw e => e = end_of_buffer
  | Undefined => False
  end.

Lemma contents_packet_result r w : contents_result r w → packet_result r.
Proof. destruct r; [|done|done]. unfold packet_result, eth_error. intros [[-> _]|?]; auto. Qed.

Lemma parse_eth_packet_ok B w :
  B ≤ 2 ^ 32 → world_inv B w →
  ∃ r w', parse_eth_packet w = Some (r, w') ∧ world_inv B w' ∧ packet_result r
    ∧ readoutStructure (w_state w') = readoutStructure (w_state w).
Proof.
  intros HB Hw. unfold parse_eth_packet.
  destruct (w_input w) as [|h0 [|h1 contents]] eqn:Hi; [by eexists _, _..|].
  assert (Hz : zlen contents ≤ zlen (w_input w)) by (rewrite Hi, !zlen_cons; lia).
  pose proof (world_inv_shrink B w contents Hw Hz) as Hw1.
  destruct (is_event_in_progress _).
  { destruct (packet_loop_ok B HB (S (length contents)) _ Hw1) as (r & w' & Hp & Hr & Hw' & Hst);
      [cbn; lia|]. exists r, w'. eauto using contents_packet_result. }
  destruct (negb _).
  { eexists _, _. split_and!; [done|done| |done]. unfold packet_result, eth_error. auto. }
  destruct (_ <? _); [by eexists _, _|].
  edestruct (packet_loop_ok B HB (S (length contents))) as (r & w' & Hp & Hr & Hw' & Hst);
    [| |exists r, w'; split_and!; [exact Hp|done|by eapply contents_packet_result|done]].
  - apply world_inv_counters. apply (world_inv_shrink B _ _ Hw1). apply zlen_drop_le.
  - cbn -[nextHeaderPointer]. unfold zdrop. rewrite length_drop. lia.
Qed.

Lemma finish_packet_ok B r input packetWords result w :
  packet_result r → (result = Ok ∨ eth_error result) →
  world_inv B (with_input (zdrop packetWords input) w) →
  let r' := finish_packet r input packetWords result w in
  (r'.1 = Ok ∨ eth_error r'.1) ∧ world_inv B r'.2
  ∧ w_input r'.2 = zdrop packetWords input
  ∧ readoutStructure (w_state r'.2) = readoutStructure (w_state w).
Proof.
  intros Hr Hres Hw r'. subst r'.
  assert (Hcl : ∀ f, world_inv B (with_input (zdrop packetWords input)
    (map_counters f (map_state parser_clear_event_state w)))).
  { intros f. apply cleared_inv in Hw. by destruct Hw. }
  assert (Hu : eth_error UnhandledException) by (unfold eth_error; auto).
  destruct r as [pr|e|]; [|cbn in Hr; subst e|done]; unfold finish_packet.
  - destruct (decide (pr = Ok)) as [->|Hne].
    + split_and!; try done. by destruct Hw.
    + assert (eth_error pr) by (by destruct Hr).
      destruct pr; try done; (split_and!; [|apply (Hcl (λ c, _))|done|done]);
        cbn [fst]; destruct (bool_decide_reflect (result = Ok)); destruct Hres; auto.
  - split_and!; [|apply (Hcl (λ c, _))|done|done].
    cbn [fst]; destruct (bool_decide_reflect (result = Ok)); destruct Hres; auto.
Qed.

(** The invariant with the packet as the input, and back. *)
Lemma packet_world_inv B w pw :
  world_inv B w → B ≤ 2 ^ 32 → 0 ≤ pw ≤ zlen (w_input w) →
  let B' := wb_used (workBuffer (w_state w)) + pw + 1 in
  B' ≤ 2 ^ 32 ∧ world_inv B' (with_input (ztake pw (w_input w)) w).
Proof.
  intros [Hp Hs Hc] HB Hpw B'. split; [lia|]. split; [done| |done].
  cbn [with_input w_state w_input]. rewrite zlen_ztake by done. lia.
Qed.

Lemma after_packet_inv B B' w w' pw :
  world_inv B w → 0 ≤ pw ≤ zlen (w_input w) →
  B' = wb_used (workBuffer (w_state w)) + pw + 1 → world_inv B' w' →
  world_inv B (with_input (zdrop pw (w_input w)) w').
Proof.
  intros [_ Hs _] Hpw -> [Hp' Hs' Hc']. split; [done| |done].
  pose proof (zlen_nonneg (w_input w')). cbn [with_input w_state w_input].
  rewrite zlen_zdrop by done. lia.
Qed.

Lemma dataWordCount_nonneg i : 0 ≤ dataWordCount i.
Proof. unfold dataWordCount. apply Z.mod_pos_bound. lia. Qed.

Lemma eth_loop_ok B fuel result w :
  B ≤ 2 ^ 32 → world_inv B w → (length (w_input w) < fuel)%nat → (result = Ok ∨ eth_error result) →
  ∃ r w', eth_loop fuel result w = Some (r, w') ∧ world_inv B w' ∧ packet_result r
    ∧ readoutStructure (w_state w') = readoutStructure (w_state w).
Proof.
  intros HB. revert result w; induction fuel as [|fuel IH]; intros result w Hw Hf Hres; [lia|].
  cbn [eth_loop]. destruct (w_input w) as [|h rest] eqn:Hi; [by eexists _, _|].
  rewrite (try_handle_system_event_eq w h rest Hi).
  destruct (Z.eqb_spec (get_frame_type h) frame_headers.SystemEvent) as [Ht|Ht].
  { destruct (Z.leb_spec (zlen (w_input w)) (fi_len (extract_frame_info h))); [by eexists _, _|].
    destruct (system_event_taken_inv B w h rest Hw Hi Ht ltac:(done)) as [Hw1 Hz1].
    destruct (IH result _ Hw1) as (r & w' & Hl & Hw' & Hr & Hst); [|done|by exists r, w'].
    rewrite <- Hi in Hf. unfold zlen in Hz1. lia. }
  rewrite Hi. destruct rest as [|h1 rest]; [by eexists _, _|].
  set (hdrs := mkPayloadHeaderInfo h h1). cbv zeta. rewrite <- Hi.
  set (pw := eth.HeaderWords + dataWordCount hdrs).
  pose proof (dataWordCount_nonneg hdrs).
  assert (Hpw : 2 ≤ pw) by (subst pw; unfold eth.HeaderWords; lia).
  destruct (Z.ltb_spec (zlen (w_input w)) pw); [by eexists _, _|].
  destruct (check_packet_loss_inv B (packetNumber hdrs) w Hw) as (Hw2 & Hi2 & Hst2 & _).
  set (w2 := check_packet_loss _ _) in *.
  destruct (packet_world_inv B w2 pw Hw2 HB ltac:(rewrite Hi2; lia)) as [HB' Hw2'].
  rewrite Hi2 in Hw2'.
  destruct (parse_eth_packet_ok _ _ HB' Hw2') as (r & w3 & Hp & Hw3 & Hr & Hst3). rewrite Hp.
  assert (Hw3' := after_packet_inv B _ w2 w3 pw Hw2 ltac:(rewrite Hi2; lia) eq_refl Hw3).
  rewrite Hi2 in Hw3'.
  destruct (finish_packet_ok B r (w_input w) pw result w3 Hr Hres Hw3')
    as (Hres' & Hw4 & Hi4 & Hst4).
  assert (Hlen : (length (zdrop pw (w_input w)) < fuel)%nat).
  { unfold zdrop. rewrite length_drop. rewrite <- Hi in Hf. unfold zlen in *. lia. }
  destruct (finish_packet r (w_input w) pw result w3) as [result' w4] eqn:Efin.
  cbn [fst snd] in Hres', Hw4, Hi4, Hst4.
  destruct (IH result' w4 Hw4 ltac:(by rewrite Hi4) Hres') as (r' & w' & Hl & Hw' & Hr' & Hst').
  assert (Hst5 : readoutStructure (w_state w') = readoutStructure (w_state w)).
  { rewrite Hst', Hst4, Hst3. exact Hst2. }
  destruct r as [pr|e|]; [|by exists r', w'|done]. by exists r', w'.
Qed.

(** What [parse_readout_buffer] returns. *)
Definition buffer_result (pr : ParseResult) : Prop :=
  pr = Ok ∨ eth_error pr ∨ pr = UnexpectedEndOfBuffer ∨ pr = UnknownBufferType.

Lemma parse_readout_buffer_typed_ok B ty n buffer w :
  B ≤ 2 ^ 32 → world_inv B (with_input buffer w) →
  ∃ pr w', parse_readout_buffer_typed ty n buffer w = Some (Return pr, w')
    ∧ buffer_result pr ∧ world_inv B w'
    ∧ readoutStructure (w_state w') = readoutStructure (w_state w).
Proof.
  intros HB Hw. unfold parse_readout_buffer_typed, buffer_result.
  assert (Hcl : ∀ b, world_inv B (with_input buffer (check_buffer_loss b n w))
    ∧ readoutStructure (w_state (check_buffer_loss b n w)) = readoutStructure (w_state w)).
  { intros b. destruct (check_buffer_loss_inv B b n _ Hw) as (H1 & H2 & H3).
    rewrite check_buffer_loss_input in H1, H2. done. }
  destruct ty.
  - destruct (Hcl false) as [Hw1 Hst1]. unfold parse_readout_buffer_usb.
    destruct (usb_loop_ok B HB _ Hw1) as (r & w' & Hl & Hr & Hw' & Hst).
    cbn [with_input w_input] in Hl. rewrite Hl. apply contents_packet_result in Hr as Hr'.
    destruct r as [pr|e|]; [|cbn in Hr; subst e|done].
    + destruct (bool_decide_reflect (pr = Ok)) as [->|Hne].
      * eexists _, _. split_and!; [done|by left|by destruct Hw'|by rewrite <- Hst1].
      * eexists _, _. split_and!; [done|destruct Hr'; auto|done|by rewrite <- Hst1].
    + eexists _, _. split_and!; [done|auto|by apply cleared_inv in Hw'; destruct Hw'|by rewrite <- Hst1].
  - destruct (Hcl true) as [Hw1 Hst1]. unfold parse_readout_buffer_eth.
    destruct (eth_loop_ok B (S (length buffer)) Ok _ HB Hw1) as (r & w' & Hl & Hw' & Hr & Hst);
      [cbn; lia|by left|]. rewrite Hl.
    destruct r as [pr|e|]; [|cbn in Hr; subst e|done].
    + eexists _, _. split_and!; [done|destruct Hr; auto|by destruct Hw'|by rewrite <- Hst1].
    + eexists _, _. split_and!; [done|auto|by apply cleared_inv in Hw'; destruct Hw'|by rewrite <- Hst1].
Qed.
