(* ===== verification/ParserFacts.v ===== *)
(** * Properties of the readout parser

    Safety over whole runs, the readout structure built from command stacks, and
    the handling of buffer loss, system events and 2eSST fill words. *)

From S2P Require Import Prelude Constants Frames FramesFacts Commands ReadoutParser ParserSteps.
From S2P Require Import ParserSafety.

(** ** The readout structure *)

(** The parts of a module stay in the 8-bit range. *)
Lemma parse_module_command_parts b m cmd m' :
  parts_ok (mp_parts m) → parse_module_command b m cmd = Return m' → parts_ok (mp_parts m').
Proof.
  intros [H1 H2] H. unfold parse_module_command in H.
  assert (Hu : ∀ z, is_u8 (u8 z)) by (intros; apply Z.mod_pos_bound; lia).
  assert (Hc : ∀ n, parts_ok (mp_parts (count_fixed_words n m))).
  { intros n. unfold count_fixed_words.
    destruct (mp_state m); (split; [try done; apply Hu|try done; apply Hu]). }
  destruct (_ || _); [by simplify_eq|].
  destruct (is_read_command cmd).
  { destruct (mp_state m); by simplify_eq. }
  destruct (sc_type cmd); by simplify_eq.
Qed.

Lemma parse_module_commands_parts b cmds m m' :
  parts_ok (mp_parts m) → parse_module_commands b m cmds = Return m' → parts_ok (mp_parts m').
Proof.
  revert m; induction cmds as [|c cmds IH]; intros m Hm H; [by injection H as <-|].
  apply outcome_bind_Return in H as (m1 & H1 & H2).
  eapply IH; [|done]. by eapply parse_module_command_parts.
Qed.

Lemma build_group_structures_parts gs mods :
  build_group_structures gs = Return mods → Forall parts_ok mods.
Proof.
  revert mods; induction gs as [|g gs IH]; intros mods H; [by injection H as <-|].
  apply outcome_bind_Return in H as (s & H1 & H).
  apply outcome_bind_Return in H as (ss & H2 & [= <-]).
  constructor; [|by apply IH].
  apply outcome_bind_Return in H1 as (m & H1 & [= <-]).
  apply parse_module_commands_parts in H1; [done|]. by split.
Qed.

Lemma build_readout_structure_parts stacks st :
  build_readout_structure stacks = Return st → Forall (Forall parts_ok) st.
Proof.
  revert st; induction stacks as [|b stacks IH]; intros st H; [by injection H as <-|].
  apply outcome_bind_Return in H as (mods & H1 & H).
  apply outcome_bind_Return in H as (rest & H2 & [= <-]).
  constructor; [|by apply IH]. by eapply build_group_structures_parts.
Qed.

Lemma foldl_max_ge {A} (l : list (list A)) n :
  (n ≤ foldl (λ m g, Nat.max m (length g)) n l)%nat.
Proof. revert n; induction l as [|g l IH]; intros n; [done|]. cbn. etrans; [|apply IH]. lia. Qed.

Lemma foldl_max_lookup {A} (l : list (list A)) n i g :
  l !! i = Some g → (length g ≤ foldl (λ m g, Nat.max m (length g)) n l)%nat.
Proof.
  revert n i; induction l as [|g' l IH]; intros n i Hi; [done|]. cbn.
  destruct i as [|i]; [|by apply (IH _ i)]. injection Hi as <-.
  etrans; [|apply foldl_max_ge]. lia.
Qed.

Lemma initial_parser_inv stacks s :
  make_readout_parser stacks = Return s → parser_inv s ∧ wb_used (workBuffer s) = 0.
Proof.
  intros H. apply outcome_bind_Return in H as (st & Hst & H).
  cbv zeta in H. set (wb := ensure_free_space _ _) in H.
  assert (Hwb : wb_used wb = 0) by (subst wb; by rewrite ensure_free_space_used).
  injection H as <-. split; [|exact Hwb]. split_and!; [|done|done|by left].
  split; cbn -[Z.pow new_frame]; [|rewrite Hwb; pose proof (zlen_nonneg (wb_buffer wb)); lia
    |apply new_frame_range|apply new_frame_range].
  intros i mods Hi. rewrite !length_replicate.
  pose proof (foldl_max_lookup _ 0%nat _ _ Hi). split; [lia|].
  by eapply (Forall_lookup_1 _ _ _ _ (build_readout_structure_parts _ _ Hst)).
Qed.

(** ** Runs *)

(** A sequence of numbered buffers, parsed one after the other. *)
Fixpoint parse_buffers (buffers : list (Z * list Z)) (w : World)
  : option (outcome (list ParseResult) * World) :=
  match buffers with
  | [] => Some (Return [], w)
  | (n, buffer) :: rest =>
      match parse_readout_buffer n buffer w with
      | Some (Return pr, w1) =>
          match parse_buffers rest w1 with
          | Some (Return prs, w2) => Some (Return (pr :: prs), w2)
          | r => r
          end
      | Some (Throw e, w1) => Some (Throw e, w1)
      | Some (Undefined, w1) => Some (Undefined, w1)
      | None => None
      end
  end.

Definition total_words (buffers : list (Z * list Z)) : Z :=
  foldr (λ b n, zlen b.2 + n) 0 buffers.

Lemma parse_readout_buffer_ok B n buffer w :
  B ≤ 2 ^ 32 → world_inv B (with_input buffer w) →
  ∃ pr w', parse_readout_buffer n buffer w = Some (Return pr, w')
    ∧ buffer_result pr ∧ world_inv B (with_input [] w')
    ∧ readoutStructure (w_state w') = readoutStructure (w_state w).
Proof.
  intros HB Hw. unfold parse_readout_buffer. destruct (detect_buffer_type buffer) as [ty|].
  - destruct (parse_readout_buffer_typed_ok B ty n buffer w HB Hw) as (pr & w' & H1 & H2 & H3 & H4).
    exists pr, w'. split_and!; try done. apply world_inv_shrink; [done|]. apply zlen_nonneg.
  - eexists _, w. split_and!; [done|unfold buffer_result; auto| |done].
    apply (world_inv_shrink B _ []) in Hw; [done|]. apply zlen_nonneg.
Qed.

Lemma parse_buffers_ok buffers w :
  parser_inv (w_state w) →
  Forall (callback_ok (readoutStructure (w_state w))) (w_callbacks w) →
  wb_used (workBuffer (w_state w)) + total_words buffers < 2 ^ 32 →
  ∃ prs w', parse_buffers buffers w = Some (Return prs, w')
    ∧ length prs = length buffers ∧ Forall buffer_result prs
    ∧ parser_inv (w_state w')
    ∧ readoutStructure (w_state w') = readoutStructure (w_state w)
    ∧ Forall (callback_ok (readoutStructure (w_state w))) (w_callbacks w').
Proof.
  revert w; induction buffers as [|[n buffer] buffers IH]; intros w Hp Hc Hs.
  { by exists [], w. }
  cbn [parse_buffers]. cbn [total_words foldr snd] in Hs. fold (total_words buffers) in Hs.
  assert (0 ≤ total_words buffers).
  { clear. induction buffers as [|b l IH]; [done|]. cbn. fold (total_words l).
    pose proof (zlen_nonneg b.2). lia. }
  set (B := wb_used (workBuffer (w_state w)) + zlen buffer + 1).
  destruct (parse_readout_buffer_ok B n buffer w) as (pr & w1 & H1 & H2 & [Hp1 Hs1 Hc1] & H4);
    [lia|by split; [|cbn; lia|]|].
  rewrite H1. destruct (IH w1) as (prs & w' & H5 & H6 & H7 & H8 & H9 & H10).
  - done.
  - done.
  - cbn in Hs1. unfold zlen in Hs1 at 1. cbn in Hs1. lia.
  - rewrite H5. eexists _, _. split_and!; [done|by cbn; rewrite H6|by constructor|done|congruence|].
    by rewrite <- H4.
Qed.

(** C2: The parser survives every input.  For a parser made from any readout
    stacks and any sequence of numbered buffers with arbitrary contents (at most
    2^32 words in total), every call of [parse_readout_buffer] returns a parse
    result: the loops end, no container is accessed out of bounds, no exception
    escapes, and the results that stand for a parser that does not advance, for a
    module index out of range or for a header that is not a stack frame do not
    occur.  The parser invariant holds afterwards. *)
Theorem parser_run_safe stacks s buffers :
  make_readout_parser stacks = Return s → total_words buffers < 2 ^ 32 →
  ∃ prs w', parse_buffers buffers (initial_world s) = Some (Return prs, w')
    ∧ length prs = length buffers ∧ Forall buffer_result prs ∧ parser_inv (w_state w').
Proof.
  intros Hm Hs. destruct (initial_parser_inv stacks s Hm) as [Hp Hu].
  destruct (parse_buffers_ok buffers (initial_world s)) as (prs & w' & ? & ? & ? & ? & ? & ?);
    [done|constructor|cbn [initial_world w_state]; lia|by exists prs, w'].
Qed.

Definition example_stack : StackCommandBuilder :=
  addGroup "m0" [cmd_of_type WriteMarker; set_amod vme_amods.BLT32 (cmd_of_type VMERead);
                 cmd_of_type WriteMarker] ∅ empty_builder.

Lemma parser_run_safe_witness :
  ∃ s prs w', make_readout_parser [example_stack] = Return s
    ∧ parse_buffers [(1, [0xF3010005; 1; 0xF5000002; 10; 11; 3]); (7, [0xF3020001; 0])]
        (initial_world s) = Some (Return prs, w')
    ∧ length prs = 2%nat ∧ Forall buffer_result prs ∧ parser_inv (w_state w').
Proof.
  eexists. edestruct (parser_run_safe [example_stack]) as (prs & w' & H);
    [reflexivity|shelve|exists prs, w'; split; [reflexivity|exact H]].
  Unshelve. done.
Defined.

(** C3: Whatever bytes arrive, what the callbacks get is well formed.  Every
    [eventData] call names an event of the readout configuration and passes one
    [ModuleData] per module of that event; each one passes
    [size_consistency_check] and all its words lie inside of the parser's work
    buffer; and unless the event came from an empty stack frame, the prefix and
    suffix have exactly the configured sizes.  Every [systemEvent] call gets a
    system event header followed by as many words as the header announces. *)
Theorem parser_callbacks_consistent stacks s buffers prs w' :
  make_readout_parser stacks = Return s → total_words buffers < 2 ^ 32 →
  parse_buffers buffers (initial_world s) = Some (Return prs, w') →
  Forall (callback_ok (readoutStructure s)) (w_callbacks w').
Proof.
  intros Hm Hs Hr. destruct (initial_parser_inv stacks s Hm) as [Hp Hu].
  destruct (parse_buffers_ok buffers (initial_world s)) as (prs' & w1 & H1 & ? & ? & ? & ? & H2);
    [done|constructor|cbn [initial_world w_state]; lia|].
  rewrite Hr in H1. by injection H1 as <- <-.
Qed.

Definition example_buffers : list (Z * list Z) := [(1, [0xF3010005; 1; 0xF5000002; 10; 11; 3])].

Lemma parser_callbacks_consistent_witness :
  ∃ s prs w', make_readout_parser [example_stack] = Return s
    ∧ parse_buffers example_buffers (initial_world s) = Some (Return prs, w')
    ∧ w_callbacks w' = [EventData 0 0 [mkModuleData [1; 10; 11; 3] 4 1 2 1 true]]
    ∧ Forall (callback_ok (readoutStructure s)) (w_callbacks w').
Proof.
  destruct (make_readout_parser [example_stack]) as [s|e|] eqn:Hm; [|done|done].
  destruct (initial_parser_inv _ s Hm) as [Hp Hu].
  destruct (parse_buffers_ok example_buffers (initial_world s)) as (prs & w' & H1 & _);
    [done|constructor|cbn [initial_world w_state]; rewrite Hu; reflexivity|].
  exists s, prs, w'. split_and!; [done|done| |].
  - assert (Hc : (r ← parse_buffers example_buffers (initial_world s); Some (w_callbacks r.2))
      = Some [EventData 0 0 [mkModuleData [1; 10; 11; 3] 4 1 2 1 true]])
      by (injection Hm as <-; vm_compute; reflexivity).
    rewrite H1 in Hc. by injection Hc.
  - by apply (parser_callbacks_consistent [example_stack] s example_buffers prs).
Defined.

(** ** Buffer loss *)

(** The number of lost buffers is the distance of the buffer numbers minus
    one, modulo 2^32: it is 0 exactly if the buffer follows the last one, wraps
    around with the counter, and a repeated number counts as 2^32 - 1 lost
    buffers. *)
Theorem calc_buffer_loss_mod n last :
  is_u32 n → is_u32 last → calc_buffer_loss n last = (n - last - 1) mod 2 ^ 32.
Proof.
  intros [H1 H2] [H3 H4]. unfold calc_buffer_loss, u32.
  destruct (Z.ltb_spec ((n - last) mod 2 ^ 32) 1) as [H|H]; zlia.
Qed.

Lemma calc_buffer_loss_mod_witness : calc_buffer_loss 0 0xffffffff = 0 ∧ calc_buffer_loss 5 2 = 2.
Proof.
  rewrite !calc_buffer_loss_mod by (unfold is_u32; lia). done.
Defined.

Lemma clear_event_idempotent s :
  parser_clear_event_state (parser_clear_event_state s) = parser_clear_event_state s.
Proof. done. Qed.

(** After buffer loss the words collected for an unfinished event have no
    influence: parsing a buffer whose number does not follow the last one gives
    the same result, callbacks, counters and state as parsing it with the event
    state cleared beforehand, for USB and for ETH buffers. *)
Theorem buffer_loss_drops_event ty n buffer w :
  calc_buffer_loss n (lastBufferNumber (w_state w)) ≠ 0 →
  parse_readout_buffer_typed ty n buffer w =
  parse_readout_buffer_typed ty n buffer (map_state parser_clear_event_state w).
Proof.
  intros Hl.
  assert (Hc : ∀ b, check_buffer_loss b n w
                    = check_buffer_loss b n (map_state parser_clear_event_state w)).
  { intros b. unfold check_buffer_loss.
    change (lastBufferNumber (w_state (map_state parser_clear_event_state w)))
      with (lastBufferNumber (w_state w)).
    destruct (Z.eqb_spec (calc_buffer_loss n (lastBufferNumber (w_state w))) 0); done. }
  unfold parse_readout_buffer_typed, parse_readout_buffer_eth, parse_readout_buffer_usb.
  by rewrite !Hc.
Qed.

Lemma buffer_loss_drops_event_witness :
  ∃ s, make_readout_parser [example_stack] = Return s
    ∧ let w := map_state (set_eventIndex 0) (initial_world s) in
      parse_readout_buffer_typed USB 3 [0xF3010000] w
      = parse_readout_buffer_typed USB 3 [0xF3010000] (map_state parser_clear_event_state w).
Proof.
  destruct (make_readout_parser [example_stack]) as [s|e|] eqn:Hm; [|done|done].
  exists s. split; [done|]. apply buffer_loss_drops_event.
  by injection Hm as <-.
Defined.

(** ** System events *)

Lemma system_event_iteration w h contents rest :
  fps_wordsLeft (curStackFrame (w_state w)) = 0 →
  fps_wordsLeft (curBlockFrame (w_state w)) = 0 →
  get_frame_type h = frame_headers.SystemEvent → zlen contents = get_frame_length h →
  w_input w = h :: contents ++ rest →
  parse_iteration false w = (Continue_, system_event_taken h w)
  ∧ system_event_taken h w =
    mkWorld (w_state w)
       (set_systemEvents (inc_at (systemEvents (w_counters w))
          (Z.to_nat (system_event.extract_subtype h))) (w_counters w))
       (w_callbacks w ++ [SystemEvent (fi_ctrl (extract_frame_info h)) (h :: contents)]) rest.
Proof.
  intros Hs Hb Ht Hl Hi. unfold get_frame_length in Hl.
  assert (Hlen : fi_len (extract_frame_info h) < zlen (w_input w)).
  { rewrite Hi, zlen_cons, zlen_app. pose proof (zlen_nonneg rest). lia. }
  split.
  - unfold parse_iteration. rewrite bind_get_input. unfold mbind at 1, PM_bind at 1.
    unfold find_stack_frame. rewrite bind_get_state. unfold fps_bool. rewrite Hs, Hb.
    cbn [negb Z.eqb]. rewrite when_true.
    pose proof (try_handle_system_event_eq w h _ Hi) as He. rewrite Ht, Z.eqb_refl in He.
    destruct (Z.leb_spec (zlen (w_input w)) (fi_len (extract_frame_info h))); [lia|].
    by rewrite (bind_Go _ _ _ _ _ He).
  - unfold system_event_taken, with_input. cbn -[extract_frame_info]. rewrite <- Hl, Hi.
    pose proof (zlen_nonneg contents).
    replace (zlen contents + 1) with (zlen (h :: contents)) by (rewrite zlen_cons; lia).
    change (h :: contents ++ rest) with ((h :: contents) ++ rest).
    by rewrite ztake_app, zdrop_app.
Qed.

(** In USB buffers system events are transparent to event parsing.  At a frame
    boundary, also between the frames of a split event, a system event is handed
    to the callback as a whole and parsing continues behind it with the event
    state untouched. *)
Theorem system_event_transparent fuel w h contents rest :
  fps_wordsLeft (curStackFrame (w_state w)) = 0 →
  fps_wordsLeft (curBlockFrame (w_state w)) = 0 →
  get_frame_type h = frame_headers.SystemEvent → zlen contents = get_frame_length h →
  w_input w = h :: contents ++ rest →
  contents_loop (S fuel) false w =
  contents_loop fuel false
    (mkWorld (w_state w)
       (set_systemEvents (inc_at (systemEvents (w_counters w))
          (Z.to_nat (system_event.extract_subtype h))) (w_counters w))
       (w_callbacks w ++ [SystemEvent (fi_ctrl (extract_frame_info h)) (h :: contents)]) rest).
Proof.
  intros Hs Hb Ht Hl Hi. cbn [contents_loop]. rewrite Hi.
  destruct (system_event_iteration w h contents rest Hs Hb Ht Hl Hi) as [-> <-]. done.
Qed.

Lemma system_event_transparent_witness :
  ∃ s, make_readout_parser [example_stack] = Return s
    ∧ let w := with_input [0xFA022001; 42; 0xF3010000] (initial_world s) in
      contents_loop 9 false w =
      contents_loop 8 false
        (mkWorld s (set_systemEvents (inc_at (systemEvents new_counters) 0x11) new_counters)
           [SystemEvent 0 [0xFA022001; 42]] [0xF3010000]).
Proof.
  destruct (make_readout_parser [example_stack]) as [s|e|] eqn:Hm; [|done|done].
  exists s. split; [done|].
  apply (system_event_transparent 8 (with_input [0xFA022001; 42; 0xF3010000] (initial_world s))
           0xFA022001 [42] [0xF3010000]); try done; by injection Hm as <-.
Defined.

(** ** Counting the words of a module *)

(** A command that produces exactly one word outside of accumulator loops. *)
Definition single_word_command (cmd : StackCommand) : bool :=
  (is_read_command cmd && negb (vme_amods.is_block_mode (sc_amod cmd)))
  || bool_decide (sc_type cmd = WriteMarker)
  || bool_decide (sc_type cmd = WriteSpecial).

Definition block_command (cmd : StackCommand) : bool :=
  is_read_command cmd && vme_amods.is_block_mode (sc_amod cmd).

Lemma parse_single_word_commands b cmds m :
  Forall (λ c, single_word_command c = true) cmds → mp_accumulatorActive m = false →
  parse_module_commands b m cmds = Return (foldl (λ m _, count_fixed_words 1 m) m cmds).
Proof.
  intros Hc. revert m; induction Hc as [|c cmds Hc Hcs IH]; intros m Ha; [done|].
  cbn [parse_module_commands foldl]. unfold parse_module_command at 1.
  rewrite Ha. cbn [negb]. rewrite andb_true_r. fold (single_word_command c). rewrite Hc.
  apply IH. unfold count_fixed_words. by destruct (mp_state m).
Qed.

Lemma u8_add_idemp a n : u8 (u8 a + n) = u8 (a + n).
Proof. unfold u8. by rewrite Z.add_mod_idemp_l. Qed.

Lemma count_prefix_words (cmds : list StackCommand) p a :
  foldl (λ m _, count_fixed_words 1 m) (mkMP Prefix p a) cmds
  = mkMP Prefix (if bool_decide (cmds = []) then p else add_prefixLen (zlen cmds) p) a.
Proof.
  revert p; induction cmds as [|c cmds IH]; intros p; [done|].
  cbn [foldl]. cbn [count_fixed_words mp_state mp_parts mp_accumulatorActive].
  rewrite IH. f_equal. destruct cmds as [|c' cmds']; [done|].
  cbn [bool_decide]. unfold add_prefixLen. cbn [prefixLen suffixLen hasDynamic mrs_name
    mrs_commands mrs_meta isMesytecAndUsing2eSST]. rewrite u8_add_idemp, (zlen_cons c).
  by rewrite Z.add_assoc.
Qed.

Lemma count_suffix_words (cmds : list StackCommand) p a g :
  g ≠ Prefix →
  mp_parts (foldl (λ m _, count_fixed_words 1 m) (mkMP g p a) cmds)
  = if bool_decide (cmds = []) then p else add_suffixLen (zlen cmds) p.
Proof.
  revert g p; induction cmds as [|c cmds IH]; intros g p Hg; [done|].
  cbn [foldl]. replace (count_fixed_words 1 (mkMP g p a)) with (mkMP Suffix (add_suffixLen 1 p) a)
    by (by destruct g).
  rewrite IH by done. destruct cmds as [|c' cmds']; [done|].
  cbn [bool_decide]. unfold add_suffixLen. cbn [prefixLen suffixLen hasDynamic mrs_name
    mrs_commands mrs_meta isMesytecAndUsing2eSST]. rewrite u8_add_idemp, (zlen_cons c).
  by rewrite Z.add_assoc.
Qed.

Lemma parse_module_commands_app b m l1 l2 :
  parse_module_commands b m (l1 ++ l2) =
    (m' ← parse_module_commands b m l1; parse_module_commands b m' l2).
Proof.
  revert m; induction l1 as [|c l1 IH]; intros m; [done|]. cbn [app parse_module_commands].
  destruct (parse_module_command b m c); [apply IH|done|done].
Qed.

Lemma block_command_step b m blk :
  block_command blk = true →
  parse_module_command b m blk =
    match mp_state m with
    | Prefix => Return (mkMP Dynamic (set_dynamic (b && vme_amods.is_esst64_mode (sc_amod blk))
                                        (mp_parts m)) false)
    | Dynamic => Throw (runtime_error "multiple block reads in module readout")
    | Suffix => Throw (runtime_error "block read inside the suffix part in module readout")
    end.
Proof.
  unfold block_command. intros Hb. breflect. unfold parse_module_command.
  rewrite H, H0. cbn [negb andb orb].
  assert (sc_type blk ≠ WriteMarker ∧ sc_type blk ≠ WriteSpecial) as [H1 H2].
  { unfold is_read_command in H. by destruct (sc_type blk). }
  by rewrite !bool_decide_eq_false_2.
Qed.

(** The shape of a module readout.  A group with some single-word commands, one
    block read and more single-word commands is parsed as a prefix, a dynamic part
    and a suffix whose lengths are the numbers of single-word commands, kept in
    eight bits: a module with 256 fixed words in a part is taken for one with none.
    The 2eSST flag is set exactly for mesytec modules read with an eSST64 mode. *)
Theorem module_structure_counts name pre blk post meta :
  Forall (λ c, single_word_command c = true) pre → block_command blk = true →
  Forall (λ c, single_word_command c = true) post →
  ∃ parts, parse_module_readout_commands (mkGroup name (pre ++ blk :: post) meta) = Return parts
    ∧ prefixLen parts = u8 (zlen pre) ∧ hasDynamic parts = true
    ∧ suffixLen parts = u8 (zlen post)
    ∧ isMesytecAndUsing2eSST parts
      = bool_decide (meta !! "vme_module_vendor"%string = Some "mesytec"%string)
        && vme_amods.is_esst64_mode (sc_amod blk).
Proof.
  intros Hpre Hblk Hpost. unfold parse_module_readout_commands. cbn [g_commands g_meta].
  rewrite parse_module_commands_app, parse_single_word_commands, count_prefix_words by done.
  cbn [mbind outcome_bind]. cbn [parse_module_commands]. rewrite block_command_step by done.
  cbn [mp_state mp_parts mbind outcome_bind].
  rewrite parse_single_word_commands by done. cbn [mbind outcome_bind].
  rewrite count_suffix_words by done. eexists. split; [reflexivity|].
  destruct pre, post; by cbn.
Qed.

Lemma module_structure_counts_witness :
  ∃ parts, parse_module_readout_commands
      (mkGroup "m" [cmd_of_type WriteMarker; set_amod vme_amods.BLT32 (cmd_of_type VMERead)] ∅)
        = Return parts
    ∧ prefixLen parts = 1 ∧ hasDynamic parts = true ∧ suffixLen parts = 0
    ∧ isMesytecAndUsing2eSST parts = false.
Proof.
  destruct (module_structure_counts "m" [cmd_of_type WriteMarker]
    (set_amod vme_amods.BLT32 (cmd_of_type VMERead)) [] ∅) as (parts & H1 & H2 & H3 & H4 & H5);
    [repeat constructor..|].
  exists parts. split_and!; [exact H1|exact H2|exact H3|exact H4|by rewrite H5].
Defined.

(** ** Two corner cases *)

(** The callbacks, the counter of empty frames and the result for one USB buffer. *)
Definition usb_run (stack : StackCommandBuilder) (buffer : list Z)
  : option (outcome ParseResult * list CallbackEvent * Z) :=
  match make_readout_parser [stack] with
  | Return s =>
      match parse_readout_buffer_usb 1 buffer (initial_world s) with
      | Some (r, w) => Some (r, w_callbacks w, emptyStackFrames (w_counters w))
      | None => None
      end
  | _ => None
  end.

(** A mesytec module read with 2eSST, without and with a marker after the block. *)
Definition esst_stack (suffix : list StackCommand) : StackCommandBuilder :=
  addGroup "m0" (set_amod vme_amods.Blk2eSST64 (cmd_of_type VMERead) :: suffix)
    {["vme_module_vendor"%string := "mesytec"%string]} empty_builder.

(** The two fill words 0xffffffff at the end of a 2eSST block are removed from
    the dynamic part.  If the module also has a suffix the rest of its data is no
    longer contiguous: [suffix_span] then reads one of the fill words instead of
    the suffix word [v], which lies outside of the reported data. *)
Theorem esst_trim_suffix d1 d2 v :
  usb_run (esst_stack []) [0xF3010005; 0xF5000004; d1; d2; 0xffffffff; 0xffffffff]
    = Some (Return Ok, [EventData 0 0 [mkModuleData [d1; d2] 2 0 2 0 true]], 0)
  ∧ ∃ md, usb_run (esst_stack [cmd_of_type WriteMarker])
            [0xF3010006; 0xF5000004; d1; d2; 0xffffffff; 0xffffffff; v]
          = Some (Return Ok, [EventData 0 0 [md]], 0)
    ∧ size_consistency_check md = true
    ∧ dynamic_span md = [d1; d2] ∧ suffix_span md = [0xffffffff] ∧ md_data md = [d1; d2; 0xffffffff].
Proof.
  split; [vm_compute; reflexivity|].
  exists (mkModuleData [d1; d2; 0xffffffff] 3 0 2 1 true).
  split; [vm_compute; reflexivity|done].
Qed.

(** A stack continuation of length 0 ends the event in progress: the words
    collected so far are dropped, the callback gets empty module data, and the
    frame is counted twice as an empty stack frame. *)
Theorem empty_continuation_drops_event x :
  usb_run (addGroup "m0" [cmd_of_type WriteMarker; cmd_of_type WriteMarker] ∅ empty_builder)
    [0xF3810001; x; 0xF9010000]
  = Some (Return Ok, [EventData 0 0 [empty_module_data]], 2).
Proof. vm_compute. reflexivity. Qed.
