(* ===== verification/ReadoutBuffer.v ===== *)
(** * Readout buffers: [readout_buffer.h]

    The growable byte buffer that carries readout data, and the interface through
    which the listfile generator writes 32-bit words into it. *)

From S2P Require Import Prelude Constants.

(* readout_buffer.h:17-107 ReadoutBuffer *)
Record ReadoutBuffer : Type := mkBuffer {
  m_type : Z;
  m_number : Z;
  m_buffer : list Z;
  m_used : Z
}.

(* mvlc_constants.h:662-666 ConnectionType *)
Definition ConnectionType_value (t : ConnectionType) : Z :=
  match t with USB => 0 | ETH => 1 end.

(* readout_buffer.h:24-26 ReadoutBuffer *)
Definition new_buffer (capacity : Z) : ReadoutBuffer :=
  mkBuffer (ConnectionType_value ETH) 0 (replicate (Z.to_nat capacity) 0) 0.

(* readout_buffer.h:29-30 setType *)
Definition setType (t : ConnectionType) (b : ReadoutBuffer) : ReadoutBuffer :=
  mkBuffer (ConnectionType_value t) (m_number b) (m_buffer b) (m_used b).

(* readout_buffer.h:33-33 setBufferNumber *)
Definition setBufferNumber (number : Z) (b : ReadoutBuffer) : ReadoutBuffer :=
  mkBuffer (m_type b) number (m_buffer b) (m_used b).

(* readout_buffer.h:35-35 capacity *)
Definition capacity (b : ReadoutBuffer) : Z := zlen (m_buffer b).

(* readout_buffer.h:37-37 free *)
Definition free (b : ReadoutBuffer) : Z := capacity b - m_used b.

(** [std::vector::resize]: cuts off or appends zeros. *)
Definition resize (n : Z) (l : list Z) : list Z :=
  take (Z.to_nat n) l ++ replicate (Z.to_nat n - length l) 0.

(* readout_buffer.h:41-46 ensureFreeSpace *)
Definition ensureFreeSpace (freeSpace : Z) (b : ReadoutBuffer) : ReadoutBuffer :=
  if free b <? freeSpace
  then mkBuffer (m_type b) (m_number b) (resize (m_used b + freeSpace) (m_buffer b)) (m_used b)
  else b.

(* readout_buffer.h:48-48 clear *)
Definition clear (b : ReadoutBuffer) : ReadoutBuffer :=
  mkBuffer (m_type b) (m_number b) (m_buffer b) 0.

(* readout_buffer.h:50-54 use *)
Definition use (bytes : Z) (b : ReadoutBuffer) : ReadoutBuffer :=
  mkBuffer (m_type b) (m_number b) (m_buffer b) (m_used b + bytes).

(* readout_buffer.h:56-60 setUsed *)
Definition setUsed (bytes : Z) (b : ReadoutBuffer) : ReadoutBuffer :=
  mkBuffer (m_type b) (m_number b) (m_buffer b) bytes.

(* readout_buffer.h:67-70 viewU8 *)
Definition viewU8 (b : ReadoutBuffer) : list Z := ztake (m_used b) (m_buffer b).

Fixpoint bytes_to_words (n : nat) (bytes : list Z) : list Z :=
  match n with
  | O => []
  | S n' => le_word bytes :: bytes_to_words n' (drop 4 bytes)
  end.

(* readout_buffer.h:72-77 viewU32 *)
Definition viewU32 (b : ReadoutBuffer) : list Z :=
  bytes_to_words (Z.to_nat (m_used b / 4)) (m_buffer b).

(** [std::copy] of bytes to an offset inside of the buffer. *)
Definition write_bytes (off : Z) (bytes : list Z) (l : list Z) : list Z :=
  ztake off l ++ bytes ++ zdrop (off + zlen bytes) l.

(** Bytes copied behind the used part of a buffer, which then grows by their number. *)
Definition store_bytes (bytes : list Z) (b : ReadoutBuffer) : ReadoutBuffer :=
  use (zlen bytes) (mkBuffer (m_type b) (m_number b) (write_bytes (m_used b) bytes (m_buffer b)) (m_used b)).

(* readout_buffer.h:79-88 push_back *)
Definition push_back (w : Z) (b : ReadoutBuffer) : ReadoutBuffer :=
  let b1 := ensureFreeSpace 4 b in
  use 4 (mkBuffer (m_type b1) (m_number b1)
           (write_bytes (m_used b1) (le_bytes w) (m_buffer b1)) (m_used b1)).

(* readout_buffer.h:92-100 consume *)
Definition consume (bytes : Z) (b : ReadoutBuffer) : ReadoutBuffer :=
  let used := m_used b - bytes in
  mkBuffer (m_type b) (m_number b)
    (write_bytes 0 (ztake used (zdrop bytes (m_buffer b))) (m_buffer b)) used.

(** Changing the word at byte offset [off] through a [u32] pointer. *)
Definition patch_word (off : Z) (f : Z → Z) (b : ReadoutBuffer) : ReadoutBuffer :=
  mkBuffer (m_type b) (m_number b)
    (write_bytes off (le_bytes (f (le_word (zdrop off (m_buffer b))))) (m_buffer b)) (m_used b).

(** ** The interface of word buffers

    What a writer of words relies on: a view of the words written so far, the
    number of bytes in use, appending a word, and rewriting an earlier word. *)

Class WordBuffer (D : Type) : Type := {
  wbuf_view : D → list Z;
  wbuf_ok : D → Prop;
  wbuf_used : D → Z;
  wbuf_push : Z → D → D;
  wbuf_patch : Z → (Z → Z) → D → D;
  wbuf_set_type : ConnectionType → D → D
}.

Class WordBufferLaws (D : Type) `{!WordBuffer D} : Prop := {
  wbuf_used_view : ∀ d, wbuf_ok d → wbuf_used d = 4 * zlen (wbuf_view d);
  wbuf_push_law : ∀ d w, wbuf_ok d → is_u32 w →
    wbuf_ok (wbuf_push w d) ∧ wbuf_view (wbuf_push w d) = wbuf_view d ++ [w];
  wbuf_patch_law : ∀ d k w f, wbuf_ok d → wbuf_view d !! k = Some w → is_u32 (f w) →
    wbuf_ok (wbuf_patch (4 * Z.of_nat k) f d)
    ∧ wbuf_view (wbuf_patch (4 * Z.of_nat k) f d) = <[k := f w]> (wbuf_view d);
  wbuf_set_type_law : ∀ d t, wbuf_ok d →
    wbuf_ok (wbuf_set_type t d) ∧ wbuf_view (wbuf_set_type t d) = wbuf_view d
}.

(** Buffers that hold whole words. *)
Definition buffer_ok (b : ReadoutBuffer) : Prop :=
  0 ≤ m_used b ≤ zlen (m_buffer b) ∧ m_used b mod 4 = 0.

#[global] Instance ReadoutBuffer_words : WordBuffer ReadoutBuffer := {
  wbuf_view := viewU32;
  wbuf_ok := buffer_ok;
  wbuf_used := m_used;
  wbuf_push := push_back;
  wbuf_patch := patch_word;
  wbuf_set_type := setType
}.

(** ** The laws *)

Lemma zlen_bytes_to_words n l : zlen (bytes_to_words n l) = Z.of_nat n.
Proof. revert l; induction n as [|n IH]; intros l; [done|]. cbn. rewrite zlen_cons, IH. lia. Qed.

Lemma le_word_take l n : (4 ≤ n)%nat → (4 ≤ length l)%nat → le_word (take n l) = le_word l.
Proof.
  intros Hn Hl. destruct l as [|a [|b [|c [|d l]]]]; cbn in Hl; try lia.
  by destruct n as [|[|[|[|n]]]]; [lia..|].
Qed.

(** Only the first [4 * n] bytes matter. *)
Lemma bytes_to_words_ext n l k :
  (4 * n ≤ length l)%nat → (4 * n ≤ length k)%nat → take (4 * n) l = take (4 * n) k →
  bytes_to_words n l = bytes_to_words n k.
Proof.
  revert l k; induction n as [|n IH]; intros l k Hl Hk He; [done|]. cbn [bytes_to_words]. f_equal.
  - rewrite <- (le_word_take l (4 * S n)), <- (le_word_take k (4 * S n)) by lia. by rewrite He.
  - apply IH; [rewrite length_drop; lia..|].
    assert (Hd := f_equal (drop 4) He). rewrite !skipn_firstn_comm in Hd.
    by replace (4 * S n - 4)%nat with (4 * n)%nat in Hd by lia.
Qed.

Lemma bytes_to_words_app n m l :
  bytes_to_words (n + m) l = bytes_to_words n l ++ bytes_to_words m (drop (4 * n) l).
Proof.
  revert l; induction n as [|n IH]; intros l; [done|]. cbn [Nat.add bytes_to_words app]. f_equal.
  rewrite IH, drop_drop. do 3 f_equal. lia.
Qed.

Lemma write_bytes_take off bytes l :
  0 ≤ off ≤ zlen l → take (Z.to_nat off) (write_bytes off bytes l) = take (Z.to_nat off) l.
Proof.
  intros H. unfold write_bytes, ztake. rewrite take_app_le by (rewrite length_take; unfold zlen in H; lia).
  rewrite take_take. f_equal. lia.
Qed.

Lemma write_bytes_drop off bytes l :
  0 ≤ off ≤ zlen l → drop (Z.to_nat off) (write_bytes off bytes l) = bytes ++ zdrop (off + zlen bytes) l.
Proof.
  intros H. unfold write_bytes, ztake.
  rewrite drop_app_le by (rewrite length_take; unfold zlen in H; lia).
  rewrite drop_ge by (rewrite length_take; lia). done.
Qed.

Lemma zlen_write_bytes off bytes l :
  0 ≤ off → off + zlen bytes ≤ zlen l → zlen (write_bytes off bytes l) = zlen l.
Proof.
  intros H1 H2. pose proof (zlen_nonneg bytes). unfold write_bytes, ztake, zdrop, zlen in *.
  rewrite !length_app, length_take, length_drop. lia.
Qed.

Lemma ensureFreeSpace_ok n b :
  0 ≤ n → 0 ≤ m_used b ≤ zlen (m_buffer b) →
  let b' := ensureFreeSpace n b in
  m_used b' = m_used b ∧ m_used b + n ≤ zlen (m_buffer b')
  ∧ take (Z.to_nat (m_used b)) (m_buffer b') = take (Z.to_nat (m_used b)) (m_buffer b).
Proof.
  intros Hn Hu b'. subst b'. unfold ensureFreeSpace, free, capacity.
  destruct (Z.ltb_spec (zlen (m_buffer b) - m_used b) n); cbn [m_used m_buffer]; [|by split_and!; [|lia|]].
  unfold resize, zlen in *. split_and!; [done| |].
  - rewrite length_app, length_take, length_replicate. lia.
  - rewrite take_app_le by (rewrite length_take; lia). rewrite take_take. f_equal. lia.
Qed.

Lemma push_back_law b w :
  buffer_ok b → is_u32 w → buffer_ok (push_back w b) ∧ viewU32 (push_back w b) = viewU32 b ++ [w].
Proof.
  intros [Hu Hm] Hw. unfold push_back.
  destruct (ensureFreeSpace_ok 4 b ltac:(lia) Hu) as (Hu' & Hf & Ht).
  set (b1 := ensureFreeSpace 4 b) in *.
  assert (Hz : zlen (write_bytes (m_used b1) (le_bytes w) (m_buffer b1)) = zlen (m_buffer b1)).
  { rewrite zlen_write_bytes; [done|lia|]. change (zlen (le_bytes w)) with 4. lia. }
  split; [split; cbn [use m_used m_buffer]; [lia|zlia]|].
  unfold viewU32. cbn [use m_used m_buffer].
  set (n := Z.to_nat (m_used b / 4)).
  assert (Hn : (4 * n)%nat = Z.to_nat (m_used b)) by (subst n; zlia).
  replace (Z.to_nat ((m_used b1 + 4) / 4)) with (n + 1)%nat by (subst n; rewrite Hu'; zlia).
  rewrite bytes_to_words_app. f_equal.
  - apply bytes_to_words_ext; [unfold zlen in *; lia..|].
    rewrite Hn, <- Ht, Hu', write_bytes_take by lia. done.
  - rewrite Hn, Hu', write_bytes_drop by lia. cbn [bytes_to_words]. by rewrite le_word_bytes.
Qed.

Lemma patch_word_law b k w f :
  buffer_ok b → viewU32 b !! k = Some w → is_u32 (f w) →
  buffer_ok (patch_word (4 * Z.of_nat k) f b)
  ∧ viewU32 (patch_word (4 * Z.of_nat k) f b) = <[k := f w]> (viewU32 b).
Proof.
  intros [Hu Hm] Hk Hw. set (n := Z.to_nat (m_used b / 4)).
  assert (Hkn : (k < n)%nat).
  { apply lookup_lt_Some in Hk. pose proof (zlen_bytes_to_words n (m_buffer b)).
    unfold viewU32 in Hk. fold n in Hk. unfold zlen in *. lia. }
  assert (Hn : Z.of_nat (4 * n) = m_used b) by (subst n; zlia).
  assert (Hz : ∀ x, zlen (write_bytes (4 * Z.of_nat k) (le_bytes x) (m_buffer b)) = zlen (m_buffer b)).
  { intros x. rewrite zlen_write_bytes; [done|lia|]. change (zlen (le_bytes x)) with 4. lia. }
  split; [split; cbn [patch_word m_used m_buffer]; [rewrite Hz; lia|done]|].
  unfold viewU32 in *. cbn [patch_word m_used m_buffer]. fold n in Hk |- *.
  destruct (Nat.le_exists_sub (S k) n) as (r & Hr & _); [lia|].
  assert (Ekn : n = (k + S r)%nat) by lia. clear Hr. clearbody n. subst n.
  rewrite (bytes_to_words_app k (S r)) in Hk. rewrite !(bytes_to_words_app k (S r)).
  assert (Hlk : length (bytes_to_words k (m_buffer b)) = k).
  { pose proof (zlen_bytes_to_words k (m_buffer b)). unfold zlen in *. lia. }
  assert (Ez : Z.to_nat (4 * Z.of_nat k) = (4 * k)%nat) by lia.
  cbn [bytes_to_words app] in Hk |- *.
  rewrite lookup_app_r, Hlk, Nat.sub_diag in Hk by lia.
  assert (Hk' : le_word (drop (4 * k) (m_buffer b)) = w) by (by injection Hk).
  assert (Hv : le_word (zdrop (4 * Z.of_nat k) (m_buffer b)) = w) by (unfold zdrop; by rewrite Ez).
  rewrite Hv, insert_app_r_alt, Hlk, Nat.sub_diag by lia.
  change (<[0%nat:=f w]> (?a :: ?l)) with (f w :: l).
  f_equal.
  { apply bytes_to_words_ext; [specialize (Hz (f w)); unfold zlen in *; lia..|].
    rewrite <- Ez, write_bytes_take by lia. done. }
  rewrite <- Ez, write_bytes_drop by lia. f_equal; [by rewrite le_word_bytes|].
  rewrite drop_app_ge by (rewrite length_le_bytes; lia). rewrite length_le_bytes.
  cbn [Nat.sub]. rewrite drop_0. unfold zdrop. rewrite drop_drop. f_equal. f_equal.
  change (zlen (le_bytes (f w))) with 4. lia.
Qed.

#[global] Instance ReadoutBuffer_laws : WordBufferLaws ReadoutBuffer.
Proof.
  split; [|exact push_back_law|exact patch_word_law|done].
  intros b [Hu Hm]. cbn [wbuf_used wbuf_view ReadoutBuffer_words]. unfold viewU32.
  rewrite zlen_bytes_to_words. zlia.
Qed.

(** ** Buffers at byte level *)

Lemma store_bytes_ok data b :
  0 ≤ m_used b ≤ zlen (m_buffer b) → zlen data ≤ free b →
  let b' := store_bytes data b in
  m_used b' = m_used b + zlen data ∧ zlen (m_buffer b') = zlen (m_buffer b) ∧ viewU8 b' = viewU8 b ++ data.
Proof.
  intros Hu Hf. pose proof (zlen_nonneg data). unfold free, capacity in Hf. cbn [store_bytes use m_used m_buffer viewU8].
  split_and!; [done|by apply zlen_write_bytes; lia|]. unfold viewU8, write_bytes. cbn [store_bytes use m_used m_buffer].
  unfold write_bytes. rewrite app_assoc.
  replace (m_used b + zlen data) with (zlen (ztake (m_used b) (m_buffer b) ++ data)) at 1 by (rewrite zlen_app, zlen_ztake; lia).
  apply ztake_app.
Qed.

Lemma ensureFreeSpace_view n b :
  0 ≤ n → 0 ≤ m_used b ≤ zlen (m_buffer b) →
  let b' := ensureFreeSpace n b in
  m_used b' = m_used b ∧ m_used b' ≤ zlen (m_buffer b') ∧ n ≤ free b' ∧ viewU8 b' = viewU8 b ∧ capacity b ≤ capacity b'.
Proof.
  intros Hn Hu b'. subst b'. unfold ensureFreeSpace, free, capacity. destruct (_ <? n) eqn:E; cbn [m_used m_buffer]; [|split_and!; lia || done].
  assert (Hl : zlen (resize (m_used b + n) (m_buffer b)) = m_used b + n).
  { unfold resize, zlen in *. rewrite length_app, length_take, length_replicate. lia. }
  rewrite Hl. split_and!; try lia. unfold viewU8, resize. cbn [m_used m_buffer]. unfold ztake, zlen in *.
  rewrite take_app_le by (rewrite length_take; lia). rewrite take_take. f_equal. lia.
Qed.

(** The used part lies inside of the buffer. *)
Definition buf_ok (b : ReadoutBuffer) : Prop := 0 ≤ m_used b ≤ zlen (m_buffer b).

Lemma clear_ok b : buf_ok b → buf_ok (clear b) ∧ viewU8 (clear b) = [].
Proof. unfold buf_ok, viewU8. cbn. pose proof (zlen_nonneg (m_buffer b)). split; [lia|done]. Qed.

Lemma setUsed_view b c d :
  buf_ok b → viewU8 b = c ++ d →
  let b' := setUsed (m_used b - zlen d) b in buf_ok b' ∧ viewU8 b' = c ∧ m_used b' = zlen c.
Proof.
  unfold buf_ok, viewU8. intros Hb Hv. cbn [setUsed m_used m_buffer]. pose proof (f_equal zlen Hv) as Hl. rewrite zlen_ztake, zlen_app in Hl by lia.
  pose proof (zlen_nonneg c). pose proof (zlen_nonneg d). split_and!; [lia..| |lia].
  rewrite <- (ztake_zdrop (m_used b) (m_buffer b)), Hv, <- app_assoc. replace (m_used b - zlen d) with (zlen c) by lia. apply ztake_app.
Qed.
