(* ===== verification/ListfileGen.v ===== *)
(** * Generating listfiles: [mvlc_listfile_gen.cc]

    Turns parsed module data back into the framing format of USB readout
    buffers.  A frame header is written first and its length and flags are patched
    when the frame is closed, so that the generator keeps the byte offsets of the
    open headers instead of pointers.

    The destination is any [WordBuffer]; the C++ code uses a [ReadoutBuffer].  As
    in a release build, [assert] is compiled out; a [nullptr] access and an access
    outside of the module data are undefined behaviour. *)

From S2P Require Import Prelude Constants Frames ReadoutBuffer ReadoutParser.

(* mvlc_listfile_gen.cc:16-20 FrameState *)
Record FrameState : Type := mkFrameState { headerOffset : Z; wordsWritten : Z }.

Definition closed_frame : FrameState := mkFrameState (-1) 0.

(* mvlc_listfile_gen.cc:22-25 is_frame_open *)
Definition is_frame_open (f : FrameState) : bool := headerOffset f >=? 0.

Section Generator.
Context {D : Type} `{!WordBuffer D}.

(** [*get_frame_header(frameState, dest)] changed by [f]. *)
(* mvlc_listfile_gen.cc:27-35 get_frame_header *)
Definition patch_frame_header (fs : FrameState) (f : Z → Z) (dest : D) : outcome D :=
  if negb (is_frame_open fs) then Undefined
  else Return (wbuf_patch (headerOffset fs) f dest).

(* mvlc_listfile_gen.cc:37-49 close_frame *)
Definition close_frame (fs : FrameState) (dest : D) : outcome (FrameState * D) :=
  d1 ← patch_frame_header fs (λ h, h .& (0xffffffff .^ frame_headers.LengthMask)) dest;
  d2 ← patch_frame_header fs (λ h, h .| (wordsWritten fs .& frame_headers.LengthMask)) d1;
  Return (closed_frame, d2).

(* mvlc_listfile_gen.cc:51-58 push_frame_header *)
Definition push_frame_header (dest : D) (frameHeader : Z) : FrameState * D :=
  let dest' := wbuf_push frameHeader dest in
  (mkFrameState (wbuf_used dest' - 4) 0, dest').

(* mvlc_listfile_gen.cc:60-68 GenState *)
Record GenState : Type := mkGen {
  gs_dest : D;
  frameMaxWords : Z;
  gs_crateIndex : Z;
  gs_eventIndex : Z;
  stackFrameState : FrameState;
  blockFrameState : FrameState
}.

Definition set_dest (d : D) (gs : GenState) : GenState :=
  mkGen d (frameMaxWords gs) (gs_crateIndex gs) (gs_eventIndex gs)
    (stackFrameState gs) (blockFrameState gs).
Definition set_stackFrame (f : FrameState) (gs : GenState) : GenState :=
  mkGen (gs_dest gs) (frameMaxWords gs) (gs_crateIndex gs) (gs_eventIndex gs)
    f (blockFrameState gs).
Definition set_blockFrame (f : FrameState) (gs : GenState) : GenState :=
  mkGen (gs_dest gs) (frameMaxWords gs) (gs_crateIndex gs) (gs_eventIndex gs)
    (stackFrameState gs) f.

Definition inc_words (f : FrameState) : FrameState :=
  mkFrameState (headerOffset f) (u32 (wordsWritten f + 1)).

(* mvlc_listfile_gen.cc:90-93 has_open_stack_frame *)
Definition has_open_stack_frame (gs : GenState) : bool := is_frame_open (stackFrameState gs).
(* mvlc_listfile_gen.cc:95-98 has_open_block_frame *)
Definition has_open_block_frame (gs : GenState) : bool := is_frame_open (blockFrameState gs).

(* mvlc_listfile_gen.cc:80-83 close_cur_stack_frame *)
Definition close_cur_stack_frame (gs : GenState) : outcome GenState :=
  r ← close_frame (stackFrameState gs) (gs_dest gs);
  Return (set_stackFrame r.1 (set_dest r.2 gs)).

(* mvlc_listfile_gen.cc:85-88 close_cur_block_frame *)
Definition close_cur_block_frame (gs : GenState) : outcome GenState :=
  r ← close_frame (blockFrameState gs) (gs_dest gs);
  Return (set_blockFrame r.1 (set_dest r.2 gs)).

(** The header words of the stack frames. *)
(* mvlc_listfile_gen.cc:110-114 start_new_stack_frame *)
Definition stack_header (frameType : Z) (gs : GenState) : Z :=
  u32 ((frameType ≪ frame_headers.TypeShift)
       .| ((gs_eventIndex gs + 1) ≪ frame_headers.StackNumShift)
       .| (gs_crateIndex gs ≪ frame_headers.CtrlIdShift)).

Definition push_stack_header (frameType : Z) (gs : GenState) : GenState :=
  let '(f, d) := push_frame_header (gs_dest gs) (stack_header frameType gs) in
  set_stackFrame f (set_dest d gs).

(* mvlc_listfile_gen.cc:100-117 start_new_stack_frame *)
Definition start_new_stack_frame (gs : GenState) : GenState :=
  push_stack_header frame_headers.StackFrame gs.

(** [*header |= frame_flags::Continue << FrameFlagsShift] *)
Definition set_continue_flag (h : Z) : Z :=
  h .| (frame_flags.Continue ≪ frame_headers.FrameFlagsShift).

(* mvlc_listfile_gen.cc:177-179 start_new_block_frame *)
Definition push_block_header (gs : GenState) : GenState :=
  let '(f, d) := push_frame_header (gs_dest gs)
                   (u32 (frame_headers.BlockRead ≪ frame_headers.TypeShift)) in
  set_stackFrame (inc_words (stackFrameState gs)) (set_blockFrame f (set_dest d gs)).

(** [continue_stack_frame] and [start_new_block_frame] call each other.  A chain of
    calls is at most three deep (see [gen_depth]); beyond the fuel the behaviour is
    undefined. *)
(* mvlc_listfile_gen.cc:121-157 continue_stack_frame *)
Fixpoint continue_stack_frame (depth : nat) (gs : GenState) : outcome GenState :=
  match depth with
  | O => Undefined
  | S depth' =>
      let reopenBlockFrame := has_open_block_frame gs in
      gs1 ← (if reopenBlockFrame then
               d ← patch_frame_header (blockFrameState gs) set_continue_flag (gs_dest gs);
               close_cur_block_frame (set_dest d gs)
             else Return gs);
      d ← patch_frame_header (stackFrameState gs1) set_continue_flag (gs_dest gs1);
      gs2 ← close_cur_stack_frame (set_dest d gs1);
      let gs3 := push_stack_header frame_headers.StackContinuation gs2 in
      if reopenBlockFrame then start_new_block_frame depth' gs3 else Return gs3
  end
(* mvlc_listfile_gen.cc:159-180 start_new_block_frame *)
with start_new_block_frame (depth : nat) (gs : GenState) : outcome GenState :=
  match depth with
  | O => Undefined
  | S depth' =>
      gs1 ← (if wordsWritten (stackFrameState gs) >=? u32 (frameMaxWords gs - 1)
             then continue_stack_frame depth' gs else Return gs);
      Return (push_block_header gs1)
  end.

Definition gen_depth : nat := 3.

(* mvlc_listfile_gen.cc:182-200 continue_block_frame *)
Definition continue_block_frame (gs : GenState) : outcome GenState :=
  d ← patch_frame_header (blockFrameState gs) set_continue_flag (gs_dest gs);
  gs1 ← close_cur_block_frame (set_dest d gs);
  Return (push_block_header gs1).

(* mvlc_listfile_gen.cc:202-215 push_data_word *)
Definition push_data_word (dataWord : Z) (gs : GenState) : GenState :=
  let gs1 := set_dest (wbuf_push dataWord (gs_dest gs)) gs in
  let gs2 := if has_open_block_frame gs1
             then set_blockFrame (inc_words (blockFrameState gs1)) gs1 else gs1 in
  set_stackFrame (inc_words (stackFrameState gs2)) gs2.

(* mvlc_listfile_gen.cc:221-231 write_module_data *)
Definition write_non_block_word (word : Z) (gs : GenState) : outcome GenState :=
  gs1 ← (if negb (has_open_stack_frame gs) then Return (start_new_stack_frame gs)
         else if wordsWritten (stackFrameState gs) >=? frameMaxWords gs
         then continue_stack_frame gen_depth gs
         else Return gs);
  Return (push_data_word word gs1).

(* mvlc_listfile_gen.cc:233-249 write_module_data *)
Definition write_block_word (word : Z) (gs : GenState) : outcome GenState :=
  gs1 ← (if negb (has_open_stack_frame gs) then Return (start_new_stack_frame gs)
         else if wordsWritten (stackFrameState gs) >=? frameMaxWords gs
         then continue_stack_frame gen_depth gs
         else Return gs);
  gs2 ← (if negb (has_open_block_frame gs1) then start_new_block_frame gen_depth gs1
         else if wordsWritten (blockFrameState gs1) >=? frameMaxWords gs1
         then continue_block_frame gs1
         else Return gs1);
  Return (push_data_word word gs2).

(** A [for] loop that writes [n] words read through [dataIter]. *)
(* mvlc_listfile_gen.cc:252-254 write_module_data *)
Fixpoint write_words (write : Z → GenState → outcome GenState) (n : nat) (dataIter : list Z)
    (gs : GenState) : outcome (list Z * GenState) :=
  match n, dataIter with
  | O, _ => Return (dataIter, gs)
  | S n', word :: rest => gs1 ← write word gs; write_words write n' rest gs1
  | S _, [] => Undefined
  end.

(* mvlc_listfile_gen.cc:217-269 write_module_data *)
Definition write_module_data (md : ModuleData) (gs : GenState) : outcome GenState :=
  r1 ← write_words write_non_block_word (Z.to_nat (md_prefixSize md)) (md_data md) gs;
  r2 ← (if md_hasDynamic md then
          gs1 ← start_new_block_frame gen_depth r1.2;
          r ← write_words write_block_word (Z.to_nat (md_dynamicSize md)) r1.1 gs1;
          gs2 ← close_cur_block_frame r.2;
          Return (r.1, gs2)
        else Return r1);
  r3 ← write_words write_non_block_word (Z.to_nat (md_suffixSize md)) r2.1 r2.2;
  Return r3.2.

(* mvlc_listfile_gen.cc:311-312 write_event_data *)
Fixpoint write_modules (mds : list ModuleData) (gs : GenState) : outcome GenState :=
  match mds with
  | [] => Return gs
  | md :: rest => gs1 ← write_module_data md gs; write_modules rest gs1
  end.

(* mvlc_listfile_gen.cc:298-306 write_event_data *)
Definition new_gen (dest : D) (maxWords crateIndex eventIndex : Z) : GenState :=
  mkGen dest maxWords crateIndex eventIndex closed_frame closed_frame.

(* mvlc_listfile_gen.cc:314-318 write_event_data *)
Definition finish_event (gs : GenState) : outcome D :=
  if has_open_stack_frame gs
  then gs1 ← close_cur_stack_frame gs; Return (gs_dest gs1)
  else Return (gs_dest gs).

(* mvlc_listfile_gen.cc:285-319 write_event_data *)
Definition write_event_data (dest : D) (crateIndex eventIndex : Z)
    (moduleDataList : list ModuleData) (maxWords : Z) : outcome D :=
  if bool_decide (moduleDataList = []) || (maxWords <=? 1) then Return dest
  else
    gs ← write_modules moduleDataList
           (start_new_stack_frame (new_gen (wbuf_set_type USB dest) maxWords crateIndex eventIndex));
    finish_event gs.

(* mvlc_listfile_gen.cc:321-352 write_event_data *)
Definition write_raw_event_data (dest : D) (crateIndex eventIndex : Z) (data : list Z)
    (maxWords : Z) : outcome D :=
  if maxWords <=? 1 then Return dest
  else
    finish_event
      (foldl (λ gs w, push_data_word w gs)
         (start_new_stack_frame (new_gen (wbuf_set_type USB dest) maxWords crateIndex eventIndex)) data).

(** The loops of [write_system_event] over the words after the header.  With
    [maxWords = 0] the C++ loop starts new frames forever. *)
(* mvlc_listfile_gen.cc:376-396 write_system_event *)
Fixpoint system_event_words (header maxWords : Z) (iter : list Z) (fs : FrameState) (dest : D)
  : outcome D :=
  match iter with
  | [] =>
      r ← close_frame fs dest;
      Return r.2
  | w :: rest =>
      if wordsWritten fs <? maxWords then
        system_event_words header maxWords rest (inc_words fs) (wbuf_push w dest)
      else
        d ← patch_frame_header fs (λ h, h .| (1 ≪ system_event.ContinueShift)) dest;
        r ← close_frame fs d;
        let '(fs1, d1) := push_frame_header r.2 header in
        if 0 <? maxWords
        then system_event_words header maxWords rest (inc_words fs1) (wbuf_push w d1)
        else Undefined
  end.

(* mvlc_listfile_gen.cc:354-397 write_system_event *)
Definition write_system_event (dest : D) (crateIndex : Z) (systemEvent : list Z) (maxWords : Z)
  : outcome D :=
  match systemEvent with
  | [] => Undefined
  | h :: iter =>
      let header := u32 (h .| (crateIndex ≪ system_event.CtrlIdShift)) in
      let '(fs, d) := push_frame_header dest header in
      system_event_words header maxWords iter fs d
  end.

End Generator.
Arguments GenState : clear implicits.
