(* ===== verification/Framing.v ===== *)
(** * The framing of readout events

    The words of one event: a StackFrame, possibly followed by StackContinuations,
    with block frames for the dynamic parts.  The relation [enc] describes the
    words from left to right, the way a reader meets them; the generator patches
    its headers afterwards.  [write_event_data_enc] shows that the generator
    produces such words. *)

From S2P Require Import Prelude Constants Frames FramesFacts ReadoutBuffer ReadoutParser.
From S2P Require Import ParserSteps ListfileGen.

(** What an event consists of: fixed words and the dynamic parts. *)
Inductive item : Type :=
| FW (w : Z)
| DYN (ds : list Z).

Section Encoding.
Context (stack crate : Z).

(** The header of a stack frame with [len] words. *)
Definition is_stack_header (type len h : Z) : Prop :=
  fi_type (extract_frame_info h) = type ∧ fi_stack (extract_frame_info h) = stack
  ∧ fi_ctrl (extract_frame_info h) = crate ∧ fi_len (extract_frame_info h) = len.

Definition is_block_header (cont : bool) (len h : Z) : Prop :=
  fi_type (extract_frame_info h) = frame_headers.BlockRead
  ∧ fi_len (extract_frame_info h) = len ∧ has_continue h = cont.

(** [enc L items ws]: with [L] words left in the current stack frame, the words
    [ws] carry the items of the event and end with the event. *)
Inductive enc : Z → list item → list Z → Prop :=
| enc_done : enc 0 [] []
| enc_cont h L it items ws :
    is_stack_header frame_headers.StackContinuation L h → 0 < L →
    enc L (it :: items) ws → enc 0 (it :: items) (h :: ws)
| enc_word L w items ws :
    0 ≤ L → enc L items ws → enc (L + 1) (FW w :: items) (w :: ws)
| enc_block h L ds items ws :
    0 ≤ L → is_block_header false (zlen ds) h → enc L items ws →
    enc (L + zlen ds + 1) (DYN ds :: items) (h :: ds ++ ws)
| enc_block_cont h d1 d2 items ws :
    is_block_header true (zlen d1) h → enc 0 (DYN d2 :: items) ws →
    enc (zlen d1 + 1) (DYN (d1 ++ d2) :: items) (h :: d1 ++ ws).

(** A whole event. *)
Definition event_enc (items : list item) (ws : list Z) : Prop :=
  ∃ h L ws', ws = h :: ws' ∧ is_stack_header frame_headers.StackFrame L h ∧ enc L items ws'
    ∧ (items ≠ [] → 0 < L).

End Encoding.

(** ** Patching headers *)

Lemma frame_word_u32 type flags stack ctrl len :
  0 ≤ type < 256 → 0 ≤ flags < 16 → 0 ≤ stack < 16 → 0 ≤ ctrl < 8 → 0 ≤ len < 8192 →
  is_u32 (frame_word type flags stack ctrl len).
Proof. intros. unfold is_u32, frame_word. lia. Qed.

Lemma clear_length_word type flags stack ctrl :
  0 ≤ type < 256 → 0 ≤ flags < 16 → 0 ≤ stack < 16 → 0 ≤ ctrl < 8 →
  frame_word type flags stack ctrl 0 .& (0xffffffff .^ frame_headers.LengthMask)
  = frame_word type flags stack ctrl 0.
Proof.
  intros. set (h := frame_word type flags stack ctrl 0).
  assert (Hu : is_u32 h) by (apply frame_word_u32; lia). destruct Hu as [Hu1 Hu2].
  assert (Hm : h mod 2 ^ 13 = 0) by (subst h; unfold frame_word; zlia).
  change (0xffffffff .^ frame_headers.LengthMask) with (Z.ones 19 ≪ 13).
  apply Z.bits_inj'. intros i Hi. rewrite Z.land_spec.
  destruct (decide (i < 13)) as [Hlt|Hge].
  - replace (Z.testbit h i) with (Z.testbit (h mod 2 ^ 13) i) by (by apply Z.mod_pow2_bits_low).
    by rewrite Hm, Z.bits_0.
  - rewrite Z.shiftl_spec_high by lia. destruct (decide (i < 32)).
    + rewrite Z.ones_spec_low by lia. apply andb_true_r.
    + replace (Z.testbit h i) with false; [done|]. symmetry.
      rewrite <- (Z.mod_small h (2 ^ 32)) by lia. apply Z.mod_pow2_bits_high. lia.
Qed.

Lemma set_length_word type flags stack ctrl len :
  0 ≤ type < 256 → 0 ≤ flags < 16 → 0 ≤ stack < 16 → 0 ≤ ctrl < 8 → 0 ≤ len < 8192 →
  frame_word type flags stack ctrl 0 .| (len .& frame_headers.LengthMask)
  = frame_word type flags stack ctrl len.
Proof.
  intros. change frame_headers.LengthMask with (2 ^ 13 - 1). rewrite land_mask, Z.mod_small by lia.
  rewrite (lor_add _ _ 13) by (unfold frame_word; zlia). unfold frame_word. lia.
Qed.

Lemma set_continue_word type stack ctrl :
  0 ≤ type < 256 → 0 ≤ stack < 16 → 0 ≤ ctrl < 8 →
  set_continue_flag (frame_word type 0 stack ctrl 0) = frame_word type 8 stack ctrl 0.
Proof.
  intros. unfold set_continue_flag. change (frame_flags.Continue ≪ frame_headers.FrameFlagsShift) with (2 ^ 23).
  unfold frame_word.
  transitivity ((type * 2 ^ 24) .| (stack * 2 ^ 16 + ctrl * 2 ^ 13) .| 2 ^ 23).
  { f_equal. rewrite (lor_add _ _ 24) by zlia. lia. }
  rewrite <- Z.lor_assoc, (Z.lor_comm (stack * 2 ^ 16 + ctrl * 2 ^ 13)).
  rewrite (lor_add (stack * 2 ^ 16 + ctrl * 2 ^ 13) (2 ^ 23) 23) by zlia.
  rewrite (lor_add _ _ 24) by zlia. lia.
Qed.

Lemma has_continue_word type flags stack ctrl len :
  0 ≤ type < 256 → type ≠ frame_headers.SystemEvent → flags = 0 ∨ flags = 8 →
  0 ≤ stack < 16 → 0 ≤ ctrl < 8 → 0 ≤ len < 8192 →
  has_continue (frame_word type flags stack ctrl len) = bool_decide (flags = 8).
Proof.
  intros. unfold has_continue. rewrite extract_frame_word by lia. cbn [fi_flags].
  by destruct H1 as [-> | ->].
Qed.

(** ** The generator's state *)

Section GeneratorFacts.
Context {D : Type} `{!WordBuffer D, !WordBufferLaws D}.
Context (maxWords crate event : Z).
Hypothesis (Hmax : 2 ≤ maxWords < 8192) (Hcrate : 0 ≤ crate < 8) (Hevent : 0 ≤ event < 15).

Definition stack_word_of (type flags len : Z) : Z := frame_word type flags (event + 1) crate len.
Definition block_word_of (flags len : Z) : Z := frame_word frame_headers.BlockRead flags 0 0 len.

Definition stack_type (t : Z) : Prop :=
  t = frame_headers.StackFrame ∨ t = frame_headers.StackContinuation.

Definition gen_params (gs : GenState D) : Prop :=
  frameMaxWords gs = maxWords ∧ gs_crateIndex gs = crate ∧ gs_eventIndex gs = event.

(** A stack frame is open behind [pre] with the words [body]; no block is open. *)
Record open_stack (gs : GenState D) (pre : list Z) (type : Z) (body : list Z) : Prop := {
  os_params : gen_params gs;
  os_type : stack_type type;
  os_ok : wbuf_ok (gs_dest gs);
  os_view : wbuf_view (gs_dest gs) = pre ++ stack_word_of type 0 0 :: body;
  os_stack : stackFrameState gs = mkFrameState (4 * zlen pre) (zlen body);
  os_block : blockFrameState gs = closed_frame;
  os_len : zlen body ≤ maxWords
}.

(** Inside of it a block frame is open behind [b] with the words [d]. *)
Record open_block (gs : GenState D) (pre : list Z) (type : Z) (b d : list Z) : Prop := {
  ob_params : gen_params gs;
  ob_type : stack_type type;
  ob_ok : wbuf_ok (gs_dest gs);
  ob_view : wbuf_view (gs_dest gs)
            = pre ++ stack_word_of type 0 0 :: b ++ block_word_of 0 0 :: d;
  ob_stack : stackFrameState gs = mkFrameState (4 * zlen pre) (zlen b + 1 + zlen d);
  ob_block : blockFrameState gs = mkFrameState (4 * (zlen pre + 1 + zlen b)) (zlen d);
  ob_len : zlen b + 1 + zlen d ≤ maxWords
}.

Lemma patch_header_law dest pre h post off n f :
  wbuf_ok dest → wbuf_view dest = pre ++ h :: post → off = 4 * zlen pre → is_u32 (f h) →
  ∃ d', patch_frame_header (mkFrameState off n) f dest = Return d'
        ∧ wbuf_ok d' ∧ wbuf_view d' = pre ++ f h :: post.
Proof.
  intros Hok Hv -> Hf. unfold patch_frame_header, is_frame_open. cbn [headerOffset].
  pose proof (zlen_nonneg pre). destruct (Z.geb_spec (4 * zlen pre) 0); [|lia]. cbn [negb].
  destruct (wbuf_patch_law dest (length pre) h f Hok) as [H1 H2]; [|done|].
  { by rewrite Hv, list_lookup_middle. }
  exists (wbuf_patch (4 * zlen pre) f dest). split_and!; [done|done|].
  unfold zlen. rewrite H2, Hv. by rewrite insert_app_r_alt, Nat.sub_diag by lia.
Qed.

Lemma patch_header_closed f (dest : D) : patch_frame_header closed_frame f dest = Undefined.
Proof. done. Qed.

Lemma stack_type_range t : stack_type t → 0 ≤ t < 256 ∧ t ≠ frame_headers.SystemEvent.
Proof. by intros [-> | ->]. Qed.

Lemma closing_law dest pre type flags st ct post off n :
  wbuf_ok dest → wbuf_view dest = pre ++ frame_word type flags st ct 0 :: post →
  off = 4 * zlen pre → 0 ≤ n < 8192 →
  0 ≤ type < 256 → 0 ≤ flags < 16 → 0 ≤ st < 16 → 0 ≤ ct < 8 →
  ∃ d', close_frame (mkFrameState off n) dest = Return (closed_frame, d')
        ∧ wbuf_ok d' ∧ wbuf_view d' = pre ++ frame_word type flags st ct n :: post.
Proof.
  intros Hok Hv Hoff Hn H1 H2 H3 H4. unfold close_frame. cbn [wordsWritten].
  destruct (patch_header_law dest pre _ post off n
    (λ h, h .& (0xffffffff .^ frame_headers.LengthMask)) Hok Hv Hoff) as (d1 & -> & Hok1 & Hv1).
  { rewrite clear_length_word by lia. apply frame_word_u32; lia. }
  rewrite clear_length_word in Hv1 by lia. cbn [mbind outcome_bind].
  destruct (patch_header_law d1 pre _ post off n
    (λ h, h .| (n .& frame_headers.LengthMask)) Hok1 Hv1 Hoff) as (d2 & -> & Hok2 & Hv2).
  { rewrite set_length_word by lia. apply frame_word_u32; lia. }
  rewrite set_length_word in Hv2 by lia. cbn [mbind outcome_bind]. by exists d2.
Qed.

Lemma stack_header_eq t gs :
  stack_type t → gen_params gs → stack_header t gs = stack_word_of t 0 0.
Proof.
  intros Ht (H1 & H2 & H3). apply stack_type_range in Ht as [Ht _].
  unfold stack_header, stack_word_of, frame_headers.TypeShift, frame_headers.StackNumShift,
    frame_headers.CtrlIdShift, u32, frame_word.
  rewrite H2, H3, !shiftl_mul by lia.
  rewrite (lor_add ((event + 1) * 2 ^ 16) (t * 2 ^ 24) 24) by zlia.
  rewrite (lor_add (crate * 2 ^ 13) (t * 2 ^ 24 + (event + 1) * 2 ^ 16) 16) by zlia.
  rewrite Z.mod_small by lia. lia.
Qed.

Lemma push_stack_header_law gs t pre :
  gen_params gs → stack_type t → wbuf_ok (gs_dest gs) → wbuf_view (gs_dest gs) = pre →
  blockFrameState gs = closed_frame → open_stack (push_stack_header t gs) pre t [].
Proof.
  intros Hp Ht Hok Hv Hb. unfold push_stack_header, push_frame_header.
  rewrite (stack_header_eq t gs Ht Hp).
  assert (Hu : is_u32 (stack_word_of t 0 0)).
  { apply stack_type_range in Ht as [? _]. apply frame_word_u32; lia. }
  destruct (wbuf_push_law (gs_dest gs) _ Hok Hu) as [Hok1 Hv1].
  split; cbn [set_stackFrame set_dest gs_dest stackFrameState blockFrameState]; try done.
  - by rewrite Hv1, Hv.
  - rewrite wbuf_used_view, Hv1, Hv, zlen_app by done. f_equal. autorewrite with mvlc_len. lia.
  - autorewrite with mvlc_len. lia.
Qed.

Lemma push_word_stack gs pre t body w :
  open_stack gs pre t body → zlen body < maxWords → is_u32 w →
  open_stack (push_data_word w gs) pre t (body ++ [w]).
Proof.
  intros [Hp Ht Hok Hv Hs Hb Hl] Hlt Hw.
  destruct (wbuf_push_law (gs_dest gs) w Hok Hw) as [Hok1 Hv1].
  pose proof (zlen_nonneg body).
  unfold push_data_word. unfold has_open_block_frame. cbn [set_dest blockFrameState]. rewrite Hb.
  cbn [is_frame_open closed_frame headerOffset Z.geb Z.compare].
  split; cbn [set_stackFrame set_dest gs_dest stackFrameState blockFrameState]; try done.
  - rewrite Hv1, Hv, <- app_assoc. done.
  - rewrite Hs. unfold inc_words. cbn [headerOffset wordsWritten]. f_equal.
    rewrite zlen_app. unfold u32. rewrite Z.mod_small; [done|]. lia.
  - autorewrite with mvlc_len. lia.
Qed.

Lemma push_word_block gs pre t b d w :
  open_block gs pre t b d → zlen b + 1 + zlen d < maxWords → is_u32 w →
  open_block (push_data_word w gs) pre t b (d ++ [w]).
Proof.
  intros [Hp Ht Hok Hv Hs Hb Hl] Hlt Hw.
  destruct (wbuf_push_law (gs_dest gs) w Hok Hw) as [Hok1 Hv1].
  pose proof (zlen_nonneg b). pose proof (zlen_nonneg d). pose proof (zlen_nonneg pre).
  unfold push_data_word. unfold has_open_block_frame. cbn [set_dest blockFrameState]. rewrite Hb.
  unfold is_frame_open. cbn [headerOffset].
  destruct (Z.geb_spec (4 * (zlen pre + 1 + zlen b)) 0); [|lia].
  split; cbn [set_stackFrame set_blockFrame set_dest gs_dest stackFrameState blockFrameState]; try done.
  - rewrite Hv1, Hv. by rewrite <- !app_assoc, <- !app_comm_cons, <- app_assoc.
  - rewrite Hs. unfold inc_words. cbn [headerOffset wordsWritten]. f_equal.
    rewrite zlen_app. unfold u32. rewrite Z.mod_small; [|lia]. autorewrite with mvlc_len. lia.
  - unfold inc_words. cbn [headerOffset wordsWritten]. f_equal.
    rewrite zlen_app. unfold u32. rewrite Z.mod_small; [done|]. lia.
  - autorewrite with mvlc_len. lia.
Qed.

Lemma start_new_block_frame_S depth (gs : GenState D) :
  start_new_block_frame (S depth) gs =
    (gs1 ← (if wordsWritten (stackFrameState gs) >=? u32 (frameMaxWords gs - 1)
            then continue_stack_frame depth gs else Return gs);
     Return (push_block_header gs1)).
Proof. done. Qed.

Lemma continue_stack_frame_S depth (gs : GenState D) :
  continue_stack_frame (S depth) gs =
    (gs1 ← (if has_open_block_frame gs then
              d ← patch_frame_header (blockFrameState gs) set_continue_flag (gs_dest gs);
              close_cur_block_frame (set_dest d gs)
            else Return gs);
     d ← patch_frame_header (stackFrameState gs1) set_continue_flag (gs_dest gs1);
     gs2 ← close_cur_stack_frame (set_dest d gs1);
     if has_open_block_frame gs
     then start_new_block_frame depth (push_stack_header frame_headers.StackContinuation gs2)
     else Return (push_stack_header frame_headers.StackContinuation gs2)).
Proof. done. Qed.

(** A stack frame is full: it is closed with the continue flag and a continuation
    is opened. *)
Lemma continue_stack_law depth gs pre t body :
  open_stack gs pre t body →
  ∃ gs', continue_stack_frame (S depth) gs = Return gs'
    ∧ open_stack gs' (pre ++ stack_word_of t 8 (zlen body) :: body)
        frame_headers.StackContinuation [].
Proof.
  intros [Hp Ht Hok Hv Hs Hb Hl]. destruct (stack_type_range t Ht) as [Htr _].
  pose proof (zlen_nonneg body). rewrite continue_stack_frame_S.
  assert (Hob : has_open_block_frame gs = false) by (unfold has_open_block_frame; by rewrite Hb).
  rewrite Hob. cbn [mbind outcome_bind]. rewrite Hs.
  destruct (patch_header_law (gs_dest gs) pre _ body (4 * zlen pre) (zlen body) set_continue_flag
    Hok Hv eq_refl) as (d1 & -> & Hok1 & Hv1).
  { unfold stack_word_of. rewrite set_continue_word by lia. apply frame_word_u32; lia. }
  unfold stack_word_of in Hv1. rewrite set_continue_word in Hv1 by lia.
  cbn [mbind outcome_bind]. unfold close_cur_stack_frame. cbn [set_dest stackFrameState gs_dest].
  rewrite Hs.
  destruct (closing_law d1 pre t 8 (event + 1) crate body (4 * zlen pre) (zlen body) Hok1 Hv1)
    as (d2 & -> & Hok2 & Hv2); [lia..|].
  cbn [mbind outcome_bind fst snd]. eexists. split; [reflexivity|].
  apply push_stack_header_law; try done. by right.
Qed.

Lemma push_block_header_law gs pre t body :
  open_stack gs pre t body → zlen body < maxWords →
  open_block (push_block_header gs) pre t body [].
Proof.
  intros [Hp Ht Hok Hv Hs Hb Hl] Hlt. unfold push_block_header, push_frame_header.
  change (u32 (frame_headers.BlockRead ≪ frame_headers.TypeShift)) with (block_word_of 0 0).
  assert (Hu : is_u32 (block_word_of 0 0)) by (by vm_compute).
  destruct (wbuf_push_law (gs_dest gs) _ Hok Hu) as [Hok1 Hv1].
  pose proof (zlen_nonneg body).
  assert (Hz : zlen (@nil Z) = 0) by done.
  split; cbn [set_stackFrame set_blockFrame set_dest gs_dest stackFrameState blockFrameState]; try done.
  - rewrite Hv1, Hv, <- app_assoc. done.
  - rewrite Hs. unfold inc_words. cbn [headerOffset wordsWritten]. f_equal.
    unfold u32. rewrite Z.mod_small; lia.
  - rewrite wbuf_used_view, Hv1, Hv by done. rewrite !zlen_app, zlen_cons, Hz.
    f_equal. autorewrite with mvlc_len. lia.
  - lia.
Qed.

(** The block frame is opened in the current stack frame or in a continuation. *)
Lemma start_block_law depth gs pre t body :
  open_stack gs pre t body →
  ∃ gs', start_new_block_frame (S (S depth)) gs = Return gs'
    ∧ (open_block gs' pre t body []
       ∨ (0 < zlen body
          ∧ open_block gs' (pre ++ stack_word_of t 8 (zlen body) :: body)
              frame_headers.StackContinuation [] [])).
Proof.
  intros Hos. pose proof Hos as [(Hp1 & Hp2 & Hp3) Ht Hok Hv Hs Hb Hl].
  rewrite start_new_block_frame_S, Hs, Hp1. cbn [wordsWritten].
  unfold u32. rewrite Z.mod_small by lia.
  destruct (Z.geb_spec (zlen body) (maxWords - 1)) as [Hge|Hlt].
  - destruct (continue_stack_law depth gs pre t body Hos) as (gs' & -> & Hos').
    cbn [mbind outcome_bind]. eexists. split; [reflexivity|]. right. split; [lia|].
    apply push_block_header_law; [done|]. autorewrite with mvlc_len. lia.
  - cbn [mbind outcome_bind]. eexists. split; [reflexivity|]. left.
    apply push_block_header_law; [done|lia].
Qed.

Lemma has_open_block gs pre t b d :
  open_block gs pre t b d → has_open_block_frame gs = true ∧ has_open_stack_frame gs = true.
Proof.
  intros [_ _ _ _ Hs Hb _]. unfold has_open_block_frame, has_open_stack_frame. rewrite Hb, Hs.
  unfold is_frame_open. cbn [headerOffset]. pose proof (zlen_nonneg pre). pose proof (zlen_nonneg b).
  destruct (Z.geb_spec (4 * (zlen pre + 1 + zlen b)) 0), (Z.geb_spec (4 * zlen pre) 0); lia || done.
Qed.

Lemma has_open_stack gs pre t body :
  open_stack gs pre t body → has_open_block_frame gs = false ∧ has_open_stack_frame gs = true.
Proof.
  intros [_ _ _ _ Hs Hb _]. unfold has_open_block_frame, has_open_stack_frame. rewrite Hb, Hs.
  unfold is_frame_open. cbn [headerOffset]. pose proof (zlen_nonneg pre).
  destruct (Z.geb_spec (4 * zlen pre) 0); lia || done.
Qed.

Lemma block_split pre t b d :
  pre ++ stack_word_of t 0 0 :: b ++ block_word_of 0 0 :: d
  = (pre ++ stack_word_of t 0 0 :: b) ++ block_word_of 0 0 :: d.
Proof. by rewrite <- app_assoc. Qed.

Lemma block_prefix_len pre t b :
  4 * (zlen pre + 1 + zlen b) = 4 * zlen (pre ++ stack_word_of t 0 0 :: b).
Proof. autorewrite with mvlc_len. lia. Qed.

(** Closing the block frame, with or without the continue flag set before. *)
Lemma close_block_law gs pre t b d :
  open_block gs pre t b d →
  ∃ gs', close_cur_block_frame gs = Return gs'
    ∧ open_stack gs' pre t (b ++ block_word_of 0 (zlen d) :: d).
Proof.
  intros [Hp Ht Hok Hv Hs Hb Hl]. unfold close_cur_block_frame. rewrite Hb.
  pose proof (zlen_nonneg b). pose proof (zlen_nonneg d).
  rewrite block_split in Hv.
  destruct (closing_law (gs_dest gs) _ _ 0 0 0 d _ (zlen d) Hok Hv (block_prefix_len pre t b))
    as (d' & -> & Hok' & Hv'); [lia|done|lia..|].
  cbn [mbind outcome_bind fst snd]. eexists. split; [reflexivity|].
  split; cbn [set_blockFrame set_dest gs_dest stackFrameState blockFrameState]; try done.
  - rewrite Hv', <- app_assoc. done.
  - rewrite Hs. f_equal. autorewrite with mvlc_len. lia.
  - autorewrite with mvlc_len. lia.
Qed.

Lemma continue_block_law depth gs pre t b d :
  open_block gs pre t b d →
  ∃ gs', continue_stack_frame (S (S depth)) gs = Return gs'
    ∧ open_block gs'
        (pre ++ stack_word_of t 8 (zlen b + 1 + zlen d) :: b ++ block_word_of 8 (zlen d) :: d)
        frame_headers.StackContinuation [] [].
Proof.
  intros Hob. pose proof (has_open_block _ _ _ _ _ Hob) as [Hhb _].
  destruct Hob as [Hp Ht Hok Hv Hs Hb Hl]. destruct (stack_type_range t Ht) as [Htr _].
  pose proof (zlen_nonneg b). pose proof (zlen_nonneg d).
  rewrite continue_stack_frame_S, Hhb, Hb. rewrite block_split in Hv.
  destruct (patch_header_law (gs_dest gs) _ _ d _ (zlen d) set_continue_flag
    Hok Hv (block_prefix_len pre t b)) as (d1 & -> & Hok1 & Hv1); [by vm_compute|].
  change (set_continue_flag (block_word_of 0 0)) with (block_word_of 8 0) in Hv1.
  cbn [mbind outcome_bind]. unfold close_cur_block_frame.
  cbn [set_dest blockFrameState gs_dest]. rewrite Hb.
  destruct (closing_law d1 _ _ 8 0 0 d _ (zlen d) Hok1 Hv1 (block_prefix_len pre t b))
    as (d2 & -> & Hok2 & Hv2); [lia|done|lia..|].
  cbn [mbind outcome_bind fst snd set_blockFrame set_dest stackFrameState gs_dest]. rewrite Hs.
  rewrite <- app_assoc in Hv2. cbn [app] in Hv2. fold (block_word_of 8 (zlen d)) in Hv2.
  destruct (patch_header_law d2 pre _ _ (4 * zlen pre) (zlen b + 1 + zlen d) set_continue_flag
    Hok2 Hv2 eq_refl) as (d3 & -> & Hok3 & Hv3).
  { unfold stack_word_of. rewrite set_continue_word by lia. apply frame_word_u32; lia. }
  unfold stack_word_of in Hv3. rewrite set_continue_word in Hv3 by lia.
  cbn [mbind outcome_bind]. unfold close_cur_stack_frame. cbn [set_dest stackFrameState gs_dest].
  change (stackFrameState (set_blockFrame ?a (set_dest ?x (set_dest ?y gs)))) with (stackFrameState gs). rewrite Hs.
  destruct (closing_law d3 pre t 8 (event + 1) crate _ (4 * zlen pre) (zlen b + 1 + zlen d) Hok3 Hv3)
    as (d4 & -> & Hok4 & Hv4); [lia..|].
  cbn [mbind outcome_bind fst snd].
  match goal with |- ∃ _, start_new_block_frame _ ?g = _ ∧ _ =>
    assert (Hos : open_stack g (pre ++ stack_word_of t 8 (zlen b + 1 + zlen d) :: b
      ++ block_word_of 8 (zlen d) :: d) frame_headers.StackContinuation [])
      by (apply push_stack_header_law; try done; by right);
    destruct g as [gd gm gc ge gst gbl] eqn:Eg end.
  rewrite start_new_block_frame_S. pose proof Hos as [(Hq & _ & _) _ _ _ Hst _ _].
  cbn [frameMaxWords stackFrameState] in Hq, Hst |- *. clear Eg. subst gm gst. cbn [wordsWritten].
  change (zlen (@nil Z)) with 0 at 1. unfold u32. rewrite Z.mod_small by lia.
  destruct (Z.geb_spec 0 (maxWords - 1)); [lia|]. cbn [mbind outcome_bind].
  eexists. split; [reflexivity|]. apply push_block_header_law; [done|].
  autorewrite with mvlc_len. lia.
Qed.

Lemma finish_event_law gs pre t body :
  open_stack gs pre t body →
  ∃ d, finish_event gs = Return d ∧ wbuf_ok d
       ∧ wbuf_view d = pre ++ stack_word_of t 0 (zlen body) :: body.
Proof.
  intros Hos. pose proof (has_open_stack _ _ _ _ Hos) as [_ Hhs].
  destruct Hos as [Hp Ht Hok Hv Hs Hb Hl]. destruct (stack_type_range t Ht) as [Htr _].
  pose proof (zlen_nonneg body). unfold finish_event. rewrite Hhs.
  unfold close_cur_stack_frame. rewrite Hs.
  destruct (closing_law (gs_dest gs) pre t 0 (event + 1) crate body _ (zlen body) Hok Hv eq_refl)
    as (d & -> & Hok' & Hv'); [lia..|].
  cbn [mbind outcome_bind fst snd]. eexists. by split_and!.
Qed.

(** ** The generator writes the encoding *)

Fixpoint write_all (write : Z → GenState D → outcome (GenState D)) (ws : list Z)
    (gs : GenState D) : outcome (GenState D) :=
  match ws with
  | [] => Return gs
  | w :: rest => gs1 ← write w gs; write_all write rest gs1
  end.

Definition gen_item (it : item) (gs : GenState D) : outcome (GenState D) :=
  match it with
  | FW w => write_non_block_word w gs
  | DYN ds =>
      gs1 ← start_new_block_frame gen_depth gs;
      gs2 ← write_all write_block_word ds gs1;
      close_cur_block_frame gs2
  end.

Fixpoint gen_items (items : list item) (gs : GenState D) : outcome (GenState D) :=
  match items with
  | [] => Return gs
  | it :: rest => gs1 ← gen_item it gs; gen_items rest gs1
  end.

Definition item_ok (it : item) : Prop :=
  match it with FW w => is_u32 w | DYN ds => Forall is_u32 ds end.

Abbreviation enc' := (enc (event + 1) crate).

Lemma stack_word_header type flags len :
  stack_type type → flags = 0 ∨ flags = 8 → 0 ≤ len < 8192 →
  is_stack_header (event + 1) crate type len (stack_word_of type flags len).
Proof.
  intros Ht Hf Hl. apply stack_type_range in Ht as [Ht1 Ht2]. unfold is_stack_header, stack_word_of.
  rewrite extract_frame_word by lia. done.
Qed.

Lemma block_word_header flags len :
  flags = 0 ∨ flags = 8 → 0 ≤ len < 8192 →
  is_block_header (bool_decide (flags = 8)) len (block_word_of flags len).
Proof.
  intros Hf Hl. unfold is_block_header, block_word_of.
  rewrite has_continue_word, extract_frame_word by (done || lia). done.
Qed.

(** The rest of the event, starting in an open stack frame with body [body]: the
    frame gets the words [X], [rest] follows, and together they encode the items. *)
Definition event_rest (items : list item) (gs : GenState D) (pre : list Z) (t : Z)
    (body : list Z) : Prop :=
  ∃ d flags X rest,
    (gs' ← gen_items items gs; finish_event gs') = Return d ∧ wbuf_ok d
    ∧ (flags = 0 ∨ flags = 8) ∧ zlen body + zlen X ≤ maxWords
    ∧ wbuf_view d = pre ++ stack_word_of t flags (zlen body + zlen X) :: body ++ X ++ rest
    ∧ enc' (zlen X) items (X ++ rest) ∧ (body = [] → items ≠ [] → 0 < zlen X).

Definition gen_correct (items : list item) : Prop :=
  ∀ gs pre t body, open_stack gs pre t body → event_rest items gs pre t body.

(** The same with an open block frame that holds [d] and has to get [ds]. *)
Definition block_rest (ds : list Z) (items : list item) (gs : GenState D) (pre : list Z) (t : Z)
    (b d : list Z) : Prop :=
  ∃ dd flags bflags X rest,
    (gs' ← (gs1 ← write_all write_block_word ds gs; close_cur_block_frame gs1);
     gs'' ← gen_items items gs'; finish_event gs'') = Return dd ∧ wbuf_ok dd
    ∧ (flags = 0 ∨ flags = 8) ∧ zlen b + 1 + zlen d + zlen X ≤ maxWords
    ∧ ∃ n, wbuf_view dd = pre ++ stack_word_of t flags (zlen b + 1 + zlen d + zlen X)
                            :: b ++ block_word_of bflags (zlen d + n) :: d ++ X ++ rest
    ∧ ((bflags = 0 ∧ n = zlen ds ∧ ∃ X', X = ds ++ X' ∧ enc' (zlen X') items (X' ++ rest))
       ∨ (bflags = 8 ∧ n = zlen X ∧ ∃ ds', ds = X ++ ds' ∧ enc' 0 (DYN ds' :: items) rest)).

(** Reading a block that starts a frame. *)
Lemma block_rest_enc ds items d X rest n bflags :
  0 ≤ n → zlen d + n < 8192 →
  ((bflags = 0 ∧ n = zlen ds ∧ ∃ X', X = ds ++ X' ∧ enc' (zlen X') items (X' ++ rest))
   ∨ (bflags = 8 ∧ n = zlen X ∧ ∃ ds', ds = X ++ ds' ∧ enc' 0 (DYN ds' :: items) rest)) →
  enc' (1 + zlen d + zlen X) (DYN (d ++ ds) :: items)
    (block_word_of bflags (zlen d + n) :: d ++ X ++ rest).
Proof.
  intros Hn Hl [(-> & -> & X' & -> & He)|(-> & -> & ds' & -> & He)]; pose proof (zlen_nonneg d).
  - assert (Hh := block_word_header 0 (zlen d + zlen ds) ltac:(by left) ltac:(lia)).
    rewrite <- zlen_app in Hh |- *.
    replace (1 + zlen d + zlen (ds ++ X')) with (zlen X' + zlen (d ++ ds) + 1)
      by (autorewrite with mvlc_len; lia).
    rewrite <- app_assoc, (app_assoc d ds). apply enc_block; [apply zlen_nonneg|done|done].
  - assert (Hh := block_word_header 8 (zlen d + zlen X) ltac:(by right) ltac:(lia)).
    rewrite <- zlen_app in Hh |- *.
    replace (1 + zlen d + zlen X) with (zlen (d ++ X) + 1) by (autorewrite with mvlc_len; lia).
    rewrite (app_assoc d X ds'), (app_assoc d X). by apply enc_block_cont.
Qed.

Lemma block_count_range ds items X rest n bflags :
  ((bflags = 0 ∧ n = zlen ds ∧ ∃ X', X = ds ++ X' ∧ enc' (zlen X') items (X' ++ rest))
   ∨ (bflags = 8 ∧ n = zlen X ∧ ∃ ds', ds = X ++ ds' ∧ enc' 0 (DYN ds' :: items) rest)) →
  0 ≤ n ≤ zlen X.
Proof.
  intros [(_ & -> & X' & -> & _)|(_ & -> & _)]; [|pose proof (zlen_nonneg X); lia].
  rewrite zlen_app. pose proof (zlen_nonneg X'). pose proof (zlen_nonneg ds). lia.
Qed.

Lemma write_block_word_room gs pre t b d w :
  open_block gs pre t b d → zlen b + 1 + zlen d < maxWords →
  write_block_word w gs = Return (push_data_word w gs).
Proof.
  intros Hob Hlt. pose proof (has_open_block _ _ _ _ _ Hob) as [H1 H2].
  destruct Hob as [(Hp & _) Ht Hok Hv Hs Hb Hl]. pose proof (zlen_nonneg b).
  unfold write_block_word. rewrite H2, Hs, Hp. cbn [negb wordsWritten].
  destruct (Z.geb_spec (zlen b + 1 + zlen d) maxWords); [lia|]. cbn [mbind outcome_bind].
  rewrite H1, Hb, Hp. cbn [negb wordsWritten].
  destruct (Z.geb_spec (zlen d) maxWords); [lia|]. done.
Qed.

Lemma write_block_word_full gs pre t b d w :
  open_block gs pre t b d → zlen b + 1 + zlen d = maxWords → is_u32 w →
  ∃ gs', write_block_word w gs = Return gs'
    ∧ open_block gs'
        (pre ++ stack_word_of t 8 (zlen b + 1 + zlen d) :: b ++ block_word_of 8 (zlen d) :: d)
        frame_headers.StackContinuation [] [w].
Proof.
  intros Hob Heq Hw. pose proof (has_open_block _ _ _ _ _ Hob) as [H1 H2].
  destruct (continue_block_law 1 gs pre t b d Hob) as (gs1 & Hc & Hob1).
  destruct Hob as [(Hp & _) Ht Hok Hv Hs Hb Hl].
  unfold write_block_word. rewrite H2, Hs, Hp. cbn [negb wordsWritten].
  destruct (Z.geb_spec (zlen b + 1 + zlen d) maxWords); [|lia].
  unfold gen_depth. rewrite Hc. cbn [mbind outcome_bind].
  pose proof (has_open_block _ _ _ _ _ Hob1) as [H3 H4].
  pose proof Hob1 as [(Hp1 & _) _ _ _ _ Hb1 _]. rewrite H3, Hb1, Hp1. cbn [negb wordsWritten].
  change (zlen (@nil Z)) with 0 at 1.
  destruct (Z.geb_spec 0 maxWords); [lia|]. cbn [mbind outcome_bind].
  eexists. split; [reflexivity|]. apply (push_word_block _ _ _ _ []); [done| |done].
  autorewrite with mvlc_len. lia.
Qed.

Lemma block_rest_correct items :
  gen_correct items →
  ∀ ds gs pre t b d, open_block gs pre t b d → Forall is_u32 ds → block_rest ds items gs pre t b d.
Proof.
  intros Htail. induction ds as [|w ds IH]; intros gs pre t b d Hob Hds.
  - destruct (close_block_law gs pre t b d Hob) as (gs1 & Hc & Hos).
    destruct (Htail gs1 pre t _ Hos) as (dd & flags & X & rest & Hg & Hok & Hf & Hl & Hv & He & _).
    exists dd, flags, 0, X, rest. cbn [write_all mbind outcome_bind]. rewrite Hc.
    cbn [mbind outcome_bind]. rewrite zlen_app, zlen_cons in Hl, Hv.
    split_and!; [done|done|done|lia|]. exists 0. split.
    + rewrite Hv, Z.add_0_r, <- app_assoc.
      replace (zlen b + (1 + zlen d) + zlen X) with (zlen b + 1 + zlen d + zlen X) by lia. done.
    + left. split_and!; [done|done|]. by exists X.
  - inversion Hds as [|? ? Hw Hds']; subst.
    destruct (decide (zlen b + 1 + zlen d < maxWords)) as [Hlt|Hge].
    + pose proof (push_word_block gs pre t b d w Hob Hlt Hw) as Hob1.
      destruct (IH _ _ _ _ _ Hob1 Hds')
        as (dd & flags & bflags & X & rest & Hg & Hok & Hf & Hl & n & Hv & Hcase).
      exists dd, flags, bflags, (w :: X), rest.
      cbn [write_all]. rewrite (write_block_word_room _ _ _ _ _ _ Hob Hlt).
      rewrite zlen_app, zlen_cons, zlen_nil in Hl, Hv. rewrite zlen_cons.
      split_and!; [exact Hg|done|done|lia|]. exists (n + 1). split.
      * rewrite Hv, <- !app_assoc.
        replace (zlen d + (1 + 0) + n) with (zlen d + (n + 1)) by lia.
        by replace (zlen b + 1 + (zlen d + (1 + 0)) + zlen X)
          with (zlen b + 1 + zlen d + (1 + zlen X)) by lia.
      * destruct Hcase as [(-> & -> & X' & -> & He)|(-> & -> & ds' & -> & He)]; [left|right].
        -- split_and!; [done|rewrite zlen_cons; lia|]. by exists X'.
        -- split_and!; [done|lia|]. by exists ds'.
    + pose proof (ob_len _ _ _ _ _ Hob).
      destruct (write_block_word_full gs pre t b d w Hob ltac:(lia) Hw) as (gs1 & Hw1 & Hob1).
      destruct (IH _ _ _ _ _ Hob1 Hds')
        as (dd & flags & bflags & X & rest & Hg & Hok & Hf & Hl & n & Hv & Hcase).
      exists dd, 8, 8, [],
        (stack_word_of frame_headers.StackContinuation flags (1 + zlen [w] + zlen X)
           :: block_word_of bflags (zlen [w] + n) :: [w] ++ X ++ rest).
      cbn [write_all]. rewrite Hw1.
      split_and!; [exact Hg|done|by right|rewrite zlen_nil; lia|]. exists 0. split.
      * rewrite Hv, zlen_nil, <- app_assoc, !Z.add_0_r. cbn [app]. by rewrite <- app_assoc.
      * right. split_and!; [done|done|]. exists (w :: ds). split; [done|].
        pose proof (zlen_nonneg X). assert (Hw0 : zlen [w] = 1) by done. rewrite zlen_nil in Hl.
        assert (Hn : 0 ≤ n ∧ zlen [w] + n < 8192).
        { pose proof (block_count_range _ _ _ _ _ _ Hcase). lia. }
        assert (He := block_rest_enc ds items [w] X rest n bflags (proj1 Hn) (proj2 Hn) Hcase).
        apply (enc_cont _ _ _ (1 + zlen [w] + zlen X)); [|autorewrite with mvlc_len; lia|done].
        apply stack_word_header; [by right|done|]. lia.
Qed.

Lemma write_fixed_word gs pre t body w :
  open_stack gs pre t body → is_u32 w →
  ∃ gs', write_non_block_word w gs = Return gs'
    ∧ ((zlen body < maxWords ∧ open_stack gs' pre t (body ++ [w]))
       ∨ (zlen body = maxWords
          ∧ open_stack gs' (pre ++ stack_word_of t 8 (zlen body) :: body)
              frame_headers.StackContinuation [w])).
Proof.
  intros Hos Hw. pose proof (has_open_stack _ _ _ _ Hos) as [_ H2].
  pose proof Hos as [(Hp & _) Ht Hok Hv Hs Hb Hl].
  unfold write_non_block_word. rewrite H2, Hs, Hp. cbn [negb wordsWritten].
  destruct (Z.geb_spec (zlen body) maxWords) as [Hge|Hlt].
  - destruct (continue_stack_law 2 gs pre t body Hos) as (gs1 & Hc & Hos1).
    unfold gen_depth. rewrite Hc. cbn [mbind outcome_bind]. eexists. split; [reflexivity|].
    right. split; [lia|]. apply (push_word_stack _ _ _ []); [done| |done].
    autorewrite with mvlc_len. lia.
  - cbn [mbind outcome_bind]. eexists. split; [reflexivity|]. left. split; [lia|].
    by apply push_word_stack.
Qed.

Lemma gen_word_correct w items :
  is_u32 w → gen_correct items → gen_correct (FW w :: items).
Proof.
  intros Hw IH gs pre t body Hos. unfold event_rest. cbn [gen_items].
  destruct (write_fixed_word gs pre t body w Hos Hw) as (gs1 & Hg1 & [[Hlt Hos1]|[Hge Hos1]]).
  - destruct (IH gs1 _ _ _ Hos1) as (d & flags & X & rest & Hg & Hok & Hf & Hl & Hv & He & _).
    exists d, flags, (w :: X), rest. cbn [gen_item]. rewrite Hg1.
    rewrite zlen_app, zlen_cons, zlen_nil in Hl, Hv. rewrite zlen_cons.
    split_and!; [done|done|done|lia| | |pose proof (zlen_nonneg X); lia].
    + rewrite Hv, <- app_assoc.
       by replace (zlen body + (1 + 0) + zlen X) with (zlen body + (1 + zlen X)) by lia.
    + rewrite (Z.add_comm 1 (zlen X)). apply enc_word; [apply zlen_nonneg|done].
  - destruct (IH gs1 _ _ _ Hos1) as (d & flags & X & rest & Hg & Hok & Hf & Hl & Hv & He & _).
    exists d, 8, [], (stack_word_of frame_headers.StackContinuation flags (zlen [w] + zlen X)
                        :: [w] ++ X ++ rest).
    cbn [gen_item]. rewrite Hg1. change (zlen (@nil Z)) with 0. rewrite !Z.add_0_r.
    split_and!; [done|done|by right|lia| | |].
    3: { intros ->. change (zlen (@nil Z)) with 0 in Hge. lia. }
    + rewrite Hv, <- app_assoc. done.
    + pose proof (zlen_nonneg X). apply (enc_cont _ _ _ (zlen [w] + zlen X)).
       * apply stack_word_header; [by right|done|]. autorewrite with mvlc_len in *. lia.
       * autorewrite with mvlc_len. lia.
       * replace (zlen [w] + zlen X) with (zlen X + 1) by (autorewrite with mvlc_len; lia).
          apply enc_word; [done|done].
Qed.

Lemma gen_block_correct ds items :
  Forall is_u32 ds → gen_correct items → gen_correct (DYN ds :: items).
Proof.
  intros Hds IH gs pre t body Hos. unfold event_rest. cbn [gen_items].
  unfold gen_item. destruct (start_block_law 1 gs pre t body Hos) as (gs1 & Hg1 & Hob).
  pose proof (zlen_nonneg body). unfold gen_depth. rewrite Hg1.
  change (Return gs1 ≫= ?f) with (f gs1). cbv beta. rewrite outcome_bind_assoc.
  destruct Hob as [Hob|[Hpos Hob]].
  - destruct (block_rest_correct items IH ds gs1 _ _ _ _ Hob Hds)
      as (dd & flags & bflags & X & rest & Hg & Hok & Hf & Hl & n & Hv & Hcase).
    exists dd, flags, (block_word_of bflags (zlen (@nil Z) + n) :: X), rest.
    change (zlen (@nil Z)) with 0 in *. rewrite zlen_cons.
    split_and!; [done|done|done|lia| | |pose proof (zlen_nonneg X); lia].
    + rewrite Hv.
       by replace (zlen body + 1 + 0 + zlen X) with (zlen body + (1 + zlen X)) by lia.
    + apply (block_rest_enc ds items [] X rest n bflags); [| |done];
         pose proof (block_count_range _ _ _ _ _ _ Hcase); change (zlen (@nil Z)) with 0; lia.
  - destruct (block_rest_correct items IH ds gs1 _ _ _ _ Hob Hds)
      as (dd & flags & bflags & X & rest & Hg & Hok & Hf & Hl & n & Hv & Hcase).
    exists dd, 8, [],
      (stack_word_of frame_headers.StackContinuation flags (1 + zlen X)
         :: block_word_of bflags (zlen (@nil Z) + n) :: X ++ rest).
    pose proof (os_len _ _ _ _ Hos). pose proof (zlen_nonneg X).
    change (zlen (@nil Z)) with 0 in *. rewrite !Z.add_0_r in *.
    split_and!; [done|done|by right|lia| | |].
    3: { intros ->. change (zlen (@nil Z)) with 0 in Hpos. lia. }
    + rewrite Hv, <- app_assoc. done.
    + apply (enc_cont _ _ _ (1 + zlen X)); [|lia|].
       * apply stack_word_header; [by right|done|lia].
       * apply (block_rest_enc ds items [] X rest n bflags); [| |done];
            pose proof (block_count_range _ _ _ _ _ _ Hcase); change (zlen (@nil Z)) with 0; lia.
Qed.

Lemma gen_items_correct items : Forall item_ok items → gen_correct items.
Proof.
  induction 1 as [|it items Hit Hits IH]; intros gs pre t body Hos; unfold event_rest.
  - destruct (finish_event_law gs pre t body Hos) as (d & Hf & Hok & Hv).
    exists d, 0, [], []. cbn [gen_items mbind outcome_bind app].
    rewrite app_nil_r. change (zlen (@nil Z)) with 0. rewrite !Z.add_0_r.
    pose proof (os_len _ _ _ _ Hos).
    split_and!; [done|done|by left|done|done|constructor|done].
  - destruct it as [w|ds]; [by apply gen_word_correct|by apply gen_block_correct].
Qed.

(** ** Modules and events *)

Lemma gen_items_app l1 l2 gs :
  gen_items (l1 ++ l2) gs = (gs1 ← gen_items l1 gs; gen_items l2 gs1).
Proof.
  revert gs; induction l1 as [|it l1 IH]; intros gs; [done|]. cbn [app gen_items].
  rewrite outcome_bind_assoc. by destruct (gen_item it gs); [apply IH| |].
Qed.

Lemma gen_items_fixed ws gs : gen_items (FW <$> ws) gs = write_all write_non_block_word ws gs.
Proof.
  revert gs; induction ws as [|w ws IH]; intros gs; [done|]. cbn [fmap list_fmap gen_items write_all gen_item].
  by destruct (write_non_block_word w gs); [apply IH| |].
Qed.

Lemma write_words_all write n data gs :
  (n ≤ length data)%nat →
  write_words write n data gs = (gs' ← write_all write (take n data) gs; Return (drop n data, gs')).
Proof.
  revert data gs; induction n as [|n IH]; intros data gs Hn; [by destruct data|].
  destruct data as [|w data]; cbn in Hn; [lia|]. cbn [write_words take drop write_all].
  rewrite outcome_bind_assoc. destruct (write w gs); [|done|done].
  cbn [mbind outcome_bind]. apply IH. lia.
Qed.

End GeneratorFacts.

(** Module data that is laid out the way the parser produces it. *)
Record module_data_wf (md : ModuleData) : Prop := {
  mw_prefix : 0 ≤ md_prefixSize md;
  mw_dynamic : 0 ≤ md_dynamicSize md;
  mw_suffix : 0 ≤ md_suffixSize md;
  mw_size : zlen (md_data md) = md_prefixSize md + md_dynamicSize md + md_suffixSize md;
  mw_dyn : md_hasDynamic md = false → md_dynamicSize md = 0;
  mw_words : Forall is_u32 (md_data md)
}.

Definition module_items (md : ModuleData) : list item :=
  (FW <$> prefix_span md)
  ++ (if md_hasDynamic md then [DYN (dynamic_span md)] else [])
  ++ (FW <$> suffix_span md).

Section EventFacts.
Context {D : Type} `{!WordBuffer D, !WordBufferLaws D}.

Lemma write_module_data_items md (gs : GenState D) :
  module_data_wf md → write_module_data md gs = gen_items (module_items md) gs.
Proof.
  intros [H1 H2 H3 H4 H5 H6]. unfold write_module_data, module_items.
  unfold zlen in H4. rewrite write_words_all by lia.
  rewrite !gen_items_app, gen_items_fixed. unfold prefix_span, ztake.
  rewrite outcome_bind_assoc. destruct (write_all _ _ gs) as [gs1|e|]; [|done|done].
  cbn [mbind outcome_bind fst snd].
  assert (Hd : (Z.to_nat (md_dynamicSize md) ≤ length (drop (Z.to_nat (md_prefixSize md)) (md_data md)))%nat)
    by (rewrite length_drop; lia).
  assert (Hsuf : ∀ gs', write_words write_non_block_word (Z.to_nat (md_suffixSize md))
      (drop (Z.to_nat (md_dynamicSize md)) (drop (Z.to_nat (md_prefixSize md)) (md_data md))) gs'
    = (gs'' ← gen_items (FW <$> suffix_span md) gs'; Return ([], gs''))).
  { intros gs'. rewrite drop_drop, write_words_all, gen_items_fixed by (rewrite length_drop; lia).
    unfold suffix_span, ztake, zdrop. rewrite Z2Nat.inj_add by lia.
    f_equal. rewrite drop_drop, drop_ge by lia. done. }
  destruct (md_hasDynamic md).
  - cbn [app gen_items gen_item]. rewrite !outcome_bind_assoc.
    destruct (start_new_block_frame gen_depth gs1) as [gs2|e|]; [|done|done].
    cbn [mbind outcome_bind]. rewrite write_words_all by done.
    unfold dynamic_span, ztake, zdrop. rewrite !outcome_bind_assoc.
    destruct (write_all write_block_word _ gs2) as [gs3|e|]; [|done|done].
    cbn [mbind outcome_bind fst snd].
    destruct (close_cur_block_frame gs3) as [gs4|e|]; [|done|done].
    cbn [mbind outcome_bind fst snd]. rewrite Hsuf.
    by destruct (gen_items _ gs4).
  - rewrite (H5 eq_refl) in Hsuf. cbn [Z.to_nat drop] in Hsuf.
    cbn [app gen_items mbind outcome_bind fst snd]. rewrite drop_0 in Hsuf. rewrite Hsuf.
    by destruct (gen_items _ gs1).
Qed.

Lemma write_modules_items mds (gs : GenState D) :
  Forall module_data_wf mds → write_modules mds gs = gen_items (mds ≫= module_items) gs.
Proof.
  intros H. revert gs; induction H as [|md mds Hmd Hmds IH]; intros gs; [done|].
  cbn [write_modules]. rewrite bind_cons, gen_items_app, write_module_data_items by done.
  by destruct (gen_items (module_items md) gs); [apply IH| |].
Qed.

Lemma module_items_ok md : module_data_wf md → Forall item_ok (module_items md).
Proof.
  intros [_ _ _ _ _ H]. unfold module_items, prefix_span, dynamic_span, suffix_span.
  apply Forall_app; split; [|apply Forall_app; split].
  - apply Forall_fmap, Forall_ztake, H.
  - destruct (md_hasDynamic md); [|constructor]. constructor; [|constructor].
    by apply Forall_ztake, Forall_zdrop.
  - apply Forall_fmap. by apply Forall_ztake, Forall_zdrop.
Qed.

(** [write_event_data] never fails on well-formed module data: it appends the
    framing of the event to the destination buffer. *)
Lemma write_event_data_frames (dest : D) crate event mds maxWords :
  2 ≤ maxWords < 8192 → 0 ≤ crate < 8 → 0 ≤ event < 15 →
  wbuf_ok dest → mds ≠ [] → Forall module_data_wf mds →
  ∃ d ws, write_event_data dest crate event mds maxWords = Return d ∧ wbuf_ok d
    ∧ wbuf_view d = wbuf_view dest ++ ws
    ∧ event_enc (event + 1) crate (mds ≫= module_items) ws.
Proof.
  intros Hmax Hcrate Hevent Hok Hne Hmds. unfold write_event_data.
  rewrite bool_decide_eq_false_2 by done. destruct (Z.leb_spec maxWords 1); [lia|]. cbn [orb].
  rewrite write_modules_items by done.
  destruct (wbuf_set_type_law dest USB Hok) as [Hok1 Hv1].
  assert (Hos : open_stack maxWords crate event
    (start_new_stack_frame (new_gen (wbuf_set_type USB dest) maxWords crate event))
    (wbuf_view dest) frame_headers.StackFrame []).
  { apply push_stack_header_law; try done. by left. }
  assert (Hits : Forall item_ok (mds ≫= module_items)).
  { clear -Hmds. induction Hmds as [|md mds Hmd _ IH]; [constructor|].
    rewrite bind_cons. apply Forall_app. split; [by apply module_items_ok|done]. }
  destruct (gen_items_correct maxWords crate event Hmax Hcrate Hevent _ Hits _ _ _ _ Hos)
    as (d & flags & X & rest & Hg & Hokd & Hf & Hl & Hv & He & Hpos).
  change (zlen (@nil Z)) with 0 in Hl, Hv. rewrite Z.add_0_l in Hl, Hv. cbn [app] in Hv.
  exists d, (stack_word_of crate event frame_headers.StackFrame flags (zlen X) :: X ++ rest).
  split_and!; [done|done|done|]. eexists _, (zlen X), _.
  split_and!; [done| |exact He|by apply Hpos].
  pose proof (zlen_nonneg X). apply stack_word_header; [done|done|by left|done|lia].
Qed.

End EventFacts.
