(* ===== verification/RoundTrip.v ===== *)
(** * Parsing generated listfiles

    The words that [write_event_data] produces are parsed back by the readout
    parser: exactly one [eventData] call with the same crate, event and module
    data, for every frame size and every split of the event into stack and block
    frames.  The parser is followed along the encoding of Framing, one round of its
    loop at a time. *)

From S2P Require Import Prelude Constants Frames FramesFacts Commands ReadoutBuffer ReadoutParser.
From S2P Require Import ParserSteps ParserSafety ListfileGen Framing.

(** ** The contents of the work buffer *)

Definition filled (s : ReadoutParserState) : list Z :=
  ztake (wb_used (workBuffer s)) (wb_buffer (workBuffer s)).

(** The offset of a module in the work buffer. *)
Definition offset (mds : list ModuleData) (k : nat) : Z :=
  zlen (concat (md_data <$> take k mds)).

(** The spans of a module that consists of [p], [d] and [s] from offset [o] on. *)
Record layout (o : Z) (p d s : list Z) (m : ModuleReadoutSpans) : Prop := {
  ly_prefix : sp_size (prefixSpan m) = zlen p;
  ly_dynamic : sp_size (dynamicSpan m) = zlen d;
  ly_suffix : sp_size (suffixSpan m) = zlen s;
  ly_prefix_at : p ≠ [] → sp_offset (prefixSpan m) = o;
  ly_dynamic_at : d ≠ [] → sp_offset (dynamicSpan m) = o + zlen p;
  ly_suffix_at : s ≠ [] → sp_offset (suffixSpan m) = o + zlen p + zlen d
}.

(** The modules before [mi] are complete, module [mi] has [p], [d] and [s]. *)
Record content (mds : list ModuleData) (mi : nat) (p d s : list Z) (st : ReadoutParserState)
  : Prop := {
  ct_filled : filled st = concat (md_data <$> take mi mds) ++ p ++ d ++ s;
  ct_done : ∀ j md m, (j < mi)%nat → mds !! j = Some md → readoutDataSpans st !! j = Some m →
    layout (offset mds j) (prefix_span md) (dynamic_span md) (suffix_span md) m;
  ct_cur : ∀ m, readoutDataSpans st !! mi = Some m → layout (offset mds mi) p d s m;
  ct_blank : ∀ j m, (mi < j)%nat → readoutDataSpans st !! j = Some m → module_blank m
}.

Lemma content_used mds mi p d s st :
  content mds mi p d s st → 0 ≤ wb_used (workBuffer st) ≤ zlen (wb_buffer (workBuffer st)) →
  wb_used (workBuffer st) = offset mds mi + zlen p + zlen d + zlen s.
Proof.
  intros [Hf _ _ _] Hu. apply (f_equal zlen) in Hf. unfold filled in Hf.
  rewrite zlen_ztake in Hf by done. autorewrite with mvlc_len in Hf. unfold offset. lia.
Qed.

Lemma ztake_overwrite buf off src :
  0 ≤ off → off + zlen src ≤ zlen buf →
  ztake (off + zlen src) (overwrite buf off src) = ztake off buf ++ src.
Proof.
  intros H1 H2. pose proof (zlen_nonneg src). unfold overwrite.
  replace (off + zlen src) with (zlen (ztake off buf ++ src)) at 1
    by (rewrite zlen_app, zlen_ztake; lia).
  rewrite app_assoc. apply ztake_app.
Qed.

Lemma ztake_ensure_free_space n b :
  0 ≤ wb_used b ≤ zlen (wb_buffer b) →
  ztake (wb_used b) (wb_buffer (ensure_free_space n b)) = ztake (wb_used b) (wb_buffer b).
Proof.
  intros Hu. unfold ensure_free_space. destruct (_ <? _); [|done]. cbn [wb_buffer].
  unfold ztake, zlen in *. rewrite take_app_le by lia. done.
Qed.

Lemma filled_copied n w :
  base_inv (w_state w) → 0 ≤ n ≤ zlen (w_input w) →
  filled (w_state (copied n w)) = filled (w_state w) ++ ztake n (w_input w).
Proof.
  intros Hb Hn. pose proof (bi_used _ Hb) as Hu. unfold filled.
  pose proof (ensure_free_space_size n (workBuffer (w_state w)) (proj1 Hn) Hu) as Hs.
  assert (Hz := zlen_ztake n (w_input w) Hn).
  cbn -[ensure_free_space overwrite].
  rewrite ztake_overwrite by (rewrite Hz, ensure_free_space_used; lia).
  by rewrite ensure_free_space_used, ztake_ensure_free_space.
Qed.

(** Copying [n] words into a part of the current module. *)
Lemma content_take mds mi p d s p' d' s' w set sp n m :
  content mds mi p d s (w_state w) → base_inv (w_state w) → 0 ≤ n ≤ zlen (w_input w) →
  readoutDataSpans (w_state w) !! mi = Some m →
  p' ++ d' ++ s' = (p ++ d ++ s) ++ ztake n (w_input w) →
  layout (offset mds mi) p' d' s' (set (extend_span (wb_used (workBuffer (w_state w))) n sp) m) →
  content mds mi p' d' s' (w_state (part_taken set sp n (Z.of_nat mi) w)).
Proof.
  intros [Hf Hd Hc Hbl] Hb Hn Hm Heq Hl. unfold part_taken. split.
  - change (filled (w_state (map_spans ?a ?b ?v))) with (filled (w_state v)).
    rewrite filled_copied, Hf by done. rewrite <- app_assoc. f_equal. by rewrite Heq.
  - intros j md m' Hj Hmd Hm'. cbn in Hm'. rewrite Nat2Z.id, list_lookup_alter_ne in Hm' by lia.
    by apply Hd.
  - intros m' Hm'. cbn in Hm'. rewrite Nat2Z.id, list_lookup_alter_eq, Hm in Hm'.
    by injection Hm' as <-.
  - intros j m' Hj Hm'. cbn in Hm'. rewrite Nat2Z.id, list_lookup_alter_ne in Hm' by lia.
    by apply (Hbl j).
Qed.

Lemma zlen_0_nil {A} (l : list A) : zlen l = 0 → l = [].
Proof. apply zlen_0. Qed.

Lemma extend_span_size used n sp : sp_size (extend_span used n sp) = sp_size sp + n.
Proof. done. Qed.

Lemma extend_span_offset used n sp :
  sp_offset (extend_span used n sp) = if sp_size sp =? 0 then used else sp_offset sp.
Proof. done. Qed.

Lemma layout_take_prefix o p c m used :
  layout o p [] [] m → used = o + zlen p →
  layout o (p ++ c) [] [] (set_prefixSpan (extend_span used (zlen c) (prefixSpan m)) m).
Proof.
  intros [H1 H2 H3 H4 H5 H6] Hu. split; cbn [set_prefixSpan prefixSpan dynamicSpan suffixSpan]; try done.
  - rewrite extend_span_size, zlen_app. lia.
  - intros _. rewrite extend_span_offset. destruct (Z.eqb_spec (sp_size (prefixSpan m)) 0); [lia|].
    apply H4. intros ->. by rewrite H1 in n.
Qed.

Lemma layout_take_dynamic o p d c m used :
  layout o p d [] m → used = o + zlen p + zlen d →
  layout o p (d ++ c) [] (set_dynamicSpan (extend_span used (zlen c) (dynamicSpan m)) m).
Proof.
  intros [H1 H2 H3 H4 H5 H6] Hu. split; cbn [set_dynamicSpan prefixSpan dynamicSpan suffixSpan]; try done.
  - rewrite extend_span_size, zlen_app. lia.
  - intros _. rewrite extend_span_offset. destruct (Z.eqb_spec (sp_size (dynamicSpan m)) 0); [lia|].
    apply H5. intros ->. by rewrite H2 in n.
Qed.

Lemma layout_take_suffix o p d s c m used :
  layout o p d s m → used = o + zlen p + zlen d + zlen s →
  layout o p d (s ++ c) (set_suffixSpan (extend_span used (zlen c) (suffixSpan m)) m).
Proof.
  intros [H1 H2 H3 H4 H5 H6] Hu. split; cbn [set_suffixSpan prefixSpan dynamicSpan suffixSpan]; try done.
  - rewrite extend_span_size, zlen_app. lia.
  - intros _. rewrite extend_span_offset. destruct (Z.eqb_spec (sp_size (suffixSpan m)) 0); [lia|].
    apply H6. intros ->. by rewrite H3 in n.
Qed.

(** ** Rounds of the loop *)

(** Parsing [w] comes down to parsing [w']. *)
Definition runs (w w' : World) : Prop :=
  ∃ k, ∀ fuel, contents_loop (k + fuel) false w = contents_loop fuel false w'.

Lemma runs_refl w : runs w w.
Proof. by exists 0%nat. Qed.

Lemma runs_trans w1 w2 w3 : runs w1 w2 → runs w2 w3 → runs w1 w3.
Proof.
  intros [k1 H1] [k2 H2]. exists (k1 + k2)%nat. intros fuel.
  by rewrite <- Nat.add_assoc, H1, H2.
Qed.

Lemma runs_step w r w' :
  w_input w ≠ [] → parse_iteration false w = (r, w') → r = Go tt ∨ r = Continue_ → runs w w'.
Proof.
  intros Hi Hp Hr. exists 1%nat. intros fuel. cbn [Nat.add contents_loop].
  destruct (w_input w) as [|h rest]; [done|]. rewrite Hp. by destruct Hr as [-> | ->].
Qed.

Lemma contents_loop_mono fuel n w r :
  contents_loop fuel false w = Some r → contents_loop (fuel + n) false w = Some r.
Proof.
  revert w; induction fuel as [|fuel IH]; intros w; [done|]. cbn [Nat.add contents_loop].
  destruct (w_input w); [done|].
  destruct (parse_iteration false w) as [[u| |pr|e|] w']; auto.
Qed.

(** The whole input is consumed. *)
Lemma runs_contents B w w' :
  B ≤ 2 ^ 32 → world_inv B w → runs w w' → w_input w' = [] →
  parse_readout_contents false w = Some (Return Ok, w').
Proof.
  intros HB Hw [k Hk] Hi.
  destruct (parse_readout_contents_ok B HB false w Hw) as (r & w1 & Hp & _).
  rewrite Hp. unfold parse_readout_contents in Hp.
  apply (contents_loop_mono _ (k + 1)) in Hp.
  replace (2 * length (w_input w) + 2 + (k + 1))%nat
    with (k + S (2 * length (w_input w) + 2))%nat in Hp by lia.
  rewrite Hk in Hp. cbn [contents_loop] in Hp. by rewrite Hi in Hp.
Qed.

(** The part of a round that follows the search for a stack frame. *)
Definition round_body (lastInput : list Z) (mods : list ModuleReadoutStructure) : PM unit :=
  parse_module mods;;
  upd_state (λ s, set_moduleIndex
    (skip_empty_modules (zdrop (moduleIndex s) mods) (moduleIndex s)) s);;
  s' ← get_state;
  when (moduleIndex s' >=? zlen mods) (flush_event mods);;
  input ← get_input;
  when (zlen input =? zlen lastInput) (return_ ParseReadoutContentsNotAdvancing).

Lemma round_from_frame w w1 mods :
  find_stack_frame false w = (Go tt, w1) →
  0 ≤ eventIndex (w_state w1) →
  readoutStructure (w_state w1) !! Z.to_nat (eventIndex (w_state w1)) = Some mods →
  get_frame_length (fps_header (curStackFrame (w_state w1))) ≠ 0 → mods ≠ [] →
  parse_iteration false w = round_body (w_input w) mods w1.
Proof.
  intros Hf He Hm Hl Hne. unfold parse_iteration. rewrite bind_get_input.
  rewrite (bind_Go _ _ _ _ _ Hf), bind_get_state, (bind_at_index _ _ mods) by done.
  destruct (Z.eqb_spec (get_frame_length (fps_header (curStackFrame (w_state w1)))) 0); [done|].
  by rewrite bool_decide_eq_false_2.
Qed.

Lemma find_open_frame w :
  0 < fps_wordsLeft (curStackFrame (w_state w)) → find_stack_frame false w = (Go tt, w).
Proof.
  intros Hs. unfold find_stack_frame. rewrite bind_get_state. unfold fps_bool.
  by destruct (Z.eqb_spec (fps_wordsLeft (curStackFrame (w_state w))) 0); [lia|].
Qed.

Definition continued (h : Z) (rest : list Z) (w : World) : World :=
  with_input rest (map_state (set_curStackFrame (new_frame h)) w).

Lemma not_system_event h t :
  fi_type (extract_frame_info h) = t → t ≠ frame_headers.SystemEvent →
  (get_frame_type h =? frame_headers.SystemEvent) = false.
Proof. rewrite fi_type_eq. intros -> Hn. by apply Z.eqb_neq. Qed.

Lemma find_continuation w h rest stack crate L :
  fps_wordsLeft (curStackFrame (w_state w)) = 0 →
  fps_wordsLeft (curBlockFrame (w_state w)) = 0 →
  w_input w = h :: rest →
  is_stack_header stack crate frame_headers.StackContinuation L h → 0 < L →
  0 ≤ eventIndex (w_state w) → stack = eventIndex (w_state w) + 1 →
  find_stack_frame false w = (Go tt, continued h rest w).
Proof.
  intros Hs Hb Hi (Ht & Hst & Hc & Hlen) HL He ->. unfold find_stack_frame.
  rewrite bind_get_state. unfold fps_bool. rewrite Hs, Hb. cbn [negb Z.eqb]. rewrite when_true.
  rewrite (bind_Go _ _ w false w).
  2: { rewrite (try_handle_system_event_eq w h rest Hi).
       by rewrite (not_system_event h _ Ht). }
  unfold is_event_in_progress. destruct (Z.geb_spec (eventIndex (w_state w)) 0); [|lia].
  unfold next_continuation_frame. rewrite bind_get_state, bind_get_input, Hi, Ht, Hst.
  replace (eventIndex (w_state w) + 1 - 1) with (eventIndex (w_state w)) by lia.
  rewrite !Z.eqb_refl. cbn [negb]. rewrite bind_upd_state, bind_remove_prefix.
  destruct (Z.eqb_spec (fps_wordsLeft (new_frame h)) 0) as [H0|H0].
  - cbn [new_frame fps_wordsLeft] in H0. lia.
  - rewrite when_false. cbn [map_state w_input]. by rewrite Hi.
Qed.

(** The end of a round after a module is finished or left unfinished. *)
Lemma round_body_continue li mods w w' :
  parse_module mods w = (Continue_, w') → round_body li mods w = (Continue_, w').
Proof. intros H. unfold round_body, mbind, PM_bind. by rewrite H. Qed.

Lemma round_body_go li mods w w1 :
  parse_module mods w = (Go tt, w1) → zlen (w_input w1) ≠ zlen li →
  let k := skip_empty_modules (zdrop (moduleIndex (w_state w1)) mods) (moduleIndex (w_state w1)) in
  k < zlen mods → round_body li mods w = (Go tt, map_state (set_moduleIndex k) w1).
Proof.
  intros H Hz k Hk. unfold round_body. rewrite (bind_Go _ _ _ _ _ H), bind_upd_state, bind_get_state.
  change (moduleIndex (w_state (map_state _ w1))) with k at 1.
  change (map_state _ w1) with (map_state (set_moduleIndex k) w1) at 1.
  destruct (Z.geb_spec k (zlen mods)); [lia|].
  rewrite (bind_Go (when false _) _ _ tt _ eq_refl), bind_get_input.
  cbn [map_state w_input]. by destruct (Z.eqb_spec (zlen (w_input w1)) (zlen li)).
Qed.

Lemma round_body_flush li mods w w1 :
  parse_module mods w = (Go tt, w1) → zlen (w_input w1) ≠ zlen li →
  let k := skip_empty_modules (zdrop (moduleIndex (w_state w1)) mods) (moduleIndex (w_state w1)) in
  k = zlen mods →
  (length mods ≤ length (readoutDataSpans (w_state w1)))%nat →
  (length mods ≤ length (moduleDataBuffer (w_state w1)))%nat →
  ∃ c, round_body li mods w
       = (Go tt, flushed c (event_module_data (w_state w1) 0 mods) (map_state (set_moduleIndex k) w1)).
Proof.
  intros H Hz k Hk Hl1 Hl2.
  destruct (flush_event_eq mods (map_state (set_moduleIndex k) w1) Hl1 Hl2) as [c Hc].
  exists c. unfold round_body. rewrite (bind_Go _ _ _ _ _ H), bind_upd_state, bind_get_state.
  change (moduleIndex (w_state (map_state _ w1))) with k at 1.
  destruct (Z.geb_spec k (zlen mods)); [|lia].
  change (when true (flush_event mods)) with (flush_event mods).
  change (map_state _ w1) with (map_state (set_moduleIndex k) w1) at 1.
  rewrite (bind_Go _ _ _ _ _ Hc), bind_get_input.
  cbn [flushed map_state w_input].
  by destruct (Z.eqb_spec (zlen (w_input w1)) (zlen li)).
Qed.

(** ** Following the encoding *)

(** The module data fits the readout structure of its module.  (The fill words of
    2eSST transfers are the subject of [trim_2eSST].) *)
Record matches (parts : ModuleReadoutStructure) (md : ModuleData) : Prop := {
  mt_prefix : prefixLen parts = md_prefixSize md;
  mt_suffix : suffixLen parts = md_suffixSize md;
  mt_dynamic : hasDynamic parts = md_hasDynamic md;
  mt_esst : isMesytecAndUsing2eSST parts = false;
  mt_size : md_size md = zlen (md_data md);
  mt_wf : module_data_wf md
}.

Lemma prefix_span_len md : module_data_wf md → zlen (prefix_span md) = md_prefixSize md.
Proof. intros []. unfold prefix_span. rewrite zlen_ztake; lia. Qed.

Lemma dynamic_span_len md : module_data_wf md → zlen (dynamic_span md) = md_dynamicSize md.
Proof. intros []. unfold dynamic_span. rewrite zlen_ztake; rewrite ?zlen_zdrop; lia. Qed.

Lemma suffix_span_len md : module_data_wf md → zlen (suffix_span md) = md_suffixSize md.
Proof. intros []. unfold suffix_span. rewrite zlen_ztake; rewrite ?zlen_zdrop; lia. Qed.

Lemma spans_data md :
  module_data_wf md → prefix_span md ++ dynamic_span md ++ suffix_span md = md_data md.
Proof.
  intros [H1 H2 H3 H4 H5 H6]. unfold prefix_span, dynamic_span, suffix_span, ztake, zdrop.
  rewrite Z2Nat.inj_add, <- drop_drop by lia. unfold zlen in H4.
  rewrite (take_ge (drop _ (drop _ _))) by (rewrite !length_drop; lia).
  by rewrite take_drop, take_drop.
Qed.

(** A module without data producing commands contributes nothing. *)
Lemma module_items_empty parts md :
  matches parts md → mrs_is_empty parts = true →
  module_items md = [] ∧ md_data md = [] ∧ md = empty_module_data.
Proof.
  intros [H1 H2 H3 H4 H5 Hwf] He. unfold mrs_is_empty in He. breflect.
  assert (Hp := prefix_span_len md Hwf). assert (Hs := suffix_span_len md Hwf).
  pose proof Hwf as [_ _ _ Hsz Hd _]. rewrite H0 in H3. specialize (Hd (eq_sym H3)).
  assert (Hdata : md_data md = []) by (apply zlen_0_nil; lia).
  split_and!; [|done|].
  - unfold module_items. rewrite <- H3.
    rewrite (zlen_0_nil (prefix_span md)), (zlen_0_nil (suffix_span md)) by lia. done.
  - destruct md as [data size p d s h]. cbn in *. unfold empty_module_data.
    subst data. change (zlen (@nil Z)) with 0 in H5. f_equal; lia || done.
Qed.

(** What is left of module [md] after [p], [d] and [s]. *)
Definition rem_items (g : GroupParseState) (md : ModuleData) (p d s : list Z)
    (items : list item) : Prop :=
  match g with
  | Prefix =>
      d = [] ∧ s = [] ∧ ∃ p', prefix_span md = p ++ p' ∧ (p = [] ∨ p' ≠ [])
        ∧ items = (FW <$> p') ++ (if md_hasDynamic md then [DYN (dynamic_span md)] else [])
                  ++ (FW <$> suffix_span md)
        ∧ items ≠ []
  | Dynamic =>
      p = prefix_span md ∧ s = [] ∧ md_hasDynamic md = true
      ∧ ∃ d', dynamic_span md = d ++ d' ∧ items = DYN d' :: (FW <$> suffix_span md)
  | Suffix =>
      p = prefix_span md ∧ d = dynamic_span md
      ∧ ∃ s', suffix_span md = s ++ s' ∧ s' ≠ [] ∧ items = FW <$> s'
  end.

(** A module with data producing commands has something to read. *)
Lemma module_items_nonempty parts md :
  matches parts md → mrs_is_empty parts = false → module_items md ≠ [].
Proof.
  intros [M1 M2 M3 _ _ Mwf] Hne Hnil. unfold mrs_is_empty in Hne. rewrite M1, M2, M3 in Hne.
  rewrite <- (prefix_span_len md Mwf), <- (suffix_span_len md Mwf) in Hne.
  apply app_eq_nil in Hnil as [H1 [H2 H3]%app_eq_nil]. apply fmap_nil_inv in H1, H3.
  rewrite H1, H3 in Hne. by destruct (md_hasDynamic md).
Qed.

Lemma rem_items_nonempty g md p d s items : rem_items g md p d s items → items ≠ [].
Proof.
  destruct g.
  - by intros (_ & _ & p' & _ & _ & _ & ?).
  - by intros (_ & _ & _ & d' & _ & ->).
  - intros (_ & _ & s' & _ & Hs & ->). by intros ?%fmap_nil_inv.
Qed.

Lemma rem_items_module parts g md p d s items :
  matches parts md → rem_items g md p d s items → mrs_is_empty parts = false.
Proof.
  intros Hm Hrem. destruct (mrs_is_empty parts) eqn:He; [exfalso|done].
  destruct (module_items_empty _ _ Hm He) as (_ & _ & ->).
  destruct g; cbn in Hrem.
  - destruct Hrem as (_ & _ & p' & Hp & _ & -> & Hne). destruct p, p'; done.
  - by destruct Hrem as (_ & _ & ? & _).
  - destruct Hrem as (_ & _ & s' & Hs & Hne & _). destruct s, s'; done.
Qed.

(** The module after a complete one. *)
Lemma content_next mds mi md st :
  mds !! mi = Some md → module_data_wf md →
  content mds mi (prefix_span md) (dynamic_span md) (suffix_span md) st →
  content mds (S mi) [] [] [] st.
Proof.
  intros Hmd Hwf [Hf Hd Hc Hb]. split.
  - rewrite Hf, (take_S_r _ _ _ Hmd), fmap_app, concat_app, spans_data by done.
    cbn. by rewrite !app_nil_r.
  - intros j md' m Hj Hmd' Hm. destruct (decide (j = mi)) as [->|]; [|apply (Hd j); [lia|done|done]].
    rewrite Hmd in Hmd'. injection Hmd' as <-. by apply Hc.
  - intros m Hm. destruct (Hb (S mi) m ltac:(lia) Hm) as (?&?&?). by split.
  - intros j m Hj. apply Hb. lia.
Qed.

Lemma skip_modules mods mds st i k :
  Forall2 matches mods mds → content mds i [] [] [] st → (i ≤ length mods)%nat →
  k = skip_empty_modules (drop i mods) (Z.of_nat i) →
  ∃ k', k = Z.of_nat k' ∧ (i ≤ k' ≤ length mods)%nat ∧ content mds k' [] [] [] st
    ∧ (drop i mds ≫= module_items) = (drop k' mds ≫= module_items)
    ∧ ((k' < length mods)%nat →
       ∃ parts, mods !! k' = Some parts ∧ mrs_is_empty parts = false).
Proof.
  intros HF Hct Hi ->. remember (drop i mods) as l eqn:El.
  revert i El Hct Hi; induction l as [|parts l IH]; intros i El Hct Hi; cbn [skip_empty_modules].
  - exists i. split_and!; try done. intros Hlt. apply (f_equal length) in El.
    rewrite length_drop in El. cbn in El. lia.
  - assert (Hp : mods !! i = Some parts).
    { apply (f_equal (λ l, l !! 0%nat)) in El. by rewrite lookup_drop, Nat.add_0_r in El. }
    destruct (mrs_is_empty parts) eqn:He; [|exists i; split_and!; try done; eauto].
    destruct (Forall2_lookup_l _ _ _ _ _ HF Hp) as (md & Hmd & Hm).
    destruct (module_items_empty parts md Hm He) as (Hit & Hdata & Heq).
    assert (Hlt := lookup_lt_Some _ _ _ Hp).
    destruct (IH (S i)) as (k' & Hk & Hr & Hct' & Hb & Hne).
    + rewrite (drop_S _ _ _ Hp) in El. by injection El.
    + apply (content_next mds i md); [done|by destruct Hm|]. by rewrite Heq in *.
    + lia.
    + exists k'. replace (Z.of_nat i + 1) with (Z.of_nat (S i)) by lia.
      split_and!; try done; try lia. rewrite (drop_S _ _ _ Hmd), bind_cons, Hit. done.
Qed.

Section Reading.
Context (crate event : Z) (mods : list ModuleReadoutStructure) (mds : list ModuleData).
Hypothesis (Hmatch : Forall2 matches mods mds).

(** The parser is in the middle of the event, in part [g] of module [mi]. *)
Record reading (mi : nat) (g : GroupParseState) (p d s : list Z) (w : World) : Prop := {
  rg_event : eventIndex (w_state w) = event;
  rg_event_pos : 0 ≤ event;
  rg_mods : readoutStructure (w_state w) !! Z.to_nat event = Some mods;
  rg_index : moduleIndex (w_state w) = Z.of_nat mi;
  rg_lt : (mi < length mods)%nat;
  rg_part : groupParseState (w_state w) = g;
  rg_block : fps_wordsLeft (curBlockFrame (w_state w)) = 0;
  rg_crate : fi_ctrl (fps_info (curStackFrame (w_state w))) = crate;
  rg_content : content mds mi p d s (w_state w)
}.

Lemma match_lookup mi parts :
  mods !! mi = Some parts → ∃ md, mds !! mi = Some md ∧ matches parts md.
Proof. intros H. by eapply Forall2_lookup_l. Qed.

(** A run of fixed words: the frame holds [n] of them. *)
Lemma enc_fixed stack c L ws0 items ws :
  enc stack c L ((FW <$> ws0) ++ items) ws → 0 ≤ L →
  let n := Z.min (zlen ws0) L in
  ∃ ws', ws = ztake n ws0 ++ ws' ∧ enc stack c (L - n) ((FW <$> zdrop n ws0) ++ items) ws'.
Proof.
  revert L ws; induction ws0 as [|w ws0 IH]; intros L ws He HL n; subst n.
  { change (zlen (@nil Z)) with 0. rewrite Z.min_l, Z.sub_0_r by lia. by exists ws. }
  destruct (decide (L = 0)) as [->|Hne].
  { pose proof (zlen_nonneg (w :: ws0)). rewrite Z.min_r by lia. by exists ws. }
  inversion He as [| |L' w' items' ws' HL' He' E1 E2| |]; subst; [done|].
  destruct (IH L' ws' He' HL') as (ws1 & -> & He1). exists ws1.
  rewrite zlen_cons. set (m := Z.min (zlen ws0) L') in *.
  pose proof (zlen_nonneg ws0).
  replace (Z.min (1 + zlen ws0) (L' + 1)) with (m + 1) by lia.
  unfold ztake, zdrop in *. rewrite Z2Nat.inj_add by lia. change (Z.to_nat 1) with 1%nat.
  rewrite Nat.add_1_r. split; [done|]. by replace (L' + 1 - (m + 1)) with (L' - m) by lia.
Qed.

(** The stack frame in which the next items are. *)
Definition same_event (w w1 : World) : Prop :=
  ∃ f inp, w1 = with_input inp (map_state (set_curStackFrame f) w).

Lemma set_curStackFrame_same w : map_state (set_curStackFrame (curStackFrame (w_state w))) w = w.
Proof. by destruct w as [[] ? ? ?]. Qed.

Lemma with_input_same w : with_input (w_input w) w = w.
Proof. by destruct w. Qed.

Lemma reading_same mi g p d s w w1 :
  reading mi g p d s w → same_event w w1 →
  fi_ctrl (fps_info (curStackFrame (w_state w1))) = crate → reading mi g p d s w1.
Proof. intros [] (f & inp & ->) Hc. split; try done. by destruct rg_content0. Qed.

Lemma next_frame B mi g p d s w L it items ws rest :
  world_inv B w → reading mi g p d s w →
  enc (event + 1) crate L (it :: items) ws → w_input w = ws ++ rest →
  L = fps_wordsLeft (curStackFrame (w_state w)) →
  ∃ w1 L1 ws1, parse_iteration false w = round_body (w_input w) mods w1
    ∧ same_event w w1 ∧ reading mi g p d s w1 ∧ base_inv (w_state w1)
    ∧ enc (event + 1) crate L1 (it :: items) ws1 ∧ w_input w1 = ws1 ++ rest
    ∧ 0 < L1 ∧ L1 = fps_wordsLeft (curStackFrame (w_state w1))
    ∧ wb_used (workBuffer (w_state w1)) + zlen (w_input w1) < B
    ∧ zlen (w_input w1) ≤ zlen (w_input w).
Proof.
  intros Hw Hr He Hi HL. pose proof Hw as [(Hb & Hh & _ & _) Hsz _].
  pose proof Hr as [Hre Hpos Hm Hri Hlt Hg Hblk Hcr Hct].
  assert (Hmods : mods ≠ []) by (by destruct mods; cbn in Hlt; [lia|]).
  pose proof (bi_stack _ Hb) as Hrange.
  destruct (decide (L = 0)) as [HL0|HLn].
  - rewrite HL0 in He. inversion He as [|h L1 it' items' ws1 Hhdr HL1 He1| | |]; subst; try lia.
    2: { pose proof (zlen_nonneg ds). lia. }
    2: { pose proof (zlen_nonneg d1). lia. }
    cbn [app] in Hi. pose proof Hhdr as (Ht & Hst & Hc & Hlen).
    assert (Hf : find_stack_frame false w = (Go tt, continued h (ws1 ++ rest) w))
      by (eapply (find_continuation w h _ _ crate L1); try done; try lia; congruence).
    assert (Hsame : same_event w (continued h (ws1 ++ rest) w)) by (by eexists _, _).
    exists (continued h (ws1 ++ rest) w), L1, ws1. rewrite Hi in Hsz |- *. rewrite zlen_cons in Hsz.
    split_and!; try done.
    + rewrite (round_from_frame w _ mods Hf); [by rewrite Hi|cbn; lia|cbn; by rewrite Hre| |done].
      cbn. unfold get_frame_length. lia.
    + apply (reading_same _ _ _ _ _ w); try done.
    + destruct Hb. split; try done. apply new_frame_range.
    + cbn. lia.
    + cbn [continued with_input w_input]. rewrite zlen_cons. lia.
  - exists w, L, ws. split_and!; try done; try lia.
    + apply round_from_frame; [apply find_open_frame; lia|lia|by rewrite Hre|apply Hh; lia|done].
    + exists (curStackFrame (w_state w)), (w_input w).
      by rewrite set_curStackFrame_same, with_input_same.
Qed.

(** *** The end of the event *)

Lemma slice_filled st A data C :
  filled st = A ++ data ++ C →
  ztake (zlen data) (zdrop (zlen A) (wb_buffer (workBuffer st))) = data.
Proof.
  intros Hf. unfold filled in Hf.
  rewrite <- (ztake_zdrop (wb_used (workBuffer st)) (wb_buffer (workBuffer st))), Hf.
  by rewrite <- !app_assoc, zdrop_app, ztake_app.
Qed.

Lemma layout_start o p d s m :
  layout o p d s m → p ++ d ++ s ≠ [] → start_offset m = o.
Proof.
  intros [H1 H2 H3 H4 H5 H6] Hne. unfold start_offset. rewrite H1, H2, H3.
  destruct (Z.eqb_spec (zlen p) 0) as [Hp|Hp]; cbn [negb].
  2: { apply H4. by intros ->. }
  destruct (Z.eqb_spec (zlen d) 0) as [Hd|Hd]; cbn [negb].
  2: { rewrite H5; [lia|]. by intros ->. }
  apply zlen_0_nil in Hp, Hd. subst p d. cbn [app] in Hne.
  destruct (Z.eqb_spec (zlen s) 0) as [Hs|Hs]; cbn [negb].
  { by apply zlen_0_nil in Hs. }
  rewrite H6 by done. change (zlen (@nil Z)) with 0. lia.
Qed.

Lemma make_module_data_eq st o md m A C :
  layout o (prefix_span md) (dynamic_span md) (suffix_span md) m → module_data_wf md →
  md_size md = zlen (md_data md) → filled st = A ++ md_data md ++ C → o = zlen A →
  zlen (md_data md) < 2 ^ 32 →
  make_module_data (wb_buffer (workBuffer st)) m (md_hasDynamic md) = md.
Proof.
  intros Hl Hwf Hsize Hf -> Hlt.
  assert (Hp := prefix_span_len md Hwf). assert (Hd := dynamic_span_len md Hwf).
  assert (Hs := suffix_span_len md Hwf). pose proof Hwf as [H1 H2 H3 H4 _ _].
  pose proof Hl as [L1 L2 L3 _ _ _].
  assert (Htot : u32 (u32 (sp_size (prefixSpan m) + sp_size (dynamicSpan m)) + sp_size (suffixSpan m))
                 = zlen (md_data md)).
  { rewrite L1, L2, L3, Hp, Hd, Hs. unfold u32.
    rewrite (Z.mod_small (md_prefixSize md + _)), Z.mod_small by lia. lia. }
  unfold make_module_data. rewrite Htot. fold (start_offset m).
  rewrite L1, L2, L3, Hp, Hd, Hs.
  assert (Hdata : ztake (zlen (md_data md)) (zdrop (start_offset m) (wb_buffer (workBuffer st)))
                  = md_data md).
  { destruct (decide (md_data md = [])) as [He|Hne]; [by rewrite He|].
    rewrite (layout_start _ _ _ _ _ Hl) by (by rewrite spans_data). by apply (slice_filled _ _ _ C). }
  rewrite Hdata, <- Hsize. by destruct md.
Qed.

Lemma split_concat (k : nat) (md : ModuleData) :
  mds !! k = Some md →
  concat (md_data <$> mds)
  = concat (md_data <$> take k mds) ++ md_data md ++ concat (md_data <$> drop (S k) mds).
Proof.
  intros H. rewrite <- (take_drop_middle mds k md H) at 1.
  by rewrite fmap_app, fmap_cons, concat_app.
Qed.

Lemma event_module_data_eq st :
  content mds (length mods) [] [] [] st → base_inv st → wb_used (workBuffer st) < 2 ^ 32 →
  (length mods ≤ length (readoutDataSpans st))%nat →
  event_module_data st 0 mods = mds.
Proof.
  intros Hct Hb Hu Hlen. pose proof (bi_used _ Hb) as Hused.
  assert (Hl2 : length mds = length mods) by (symmetry; by eapply Forall2_length).
  pose proof Hct as [Hf Hd _ _]. rewrite <- Hl2, firstn_all, !app_nil_r in Hf.
  apply list_eq_same_length with (n := length mods);
    [done|by apply length_event_module_data|].
  intros k md' md Hk Hmd' Hmd. unfold event_module_data in Hmd'. rewrite drop_0 in Hmd'.
  apply lookup_zip_with_Some in Hmd' as (parts & m & -> & Hp & Hm).
  destruct (Forall2_lookup_lr _ _ _ _ _ _ Hmatch Hp Hmd) as [_ _ M3 _ M5 Mwf].
  rewrite M3. pose proof (split_concat k md Hmd) as Hsplit. rewrite Hsplit in Hf.
  eapply make_module_data_eq; try done; [by eapply Hd|].
  assert (Hz := f_equal zlen Hf). unfold filled in Hz. rewrite zlen_ztake in Hz by lia.
  rewrite !zlen_app in Hz. pose proof (zlen_nonneg (concat (md_data <$> take k mds))).
  pose proof (zlen_nonneg (concat (md_data <$> drop (S k) mds))). lia.
Qed.

(** The event was handed out; the parser is idle at the rest of the input. *)
Definition event_done (rest : list Z) (w w' : World) : Prop :=
  idle (w_state w') ∧ w_input w' = rest
  ∧ w_callbacks w' = w_callbacks w ++ [EventData crate event mds]
  ∧ readoutStructure (w_state w') = readoutStructure (w_state w).

(** The parser is in the middle of the event, the rest of which comes next. *)
Definition on_track (rest : list Z) (w w' : World) : Prop :=
  w_callbacks w' = w_callbacks w ∧ readoutStructure (w_state w') = readoutStructure (w_state w)
  ∧ ∃ mi g p d s md items ws L, reading mi g p d s w' ∧ mds !! mi = Some md
    ∧ rem_items g md p d s items
    ∧ enc (event + 1) crate L (items ++ (drop (S mi) mds ≫= module_items)) ws
    ∧ w_input w' = ws ++ rest ∧ L = fps_wordsLeft (curStackFrame (w_state w')).

Definition round_ok (rest : list Z) (w : World) (r : flow unit * World) : Prop :=
  (r.1 = Go tt ∨ r.1 = Continue_) ∧ (on_track rest w r.2 ∨ event_done rest w r.2).

Lemma content_state st st' mi p d s :
  content mds mi p d s st → workBuffer st' = workBuffer st →
  readoutDataSpans st' = readoutDataSpans st → content mds mi p d s st'.
Proof. intros [] Hw Hr. split; unfold filled in *; rewrite ?Hw, ?Hr; done. Qed.

Lemma finish_module_ok rest li w w1 w2 mi g md L ws :
  parse_module mods w1 = (Go tt, next_module_world w2) → zlen (w_input w2) ≠ zlen li →
  base_inv (w_state w2) → wb_used (workBuffer (w_state w2)) < 2 ^ 32 →
  reading mi g (prefix_span md) (dynamic_span md) (suffix_span md) w2 → mds !! mi = Some md →
  enc (event + 1) crate L (drop (S mi) mds ≫= module_items) ws →
  w_input w2 = ws ++ rest → L = fps_wordsLeft (curStackFrame (w_state w2)) →
  w_callbacks w2 = w_callbacks w →
  readoutStructure (w_state w2) = readoutStructure (w_state w) →
  round_ok rest w (round_body li mods w1).
Proof.
  intros Hpm Hz Hb Hu [Re Rp Rm Ri Rl Rg Rb Rc Rct] Hmd He Hi HL Hcb Hst.
  destruct (lookup_lt_is_Some_2 mods mi Rl) as [parts Hparts].
  destruct (Forall2_lookup_lr _ _ _ _ _ _ Hmatch Hparts Hmd) as [_ _ _ _ _ Mwf].
  pose proof (content_next mds mi md _ Hmd Mwf Rct) as Hnext.
  set (st3 := w_state (next_module_world w2)).
  assert (Hi3 : moduleIndex st3 = Z.of_nat (S mi)) by (cbn; lia).
  assert (Hct3 : content mds (S mi) [] [] [] st3) by (by eapply content_state).
  destruct (skip_modules mods mds st3 (S mi) _ Hmatch Hct3 ltac:(lia) eq_refl)
    as (k & Hk & Hr & Hctk & Hitems & Hne).
  assert (Hk' : skip_empty_modules (zdrop (moduleIndex st3) mods) (moduleIndex st3) = Z.of_nat k).
  { rewrite Hi3. unfold zdrop. by rewrite Nat2Z.id. }
  destruct (bi_structure _ Hb _ _ ltac:(by rewrite <- Re in Rm)) as [[Hl1 Hl2] _].
  destruct (decide (k < length mods)%nat) as [Hklt|Hkge].
  - pose proof (round_body_go li mods w1 (next_module_world w2) Hpm Hz) as Hgo.
    fold st3 in Hgo. rewrite Hk' in Hgo. rewrite Hgo by (unfold zlen; lia).
    split; [by left|left]. split_and!; [done|done|].
    destruct (lookup_lt_is_Some_2 mods k Hklt) as [partsk Hpk].
    destruct (match_lookup k partsk Hpk) as (mdk & Hmdk & Hmk).
    destruct (Hne Hklt) as (partsk' & Hpk' & Hnek). rewrite Hpk in Hpk'. injection Hpk' as <-.
    exists k, Prefix, [], [], [], mdk, (module_items mdk), ws, L.
    split_and!; try done.
    + split; try done. by eapply content_state.
    + split_and!; try done. exists (prefix_span mdk).
      split_and!; [done|by left|done|by apply (module_items_nonempty partsk)].
    + rewrite Hitems, (drop_S _ _ _ Hmdk), bind_cons in He. done.
  - assert (k = length mods) as -> by lia.
    destruct (round_body_flush li mods w1 (next_module_world w2) Hpm Hz) as [c Hfl];
      [fold st3; rewrite Hk'; done|done|done|].
    fold st3 in Hfl. rewrite Hk' in Hfl. rewrite Hfl. split; [by left|right].
    assert (Hnil : drop (length mods) mds = []).
    { apply drop_ge. by rewrite (Forall2_length _ _ _ Hmatch). }
    rewrite Hitems, Hnil in He. cbn in He. inversion He; subst.
    rewrite (event_module_data_eq st3) by (done || by destruct Hb).
    split_and!; try done. cbn. rewrite Hcb. do 3 f_equal; done.
Qed.

(** *** The parts of a module *)

(** The situation in which the code for the current module runs: the frame found
    for [w] is open in [w1]. *)
Record at_module (rest li : list Z) (w w1 : World) (mi : nat) (g : GroupParseState)
    (p d s : list Z) (parts : ModuleReadoutStructure) (md : ModuleData)
    (items : list item) (ws : list Z) (L : Z) : Prop := {
  am_reading : reading mi g p d s w1;
  am_base : base_inv (w_state w1);
  am_size : wb_used (workBuffer (w_state w1)) + zlen (w_input w1) < 2 ^ 32;
  am_callbacks : w_callbacks w1 = w_callbacks w;
  am_structure : readoutStructure (w_state w1) = readoutStructure (w_state w);
  am_parts : mods !! mi = Some parts;
  am_nonempty : mrs_is_empty parts = false;
  am_data : mds !! mi = Some md;
  am_match : matches parts md;
  am_enc : enc (event + 1) crate L (items ++ (drop (S mi) mds ≫= module_items)) ws;
  am_input : w_input w1 = ws ++ rest;
  am_left : L = fps_wordsLeft (curStackFrame (w_state w1));
  am_pos : 0 < L;
  am_last : zlen (w_input w1) ≤ zlen li
}.

Lemma parse_module_part rest li w w1 mi g p d s parts md items ws L :
  at_module rest li w w1 mi g p d s parts md items ws L →
  ∃ m, readoutDataSpans (w_state w1) !! mi = Some m
    ∧ layout (offset mds mi) p d s m ∧ parts_ok parts
    ∧ parse_module mods w1 =
        match g with
        | Prefix => parse_prefix parts (Z.of_nat mi) w1
        | Dynamic => parse_dynamic parts (Z.of_nat mi) w1
        | Suffix => parse_suffix parts (Z.of_nat mi) w1
        end.
Proof.
  intros [[Re Rp Rm Ri Rl Rg Rb Rc Rct] Hb Hs _ _ Hp Hne _ _ _ _ _ _ _].
  destruct (bi_structure _ Hb _ _ Rm) as [[Hl1 _] Hpo].
  destruct (lookup_lt_is_Some_2 (readoutDataSpans (w_state w1)) mi) as [m Hm]; [lia|].
  exists m. split_and!; [done|by apply Rct|by eapply (Forall_lookup_1 _ _ _ _ Hpo)|].
  unfold parse_module. rewrite bind_get_state, Ri.
  destruct (Z.ltb_spec (Z.of_nat mi) 0); [lia|].
  destruct (Z.geb_spec (Z.of_nat mi) (zlen mods)); [unfold zlen in *; lia|]. cbn [orb].
  rewrite (bind_at_index _ _ parts) by (rewrite ?Nat2Z.id; done || lia).
  rewrite Hne, Rg. by destruct g.
Qed.

Lemma reading_taken mi g p d s p2 d2 s2 set sp n w :
  reading mi g p d s w →
  content mds mi p2 d2 s2 (w_state (part_taken set sp n (Z.of_nat mi) w)) →
  reading mi g p2 d2 s2 (part_taken set sp n (Z.of_nat mi) w).
Proof. intros [] Hct. by split. Qed.

Lemma reading_enter mi g g' p d s w : reading mi g p d s w → reading mi g' p d s (enter_part g' w).
Proof. intros []. split; try done. by eapply content_state. Qed.

(** The module is not complete yet. *)
Lemma unfinished_ok rest li w w1 w2 mi g p d s parts md items ws L :
  parse_module mods w1 = (Go tt, w2) → zlen (w_input w2) ≠ zlen li →
  reading mi g p d s w2 → mods !! mi = Some parts → mrs_is_empty parts = false →
  mds !! mi = Some md → rem_items g md p d s items →
  enc (event + 1) crate L (items ++ (drop (S mi) mds ≫= module_items)) ws →
  w_input w2 = ws ++ rest → L = fps_wordsLeft (curStackFrame (w_state w2)) →
  w_callbacks w2 = w_callbacks w →
  readoutStructure (w_state w2) = readoutStructure (w_state w) →
  round_ok rest w (round_body li mods w1).
Proof.
  intros Hpm Hz Hr Hp Hne Hmd Hrem He Hi HL Hcb Hst.
  pose proof (round_body_go li mods w1 w2 Hpm Hz) as Hgo.
  pose proof (rg_index _ _ _ _ _ _ Hr) as Ri. pose proof (rg_lt _ _ _ _ _ _ Hr) as Rl.
  assert (Hk : skip_empty_modules (zdrop (moduleIndex (w_state w2)) mods) (moduleIndex (w_state w2))
               = Z.of_nat mi).
  { rewrite Ri. unfold zdrop. rewrite Nat2Z.id, (drop_S _ _ _ Hp). cbn. by rewrite Hne. }
  rewrite Hk in Hgo. rewrite Hgo by (unfold zlen; lia).
  assert (Hw2 : map_state (set_moduleIndex (Z.of_nat mi)) w2 = w2)
    by (rewrite <- Ri; by destruct w2 as [[] ? ? ?]).
  rewrite Hw2. split; [by left|left]. split_and!; [done|done|].
  by exists mi, g, p, d, s, md, items, ws, L.
Qed.

(** After the prefix. *)
Lemma after_prefix_ok rest li w w0 w2 mi parts md ws L :
  parse_module mods w0 = after_prefix parts w2 →
  reading mi Prefix (prefix_span md) [] [] w2 → base_inv (w_state w2) →
  wb_used (workBuffer (w_state w2)) < 2 ^ 32 →
  mds !! mi = Some md → matches parts md →
  enc (event + 1) crate L
    (((if md_hasDynamic md then [DYN (dynamic_span md)] else []) ++ (FW <$> suffix_span md))
     ++ (drop (S mi) mds ≫= module_items)) ws →
  w_input w2 = ws ++ rest → L = fps_wordsLeft (curStackFrame (w_state w2)) →
  w_callbacks w2 = w_callbacks w →
  readoutStructure (w_state w2) = readoutStructure (w_state w) →
  (hasDynamic parts = false → suffixLen parts = 0 → zlen (w_input w2) ≠ zlen li) →
  round_ok rest w (round_body li mods w0).
Proof.
  intros Hpm Hr Hb Hu Hmd Hm He Hi HL Hcb Hst Hz. pose proof Hm as [M1 M2 M3 M4 M5 Mwf].
  assert (Hsl := suffix_span_len md Mwf). assert (Hdl := dynamic_span_len md Mwf).
  unfold after_prefix in Hpm. rewrite M3 in Hpm.
  destruct (md_hasDynamic md) eqn:Hd; [|destruct (Z.eqb_spec (suffixLen parts) 0) as [Hs|Hs]; cbn [negb] in Hpm].
  - rewrite (round_body_continue _ _ _ _ Hpm). split; [by right|left]. split_and!; [done|done|].
    eexists mi, Dynamic, _, [], [], md, _, ws, L. split_and!; [by eapply reading_enter|done| |exact He|done|done].
    split_and!; try done. by exists (dynamic_span md).
  - assert (Hdyn : dynamic_span md = []) by (apply zlen_0_nil; rewrite Hdl; by apply Mwf).
    assert (Hsuf : suffix_span md = []) by (apply zlen_0_nil; lia).
    rewrite Hsuf in He. cbn in He.
    eapply (finish_module_ok rest li w w0 w2 mi Prefix md L ws); try done.
    + by apply Hz.
    + by rewrite Hdyn, Hsuf.
  - rewrite (round_body_continue _ _ _ _ Hpm). split; [by right|left]. split_and!; [done|done|].
    eexists mi, Suffix, _, [], [], md, _, ws, L. split_and!; [by eapply reading_enter|done| |exact He|done|done].
    split_and!; [done| |].
    { symmetry. apply zlen_0_nil. rewrite Hdl. by apply Mwf. }
    exists (suffix_span md). split_and!; [done| |done].
    intros Hnil. rewrite Hnil in Hsl. change (zlen (@nil Z)) with 0 in Hsl. lia.
Qed.

Lemma words_left_taken set sp n mi w :
  base_inv (w_state w) → 0 ≤ n ≤ zlen (w_input w) → n ≤ fps_wordsLeft (curStackFrame (w_state w)) →
  fps_wordsLeft (curStackFrame (w_state (part_taken set sp n mi w)))
  = fps_wordsLeft (curStackFrame (w_state w)) - n.
Proof.
  intros Hb Hn Hle. pose proof (bi_stack _ Hb). cbn -[Z.pow]. unfold u16.
  rewrite zlen_ztake, Z.mod_small; lia.
Qed.

Lemma taken_base set sp n mi w :
  base_inv (w_state w) → 0 ≤ n ≤ zlen (w_input w) →
  base_inv (w_state (part_taken set sp n mi w))
  ∧ wb_used (workBuffer (w_state (part_taken set sp n mi w))) = wb_used (workBuffer (w_state w)) + n.
Proof.
  intros Hb Hn. split; [by apply map_spans_base, copied_base|].
  unfold part_taken. change (workBuffer (w_state (map_spans ?a ?b ?v))) with (workBuffer (w_state v)).
  by apply copied_used.
Qed.

(** Everything that follows from copying the words [c] into a part. *)
Lemma part_taken_ok mi g p d s p2 d2 s2 set sp n m w1 c rest' :
  reading mi g p d s w1 → base_inv (w_state w1) →
  wb_used (workBuffer (w_state w1)) + zlen (w_input w1) < 2 ^ 32 →
  readoutDataSpans (w_state w1) !! mi = Some m →
  w_input w1 = c ++ rest' → n = zlen c → n ≤ fps_wordsLeft (curStackFrame (w_state w1)) →
  p2 ++ d2 ++ s2 = (p ++ d ++ s) ++ c →
  layout (offset mds mi) p2 d2 s2
    (set (extend_span (offset mds mi + zlen p + zlen d + zlen s) n sp) m) →
  let w2 := part_taken set sp n (Z.of_nat mi) w1 in
  reading mi g p2 d2 s2 w2 ∧ base_inv (w_state w2) ∧ wb_used (workBuffer (w_state w2)) < 2 ^ 32
  ∧ fps_wordsLeft (curStackFrame (w_state w2)) = fps_wordsLeft (curStackFrame (w_state w1)) - n
  ∧ w_input w2 = rest'.
Proof.
  intros Hr Hb Hsz Hm Hi -> Hle Heq Hl w2. pose proof (rg_content _ _ _ _ _ _ Hr) as Rct.
  assert (Hz : zlen (w_input w1) = zlen c + zlen rest') by (by rewrite Hi, zlen_app).
  pose proof (zlen_nonneg c). pose proof (zlen_nonneg rest').
  destruct (taken_base set sp (zlen c) (Z.of_nat mi) w1 Hb ltac:(lia)) as [Hb2 Hu2].
  split_and!; [|done|subst w2; lia|apply words_left_taken; [done|lia|done]|].
  - apply (reading_taken _ _ p d s); [done|].
    apply (content_take mds mi p d s _ _ _ _ _ _ _ m Rct Hb); [lia|done| |].
    + by rewrite Hi, ztake_app.
    + by rewrite (content_used _ _ _ _ _ _ Rct (bi_used _ Hb)).
  - cbn. rewrite Hi. apply zdrop_app.
Qed.

Lemma prefix_ok rest li w w1 mi p d s parts md items ws L :
  at_module rest li w w1 mi Prefix p d s parts md items ws L →
  rem_items Prefix md p d s items →
  round_ok rest w (round_body li mods w1).
Proof.
  intros Ham (-> & -> & p' & Hp' & Hpne & -> & _).
  destruct (parse_module_part _ _ _ _ _ _ _ _ _ _ _ _ _ _ Ham) as (m & Hm & Hl & [Hpo1 Hpo2] & Hpm).
  destruct Ham as [Hr Hb Hsz Hcb Hst Hparts Hne Hmd Hmt He Hi HL Hpos Hlast].
  pose proof Hmt as [M1 M2 M3 M4 M5 Mwf]. assert (Hpl := prefix_span_len md Mwf).
  rewrite Hp', zlen_app in Hpl. unfold is_u8 in *. pose proof (ly_prefix _ _ _ _ _ Hl) as Hps.
  pose proof (zlen_nonneg p). pose proof (zlen_nonneg p').
  destruct (decide (p' = [])) as [->|Hp'ne].
  { destruct Hpne as [->|]; [|done]. change (zlen (@nil Z)) with 0 in *.
    rewrite (parse_prefix_none parts _ m) in Hpm by (rewrite ?Nat2Z.id; done || lia).
    pose proof (zlen_nonneg (w_input w1)).
    apply (after_prefix_ok rest li w w1 w1 mi parts md ws L); try done; [by rewrite Hp'|lia|].
    intros Hd0 Hs0. unfold mrs_is_empty in Hne. rewrite Hd0, Hs0 in Hne.
    by replace (prefixLen parts) with 0 in Hne by lia. }
  rewrite <- app_assoc in He. destruct (enc_fixed _ _ _ _ _ _ He ltac:(lia)) as (ws' & -> & He').
  set (n := Z.min (zlen p') L) in *. pose proof (zlen_pos p' Hp'ne).
  assert (Hlen : zlen (ztake n p') = n) by (apply zlen_ztake; lia).
  rewrite <- app_assoc in Hi. assert (Hzi := f_equal zlen Hi). rewrite !zlen_app, Hlen in Hzi.
  pose proof (zlen_nonneg ws'). pose proof (zlen_nonneg rest).
  rewrite (parse_prefix_eq parts _ m) in Hpm;
    [|by apply (world_sizes_ok (2 ^ 32))|lia|by rewrite Nat2Z.id|lia|lia].
  replace (fixed_count (prefixLen parts) (sp_size (prefixSpan m)) w1) with n in Hpm
    by (unfold fixed_count; lia).
  edestruct (part_taken_ok mi Prefix p [] [] (p ++ ztake n p') [] [] set_prefixSpan (prefixSpan m) n m w1)
    as (Hr2 & Hb2 & Hu2 & HL2 & Hi2); try done; [lia|by rewrite !app_nil_r| |].
  { rewrite <- Hlen at 2. apply layout_take_prefix; [done|]. change (zlen (@nil Z)) with 0. lia. }
  rewrite Hps in Hpm.
  destruct (Z.eqb_spec (zlen p + n) (prefixLen parts)) as [Heq|Hneq].
  - rewrite ztake_all in Hr2 by lia. rewrite zdrop_all in He' by lia.
    eapply after_prefix_ok; [exact Hpm|by rewrite Hp'|done|done|done|done| |exact Hi2|..];
      [exact He'|lia|done|done|].
    intros _ _. rewrite Hi2, zlen_app. lia.
  - eapply (unfinished_ok _ _ _ _ _ _ _ _ _ _ _ _ _ _ (L - n));
      [exact Hpm| |exact Hr2|done|done|done| | |exact Hi2|lia|done|done].
    + rewrite Hi2, zlen_app. lia.
    + split_and!; try done. exists (zdrop n p').
      split_and!; [by rewrite <- app_assoc, ztake_zdrop|right; apply zdrop_nonempty; lia|done|].
      intros [Hnil%fmap_nil_inv _]%app_eq_nil. revert Hnil. apply zdrop_nonempty; lia.
    + by rewrite <- app_assoc.
Qed.

Lemma suffix_ok rest li w w1 mi p d s parts md items ws L :
  at_module rest li w w1 mi Suffix p d s parts md items ws L →
  rem_items Suffix md p d s items →
  round_ok rest w (round_body li mods w1).
Proof.
  intros Ham (-> & -> & s' & Hs' & Hs'ne & ->).
  destruct (parse_module_part _ _ _ _ _ _ _ _ _ _ _ _ _ _ Ham) as (m & Hm & Hl & [Hpo1 Hpo2] & Hpm).
  destruct Ham as [Hr Hb Hsz Hcb Hst Hparts Hne Hmd Hmt He Hi HL Hpos Hlast].
  pose proof Hmt as [M1 M2 M3 M4 M5 Mwf]. assert (Hsl := suffix_span_len md Mwf).
  rewrite Hs', zlen_app in Hsl. unfold is_u8 in *. pose proof (ly_suffix _ _ _ _ _ Hl) as Hss.
  pose proof (zlen_nonneg s). pose proof (zlen_pos s' Hs'ne).
  destruct (enc_fixed _ _ _ _ _ _ He ltac:(lia)) as (ws' & -> & He').
  set (n := Z.min (zlen s') L) in *.
  assert (Hlen : zlen (ztake n s') = n) by (apply zlen_ztake; lia).
  rewrite <- app_assoc in Hi. assert (Hzi := f_equal zlen Hi). rewrite !zlen_app, Hlen in Hzi.
  pose proof (zlen_nonneg ws'). pose proof (zlen_nonneg rest).
  rewrite (parse_suffix_eq parts _ m) in Hpm;
    [|by apply (world_sizes_ok (2 ^ 32))|lia|by rewrite Nat2Z.id|lia|lia].
  replace (fixed_count (suffixLen parts) (sp_size (suffixSpan m)) w1) with n in Hpm
    by (unfold fixed_count; lia).
  edestruct (part_taken_ok mi Suffix (prefix_span md) (dynamic_span md) s (prefix_span md)
      (dynamic_span md) (s ++ ztake n s') set_suffixSpan (suffixSpan m) n m w1)
    as (Hr2 & Hb2 & Hu2 & HL2 & Hi2); try done; [lia|by rewrite <- !app_assoc| |].
  { rewrite <- Hlen at 2. by apply layout_take_suffix. }
  rewrite Hss in Hpm.
  destruct (Z.eqb_spec (zlen s + n) (suffixLen parts)) as [Heq|Hneq].
  - rewrite ztake_all, <- Hs' in Hr2 by lia. rewrite zdrop_all in He' by lia.
    eapply finish_module_ok;
      [exact Hpm| |exact Hb2|exact Hu2|exact Hr2|done|exact He'|exact Hi2|lia|done|done].
    rewrite Hi2, zlen_app. lia.
  - eapply (unfinished_ok _ _ _ _ _ _ _ _ _ _ _ _ _ _ (L - n));
      [exact Hpm| |exact Hr2|done|done|done| |exact He'|exact Hi2|lia|done|done].
    + rewrite Hi2, zlen_app. lia.
    + split_and!; try done. exists (zdrop n s').
      split_and!; [by rewrite <- app_assoc, ztake_zdrop|apply zdrop_nonempty; lia|done].
Qed.

(** *** Block frames *)

(** The world after a block frame with header [h] and the words [c]. *)
Definition after_block (h : Z) (c rest' : list Z) (m : ModuleReadoutSpans) (mi : nat) (w : World) : World :=
  map_state (set_curBlockFrame (mkFPS h 0))
    (part_taken set_dynamicSpan (dynamicSpan m) (zlen c) (Z.of_nat mi)
       (with_input (c ++ rest') (map_state (λ s, set_curStackFrame (sub_wordsLeft 1 (curStackFrame s)) s) w))).

Lemma after_block_eq h c rest' m mi w :
  u16 (fi_len (extract_frame_info h) - zlen c) = 0 →
  map_state (λ s, set_curBlockFrame (sub_wordsLeft (zlen c) (curBlockFrame s)) s)
    (part_taken set_dynamicSpan (dynamicSpan m) (zlen c) (Z.of_nat mi) (block_opened h (c ++ rest') w))
  = after_block h c rest' m mi w.
Proof.
  intros Hz. unfold after_block. rewrite <- Hz. by destruct w as [[] ? ? ?].
Qed.

Lemma reading_set_block mi g p d s w f :
  reading mi g p d s w → fps_wordsLeft f = 0 →
  reading mi g p d s (map_state (set_curBlockFrame f) w).
Proof. intros [] Hf. split; try done. by eapply content_state. Qed.

(** Reading one block frame: the common part of both cases of the encoding. *)
Lemma block_frame_ok rest' mi p d w1 m parts h c cont L :
  reading mi Dynamic p d [] w1 → base_inv (w_state w1) →
  wb_used (workBuffer (w_state w1)) + zlen (w_input w1) < 2 ^ 32 →
  readoutDataSpans (w_state w1) !! mi = Some m → layout (offset mds mi) p d [] m →
  is_block_header cont (zlen c) h → w_input w1 = h :: c ++ rest' →
  L = fps_wordsLeft (curStackFrame (w_state w1)) → 1 + zlen c ≤ L →
  isMesytecAndUsing2eSST parts = false →
  let w2 := after_block h c rest' m mi w1 in
  parse_dynamic parts (Z.of_nat mi) w1
    = (if cont then (Go tt, w2) else after_dynamic parts w2)
  ∧ reading mi Dynamic p (d ++ c) [] w2 ∧ base_inv (w_state w2)
  ∧ wb_used (workBuffer (w_state w2)) < 2 ^ 32
  ∧ fps_wordsLeft (curStackFrame (w_state w2)) = L - 1 - zlen c ∧ w_input w2 = rest'.
Proof.
  intros Hr Hb Hsz Hm Hl (Ht & Hlen & Hc) Hi HL Hle Hesst w2.
  pose proof (zlen_nonneg c). pose proof (zlen_nonneg rest'). pose proof (bi_stack _ Hb) as Hsr.
  pose proof (bi_used _ Hb).
  assert (Hzi := f_equal zlen Hi). rewrite zlen_cons, zlen_app in Hzi.
  pose proof (rg_block _ _ _ _ _ _ Hr) as Rb.
  assert (Ho := open_block_frame_eq w1 h (c ++ rest') ltac:(lia)
    ltac:(unfold fps_bool; by rewrite Rb) Hi).
  rewrite Ht, Z.eqb_refl in Ho. set (wb := block_opened h (c ++ rest') w1) in *.
  set (w1' := with_input (c ++ rest')
    (map_state (λ s, set_curStackFrame (sub_wordsLeft 1 (curStackFrame s)) s) w1)).
  assert (Hb1 : base_inv (w_state w1'))
    by (destruct Hb; split; try done; apply sub_wordsLeft_range).
  assert (Hbb : base_inv (w_state wb))
    by (destruct Hb; split; try done; [apply sub_wordsLeft_range|apply new_frame_range]).
  assert (Hr1 : reading mi Dynamic p d [] w1') by (destruct Hr; split; try done; by eapply content_state).
  assert (Hsw : fps_wordsLeft (curStackFrame (w_state w1')) = L - 1).
  { cbn -[Z.pow]. unfold u16. rewrite <- HL, Z.mod_small; lia. }
  assert (Hz1 : zlen (w_input w1') = zlen c + zlen rest') by (cbn; by rewrite zlen_app).
  edestruct (part_taken_ok mi Dynamic p d [] p (d ++ c) [] set_dynamicSpan (dynamicSpan m) (zlen c) m w1' c rest')
    as (Hr2 & Hb2 & Hu2 & HL2 & Hi2); try done; [cbn -[zlen]; rewrite zlen_app; lia|lia| | |].
  { by rewrite !app_nil_r, app_assoc. }
  { apply layout_take_dynamic; [done|]. change (zlen (@nil Z)) with 0. lia. }
  assert (Hcount : block_count wb = zlen c).
  { unfold block_count.
    change (Z.min (fi_len (extract_frame_info h)) (zlen (c ++ rest')) = zlen c).
    rewrite Hlen, zlen_app. lia. }
  assert (Hbt : block_taken m (Z.of_nat mi) wb = w2).
  { unfold block_taken. rewrite Hcount. apply after_block_eq. by rewrite Hlen, Z.sub_diag. }
  split_and!; [|by apply reading_set_block| |done|by rewrite <- Hsw|done].
  - pose proof (ly_dynamic _ _ _ _ _ Hl) as Hds. pose proof (zlen_nonneg d).
    pose proof (content_used _ _ _ _ _ _ (rg_content _ _ _ _ _ _ Hr) (bi_used _ Hb)).
    pose proof (zlen_nonneg p). pose proof (zlen_nonneg (concat (md_data <$> take mi mds))).
    unfold offset in *.
    rewrite (parse_dynamic_eq parts _ m w1 wb Ho); cycle 1.
    { apply (world_sizes_ok (2 ^ 32)); [done|done|]. cbn -[zlen Z.pow]. rewrite zlen_app. lia. }
    { lia. }
    { by rewrite Nat2Z.id. }
    { lia. }
    { rewrite Hcount, Hds. change (zlen (@nil Z)) with 0 in *. lia. }
    rewrite Hcount, Hbt.
    change (curBlockFrame (w_state wb)) with (new_frame h). cbn [new_frame fps_wordsLeft fps_header].
    rewrite Hlen, Z.eqb_refl, Hc. unfold trimmed. rewrite Hesst. by destruct cont.
  - destruct Hb2. by split.
Qed.

(** After the last block frame of the module. *)
Lemma after_dynamic_ok rest li w w1 w2 mi parts md ws L :
  parse_module mods w1 = after_dynamic parts w2 → zlen (w_input w2) ≠ zlen li →
  reading mi Dynamic (prefix_span md) (dynamic_span md) [] w2 → base_inv (w_state w2) →
  wb_used (workBuffer (w_state w2)) < 2 ^ 32 →
  mds !! mi = Some md → matches parts md →
  enc (event + 1) crate L ((FW <$> suffix_span md) ++ (drop (S mi) mds ≫= module_items)) ws →
  w_input w2 = ws ++ rest → L = fps_wordsLeft (curStackFrame (w_state w2)) →
  w_callbacks w2 = w_callbacks w →
  readoutStructure (w_state w2) = readoutStructure (w_state w) →
  round_ok rest w (round_body li mods w1).
Proof.
  intros Hpm Hz Hr Hb Hu Hmd [M1 M2 M3 M4 M5 Mwf] He Hi HL Hcb Hst.
  assert (Hsl := suffix_span_len md Mwf). unfold after_dynamic in Hpm.
  destruct (Z.eqb_spec (suffixLen parts) 0) as [Hs|Hs].
  - assert (Hsuf : suffix_span md = []) by (apply zlen_0_nil; lia).
    rewrite Hsuf in He. cbn in He. rewrite <- Hsuf in Hr.
    by eapply (finish_module_ok rest li w w1 w2 mi Dynamic md L ws).
  - rewrite (round_body_continue _ _ _ _ Hpm). split; [by right|left]. split_and!; [done|done|].
    eexists mi, Suffix, _, _, [], md, _, ws, L.
    split_and!; [by eapply reading_enter|done| |exact He|done|done].
    split_and!; [done|done|]. exists (suffix_span md). split_and!; [done| |done].
    intros Hnil. rewrite Hnil in Hsl. change (zlen (@nil Z)) with 0 in Hsl. lia.
Qed.

Lemma dynamic_ok rest li w w1 mi p d s parts md items ws L :
  at_module rest li w w1 mi Dynamic p d s parts md items ws L →
  rem_items Dynamic md p d s items →
  round_ok rest w (round_body li mods w1).
Proof.
  intros Ham (-> & -> & Hdyn & d' & Hd' & ->).
  destruct (parse_module_part _ _ _ _ _ _ _ _ _ _ _ _ _ _ Ham) as (m & Hm & Hl & _ & Hpm).
  destruct Ham as [Hr Hb Hsz Hcb Hst Hparts Hne Hmd Hmt He Hi HL Hpos Hlast].
  pose proof (mt_esst _ _ Hmt) as Hesst. cbn [app] in He.
  inversion He as [|? ? ? ? ? ? ?| |h L' ds its ws' HL' Hh He' E1 E2 E3|h d1 d2 its ws' Hh He' E1 E2 E3];
    subst ws; [lia| |].
  - subst ds its. rewrite <- app_comm_cons, <- app_assoc in Hi. pose proof (zlen_nonneg d').
    assert (Hzi := f_equal zlen Hi). rewrite zlen_cons, !zlen_app in Hzi.
    pose proof (zlen_nonneg ws'). pose proof (zlen_nonneg rest).
    edestruct (block_frame_ok (ws' ++ rest) mi (prefix_span md) d w1 m parts h d' false L)
      as (Hpd & Hr2 & Hb2 & Hu2 & HL2 & Hi2); try done; [lia|].
    rewrite Hpd in Hpm. rewrite <- Hd' in Hr2.
    eapply after_dynamic_ok; [exact Hpm| |exact Hr2|done|done|done|done|exact He'|exact Hi2|lia|done|done].
    rewrite Hi2, zlen_app. lia.
  - subst its. rewrite <- app_comm_cons, <- app_assoc in Hi. pose proof (zlen_nonneg d1).
    assert (Hzi := f_equal zlen Hi). rewrite zlen_cons, !zlen_app in Hzi.
    pose proof (zlen_nonneg ws'). pose proof (zlen_nonneg rest).
    edestruct (block_frame_ok (ws' ++ rest) mi (prefix_span md) d w1 m parts h d1 true L)
      as (Hpd & Hr2 & Hb2 & Hu2 & HL2 & Hi2); try done; [lia|].
    rewrite Hpd in Hpm.
    eapply (unfinished_ok _ _ _ _ _ _ _ _ _ _ _ _ (DYN d2 :: (FW <$> suffix_span md)) _ 0);
      [exact Hpm| |exact Hr2|done|done|done| |exact He'|exact Hi2|lia|done|done].
    + rewrite Hi2, zlen_app. lia.
    + split_and!; try done. exists d2. by rewrite Hd', <- E2, app_assoc.
Qed.

(** One round of the loop in the middle of the event. *)
Lemma round_reading B rest w mi g p d s md items ws L :
  B ≤ 2 ^ 32 → world_inv B w → reading mi g p d s w → mds !! mi = Some md →
  rem_items g md p d s items →
  enc (event + 1) crate L (items ++ (drop (S mi) mds ≫= module_items)) ws →
  w_input w = ws ++ rest → L = fps_wordsLeft (curStackFrame (w_state w)) →
  round_ok rest w (parse_iteration false w).
Proof.
  intros HB Hw Hr Hmd Hrem He Hi HL.
  destruct (lookup_lt_is_Some_2 mods mi (rg_lt _ _ _ _ _ _ Hr)) as [parts Hp].
  assert (Hm : matches parts md) by (by eapply Forall2_lookup_lr).
  assert (Hne := rem_items_module _ _ _ _ _ _ _ Hm Hrem).
  assert (Hits := rem_items_nonempty _ _ _ _ _ _ Hrem).
  destruct items as [|it items]; [done|]. rewrite <- app_comm_cons in He.
  destruct (next_frame _ _ _ _ _ _ _ _ _ _ _ _ Hw Hr He Hi HL)
    as (w1 & L1 & ws1 & -> & Hsame & Hr1 & Hb1 & He1 & Hi1 & HL1 & HL1' & Hu1 & Hlast).
  assert (Ham : at_module rest (w_input w) w w1 mi g p d s parts md (it :: items) ws1 L1).
  { destruct Hsame as (f & inp & ->). split; try done. lia. }
  destruct g; [by eapply prefix_ok|by eapply dynamic_ok|by eapply suffix_ok].
Qed.

Lemma enc_nonempty stack c L it items ws : enc stack c L (it :: items) ws → ws ≠ [].
Proof. by inversion 1. Qed.

Lemma on_track_weaken rest w0 w w' :
  w_callbacks w = w_callbacks w0 → readoutStructure (w_state w) = readoutStructure (w_state w0) →
  on_track rest w w' → on_track rest w0 w'.
Proof. intros Hcb Hst (H1 & H2 & H). split_and!; [congruence|congruence|done]. Qed.

Lemma event_done_weaken rest w0 w w' :
  w_callbacks w = w_callbacks w0 → readoutStructure (w_state w) = readoutStructure (w_state w0) →
  event_done rest w w' → event_done rest w0 w'.
Proof. intros Hcb Hst (H1 & H2 & H3 & H4). split_and!; [done|done|congruence|congruence]. Qed.

(** The rounds up to the end of the event. *)
Lemma on_track_runs B rest w0 w :
  B ≤ 2 ^ 32 → world_inv B w → on_track rest w0 w →
  ∃ w', runs w w' ∧ world_inv B w' ∧ event_done rest w0 w'.
Proof.
  intros HB. remember (Z.to_nat (measure w)) as n eqn:Hn. revert w Hn.
  induction n as [n IH] using lt_wf_ind; intros w -> Hw Ht.
  pose proof Ht as (Hcb & Hst & mi & g & p & d & s & md & items & ws & L & Hr & Hmd & Hrem & He & Hi & HL).
  assert (Hin : w_input w ≠ []).
  { pose proof (rem_items_nonempty _ _ _ _ _ _ Hrem). destruct items; [done|].
    pose proof (enc_nonempty _ _ _ _ _ _ He). rewrite Hi. by destruct ws. }
  pose proof (parse_iteration_post B HB false w Hw Hin) as (_ & _ & Hw' & Hm).
  pose proof (round_reading B rest w mi g p d s md items ws L HB Hw Hr Hmd Hrem He Hi HL) as [Hgo Hres].
  destruct (parse_iteration false w) as [r w'] eqn:Hp. cbn [fst snd] in *.
  assert (Hdec : measure w' < measure w) by (by destruct Hgo as [-> | ->]).
  assert (Hstep := runs_step w r w' Hin Hp Hgo).
  destruct Hres as [Hres|Hres]; [|exists w'; split_and!; [done|done|by eapply event_done_weaken]].
  pose proof (measure_range w'). pose proof (zlen_nonneg (w_input w')).
  edestruct (IH (Z.to_nat (measure w'))) as (w2 & Hruns & Hw2 & Hdone);
    [lia|reflexivity|done|by eapply on_track_weaken|].
  exists w2. split_and!; [by eapply runs_trans|done|done].
Qed.

(** *** The start of an event *)

(** The world after the header of the first stack frame was read. *)
Definition begun (h : Z) (rest : list Z) (w : World) : World :=
  let s := w_state w in
  mkWorld
    (mkState (lastBufferNumber s) (mkWB (wb_buffer (workBuffer s)) 0)
       (clear_readout_data_spans (readoutDataSpans s)) (moduleDataBuffer s)
       (readoutStructure s) event 0 Prefix (new_frame h) (new_frame 0) (lastPacketNumber s))
    (add_unusedBytes ((zlen (h :: rest) - zlen (h :: rest)) * 4) (w_counters w))
    (w_callbacks w) rest.

Lemma find_event_frame w h rest L :
  idle (w_state w) → w_input w = h :: rest →
  is_stack_header (event + 1) crate frame_headers.StackFrame L h → 0 ≤ event →
  readoutStructure (w_state w) !! Z.to_nat event = Some mods →
  find_stack_frame false w = (Go tt, begun h rest w).
Proof.
  intros (He & Hg & Hs & Hb) Hi (Ht & Hst & Hc & Hlen) Hev Hm. unfold find_stack_frame.
  rewrite bind_get_state. unfold fps_bool. rewrite Hs, Hb. cbn [negb Z.eqb]. rewrite when_true.
  rewrite (bind_Go _ _ w false w).
  2: { rewrite (try_handle_system_event_eq w h rest Hi). by rewrite (not_system_event h _ Ht). }
  unfold is_event_in_progress. destruct (Z.geb_spec (eventIndex (w_state w)) 0); [lia|].
  unfold next_event_frame. rewrite bind_get_input, Hi.
  cbn [length find_stack_frame_header]. rewrite Ht, Z.eqb_refl.
  pose proof (lookup_lt_Some _ _ _ Hm) as Hlt.
  assert (Hbe : parser_begin_event (w_state w) h = (Ok, w_state (begun h rest w))).
  { unfold parser_begin_event. rewrite Ht, Hst, Z.eqb_refl. cbn [negb].
    replace (event + 1 - 1) with event by lia.
    destruct (Z.ltb_spec event 0); [lia|].
    destruct (Z.geb_spec event (zlen (readoutStructure (w_state w)))); [unfold zlen in *; lia|].
    cbn [orb]. unfold begun. cbn [w_state]. by destruct (w_state w). }
  unfold mbind, PM_bind, set_input, upd_counters, get_state, upd_state. cbn [negb fst snd w_state].
  rewrite Hbe. cbn [map_counters w_state]. rewrite bool_decide_eq_true_2 by done.
  unfold remove_prefix. done.
Qed.

Lemma begun_content h rest w : content mds 0 [] [] [] (w_state (begun h rest w)).
Proof.
  split.
  - done.
  - intros j md m Hj. lia.
  - intros m Hm. cbn in Hm. apply list_lookup_fmap_Some in Hm as (m0 & -> & _). by split.
  - intros j m _ Hm. cbn in Hm. apply list_lookup_fmap_Some in Hm as (m0 & -> & _). by split.
Qed.

Lemma begun_base h rest w : base_inv (w_state w) → base_inv (w_state (begun h rest w)).
Proof.
  intros [H1 H2 H3 H4]. split.
  - intros i ms Hi. destruct (H1 i ms Hi) as [[? ?] ?]. cbn.
    unfold clear_readout_data_spans. by rewrite length_map.
  - cbn. pose proof (zlen_nonneg (wb_buffer (workBuffer (w_state w)))). lia.
  - apply new_frame_range.
  - apply new_frame_range.
Qed.

(** An event without data is a single empty stack frame. *)
Lemma no_items_empty : (mds ≫= module_items) = [] → mds = replicate (length mods) empty_module_data.
Proof.
  clear crate event. induction Hmatch as [|parts md mods' mds' Hm HF IH]; [done|].
  rewrite bind_cons. intros [H1 H2]%app_eq_nil. cbn [length replicate]. rewrite <- (IH HF H2). f_equal.
  destruct (mrs_is_empty parts) eqn:He; [by destruct (module_items_empty _ _ Hm He) as (_ & _ & ->)|].
  by destruct (module_items_nonempty _ _ Hm He).
Qed.

(** The first round when the frame holds data. *)
Lemma first_round_ok rest li w h ws L :
  base_inv (w_state w) → zlen (ws ++ rest) < zlen li → zlen (ws ++ rest) < 2 ^ 32 →
  is_stack_header (event + 1) crate frame_headers.StackFrame L h → 0 ≤ event →
  readoutStructure (w_state w) !! Z.to_nat event = Some mods → mods ≠ [] →
  enc (event + 1) crate L (mds ≫= module_items) ws → 0 < L →
  round_ok rest w (round_body li mods (begun h (ws ++ rest) w)).
Proof.
  intros Hb Hz Hsz (Ht & Hst & Hc & Hlen) Hev Hm Hne He HL.
  set (w1 := begun h (ws ++ rest) w).
  assert (Hb1 : base_inv (w_state w1)) by (by apply begun_base).
  assert (Hr : reading 0 Prefix [] [] [] w1).
  { split; try done; [by destruct mods; cbn; [|lia]|apply begun_content]. }
  destruct (lookup_lt_is_Some_2 mods 0%nat (rg_lt _ _ _ _ _ _ Hr)) as [parts Hp].
  destruct (match_lookup 0 parts Hp) as (md & Hmd & Hmt).
  assert (He' : enc (event + 1) crate L (module_items md ++ (drop 1 mds ≫= module_items)) ws).
  { rewrite <- (drop_0 mds), (drop_S _ _ _ Hmd), bind_cons in He. done. }
  destruct (mrs_is_empty parts) eqn:Hemp.
  - destruct (module_items_empty _ _ Hmt Hemp) as (Hit & Hdata & Heq). rewrite Hit in He'.
    apply (finish_module_ok rest li w w1 w1 0 Prefix md L ws); try done.
    + unfold parse_module. rewrite bind_get_state. change (moduleIndex (w_state w1)) with 0.
      destruct (Z.ltb_spec 0 0); [lia|].
      assert (0 < zlen mods) by (by apply zlen_pos).
      destruct (Z.geb_spec 0 (zlen mods)); [lia|]. cbn [orb].
      rewrite (bind_at_index _ _ parts) by done. by rewrite Hemp.
    + change (zlen (ws ++ rest) ≠ zlen li). lia.
    + by rewrite Heq.
  - apply (prefix_ok rest li w w1 0 [] [] [] parts md (module_items md) ws L).
    + split; try done. change (zlen (ws ++ rest) ≤ zlen li). lia.
    + split_and!; [done|done|]. exists (prefix_span md).
      split_and!; [done|by left|done|by apply (module_items_nonempty parts)].
Qed.

(** Parsing the words of an event. *)
Lemma event_runs B rest w ws :
  B ≤ 2 ^ 32 → world_inv B w → idle (w_state w) → 0 ≤ event →
  readoutStructure (w_state w) !! Z.to_nat event = Some mods → mods ≠ [] →
  event_enc (event + 1) crate (mds ≫= module_items) ws → w_input w = ws ++ rest →
  ∃ w', runs w w' ∧ world_inv B w' ∧ event_done rest w w'.
Proof.
  intros HB Hw Hid Hev Hm Hne (h & L & ws' & -> & Hh & He & Hpos) Hi.
  pose proof Hw as [(Hb & _ & _ & _) Hsz _]. cbn [app] in Hi.
  assert (Hf := find_event_frame w h (ws' ++ rest) L Hid Hi Hh Hev Hm).
  assert (Hin : w_input w ≠ []) by (by rewrite Hi).
  pose proof (parse_iteration_post B HB false w Hw Hin) as (_ & _ & Hw' & _).
  pose proof Hh as (_ & _ & Hc & Hlen).
  assert (Hround : round_ok rest w (parse_iteration false w)).
  { destruct (decide (0 < L)) as [HL|HL].
    - rewrite (round_from_frame w _ mods Hf); try done.
      + pose proof (bi_used _ Hb). rewrite Hi, zlen_cons in Hsz.
        apply (first_round_ok rest (w_input w) w h ws' L); try done; [rewrite Hi, zlen_cons|]; lia.
      + cbn. unfold get_frame_length. lia.
    - assert (Hnil : (mds ≫= module_items) = [])
        by (destruct (mds ≫= module_items); [done|by destruct HL; apply Hpos]).
      rewrite Hnil in He. inversion He; subst L ws'.
      unfold parse_iteration. rewrite bind_get_input, (bind_Go _ _ _ _ _ Hf), bind_get_state.
      rewrite (bind_at_index _ _ mods) by done.
      destruct (Z.eqb_spec (get_frame_length (fps_header (curStackFrame (w_state (begun h ([] ++ rest) w))))) 0)
        as [_|Hn]; [|by destruct Hn].
      destruct (bi_structure _ Hb _ _ Hm) as [[_ Hl2] _].
      rewrite handle_empty_stack_frame_eq by done. split; [by right|right].
      split_and!; try done. cbn. rewrite (no_items_empty Hnil) at 1. do 3 f_equal.
      unfold fps_info. cbn. done. }
  destruct (parse_iteration false w) as [r w1] eqn:Hp. destruct Hround as [Hgo Hres].
  cbn [fst snd] in *. assert (Hstep := runs_step w r w1 Hin Hp Hgo).
  destruct Hres as [Ht|Hdone]; [|by exists w1].
  destruct (on_track_runs B rest w w1 HB Hw' Ht) as (w2 & Hruns & Hw2 & Hdone).
  exists w2. split_and!; [by eapply runs_trans|done|done].
Qed.

End Reading.
