(* ===== verification/GeneratedFiles.v ===== *)
(** * Round trip of generated listfiles

    Sequences of readout events and system events, written by the generator into
    one buffer, and parsed again as a USB buffer: the callbacks are called with
    exactly what was written, in the order of writing. *)

From S2P Require Import Prelude Constants Frames FramesFacts Commands ReadoutBuffer ReadoutParser.
From S2P Require Import ParserSteps ParserSafety ParserFacts ListfileGen Framing RoundTrip.

(** ** System events *)

(** The frames of a system event: full frames with the continue flag, then the
    last one. *)
Inductive sys_enc (maxWords crate subtype : Z) : list Z → list (list Z) → Prop :=
| sys_last c :
    zlen c ≤ maxWords →
    sys_enc maxWords crate subtype c [sysevent_word 0 crate subtype (zlen c) :: c]
| sys_more c ws frames :
    zlen c = maxWords → ws ≠ [] → sys_enc maxWords crate subtype ws frames →
    sys_enc maxWords crate subtype (c ++ ws) ((sysevent_word 1 crate subtype (zlen c) :: c) :: frames).

Lemma sysevent_word_u32 cont ctrl subtype len :
  0 ≤ cont < 2 → 0 ≤ ctrl < 8 → 0 ≤ subtype < 128 → 0 ≤ len < 8192 →
  is_u32 (sysevent_word cont ctrl subtype len).
Proof. intros. unfold is_u32, sysevent_word, frame_headers.SystemEvent. lia. Qed.

(** Removing the length of a header. *)
Lemma clear_length h :
  is_u32 h → h .& (0xffffffff .^ frame_headers.LengthMask) = h - h mod 2 ^ 13.
Proof.
  intros [H0 H1]. change (0xffffffff .^ frame_headers.LengthMask) with (Z.ones 19 ≪ 13).
  transitivity (((h ≫ 13) .& Z.ones 19) ≪ 13).
  - rewrite Z.shiftl_land. apply Z.bits_inj'. intros i Hi. rewrite !Z.land_spec.
    destruct (decide (i < 13)); [by rewrite !(Z.shiftl_spec_low _ 13 i), !andb_false_r by lia|].
    rewrite (Z.shiftl_spec_high (h ≫ 13)), Z.shiftr_spec by lia. f_equal. f_equal. lia.
  - rewrite Z.land_ones, shiftr_div, shiftl_mul by lia. zlia.
Qed.

Lemma set_length h n :
  h mod 2 ^ 13 = 0 → 0 ≤ n < 8192 → h .| (n .& frame_headers.LengthMask) = h + n.
Proof.
  intros Hh Hn. change frame_headers.LengthMask with (2 ^ 13 - 1).
  rewrite land_mask, Z.mod_small by lia. by rewrite (lor_add _ _ 13).
Qed.

Lemma sys_header_ctrl ctrl subtype len :
  0 ≤ ctrl < 8 → 0 ≤ subtype < 128 → 0 ≤ len < 8192 →
  u32 (sysevent_word 0 0 subtype len .| (ctrl ≪ system_event.CtrlIdShift))
  = sysevent_word 0 ctrl subtype len.
Proof.
  intros. rewrite shiftl_mul by done. unfold sysevent_word, system_event.CtrlIdShift.
  replace (_ + subtype * 2 ^ 13 + len)
    with (frame_headers.SystemEvent * 2 ^ 24 + (subtype * 2 ^ 13 + len)) by lia.
  rewrite (lor_hole _ _ _ 20 24) by (done || lia).
  unfold u32, frame_headers.SystemEvent. rewrite Z.mod_small; lia.
Qed.

Lemma sys_header_continue ctrl subtype len :
  0 ≤ ctrl < 8 → 0 ≤ subtype < 128 → 0 ≤ len < 8192 →
  sysevent_word 0 ctrl subtype len .| (1 ≪ system_event.ContinueShift)
  = sysevent_word 1 ctrl subtype len.
Proof.
  intros. rewrite shiftl_mul by done. unfold sysevent_word, system_event.ContinueShift.
  replace (_ + subtype * 2 ^ 13 + len)
    with (frame_headers.SystemEvent * 2 ^ 24 + (ctrl * 2 ^ 20 + subtype * 2 ^ 13 + len)) by lia.
  rewrite (lor_hole _ _ _ 23 24) by (done || lia). lia.
Qed.

Section SystemEvents.
Context {D : Type} `{!WordBuffer D, !WordBufferLaws D}.
Context (maxWords crate subtype len0 : Z).
Hypothesis (Hmax : 1 ≤ maxWords < 8192) (Hcrate : 0 ≤ crate < 8) (Hsub : 0 ≤ subtype < 128)
  (Hlen0 : 0 ≤ len0 < 8192).

Lemma close_sys_frame (dest : D) pre cont body n :
  wbuf_ok dest → wbuf_view dest = pre ++ sysevent_word cont crate subtype len0 :: body →
  0 ≤ n < 8192 → 0 ≤ cont < 2 →
  ∃ d', close_frame (mkFrameState (4 * zlen pre) n) dest = Return (closed_frame, d')
    ∧ wbuf_ok d' ∧ wbuf_view d' = pre ++ sysevent_word cont crate subtype n :: body.
Proof.
  intros Hok Hv Hn Hc. assert (Hu := sysevent_word_u32 cont crate subtype len0 Hc Hcrate Hsub Hlen0).
  assert (E0 : sysevent_word cont crate subtype len0
               - sysevent_word cont crate subtype len0 mod 2 ^ 13
               = sysevent_word cont crate subtype 0) by (unfold sysevent_word; zlia).
  assert (Hm : sysevent_word cont crate subtype 0 mod 2 ^ 13 = 0) by (unfold sysevent_word; zlia).
  unfold close_frame. cbn [wordsWritten].
  destruct (patch_header_law dest pre _ body (4 * zlen pre) n
    (λ h, h .& (0xffffffff .^ frame_headers.LengthMask)) Hok Hv eq_refl) as (d1 & -> & Hok1 & Hv1).
  { rewrite clear_length, E0 by done. apply sysevent_word_u32; lia. }
  rewrite clear_length, E0 in Hv1 by done. cbn [mbind outcome_bind].
  destruct (patch_header_law d1 pre _ body (4 * zlen pre) n
    (λ h, h .| (n .& frame_headers.LengthMask)) Hok1 Hv1 eq_refl) as (d2 & -> & Hok2 & Hv2).
  { rewrite set_length by done. unfold is_u32, sysevent_word, frame_headers.SystemEvent. lia. }
  rewrite set_length in Hv2 by done. cbn [mbind outcome_bind]. exists d2. split_and!; [done|done|].
  rewrite Hv2. do 2 f_equal. unfold sysevent_word. lia.
Qed.

Lemma push_sys_header (dest : D) pre :
  wbuf_ok dest → wbuf_view dest = pre →
  let h := sysevent_word 0 crate subtype len0 in
  ∃ d', push_frame_header dest h = (mkFrameState (4 * zlen pre) 0, d')
    ∧ wbuf_ok d' ∧ wbuf_view d' = pre ++ [h].
Proof.
  intros Hok Hv h. assert (Hu : is_u32 h) by (apply sysevent_word_u32; lia).
  destruct (wbuf_push_law dest h Hok Hu) as [Hok1 Hv1].
  unfold push_frame_header. eexists. split_and!; [|done|by rewrite Hv1, Hv].
  rewrite wbuf_used_view, Hv1, Hv, zlen_app by done. do 2 f_equal. autorewrite with mvlc_len. lia.
Qed.

Lemma system_event_words_frames iter : Forall is_u32 iter →
  ∀ (dest : D) pre body, wbuf_ok dest →
  wbuf_view dest = pre ++ sysevent_word 0 crate subtype len0 :: body → zlen body ≤ maxWords →
  ∃ d frames,
    system_event_words (sysevent_word 0 crate subtype len0) maxWords iter
      (mkFrameState (4 * zlen pre) (zlen body)) dest = Return d
    ∧ wbuf_ok d ∧ wbuf_view d = pre ++ concat frames
    ∧ sys_enc maxWords crate subtype (body ++ iter) frames.
Proof.
  induction 1 as [|w iter Hw Hiter IH]; intros dest pre body Hok Hv Hl;
    cbn [system_event_words]; pose proof (zlen_nonneg body).
  - destruct (close_sys_frame dest pre 0 body (zlen body) Hok Hv) as (d & -> & Hokd & Hvd); [lia..|].
    cbn [mbind outcome_bind snd]. eexists d, _.
    split_and!; [done|done| |rewrite app_nil_r; by apply sys_last]. cbn. by rewrite app_nil_r.
  - assert (Hinc : ∀ n f, 0 ≤ n < 8192 → inc_words (mkFrameState f n) = mkFrameState f (n + 1)).
    { intros n f Hn. unfold inc_words, u32. cbn. rewrite Z.mod_small; [done|lia]. }
    cbn [wordsWritten]. destruct (Z.ltb_spec (zlen body) maxWords).
    + destruct (wbuf_push_law dest w Hok Hw) as [Hok1 Hv1]. rewrite Hv, <- app_assoc in Hv1.
      rewrite Hinc by lia. replace (zlen body + 1) with (zlen (body ++ [w])) by (rewrite zlen_app; done).
      destruct (IH _ pre (body ++ [w]) Hok1 Hv1) as (d & frames & H1 & H2 & H3 & H4).
      { rewrite zlen_app. change (zlen [w]) with 1. lia. }
      exists d, frames. rewrite <- app_assoc in H4. done.
    + assert (Hfull : zlen body = maxWords) by lia.
      destruct (patch_header_law dest pre _ body (4 * zlen pre) (zlen body)
        (λ h, h .| (1 ≪ system_event.ContinueShift)) Hok Hv eq_refl) as (d1 & -> & Hok1 & Hv1).
      { rewrite sys_header_continue by lia. apply sysevent_word_u32; lia. }
      rewrite sys_header_continue in Hv1 by lia. cbn [mbind outcome_bind].
      destruct (close_sys_frame d1 pre 1 body (zlen body) Hok1 Hv1) as (d2 & -> & Hok2 & Hv2); [lia..|].
      cbn [mbind outcome_bind snd].
      destruct (push_sys_header d2 _ Hok2 Hv2) as (d3 & -> & Hok3 & Hv3).
      destruct (Z.ltb_spec 0 maxWords); [|lia]. rewrite Hinc by lia.
      destruct (wbuf_push_law d3 w Hok3 Hw) as [Hok4 Hv4]. rewrite Hv3, <- app_assoc in Hv4.
      destruct (IH _ _ [w] Hok4 Hv4) as (d & frames & H1' & H2' & H3' & H4').
      { change (zlen [w]) with 1. lia. }
      eexists d, _. split_and!; [exact H1'|done| |by apply sys_more].
      rewrite H3', <- app_assoc. done.
Qed.

Lemma write_system_event_frames (dest : D) words :
  wbuf_ok dest → Forall is_u32 words →
  ∃ d frames, write_system_event dest crate (sysevent_word 0 0 subtype len0 :: words) maxWords
      = Return d
    ∧ wbuf_ok d ∧ wbuf_view d = wbuf_view dest ++ concat frames
    ∧ sys_enc maxWords crate subtype words frames.
Proof.
  intros Hok Hw. unfold write_system_event. cbv zeta. rewrite sys_header_ctrl by lia.
  destruct (push_sys_header dest _ Hok eq_refl) as (d1 & -> & Hok1 & Hv1).
  apply (system_event_words_frames words Hw d1 _ [] Hok1 Hv1). change (zlen (@nil Z)) with 0. lia.
Qed.

End SystemEvents.

(** ** Sequences of events *)

(** What is written to a generated file. *)
Inductive file_item : Type :=
| ReadoutEvent (crate event : Z) (mds : list ModuleData)
| SystemEventOf (crate subtype len : Z) (words : list Z).

Definition write_item {D} `{!WordBuffer D} (maxWords : Z) (it : file_item) (dest : D) : outcome D :=
  match it with
  | ReadoutEvent crate event mds => write_event_data dest crate event mds maxWords
  | SystemEventOf crate subtype len words =>
      write_system_event dest crate (sysevent_word 0 0 subtype len :: words) maxWords
  end.

Fixpoint write_items {D} `{!WordBuffer D} (maxWords : Z) (items : list file_item) (dest : D)
  : outcome D :=
  match items with
  | [] => Return dest
  | it :: rest => d ← write_item maxWords it dest; write_items maxWords rest d
  end.

(** The data is that of modules of the readout structure. *)
Definition file_item_ok (st : list (list ModuleReadoutStructure)) (it : file_item) : Prop :=
  match it with
  | ReadoutEvent crate event mds =>
      0 ≤ crate < 8 ∧ 0 ≤ event < 15
      ∧ ∃ mods, st !! Z.to_nat event = Some mods ∧ mods ≠ [] ∧ Forall2 matches mods mds
  | SystemEventOf crate subtype len words =>
      0 ≤ crate < 8 ∧ 0 ≤ subtype < 128 ∧ 0 ≤ len < 8192 ∧ Forall is_u32 words
  end.

(** The words that carry an item. *)
Definition file_item_enc (maxWords : Z) (it : file_item) (ws : list Z) : Prop :=
  match it with
  | ReadoutEvent crate event mds => event_enc (event + 1) crate (mds ≫= module_items) ws
  | SystemEventOf crate subtype _ words =>
      ∃ frames, sys_enc maxWords crate subtype words frames ∧ ws = concat frames
  end.

(** The callbacks that an item leads to. *)
Definition file_item_callbacks (maxWords : Z) (it : file_item) (cbs : list CallbackEvent) : Prop :=
  match it with
  | ReadoutEvent crate event mds => cbs = [EventData crate event mds]
  | SystemEventOf crate subtype _ words =>
      ∃ frames, sys_enc maxWords crate subtype words frames ∧ cbs = SystemEvent crate <$> frames
  end.

Lemma matches_wf mods mds : Forall2 matches mods mds → Forall module_data_wf mds.
Proof. induction 1 as [|? ? ? ? []]; by constructor. Qed.

Lemma write_item_enc {D} `{!WordBuffer D, !WordBufferLaws D} maxWords st it (dest : D) :
  2 ≤ maxWords < 8192 → file_item_ok st it → wbuf_ok dest →
  ∃ d ws, write_item maxWords it dest = Return d ∧ wbuf_ok d
    ∧ wbuf_view d = wbuf_view dest ++ ws ∧ file_item_enc maxWords it ws.
Proof.
  intros Hmax Hit Hok. destruct it as [crate event mds|crate subtype len words].
  - destruct Hit as (Hc & He & mods & _ & Hne & Hm).
    apply write_event_data_frames; try done; [|by eapply matches_wf].
    intros ->. by inversion Hm; subst.
  - destruct Hit as (Hc & Hs & Hl & Hw).
    destruct (write_system_event_frames maxWords crate subtype len ltac:(lia) Hc Hs Hl dest words Hok Hw)
      as (d & frames & H1 & H2 & H3 & H4).
    exists d, (concat frames). split_and!; try done. by exists frames.
Qed.

Lemma write_items_enc {D} `{!WordBuffer D, !WordBufferLaws D} maxWords st items (dest : D) :
  2 ≤ maxWords < 8192 → Forall (file_item_ok st) items → wbuf_ok dest →
  ∃ d wss, write_items maxWords items dest = Return d ∧ wbuf_ok d
    ∧ wbuf_view d = wbuf_view dest ++ concat wss ∧ Forall2 (file_item_enc maxWords) items wss.
Proof.
  intros Hmax Hits. revert dest; induction Hits as [|it items Hit Hits IH]; intros dest Hok.
  - exists dest, []. cbn. rewrite app_nil_r. by split_and!.
  - destruct (write_item_enc maxWords st it dest Hmax Hit Hok) as (d1 & ws & H1 & Hok1 & Hv1 & He).
    destruct (IH d1 Hok1) as (d & wss & H2 & Hok2 & Hv2 & HF).
    exists d, (ws :: wss). cbn [write_items]. rewrite H1. cbn [mbind outcome_bind].
    split_and!; [done|done| |by constructor]. by rewrite Hv2, Hv1, <- app_assoc.
Qed.

(** ** Parsing them *)

(** Parsing went from [w] to [w'], which is idle in front of [rest]. *)
Definition parsed_to (B : Z) (rest : list Z) (cbs : list CallbackEvent) (w w' : World) : Prop :=
  runs w w' ∧ world_inv B w' ∧ idle (w_state w') ∧ w_input w' = rest
  ∧ w_callbacks w' = w_callbacks w ++ cbs
  ∧ readoutStructure (w_state w') = readoutStructure (w_state w).

Lemma parsed_to_trans B r1 r2 c1 c2 w1 w2 w3 :
  parsed_to B r1 c1 w1 w2 → parsed_to B r2 c2 w2 w3 → parsed_to B r2 (c1 ++ c2) w1 w3.
Proof.
  intros (H1 & _ & _ & _ & H5 & H6) (G1 & G2 & G3 & G4 & G5 & G6).
  split_and!; try done; [by eapply runs_trans|by rewrite G5, H5, app_assoc|congruence].
Qed.

Lemma system_frame_runs B rest w cont crate subtype contents :
  B ≤ 2 ^ 32 → world_inv B w → idle (w_state w) →
  0 ≤ cont < 2 → 0 ≤ crate < 8 → 0 ≤ subtype < 128 → zlen contents < 8192 →
  let frame := sysevent_word cont crate subtype (zlen contents) :: contents in
  w_input w = frame ++ rest → ∃ w', parsed_to B rest [SystemEvent crate frame] w w'.
Proof.
  intros HB Hw Hid Hc Hcr Hs Hl frame Hi. pose proof (zlen_nonneg contents).
  set (h := sysevent_word cont crate subtype (zlen contents)) in *.
  assert (He : extract_frame_info h = mkFrameInfo (zlen contents) frame_headers.SystemEvent
    (cont * 8) 0 crate subtype) by (apply extract_sysevent_word; lia).
  assert (Ht : get_frame_type h = frame_headers.SystemEvent) by (by rewrite <- fi_type_eq, He).
  pose proof Hid as (Hid1 & Hid2 & Hid3 & Hid4).
  assert (Hin : w_input w ≠ []) by (by rewrite Hi).
  destruct (system_event_iteration w h contents rest Hid3 Hid4 Ht) as [Hit Htk];
    [unfold get_frame_length; by rewrite He|done|].
  destruct (parse_iteration_post B HB false w Hw Hin) as (_ & _ & Hw' & _).
  rewrite Hit in Hw'. cbn [snd] in Hw'. exists (system_event_taken h w).
  split_and!; try done.
  - by apply (runs_step w Continue_); [|done|right].
  - by rewrite Htk.
  - rewrite Htk. cbn [w_callbacks]. by rewrite He.
Qed.

Lemma system_event_runs B rest maxWords crate subtype words frames :
  B ≤ 2 ^ 32 → 0 ≤ crate < 8 → 0 ≤ subtype < 128 → maxWords < 8192 →
  sys_enc maxWords crate subtype words frames →
  ∀ w, world_inv B w → idle (w_state w) → w_input w = concat frames ++ rest →
  ∃ w', parsed_to B rest (SystemEvent crate <$> frames) w w'.
Proof.
  intros HB Hc Hs Hmax. induction 1 as [c Hl|c ws frames Hl Hne He IH]; intros w Hw Hid Hi.
  - cbn [concat] in Hi. rewrite app_nil_r in Hi.
    eapply (system_frame_runs B rest w 0 crate subtype c); try done; lia.
  - cbn [concat] in Hi. rewrite <- app_assoc in Hi.
    destruct (system_frame_runs B (concat frames ++ rest) w 1 crate subtype c) as (w1 & Hp1);
      try done; [lia|].
    pose proof Hp1 as (_ & Hw1 & Hid1 & Hi1 & _).
    destruct (IH w1 Hw1 Hid1 Hi1) as (w2 & Hp2). exists w2.
    apply (parsed_to_trans _ _ _ _ _ _ _ _ Hp1 Hp2).
Qed.

Lemma file_item_runs B rest maxWords it ws w :
  B ≤ 2 ^ 32 → maxWords < 8192 → file_item_ok (readoutStructure (w_state w)) it →
  file_item_enc maxWords it ws → world_inv B w → idle (w_state w) → w_input w = ws ++ rest →
  ∃ w' cbs, parsed_to B rest cbs w w' ∧ file_item_callbacks maxWords it cbs.
Proof.
  intros HB Hmax Hit He Hw Hid Hi. destruct it as [crate event mds|crate subtype len words].
  - destruct Hit as (Hc & Hev & mods & Hm & Hne & HF).
    destruct (event_runs crate event mods mds HF B rest w ws HB Hw Hid ltac:(lia) Hm Hne He Hi)
      as (w' & Hr & Hw' & (H1 & H2 & H3 & H4)).
    exists w', [EventData crate event mds]. by split_and!.
  - destruct Hit as (Hc & Hs & _ & _). destruct He as (frames & He & ->).
    destruct (system_event_runs B rest maxWords crate subtype words frames HB Hc Hs Hmax He w Hw Hid Hi)
      as (w' & Hp). exists w', (SystemEvent crate <$> frames). split; [done|]. by exists frames.
Qed.

Lemma file_runs B maxWords items wss :
  B ≤ 2 ^ 32 → maxWords < 8192 → Forall2 (file_item_enc maxWords) items wss →
  ∀ w, Forall (file_item_ok (readoutStructure (w_state w))) items →
  world_inv B w → idle (w_state w) → w_input w = concat wss →
  ∃ w' cbss, parsed_to B [] (concat cbss) w w' ∧ Forall2 (file_item_callbacks maxWords) items cbss.
Proof.
  intros HB Hmax. induction 1 as [|it ws items wss He HF IH]; intros w Hok Hw Hid Hi.
  - exists w, []. split; [|constructor]. split_and!; try done; [apply runs_refl|].
    cbn. by rewrite app_nil_r.
  - inversion Hok as [|? ? Hit Hits]; subst.
    destruct (file_item_runs B (concat wss) maxWords it ws w HB Hmax Hit He Hw Hid Hi)
      as (w1 & cbs & Hp1 & Hcb). pose proof Hp1 as (_ & Hw1 & Hid1 & Hi1 & _ & Hst).
    rewrite <- Hst in Hits. destruct (IH w1 Hits Hw1 Hid1 Hi1) as (w2 & cbss & Hp2 & HFc).
    exists w2, (cbs :: cbss). split; [|by constructor]. apply (parsed_to_trans _ _ _ _ _ _ _ _ Hp1 Hp2).
Qed.

Lemma idle_after_loss b n w : idle (w_state w) → idle (w_state (check_buffer_loss b n w)).
Proof. intros (?&?&?&?). unfold check_buffer_loss. by destruct (negb _), b. Qed.

Lemma check_buffer_loss_callbacks b n w : w_callbacks (check_buffer_loss b n w) = w_callbacks w.
Proof. unfold check_buffer_loss. by destruct (negb _). Qed.

(** The buffer functions at a buffer that is parsed to its end. *)
Lemma parsed_usb_buffer B n buffer cbs w w' :
  B ≤ 2 ^ 32 →
  let w1 := with_input buffer (check_buffer_loss false n w) in
  world_inv B w1 → parsed_to B [] cbs w1 w' →
  ∃ w2, parse_readout_buffer_typed USB n buffer w = Some (Return Ok, w2)
    ∧ w_callbacks w2 = w_callbacks w ++ cbs ∧ idle (w_state w2)
    ∧ readoutStructure (w_state w2) = readoutStructure (w_state w1).
Proof.
  intros HB w1 Hw1 (Hr & Hw' & Hid & Hi & Hcb & Hst).
  change (w_callbacks w1) with (w_callbacks (check_buffer_loss false n w)) in Hcb.
  rewrite check_buffer_loss_callbacks in Hcb.
  assert (Hc := runs_contents B w1 w' HB Hw1 Hr Hi).
  unfold parse_readout_buffer_typed, parse_readout_buffer_usb. fold w1. cbn [usb_loop].
  destruct (w_input w1) as [|x l] eqn:Hin.
  - change (w_input w1) with buffer in Hin. subst buffer.
    unfold parse_readout_contents in Hc. cbn [w1 with_input w_input length Nat.mul Nat.add contents_loop] in Hc.
    injection Hc as <-. rewrite bool_decide_eq_true_2 by done. by eexists.
  - rewrite Hc. rewrite bool_decide_eq_true_2 by done. cbn [negb].
    destruct buffer as [|y buf]; [done|]. cbn [length usb_loop map_counters w_input]. rewrite Hi.
    rewrite bool_decide_eq_true_2 by done. by eexists.
Qed.

Lemma new_buffer_ok n : buffer_ok (new_buffer n) ∧ viewU32 (new_buffer n) = [].
Proof. split; [|done]. split; [|done]. pose proof (zlen_nonneg (m_buffer (new_buffer n))). cbn in *. lia. Qed.

(** C1: Generated listfiles are parsed back exactly.  Any sequence of readout
    events with at least one module and of system events, with indices and subtypes that fit
    the fields of the frame headers, is written by [write_event_data] and
    [write_system_event] into a fresh [ReadoutBuffer], with any maximum frame size
    from 2 to 8191 words, so that events and block reads are split into
    continuation frames at arbitrary places.  A readout parser whose readout
    structure describes the modules, none of which is a mesytec module read out with 2eSST
    (the parser removes fill words from the data of these), then parses the buffer, if
    it has less than 2^32 words, with result [Ok] and calls [eventData] once per event with the same crate index, event index and
    module data (prefix, dynamic and suffix parts and their words), and
    [systemEvent] with the frames of the system events, in the order of writing. *)
Theorem generated_file_roundtrip stacks s maxWords items n cap :
  make_readout_parser stacks = Return s → 2 ≤ maxWords < 8192 →
  Forall (file_item_ok (readoutStructure s)) items →
  ∃ d, write_items maxWords items (new_buffer cap) = Return d
    ∧ (zlen (viewU32 d) < 2 ^ 32 →
       ∃ w cbss,
         parse_readout_buffer_typed USB n (viewU32 d) (initial_world s) = Some (Return Ok, w)
         ∧ w_callbacks w = concat cbss ∧ Forall2 (file_item_callbacks maxWords) items cbss
         ∧ idle (w_state w)).
Proof.
  intros Hs Hmax Hits. destruct (new_buffer_ok cap) as [Hok0 Hv0].
  change (wbuf_ok (new_buffer cap)) in Hok0.
  destruct (write_items_enc maxWords _ items (new_buffer cap) Hmax Hits Hok0)
    as (d & wss & Hw & Hok & Hv & HF). exists d. split; [done|]. intros Hsz.
  change (wbuf_view (new_buffer cap)) with (viewU32 (new_buffer cap)) in Hv. rewrite Hv0 in Hv.
  destruct (initial_parser_inv stacks s Hs) as [Hinv Hu].
  assert (Hid : idle s).
  { destruct Hinv as (_ & _ & _ & [|(mods & [He _ _ _] & _)]); [done|].
    apply outcome_bind_Return in Hs as (st & _ & Hs). injection Hs as <-. cbn in He. lia. }
  assert (Hwi : world_inv (2 ^ 32) (with_input (viewU32 d) (initial_world s))).
  { split; [done| |constructor]. cbn [with_input initial_world w_state w_input]. lia. }
  destruct (check_buffer_loss_inv (2 ^ 32) false n _ Hwi) as (Hwi1 & Hst1 & _).
  rewrite check_buffer_loss_input in Hwi1.
  edestruct (file_runs (2 ^ 32) maxWords items wss) as (w' & cbss & Hp & HFc);
    [lia|lia|exact HF| |exact Hwi1|by apply idle_after_loss|exact Hv|].
  { rewrite check_buffer_loss_input in Hst1. by rewrite Hst1. }
  destruct (parsed_usb_buffer (2 ^ 32) n (viewU32 d) _ _ w' ltac:(lia) Hwi1 Hp)
    as (w2 & H1 & H2 & H3 & _). exists w2, cbss. by split_and!.
Qed.

Definition example_event : ModuleData := mkModuleData [1; 10; 11; 12; 3] 5 1 3 1 true.

Definition example_file : list file_item :=
  [ReadoutEvent 2 0 [example_event];
   SystemEventOf 2 system_event.subtype.UnixTimetick 3 [7; 8; 9];
   ReadoutEvent 2 0 [example_event]].

Lemma generated_file_roundtrip_witness :
  ∃ s d w cbss, make_readout_parser [example_stack] = Return s
    ∧ write_items 3 example_file (new_buffer 0) = Return d
    ∧ parse_readout_buffer_typed USB 1 (viewU32 d) (initial_world s) = Some (Return Ok, w)
    ∧ w_callbacks w = concat cbss ∧ Forall2 (file_item_callbacks 3) example_file cbss.
Proof.
  destruct (make_readout_parser [example_stack]) as [s|e|] eqn:Hm; [|done|done].
  assert (Hwf : matches (default (mkMRS 0 0 false EmptyString [] ∅ false)
      (readoutStructure s !! 0%nat ≫= head)) example_event).
  { injection Hm as <-. split; try done. split; try done. repeat constructor; done. }
  destruct (generated_file_roundtrip [example_stack] s 3 example_file 1 0 Hm) as (d & Hd & H).
  - lia.
  - assert (He : file_item_ok (readoutStructure s) (ReadoutEvent 2 0 [example_event])).
    { split_and!; [lia..|]. injection Hm as <-. eexists. split_and!; [reflexivity|done|].
      constructor; [exact Hwf|constructor]. }
    apply Forall_cons; split; [exact He|]. apply Forall_cons; split.
    { split_and!; [done..|]. by repeat (apply Forall_cons; split). }
    apply Forall_cons; split; [exact He|constructor].
  - destruct H as (w & cbss & H1 & H2 & H3 & _); [|exists s, d, w, cbss; split_and!; assumption || reflexivity].
    assert (E : match write_items 3 example_file (new_buffer 0) with
                | Return d => zlen (viewU32 d) <? 2 ^ 32 | _ => false end = true)
      by (by vm_compute). rewrite Hd in E. by apply Z.ltb_lt in E.
Defined.

(** System events of any length are split without losing a word.
    [write_system_event] appends frames whose payloads, put together, are the
    words of the event; every frame carries the crate index, the subtype and its
    own length, which is at most the maximum frame size; and the continue flag is
    set in all frames but the last. *)
Theorem system_event_split {D} `{!WordBuffer D, !WordBufferLaws D} (dest : D)
    maxWords crate subtype len words :
  1 ≤ maxWords < 8192 → 0 ≤ crate < 8 → 0 ≤ subtype < 128 → 0 ≤ len < 8192 →
  wbuf_ok dest → Forall is_u32 words →
  ∃ d frames,
    write_system_event dest crate (sysevent_word 0 0 subtype len :: words) maxWords = Return d
    ∧ wbuf_view d = wbuf_view dest ++ concat frames
    ∧ concat (tail <$> frames) = words
    ∧ ∀ k frame, frames !! k = Some frame →
      ∃ h payload, frame = h :: payload ∧ zlen payload ≤ maxWords
        ∧ extract_frame_info h =
            mkFrameInfo (zlen payload) frame_headers.SystemEvent
              (if bool_decide (S k = length frames) then 0 else 8) 0 crate subtype.
Proof.
  intros Hmax Hc Hs Hl Hok Hw.
  destruct (write_system_event_frames maxWords crate subtype len Hmax Hc Hs Hl dest words Hok Hw)
    as (d & frames & H1 & _ & H3 & H4).
  exists d, frames. split_and!; [done|done| |].
  - clear -H4. induction H4 as [c Hl|c ws frames Hl Hne He IH]; cbn; [by rewrite app_nil_r|].
    by rewrite IH.
  - clear -H4 Hmax Hc Hs. induction H4 as [c Hl|c ws frames Hl Hne He IH]; intros k frame Hk.
    + destruct k as [|k]; [|done]. injection Hk as <-. pose proof (zlen_nonneg c).
      eexists _, c. split_and!; [done|done|]. rewrite extract_sysevent_word by lia. done.
    + assert (Hf : frames ≠ []) by (by destruct He).
      destruct k as [|k].
      * injection Hk as <-. pose proof (zlen_nonneg c). eexists _, c. split_and!; [done|lia|].
        rewrite extract_sysevent_word by lia. rewrite bool_decide_eq_false_2; [done|].
        destruct frames; [done|cbn; lia].
      * destruct (IH k frame Hk) as (h & payload & -> & Hp & Hx). exists h, payload.
        split_and!; [done|done|]. rewrite Hx. cbn [length].
        by rewrite (bool_decide_ext (S (S k) = S (length frames)) (S k = length frames)) by lia.
Qed.

Lemma system_event_split_witness :
  ∃ d frames,
    write_system_event (new_buffer 16) 3 (sysevent_word 0 0 0x10 5 :: [1; 2; 3; 4; 5]) 2 = Return d
    ∧ wbuf_view d = wbuf_view (new_buffer 16) ++ concat frames
    ∧ concat (tail <$> frames) = [1; 2; 3; 4; 5]
    ∧ ∀ k frame, frames !! k = Some frame →
      ∃ h payload, frame = h :: payload ∧ zlen payload ≤ 2
        ∧ extract_frame_info h =
            mkFrameInfo (zlen payload) frame_headers.SystemEvent
              (if bool_decide (S k = length frames) then 0 else 8) 0 3 0x10.
Proof.
  apply (system_event_split (new_buffer 16) 2 3 0x10 5 [1; 2; 3; 4; 5]); try lia.
  - apply new_buffer_ok.
  - repeat constructor; done.
Defined.
