(* ===== verification/StackErrors.v ===== *)
(** * Stack error records: [mvlc_stack_errors.h]

    Counting of the error frames a controller sends, and the words in which the counts
    are stored in a listfile.  The [unordered_map]s are finite maps; where the code
    iterates over one, the order of the entries is an argument. *)

From S2P Require Import Prelude Constants Frames FramesFacts.

(* mvlc_stack_errors.h:42-46 StackErrorInfo *)
Record StackErrorInfo : Type := mkErrorInfo { ei_line : Z; ei_flags : Z }.

(* mvlc_stack_errors.h:48-51 operator== *)
#[global] Instance StackErrorInfo_eq_dec : EqDecision StackErrorInfo.
Proof. solve_decision. Defined.

(* mvlc_stack_errors.h:58-66 hash *)
#[global] Instance StackErrorInfo_countable : Countable StackErrorInfo.
Proof.
  refine (inj_countable' (λ ei, (ei_line ei, ei_flags ei)) (λ p, mkErrorInfo p.1 p.2) _). by intros [].
Defined.

(** The two type aliases of the source *)
Abbreviation ErrorInfoCounts := (gmap StackErrorInfo Z).
Abbreviation StackErrors := (list ErrorInfoCounts).

(* mvlc_stack_errors.h:79-85 StackErrorCounters *)
Record StackErrorCounters : Type := mkErrorCounters {
  stackErrors : StackErrors;
  nonErrorFrames : Z;
  nonErrorHeaderCounts : gmap Z Z
}.

(** A default constructed [StackErrors] *)
(* mvlc_stack_errors.h:77-77 StackErrors *)
Definition no_errors : StackErrors := replicate (Z.to_nat stacks.StackCount) ∅.

(* mvlc_stack_errors.h:79-85 StackErrorCounters *)
Definition new_error_counters : StackErrorCounters := mkErrorCounters no_errors 0 ∅.

(** [++map[key]] *)
Definition count_key `{Countable K} (k : K) (m : gmap K Z) : gmap K Z :=
  <[k := inc64 (default 0 (m !! k))]> m.

(* mvlc_stack_errors.h:89-122 update_stack_error_counters *)
Definition update_stack_error_counters (counters : StackErrorCounters) (errorFrame : list Z)
  : StackErrorCounters :=
  let frameInfo := extract_frame_info (default 0 (errorFrame !! 0%nat)) in
  let isErrorFrame :=
    (zlen errorFrame =? 2) && (fi_type frameInfo =? frame_headers.StackError)
    && (fi_stack frameInfo <? stacks.StackCount) in
  if isErrorFrame then
    let stackLine := u16 (default 0 (errorFrame !! 1%nat) .& stack_error_info.StackLineMask) in
    let ei := mkErrorInfo stackLine (fi_flags frameInfo) in
    mkErrorCounters (alter (count_key ei) (Z.to_nat (fi_stack frameInfo)) (stackErrors counters))
      (nonErrorFrames counters) (nonErrorHeaderCounts counters)
  else
    match errorFrame with
    | [] => counters
    | header :: _ =>
        mkErrorCounters (stackErrors counters) (inc64 (nonErrorFrames counters))
          (count_key header (nonErrorHeaderCounts counters))
    end.

(* mvlc_stack_errors.h:126-140 stack_error_info_to_sysevent_data *)
Definition stack_error_info_to_sysevent_data (stackId : Z) (errorInfo : StackErrorInfo)
    (errorCount : Z) : Z :=
  let errorCount := if errorCount >? 0xffff then 0xffff else errorCount in
  u32 (((stackId .& 0xf) ≪ 28) .| ((ei_flags errorInfo .& 0xf) ≪ 24)
       .| ((ei_line errorInfo .& 0xff) ≪ 16) .| ((errorCount .& 0xffff) ≪ 0)).

(** The words for one stack, given the entries of its map in the order of iteration. *)
(* mvlc_stack_errors.h:154-166 stack_errors_to_sysevent_data *)
Fixpoint stack_words (stackId : Z) (entries : list (StackErrorInfo * Z)) : list Z :=
  match entries with
  | [] => []
  | (errorInfo, errorCount) :: rest =>
      if errorCount =? 0 then stack_words stackId rest
      else stack_error_info_to_sysevent_data stackId errorInfo errorCount :: stack_words stackId rest
  end.

(* mvlc_stack_errors.h:146-170 stack_errors_to_sysevent_data *)
Fixpoint stack_words_from (stackId : Z) (stacks : list (list (StackErrorInfo * Z))) : list Z :=
  match stacks with
  | [] => []
  | entries :: rest => stack_words stackId entries ++ stack_words_from (stackId + 1) rest
  end.

(* mvlc_stack_errors.h:146-170 stack_errors_to_sysevent_data *)
Definition stack_errors_to_sysevent_data (stacks : list (list (StackErrorInfo * Z))) : list Z :=
  stack_words_from 0 stacks.

(* mvlc_stack_errors.h:180-189 decode_stack_errors_sysevent_data *)
Definition decode_stack_error_word (result : StackErrors) (word : Z) : StackErrors :=
  let stackId := (word ≫ 28) .& 0xf in
  let errorInfo := mkErrorInfo ((word ≫ 16) .& 0xff) ((word ≫ 24) .& 0xf) in
  let errorCount := (word ≫ 0) .& 0xffff in
  if stackId <? zlen result then alter (insert errorInfo errorCount) (Z.to_nat stackId) result
  else result.

(* mvlc_stack_errors.h:174-192 decode_stack_errors_sysevent_data *)
Definition decode_stack_errors_sysevent_data (data : list Z) : StackErrors :=
  foldl decode_stack_error_word no_errors data.

(** ** The encoded words *)

(** The stored count: large counts are kept at the maximum. *)
Definition clamp (count : Z) : Z := Z.min count 0xffff.

Lemma sysevent_word_sum i ei c :
  0 ≤ i < 16 → 0 ≤ c →
  stack_error_info_to_sysevent_data i ei c
  = i * 2 ^ 28 + (ei_flags ei mod 2 ^ 4) * 2 ^ 24 + (ei_line ei mod 2 ^ 8) * 2 ^ 16 + clamp c.
Proof.
  intros Hi Hc. unfold stack_error_info_to_sysevent_data.
  replace (if c >? 65535 then 65535 else c) with (clamp c) by (unfold clamp; destruct (Z.gtb_spec c 65535); lia).
  assert (Hcl : 0 ≤ clamp c < 2 ^ 16) by (unfold clamp; lia).
  change 0xffff with (2 ^ 16 - 1). change 0xff with (2 ^ 8 - 1). change 0xf with (2 ^ 4 - 1).
  rewrite !land_mask, !shiftl_mul by lia.
  rewrite (Z.mod_small (clamp c)), (Z.mod_small i), Z.mul_1_r by lia.
  pose proof (field_range (ei_flags ei) 4). pose proof (field_range (ei_line ei) 8).
  generalize dependent (ei_flags ei mod 2 ^ 4). generalize dependent (ei_line ei mod 2 ^ 8). intros l Hl f Hf.
  rewrite (lor_add (f * _) (i * _) 28), (lor_add (l * _) _ 24), (lor_add (clamp c) _ 16); try lia; try zlia.
  unfold u32. apply Z.mod_small. lia.
Qed.

Lemma decode_encoded_word r i ei c :
  0 ≤ i < 16 → 0 ≤ c → (Z.to_nat i < length r)%nat → 0 ≤ ei_line ei < 256 → 0 ≤ ei_flags ei < 16 →
  decode_stack_error_word r (stack_error_info_to_sysevent_data i ei c)
  = alter (insert ei (clamp c)) (Z.to_nat i) r.
Proof.
  intros Hi Hc Hr Hl Hf. rewrite sysevent_word_sum by done. unfold decode_stack_error_word.
  assert (Hcl : 0 ≤ clamp c < 2 ^ 16) by (unfold clamp; lia).
  rewrite (field_eq _ 28 4), (field_eq _ 24 4), (field_eq _ 16 8), (field_eq _ 0 16) by lia.
  rewrite !(Z.mod_small (ei_flags ei)), !(Z.mod_small (ei_line ei)) by lia.
  set (w := _ + clamp c).
  replace ((w / 2 ^ 28) mod 2 ^ 4) with i by (subst w; zlia).
  replace ((w / 2 ^ 24) mod 2 ^ 4) with (ei_flags ei) by (subst w; zlia).
  replace ((w / 2 ^ 16) mod 2 ^ 8) with (ei_line ei) by (subst w; zlia).
  replace ((w / 2 ^ 0) mod 2 ^ 16) with (clamp c) by (subst w; zlia).
  destruct (Z.ltb_spec i (zlen r)); [by destruct ei|unfold zlen in *; lia].
Qed.

(** Line, flags and count of an entry fit into the fields of its word. *)
Definition entry_fits (p : StackErrorInfo * Z) : Prop :=
  0 ≤ ei_line p.1 < 256 ∧ 0 ≤ ei_flags p.1 < 16 ∧ 0 ≤ p.2.

(** What decoding makes of the entries of one map. *)
Definition decoded_entries (entries : list (StackErrorInfo * Z)) : list (StackErrorInfo * Z) :=
  prod_map id clamp <$> filter (λ p, p.2 ≠ 0) entries.

Definition insert_entry (m : gmap StackErrorInfo Z) (p : StackErrorInfo * Z) : gmap StackErrorInfo Z := <[p.1 := p.2]> m.

Lemma decode_stack_words i entries r :
  0 ≤ i < 16 → (Z.to_nat i < length r)%nat → Forall entry_fits entries →
  foldl decode_stack_error_word r (stack_words i entries)
  = alter (λ m, foldl insert_entry m (decoded_entries entries)) (Z.to_nat i) r.
Proof.
  intros Hi Hr He. revert r Hr; induction He as [|[ei c] entries (Hl & Hf & Hc) He IH]; intros r Hr.
  { cbn. by rewrite list_alter_id. }
  cbn [stack_words]. unfold decoded_entries. rewrite filter_cons. cbn [snd].
  destruct (Z.eqb_spec c 0) as [->|Hne]; [rewrite decide_False by lia; by apply IH|].
  rewrite decide_True by done. cbn [foldl fmap list_fmap fst snd] in *.
  rewrite decode_encoded_word by done. rewrite IH by (by rewrite length_alter).
  by rewrite list_alter_alter_eq.
Qed.

Lemma foldl_insert_entry entries m :
  foldl insert_entry m entries = (list_to_map (reverse entries) : gmap StackErrorInfo Z) ∪ m.
Proof.
  revert m; induction entries as [|[k v] entries IH]; intros m; cbn [foldl].
  - by rewrite reverse_nil, list_to_map_nil, map_empty_union.
  - rewrite IH, reverse_cons, list_to_map_app, <- (assoc_L (∪)). f_equal.
    cbn. by rewrite insert_empty, <- insert_union_singleton_l.
Qed.

(** The map that a decoder reconstructs: entries with count 0 are missing, counts are
    cut off at the maximum. *)
Definition stored_counts (m : gmap StackErrorInfo Z) : gmap StackErrorInfo Z :=
  clamp <$> filter (λ p, p.2 ≠ 0) m.

Lemma decoded_entries_map m entries :
  entries ≡ₚ map_to_list m → foldl insert_entry ∅ (decoded_entries entries) = stored_counts m.
Proof.
  intros Hp. rewrite foldl_insert_entry, map_union_empty.
  assert (Hnd : NoDup (decoded_entries entries).*1).
  { unfold decoded_entries. rewrite <- list_fmap_compose.
    apply (sublist_NoDup _ entries.*1); [rewrite Hp; apply NoDup_fst_map_to_list|].
    apply (fmap_sublist fst), sublist_filter. }
  assert (Hnd' : NoDup (reverse (decoded_entries entries)).*1)
    by (rewrite fmap_reverse, reverse_Permutation; done).
  apply map_eq. intros k. apply option_eq. intros v.
  rewrite <- elem_of_list_to_map by done. rewrite elem_of_reverse. unfold decoded_entries, stored_counts.
  rewrite list_elem_of_fmap, lookup_fmap, fmap_Some. split.
  - intros ([k' c] & [= -> ->] & [Hc Hin]%list_elem_of_filter). exists c. split; [|done].
    apply map_lookup_filter_Some. rewrite Hp in Hin. by apply elem_of_map_to_list in Hin.
  - intros (c & [Hc Hne]%map_lookup_filter_Some & ->). exists (k, c). split; [done|].
    apply list_elem_of_filter. split; [done|]. rewrite Hp. by apply elem_of_map_to_list.
Qed.

Lemma decode_stacks_from done_ stacks i :
  Z.of_nat (length done_) = i → i + zlen stacks ≤ 16 → Forall (Forall entry_fits) stacks →
  foldl decode_stack_error_word (done_ ++ replicate (length stacks) ∅) (stack_words_from i stacks)
  = done_ ++ ((λ entries, foldl insert_entry ∅ (decoded_entries entries)) <$> stacks).
Proof.
  revert done_ i; induction stacks as [|entries stacks IH]; intros done_ i Hi Hl Hf; [done|].
  inversion Hf as [|? ? He Hfs]; subst. rewrite zlen_cons in Hl. pose proof (zlen_nonneg stacks).
  cbn [stack_words_from length replicate fmap list_fmap]. rewrite foldl_app, decode_stack_words; [|lia| |done].
  - rewrite Nat2Z.id, alter_app_r_alt by done. rewrite Nat.sub_diag. cbn [alter list_alter].
    rewrite cons_middle, app_assoc, (IH _ (Z.of_nat (length done_) + 1)); [by rewrite <- app_assoc| |lia|done].
    by rewrite length_app, Nat2Z.inj_add.
  - rewrite Nat2Z.id, length_app. cbn [length]. apply Nat.lt_add_pos_r. lia.
Qed.

(** ** Counting *)

(** The stack, line and flags an error frame reports. *)
Definition error_of (frame : list Z) : option (nat * StackErrorInfo) :=
  match frame with
  | [header; info] =>
      let fi := extract_frame_info header in
      if (fi_type fi =? frame_headers.StackError) && (fi_stack fi <? stacks.StackCount)
      then Some (Z.to_nat (fi_stack fi), mkErrorInfo (info mod 2 ^ 16) (fi_flags fi))
      else None
  | _ => None
  end.

Lemma update_error c frame stack ei :
  error_of frame = Some (stack, ei) →
  update_stack_error_counters c frame
  = mkErrorCounters (alter (count_key ei) stack (stackErrors c)) (nonErrorFrames c) (nonErrorHeaderCounts c).
Proof.
  intros H. destruct frame as [|h [|w [|]]]; try done. cbn [error_of] in H.
  unfold update_stack_error_counters. cbn [lookup list_lookup default from_option].
  change (zlen [h; w] =? 2) with true. cbn [andb].
  destruct ((fi_type _ =? _) && _); [|done].
  apply Some_inj, pair_equal_spec in H as [<- <-].
  change stack_error_info.StackLineMask with (2 ^ 16 - 1). rewrite land_mask by lia.
  unfold u16. by rewrite Z.mod_mod.
Qed.

Lemma update_other c h frame :
  error_of (h :: frame) = None →
  update_stack_error_counters c (h :: frame)
  = mkErrorCounters (stackErrors c) (inc64 (nonErrorFrames c)) (count_key h (nonErrorHeaderCounts c)).
Proof.
  intros H. unfold update_stack_error_counters. cbn [lookup list_lookup default from_option].
  destruct frame as [|w [|v frame]]; [done| |].
  - cbn [error_of] in H. change (zlen [h; w] =? 2) with true. cbn [andb].
    by destruct ((fi_type _ =? _) && _).
  - rewrite !zlen_cons. pose proof (zlen_nonneg frame). by destruct (Z.eqb_spec (1 + (1 + (1 + zlen frame))) 2); [lia|].
Qed.

Definition errors_at (c : StackErrorCounters) (stack : nat) (ei : StackErrorInfo) : Z :=
  default 0 (stackErrors c !! stack ≫= (.!! ei)).

Lemma lookup_count_key `{Countable K} (k k' : K) (m : gmap K Z) :
  default 0 (count_key k m !! k') = if decide (k' = k) then inc64 (default 0 (m !! k)) else default 0 (m !! k').
Proof.
  unfold count_key. destruct (decide (k' = k)) as [->|]; [by rewrite lookup_insert_eq|by rewrite lookup_insert_ne].
Qed.

Lemma inc64_u64 n : inc64 (u64 n) = u64 (n + 1).
Proof. unfold inc64, u64. by rewrite Zplus_mod_idemp_l. Qed.

(** The number of the frames that satisfy [P], as a 64-bit counter has it. *)
Definition occurrences (P : list Z → Prop) `{∀ f, Decision (P f)} (frames : list (list Z)) : Z :=
  u64 (zlen (filter P frames)).

Lemma occurrences_snoc P `{∀ f, Decision (P f)} frames f :
  occurrences P (frames ++ [f]) = if decide (P f) then inc64 (occurrences P frames) else occurrences P frames.
Proof.
  unfold occurrences. rewrite filter_app, filter_cons, filter_nil.
  destruct (decide (P f)); [|by rewrite app_nil_r]. by rewrite zlen_app, inc64_u64.
Qed.

(** The specification of the counters as histograms of the frames seen. *)
Record histograms (frames : list (list Z)) (c : StackErrorCounters) : Prop := {
  hg_length : length (stackErrors c) = Z.to_nat stacks.StackCount;
  hg_errors : ∀ stack ei, errors_at c stack ei = occurrences (λ f, error_of f = Some (stack, ei)) frames;
  hg_others : nonErrorFrames c = occurrences (λ f, f ≠ [] ∧ error_of f = None) frames;
  hg_headers : ∀ h, default 0 (nonErrorHeaderCounts c !! h)
    = occurrences (λ f, head f = Some h ∧ error_of f = None) frames
}.

Lemma error_of_stack frame stack ei : error_of frame = Some (stack, ei) → (stack < 16)%nat.
Proof.
  destruct frame as [|h [|w [|]]]; try done. cbn [error_of]. destruct (_ =? _); [|done].
  destruct (Z.ltb_spec (fi_stack (extract_frame_info h)) stacks.StackCount) as [Hlt|]; [|done].
  change stacks.StackCount with 16 in Hlt. intros [<- _]%Some_inj%pair_equal_spec. lia.
Qed.

Lemma errors_at_alter c stack ei stack' ei' n m :
  (stack < length (stackErrors c))%nat →
  errors_at (mkErrorCounters (alter (count_key ei) stack (stackErrors c)) n m) stack' ei'
  = if decide ((stack', ei') = (stack, ei)) then inc64 (errors_at c stack ei) else errors_at c stack' ei'.
Proof.
  intros Hlt. unfold errors_at. cbn [stackErrors]. destruct (decide (stack' = stack)) as [->|Hne].
  - rewrite list_lookup_alter_eq. destruct (lookup_lt_is_Some_2 _ _ Hlt) as [m0 ->]. cbn.
    rewrite lookup_count_key. destruct (decide (ei' = ei)) as [->|]; [by rewrite decide_True|].
    rewrite decide_False by congruence. done.
  - rewrite list_lookup_alter_ne by done. by rewrite decide_False by congruence.
Qed.

Lemma update_histograms frames c f :
  histograms frames c → histograms (frames ++ [f]) (update_stack_error_counters c f).
Proof.
  intros [Hl He Ho Hh]. destruct (error_of f) as [[stack ei]|] eqn:E.
  - rewrite (update_error c f stack ei E). apply error_of_stack in E as Hs.
    split; cbn [stackErrors nonErrorFrames nonErrorHeaderCounts].
    + by rewrite length_alter.
    + intros stack' ei'. rewrite errors_at_alter by (rewrite Hl; exact Hs). rewrite occurrences_snoc, !He.
      destruct (decide ((stack', ei') = (stack, ei))) as [[= -> ->]|Hne]; [by rewrite decide_True|].
      rewrite decide_False by congruence. done.
    + rewrite occurrences_snoc, decide_False; [done|]. intros [_ ?]. congruence.
    + intros h. rewrite occurrences_snoc, decide_False; [done|]. intros [_ ?]. congruence.
  - destruct f as [|h f].
    { split; cbn; [done| | |]; intros; rewrite occurrences_snoc, decide_False; try done; by intros [??]. }
    rewrite update_other by done. split; cbn [stackErrors nonErrorFrames nonErrorHeaderCounts].
    + done.
    + intros stack ei. rewrite occurrences_snoc, decide_False by congruence. apply He.
    + rewrite occurrences_snoc, decide_True by done. by rewrite Ho.
    + intros h'. rewrite lookup_count_key, occurrences_snoc, !Hh.
      destruct (decide (h' = h)) as [->|]; [by rewrite decide_True|].
      rewrite decide_False; [done|]. intros [[= ?] _]. congruence.
Qed.

Lemma update_all_histograms frames :
  histograms frames (foldl update_stack_error_counters new_error_counters frames).
Proof.
  induction frames as [|f frames IH] using rev_ind; [|by rewrite foldl_snoc; apply update_histograms].
  split; [done| |done|done]. intros stack ei. unfold errors_at. cbn [foldl stackErrors new_error_counters].
  unfold no_errors. destruct (replicate _ _ !! stack) as [m|] eqn:E; [|done].
  apply lookup_replicate in E as [-> _]. done.
Qed.

(** ** The properties *)

(** The stack error counters are histograms of the frames received.  After any
    sequence of notification frames, from new counters and modulo 2^64: the count for a
    stack, line and flags is the number of two-word StackError frames that report
    exactly these; every other non-empty frame is counted once in [nonErrorFrames] and
    once under its header word; empty frames change nothing. *)
Theorem stack_error_histograms frames :
  let c := foldl update_stack_error_counters new_error_counters frames in
  (∀ stack ei, default 0 (stackErrors c !! stack ≫= (.!! ei))
     = u64 (zlen (filter (λ f, error_of f = Some (stack, ei)) frames)))
  ∧ nonErrorFrames c = u64 (zlen (filter (λ f, f ≠ [] ∧ error_of f = None) frames))
  ∧ (∀ h, default 0 (nonErrorHeaderCounts c !! h)
     = u64 (zlen (filter (λ f, head f = Some h ∧ error_of f = None) frames))).
Proof. destruct (update_all_histograms frames) as [_ He Ho Hh]. split_and!; [exact He|exact Ho|exact Hh]. Qed.

(** Stored stack errors are read back.  For any error maps of the 16 stacks whose
    lines are below 256, whose flags have four bits, and in whatever order the maps are
    iterated over, decoding the words of the system event gives back the maps, without
    the entries that have count 0 and with counts cut off at 0xffff. *)
Theorem stack_errors_roundtrip errs entries :
  length errs = Z.to_nat stacks.StackCount →
  Forall2 (λ (m : ErrorInfoCounts) l, l ≡ₚ map_to_list m) errs entries →
  Forall (Forall entry_fits) entries →
  decode_stack_errors_sysevent_data (stack_errors_to_sysevent_data entries) = stored_counts <$> errs.
Proof.
  intros Hl Hperm Hfit. pose proof (Forall2_length _ _ _ Hperm) as Hlen.
  unfold decode_stack_errors_sysevent_data, stack_errors_to_sysevent_data, no_errors. rewrite <- Hl, Hlen.
  pose proof (decode_stacks_from [] entries 0) as H. cbn [app] in H. rewrite H; [|done| |done].
  - clear -Hperm. induction Hperm as [|m l errs entries Hp Hperm IH]; [done|]. cbn [fmap list_fmap].
    f_equal; [by apply decoded_entries_map|exact IH].
  - unfold zlen. rewrite <- Hlen, Hl. done.
Qed.

Definition example_errors : StackErrors :=
  {[ mkErrorInfo 23 1 := 42; mkErrorInfo 23 3 := 150000; mkErrorInfo 7 2 := 0 ]} :: replicate 15 ∅.

Lemma stack_errors_roundtrip_witness :
  decode_stack_errors_sysevent_data (stack_errors_to_sysevent_data (map_to_list <$> example_errors))
  = stored_counts <$> example_errors
  ∧ stored_counts (default ∅ (head example_errors)) = {[ mkErrorInfo 23 1 := 42; mkErrorInfo 23 3 := 65535 ]}.
Proof.
  split; [|vm_compute; reflexivity]. apply (stack_errors_roundtrip example_errors); [reflexivity| |].
  - repeat constructor.
  - repeat constructor; vm_compute; congruence.
Defined.

(** The stored line has eight bits, while error frames report sixteen: errors in lines
    [l] and [l + 256] get the same word, and the one decoded last is kept. *)
Theorem stack_error_line_truncated stackId line flags count :
  stack_error_info_to_sysevent_data stackId (mkErrorInfo (line + 256) flags) count
  = stack_error_info_to_sysevent_data stackId (mkErrorInfo line flags) count.
Proof.
  unfold stack_error_info_to_sysevent_data. cbn [ei_line ei_flags]. do 3 f_equal.
  change 0xff with (2 ^ 8 - 1). rewrite !land_mask by lia.
  replace (line + 256) with (line + 1 * 2 ^ 8) by lia. by rewrite Z.mod_add.
Qed.
