(* ===== verification/Bits.v ===== *)
(** * Bit manipulation: [util/bits.h]

    The portable versions (no BMI2 and no SSE4.2) of gathering and scattering the
    bits of a word, counting bits and finding the lowest one, with proofs that the
    tricks they use compute what they are meant to. *)

From S2P Require Import Prelude.

(** [m & -m] on 32-bit words *)
Definition lowest_bit (m : Z) : Z := m .& u32 (- m).

(** Every round clears one of the 32 bits of [m]. *)
(* util/bits.h:31-40 bit_gather *)
Fixpoint bit_gather_loop (fuel : nat) (w m z b : Z) : Z :=
  match fuel with
  | O => z
  | S fuel' =>
      if m =? 0 then z
      else
        let i := lowest_bit m in
        bit_gather_loop fuel' w (m .^ i) (u32 (z + (if negb ((i .& w) =? 0) then b else 0)))
          (u32 (b ≪ 1))
  end.

(* util/bits.h:20-42 bit_gather *)
Definition bit_gather (w m : Z) : Z := bit_gather_loop 33 w m 0 1.

(* util/bits.h:56-65 bit_scatter *)
Fixpoint bit_scatter_loop (fuel : nat) (w m z b : Z) : Z :=
  match fuel with
  | O => z
  | S fuel' =>
      if m =? 0 then z
      else
        let i := lowest_bit m in
        bit_scatter_loop fuel' w (m .^ i) (u32 (z + (if negb ((b .& w) =? 0) then i else 0)))
          (u32 (b ≪ 1))
  end.

(* util/bits.h:45-66 bit_scatter *)
Definition bit_scatter (w m : Z) : Z := bit_scatter_loop 33 w m 0 1.

(* util/bits.h:69-81 number_of_set_bits *)
Definition number_of_set_bits (i : Z) : Z :=
  let i := u32 (i - ((i ≫ 1) .& 0x55555555)) in
  let i := u32 ((i .& 0x33333333) + ((i ≫ 2) .& 0x33333333)) in
  u32 ((u32 (i + (i ≫ 4)) .& 0x0F0F0F0F) * 0x01010101) ≫ 24.

(* util/bits.h:87-91 trailing_zeroes *)
Definition MultiplyDeBruijnBitPosition : list Z :=
  [0; 1; 28; 2; 29; 14; 24; 3; 30; 22; 20; 15; 25; 17; 4; 8;
   31; 27; 13; 23; 21; 19; 16; 7; 26; 12; 18; 6; 11; 5; 10; 9].

(* util/bits.h:84-94 trailing_zeroes *)
Definition trailing_zeroes (v : Z) : Z :=
  default 0 (MultiplyDeBruijnBitPosition !! Z.to_nat (u32 (lowest_bit v * 0x077CB531) ≫ 27)).

(* util/bits.h:112-119 rotl32 *)
Definition rotl32 (n c : Z) : Z :=
  let mask := 31 in
  let c := c .& mask in
  u32 (n ≪ c) .| (n ≫ (u32 (- c) .& mask)).

(* util/bits.h:121-128 rotr32 *)
Definition rotr32 (n c : Z) : Z :=
  let mask := 31 in
  let c := c .& mask in
  (n ≫ c) .| u32 (n ≪ (u32 (- c) .& mask)).

(** ** Reference definitions *)

(** The bits of [w] at the positions of the mask, closed up: one bit at a time. *)
Fixpoint gather (n : nat) (w m : Z) : Z :=
  match n with
  | O => 0
  | S n' =>
      if Z.odd m then w mod 2 + 2 * gather n' (w / 2) (m / 2) else gather n' (w / 2) (m / 2)
  end.

Fixpoint scatter (n : nat) (w m : Z) : Z :=
  match n with
  | O => 0
  | S n' =>
      if Z.odd m then w mod 2 + 2 * scatter n' (w / 2) (m / 2) else 2 * scatter n' w (m / 2)
  end.

Fixpoint popcount (n : nat) (w : Z) : Z :=
  match n with
  | O => 0
  | S n' => w mod 2 + popcount n' (w / 2)
  end.

(** ** The lowest set bit *)

Lemma land_u32 x y : is_u32 x → x .& u32 y = x .& y.
Proof.
  intros [H0 H1]. unfold u32. rewrite <- Z.land_ones by lia.
  rewrite (Z.land_comm y), Z.land_assoc. f_equal. rewrite Z.land_ones by lia. by apply Z.mod_small.
Qed.

Lemma testbit_1 i : 0 < i → Z.testbit 1 i = false.
Proof. intros. apply (Z.pow2_bits_false 0). lia. Qed.

Lemma land_neg_odd q : (2 * q + 1) .& (- (2 * q + 1)) = 1.
Proof.
  replace (- (2 * q + 1)) with (2 * Z.lnot q + 1) by (unfold Z.lnot; lia).
  apply Z.bits_inj'. intros i Hi. rewrite Z.land_spec.
  destruct (decide (i = 0)) as [->|].
  - by rewrite !Z.testbit_odd_0.
  - rewrite (testbit_1 i) by lia. replace i with (Z.succ (i - 1)) by lia.
    rewrite !Z.testbit_odd_succ, Z.lnot_spec by lia. apply andb_negb_r.
Qed.

Lemma lowest_bit_eq k q :
  0 ≤ k → is_u32 (2 ^ k * (2 * q + 1)) → lowest_bit (2 ^ k * (2 * q + 1)) = 2 ^ k.
Proof.
  intros Hk Hu. unfold lowest_bit. rewrite land_u32 by done.
  replace (- (2 ^ k * (2 * q + 1))) with ((- (2 * q + 1)) ≪ k) by (rewrite shiftl_mul; lia).
  replace (2 ^ k * (2 * q + 1)) with ((2 * q + 1) ≪ k) by (rewrite shiftl_mul; lia).
  rewrite <- Z.shiftl_land, land_neg_odd, shiftl_mul by lia. lia.
Qed.

Lemma clear_lowest_bit k q :
  0 ≤ k → (2 ^ k * (2 * q + 1)) .^ 2 ^ k = 2 ^ (k + 1) * q.
Proof.
  intros Hk. replace (2 ^ k * (2 * q + 1)) with ((2 * q + 1) ≪ k) by (rewrite shiftl_mul; lia).
  replace (2 ^ k) with (1 ≪ k) by (rewrite shiftl_mul; lia).
  rewrite <- Z.shiftl_lxor, shiftl_mul, Z.pow_add_r by lia.
  replace ((2 * q + 1) .^ 1) with (2 * q); [lia|].
  apply Z.bits_inj'. intros i Hi. rewrite Z.lxor_spec. destruct (decide (i = 0)) as [->|].
  - by rewrite Z.testbit_odd_0, Z.testbit_even_0.
  - rewrite (testbit_1 i) by lia. replace i with (Z.succ (i - 1)) by lia.
    rewrite Z.testbit_odd_succ, Z.testbit_even_succ by lia. by destruct (Z.testbit q (i - 1)).
Qed.

(** Testing one bit of a word. *)
Lemma land_pow2_zero k w : 0 ≤ k → (2 ^ k .& w =? 0) = negb (Z.testbit w k).
Proof.
  intros Hk. replace (2 ^ k .& w) with (if Z.testbit w k then 2 ^ k else 0).
  - destruct (Z.testbit w k); [|done]. cbn [negb]. apply Z.eqb_neq. lia.
  - apply Z.bits_inj'. intros i Hi. rewrite Z.land_spec.
    destruct (decide (i = k)) as [->|Hne].
    + rewrite Z.pow2_bits_true by lia. cbn [andb].
      destruct (Z.testbit w k) eqn:E; [by apply Z.pow2_bits_true|apply Z.bits_0].
    + rewrite (Z.pow2_bits_false k i) by lia. cbn [andb].
      destruct (Z.testbit w k); [by apply Z.pow2_bits_false|apply Z.bits_0].
Qed.

(** ** The loops *)

Lemma u32_pow2 j : 0 ≤ j < 32 → u32 (2 ^ j) = 2 ^ j.
Proof.
  intros Hj. apply Z.mod_small. split; [lia|]. by apply Z.pow_lt_mono_r; lia.
Qed.

Lemma u32_double j : 0 ≤ j < 32 → u32 (u32 (2 ^ j) ≪ 1) = u32 (2 ^ (j + 1)).
Proof. intros Hj. rewrite u32_pow2, shiftl_mul, Z.pow_add_r by lia. done. Qed.

Lemma div_pow2_S w k : 0 ≤ k → w / 2 ^ (k + 1) = w / 2 ^ k / 2.
Proof. intros. rewrite Z.pow_add_r, Z.div_div by lia. done. Qed.

Lemma testbit_div w k : 0 ≤ k → Z.testbit w k = Z.odd (w / 2 ^ k).
Proof.
  intros. rewrite <- Z.bit0_odd, <- Z.shiftr_div_pow2, Z.shiftr_spec by lia. by rewrite Z.add_0_l.
Qed.

Lemma mod2_odd w : w mod 2 = if Z.odd w then 1 else 0.
Proof. apply Zmod_odd. Qed.

(** What one round does when the mask starts with [k] zeros. *)
Lemma mask_round k m n :
  0 ≤ k → k + Z.of_nat (S n) ≤ 32 → 0 ≤ m < 2 ^ Z.of_nat (S n) → Z.odd m = true →
  let i := lowest_bit (2 ^ k * m) in
  2 ^ k * m ≠ 0 ∧ i = 2 ^ k ∧ (2 ^ k * m) .^ i = 2 ^ (k + 1) * (m / 2).
Proof.
  intros Hk Hn Hm Ho. apply Z.odd_spec in Ho as [q ->].
  assert (Hu : is_u32 (2 ^ k * (2 * q + 1))).
  { split; [lia|]. apply Z.lt_le_trans with (2 ^ k * 2 ^ Z.of_nat (S n)).
    - apply Z.mul_lt_mono_pos_l; lia.
    - rewrite <- Z.pow_add_r by lia. apply Z.pow_le_mono_r; lia. }
  assert (Hl := lowest_bit_eq k q Hk Hu). cbv zeta. rewrite Hl, clear_lowest_bit by done.
  split_and!; [lia|done|]. do 2 f_equal. zlia.
Qed.

Lemma mask_even k m : 0 ≤ k → Z.odd m = false → 2 ^ k * m = 2 ^ (k + 1) * (m / 2).
Proof.
  intros Hk Ho. rewrite Z.pow_add_r by lia. pose proof (mod2_odd m). rewrite Ho in H. zlia.
Qed.

Lemma half_range m n : 0 ≤ m < 2 ^ Z.of_nat (S n) → 0 ≤ m / 2 < 2 ^ Z.of_nat n.
Proof. intros H. rewrite Nat2Z.inj_succ, Z.pow_succ_r in H by lia. zlia. Qed.

Lemma bit_gather_loop_eq n : ∀ fuel k j W m z,
  (n < fuel)%nat → 0 ≤ j ≤ k → k + Z.of_nat n ≤ 32 → 0 ≤ m < 2 ^ Z.of_nat n → 0 ≤ z < 2 ^ j →
  bit_gather_loop fuel W (2 ^ k * m) z (u32 (2 ^ j)) = z + 2 ^ j * gather n (W / 2 ^ k) m.
Proof.
  induction n as [|n IH]; intros fuel k j W m z Hf Hj Hk Hm Hz;
    destruct fuel as [|fuel]; try lia.
  { assert (m = 0) as -> by (cbn in Hm; lia). rewrite Z.mul_0_r. cbn. lia. }
  pose proof (half_range m n Hm) as Hm'. cbn [gather].
  destruct (Z.odd m) eqn:Ho.
  - destruct (mask_round k m n) as (Hne & Hi & Hx); [lia..|done|].
    cbn [bit_gather_loop]. rewrite (proj2 (Z.eqb_neq _ _) Hne). cbv zeta. rewrite Hx, Hi.
    rewrite land_pow2_zero, negb_involutive, testbit_div by lia.
    rewrite u32_double, u32_pow2, <- div_pow2_S, mod2_odd by lia.
    assert (2 ^ (j + 1) = 2 * 2 ^ j) by (rewrite Z.pow_add_r by lia; lia).
    assert (2 ^ (j + 1) ≤ 2 ^ 32) by (apply Z.pow_le_mono_r; lia).
    assert (Hzz : u32 (z + (if Z.odd (W / 2 ^ k) then 2 ^ j else 0))
                  = z + (if Z.odd (W / 2 ^ k) then 2 ^ j else 0))
      by (apply Z.mod_small; destruct (Z.odd (W / 2 ^ k)); lia).
    rewrite Hzz, IH by (lia || destruct (Z.odd (W / 2 ^ k)); lia).
    destruct (Z.odd (W / 2 ^ k)); lia.
  - rewrite mask_even, <- div_pow2_S by (done || lia). apply IH; try done; lia.
Qed.

Lemma bit_scatter_loop_eq n : ∀ fuel k j W m z,
  (n < fuel)%nat → 0 ≤ j ≤ k → k + Z.of_nat n ≤ 32 → 0 ≤ m < 2 ^ Z.of_nat n → 0 ≤ z < 2 ^ k →
  bit_scatter_loop fuel W (2 ^ k * m) z (u32 (2 ^ j)) = z + 2 ^ k * scatter n (W / 2 ^ j) m.
Proof.
  induction n as [|n IH]; intros fuel k j W m z Hf Hj Hk Hm Hz;
    destruct fuel as [|fuel]; try lia.
  { assert (m = 0) as -> by (cbn in Hm; lia). rewrite Z.mul_0_r. cbn. lia. }
  pose proof (half_range m n Hm) as Hm'. cbn [scatter].
  assert (2 ^ (k + 1) = 2 * 2 ^ k) by (rewrite Z.pow_add_r by lia; lia).
  assert (2 ^ (k + 1) ≤ 2 ^ 32) by (apply Z.pow_le_mono_r; lia).
  destruct (Z.odd m) eqn:Ho.
  - destruct (mask_round k m n) as (Hne & Hi & Hx); [lia..|done|].
    cbn [bit_scatter_loop]. rewrite (proj2 (Z.eqb_neq _ _) Hne). cbv zeta. rewrite Hx, Hi.
    rewrite u32_double, u32_pow2 by lia.
    rewrite land_pow2_zero, negb_involutive, testbit_div by lia.
    rewrite <- div_pow2_S, mod2_odd by lia.
    assert (Hzz : u32 (z + (if Z.odd (W / 2 ^ j) then 2 ^ k else 0))
                  = z + (if Z.odd (W / 2 ^ j) then 2 ^ k else 0))
      by (apply Z.mod_small; destruct (Z.odd (W / 2 ^ j)); lia).
    rewrite Hzz, IH by (lia || destruct (Z.odd (W / 2 ^ j)); lia).
    destruct (Z.odd (W / 2 ^ j)); lia.
  - rewrite mask_even by (done || lia). rewrite IH by lia. lia.
Qed.

Lemma bit_gather_eq w m : is_u32 m → bit_gather w m = gather 32 w m.
Proof.
  intros Hm. unfold bit_gather.
  rewrite <- (Z.mul_1_l m) at 1. change (bit_gather_loop 33 w (1 * m) 0 1)
    with (bit_gather_loop 33 w (2 ^ 0 * m) 0 (u32 (2 ^ 0))).
  rewrite (bit_gather_loop_eq 32) by (done || lia).
  by rewrite Z.div_1_r, Z.add_0_l, Z.mul_1_l.
Qed.

Lemma bit_scatter_eq w m : is_u32 m → bit_scatter w m = scatter 32 w m.
Proof.
  intros Hm. unfold bit_scatter.
  rewrite <- (Z.mul_1_l m) at 1. change (bit_scatter_loop 33 w (1 * m) 0 1)
    with (bit_scatter_loop 33 w (2 ^ 0 * m) 0 (u32 (2 ^ 0))).
  rewrite (bit_scatter_loop_eq 32) by (done || lia).
  by rewrite Z.div_1_r, Z.add_0_l, Z.mul_1_l.
Qed.

(** ** Counting bits and the lowest bit *)

Lemma forall_range (n : Z) (P : Z → bool) :
  forallb P (seqZ 0 n) = true → ∀ a, 0 ≤ a < n → P a = true.
Proof.
  intros H a Ha. rewrite forallb_forall in H. apply H, list_elem_of_In, elem_of_seqZ. lia.
Qed.

Lemma land_split k x X m M :
  0 ≤ k → 0 ≤ x < 2 ^ k → 0 ≤ m < 2 ^ k →
  (x + 2 ^ k * X) .& (m + 2 ^ k * M) = (x .& m) + 2 ^ k * (X .& M).
Proof.
  intros Hk Hx Hm.
  assert (Hsum : ∀ a A, 0 ≤ a < 2 ^ k → a + 2 ^ k * A = (A ≪ k) .| a).
  { intros a A Ha. rewrite (lor_add _ _ k), shiftl_mul by
      (done || lia || (rewrite shiftl_mul by lia; apply Z.mod_mul; lia)). lia. }
  assert (Hxm : 0 ≤ x .& m < 2 ^ k).
  { split; [apply Z.land_nonneg; lia|].
    rewrite <- (Z.mod_small x (2 ^ k)), <- Z.land_ones by lia.
    rewrite <- Z.land_assoc, (Z.land_comm (Z.ones k)), Z.land_assoc, Z.land_ones by lia.
    apply Z.mod_pos_bound. lia. }
  rewrite !Hsum by done. apply Z.bits_inj'. intros i Hi.
  rewrite Z.land_spec, !Z.lor_spec.
  destruct (decide (i < k)).
  - rewrite !Z.shiftl_spec_low by lia. cbn [orb]. by rewrite Z.land_spec.
  - assert (Hhi : ∀ a, 0 ≤ a < 2 ^ k → Z.testbit a i = false).
    { intros a Ha. rewrite <- (Z.mod_small a (2 ^ k)) by done. apply Z.mod_pow2_bits_high. lia. }
    rewrite (Hhi x), (Hhi m), (Hhi (x .& m)), !orb_false_r by done.
    by rewrite !Z.shiftl_spec_high, Z.land_spec by lia.
Qed.

(** A word as four bytes. *)
Definition word_of (a b c d : Z) : Z := a + 2 ^ 8 * (b + 2 ^ 8 * (c + 2 ^ 8 * d)).

Lemma word_of_surj w :
  is_u32 w → ∃ a b c d, is_u8 a ∧ is_u8 b ∧ is_u8 c ∧ is_u8 d ∧ w = word_of a b c d.
Proof.
  intros [H0 H1]. exists (w mod 256), (w / 256 mod 256), (w / 2 ^ 16 mod 256), (w / 2 ^ 24).
  unfold is_u8, word_of. zlia.
Qed.

Lemma land_word_of a b c d a' b' c' d' :
  is_u8 a → is_u8 b → is_u8 c → is_u8 a' → is_u8 b' → is_u8 c' →
  word_of a b c d .& word_of a' b' c' d' = word_of (a .& a') (b .& b') (c .& c') (d .& d').
Proof. intros. unfold word_of. by rewrite !land_split. Qed.

(** The steps of the bit count on one byte; [c] comes from the byte above it. *)
Definition swar1 (a c : Z) : Z := a - ((a / 2 + 128 * c) .& 0x55).
Definition swar2 (a c : Z) : Z := (a .& 0x33) + ((a / 4 + 64 * c) .& 0x33).
Definition swar3 (a c : Z) : Z := (a + a / 16 + 16 * c) .& 0x0f.

Lemma swar1_ok a c : is_u8 a → 0 ≤ c < 2 → swar1 a c = swar1 a 0 ∧ is_u8 (swar1 a 0).
Proof.
  intros Ha Hc.
  assert (H : forallb (λ c, forallb (λ a, (swar1 a c =? swar1 a 0) && (0 <=? swar1 a 0)
    && (swar1 a 0 <? 256)) (seqZ 0 256)) (seqZ 0 2) = true) by (by vm_compute).
  apply (forall_range 2 _ H) in Hc. apply (forall_range 256 _ Hc) in Ha. breflect.
  by split; [|split].
Qed.

Lemma swar2_ok a c : is_u8 a → 0 ≤ c < 4 → swar2 a c = swar2 a 0 ∧ is_u8 (swar2 a 0).
Proof.
  intros Ha Hc.
  assert (H : forallb (λ c, forallb (λ a, (swar2 a c =? swar2 a 0) && (0 <=? swar2 a 0)
    && (swar2 a 0 <? 256)) (seqZ 0 256)) (seqZ 0 4) = true) by (by vm_compute).
  apply (forall_range 4 _ H) in Hc. apply (forall_range 256 _ Hc) in Ha. breflect.
  by split; [|split].
Qed.

Lemma swar_byte a :
  is_u8 a →
  let n := swar2 (swar1 a 0) 0 in
  0 ≤ n ≤ 0x44 ∧ n mod 16 ≤ 4
  ∧ (∀ c, 0 ≤ c ≤ 4 → swar3 n c = popcount 8 a) ∧ 0 ≤ popcount 8 a ≤ 8.
Proof.
  intros Ha n.
  assert (H : forallb (λ a, let n := swar2 (swar1 a 0) 0 in
      (0 <=? n) && (n <=? 0x44) && (n mod 16 <=? 4) && (0 <=? popcount 8 a) && (popcount 8 a <=? 8)
      && forallb (λ c, swar3 n c =? popcount 8 a) (seqZ 0 5)) (seqZ 0 256) = true) by (by vm_compute).
  apply (forall_range 256 _ H) in Ha. cbv zeta in Ha. fold n in Ha. breflect.
  split_and!; try assumption. intros c Hc. apply Z.eqb_eq, (forall_range 5 (λ c, swar3 n c =? popcount 8 a)); [done|lia].
Qed.

Lemma popcount_add n m w : popcount (n + m) w = popcount n w + popcount m (w / 2 ^ Z.of_nat n).
Proof.
  revert w; induction n as [|n IH]; intros w; [by rewrite Z.div_1_r|].
  cbn [Nat.add popcount]. rewrite IH, Z.div_div, Nat2Z.inj_succ, Z.pow_succ_r by lia. lia.
Qed.

Lemma popcount_mod n w W : popcount n (w + 2 ^ Z.of_nat n * W) = popcount n w.
Proof.
  revert w; induction n as [|n IH]; intros w; [done|]. cbn [popcount].
  rewrite Nat2Z.inj_succ, Z.pow_succ_r, <- Z.mul_assoc by lia.
  rewrite (Z.mul_comm 2), Z.mod_add, Z.div_add, IH by lia. done.
Qed.

Lemma popcount_word_of a b c d :
  is_u8 a → is_u8 b → is_u8 c → is_u8 d →
  popcount 32 (word_of a b c d) = popcount 8 a + popcount 8 b + popcount 8 c + popcount 8 d.
Proof.
  intros Ha Hb Hc Hd. unfold is_u8 in *.
  rewrite (popcount_add 8 24), (popcount_add 8 16), (popcount_add 8 8).
  change (Z.of_nat 8) with 8. unfold word_of.
  rewrite (popcount_mod 8 a).
  replace ((a + 2 ^ 8 * (b + 2 ^ 8 * (c + 2 ^ 8 * d))) / 2 ^ 8)
    with (b + 2 ^ 8 * (c + 2 ^ 8 * d)) by zlia.
  rewrite (popcount_mod 8 b).
  replace ((b + 2 ^ 8 * (c + 2 ^ 8 * d)) / 2 ^ 8) with (c + 2 ^ 8 * d) by zlia.
  rewrite (popcount_mod 8 c). replace ((c + 2 ^ 8 * d) / 2 ^ 8) with d by zlia. lia.
Qed.

Lemma word_of_shiftr s a b c d :
  s = 1 ∨ s = 2 ∨ s = 4 → is_u8 a → is_u8 b → is_u8 c → is_u8 d →
  word_of a b c d ≫ s = word_of (a / 2 ^ s + 2 ^ (8 - s) * (b mod 2 ^ s))
    (b / 2 ^ s + 2 ^ (8 - s) * (c mod 2 ^ s)) (c / 2 ^ s + 2 ^ (8 - s) * (d mod 2 ^ s))
    (d / 2 ^ s + 2 ^ (8 - s) * 0).
Proof.
  intros Hs Ha Hb Hc Hd. rewrite shiftr_div by lia. unfold is_u8, word_of in *.
  destruct Hs as [-> |[-> | ->]]; zlia.
Qed.

Lemma word_of_u32 a b c d : is_u8 a → is_u8 b → is_u8 c → is_u8 d → is_u32 (word_of a b c d).
Proof. unfold is_u8, is_u32, word_of. lia. Qed.

Lemma swar_step1 a b c d :
  is_u8 a → is_u8 b → is_u8 c → is_u8 d →
  let w := word_of a b c d in
  u32 (w - ((w ≫ 1) .& 0x55555555)) = word_of (swar1 a 0) (swar1 b 0) (swar1 c 0) (swar1 d 0).
Proof.
  intros Ha Hb Hc Hd w. subst w. rewrite word_of_shiftr by (done || by left).
  change 0x55555555 with (word_of 0x55 0x55 0x55 0x55).
  assert (Hc2 : ∀ x, 0 ≤ x mod 2 ^ 1 < 2) by (intros; apply Z.mod_pos_bound; lia).
  rewrite land_word_of by (done || unfold is_u8 in *; zlia).
  destruct (swar1_ok a _ Ha (Hc2 b)) as [Ea Ra], (swar1_ok b _ Hb (Hc2 c)) as [Eb Rb],
    (swar1_ok c _ Hc (Hc2 d)) as [Ec Rc], (swar1_ok d 0 Hd ltac:(lia)) as [_ Rd].
  transitivity (u32 (word_of (swar1 a 0) (swar1 b 0) (swar1 c 0) (swar1 d 0)));
    [f_equal|by apply Z.mod_small, word_of_u32].
  rewrite <- Ea, <- Eb, <- Ec. unfold swar1, word_of. change (2 ^ (8 - 1)) with 128. change (2 ^ 1) with 2. lia.
Qed.

Lemma swar_step2 a b c d :
  is_u8 a → is_u8 b → is_u8 c → is_u8 d →
  let w := word_of a b c d in
  u32 ((w .& 0x33333333) + ((w ≫ 2) .& 0x33333333))
  = word_of (swar2 a 0) (swar2 b 0) (swar2 c 0) (swar2 d 0).
Proof.
  intros Ha Hb Hc Hd w. subst w. rewrite word_of_shiftr by (done || by right; left).
  change 0x33333333 with (word_of 0x33 0x33 0x33 0x33).
  assert (Hc2 : ∀ x, 0 ≤ x mod 2 ^ 2 < 4) by (intros; apply Z.mod_pos_bound; lia).
  rewrite !land_word_of by (done || unfold is_u8 in *; zlia).
  destruct (swar2_ok a _ Ha (Hc2 b)) as [Ea Ra], (swar2_ok b _ Hb (Hc2 c)) as [Eb Rb],
    (swar2_ok c _ Hc (Hc2 d)) as [Ec Rc], (swar2_ok d 0 Hd ltac:(lia)) as [_ Rd].
  transitivity (u32 (word_of (swar2 a 0) (swar2 b 0) (swar2 c 0) (swar2 d 0)));
    [f_equal|by apply Z.mod_small, word_of_u32].
  rewrite <- Ea, <- Eb, <- Ec. unfold swar2, word_of. change (2 ^ (8 - 2)) with 64. change (2 ^ 2) with 4. lia.
Qed.

(** The bytes hold two counters of at most 4 each. *)
Definition nibbles_ok (a : Z) : Prop := 0 ≤ a ≤ 0x44 ∧ a mod 16 ≤ 4.

Lemma swar_step3 a b c d :
  nibbles_ok a → nibbles_ok b → nibbles_ok c → nibbles_ok d →
  let w := word_of a b c d in
  u32 (w + (w ≫ 4)) .& 0x0F0F0F0F
  = word_of (swar3 a (b mod 16)) (swar3 b (c mod 16)) (swar3 c (d mod 16)) (swar3 d 0).
Proof.
  intros [Ha1 Ha2] [Hb1 Hb2] [Hc1 Hc2] [Hd1 Hd2] w. subst w.
  rewrite word_of_shiftr by (unfold is_u8; lia || by right; right).
  change 0x0F0F0F0F with (word_of 0xf 0xf 0xf 0xf).
  change (2 ^ (8 - 4)) with 16. change (2 ^ 4) with 16.
  transitivity (word_of (a + a / 16 + 16 * (b mod 16)) (b + b / 16 + 16 * (c mod 16))
    (c + c / 16 + 16 * (d mod 16)) (d + d / 16 + 16 * 0) .& word_of 0xf 0xf 0xf 0xf).
  - f_equal. unfold u32. rewrite Z.mod_small; unfold word_of; [lia|zlia].
  - apply land_word_of; done || (unfold is_u8; zlia).
Qed.

(** The multiplication adds up the bytes. *)
Lemma byte_sum p q r s :
  0 ≤ p ≤ 8 → 0 ≤ q ≤ 8 → 0 ≤ r ≤ 8 → 0 ≤ s ≤ 8 →
  u32 (word_of p q r s * 0x01010101) ≫ 24 = p + q + r + s.
Proof.
  intros. unfold u32, word_of.
  replace ((p + 2 ^ 8 * (q + 2 ^ 8 * (r + 2 ^ 8 * s))) * 0x01010101)
    with (p + 2 ^ 8 * (p + q) + 2 ^ 16 * (p + q + r) + (p + q + r + s) * 2 ^ 24
          + (q + r + s + 2 ^ 8 * (r + s) + 2 ^ 16 * s) * 2 ^ 32) by lia.
  rewrite Z.mod_add, Z.mod_small, shiftr_div, Z.div_add, Z.div_small by lia. lia.
Qed.

Lemma number_of_set_bits_eq w : is_u32 w → number_of_set_bits w = popcount 32 w.
Proof.
  intros Hw. destruct (word_of_surj w Hw) as (a & b & c & d & Ha & Hb & Hc & Hd & ->).
  rewrite popcount_word_of by done. unfold number_of_set_bits. cbv zeta.
  destruct (swar1_ok a 0 Ha ltac:(lia)) as [_ A1], (swar1_ok b 0 Hb ltac:(lia)) as [_ B1],
    (swar1_ok c 0 Hc ltac:(lia)) as [_ C1], (swar1_ok d 0 Hd ltac:(lia)) as [_ D1].
  rewrite swar_step1, swar_step2 by done.
  destruct (swar_byte a Ha) as (A2 & A3 & A4 & A5), (swar_byte b Hb) as (B2 & B3 & B4 & B5),
    (swar_byte c Hc) as (C2 & C3 & C4 & C5), (swar_byte d Hd) as (D2 & D3 & D4 & D5).
  rewrite swar_step3 by done.
  assert (Hmod : ∀ x, 0 ≤ x mod 16) by (intros; apply Z.mod_pos_bound; lia).
  rewrite A4, B4, C4, D4 by (done || lia).
  by apply byte_sum.
Qed.

Lemma odd_part n v :
  0 < v < 2 ^ Z.of_nat n → ∃ k q, 0 ≤ k < Z.of_nat n ∧ v = 2 ^ k * (2 * q + 1).
Proof.
  revert v; induction n as [|n IH]; intros v Hv; [cbn in Hv; lia|].
  destruct (Z.odd v) eqn:Ho.
  - apply Z.odd_spec in Ho as [q ->]. exists 0, q. lia.
  - pose proof (mask_even 0 v ltac:(lia) Ho) as Hm. rewrite Z.mul_1_l in Hm. change (2 ^ (0 + 1)) with 2 in Hm.
    pose proof (half_range v n ltac:(lia)).
    destruct (IH (v / 2)) as (k & q & Hk & Hq); [lia|]. exists (k + 1), q.
    rewrite Z.pow_add_r by lia. lia.
Qed.

Lemma de_bruijn_table k :
  0 ≤ k < 32 →
  default 0 (MultiplyDeBruijnBitPosition !! Z.to_nat (u32 (2 ^ k * 0x077CB531) ≫ 27)) = k.
Proof.
  intros Hk. apply Z.eqb_eq.
  apply (forall_range 32 (λ k, default 0 (MultiplyDeBruijnBitPosition !!
    Z.to_nat (u32 (2 ^ k * 0x077CB531) ≫ 27)) =? k)); [by vm_compute|done].
Qed.

Lemma trailing_zeroes_eq k q :
  0 ≤ k < 32 → is_u32 (2 ^ k * (2 * q + 1)) → trailing_zeroes (2 ^ k * (2 * q + 1)) = k.
Proof. intros Hk Hu. unfold trailing_zeroes. rewrite lowest_bit_eq by (done || lia). by apply de_bruijn_table. Qed.

(** ** Gathering and scattering *)

Lemma gather_scatter n w m : gather n (scatter n w m) m = w mod 2 ^ popcount n m.
Proof.
  revert w m; induction n as [|n IH]; intros w m; cbn [gather scatter popcount].
  { rewrite Z.mod_1_r. done. }
  pose proof (mod2_odd m) as Hm. assert (Hp : 0 ≤ popcount n (m / 2)).
  { generalize (m / 2). clear. induction n as [|n IH]; intros m; cbn [popcount]; [lia|].
    pose proof (Z.mod_pos_bound m 2). specialize (IH (m / 2)). lia. }
  destruct (Z.odd m); rewrite Hm.
  - replace ((w mod 2 + 2 * scatter n (w / 2) (m / 2)) mod 2) with (w mod 2) by zlia.
    replace ((w mod 2 + 2 * scatter n (w / 2) (m / 2)) / 2) with (scatter n (w / 2) (m / 2)) by zlia.
    rewrite IH, Z.pow_add_r, Z.mul_comm by lia. change (2 ^ 1) with 2.
    rewrite (Z.rem_mul_r w 2) by lia. lia.
  - rewrite Z.add_0_l, (Z.mul_comm 2), Z.div_mul, IH by lia. done.
Qed.

Lemma scatter_gather n w m : 0 ≤ m < 2 ^ Z.of_nat n → scatter n (gather n w m) m = w .& m.
Proof.
  revert w m; induction n as [|n IH]; intros w m Hm; cbn [gather scatter].
  { assert (m = 0) as -> by (cbn in Hm; lia). by rewrite Z.land_0_r. }
  pose proof (half_range m n Hm) as Hm'.
  assert (Hl : w .& m = ((w mod 2) .& (m mod 2)) + 2 * ((w / 2) .& (m / 2))).
  { pose proof (land_split 1 (w mod 2) (w / 2) (m mod 2) (m / 2)) as H.
    change (2 ^ 1) with 2 in H. rewrite <- H by (lia || apply Z.mod_pos_bound; lia).
    by rewrite !(Z.add_comm (_ mod 2)), <- !Z.div_mod. }
  rewrite Hl, (mod2_odd m), <- (IH (w / 2) (m / 2) Hm'). destruct (Z.odd m).
  - replace ((w mod 2 + 2 * gather n (w / 2) (m / 2)) mod 2) with (w mod 2) by zlia.
    replace ((w mod 2 + 2 * gather n (w / 2) (m / 2)) / 2) with (gather n (w / 2) (m / 2)) by zlia.
    f_equal. rewrite (mod2_odd w). by destruct (Z.odd w).
  - rewrite Z.land_0_r. lia.
Qed.

(** [bit_gather] and [bit_scatter] are inverse to each other: scattering the
    bits of a word along a mask and gathering them again gives the low bits of the
    word, as many as the mask has; gathering and scattering again leaves the bits
    under the mask.  The number of bits is what [number_of_set_bits] computes. *)
Theorem bit_gather_scatter_inverse w m :
  is_u32 m →
  bit_gather (bit_scatter w m) m = w mod 2 ^ number_of_set_bits m
  ∧ bit_scatter (bit_gather w m) m = w .& m.
Proof.
  intros Hm. rewrite (number_of_set_bits_eq m Hm), (bit_gather_eq _ m Hm), (bit_scatter_eq w m Hm).
  rewrite (bit_scatter_eq _ m Hm), (bit_gather_eq w m Hm).
  split; [apply gather_scatter|by apply scatter_gather].
Qed.

Lemma bit_gather_scatter_inverse_witness :
  bit_gather (bit_scatter 0xABC 0x00F0F00F) 0x00F0F00F = 0xABC mod 2 ^ number_of_set_bits 0x00F0F00F
  ∧ bit_scatter (bit_gather 0xABC 0x00F0F00F) 0x00F0F00F = 0xABC .& 0x00F0F00F.
Proof. apply (bit_gather_scatter_inverse 0xABC 0x00F0F00F). by split. Defined.

(** [trailing_zeroes] finds the lowest set bit of every non-zero word with one
    multiplication and a table: the bit at the result is set and all bits below it
    are not. *)
Theorem trailing_zeroes_lowest v :
  0 < v < 2 ^ 32 →
  0 ≤ trailing_zeroes v < 32 ∧ Z.testbit v (trailing_zeroes v) = true
  ∧ ∀ j, 0 ≤ j < trailing_zeroes v → Z.testbit v j = false.
Proof.
  intros Hv. destruct (odd_part 32 v Hv) as (k & q & Hk & ->).
  rewrite trailing_zeroes_eq by (done || unfold is_u32; lia).
  rewrite (Z.mul_comm (2 ^ k)), <- shiftl_mul by lia. split_and!; [lia|lia| |].
  - rewrite Z.shiftl_spec_high, Z.sub_diag by lia. apply Z.testbit_odd_0.
  - intros j Hj. apply Z.shiftl_spec_low. lia.
Qed.

Lemma trailing_zeroes_lowest_witness :
  0 ≤ trailing_zeroes 0xA8000000 < 32 ∧ Z.testbit 0xA8000000 (trailing_zeroes 0xA8000000) = true
  ∧ ∀ j, 0 ≤ j < trailing_zeroes 0xA8000000 → Z.testbit 0xA8000000 j = false.
Proof. apply trailing_zeroes_lowest. done. Defined.
