(* ===== verification/DataFilter.v ===== *)
(** * Bit pattern filters: [util/data_filter.h], [util/data_filter.cc]

    A filter is a pattern of up to 32 characters, one per bit of a data word:
    ['0'] and ['1'] have to match, letters mark bits to extract.  The portable code
    without the BMI2 instructions is modelled. *)

From Stdlib Require Import Ascii String.
From S2P Require Import Prelude Bits.
Open Scope list_scope.

(* util/data_filter.h:20-20 FilterSize *)
Definition FilterSize : nat := 32.

(** The character of bit 0 comes first in [df_filter]. *)
(* util/data_filter.h:22-37 DataFilter *)
Record DataFilter : Type := mkDataFilter {
  df_filter : list ascii;
  matchMask : Z;
  matchValue : Z;
  matchWordIndex : Z
}.

(* util/data_filter.h:39-45 CacheEntry *)
Record CacheEntry : Type := mkCacheEntry {
  extractMask : Z;
  extractBits : Z;
  needGather : bool;
  extractShift : Z
}.

(** [std::tolower] and [std::isalpha] in the C locale *)
Definition is_upper (c : ascii) : bool := (65 <=? Z.of_nat (nat_of_ascii c)) && (Z.of_nat (nat_of_ascii c) <=? 90).
Definition is_lower (c : ascii) : bool := (97 <=? Z.of_nat (nat_of_ascii c)) && (Z.of_nat (nat_of_ascii c) <=? 122).
Definition isalpha (c : ascii) : bool := is_upper c || is_lower c.
Definition tolower (c : ascii) : ascii :=
  if is_upper c then ascii_of_nat (nat_of_ascii c + 32) else c.

(* util/data_filter.cc:14-25 remove_spaces *)
Definition remove_spaces (input : list ascii) : list ascii :=
  List.filter (λ c, negb (Ascii.eqb c " "%char)) input.

(* util/data_filter.cc:50-50 make_filter *)
Definition is_match_char (c : ascii) : bool :=
  Ascii.eqb c "0" || Ascii.eqb c "1" || Ascii.eqb c "000" || Ascii.eqb c "001".
(* util/data_filter.cc:53-53 make_filter *)
Definition is_one_char (c : ascii) : bool := Ascii.eqb c "1" || Ascii.eqb c "001".

(** The loop that sets the bits of the characters with property [P]. *)
(* util/data_filter.cc:46-55 make_filter *)
Fixpoint char_mask (P : ascii → bool) (i : Z) (chars : list ascii) : Z :=
  match chars with
  | [] => 0
  | c :: rest => (if P c then u32 (1 ≪ i) else 0) .| char_mask P (i + 1) rest
  end.

(* util/data_filter.cc:28-58 make_filter *)
Definition make_filter (filterRaw : string) (wordIndex : Z) : outcome DataFilter :=
  let chars := remove_spaces (list_ascii_of_string filterRaw) in
  if (FilterSize <? length chars)%nat then Throw length_error
  else
    let arr := reverse chars ++ replicate (FilterSize - length chars) "X"%char in
    Return (mkDataFilter arr (char_mask is_match_char 0 arr) (char_mask is_one_char 0 arr) wordIndex).

(* util/data_filter.h:49-53 matches *)
Definition matches (filter : DataFilter) (value wordIndex : Z) : bool :=
  ((matchWordIndex filter <? 0) || (matchWordIndex filter =? wordIndex))
  && ((value .& matchMask filter) =? matchValue filter).

Record scan : Type := mkScan { sc_mask : Z; sc_needGather : bool; markerSeen : bool; gapSeen : bool }.

(** The body of the loop over the bits of the pattern. *)
(* util/data_filter.cc:71-94 make_cache_entry *)
Definition scan_char (marker : ascii) (i : Z) (c : ascii) (s : scan) : scan :=
  if Ascii.eqb (tolower c) marker
  then mkScan (sc_mask s .| u32 (1 ≪ i)) (if markerSeen s && gapSeen s then true else sc_needGather s)
         true (gapSeen s)
  else mkScan (sc_mask s) (sc_needGather s) (markerSeen s)
         (if markerSeen s then true else gapSeen s).

(* util/data_filter.cc:71-94 make_cache_entry *)
Fixpoint scan_chars (marker : ascii) (i : Z) (chars : list ascii) (s : scan) : scan :=
  match chars with
  | [] => s
  | c :: rest => scan_chars marker (i + 1) rest (scan_char marker i c s)
  end.

(* util/data_filter.cc:60-102 make_cache_entry *)
Definition make_cache_entry (filter : DataFilter) (marker : ascii) : CacheEntry :=
  let s := scan_chars (tolower marker) 0 (df_filter filter) (mkScan 0 false false false) in
  mkCacheEntry (sc_mask s) (u8 (number_of_set_bits (sc_mask s))) (sc_needGather s)
    (u8 (trailing_zeroes (sc_mask s))).

(* util/data_filter.h:58-71 extract *)
Definition extract (cache : CacheEntry) (value : Z) : Z :=
  let result := (value .& extractMask cache) ≫ extractShift cache in
  if needGather cache then bit_gather result (extractMask cache ≫ extractShift cache) else result.

(* util/data_filter.h:74-78 extract *)
Definition extract_marker (filter : DataFilter) (value : Z) (marker : ascii) : Z :=
  extract (make_cache_entry filter marker) value.

(* util/data_filter.h:80-83 get_extract_bits *)
Definition get_extract_bits (filter : DataFilter) (marker : ascii) : Z :=
  extractBits (make_cache_entry filter marker).
(* util/data_filter.h:85-88 get_extract_mask *)
Definition get_extract_mask (filter : DataFilter) (marker : ascii) : Z :=
  extractMask (make_cache_entry filter marker).
(* util/data_filter.h:90-93 get_extract_shift *)
Definition get_extract_shift (filter : DataFilter) (marker : ascii) : Z :=
  extractShift (make_cache_entry filter marker).

(* util/data_filter.cc:104-116 to_string *)
Definition to_string (filter : DataFilter) : string :=
  string_of_list_ascii (reverse (df_filter filter)).

(* util/data_filter.h:97-102 FilterWithCaches *)
Record FilterWithCaches : Type := mkFilterWithCaches {
  fwc_filter : DataFilter;
  fwc_markers : list ascii;
  fwc_caches : list CacheEntry
}.

(** [std::set<char>::insert]: ascending order, no duplicates *)
Fixpoint set_insert (c : ascii) (l : list ascii) : list ascii :=
  match l with
  | [] => [c]
  | x :: rest =>
      if Ascii.eqb c x then l
      else if (nat_of_ascii c <? nat_of_ascii x)%nat then c :: l
      else x :: set_insert c rest
  end.

(* util/data_filter.cc:120-121 make_filter_with_caches *)
Definition pattern_markers (pattern : list ascii) : list ascii :=
  foldl (λ accu c, if isalpha c then set_insert (tolower c) accu else accu) [] pattern.

(* util/data_filter.cc:118-135 make_filter_with_caches *)
Definition make_filter_with_caches (pattern : string) : outcome FilterWithCaches :=
  let markers := pattern_markers (list_ascii_of_string pattern) in
  filter ← make_filter pattern (-1);
  Return (mkFilterWithCaches filter markers (make_cache_entry filter <$> markers)).

(* util/data_filter.cc:137-157 get_cache_entry *)
Definition get_cache_entry (filters : FilterWithCaches) (marker : ascii) : option CacheEntry :=
  if negb (isalpha marker) then None
  else
    i ← list_find (λ c, c = tolower marker) (fwc_markers filters);
    fwc_caches filters !! i.1.

(* util/data_filter.h:107-110 matches *)
Definition matches_cached (filter : FilterWithCaches) (value wordIndex : Z) : bool :=
  matches (fwc_filter filter) value wordIndex.

(* util/data_filter.h:112-119 extract *)
Definition extract_cached (filters : FilterWithCaches) (value : Z) (marker : ascii) : option Z :=
  cache ← get_cache_entry filters (tolower marker);
  Some (extract cache value).

(** ** Masks *)

Lemma testbit_pow2_u32 i j : 0 ≤ i < 32 → 0 ≤ j → Z.testbit (u32 (1 ≪ i)) j = bool_decide (i = j).
Proof.
  intros Hi Hj. rewrite Z.shiftl_1_l, u32_pow2 by done.
  destruct (decide (i = j)) as [<-|Hne].
  - by rewrite Z.pow2_bits_true, bool_decide_eq_true_2 by lia.
  - by rewrite Z.pow2_bits_false, bool_decide_eq_false_2 by lia.
Qed.

Lemma char_mask_testbit P chars : ∀ i j,
  0 ≤ i → i + Z.of_nat (length chars) ≤ 32 → 0 ≤ j →
  Z.testbit (char_mask P i chars) j
  = bool_decide (i ≤ j) && from_option P false (chars !! Z.to_nat (j - i)).
Proof.
  induction chars as [|c chars IH]; intros i j Hi Hl Hj; cbn [char_mask length] in *.
  { by rewrite Z.bits_0, lookup_nil, andb_false_r. }
  rewrite Z.lor_spec, IH by lia.
  assert (Hc : Z.testbit (if P c then u32 (1 ≪ i) else 0) j = P c && bool_decide (i = j)).
  { destruct (P c); [by apply testbit_pow2_u32; lia|apply Z.bits_0]. }
  rewrite Hc. destruct (decide (i = j)) as [<-|Hne].
  - rewrite (bool_decide_eq_true_2 (i = i)), (bool_decide_eq_false_2 (i + 1 ≤ i)) by lia.
    rewrite (bool_decide_eq_true_2 (i ≤ i)), Z.sub_diag by lia. change (Z.to_nat 0) with 0%nat. cbn. by destruct (P c).
  - rewrite (bool_decide_eq_false_2 (i = j)), andb_false_r by done. cbn [orb].
    destruct (decide (i ≤ j)).
    + rewrite !bool_decide_eq_true_2 by lia.
      by replace (Z.to_nat (j - i)) with (S (Z.to_nat (j - (i + 1)))) by lia.
    + by rewrite !bool_decide_eq_false_2 by lia.
Qed.

Lemma char_mask_bits P chars j :
  (length chars ≤ 32)%nat → 0 ≤ j →
  Z.testbit (char_mask P 0 chars) j = from_option P false (chars !! Z.to_nat j).
Proof. intros. rewrite char_mask_testbit, bool_decide_eq_true_2, Z.sub_0_r by lia. done. Qed.

Lemma masked_eq_iff v m x :
  (v .& m =? x) = true ↔ ∀ j, 0 ≤ j → Z.testbit x j = Z.testbit v j && Z.testbit m j.
Proof.
  rewrite Z.eqb_eq. split.
  - intros <- j _. apply Z.land_spec.
  - intros H. apply Z.bits_inj'. intros j Hj. by rewrite Z.land_spec, H.
Qed.

(** The characters of the pattern, bit 0 first. *)
Definition pattern_chars (pattern : string) : list ascii :=
  reverse (remove_spaces (list_ascii_of_string pattern)).

Lemma make_filter_inv pattern wi f :
  make_filter pattern wi = Return f →
  (length (pattern_chars pattern) ≤ 32)%nat
  ∧ df_filter f = pattern_chars pattern ++ replicate (32 - length (pattern_chars pattern)) "X"%char
  ∧ matchMask f = char_mask is_match_char 0 (df_filter f)
  ∧ matchValue f = char_mask is_one_char 0 (df_filter f) ∧ matchWordIndex f = wi
  ∧ length (df_filter f) = 32%nat.
Proof.
  unfold make_filter, pattern_chars, FilterSize. rewrite length_reverse.
  destruct (Nat.ltb_spec 32 (length (remove_spaces (list_ascii_of_string pattern)))); [done|].
  intros [= <-]. cbn [df_filter matchMask matchValue matchWordIndex].
  split_and!; try done. rewrite length_app, length_reverse, length_replicate. lia.
Qed.

(** A filter matches a data word exactly if the word agrees with the pattern:
    where the pattern has a '0' or '1' (or the bytes 0 and 1), read from the right,
    the word has that bit; every other character, a shorter pattern and spaces do
    not restrict the word.  A word index given to the filter has to match too. *)
Theorem filter_matches_pattern pattern wi f value wordIndex :
  make_filter pattern wi = Return f →
  matches f value wordIndex = true ↔
  (wi < 0 ∨ wi = wordIndex)
  ∧ ∀ i c, pattern_chars pattern !! i = Some c → is_match_char c = true →
      Z.testbit value (Z.of_nat i) = is_one_char c.
Proof.
  intros Hf. destruct (make_filter_inv _ _ _ Hf) as (Hl & Hc & Hm & Hv & Hw & H32).
  unfold matches. rewrite andb_true_iff, orb_true_iff, Z.ltb_lt, Z.eqb_eq, Hw, masked_eq_iff.
  apply and_iff_compat_l. rewrite Hm, Hv. split.
  - intros H i c Hi Hmc. specialize (H (Z.of_nat i) ltac:(lia)).
    assert (Hi' : df_filter f !! i = Some c) by (rewrite Hc; by apply lookup_app_l_Some).
    rewrite !char_mask_bits, Nat2Z.id, Hi' in H by lia. cbn in H. by rewrite Hmc, andb_true_r in H.
  - intros H j Hj. rewrite !char_mask_bits by lia.
    destruct (df_filter f !! Z.to_nat j) as [c|] eqn:Ej; cbn; [|by rewrite andb_false_r].
    assert (Hone : is_match_char c = false → is_one_char c = false).
    { unfold is_match_char, is_one_char. by destruct (Ascii.eqb c "1"), (Ascii.eqb c "001"), (Ascii.eqb c "0"), (Ascii.eqb c "000"). }
    destruct (is_match_char c) eqn:Em; [|by rewrite andb_false_r, Hone].
    rewrite andb_true_r. rewrite Hc in Ej. apply lookup_app_Some in Ej as [Ej|[_ Ej]].
    + rewrite <- (H _ _ Ej Em). f_equal. lia.
    + apply lookup_replicate in Ej as [-> _]. done.
Qed.

Lemma filter_matches_pattern_witness :
  match make_filter "01XX 11DD" (-1) with
  | Return f => matches f 0x7C 3 = true ↔
      (-1 < 0 ∨ -1 = 3)
      ∧ ∀ i c, pattern_chars "01XX 11DD" !! i = Some c → is_match_char c = true →
          Z.testbit 0x7C (Z.of_nat i) = is_one_char c
  | _ => False
  end.
Proof.
  destruct (make_filter "01XX 11DD" (-1)) as [f| |] eqn:Hf; [|done|done].
  by apply filter_matches_pattern.
Defined.

(** ** Extraction *)

Lemma gather_range n w m : 0 ≤ gather n w m < 2 ^ Z.of_nat n.
Proof.
  revert w m; induction n as [|n IH]; intros w m; cbn [gather]; [done|].
  pose proof (IH (w / 2) (m / 2)). pose proof (Z.mod_pos_bound w 2).
  rewrite Nat2Z.inj_succ, Z.pow_succ_r by lia. destruct (Z.odd m); lia.
Qed.

Lemma gather_0 n w : gather n w 0 = 0.
Proof. revert w; induction n as [|n IH]; intros w; [done|]. cbn. apply IH. Qed.

Lemma gather_more n k w m : 0 ≤ m < 2 ^ Z.of_nat n → gather (n + k) w m = gather n w m.
Proof.
  revert w m; induction n as [|n IH]; intros w m Hm.
  - assert (m = 0) as -> by (cbn in Hm; lia). apply gather_0.
  - cbn [Nat.add gather]. rewrite !IH by (by apply half_range). done.
Qed.

(** Bits of the word outside of the mask do not matter. *)
Lemma gather_land n w m : gather n (w .& m) m = gather n w m.
Proof.
  revert w m; induction n as [|n IH]; intros w m; [done|]. cbn [gather].
  assert (Hd : (w .& m) / 2 = (w / 2) .& (m / 2)).
  { pose proof (Z.shiftr_land w m 1) as H. by rewrite !(Z.shiftr_div_pow2 _ 1) in H by lia. }
  rewrite Hd, IH. destruct (Z.odd m) eqn:Ho; [|done]. f_equal.
  rewrite !mod2_odd, <- !Z.bit0_odd, Z.land_spec, !Z.bit0_odd, Ho. by rewrite andb_true_r.
Qed.

(** Zeros at the low end of the mask only shift. *)
Lemma gather_shift n s w m :
  0 ≤ m → 2 ^ Z.of_nat s * m < 2 ^ Z.of_nat n →
  gather n w (2 ^ Z.of_nat s * m) = gather n (w / 2 ^ Z.of_nat s) m.
Proof.
  revert n w; induction s as [|s IH]; intros n w Hm Hlt.
  { by rewrite Z.mul_1_l, Z.div_1_r. }
  rewrite Nat2Z.inj_succ, Z.pow_succ_r, <- Z.mul_assoc in Hlt |- * by lia.
  destruct n as [|n]; [done|].
  rewrite <- (gather_more (S n) 1 (w / _)) by nia.
  replace (S n + 1)%nat with (S (S n)) by lia.
  set (M := 2 ^ Z.of_nat s * m) in *. cbn [gather].
  rewrite Z.odd_mul. cbn [Z.odd andb]. rewrite (Z.mul_comm 2 M), Z.div_mul by lia.
  rewrite Nat2Z.inj_succ, Z.pow_succ_r in Hlt by lia.
  subst M. rewrite IH, Z.div_div by lia.
  change (gather n (w / (2 * 2 ^ Z.of_nat s)) m = gather (S (S n)) (w / (2 * 2 ^ Z.of_nat s)) m).
  replace (S (S n)) with (n + 2)%nat by lia. rewrite gather_more; [done|]. nia.
Qed.

Lemma gather_ones n l w : (l ≤ n)%nat → gather n w (2 ^ Z.of_nat l - 1) = w mod 2 ^ Z.of_nat l.
Proof.
  revert n w; induction l as [|l IH]; intros n w Hl; [rewrite gather_0, Z.mod_1_r; done|].
  destruct n as [|n]; [lia|]. rewrite Nat2Z.inj_succ, Z.pow_succ_r by lia. cbn [gather].
  replace (Z.odd (2 * 2 ^ Z.of_nat l - 1)) with true.
  2: { symmetry. apply Z.odd_spec. exists (2 ^ Z.of_nat l - 1). lia. }
  replace ((2 * 2 ^ Z.of_nat l - 1) / 2) with (2 ^ Z.of_nat l - 1) by zlia.
  rewrite IH, (Z.rem_mul_r w 2) by lia. done.
Qed.

(** A mask without gaps. *)
Definition run_mask (st l m : Z) : Prop := 0 ≤ st ∧ 1 ≤ l ∧ m = 2 ^ st * (2 ^ l - 1).

(** The state of the scan after [n] characters. *)
Definition scan_ok (n : Z) (s : scan) : Prop :=
  0 ≤ sc_mask s < 2 ^ n
  ∧ (sc_needGather s = false →
     (markerSeen s = false ∧ gapSeen s = false ∧ sc_mask s = 0)
     ∨ (markerSeen s = true ∧ ∃ st l, run_mask st l (sc_mask s)
        ∧ (st + l = n ∧ gapSeen s = false ∨ st + l ≤ n ∧ gapSeen s = true))).

Lemma lor_new_bit m i : 0 ≤ i < 32 → 0 ≤ m < 2 ^ i → m .| u32 (1 ≪ i) = m + 2 ^ i.
Proof.
  intros Hi Hm. rewrite Z.shiftl_1_l, u32_pow2 by done.
  rewrite <- (Z.mul_1_l (2 ^ i)) at 1. rewrite lor_mul_add by lia. lia.
Qed.

Lemma scan_char_ok marker i c s : 0 ≤ i < 32 → scan_ok i s → scan_ok (i + 1) (scan_char marker i c s).
Proof.
  intros Hi [Hm Hs]. assert (Hp : 2 ^ (i + 1) = 2 * 2 ^ i) by (rewrite Z.pow_add_r by lia; lia).
  unfold scan_char. destruct (Ascii.eqb (tolower c) marker); cbn [sc_mask sc_needGather markerSeen gapSeen].
  - split; [cbn; rewrite lor_new_bit by done; lia|]. cbn [sc_mask sc_needGather markerSeen gapSeen].
    rewrite lor_new_bit by done. intros Hn. right. split; [done|].
    destruct (markerSeen s) eqn:Es, (gapSeen s) eqn:Eg; cbn [andb] in Hn; try done;
      destruct (Hs Hn) as [(H1 & H2 & H3)|(H1 & st & l & (R1 & R2 & R3) & H2)]; try done.
    + destruct H2 as [[H2 _]|[_ ?]]; [|done]. exists st, (l + 1). split; [|left; split; [lia|done]].
      split_and!; [done|lia|]. rewrite R3, <- H2, !Z.pow_add_r by lia. lia.
    + exists i, 1. split; [|left; split; [lia|done]]. split_and!; [lia|lia|]. rewrite H3. lia.
  - split; [cbn; lia|]. cbn [sc_mask sc_needGather markerSeen gapSeen]. intros Hn.
    destruct (Hs Hn) as [(H1 & H2 & H3)|(H1 & st & l & R & H2)].
    + left. by rewrite H1.
    + right. split; [done|]. exists st, l. split; [done|]. right. rewrite H1. split; [|done].
      destruct H2 as [[? _]|[? _]]; lia.
Qed.

Lemma scan_chars_ok marker chars : ∀ i s,
  0 ≤ i → i + Z.of_nat (length chars) ≤ 32 → scan_ok i s →
  scan_ok (i + Z.of_nat (length chars)) (scan_chars marker i chars s).
Proof.
  induction chars as [|c chars IH]; intros i s Hi Hl Hs; cbn [scan_chars length] in *.
  { by rewrite Z.add_0_r. }
  replace (i + Z.of_nat (S (length chars))) with (i + 1 + Z.of_nat (length chars)) by lia.
  apply IH; [lia|lia|]. apply scan_char_ok; [lia|done].
Qed.

Lemma scan_chars_mask marker chars : ∀ i s,
  sc_mask (scan_chars marker i chars s)
  = sc_mask s .| char_mask (λ c, Ascii.eqb (tolower c) marker) i chars.
Proof.
  induction chars as [|c chars IH]; intros i s; cbn [scan_chars char_mask]; [by rewrite Z.lor_0_r|].
  rewrite IH. unfold scan_char. destruct (Ascii.eqb (tolower c) marker); cbn [sc_mask].
  - by rewrite Z.lor_assoc.
  - by rewrite Z.lor_0_l.
Qed.

Lemma shifted_land v m k : 0 ≤ k → (v .& (2 ^ k * m)) ≫ k = (v / 2 ^ k) .& m.
Proof.
  intros Hk. rewrite Z.shiftr_land, !shiftr_div by done. f_equal. rewrite Z.mul_comm. by apply Z.div_mul; lia.
Qed.

Lemma cache_shift k q :
  0 ≤ k < 32 → is_u32 (2 ^ k * (2 * q + 1)) → u8 (trailing_zeroes (2 ^ k * (2 * q + 1))) = k.
Proof. intros Hk Hu. rewrite trailing_zeroes_eq by done. apply Z.mod_small. lia. Qed.

(** Extraction with the gather step. *)
Lemma extract_gather m v :
  is_u32 m →
  bit_gather ((v .& m) ≫ u8 (trailing_zeroes m)) (m ≫ u8 (trailing_zeroes m)) = gather 32 v m.
Proof.
  intros Hm. destruct (decide (m = 0)) as [->|Hne].
  { rewrite Z.land_0_r. by rewrite gather_0. }
  destruct (odd_part 32 m) as (k & q & Hk & ->); [unfold is_u32 in Hm; lia|].
  rewrite (cache_shift k q Hk Hm). set (m' := 2 * q + 1) in *. rewrite shifted_land by lia.
  assert (Hm' : (2 ^ k * m') ≫ k = m') by (rewrite shiftr_div, Z.mul_comm by lia; by apply Z.div_mul; lia).
  assert (0 ≤ m') by (unfold is_u32 in Hm; nia). rewrite Hm', bit_gather_eq, gather_land.
  - rewrite <- (Z2Nat.id k) by lia. symmetry. apply gather_shift; [done|].
    rewrite Z2Nat.id by lia. apply Hm.
  - unfold is_u32 in *. nia.
Qed.

(** Extraction from a mask without gaps. *)
Lemma extract_run m v st l :
  is_u32 m → run_mask st l m → st + l ≤ 32 → (v .& m) ≫ u8 (trailing_zeroes m) = gather 32 v m.
Proof.
  intros Hm (H1 & H2 & Heq) H3. assert (Hl : 2 ^ l = 2 * 2 ^ (l - 1)).
  { rewrite <- Z.pow_succ_r by lia. f_equal. lia. }
  assert (Hs : u8 (trailing_zeroes m) = st).
  { rewrite Heq. replace (2 ^ l - 1) with (2 * (2 ^ (l - 1) - 1) + 1) by lia.
    apply cache_shift; [lia|]. by replace (2 * (2 ^ (l - 1) - 1) + 1) with (2 ^ l - 1) by lia; rewrite <- Heq. }
  rewrite Hs, Heq, shifted_land, land_mask by lia.
  rewrite <- (Z2Nat.id st), <- (Z2Nat.id l) by lia. rewrite gather_shift, gather_ones; [done|lia|lia|].
  rewrite !Z2Nat.id by lia. rewrite <- Heq. apply Hm.
Qed.

(** C31: Extraction through the cache is bit gathering.  For every filter, marker and
    data word, the mask-and-shift code, with or without the additional gather step,
    computes [bit_gather] of the word and the mask, the mask has exactly the bits
    whose pattern character is the marker (ignoring case), and [extractBits] is their
    number: the fast path taken for markers without gaps is equivalent to always
    gathering. *)
Theorem extract_is_gather f marker value :
  length (df_filter f) = 32%nat →
  let cache := make_cache_entry f marker in
  extract cache value = bit_gather value (extractMask cache)
  ∧ (∀ j, 0 ≤ j → Z.testbit (extractMask cache) j
      = from_option (λ c, Ascii.eqb (tolower c) (tolower marker)) false (df_filter f !! Z.to_nat j))
  ∧ extractBits cache = popcount 32 (extractMask cache).
Proof.
  intros Hl cache. set (s := scan_chars (tolower marker) 0 (df_filter f) (mkScan 0 false false false)).
  assert (Hs : scan_ok 32 s).
  { pose proof (scan_chars_ok (tolower marker) (df_filter f) 0 (mkScan 0 false false false)) as H.
    rewrite Hl in H. apply H; [lia|lia|]. split; [done|]. intros _. by left. }
  destruct Hs as [Hm Hs]. assert (Hmask : extractMask cache = sc_mask s) by done.
  rewrite Hmask. split_and!.
  - rewrite bit_gather_eq by done. unfold extract. cbn [cache make_cache_entry needGather extractMask extractShift].
    fold s. destruct (sc_needGather s) eqn:Hn; [by apply extract_gather|].
    destruct (Hs eq_refl) as [(_ & _ & H0)|(_ & st & l & Hr & Hlen)].
    + rewrite H0, Z.land_0_r. by rewrite gather_0.
    + apply (extract_run _ _ st l); [done|done|]. destruct Hlen as [[? _]|[? _]]; lia.
  - intros j Hj. subst s. rewrite scan_chars_mask. cbn [sc_mask]. rewrite Z.lor_0_l.
    apply char_mask_bits; [lia|done].
  - cbn [cache make_cache_entry extractBits]. fold s. rewrite number_of_set_bits_eq by done.
    apply Z.mod_small. clear. generalize (sc_mask s). intros w.
    assert (H : ∀ n w, 0 ≤ popcount n w ≤ Z.of_nat n).
    { clear. induction n as [|n IH]; intros w; cbn [popcount]; [lia|].
      pose proof (Z.mod_pos_bound w 2). specialize (IH (w / 2)). lia. }
    specialize (H 32%nat w). lia.
Qed.

Definition example_filter : DataFilter :=
  match make_filter "11DD XXDD DDDD 0000" (-1) with
  | Return f => f
  | _ => mkDataFilter [] 0 0 0
  end.

Lemma extract_is_gather_witness :
  let cache := make_cache_entry example_filter "d" in
  extract cache 0xEF56 = bit_gather 0xEF56 (extractMask cache)
  ∧ (∀ j, 0 ≤ j → Z.testbit (extractMask cache) j
      = from_option (λ c, Ascii.eqb (tolower c) (tolower "d")) false (df_filter example_filter !! Z.to_nat j))
  ∧ extractBits cache = popcount 32 (extractMask cache).
Proof. apply (extract_is_gather example_filter "d" 0xEF56). reflexivity. Defined.

(** ** Text *)

Lemma list_ascii_inv l : list_ascii_of_string (string_of_list_ascii l) = l.
Proof. apply list_ascii_of_string_of_list_ascii. Qed.

Lemma remove_spaces_idemp l : remove_spaces (remove_spaces l) = remove_spaces l.
Proof.
  unfold remove_spaces. induction l as [|c l IH]; [done|]. cbn [List.filter].
  destruct (negb (Ascii.eqb c " ")) eqn:E; cbn [List.filter]; rewrite ?E, ?IH; done.
Qed.

Lemma remove_spaces_app l k : remove_spaces (l ++ k) = remove_spaces l ++ remove_spaces k.
Proof. apply List.filter_app. Qed.

Lemma remove_spaces_X n : remove_spaces (replicate n "X"%char) = replicate n "X"%char.
Proof. unfold remove_spaces. induction n as [|n IH]; [done|]. cbn. by rewrite IH. Qed.

(** The text of a filter is its pattern without spaces, filled up with 'X' to 32
    characters on the left, and making a filter from this text gives the same filter
    again. *)
Theorem filter_text_roundtrip pattern wi f :
  make_filter pattern wi = Return f →
  list_ascii_of_string (to_string f)
  = replicate (32 - length (pattern_chars pattern)) "X"%char
    ++ remove_spaces (list_ascii_of_string pattern)
  ∧ make_filter (to_string f) wi = Return f.
Proof.
  intros Hf. destruct (make_filter_inv _ _ _ Hf) as (Hl & Hc & Hm & Hv & Hw & H32).
  assert (Ht : list_ascii_of_string (to_string f)
    = replicate (32 - length (pattern_chars pattern)) "X"%char
      ++ remove_spaces (list_ascii_of_string pattern)).
  { unfold to_string. rewrite list_ascii_inv, Hc, reverse_app, reverse_replicate.
    unfold pattern_chars at 2. by rewrite reverse_involutive. }
  split; [done|]. unfold make_filter. rewrite Ht.
  rewrite remove_spaces_app, remove_spaces_X, remove_spaces_idemp.
  unfold pattern_chars in *. rewrite length_reverse in *.
  set (p := remove_spaces (list_ascii_of_string pattern)) in *.
  rewrite length_app, length_replicate. unfold FilterSize.
  destruct (Nat.ltb_spec 32 (32 - length p + length p)); [lia|].
  replace (32 - (32 - length p + length p))%nat with 0%nat by lia.
  rewrite reverse_app, reverse_replicate, app_nil_r, <- Hc, <- Hm, <- Hv, <- Hw.
  by destruct f.
Qed.

Lemma filter_text_roundtrip_witness :
  list_ascii_of_string (to_string example_filter)
  = replicate (32 - length (pattern_chars "11DD XXDD DDDD 0000")) "X"%char
    ++ remove_spaces (list_ascii_of_string "11DD XXDD DDDD 0000")
  ∧ make_filter (to_string example_filter) (-1) = Return example_filter.
Proof. apply (filter_text_roundtrip "11DD XXDD DDDD 0000" (-1)). reflexivity. Defined.

(** ** Filters with caches *)

Lemma tolower_idemp c : tolower (tolower c) = tolower c.
Proof. destruct c as [[] [] [] [] [] [] [] []]; reflexivity. Qed.

Lemma isalpha_tolower c : isalpha (tolower c) = isalpha c.
Proof. destruct c as [[] [] [] [] [] [] [] []]; reflexivity. Qed.

Lemma elem_of_set_insert x c l : x ∈ set_insert c l ↔ x = c ∨ x ∈ l.
Proof.
  induction l as [|y l IH]; cbn [set_insert]; [set_solver|].
  destruct (Ascii.eqb_spec c y) as [->|]; [set_solver|].
  destruct (_ <? _)%nat; [set_solver|]. rewrite !elem_of_cons, IH. set_solver.
Qed.

Lemma elem_of_pattern_markers x pattern :
  x ∈ pattern_markers pattern ↔ ∃ c, c ∈ pattern ∧ isalpha c = true ∧ x = tolower c.
Proof.
  unfold pattern_markers.
  enough (H : ∀ accu, x ∈ foldl (λ accu c, if isalpha c then set_insert (tolower c) accu else accu) accu pattern
    ↔ x ∈ accu ∨ ∃ c, c ∈ pattern ∧ isalpha c = true ∧ x = tolower c) by (rewrite H; set_solver).
  induction pattern as [|y pattern IH]; intros accu; cbn [foldl]; [set_solver|].
  rewrite IH. destruct (isalpha y) eqn:E.
  - rewrite elem_of_set_insert. split.
    + intros [[->|H]|(c & ? & ? & ?)]; [right; exists y|by left|right; exists c]; set_solver.
    + intros [?|(c & [->|?]%elem_of_cons & ? & ?)]; [by left; right|by left; left|right; by exists c].
  - split; [set_solver|]. intros [?|(c & [->|?]%elem_of_cons & ? & ?)]; [by left|congruence|right; by exists c].
Qed.

(** The pattern has the marker, in either case. *)
Definition has_marker (pattern : string) (marker : ascii) : bool :=
  bool_decide (Exists (λ c, isalpha c = true ∧ tolower c = tolower marker) (list_ascii_of_string pattern)).

(** A filter with caches extracts the same values as the filter itself: for a
    letter of the pattern, whatever its case, the cached entry gives the value that
    extraction with a fresh cache gives; for every other marker there is no value. *)
Theorem cached_extract_spec pattern f value marker :
  make_filter_with_caches pattern = Return f →
  extract_cached f value marker =
    if isalpha marker && has_marker pattern marker
    then Some (extract_marker (fwc_filter f) value (tolower marker)) else None.
Proof.
  unfold make_filter_with_caches. intros (filter & Hf & [= <-])%outcome_bind_Return.
  unfold extract_cached, get_cache_entry. rewrite isalpha_tolower, tolower_idemp.
  destruct (isalpha marker); [|done]. cbn [negb andb fwc_markers fwc_caches fwc_filter].
  set (ms := pattern_markers (list_ascii_of_string pattern)).
  assert (Hm : has_marker pattern marker = bool_decide (tolower marker ∈ ms)).
  { apply bool_decide_ext. unfold ms. rewrite elem_of_pattern_markers, Exists_exists. set_solver. }
  rewrite Hm. destruct (list_find (λ c, c = tolower marker) ms) as [[i c]|] eqn:Hfind; cbn.
  - apply list_find_Some in Hfind as (Hi & -> & _).
    rewrite bool_decide_eq_true_2 by (by eapply list_elem_of_lookup_2).
    by rewrite list_lookup_fmap, Hi.
  - rewrite bool_decide_eq_false_2; [done|]. intros Hin. apply list_find_None in Hfind.
    rewrite Forall_forall in Hfind. by apply (Hfind _ Hin).
Qed.

Lemma cached_extract_spec_witness :
  match make_filter_with_caches "11DD AAAA dddd" with
  | Return f =>
      extract_cached f 0x3A5C "D" =
        if isalpha "D" && has_marker "11DD AAAA dddd" "D"
        then Some (extract_marker (fwc_filter f) 0x3A5C (tolower "D")) else None
  | _ => False
  end.
Proof.
  destruct (make_filter_with_caches "11DD AAAA dddd") as [f| |] eqn:Hf; [|done|done].
  by apply cached_extract_spec.
Defined.
