(* ===== verification/EventBuilder2.v ===== *)
(** * Event builder: [event_builder2.hpp], [event_builder2.cc]

    Incoming events of several modules are recorded in one queue per module,
    together with the timestamps found in the module data.  A flush takes the oldest
    timestamp as reference and puts together those module data whose stamps lie in
    the match window around it.

    The vectors of [PerEventData] and [EventCounters] all get one entry per
    configured module in the constructor and are never resized; entry [i] of all of
    them is a [ModuleSlot] here.  The output arrays [outputModuleStorage_] and
    [outputModuleData_] are shared by all events, and the latter holds pointers into
    the former, so that the model tracks which of them are still valid.

    The callbacks are a log of calls.  The mutexes make every public method atomic.
    The timestamp difference histograms, which only count, are left out. *)

From S2P Require Import Prelude Constants Frames Commands ReadoutParser Bits DataFilter.

(** ** Timestamps *)

(* event_builder2.hpp:40-40 TimestampMax *)
Definition TimestampMax : Z := 0x3fffffff.
(* event_builder2.hpp:41-41 TimestampHalf *)
Definition TimestampHalf : Z := TimestampMax ≫ 1.

(* event_builder2.hpp:16-21 WindowMatch *)
Inductive WindowMatch : Type := too_old | in_window | too_new.

#[global] Instance WindowMatch_eq_dec : EqDecision WindowMatch.
Proof. solve_decision. Defined.

(* event_builder2.cc:48-51 add_offset_to_timestamp *)
Definition add_offset_to_timestamp (ts offset : Z) : Z := u32 (ts + offset) .& TimestampMax.

(* event_builder2.cc:53-67 timestamp_difference *)
Definition timestamp_difference (ts0 ts1 : Z) : Z :=
  let diff := ts0 - ts1 in
  if Z.abs diff >? TimestampHalf then
    if diff <? 0 then diff + TimestampMax else diff - TimestampMax
  else diff.

(** [std::abs(diff) > windowWidth * 0.5], exact in double precision *)
(* event_builder2.cc:69-82 timestamp_match *)
Definition timestamp_match (tsMain tsModule windowWidth : Z) : WindowMatch * Z :=
  let diff := timestamp_difference tsMain tsModule in
  if 2 * Z.abs diff >? windowWidth then
    if diff >=? 0 then (too_old, u32 (Z.abs diff)) else (too_new, u32 (Z.abs diff))
  else (in_window, u32 (Z.abs diff)).

(* event_builder2.cc:13-29 IndexedTimestampFilterExtractor *)
Definition indexed_extractor (filter : DataFilter) (wordIndex : Z) (matchChar : Ascii.ascii)
    (data : list Z) : option Z :=
  let idx := if wordIndex <? 0 then u64 (zlen data + wordIndex) else wordIndex in
  if idx <? zlen data then
    v ← data !! Z.to_nat idx;
    if matches filter v (-1) then Some (extract (make_cache_entry filter matchChar) v) else None
  else None.

(* event_builder2.cc:31-46 TimestampFilterExtractor *)
Fixpoint filter_extractor (filter : DataFilter) (matchChar : Ascii.ascii) (data : list Z) : option Z :=
  match data with
  | [] => None
  | v :: rest =>
      if matches filter v (-1) then Some (extract (make_cache_entry filter matchChar) v)
      else filter_extractor filter matchChar rest
  end.

(** ** Configuration and state *)

(* event_builder2.hpp:117-128 ModuleConfig *)
Record ModuleConfig : Type := mkModuleConfig {
  tsExtractor : list Z → option Z;
  mc_offset : Z;
  mc_window : Z;
  mc_ignored : bool;
  mc_hasDynamic : bool;
  mc_prefixSize : Z
}.

(* event_builder2.hpp:130-135 EventConfig *)
Record EventConfig : Type := mkEventConfig { moduleConfigs : list ModuleConfig; ec_enabled : bool }.

(* event_builder2.hpp:137-148 EventBuilderConfig *)
Record EventBuilderConfig : Type := mkBuilderConfig {
  eventConfigs : list EventConfig;
  outputCrateIndex : Z
}.

(* event_builder2.cc:86-93 ModuleStorage *)
Record ModuleStorage : Type := mkStorage {
  ms_data : list Z;
  ms_prefixSize : Z;
  ms_dynamicSize : Z;
  ms_suffixSize : Z;
  ms_hasDynamic : bool;
  ms_timestamp : option Z
}.

(* event_builder2.cc:95-103 ModuleStorage *)
Definition storage_of (md : ModuleData) (ts : option Z) : ModuleStorage :=
  mkStorage (ztake (md_size md) (md_data md)) (md_prefixSize md) (md_dynamicSize md)
    (md_suffixSize md) (md_hasDynamic md) ts.

Definition empty_storage : ModuleStorage := storage_of empty_module_data None.

(* event_builder2.cc:105-114 to_module_data *)
Definition to_module_data (s : ModuleStorage) : ModuleData :=
  mkModuleData (ms_data s) (u32 (zlen (ms_data s))) (ms_prefixSize s) (ms_dynamicSize s)
    (ms_suffixSize s) (ms_hasDynamic s).

(* event_builder2.cc:117-125 size_consistency_check *)
Definition storage_consistency_check (s : ModuleStorage) : bool :=
  let partSum := u32 (u32 (ms_prefixSize s + ms_dynamicSize s) + ms_suffixSize s) in
  let sumOk := partSum =? zlen (ms_data s) in
  let dynOk := if ms_dynamicSize s >? 0 then ms_hasDynamic s else true in
  sumOk && dynOk.

Definition set_timestamp (ts : option Z) (s : ModuleStorage) : ModuleStorage :=
  mkStorage (ms_data s) (ms_prefixSize s) (ms_dynamicSize s) (ms_suffixSize s) (ms_hasDynamic s) ts.

(* event_builder2.hpp:152-183 EventCounters *)
Record ModuleCounters : Type := mkModuleCounters {
  inputHits : Z;
  outputHits : Z;
  emptyInputs : Z;
  discardsAge : Z;
  stampFailed : Z;
  currentEvents : Z;
  currentMem : Z;
  maxEvents : Z;
  maxMem : Z
}.

Definition zero_counters : ModuleCounters := mkModuleCounters 0 0 0 0 0 0 0 0 0.

(* event_builder2.cc:127-133 PerEventData *)
Record ModuleSlot : Type := mkSlot { slot_queue : list ModuleStorage; slot_ctrs : ModuleCounters }.

(* event_builder2.hpp:152-183 EventCounters *)
Record EventSlot : Type := mkEvent {
  ev_allTimestamps : list Z;
  ev_modules : list ModuleSlot;
  ev_recordingFailed : Z;
  ev_discardsNoStamp : Z;
  ev_counterTimestamps : list Z;
  ev_allTimestampsMaxSize : Z
}.

(** An entry of [outputModuleData_]: the default value, a description of data that
    [outputModuleStorage_] still holds, or one whose data was freed. *)
(* event_builder2.cc:316-318 EventBuilder2::Private *)
Inductive OutputData : Type :=
| Null
| View (md : ModuleData)
| Dangling (md : ModuleData).

(** The calls of the output callbacks. *)
(* event_builder2.cc:313-313 EventBuilder2::Private *)
Inductive Output : Type :=
| EventOut (crateIndex eventIndex : Z) (modules : list OutputData)
| SystemOut (crateIndex : Z) (words : list Z).

(* event_builder2.cc:310-329 EventBuilder2::Private *)
Record Builder : Type := mkBuilder {
  cfg_ : EventBuilderConfig;
  perEventData_ : list EventSlot;
  outputModuleData_ : list OutputData;
  outputModuleStorage_ : list ModuleStorage;
  protectedCounters_ : list EventSlot;
  outputs : list Output
}.

Definition set_events (evs : list EventSlot) (b : Builder) : Builder :=
  mkBuilder (cfg_ b) evs (outputModuleData_ b) (outputModuleStorage_ b) (protectedCounters_ b) (outputs b).
Definition set_outputData (od : list OutputData) (b : Builder) : Builder :=
  mkBuilder (cfg_ b) (perEventData_ b) od (outputModuleStorage_ b) (protectedCounters_ b) (outputs b).
Definition set_outputStorage (os : list ModuleStorage) (b : Builder) : Builder :=
  mkBuilder (cfg_ b) (perEventData_ b) (outputModuleData_ b) os (protectedCounters_ b) (outputs b).
Definition publish_counters (b : Builder) : Builder :=
  mkBuilder (cfg_ b) (perEventData_ b) (outputModuleData_ b) (outputModuleStorage_ b)
    (perEventData_ b) (outputs b).
Definition call (o : Output) (b : Builder) : Builder :=
  mkBuilder (cfg_ b) (perEventData_ b) (outputModuleData_ b) (outputModuleStorage_ b)
    (protectedCounters_ b) (outputs b ++ [o]).

Definition set_modules (ms : list ModuleSlot) (e : EventSlot) : EventSlot :=
  mkEvent (ev_allTimestamps e) ms (ev_recordingFailed e) (ev_discardsNoStamp e)
    (ev_counterTimestamps e) (ev_allTimestampsMaxSize e).
Definition set_allTimestamps (ts : list Z) (e : EventSlot) : EventSlot :=
  mkEvent ts (ev_modules e) (ev_recordingFailed e) (ev_discardsNoStamp e)
    (ev_counterTimestamps e) (ev_allTimestampsMaxSize e).

(** ** Construction *)

(* event_builder2.cc:843-850 EventBuilder2 *)
Definition module_config_ok (mc : ModuleConfig) : bool :=
  negb (negb (mc_hasDynamic mc) && (mc_prefixSize mc =? 0)).

(* event_builder2.cc:859-878 EventBuilder2 *)
Definition new_event (ec : EventConfig) : EventSlot :=
  mkEvent [] (replicate (length (moduleConfigs ec)) (mkSlot [] zero_counters)) 0 0 [] 0.

(* event_builder2.cc:834-881 EventBuilder2 *)
Definition make_builder (cfg : EventBuilderConfig) : outcome Builder :=
  if forallb (λ ec, forallb module_config_ok (moduleConfigs ec)) (eventConfigs cfg) then
    let evs := new_event <$> eventConfigs cfg in
    Return (mkBuilder cfg evs [] [] evs [])
  else Throw (runtime_error "static prefix size must be set if hasDynamic==false").

(** ** Recording *)

Definition push_storage (s : ModuleStorage) (slot : ModuleSlot) : ModuleSlot :=
  mkSlot (slot_queue slot ++ [s]) (slot_ctrs slot).

(** The body of the loop for one module. *)
(* event_builder2.cc:155-190 record_module_data *)
Definition record_module (mcfg : ModuleConfig) (md : ModuleData) (slot : ModuleSlot) : ModuleSlot :=
  let data := ztake (md_size md) (md_data md) in
  let ts := tsExtractor mcfg data in
  let c := slot_ctrs slot in
  let events := inc64 (currentEvents c) in
  let mem := u64 (currentMem c + md_size md * 4) in
  mkSlot (slot_queue slot ++ [storage_of md ts])
    (mkModuleCounters (inc64 (inputHits c)) (outputHits c)
       (if md_size md =? 0 then inc64 (emptyInputs c) else emptyInputs c)
       (discardsAge c)
       (if negb (mc_ignored mcfg) && bool_decide (ts = None) && (md_size md >? 0)
        then inc64 (stampFailed c) else stampFailed c)
       events mem (Z.max (maxEvents c) events) (Z.max (maxMem c) mem)).

(* event_builder2.cc:153-190 record_module_data *)
Fixpoint record_modules (cfgs : list ModuleConfig) (mds : list ModuleData) (slots : list ModuleSlot)
  : list ModuleSlot :=
  match cfgs, mds, slots with
  | mcfg :: cfgs', md :: mds', slot :: slots' =>
      record_module mcfg md slot :: record_modules cfgs' mds' slots'
  | _, _, _ => slots
  end.

(* event_builder2.cc:136-193 record_module_data *)
Definition record_module_data (mds : list ModuleData) (cfgs : list ModuleConfig)
    (dest : list ModuleSlot) : option (list ModuleSlot) :=
  if negb (length cfgs =? length mds)%nat then None
  else if negb (length dest =? length mds)%nat then None
  else Some (record_modules cfgs mds dest).

(** The newest entry of a queue. *)
Definition back (slot : ModuleSlot) : option ModuleStorage := last (slot_queue slot).
Definition back_stamp (slot : ModuleSlot) : option Z := s ← back slot; ms_timestamp s.

(** Changing the timestamp of the newest entry. *)
Definition set_back_stamp (ts : option Z) (slot : ModuleSlot) : ModuleSlot :=
  match back slot with
  | None => slot
  | Some s => mkSlot (removelast (slot_queue slot) ++ [set_timestamp ts s]) (slot_ctrs slot)
  end.

(** Removing an entry that was recorded without any stamp; the counters go up a
    second time. *)
(* event_builder2.cc:432-439 recordModuleData *)
Definition discard_newest (slot : ModuleSlot) : ModuleSlot :=
  match back slot with
  | None => slot
  | Some s =>
      let c := slot_ctrs slot in
      mkSlot (removelast (slot_queue slot))
        (mkModuleCounters (inputHits c) (outputHits c) (emptyInputs c) (discardsAge c) (stampFailed c)
           (inc64 (currentEvents c)) (u64 (currentMem c + zlen (ms_data s) * 4))
           (maxEvents c) (maxMem c))
  end.

(* event_builder2.cc:417-446 recordModuleData *)
Definition record_incoming (mds : list ModuleData) (cfgs : list ModuleConfig) (e : EventSlot)
  : EventSlot :=
  match record_module_data mds cfgs (ev_modules e) with
  | Some slots =>
      if forallb (λ slot, bool_decide (back_stamp slot = None)) slots then
        mkEvent (ev_allTimestamps e) (discard_newest <$> slots) (ev_recordingFailed e)
          (inc64 (ev_discardsNoStamp e)) (ev_counterTimestamps e) (ev_allTimestampsMaxSize e)
      else set_modules slots e
  | None =>
      mkEvent (ev_allTimestamps e) (ev_modules e) (inc64 (ev_recordingFailed e))
        (ev_discardsNoStamp e) (ev_counterTimestamps e) (ev_allTimestampsMaxSize e)
  end.

(* event_builder2.cc:471-482 recordModuleData *)
Definition apply_offset (mcfg : ModuleConfig) (slot : ModuleSlot) : ModuleSlot :=
  match back_stamp slot with
  | Some ts => set_back_stamp (Some (add_offset_to_timestamp (u32 ts) (mc_offset mcfg))) slot
  | None => slot
  end.

(* event_builder2.cc:471-482 recordModuleData *)
Definition apply_offsets (cfgs : list ModuleConfig) (slots : list ModuleSlot) : list ModuleSlot :=
  zip_with apply_offset cfgs slots ++ drop (length cfgs) slots.

(* event_builder2.cc:484-509 recordModuleData *)
Definition new_stamps (slots : list ModuleSlot) : list Z := omap back_stamp slots.

(* event_builder2.cc:511-542 recordModuleData *)
Definition assign_filler (fillerTs : option Z) (slot : ModuleSlot) : ModuleSlot :=
  if bool_decide (fillerTs = None) then slot
  else if bool_decide (back_stamp slot = None) then set_back_stamp fillerTs slot else slot.

(** Everything after the data was recorded, for the first [n] modules.  The indexes
    run to the number of incoming modules. *)
(* event_builder2.cc:471-552 recordModuleData *)
Definition finish_recording (cfgs : list ModuleConfig) (n : nat) (e : EventSlot) : outcome EventSlot :=
  let slots := ev_modules e in
  if (length slots <? n)%nat || (length cfgs <? n)%nat then Undefined
  else
    let slots1 := apply_offsets (take n cfgs) slots in
    let stamps := new_stamps (take n slots1) in
    let slots2 := (assign_filler (head stamps) <$> take n slots1) ++ drop n slots1 in
    let allTimestamps := ev_allTimestamps e ++ stamps in
    Return (mkEvent allTimestamps slots2 (ev_recordingFailed e) (ev_discardsNoStamp e) allTimestamps
              (Z.max (ev_allTimestampsMaxSize e) (zlen allTimestamps))).

(** Counting an event that is passed through. *)
(* event_builder2.cc:404-408 recordModuleData *)
Definition count_passed (slot : ModuleSlot) : ModuleSlot :=
  let c := slot_ctrs slot in
  mkSlot (slot_queue slot)
    (mkModuleCounters (inc64 (inputHits c)) (inc64 (outputHits c)) (emptyInputs c) (discardsAge c)
       (stampFailed c) (currentEvents c) (currentMem c) (maxEvents c) (maxMem c)).

(* event_builder2.cc:331-345 checkConsistency *)
Definition checkConsistency (eventIndex : Z) (mds : list ModuleData) (b : Builder) : bool :=
  (0 <=? eventIndex) && (eventIndex <? zlen (eventConfigs (cfg_ b)))
  && (length (eventConfigs (cfg_ b)) =? length (perEventData_ b))%nat
  && forallb size_consistency_check mds.

(* event_builder2.cc:381-557 recordModuleData *)
Definition record_event (eventIndex : Z) (mds : list ModuleData) (b : Builder) : outcome Builder :=
  if negb (checkConsistency eventIndex mds b) then Return b
  else
    match eventConfigs (cfg_ b) !! Z.to_nat eventIndex, perEventData_ b !! Z.to_nat eventIndex with
    | Some ec, Some e =>
        let n := length mds in
        if negb (ec_enabled ec) then
          let b1 := call (EventOut (outputCrateIndex (cfg_ b)) eventIndex (View <$> mds)) b in
          if (length (ev_modules e) <? n)%nat then Undefined
          else
            let e1 := set_modules ((count_passed <$> take n (ev_modules e)) ++ drop n (ev_modules e)) e in
            Return (set_events (<[Z.to_nat eventIndex := e1]> (perEventData_ b1)) b1)
        else
          e1 ← finish_recording (moduleConfigs ec) n (record_incoming mds (moduleConfigs ec) e);
          Return (publish_counters (set_events (<[Z.to_nat eventIndex := e1]> (perEventData_ b)) b))
    | _, _ => Undefined
    end.

(* event_builder2.cc:900-912 EventBuilder2::recordModuleData *)
Definition recordModuleData (eventIndex : Z) (mds : list ModuleData) (b : Builder)
  : outcome (bool * Builder) :=
  if (eventIndex <? 0) || (eventIndex >=? zlen (perEventData_ b)) then Return (false, b)
  else b1 ← record_event eventIndex mds b; Return (true, b1).

(* event_builder2.cc:914-918 handleSystemEvent *)
Definition handleSystemEvent (words : list Z) (b : Builder) : Builder :=
  call (SystemOut (outputCrateIndex (cfg_ b)) words) b.

(** ** Flushing *)

(* event_builder2.cc:347-379 checkModuleBuffers *)
Definition checkModuleBuffers (eventIndex : Z) (b : Builder) : bool :=
  (0 <=? eventIndex) && (eventIndex <? zlen (eventConfigs (cfg_ b)))
  && (length (eventConfigs (cfg_ b)) =? length (perEventData_ b))%nat
  && match perEventData_ b !! Z.to_nat eventIndex with
     | Some e =>
         forallb (λ slot, forallb (λ s, storage_consistency_check s && bool_decide (is_Some (ms_timestamp s)))
                            (slot_queue slot)) (ev_modules e)
     | None => false
     end.

(** Whether the newest stamp of every module lies behind the match window; [None]
    if not, else whether any module has data. *)
(* event_builder2.cc:584-609 tryFlush *)
Fixpoint modules_ready (refTs : Z) (cfgs : list ModuleConfig) (slots : list ModuleSlot) : option bool :=
  match cfgs, slots with
  | mc :: cfgs', slot :: slots' =>
      match back slot with
      | None => modules_ready refTs cfgs' slots'
      | Some s =>
          modTs ← ms_timestamp s;
          if bool_decide ((timestamp_match refTs modTs (mc_window mc)).1 = too_new)
          then _ ← modules_ready refTs cfgs' slots'; Some true
          else None
      end
  | _, _ => Some false
  end.

(* event_builder2.cc:618-623 tryFlush *)
Fixpoint pop_ref (refTs : Z) (stamps : list Z) : list Z :=
  match stamps with
  | ts :: rest => if ts =? refTs then pop_ref refTs rest else stamps
  | [] => []
  end.

Definition bad_optional_access : exn := runtime_error "bad_optional_access".

(* event_builder2.cc:641-643 tryFlush *)
Definition count_discarded (s : ModuleStorage) (c : ModuleCounters) : ModuleCounters :=
  mkModuleCounters (inputHits c) (outputHits c) (emptyInputs c) (inc64 (discardsAge c)) (stampFailed c)
    (dec64 (currentEvents c)) (u64 (currentMem c - zlen (ms_data s) * 4)) (maxEvents c) (maxMem c).

(* event_builder2.cc:631-650 tryFlush *)
Fixpoint drop_old (refTs window : Z) (queue : list ModuleStorage) (c : ModuleCounters)
  : outcome ModuleSlot :=
  match queue with
  | [] => Return (mkSlot [] c)
  | s :: rest =>
      match ms_timestamp s with
      | None => Throw bad_optional_access
      | Some modTs =>
          if bool_decide ((timestamp_match refTs modTs window).1 = too_old)
          then drop_old refTs window rest (count_discarded s c)
          else Return (mkSlot queue c)
      end
  end.

(* event_builder2.cc:676-680 tryFlush *)
Definition count_output (s : ModuleStorage) (c : ModuleCounters) : ModuleCounters :=
  mkModuleCounters (inputHits c) (inc64 (outputHits c)) (emptyInputs c) (discardsAge c) (stampFailed c)
    (dec64 (currentEvents c)) (u64 (currentMem c - zlen (ms_data s) * 4)) (maxEvents c) (maxMem c).

(** The loop over the queue of one module.  An entry that is too old would never be
    removed: the loop would not end. *)
(* event_builder2.cc:657-691 tryFlush *)
Definition take_match (refTs window : Z) (slot : ModuleSlot) : outcome (ModuleStorage * ModuleSlot) :=
  match slot_queue slot with
  | [] => Return (empty_storage, slot)
  | s :: rest =>
      match ms_timestamp s with
      | None => Throw bad_optional_access
      | Some modTs =>
          match (timestamp_match refTs modTs window).1 with
          | in_window => Return (s, mkSlot rest (count_output s (slot_ctrs slot)))
          | too_new => Return (empty_storage, slot)
          | too_old => Undefined
          end
      end
  end.

(** The discards happen for all modules before anything is taken. *)
(* event_builder2.cc:625-651 tryFlush *)
Fixpoint drop_old_modules (refTs : Z) (cfgs : list ModuleConfig) (slots : list ModuleSlot)
  : outcome (list ModuleSlot) :=
  match cfgs, slots with
  | mc :: cfgs', slot :: slots' =>
      slot1 ← drop_old refTs (mc_window mc) (slot_queue slot) (slot_ctrs slot);
      rest ← drop_old_modules refTs cfgs' slots';
      Return (slot1 :: rest)
  | _, _ => Return slots
  end.

(* event_builder2.cc:653-692 tryFlush *)
Fixpoint take_matches (refTs : Z) (cfgs : list ModuleConfig) (slots : list ModuleSlot)
  : outcome (list ModuleStorage * list ModuleSlot) :=
  match cfgs, slots with
  | mc :: cfgs', slot :: slots' =>
      r ← take_match refTs (mc_window mc) slot;
      rest ← take_matches refTs cfgs' slots';
      Return (r.1 :: rest.1, r.2 :: rest.2)
  | _, _ => Return ([], slots)
  end.

(** What becomes of a pointer when the vector behind it is replaced. *)
Definition dangle (o : OutputData) : OutputData :=
  match o with View md => Dangling md | _ => o end.

Definition resize_output (n : nat) (od : list OutputData) : list OutputData :=
  take n od ++ replicate (n - length od) Null.

(** The storage of a module without data is filled from the configuration, but
    [outputModuleData_] is only set for modules with data. *)
(* event_builder2.cc:741-760 tryFlush *)
Definition fill_output (mc : ModuleConfig) (s : ModuleStorage) (o : OutputData)
  : ModuleStorage * OutputData :=
  if bool_decide (ms_data s = []) then
    (mkStorage (replicate (Z.to_nat (mc_prefixSize mc)) 0) (mc_prefixSize mc) (ms_dynamicSize s)
       (ms_suffixSize s) (mc_hasDynamic mc) (ms_timestamp s), o)
  else (s, View (to_module_data s)).

(* event_builder2.cc:734-762 tryFlush *)
Fixpoint fill_outputs (cfgs : list ModuleConfig) (os : list ModuleStorage) (od : list OutputData)
  : list (ModuleStorage * OutputData) :=
  match cfgs, os, od with
  | mc :: cfgs', s :: os', o :: od' => fill_output mc s o :: fill_outputs cfgs' os' od'
  | _, _, _ => []
  end.

(* event_builder2.cc:726-774 tryFlush *)
Definition emit (cfgs : list ModuleConfig) (eventIndex : Z) (b : Builder) : Builder :=
  if existsb (λ s, negb (bool_decide (ms_data s = []))) (outputModuleStorage_ b) then
    let filled := fill_outputs cfgs (outputModuleStorage_ b)
                    (resize_output (length cfgs) (outputModuleData_ b)) in
    call (EventOut (outputCrateIndex (cfg_ b)) eventIndex filled.*2)
      (set_outputData filled.*2 (set_outputStorage filled.*1 b))
  else b.

(* event_builder2.cc:559-774 tryFlush *)
Definition tryFlush (eventIndex : Z) (b : Builder) : outcome (bool * Builder) :=
  if negb (checkModuleBuffers eventIndex b) then Return (false, b)
  else
    match eventConfigs (cfg_ b) !! Z.to_nat eventIndex, perEventData_ b !! Z.to_nat eventIndex with
    | Some ec, Some e =>
        if negb (ec_enabled ec) then Return (false, b)
        else
          match ev_allTimestamps e with
          | [] => Return (false, b)
          | refTs :: _ =>
              match modules_ready refTs (moduleConfigs ec) (ev_modules e) with
              | Some true =>
                  slots1 ← drop_old_modules refTs (moduleConfigs ec) (ev_modules e);
                  r ← take_matches refTs (moduleConfigs ec) slots1;
                  let e1 := set_modules r.2
                              (set_allTimestamps (pop_ref refTs (ev_allTimestamps e)) e) in
                  let b1 := set_outputStorage r.1
                              (set_outputData (dangle <$> outputModuleData_ b)
                                 (set_events (<[Z.to_nat eventIndex := e1]> (perEventData_ b)) b)) in
                  Return (true, emit (moduleConfigs ec) eventIndex b1)
              | _ => Return (false, b)
              end
          end
    | _, _ => Undefined
    end.

(** [while (tryFlush(eventIndex)) ++flushed]; every round removes a timestamp. *)
(* event_builder2.cc:938-941 EventBuilder2::flush *)
Fixpoint flush_loop (fuel : nat) (eventIndex : Z) (flushed : Z) (b : Builder)
  : option (outcome (Z * Builder)) :=
  match fuel with
  | O => None
  | S fuel' =>
      match tryFlush eventIndex b with
      | Return (true, b1) => flush_loop fuel' eventIndex (u64 (flushed + 1)) b1
      | Return (false, b1) => Some (Return (flushed, b1))
      | Throw e => Some (Throw e)
      | Undefined => Some Undefined
      end
  end.

(** One module in a round of [forceFlush]. *)
(* event_builder2.cc:791-806 forceFlush *)
Definition force_module (slot : ModuleSlot) (s : ModuleStorage) : bool * (ModuleSlot * ModuleStorage * OutputData) :=
  match slot_queue slot with
  | [] => (false, (slot, s, Null))
  | front :: rest =>
      (true, (mkSlot rest (count_output front (slot_ctrs slot)), front, View (to_module_data front)))
  end.

(* event_builder2.cc:787-815 forceFlush *)
Fixpoint force_loop (fuel : nat) (crateIndex eventIndex result : Z) (slots : list ModuleSlot)
    (os : list ModuleStorage) (outs : list Output)
  : option (Z * list ModuleSlot * list ModuleStorage * list OutputData * list Output) :=
  match fuel with
  | O => None
  | S fuel' =>
      let r := zip_with force_module slots os in
      let slots1 := (λ x : bool * _, x.2.1.1) <$> r in
      let os1 := (λ x : bool * _, x.2.1.2) <$> r in
      let od1 := (λ x : bool * _, x.2.2) <$> r in
      if existsb fst r
      then force_loop fuel' crateIndex eventIndex (u64 (result + 1)) slots1 os1
             (outs ++ [EventOut crateIndex eventIndex od1])
      else Some (result, slots1, os1, od1, outs)
  end.

Definition resize_storage (n : nat) (os : list ModuleStorage) : list ModuleStorage :=
  take n os ++ replicate (n - length os) empty_storage.

Definition queued (slots : list ModuleSlot) : nat := foldr (λ s n, (length (slot_queue s) + n)%nat) 0%nat slots.

(* event_builder2.cc:776-820 forceFlush *)
Definition forceFlush (eventIndex : nat) (b : Builder) : option (outcome (Z * Builder)) :=
  match perEventData_ b !! eventIndex with
  | None => Some (Throw out_of_range)
  | Some e =>
      let n := length (ev_modules e) in
      match force_loop (S (queued (ev_modules e))) (outputCrateIndex (cfg_ b)) (Z.of_nat eventIndex) 0
              (ev_modules e) (resize_storage n (outputModuleStorage_ b)) [] with
      | None => None
      | Some (result, slots, os, od, outs) =>
          Some (Return (result,
            mkBuilder (cfg_ b) (<[eventIndex := set_modules slots e]> (perEventData_ b)) od os
              (protectedCounters_ b) (outputs b ++ outs)))
      end
  end.

(** The loops over the events of [flush]. *)
(* event_builder2.cc:925-945 EventBuilder2::flush *)
Fixpoint flush_events (force : bool) (eventIndexes : list nat) (flushed : Z) (b : Builder)
  : option (outcome (Z * Builder)) :=
  match eventIndexes with
  | [] => Some (Return (flushed, b))
  | ei :: rest =>
      match (if force
             then match forceFlush ei b with
                  | Some (Return (n, b1)) => Some (Return (u64 (flushed + n), b1))
                  | r => r
                  end
             else flush_loop
                    (S (match perEventData_ b !! ei with Some e => length (ev_allTimestamps e) | None => 0 end))
                    (Z.of_nat ei) flushed b) with
      | Some (Return (flushed1, b1)) => flush_events force rest flushed1 b1
      | r => r
      end
  end.

(* event_builder2.cc:920-951 EventBuilder2::flush *)
Definition flush (force : bool) (b : Builder) : option (outcome (Z * Builder)) :=
  match flush_events force (seq 0 (length (perEventData_ b))) 0 b with
  | Some (Return (flushed, b1)) => Some (Return (flushed, publish_counters b1))
  | r => r
  end.

(* event_builder2.cc:1008-1016 isEnabledForAnyEvent *)
Definition isEnabledForAnyEvent (b : Builder) : bool := existsb ec_enabled (eventConfigs (cfg_ b)).

(* event_builder2.cc:1018-1021 getCounters *)
Definition getCounters (b : Builder) : list EventSlot := protectedCounters_ b.
