(* ===== verification/EventBuilder2Facts.v ===== *)
(** * Properties of the event builder

    Nothing is lost or invented: the counters of every module account for every
    entry that was recorded, over any sequence of operations; flushing ends and
    takes exactly the entries in the match window, in the order of recording. *)

From S2P Require Import Prelude Constants Frames Commands ReadoutParser Bits DataFilter.
From S2P Require Import EventBuilder2.

(** ** Counters modulo 2^64 *)

Definition eq64 (x y : Z) : Prop := u64 x = u64 y.
Infix "≡64" := eq64 (at level 70).

#[global] Instance eq64_equiv : Equivalence eq64.
Proof. unfold eq64. split; [intros ?|intros ??|intros ???]; congruence. Qed.

#[global] Instance eq64_add : Proper (eq64 ==> eq64 ==> eq64) Z.add.
Proof.
  intros x x' Hx y y' Hy. unfold eq64, u64 in *. rewrite Z.add_mod, Hx, Hy, <- Z.add_mod by lia. done.
Qed.

#[global] Instance eq64_sub : Proper (eq64 ==> eq64 ==> eq64) Z.sub.
Proof.
  intros x x' Hx y y' Hy. unfold eq64, u64 in *. by rewrite Zminus_mod, Hx, Hy, <- Zminus_mod.
Qed.

Lemma u64_eq64 x : u64 x ≡64 x.
Proof. unfold eq64, u64. by apply Z.mod_mod. Qed.

Lemma inc64_eq x : inc64 x ≡64 x + 1.
Proof. apply u64_eq64. Qed.

Lemma dec64_eq x : dec64 x ≡64 x - 1.
Proof. apply u64_eq64. Qed.

Lemma eq64_of_eq x y : x = y → x ≡64 y.
Proof. by intros ->. Qed.

(** ** The invariant *)

(** Every recorded entry was output, discarded, dropped for lack of a stamp or is
    still in the queue. *)
Record slot_ok (noStamp : Z) (slot : ModuleSlot) : Prop := {
  so_hits : inputHits (slot_ctrs slot)
    ≡64 outputHits (slot_ctrs slot) + discardsAge (slot_ctrs slot) + zlen (slot_queue slot) + noStamp;
  so_current : currentEvents (slot_ctrs slot) ≡64 zlen (slot_queue slot) + 2 * noStamp
}.

Definition event_inv (ec : EventConfig) (e : EventSlot) : Prop :=
  length (ev_modules e) = length (moduleConfigs ec)
  ∧ Forall (slot_ok (ev_discardsNoStamp e)) (ev_modules e).

Definition builder_inv (b : Builder) : Prop :=
  Forall2 event_inv (eventConfigs (cfg_ b)) (perEventData_ b).

Lemma slot_ok_eq64 n n' slot : n ≡64 n' → slot_ok n slot → slot_ok n' slot.
Proof.
  intros Hn [H1 H2]. split; [by rewrite <- Hn|].
  rewrite H2. replace (2 * n) with (n + n) by lia. replace (2 * n') with (n' + n') by lia. by rewrite Hn.
Qed.

(** *** Recording *)

Lemma record_module_ok d mc md slot :
  slot_ok d slot →
  slot_ok d (record_module mc md slot) ∧ back (record_module mc md slot) ≠ None.
Proof.
  intros [H1 H2]. split; [|unfold back, record_module; cbn; by rewrite last_snoc].
  unfold record_module. split; cbn -[u64 zlen]; rewrite zlen_app; change (zlen [_]) with 1.
  - rewrite inc64_eq, H1. apply eq64_of_eq. lia.
  - rewrite inc64_eq, H2. apply eq64_of_eq. lia.
Qed.

Lemma record_modules_ok d cfgs mds slots :
  Forall (slot_ok d) slots → length cfgs = length mds → length slots = length mds →
  Forall (λ slot, slot_ok d slot ∧ back slot ≠ None) (record_modules cfgs mds slots)
  ∧ length (record_modules cfgs mds slots) = length slots.
Proof.
  intros Hs. revert cfgs mds; induction Hs as [|slot slots Hslot Hs IH]; intros [|mc cfgs] [|md mds] H1 H2;
    try done. cbn in *. destruct (IH cfgs mds) as [H3 H4]; [lia|lia|].
  split; [constructor; [by apply record_module_ok|done]|by rewrite H4].
Qed.

Lemma removelast_snoc {A} (l : list A) x : removelast (l ++ [x]) = l.
Proof. apply removelast_last. Qed.

Lemma back_Some slot s : back slot = Some s → ∃ q, slot_queue slot = q ++ [s].
Proof. intros H. by apply last_Some. Qed.

Lemma discard_newest_ok d slot :
  slot_ok d slot → back slot ≠ None → slot_ok (d + 1) (discard_newest slot).
Proof.
  intros [H1 H2] Hb. unfold discard_newest. destruct (back slot) as [s|] eqn:E; [|done].
  destruct (back_Some _ _ E) as [q Hq]. rewrite Hq, zlen_app in H1, H2. change (zlen [s]) with 1 in *.
  rewrite Hq, removelast_snoc. split; cbn -[u64 zlen].
  - rewrite H1. apply eq64_of_eq. lia.
  - rewrite inc64_eq, H2. apply eq64_of_eq. lia.
Qed.

Lemma record_incoming_ok mds ec e :
  event_inv ec e → event_inv ec (record_incoming mds (moduleConfigs ec) e).
Proof.
  intros [Hl Hs]. unfold record_incoming, record_module_data.
  destruct (Nat.eqb_spec (length (moduleConfigs ec)) (length mds)) as [E1|]; cbn [negb]; [|done].
  destruct (Nat.eqb_spec (length (ev_modules e)) (length mds)) as [E2|]; cbn [negb]; [|done].
  destruct (record_modules_ok _ _ mds _ Hs E1 E2) as [Hr Hlen].
  destruct (forallb _ _); (split; [cbn; rewrite ?length_fmap; lia|]); cbn [set_modules ev_modules ev_discardsNoStamp].
  - apply Forall_fmap. eapply Forall_impl; [exact Hr|]. intros slot [H1 H2]. unfold compose.
    apply (slot_ok_eq64 (ev_discardsNoStamp e + 1)); [symmetry; apply inc64_eq|by apply discard_newest_ok].
  - by eapply Forall_impl; [exact Hr|]; intros slot [? _].
Qed.

(** Changing a stamp changes nothing that is counted. *)
Definition same_counts (s1 s2 : ModuleSlot) : Prop :=
  slot_ctrs s1 = slot_ctrs s2 ∧ length (slot_queue s1) = length (slot_queue s2).

Lemma same_counts_ok d s1 s2 : same_counts s1 s2 → slot_ok d s1 → slot_ok d s2.
Proof.
  intros [Hc Hl] [H1 H2]. unfold zlen in *. rewrite Hc, Hl in *. by split.
Qed.

Lemma set_back_stamp_same ts slot : same_counts slot (set_back_stamp ts slot).
Proof.
  unfold set_back_stamp. destruct (back slot) as [s|] eqn:E; [|done].
  destruct (back_Some _ _ E) as [q Hq]. split; [done|]. cbn. rewrite Hq, removelast_snoc, !length_app. done.
Qed.

Lemma apply_offset_same mc slot : same_counts slot (apply_offset mc slot).
Proof. unfold apply_offset. destruct (back_stamp slot); [apply set_back_stamp_same|done]. Qed.

Lemma assign_filler_same f slot : same_counts slot (assign_filler f slot).
Proof.
  unfold assign_filler. destruct (bool_decide _); [done|].
  destruct (bool_decide _); [apply set_back_stamp_same|done].
Qed.

Lemma same_counts_refl slots : Forall2 same_counts slots slots.
Proof. by induction slots; constructor. Qed.

Lemma apply_offsets_same cfgs slots :
  (length cfgs ≤ length slots)%nat → Forall2 same_counts slots (apply_offsets cfgs slots).
Proof.
  revert slots; induction cfgs as [|mc cfgs IH]; intros slots Hl; unfold apply_offsets; cbn.
  - rewrite drop_0. by apply same_counts_refl.
  - destruct slots as [|slot slots]; [cbn in Hl; lia|]. cbn. constructor; [apply apply_offset_same|].
    apply IH. cbn in Hl. lia.
Qed.

Lemma Forall2_same_ok d l k : Forall2 same_counts l k → Forall (slot_ok d) l → Forall (slot_ok d) k.
Proof.
  induction 1 as [|s1 s2 l k Hs HF IH]; inversion 1; subst; constructor; [by eapply same_counts_ok|by apply IH].
Qed.

Lemma assign_fillers_same f n slots :
  Forall2 same_counts slots ((assign_filler f <$> take n slots) ++ drop n slots).
Proof.
  rewrite <- (take_drop n slots) at 1. apply Forall2_app; [|apply same_counts_refl].
  induction (take n slots) as [|s l IH]; constructor; [apply assign_filler_same|done].
Qed.

Lemma finish_recording_ok ec n e :
  event_inv ec e → (n ≤ length (moduleConfigs ec))%nat →
  ∃ e', finish_recording (moduleConfigs ec) n e = Return e' ∧ event_inv ec e'.
Proof.
  intros [Hl Hs] Hn. unfold finish_recording.
  destruct (Nat.ltb_spec (length (ev_modules e)) n); [lia|].
  destruct (Nat.ltb_spec (length (moduleConfigs ec)) n); [lia|]. cbn [orb].
  eexists. split; [reflexivity|].
  assert (H1 : Forall2 same_counts (ev_modules e) (apply_offsets (take n (moduleConfigs ec)) (ev_modules e)))
    by (apply apply_offsets_same; rewrite length_take; lia).
  assert (H2 := assign_fillers_same (head (new_stamps (take n (apply_offsets (take n (moduleConfigs ec))
    (ev_modules e))))) n (apply_offsets (take n (moduleConfigs ec)) (ev_modules e))).
  split; cbn [ev_modules ev_discardsNoStamp].
  - by rewrite <- (Forall2_length _ _ _ H2), <- (Forall2_length _ _ _ H1).
  - by eapply Forall2_same_ok, Forall2_same_ok.
Qed.

Lemma count_passed_ok d slot : slot_ok d slot → slot_ok d (count_passed slot).
Proof.
  intros [H1 H2]. split; cbn -[u64 zlen]; [|done]. rewrite !inc64_eq, H1. apply eq64_of_eq. lia.
Qed.

Lemma builder_inv_insert b ei ec e :
  builder_inv b → eventConfigs (cfg_ b) !! ei = Some ec → event_inv ec e →
  Forall2 event_inv (eventConfigs (cfg_ b)) (<[ei := e]> (perEventData_ b)).
Proof.
  intros Hb Hec He. rewrite <- (list_insert_id (eventConfigs (cfg_ b)) ei ec) by done.
  by apply Forall2_insert.
Qed.

Lemma builder_lookup b ei :
  builder_inv b → 0 ≤ ei < zlen (eventConfigs (cfg_ b)) →
  ∃ ec e, eventConfigs (cfg_ b) !! Z.to_nat ei = Some ec
    ∧ perEventData_ b !! Z.to_nat ei = Some e ∧ event_inv ec e.
Proof.
  intros Hb Hei. destruct (lookup_lt_is_Some_2 (eventConfigs (cfg_ b)) (Z.to_nat ei)) as [ec Hec];
    [unfold zlen in *; lia|].
  destruct (Forall2_lookup_l _ _ _ _ _ Hb Hec) as (e & He & Hinv). by exists ec, e.
Qed.

(** The number of modules is not larger than configured. *)
Definition modules_fit (ei : Z) (mds : list ModuleData) (b : Builder) : Prop :=
  ∀ ec, eventConfigs (cfg_ b) !! Z.to_nat ei = Some ec → (length mds ≤ length (moduleConfigs ec))%nat.

Lemma record_event_ok ei mds b :
  builder_inv b → modules_fit ei mds b →
  ∃ b', record_event ei mds b = Return b' ∧ builder_inv b' ∧ cfg_ b' = cfg_ b.
Proof.
  intros Hb Hfit. unfold record_event. destruct (checkConsistency ei mds b) eqn:Hc; cbn [negb]; [|by exists b].
  unfold checkConsistency in Hc. breflect.
  destruct (builder_lookup b ei Hb ltac:(lia)) as (ec & e & Hec & He & Hinv). rewrite Hec, He.
  specialize (Hfit ec Hec). pose proof Hinv as [Hl Hs]. destruct (ec_enabled ec); cbn [negb].
  - destruct (finish_recording_ok ec (length mds) _ (record_incoming_ok mds ec e Hinv) Hfit) as (e' & -> & He').
    eexists. split_and!; [reflexivity| |done]. exact (builder_inv_insert b _ ec e' Hb Hec He').
  - destruct (Nat.ltb_spec (length (ev_modules e)) (length mds)); [lia|].
    eexists. split_and!; [reflexivity| |done]. refine (builder_inv_insert b _ ec _ Hb Hec _).
    split; cbn [set_modules ev_modules ev_discardsNoStamp].
    + rewrite length_app, length_fmap, length_take, length_drop. lia.
    + apply Forall_app. split; [|by apply Forall_drop]. apply Forall_fmap.
      eapply Forall_impl; [by apply Forall_take|]. intros slot. apply count_passed_ok.
Qed.

(** *** Flushing *)

Definition stamped (slot : ModuleSlot) : Prop := Forall (λ s, is_Some (ms_timestamp s)) (slot_queue slot).

(** How an entry relates to the reference stamp. *)
Definition relation_to (refTs window : Z) (s : ModuleStorage) (m : WindowMatch) : Prop :=
  ∃ ts, ms_timestamp s = Some ts ∧ (timestamp_match refTs ts window).1 = m.

(** The outcome of a flush for one module: the entries [old] are discarded, then
    at most one entry is taken. *)
Record flushed_slot (refTs window : Z) (slot : ModuleSlot) (out : ModuleStorage) (slot' : ModuleSlot)
    (old : list ModuleStorage) (taken : option ModuleStorage) : Prop := {
  fs_queue : slot_queue slot = old ++ option_list taken ++ slot_queue slot';
  fs_old : Forall (λ s, relation_to refTs window s too_old) old;
  fs_taken : ∀ s, taken = Some s → relation_to refTs window s in_window ∧ out = s;
  fs_none : taken = None → out = empty_storage
    ∧ ∀ s, head (slot_queue slot') = Some s → relation_to refTs window s too_new;
  fs_counts : discardsAge (slot_ctrs slot') ≡64 discardsAge (slot_ctrs slot) + zlen old
    ∧ outputHits (slot_ctrs slot') ≡64 outputHits (slot_ctrs slot) + zlen (option_list taken)
    ∧ currentEvents (slot_ctrs slot') ≡64
        currentEvents (slot_ctrs slot) - zlen old - zlen (option_list taken)
    ∧ inputHits (slot_ctrs slot') = inputHits (slot_ctrs slot)
}.

Lemma drop_old_spec refTs window q c :
  Forall (λ s, is_Some (ms_timestamp s)) q →
  ∃ old q' c', drop_old refTs window q c = Return (mkSlot q' c') ∧ q = old ++ q'
    ∧ Forall (λ s, relation_to refTs window s too_old) old
    ∧ (∀ s, head q' = Some s → ¬ relation_to refTs window s too_old)
    ∧ discardsAge c' ≡64 discardsAge c + zlen old ∧ outputHits c' = outputHits c
    ∧ currentEvents c' ≡64 currentEvents c - zlen old ∧ inputHits c' = inputHits c.
Proof.
  intros Hq. revert c; induction Hq as [|s q [ts Hts] Hq IH]; intros c; cbn [drop_old].
  { exists [], [], c. split_and!; try done; apply eq64_of_eq; change (zlen (@nil ModuleStorage)) with 0; lia. }
  rewrite Hts. destruct (decide ((timestamp_match refTs ts window).1 = too_old)) as [E|E].
  - rewrite bool_decide_eq_true_2 by done.
    destruct (IH (count_discarded s c)) as (old & q' & c' & -> & -> & H2 & H3 & H4 & H5 & H6 & H7).
    exists (s :: old), q', c'. rewrite zlen_cons.
    split_and!; try done; [constructor; [by exists ts|done]| |].
    + rewrite H4. cbn [count_discarded discardsAge]. rewrite inc64_eq. apply eq64_of_eq. lia.
    + rewrite H6. cbn [count_discarded currentEvents]. rewrite dec64_eq. apply eq64_of_eq. lia.
  - rewrite bool_decide_eq_false_2 by done. exists [], (s :: q), c.
    split_and!; try done; [|apply eq64_of_eq; change (zlen (@nil ModuleStorage)) with 0; lia..].
    intros s' [= <-] (ts' & Hts' & Hm). congruence.
Qed.

Lemma flush_slot refTs window slot :
  stamped slot →
  ∃ slot1 out slot' old taken,
    drop_old refTs window (slot_queue slot) (slot_ctrs slot) = Return slot1
    ∧ take_match refTs window slot1 = Return (out, slot')
    ∧ flushed_slot refTs window slot out slot' old taken.
Proof.
  intros Hst. destruct (drop_old_spec refTs window (slot_queue slot) (slot_ctrs slot) Hst)
    as (old & q' & c' & Hd & Hq & Hold & Hhd & Ha & Ho & Hc & Hi).
  rewrite Hd. unfold take_match. cbn [slot_queue slot_ctrs].
  assert (Hst' : Forall (λ s, is_Some (ms_timestamp s)) q')
    by (unfold stamped in Hst; rewrite Hq in Hst; by apply Forall_app in Hst as [_ ?]).
  destruct q' as [|s q'].
  { eexists _, empty_storage, _, old, None. split_and!; [done|done|]. split; try done.
    cbn [slot_ctrs]. change (zlen (option_list None)) with 0. rewrite Ha, Ho, Hc.
    split_and!; [done|apply eq64_of_eq; lia..|done]. }
  inversion Hst' as [|? ? [ts Hts] ?]; subst.
  destruct ((timestamp_match refTs ts window).1) eqn:E.
  - destruct (Hhd s eq_refl). by exists ts.
  - eexists _, s, _, old, (Some s). split_and!; [done|cbn [slot_queue]; by rewrite Hts, E|]. split; try done.
    + intros s' [= <-]. split; [by exists ts|done].
    + cbn [slot_ctrs count_output outputHits currentEvents discardsAge inputHits].
      change (zlen (option_list (Some s))) with 1. rewrite Ha, Ho, inc64_eq, dec64_eq, Hc. split_and!; done.
  - eexists _, empty_storage, _, old, None. split_and!; [done|cbn [slot_queue]; by rewrite Hts, E|]. split; try done.
    + intros _. split; [done|]. intros s' [= <-]. by exists ts.
    + cbn [slot_ctrs]. change (zlen (option_list None)) with 0. rewrite Ha, Ho, Hc.
      split_and!; [done|apply eq64_of_eq; lia..|done].
Qed.

Lemma flushed_slot_ok d refTs window slot out slot' old taken :
  flushed_slot refTs window slot out slot' old taken → slot_ok d slot → slot_ok d slot'.
Proof.
  intros [Hq _ _ _ (Ha & Ho & Hc & Hi)] [H1 H2]. rewrite Hq, !zlen_app in H1, H2. split.
  - rewrite Hi, Ha, Ho, H1. apply eq64_of_eq. lia.
  - rewrite Hc, H2. apply eq64_of_eq. lia.
Qed.

(** The two loops over the modules of an event. *)
Definition flushed_modules (refTs : Z) (cfgs : list ModuleConfig) (slots : list ModuleSlot)
    (outs : list ModuleStorage) (slots' : list ModuleSlot) : Prop :=
  length outs = length cfgs ∧ length slots' = length cfgs
  ∧ ∀ i mc slot, cfgs !! i = Some mc → slots !! i = Some slot →
      ∃ out slot' old taken, outs !! i = Some out ∧ slots' !! i = Some slot'
        ∧ flushed_slot refTs (mc_window mc) slot out slot' old taken.

Lemma flush_modules_spec refTs cfgs slots :
  length slots = length cfgs → Forall stamped slots →
  ∃ slots1 outs slots', drop_old_modules refTs cfgs slots = Return slots1
    ∧ take_matches refTs cfgs slots1 = Return (outs, slots')
    ∧ flushed_modules refTs cfgs slots outs slots'.
Proof.
  intros Hl Hs. revert cfgs Hl; induction Hs as [|slot slots Hst Hs IH]; intros [|mc cfgs] Hl; try done.
  { by exists [], [], []. }
  destruct (flush_slot refTs (mc_window mc) slot Hst) as (s1 & out & s' & old & taken & H1 & H2 & H3).
  destruct (IH cfgs) as (slots1 & outs & slots' & H4 & H5 & (H6 & H7 & H8)); [cbn in Hl; lia|].
  exists (s1 :: slots1), (out :: outs), (s' :: slots'). cbn [drop_old_modules take_matches].
  rewrite H1. cbn [mbind outcome_bind]. rewrite H4. cbn [mbind outcome_bind take_matches].
  rewrite H2. cbn [mbind outcome_bind]. rewrite H5. cbn [mbind outcome_bind fst snd].
  split_and!; [done|done|]. split_and!; [cbn; lia|cbn; lia|].
  intros [|i] mc' slot'' Hmc Hslot; cbn in Hmc, Hslot.
  - simplify_eq. by exists out, s', old, taken.
  - by apply H8.
Qed.

Lemma flushed_modules_ok d refTs cfgs slots outs slots' :
  flushed_modules refTs cfgs slots outs slots' → length slots = length cfgs →
  Forall (slot_ok d) slots → Forall (slot_ok d) slots'.
Proof.
  intros (Hlo & Hls & Hi) Hl Hs. apply Forall_lookup_2. intros i slot' Hslot'.
  assert (Hlt := lookup_lt_Some _ _ _ Hslot').
  destruct (lookup_lt_is_Some_2 cfgs i) as [mc Hmc]; [lia|].
  destruct (lookup_lt_is_Some_2 slots i) as [slot Hslot]; [lia|].
  destruct (Hi i mc slot Hmc Hslot) as (out & s' & old & taken & _ & Hs' & Hf). simplify_eq.
  eapply flushed_slot_ok; [done|]. by eapply Forall_lookup_1 in Hslot.
Qed.

(** Every module that has data has a newest stamp behind the match window. *)
Lemma modules_ready_spec refTs cfgs slots r :
  modules_ready refTs cfgs slots = Some r →
  ∀ i mc slot s, cfgs !! i = Some mc → slots !! i = Some slot → back slot = Some s →
  relation_to refTs (mc_window mc) s too_new.
Proof.
  revert slots r; induction cfgs as [|mc cfgs IH]; intros [|slot slots] r Hr i mc' slot' s Hmc Hslot Hb;
    try done. cbn [modules_ready] in Hr.
  destruct i as [|i]; cbn in Hmc, Hslot.
  - simplify_eq. rewrite Hb in Hr. destruct (ms_timestamp s) as [ts|] eqn:Hts; [|done]. cbn in Hr.
    case_bool_decide as E; [|done]. by exists ts.
  - destruct (back slot) as [s0|].
    + destruct (ms_timestamp s0) as [ts|]; [|done]. cbn in Hr. case_bool_decide; [|done].
      destruct (modules_ready refTs cfgs slots) as [r'|] eqn:E; [|done]. by eapply IH.
    + by eapply IH.
Qed.

Lemma check_stamped ei b e :
  checkModuleBuffers ei b = true → perEventData_ b !! Z.to_nat ei = Some e →
  0 ≤ ei < zlen (eventConfigs (cfg_ b)) ∧ Forall stamped (ev_modules e).
Proof.
  intros Hc He. unfold checkModuleBuffers in Hc. rewrite He in Hc. breflect. split; [lia|].
  rewrite forallb_forall in H0. apply Forall_forall. intros slot Hslot. apply Forall_forall. intros s Hs.
  apply list_elem_of_In in Hslot. specialize (H0 slot Hslot). rewrite forallb_forall in H0.
  apply list_elem_of_In in Hs. specialize (H0 s Hs). breflect. by apply bool_decide_eq_true in H3 || done.
Qed.

Lemma pop_ref_length refTs l : (length (pop_ref refTs l) ≤ length l)%nat.
Proof. induction l as [|ts l IH]; [done|]. cbn. destruct (_ =? _); cbn; lia. Qed.

Lemma fill_outputs_spec cfgs outs ods :
  length outs = length cfgs → length ods = length cfgs →
  length (fill_outputs cfgs outs ods) = length cfgs
  ∧ ∀ i out o, outs !! i = Some out → ods !! i = Some o →
      (fill_outputs cfgs outs ods).*2 !! i
      = Some (if bool_decide (ms_data out = []) then o else View (to_module_data out)).
Proof.
  revert outs ods; induction cfgs as [|mc cfgs IH]; intros [|out outs] [|o ods] H1 H2; try done.
  destruct (IH outs ods) as [H3 H4]; [cbn in *; lia..|]. cbn [fill_outputs]. split; [cbn; lia|].
  intros [|i] out' o' Ho Hod; cbn in Ho, Hod.
  - simplify_eq. cbn. unfold fill_output. by case_bool_decide.
  - by apply H4.
Qed.

Definition is_view (o : OutputData) : bool := match o with View _ => true | _ => false end.

(** No entry left from an earlier flush is valid. *)
Lemma resize_dangle_no_view n ods i o :
  resize_output n (dangle <$> ods) !! i = Some o → is_view o = false.
Proof.
  unfold resize_output. intros [H|[_ H]]%lookup_app_Some.
  - apply lookup_take_Some in H as [H _]. apply list_lookup_fmap_Some in H as (o' & -> & _). by destruct o'.
  - by apply lookup_replicate in H as [-> _].
Qed.

(** What a successful flush of one event does. *)
Record flush_step (ei : Z) (b b' : Builder) (ec : EventConfig) (e e' : EventSlot)
    (refTs : Z) (outs : list ModuleStorage) : Prop := {
  st_config : eventConfigs (cfg_ b) !! Z.to_nat ei = Some ec;
  st_event : perEventData_ b !! Z.to_nat ei = Some e;
  st_ref : head (ev_allTimestamps e) = Some refTs;
  st_stamps : ev_allTimestamps e' = pop_ref refTs (ev_allTimestamps e);
  st_ready : ∀ i mc slot s, moduleConfigs ec !! i = Some mc → ev_modules e !! i = Some slot →
    back slot = Some s → relation_to refTs (mc_window mc) s too_new;
  st_modules : flushed_modules refTs (moduleConfigs ec) (ev_modules e) outs (ev_modules e');
  st_events : perEventData_ b' = <[Z.to_nat ei := e']> (perEventData_ b);
  st_noStamp : ev_discardsNoStamp e' = ev_discardsNoStamp e;
  st_cfg : cfg_ b' = cfg_ b;
  st_outputs :
    if existsb (λ s, negb (bool_decide (ms_data s = []))) outs then
      ∃ ods, outputs b' = outputs b ++ [EventOut (outputCrateIndex (cfg_ b)) ei ods]
        ∧ length ods = length (moduleConfigs ec)
        ∧ ∀ i out, outs !! i = Some out →
            (ms_data out ≠ [] → ods !! i = Some (View (to_module_data out)))
            ∧ (ms_data out = [] → ∃ o, ods !! i = Some o ∧ is_view o = false)
    else outputs b' = outputs b
}.

Lemma try_flush_cases ei b :
  builder_inv b →
  (tryFlush ei b = Return (false, b))
  ∨ ∃ b' ec e e' refTs outs, tryFlush ei b = Return (true, b') ∧ flush_step ei b b' ec e e' refTs outs.
Proof.
  intros Hb. unfold tryFlush. destruct (checkModuleBuffers ei b) eqn:Hc; cbn [negb]; [|by left].
  assert (Hrange : 0 ≤ ei < zlen (eventConfigs (cfg_ b)))
    by (unfold checkModuleBuffers in Hc; breflect; lia).
  destruct (builder_lookup b ei Hb Hrange) as (ec & e & Hec & He & [Hl Hs]). rewrite Hec, He.
  destruct (check_stamped ei b e Hc He) as [_ Hst].
  destruct (ec_enabled ec); cbn [negb]; [|by left].
  destruct (ev_allTimestamps e) as [|refTs stamps] eqn:Hts; [by left|].
  destruct (modules_ready refTs (moduleConfigs ec) (ev_modules e)) as [[]|] eqn:Hready; [|by left..].
  right. destruct (flush_modules_spec refTs (moduleConfigs ec) (ev_modules e) Hl Hst)
    as (slots1 & outs & slots' & H1 & H2 & Hf).
  rewrite H1. cbn [mbind outcome_bind]. rewrite H2. cbn [mbind outcome_bind fst snd].
  eexists _, ec, e, (set_modules slots' (set_allTimestamps (pop_ref refTs (refTs :: stamps)) e)), refTs, outs.
  split; [reflexivity|].
  unfold emit. cbn [outputModuleStorage_ set_outputStorage].
  destruct (existsb _ outs) eqn:Hex; (split; [done|done|by rewrite Hts|by rewrite Hts|
    by eapply modules_ready_spec|exact Hf|done|done|done|rewrite Hex]); [|done].
  destruct Hf as (Ho & _ & _).
  set (od := resize_output (length (moduleConfigs ec)) _).
  assert (Hod : length od = length (moduleConfigs ec))
    by (unfold od, resize_output; rewrite length_app, length_take, length_replicate; lia).
  destruct (fill_outputs_spec (moduleConfigs ec) outs od Ho Hod) as [Hlen Hfill].
  eexists. split_and!; [reflexivity|by rewrite length_fmap|].
  intros i out Hout. destruct (lookup_lt_is_Some_2 od i) as [o Hoi].
  { rewrite Hod, <- Ho. by eapply lookup_lt_Some. }
  specialize (Hfill i out o Hout Hoi). split; intros Hd.
  - by rewrite bool_decide_eq_false_2 in Hfill.
  - rewrite bool_decide_eq_true_2 in Hfill by done. exists o. split; [done|].
    exact (resize_dangle_no_view _ _ _ _ Hoi).
Qed.

Lemma flush_step_inv ei b b' ec e e' refTs outs :
  builder_inv b → flush_step ei b b' ec e e' refTs outs →
  builder_inv b' ∧ (length (ev_allTimestamps e') < length (ev_allTimestamps e))%nat.
Proof.
  intros Hb [H1 H2 H3 H4 _ H6 H7 H8 H9 _].
  destruct (Forall2_lookup_lr _ _ _ _ _ _ Hb H1 H2) as [Hl Hs]. split.
  - unfold builder_inv. rewrite H9, H7. apply (builder_inv_insert b _ ec); [done|done|].
    pose proof H6 as (_ & Hl' & _). split; [done|]. rewrite H8.
    by apply (flushed_modules_ok _ _ _ _ _ _ H6).
  - rewrite H4. destruct (ev_allTimestamps e) as [|ts l]; [done|]. injection H3 as ->.
    cbn. rewrite Z.eqb_refl. pose proof (pop_ref_length refTs l). lia.
Qed.

Definition stamp_count (ei : nat) (b : Builder) : nat :=
  match perEventData_ b !! ei with Some e => length (ev_allTimestamps e) | None => 0 end.

Lemma flush_loop_ok fuel ei flushed b :
  builder_inv b → (stamp_count ei b < fuel)%nat →
  ∃ n b', flush_loop fuel (Z.of_nat ei) flushed b = Some (Return (n, b')) ∧ builder_inv b' ∧ cfg_ b' = cfg_ b.
Proof.
  revert flushed b; induction fuel as [|fuel IH]; intros flushed b Hb Hf; [lia|]. cbn [flush_loop].
  destruct (try_flush_cases (Z.of_nat ei) b Hb) as [->|(b1 & ec & e & e' & refTs & outs & -> & Hst)].
  { by eexists _, _. }
  destruct (flush_step_inv _ _ _ _ _ _ _ _ Hb Hst) as [Hb1 Hlt].
  destruct (IH (u64 (flushed + 1)) b1 Hb1) as (n & b' & -> & Hb' & Hcfg).
  - destruct Hst as [_ He _ _ _ _ Hev _ _ _]. unfold stamp_count in *. rewrite Nat2Z.id in *.
    rewrite He in Hf. rewrite Hev, list_lookup_insert_eq by (by eapply lookup_lt_Some). lia.
  - exists n, b'. split_and!; [done|done|]. by rewrite Hcfg, (st_cfg _ _ _ _ _ _ _ _ Hst).
Qed.

(** *** Forced flushing *)

Definition max_queue (slots : list ModuleSlot) : nat :=
  foldr (λ s n, Nat.max (length (slot_queue s)) n) 0%nat slots.

(** The [i]-th event of a forced flush: the [i]-th entry of every queue. *)
Definition forced_event (crate ei : Z) (slots : list ModuleSlot) (i : nat) : Output :=
  EventOut crate ei ((λ slot, match slot_queue slot !! i with
                              | Some s => View (to_module_data s)
                              | None => Null
                              end) <$> slots).

Definition popped (slot : ModuleSlot) : ModuleSlot :=
  match slot_queue slot with
  | [] => slot
  | s :: rest => mkSlot rest (count_output s (slot_ctrs slot))
  end.

Lemma force_round slots os :
  length os = length slots →
  let r := zip_with force_module slots os in
  (λ x : bool * _, x.2.1.1) <$> r = popped <$> slots
  ∧ (λ x : bool * _, x.2.2) <$> r = (λ slot, match slot_queue slot !! 0%nat with
        | Some s => View (to_module_data s) | None => Null end) <$> slots
  ∧ existsb fst r = negb (max_queue slots =? 0)%nat
  ∧ length ((λ x : bool * _, x.2.1.2) <$> r) = length slots.
Proof.
  cbv zeta. revert os; induction slots as [|slot slots IH]; intros [|s os] Hl; try done.
  destruct (IH os) as (H1 & H2 & H3 & H4); [cbn in Hl; lia|]. cbn [zip_with fmap list_fmap existsb].
  rewrite H1, H2, H3. cbn [length]. rewrite H4. unfold force_module, popped. cbn [max_queue foldr].
  fold (max_queue slots).
  destruct (slot_queue slot) as [|x q] eqn:Hq; cbn; split_and!; try done. by destruct (max_queue slots).
Qed.

Lemma popped_ok d slot : slot_ok d slot → slot_ok d (popped slot).
Proof.
  intros [H1 H2]. unfold popped. destruct (slot_queue slot) as [|s q] eqn:Hq; [by split; rewrite ?Hq|].
  rewrite zlen_cons in H1, H2.
  split; cbn [slot_ctrs slot_queue count_output inputHits outputHits discardsAge currentEvents].
  - rewrite H1, inc64_eq. apply eq64_of_eq. lia.
  - rewrite dec64_eq, H2. apply eq64_of_eq. lia.
Qed.

Lemma popped_queue slot : slot_queue (popped slot) = tail (slot_queue slot).
Proof. unfold popped. destruct (slot_queue slot) eqn:E; cbn; [by rewrite E|done]. Qed.

Lemma max_queue_popped slots : max_queue (popped <$> slots) = pred (max_queue slots).
Proof.
  induction slots as [|slot slots IH]; [done|]. cbn. fold (max_queue (popped <$> slots)). fold (max_queue slots).
  rewrite IH, popped_queue. destruct (slot_queue slot); cbn; lia.
Qed.

Lemma max_queue_le slots : (max_queue slots ≤ queued slots)%nat.
Proof. induction slots as [|s l IH]; [done|]. cbn. fold (max_queue l). fold (queued l). lia. Qed.

Lemma forced_event_popped crate ei slots i :
  forced_event crate ei (popped <$> slots) i = forced_event crate ei slots (S i).
Proof.
  unfold forced_event. f_equal. rewrite <- list_fmap_compose. apply list_fmap_ext. intros _ slot _.
  unfold compose. rewrite popped_queue. by destruct (slot_queue slot).
Qed.

Lemma force_loop_ok d crate ei fuel : ∀ result slots os outs,
  (max_queue slots < fuel)%nat → length os = length slots → Forall (slot_ok d) slots →
  ∃ n slots' os' od',
    force_loop fuel crate ei result slots os outs
    = Some (n, slots', os', od', outs ++ (forced_event crate ei slots <$> seq 0 (max_queue slots)))
    ∧ n ≡64 result + Z.of_nat (max_queue slots)
    ∧ length slots' = length slots ∧ Forall (slot_ok d) slots' ∧ max_queue slots' = 0%nat.
Proof.
  induction fuel as [|fuel IH]; intros result slots os outs Hf Hl Hs; [lia|]. cbn [force_loop].
  destruct (force_round slots os Hl) as (H1 & H2 & H3 & H4). cbv zeta. rewrite H1, H2, H3.
  assert (Hs' : Forall (slot_ok d) (popped <$> slots)).
  { apply Forall_fmap. eapply Forall_impl; [done|]. intros slot. apply popped_ok. }
  pose proof (max_queue_popped slots) as Hm.
  destruct (Nat.eqb_spec (max_queue slots) 0) as [E|E]; cbn [negb].
  - eexists _, _, _, _. rewrite E. cbn [seq fmap list_fmap]. rewrite app_nil_r.
    split_and!; [reflexivity|apply eq64_of_eq; lia|by rewrite length_fmap|done|lia].
  - edestruct (IH (u64 (result + 1)) (popped <$> slots)) as (n & slots' & os' & od' & H5 & H6 & H7 & H8 & H9);
      [lia|by rewrite H4, length_fmap|done|].
    eexists n, slots', os', od'. rewrite length_fmap in H7.
    split_and!; [|rewrite H6, Hm, u64_eq64; apply eq64_of_eq; lia|done|done|done].
    rewrite H5, Hm. do 2 f_equal. rewrite <- app_assoc. f_equal.
    destruct (max_queue slots) as [|k]; [done|]. cbn [pred seq fmap list_fmap app]. f_equal.
    rewrite <- seq_shift, <- list_fmap_compose. apply list_fmap_ext. intros _ i _. apply forced_event_popped.
Qed.

Lemma force_flush_ok ei b ec e :
  builder_inv b → eventConfigs (cfg_ b) !! ei = Some ec → perEventData_ b !! ei = Some e →
  ∃ n b' slots', forceFlush ei b = Some (Return (n, b'))
    ∧ builder_inv b' ∧ cfg_ b' = cfg_ b
    ∧ perEventData_ b' = <[ei := set_modules slots' e]> (perEventData_ b)
    ∧ n ≡64 Z.of_nat (max_queue (ev_modules e))
    ∧ outputs b' = outputs b
        ++ (forced_event (outputCrateIndex (cfg_ b)) (Z.of_nat ei) (ev_modules e)
            <$> seq 0 (max_queue (ev_modules e)))
    ∧ Forall (λ slot, slot_queue slot = []) slots'.
Proof.
  intros Hb Hec He. destruct (Forall2_lookup_lr _ _ _ _ _ _ Hb Hec He) as [Hl Hs].
  unfold forceFlush. rewrite He. pose proof (max_queue_le (ev_modules e)).
  edestruct (force_loop_ok (ev_discardsNoStamp e) (outputCrateIndex (cfg_ b)) (Z.of_nat ei)
    (S (queued (ev_modules e))) 0 (ev_modules e)
    (resize_storage (length (ev_modules e)) (outputModuleStorage_ b)) [])
    as (n & slots' & os' & od' & -> & H2 & H3 & H4 & H5).
  { lia. }
  { unfold resize_storage. rewrite length_app, length_take, length_replicate. lia. }
  { done. }
  eexists n, _, slots'. split_and!; [reflexivity| |done|done|done|done|].
  - refine (builder_inv_insert b _ ec _ Hb Hec _). split; [cbn; lia|done].
  - clear -H5. induction slots' as [|s l IH]; [constructor|]. cbn in H5. fold (max_queue l) in H5.
    constructor; [|apply IH; lia]. apply nil_length_inv. lia.
Qed.

(** *** Flushing all events *)

Lemma flush_events_ok force eis : ∀ flushed b,
  builder_inv b → Forall (λ ei, (ei < length (eventConfigs (cfg_ b)))%nat) eis →
  ∃ n b', flush_events force eis flushed b = Some (Return (n, b')) ∧ builder_inv b' ∧ cfg_ b' = cfg_ b.
Proof.
  induction eis as [|ei eis IH]; intros flushed b Hb Heis; [by eexists _, _|].
  inversion Heis as [|? ? Hei Heis']; subst. cbn [flush_events].
  assert (∃ n b1, (if force
      then match forceFlush ei b with Some (Return (n, b1)) => Some (Return (u64 (flushed + n), b1)) | r => r end
      else flush_loop (S (stamp_count ei b)) (Z.of_nat ei) flushed b) = Some (Return (n, b1))
    ∧ builder_inv b1 ∧ cfg_ b1 = cfg_ b) as (n & b1 & Heq & Hb1 & Hcfg).
  { destruct force; [|apply flush_loop_ok; [done|lia]].
    destruct (builder_lookup b (Z.of_nat ei) Hb ltac:(unfold zlen; lia)) as (ec & e & Hec & He & _).
    rewrite Nat2Z.id in Hec, He.
    destruct (force_flush_ok ei b ec e Hb Hec He) as (n & b' & slots' & -> & Hb' & Hcfg & _).
    by eexists _, _. }
  unfold stamp_count in Heq. rewrite Heq.
  destruct (IH n b1 Hb1) as (n' & b' & -> & Hb' & Hcfg'); [by rewrite Hcfg|].
  exists n', b'. split_and!; [done|done|congruence].
Qed.

Lemma flush_ok force b :
  builder_inv b → ∃ n b', flush force b = Some (Return (n, b')) ∧ builder_inv b' ∧ cfg_ b' = cfg_ b.
Proof.
  intros Hb. unfold flush.
  destruct (flush_events_ok force (seq 0 (length (perEventData_ b))) 0 b Hb) as (n & b' & -> & Hb' & Hcfg).
  - apply Forall_forall. intros ei Hei%elem_of_seq. rewrite (Forall2_length _ _ _ Hb). lia.
  - by exists n, (publish_counters b').
Qed.

(** ** Sequences of operations *)

Inductive op : Type :=
| OpRecord (eventIndex : Z) (mds : list ModuleData)
| OpFlush (force : bool)
| OpSystem (words : list Z).

(** The public methods; [None] if a loop of [flush] does not end. *)
Definition run_op (o : op) (b : Builder) : option (outcome Builder) :=
  match o with
  | OpRecord ei mds => Some (r ← recordModuleData ei mds b; Return r.2)
  | OpFlush force =>
      match flush force b with
      | Some (Return (_, b1)) => Some (Return b1)
      | Some (Throw e) => Some (Throw e)
      | Some Undefined => Some Undefined
      | None => None
      end
  | OpSystem words => Some (Return (handleSystemEvent words b))
  end.

Fixpoint run_ops (ops : list op) (b : Builder) : option (outcome Builder) :=
  match ops with
  | [] => Some (Return b)
  | o :: rest =>
      match run_op o b with
      | Some (Return b1) => run_ops rest b1
      | r => r
      end
  end.

(** No event has more modules than its configuration. *)
Definition op_fits (cfg : EventBuilderConfig) (o : op) : Prop :=
  match o with
  | OpRecord ei mds =>
      ∀ ec, eventConfigs cfg !! Z.to_nat ei = Some ec → (length mds ≤ length (moduleConfigs ec))%nat
  | _ => True
  end.

Lemma run_op_ok o b :
  builder_inv b → op_fits (cfg_ b) o →
  ∃ b', run_op o b = Some (Return b') ∧ builder_inv b' ∧ cfg_ b' = cfg_ b.
Proof.
  intros Hb Hfit. destruct o as [ei mds|force|words]; cbn [run_op].
  - unfold recordModuleData. destruct ((ei <? 0) || _); [by exists b|].
    destruct (record_event_ok ei mds b Hb Hfit) as (b' & -> & Hb' & Hcfg). by exists b'.
  - destruct (flush_ok force b Hb) as (n & b' & -> & Hb' & Hcfg). by exists b'.
  - by eexists.
Qed.

Lemma run_ops_ok ops : ∀ b,
  builder_inv b → Forall (op_fits (cfg_ b)) ops →
  ∃ b', run_ops ops b = Some (Return b') ∧ builder_inv b' ∧ cfg_ b' = cfg_ b.
Proof.
  induction ops as [|o ops IH]; intros b Hb Hfit; [by exists b|]. inversion Hfit as [|? ? Ho Hops]; subst.
  destruct (run_op_ok o b Hb Ho) as (b1 & Heq & Hb1 & Hcfg). cbn [run_ops]. rewrite Heq.
  destruct (IH b1 Hb1) as (b' & -> & Hb' & Hcfg'); [by rewrite Hcfg|]. exists b'. split_and!; [done|done|congruence].
Qed.

Lemma make_builder_ok cfg b : make_builder cfg = Return b → builder_inv b ∧ cfg_ b = cfg.
Proof.
  unfold make_builder. destruct (forallb _ _); [|done]. intros [= <-]. split; [|done].
  unfold builder_inv. cbn [cfg_ perEventData_]. apply Forall2_fmap_r, Forall_Forall2_diag, Forall_true.
  intros ec. split; [apply length_replicate|]. cbn. apply Forall_replicate. by split.
Qed.

(** ** The content of a recorded event *)

(** The stamp of a module, moved by the configured offset. *)
Definition stamp_of (mc : ModuleConfig) (md : ModuleData) : option Z :=
  (λ ts, add_offset_to_timestamp (u32 ts) (mc_offset mc)) <$> tsExtractor mc (ztake (md_size md) (md_data md)).

(** The slot after recording [md] with stamp [ts]. *)
Definition slot_with (mc : ModuleConfig) (md : ModuleData) (ts : option Z) (slot : ModuleSlot) : ModuleSlot :=
  mkSlot (slot_queue slot ++ [storage_of md ts]) (slot_ctrs (record_module mc md slot)).

Lemma back_slot_with mc md ts slot : back (slot_with mc md ts slot) = Some (storage_of md ts).
Proof. unfold back, slot_with. cbn. apply last_snoc. Qed.

Lemma set_back_slot_with mc md ts ts' slot :
  set_back_stamp ts' (slot_with mc md ts slot) = slot_with mc md ts' slot.
Proof. unfold set_back_stamp. rewrite back_slot_with. unfold slot_with. cbn. by rewrite removelast_snoc. Qed.

Lemma apply_offset_recorded mc md slot :
  apply_offset mc (record_module mc md slot) = slot_with mc md (stamp_of mc md) slot.
Proof.
  change (record_module mc md slot)
    with (slot_with mc md (tsExtractor mc (ztake (md_size md) (md_data md))) slot).
  unfold apply_offset, back_stamp. rewrite back_slot_with. cbn. unfold stamp_of.
  destruct (tsExtractor _ _) as [ts|]; cbn; [apply set_back_slot_with|done].
Qed.

Lemma assign_filler_recorded f mc md slot :
  assign_filler (Some f) (slot_with mc md (stamp_of mc md) slot)
  = slot_with mc md (Some (default f (stamp_of mc md))) slot.
Proof.
  unfold assign_filler, back_stamp. rewrite bool_decide_eq_false_2 by done. rewrite back_slot_with. cbn.
  destruct (stamp_of mc md) as [ts|]; cbn; [done|]. by rewrite set_back_slot_with.
Qed.

Lemma recorded_offsets cfgs mds slots :
  length cfgs = length mds → length slots = length mds →
  let slots1 := apply_offsets cfgs (record_modules cfgs mds slots) in
  length slots1 = length mds
  ∧ new_stamps slots1 = omap id (zip_with stamp_of cfgs mds)
  ∧ ∀ f i mc md slot, cfgs !! i = Some mc → mds !! i = Some md → slots !! i = Some slot →
      (assign_filler (Some f) <$> slots1) !! i
      = Some (slot_with mc md (Some (default f (stamp_of mc md))) slot).
Proof.
  cbv zeta. revert mds slots; induction cfgs as [|mc cfgs IH]; intros [|md mds] [|slot slots] H1 H2; try done.
  destruct (IH mds slots) as (H3 & H4 & H5); [cbn in *; lia..|].
  unfold apply_offsets in *. cbn [record_modules zip_with length drop].
  rewrite apply_offset_recorded. cbn [app length fmap list_fmap]. split_and!; [by rewrite H3| |].
  - unfold new_stamps in *. cbn [omap list_omap]. rewrite H4. unfold back_stamp. rewrite back_slot_with. done.
  - intros f [|i] mc' md' slot' Hmc Hmd Hslot; cbn in Hmc, Hmd, Hslot.
    + simplify_eq. by rewrite <- assign_filler_recorded.
    + by apply H5.
Qed.

Lemma recorded_unstamped cfgs mds slots ts :
  length cfgs = length mds → length slots = length mds → ts ∈ omap id (zip_with stamp_of cfgs mds) →
  forallb (λ slot, bool_decide (back_stamp slot = None)) (record_modules cfgs mds slots) = false.
Proof.
  revert mds slots; induction cfgs as [|mc cfgs IH]; intros [|md mds] [|slot slots] H1 H2 Hts; try done;
    [by apply elem_of_nil in Hts..|]. cbn [record_modules forallb].
  cbn [zip_with omap list_omap] in Hts. unfold id in Hts at 1.
  assert (Hb : back_stamp (record_module mc md slot) = tsExtractor mc (ztake (md_size md) (md_data md)))
    by (unfold back_stamp, back, record_module; cbn; by rewrite last_snoc).
  rewrite Hb. unfold stamp_of at 1 in Hts. destruct (tsExtractor _ _) as [t|]; cbn in Hts |- *; [done|].
  apply (IH mds slots); [cbn in *; lia..|done].
Qed.

Lemma take_length_eq {A} n (l : list A) : length l = n → take n l = l.
Proof. intros <-. apply firstn_all. Qed.

Lemma record_event_content ei mds b ec e f fs :
  builder_inv b → checkConsistency ei mds b = true →
  eventConfigs (cfg_ b) !! Z.to_nat ei = Some ec → perEventData_ b !! Z.to_nat ei = Some e →
  ec_enabled ec = true → length mds = length (moduleConfigs ec) →
  omap id (zip_with stamp_of (moduleConfigs ec) mds) = f :: fs →
  ∃ b' e', record_event ei mds b = Return b'
    ∧ perEventData_ b' = <[Z.to_nat ei := e']> (perEventData_ b)
    ∧ ev_allTimestamps e' = ev_allTimestamps e ++ f :: fs
    ∧ ∀ i mc md slot, moduleConfigs ec !! i = Some mc → mds !! i = Some md → ev_modules e !! i = Some slot →
        ev_modules e' !! i = Some (slot_with mc md (Some (default f (stamp_of mc md))) slot).
Proof.
  intros Hb Hc Hec He Hen Hl Hf. destruct (Forall2_lookup_lr _ _ _ _ _ _ Hb Hec He) as [Hlm _].
  unfold record_event. rewrite Hc, Hec, He, Hen. cbn [negb].
  unfold record_incoming, record_module_data. rewrite <- Hl, Hlm, <- Hl, Nat.eqb_refl. cbn [negb].
  rewrite (recorded_unstamped _ _ _ f); [|lia|lia|rewrite Hf; left].
  unfold finish_recording. cbn [ev_modules set_modules].
  destruct (recorded_offsets (moduleConfigs ec) mds (ev_modules e)) as (H1 & H2 & H3); [lia..|].
  assert (Hrl : length (record_modules (moduleConfigs ec) mds (ev_modules e)) = length mds).
  { unfold apply_offsets in H1. rewrite length_app, length_zip_with, length_drop in H1. lia. }
  rewrite Hrl, <- Hl, Nat.ltb_irrefl. cbn [orb].
  rewrite (take_length_eq _ (moduleConfigs ec)) by done. rewrite !take_length_eq by done.
  rewrite H2, Hf. cbn [mbind outcome_bind head].
  eexists _, _. split_and!; [reflexivity|done|done|]. cbn [ev_modules].
  rewrite drop_ge by lia. rewrite app_nil_r. intros. by apply H3.
Qed.

Lemma reachable_inv cfg b0 ops b :
  make_builder cfg = Return b0 → Forall (op_fits cfg) ops → run_ops ops b0 = Some (Return b) →
  builder_inv b ∧ cfg_ b = cfg.
Proof.
  intros [Hb Hcfg]%make_builder_ok Hops Hrun. rewrite <- Hcfg in Hops.
  destruct (run_ops_ok ops b0 Hb Hops) as (b' & Hrun' & Hb' & Hcfg'). simplify_eq. by split.
Qed.

Lemma consistent_event ei mds b :
  0 ≤ ei → builder_inv b → forallb size_consistency_check mds = true →
  (Z.to_nat ei < length (eventConfigs (cfg_ b)))%nat → checkConsistency ei mds b = true.
Proof.
  intros H0 Hb Hmds Hlt. pose proof (Forall2_length _ _ _ Hb) as Hl. unfold checkConsistency, zlen.
  rewrite Hmds, Hl, Nat.eqb_refl.
  destruct (Z.leb_spec 0 ei), (Z.ltb_spec ei (Z.of_nat (length (perEventData_ b)))); try lia; done.
Qed.

(** ** The properties *)

(** An event with two modules whose data ends in a 30 bit timestamp. *)
Definition example_extractor : list Z → option Z :=
  match make_filter "11DD DDDD DDDD DDDD DDDD DDDD DDDD DDDD" (-1) with
  | Return f => filter_extractor f (Ascii.ascii_of_nat 68)
  | _ => λ _, None
  end.

Definition example_module (offset : Z) : ModuleConfig :=
  mkModuleConfig example_extractor offset 10 false true 0.

Definition example_config : EventBuilderConfig :=
  mkBuilderConfig [mkEventConfig [example_module 0; example_module 1000] true] 0.

Definition example_data (words : list Z) : ModuleData :=
  mkModuleData words (zlen words) 0 (zlen words) 0 true.

Definition stamp_word (ts : Z) : Z := 0xC0000000 .| ts.

Definition example_event (ts0 ts1 : Z) : op :=
  OpRecord 0 [example_data [7; stamp_word ts0]; example_data [stamp_word ts1]].

Definition builder_of (cfg : EventBuilderConfig) : Builder :=
  match make_builder cfg with Return b => b | _ => mkBuilder cfg [] [] [] [] [] end.

(** The state after a sequence of operations. *)
Definition after (ops : list op) (b : Builder) : Builder :=
  match run_ops ops b with Some (Return b') => b' | _ => b end.

Lemma after_reached cfg b ops :
  make_builder cfg = Return b → Forall (op_fits cfg) ops → run_ops ops b = Some (Return (after ops b)).
Proof.
  intros [Hb Hcfg]%make_builder_ok Hops. rewrite <- Hcfg in Hops.
  destruct (run_ops_ok ops b Hb Hops) as (b' & Hrun & _). unfold after. by rewrite Hrun.
Qed.

(** C27: The event builder accounts for every recorded entry.  From a newly made
    builder, any sequence of recordings, flushes (forced or not) and system events in
    which no event has more modules than configured runs to the end: every loop of
    [flush] ends, nothing is accessed out of range and nothing throws.  Afterwards, for
    every module of every event and modulo 2^64, the number of inputs is the number of
    outputs plus the discards for age, the events dropped for lack of a stamp and the
    entries still queued.  The counter of queued events exceeds the queue by two for
    every event dropped for lack of a stamp. *)
Theorem builder_conservation cfg b ops :
  make_builder cfg = Return b → Forall (op_fits cfg) ops →
  ∃ b', run_ops ops b = Some (Return b') ∧ Forall2 event_inv (eventConfigs cfg) (perEventData_ b').
Proof.
  intros [Hb Hcfg]%make_builder_ok Hops. rewrite <- Hcfg in Hops.
  destruct (run_ops_ok ops b Hb Hops) as (b' & Hrun & Hb' & Hcfg'). exists b'. split; [done|].
  unfold builder_inv in Hb'. by rewrite Hcfg', Hcfg in Hb'.
Qed.

Definition example_ops : list op :=
  [example_event 2000 1000; OpRecord 0 [example_data [stamp_word 3000]; example_data []];
   OpSystem [1]; OpRecord 0 [example_data [5]; example_data [5]]; example_event 9000 8000;
   OpFlush false; OpFlush true].

Lemma example_ops_fit : Forall (op_fits example_config) example_ops.
Proof. repeat constructor; intros ec [= <-]; cbn; lia. Qed.

Lemma builder_conservation_witness :
  ∃ b', run_ops example_ops (builder_of example_config) = Some (Return b')
    ∧ Forall2 event_inv (eventConfigs example_config) (perEventData_ b').
Proof. apply (builder_conservation example_config); [reflexivity|exact example_ops_fit]. Defined.

(** A recorded event keeps its modules together.  If an event with as many modules
    as configured has at least one timestamp, every module queue gets exactly one new
    entry at its end: the incoming data, with the stamp found in it moved by the
    configured offset, or, for a module without stamp, with the first stamp of the
    event.  All stamps found are added to the list of reference stamps. *)
Theorem record_event_spec cfg b0 ops b ei mds ec e f fs :
  make_builder cfg = Return b0 → Forall (op_fits cfg) ops → run_ops ops b0 = Some (Return b) →
  0 ≤ ei → forallb size_consistency_check mds = true →
  eventConfigs cfg !! Z.to_nat ei = Some ec → perEventData_ b !! Z.to_nat ei = Some e →
  ec_enabled ec = true → length mds = length (moduleConfigs ec) →
  omap id (zip_with stamp_of (moduleConfigs ec) mds) = f :: fs →
  ∃ b' e', record_event ei mds b = Return b'
    ∧ perEventData_ b' = <[Z.to_nat ei := e']> (perEventData_ b)
    ∧ ev_allTimestamps e' = ev_allTimestamps e ++ f :: fs
    ∧ ∀ i mc md slot, moduleConfigs ec !! i = Some mc → mds !! i = Some md → ev_modules e !! i = Some slot →
        ∃ slot', ev_modules e' !! i = Some slot'
          ∧ slot_queue slot' = slot_queue slot ++ [storage_of md (Some (default f (stamp_of mc md)))].
Proof.
  intros Hmake Hops Hrun H0 Hmds Hec He Hen Hl Hf.
  destruct (reachable_inv _ _ _ _ Hmake Hops Hrun) as [Hb Hcfg]. rewrite <- Hcfg in Hec.
  pose proof (consistent_event ei mds b H0 Hb Hmds (lookup_lt_Some _ _ _ Hec)) as Hc.
  destruct (record_event_content ei mds b ec e f fs Hb Hc Hec He Hen Hl Hf) as (b' & e' & H1 & H2 & H3 & H4).
  exists b', e'. split_and!; [done|done|done|]. intros. eexists. split; [by apply H4|done].
Qed.

Definition example_state : Builder := after (take 3 example_ops) (builder_of example_config).
Definition example_event_config : EventConfig := mkEventConfig [example_module 0; example_module 1000] true.
Definition example_slot : EventSlot :=
  match perEventData_ example_state with e :: _ => e | [] => new_event example_event_config end.

Lemma example_ops3_fit : Forall (op_fits example_config) (take 3 example_ops).
Proof. repeat constructor; intros ec [= <-]; cbn; lia. Qed.

Lemma example_reached :
  run_ops (take 3 example_ops) (builder_of example_config) = Some (Return example_state).
Proof. apply (after_reached example_config); [reflexivity|exact example_ops3_fit]. Qed.

Lemma example_slot_lookup : perEventData_ example_state !! 0%nat = Some example_slot.
Proof. vm_compute. reflexivity. Qed.

Lemma record_event_spec_witness :
  ∃ b' e', record_event 0 [example_data []; example_data [stamp_word 5000]] example_state = Return b'
    ∧ perEventData_ b' = <[0%nat := e']> (perEventData_ example_state)
    ∧ ev_allTimestamps e' = [2000; 2000; 3000] ++ [6000].
Proof.
  destruct (record_event_spec example_config (builder_of example_config) (take 3 example_ops) example_state 0
    [example_data []; example_data [stamp_word 5000]] example_event_config example_slot 6000 [])
    as (b' & e' & H1 & H2 & H3 & _);
    [reflexivity|exact example_ops3_fit|exact example_reached|lia|reflexivity|reflexivity
    |exact example_slot_lookup|reflexivity|reflexivity|vm_compute; reflexivity|].
  exists b', e'. split_and!; [exact H1|exact H2|exact H3].
Defined.

(** What one flush of an event does.  In every reachable state [tryFlush] either
    changes nothing or the newest stamp of every module with data lies behind the match
    window of the oldest reference stamp; then each module queue is split into entries
    that are too old, which are discarded, at most one entry in the window, which is
    taken, and the rest, which stays, in this order.  If no entry is taken the front of
    the rest is too new.  The reference stamp is removed wherever it is at the front of
    the list.  The callback gets the data of the taken entries, unless there are none;
    the entry of a module without data is not valid data but a default or an entry of an
    earlier event. *)
Theorem try_flush_spec cfg b0 ops b ei :
  make_builder cfg = Return b0 → Forall (op_fits cfg) ops → run_ops ops b0 = Some (Return b) →
  tryFlush ei b = Return (false, b)
  ∨ ∃ b' ec e e' refTs outs, tryFlush ei b = Return (true, b') ∧ flush_step ei b b' ec e e' refTs outs.
Proof.
  intros Hmake Hops Hrun. apply try_flush_cases. by destruct (reachable_inv _ _ _ _ Hmake Hops Hrun).
Qed.

Lemma example_flushes : match tryFlush 0 example_state with Return (r, _) => r | _ => false end = true.
Proof. vm_compute. reflexivity. Qed.

Lemma try_flush_spec_witness :
  ∃ b' ec e e' outs, tryFlush 0 example_state = Return (true, b')
    ∧ flush_step 0 example_state b' ec e e' 2000 outs.
Proof.
  destruct (try_flush_spec example_config (builder_of example_config) (take 3 example_ops) example_state 0)
    as [H|(b' & ec & e & e' & refTs & outs & H1 & H2)];
    [reflexivity|exact example_ops3_fit|exact example_reached|by pose proof example_flushes as Hf; rewrite H in Hf|].
  exists b', ec, e, e', outs. split; [exact H1|].
  assert (Hr : refTs = 2000).
  { destruct H2 as [_ He Href _ _ _ _ _ _ _]. change (Z.to_nat 0) with 0%nat in He.
    rewrite example_slot_lookup in He. injection He as <-. vm_compute in Href. by injection Href as <-. }
  by rewrite <- Hr.
Defined.

(** A forced flush of an event outputs everything.  It ends after as many rounds
    as the longest module queue has entries, reports this number (modulo 2^64), calls
    the callback once per round with the [i]-th entry of every module, a default entry
    where a queue is shorter, and leaves all queues of the event empty; the other
    events are not touched. *)
Theorem force_flush_all cfg b0 ops b ei ec e :
  make_builder cfg = Return b0 → Forall (op_fits cfg) ops → run_ops ops b0 = Some (Return b) →
  eventConfigs cfg !! ei = Some ec → perEventData_ b !! ei = Some e →
  ∃ n b' slots', forceFlush ei b = Some (Return (n, b'))
    ∧ n ≡64 Z.of_nat (max_queue (ev_modules e))
    ∧ outputs b' = outputs b
        ++ (forced_event (outputCrateIndex cfg) (Z.of_nat ei) (ev_modules e)
            <$> seq 0 (max_queue (ev_modules e)))
    ∧ perEventData_ b' = <[ei := set_modules slots' e]> (perEventData_ b)
    ∧ Forall (λ slot, slot_queue slot = []) slots'.
Proof.
  intros Hmake Hops Hrun Hec He. destruct (reachable_inv _ _ _ _ Hmake Hops Hrun) as [Hb Hcfg].
  rewrite <- Hcfg in Hec. destruct (force_flush_ok ei b ec e Hb Hec He)
    as (n & b' & slots' & H1 & _ & _ & H2 & H3 & H4 & H5). rewrite Hcfg in H4. by exists n, b', slots'.
Qed.

Lemma force_flush_all_witness :
  ∃ n b' slots', forceFlush 0 example_state = Some (Return (n, b'))
    ∧ n ≡64 2 ∧ length (outputs b') = 3%nat ∧ Forall (λ slot, slot_queue slot = []) slots'.
Proof.
  destruct (force_flush_all example_config (builder_of example_config) (take 3 example_ops) example_state 0
    example_event_config example_slot) as (n & b' & slots' & H1 & H2 & H3 & _ & H4);
    [reflexivity|exact example_ops3_fit|exact example_reached|reflexivity|exact example_slot_lookup|].
  exists n, b', slots'. split_and!; [exact H1|exact H2| |exact H4].
  rewrite H3, length_app, length_fmap, length_seq. vm_compute. reflexivity.
Defined.

(** The difference of two 30 bit timestamps is their distance on a circle, with
    sign: it is at most half the range, changes sign when the stamps are exchanged and
    is congruent to the plain difference, but modulo 2^30 - 1.  Where the plain
    difference exceeds half the range, so that the wrap-around is corrected, the result
    is off by one from the distance modulo 2^30, the period of the stamps. *)
Theorem timestamp_difference_circular ts0 ts1 :
  0 ≤ ts0 < 2 ^ 30 → 0 ≤ ts1 < 2 ^ 30 →
  let d := timestamp_difference ts0 ts1 in
  Z.abs d ≤ TimestampHalf ∧ (d - (ts0 - ts1)) mod (2 ^ 30 - 1) = 0
  ∧ timestamp_difference ts1 ts0 = - d
  ∧ (TimestampHalf < Z.abs (ts0 - ts1) →
     ∃ d', Z.abs d' ≤ 2 ^ 29 ∧ (d' - (ts0 - ts1)) mod 2 ^ 30 = 0 ∧ Z.abs (d - d') = 1).
Proof.
  intros H0 H1. change (2 ^ 30) with 1073741824 in *. cbv zeta. unfold timestamp_difference.
  change TimestampHalf with 536870911. change TimestampMax with 1073741823. change (2 ^ 29) with 536870912.
  destruct (Z.gtb_spec (Z.abs (ts0 - ts1)) 536870911), (Z.gtb_spec (Z.abs (ts1 - ts0)) 536870911),
    (Z.ltb_spec (ts0 - ts1) 0), (Z.ltb_spec (ts1 - ts0) 0); try lia.
  - split_and!; [lia| |lia|]; [apply Z.mod_divide; [lia|]; exists 1; lia|].
    intros _. exists (ts0 - ts1 + 1073741824). split_and!; [lia| |lia]. apply Z.mod_divide; [lia|]. exists 1. lia.
  - split_and!; [lia| |lia|]; [apply Z.mod_divide; [lia|]; exists (-1); lia|].
    intros _. exists (ts0 - ts1 - 1073741824). split_and!; [lia| |lia]. apply Z.mod_divide; [lia|]. exists (-1). lia.
  - split_and!; [lia|by rewrite Z.sub_diag|lia|lia].
  - split_and!; [lia|by rewrite Z.sub_diag|lia|lia].
  - split_and!; [lia|by rewrite Z.sub_diag|lia|lia].
Qed.

Lemma timestamp_difference_circular_witness :
  timestamp_difference 0 0x3fffffff = 0 ∧ (timestamp_difference 0 0x3fffffff - (0 - 0x3fffffff)) mod (2 ^ 30 - 1) = 0.
Proof.
  split; [reflexivity|]. apply (timestamp_difference_circular 0 0x3fffffff); vm_compute; split; congruence.
Defined.

(** An event with more modules than configured is not only counted as failed: the
    code goes on to index the module queues with the number of incoming modules, out of
    range. *)
Theorem too_many_modules_undefined cfg b0 ops b ei mds ec :
  make_builder cfg = Return b0 → Forall (op_fits cfg) ops → run_ops ops b0 = Some (Return b) →
  0 ≤ ei → forallb size_consistency_check mds = true →
  eventConfigs cfg !! Z.to_nat ei = Some ec → (length (moduleConfigs ec) < length mds)%nat →
  record_event ei mds b = Undefined.
Proof.
  intros Hmake Hops Hrun H0 Hmds Hec Hl. destruct (reachable_inv _ _ _ _ Hmake Hops Hrun) as [Hb Hcfg].
  rewrite <- Hcfg in Hec. unfold record_event.
  rewrite (consistent_event ei mds b H0 Hb Hmds (lookup_lt_Some _ _ _ Hec)). cbn [negb].
  destruct (Forall2_lookup_l _ _ _ _ _ Hb Hec) as (e & He & Hlm & _). rewrite Hec, He.
  destruct (ec_enabled ec); cbn [negb].
  - unfold record_incoming, record_module_data. destruct (Nat.eqb_spec (length (moduleConfigs ec)) (length mds)); [lia|].
    cbn [negb]. unfold finish_recording. cbn [ev_modules].
    by destruct (Nat.ltb_spec (length (ev_modules e)) (length mds)); [|lia].
  - by destruct (Nat.ltb_spec (length (ev_modules e)) (length mds)); [|lia].
Qed.

Lemma too_many_modules_undefined_witness :
  record_event 0 [example_data [1]; example_data [1]; example_data [1]] example_state = Undefined.
Proof.
  apply (too_many_modules_undefined example_config (builder_of example_config) (take 3 example_ops) example_state
    0 _ example_event_config);
    [reflexivity|exact example_ops3_fit|exact example_reached|lia|reflexivity|reflexivity|cbn; lia].
Defined.

(** A module without data gets the data of an earlier event.  In the second of
    these events the second module has no data; the callback gets, for that module, the
    entry of the first event, whose words were freed when the storage was reused. *)
Theorem missing_module_stale :
  outputs (after [example_event 2000 1000; OpRecord 0 [example_data [stamp_word 3000]; example_data []];
                  example_event 4000 3000; OpFlush false] (builder_of example_config))
  = [EventOut 0 0 [View (example_data [7; stamp_word 2000]); View (example_data [stamp_word 1000])];
     EventOut 0 0 [View (example_data [stamp_word 3000]); Dangling (example_data [stamp_word 1000])]].
Proof. vm_compute. reflexivity. Qed.

(** An event without stamps changes the event recorded before it.  After one event
    with stamps the stamps of both modules are 2000 (the second one moved by 1000).
    Recording an event without stamps is counted as discarded, but adds the offset
    again to the entry of the first event and adds its stamps to the reference stamps a
    second time; the counter of queued events of both modules is 3 for one entry. *)
Theorem unstamped_event_shifts_previous :
  let b := after [example_event 2000 1000; OpRecord 0 [example_data [5]; example_data [5]]]
             (builder_of example_config) in
  (λ e, (ev_discardsNoStamp e, ev_allTimestamps e, (λ slot, ms_timestamp <$> slot_queue slot) <$> ev_modules e,
         (λ slot, currentEvents (slot_ctrs slot)) <$> ev_modules e)) <$> perEventData_ b
  = [(1, [2000; 2000; 2000; 3000], [[Some 2000]; [Some 3000]], [3; 3])].
Proof. vm_compute. reflexivity. Qed.
