(* ===== verification/TriggerIO.v ===== *)
(** * The trigger I/O configuration: [mvlc_trigger_io_port.h/.cc]

    The units of the four levels of the trigger I/O system, their connections and
    names.  A fixed-size array is a list; an access outside of it with [operator[]] is
    undefined, with [at] it throws.  A scoped enumeration is the integer of its
    underlying type, since the deserializer casts arbitrary register values.
    [minimize] calls a third-party library and is left out. *)

From stdpp Require Import pretty.
From S2P Require Import Prelude Constants.

(** ** Units *)

(* mvlc_trigger_io_port.h:25-25 TimerCount *)
Definition TimerCount : nat := 4.
(* mvlc_trigger_io_port.h:26-26 NIM_IO_Count *)
Definition NIM_IO_Count : nat := 14.
(* mvlc_trigger_io_port.h:27-27 ECL_OUT_Count *)
Definition ECL_OUT_Count : nat := 3.
(* mvlc_trigger_io_port.h:35-35 UnitSelectRegister *)
Definition UnitSelectRegister : Z := 0x200.
(* mvlc_trigger_io_port.h:36-36 UnitRegisterBase *)
Definition UnitRegisterBase : Z := 0x300.
(* mvlc_trigger_io_port.h:37-37 UnitConnectBase *)
Definition UnitConnectBase : Z := 0x80.

(* mvlc_trigger_io_port.h:39-56 Timer *)
Record Timer : Type := mkTimer {
  t_range : Z;
  t_delay_ns : Z;
  t_period : Z;
  t_softActivate : bool
}.

(* mvlc_trigger_io_port.h:58-71 IO *)
Record IO : Type := mkIO {
  io_delay : Z;
  io_width : Z;
  io_holdoff : Z;
  io_invert : bool;
  io_direction : Z;
  io_activate : bool
}.

(** [IO io = {}] *)
Definition zero_io : IO := mkIO 0 0 0 false 0 false.

(* mvlc_trigger_io_port.h:73-76 StackBusy *)
Record StackBusy : Type := mkStackBusy { sb_stackIndex : Z }.

Module LUT.
Definition InputBits : nat := 6. (* mvlc_trigger_io_port.h:82 *)
Definition OutputBits : nat := 3. (* mvlc_trigger_io_port.h:83 *)
Definition InputCombinations : nat := 64. (* mvlc_trigger_io_port.h:84 *)
Definition StrobeGGDefaultWidth : Z := 8. (* mvlc_trigger_io_port.h:89 *)
Definition StrobeGGInput : Z := 6. (* mvlc_trigger_io_port.h:93 *)
Definition StrobeGGIOOffset : Z := 0x32. (* mvlc_trigger_io_port.h:122 *)
End LUT.

(** A [bitset] is the number whose bits it holds. *)
(* mvlc_trigger_io_port.h:80-126 LUT *)
Record Lut : Type := mkLut {
  lutContents : list Z;
  strobedOutputs : Z;
  strobeGG : IO;
  defaultOutputNames : list string;
  outputNames : list string
}.

(** [LUT lut = {}] *)
(* mvlc_trigger_io_port.cc:38-42 LUT::LUT *)
Definition new_lut : Lut :=
  mkLut (replicate LUT.OutputBits 0) 0 (mkIO 0 LUT.StrobeGGDefaultWidth 0 false 0 false)
    (replicate LUT.OutputBits EmptyString) (replicate LUT.OutputBits EmptyString).

(* mvlc_trigger_io_port.h:137-146 StackStart *)
Record StackStart : Type := mkStackStart { ss_activate : bool; ss_stackIndex : Z; ss_delay_ns : Z }.

(* mvlc_trigger_io_port.h:148-154 MasterTrigger *)
Record MasterTrigger : Type := mkMasterTrigger { mt_activate : bool }.

(* mvlc_trigger_io_port.h:156-163 Counter *)
Record Counter : Type := mkCounter { clearOnLatch : bool; c_softActivate : bool }.

(* mvlc_trigger_io_port.h:165-194 TriggerResource *)
Record TriggerResource : Type := mkTriggerResource {
  tr_type : Z;
  tr_irqIndex : Z;
  tr_gateGenerator : IO;
  tr_triggerIndex : Z
}.

(** ** Addresses and connections *)

(* mvlc_trigger_io_port.h:204-204 UnitAddress *)
Record UnitAddress : Type := addr { a_level : Z; a_unit : Z; a_subunit : Z }.

#[global] Instance UnitAddress_eq_dec : EqDecision UnitAddress.
Proof. solve_decision. Defined.

Definition no_addr : UnitAddress := addr 0 0 0.

(* mvlc_trigger_io_port.h:211-238 UnitConnection *)
Record UnitConnection : Type := mkConnection { isDynamic : bool; isAvailable : bool; con_address : UnitAddress }.

(* mvlc_trigger_io_port.h:213-218 UnitConnection::makeDynamic *)
Definition Dynamic : UnitConnection := mkConnection true true no_addr.
(* mvlc_trigger_io_port.h:220-223 UnitConnection::UnitConnection *)
Definition static (level unit subunit : Z) : UnitConnection := mkConnection false true (addr level unit subunit).

Module Level0.
Definition TriggerResourceCount : nat := 8. (* mvlc_trigger_io_port.h:246 *)
Definition TriggerResourceOffset : Z := 4. (* mvlc_trigger_io_port.h:247 *)
Definition StackBusyCount : nat := 2. (* mvlc_trigger_io_port.h:249 *)
Definition StackBusyOffset : Z := 12. (* mvlc_trigger_io_port.h:250 *)
Definition SysClockOffset : Z := 14. (* mvlc_trigger_io_port.h:252 *)
Definition DAQStartOffset : Z := 15. (* mvlc_trigger_io_port.h:253 *)
Definition NIM_IO_Offset : Z := 16. (* mvlc_trigger_io_port.h:257 *)
Definition IRQ_Inputs_Count : nat := 6. (* mvlc_trigger_io_port.h:264 *)
Definition IRQ_Inputs_Offset : Z := 33. (* mvlc_trigger_io_port.h:265 *)
End Level0.

(* mvlc_trigger_io_port.h:289-289 LUT_DynamicInputCount *)
Definition LUT_DynamicInputCount : nat := 3.

Module Level3.
Definition StackStartCount : nat := 4. (* mvlc_trigger_io_port.h:337 *)
Definition MasterTriggersCount : nat := 4. (* mvlc_trigger_io_port.h:339 *)
Definition MasterTriggersOffset : Z := 4. (* mvlc_trigger_io_port.h:340 *)
Definition CountersCount : nat := 8. (* mvlc_trigger_io_port.h:342 *)
Definition CountersOffset : Z := 8. (* mvlc_trigger_io_port.h:343 *)
Definition UnitCount : nat := 33. (* mvlc_trigger_io_port.h:345-347 *)
Definition NIM_IO_Unit_Offset : Z := 16. (* mvlc_trigger_io_port.h:349 *)
Definition ECL_Unit_Offset : Z := 30. (* mvlc_trigger_io_port.h:350 *)
Definition CounterInputNotConnected : Z := 21. (* mvlc_trigger_io_port.h:352 *)
End Level3.

(* mvlc_trigger_io_port.h:244-287 Level0 *)
Record Lvl0 : Type := mkLvl0 {
  timers : list Timer;
  triggerResources : list TriggerResource;
  stackBusy : list StackBusy;
  l0_ioNIM : list IO;
  ioIRQ : list IO;
  l0_unitNames : list string
}.

(* mvlc_trigger_io_port.h:292-306 Level1 *)
Record Lvl1 : Type := mkLvl1 { l1_luts : list Lut; lut2Connections : list Z }.

(* mvlc_trigger_io_port.h:308-333 Level2 *)
Record Lvl2 : Type := mkLvl2 {
  l2_luts : list Lut;
  lutConnections : list (list Z);
  strobeConnections : list Z
}.

(* mvlc_trigger_io_port.h:335-373 Level3 *)
Record Lvl3 : Type := mkLvl3 {
  stackStart : list StackStart;
  masterTriggers : list MasterTrigger;
  counters : list Counter;
  l3_ioNIM : list IO;
  ioECL : list IO;
  l3_unitNames : list string;
  connections : list (list Z)
}.

(* mvlc_trigger_io_port.h:375-381 TriggerIO *)
Record TriggerIO : Type := mkTriggerIO { l0 : Lvl0; l1 : Lvl1; l2 : Lvl2; l3 : Lvl3 }.

(** ** Names *)

(* mvlc_trigger_io_port.cc:82-122 Level0::DefaultUnitNames *)
Definition L0_DefaultUnitNames : list string :=
  ["timer0"; "timer1"; "timer2"; "timer3";
   "trigger_resource0"; "trigger_resource1"; "trigger_resource2"; "trigger_resource3";
   "trigger_resource4"; "trigger_resource5"; "trigger_resource6"; "trigger_resource7";
   "stack_busy0"; "stack_busy1"; "sysclk"; "daq_start";
   "NIM0"; "NIM1"; "NIM2"; "NIM3"; "NIM4"; "NIM5"; "NIM6"; "NIM7"; "NIM8"; "NIM9"; "NIM10";
   "NIM11"; "NIM12"; "NIM13"; "<unused>"; "<unused>"; "<unused>";
   "IRQ1"; "IRQ2"; "IRQ3"; "IRQ4"; "IRQ5"; "IRQ6"]%string.

(* mvlc_trigger_io_port.cc:311-346 Level3::DefaultUnitNames *)
Definition L3_DefaultUnitNames : list string :=
  ["StackStart0"; "StackStart1"; "StackStart2"; "StackStart3";
   "MasterTrigger0"; "MasterTrigger1"; "MasterTrigger2"; "MasterTrigger3";
   "Counter0+Timestamper"; "Counter1"; "Counter2"; "Counter3"; "Counter4"; "Counter5";
   "Counter6"; "Counter7";
   "NIM0"; "NIM1"; "NIM2"; "NIM3"; "NIM4"; "NIM5"; "NIM6"; "NIM7"; "NIM8"; "NIM9"; "NIM10";
   "NIM11"; "NIM12"; "NIM13"; "LVDS0"; "LVDS1"; "LVDS2"; "<not connected>"]%string.

(** [fmt::format("{}", n)] *)
Definition fmt_int (n : Z) : string := pretty n.

(** A LUT of level [level] with its default names. *)
(* mvlc_trigger_io_port.cc:181-189 Level1::Level1 *)
Definition named_lut (level unit : Z) : Lut :=
  let names := (λ output : nat,
    ("L" +:+ fmt_int level +:+ ".LUT" +:+ fmt_int unit +:+ ".OUT" +:+ fmt_int (Z.of_nat output))%string)
    <$> seq 0 LUT.OutputBits in
  mkLut (lutContents new_lut) (strobedOutputs new_lut) (strobeGG new_lut) names names.

(** ** Default configurations *)

(* mvlc_trigger_io_port.cc:124-135 Level0::Level0 *)
Definition new_lvl0 : Lvl0 :=
  mkLvl0 (replicate TimerCount (mkTimer 0 0 0 false))
    (replicate Level0.TriggerResourceCount (mkTriggerResource 0 0 zero_io 0))
    (replicate Level0.StackBusyCount (mkStackBusy 0))
    (replicate NIM_IO_Count zero_io)
    (replicate Level0.IRQ_Inputs_Count zero_io)
    L0_DefaultUnitNames.

(* mvlc_trigger_io_port.cc:177-192 Level1::Level1 *)
Definition new_lvl1 : Lvl1 :=
  mkLvl1 ((λ unit : nat, named_lut 1 (Z.of_nat unit)) <$> seq 0 7) (replicate LUT_DynamicInputCount 0).

(* mvlc_trigger_io_port.cc:292-306 Level2::Level2 *)
Definition new_lvl2 : Lvl2 :=
  mkLvl2 ((λ unit : nat, named_lut 2 (Z.of_nat unit)) <$> seq 0 3)
    (replicate 3 (replicate LUT_DynamicInputCount 0)) (replicate 3 0).

(** The latch input of a counter is not connected. *)
(* mvlc_trigger_io_port.cc:453-475 Level3::Level3 *)
Definition new_lvl3 : Lvl3 :=
  mkLvl3 (replicate Level3.StackStartCount (mkStackStart false 0 0))
    (replicate Level3.MasterTriggersCount (mkMasterTrigger false))
    (replicate Level3.CountersCount (mkCounter false false))
    (replicate NIM_IO_Count zero_io)
    (replicate ECL_OUT_Count zero_io)
    L3_DefaultUnitNames
    (replicate 8 [0; 0] ++ replicate Level3.CountersCount [0; Level3.CounterInputNotConnected]
     ++ replicate 17 [0; 0]).

(* mvlc_trigger_io_port.h:375-381 TriggerIO *)
Definition new_trigger_io : TriggerIO := mkTriggerIO new_lvl0 new_lvl1 new_lvl2 new_lvl3.

(** ** Connection tables *)

(* mvlc_trigger_io_port.cc:143-169 Level1::StaticConnections *)
Definition L1_StaticConnections : list (list UnitConnection) :=
  [[static 0 16 0; static 0 17 0; static 0 18 0; static 0 19 0; static 0 20 0; static 0 21 0];
   [static 0 20 0; static 0 21 0; static 0 22 0; static 0 23 0; static 0 24 0; static 0 25 0];
   [Dynamic; Dynamic; Dynamic; static 0 27 0; static 0 28 0; static 0 29 0];
   [static 1 0 0; static 1 0 1; static 1 0 2; static 1 1 0; static 1 1 1; static 1 1 2];
   [static 1 1 0; static 1 1 1; static 1 1 2; static 1 2 0; static 1 2 1; static 1 2 2];
   [static 0 33 0; static 0 34 0; static 0 35 0; static 0 36 0; static 0 37 0; static 0 38 0];
   [static 1 2 0; static 1 2 1; static 1 2 2; static 1 5 0; static 1 5 1; static 1 5 2]].

(* mvlc_trigger_io_port.cc:171-175 Level1::LUT2DynamicInputChoices *)
Definition LUT2DynamicInputChoices : list (list UnitAddress) :=
  [[addr 0 24 0; addr 0 33 0]; [addr 0 25 0; addr 0 34 0]; [addr 0 26 0; addr 0 35 0]].

(* mvlc_trigger_io_port.h:310-314 Level2::LUTDynamicInputChoices *)
Record LUTDynamicInputChoices : Type := mkChoices {
  lutChoices : list (list UnitAddress);
  strobeChoices : list UnitAddress
}.

(** The units [0 .. n-1] of level 0, and the three outputs of a LUT. *)
Definition l0_units (n : Z) : list UnitAddress :=
  (λ i : nat, addr 0 (Z.of_nat i) 0) <$> seq 0 (Z.to_nat n).
Definition lut_outputs (level unit : Z) : list UnitAddress :=
  [addr level unit 0; addr level unit 1; addr level unit 2].

(** The LUT of level 1 whose outputs the inputs of a level 2 LUT can select. *)
(* mvlc_trigger_io_port.cc:215-232 make_l2_input_choices *)
Definition l2_source_lut (unit : nat) : Z := match unit with 1%nat => 3 | _ => 4 end.

(* mvlc_trigger_io_port.cc:199-273 make_l2_input_choices *)
Definition make_l2_input_choices : list LUTDynamicInputChoices :=
  (λ unit : nat,
    mkChoices
      ((λ i : nat,
         l0_units Level0.SysClockOffset ++ [addr 1 (l2_source_lut unit) (Z.of_nat i)]
         ++ [addr 0 Level0.DAQStartOffset 0] ++ lut_outputs 1 6) <$> seq 0 LUT_DynamicInputCount)
      (l0_units (Level0.SysClockOffset + 1) ++ lut_outputs 1 3 ++ lut_outputs 1 4
       ++ lut_outputs 2 0 ++ lut_outputs 2 1 ++ lut_outputs 1 6)) <$> seq 0 3.

(* mvlc_trigger_io_port.cc:289-290 Level2::DynamicInputChoices *)
Definition L2_DynamicInputChoices : list LUTDynamicInputChoices := make_l2_input_choices.

(* mvlc_trigger_io_port.cc:278-287 Level2::StaticConnections *)
Definition L2_StaticConnections : list (list UnitConnection) :=
  [[Dynamic; Dynamic; Dynamic; static 1 3 0; static 1 3 1; static 1 3 2];
   [Dynamic; Dynamic; Dynamic; static 1 4 0; static 1 4 1; static 1 4 2];
   [Dynamic; Dynamic; Dynamic; static 1 6 0; static 1 6 1; static 1 6 2]].

(* mvlc_trigger_io_port.cc:352-361 make_l3_input_choices *)
Definition Level2LUTs01 : list UnitAddress := lut_outputs 2 0 ++ lut_outputs 2 1.
(* mvlc_trigger_io_port.cc:357-361 make_l3_input_choices *)
Definition Level2LUT2 : list UnitAddress := lut_outputs 2 2.

(** The choices of StackStart and MasterTrigger units; value 20 stands for the system
    clock, which these units cannot use. *)
(* mvlc_trigger_io_port.cc:370-403 make_l3_input_choices *)
Definition start_choices : list UnitAddress :=
  l0_units 14 ++ Level2LUTs01 ++ [addr 3 (Z.of_nat Level3.UnitCount + 1) 0] ++ Level2LUT2.

(* mvlc_trigger_io_port.cc:405-436 make_l3_input_choices *)
Definition counter_choices : list UnitAddress :=
  l0_units Level0.SysClockOffset ++ Level2LUTs01 ++ [addr 0 Level0.SysClockOffset 0]
  ++ [addr 3 (Z.of_nat Level3.UnitCount) 0] ++ Level2LUT2.

(* mvlc_trigger_io_port.cc:350-447 make_l3_input_choices *)
Definition make_l3_input_choices : list (list (list UnitAddress)) :=
  replicate Level3.StackStartCount [start_choices]
  ++ replicate Level3.MasterTriggersCount [start_choices]
  ++ replicate Level3.CountersCount [counter_choices; counter_choices]
  ++ replicate (NIM_IO_Count + ECL_OUT_Count) [Level2LUTs01 ++ Level2LUT2].

(* mvlc_trigger_io_port.cc:450-451 Level3::DynamicInputChoiceLists *)
Definition L3_DynamicInputChoiceLists : list (list (list UnitAddress)) := make_l3_input_choices.

(** ** Lookups *)

(** [operator[]] and [at] *)
Definition index_ {A} (l : list A) (i : Z) : outcome A :=
  if i <? 0 then Undefined else match l !! Z.to_nat i with Some x => Return x | None => Undefined end.
Definition at_ {A} (l : list A) (i : Z) : outcome A :=
  if i <? 0 then Throw out_of_range
  else match l !! Z.to_nat i with Some x => Return x | None => Throw out_of_range end.

(* mvlc_trigger_io_port.cc:25-31 safe_at *)
Definition safe_at {A} (l : list A) (i : Z) (default_value : A) : A :=
  if i <? zlen l then default default_value (l !! Z.to_nat i) else default_value.

(* mvlc_trigger_io_port.cc:481-505 lookup_name *)
Definition lookup_name (cfg : TriggerIO) (a : UnitAddress) : outcome string :=
  if a_level a =? 0 then index_ (l0_unitNames (l0 cfg)) (a_unit a)
  else if a_level a =? 1 then
    lut ← index_ (l1_luts (l1 cfg)) (a_unit a); index_ (outputNames lut) (a_subunit a)
  else if a_level a =? 2 then
    lut ← index_ (l2_luts (l2 cfg)) (a_unit a); index_ (outputNames lut) (a_subunit a)
  else if a_level a =? 3 then index_ (l3_unitNames (l3 cfg)) (a_unit a)
  else Return EmptyString.

(* mvlc_trigger_io_port.cc:507-543 lookup_default_name *)
Definition lookup_default_name (cfg : TriggerIO) (a : UnitAddress) : string :=
  let of_luts (luts : list Lut) :=
    default EmptyString (lut ← luts !! Z.to_nat (a_unit a); defaultOutputNames lut !! Z.to_nat (a_subunit a)) in
  if a_level a =? 0 then default EmptyString (L0_DefaultUnitNames !! Z.to_nat (a_unit a))
  else if a_level a =? 1 then of_luts (l1_luts (l1 cfg))
  else if a_level a =? 2 then of_luts (l2_luts (l2 cfg))
  else if a_level a =? 3 then default EmptyString (L3_DefaultUnitNames !! Z.to_nat (a_unit a))
  else EmptyString.

(* mvlc_trigger_io_port.cc:552-566 reset_names *)
Definition reset_lut_names (lut : Lut) : Lut :=
  mkLut (lutContents lut) (strobedOutputs lut) (strobeGG lut) (defaultOutputNames lut) (defaultOutputNames lut).

(* mvlc_trigger_io_port.cc:545-574 reset_names *)
Definition reset_names (cfg : TriggerIO) : TriggerIO :=
  mkTriggerIO
    (mkLvl0 (timers (l0 cfg)) (triggerResources (l0 cfg)) (stackBusy (l0 cfg)) (l0_ioNIM (l0 cfg))
       (ioIRQ (l0 cfg)) L0_DefaultUnitNames)
    (mkLvl1 (reset_lut_names <$> l1_luts (l1 cfg)) (lut2Connections (l1 cfg)))
    (mkLvl2 (reset_lut_names <$> l2_luts (l2 cfg)) (lutConnections (l2 cfg)) (strobeConnections (l2 cfg)))
    (mkLvl3 (stackStart (l3 cfg)) (masterTriggers (l3 cfg)) (counters (l3 cfg)) (l3_ioNIM (l3 cfg))
       (ioECL (l3 cfg)) L3_DefaultUnitNames (connections (l3 cfg))).

(** Level 0 falls through to level 1. *)
(* mvlc_trigger_io_port.cc:576-596 get_connection_value *)
Definition get_connection_value (cfg : TriggerIO) (a : UnitAddress) : Z :=
  if (a_level a =? 0) || (a_level a =? 1) then
    if a_unit a =? 2 then safe_at (lut2Connections (l1 cfg)) (a_subunit a) 0 else 0
  else if a_level a =? 2 then
    if a_subunit a =? LUT.StrobeGGInput then safe_at (strobeConnections (l2 cfg)) (a_unit a) 0
    else safe_at (safe_at (lutConnections (l2 cfg)) (a_unit a) [0; 0; 0]) (a_subunit a) 0
  else if a_level a =? 3 then
    safe_at (safe_at (connections (l3 cfg)) (a_unit a) []) (a_subunit a) 0
  else 0.

(* mvlc_trigger_io_port.cc:598-636 get_connection_unit_address *)
Definition get_connection_unit_address (cfg : TriggerIO) (a : UnitAddress) : outcome UnitAddress :=
  let conValue := get_connection_value cfg a in
  if (a_level a =? 0) || (a_level a =? 1) then
    if (a_unit a =? 2) && (a_subunit a <? Z.of_nat LUT_DynamicInputCount) then
      choices ← at_ LUT2DynamicInputChoices (a_subunit a);
      Return (safe_at choices conValue no_addr)
    else Return no_addr
  else if a_level a =? 2 then
    let tmp := safe_at L2_DynamicInputChoices (a_unit a) (mkChoices [] []) in
    if a_subunit a =? LUT.StrobeGGInput then Return (safe_at (strobeChoices tmp) conValue no_addr)
    else if a_subunit a <? zlen (lutChoices tmp) then
      choices ← index_ (lutChoices tmp) (a_subunit a);
      Return (safe_at choices conValue no_addr)
    else if (a_subunit a <? Z.of_nat LUT.InputBits) && (a_unit a <? zlen L2_StaticConnections) then
      cons ← at_ L2_StaticConnections (a_unit a);
      c ← at_ cons (a_subunit a);
      Return (con_address c)
    else Return no_addr
  else if a_level a =? 3 then
    unitChoices ← at_ L3_DynamicInputChoiceLists (a_unit a);
    choices ← at_ unitChoices (a_subunit a);
    at_ choices conValue
  else Return no_addr.

(** [catch (const std::out_of_range &)]: no possibilities. *)
Definition or_empty {A} (r : outcome (list A)) : outcome (list A) :=
  match r with Throw out_of_range => Return [] | _ => r end.

(* mvlc_trigger_io_port.cc:638-679 get_connection_possibilities *)
Definition get_connection_possibilities (a : UnitAddress) : outcome (list UnitAddress) :=
  or_empty (
    if a_level a =? 0 then Return []
    else if a_level a =? 1 then
      if a_unit a =? 2 then at_ LUT2DynamicInputChoices (a_subunit a) else Return []
    else if a_level a =? 2 then
      choices ← at_ L2_DynamicInputChoices (a_unit a);
      if a_subunit a <? Z.of_nat LUT.InputBits then at_ (lutChoices choices) (a_subunit a)
      else if a_subunit a =? LUT.StrobeGGInput then Return (strobeChoices choices)
      else Return []
    else if a_level a =? 3 then
      unitChoices ← at_ L3_DynamicInputChoiceLists (a_unit a);
      at_ unitChoices (a_subunit a)
    else Return []).

(** ** The memory layout of a LUT *)

(** [LUT_RAM]: 16 words of four 4-bit cells *)
(* mvlc_trigger_io_port.h:415-425 lookup *)
Definition lookup_ram (lut : list Z) (address : Z) : outcome Z :=
  if address >? 63 then Throw out_of_range
  else
    let cell := address ≫ 2 in
    let nibble := address .& 3 in
    let shift := nibble * 4 in
    w ← index_ lut cell;
    Return ((w ≫ shift) .& 0xf).

(* mvlc_trigger_io_port.h:428-443 set *)
Definition set_ram (lut : list Z) (address value : Z) : outcome (list Z) :=
  if address >? 63 then Throw out_of_range
  else if value >? 7 then Throw out_of_range
  else
    let cell := address ≫ 2 in
    let nibble := address .& 3 in
    let shift := nibble * 4 in
    let clearNibbleMask := u16 (Z.lnot (0xf ≪ shift)) in
    w ← index_ lut cell;
    Return (<[Z.to_nat cell := u16 ((w .& clearNibbleMask) .| ((value .& 0xf) ≪ shift))]> lut).
