(* ===== verification/TriggerIOScript.v ===== *)
(** * Reading and writing trigger I/O configurations

    [mvlc_trigger_io_serialize.h/.cc] turns a configuration into register writes,
    grouped by unit; [mvlc_trigger_io_deserialize.cc] collects register writes per level
    and unit and fills a configuration from them; the command builder visitor and parser
    are in [mvlc_trigger_io_serialize_mvlcscript.cc].

    Names and soft activate flags travel in a YAML block that a third-party library
    reads and writes; the model is the case of an empty block, which leaves the
    configuration as it is. *)

From S2P Require Import Prelude Constants Commands TriggerIO.

(** ** Register writes *)

(* mvlc_trigger_io_serialize.h:30-69 RegisterWrite *)
Record RegisterWrite : Type := mkWrite {
  rw_address : Z;
  rw_value : Z;
  rw_comment : string;
  rw_options : Z
}.

(* mvlc_trigger_io_serialize.h:34-34 RegisterWrite::Opt_HexValue *)
Definition Opt_HexValue : Z := 1.
(* mvlc_trigger_io_serialize.h:38-38 RegisterWrite::Opt_BinValue *)
Definition Opt_BinValue : Z := 2.

(* mvlc_trigger_io_serialize.h:72-72 BasicPart *)
Inductive BasicPart : Type :=
| PWrite (w : RegisterWrite)
| PComment (s : string).

(* mvlc_trigger_io_serialize.h:78-89 UnitBlock *)
Record UnitBlock : Type := mkBlock { ub_comment : string; ub_parts : list BasicPart }.

(* mvlc_trigger_io_serialize.h:92-92 ScriptPart *)
Inductive ScriptPart : Type :=
| SWrite (w : RegisterWrite)
| SComment (s : string)
| SBlock (ub : UnitBlock).

(* mvlc_trigger_io_serialize.cc:16-28 select_unit *)
Definition select_unit (level unit : Z) : BasicPart :=
  PWrite (mkWrite 0x200 (u16 ((level ≪ 8) .| unit))
            ("select L" +:+ fmt_int level +:+ ".Unit" +:+ fmt_int unit)%string Opt_HexValue).

(* mvlc_trigger_io_serialize.cc:31-36 write_unit_reg *)
Definition write_unit_reg (reg value : Z) (comment : string) (writeOpts : Z) : BasicPart :=
  PWrite (mkWrite (u16 (UnitRegisterBase + reg)) (u16 value) comment writeOpts).

(* mvlc_trigger_io_serialize.cc:39-49 write_connection *)
Definition write_connection (offset value : Z) (sourceName : string) : BasicPart :=
  PWrite (mkWrite (u16 (0x380 + offset)) (u16 value)
    (if bool_decide (sourceName = EmptyString)
     then ("input" +:+ fmt_int (offset / 2) +:+ " connection choice")%string
     else ("connect input" +:+ fmt_int (offset / 2) +:+ " to '" +:+ sourceName +:+ "'")%string) 0).

(* mvlc_trigger_io_serialize.cc:51-59 write_strobe_connection *)
Definition write_strobe_connection (offset value : Z) (sourceName : string) : BasicPart :=
  PWrite (mkWrite (u16 (0x380 + offset)) (u16 value)
    (if bool_decide (sourceName = EmptyString) then EmptyString
     else ("connect strobe_input to '" +:+ sourceName +:+ "'")%string) 0).

(** ** Units *)

Local Open Scope string_scope.
Local Open Scope list_scope.

(* mvlc_trigger_io_serialize.cc:61-70 generate *)
Definition generate_timer (unit : Timer) : list BasicPart :=
  [write_unit_reg 2 (t_range unit) "range (0:ns, 1:us, 2:ms, 3:s)" 0;
   write_unit_reg 4 (t_delay_ns unit) "delay [ns]" 0;
   write_unit_reg 6 (t_period unit) "period [in range units]" 0].

(* mvlc_trigger_io_serialize_util.h:16-26 io_flags *)
Record io_flags : Type := mkFlags { HasDirection : bool; HasActivation : bool }.
Definition no_flags : io_flags := mkFlags false false.
Definition NIM_IO_Flags : io_flags := mkFlags true true.
Definition ECL_IO_Flags : io_flags := mkFlags false true.

(* mvlc_trigger_io_serialize.cc:79-96 generate *)
Definition generate_io (io : IO) (ioFlags : io_flags) (offset : Z) : list BasicPart :=
  [write_unit_reg (offset + 0) (io_delay io) "delay [ns]" 0;
   write_unit_reg (offset + 2) (io_width io) "width [ns]" 0;
   write_unit_reg (offset + 4) (io_holdoff io) "holdoff [ns]" 0;
   write_unit_reg (offset + 6) (Z.b2z (io_invert io)) "invert (start on trailing edge of input)" 0]
  ++ (if HasDirection ioFlags
      then [write_unit_reg (offset + 10) (io_direction io) "direction (0:in, 1:out)" 0] else [])
  ++ (if HasActivation ioFlags
      then [write_unit_reg (offset + 16) (Z.b2z (io_activate io)) "output activate" 0] else []).

(* mvlc_trigger_io_serialize.cc:108-116 generate *)
Definition sync_comment (p : BasicPart) : BasicPart :=
  match p with
  | PWrite w => PWrite (mkWrite (rw_address w) (rw_value w) ("SyncTrigger: " +:+ rw_comment w) (rw_options w))
  | PComment s => PComment s
  end.

(* mvlc_trigger_io_serialize.cc:98-124 generate *)
Definition generate_trigger_resource (unit : TriggerResource) : list BasicPart :=
  [write_unit_reg 0x80 (tr_type unit) "type: 0=IRQ, 1=SoftTrigger, 2=SyncTrigger" 0;
   write_unit_reg 0 (tr_irqIndex unit) "IRQ: zero-based index: 0=IRQ1, .., 6=IRQ7" 0]
  ++ (sync_comment <$> generate_io (tr_gateGenerator unit) no_flags 6)
  ++ [write_unit_reg 0x82 (tr_triggerIndex unit) "SyncTrigger number (0..3)" 0].

(* mvlc_trigger_io_serialize.cc:126-133 generate *)
Definition generate_stack_busy (unit : StackBusy) : list BasicPart :=
  [write_unit_reg 0 (sb_stackIndex unit) "stack_index" 0].

(** The three output bits of one input combination. *)
(* mvlc_trigger_io_serialize.cc:141-152 make_lut_ram *)
Definition ram_value (lut : Lut) (address : nat) : Z :=
  foldl (λ v p, if Z.testbit p.2 (Z.of_nat address) then v .| (1 ≪ p.1) else v) 0
    (imap (λ i bits, (Z.of_nat i, bits)) (lutContents lut)).

(* mvlc_trigger_io_serialize.cc:135-158 make_lut_ram *)
Fixpoint make_lut_ram_from (lut : Lut) (addresses : list nat) (ram : list Z) : outcome (list Z) :=
  match addresses with
  | [] => Return ram
  | address :: rest =>
      ram1 ← set_ram ram (Z.of_nat address) (ram_value lut address);
      make_lut_ram_from lut rest ram1
  end.

(* mvlc_trigger_io_serialize.cc:135-158 make_lut_ram *)
Definition make_lut_ram (lut : Lut) : outcome (list Z) :=
  make_lut_ram_from lut (seq 0 LUT.InputCombinations) (replicate 16 0).

(* mvlc_trigger_io_serialize.cc:160-173 write_lut_ram *)
Definition write_lut_ram (ram : list Z) : list BasicPart :=
  imap (λ i value,
    let reg := u16 (Z.of_nat i * 2) in
    let cell := u16 (reg * 2) in
    write_unit_reg reg value ("cells " +:+ fmt_int cell +:+ "-" +:+ fmt_int (cell + 3)) Opt_HexValue) ram.

(* mvlc_trigger_io_serialize.cc:175-178 write_lut *)
Definition write_lut (lut : Lut) : outcome (list BasicPart) :=
  ram ← make_lut_ram lut; Return (write_lut_ram ram).

(* mvlc_trigger_io_serialize.cc:180-189 generate *)
Definition generate_stack_start (unit : TriggerIO.StackStart) : list BasicPart :=
  [write_unit_reg 0 (Z.b2z (ss_activate unit)) "activate" 0;
   write_unit_reg 2 (ss_stackIndex unit) "stack index" 0;
   write_unit_reg 4 (ss_delay_ns unit) "delay [ns]" 0].

(* mvlc_trigger_io_serialize.cc:191-198 generate *)
Definition generate_master_trigger (unit : MasterTrigger) : list BasicPart :=
  [write_unit_reg 0 (Z.b2z (mt_activate unit)) "activate" 0].

(* mvlc_trigger_io_serialize.cc:200-207 generate *)
Definition generate_counter (unit : Counter) : list BasicPart :=
  [write_unit_reg 14 (Z.b2z (clearOnLatch unit)) "clear on latch" 0].

(** ** The whole configuration *)

(** A loop over an indexed range that appends one part per element. *)
Fixpoint for_indexed {A B} (f : nat → A → outcome B) (i : nat) (l : list A) : outcome (list B) :=
  match l with
  | [] => Return []
  | x :: rest => y ← f i x; ys ← for_indexed f (S i) rest; Return (y :: ys)
  end.

(* mvlc_trigger_io_serialize.cc:271-276 generate_trigger_io_parts *)
Definition connect (cfg : TriggerIO) (choices : list UnitAddress) (offset conValue : Z) : outcome BasicPart :=
  conAddress ← index_ choices conValue;
  name ← lookup_name cfg conAddress;
  Return (write_connection offset conValue name).

(** The first three inputs of a LUT. *)
(* mvlc_trigger_io_serialize.cc:269-276 generate_trigger_io_parts *)
Definition connect_inputs (cfg : TriggerIO) (choices : list (list UnitAddress)) (conValues : list Z)
  : outcome (list BasicPart) :=
  for_indexed (λ i (input : nat),
    inputChoices ← index_ choices (Z.of_nat input);
    conValue ← index_ conValues (Z.of_nat input);
    connect cfg inputChoices (Z.of_nat input * 2) conValue) 0 (seq 0 LUT_DynamicInputCount).

(** A block for unit [unit] of a level whose comment is a default name. *)
(* mvlc_trigger_io_serialize.cc:221-226 generate_trigger_io_parts *)
Definition unit_block (names : list string) (level unit : Z) (parts : list BasicPart) : outcome ScriptPart :=
  comment ← index_ names unit;
  Return (SBlock (mkBlock comment (select_unit level unit :: parts))).

(* mvlc_trigger_io_serialize.cc:217-260 generate_trigger_io_parts *)
Definition generate_level0 (cfg : TriggerIO) : outcome (list ScriptPart) :=
  let block i parts := unit_block L0_DefaultUnitNames 0 i parts in
  a ← for_indexed (λ i u, block (Z.of_nat i) (generate_timer u)) 0 (timers (l0 cfg));
  b ← for_indexed (λ i u, block (Z.of_nat i + Level0.TriggerResourceOffset) (generate_trigger_resource u))
        0 (triggerResources (l0 cfg));
  c ← for_indexed (λ i u, block (Z.of_nat i + Level0.StackBusyOffset) (generate_stack_busy u))
        0 (stackBusy (l0 cfg));
  d ← for_indexed (λ i u, block (Z.of_nat i + Level0.NIM_IO_Offset) (generate_io u NIM_IO_Flags 0))
        0 (l0_ioNIM (l0 cfg));
  e ← for_indexed (λ i u, block (Z.of_nat i + Level0.IRQ_Inputs_Offset) (generate_io u no_flags 0))
        0 (ioIRQ (l0 cfg));
  Return (a ++ b ++ c ++ d ++ e).

(* mvlc_trigger_io_serialize.cc:268-294 generate_trigger_io_parts *)
Definition generate_level1 (cfg : TriggerIO) : outcome (list ScriptPart) :=
  for_indexed (λ i lut,
    ram ← write_lut lut;
    cons ← (if (i =? 2)%nat then connect_inputs cfg LUT2DynamicInputChoices (lut2Connections (l1 cfg))
            else Return []);
    Return (SBlock (mkBlock ("L1.LUT" +:+ fmt_int (Z.of_nat i))
      (select_unit 1 (Z.of_nat i) :: ram ++ cons)))) 0 (l1_luts (l1 cfg)).

(* mvlc_trigger_io_serialize.cc:302-338 generate_trigger_io_parts *)
Definition generate_level2 (cfg : TriggerIO) : outcome (list ScriptPart) :=
  for_indexed (λ i lut,
    ram ← write_lut lut;
    choices ← index_ L2_DynamicInputChoices (Z.of_nat i);
    conValues ← index_ (lutConnections (l2 cfg)) (Z.of_nat i);
    cons ← connect_inputs cfg (lutChoices choices) conValues;
    conValue ← index_ (strobeConnections (l2 cfg)) (Z.of_nat i);
    conAddress ← index_ (strobeChoices choices) conValue;
    name ← lookup_name cfg conAddress;
    Return (SBlock (mkBlock ("L2.LUT" +:+ fmt_int (Z.of_nat i))
      (select_unit 2 (Z.of_nat i) :: ram
       ++ [write_unit_reg 0x20 (strobedOutputs lut) "strobed_outputs (3 bit mask)" Opt_BinValue]
       ++ cons
       ++ [PComment ("L2.LUT" +:+ fmt_int (Z.of_nat i) +:+ " strobe gate generator")]
       ++ generate_io (strobeGG lut) no_flags LUT.StrobeGGIOOffset
       ++ [write_strobe_connection 6 conValue name])))) 0 (l2_luts (l2 cfg)).

(** The connection of input [input] of a level 3 unit. *)
(* mvlc_trigger_io_serialize.cc:355-358 generate_trigger_io_parts *)
Definition connect_l3 (cfg : TriggerIO) (unit input : Z) : outcome BasicPart :=
  cons ← index_ (connections (l3 cfg)) unit;
  conValue ← index_ cons input;
  unitChoices ← index_ L3_DynamicInputChoiceLists unit;
  choices ← index_ unitChoices input;
  connect cfg choices (input * 2) conValue.

(* mvlc_trigger_io_serialize.cc:346-430 generate_trigger_io_parts *)
Definition generate_level3 (cfg : TriggerIO) : outcome (list ScriptPart) :=
  let block i parts := c ← connect_l3 cfg i 0; unit_block L3_DefaultUnitNames 3 i (parts ++ [c]) in
  a ← for_indexed (λ i u, block (Z.of_nat i) (generate_stack_start u)) 0 (stackStart (l3 cfg));
  b ← for_indexed (λ i u, block (Z.of_nat i + Level3.MasterTriggersOffset) (generate_master_trigger u))
        0 (masterTriggers (l3 cfg));
  c ← for_indexed (λ i u,
        let unitIndex := Z.of_nat i + Level3.CountersOffset in
        c0 ← connect_l3 cfg unitIndex 0;
        c1 ← connect_l3 cfg unitIndex 1;
        unit_block L3_DefaultUnitNames 3 unitIndex (generate_counter u ++ [c0; c1])) 0 (counters (l3 cfg));
  d ← for_indexed (λ i (_ : nat), block (Z.of_nat i + Level3.NIM_IO_Unit_Offset) []) 0 (seq 0 NIM_IO_Count);
  e ← for_indexed (λ i u, block (Z.of_nat i + Level3.ECL_Unit_Offset) (generate_io u ECL_IO_Flags 0))
        0 (ioECL (l3 cfg));
  Return (a ++ b ++ c
    ++ [SComment "NIM unit connections (Note: NIM setup is done in the Level0 section)"] ++ d ++ e).

(* mvlc_trigger_io_serialize.cc:209-433 generate_trigger_io_parts *)
Definition generate_trigger_io_parts (cfg : TriggerIO) : outcome (list ScriptPart) :=
  p0 ← generate_level0 cfg;
  p1 ← generate_level1 cfg;
  p2 ← generate_level2 cfg;
  p3 ← generate_level3 cfg;
  Return ([SComment "Level0 #####################################################"] ++ p0
    ++ [SComment "Level1 #####################################################"] ++ p1
    ++ [SComment "Level2 #####################################################"] ++ p2
    ++ [SComment "Level3 #####################################################"] ++ p3).


Local Open Scope Z_scope.

(** ** Collecting register writes *)

(* mvlc_trigger_io_deserialize.h:27-31 WriteCommand *)
Record WriteCommand : Type := mkWriteCommand { wc_address : Z; wc_value : Z }.

(** [RegisterWrites], [UnitWrites] and [LevelWrites] *)
Abbreviation RegisterWrites := (gmap Z Z).
Abbreviation UnitWrites := (gmap Z RegisterWrites).
Abbreviation LevelWrites := (list UnitWrites).

(** [levelWrites[level][unit][regOffset] = value] *)
Definition set_register (unit regOffset value : Z) (uw : UnitWrites) : UnitWrites :=
  <[unit := <[regOffset := value]> (default ∅ (uw !! unit))]> uw.

(** A register write to a selected level above 3 leaves the array. *)
(* mvlc_trigger_io_deserialize.cc:23-35 level_writes_from_flat_writes *)
Fixpoint collect_writes (writes : list WriteCommand) (level unit : Z) (lw : LevelWrites) : outcome LevelWrites :=
  match writes with
  | [] => Return lw
  | cmd :: rest =>
      if wc_address cmd =? UnitSelectRegister then
        collect_writes rest ((wc_value cmd ≫ 8) .& 0xff) (wc_value cmd .& 0xff) lw
      else if wc_address cmd >=? UnitRegisterBase then
        let regOffset := u16 (wc_address cmd - UnitRegisterBase) in
        if level <? zlen lw then
          collect_writes rest level unit
            (alter (set_register unit regOffset (u16 (wc_value cmd))) (Z.to_nat level) lw)
        else Undefined
      else collect_writes rest level unit lw
  end.

(* mvlc_trigger_io_deserialize.cc:17-37 level_writes_from_flat_writes *)
Definition level_writes_from_flat_writes (writes : list WriteCommand) : outcome LevelWrites :=
  collect_writes writes 0 0 (replicate 4 ∅).

(** ** Parsing units *)

(** A sequence of assignments from map entries: the first missing entry throws, the
    assignments before it stay. *)
Definition parser (S : Type) : Type := S → S * bool.

Definition assign {S} (v : option Z) (f : Z → S → S) : parser S :=
  λ s, match v with Some x => (f x s, true) | None => (s, false) end.
Definition update {S} (f : S → S) : parser S := λ s, (f s, true).
Definition andthen {S} (p q : parser S) : parser S :=
  λ s, let '(s1, ok) := p s in if ok then q s1 else (s1, false).
Infix "&>" := andthen (at level 60, right associativity).

Fixpoint for_each {S A} (l : list A) (p : A → parser S) : parser S :=
  match l with
  | [] => λ s, (s, true)
  | x :: rest => p x &> for_each rest p
  end.

(** [static_cast<bool>] *)
Definition to_bool (v : Z) : bool := negb (v =? 0).

Definition set_io_delay v io := mkIO v (io_width io) (io_holdoff io) (io_invert io) (io_direction io) (io_activate io).
Definition set_io_width v io := mkIO (io_delay io) v (io_holdoff io) (io_invert io) (io_direction io) (io_activate io).
Definition set_io_holdoff v io := mkIO (io_delay io) (io_width io) v (io_invert io) (io_direction io) (io_activate io).
Definition set_io_invert v io := mkIO (io_delay io) (io_width io) (io_holdoff io) v (io_direction io) (io_activate io).
Definition set_io_direction v io := mkIO (io_delay io) (io_width io) (io_holdoff io) (io_invert io) v (io_activate io).
Definition set_io_activate v io := mkIO (io_delay io) (io_width io) (io_holdoff io) (io_invert io) (io_direction io) v.

(* mvlc_trigger_io_deserialize.cc:39-58 parse_io *)
Definition parse_io (writes : RegisterWrites) (offset : Z) : IO :=
  ((assign (writes !! u16 (offset + 0)) set_io_delay
    &> assign (writes !! u16 (offset + 2)) set_io_width
    &> assign (writes !! u16 (offset + 4)) set_io_holdoff
    &> assign (writes !! u16 (offset + 6)) (λ v, set_io_invert (to_bool v))
    &> assign (writes !! u16 (offset + 10)) set_io_direction
    &> assign (writes !! u16 (offset + 16)) (λ v, set_io_activate (to_bool v))) zero_io).1.

(* mvlc_trigger_io_deserialize.cc:60-77 parse_lut_ram *)
Definition parse_lut_ram (writes : RegisterWrites) : list Z :=
  (λ line : nat, default 0 (writes !! u16 (Z.of_nat line * 2))) <$> seq 0 16.

(** [lutContents[output][address] = bit] for the three outputs *)
(* mvlc_trigger_io_deserialize.cc:87-94 parse_lut *)
Definition distribute (address : nat) (ramValue : Z) (contents : list Z) : list Z :=
  imap (λ output bits,
    if Z.testbit ramValue (Z.of_nat output) then Z.setbit bits (Z.of_nat address)
    else Z.clearbit bits (Z.of_nat address)) contents.

(* mvlc_trigger_io_deserialize.cc:85-95 parse_lut *)
Fixpoint parse_contents (ram : list Z) (addresses : list nat) (contents : list Z) : outcome (list Z) :=
  match addresses with
  | [] => Return contents
  | address :: rest =>
      ramValue ← lookup_ram ram (Z.of_nat address);
      parse_contents ram rest (distribute address ramValue contents)
  end.

(* mvlc_trigger_io_deserialize.cc:79-112 parse_lut *)
Definition parse_lut (writes : RegisterWrites) : outcome Lut :=
  contents ← parse_contents (parse_lut_ram writes) (seq 0 LUT.InputCombinations) (lutContents new_lut);
  let gg := parse_io writes LUT.StrobeGGIOOffset in
  let gg := if io_width gg =? 0 then set_io_width LUT.StrobeGGDefaultWidth gg else gg in
  Return (mkLut contents (match writes !! 0x20 with Some v => v mod 2 ^ 3 | None => 0 end) gg
            (defaultOutputNames new_lut) (outputNames new_lut)).

(** ** Filling the configuration *)

Definition upd_l0 (f : Lvl0 → Lvl0) (t : TriggerIO) : TriggerIO := mkTriggerIO (f (l0 t)) (l1 t) (l2 t) (l3 t).
Definition upd_l1 (f : Lvl1 → Lvl1) (t : TriggerIO) : TriggerIO := mkTriggerIO (l0 t) (f (l1 t)) (l2 t) (l3 t).
Definition upd_l2 (f : Lvl2 → Lvl2) (t : TriggerIO) : TriggerIO := mkTriggerIO (l0 t) (l1 t) (f (l2 t)) (l3 t).
Definition upd_l3 (f : Lvl3 → Lvl3) (t : TriggerIO) : TriggerIO := mkTriggerIO (l0 t) (l1 t) (l2 t) (f (l3 t)).

(** Updating element [i] of an array of a level. *)
Definition upd_timer i f := upd_l0 (λ l, mkLvl0 (alter f i (timers l)) (triggerResources l) (stackBusy l) (l0_ioNIM l) (ioIRQ l) (l0_unitNames l)).
Definition upd_resource i f := upd_l0 (λ l, mkLvl0 (timers l) (alter f i (triggerResources l)) (stackBusy l) (l0_ioNIM l) (ioIRQ l) (l0_unitNames l)).
Definition upd_busy i f := upd_l0 (λ l, mkLvl0 (timers l) (triggerResources l) (alter f i (stackBusy l)) (l0_ioNIM l) (ioIRQ l) (l0_unitNames l)).
Definition upd_nim i f := upd_l0 (λ l, mkLvl0 (timers l) (triggerResources l) (stackBusy l) (alter f i (l0_ioNIM l)) (ioIRQ l) (l0_unitNames l)).
Definition upd_irq i f := upd_l0 (λ l, mkLvl0 (timers l) (triggerResources l) (stackBusy l) (l0_ioNIM l) (alter f i (ioIRQ l)) (l0_unitNames l)).
Definition upd_lut1 i f := upd_l1 (λ l, mkLvl1 (alter f i (l1_luts l)) (lut2Connections l)).
Definition upd_lut2con i f := upd_l1 (λ l, mkLvl1 (l1_luts l) (alter f i (lut2Connections l))).
Definition upd_lut2 i f := upd_l2 (λ l, mkLvl2 (alter f i (l2_luts l)) (lutConnections l) (strobeConnections l)).
Definition upd_lutcon i f := upd_l2 (λ l, mkLvl2 (l2_luts l) (alter f i (lutConnections l)) (strobeConnections l)).
Definition upd_strobecon i f := upd_l2 (λ l, mkLvl2 (l2_luts l) (lutConnections l) (alter f i (strobeConnections l))).
Definition upd_start i f := upd_l3 (λ l, mkLvl3 (alter f i (stackStart l)) (masterTriggers l) (counters l) (l3_ioNIM l) (ioECL l) (l3_unitNames l) (connections l)).
Definition upd_master i f := upd_l3 (λ l, mkLvl3 (stackStart l) (alter f i (masterTriggers l)) (counters l) (l3_ioNIM l) (ioECL l) (l3_unitNames l) (connections l)).
Definition upd_counter i f := upd_l3 (λ l, mkLvl3 (stackStart l) (masterTriggers l) (alter f i (counters l)) (l3_ioNIM l) (ioECL l) (l3_unitNames l) (connections l)).
Definition upd_ecl i f := upd_l3 (λ l, mkLvl3 (stackStart l) (masterTriggers l) (counters l) (l3_ioNIM l) (alter f i (ioECL l)) (l3_unitNames l) (connections l)).
Definition upd_con i f := upd_l3 (λ l, mkLvl3 (stackStart l) (masterTriggers l) (counters l) (l3_ioNIM l) (ioECL l) (l3_unitNames l) (alter f i (connections l))).
Definition copy_nims (t : TriggerIO) : TriggerIO :=
  upd_l3 (λ l, mkLvl3 (stackStart l) (masterTriggers l) (counters l) (l0_ioNIM (l0 t)) (ioECL l) (l3_unitNames l) (connections l)) t.

(** [writes.at(unit).at(reg)] *)
Definition reg_at (uw : UnitWrites) (unit reg : Z) : option Z := uw !! unit ≫= (.!! reg).

(** An assignment from [writes.at(unit)] as a whole. *)
Definition with_unit {S} (uw : UnitWrites) (unit : Z) (p : RegisterWrites → parser S) : parser S :=
  λ s, match uw !! unit with Some w => p w s | None => (s, false) end.

(** [unit = parse_lut(writes.at(unitIndex))]; [parse_lut] itself does not throw. *)
Definition assign_lut {S} (w : RegisterWrites) (f : Lut → S → S) : parser S :=
  λ s, match parse_lut w with Return lut => (f lut s, true) | _ => (s, false) end.

(* mvlc_trigger_io_deserialize.cc:263-277 trigger_io_from_writes *)
Definition parse_timers (uw : UnitWrites) : parser TriggerIO :=
  for_each (seq 0 TimerCount) (λ i,
    assign (reg_at uw (Z.of_nat i) 2) (λ v, upd_timer i (λ t, mkTimer v (t_delay_ns t) (t_period t) (t_softActivate t)))
    &> assign (reg_at uw (Z.of_nat i) 4) (λ v, upd_timer i (λ t, mkTimer (t_range t) v (t_period t) (t_softActivate t)))
    &> assign (reg_at uw (Z.of_nat i) 6) (λ v, upd_timer i (λ t, mkTimer (t_range t) (t_delay_ns t) v (t_softActivate t)))).

(* mvlc_trigger_io_deserialize.cc:279-288 trigger_io_from_writes *)
Definition parse_resources (uw : UnitWrites) : parser TriggerIO :=
  for_each (seq 0 Level0.TriggerResourceCount) (λ i,
    let u := Z.of_nat i + Level0.TriggerResourceOffset in
    assign (reg_at uw u 0x80) (λ v, upd_resource i (λ t, mkTriggerResource (u8 v) (tr_irqIndex t) (tr_gateGenerator t) (tr_triggerIndex t)))
    &> assign (reg_at uw u 0) (λ v, upd_resource i (λ t, mkTriggerResource (tr_type t) (u8 v) (tr_gateGenerator t) (tr_triggerIndex t)))
    &> with_unit uw u (λ w, update (upd_resource i (λ t, mkTriggerResource (tr_type t) (tr_irqIndex t) (parse_io w 6) (tr_triggerIndex t))))
    &> assign (reg_at uw u 0x82) (λ v, upd_resource i (λ t, mkTriggerResource (tr_type t) (tr_irqIndex t) (tr_gateGenerator t) (u8 v)))).

(* mvlc_trigger_io_deserialize.cc:290-297 trigger_io_from_writes *)
Definition parse_busy (uw : UnitWrites) : parser TriggerIO :=
  for_each (seq 0 Level0.StackBusyCount) (λ i,
    assign (reg_at uw (Z.of_nat i + Level0.StackBusyOffset) 0) (λ v, upd_busy i (λ _, mkStackBusy v))).

(* mvlc_trigger_io_deserialize.cc:299-315 trigger_io_from_writes *)
Definition parse_l0_ios (uw : UnitWrites) : parser TriggerIO :=
  for_each (seq 0 NIM_IO_Count) (λ i,
    with_unit uw (Z.of_nat i + Level0.NIM_IO_Offset) (λ w, update (upd_nim i (λ _, parse_io w 0))))
  &> for_each (seq 0 Level0.IRQ_Inputs_Count) (λ i,
    with_unit uw (Z.of_nat i + Level0.IRQ_Inputs_Offset) (λ w, update (upd_irq i (λ _, parse_io w 0)))).

(* mvlc_trigger_io_deserialize.cc:259-316 trigger_io_from_writes *)
Definition parse_level0 (uw : UnitWrites) : parser TriggerIO :=
  parse_timers uw &> parse_resources uw &> parse_busy uw &> parse_l0_ios uw.

(* mvlc_trigger_io_deserialize.cc:318-338 trigger_io_from_writes *)
Definition parse_level1 (uw : UnitWrites) : parser TriggerIO :=
  for_each (seq 0 7) (λ i,
    with_unit uw (Z.of_nat i) (λ w, assign_lut w (λ lut, upd_lut1 i (λ _, lut)))
    &> (if (i =? 2)%nat
        then for_each (seq 0 LUT_DynamicInputCount) (λ input,
               assign (reg_at uw (Z.of_nat i) (UnitConnectBase + 2 * Z.of_nat input)) (λ v, upd_lut2con input (λ _, v)))
        else λ s, (s, true))).

(* mvlc_trigger_io_deserialize.cc:340-363 trigger_io_from_writes *)
Definition parse_level2 (uw : UnitWrites) : parser TriggerIO :=
  for_each (seq 0 3) (λ i,
    with_unit uw (Z.of_nat i) (λ w, assign_lut w (λ lut, upd_lut2 i (λ _, lut)))
    &> for_each (seq 0 LUT_DynamicInputCount) (λ input,
         assign (reg_at uw (Z.of_nat i) (UnitConnectBase + 2 * Z.of_nat input))
           (λ v, upd_lutcon i (alter (λ _, v) input)))
    &> assign (reg_at uw (Z.of_nat i) (UnitConnectBase + 6)) (λ v, upd_strobecon i (λ _, v))).

(* mvlc_trigger_io_deserialize.cc:373-404 trigger_io_from_writes *)
Definition parse_l3_utilities (uw : UnitWrites) : parser TriggerIO :=
  for_each (seq 0 Level3.StackStartCount) (λ i,
    let u := Z.of_nat i in
    assign (reg_at uw u 0) (λ v, upd_start i (λ t, mkStackStart (to_bool v) (ss_stackIndex t) (ss_delay_ns t)))
    &> assign (reg_at uw u 2) (λ v, upd_start i (λ t, mkStackStart (ss_activate t) (u8 v) (ss_delay_ns t)))
    &> assign (reg_at uw u 4) (λ v, upd_start i (λ t, mkStackStart (ss_activate t) (ss_stackIndex t) v))
    &> assign (reg_at uw u 0x80) (λ v, upd_con (Z.to_nat u) (λ _, [v])))
  &> for_each (seq 0 Level3.MasterTriggersCount) (λ i,
    let u := Z.of_nat i + Level3.MasterTriggersOffset in
    assign (reg_at uw u 0) (λ v, upd_master i (λ _, mkMasterTrigger (to_bool v)))
    &> assign (reg_at uw u 0x80) (λ v, upd_con (Z.to_nat u) (λ _, [v])))
  &> for_each (seq 0 Level3.CountersCount) (λ i,
    let u := Z.of_nat i + Level3.CountersOffset in
    assign (reg_at uw u 14) (λ v, upd_counter i (λ t, mkCounter (to_bool v) (c_softActivate t)))
    &> assign (reg_at uw u 0x80) (λ v0,
         match reg_at uw u 0x82 with Some v1 => upd_con (Z.to_nat u) (λ _, [v0; v1]) | None => λ s, s end)
    &> assign (reg_at uw u 0x82) (λ _ s, s)).

(* mvlc_trigger_io_deserialize.cc:406-420 trigger_io_from_writes *)
Definition parse_l3_outputs (uw : UnitWrites) : parser TriggerIO :=
  for_each (seq 0 NIM_IO_Count) (λ i,
    let u := Z.of_nat i + Level3.NIM_IO_Unit_Offset in
    assign (reg_at uw u 0x80) (λ v, upd_con (Z.to_nat u) (λ _, [v])))
  &> for_each (seq 0 ECL_OUT_Count) (λ i,
    let u := Z.of_nat i + Level3.ECL_Unit_Offset in
    with_unit uw u (λ w, update (upd_ecl i (λ _, parse_io w 0)))
    &> assign (reg_at uw u 0x80) (λ v, upd_con (Z.to_nat u) (λ _, [v]))).

(* mvlc_trigger_io_deserialize.cc:365-421 trigger_io_from_writes *)
Definition parse_level3 (uw : UnitWrites) : parser TriggerIO :=
  update copy_nims &> parse_l3_utilities uw &> parse_l3_outputs uw.

Definition level (lw : LevelWrites) (i : nat) : UnitWrites := default ∅ (lw !! i).

(* mvlc_trigger_io_deserialize.cc:254-425 trigger_io_from_writes *)
Definition trigger_io_from_writes (lw : LevelWrites) : TriggerIO :=
  ((parse_level0 (level lw 0) &> parse_level1 (level lw 1) &> parse_level2 (level lw 2)
    &> parse_level3 (level lw 3)) new_trigger_io).1.

(* mvlc_trigger_io_deserialize.cc:11-15 deserialize_trigger_io *)
Definition deserialize_trigger_io (writes : list WriteCommand) : outcome TriggerIO :=
  lw ← level_writes_from_flat_writes writes;
  Return (trigger_io_from_writes lw).

(** ** Command builders *)

(** A visitor sees the register writes of the parts in order. *)
(* mvlc_trigger_io_serialize.h:109-113 visit *)
Definition block_writes (ub : UnitBlock) : list RegisterWrite :=
  omap (λ p, match p with PWrite w => Some w | PComment _ => None end) (ub_parts ub).
(* mvlc_trigger_io_serialize.h:109-113 visit *)
Definition script_writes (parts : list ScriptPart) : list RegisterWrite :=
  parts ≫= λ p, match p with SWrite w => [w] | SComment _ => [] | SBlock ub => block_writes ub end.

(** [builder.getLastCommand()->get().comment = comment] *)
Definition comment_last (comment : string) (cmd : StackCommand) : StackCommand :=
  mkCmd (sc_type cmd) (sc_address cmd) (sc_value cmd) (sc_amod cmd) (sc_dataWidth cmd) (sc_transfers cmd)
    (sc_rate cmd) (sc_customValues cmd) (sc_lateRead cmd) comment.

(* mvlc_trigger_io_serialize_mvlcscript.cc:27-32 StackCommandBuilderGenerator::operator() *)
Definition add_write (w : RegisterWrite) (b : StackCommandBuilder) : StackCommandBuilder :=
  addCommand (comment_last (rw_comment w)
    (set_dataWidth VMEDataWidth.D16 (set_amod 0x0d (set_value (rw_value w)
      (set_address (u32 (SelfVMEAddress + rw_address w)) (cmd_of_type VMEWrite)))))) b.

(* mvlc_trigger_io_serialize_mvlcscript.cc:21-60 StackCommandBuilderGenerator *)
Definition add_part (b : StackCommandBuilder) (p : ScriptPart) : StackCommandBuilder :=
  match p with
  | SWrite w => add_write w b
  | SComment _ => b
  | SBlock ub => foldl (λ b w, add_write w b) (beginGroup (ub_comment ub) ∅ b) (block_writes ub)
  end.

(* mvlc_trigger_io_serialize_mvlcscript.cc:62-69 generate_trigger_io_command_builder *)
Definition generate_trigger_io_command_builder (cfg : TriggerIO) : outcome StackCommandBuilder :=
  parts ← generate_trigger_io_parts cfg;
  Return (foldl add_part (mkBuilder "init_trigger_io" [] ∅ false) parts).

(* mvlc_trigger_io_serialize_mvlcscript.cc:71-88 parse_trigger_io_command_builder *)
Definition builder_writes (b : StackCommandBuilder) : list WriteCommand :=
  omap (λ cmd, if bool_decide (sc_type cmd = VMEWrite)
               then Some (mkWriteCommand (sc_address cmd) (sc_value cmd)) else None) (getCommands b).

(* mvlc_trigger_io_serialize_mvlcscript.cc:71-88 parse_trigger_io_command_builder *)
Definition parse_trigger_io_command_builder (b : StackCommandBuilder) : outcome TriggerIO :=
  deserialize_trigger_io (builder_writes b).
