(* ===== verification/TriggerIOFacts.v ===== *)
(** * Properties of the trigger I/O configuration

    The memory layout of the lookup tables, the round trip of a configuration through
    its register writes, and what becomes of it on the way through a command builder. *)

From S2P Require Import Prelude Constants Commands CommandsFacts TriggerIO TriggerIOScript.

(** ** The LUT memory *)

(** Cell [address] of the memory. *)
Definition cell (ram : list Z) (address : nat) : Z :=
  (default 0 (ram !! (address / 4)%nat) / 2 ^ (4 * Z.of_nat (address mod 4))) mod 16.

Lemma index_lookup {A} (l : list A) (i : nat) x : l !! i = Some x → index_ l (Z.of_nat i) = Return x.
Proof. intros H. unfold index_. destruct (Z.ltb_spec (Z.of_nat i) 0); [lia|]. by rewrite Nat2Z.id, H. Qed.

Lemma address_split (a : nat) : Z.of_nat a ≫ 2 = Z.of_nat (a / 4) ∧ Z.of_nat a .& 3 = Z.of_nat (a mod 4).
Proof.
  rewrite shiftr_div by lia. change 3 with (2 ^ 2 - 1). rewrite land_mask by lia.
  rewrite Nat2Z.inj_div, Nat2Z.inj_mod. done.
Qed.

Lemma lookup_ram_cell ram a : length ram = 16%nat → (a < 64)%nat → lookup_ram ram (Z.of_nat a) = Return (cell ram a).
Proof.
  intros Hl Ha. unfold lookup_ram. destruct (Z.gtb_spec (Z.of_nat a) 63); [lia|].
  destruct (address_split a) as [-> ->].
  assert (Hi : (a / 4 < 16)%nat) by (apply Nat.Div0.div_lt_upper_bound; lia).
  destruct (lookup_lt_is_Some_2 ram (a / 4)) as [w Hw]; [lia|]. rewrite (index_lookup _ _ w) by done.
  cbn [mbind outcome_bind]. unfold cell. rewrite Hw. cbn [default from_option].
  change 15 with (2 ^ 4 - 1). rewrite land_mask, shiftr_div by lia. by rewrite Z.mul_comm.
Qed.

(** The word of a cell after an assignment to the cell. *)
Definition set_nibble (w k v : Z) : Z := u16 ((w .& u16 (Z.lnot (0xf ≪ (k * 4)))) .| ((v .& 0xf) ≪ (k * 4))).

Lemma set_ram_eq ram a v :
  length ram = 16%nat → (a < 64)%nat → 0 ≤ v ≤ 7 →
  set_ram ram (Z.of_nat a) v
  = Return (<[(a / 4)%nat := set_nibble (default 0 (ram !! (a / 4)%nat)) (Z.of_nat (a mod 4)) v]> ram).
Proof.
  intros Hl Ha Hv. unfold set_ram. destruct (Z.gtb_spec (Z.of_nat a) 63); [lia|]. destruct (Z.gtb_spec v 7); [lia|].
  destruct (address_split a) as [-> ->].
  assert (Hi : (a / 4 < 16)%nat) by (apply Nat.Div0.div_lt_upper_bound; lia).
  destruct (lookup_lt_is_Some_2 ram (a / 4)) as [w Hw]; [lia|]. rewrite (index_lookup _ _ w) by done.
  cbn [mbind outcome_bind]. rewrite Nat2Z.id, Hw. done.
Qed.

(** A nibble assignment changes this nibble and no other. *)
Lemma set_nibble_bits w k v i :
  (k < 4)%nat → 0 ≤ i < 16 →
  Z.testbit (set_nibble w (Z.of_nat k) v) i
  = if bool_decide (4 * Z.of_nat k ≤ i < 4 * Z.of_nat k + 4) then Z.testbit v (i - 4 * Z.of_nat k)
    else Z.testbit w i.
Proof.
  intros Hk Hi. unfold set_nibble, u16. rewrite Z.mod_pow2_bits_low by lia.
  rewrite Z.lor_spec, Z.land_spec, Z.mod_pow2_bits_low by lia.
  rewrite Z.lnot_spec, !Z.shiftl_spec, Z.land_spec by lia.
  rewrite (Z.mul_comm (Z.of_nat k) 4). change 15 with (Z.ones 4).
  case_bool_decide as Hr.
  - rewrite Z.ones_spec_low by lia. cbn [negb]. by rewrite andb_false_r, andb_true_r.
  - destruct (Z.le_gt_cases (4 * Z.of_nat k) i).
    + rewrite (Z.testbit_ones_nonneg 4) by lia. destruct (Z.ltb_spec (i - 4 * Z.of_nat k) 4); [lia|]. cbn [negb]. by rewrite andb_true_r, andb_false_r, orb_false_r.
    + rewrite !(Z.testbit_neg_r _ (i - 4 * Z.of_nat k)) by lia. cbn [negb andb]. by rewrite andb_true_r, orb_false_r.
Qed.

Lemma cell_bits ram a i :
  0 ≤ i → Z.testbit (cell ram a) i
  = (i <? 4) && Z.testbit (default 0 (ram !! (a / 4)%nat)) (i + 4 * Z.of_nat (a mod 4)).
Proof.
  intros Hi. unfold cell. change 16 with (2 ^ 4). rewrite <- shiftr_div by lia.
  destruct (Z.ltb_spec i 4).
  - rewrite Z.mod_pow2_bits_low, Z.shiftr_spec by lia. done.
  - by rewrite Z.mod_pow2_bits_high by lia.
Qed.

Lemma cell_set ram a v b :
  length ram = 16%nat → (a < 64)%nat → (b < 64)%nat → 0 ≤ v ≤ 7 →
  cell (<[(a / 4)%nat := set_nibble (default 0 (ram !! (a / 4)%nat)) (Z.of_nat (a mod 4)) v]> ram) b
  = if bool_decide (a = b) then v else cell ram b.
Proof.
  intros Hl Ha Hb Hv. pose proof (Nat.mod_upper_bound a 4 ltac:(lia)) as Ha4.
  pose proof (Nat.mod_upper_bound b 4 ltac:(lia)) as Hb4.
  assert (Hi : (a / 4 < 16)%nat) by (apply Nat.Div0.div_lt_upper_bound; lia).
  apply Z.bits_inj'. intros i Hi0. rewrite cell_bits by lia.
  destruct (decide (a / 4 = b / 4)%nat) as [E|E].
  - rewrite <- E, list_lookup_insert_eq by lia. cbn [default from_option]. unfold id.
    destruct (Z.ltb_spec i 4) as [Hi4|Hi4]; cbn [andb].
    + rewrite set_nibble_bits by lia. case_bool_decide as Hr; case_bool_decide as Hab.
      * subst b. f_equal. lia.
      * destruct Hab. rewrite (Nat.div_mod_eq a 4), (Nat.div_mod_eq b 4). lia.
      * subst b. lia.
      * rewrite cell_bits, <- E by lia. by destruct (Z.ltb_spec i 4); [|lia].
    + case_bool_decide as Hab; [|by rewrite cell_bits by lia; destruct (Z.ltb_spec i 4); [lia|]].
      symmetry. destruct (decide (v = 0)) as [->|]; [apply Z.bits_0|].
      apply Z.bits_above_log2; [lia|]. apply (Z.le_lt_trans _ (Z.log2 7)); [apply Z.log2_le_mono; lia|cbn; lia].
  - rewrite list_lookup_insert_ne by done. rewrite bool_decide_eq_false_2 by (intros ->; done).
    by rewrite cell_bits by lia.
Qed.

Lemma ram_value_spec lut a :
  length (lutContents lut) = 3%nat →
  0 ≤ ram_value lut a ≤ 7
  ∧ ∀ o c, lutContents lut !! o = Some c → Z.testbit (ram_value lut a) (Z.of_nat o) = Z.testbit c (Z.of_nat a).
Proof.
  intros Hl. unfold ram_value. destruct (lutContents lut) as [|c0 [|c1 [|c2 [|]]]]; try done. cbn [imap foldl fst snd compose].
  split; [|intros [|[|[|o]]] c Hc; cbn in Hc; [injection Hc as <-..|done]];
    destruct (Z.testbit c0 (Z.of_nat a)), (Z.testbit c1 (Z.of_nat a)), (Z.testbit c2 (Z.of_nat a)); vm_compute; intuition congruence.
Qed.

Lemma make_lut_ram_from_spec lut addrs ram :
  length (lutContents lut) = 3%nat → length ram = 16%nat → Forall is_u16 ram → Forall (λ a, (a < 64)%nat) addrs →
  ∃ ram', make_lut_ram_from lut addrs ram = Return ram' ∧ length ram' = 16%nat ∧ Forall is_u16 ram'
    ∧ ∀ b, (b < 64)%nat → cell ram' b = if bool_decide (b ∈ addrs) then ram_value lut b else cell ram b.
Proof.
  intros Hc. revert ram; induction addrs as [|a addrs IH]; intros ram Hl Hu Ha; [by exists ram|].
  inversion Ha as [|? ? Ha1 Ha2]; subst. cbn [make_lut_ram_from].
  destruct (ram_value_spec lut a Hc) as [Hv _]. rewrite set_ram_eq by done. cbn [mbind outcome_bind].
  set (ram1 := <[_ := _]> ram).
  destruct (IH ram1) as (ram' & -> & Hl' & Hu' & Hcell); [by unfold ram1; rewrite length_insert| |done|].
  { apply Forall_insert; [done|]. apply Z.mod_pos_bound. lia. }
  exists ram'. split_and!; [done..|]. intros b Hb. rewrite Hcell by done. unfold ram1. rewrite cell_set by done.
  destruct (decide (b ∈ addrs)) as [Hin|Hin].
  - by rewrite !bool_decide_eq_true_2 by set_solver.
  - rewrite (bool_decide_eq_false_2 (b ∈ addrs)) by done. case_bool_decide as Hab.
    + subst. by rewrite bool_decide_eq_true_2 by set_solver.
    + by rewrite bool_decide_eq_false_2 by set_solver.
Qed.

Lemma make_lut_ram_spec lut :
  length (lutContents lut) = 3%nat →
  ∃ ram, make_lut_ram lut = Return ram ∧ length ram = 16%nat ∧ Forall is_u16 ram ∧ ∀ b, (b < 64)%nat → cell ram b = ram_value lut b.
Proof.
  intros Hc. destruct (make_lut_ram_from_spec lut (seq 0 LUT.InputCombinations) (replicate 16 0)) as (ram & H1 & H2 & H2' & H3);
    [done|done|by repeat constructor|apply Forall_forall; intros a Ha%elem_of_seq; unfold LUT.InputCombinations in *; lia|].
  exists ram. split_and!; [done..|]. intros b Hb. rewrite H3 by done.
  by rewrite bool_decide_eq_true_2 by (apply elem_of_seq; unfold LUT.InputCombinations; lia).
Qed.

Lemma testbit_setbit_if (b : bool) c (a : nat) j :
  0 ≤ j → Z.testbit (if b then Z.setbit c (Z.of_nat a) else Z.clearbit c (Z.of_nat a)) j
  = if bool_decide (j = Z.of_nat a) then b else Z.testbit c j.
Proof.
  intros Hj. destruct b.
  - rewrite Z.setbit_eqb by lia. destruct (Z.eqb_spec (Z.of_nat a) j); case_bool_decide; try lia; done.
  - rewrite Z.clearbit_eqb by lia. destruct (Z.eqb_spec (Z.of_nat a) j); case_bool_decide; try lia; cbn;
      by rewrite ?andb_false_r, ?andb_true_r.
Qed.

Lemma parse_contents_spec ram addrs contents :
  length ram = 16%nat → Forall (λ a, (a < 64)%nat) addrs →
  ∃ contents', parse_contents ram addrs contents = Return contents' ∧ length contents' = length contents
    ∧ ∀ o c, contents !! o = Some c → ∃ c', contents' !! o = Some c'
        ∧ ∀ j : nat, Z.testbit c' (Z.of_nat j)
            = if bool_decide (j ∈ addrs) then Z.testbit (cell ram j) (Z.of_nat o) else Z.testbit c (Z.of_nat j).
Proof.
  intros Hl. revert contents; induction addrs as [|a addrs IH]; intros contents Ha.
  { exists contents. split_and!; [done|done|]. intros o c Hc. by exists c. }
  inversion Ha as [|? ? Ha1 Ha2]; subst. cbn [parse_contents]. rewrite lookup_ram_cell by done. cbn [mbind outcome_bind].
  destruct (IH (distribute a (cell ram a) contents) Ha2) as (contents' & -> & Hl' & Hbits).
  exists contents'. split_and!; [done|by rewrite Hl'; unfold distribute; rewrite length_imap|]. intros o c Hc.
  destruct (Hbits o (if Z.testbit (cell ram a) (Z.of_nat o) then Z.setbit c (Z.of_nat a) else Z.clearbit c (Z.of_nat a)))
    as (c' & Hc' & Hj); [unfold distribute; by rewrite list_lookup_imap, Hc|].
  exists c'. split; [done|]. intros j. rewrite Hj. destruct (decide (j ∈ addrs)) as [Hin|Hin].
  - by rewrite !bool_decide_eq_true_2 by set_solver.
  - rewrite (bool_decide_eq_false_2 (j ∈ addrs)) by done. rewrite testbit_setbit_if by lia.
    case_bool_decide as E.
    + apply Nat2Z.inj in E as ->. by rewrite bool_decide_eq_true_2 by set_solver.
    + rewrite bool_decide_eq_false_2; [done|]. intros [->|?]%elem_of_cons; done.
Qed.

(** A lookup table as the constructors build it: three 64 bit functions. *)
Definition lut_ok (lut : Lut) : Prop :=
  length (lutContents lut) = 3%nat ∧ Forall (λ c, 0 ≤ c < 2 ^ 64) (lutContents lut).

(** Decoding the memory of a lookup table gives back its three functions. *)
Lemma lut_contents_roundtrip lut ram :
  lut_ok lut → make_lut_ram lut = Return ram →
  parse_contents ram (seq 0 LUT.InputCombinations) (lutContents new_lut) = Return (lutContents lut).
Proof.
  intros [Hl Hr] Hram. destruct (make_lut_ram_spec lut Hl) as (ram' & Heq & Hlr & _ & Hcell).
  rewrite Heq in Hram. injection Hram as ->.
  destruct (parse_contents_spec ram (seq 0 LUT.InputCombinations) (lutContents new_lut) Hlr) as (c' & -> & Hlen & Hbits);
    [apply Forall_forall; intros a Ha%elem_of_seq; unfold LUT.InputCombinations in *; lia|].
  f_equal. apply list_eq. intros o. destruct (decide (o < 3)%nat) as [Ho|Ho].
  2:{ rewrite !lookup_ge_None_2; [done|lia|rewrite Hlen; cbn; lia]. }
  destruct (lookup_lt_is_Some_2 (lutContents lut) o) as [c Hc]; [lia|].
  destruct (Hbits o 0) as (c1 & Hc1 & Hj); [by apply lookup_replicate|]. rewrite Hc, Hc1. f_equal.
  assert (Hrange := Forall_lookup_1 _ _ _ _ Hr Hc). cbn beta in Hrange.
  apply Z.bits_inj'. intros j Hj0. rewrite <- (Z2Nat.id j) by done. rewrite Hj.
  destruct (ram_value_spec lut (Z.to_nat j) Hl) as [_ Hv].
  case_bool_decide as Hin.
  - apply elem_of_seq in Hin. unfold LUT.InputCombinations in Hin. rewrite Hcell by lia. by apply Hv.
  - rewrite Z.bits_0. symmetry. destruct (decide (c = 0)) as [->|]; [apply Z.bits_0|].
    apply Z.bits_above_log2; [lia|]. assert (Z.log2 c < 64) by (apply Z.log2_lt_pow2; lia).
    assert (¬ (Z.to_nat j < 64)%nat) by (intros ?; apply Hin, elem_of_seq; unfold LUT.InputCombinations; lia). lia.
Qed.

(** ** Register writes per unit *)

(** What a script says about one unit: its level and number, and the registers that
    are written, in this order. *)
Record entry : Type := mkEntry { e_level : nat; e_unit : nat; e_regs : list (Z * Z) }.

Definition entry_writes (e : entry) : list WriteCommand :=
  mkWriteCommand 0x200 (Z.of_nat (e_level e) * 256 + Z.of_nat (e_unit e))
  :: ((λ p, mkWriteCommand (0x300 + p.1) p.2) <$> e_regs e).

Definition entry_ok (e : entry) : Prop :=
  (e_level e < 4)%nat ∧ (e_unit e < 256)%nat ∧ e_regs e ≠ []
  ∧ Forall (λ p, 0 ≤ p.1 < 0x100 ∧ is_u16 p.2) (e_regs e).

Definition add_regs (unit : Z) (regs : list (Z * Z)) (uw : UnitWrites) : UnitWrites :=
  foldl (λ uw p, set_register unit p.1 p.2 uw) uw regs.

Definition apply_entry (lw : LevelWrites) (e : entry) : LevelWrites :=
  alter (add_regs (Z.of_nat (e_unit e)) (e_regs e)) (e_level e) lw.

Lemma collect_regs regs rest l u lw :
  (l < length lw)%nat → Forall (λ p, 0 ≤ p.1 < 0x100 ∧ is_u16 p.2) regs →
  collect_writes (((λ p, mkWriteCommand (0x300 + p.1) p.2) <$> regs) ++ rest) (Z.of_nat l) u lw
  = collect_writes rest (Z.of_nat l) u (alter (add_regs u regs) l lw).
Proof.
  intros Hl Hr. revert lw Hl; induction Hr as [|[r v] regs [Hr1 Hr2] Hr IH]; intros lw Hl.
  { cbn. by rewrite list_alter_id. }
  cbn [fmap list_fmap app collect_writes wc_address wc_value fst snd] in *. unfold UnitSelectRegister, UnitRegisterBase.
  destruct (Z.eqb_spec (768 + r) 512); [lia|]. rewrite Z.geb_leb. destruct (Z.leb_spec 768 (768 + r)); [|lia].
  destruct (Z.ltb_spec (Z.of_nat l) (zlen lw)); [|unfold zlen in *; lia].
  unfold u16. rewrite (Z.mod_small v), (Z.mod_small (768 + r - 768)), Nat2Z.id by (unfold is_u16 in *; lia).
  rewrite IH by (by rewrite length_alter). replace (768 + r - 768) with r by lia.
  rewrite list_alter_alter_eq. done.
Qed.

Lemma length_apply_entry lw e : length (apply_entry lw e) = length lw.
Proof. apply length_alter. Qed.

Lemma collect_entries es l u lw :
  length lw = 4%nat → Forall entry_ok es →
  collect_writes (es ≫= entry_writes) l u lw = Return (foldl apply_entry lw es).
Proof.
  intros Hl He. revert l u lw Hl; induction He as [|e es (H1 & H2 & _ & H4) He IH]; intros l u lw Hl; [done|].
  cbn [mbind list_bind]. unfold entry_writes at 1. cbn [app collect_writes wc_address wc_value].
  change (512 =? UnitSelectRegister) with true. cbv iota.
  change 255 with (2 ^ 8 - 1). rewrite !land_mask, shiftr_div by lia.
  replace (((Z.of_nat (e_level e) * 256 + Z.of_nat (e_unit e)) / 2 ^ 8) mod 2 ^ 8) with (Z.of_nat (e_level e)) by zlia.
  replace ((Z.of_nat (e_level e) * 256 + Z.of_nat (e_unit e)) mod 2 ^ 8) with (Z.of_nat (e_unit e)) by zlia.
  rewrite collect_regs by (done || lia). apply IH. by rewrite length_alter.
Qed.

(** The registers of a unit that was written once. *)
Definition regmap (regs : list (Z * Z)) : RegisterWrites := foldl (λ m p, <[p.1 := p.2]> m) ∅ regs.

Lemma add_regs_lookup u regs uw u' :
  add_regs u regs uw !! u'
  = if bool_decide (u' = u ∧ regs ≠ []) then Some (foldl (λ m p, <[p.1 := p.2]> m) (default ∅ (uw !! u)) regs)
    else uw !! u'.
Proof.
  revert uw; induction regs as [|p regs IH]; intros uw; cbn [add_regs foldl].
  { by rewrite bool_decide_eq_false_2 by (intros [_ ?]; done). }
  fold (add_regs u regs (set_register u p.1 p.2 uw)). rewrite IH. unfold set_register.
  destruct (decide (u' = u)) as [->|Hne].
  - rewrite lookup_insert_eq. cbn [default from_option]. unfold id. rewrite (bool_decide_eq_true_2 (u = u ∧ _ :: _ ≠ [])) by done.
    destruct regs; [by rewrite bool_decide_eq_false_2 by (intros [_ ?]; done)|].
    by rewrite bool_decide_eq_true_2.
  - rewrite (bool_decide_eq_false_2 (u' = u ∧ regs ≠ [])), (bool_decide_eq_false_2 (u' = u ∧ p :: regs ≠ [])) by tauto.
    by rewrite lookup_insert_ne by congruence.
Qed.

Definition unit_writes (lw : LevelWrites) (l u : nat) : option RegisterWrites := level lw l !! Z.of_nat u.

Lemma apply_entry_lookup lw e l u :
  length lw = 4%nat → entry_ok e →
  unit_writes (apply_entry lw e) l u
  = if bool_decide (l = e_level e ∧ u = e_unit e)
    then Some (foldl (λ m p, <[p.1 := p.2]> m) (default ∅ (unit_writes lw l u)) (e_regs e))
    else unit_writes lw l u.
Proof.
  intros Hl (H1 & _ & H3 & _). unfold unit_writes, level, apply_entry.
  destruct (decide (l = e_level e)) as [->|Hne].
  - rewrite list_lookup_alter_eq. destruct (lookup_lt_is_Some_2 lw (e_level e)) as [uw ->]; [lia|]. cbn.
    rewrite add_regs_lookup. destruct (decide (u = e_unit e)) as [->|Hu].
    + by rewrite !bool_decide_eq_true_2.
    + rewrite !bool_decide_eq_false_2; [done|intros [_ ?]; done|intros [? _]; lia].
  - rewrite list_lookup_alter_ne by done. by rewrite bool_decide_eq_false_2 by (intros [? _]; done).
Qed.

Definition keys (es : list entry) : list (nat * nat) := (λ e, (e_level e, e_unit e)) <$> es.

Lemma entries_not_written es lw l u :
  length lw = 4%nat → Forall entry_ok es → (l, u) ∉ keys es →
  unit_writes (foldl apply_entry lw es) l u = unit_writes lw l u.
Proof.
  intros Hl He. revert lw Hl; induction He as [|e es He1 He IH]; intros lw Hl Hk; [done|]. cbn [foldl].
  cbn [keys fmap list_fmap] in Hk. apply not_elem_of_cons in Hk as [Hk1 Hk2].
  rewrite IH by (rewrite ?length_apply_entry; done). rewrite apply_entry_lookup by done.
  rewrite bool_decide_eq_false_2; [done|]. intros [-> ->]. done.
Qed.

Lemma entries_lookup es e :
  Forall entry_ok es → NoDup (keys es) → e ∈ es →
  unit_writes (foldl apply_entry (replicate 4 ∅) es) (e_level e) (e_unit e) = Some (regmap (e_regs e)).
Proof.
  intros He Hnd [es1 [es2 ->]]%list_elem_of_split. rewrite foldl_app. cbn [foldl].
  apply Forall_app in He as [He1 He2]. inversion He2 as [|? ? He3 He4]; subst.
  unfold keys in Hnd. rewrite fmap_app, fmap_cons in Hnd. apply NoDup_app in Hnd as (_ & Hnd1 & Hnd2).
  apply NoDup_cons in Hnd2 as [Hnd2 _].
  assert (Hlen : ∀ es lw, length (foldl apply_entry lw es) = length lw).
  { induction es as [|x es IH]; intros lw; [done|]. cbn. by rewrite IH, length_apply_entry. }
  rewrite entries_not_written by (rewrite ?length_apply_entry, ?Hlen; done).
  rewrite apply_entry_lookup by (rewrite ?Hlen; done). rewrite bool_decide_eq_true_2 by done.
  rewrite entries_not_written; [|done|done|].
  - unfold unit_writes, level. destruct He3 as (Hl & _). by rewrite lookup_replicate_2 by done.
  - intros Hin. apply (Hnd1 _ Hin), list_elem_of_here.
Qed.
