(* ===== verification/TriggerIORoundTrip.v ===== *)
(** * The round trip of a trigger I/O configuration

    A configuration whose connections are valid has a script; the register writes of the
    script, read back, give the configuration [restored] describes: the settings that
    are stored in registers, with the remaining fields at their defaults. *)

From S2P Require Import Prelude Constants Commands CommandsFacts TriggerIO TriggerIOScript TriggerIOFacts.

#[global] Instance Timer_inhabited : Inhabited Timer := populate (mkTimer 0 0 0 false).
#[global] Instance IO_inhabited : Inhabited IO := populate zero_io.
#[global] Instance StackBusy_inhabited : Inhabited StackBusy := populate (mkStackBusy 0).
#[global] Instance Lut_inhabited : Inhabited Lut := populate new_lut.
#[global] Instance StackStart_inhabited : Inhabited TriggerIO.StackStart := populate (mkStackStart false 0 0).
#[global] Instance MasterTrigger_inhabited : Inhabited MasterTrigger := populate (mkMasterTrigger false).
#[global] Instance Counter_inhabited : Inhabited Counter := populate (mkCounter false false).
#[global] Instance TriggerResource_inhabited : Inhabited TriggerResource := populate (mkTriggerResource 0 0 zero_io 0).
#[global] Instance Choices_inhabited : Inhabited LUTDynamicInputChoices := populate (mkChoices [] []).

(** ** Well-formed configurations *)

(** The integers have the width of their types. *)
Definition timer_ok (t : Timer) : Prop := is_u16 (t_range t) ∧ is_u16 (t_delay_ns t) ∧ is_u16 (t_period t).
Definition io_ok (io : IO) : Prop :=
  is_u16 (io_delay io) ∧ is_u16 (io_width io) ∧ is_u16 (io_holdoff io) ∧ is_u16 (io_direction io).
Definition resource_ok (r : TriggerResource) : Prop :=
  is_u8 (tr_type r) ∧ is_u8 (tr_irqIndex r) ∧ io_ok (tr_gateGenerator r) ∧ is_u8 (tr_triggerIndex r).
Definition full_lut_ok (lut : Lut) : Prop :=
  lut_ok lut ∧ 0 ≤ strobedOutputs lut < 2 ^ 3 ∧ io_ok (strobeGG lut) ∧ length (outputNames lut) = 3%nat.
Definition start_ok (s : TriggerIO.StackStart) : Prop := is_u8 (ss_stackIndex s) ∧ is_u16 (ss_delay_ns s).

(** The array sizes of the four levels. *)
Definition sizes0 (l : Lvl0) : Prop :=
  length (timers l) = TimerCount ∧ length (triggerResources l) = Level0.TriggerResourceCount
  ∧ length (stackBusy l) = Level0.StackBusyCount ∧ length (l0_ioNIM l) = NIM_IO_Count
  ∧ length (ioIRQ l) = Level0.IRQ_Inputs_Count ∧ length (l0_unitNames l) = length L0_DefaultUnitNames.
Definition sizes1 (l : Lvl1) : Prop := length (l1_luts l) = 7%nat ∧ length (lut2Connections l) = 3%nat.
Definition sizes2 (l : Lvl2) : Prop :=
  length (l2_luts l) = 3%nat ∧ length (lutConnections l) = 3%nat
  ∧ Forall (λ c, length c = 3%nat) (lutConnections l) ∧ length (strobeConnections l) = 3%nat.
Definition sizes3 (l : Lvl3) : Prop :=
  length (stackStart l) = Level3.StackStartCount ∧ length (masterTriggers l) = Level3.MasterTriggersCount
  ∧ length (counters l) = Level3.CountersCount ∧ length (ioECL l) = ECL_OUT_Count
  ∧ length (l3_unitNames l) = length L3_DefaultUnitNames ∧ length (connections l) = Level3.UnitCount.

(** An address that has a name. *)
Definition name_ok (a : UnitAddress) : bool :=
  let lut n := (0 <=? a_unit a) && (a_unit a <? n) && (0 <=? a_subunit a) && (a_subunit a <? 3) in
  if a_level a =? 0 then (0 <=? a_unit a) && (a_unit a <? zlen L0_DefaultUnitNames)
  else if a_level a =? 1 then lut 7
  else if a_level a =? 2 then lut 3
  else (0 <=? a_unit a) && (a_unit a <? zlen L3_DefaultUnitNames).

(** A connection value that is the index of a choice which has a name. *)
Definition valid_connection (choices : list UnitAddress) (value : Z) : Prop :=
  is_u16 value ∧ match choices !! Z.to_nat value with Some a => name_ok a = true | None => False end.

#[global] Instance valid_connection_dec choices value : Decision (valid_connection choices value).
Proof. unfold valid_connection. destruct (choices !! _); apply _. Defined.

(** The connections of a level 3 unit: two for a counter, otherwise one is used. *)
Definition l3_inputs (unit : nat) : nat := if bool_decide (8 ≤ unit < 16)%nat then 2 else 1.

Definition connections_ok (cfg : TriggerIO) : Prop :=
  Forall (λ i, valid_connection (LUT2DynamicInputChoices !!! i) (lut2Connections (l1 cfg) !!! i)) (seq 0 3)
  ∧ Forall (λ u, Forall (λ i,
      valid_connection (lutChoices (L2_DynamicInputChoices !!! u) !!! i) ((lutConnections (l2 cfg) !!! u) !!! i)) (seq 0 3)
      ∧ valid_connection (strobeChoices (L2_DynamicInputChoices !!! u)) (strobeConnections (l2 cfg) !!! u)) (seq 0 3)
  ∧ Forall (λ u, (l3_inputs u ≤ length (connections (l3 cfg) !!! u))%nat
      ∧ Forall (λ i, valid_connection ((L3_DynamicInputChoiceLists !!! u) !!! i) ((connections (l3 cfg) !!! u) !!! i))
          (seq 0 (l3_inputs u))) (seq 0 Level3.UnitCount).

Definition values_ok (cfg : TriggerIO) : Prop :=
  Forall timer_ok (timers (l0 cfg)) ∧ Forall resource_ok (triggerResources (l0 cfg))
  ∧ Forall (λ s, is_u16 (sb_stackIndex s)) (stackBusy (l0 cfg))
  ∧ Forall io_ok (l0_ioNIM (l0 cfg)) ∧ Forall io_ok (ioIRQ (l0 cfg))
  ∧ Forall full_lut_ok (l1_luts (l1 cfg)) ∧ Forall full_lut_ok (l2_luts (l2 cfg))
  ∧ Forall start_ok (stackStart (l3 cfg)) ∧ Forall io_ok (ioECL (l3 cfg)).

Definition sizes_ok (cfg : TriggerIO) : Prop :=
  sizes0 (l0 cfg) ∧ sizes1 (l1 cfg) ∧ sizes2 (l2 cfg) ∧ sizes3 (l3 cfg).

Definition cfg_ok (cfg : TriggerIO) : Prop := sizes_ok cfg ∧ values_ok cfg ∧ connections_ok cfg.

#[global] Instance cfg_ok_dec cfg : Decision (cfg_ok cfg).
Proof.
  unfold cfg_ok, sizes_ok, sizes0, sizes1, sizes2, sizes3, values_ok, connections_ok, timer_ok, resource_ok, full_lut_ok,
    lut_ok, start_ok, io_ok, is_u16, is_u8. apply _.
Defined.

(** ** The registers of a configuration *)

Definition timer_regs (t : Timer) : list (Z * Z) := [(2, t_range t); (4, t_delay_ns t); (6, t_period t)].

Definition io_regs (io : IO) (flags : io_flags) (offset : Z) : list (Z * Z) :=
  [(offset + 0, io_delay io); (offset + 2, io_width io); (offset + 4, io_holdoff io); (offset + 6, Z.b2z (io_invert io))]
  ++ (if HasDirection flags then [(offset + 10, io_direction io)] else [])
  ++ (if HasActivation flags then [(offset + 16, Z.b2z (io_activate io))] else []).

Definition resource_regs (r : TriggerResource) : list (Z * Z) :=
  [(0x80, tr_type r); (0, tr_irqIndex r)] ++ io_regs (tr_gateGenerator r) no_flags 6 ++ [(0x82, tr_triggerIndex r)].

(** The memory of a lookup table. *)
Definition lut_ram (lut : Lut) : list Z := match make_lut_ram lut with Return ram => ram | _ => [] end.
Definition ram_regs (ram : list Z) : list (Z * Z) := imap (λ i v, (Z.of_nat i * 2, v)) ram.
Definition con_reg (input v : Z) : Z * Z := (0x80 + input * 2, v).

Definition lut1_regs (l : Lvl1) (i : nat) : list (Z * Z) :=
  ram_regs (lut_ram (l1_luts l !!! i))
  ++ (if (i =? 2)%nat then (λ k, con_reg (Z.of_nat k) (lut2Connections l !!! k)) <$> seq 0 3 else []).

Definition lut2_regs (l : Lvl2) (i : nat) : list (Z * Z) :=
  ram_regs (lut_ram (l2_luts l !!! i))
  ++ [(0x20, strobedOutputs (l2_luts l !!! i))]
  ++ ((λ k, con_reg (Z.of_nat k) ((lutConnections l !!! i) !!! k)) <$> seq 0 3)
  ++ io_regs (strobeGG (l2_luts l !!! i)) no_flags LUT.StrobeGGIOOffset
  ++ [con_reg 3 (strobeConnections l !!! i)].

Definition start_regs (s : TriggerIO.StackStart) : list (Z * Z) :=
  [(0, Z.b2z (ss_activate s)); (2, ss_stackIndex s); (4, ss_delay_ns s)].

(** The units of a level, [n] of them from unit [offset] on. *)
Definition units (level offset n : nat) (regs : nat → list (Z * Z)) : list entry :=
  (λ i, mkEntry level (offset + i) (regs i)) <$> seq 0 n.

Definition entries0 (l : Lvl0) : list entry :=
  units 0 0 4 (λ i, timer_regs (timers l !!! i))
  ++ units 0 4 8 (λ i, resource_regs (triggerResources l !!! i))
  ++ units 0 12 2 (λ i, [(0, sb_stackIndex (stackBusy l !!! i))])
  ++ units 0 16 14 (λ i, io_regs (l0_ioNIM l !!! i) NIM_IO_Flags 0)
  ++ units 0 33 6 (λ i, io_regs (ioIRQ l !!! i) no_flags 0).

Definition entries3 (l : Lvl3) : list entry :=
  let con u k := con_reg (Z.of_nat k) ((connections l !!! u) !!! k) in
  units 3 0 4 (λ i, start_regs (stackStart l !!! i) ++ [con i 0%nat])
  ++ units 3 4 4 (λ i, [(0, Z.b2z (mt_activate (masterTriggers l !!! i)))] ++ [con (4 + i)%nat 0%nat])
  ++ units 3 8 8 (λ i, [(14, Z.b2z (clearOnLatch (counters l !!! i)))] ++ [con (8 + i)%nat 0%nat; con (8 + i)%nat 1%nat])
  ++ units 3 16 14 (λ i, [con (16 + i)%nat 0%nat])
  ++ units 3 30 3 (λ i, io_regs (ioECL l !!! i) ECL_IO_Flags 0 ++ [con (30 + i)%nat 0%nat]).

Definition entries (cfg : TriggerIO) : list entry :=
  entries0 (l0 cfg) ++ units 1 0 7 (lut1_regs (l1 cfg)) ++ units 2 0 3 (lut2_regs (l2 cfg)) ++ entries3 (l3 cfg).

(** The units are distinct. *)
Lemma keys_units l o n regs : keys (units l o n regs) = (λ i, (l, (o + i)%nat)) <$> seq 0 n.
Proof. unfold keys, units. rewrite <- list_fmap_compose. done. Qed.

Lemma keys_app a b : keys (a ++ b) = keys a ++ keys b.
Proof. apply fmap_app. Qed.

Lemma entries_distinct cfg : NoDup (keys (entries cfg)).
Proof.
  unfold entries, entries0, entries3. rewrite !keys_app, !keys_units. refine (bool_decide_unpack _ _). vm_compute. exact I.
Qed.

(** ** The script of a configuration *)

Definition to_command (w : RegisterWrite) : WriteCommand := mkWriteCommand (rw_address w) (rw_value w).
Definition flat_writes (parts : list ScriptPart) : list WriteCommand := to_command <$> script_writes parts.
Definition part_writes (parts : list BasicPart) : list WriteCommand :=
  to_command <$> omap (λ p, match p with PWrite w => Some w | PComment _ => None end) parts.
Definition commands (regs : list (Z * Z)) : list WriteCommand := (λ p, mkWriteCommand (0x300 + p.1) p.2) <$> regs.

Definition reg_ok (p : Z * Z) : Prop := 0 ≤ p.1 < 0x100 ∧ is_u16 p.2.

Lemma part_writes_app a b : part_writes (a ++ b) = part_writes a ++ part_writes b.
Proof. unfold part_writes. by rewrite omap_app, fmap_app. Qed.

Lemma commands_app a b : commands (a ++ b) = commands a ++ commands b.
Proof. apply fmap_app. Qed.

Lemma part_writes_sync parts : part_writes (sync_comment <$> parts) = part_writes parts.
Proof.
  unfold part_writes. induction parts as [|[w|s] parts IH]; [done| |done]. cbn in *. by rewrite IH.
Qed.

(** A register write of the script, when it fits. *)
Lemma part_writes_reg reg value comment opts rest :
  reg_ok (reg, value) → part_writes (write_unit_reg reg value comment opts :: rest) = mkWriteCommand (0x300 + reg) value :: part_writes rest.
Proof.
  intros [H1 H2]. unfold part_writes. cbn in *. unfold to_command, u16, UnitRegisterBase, is_u16 in *. cbn.
  rewrite !Z.mod_small by lia. done.
Qed.

Lemma part_writes_con input value name rest :
  0 ≤ input < 0x40 → is_u16 value →
  part_writes (write_connection (input * 2) value name :: rest) = commands [con_reg input value] ++ part_writes rest.
Proof.
  intros H1 H2. unfold part_writes, commands, con_reg. cbn in *. unfold to_command, u16, is_u16 in *. cbn.
  rewrite !Z.mod_small by lia. f_equal. f_equal. lia.
Qed.

Lemma part_writes_strobe value name : is_u16 value → part_writes [write_strobe_connection 6 value name] = commands [con_reg 3 value].
Proof.
  intros H2. unfold part_writes, commands, con_reg. cbn in *. unfold to_command, u16, is_u16 in *. cbn. rewrite !Z.mod_small by lia. done.
Qed.

Lemma b2z_u16 b : is_u16 (Z.b2z b).
Proof. destruct b; done. Qed.

Lemma is_u8_u16 z : is_u8 z → is_u16 z.
Proof. unfold is_u8, is_u16. lia. Qed.

#[local] Hint Resolve b2z_u16 is_u8_u16 : mvlc.

Ltac reg_tac := first [split; cbn; [lia|by eauto with mvlc]].

Lemma io_writes io flags offset :
  io_ok io → 0 ≤ offset < 0x80 → part_writes (generate_io io flags offset) = commands (io_regs io flags offset).
Proof.
  intros (H1 & H2 & H3 & H4) Ho. unfold generate_io, io_regs.
  destruct flags as [[] []]; cbn [HasDirection HasActivation app]; by rewrite !part_writes_reg by reg_tac.
Qed.

Lemma timer_writes t : timer_ok t → part_writes (generate_timer t) = commands (timer_regs t).
Proof. intros (H1 & H2 & H3). unfold generate_timer. by rewrite !part_writes_reg by reg_tac. Qed.

Lemma resource_writes r : resource_ok r → part_writes (generate_trigger_resource r) = commands (resource_regs r).
Proof.
  intros (H1 & H2 & H3 & H4). unfold generate_trigger_resource, resource_regs. cbn [app].
  rewrite !part_writes_reg by reg_tac. rewrite part_writes_app, part_writes_sync, io_writes by (done || lia).
  rewrite part_writes_reg by reg_tac. cbn [commands fmap list_fmap]. by rewrite fmap_app.
Qed.

Lemma start_writes s : start_ok s → part_writes (generate_stack_start s) = commands (start_regs s).
Proof. intros (H1 & H2). unfold generate_stack_start. by rewrite !part_writes_reg by reg_tac. Qed.

(** The memory of a lookup table. *)
Lemma ram_writes ram : length ram = 16%nat → Forall is_u16 ram → part_writes (write_lut_ram ram) = commands (ram_regs ram).
Proof.
  intros Hl Hr. do 17 (destruct ram as [|? ram]; try done). rewrite !Forall_cons in Hr. destruct_and!.
  unfold write_lut_ram, ram_regs. cbn [imap]. unfold compose.
  rewrite !part_writes_reg by (split; [vm_compute; split; [discriminate|done]|done]). done.
Qed.

Lemma lut_ram_spec lut :
  lut_ok lut → make_lut_ram lut = Return (lut_ram lut) ∧ length (lut_ram lut) = 16%nat ∧ Forall is_u16 (lut_ram lut).
Proof.
  intros [Hl _]. destruct (make_lut_ram_spec lut Hl) as (ram & H1 & H2 & H3 & _). unfold lut_ram. by rewrite H1.
Qed.

Lemma write_lut_ok lut :
  lut_ok lut → ∃ parts, write_lut lut = Return parts ∧ part_writes parts = commands (ram_regs (lut_ram lut)).
Proof.
  intros (H1 & H2 & H3)%lut_ram_spec. exists (write_lut_ram (lut_ram lut)). unfold write_lut. rewrite H1. split; [done|].
  by apply ram_writes.
Qed.

(** ** Connections *)

Lemma index_in {A} (l : list A) i : 0 ≤ i < zlen l → ∃ x, index_ l i = Return x ∧ l !! Z.to_nat i = Some x.
Proof.
  intros Hi. destruct (lookup_lt_is_Some_2 l (Z.to_nat i)) as [x Hx]; [unfold zlen in *; lia|]. exists x. split; [|done].
  rewrite <- (Z2Nat.id i) by lia. by apply index_lookup.
Qed.

Lemma index_total `{Inhabited A} (l : list A) (i : nat) : (i < length l)%nat → index_ l (Z.of_nat i) = Return (l !!! i).
Proof. intros Hi. apply index_lookup. by apply list_lookup_lookup_total_lt. Qed.

Lemma lut_name (luts : list Lut) u s :
  Forall full_lut_ok luts → 0 ≤ u < zlen luts → 0 ≤ s < 3 →
  ∃ name, (lut ← index_ luts u; index_ (outputNames lut) s) = Return name.
Proof.
  intros Hl Hu Hs. destruct (index_in luts u Hu) as (lut & -> & Hlut). cbn [mbind outcome_bind].
  assert (full_lut_ok lut) as (_ & _ & _ & Hn) by (by eapply Forall_lookup_1).
  destruct (index_in (outputNames lut) s) as (name & -> & _); [unfold zlen; lia|]. by exists name.
Qed.

Lemma lookup_name_ok cfg a : cfg_ok cfg → name_ok a = true → ∃ name, lookup_name cfg a = Return name.
Proof.
  intros ((Hs0 & Hs1 & Hs2 & Hs3) & Hv & _) Hn. unfold name_ok, lookup_name in *.
  destruct Hs0 as (_ & _ & _ & _ & _ & Hs0), Hs1 as [Hs1 _], Hs2 as [Hs2 _], Hs3 as (_ & _ & _ & _ & Hs3 & _).
  destruct Hv as (_ & _ & _ & _ & _ & Hv1 & Hv2 & _).
  destruct (a_level a =? 0); [|destruct (a_level a =? 1); [|destruct (a_level a =? 2); [|destruct (a_level a =? 3); [|by eexists]]]];
    breflect.
  - destruct (index_in (l0_unitNames (l0 cfg)) (a_unit a)) as (x & -> & _); [unfold zlen in *; rewrite Hs0; lia|]. by exists x.
  - apply lut_name; [done|unfold zlen; rewrite Hs1; lia|lia].
  - apply lut_name; [done|unfold zlen; rewrite Hs2; lia|lia].
  - destruct (index_in (l3_unitNames (l3 cfg)) (a_unit a)) as (x & -> & _); [unfold zlen in *; rewrite Hs3; lia|]. by exists x.
Qed.

Lemma valid_address cfg choices v :
  cfg_ok cfg → valid_connection choices v →
  ∃ a name, index_ choices v = Return a ∧ lookup_name cfg a = Return name.
Proof.
  intros Hc [Hv Ha]. destruct (choices !! Z.to_nat v) as [a|] eqn:E; [|done].
  destruct (lookup_name_ok cfg a Hc Ha) as [name Hname]. exists a, name. split; [|done].
  unfold is_u16 in Hv. rewrite <- (Z2Nat.id v) by lia. by apply index_lookup.
Qed.

Lemma connect_ok cfg choices input v :
  cfg_ok cfg → valid_connection choices v → 0 ≤ input < 0x40 →
  ∃ p, connect cfg choices (input * 2) v = Return p ∧ part_writes [p] = commands [con_reg input v].
Proof.
  intros Hc Hv Hi. destruct (valid_address cfg choices v Hc Hv) as (a & name & H1 & H2). unfold connect. rewrite H1.
  cbn [mbind outcome_bind]. rewrite H2. eexists. split; [reflexivity|]. destruct Hv as [Hv _]. by rewrite part_writes_con.
Qed.

(** ** Blocks *)

Definition part_flat (p : ScriptPart) : list WriteCommand :=
  to_command <$> match p with SWrite w => [w] | SComment _ => [] | SBlock ub => block_writes ub end.

Lemma flat_writes_bind parts : flat_writes parts = parts ≫= part_flat.
Proof.
  unfold flat_writes, script_writes. induction parts as [|p parts IH]; [done|].
  rewrite !bind_cons, fmap_app, IH. done.
Qed.

Lemma flat_writes_app a b : flat_writes (a ++ b) = flat_writes a ++ flat_writes b.
Proof. by rewrite !flat_writes_bind, bind_app. Qed.

(** A block that selects unit [u] of level [l] and writes the registers [regs]. *)
Definition gives (m : outcome ScriptPart) (l u : nat) (regs : list (Z * Z)) : Prop :=
  ∃ comment parts, m = Return (SBlock (mkBlock comment (select_unit (Z.of_nat l) (Z.of_nat u) :: parts)))
    ∧ part_writes parts = commands regs.

Lemma block_flat comment l u parts regs :
  (l < 4)%nat → (u < 256)%nat → part_writes parts = commands regs →
  part_flat (SBlock (mkBlock comment (select_unit (Z.of_nat l) (Z.of_nat u) :: parts))) = entry_writes (mkEntry l u regs).
Proof.
  intros Hl Hu Hp. unfold part_flat, block_writes, entry_writes. cbn [ub_parts select_unit omap list_omap].
  rewrite fmap_cons. fold (part_writes parts). rewrite Hp. f_equal. unfold to_command. cbn [rw_address rw_value e_level e_unit].
  f_equal. rewrite shiftl_mul by lia. rewrite (lor_add _ _ 8); [|lia|lia|apply Z.mod_mul; lia].
  unfold u16. rewrite Z.mod_small by lia. lia.
Qed.

Lemma for_indexed_ok {A B C} (f : nat → A → outcome B) (g : B → list C) (h : nat → list C) l k :
  (∀ i x, l !! i = Some x → ∃ y, f (k + i)%nat x = Return y ∧ g y = h (k + i)%nat) →
  ∃ ys, for_indexed f k l = Return ys ∧ ys ≫= g = seq k (length l) ≫= h.
Proof.
  revert k; induction l as [|x l IH]; intros k H; [by exists []|].
  destruct (H 0%nat x) as (y & Hy1 & Hy2); [done|]. rewrite Nat.add_0_r in *.
  destruct (IH (S k)) as (ys & H1 & H2).
  { intros i z Hz. destruct (H (S i) z Hz) as (y' & Hy'). exists y'. by rewrite Nat.add_succ_r in Hy'. }
  exists (y :: ys). cbn [for_indexed length seq]. rewrite Hy1. cbn [mbind outcome_bind]. rewrite H1. split; [done|].
  rewrite !bind_cons. by rewrite Hy2, H2.
Qed.

(** A script whose register writes are those of the entries [es]. *)
Definition runs (m : outcome (list ScriptPart)) (es : list entry) : Prop :=
  ∃ ys, m = Return ys ∧ flat_writes ys = es ≫= entry_writes.

Lemma runs_bind m es k es' :
  runs m es → (∀ ys, flat_writes ys = es ≫= entry_writes → runs (k ys) es') → runs (m ≫= k) es'.
Proof. intros (ys & -> & H) Hk. by apply Hk. Qed.

Lemma runs_Return ys es : flat_writes ys = es ≫= entry_writes → runs (Return ys) es.
Proof. by exists ys. Qed.

Lemma units_ok {A} `{Inhabited A} l o n (f : nat → A → outcome ScriptPart) (xs : list A) regs :
  (l < 4)%nat → (o + n ≤ 256)%nat → length xs = n →
  (∀ i, (i < n)%nat → gives (f i (xs !!! i)) l (o + i) (regs i)) →
  runs (for_indexed f 0 xs) (units l o n regs).
Proof.
  intros Hl Ho Hn Hf.
  destruct (for_indexed_ok f part_flat (λ i, entry_writes (mkEntry l (o + i) (regs i))) xs 0) as (ys & H1 & H2).
  { intros i x Hx. assert (Hi := lookup_lt_Some _ _ _ Hx). apply list_lookup_total_correct in Hx as <-.
    destruct (Hf i) as (c & parts & H1 & H2); [lia|]. eexists. split; [exact H1|]. apply block_flat; [done|lia|done]. }
  exists ys. split; [done|]. rewrite flat_writes_bind, H2, Hn. unfold units.
  induction (seq 0 n) as [|i ks IH]; [done|]. cbn [fmap list_fmap]. by rewrite !bind_cons, IH.
Qed.

Lemma unit_block_ok names l (u : nat) z parts regs :
  (u < length names)%nat → z = Z.of_nat u → part_writes parts = commands regs →
  gives (unit_block names (Z.of_nat l) z parts) l u regs.
Proof.
  intros Hu -> Hp. destruct (lookup_lt_is_Some_2 names u Hu) as [c Hc]. unfold unit_block.
  rewrite (index_lookup _ _ _ Hc). by exists c, parts.
Qed.

(** ** Levels *)

Lemma forall_total `{Inhabited A} (P : A → Prop) l i n : Forall P l → length l = n → (i < n)%nat → P (l !!! i).
Proof. intros Hl <- Hi. eapply Forall_lookup_1; [exact Hl|]. by apply list_lookup_lookup_total_lt. Qed.

(** The units of one kind of level 0. *)
Lemma level0_units {A} `{Inhabited A} (P : A → Prop) o n gen regs (xs : list A) (off : Z) :
  Forall P xs → length xs = n → (o + n ≤ 39)%nat → off = Z.of_nat o →
  (∀ x, P x → part_writes (gen x) = commands (regs x)) →
  runs (for_indexed (λ i u, unit_block L0_DefaultUnitNames 0 (Z.of_nat i + off) (gen u)) 0 xs) (units 0 o n (λ i, regs (xs !!! i))).
Proof.
  intros HP Hn Ho -> Hg. apply units_ok; [lia|lia|done|]. intros i Hi.
  apply (unit_block_ok _ 0); [cbn; lia|lia|]. apply Hg. by eapply forall_total.
Qed.

Lemma level0_ok cfg : cfg_ok cfg → runs (generate_level0 cfg) (entries0 (l0 cfg)).
Proof.
  intros ((Hs & _) & (H1 & H2 & H3 & H4 & H5 & _) & _). destruct Hs as (S1 & S2 & S3 & S4 & S5 & _).
  unfold generate_level0. cbv zeta.
  eapply runs_bind; [apply units_ok with (regs := λ i, timer_regs (timers (l0 cfg) !!! i)) (l := 0%nat) (o := 0%nat) (n := 4%nat); [lia|lia|exact S1|]|].
  { intros i Hi. apply (unit_block_ok _ 0); [cbn; lia|lia|]. apply timer_writes. by eapply forall_total. }
  intros y1 E1. eapply runs_bind; [by eapply (level0_units _ 4 8); [apply H2|apply S2|lia|done|apply resource_writes]|].
  intros y2 E2. eapply runs_bind; [eapply (level0_units _ 12 2) with (regs := λ s, [(0, sb_stackIndex s)]); [apply H3|apply S3|lia|done|]|].
  { intros x Hx. unfold generate_stack_busy. by rewrite !part_writes_reg by reg_tac. }
  intros y3 E3. eapply runs_bind; [eapply (level0_units _ 16 14); [apply H4|apply S4|lia|done|intros x Hx; by apply io_writes]|].
  intros y4 E4. eapply runs_bind; [eapply (level0_units _ 33 6); [apply H5|apply S5|lia|done|intros x Hx; by apply io_writes]|].
  intros y5 E5. apply runs_Return. unfold entries0. rewrite !flat_writes_app, !bind_app. by rewrite E1, E2, E3, E4, E5.
Qed.

Lemma forall_seq (P : nat → Prop) n i : Forall P (seq 0 n) → (i < n)%nat → P i.
Proof. rewrite Forall_forall. intros H Hi. apply H, elem_of_seq. lia. Qed.

(** The three dynamic inputs of a lookup table. *)
Lemma connect_inputs_ok cfg choices values :
  cfg_ok cfg → length choices = 3%nat → length values = 3%nat →
  Forall (λ i, valid_connection (choices !!! i) (values !!! i)) (seq 0 3) →
  ∃ ps, connect_inputs cfg choices values = Return ps
    ∧ part_writes ps = commands ((λ k, con_reg (Z.of_nat k) (values !!! k)) <$> seq 0 3).
Proof.
  intros Hc Hl1 Hl2 Hv. unfold connect_inputs, LUT_DynamicInputCount.
  destruct (for_indexed_ok (λ (_ input : nat),
    inputChoices ← index_ choices (Z.of_nat input); conValue ← index_ values (Z.of_nat input);
    connect cfg inputChoices (Z.of_nat input * 2) conValue) (λ p, part_writes [p])
    (λ k, commands [con_reg (Z.of_nat k) (values !!! k)]) (seq 0 3) 0) as (ps & H1 & H2).
  { intros i x Hx. apply lookup_seq in Hx as [-> Hi]. rewrite !index_total by lia. cbn [mbind outcome_bind].
    apply connect_ok; [done| |lia]. exact (forall_seq _ 3 i Hv Hi). }
  exists ps. split; [exact H1|].
  transitivity (ps ≫= λ p, part_writes [p]); [|by rewrite H2].
  clear. induction ps as [|p ps IH]; [done|]. rewrite bind_cons, <- IH, <- part_writes_app. done.
Qed.

Lemma level1_ok cfg : cfg_ok cfg → runs (generate_level1 cfg) (units 1 0 7 (lut1_regs (l1 cfg))).
Proof.
  intros Hc. pose proof Hc as ((_ & (S1 & S2) & _) & (_ & _ & _ & _ & _ & V & _) & (C & _)).
  unfold generate_level1. apply units_ok; [lia|lia|done|]. intros i Hi. unfold lut1_regs.
  destruct (write_lut_ok (l1_luts (l1 cfg) !!! i)) as (ram & -> & Hram); [by eapply (forall_total full_lut_ok)|].
  cbn [mbind outcome_bind]. destruct (i =? 2)%nat.
  - destruct (connect_inputs_ok cfg LUT2DynamicInputChoices (lut2Connections (l1 cfg))) as (ps & -> & Hps); [done..|].
    eexists _, _. split; [reflexivity|]. by rewrite part_writes_app, commands_app, Hram, Hps.
  - eexists _, _. split; [reflexivity|]. by rewrite !app_nil_r.
Qed.

Lemma level2_ok cfg : cfg_ok cfg → runs (generate_level2 cfg) (units 2 0 3 (lut2_regs (l2 cfg))).
Proof.
  intros Hc. pose proof Hc as ((_ & _ & (S1 & S2 & S3 & S4) & _) & (_ & _ & _ & _ & _ & _ & V & _) & (_ & C & _)).
  unfold generate_level2. apply units_ok; [lia|lia|done|]. intros i Hi. unfold lut2_regs.
  assert (V' : full_lut_ok (l2_luts (l2 cfg) !!! i)) by (by eapply forall_total). destruct V' as (V1 & V2 & V3 & _).
  destruct (forall_seq _ 3 i C Hi) as [C1 C2].
  destruct (write_lut_ok (l2_luts (l2 cfg) !!! i)) as (ram & -> & Hram); [done|]. cbn [mbind outcome_bind].
  rewrite (index_total L2_DynamicInputChoices) by done. cbn [mbind outcome_bind].
  rewrite (index_total (lutConnections (l2 cfg))) by lia. cbn [mbind outcome_bind].
  destruct (connect_inputs_ok cfg (lutChoices (L2_DynamicInputChoices !!! i)) (lutConnections (l2 cfg) !!! i)) as (ps & -> & Hps);
    [done|by do 3 (destruct i as [|i]; [done|]); lia|by eapply (forall_total (λ c, length c = 3%nat))|done|].
  cbn [mbind outcome_bind]. rewrite (index_total (strobeConnections (l2 cfg))) by lia. cbn [mbind outcome_bind].
  destruct (valid_address cfg _ _ Hc C2) as (a & name & -> & Hname). cbn [mbind outcome_bind]. rewrite Hname. cbn [mbind outcome_bind].
  eexists _, _. split; [reflexivity|]. destruct C2 as [C2 _].
  rewrite !part_writes_app, !commands_app, Hram, Hps, io_writes, part_writes_strobe by (done || (unfold LUT.StrobeGGIOOffset; lia)).
  rewrite part_writes_reg by (split; cbn; unfold is_u16; lia). done.
Qed.

Lemma connect_l3_ok cfg u k :
  cfg_ok cfg → (u < 33)%nat → (k < l3_inputs u)%nat →
  ∃ p, connect_l3 cfg (Z.of_nat u) (Z.of_nat k) = Return p
    ∧ part_writes [p] = commands [con_reg (Z.of_nat k) ((connections (l3 cfg) !!! u) !!! k)].
Proof.
  intros Hc Hu Hk. pose proof Hc as ((_ & _ & _ & (_ & _ & _ & _ & _ & S)) & _ & (_ & _ & C)).
  destruct (forall_seq _ _ u C Hu) as [C1 C2].
  assert (Hin : Forall (λ u, (l3_inputs u ≤ length (L3_DynamicInputChoiceLists !!! u))%nat) (seq 0 33))
    by (refine (bool_decide_unpack _ _); vm_compute; exact I).
  apply (forall_seq _ _ u) in Hin; [|done]. cbn beta in Hin.
  unfold connect_l3. rewrite (index_total (connections (l3 cfg))) by (rewrite S; done). cbn [mbind outcome_bind].
  rewrite (index_total (connections (l3 cfg) !!! u)) by lia. cbn [mbind outcome_bind].
  rewrite (index_total L3_DynamicInputChoiceLists) by done. cbn [mbind outcome_bind].
  rewrite (index_total (L3_DynamicInputChoiceLists !!! u)) by lia. cbn [mbind outcome_bind].
  apply connect_ok; [done| |unfold l3_inputs in Hk; case_bool_decide; lia].
  exact (forall_seq _ _ k C2 Hk).
Qed.

Lemma l3_inputs_pos u : (0 < l3_inputs u)%nat.
Proof. unfold l3_inputs. case_bool_decide; lia. Qed.

(** A level 3 unit with one input. *)
Lemma block3_ok cfg u z parts regs :
  cfg_ok cfg → z = Z.of_nat u → (u < 33)%nat → part_writes parts = commands regs →
  gives (c ← connect_l3 cfg z 0; unit_block L3_DefaultUnitNames 3 z (parts ++ [c])) 3 u
    (regs ++ [con_reg 0 ((connections (l3 cfg) !!! u) !!! 0%nat)]).
Proof.
  intros Hc -> Hu Hp. destruct (connect_l3_ok cfg u 0 Hc Hu (l3_inputs_pos u)) as (p & H1 & H2).
  change (connect_l3 cfg (Z.of_nat u) 0 = Return p) in H1. rewrite H1. cbn [mbind outcome_bind].
  apply (unit_block_ok _ 3); [cbn; lia|done|]. by rewrite part_writes_app, commands_app, Hp, H2.
Qed.

Lemma counter_ok cfg u z c :
  cfg_ok cfg → z = Z.of_nat u → (8 ≤ u < 16)%nat →
  gives (c0 ← connect_l3 cfg z 0; c1 ← connect_l3 cfg z 1; unit_block L3_DefaultUnitNames 3 z (generate_counter c ++ [c0; c1])) 3 u
    ([(14, Z.b2z (clearOnLatch c))]
     ++ [con_reg 0 ((connections (l3 cfg) !!! u) !!! 0%nat); con_reg 1 ((connections (l3 cfg) !!! u) !!! 1%nat)]).
Proof.
  intros Hc -> Hu. assert (Hin : l3_inputs u = 2%nat) by (unfold l3_inputs; by rewrite bool_decide_eq_true_2 by lia).
  destruct (connect_l3_ok cfg u 0 Hc ltac:(lia) ltac:(lia)) as (p & H1 & H2).
  destruct (connect_l3_ok cfg u 1 Hc ltac:(lia) ltac:(lia)) as (q & H3 & H4).
  change (connect_l3 cfg (Z.of_nat u) 0 = Return p) in H1. change (connect_l3 cfg (Z.of_nat u) 1 = Return q) in H3. rewrite H1. cbn [mbind outcome_bind]. rewrite H3. cbn [mbind outcome_bind].
  apply (unit_block_ok _ 3); [cbn; lia|done|]. change [p; q] with ([p] ++ [q]).
  rewrite !part_writes_app, H2, H4. unfold generate_counter. by rewrite part_writes_reg by reg_tac.
Qed.

Lemma level3_ok cfg : cfg_ok cfg → runs (generate_level3 cfg) (entries3 (l3 cfg)).
Proof.
  intros Hc. pose proof Hc as ((_ & _ & _ & (S1 & S2 & S3 & S4 & _)) & (_ & _ & _ & _ & _ & _ & _ & V1 & V2) & _).
  unfold generate_level3, entries3. cbv zeta.
  eapply runs_bind; [apply (units_ok 3 0 4); [lia|lia|exact S1|]|intros y1 E1].
  { intros i Hi. apply block3_ok; [done|lia|lia|]. apply start_writes. by eapply forall_total. }
  eapply runs_bind; [apply (units_ok 3 4 4); [lia|lia|exact S2|]|intros y2 E2].
  { intros i Hi. apply (block3_ok _ _ _ _ [(0, Z.b2z (mt_activate (masterTriggers (l3 cfg) !!! i)))]); [done|unfold Level3.MasterTriggersOffset; lia|lia|].
    unfold generate_master_trigger. by rewrite part_writes_reg by reg_tac. }
  eapply runs_bind; [apply (units_ok 3 8 8); [lia|lia|exact S3|]|intros y3 E3].
  { intros i Hi. apply counter_ok; [done|unfold Level3.CountersOffset; lia|lia]. }
  eapply runs_bind; [apply (units_ok 3 16 14); [lia|lia|done|]|intros y4 E4].
  { intros i Hi. apply (block3_ok _ _ _ [] []); [done|unfold Level3.NIM_IO_Unit_Offset; lia|lia|done]. }
  eapply runs_bind; [apply (units_ok 3 30 3); [lia|lia|exact S4|]|intros y5 E5].
  { intros i Hi. apply block3_ok; [done|unfold Level3.ECL_Unit_Offset; lia|lia|]. apply io_writes; [by eapply forall_total|lia]. }
  apply runs_Return. rewrite !flat_writes_app, !bind_app. by rewrite E1, E2, E3, E4, E5.
Qed.

Lemma generate_ok cfg : cfg_ok cfg → runs (generate_trigger_io_parts cfg) (entries cfg).
Proof.
  intros Hc. unfold generate_trigger_io_parts, entries.
  eapply runs_bind; [by apply level0_ok|intros y0 E0]. eapply runs_bind; [by apply level1_ok|intros y1 E1].
  eapply runs_bind; [by apply level2_ok|intros y2 E2]. eapply runs_bind; [by apply level3_ok|intros y3 E3].
  apply runs_Return. rewrite !flat_writes_app, !bind_app. by rewrite E0, E1, E2, E3.
Qed.

(** ** The register writes fit *)

Lemma units_entry_ok l o n regs :
  (l < 4)%nat → (o + n ≤ 256)%nat → (∀ i, (i < n)%nat → regs i ≠ [] ∧ Forall reg_ok (regs i)) → Forall entry_ok (units l o n regs).
Proof.
  intros Hl Ho Hr. apply Forall_fmap, Forall_forall. intros i Hi%elem_of_seq. destruct (Hr i) as [H1 H2]; [lia|].
  split_and!; [done|cbn; lia|done|done].
Qed.

Lemma io_regs_ok io flags offset : io_ok io → 0 ≤ offset < 0x80 → Forall reg_ok (io_regs io flags offset).
Proof.
  intros (H1 & H2 & H3 & H4) Ho. unfold io_regs. destruct flags as [[] []]; cbn; repeat constructor; cbn; first [lia|apply b2z_u16|apply H1|apply H2|apply H3|apply H4].
Qed.

Lemma ram_regs_ok lut : lut_ok lut → Forall reg_ok (ram_regs (lut_ram lut)).
Proof.
  intros (_ & H1 & H2)%lut_ram_spec. apply Forall_lookup. intros i p. unfold ram_regs. rewrite list_lookup_imap.
  destruct (lut_ram lut !! i) as [v|] eqn:E; [|done]. intros [= <-]. assert (Hi := lookup_lt_Some _ _ _ E).
  split; [cbn; lia|]. by eapply Forall_lookup_1.
Qed.

Lemma con_regs_ok (values : nat → Z) n choices :
  (n ≤ 0x20)%nat → Forall (λ k, valid_connection (choices k) (values k)) (seq 0 n) →
  Forall reg_ok ((λ k, con_reg (Z.of_nat k) (values k)) <$> seq 0 n).
Proof.
  intros Hn H. apply Forall_fmap, Forall_forall. intros k Hk. rewrite Forall_forall in H. destruct (H k Hk) as [Hu _].
  apply elem_of_seq in Hk. split; [cbn; lia|done].
Qed.

Lemma l3_con_ok cfg u k : cfg_ok cfg → (u < 33)%nat → (k < l3_inputs u)%nat → reg_ok (con_reg (Z.of_nat k) ((connections (l3 cfg) !!! u) !!! k)).
Proof.
  intros (_ & _ & (_ & _ & C)) Hu Hk. destruct (forall_seq _ _ u C Hu) as [_ C2]. destruct (forall_seq _ _ k C2 Hk) as [Hv _].
  unfold l3_inputs in Hk. split; [cbn; case_bool_decide; lia|done].
Qed.

Ltac regs_tac := repeat (apply Forall_cons; split; [reg_tac|]); try by apply Forall_nil.

Lemma app_not_nil {A} (l k : list A) : k ≠ [] → l ++ k ≠ [].
Proof. by destruct l. Qed.

Lemma ram_regs_not_nil lut rest : lut_ok lut → ram_regs (lut_ram lut) ++ rest ≠ [].
Proof. intros (_ & H & _)%lut_ram_spec. unfold ram_regs. by destruct (lut_ram lut). Qed.

Lemma entries0_ok cfg : cfg_ok cfg → Forall entry_ok (entries0 (l0 cfg)).
Proof.
  intros (((S1 & S2 & S3 & S4 & S5 & _) & _) & (V1 & V2 & V3 & V4 & V5 & _) & _).
  unfold entries0. repeat (apply Forall_app; split); (apply units_entry_ok; [lia|lia|intros i Hi; split; [done|]]).
  - destruct (forall_total _ _ i _ V1 S1 Hi) as (? & ? & ?). regs_tac.
  - destruct (forall_total _ _ i _ V2 S2 Hi) as (? & ? & ? & ?). apply Forall_app; split; [regs_tac|].
    apply Forall_app; split; [apply io_regs_ok; [done|lia]|regs_tac].
  - pose proof (forall_total _ _ i _ V3 S3 Hi). cbn in *. regs_tac.
  - apply io_regs_ok; [by eapply forall_total|lia].
  - apply io_regs_ok; [by eapply forall_total|lia].
Qed.

Lemma entries1_ok cfg : cfg_ok cfg → Forall entry_ok (units 1 0 7 (lut1_regs (l1 cfg))).
Proof.
  intros ((_ & (S & _) & _) & (_ & _ & _ & _ & _ & V & _) & (C & _)). apply units_entry_ok; [lia|lia|intros i Hi].
  destruct (forall_total _ _ i _ V S Hi) as (V1 & _). unfold lut1_regs. split; [by apply ram_regs_not_nil|].
  apply Forall_app; split; [by apply ram_regs_ok|]. destruct (i =? 2)%nat; [|done]. eapply con_regs_ok; [lia|exact C].
Qed.

Lemma entries2_ok cfg : cfg_ok cfg → Forall entry_ok (units 2 0 3 (lut2_regs (l2 cfg))).
Proof.
  intros ((_ & _ & (S & _) & _) & (_ & _ & _ & _ & _ & _ & V & _) & (_ & C & _)). apply units_entry_ok; [lia|lia|intros i Hi].
  destruct (forall_total _ _ i _ V S Hi) as (V1 & V2 & V3 & _). destruct (forall_seq _ _ i C Hi) as [C1 [C2 _]].
  unfold lut2_regs. split; [by apply ram_regs_not_nil|].
  rewrite !Forall_app. split_and!; [by apply ram_regs_ok| | | |].
  - apply Forall_cons; split; [|done]. split; cbn; unfold is_u16; lia.
  - eapply con_regs_ok; [lia|exact C1].
  - apply io_regs_ok; [done|unfold LUT.StrobeGGIOOffset; lia].
  - by apply Forall_cons.
Qed.

Lemma entries3_ok cfg : cfg_ok cfg → Forall entry_ok (entries3 (l3 cfg)).
Proof.
  intros Hc. pose proof Hc as ((_ & _ & _ & (S1 & S2 & S3 & S4 & _)) & (_ & _ & _ & _ & _ & _ & _ & V1 & V2) & _).
  assert (Hcon : ∀ u, (u < 33)%nat → Forall reg_ok [con_reg (Z.of_nat 0) ((connections (l3 cfg) !!! u) !!! 0%nat)])
    by (intros u Hu; apply Forall_singleton, l3_con_ok; [done|done|apply l3_inputs_pos]).
  unfold entries3. repeat (apply Forall_app; split); (apply units_entry_ok; [lia|lia|intros i Hi; split; [done|]]).
  - destruct (forall_total _ _ i _ V1 S1 Hi) as (? & ?). apply Forall_app; split; [regs_tac|apply Hcon; lia].
  - apply Forall_app; split; [regs_tac|apply Hcon; lia].
  - assert (l3_inputs (8 + i) = 2%nat) by (unfold l3_inputs; by rewrite bool_decide_eq_true_2 by lia).
    apply Forall_app; split; [regs_tac|]. apply Forall_cons; split; [apply l3_con_ok; [done|lia|lia]|].
    apply Forall_singleton, l3_con_ok; [done|lia|lia].
  - apply Hcon; lia.
  - apply Forall_app; split; [apply io_regs_ok; [by eapply forall_total|lia]|apply Hcon; lia].
Qed.

Lemma entries_ok cfg : cfg_ok cfg → Forall entry_ok (entries cfg).
Proof.
  intros Hc. unfold entries. rewrite !Forall_app. split_and!;
    [by apply entries0_ok|by apply entries1_ok|by apply entries2_ok|by apply entries3_ok].
Qed.

(** The registers of a unit after reading the script back. *)
Definition writes_of (cfg : TriggerIO) : LevelWrites := foldl apply_entry (replicate 4 ∅) (entries cfg).

Lemma unit_lookup cfg l o n regs i :
  cfg_ok cfg → units l o n regs ⊆ entries cfg → (i < n)%nat →
  level (writes_of cfg) l !! Z.of_nat (o + i) = Some (regmap (regs i)).
Proof.
  intros Hc Hsub Hi. apply (entries_lookup (entries cfg) (mkEntry l (o + i) (regs i)));
    [by apply entries_ok|apply entries_distinct|]. apply Hsub. apply list_elem_of_fmap. exists i. split; [done|]. apply elem_of_seq. lia.
Qed.

(** ** Reading the registers back *)

(** What survives: an input or output without its direction and activation registers,
    which [parse_io] gives up on. *)
Definition plain_io (io : IO) : IO := mkIO (io_delay io) (io_width io) (io_holdoff io) (io_invert io) 0 false.
Definition restored_timer (t : Timer) : Timer := mkTimer (t_range t) (t_delay_ns t) (t_period t) false.
Definition restored_resource (r : TriggerResource) : TriggerResource :=
  mkTriggerResource (tr_type r) (tr_irqIndex r) (plain_io (tr_gateGenerator r)) (tr_triggerIndex r).
Definition restored_counter (c : Counter) : Counter := mkCounter (clearOnLatch c) false.

Definition no_names : list string := replicate LUT.OutputBits EmptyString.
Definition gg_default (io : IO) : IO := if io_width io =? 0 then set_io_width LUT.StrobeGGDefaultWidth io else io.
Definition restored_lut1 (lut : Lut) : Lut := mkLut (lutContents lut) 0 (gg_default zero_io) no_names no_names.
Definition restored_lut2 (lut : Lut) : Lut :=
  mkLut (lutContents lut) (strobedOutputs lut) (gg_default (plain_io (strobeGG lut))) no_names no_names.

(** The configuration that the register writes describe. *)
Definition restored (cfg : TriggerIO) : TriggerIO :=
  mkTriggerIO
    (mkLvl0 (restored_timer <$> timers (l0 cfg)) (restored_resource <$> triggerResources (l0 cfg)) (stackBusy (l0 cfg))
       (l0_ioNIM (l0 cfg)) (plain_io <$> ioIRQ (l0 cfg)) L0_DefaultUnitNames)
    (mkLvl1 (restored_lut1 <$> l1_luts (l1 cfg)) (lut2Connections (l1 cfg)))
    (mkLvl2 (restored_lut2 <$> l2_luts (l2 cfg)) (lutConnections (l2 cfg)) (strobeConnections (l2 cfg)))
    (mkLvl3 (stackStart (l3 cfg)) (masterTriggers (l3 cfg)) (restored_counter <$> counters (l3 cfg)) (l0_ioNIM (l0 cfg))
       (plain_io <$> ioECL (l3 cfg)) L3_DefaultUnitNames (imap (λ u c, take (l3_inputs u) c) (connections (l3 cfg)))).

Lemma to_bool_b2z b : to_bool (Z.b2z b) = b.
Proof. by destruct b. Qed.

Lemma parse_io_full w off d wd h inv dir act :
  w !! u16 (off + 0) = Some d → w !! u16 (off + 2) = Some wd → w !! u16 (off + 4) = Some h →
  w !! u16 (off + 6) = Some (Z.b2z inv) → w !! u16 (off + 10) = Some dir → w !! u16 (off + 16) = Some (Z.b2z act) →
  parse_io w off = mkIO d wd h inv dir act.
Proof.
  intros H1 H2 H3 H4 H5 H6. unfold parse_io. rewrite H1, H2, H3, H4, H5, H6. cbn. by rewrite !to_bool_b2z.
Qed.

Lemma parse_io_plain w off io :
  w !! u16 (off + 0) = Some (io_delay io) → w !! u16 (off + 2) = Some (io_width io) → w !! u16 (off + 4) = Some (io_holdoff io) →
  w !! u16 (off + 6) = Some (Z.b2z (io_invert io)) → w !! u16 (off + 10) = None → parse_io w off = plain_io io.
Proof.
  intros H1 H2 H3 H4 H5. unfold parse_io. rewrite H1, H2, H3, H4, H5. cbn. by rewrite to_bool_b2z.
Qed.

(** A loop whose iterations succeed. *)
Lemma for_each_ok {S A} (l : list A) (p : A → parser S) (g : A → S → S) s :
  (∀ x s, x ∈ l → p x s = (g x s, true)) → for_each l p s = (foldl (λ s x, g x s) s l, true).
Proof.
  revert s; induction l as [|x l IH]; intros s H; [done|]. cbn [for_each foldl]. unfold andthen.
  rewrite H by apply list_elem_of_here. apply IH. intros y s' Hy. apply H. by apply list_elem_of_further.
Qed.

Lemma reg_at_unit (uw : UnitWrites) u regs r v : uw !! u = Some (regmap regs) → regmap regs !! r = Some v → reg_at uw u r = Some v.
Proof. intros H1 H2. unfold reg_at. rewrite H1. exact H2. Qed.

Lemma list_as_seq {A B} `{Inhabited A} (f : A → B) l n : length l = n → f <$> l = (λ i, f (l !!! i)) <$> seq 0 n.
Proof.
  intros <-. apply list_eq. intros i. rewrite !list_lookup_fmap. destruct (decide (i < length l)%nat) as [Hi|Hi].
  - rewrite lookup_seq_lt by done. rewrite list_lookup_lookup_total_lt by done. done.
  - rewrite lookup_seq_ge by lia. by rewrite lookup_ge_None_2 by lia.
Qed.

Lemma total_as_seq {A} `{Inhabited A} (l : list A) n : length l = n → (λ i, l !!! i) <$> seq 0 n = l.
Proof. intros Hn. by rewrite <- (list_as_seq (λ x, x) l n Hn), list_fmap_id. Qed.

Section Reading.
Context (cfg : TriggerIO) (Hc : cfg_ok cfg).

Local Abbreviation uw l := (level (writes_of cfg) l).

Ltac in_entries := intros e He; unfold entries, entries0, entries3; rewrite !elem_of_app; tauto.

(** The registers of unit [u], as the parser addresses it. *)
Lemma unit_at l o n regs i u :
  units l o n regs ⊆ entries cfg → (i < n)%nat → u = Z.of_nat (o + i) → uw l !! u = Some (regmap (regs i)).
Proof. intros H1 H2 ->. by apply (unit_lookup cfg l o n regs). Qed.

(** Reads the registers of the unit that [Hu] describes. *)
Ltac read_regs Hu :=
  unfold andthen, assign, with_unit, update;
  repeat match goal with |- context [reg_at ?w ?u ?r] => rewrite (reg_at_unit w u _ r _ Hu eq_refl) end; rewrite ?Hu; cbn [snd].

(** *** Level 0 *)

Definition put_timer (i : nat) (s : TriggerIO) : TriggerIO :=
  let x := timers (l0 cfg) !!! i in
  upd_timer i (λ t, mkTimer (t_range t) (t_delay_ns t) (t_period x) (t_softActivate t))
    (upd_timer i (λ t, mkTimer (t_range t) (t_delay_ns x) (t_period t) (t_softActivate t))
      (upd_timer i (λ t, mkTimer (t_range x) (t_delay_ns t) (t_period t) (t_softActivate t)) s)).

Lemma parse_timers_ok s : parse_timers (uw 0) s = (foldl (λ s i, put_timer i s) s (seq 0 4), true).
Proof.
  unfold parse_timers. apply for_each_ok. intros i s' Hi%elem_of_seq.
  assert (Hu : uw 0 !! Z.of_nat i = Some (regmap (timer_regs (timers (l0 cfg) !!! i))))
    by (apply (unit_at 0 0 4 (λ i, timer_regs (timers (l0 cfg) !!! i))); [in_entries|unfold TimerCount in *; lia|lia]).
  by read_regs Hu.
Qed.

Definition put_resource (i : nat) (s : TriggerIO) : TriggerIO :=
  let x := triggerResources (l0 cfg) !!! i in
  upd_resource i (λ t, mkTriggerResource (tr_type t) (tr_irqIndex t) (tr_gateGenerator t) (tr_triggerIndex x))
    (upd_resource i (λ t, mkTriggerResource (tr_type t) (tr_irqIndex t) (plain_io (tr_gateGenerator x)) (tr_triggerIndex t))
      (upd_resource i (λ t, mkTriggerResource (tr_type t) (tr_irqIndex x) (tr_gateGenerator t) (tr_triggerIndex t))
        (upd_resource i (λ t, mkTriggerResource (tr_type x) (tr_irqIndex t) (tr_gateGenerator t) (tr_triggerIndex t)) s))).

Lemma parse_resources_ok s : parse_resources (uw 0) s = (foldl (λ s i, put_resource i s) s (seq 0 8), true).
Proof.
  unfold parse_resources. apply for_each_ok. intros i s' Hi%elem_of_seq. unfold Level0.TriggerResourceCount in *.
  assert (Hu : uw 0 !! (Z.of_nat i + Level0.TriggerResourceOffset) = Some (regmap (resource_regs (triggerResources (l0 cfg) !!! i))))
    by (apply (unit_at 0 4 8 (λ i, resource_regs (triggerResources (l0 cfg) !!! i))); [in_entries|lia|unfold Level0.TriggerResourceOffset; lia]).
  destruct Hc as (((_ & S & _) & _) & (_ & V & _) & _). destruct (forall_total _ _ i 8 V S) as (V1 & V2 & V3 & V4); [lia|].
  read_regs Hu. rewrite (parse_io_plain _ 6 (tr_gateGenerator (triggerResources (l0 cfg) !!! i))) by reflexivity.
  by rewrite !u8_id.
Qed.

Lemma parse_busy_ok s :
  parse_busy (uw 0) s = (foldl (λ s i, upd_busy i (λ _, stackBusy (l0 cfg) !!! i) s) s (seq 0 2), true).
Proof.
  unfold parse_busy. apply for_each_ok. intros i s' Hi%elem_of_seq. unfold Level0.StackBusyCount in *.
  assert (Hu := unit_at 0 12 2 (λ i, [(0, sb_stackIndex (stackBusy (l0 cfg) !!! i))]) i (Z.of_nat i + Level0.StackBusyOffset)
    ltac:(in_entries) ltac:(lia) ltac:(unfold Level0.StackBusyOffset; lia)).
  read_regs Hu. by destruct (stackBusy (l0 cfg) !!! i).
Qed.

Lemma parse_nims_ok s :
  for_each (seq 0 NIM_IO_Count) (λ i,
    with_unit (uw 0) (Z.of_nat i + Level0.NIM_IO_Offset) (λ w, update (upd_nim i (λ _, parse_io w 0)))) s
  = (foldl (λ s i, upd_nim i (λ _, l0_ioNIM (l0 cfg) !!! i) s) s (seq 0 14), true).
Proof.
  apply for_each_ok. intros i s' Hi%elem_of_seq. unfold NIM_IO_Count in *.
  assert (Hu := unit_at 0 16 14 (λ i, io_regs (l0_ioNIM (l0 cfg) !!! i) NIM_IO_Flags 0) i (Z.of_nat i + Level0.NIM_IO_Offset)
    ltac:(in_entries) ltac:(lia) ltac:(unfold Level0.NIM_IO_Offset; lia)).
  read_regs Hu. destruct (l0_ioNIM (l0 cfg) !!! i) as [d w h inv dir act].
  by rewrite (parse_io_full _ 0 d w h inv dir act) by reflexivity.
Qed.

Lemma parse_irqs_ok s :
  for_each (seq 0 Level0.IRQ_Inputs_Count) (λ i,
    with_unit (uw 0) (Z.of_nat i + Level0.IRQ_Inputs_Offset) (λ w, update (upd_irq i (λ _, parse_io w 0)))) s
  = (foldl (λ s i, upd_irq i (λ _, plain_io (ioIRQ (l0 cfg) !!! i)) s) s (seq 0 6), true).
Proof.
  apply for_each_ok. intros i s' Hi%elem_of_seq. unfold Level0.IRQ_Inputs_Count in *.
  assert (Hu := unit_at 0 33 6 (λ i, io_regs (ioIRQ (l0 cfg) !!! i) no_flags 0) i (Z.of_nat i + Level0.IRQ_Inputs_Offset)
    ltac:(in_entries) ltac:(lia) ltac:(unfold Level0.IRQ_Inputs_Offset; lia)).
  read_regs Hu. by rewrite (parse_io_plain _ 0 (ioIRQ (l0 cfg) !!! i)) by reflexivity.
Qed.

Lemma parse_level0_ok :
  parse_level0 (uw 0) new_trigger_io = (mkTriggerIO (l0 (restored cfg)) new_lvl1 new_lvl2 new_lvl3, true).
Proof.
  pose proof Hc as (((S1 & S2 & S3 & S4 & S5 & _) & _) & _).
  unfold parse_level0, parse_l0_ios, andthen. rewrite parse_timers_ok, parse_resources_ok, parse_busy_ok, parse_nims_ok, parse_irqs_ok.
  f_equal. transitivity (mkTriggerIO (mkLvl0 ((λ i, restored_timer (timers (l0 cfg) !!! i)) <$> seq 0 4)
    ((λ i, restored_resource (triggerResources (l0 cfg) !!! i)) <$> seq 0 8) ((λ i, stackBusy (l0 cfg) !!! i) <$> seq 0 2)
    ((λ i, l0_ioNIM (l0 cfg) !!! i) <$> seq 0 14) ((λ i, plain_io (ioIRQ (l0 cfg) !!! i)) <$> seq 0 6) L0_DefaultUnitNames)
    new_lvl1 new_lvl2 new_lvl3); [reflexivity|].
  unfold restored. cbn [l0]. by rewrite (list_as_seq _ _ _ S1), (list_as_seq _ _ _ S2), (list_as_seq _ _ _ S5), (total_as_seq _ _ S3), (total_as_seq _ _ S4).
Qed.

(** *** Levels 1 and 2 *)

Lemma parse_lut_ok lut w :
  lut_ok lut → parse_lut_ram w = lut_ram lut →
  parse_lut w = Return (mkLut (lutContents lut) (match w !! 0x20 with Some v => v mod 2 ^ 3 | None => 0 end)
    (gg_default (parse_io w LUT.StrobeGGIOOffset)) no_names no_names).
Proof.
  intros Hl Hram. destruct (lut_ram_spec lut Hl) as (H1 & _). unfold parse_lut.
  rewrite Hram, (lut_contents_roundtrip lut _ Hl H1). done.
Qed.

Lemma ram_total lut : lut_ok lut → (λ i, lut_ram lut !!! i) <$> seq 0 16 = lut_ram lut.
Proof. intros (_ & H & _)%lut_ram_spec. by apply total_as_seq. Qed.

Lemma parse_lut1_ok i :
  (i < 7)%nat → parse_lut (regmap (lut1_regs (l1 cfg) i)) = Return (restored_lut1 (l1_luts (l1 cfg) !!! i)).
Proof.
  intros Hi. pose proof Hc as ((_ & (S & _) & _) & (_ & _ & _ & _ & _ & V & _) & _).
  destruct (forall_total _ _ i 7 V S Hi) as (V1 & _). unfold lut1_regs. rewrite <- (ram_total _ V1).
  rewrite (parse_lut_ok (l1_luts (l1 cfg) !!! i)); [|done|etransitivity; [|by apply ram_total]; by destruct (i =? 2)%nat].
  unfold restored_lut1. by destruct (i =? 2)%nat.
Qed.

Definition put_lut1 (i : nat) (s : TriggerIO) : TriggerIO :=
  let s1 := upd_lut1 i (λ _, restored_lut1 (l1_luts (l1 cfg) !!! i)) s in
  if (i =? 2)%nat then foldl (λ s k, upd_lut2con k (λ _, lut2Connections (l1 cfg) !!! k) s) s1 (seq 0 3) else s1.

Lemma parse_level1_ok l0 :
  parse_level1 (uw 1) (mkTriggerIO l0 new_lvl1 new_lvl2 new_lvl3)
  = (mkTriggerIO l0 (l1 (restored cfg)) new_lvl2 new_lvl3, true).
Proof.
  pose proof Hc as ((_ & (S1 & S2) & _) & (_ & _ & _ & _ & _ & V & _) & _). unfold parse_level1. rewrite (for_each_ok _ _ put_lut1).
  - f_equal. transitivity (mkTriggerIO l0 (mkLvl1 ((λ i, restored_lut1 (l1_luts (l1 cfg) !!! i)) <$> seq 0 7)
      ((λ i, lut2Connections (l1 cfg) !!! i) <$> seq 0 3)) new_lvl2 new_lvl3); [reflexivity|].
    unfold restored. cbn [l1]. by rewrite (list_as_seq _ _ _ S1), (total_as_seq _ _ S2).
  - intros i s Hi%elem_of_seq.
    assert (Hu := unit_at 1 0 7 (lut1_regs (l1 cfg)) i (Z.of_nat i) ltac:(in_entries) ltac:(lia) eq_refl).
    unfold andthen, with_unit at 1. rewrite Hu. unfold assign_lut. rewrite parse_lut1_ok by lia. unfold put_lut1. cbv zeta.
    destruct (i =? 2)%nat eqn:E; [|done]. apply for_each_ok. intros k s' Hk%elem_of_seq.
    rewrite (reg_at_unit _ _ _ (UnitConnectBase + 2 * Z.of_nat k) (lut2Connections (l1 cfg) !!! k) Hu); [done|].
    destruct (forall_total _ _ i 7 V S1 ltac:(lia)) as (V1 & _).
    unfold lut1_regs. rewrite <- (ram_total _ V1), E. unfold LUT_DynamicInputCount in *. by do 3 (destruct k as [|k]; [reflexivity|]); lia.
Qed.

Lemma parse_lut2_ok i :
  (i < 3)%nat → parse_lut (regmap (lut2_regs (l2 cfg) i)) = Return (restored_lut2 (l2_luts (l2 cfg) !!! i)).
Proof.
  intros Hi. pose proof Hc as ((_ & _ & (S & _) & _) & (_ & _ & _ & _ & _ & _ & V & _) & _).
  destruct (forall_total _ _ i 3 V S Hi) as (V1 & V2 & _). unfold lut2_regs. rewrite <- (ram_total _ V1).
  rewrite (parse_lut_ok (l2_luts (l2 cfg) !!! i)); [|done|etransitivity; [reflexivity|by apply ram_total]].
  unfold restored_lut2. rewrite (parse_io_plain _ _ (strobeGG (l2_luts (l2 cfg) !!! i))) by reflexivity.
  do 2 f_equal. by apply Z.mod_small.
Qed.

Definition put_lut2 (i : nat) (s : TriggerIO) : TriggerIO :=
  upd_strobecon i (λ _, strobeConnections (l2 cfg) !!! i)
    (foldl (λ s k, upd_lutcon i (alter (λ _, (lutConnections (l2 cfg) !!! i) !!! k) k) s)
      (upd_lut2 i (λ _, restored_lut2 (l2_luts (l2 cfg) !!! i)) s) (seq 0 3)).

Lemma put_lut2_ok i s : (i < 3)%nat →
  (with_unit (uw 2) (Z.of_nat i) (λ w, assign_lut w (λ lut, upd_lut2 i (λ _, lut)))
    &> for_each (seq 0 LUT_DynamicInputCount) (λ input,
         assign (reg_at (uw 2) (Z.of_nat i) (UnitConnectBase + 2 * Z.of_nat input))
           (λ v, upd_lutcon i (alter (λ _, v) input)))
    &> assign (reg_at (uw 2) (Z.of_nat i) (UnitConnectBase + 6)) (λ v, upd_strobecon i (λ _, v))) s
  = (put_lut2 i s, true).
Proof.
  intros Hi. pose proof Hc as ((_ & _ & (S1 & S2 & _) & _) & (_ & _ & _ & _ & _ & _ & V & _) & _).
  destruct (forall_total _ _ i 3 V S1 Hi) as (V1 & _).
  assert (Hu := unit_at 2 0 3 (lut2_regs (l2 cfg)) i (Z.of_nat i) ltac:(in_entries) Hi eq_refl).
  assert (Hreg : ∀ r v, regmap (lut2_regs (l2 cfg) i) !! r = Some v → reg_at (uw 2) (Z.of_nat i) r = Some v)
    by (intros; by eapply reg_at_unit).
  unfold lut2_regs in Hreg. rewrite <- (ram_total _ V1) in Hreg.
  unfold andthen, with_unit at 1. rewrite Hu. unfold assign_lut. rewrite parse_lut2_ok by lia.
  rewrite (for_each_ok _ _ (λ k s, upd_lutcon i (alter (λ _, (lutConnections (l2 cfg) !!! i) !!! k) k) s)).
  - by rewrite (Hreg (UnitConnectBase + 6) (strobeConnections (l2 cfg) !!! i) eq_refl).
  - intros k s' Hk%elem_of_seq. rewrite (Hreg _ ((lutConnections (l2 cfg) !!! i) !!! k)); [done|].
    unfold LUT_DynamicInputCount in *. by do 3 (destruct k as [|k]; [reflexivity|]); lia.
Qed.

Lemma parse_level2_ok l0 l1 :
  parse_level2 (uw 2) (mkTriggerIO l0 l1 new_lvl2 new_lvl3) = (mkTriggerIO l0 l1 (l2 (restored cfg)) new_lvl3, true).
Proof.
  pose proof Hc as ((_ & _ & (S1 & S2 & S3 & S4) & _) & _). unfold parse_level2.
  rewrite (for_each_ok _ _ put_lut2) by (intros i s Hi%elem_of_seq; apply put_lut2_ok; lia).
  f_equal. transitivity (mkTriggerIO l0 l1 (mkLvl2 ((λ i, restored_lut2 (l2_luts (l2 cfg) !!! i)) <$> seq 0 3)
    ((λ i, (λ k, (lutConnections (l2 cfg) !!! i) !!! k) <$> seq 0 3) <$> seq 0 3)
    ((λ i, strobeConnections (l2 cfg) !!! i) <$> seq 0 3)) new_lvl3); [reflexivity|].
  unfold restored. cbn [l2]. rewrite (list_as_seq _ _ _ S1), (total_as_seq _ _ S4). do 2 f_equal.
  etransitivity; [|by apply (total_as_seq _ 3)]. apply list_fmap_ext. intros k i [-> Hi]%lookup_seq.
  apply total_as_seq. apply (forall_total (λ c, length c = 3%nat) _ _ 3); [done|done|lia].
Qed.

(** *** Level 3 *)

Local Abbreviation con u k := ((connections (l3 cfg) !!! u) !!! k).

Definition put_start (i : nat) (s : TriggerIO) : TriggerIO :=
  let x := stackStart (l3 cfg) !!! i in
  upd_con i (λ _, [con i 0%nat])
    (upd_start i (λ t, mkStackStart (ss_activate t) (ss_stackIndex t) (ss_delay_ns x))
      (upd_start i (λ t, mkStackStart (ss_activate t) (ss_stackIndex x) (ss_delay_ns t))
        (upd_start i (λ t, mkStackStart (ss_activate x) (ss_stackIndex t) (ss_delay_ns t)) s))).
Definition put_master (i : nat) (s : TriggerIO) : TriggerIO :=
  upd_con (4 + i) (λ _, [con (4 + i)%nat 0%nat]) (upd_master i (λ _, mkMasterTrigger (mt_activate (masterTriggers (l3 cfg) !!! i))) s).
Definition put_counter (i : nat) (s : TriggerIO) : TriggerIO :=
  upd_con (8 + i) (λ _, [con (8 + i)%nat 0%nat; con (8 + i)%nat 1%nat])
    (upd_counter i (λ t, mkCounter (clearOnLatch (counters (l3 cfg) !!! i)) (c_softActivate t)) s).
Definition put_ecl (i : nat) (s : TriggerIO) : TriggerIO :=
  upd_con (30 + i) (λ _, [con (30 + i)%nat 0%nat]) (upd_ecl i (λ _, plain_io (ioECL (l3 cfg) !!! i)) s).

Lemma parse_l3_utilities_ok s :
  parse_l3_utilities (uw 3) s
  = (foldl (λ s i, put_counter i s)
      (foldl (λ s i, put_master i s) (foldl (λ s i, put_start i s) s (seq 0 4)) (seq 0 4)) (seq 0 8), true).
Proof.
  pose proof Hc as ((_ & _ & _ & (S & _)) & (_ & _ & _ & _ & _ & _ & _ & V & _) & _).
  unfold parse_l3_utilities. unfold andthen at 1. rewrite (for_each_ok _ _ put_start).
  2:{ intros i s' Hi%elem_of_seq. unfold Level3.StackStartCount in *.
    assert (Hu := unit_at 3 0 4 (λ i, start_regs (stackStart (l3 cfg) !!! i) ++ [con_reg (Z.of_nat 0) (con i 0%nat)]) i
      (Z.of_nat i) ltac:(in_entries) ltac:(lia) ltac:(lia)).
    destruct (forall_total _ _ i 4 V S) as (V1 & _); [lia|].
    read_regs Hu. by rewrite to_bool_b2z, u8_id, Nat2Z.id by done. }
  unfold andthen at 1. rewrite (for_each_ok _ _ put_master).
  2:{ intros i s' Hi%elem_of_seq. unfold Level3.MasterTriggersCount in *.
    assert (Hu := unit_at 3 4 4 (λ i, [(0, Z.b2z (mt_activate (masterTriggers (l3 cfg) !!! i)))] ++ [con_reg (Z.of_nat 0) (con (4 + i)%nat 0%nat)]) i
      (Z.of_nat i + Level3.MasterTriggersOffset) ltac:(in_entries) ltac:(lia) ltac:(unfold Level3.MasterTriggersOffset; lia)).
    read_regs Hu. rewrite to_bool_b2z. unfold put_master. do 2 f_equal. unfold Level3.MasterTriggersOffset. lia. }
  rewrite (for_each_ok _ _ put_counter); [done|].
  intros i s' Hi%elem_of_seq. unfold Level3.CountersCount in *.
  assert (Hu := unit_at 3 8 8 (λ i, [(14, Z.b2z (clearOnLatch (counters (l3 cfg) !!! i)))]
      ++ [con_reg (Z.of_nat 0) (con (8 + i)%nat 0%nat); con_reg (Z.of_nat 1) (con (8 + i)%nat 1%nat)]) i
    (Z.of_nat i + Level3.CountersOffset) ltac:(in_entries) ltac:(lia) ltac:(unfold Level3.CountersOffset; lia)).
  read_regs Hu. rewrite to_bool_b2z. unfold put_counter. do 2 f_equal. unfold Level3.CountersOffset. lia.
Qed.

Lemma parse_l3_outputs_ok s :
  parse_l3_outputs (uw 3) s
  = (foldl (λ s i, put_ecl i s) (foldl (λ s i, upd_con (16 + i) (λ _, [con (16 + i)%nat 0%nat]) s) s (seq 0 14)) (seq 0 3), true).
Proof.
  unfold parse_l3_outputs. unfold andthen at 1.
  rewrite (for_each_ok _ _ (λ i s, upd_con (16 + i) (λ _, [con (16 + i)%nat 0%nat]) s)).
  2:{ intros i s' Hi%elem_of_seq. unfold NIM_IO_Count in *.
    assert (Hu := unit_at 3 16 14 (λ i, [con_reg (Z.of_nat 0) (con (16 + i)%nat 0%nat)]) i
      (Z.of_nat i + Level3.NIM_IO_Unit_Offset) ltac:(in_entries) ltac:(lia) ltac:(unfold Level3.NIM_IO_Unit_Offset; lia)).
    read_regs Hu. do 2 f_equal. unfold Level3.NIM_IO_Unit_Offset. lia. }
  apply for_each_ok. intros i s' Hi%elem_of_seq. unfold ECL_OUT_Count in *.
  assert (Hu := unit_at 3 30 3 (λ i, io_regs (ioECL (l3 cfg) !!! i) ECL_IO_Flags 0 ++ [con_reg (Z.of_nat 0) (con (30 + i)%nat 0%nat)]) i
    (Z.of_nat i + Level3.ECL_Unit_Offset) ltac:(in_entries) ltac:(lia) ltac:(unfold Level3.ECL_Unit_Offset; lia)).
  read_regs Hu. rewrite (parse_io_plain _ 0 (ioECL (l3 cfg) !!! i)) by reflexivity.
  unfold put_ecl. do 2 f_equal. unfold Level3.ECL_Unit_Offset. lia.
Qed.

Lemma connections_restored :
  imap (λ u c, take (l3_inputs u) c) (connections (l3 cfg)) = (λ u, (λ k, con u k) <$> seq 0 (l3_inputs u)) <$> seq 0 33.
Proof.
  pose proof Hc as ((_ & _ & _ & (_ & _ & _ & _ & _ & S)) & _ & (_ & _ & C)). apply list_eq. intros u.
  rewrite list_lookup_imap, list_lookup_fmap. destruct (decide (u < 33)%nat) as [Hu|Hu].
  - rewrite lookup_seq_lt by done. rewrite list_lookup_lookup_total_lt by (rewrite S; exact Hu). cbn. f_equal.
    destruct (forall_seq _ _ u C Hu) as [C1 _]. rewrite <- (total_as_seq (take _ _) (l3_inputs u)) by (rewrite length_take; lia).
    apply list_fmap_ext. intros k ? [-> Hk]%lookup_seq. cbn. by rewrite lookup_total_take_lt by done.
  - rewrite lookup_seq_ge by lia. by rewrite lookup_ge_None_2 by (rewrite S; unfold Level3.UnitCount; lia).
Qed.

Lemma parse_level3_ok l0' l1' l2' :
  l0_ioNIM l0' = l0_ioNIM (l0 cfg) →
  parse_level3 (uw 3) (mkTriggerIO l0' l1' l2' new_lvl3) = (mkTriggerIO l0' l1' l2' (l3 (restored cfg)), true).
Proof.
  intros Hn. pose proof Hc as ((_ & _ & _ & (S1 & S2 & S3 & S4 & _ & _)) & _).
  unfold parse_level3, andthen, update. rewrite parse_l3_utilities_ok, parse_l3_outputs_ok. f_equal.
  transitivity (mkTriggerIO l0' l1' l2' (mkLvl3
    ((λ i, let x := stackStart (l3 cfg) !!! i in mkStackStart (ss_activate x) (ss_stackIndex x) (ss_delay_ns x)) <$> seq 0 4)
    ((λ i, mkMasterTrigger (mt_activate (masterTriggers (l3 cfg) !!! i))) <$> seq 0 4)
    ((λ i, restored_counter (counters (l3 cfg) !!! i)) <$> seq 0 8) (l0_ioNIM l0')
    ((λ i, plain_io (ioECL (l3 cfg) !!! i)) <$> seq 0 3) L3_DefaultUnitNames
    ((λ u, (λ k, con u k) <$> seq 0 (l3_inputs u)) <$> seq 0 33))); [reflexivity|].
  unfold restored. cbn [l3]. rewrite connections_restored, (list_as_seq _ _ _ S3), (list_as_seq _ _ _ S4), Hn. do 2 f_equal.
  - etransitivity; [|by apply (total_as_seq _ 4)]. apply list_fmap_ext. intros k i _. cbn. by destruct (stackStart (l3 cfg) !!! i).
  - etransitivity; [|by apply (total_as_seq _ 4)]. apply list_fmap_ext. intros k i _. by destruct (masterTriggers (l3 cfg) !!! i).
Qed.

Lemma trigger_io_from_writes_ok : trigger_io_from_writes (writes_of cfg) = restored cfg.
Proof.
  unfold trigger_io_from_writes. unfold andthen at 1. rewrite parse_level0_ok.
  unfold andthen at 1. rewrite parse_level1_ok. unfold andthen at 1. rewrite parse_level2_ok, parse_level3_ok by done. done.
Qed.

End Reading.

(** C7: a configuration whose integers fit their fields and whose connections are valid
    has a script, and reading the register writes of the script gives the
    configuration back up to the following: every timer, trigger resource, NIM setting,
    contents of a lookup table and connection of the four levels is restored.  Unit names
    come back with their defaults and the names of the outputs of lookup tables empty, and
    soft activate flags are off (they travel outside of the registers).  The strobe settings are
    restored for the lookup tables of level 2 only, a strobe gate width of 0 as 8; those of
    level 1 are lost.  Connections of level 3 are cut to the inputs that their unit has, the
    NIM settings are copied to level 3, and of inputs and outputs without a direction
    register only delay, width, holdoff and inversion survive; the activation flag of an ECL
    output is among the lost settings, although it is written. *)
Theorem trigger_io_roundtrip cfg :
  cfg_ok cfg →
  ∃ parts, generate_trigger_io_parts cfg = Return parts
    ∧ deserialize_trigger_io (flat_writes parts) = Return (restored cfg).
Proof.
  intros Hc. destruct (generate_ok cfg Hc) as (parts & H1 & H2). exists parts. split; [done|].
  unfold deserialize_trigger_io, level_writes_from_flat_writes. rewrite H2, collect_entries by (done || by apply entries_ok).
  cbn [mbind outcome_bind]. f_equal. by apply trigger_io_from_writes_ok.
Qed.

(** A configuration with settings on every level. *)
Definition sample_cfg : TriggerIO :=
  let lut i := mkLut [0x8000000000000001 + i; 0x123456789ABCDEF; 0xFFFF0000FFFF0000] 5 (mkIO 1 0 3 true 1 true)
                 ["a"; "b"; "c"]%string ["x"; "y"; "z"]%string in
  mkTriggerIO
    (mkLvl0 [mkTimer 1 2 3 true; mkTimer 3 0xFFFF 9 false; mkTimer 0 0 0 false; mkTimer 2 7 1000 true]
       (replicate 8 (mkTriggerResource 2 6 (mkIO 4 5 6 true 1 true) 3)) [mkStackBusy 1; mkStackBusy 7]
       (replicate 14 (mkIO 10 20 30 true 1 true)) (replicate 6 (mkIO 1 2 3 true 1 true)) L0_DefaultUnitNames)
    (mkLvl1 ((λ i, lut (Z.of_nat i)) <$> seq 0 7) [1; 0; 1])
    (mkLvl2 ((λ i, lut (Z.of_nat i)) <$> seq 0 3) [[0; 14; 18]; [1; 2; 3]; [4; 5; 15]] [0; 26; 29])
    (mkLvl3 (replicate 4 (mkStackStart true 3 100)) (replicate 4 (mkMasterTrigger true)) (replicate 8 (mkCounter true true))
       (replicate 14 zero_io) (replicate 3 (mkIO 5 6 7 true 0 true)) L3_DefaultUnitNames
       (replicate 8 [19; 0] ++ replicate 8 [13; 21] ++ replicate 17 [8; 0])).

Lemma trigger_io_roundtrip_witness :
  cfg_ok sample_cfg
  ∧ ∃ parts, generate_trigger_io_parts sample_cfg = Return parts
    ∧ deserialize_trigger_io (flat_writes parts) = Return (restored sample_cfg).
Proof.
  assert (H : cfg_ok sample_cfg) by (refine (bool_decide_unpack _ _); vm_compute; exact I).
  split; [exact H|]. exact (trigger_io_roundtrip sample_cfg H).
Defined.

(** ** Through a command builder *)

(** A write whose address has the offset of the controller is taken for a register write
    of the selected unit, which stays unit 0 of level 0. *)
Lemma collect_offset ws m :
  Forall (λ c, 0x300 ≤ wc_address c) ws →
  (∀ u, u ≠ 0 → m !! u = None) →
  ∃ m', collect_writes ws 0 0 [m; ∅; ∅; ∅] = Return [m'; ∅; ∅; ∅] ∧ ∀ u, u ≠ 0 → m' !! u = None.
Proof.
  intros Hw. revert m; induction Hw as [|c ws Hc Hw IH]; intros m Hm; [by exists m|]. cbn [collect_writes].
  unfold UnitSelectRegister, UnitRegisterBase. destruct (Z.eqb_spec (wc_address c) 512); [lia|].
  rewrite Z.geb_leb. destruct (Z.leb_spec 768 (wc_address c)); [|lia]. cbn [zlen length Z.of_nat].
  apply IH. intros u Hu. unfold set_register. rewrite lookup_insert_ne by done. by apply Hm.
Qed.

Lemma parse_unit0_only (m : UnitWrites) :
  (∀ u, u ≠ 0 → m !! u = None) →
  ∃ t, trigger_io_from_writes [m; ∅; ∅; ∅] = upd_timer 0 (λ _, t) new_trigger_io.
Proof.
  intros Hm. unfold trigger_io_from_writes. change (level [m; ∅; ∅; ∅] 0) with m. unfold parse_level0, parse_timers.
  change (seq 0 TimerCount) with [0%nat; 1%nat; 2%nat; 3%nat]. cbn [for_each]. unfold andthen, assign, reg_at.
  assert (H1 : m !! Z.of_nat 1 = None) by (by apply Hm). cbn [mbind option_bind] in *. rewrite ?H1.
  destruct (m !! Z.of_nat 0) as [w|]; cbn [mbind option_bind]; [|by exists (mkTimer 0 0 0 false)].
  destruct (w !! 2), (w !! 4), (w !! 6); eexists; reflexivity.
Qed.

Definition offset_write (w : RegisterWrite) : WriteCommand := mkWriteCommand (u32 (SelfVMEAddress + rw_address w)) (rw_value w).

Lemma builder_writes_add w b : builder_writes (add_write w b) = builder_writes b ++ [offset_write w].
Proof. unfold builder_writes, add_write. by rewrite getCommands_addCommand, omap_app. Qed.

Lemma builder_writes_adds ws b :
  builder_writes (foldl (λ b w, add_write w b) b ws) = builder_writes b ++ (offset_write <$> ws).
Proof.
  revert b; induction ws as [|w ws IH]; intros b; [by rewrite app_nil_r|]. cbn [foldl]. by rewrite IH, builder_writes_add, <- app_assoc.
Qed.

Lemma getCommands_beginGroup name meta b : getCommands (beginGroup name meta b) = getCommands b.
Proof. unfold getCommands, beginGroup. cbn [m_groups set_groups]. by rewrite bind_app, app_nil_r. Qed.

Lemma builder_writes_part p b : builder_writes (add_part b p) = builder_writes b ++ (offset_write <$> script_writes [p]).
Proof.
  destruct p as [w|s|ub]; cbn [add_part script_writes mbind list_bind]; rewrite ?app_nil_r; [apply builder_writes_add|done|].
  rewrite builder_writes_adds. unfold builder_writes. by rewrite getCommands_beginGroup.
Qed.

Lemma builder_writes_parts parts b :
  builder_writes (foldl add_part b parts) = builder_writes b ++ (offset_write <$> script_writes parts).
Proof.
  revert b; induction parts as [|p parts IH]; intros b; [by rewrite app_nil_r|]. cbn [foldl].
  rewrite IH, builder_writes_part, <- app_assoc, <- fmap_app. unfold script_writes. by rewrite <- bind_app.
Qed.

Lemma script_addresses cfg parts :
  cfg_ok cfg → flat_writes parts = entries cfg ≫= entry_writes → Forall (λ w, 0x200 ≤ rw_address w < 0x400) (script_writes parts).
Proof.
  intros Hc Hp. assert (H : Forall (λ c, 0x200 ≤ wc_address c < 0x400) (flat_writes parts)).
  { rewrite Hp. apply Forall_forall. intros c (e & Hc1 & He)%list_elem_of_bind.
    destruct (proj1 (Forall_forall _ _) (entries_ok cfg Hc) e He) as (_ & _ & _ & H). apply elem_of_cons in Hc1 as [->|Hc1]; [cbn; lia|].
    apply list_elem_of_fmap in Hc1 as (p & -> & Hp1). destruct (proj1 (Forall_forall _ _) H p Hp1) as [H1 _]. cbn. lia. }
  unfold flat_writes in H. apply Forall_fmap in H. exact H.
Qed.

(** The command builder of a configuration, handed to the parser for command
    builders, gives back the default configuration whatever the configuration was,
    timer 0 apart: the generator adds the VME address of the controller to every
    register address, the parser compares them without it and never sees a unit being
    selected. *)
Theorem command_builder_not_restored cfg :
  cfg_ok cfg →
  ∃ b t, generate_trigger_io_command_builder cfg = Return b
    ∧ parse_trigger_io_command_builder b = Return (upd_timer 0 (λ _, t) new_trigger_io).
Proof.
  intros Hc. destruct (generate_ok cfg Hc) as (parts & H1 & H2). unfold generate_trigger_io_command_builder. rewrite H1.
  cbn [mbind outcome_bind]. eexists.
  unfold parse_trigger_io_command_builder, deserialize_trigger_io, level_writes_from_flat_writes.
  destruct (collect_offset (builder_writes (foldl add_part (mkBuilder "init_trigger_io" [] ∅ false) parts)) ∅) as (m & Hm1 & Hm2).
  - rewrite builder_writes_parts. apply Forall_fmap. eapply Forall_impl; [by eapply script_addresses|].
    intros w Hw. cbn beta in Hw. unfold compose, offset_write, u32, SelfVMEAddress. cbn [wc_address]. rewrite Z.mod_small; lia.
  - intros u _. apply lookup_empty.
  - destruct (parse_unit0_only m Hm2) as [t Ht]. exists t. split; [reflexivity|].
    change (replicate 4 ∅) with [∅ : UnitWrites; ∅; ∅; ∅]. rewrite Hm1. cbn [mbind outcome_bind]. by rewrite Ht.
Qed.

Lemma command_builder_not_restored_witness :
  cfg_ok sample_cfg
  ∧ ∃ b t, generate_trigger_io_command_builder sample_cfg = Return b
    ∧ parse_trigger_io_command_builder b = Return (upd_timer 0 (λ _, t) new_trigger_io).
Proof.
  assert (H : cfg_ok sample_cfg) by (refine (bool_decide_unpack _ _); vm_compute; exact I).
  split; [exact H|]. exact (command_builder_not_restored sample_cfg H).
Defined.
