(* ===== verification/Errors.v ===== *)
(** * Error codes: [mvlc_error.h/.cc]

    The error codes of the library and the error types they belong to.  Codes of other
    categories (the sockets, the USB driver) come from code that is not part of the
    library; they appear with their value and their type. *)

From S2P Require Import Prelude Constants.

Module MVLCErrorCode.
(* mvlc_error.h:14-85 MVLCErrorCode *)
Inductive t : Type :=
| NoError | IsConnected | IsDisconnected | ShortWrite | ShortRead | MirrorEmptyRequest | MirrorEmptyResponse
| MirrorShortResponse | MirrorNotEqual | MirrorMaxTriesExceeded | InvalidBufferHeader | ReadResponseMaxWaitExceeded
| UnexpectedResponseSize | CommandArgOutOfRange | InvalidPipe | NoVMEResponse | VMEBusError | HostLookupError
| EmptyHostname | BindLocalError | SocketError | SocketReadTimeout | SocketWriteTimeout | UDPPacketChannelOutOfRange
| UDPDataWordCountExceedsPacketSize | UdpMaxOutgoingPacketSizeExceeded | StackCountExceeded | StackMemoryExceeded
| ImmediateStackReservedMemoryExceeded | StackSyntaxError | StackSegmentSizeExceeded | Stack0IsReserved
| MirrorTransactionMaxWordsExceeded | InvalidStackHeader | NonBlockAddressMode | TimerCountExceeded
| ReadoutSetupError | UnexpectedBufferHeader | InUse | USBNoDeviceFound | USBChipConfigError | SuperCommandTimeout
| StackCommandTimeout | ShortSuperFrame | SuperFormatError | StackFormatError | SuperReferenceMismatch
| StackReferenceMismatch | StackExecRequestLost | StackExecResponseLost | FirmwareTooOld | ErrorCodeMax.
End MVLCErrorCode.

#[global] Instance MVLCErrorCode_eq_dec : EqDecision MVLCErrorCode.t.
Proof. solve_decision. Defined.

Module ErrorType.
(* mvlc_error.h:91-99 ErrorType *)
Inductive t : Type := Success | ConnectionError | Timeout | ShortTransfer | ProtocolError | VMEError.
End ErrorType.

#[global] Instance ErrorType_eq_dec : EqDecision ErrorType.t.
Proof. solve_decision. Defined.

(* mvlc_error.cc:200-272 default_error_condition *)
Definition default_error_condition (ev : MVLCErrorCode.t) : ErrorType.t :=
  match ev with
  | MVLCErrorCode.NoError | MVLCErrorCode.ErrorCodeMax => ErrorType.Success
  | MVLCErrorCode.IsConnected | MVLCErrorCode.IsDisconnected | MVLCErrorCode.HostLookupError
  | MVLCErrorCode.BindLocalError | MVLCErrorCode.SocketError | MVLCErrorCode.EmptyHostname | MVLCErrorCode.InUse
  | MVLCErrorCode.USBNoDeviceFound | MVLCErrorCode.USBChipConfigError | MVLCErrorCode.MirrorMaxTriesExceeded
  | MVLCErrorCode.FirmwareTooOld | MVLCErrorCode.StackExecRequestLost
  | MVLCErrorCode.StackExecResponseLost => ErrorType.ConnectionError
  | MVLCErrorCode.ShortWrite | MVLCErrorCode.ShortRead => ErrorType.ShortTransfer
  | MVLCErrorCode.MirrorEmptyRequest | MVLCErrorCode.MirrorEmptyResponse | MVLCErrorCode.MirrorShortResponse
  | MVLCErrorCode.MirrorNotEqual | MVLCErrorCode.InvalidBufferHeader | MVLCErrorCode.UnexpectedResponseSize
  | MVLCErrorCode.CommandArgOutOfRange | MVLCErrorCode.InvalidPipe | MVLCErrorCode.StackCountExceeded
  | MVLCErrorCode.StackMemoryExceeded | MVLCErrorCode.ImmediateStackReservedMemoryExceeded
  | MVLCErrorCode.StackSyntaxError | MVLCErrorCode.StackSegmentSizeExceeded | MVLCErrorCode.Stack0IsReserved
  | MVLCErrorCode.MirrorTransactionMaxWordsExceeded | MVLCErrorCode.InvalidStackHeader
  | MVLCErrorCode.TimerCountExceeded | MVLCErrorCode.ReadoutSetupError | MVLCErrorCode.UnexpectedBufferHeader
  | MVLCErrorCode.UDPPacketChannelOutOfRange | MVLCErrorCode.UDPDataWordCountExceedsPacketSize
  | MVLCErrorCode.UdpMaxOutgoingPacketSizeExceeded | MVLCErrorCode.NonBlockAddressMode
  | MVLCErrorCode.ShortSuperFrame | MVLCErrorCode.SuperFormatError | MVLCErrorCode.StackFormatError
  | MVLCErrorCode.SuperReferenceMismatch | MVLCErrorCode.StackReferenceMismatch => ErrorType.ProtocolError
  | MVLCErrorCode.NoVMEResponse | MVLCErrorCode.VMEBusError => ErrorType.VMEError
  | MVLCErrorCode.SocketReadTimeout | MVLCErrorCode.SocketWriteTimeout | MVLCErrorCode.ReadResponseMaxWaitExceeded
  | MVLCErrorCode.SuperCommandTimeout | MVLCErrorCode.StackCommandTimeout => ErrorType.Timeout
  end.

(** [std::error_code]: a code of the library, or a value of another category with the
    type it is equivalent to. *)
Inductive error_code : Type :=
| Mvlc (e : MVLCErrorCode.t)
| Foreign (value : Z) (type : ErrorType.t).

#[global] Instance error_code_eq_dec : EqDecision error_code.
Proof. solve_decision. Defined.

(** [std::error_code {}] *)
Definition no_error : error_code := Foreign 0 ErrorType.Success.

(** [if (ec)] *)
Definition failed (ec : error_code) : bool :=
  match ec with
  | Mvlc e => negb (bool_decide (e = MVLCErrorCode.NoError))
  | Foreign v _ => negb (v =? 0)
  end.

(** [ec == ErrorType::...] *)
Definition is_type (ec : error_code) (type : ErrorType.t) : bool :=
  match ec with
  | Mvlc e => bool_decide (default_error_condition e = type)
  | Foreign _ t => bool_decide (t = type)
  end.

(* mvlc_error.h:118-121 is_vme_error *)
Definition is_vme_error (ec : error_code) : bool := is_type ec ErrorType.VMEError.
(* mvlc_error.h:123-126 is_connection_error *)
Definition is_connection_error (ec : error_code) : bool := is_type ec ErrorType.ConnectionError.
(* mvlc_error.h:128-131 is_protocol_error *)
Definition is_protocol_error (ec : error_code) : bool := is_type ec ErrorType.ProtocolError.
(* mvlc_error.h:133-136 is_timeout *)
Definition is_timeout (ec : error_code) : bool := is_type ec ErrorType.Timeout.
