(* ===== verification/CmdPipe.v ===== *)
(** * The command pipe reader: [mvlc.cc], lines 50-640

    A thread reads the responses of the controller from the command pipe into a buffer,
    cuts the buffer into frames and hands super and stack responses to the transactions
    that wait for them.  A transaction and the thread share two [PendingResponse]s, one
    for super and one for stack responses.

    Sizes of containers and pointer differences are integers.  [assert]s are not part of
    the model.  The counters are a function from their names. *)

From S2P Require Import Prelude Constants Frames StackErrors Errors.

(** ** Pending responses *)

(** What a transaction gave as the destination: a vector that grows, or a span of fixed
    size. *)
Inductive Dest : Type :=
| Vec (v : list Z)
| Span (v : list Z).

(* mvlc.cc:132-135 set_pending_response *)
Definition consume_vec (v data : list Z) : list Z := v ++ data.
(* mvlc.cc:145-148 set_pending_response *)
Definition consume_span (v data : list Z) : list Z := take (length v) data ++ drop (length data) v.

Definition consume_dest (d : Dest) (data : list Z) : Dest :=
  match d with Vec v => Vec (consume_vec v data) | Span v => Span (consume_span v data) end.

Definition dest_words (d : Dest) : list Z := match d with Vec v | Span v => v end.

(** The promise holds a value once it is set. *)
(* mvlc.cc:56-62 PendingResponse *)
Record PendingResponse : Type := mkPending {
  pr_promise : option error_code;
  pr_dest : Dest;
  pr_reference : Z;
  pr_pending : bool
}.

(* mvlc.cc:56-62 PendingResponse *)
Definition no_response : PendingResponse := mkPending None (Vec []) 0 false.

(* mvlc.cc:86-99 fullfill_pending_response *)
Definition fullfill_pending_response (pr : PendingResponse) (ec : error_code) (contents : list Z) : PendingResponse :=
  if pr_pending pr then mkPending (Some ec) (consume_dest (pr_dest pr) contents) (pr_reference pr) false else pr.

(** [None]: the call waits until another thread takes the response. *)
(* mvlc.cc:109-125 set_pending_response *)
Definition set_pending_response (pending : PendingResponse) (dest : Dest) (reference : Z) : option PendingResponse :=
  if pr_pending pending then None else Some (mkPending None dest reference true).

(** ** Counters *)

Module CmdPipeCounters.
(* mvlc.h:47-71 CmdPipeCounters *)
Inductive t : Type :=
| reads | bytesRead | timeouts | invalidHeaders | wordsSkipped | errorBuffers | superBuffers | stackBuffers
| dsoBuffers | shortSuperBuffers | superFormatErrors | superRefMismatches | stackRefMismatches
| superTransactionCount | superTransactionRetries | stackTransactionCount | stackTransactionRetries
| stackExecRequestsLost | stackExecResponsesLost.
End CmdPipeCounters.

#[global] Instance CmdPipeCounters_eq_dec : EqDecision CmdPipeCounters.t.
Proof. solve_decision. Defined.

Definition counters_t : Type := CmdPipeCounters.t → Z.
Definition add_counter (c : CmdPipeCounters.t) (n : Z) (cs : counters_t) : counters_t :=
  λ k, if decide (k = c) then u64 (cs k + n) else cs k.
Definition count (c : CmdPipeCounters.t) (cs : counters_t) : counters_t := add_counter c 1 cs.

(** ** The shared context *)

(* mvlc.cc:64-84 ReaderContext *)
Record ReaderContext : Type := mkContext {
  quit : bool;
  nextSuperReference : Z;
  nextStackReference : Z;
  pendingSuper : PendingResponse;
  pendingStack : PendingResponse;
  ctx_stackErrors : StackErrorCounters;
  ctx_counters : counters_t
}.

(* mvlc.cc:76-83 ReaderContext::ReaderContext *)
Definition new_context : ReaderContext :=
  mkContext false 1 1 no_response no_response new_error_counters (λ _, 0).

Definition set_quit (b : bool) (c : ReaderContext) : ReaderContext :=
  mkContext b (nextSuperReference c) (nextStackReference c) (pendingSuper c) (pendingStack c) (ctx_stackErrors c) (ctx_counters c).
Definition set_super (pr : PendingResponse) (c : ReaderContext) : ReaderContext :=
  mkContext (quit c) (nextSuperReference c) (nextStackReference c) pr (pendingStack c) (ctx_stackErrors c) (ctx_counters c).
Definition set_stack (pr : PendingResponse) (c : ReaderContext) : ReaderContext :=
  mkContext (quit c) (nextSuperReference c) (nextStackReference c) (pendingSuper c) pr (ctx_stackErrors c) (ctx_counters c).
Definition upd_counters (f : counters_t → counters_t) (c : ReaderContext) : ReaderContext :=
  mkContext (quit c) (nextSuperReference c) (nextStackReference c) (pendingSuper c) (pendingStack c) (ctx_stackErrors c) (f (ctx_counters c)).
Definition upd_errors (f : StackErrorCounters → StackErrorCounters) (c : ReaderContext) : ReaderContext :=
  mkContext (quit c) (nextSuperReference c) (nextStackReference c) (pendingSuper c) (pendingStack c) (f (ctx_stackErrors c)) (ctx_counters c).

Definition tick (c : CmdPipeCounters.t) : ReaderContext → ReaderContext := upd_counters (count c).

(** ** The read buffer *)

Module Buffer.
(* mvlc.cc:155-159 cmd_pipe_reader::Buffer *)
Record t : Type := mk { mem : list Z; start : Z; used : Z }.

Definition empty_buffer : t := mk [] 0 0.

(** The words between [begin()] and [end()] *)
(* mvlc.cc:233-236 cmd_pipe_reader::Buffer::viewU32 *)
Definition viewU32 (b : t) : list Z := ztake (used b) (zdrop (start b) (mem b)).

(* mvlc.cc:170-173 cmd_pipe_reader::Buffer::free *)
Definition free (b : t) : Z := zlen (mem b) - (start b + used b).

(* mvlc.cc:179-184 cmd_pipe_reader::Buffer::consume *)
Definition consume (nelements : Z) (b : t) : t := mk (mem b) (start b + nelements) (used b - nelements).

(* mvlc.cc:186-190 cmd_pipe_reader::Buffer::use *)
Definition use (nelements : Z) (b : t) : t := mk (mem b) (start b) (used b + nelements).

(* mvlc.cc:192-202 cmd_pipe_reader::Buffer::pack *)
Definition pack (b : t) : t :=
  if start b >? 0 then mk (viewU32 b ++ zdrop (used b) (mem b)) 0 (used b) else b.

(* mvlc.cc:213-226 cmd_pipe_reader::Buffer::ensureFreeSpace *)
Definition ensureFreeSpace (size : Z) (b : t) : t :=
  if free b <? size then
    let b := pack b in
    if free b <? size then mk (mem b ++ replicate (Z.to_nat size) 0) (start b) (used b) else b
  else b.

(** The words a read stores from [writeBegin()] on; beyond [writeEnd()] they leave the
    buffer. *)
(* mvlc.cc:571-573 cmd_pipe_reader *)
Definition store (words : list Z) (b : t) : outcome t :=
  if zlen words <=? free b then
    let pos := start b + used b in
    Return (use (zlen words) (mk (ztake pos (mem b) ++ words ++ zdrop (pos + zlen words) (mem b)) (start b) (used b)))
  else Undefined.
End Buffer.

(** ** Frames in the buffer *)

(* mvlc.cc:241-248 is_good_header *)
Definition is_good_header (header : Z) : bool :=
  is_super_buffer header || is_super_buffer_continuation header || is_stack_buffer header
  || is_stack_buffer_continuation header || is_stackerror_notification header.

Definition has_continue (flags : Z) : bool := negb ((flags .& frame_flags.Continue) =? 0).

(** The frame that starts [view] and the frames that continue it; one unit of fuel per
    frame. *)
(* mvlc.cc:250-294 contains_complete_frame *)
Fixpoint contains_complete_frame (fuel : nat) (view : list Z) : bool :=
  match fuel, view with
  | S fuel, header :: _ =>
      let frameInfo := extract_frame_info header in
      if fi_len frameInfo + 1 >? zlen view then false
      else if has_continue (fi_flags frameInfo) then
        let rest := zdrop (fi_len frameInfo + 1) view in
        match rest with
        | [] => false
        | header :: _ => if negb (is_good_header header) then false else contains_complete_frame fuel rest
        end
      else true
  | _, _ => false
  end.

(** [toConsume]: the sum of the sizes of the frame and its continuations. *)
(* mvlc.cc:420-428 cmd_pipe_reader *)
Fixpoint frames_to_consume (fuel : nat) (view : list Z) : outcome Z :=
  match fuel, view with
  | S fuel, header :: _ =>
      let frameInfo := extract_frame_info header in
      if has_continue (fi_flags frameInfo) then
        n ← frames_to_consume fuel (zdrop (fi_len frameInfo + 1) view);
        Return (fi_len frameInfo + 1 + n)
      else Return (fi_len frameInfo + 1)
  | _, _ => Undefined
  end.

(** ** Frame handlers *)

(* mvlc.cc:358-372 cmd_pipe_reader *)
Definition handle_stackerror (view : list Z) (header : Z) (c : ReaderContext) : Z * ReaderContext :=
  let frameLength := get_frame_length header in
  let frame := ztake (frameLength + 1) view in
  (frameLength + 1, upd_errors (λ e, update_stack_error_counters e frame) (tick CmdPipeCounters.errorBuffers c)).

(** The verdict on a super frame: an error and the counter it increments. *)
(* mvlc.cc:384-418 cmd_pipe_reader *)
Definition check_super (view : list Z) (header reference : Z) : outcome (option (MVLCErrorCode.t * CmdPipeCounters.t)) :=
  if get_frame_length header =? 0 then Return (Some (MVLCErrorCode.ShortSuperFrame, CmdPipeCounters.shortSuperBuffers))
  else
    match view !! 1%nat with
    | None => Undefined
    | Some refCmd =>
        if negb (((refCmd ≫ super_commands.SuperCmdShift) .& super_commands.SuperCmdMask) =? SuperCommandType.ReferenceWord)
        then Return (Some (MVLCErrorCode.SuperFormatError, CmdPipeCounters.superFormatErrors))
        else if negb ((refCmd .& super_commands.SuperCmdArgMask) =? reference)
        then Return (Some (MVLCErrorCode.SuperReferenceMismatch, CmdPipeCounters.superRefMismatches))
        else Return None
    end.

(* mvlc.cc:374-438 cmd_pipe_reader *)
Definition handle_super (view : list Z) (header : Z) (c : ReaderContext) : outcome (Z * ReaderContext) :=
  let c := tick CmdPipeCounters.superBuffers c in
  verdict ← check_super view header (pr_reference (pendingSuper c));
  toConsume ← frames_to_consume (S (length view)) view;
  Return (toConsume,
    match verdict with
    | Some (e, counter) => set_super (fullfill_pending_response (pendingSuper c) (Mvlc e) []) (tick counter c)
    | None => set_super (fullfill_pending_response (pendingSuper c) no_error (ztake toConsume view)) c
    end).

(* mvlc.cc:454-473 cmd_pipe_reader *)
Definition check_stack (view : list Z) (header reference : Z) : outcome (option (MVLCErrorCode.t * option CmdPipeCounters.t)) :=
  if get_frame_length header =? 0 then Return (Some (MVLCErrorCode.StackFormatError, None))
  else
    match view !! 1%nat with
    | None => Undefined
    | Some stackRef =>
        if negb (stackRef =? reference)
        then Return (Some (MVLCErrorCode.StackReferenceMismatch, Some CmdPipeCounters.stackRefMismatches))
        else Return None
    end.

(* mvlc.cc:440-493 cmd_pipe_reader *)
Definition handle_stack (view : list Z) (header : Z) (c : ReaderContext) : outcome (Z * ReaderContext) :=
  let c := tick CmdPipeCounters.stackBuffers c in
  verdict ← check_stack view header (pr_reference (pendingStack c));
  toConsume ← frames_to_consume (S (length view)) view;
  Return (toConsume,
    match verdict with
    | Some (e, counter) =>
        set_stack (fullfill_pending_response (pendingStack c) (Mvlc e) [])
          (match counter with Some k => tick k c | None => c end)
    | None => set_stack (fullfill_pending_response (pendingStack c) no_error (ztake toConsume view)) c
    end).

(** A known header of another kind is reported and nothing is consumed. *)
(* mvlc.cc:358-502 cmd_pipe_reader *)
Definition handle_frame (view : list Z) (header : Z) (c : ReaderContext) : outcome (Z * ReaderContext) :=
  if is_stackerror_notification header then Return (handle_stackerror view header c)
  else if is_super_buffer header then handle_super view header c
  else if is_stack_buffer header then handle_stack view header c
  else Return (0, c).

(** ** The loop over the buffer *)

(* mvlc.cc:332-340 cmd_pipe_reader *)
Fixpoint count_bad_headers (view : list Z) : nat :=
  match view with
  | [] => 0
  | header :: rest => if is_good_header header then 0 else S (count_bad_headers rest)
  end.

Definition skip_words (n : nat) (c : ReaderContext) : ReaderContext :=
  Nat.iter n (λ c, tick CmdPipeCounters.wordsSkipped (tick CmdPipeCounters.invalidHeaders c)) c.

(** Runs until the buffer holds no complete frame.  The flag tells that the loop has ended;
    without it the fuel was used up in the state that is returned. *)
(* mvlc.cc:325-520 cmd_pipe_reader *)
Fixpoint process_buffer (fuel : nat) (b : Buffer.t) (c : ReaderContext) : outcome (Buffer.t * ReaderContext * bool) :=
  match fuel with
  | O => Return (b, c, false)
  | S fuel =>
      if (Buffer.used b =? 0) || quit c then Return (b, c, true)
      else
        let skipped := count_bad_headers (Buffer.viewU32 b) in
        let b := Buffer.consume (Z.of_nat skipped) b in
        let c := skip_words skipped c in
        let view := Buffer.viewU32 b in
        match view with
        | [] => process_buffer fuel b c
        | header :: _ =>
            if contains_complete_frame (length view) view then
              '(n, c) ← handle_frame view header c;
              process_buffer fuel (Buffer.consume n b) c
            else Return (b, c, true)
        end
  end.

(** ** Reading *)

(** What one read from the pipe returned: the words (of the payload, for ETH), the
    number of bytes that were transferred and the error code. *)
Record ReadResult : Type := mkRead { rr_words : list Z; rr_bytes : Z; rr_ec : error_code }.

(** Space for the largest transfer of the connection. *)
(* mvlc.cc:530-531 cmd_pipe_reader *)
Definition transfer_words (connection : ConnectionType) : Z :=
  match connection with
  | USB => usb.USBSingleTransferMaxWords
  | ETH => eth.JumboFrameMaxSize / 4
  end.

(* mvlc.cc:526-608 cmd_pipe_reader *)
Definition read_pipe (connection : ConnectionType) (r : ReadResult) (b : Buffer.t) (c : ReaderContext)
  : outcome (Buffer.t * ReaderContext) :=
  let b := if Buffer.free b <? transfer_words connection then Buffer.ensureFreeSpace (transfer_words connection) b else b in
  b ← Buffer.store (rr_words r) b;
  let c := upd_counters (add_counter CmdPipeCounters.bytesRead (rr_bytes r)) (tick CmdPipeCounters.reads c) in
  let c := if is_type (rr_ec r) ErrorType.Timeout then tick CmdPipeCounters.timeouts c else c in
  let c := if is_type (rr_ec r) ErrorType.ConnectionError then set_quit true c else c in
  Return (b, c).

(* mvlc.cc:611-617 cmd_pipe_reader *)
Definition reader_exit (ec : error_code) (c : ReaderContext) : ReaderContext :=
  let ec := if failed ec then ec else Mvlc MVLCErrorCode.IsDisconnected in
  let c := set_super (fullfill_pending_response (pendingSuper c) ec []) c in
  set_stack (fullfill_pending_response (pendingStack c) ec []) c.

(** The reader thread: its buffer, the shared context and the error code of its last
    read. *)
Record Reader : Type := mkReader { rd_buffer : Buffer.t; rd_context : ReaderContext; rd_ec : error_code }.

(* mvlc.cc:312-314 cmd_pipe_reader *)
Definition reader_start (c : ReaderContext) : Reader :=
  mkReader (Buffer.ensureFreeSpace (1024 * 1024 / 4) Buffer.empty_buffer) c no_error.

(** One read and the processing of the buffer that follows it.  A connection error ends
    the loop before the buffer is looked at again; a thread that has quit reads nothing.
    The fuel is one more than the number of words in the buffer.  The flag is cleared
    when the thread does not come back to reading. *)
(* mvlc.cc:323-617 cmd_pipe_reader *)
Definition feed (connection : ConnectionType) (r : ReadResult) (rd : Reader) : outcome (Reader * bool) :=
  if quit (rd_context rd) then Return (rd, true)
  else
    '(b, c) ← read_pipe connection r (rd_buffer rd) (rd_context rd);
    if quit c then Return (mkReader b (reader_exit (rr_ec r) c) (rr_ec r), true)
    else
      '(b, c, ended) ← process_buffer (S (length (Buffer.viewU32 b))) b c;
      Return (mkReader b c (rr_ec r), ended).

(* mvlc.cc:323-617 cmd_pipe_reader *)
Fixpoint feed_all (connection : ConnectionType) (rs : list ReadResult) (rd : Reader) : outcome (Reader * bool) :=
  match rs with
  | [] => Return (rd, true)
  | r :: rest =>
      '(rd, ended) ← feed connection r rd;
      if ended : bool then feed_all connection rest rd else Return (rd, false)
  end.
