(* ===== verification/CmdPipeFacts.v ===== *)
(** * Properties of the command pipe reader

    The read buffer implements a queue of words.  On the queue, the reader is a
    deterministic sequence of small steps (skip a word, take a response), whose result
    does not depend on how the input is cut into reads.  A response that answers the
    pending request reaches the transaction word by word. *)

From stdpp Require Import relations.
From S2P Require Import Prelude Constants Frames FramesFacts StackErrors Errors CmdPipe.

(** ** The read buffer is a queue *)

Definition buffer_ok (b : Buffer.t) : Prop :=
  0 ≤ Buffer.start b ∧ 0 ≤ Buffer.used b ∧ Buffer.start b + Buffer.used b ≤ zlen (Buffer.mem b).

(** Buffer [b] holds the words [q]. *)
Definition represents (b : Buffer.t) (q : list Z) : Prop := buffer_ok b ∧ Buffer.viewU32 b = q.

Lemma represents_split b q :
  represents b q ↔ ∃ pre post, Buffer.mem b = pre ++ q ++ post ∧ Buffer.start b = zlen pre ∧ Buffer.used b = zlen q.
Proof.
  split.
  - intros [(H1 & H2 & H3) <-]. exists (ztake (Buffer.start b) (Buffer.mem b)), (zdrop (Buffer.used b) (zdrop (Buffer.start b) (Buffer.mem b))).
    unfold Buffer.viewU32. rewrite !ztake_zdrop, !zlen_ztake by (rewrite ?zlen_zdrop; lia). done.
  - intros (pre & post & Hm & Hs & Hu). split.
    + unfold buffer_ok. rewrite Hm, !zlen_app, Hs, Hu. pose proof (zlen_nonneg pre). pose proof (zlen_nonneg q). pose proof (zlen_nonneg post). lia.
    + unfold Buffer.viewU32. by rewrite Hm, Hs, Hu, zdrop_app, ztake_app.
Qed.

Lemma represents_used b q : represents b q → Buffer.used b = zlen q.
Proof. intros (pre & post & _ & _ & H)%represents_split. done. Qed.

Lemma represents_consume b q n : represents b q → 0 ≤ n ≤ zlen q → represents (Buffer.consume n b) (zdrop n q).
Proof.
  intros (pre & post & Hm & Hs & Hu)%represents_split Hn. apply represents_split.
  exists (pre ++ ztake n q), post. unfold Buffer.consume. cbn. rewrite Hm, Hs, Hu, zlen_app, zlen_ztake, zlen_zdrop by lia.
  split_and!; [|lia|lia]. by rewrite <- app_assoc, (app_assoc (ztake n q)), ztake_zdrop.
Qed.

Lemma represents_pack b q : represents b q → represents (Buffer.pack b) q ∧ Buffer.free b ≤ Buffer.free (Buffer.pack b).
Proof.
  intros Hr. pose proof Hr as [(H1 & H2 & H3) Hq]. pose proof Hr as (pre & post & Hm & Hs & Hu)%represents_split.
  unfold Buffer.pack. destruct (Z.gtb_spec (Buffer.start b) 0); [|done].
  split.
  - apply represents_split. exists [], (zdrop (Buffer.used b) (Buffer.mem b)). cbn. by rewrite Hq, Hu.
  - unfold Buffer.free. cbn. rewrite Hq, zlen_app, zlen_zdrop by lia. lia.
Qed.

Lemma represents_ensure b q size :
  represents b q → 0 ≤ size → represents (Buffer.ensureFreeSpace size b) q ∧ size ≤ Buffer.free (Buffer.ensureFreeSpace size b).
Proof.
  intros Hr Hs. unfold Buffer.ensureFreeSpace. destruct (Z.ltb_spec (Buffer.free b) size); [|done].
  destruct (represents_pack b q Hr) as [Hp _]. cbv zeta. destruct (Z.ltb_spec (Buffer.free (Buffer.pack b)) size) as [Hlt|]; [|done].
  pose proof Hp as [(H1 & H2 & H3) _]. split.
  - apply represents_split in Hp as (pre & post & Hm & Hst & Hu). apply represents_split.
    exists pre, (post ++ replicate (Z.to_nat size) 0). cbn. by rewrite Hm, <- !app_assoc.
  - unfold Buffer.free in *. cbn [Buffer.mem Buffer.start Buffer.used]. rewrite zlen_app. unfold zlen in *. rewrite length_replicate. lia.
Qed.

Lemma represents_store b q ws :
  represents b q → zlen ws ≤ Buffer.free b → 
  ∃ b', Buffer.store ws b = Return b' ∧ represents b' (q ++ ws) ∧ Buffer.free b' = Buffer.free b - zlen ws.
Proof.
  intros (pre & post & Hm & Hs & Hu)%represents_split Hf. unfold Buffer.store. destruct (Z.leb_spec (zlen ws) (Buffer.free b)); [|lia].
  pose proof (zlen_nonneg ws). pose proof (zlen_nonneg (pre ++ q)).
  unfold Buffer.free in *. eexists; split; [reflexivity|].
  unfold Buffer.use. cbn [Buffer.mem Buffer.start Buffer.used]. rewrite Hm, Hs, Hu in Hf |- *. rewrite !zlen_app in Hf |- *.
  rewrite (app_assoc pre q), <- zlen_app, ztake_app.
  assert (Hd : zdrop (zlen (pre ++ q) + zlen ws) ((pre ++ q) ++ post) = zdrop (zlen ws) post).
  { unfold zdrop. rewrite Z2Nat.inj_add by done. rewrite drop_app_ge by (unfold zlen in *; lia). f_equal. unfold zlen. lia. }
  rewrite Hd. unfold Buffer.use. cbn. split.
  - apply represents_split. exists pre, (zdrop (zlen ws) post). cbn. by rewrite zlen_app, <- !app_assoc.
  - rewrite !zlen_app, zlen_zdrop in * by lia. lia.
Qed.

(** The operations of the reader on its buffer, and what they mean for a queue. *)
Inductive buffer_op : Type :=
| OpConsume (n : Z)
| OpEnsure (size : Z)
| OpStore (ws : list Z).

Definition run_op (op : buffer_op) (b : Buffer.t) : outcome Buffer.t :=
  match op with
  | OpConsume n => Return (Buffer.consume n b)
  | OpEnsure size => Return (Buffer.ensureFreeSpace size b)
  | OpStore ws => Buffer.store ws b
  end.

Fixpoint run_ops (ops : list buffer_op) (b : Buffer.t) : outcome Buffer.t :=
  match ops with [] => Return b | op :: ops => b ← run_op op b; run_ops ops b end.

(** The queue, and the free space the client may count on. *)
Definition spec_op (op : buffer_op) (s : list Z * Z) : option (list Z * Z) :=
  let '(q, space) := s in
  match op with
  | OpConsume n => if (0 <=? n) && (n <=? zlen q) then Some (zdrop n q, space) else None
  | OpEnsure size => if 0 <=? size then Some (q, size) else None
  | OpStore ws => if zlen ws <=? space then Some (q ++ ws, space - zlen ws) else None
  end.

Fixpoint spec_ops (ops : list buffer_op) (s : list Z * Z) : option (list Z * Z) :=
  match ops with [] => Some s | op :: ops => s ← spec_op op s; spec_ops ops s end.

Definition implements (b : Buffer.t) (s : list Z * Z) : Prop := represents b s.1 ∧ s.2 ≤ Buffer.free b.

Lemma run_op_implements op b s s' :
  implements b s → spec_op op s = Some s' → ∃ b', run_op op b = Return b' ∧ implements b' s'.
Proof.
  destruct s as [q space]. intros [Hr Hf] Hs. cbn in Hr, Hf. destruct op as [n|size|ws]; cbn [spec_op run_op] in *.
  - destruct (_ && _) eqn:E; [|done]. breflect. injection Hs as <-. eexists. split; [reflexivity|].
    split; [by apply represents_consume|]. unfold Buffer.free, Buffer.consume in *. cbn. lia.
  - destruct (Z.leb_spec 0 size); [|done]. injection Hs as <-. eexists. split; [reflexivity|]. by apply represents_ensure.
  - destruct (Z.leb_spec (zlen ws) space); [|done]. injection Hs as <-.
    destruct (represents_store b q ws Hr ltac:(lia)) as (b' & -> & Hr' & Hf'). eexists. split; [reflexivity|]. split; [done|]. cbn. lia.
Qed.

(** C6: the read buffer of the command pipe reader (an array with a start index and a
    fill count that is packed and enlarged) implements a queue: every sequence of
    consume, ensure-space and store operations that a queue with reserved space allows
    runs without leaving the array, and afterwards the buffer holds the words of the
    queue and has the reserved space. *)
Theorem buffer_refines_queue ops b s s' :
  implements b s → spec_ops ops s = Some s' → ∃ b', run_ops ops b = Return b' ∧ implements b' s'.
Proof.
  revert b s; induction ops as [|op ops IH]; intros b s Hi Hs; cbn [spec_ops run_ops] in *.
  { injection Hs as <-. by exists b. }
  destruct (spec_op op s) as [s1|] eqn:E; [|done]. destruct (run_op_implements op b s s1 Hi E) as (b1 & -> & Hi1).
  by apply (IH b1 s1).
Qed.

Lemma buffer_refines_queue_witness :
  let ops := [OpEnsure 4; OpStore [1; 2; 3]; OpConsume 2; OpEnsure 4; OpStore [4; 5; 6; 7]; OpConsume 1] in
  spec_ops ops ([], 0) = Some ([4; 5; 6; 7], 0)
  ∧ ∃ b', run_ops ops Buffer.empty_buffer = Return b' ∧ implements b' ([4; 5; 6; 7], 0).
Proof.
  split; [reflexivity|]. apply (buffer_refines_queue _ _ ([], 0)); [|reflexivity].
  split; [|vm_compute; discriminate]. split; [|reflexivity]. split_and!; vm_compute; discriminate.
Defined.

(** ** Responses *)

Definition flen (h : Z) : Z := get_frame_length h.
Definition continued (h : Z) : bool := has_continue (extract_frame_flags h).

Ltac fold_frame h :=
  change (fi_len (extract_frame_info h)) with (flen h) in *;
  change (has_continue (fi_flags (extract_frame_info h))) with (continued h) in *.

(** The words [q] start with a complete response of [n] words: a frame and the frames that
    continue it. *)
Inductive complete : list Z → Z → Prop :=
| complete_one h q :
    flen h + 1 ≤ zlen (h :: q) → continued h = false → complete (h :: q) (flen h + 1)
| complete_more h q h' q' n :
    flen h + 1 ≤ zlen (h :: q) → continued h = true →
    zdrop (flen h + 1) (h :: q) = h' :: q' → is_good_header h' = true → complete (h' :: q') n →
    complete (h :: q) (flen h + 1 + n).

Lemma flen_nonneg h : 0 ≤ flen h.
Proof.
  unfold flen, get_frame_length, extract_frame_info. destruct (_ =? _); cbn [fi_len]; apply Z.land_nonneg; right; done.
Qed.

Lemma complete_bounds q n : complete q n → 1 ≤ n ≤ zlen q.
Proof.
  induction 1 as [h q Hl Hc|h q h' q' n Hl Hc Hd Hg Hq IH]; pose proof (flen_nonneg h); [lia|].
  assert (zlen (h' :: q') = zlen (h :: q) - (flen h + 1)) by (rewrite <- Hd; apply zlen_zdrop; lia). lia.
Qed.

(** More input does not change a complete response. *)
Lemma complete_app q n x : complete q n → complete (q ++ x) n.
Proof.
  induction 1 as [h q Hl Hc|h q h' q' n Hl Hc Hd Hg Hq IH]; pose proof (flen_nonneg h); pose proof (zlen_nonneg x).
  - change ((h :: q) ++ x) with (h :: q ++ x). apply complete_one; [|done]. rewrite !zlen_cons, ?zlen_app in *. lia.
  - change ((h :: q) ++ x) with (h :: q ++ x). eapply (complete_more h (q ++ x) h' (q' ++ x) n); [|done| |done|done].
    + rewrite !zlen_cons, ?zlen_app in *. lia.
    + change (h :: q ++ x) with ((h :: q) ++ x). rewrite zdrop_app_l by lia. by rewrite Hd.
Qed.

Lemma contains_complete fuel q : contains_complete_frame fuel q = true → ∃ n, complete q n.
Proof.
  revert q; induction fuel as [|fuel IH]; intros q H; [done|]. destruct q as [|h q]; [done|].
  cbn [contains_complete_frame] in H. fold_frame h. destruct (Z.gtb_spec (flen h + 1) (zlen (h :: q))); [done|].
  destruct (continued h) eqn:Ec; [|eexists; by apply complete_one].
  destruct (zdrop _ (h :: q)) as [|h' q'] eqn:Ed; [done|]. destruct (is_good_header h') eqn:Eg; [|done].
  destruct (IH _ H) as [n Hn]. eexists. by eapply complete_more.
Qed.

Lemma complete_contains q n fuel : complete q n → (length q ≤ fuel)%nat → contains_complete_frame fuel q = true.
Proof.
  intros H. revert fuel; induction H as [h q Hl Hc|h q h' q' n Hl Hc Hd Hg Hq IH]; intros fuel Hf;
    (destruct fuel as [|fuel]; [cbn in Hf; lia|]); cbn [contains_complete_frame]; fold_frame h;
    (destruct (Z.gtb_spec (flen h + 1) (zlen (h :: q))); [lia|]); rewrite Hc; [done|].
  rewrite Hd, Hg. cbn [negb]. apply IH. rewrite <- Hd. unfold zdrop. rewrite length_drop.
  pose proof (flen_nonneg h). cbn [length] in *. lia.
Qed.

Lemma complete_consume q n fuel : complete q n → (length q ≤ fuel)%nat → frames_to_consume fuel q = Return n.
Proof.
  intros H. revert fuel; induction H as [h q Hl Hc|h q h' q' n Hl Hc Hd Hg Hq IH]; intros fuel Hf;
    (destruct fuel as [|fuel]; [cbn in Hf; lia|]); cbn [frames_to_consume]; fold_frame h; rewrite Hc; [done|].
  rewrite Hd, IH; [done|]. rewrite <- Hd. unfold zdrop. rewrite length_drop.
  pose proof (flen_nonneg h). cbn [length] in *. lia.
Qed.

Lemma contains_iff q : contains_complete_frame (length q) q = true ↔ ∃ n, complete q n.
Proof. split; [apply contains_complete|]. intros [n Hn]. by eapply complete_contains. Qed.

(** ** Handling one response *)

(** The frames the reader expects at the front of its buffer. *)
Definition expected (h : Z) : bool := is_stackerror_notification h || is_super_buffer h || is_stack_buffer h.

(** The number of words that are consumed: a notification is taken without its
    continuation. *)
Definition advance (h n : Z) : Z := if is_stackerror_notification h then flen h + 1 else n.

Lemma complete_front h q n : complete (h :: q) n → flen h + 1 ≤ zlen (h :: q) ∧ flen h + 1 ≤ n.
Proof.
  inversion 1; subst; [lia|]. split; [done|].
  match goal with H : complete _ _ |- _ => apply complete_bounds in H end. lia.
Qed.

Lemma advance_bounds h q n : complete (h :: q) n → 1 ≤ advance h n ≤ zlen (h :: q).
Proof.
  intros Hc. pose proof (complete_bounds _ _ Hc). destruct (complete_front _ _ _ Hc). pose proof (flen_nonneg h).
  unfold advance. destruct (is_stackerror_notification h); lia.
Qed.

(** The first data word of a frame that is not empty. *)
Lemma second_word h q n :
  complete (h :: q) n → flen h ≠ 0 → ∃ w, (h :: q) !! 1%nat = Some w ∧ ∀ x, (h :: q ++ x) !! 1%nat = Some w.
Proof.
  intros [Hl _]%complete_front Hne. pose proof (flen_nonneg h). destruct q as [|w q]; [rewrite zlen_cons, zlen_nil in Hl; lia|]. by exists w.
Qed.

Lemma check_super_ok h q n ref :
  complete (h :: q) n → ∃ v, check_super (h :: q) h ref = Return v ∧ ∀ x, check_super (h :: q ++ x) h ref = Return v.
Proof.
  intros Hc. unfold check_super. fold (flen h). destruct (Z.eqb_spec (flen h) 0) as [|Hne]; [by eexists|].
  destruct (second_word h q n Hc Hne) as (w & -> & Hw). setoid_rewrite Hw.
  destruct (negb _); [by eexists|]. destruct (negb _); by eexists.
Qed.

Lemma check_stack_ok h q n ref :
  complete (h :: q) n → ∃ v, check_stack (h :: q) h ref = Return v ∧ ∀ x, check_stack (h :: q ++ x) h ref = Return v.
Proof.
  intros Hc. unfold check_stack. fold (flen h). destruct (Z.eqb_spec (flen h) 0) as [|Hne]; [by eexists|].
  destruct (second_word h q n Hc Hne) as (w & -> & Hw). setoid_rewrite Hw. destruct (negb _); by eexists.
Qed.

(** A complete response is handled without leaving the buffer, and in the same way when
    more input follows it. *)
Lemma handle_frame_ok h q n c :
  complete (h :: q) n → expected h = true →
  ∃ c', handle_frame (h :: q) h c = Return (advance h n, c')
    ∧ ∀ x, handle_frame (h :: q ++ x) h c = Return (advance h n, c').
Proof.
  intros Hc He. pose proof (complete_bounds _ _ Hc) as Hb. destruct (complete_front _ _ _ Hc) as [Hf _]. pose proof (flen_nonneg h).
  assert (Hcons : ∀ x, frames_to_consume (S (length (h :: q ++ x))) (h :: q ++ x) = Return n).
  { intros x. change (h :: q ++ x) with ((h :: q) ++ x). apply complete_consume; [by apply complete_app|lia]. }
  assert (Htake : ∀ x k, 0 ≤ k ≤ zlen (h :: q) → ztake k (h :: q ++ x) = ztake k (h :: q)) by (intros; by apply (ztake_app_le _ (h :: q))).
  assert (Hcons0 := Hcons []). rewrite app_nil_r in Hcons0.
  unfold handle_frame, expected, advance in *. destruct (is_stackerror_notification h); cbn [orb] in He.
  { eexists. split; [reflexivity|]. intros x. unfold handle_stackerror. fold (flen h). by rewrite Htake by lia. }
  destruct (is_super_buffer h); cbn [orb] in He.
  - unfold handle_super. destruct (check_super_ok h q n (pr_reference (pendingSuper (tick CmdPipeCounters.superBuffers c))) Hc) as (v & -> & Hv).
    cbn [mbind outcome_bind]. rewrite Hcons0. cbn [mbind outcome_bind]. eexists. split; [reflexivity|]. intros x. rewrite Hv.
    cbn [mbind outcome_bind]. rewrite Hcons. cbn [mbind outcome_bind]. by rewrite Htake by lia.
  - rewrite He. unfold handle_stack.
    destruct (check_stack_ok h q n (pr_reference (pendingStack (tick CmdPipeCounters.stackBuffers c))) Hc) as (v & -> & Hv).
    cbn [mbind outcome_bind]. rewrite Hcons0. cbn [mbind outcome_bind]. eexists. split; [reflexivity|]. intros x. rewrite Hv.
    cbn [mbind outcome_bind]. rewrite Hcons. cbn [mbind outcome_bind]. by rewrite Htake by lia.
Qed.

(** The context after a response was handled. *)
Definition handled (q : list Z) (c : ReaderContext) : ReaderContext :=
  match q with
  | h :: _ => match handle_frame q h c with Return (_, c') => c' | _ => c end
  | [] => c
  end.

Lemma handled_app h q n c x : complete (h :: q) n → expected h = true → handled (h :: q ++ x) c = handled (h :: q) c.
Proof. intros Hc He. destruct (handle_frame_ok h q n c Hc He) as (c' & H1 & H2). unfold handled. by rewrite H1, H2. Qed.

(** ** Small steps *)

(** One word is skipped, or one response is taken. *)
Inductive step : list Z * ReaderContext → list Z * ReaderContext → Prop :=
| step_skip h q c : is_good_header h = false → step (h :: q, c) (q, skip_words 1 c)
| step_take h q n c :
    is_good_header h = true → complete (h :: q) n → expected h = true →
    step (h :: q, c) (zdrop (advance h n) (h :: q), handled (h :: q) c).

(** A complete frame at the front that the reader does not expect: a continuation. *)
Definition stray (q : list Z) : Prop := ∃ h q' n, q = h :: q' ∧ is_good_header h = true ∧ complete q n ∧ expected h = false.

(** The input never shows a continuation where a response should start. *)
Definition no_stray (q : list Z) (c : ReaderContext) : Prop := ∀ s, rtc step (q, c) s → ¬ stray s.1.

(** The reader waits for more input. *)
Definition waiting (q : list Z) : Prop := q = [] ∨ ∃ h q', q = h :: q' ∧ is_good_header h = true ∧ ∀ n, ¬ complete q n.

Lemma step_app s s' x : step s s' → step (s.1 ++ x, s.2) (s'.1 ++ x, s'.2).
Proof.
  destruct 1 as [h q c Hg|h q n c Hg Hc He]; cbn [fst snd app].
  - by apply step_skip.
  - rewrite <- zdrop_app_l by (pose proof (advance_bounds _ _ _ Hc); lia). rewrite <- (handled_app h q n c x Hc He).
    apply (step_take h (q ++ x) n); [done|by apply (complete_app (h :: q))|done].
Qed.

Lemma steps_app s s' x : rtc step s s' → rtc step (s.1 ++ x, s.2) (s'.1 ++ x, s'.2).
Proof. induction 1 as [|s1 s2 s3 H12 H IH]; [apply rtc_refl|]. eapply rtc_l; [by apply step_app|done]. Qed.

Lemma stray_app q x : stray q → stray (q ++ x).
Proof. intros (h & q' & n & -> & Hg & Hc & He). exists h, (q' ++ x), n. split_and!; [done|done|by apply (complete_app (h :: q'))|done]. Qed.

Lemma no_stray_prefix q x c : no_stray (q ++ x) c → no_stray q c.
Proof. intros H s Hs Hst. apply (H _ (steps_app _ _ x Hs)). by apply stray_app. Qed.

Lemma no_stray_steps q c q' c' : no_stray q c → rtc step (q, c) (q', c') → no_stray q' c'.
Proof. intros H Hs s Hs'. apply H. by etrans. Qed.

Lemma skip_words_S n c : skip_words n (skip_words 1 c) = skip_words (S n) c.
Proof. induction n as [|n IH]; [done|]. exact (f_equal (λ c, tick _ (tick _ c)) IH). Qed.

Lemma steps_bad q c : rtc step (q, c) (drop (count_bad_headers q) q, skip_words (count_bad_headers q) c).
Proof.
  revert c; induction q as [|h q IH]; intros c; [apply rtc_refl|]. cbn [count_bad_headers].
  destruct (is_good_header h) eqn:E; [apply rtc_refl|]. eapply rtc_l; [by apply step_skip|]. cbn [drop].
  rewrite <- (skip_words_S (count_bad_headers q) c). apply IH.
Qed.

Lemma skip_words_quit n c : quit (skip_words n c) = quit c.
Proof. induction n as [|n IH]; [done|]. exact IH. Qed.

Lemma handle_frame_quit view h c k c' : handle_frame view h c = Return (k, c') → quit c' = quit c.
Proof.
  unfold handle_frame, handle_super, handle_stack.
  destruct (is_stackerror_notification h); [by intros [= _ <-]|]. destruct (is_super_buffer h).
  { intros (v & _ & (n & _ & [= _ <-])%outcome_bind_Return)%outcome_bind_Return. by destruct v as [[]|]. }
  destruct (is_stack_buffer h); [|by intros [= _ <-]].
  intros (v & _ & (n & _ & [= _ <-])%outcome_bind_Return)%outcome_bind_Return. by destruct v as [[? []]|].
Qed.

Lemma count_bad_le q : (count_bad_headers q ≤ length q)%nat.
Proof. induction q as [|h q IH]; [done|]. cbn. destruct (is_good_header h); lia. Qed.

Lemma drop_bad_good q h q' : drop (count_bad_headers q) q = h :: q' → is_good_header h = true.
Proof.
  induction q as [|x q IH]; [done|]. cbn [count_bad_headers]. destruct (is_good_header x) eqn:E; [|exact IH]. by intros [= <- _].
Qed.

(** ** Processing the buffer *)

(** Under the hypotheses of a reader that has not been stopped and whose input has no
    stray continuation, one more iteration than there are words is enough. *)
Lemma process_buffer_ok fuel b q c :
  represents b q → quit c = false → no_stray q c → (length q < fuel)%nat →
  ∃ b' c' q', process_buffer fuel b c = Return (b', c', true) ∧ represents b' q' ∧ rtc step (q, c) (q', c')
    ∧ waiting q' ∧ quit c' = false.
Proof.
  revert b q c; induction fuel as [|fuel IH]; intros b q c Hr Hq Hns Hf; [lia|]. cbn [process_buffer].
  rewrite (represents_used b q Hr), Hq, orb_false_r. destruct (Z.eqb_spec (zlen q) 0) as [H0|H0].
  { apply zlen_0 in H0 as ->. exists b, c, []. split_and!; [done|done|apply rtc_refl|by left|done]. }
  pose proof Hr as [_ ->]. pose proof (count_bad_le q) as Hle. set (k := count_bad_headers q) in *.
  pose proof (represents_consume b q (Z.of_nat k) Hr ltac:(unfold zlen; lia)) as Hr1.
  unfold zdrop in Hr1. rewrite Nat2Z.id in Hr1. pose proof Hr1 as [_ ->]. pose proof (steps_bad q c) as Hs. fold k in Hs.
  pose proof (no_stray_steps _ _ _ _ Hns Hs) as Hns1. assert (Hq1 : quit (skip_words k c) = false) by (by rewrite skip_words_quit).
  destruct (drop k q) as [|h q'] eqn:Ed.
  { destruct (IH _ _ _ Hr1 Hq1 Hns1) as (b' & c' & q2 & H1 & H2 & H3 & H4); [|exists b', c', q2; split_and!; [done|done|by etrans|apply H4..]].
    assert (length q ≠ 0%nat) by (unfold zlen in H0; lia). cbn. lia. }
  assert (Hg : is_good_header h = true) by (by apply (drop_bad_good q h q')).
  destruct (contains_complete_frame (length (h :: q')) (h :: q')) eqn:Ec.
  2:{ exists (Buffer.consume (Z.of_nat k) b), (skip_words k c), (h :: q'). split_and!; [done|done|done| |done].
    right. exists h, q'. split_and!; [done|done|]. intros n Hn. by rewrite (complete_contains _ _ _ Hn) in Ec. }
  apply contains_iff in Ec as [n Hn]. destruct (expected h) eqn:He.
  2:{ exfalso. apply (Hns1 _ (rtc_refl _ _)). by exists h, q', n. }
  destruct (handle_frame_ok h q' n (skip_words k c) Hn He) as (c1 & Hh & _). rewrite Hh. cbn [mbind outcome_bind].
  pose proof (advance_bounds _ _ _ Hn) as Hadv.
  assert (Hst : step (h :: q', skip_words k c) (zdrop (advance h n) (h :: q'), c1)).
  { pose proof (step_take h q' n (skip_words k c) Hg Hn He) as Hst. unfold handled in Hst. by rewrite Hh in Hst. }
  pose proof (no_stray_steps _ _ _ _ Hns1 (rtc_once _ _ Hst)) as Hns2.
  destruct (IH _ _ c1 (represents_consume _ _ (advance h n) Hr1 ltac:(lia))) as (b' & c' & q2 & H1 & H2 & H3 & H4);
    [by rewrite (handle_frame_quit _ _ _ _ _ Hh)|done| |].
  - assert (Hlen : length (drop k q) = length (h :: q')) by (by rewrite Ed). rewrite length_drop in Hlen.
    unfold zdrop. rewrite length_drop. cbn [length] in *. lia.
  - exists b', c', q2. split_and!; [done|done| |apply H4..]. etrans; [exact Hs|]. by eapply rtc_l.
Qed.

(** ** Determinism *)

Lemma complete_unique q n m : complete q n → complete q m → n = m.
Proof.
  intros Hn Hm. pose proof (complete_consume q n (length q) Hn ltac:(lia)) as H1.
  rewrite (complete_consume q m (length q) Hm ltac:(lia)) in H1. by injection H1.
Qed.

Lemma step_deterministic s s1 s2 : step s s1 → step s s2 → s1 = s2.
Proof.
  intros H1 H2. destruct H1 as [h q c Hg|h q n c Hg Hc He].
  - remember (h :: q, c) as s eqn:Es. destruct H2 as [h2 q2 c2 Hg2|h2 q2 n2 c2 Hg2 _ _]; injection Es as -> -> ->; [done|congruence].
  - remember (h :: q, c) as s eqn:Es. destruct H2 as [h2 q2 c2 Hg2|h2 q2 n2 c2 Hg2 Hc2 _]; injection Es as -> -> ->; [congruence|].
    by rewrite (complete_unique _ _ _ Hc Hc2).
Qed.

Lemma waiting_final q c s : waiting q → ¬ step (q, c) s.
Proof.
  intros Hw Hs. remember (q, c) as s0 eqn:Es. destruct Hs as [h q0 c0 Hg|h q0 n c0 Hg Hc _]; injection Es as <- _;
    destruct Hw as [|(h' & q' & [= <- <-] & Hg' & Hn)]; [done|congruence|done|]. by apply (Hn n).
Qed.

Lemma steps_unique s s1 s2 : rtc step s s1 → rtc step s s2 → waiting s1.1 → waiting s2.1 → s1 = s2.
Proof.
  induction 1 as [s|s s' s1 H12 H IH]; intros H2 Hw1 Hw2; destruct H2 as [s|s s'' s2 H12' H2].
  - done.
  - destruct s as [q c]. by apply waiting_final in H12'.
  - destruct s as [q c]. by apply waiting_final in H12.
  - rewrite (step_deterministic _ _ _ H12' H12) in H2. by apply IH.
Qed.

(** ** Contexts up to the statistics of the reads *)

Definition read_counter (k : CmdPipeCounters.t) : bool :=
  bool_decide (k = CmdPipeCounters.reads ∨ k = CmdPipeCounters.bytesRead ∨ k = CmdPipeCounters.timeouts).

Record ctx_equiv (c1 c2 : ReaderContext) : Prop := {
  ce_quit : quit c1 = quit c2;
  ce_super_ref : nextSuperReference c1 = nextSuperReference c2;
  ce_stack_ref : nextStackReference c1 = nextStackReference c2;
  ce_super : pendingSuper c1 = pendingSuper c2;
  ce_stack : pendingStack c1 = pendingStack c2;
  ce_errors : ctx_stackErrors c1 = ctx_stackErrors c2;
  ce_counters : ∀ k, read_counter k = false → ctx_counters c1 k = ctx_counters c2 k
}.

#[global] Instance ctx_equiv_equivalence : Equivalence ctx_equiv.
Proof.
  split.
  - by intros c.
  - intros c1 c2 H; destruct H; split; try done. intros k Hk. symmetry. auto.
  - intros c1 c2 c3 [? ? ? ? ? ? H1] [? ? ? ? ? ? H2]; split; try congruence. intros k Hk. by rewrite H1, H2.
Qed.

#[global] Instance tick_proper k : Proper (ctx_equiv ==> ctx_equiv) (tick k).
Proof. intros c1 c2 []; split; try done. intros k' Hk. cbn. unfold count, add_counter. case_decide; [|by auto]. f_equal. f_equal. auto. Qed.

#[global] Instance set_super_proper pr : Proper (ctx_equiv ==> ctx_equiv) (set_super pr).
Proof. intros c1 c2 []; by split. Qed.
#[global] Instance set_stack_proper pr : Proper (ctx_equiv ==> ctx_equiv) (set_stack pr).
Proof. intros c1 c2 []; by split. Qed.
#[global] Instance upd_errors_proper f : Proper (ctx_equiv ==> ctx_equiv) (upd_errors f).
Proof. intros c1 c2 []; split; try done. cbn. by f_equal. Qed.

#[global] Instance skip_words_proper n : Proper (ctx_equiv ==> ctx_equiv) (skip_words n).
Proof. intros c1 c2 Hc. induction n as [|n IH]; [done|]. exact (tick_proper _ _ _ (tick_proper _ _ _ IH)). Qed.

#[global] Instance handled_proper q : Proper (ctx_equiv ==> ctx_equiv) (handled q).
Proof.
  intros c1 c2 Hc. unfold handled. destruct q as [|h q]; [done|]. unfold handle_frame.
  destruct (is_stackerror_notification h); [unfold handle_stackerror; by apply upd_errors_proper, tick_proper|].
  destruct (is_super_buffer h).
  { unfold handle_super. cbn [tick upd_counters pendingSuper]. rewrite (ce_super _ _ Hc).
    destruct (check_super _ _ _) as [v| |]; [|done|done]. cbn [mbind outcome_bind].
    destruct (frames_to_consume _ _) as [n| |]; [|done|done]. cbn [mbind outcome_bind].
    destruct v as [[e k]|]; apply set_super_proper; by repeat apply tick_proper. }
  destruct (is_stack_buffer h); [|done]. unfold handle_stack. cbn [tick upd_counters pendingStack]. rewrite (ce_stack _ _ Hc).
  destruct (check_stack _ _ _) as [v| |]; [|done|done]. cbn [mbind outcome_bind].
  destruct (frames_to_consume _ _) as [n| |]; [|done|done]. cbn [mbind outcome_bind].
  destruct v as [[e [k|]]|]; apply set_stack_proper; by repeat apply tick_proper.
Qed.

Lemma step_equiv q c1 c2 s1 : step (q, c1) s1 → ctx_equiv c1 c2 → ∃ s2, step (q, c2) s2 ∧ s1.1 = s2.1 ∧ ctx_equiv s1.2 s2.2.
Proof.
  intros Hs Hc. remember (q, c1) as s eqn:Es. destruct Hs as [h q0 c Hg|h q0 n c Hg Hn He]; injection Es as <- ->.
  - eexists. split; [by apply step_skip|]. split; [done|]. cbn [snd]. by apply skip_words_proper.
  - eexists. split; [by eapply step_take|]. split; [done|]. cbn [snd]. by apply handled_proper.
Qed.

Lemma steps_equiv s1 s1' c2 :
  rtc step s1 s1' → ctx_equiv s1.2 c2 → ∃ c2', rtc step (s1.1, c2) (s1'.1, c2') ∧ ctx_equiv s1'.2 c2'.
Proof.
  intros H. revert c2; induction H as [s|s s' s'' H12 H IH]; intros c2 Hc; [exists c2; split; [apply rtc_refl|done]|].
  destruct s as [q c1]. destruct (step_equiv q c1 c2 s' H12 Hc) as ([q2 c2'] & Hs & Hq & Hc2). cbn in Hq, Hc2. subst q2.
  destruct (IH c2' Hc2) as (c3 & H3 & Hc3). exists c3. split; [by eapply rtc_l|done].
Qed.

Lemma no_stray_equiv q c1 c2 : ctx_equiv c1 c2 → no_stray q c1 → no_stray q c2.
Proof.
  intros Hc H s Hs Hst. destruct (steps_equiv (q, c2) s c1 Hs) as (c' & H1 & _); [by symmetry|]. by apply (H _ H1).
Qed.

(** ** Reading *)

(** A read that fits the space reserved for it and does not end the connection. *)
Definition read_ok (connection : ConnectionType) (r : ReadResult) : Prop :=
  zlen (rr_words r) ≤ transfer_words connection ∧ is_type (rr_ec r) ErrorType.ConnectionError = false.

Lemma read_pipe_ok connection r b q c :
  represents b q → read_ok connection r →
  ∃ b' c', read_pipe connection r b c = Return (b', c') ∧ represents b' (q ++ rr_words r) ∧ ctx_equiv c c' ∧ quit c' = quit c.
Proof.
  intros Hr [Hl He]. assert (Ht : 0 ≤ transfer_words connection) by (by destruct connection).
  unfold read_pipe. cbv zeta. set (b1 := if _ <? _ then _ else _).
  assert (represents b1 q ∧ transfer_words connection ≤ Buffer.free b1) as [Hr1 Hf1].
  { unfold b1. destruct (Z.ltb_spec (Buffer.free b) (transfer_words connection)); [by apply represents_ensure|done]. }
  destruct (represents_store b1 q (rr_words r) Hr1 ltac:(lia)) as (b2 & -> & Hr2 & _). cbn [mbind outcome_bind]. rewrite He.
  eexists _, _. split; [reflexivity|]. split; [done|]. destruct (is_type (rr_ec r) ErrorType.Timeout); (split; [|done]); split; try done; intros k Hk; cbn; unfold count, add_counter;
    repeat (case_decide; [subst; done|]); done.
Qed.

Lemma feed_ok connection r rd q :
  represents (rd_buffer rd) q → quit (rd_context rd) = false → read_ok connection r →
  no_stray (q ++ rr_words r) (rd_context rd) →
  ∃ rd' q' c', feed connection r rd = Return (rd', true) ∧ represents (rd_buffer rd') q' ∧ quit (rd_context rd') = false
    ∧ waiting q' ∧ rtc step (q ++ rr_words r, rd_context rd) (q', c') ∧ ctx_equiv c' (rd_context rd').
Proof.
  intros Hr Hq Hok Hns. unfold feed. rewrite Hq.
  destruct (read_pipe_ok connection r (rd_buffer rd) q (rd_context rd) Hr Hok) as (b & c & -> & Hr1 & Hc & Hq1).
  cbn [mbind outcome_bind]. rewrite Hq1, Hq. pose proof Hr1 as [_ Hv]. rewrite Hv.
  destruct (process_buffer_ok (S (length (q ++ rr_words r))) b _ c Hr1) as (b' & c' & q' & -> & Hr2 & Hs & Hw & Hq2);
    [congruence|by eapply no_stray_equiv|lia|].
  cbn [mbind outcome_bind]. destruct (steps_equiv _ _ (rd_context rd) Hs) as (c0 & Hs0 & Hc0); [by symmetry|].
  exists (mkReader b' c' (rr_ec r)), q', c0. split_and!; [done..|]. by symmetry.
Qed.

Definition all_words (rs : list ReadResult) : list Z := rs ≫= rr_words.

Lemma feed_all_ok connection rs rd q :
  represents (rd_buffer rd) q → quit (rd_context rd) = false → waiting q → Forall (read_ok connection) rs →
  no_stray (q ++ all_words rs) (rd_context rd) →
  ∃ rd' q' c', feed_all connection rs rd = Return (rd', true) ∧ represents (rd_buffer rd') q'
    ∧ waiting q' ∧ rtc step (q ++ all_words rs, rd_context rd) (q', c') ∧ ctx_equiv c' (rd_context rd').
Proof.
  intros Hr Hq Hw Hok. revert rd q Hr Hq Hw; induction Hok as [|r rs Hr1 Hok IH]; intros rd q Hr Hq Hw Hns.
  { exists rd, q, (rd_context rd). cbn. rewrite app_nil_r. split_and!; [done..|apply rtc_refl|done]. }
  unfold all_words in *. rewrite bind_cons, app_assoc in Hns |- *. cbn [feed_all].
  destruct (feed_ok connection r rd q Hr Hq Hr1) as (rd1 & q1 & c1 & -> & Hr2 & Hq2 & Hw2 & Hs & Hc); [by eapply no_stray_prefix|].
  cbn [mbind outcome_bind]. pose proof (steps_app _ _ (rs ≫= rr_words) Hs) as Hs2. cbn [fst snd] in Hs2.
  destruct (IH rd1 q1 Hr2 Hq2 Hw2) as (rd' & q' & c' & -> & Hr3 & Hw3 & Hs3 & Hc3).
  { eapply no_stray_equiv; [exact Hc|]. by eapply no_stray_steps. }
  destruct (steps_equiv _ _ c1 Hs3) as (c2 & Hs4 & Hc4); [by symmetry|]. cbn [fst snd] in Hs4, Hc4.
  exists rd', q', c2. split_and!; [done|done|done|by etrans|]. etrans; [by symmetry|done].
Qed.

Lemma reader_start_represents c : represents (rd_buffer (reader_start c)) [].
Proof.
  unfold reader_start. cbn [rd_buffer]. apply represents_ensure; [|done].
  split; [split_and!; vm_compute; discriminate|reflexivity].
Qed.

(** C8: the result of the command pipe reader does not depend on how the responses of the
    controller are cut into reads, nor on the type of the connection: for two sequences
    of reads with the same words (each read within the space reserved for it, no
    connection error, no continuation frame in place of a response) the reader returns
    in both cases without leaving its buffer, waits with the same unprocessed words, and
    has filled the same pending responses, stack error records and counters, the
    statistics about the reads themselves apart. *)
Theorem reader_chunking connection1 rs1 connection2 rs2 c :
  quit c = false → all_words rs1 = all_words rs2 →
  Forall (read_ok connection1) rs1 → Forall (read_ok connection2) rs2 → no_stray (all_words rs1) c →
  ∃ rd1 rd2, feed_all connection1 rs1 (reader_start c) = Return (rd1, true)
    ∧ feed_all connection2 rs2 (reader_start c) = Return (rd2, true)
    ∧ Buffer.viewU32 (rd_buffer rd1) = Buffer.viewU32 (rd_buffer rd2)
    ∧ ctx_equiv (rd_context rd1) (rd_context rd2).
Proof.
  intros Hq Hw H1 H2 Hns.
  destruct (feed_all_ok connection1 rs1 (reader_start c) []) as (rd1 & q1 & c1 & Hf1 & [_ Hv1] & Hw1 & Hs1 & Hc1);
    [apply reader_start_represents|done|by left|done|done|].
  destruct (feed_all_ok connection2 rs2 (reader_start c) []) as (rd2 & q2 & c2 & Hf2 & [_ Hv2] & Hw2 & Hs2 & Hc2);
    [apply reader_start_represents|done|by left|done|cbn; by rewrite <- Hw|].
  cbn [app rd_context reader_start] in *. rewrite <- Hw in Hs2.
  pose proof (steps_unique _ _ _ Hs1 Hs2 Hw1 Hw2) as [= <- <-].
  exists rd1, rd2. split_and!; [done|done|congruence|]. etrans; [by symmetry|done].
Qed.

(** ** Input without stray continuations *)

Lemma no_stray_step q c q' c' : ¬ stray q → step (q, c) (q', c') → no_stray q' c' → no_stray q c.
Proof.
  intros Hq Hs Hn s Hs'. inversion Hs' as [|? s1 ? H1 H2]; subst; [done|].
  rewrite (step_deterministic _ _ _ H1 Hs) in H2. by apply Hn.
Qed.

Lemma no_stray_waiting q c : waiting q → no_stray q c.
Proof.
  intros Hw s Hs. inversion Hs as [|? s1 ? H1 _]; subst; [|by apply waiting_final in H1].
  intros (h & q' & n & Hq & _ & Hn & _). cbn in Hq, Hn. destruct Hw as [->|(h' & q0 & -> & _ & Hw)]; [done|]. by apply (Hw n).
Qed.

(** Decides whether the input shows a continuation in place of a response. *)
Fixpoint well_framed (fuel : nat) (q : list Z) : bool :=
  match fuel, q with
  | _, [] => true
  | S fuel, h :: q' =>
      if is_good_header h then
        if contains_complete_frame (length q) q then
          expected h
          && match frames_to_consume (length q) q with
             | Return n => well_framed fuel (zdrop (advance h n) q)
             | _ => false
             end
        else true
      else well_framed fuel q'
  | O, _ => false
  end.

Lemma well_framed_ok fuel q c : well_framed fuel q = true → no_stray q c.
Proof.
  revert q c; induction fuel as [|fuel IH]; intros [|h q] c H; try done.
  1,2: by apply no_stray_waiting; left.
  cbn [well_framed] in H. destruct (is_good_header h) eqn:Hg.
  2:{ eapply no_stray_step; [|by apply step_skip|by apply IH]. intros (h' & q' & n & [= <- <-] & Hg' & _). congruence. }
  destruct (contains_complete_frame _ _) eqn:Ec.
  2:{ apply no_stray_waiting. right. exists h, q. split_and!; [done|done|]. intros n Hn.
      by rewrite (complete_contains _ _ _ Hn) in Ec. }
  apply contains_iff in Ec as [n Hn]. rewrite (complete_consume _ n _ Hn) in H by done. apply andb_true_iff in H as [He H].
  eapply no_stray_step; [|by apply step_take|by apply IH]. intros (h' & q' & m & [= <- <-] & _ & _ & He'). congruence.
Qed.

(** Two super responses and a stack response, in pieces. *)
Definition sample_words : list Z := [0xF1000002; 0x01010001; 0x01021400; 0xF3000001; 0x00000007; 0xF1000001; 0x01010002].

Lemma reader_chunking_witness :
  let reads := (λ ws, mkRead ws (4 * zlen ws) no_error) <$> [[0xF1000002]; [0x01010001; 0x01021400; 0xF3000001]; [0x00000007; 0xF1000001; 0x01010002]] in
  all_words reads = sample_words
  ∧ ∃ rd1 rd2, feed_all ETH reads (reader_start new_context) = Return (rd1, true)
    ∧ feed_all USB [mkRead sample_words 28 no_error] (reader_start new_context) = Return (rd2, true)
    ∧ Buffer.viewU32 (rd_buffer rd1) = Buffer.viewU32 (rd_buffer rd2)
    ∧ ctx_equiv (rd_context rd1) (rd_context rd2).
Proof.
  split; [reflexivity|]. apply reader_chunking; [reflexivity|reflexivity| | |].
  - repeat (apply Forall_cons; split; [split; [vm_compute; discriminate|reflexivity]|]). by apply Forall_nil.
  - apply Forall_singleton. split; [vm_compute; discriminate|reflexivity].
  - apply (well_framed_ok 8). vm_compute. reflexivity.
Defined.

(** ** Stray continuations *)

(** C39: a complete continuation frame at the front of the buffer passes the check for good
    headers, but no branch consumes it: the loop of the reader goes around for ever,
    whatever arrives later, and no further response is delivered. *)
Theorem reader_spins b q c :
  represents b q → quit c = false → stray q → ∀ fuel, ∃ b', process_buffer fuel b c = Return (b', c, false).
Proof.
  intros Hr Hq (h & q' & n & Hqe & Hg & Hn & He) fuel. revert b Hr; induction fuel as [|fuel IH]; intros b Hr; [by exists b|].
  cbn [process_buffer]. rewrite (represents_used b q Hr), Hq, orb_false_r. pose proof Hr as [_ Hv].
  destruct (Z.eqb_spec (zlen q) 0) as [H0|_]; [subst q; rewrite zlen_cons in H0; pose proof (zlen_nonneg q'); lia|].
  cbv zeta. rewrite Hv. assert (Hk : count_bad_headers q = 0%nat) by (subst q; cbn; by rewrite Hg). rewrite Hk.
  assert (Hz : ∀ b, represents b q → represents (Buffer.consume 0 b) q)
    by (intros b0 Hb0; apply (represents_consume b0 q 0 Hb0); pose proof (zlen_nonneg q); lia).
  change (Z.of_nat 0) with 0. pose proof (Hz b Hr) as Hr1. pose proof Hr1 as [_ Hv1]. rewrite Hv1.
  rewrite (complete_contains _ _ _ Hn) by lia. subst q. unfold handle_frame. unfold expected in He.
  destruct (is_stackerror_notification h); [done|]. destruct (is_super_buffer h); [done|]. cbn [orb] in He. rewrite He.
  apply IH. by apply Hz.
Qed.

Lemma reader_spins_witness :
  let b := Buffer.mk [0xF2000001; 0x00000000] 0 2 in
  stray (Buffer.viewU32 b) ∧ ∀ fuel, ∃ b', process_buffer fuel b new_context = Return (b', new_context, false).
Proof.
  assert (H : stray [0xF2000001; 0x00000000]).
  { exists 0xF2000001, [0x00000000], 2. split_and!; [reflexivity|reflexivity| |reflexivity]. by apply (complete_one 0xF2000001 [0]). }
  split; [exact H|]. apply (reader_spins _ [0xF2000001; 0x00000000]); [|reflexivity|exact H].
  split; [split_and!; vm_compute; discriminate|reflexivity].
Defined.

(** ** Delivery of responses *)

(** The words of one super response that carries the reference number [ref]. *)
Definition super_response (ref : Z) (w : list Z) : Prop :=
  complete w (zlen w)
  ∧ ∃ h refWord rest, w = h :: refWord :: rest ∧ is_super_buffer h = true ∧ flen h ≠ 0
    ∧ (refWord ≫ super_commands.SuperCmdShift) .& super_commands.SuperCmdMask = SuperCommandType.ReferenceWord
    ∧ refWord .& super_commands.SuperCmdArgMask = ref.

(** The words of one stack response whose marker is [ref]. *)
Definition stack_response (ref : Z) (w : list Z) : Prop :=
  complete w (zlen w) ∧ ∃ h rest, w = h :: ref :: rest ∧ is_stack_buffer h = true ∧ flen h ≠ 0.

Lemma frame_type_excl h : (is_super_buffer h = true → is_stackerror_notification h = false ∧ is_stack_buffer h = false)
  ∧ (is_stack_buffer h = true → is_stackerror_notification h = false ∧ is_super_buffer h = false).
Proof.
  unfold is_super_buffer, is_stack_buffer, is_stackerror_notification. rewrite !Z.eqb_eq.
  split; intros ->; done.
Qed.

Lemma super_step ref w x c :
  super_response ref w → pr_reference (pendingSuper c) = ref →
  step (w ++ x, c) (x, set_super (fullfill_pending_response (pendingSuper c) no_error w) (tick CmdPipeCounters.superBuffers c))
  ∧ ¬ stray (w ++ x).
Proof.
  intros [Hc (h & rw & rest & Hw & Hs & Hl & Ht & Hr)] Href. destruct (proj1 (frame_type_excl h) Hs) as [He Hk].
  assert (Hx : expected h = true) by (unfold expected; by rewrite He, Hs).
  assert (Hg : is_good_header h = true) by (unfold is_good_header; by rewrite Hs).
  pose proof (complete_app w (zlen w) x Hc) as Hcx. subst w. split.
  2:{ intros (h' & q' & m & [= <- _] & _ & _ & He'). congruence. }
  pose proof (step_take h (rw :: rest ++ x) _ c Hg Hcx Hx) as Hst. unfold advance in Hst. rewrite He in Hst.
  change (h :: rw :: rest ++ x) with ((h :: rw :: rest) ++ x) in Hst. rewrite zdrop_app in Hst.
  replace (handled _ c) with (set_super (fullfill_pending_response (pendingSuper c) no_error (h :: rw :: rest)) (tick CmdPipeCounters.superBuffers c)) in Hst;
    [exact Hst|]. unfold handled. cbn [app]. unfold handle_frame. rewrite He, Hs. unfold handle_super.
  unfold check_super. fold (flen h). destruct (Z.eqb_spec (flen h) 0); [done|]. cbn [lookup list_lookup].
  rewrite Ht, Hr. cbn [pendingSuper tick upd_counters]. rewrite Href, !Z.eqb_refl. cbn [negb mbind outcome_bind].
  change (h :: rw :: rest ++ x) with ((h :: rw :: rest) ++ x).
  rewrite (complete_consume _ _ _ Hcx) by lia. cbn [mbind outcome_bind]. by rewrite ztake_app.
Qed.

Lemma stack_step ref w x c :
  stack_response ref w → pr_reference (pendingStack c) = ref →
  step (w ++ x, c) (x, set_stack (fullfill_pending_response (pendingStack c) no_error w) (tick CmdPipeCounters.stackBuffers c))
  ∧ ¬ stray (w ++ x).
Proof.
  intros [Hc (h & rest & Hw & Hs & Hl)] Href. destruct (proj2 (frame_type_excl h) Hs) as [He Hk].
  assert (Hx : expected h = true) by (unfold expected; by rewrite He, Hk, Hs).
  assert (Hg : is_good_header h = true) by (unfold is_good_header; rewrite Hs; by rewrite !orb_true_r).
  pose proof (complete_app w (zlen w) x Hc) as Hcx. subst w. split.
  2:{ intros (h' & q' & m & [= <- _] & _ & _ & He'). congruence. }
  pose proof (step_take h (ref :: rest ++ x) _ c Hg Hcx Hx) as Hst. unfold advance in Hst. rewrite He in Hst.
  change (h :: ref :: rest ++ x) with ((h :: ref :: rest) ++ x) in Hst. rewrite zdrop_app in Hst.
  replace (handled _ c) with (set_stack (fullfill_pending_response (pendingStack c) no_error (h :: ref :: rest)) (tick CmdPipeCounters.stackBuffers c)) in Hst;
    [exact Hst|]. unfold handled. cbn [app]. unfold handle_frame. rewrite He, Hk, Hs. unfold handle_stack.
  unfold check_stack. fold (flen h). destruct (Z.eqb_spec (flen h) 0); [done|]. cbn [lookup list_lookup].
  cbn [pendingStack tick upd_counters]. rewrite Href, !Z.eqb_refl. cbn [negb mbind outcome_bind].
  change (h :: ref :: rest ++ x) with ((h :: ref :: rest) ++ x).
  rewrite (complete_consume _ _ _ Hcx) by lia. cbn [mbind outcome_bind]. by rewrite ztake_app.
Qed.

Definition delivered (pr : PendingResponse) (w : list Z) : PendingResponse :=
  mkPending (Some no_error) (consume_dest (pr_dest pr) w) (pr_reference pr) false.

(** A reader that waits with an empty buffer and reads the response of a super
    transaction. *)
Lemma super_delivered connection rs rd w :
  represents (rd_buffer rd) [] → quit (rd_context rd) = false → pr_pending (pendingSuper (rd_context rd)) = true →
  super_response (pr_reference (pendingSuper (rd_context rd))) w → Forall (read_ok connection) rs → all_words rs = w →
  ∃ rd' c', feed_all connection rs rd = Return (rd', true) ∧ represents (rd_buffer rd') []
    ∧ ctx_equiv c' (rd_context rd')
    ∧ c' = set_super (delivered (pendingSuper (rd_context rd)) w) (tick CmdPipeCounters.superBuffers (rd_context rd)).
Proof.
  intros Hr Hq Hp Hw Hok Hrs. destruct (super_step _ w [] (rd_context rd) Hw eq_refl) as [Hst Hns].
  rewrite app_nil_r in *. unfold fullfill_pending_response in Hst. rewrite Hp in Hst. fold (delivered (pendingSuper (rd_context rd)) w) in Hst.
  destruct (feed_all_ok connection rs rd [] Hr Hq (or_introl eq_refl) Hok) as (rd' & q' & c' & Hf & Hr' & Hw' & Hs & Hc).
  { cbn. rewrite Hrs. eapply no_stray_step; [done|exact Hst|]. by apply no_stray_waiting; left. }
  cbn in Hs. rewrite Hrs in Hs.
  pose proof (steps_unique _ _ _ Hs (rtc_once _ _ Hst) Hw' (or_introl eq_refl)) as [= -> ->]. by exists rd', (set_super (delivered (pendingSuper (rd_context rd)) w) (tick CmdPipeCounters.superBuffers (rd_context rd))).
Qed.

(** The same with a stack response after the super response. *)
Lemma both_delivered connection rs rd w1 w2 :
  represents (rd_buffer rd) [] → quit (rd_context rd) = false →
  pr_pending (pendingSuper (rd_context rd)) = true → pr_pending (pendingStack (rd_context rd)) = true →
  super_response (pr_reference (pendingSuper (rd_context rd))) w1 → stack_response (pr_reference (pendingStack (rd_context rd))) w2 →
  Forall (read_ok connection) rs → all_words rs = w1 ++ w2 →
  ∃ rd', feed_all connection rs rd = Return (rd', true) ∧ represents (rd_buffer rd') []
    ∧ quit (rd_context rd') = false
    ∧ pendingSuper (rd_context rd') = delivered (pendingSuper (rd_context rd)) w1
    ∧ pendingStack (rd_context rd') = delivered (pendingStack (rd_context rd)) w2
    ∧ nextSuperReference (rd_context rd') = nextSuperReference (rd_context rd)
    ∧ nextStackReference (rd_context rd') = nextStackReference (rd_context rd).
Proof.
  intros Hr Hq Hp1 Hp2 Hw1 Hw2 Hok Hrs. set (c := rd_context rd) in *. destruct (super_step _ w1 w2 c Hw1 eq_refl) as [Hst1 Hns1].
  unfold fullfill_pending_response in Hst1. rewrite Hp1 in Hst1. set (c1 := set_super _ _) in Hst1.
  destruct (stack_step _ w2 [] c1 Hw2 eq_refl) as [Hst2 Hns2]. rewrite app_nil_r in *.
  unfold fullfill_pending_response in Hst2. change (pendingStack c1) with (pendingStack c) in Hst2. rewrite Hp2 in Hst2.
  destruct (feed_all_ok connection rs rd [] Hr Hq (or_introl eq_refl) Hok) as (rd' & q' & c' & Hf & Hr' & Hw' & Hs & Hc).
  { cbn. rewrite Hrs. eapply no_stray_step; [done|exact Hst1|]. eapply no_stray_step; [done|exact Hst2|]. by apply no_stray_waiting; left. }
  cbn in Hs. rewrite Hrs in Hs.
  pose proof (steps_unique _ _ _ Hs (rtc_l _ _ _ _ Hst1 (rtc_once _ _ Hst2)) Hw' (or_introl eq_refl)) as [= -> ->].
  exists rd'. destruct Hc as [H1 H2 H3 H4 H5 _ _]. split_and!; try done; by rewrite <- ?H1, <- ?H2, <- ?H3, <- ?H4, <- ?H5.
Qed.

(** A transaction that waits for a super and a stack response receives them: when the
    controller answers with a super response that carries the pending super reference
    and then a stack response that starts with the pending stack reference, each with
    any number of continuation frames and cut into reads in any way, the reader copies
    the words of each response, headers included, to the destination of its transaction
    and sets both promises to success; nothing stays in the buffer. *)
Theorem responses_delivered connection rs c w1 w2 :
  quit c = false → pr_pending (pendingSuper c) = true → pr_pending (pendingStack c) = true →
  super_response (pr_reference (pendingSuper c)) w1 → stack_response (pr_reference (pendingStack c)) w2 →
  Forall (read_ok connection) rs → all_words rs = w1 ++ w2 →
  ∃ rd, feed_all connection rs (reader_start c) = Return (rd, true)
    ∧ Buffer.viewU32 (rd_buffer rd) = []
    ∧ pendingSuper (rd_context rd) = delivered (pendingSuper c) w1
    ∧ pendingStack (rd_context rd) = delivered (pendingStack c) w2.
Proof.
  intros Hq Hp1 Hp2 Hw1 Hw2 Hok Hrs.
  destruct (both_delivered connection rs (reader_start c) w1 w2 (reader_start_represents c)) as (rd & Hf & [_ Hv] & _ & H1 & H2 & _); try done.
  by exists rd.
Qed.

(** A stack response of two frames after a super response, in three reads. *)
Definition waiting_context : ReaderContext :=
  set_super (mkPending None (Vec []) 5 true) (set_stack (mkPending None (Vec []) 7 true) new_context).
Definition sample_super : list Z := [0xF1000001; 0x01010005].
Definition sample_stack : list Z := [0xF3800002; 0x00000007; 0x0000AAAA; 0xF9000001; 0x0000BBBB].
Definition sample_reads : list ReadResult :=
  (λ ws, mkRead ws (4 * zlen ws) no_error) <$> [[0xF1000001]; [0x01010005; 0xF3800002; 7; 0xAAAA]; [0xF9000001; 0xBBBB]].

Lemma sample_super_ok : super_response 5 sample_super.
Proof.
  split; [by apply (complete_one 0xF1000001 [0x01010005])|]. exists 0xF1000001, 0x01010005, []. split_and!; vm_compute; congruence.
Qed.

Lemma sample_stack_ok : stack_response 7 sample_stack.
Proof.
  split.
  - change (zlen sample_stack) with (flen 0xF3800002 + 1 + 2). eapply (complete_more _ _ 0xF9000001 [0xBBBB] 2); [by vm_compute|done|done|done|].
    by apply (complete_one 0xF9000001 [0xBBBB]).
  - exists 0xF3800002, [0xAAAA; 0xF9000001; 0xBBBB]. split_and!; vm_compute; congruence.
Qed.

Lemma responses_delivered_witness :
  all_words sample_reads = sample_super ++ sample_stack
  ∧ ∃ rd, feed_all USB sample_reads (reader_start waiting_context) = Return (rd, true)
    ∧ Buffer.viewU32 (rd_buffer rd) = []
    ∧ pendingSuper (rd_context rd) = mkPending (Some no_error) (Vec sample_super) 5 false
    ∧ pendingStack (rd_context rd) = mkPending (Some no_error) (Vec sample_stack) 7 false.
Proof.
  split; [reflexivity|].
  apply (responses_delivered USB sample_reads waiting_context sample_super sample_stack); try reflexivity.
  - exact sample_super_ok.
  - exact sample_stack_ok.
  - repeat (apply Forall_cons; split; [split; [vm_compute; discriminate|reflexivity]|]). by apply Forall_nil.
Defined.

(** ** Safety *)

(** A pending response only ever changes by being fulfilled. *)
Definition settles (p p' : PendingResponse) : Prop :=
  p' = p ∨ (pr_pending p = true ∧ pr_pending p' = false ∧ is_Some (pr_promise p') ∧ pr_reference p' = pr_reference p).

Definition ctx_settles (c c' : ReaderContext) : Prop :=
  settles (pendingSuper c) (pendingSuper c') ∧ settles (pendingStack c) (pendingStack c').

Lemma settles_trans p1 p2 p3 : settles p1 p2 → settles p2 p3 → settles p1 p3.
Proof.
  intros [->|(H1 & H2 & H3 & H4)] [->|(H5 & H6 & H7 & H8)]; [by left|by right|by right|]. congruence.
Qed.

#[global] Instance ctx_settles_preorder : PreOrder ctx_settles.
Proof.
  split; [by intros c; split; left|]. intros c1 c2 c3 [] []. split; by eapply settles_trans.
Qed.

Lemma fullfill_settles p ec w : settles p (fullfill_pending_response p ec w).
Proof. unfold fullfill_pending_response. destruct (pr_pending p) eqn:E; [|by left]. right. cbn. by eauto. Qed.

Lemma handle_frame_settles view h c k c' : handle_frame view h c = Return (k, c') → ctx_settles c c'.
Proof.
  unfold handle_frame, handle_super, handle_stack.
  destruct (is_stackerror_notification h); [intros [= _ <-]; split; by left|]. destruct (is_super_buffer h).
  { intros (v & _ & (n & _ & [= _ <-])%outcome_bind_Return)%outcome_bind_Return.
    destruct v as [[]|]; (split; [apply fullfill_settles|by left]). }
  destruct (is_stack_buffer h); [|intros [= _ <-]; split; by left].
  intros (v & _ & (n & _ & [= _ <-])%outcome_bind_Return)%outcome_bind_Return.
  destruct v as [[? []]|]; (split; [by left|apply fullfill_settles]).
Qed.

Lemma skip_words_settles n c : ctx_settles c (skip_words n c).
Proof. induction n as [|n IH]; [done|]. destruct IH. by split. Qed.

(** A frame of any kind is handled inside of the buffer. *)
Lemma handle_frame_safe h q n c :
  complete (h :: q) n → ∃ k c', handle_frame (h :: q) h c = Return (k, c') ∧ 0 ≤ k ≤ zlen (h :: q).
Proof.
  intros Hn. pose proof (advance_bounds _ _ _ Hn). destruct (expected h) eqn:He.
  - destruct (handle_frame_ok h q n c Hn He) as (c' & Hh & _). exists (advance h n), c'. split; [done|lia].
  - exists 0, c. split; [|lia]. unfold expected, handle_frame in *. destruct (is_stackerror_notification h); [done|].
    destruct (is_super_buffer h); [done|]. cbn [orb] in He. by rewrite He.
Qed.

Lemma process_buffer_safe fuel b q c :
  represents b q →
  ∃ b' q' c' ended, process_buffer fuel b c = Return (b', c', ended) ∧ represents b' q' ∧ ctx_settles c c'.
Proof.
  revert b q c; induction fuel as [|fuel IH]; intros b q c Hr; [by exists b, q, c, false|]. cbn [process_buffer].
  destruct (_ || _); [by exists b, q, c, true|]. pose proof Hr as [_ ->]. pose proof (count_bad_le q) as Hle.
  set (k := count_bad_headers q) in *. pose proof (represents_consume b q (Z.of_nat k) Hr ltac:(unfold zlen; lia)) as Hr1.
  pose proof Hr1 as [_ ->]. pose proof (skip_words_settles k c) as Hk.
  assert (Hgo : ∀ b1 q1 c1, represents b1 q1 → ctx_settles c c1 →
    ∃ b' q' c' ended, process_buffer fuel b1 c1 = Return (b', c', ended) ∧ represents b' q' ∧ ctx_settles c c').
  { intros b1 q1 c1 Hr2 Hc2. destruct (IH b1 q1 c1 Hr2) as (b' & q' & c' & e & -> & Hr3 & Hc3).
    exists b', q', c', e. split_and!; [done|done|by etrans]. }
  destruct (zdrop (Z.of_nat k) q) as [|h q1] eqn:Ed; [by eapply Hgo|].
  destruct (contains_complete_frame _ _) eqn:Ec; [|by eexists _, _, _, _].
  apply contains_iff in Ec as [n Hn]. destruct (handle_frame_safe h q1 n (skip_words k c) Hn) as (m & c1 & Hh & Hm). rewrite Hh.
  cbn [mbind outcome_bind]. eapply Hgo; [by apply represents_consume|]. etrans; [exact Hk|by eapply handle_frame_settles].
Qed.

Lemma reader_exit_settles ec c : ctx_settles c (reader_exit ec c).
Proof. unfold reader_exit. cbv zeta. split; cbn [set_stack set_super pendingSuper pendingStack]; apply fullfill_settles. Qed.

(** A read that fits the space reserved for it. *)
Definition read_fits (connection : ConnectionType) (r : ReadResult) : Prop := zlen (rr_words r) ≤ transfer_words connection.

Lemma read_pipe_safe connection r b q c :
  represents b q → read_fits connection r →
  ∃ b' q' c', read_pipe connection r b c = Return (b', c') ∧ represents b' q' ∧ ctx_settles c c'.
Proof.
  intros Hr Hl. unfold read_fits in Hl. assert (Ht : 0 ≤ transfer_words connection) by (by destruct connection).
  unfold read_pipe. cbv zeta. set (b1 := if _ <? _ then _ else _).
  assert (represents b1 q ∧ transfer_words connection ≤ Buffer.free b1) as [Hr1 Hf1].
  { unfold b1. destruct (Z.ltb_spec (Buffer.free b) (transfer_words connection)); [by apply represents_ensure|done]. }
  destruct (represents_store b1 q (rr_words r) Hr1 ltac:(lia)) as (b2 & -> & Hr2 & _). cbn [mbind outcome_bind].
  eexists _, _, _. split; [reflexivity|]. split; [done|].
  destruct (is_type _ ErrorType.Timeout), (is_type _ ErrorType.ConnectionError); split; by left.
Qed.

Lemma feed_safe connection r rd q :
  represents (rd_buffer rd) q → read_fits connection r →
  ∃ rd' q' ended, feed connection r rd = Return (rd', ended) ∧ represents (rd_buffer rd') q'
    ∧ ctx_settles (rd_context rd) (rd_context rd').
Proof.
  intros Hr Hr1. unfold feed. destruct (quit (rd_context rd)); [by exists rd, q, true|].
  destruct (read_pipe_safe connection r (rd_buffer rd) q (rd_context rd) Hr Hr1) as (b & q1 & c & -> & Hr2 & Hc).
  cbn [mbind outcome_bind]. destruct (quit c).
  { eexists _, q1, true. split; [reflexivity|]. split; [done|]. etrans; [exact Hc|apply reader_exit_settles]. }
  destruct (process_buffer_safe (S (length (Buffer.viewU32 b))) b q1 c Hr2) as (b' & q' & c' & e & -> & Hr3 & Hc3).
  eexists _, q', e. split; [reflexivity|]. split; [done|]. by etrans.
Qed.

Lemma feed_all_safe connection rs rd q :
  represents (rd_buffer rd) q → Forall (read_fits connection) rs →
  ∃ rd' q' ended, feed_all connection rs rd = Return (rd', ended) ∧ represents (rd_buffer rd') q'
    ∧ ctx_settles (rd_context rd) (rd_context rd').
Proof.
  intros Hr Hf. revert rd q Hr; induction Hf as [|r rs Hr1 Hf IH]; intros rd q Hr; [by exists rd, q, true|].
  cbn [feed_all]. destruct (feed_safe connection r rd q Hr Hr1) as (rd1 & q1 & e & -> & Hr2 & Hc2). cbn [mbind outcome_bind].
  destruct e; [|by exists rd1, q1, false].
  destruct (IH rd1 q1 Hr2) as (rd' & q' & e' & -> & Hr3 & Hc3). exists rd', q', e'. split_and!; [done|done|by etrans].
Qed.
