(* ===== verification/CmdApi.v ===== *)
(** * Transactions and the command interface: [mvlc.cc], lines 640-1881

    A transaction registers the responses it waits for, writes a command buffer to the
    controller and waits for the reader thread to deliver.  On top of the transactions:
    register and VME accesses, stack uploads, and the class [MVLC] with its connection
    state.

    The controller and the connection to it are a parameter: an instance of
    [Connection] says what a write returns and which reads of the command pipe complete
    until the next action of the caller.  [arrive] stands at every point where the
    reader thread can run between two actions of a transaction. *)

From S2P Require Import Prelude Effects Constants Frames Commands StackErrors Errors CmdPipe.

(** ** The connection *)

(** [MVLCBasicInterface], as far as the command pipe is concerned. *)
(* mvlc_basic_interface.h:40-64 MVLCBasicInterface *)
Class Connection (D : Type) : Type := {
  connectionType : ConnectionType;
  impl_write : list Z → D → error_code * D;
  impl_arrive : D → list ReadResult * D;
  impl_connect : D → error_code * D;
  impl_disconnect : D → error_code * D;
  impl_isConnected : D → bool
}.

(** ** Computations with the reader thread in the background *)

(** The controller, the reader thread, whether the thread is caught in its loop, and the
    diagnostic flag of the command interface. *)
(* mvlc.cc:624-694 CmdApi *)
Record Api (D : Type) : Type := mkApi {
  api_dev : D;
  api_reader : Reader;
  api_spinning : bool;
  api_alwaysCheck : bool
}.
Arguments mkApi {D} api_dev api_reader api_spinning api_alwaysCheck.
Arguments api_dev {D}.
Arguments api_reader {D}.
Arguments api_spinning {D}.
Arguments api_alwaysCheck {D}.

Definition M (D A : Type) : Type := Api D → res (A * Api D).

#[global] Instance M_ret {D} : MRet (M D) := λ A a s, Done (a, s).
#[global] Instance M_bind {D} : MBind (M D) := λ A B f m s,
  match m s with
  | Done (a, s) => f a s
  | Raise e => Raise e
  | Hangs => Hangs
  | Broken => Broken
  end.

Definition context {D} (s : Api D) : ReaderContext := rd_context (api_reader s).
Definition set_context {D} (c : ReaderContext) (s : Api D) : Api D :=
  mkApi (api_dev s) (mkReader (rd_buffer (api_reader s)) c (rd_ec (api_reader s))) (api_spinning s) (api_alwaysCheck s).

Definition get {D A} (f : ReaderContext → A) : M D A := λ s, Done (f (context s), s).
Definition modify {D} (f : ReaderContext → ReaderContext) : M D () := λ s, Done ((), set_context (f (context s)) s).
Definition tally {D} (c : CmdPipeCounters.t) : M D () := modify (tick c).

Definition of_outcome {D A} (o : outcome A) : M D A := λ s,
  match o with Return a => Done (a, s) | Throw e => Raise e | Undefined => Broken end.

Section Api.
Context {D : Type} {HD : Connection D}.

(** The reader thread handles what has arrived; a thread that is caught in its loop
    handles nothing. *)
Definition arrive : M D () := λ s,
  let '(rs, dev) := impl_arrive (api_dev s) in
  if api_spinning s then Done ((), mkApi dev (api_reader s) true (api_alwaysCheck s))
  else
    match feed_all connectionType rs (api_reader s) with
    | Return (rd, ended) => Done ((), mkApi dev rd (negb ended) (api_alwaysCheck s))
    | Throw e => Raise e
    | Undefined => Broken
    end.

Definition write (words : list Z) : M D error_code := λ s,
  let '(ec, dev) := impl_write words (api_dev s) in
  Done (ec, mkApi dev (api_reader s) (api_spinning s) (api_alwaysCheck s)).

(** The two pending responses *)
Definition expect_super (dest : Dest) (ref : Z) : M D () := λ s,
  match set_pending_response (pendingSuper (context s)) dest ref with
  | Some pr => Done ((), set_context (set_super pr (context s)) s)
  | None => Hangs
  end.
Definition expect_stack (dest : Dest) (ref : Z) : M D () := λ s,
  match set_pending_response (pendingStack (context s)) dest ref with
  | Some pr => Done ((), set_context (set_stack pr (context s)) s)
  | None => Hangs
  end.
(* mvlc.cc:101-107 fullfill_pending_response *)
Definition fullfill_super (ec : error_code) : M D error_code :=
  modify (λ c, set_super (fullfill_pending_response (pendingSuper c) ec []) c);; mret ec.
(* mvlc.cc:101-107 fullfill_pending_response *)
Definition fullfill_stack (ec : error_code) : M D error_code :=
  modify (λ c, set_stack (fullfill_pending_response (pendingStack c) ec []) c);; mret ec.

(** [context.nextSuperReference++] and [context.nextStackReference++] *)
Definition next_super_ref : M D Z := λ s,
  let c := context s in
  Done (nextSuperReference c,
    set_context (mkContext (quit c) (u16 (nextSuperReference c + 1)) (nextStackReference c) (pendingSuper c)
                   (pendingStack c) (ctx_stackErrors c) (ctx_counters c)) s).
Definition next_stack_ref : M D Z := λ s,
  let c := context s in
  Done (nextStackReference c,
    set_context (mkContext (quit c) (nextSuperReference c) (u32 (nextStackReference c + 1)) (pendingSuper c)
                   (pendingStack c) (ctx_stackErrors c) (ctx_counters c)) s).

(** ** Super transactions *)

(** The result is the error code and the response buffer of the caller. *)
(* mvlc.cc:725-762 CmdApi::superTransactionImpl *)
Definition superTransactionImpl (ref : Z) (cmdBuffer responseBuffer : list Z) : M D (error_code * list Z) :=
  if zlen cmdBuffer >? MirrorTransactionMaxWords then
    mret (Mvlc MVLCErrorCode.MirrorTransactionMaxWordsExceeded, responseBuffer)
  else
    arrive;; expect_super (Vec responseBuffer) ref;; arrive;;
    ec ← write cmdBuffer;
    ec ← (if failed ec then fullfill_super ec
          else
            arrive;;
            ready ← get (λ c, pr_promise (pendingSuper c));
            match ready with
            | None => arrive;; fullfill_super (Mvlc MVLCErrorCode.SuperCommandTimeout)
            | Some ec => mret ec
            end);
    response ← get (λ c, dest_words (pr_dest (pendingSuper c)));
    mret (ec, response).

(* mvlc.cc:699-699 TransactionMaxAttempts *)
Definition TransactionMaxAttempts : nat := 3.

(** At most [attempts] more attempts, the number [attempt] of those made so far. *)
(* mvlc.cc:711-720 CmdApi::superTransaction *)
Fixpoint super_attempts (attempts attempt : nat) (ref : Z) (cmdBuffer responseBuffer : list Z)
  : M D (error_code * list Z) :=
  '(ec, responseBuffer) ← superTransactionImpl ref cmdBuffer responseBuffer;
  if failed ec then
    match attempts with
    | O => mret (ec, responseBuffer)
    | S attempts => super_attempts attempts (S attempt) ref cmdBuffer responseBuffer
    end
  else
    (if (0 <? attempt)%nat then tally CmdPipeCounters.superTransactionRetries else mret ());;
    mret (ec, responseBuffer).

(* mvlc.cc:701-723 CmdApi::superTransaction *)
Definition superTransaction (ref : Z) (cmdBuffer responseBuffer : list Z) : M D (error_code * list Z) :=
  tally CmdPipeCounters.superTransactionCount;;
  super_attempts (TransactionMaxAttempts - 1) 0 ref cmdBuffer responseBuffer.

(** ** Registers *)

(** The result is the error code and the value of the output parameter. *)
(* mvlc.cc:1114-1137 CmdApi::readRegister *)
Definition readRegister (address value : Z) : M D (error_code * Z) :=
  ref ← next_super_ref;
  let cmdBuffer := make_command_buffer (su_addReadLocal (su_addReferenceWord [] ref) address) in
  '(ec, responseBuffer) ← superTransaction ref cmdBuffer [];
  if failed ec then mret (ec, value)
  else if negb (zlen responseBuffer =? 4) then mret (Mvlc MVLCErrorCode.UnexpectedResponseSize, value)
  else mret (no_error, default 0 (responseBuffer !! 3%nat)).

(* mvlc.cc:1139-1161 CmdApi::writeRegister *)
Definition writeRegister (address value : Z) : M D error_code :=
  ref ← next_super_ref;
  let cmdBuffer := make_command_buffer (su_addWriteLocal (su_addReferenceWord [] ref) address value) in
  '(ec, responseBuffer) ← superTransaction ref cmdBuffer [];
  if failed ec then mret ec
  else if negb (zlen responseBuffer =? 4) then mret (Mvlc MVLCErrorCode.UnexpectedResponseSize)
  else mret no_error.

(* mvlc.cc:764-799 CmdApi::readStackExecStatusRegisters *)
Definition readStackExecStatusRegisters (status0 status1 : Z) : M D (error_code * Z * Z) :=
  superRef ← next_super_ref;
  let sb := su_addReadLocal (su_addReadLocal (su_addReferenceWord [] superRef) registers.stack_exec_status0)
              registers.stack_exec_status1 in
  '(ec, response) ← superTransaction superRef (make_command_buffer sb) [];
  if failed ec then mret (ec, status0, status1)
  else if negb (zlen response =? 6) then mret (Mvlc MVLCErrorCode.ShortSuperFrame, status0, status1)
  else mret (no_error, default 0 (response !! 3%nat), default 0 (response !! 5%nat)).

(** ** Stack uploads *)

(** The write commands of the words of one part; [None] when the stack memory is
    exceeded. *)
(* mvlc.cc:1062-1070 CmdApi::uploadStack *)
Fixpoint add_part_words (super : SuperCommandBuilder) (writeAddress : Z) (words : list Z)
  : option (SuperCommandBuilder * Z) :=
  match words with
  | [] => Some (super, writeAddress)
  | w :: words =>
      if writeAddress >=? stacks.StackMemoryEnd then None
      else add_part_words (su_addWriteLocal super writeAddress w) (u16 (writeAddress + AddressIncrement)) words
  end.

(** One command that is only written when the address is inside the stack memory. *)
(* mvlc.cc:1046-1059 CmdApi::uploadStack *)
Definition add_boundary (super : SuperCommandBuilder) (writeAddress word : Z) : option (SuperCommandBuilder * Z) :=
  if writeAddress >=? stacks.StackMemoryEnd then None
  else Some (su_addWriteLocal super writeAddress word, u16 (writeAddress + AddressIncrement)).

(* mvlc.cc:1052-1056 CmdApi::uploadStack *)
Definition stack_start_word (stackOutputPipe : Z) : Z :=
  u32 (StackCommandType.StackStart ≪ stack_commands.CmdShift) .| (stackOutputPipe ≪ stack_commands.CmdArg0Shift).
(* mvlc.cc:1078-1081 CmdApi::uploadStack *)
Definition stack_end_word : Z := u32 (StackCommandType.StackEnd ≪ stack_commands.CmdShift).

(** The super commands of one part. *)
(* mvlc.cc:1042-1083 CmdApi::uploadStack *)
Definition build_part (superRef stackOutputPipe writeAddress : Z) (first last : bool) (part : list Z)
  : option (SuperCommandBuilder * Z) :=
  let super := su_addReferenceWord [] superRef in
  '(super, writeAddress) ← (if first then add_boundary super writeAddress (stack_start_word stackOutputPipe)
                            else Some (super, writeAddress));
  '(super, writeAddress) ← add_part_words super writeAddress part;
  if last then add_boundary super writeAddress stack_end_word else Some (super, writeAddress).

(* mvlc.cc:999-1020 CmdApi::uploadStack *)
Definition PartMaxSize (connection : ConnectionType) : nat := match connection with USB => 768 | ETH => 181 end.

(** The largest payload of an unfragmented UDP packet. *)
(* udp_sockets.cc:40-40 MaxPayloadSize *)
Definition MaxPayloadSize : Z := 1500 - 20 - 8.

(** The loop over the parts, with the words that remain; one unit of fuel per part. *)
(* mvlc.cc:1030-1099 CmdApi::uploadStack *)
Fixpoint upload_parts (fuel : nat) (stackOutputPipe writeAddress : Z) (first : bool) (remaining superResponse : list Z)
  : M D error_code :=
  match fuel, remaining with
  | _, [] => mret no_error
  | O, _ => λ _, Hangs
  | S fuel, _ =>
      let part := take (PartMaxSize connectionType) remaining in
      let rest := drop (PartMaxSize connectionType) remaining in
      superRef ← next_super_ref;
      match build_part superRef stackOutputPipe writeAddress first (bool_decide (rest = [])) part with
      | None => mret (Mvlc MVLCErrorCode.StackMemoryExceeded)
      | Some (super, writeAddress) =>
          '(ec, superResponse) ← superTransaction superRef (make_command_buffer super) superResponse;
          if failed ec then mret ec
          else upload_parts fuel stackOutputPipe writeAddress false rest superResponse
      end
  end.

(* mvlc.cc:983-1106 CmdApi::uploadStack *)
Definition uploadStack (stackOutputPipe stackMemoryOffset : Z) (stackContents : list Z) : M D error_code :=
  upload_parts (length stackContents) stackOutputPipe (u16 (stacks.StackMemoryBegin + stackMemoryOffset)) true
    stackContents [].

(* mvlc.cc:1108-1112 CmdApi::uploadStack *)
Definition uploadStack_commands (stackOutputPipe stackMemoryOffset : Z) (commands : list StackCommand) : M D error_code :=
  stackContents ← of_outcome (make_stack_buffer commands);
  uploadStack stackOutputPipe stackMemoryOffset stackContents.

(** ** Stack transactions *)

(* mvlc.cc:921-932 CmdApi::stackTransactionImpl *)
Definition exec_commands (superRef : Z) : SuperCommandBuilder :=
  su_addWriteLocal
    (su_addWriteLocal
      (su_addWriteLocal
        (su_addWriteLocal (su_addReferenceWord [] superRef) registers.stack_exec_status0 0)
        registers.stack_exec_status1 0)
      stacks.Stack0OffsetRegister stacks.ImmediateStackStartOffsetBytes)
    stacks.Stack0TriggerRegister (1 ≪ stacks.ImmediateShift).

(** Writing the buffer and waiting for the two responses. *)
(* mvlc.cc:944-980 CmdApi::stackTransactionImpl *)
Definition exec_and_wait (cmdBuffer : list Z) : M D error_code :=
  ec ← write cmdBuffer;
  if failed ec then fullfill_super ec;; fullfill_stack ec
  else
    arrive;;
    superReady ← get (λ c, pr_promise (pendingSuper c));
    match superReady with
    | None =>
        arrive;; fullfill_super (Mvlc MVLCErrorCode.SuperCommandTimeout);;
        arrive;; fullfill_stack (Mvlc MVLCErrorCode.SuperCommandTimeout)
    | Some ec =>
        if failed ec then fullfill_stack ec
        else
          arrive;;
          stackReady ← get (λ c, pr_promise (pendingStack c));
          match stackReady with
          | None => arrive;; fullfill_stack (Mvlc MVLCErrorCode.StackCommandTimeout)
          | Some ec => mret ec
          end
    end.

(* mvlc.cc:910-981 CmdApi::stackTransactionImpl *)
Definition stackTransactionImpl (stackRef : Z) (stackBuilder : StackCommandBuilder) (stackResponse : Dest)
  : M D (error_code * Dest) :=
  stackBuffer ← of_outcome (make_stack_buffer (getCommands stackBuilder));
  ec ← uploadStack CommandPipe stacks.ImmediateStackStartOffsetBytes stackBuffer;
  if failed ec then mret (ec, stackResponse)
  else
    superRef ← next_super_ref;
    let cmdBuffer := make_command_buffer (exec_commands superRef) in
    arrive;; expect_super (Vec []) superRef;; arrive;; expect_stack stackResponse stackRef;; arrive;;
    ec ← exec_and_wait cmdBuffer;
    dest ← get (λ c, pr_dest (pendingStack c));
    mret (ec, dest).

(** The error that the flags of a status or header word report. *)
(* mvlc.cc:1191-1198 CmdApi::vmeRead *)
Definition flags_error (frameFlags : Z) : option MVLCErrorCode.t :=
  if negb ((frameFlags .& frame_flags.Timeout) =? 0) then Some MVLCErrorCode.NoVMEResponse
  else if negb ((frameFlags .& frame_flags.BusError) =? 0) then Some MVLCErrorCode.VMEBusError
  else if negb ((frameFlags .& frame_flags.SyntaxError) =? 0) then Some MVLCErrorCode.StackSyntaxError
  else None.

(** What the status registers say about a transaction without a matching response: it was
    executed and the response is lost, or it never ran. *)
(* mvlc.cc:837-871 CmdApi::stackTransaction *)
Definition lost_error (stackRef status0 status1 : Z) : MVLCErrorCode.t :=
  if status1 =? stackRef
  then default MVLCErrorCode.StackExecResponseLost (flags_error (extract_frame_flags status0))
  else MVLCErrorCode.StackExecRequestLost.

(** The code [lost_error] is assigned to [ec] and then replaced by the code of the register
    read.  The second component tells that the loop is left. *)
(* mvlc.cc:827-882 CmdApi::stackTransaction *)
Definition check_execution (stackRef : Z) : M D (error_code * bool) :=
  '(ec, status0, status1) ← readStackExecStatusRegisters 0 0;
  if failed ec then mret (ec, true)
  else
    let ec := Mvlc (lost_error stackRef status0 status1) in
    (if status1 =? stackRef then tally CmdPipeCounters.stackExecResponsesLost
     else tally CmdPipeCounters.stackExecRequestsLost);;
    '(ec, _) ← readRegister registers.parse_error_counter 0;
    mret (ec, false).

(** [retries] more attempts may follow this one. *)
(* mvlc.cc:812-884 CmdApi::stackTransaction *)
Fixpoint stack_attempts (retries attempt : nat) (stackRef : Z) (stackBuilder : StackCommandBuilder) (stackResponse : Dest)
  : M D (error_code * Dest) :=
  (if (0 <? attempt)%nat then tally CmdPipeCounters.stackTransactionRetries else mret ());;
  '(ec, stackResponse) ← stackTransactionImpl stackRef stackBuilder stackResponse;
  '(ec, broke) ← (if failed ec && negb (is_type ec ErrorType.VMEError) && negb (is_type ec ErrorType.ProtocolError)
                  then check_execution stackRef else mret (ec, false));
  if failed ec && negb broke then
    match retries with
    | O => mret (ec, stackResponse)
    | S retries => stack_attempts retries (S attempt) stackRef stackBuilder stackResponse
    end
  else mret (ec, stackResponse).

(* mvlc.cc:801-905 CmdApi::stackTransaction *)
Definition stackTransaction (stackRef : Z) (stackBuilder : StackCommandBuilder) (stackResponse : Dest)
  : M D (error_code * Dest) :=
  tally CmdPipeCounters.stackTransactionCount;;
  '(ec, stackResponse) ← stack_attempts (TransactionMaxAttempts - 1) 0 stackRef stackBuilder stackResponse;
  alwaysCheck ← (λ s, Done (api_alwaysCheck s, s));
  (if negb (failed ec) && alwaysCheck then readStackExecStatusRegisters 0 0;; mret () else mret ());;
  mret (ec, stackResponse).

(** ** VME *)

(* mvlc.cc:1163-1205 CmdApi::vmeRead *)
Definition vmeRead (address value amod dataWidth : Z) : M D (error_code * Z) :=
  stackRef ← next_stack_ref;
  let stackBuilder := addVMERead address amod dataWidth false true (addWriteMarker stackRef empty_builder) in
  '(ec, stackResponse) ← stackTransaction stackRef stackBuilder (Vec []);
  let stackResponse := dest_words stackResponse in
  if failed ec then mret (ec, 0)
  else if negb (zlen stackResponse =? 3) then mret (Mvlc MVLCErrorCode.UnexpectedResponseSize, value)
  else
    match flags_error (extract_frame_flags (default 0 (stackResponse !! 0%nat))) with
    | Some e => mret (Mvlc e, value)
    | None =>
        let Mask := if dataWidth =? VMEDataWidth.D16 then 0x0000FFFF else 0xFFFFFFFF in
        mret (no_error, default 0 (stackResponse !! 2%nat) .& Mask)
    end.

(* mvlc.cc:1207-1242 CmdApi::vmeWrite *)
Definition vmeWrite (address value amod dataWidth : Z) : M D error_code :=
  stackRef ← next_stack_ref;
  let stackBuilder := addVMEWrite address value amod dataWidth (addWriteMarker stackRef empty_builder) in
  '(ec, stackResponse) ← stackTransaction stackRef stackBuilder (Vec []);
  let stackResponse := dest_words stackResponse in
  if failed ec then mret ec
  else if negb (zlen stackResponse =? 2) then mret (Mvlc MVLCErrorCode.UnexpectedResponseSize)
  else
    match flags_error (extract_frame_flags (default 0 (stackResponse !! 0%nat))) with
    | Some e => mret (Mvlc e)
    | None => mret no_error
    end.

(** The part that the six block reads share: the transaction and the flags of its first
    word. *)
(* mvlc.cc:1259-1278 CmdApi::vmeBlockRead *)
Definition block_transaction (stackRef : Z) (stackBuilder : StackCommandBuilder) (dest : Dest) : M D (error_code * Dest) :=
  '(ec, dest) ← stackTransaction stackRef stackBuilder dest;
  if failed ec then mret (ec, dest)
  else
    match dest_words dest with
    | [] => mret (no_error, dest)
    | header :: _ =>
        match flags_error (extract_frame_flags header) with
        | Some e => mret (Mvlc e, dest)
        | None => mret (no_error, dest)
        end
    end.

(** Into a vector or a span *)
(* mvlc.cc:1244-1316 CmdApi::vmeBlockRead *)
Definition vmeBlockRead (address amod maxTransfers : Z) (dest : Dest) (fifo : bool) : M D (error_code * Dest) :=
  if negb (vme_amods.is_block_mode amod) then mret (Mvlc MVLCErrorCode.NonBlockAddressMode, dest)
  else
    stackRef ← next_stack_ref;
    block_transaction stackRef (addVMEBlockRead address amod maxTransfers fifo (addWriteMarker stackRef empty_builder)) dest.

(* mvlc.cc:1318-1350 CmdApi::vmeBlockRead *)
Definition vmeBlockRead2eSST (address rate maxTransfers : Z) (dest : Dest) (fifo : bool) : M D (error_code * Dest) :=
  stackRef ← next_stack_ref;
  block_transaction stackRef (addVMEBlockRead2eSST address rate maxTransfers fifo (addWriteMarker stackRef empty_builder)) dest.

(* mvlc.cc:1352-1418 CmdApi::vmeBlockReadSwapped *)
Definition vmeBlockReadSwapped (address amod maxTransfers : Z) (dest : Dest) (fifo : bool) : M D (error_code * Dest) :=
  stackRef ← next_stack_ref;
  block_transaction stackRef (addVMEBlockReadSwapped address amod maxTransfers fifo (addWriteMarker stackRef empty_builder)) dest.

(* mvlc.cc:1420-1452 CmdApi::vmeBlockReadSwapped *)
Definition vmeBlockReadSwapped2eSST (address rate maxTransfers : Z) (dest : Dest) (fifo : bool) : M D (error_code * Dest) :=
  stackRef ← next_stack_ref;
  block_transaction stackRef (addVMEBlockReadSwapped2eSST address rate maxTransfers fifo (addWriteMarker stackRef empty_builder)) dest.

(** ** The class [MVLC] *)

(** The state of [MVLC::Private]; [thread] tells whether the reader thread is joinable. *)
(* mvlc.cc:1459-1524 MVLC::Private *)
Record Mvlc_t : Type := mkMvlc {
  cmdApi : Api D;
  thread : bool;
  isConnected_ : bool;
  hardwareId_ : Z;
  firmwareRevision_ : Z
}.

(** A call of the command interface. *)
Definition call {A} (m : M D A) (d : Mvlc_t) : res (A * Mvlc_t) :=
  match m (cmdApi d) with
  | Done (a, api) => Done (a, mkMvlc api (thread d) (isConnected_ d) (hardwareId_ d) (firmwareRevision_ d))
  | Raise e => Raise e
  | Hangs => Hangs
  | Broken => Broken
  end.

Definition set_connected (b : bool) (d : Mvlc_t) : Mvlc_t :=
  mkMvlc (cmdApi d) (thread d) b (hardwareId_ d) (firmwareRevision_ d).

(* mvlc.cc:1479-1486 MVLC::Private::resultCheck *)
Definition resultCheck (ec : error_code) (d : Mvlc_t) : Mvlc_t :=
  if is_type ec ErrorType.ConnectionError then set_connected false d else d.

(** A public operation: the call and the check of its error code [code a]. *)
Definition checked {A} (code : A → error_code) (m : M D A) (d : Mvlc_t) : res (A * Mvlc_t) :=
  match call m d with
  | Done (a, d) => Done (a, resultCheck (code a) d)
  | r => r
  end.

(* mvlc.cc:1488-1497 MVLC::Private::startCmdReader *)
Definition startCmdReader (d : Mvlc_t) : Mvlc_t :=
  if thread d then d
  else
    let a := cmdApi d in
    let c := context a in
    let c := mkContext false (nextSuperReference c) (nextStackReference c) (pendingSuper c) (pendingStack c)
               new_error_counters (λ _, 0) in
    mkMvlc (mkApi (api_dev a) (reader_start c) false (api_alwaysCheck a)) true (isConnected_ d) (hardwareId_ d) (firmwareRevision_ d).

(** The thread ends at its next look at [quit]. *)
(* mvlc.cc:1499-1506 MVLC::Private::stopCmdReader *)
Definition stopCmdReader (d : Mvlc_t) : Mvlc_t :=
  if thread d then
    let a := cmdApi d in
    let c := if quit (context a) then context a else reader_exit (rd_ec (api_reader a)) (set_quit true (context a)) in
    mkMvlc (set_context c a) false (isConnected_ d) (hardwareId_ d) (firmwareRevision_ d)
  else d.

Definition on_device {A} (f : D → A * D) (d : Mvlc_t) : A * Mvlc_t :=
  let a := cmdApi d in
  let '(x, dev) := f (api_dev a) in
  (x, mkMvlc (mkApi dev (api_reader a) (api_spinning a) (api_alwaysCheck a)) (thread d) (isConnected_ d) (hardwareId_ d) (firmwareRevision_ d)).

(** Reading one of the two identification registers; an error undoes the connection. *)
(* mvlc.cc:1568-1584 MVLC::connect *)
Definition read_id (reg : Z) (d : Mvlc_t) : res (error_code * Z * Mvlc_t) :=
  match call (readRegister reg 0) d with
  | Done ((ec, value), d) => if failed ec then Done (ec, value, stopCmdReader (set_connected false d)) else Done (ec, value, d)
  | Raise e => Raise e
  | Hangs => Hangs
  | Broken => Broken
  end.

(* mvlc.cc:1540-1607 MVLC::connect *)
Definition connect (d : Mvlc_t) : res (error_code * Mvlc_t) :=
  let d := set_connected (impl_isConnected (api_dev (cmdApi d))) d in
  if isConnected_ d then Done (Mvlc MVLCErrorCode.IsConnected, d)
  else
    let d := stopCmdReader d in
    let '(ec, d) := on_device impl_connect d in
    let d := set_connected (impl_isConnected (api_dev (cmdApi d))) d in
    if failed ec then Done (ec, d)
    else
      let d := startCmdReader d in
      match read_id registers.hardware_id d with
      | Done (ec1, hwId, d) =>
          if failed ec1 then Done (ec1, d)
          else
            match read_id registers.firmware_revision d with
            | Done (ec2, fwRev, d) =>
                if failed ec2 then Done (ec2, d)
                else Done (ec, mkMvlc (cmdApi d) (thread d) (isConnected_ d) hwId fwRev)
            | Raise e => Raise e | Hangs => Hangs | Broken => Broken
            end
      | Raise e => Raise e | Hangs => Hangs | Broken => Broken
      end.

(* mvlc.cc:1609-1637 MVLC::disconnect *)
Definition disconnect (d : Mvlc_t) : error_code * Mvlc_t :=
  if impl_isConnected (api_dev (cmdApi d)) then
    let d := stopCmdReader d in
    let '(ec, d) := on_device impl_disconnect d in
    (ec, set_connected (impl_isConnected (api_dev (cmdApi d))) d)
  else (no_error, d).

(* mvlc.cc:1667-1673 MVLC::getStackCount *)
Definition getStackCount (d : Mvlc_t) : Z :=
  if firmwareRevision_ d <? 0x0037 then stacks.StackCountPreFW0037 else stacks.StackCount.

(* mvlc.cc:1698-1702 MVLC::readRegister *)
Definition mvlc_readRegister (address value : Z) : Mvlc_t → res (error_code * Z * Mvlc_t) := checked fst (readRegister address value).
(* mvlc.cc:1704-1708 MVLC::writeRegister *)
Definition mvlc_writeRegister (address value : Z) : Mvlc_t → res (error_code * Mvlc_t) := checked id (writeRegister address value).
(* mvlc.cc:1838-1844 MVLC::enableJumboFrames *)
Definition enableJumboFrames (b : bool) (d : Mvlc_t) : res (error_code * Mvlc_t) :=
  if negb (isConnected_ d) then Done (Mvlc MVLCErrorCode.IsDisconnected, d)
  else mvlc_writeRegister registers.jumbo_frame_enable (Z.b2z b) d.
(* mvlc.cc:1846-1855 MVLC::jumboFramesEnabled *)
Definition jumboFramesEnabled (d : Mvlc_t) : res (bool * error_code * Mvlc_t) :=
  if negb (isConnected_ d) then Done (false, Mvlc MVLCErrorCode.IsDisconnected, d)
  else match mvlc_readRegister registers.jumbo_frame_enable 0 d with
       | Done (ec, value, d) => Done (negb (value =? 0), ec, d)
       | Raise e => Raise e
       | Hangs => Hangs
       | Broken => Broken
       end.
(* mvlc.cc:1711-1715 MVLC::vmeRead *)
Definition mvlc_vmeRead (address value amod dataWidth : Z) : Mvlc_t → res (error_code * Z * Mvlc_t) :=
  checked fst (vmeRead address value amod dataWidth).
(* mvlc.cc:1717-1721 MVLC::vmeWrite *)
Definition mvlc_vmeWrite (address value amod dataWidth : Z) : Mvlc_t → res (error_code * Mvlc_t) :=
  checked id (vmeWrite address value amod dataWidth).
(* mvlc.cc:1724-1734 MVLC::vmeBlockRead *)
Definition mvlc_vmeBlockRead (address amod maxTransfers : Z) (dest : Dest) (fifo : bool) : Mvlc_t → res (error_code * Dest * Mvlc_t) :=
  checked fst (vmeBlockRead address amod maxTransfers dest fifo).
(* mvlc.cc:1736-1740 MVLC::vmeBlockRead *)
Definition mvlc_vmeBlockRead2eSST (address rate maxTransfers : Z) (dest : Dest) (fifo : bool) : Mvlc_t → res (error_code * Dest * Mvlc_t) :=
  checked fst (vmeBlockRead2eSST address rate maxTransfers dest fifo).
(* mvlc.cc:1742-1752 MVLC::vmeBlockReadSwapped *)
Definition mvlc_vmeBlockReadSwapped (address amod maxTransfers : Z) (dest : Dest) (fifo : bool) : Mvlc_t → res (error_code * Dest * Mvlc_t) :=
  checked fst (vmeBlockReadSwapped address amod maxTransfers dest fifo).
(* mvlc.cc:1754-1758 MVLC::vmeBlockReadSwapped *)
Definition mvlc_vmeBlockReadSwapped2eSST (address rate maxTransfers : Z) (dest : Dest) (fifo : bool) : Mvlc_t → res (error_code * Dest * Mvlc_t) :=
  checked fst (vmeBlockReadSwapped2eSST address rate maxTransfers dest fifo).
(* mvlc.cc:1760-1767 MVLC::uploadStack *)
Definition mvlc_uploadStack_commands (stackOutputPipe stackMemoryOffset : Z) (commands : list StackCommand)
  : Mvlc_t → res (error_code * Mvlc_t) := checked id (uploadStack_commands stackOutputPipe stackMemoryOffset commands).
(* mvlc.cc:1769-1776 MVLC::uploadStack *)
Definition mvlc_uploadStack (stackOutputPipe stackMemoryOffset : Z) (stackContents : list Z)
  : Mvlc_t → res (error_code * Mvlc_t) := checked id (uploadStack stackOutputPipe stackMemoryOffset stackContents).

(* mvlc.cc:1803-1817 MVLC::superTransaction *)
Definition mvlc_superTransaction (superBuilder : SuperCommandBuilder) (dest : list Z) (d : Mvlc_t)
  : res (error_code * list Z * Mvlc_t) :=
  match superBuilder with
  | first :: _ =>
      if bool_decide (su_type first = ReferenceWord)
      then checked fst (superTransaction (u16 (su_value first)) (make_command_buffer superBuilder) dest) d
      else Done (Mvlc MVLCErrorCode.SuperFormatError, dest, d)
  | [] => Done (Mvlc MVLCErrorCode.SuperFormatError, dest, d)
  end.

(* mvlc.cc:1819-1836 MVLC::stackTransaction *)
Definition mvlc_stackTransaction (stackBuilder : StackCommandBuilder) (dest : list Z) (d : Mvlc_t)
  : res (error_code * Dest * Mvlc_t) :=
  match getCommands stackBuilder with
  | first :: _ =>
      if bool_decide (sc_type first = WriteMarker)
      then checked fst (stackTransaction (sc_value first) stackBuilder (Vec dest)) d
      else Done (Mvlc MVLCErrorCode.StackFormatError, Vec dest, d)
  | [] => Done (Mvlc MVLCErrorCode.StackFormatError, Vec dest, d)
  end.

End Api.

(** ** Firmware versions: [firmware_checks.cc] *)

(* firmware_checks.cc:6-20 minimum_recommended_firmware *)
Definition minimum_recommended_firmware (hardwareId : Z) : Z := if hardwareId =? 0x5008 then 0x0039 else 0.

(* firmware_checks.cc:22-26 is_recommended_firmware *)
Definition is_recommended_firmware (hardwareId firmwareRevision : Z) : bool :=
  firmwareRevision >=? minimum_recommended_firmware hardwareId.
