(* ===== verification/CmdApiLaws.v ===== *)
(** * Connections and controllers

    What the command interface may expect of the other side, as type classes: reads that
    fit their buffer, a controller that executes register accesses and mirrors them in its
    response, and a controller that executes VME accesses of the immediate stack.  A
    simulated controller satisfies all of them. *)

From S2P Require Import Prelude Effects Constants Frames FramesFacts Commands CommandsFacts StackErrors Errors CmdPipe CmdPipeFacts CmdApi.

(** The reads of the connection fit the space that the reader reserves for them. *)
Class ReadsFit (D : Type) `{Connection D} : Prop :=
  reads_fit d : Forall (read_fits connectionType) (impl_arrive d).1.

(** ** Register accesses and their mirror responses *)

(** Registers that were never written read as 0. *)
Definition reg (m : gmap Z Z) (a : Z) : Z := default 0 (m !! a).

(** The contents of the response: each command, and the value after a read. *)
Fixpoint echo (m : gmap Z Z) (cmds : list SuperCommand) : list Z :=
  match cmds with
  | [] => []
  | c :: cmds =>
      encode_super_command c ++ (if bool_decide (su_type c = ReadLocal) then [reg m (su_address c)] else [])
      ++ echo (apply_write m c) cmds
  end.

Definition ref_word (ref : Z) : Z := SuperCT_value ReferenceWord * 2 ^ 16 + ref.

Definition super_answer (m : gmap Z Z) (ref : Z) (cmds : list SuperCommand) : list Z :=
  frame_word frame_headers.SuperFrame 0 0 0 (1 + zlen (echo m cmds)) :: ref_word ref :: echo m cmds.

(** A read or write of a register. *)
Definition register_access (c : SuperCommand) : Prop :=
  (su_type c = ReadLocal ∧ is_u16 (su_address c) ∧ su_value c = 0)
  ∨ (su_type c = WriteLocal ∧ is_u16 (su_address c) ∧ is_u32 (su_value c)).

(** The largest command buffer the controller takes, in words. *)
Definition max_command_words (connection : ConnectionType) : Z :=
  match connection with USB => MirrorTransactionMaxWords | ETH => MaxPayloadSize / 4 end.

Definition request (ref : Z) (cmds : list SuperCommand) : list Z := make_command_buffer (mkSuper ReferenceWord 0 ref :: cmds).

(** A write that starts the immediate execution of stack 0. *)
Definition starts (c : SuperCommand) : bool :=
  bool_decide (su_type c = WriteLocal) && (su_address c =? stacks.Stack0TriggerRegister)
  && negb ((su_value c .& (1 ≪ stacks.ImmediateShift)) =? 0).
Definition triggers (cmds : list SuperCommand) : bool := existsb starts cmds.

(** The documented behaviour of the controller: nothing arrives without a request; a request
    of register accesses is taken, executed, and answered by one super response with the
    reference number and the mirrored commands.  The trigger register of stack 0 starts
    the immediate stack: [execute] says what it sends over the command pipe, and what
    becomes of the registers and of the VME bus. *)
Class Controller (D : Type) `{Connection D} : Type := {
  Bus : Type;
  bus : D → Bus;
  regs : D → gmap Z Z;
  quiet : D → Prop;
  execute : Bus → gmap Z Z → list Z * gmap Z Z * Bus;
  quiet_arrive d : quiet d → impl_arrive d = ([], d);
  answers d ref cmds :
    quiet d → is_u16 ref → Forall register_access cmds → zlen (request ref cmds) ≤ max_command_words connectionType →
    let m := foldl apply_write (regs d) cmds in
    let '(out, m', b') := if triggers cmds then execute (bus d) m else ([], m, bus d) in
    ∃ d1 rs d2, impl_write (request ref cmds) d = (no_error, d1) ∧ impl_arrive d1 = (rs, d2) ∧ quiet d2
      ∧ Forall (read_ok connectionType) rs ∧ all_words rs = super_answer (regs d) ref cmds ++ out
      ∧ regs d2 = m' ∧ bus d2 = b'
}.

(** ** VME accesses of the immediate stack *)

(** The registers hold a stack with the given words, and stack 0 starts there. *)
Definition program (m : gmap Z Z) (ws : list Z) : Prop :=
  ∃ off, m !! stacks.Stack0OffsetRegister = Some off
    ∧ stored_at m (stacks.StackMemoryBegin + off) (upload_contents CommandPipe ws).

Definition marker_words (ref : Z) : list Z := [stack_word (CommandType_value WriteMarker) 0 0; ref].
Definition read_words (ref address amod width : Z) : list Z :=
  marker_words ref ++ [stack_word (CommandType_value VMERead) amod width; address].
Definition write_words (ref address value amod width : Z) : list Z :=
  marker_words ref ++ [stack_word (CommandType_value VMEWrite) amod width; address; value].

(** The first word of a response of [len] words; flag bits other than Continue are free. *)
Definition stack_header (flags len : Z) : Z := frame_word frame_headers.StackFrame flags 0 0 len.

(** The documented response to an immediate stack with one VME access: the marker, the
    value of a read, and flags that report how the access went. *)
Class VMEController (D : Type) `{Controller D} : Type := {
  vme_read : Bus → Z → Z → Z → Z * Z;
  vme_write : Bus → Z → Z → Z → Z → Z * Bus;
  vme_read_flags b a amod w : 0 ≤ (vme_read b a amod w).1 < 8;
  vme_write_flags b a v amod w : 0 ≤ (vme_write b a v amod w).1 < 8;
  executes_read b m ref a amod w :
    is_u8 amod → is_u8 w → program m (read_words ref a amod w) →
    let '(flags, v) := vme_read b a amod w in
    ∃ m', execute b m = ([stack_header flags 2; ref; v], m', b);
  executes_write b m ref a v amod w :
    is_u8 amod → is_u8 w → program m (write_words ref a v amod w) →
    let '(flags, b') := vme_write b a v amod w in
    ∃ m', execute b m = ([stack_header flags 1; ref], m', b')
}.

(** ** A simulated controller *)

(** Registers, VME modules with one register per address, and the words that wait to be
    read; with [lossy], stack responses get lost on the way. *)
Record Sim (connection : ConnectionType) (lossy : bool) : Type := mkSim { s_regs : gmap Z Z; s_bus : gmap Z Z; s_out : list Z }.
Arguments mkSim {connection lossy}.
Arguments s_regs {connection lossy}.
Arguments s_bus {connection lossy}.
Arguments s_out {connection lossy}.

(** An access to an address without a module times out. *)
Definition sim_read (b : gmap Z Z) (a : Z) : Z * Z :=
  match b !! a with Some v => (0, v) | None => (frame_flags.Timeout, 0) end.
Definition sim_write (b : gmap Z Z) (a v : Z) : Z * gmap Z Z :=
  match b !! a with
  | Some _ => (0, <[a := v]> b)
  | None => (frame_flags.Timeout, b)
  end.

(** The immediate stack: a marker followed by a read or a write. *)
Definition sim_execute (lossy : bool) (b : gmap Z Z) (m : gmap Z Z) : list Z * gmap Z Z * gmap Z Z :=
  let word i := reg m (stacks.StackMemoryBegin + reg m stacks.Stack0OffsetRegister + 4 * i) in
  let ref := word 2 in
  let a := word 4 in
  let done header := <[registers.stack_exec_status1 := ref]> (<[registers.stack_exec_status0 := header]> m) in
  let op := (word 3 ≫ stack_commands.CmdShift) .& stack_commands.CmdMask in
  if op =? CommandType_value VMERead then
    let '(flags, v) := sim_read b a in
    (if lossy then [] else [stack_header flags 2; ref; v], done (stack_header flags 2), b)
  else if op =? CommandType_value VMEWrite then
    let '(flags, b') := sim_write b a (word 5) in
    (if lossy then [] else [stack_header flags 1; ref], done (stack_header flags 1), b')
  else ([], m, b).

Definition sim_reads (ws : list Z) : list ReadResult := (λ w, mkRead [w] 4 no_error) <$> ws.

Definition sim_request {t lossy} (words : list Z) (d : Sim t lossy) : Sim t lossy :=
  match super_builder_from_buffer words with
  | Return (ref :: cmds) =>
      let m := foldl apply_write (s_regs d) cmds in
      let '(out, m', b') := if triggers cmds then sim_execute lossy (s_bus d) m else ([], m, s_bus d) in
      mkSim m' b' (s_out d ++ super_answer (s_regs d) (su_value ref) cmds ++ out)
  | _ => d
  end.

#[global] Instance Sim_connection t lossy : Connection (Sim t lossy) := {
  connectionType := t;
  impl_write words d := (no_error, sim_request words d);
  impl_arrive d := (sim_reads (s_out d), mkSim (s_regs d) (s_bus d) []);
  impl_connect d := (no_error, d);
  impl_disconnect d := (no_error, d);
  impl_isConnected d := true
}.

Lemma sim_reads_ok t ws : Forall (read_ok t) (sim_reads ws).
Proof. apply Forall_fmap, Forall_true. intros w. split; [by destruct t|done]. Qed.

Lemma sim_reads_words ws : all_words (sim_reads ws) = ws.
Proof. induction ws as [|w ws IH]; [done|]. unfold all_words, sim_reads in *. cbn. by rewrite IH. Qed.

#[global] Instance Sim_fits t lossy : ReadsFit (Sim t lossy).
Proof. intros d. eapply Forall_impl; [apply sim_reads_ok|]. by intros r []. Qed.

Lemma access_encodable c : register_access c → super_encodable c.
Proof. destruct c as [ty a v]. unfold register_access, super_encodable. cbn. intros [(-> & ? & ->)|(-> & ? & ?)]; done. Qed.

Lemma request_decodes ref cmds :
  is_u16 ref → Forall register_access cmds → super_builder_from_buffer (request ref cmds) = Return (mkSuper ReferenceWord 0 ref :: cmds).
Proof.
  intros Hr Hc. apply command_buffer_decodes. apply Forall_cons. split; [done|]. eapply Forall_impl; [exact Hc|apply access_encodable].
Qed.

Lemma sim_quiet t lossy (d : Sim t lossy) : s_out d = [] → impl_arrive d = ([], d).
Proof. destruct d as [m b out]. cbn. by intros ->. Qed.

Lemma sim_answers t lossy (d : Sim t lossy) ref cmds :
  s_out d = [] → is_u16 ref → Forall register_access cmds → zlen (request ref cmds) ≤ max_command_words t →
  let m := foldl apply_write (s_regs d) cmds in
  let '(out, m', b') := if triggers cmds then sim_execute lossy (s_bus d) m else ([], m, s_bus d) in
  ∃ d1 rs d2, impl_write (request ref cmds) d = (no_error, d1) ∧ impl_arrive d1 = (rs, d2) ∧ s_out d2 = []
    ∧ Forall (read_ok t) rs ∧ all_words rs = super_answer (s_regs d) ref cmds ++ out
    ∧ s_regs d2 = m' ∧ s_bus d2 = b'.
Proof.
  destruct d as [m b out]. intros Hq Hr Hc _. cbn [s_regs s_bus s_out] in *. subst out. cbv zeta.
  destruct (if triggers cmds then _ else _) as [[out m'] b'] eqn:E.
  do 3 eexists. cbn [impl_write impl_arrive Sim_connection]. split; [reflexivity|]. split; [reflexivity|].
  unfold sim_request. rewrite request_decodes by done. cbn [s_regs s_bus s_out]. rewrite E. cbn [s_regs s_bus s_out su_value app].
  split_and!; [done|apply sim_reads_ok|apply sim_reads_words|done|done].
Qed.

#[global] Instance Sim_controller t lossy : Controller (Sim t lossy) := {
  Bus := gmap Z Z; bus := s_bus; regs := s_regs; quiet d := s_out d = []; execute := sim_execute lossy;
  quiet_arrive := sim_quiet t lossy; answers := sim_answers t lossy
}.

(** The simulated controller finds the words of its program. *)
Lemma program_word m ws i w :
  program m ws → Z.of_nat (Z.to_nat i) = i → upload_contents CommandPipe ws !! Z.to_nat i = Some w →
  reg m (stacks.StackMemoryBegin + reg m stacks.Stack0OffsetRegister + 4 * i) = w.
Proof.
  intros (off & Ho & Hs) Hi Hw. assert (Hr : reg m stacks.Stack0OffsetRegister = off) by (unfold reg; by rewrite Ho).
  rewrite Hr. unfold reg. specialize (Hs (Z.to_nat i) w Hw). rewrite Hi in Hs. by rewrite Hs.
Qed.

Lemma opcode t a w : is_u8 a → is_u8 w → (stack_word (CommandType_value t) a w ≫ stack_commands.CmdShift) .& stack_commands.CmdMask = CommandType_value t.
Proof.
  unfold is_u8. intros Ha Hw.
  by destruct (stack_word_fields (CommandType_value t) a w) as (-> & _); [apply CommandType_value_range|lia|lia|].
Qed.

Lemma sim_read_flags b a : 0 ≤ (sim_read b a).1 < 8.
Proof. unfold sim_read. by destruct (b !! a). Qed.
Lemma sim_write_flags b a v : 0 ≤ (sim_write b a v).1 < 8.
Proof. unfold sim_write. by destruct (b !! a). Qed.

Lemma sim_executes_read b m ref a amod w :
  is_u8 amod → is_u8 w → program m (read_words ref a amod w) →
  let '(flags, v) := sim_read b a in
  ∃ m', sim_execute false b m = ([stack_header flags 2; ref; v], m', b).
Proof.
  intros Ham Hw Hp. destruct (sim_read b a) as [flags v] eqn:E. unfold sim_execute. cbv zeta.
  rewrite (program_word m _ 2 _ Hp eq_refl eq_refl), (program_word m _ 3 _ Hp eq_refl eq_refl), (program_word m _ 4 _ Hp eq_refl eq_refl).
  rewrite opcode, Z.eqb_refl, E by done. by eexists.
Qed.

Lemma sim_executes_write b m ref a v amod w :
  is_u8 amod → is_u8 w → program m (write_words ref a v amod w) →
  let '(flags, b') := sim_write b a v in
  ∃ m', sim_execute false b m = ([stack_header flags 1; ref], m', b').
Proof.
  intros Ham Hw Hp. destruct (sim_write b a v) as [flags b'] eqn:E. unfold sim_execute. cbv zeta.
  rewrite (program_word m _ 2 _ Hp eq_refl eq_refl), (program_word m _ 3 _ Hp eq_refl eq_refl), (program_word m _ 4 _ Hp eq_refl eq_refl),
    (program_word m _ 5 _ Hp eq_refl eq_refl).
  rewrite opcode, E by done. by eexists.
Qed.

#[global] Instance Sim_vme t : VMEController (Sim t false) := {
  vme_read b a _ _ := sim_read b a;
  vme_write b a v _ _ := sim_write b a v;
  vme_read_flags b a _ _ := sim_read_flags b a;
  vme_write_flags b a v _ _ := sim_write_flags b a v;
  executes_read := sim_executes_read;
  executes_write := sim_executes_write
}.

(** A command interface that has just been set up, with an idle simulated controller. *)
Definition sim_api {t lossy} (m b : gmap Z Z) : Api (Sim t lossy) := mkApi (mkSim m b []) (reader_start new_context) false false.
