(* ===== verification/CmdApiFacts.v ===== *)
(** * Properties of transactions

    For every controller, a call of the command interface comes to an end and leaves no
    response pending. *)

From S2P Require Import Prelude Effects Constants Frames FramesFacts Commands CommandsFacts StackErrors Errors CmdPipe CmdPipeFacts CmdApi CmdApiLaws.

(** ** Assertions about calls *)

(** From a state with [P], the call returns with [Q] or throws; it does not wait for ever
    and has no undefined behaviour. *)
Definition triple {D A} (P : Api D → Prop) (m : M D A) (Q : A → Api D → Prop) : Prop :=
  ∀ s, P s → match m s with Done (a, s') => Q a s' | Raise _ => True | Hangs | Broken => False end.

Lemma triple_ret {D A} (P : Api D → Prop) (a : A) (Q : A → Api D → Prop) : (∀ s, P s → Q a s) → triple P (mret a) Q.
Proof. intros H s Hs. by apply H. Qed.

Lemma triple_bind {D A B} P (m : M D A) (R : A → Api D → Prop) (f : A → M D B) Q :
  triple P m R → (∀ a, triple (R a) (f a) Q) → triple P (m ≫= f) Q.
Proof.
  intros Hm Hf s Hs. specialize (Hm s Hs). unfold mbind, M_bind. destruct (m s) as [[a s']| | |]; [|done..].
  by apply Hf.
Qed.

Lemma triple_run {D A} P (m : M D A) (Q : A → Api D → Prop) s :
  triple P m Q → P s → (∃ a s', m s = Done (a, s') ∧ Q a s') ∨ ∃ e, m s = Raise e.
Proof. intros Hm Hs. specialize (Hm s Hs). destruct (m s) as [[a s']|e| |]; [left; by exists a, s'|right; by exists e|done|done]. Qed.

Lemma triple_conseq {D A} (P P' : Api D → Prop) (m : M D A) (Q Q' : A → Api D → Prop) :
  triple P' m Q' → (∀ s, P s → P' s) → (∀ a s, Q' a s → Q a s) → triple P m Q.
Proof. intros Hm HP HQ s Hs. specialize (Hm s (HP s Hs)). destruct (m s) as [[a s']| | |]; auto. Qed.

(** The state of a pending response: not pending, or registered by a transaction and
    perhaps already answered. *)
Inductive pstate : Type := PIdle | POpen.

Definition in_state (ps : pstate) (p : PendingResponse) : Prop :=
  match ps with
  | PIdle => pr_pending p = false
  | POpen => (pr_pending p = true ∧ pr_promise p = None) ∨ (pr_pending p = false ∧ is_Some (pr_promise p))
  end.

(** The reader's buffer is consistent and the two responses are in the given states. *)
Definition at_ {D} (super stack : pstate) (s : Api D) : Prop :=
  (∃ q, represents (rd_buffer (api_reader s)) q) ∧ in_state super (pendingSuper (context s)) ∧ in_state stack (pendingStack (context s)).

Abbreviation idle := (at_ PIdle PIdle).

Lemma settles_in_state ps p p' : settles p p' → in_state ps p → in_state ps p'.
Proof. intros [->|(H1 & H2 & H3 & _)]; [done|]. destruct ps; [done|]. by right. Qed.

Section Settle.
Context {D : Type} {HC : Connection D} {HF : ReadsFit D}.

Lemma arrive_triple a b : triple (D := D) (at_ a b) arrive (λ _, at_ a b).
Proof.
  intros s ((q & Hr) & H1 & H2). unfold arrive. pose proof (reads_fit (api_dev s)) as Hf.
  destruct (impl_arrive (api_dev s)) as [rs dev]. destruct (api_spinning s); [by split; [exists q|]|].
  destruct (feed_all_safe connectionType rs (api_reader s) q Hr Hf) as (rd & q' & e & -> & Hr' & Hs1 & Hs2).
  split; [by exists q'|]. split; by eapply settles_in_state.
Qed.

Lemma write_triple a b ws : triple (D := D) (at_ a b) (write ws) (λ _, at_ a b).
Proof. intros s Hs. unfold write. by destruct (impl_write ws (api_dev s)). Qed.

Lemma expect_super_triple b d r : triple (D := D) (at_ PIdle b) (expect_super d r) (λ _, at_ POpen b).
Proof.
  intros s (Hq & H1 & H2). unfold expect_super, set_pending_response. cbn in H1. rewrite H1. split_and!; [done|by left|done].
Qed.

Lemma expect_stack_triple a d r : triple (D := D) (at_ a PIdle) (expect_stack d r) (λ _, at_ a POpen).
Proof.
  intros s (Hq & H1 & H2). unfold expect_stack, set_pending_response. cbn in H2. rewrite H2. split_and!; [done|done|by left].
Qed.

Lemma fullfill_idle ps p ec w : in_state ps p → in_state PIdle (fullfill_pending_response p ec w).
Proof. intros _. unfold fullfill_pending_response, in_state. by destruct (pr_pending p) eqn:E. Qed.

Lemma fullfill_super_triple a b ec : triple (D := D) (at_ a b) (fullfill_super ec) (λ _, at_ PIdle b).
Proof. intros s (Hq & H1 & H2). split_and!; [done|by eapply fullfill_idle|done]. Qed.

Lemma fullfill_stack_triple a b ec : triple (D := D) (at_ a b) (fullfill_stack ec) (λ _, at_ a PIdle).
Proof. intros s (Hq & H1 & H2). split_and!; [done|done|by eapply fullfill_idle]. Qed.

(** A promise that is set belongs to a response that is no longer pending. *)
Lemma super_ready_triple b :
  triple (D := D) (at_ POpen b) (get (λ c, pr_promise (pendingSuper c))) (λ r, match r with Some _ => at_ PIdle b | None => at_ POpen b end).
Proof.
  intros s (Hq & H1 & H2). unfold get. destruct (pr_promise (pendingSuper (context s))) eqn:E; [|by split_and!].
  split_and!; [done| |done]. by destruct H1 as [[_ H1]|[H1 _]]; [congruence|].
Qed.

Lemma stack_ready_triple a :
  triple (D := D) (at_ a POpen) (get (λ c, pr_promise (pendingStack c))) (λ r, match r with Some _ => at_ a PIdle | None => at_ a POpen end).
Proof.
  intros s (Hq & H1 & H2). unfold get. destruct (pr_promise (pendingStack (context s))) eqn:E; [|by split_and!].
  split_and!; [done|done|]. by destruct H2 as [[_ H2]|[H2 _]]; [congruence|].
Qed.

Lemma get_triple {A} a b (f : ReaderContext → A) : triple (D := D) (at_ a b) (get f) (λ _, at_ a b).
Proof. by intros s Hs. Qed.
Lemma tally_triple a b k : triple (D := D) (at_ a b) (tally k) (λ _, at_ a b).
Proof. by intros s Hs. Qed.
Lemma next_super_triple a b : triple (D := D) (at_ a b) next_super_ref (λ _, at_ a b).
Proof. by intros s Hs. Qed.
Lemma next_stack_triple a b : triple (D := D) (at_ a b) next_stack_ref (λ _, at_ a b).
Proof. by intros s Hs. Qed.
Lemma ret_triple {A} a b (x : A) : triple (D := D) (at_ a b) (mret x) (λ _, at_ a b).
Proof. by apply triple_ret. Qed.

Create HintDb triples discriminated.
Hint Resolve arrive_triple write_triple expect_super_triple expect_stack_triple fullfill_super_triple fullfill_stack_triple
  super_ready_triple stack_ready_triple get_triple tally_triple next_super_triple next_stack_triple ret_triple : triples.

(** One step of a call: the triple of its first action, then the rest. *)
Ltac step_triple := eapply triple_bind; [by eauto with triples|cbn beta; intros ?].

Lemma superTransactionImpl_triple ref cmds resp : triple (D := D) idle (superTransactionImpl ref cmds resp) (λ _, idle).
Proof.
  unfold superTransactionImpl. destruct (_ >? _); [apply ret_triple|]. do 3 step_triple.
  eapply triple_bind; [by eauto with triples|cbn beta; intros ec]. eapply (triple_bind _ _ (λ _, idle)).
  - destruct (failed ec); [eauto with triples|]. step_triple. eapply triple_bind; [apply super_ready_triple|]. cbn beta. intros [ec'|].
    + apply ret_triple.
    + step_triple. eauto with triples.
  - intros ec'. step_triple. apply ret_triple.
Qed.
#[local] Hint Resolve superTransactionImpl_triple : triples.

Lemma super_attempts_triple n k ref cmds resp : triple (D := D) idle (super_attempts n k ref cmds resp) (λ _, idle).
Proof.
  revert k resp; induction n as [|n IH]; intros k resp; cbn [super_attempts]; (eapply triple_bind; [by eauto with triples|]);
    cbn beta; intros [ec resp']; (destruct (failed ec); [first [apply ret_triple|apply IH]|]);
    (eapply (triple_bind _ _ (λ _, idle)); [|intros _; apply ret_triple]); destruct (0 <? k)%nat; eauto with triples.
Qed.

Lemma superTransaction_triple ref cmds resp : triple (D := D) idle (superTransaction ref cmds resp) (λ _, idle).
Proof. unfold superTransaction. step_triple. apply super_attempts_triple. Qed.

#[local] Hint Resolve superTransaction_triple : triples.

Lemma readRegister_triple address value : triple (D := D) idle (readRegister address value) (λ _, idle).
Proof.
  unfold readRegister. step_triple. cbv zeta. eapply triple_bind; [by eauto with triples|]. cbn beta. intros [ec resp].
  destruct (failed ec); [apply ret_triple|]. destruct (negb _); apply ret_triple.
Qed.

Lemma writeRegister_triple address value : triple (D := D) idle (writeRegister address value) (λ _, idle).
Proof.
  unfold writeRegister. step_triple. cbv zeta. eapply triple_bind; [by eauto with triples|]. cbn beta. intros [ec resp].
  destruct (failed ec); [apply ret_triple|]. destruct (negb _); apply ret_triple.
Qed.

Lemma readStatus_triple s0 s1 : triple (D := D) idle (readStackExecStatusRegisters s0 s1) (λ _, idle).
Proof.
  unfold readStackExecStatusRegisters. step_triple. cbv zeta. eapply triple_bind; [by eauto with triples|]. cbn beta. intros [ec resp].
  destruct (failed ec); [apply ret_triple|]. destruct (negb _); apply ret_triple.
Qed.

#[local] Hint Resolve readRegister_triple writeRegister_triple readStatus_triple : triples.

(** Each part takes at least one word from the remaining ones. *)
Lemma upload_parts_triple fuel pipe addr first remaining resp :
  (length remaining ≤ fuel)%nat → triple (D := D) idle (upload_parts fuel pipe addr first remaining resp) (λ _, idle).
Proof.
  revert addr first remaining resp; induction fuel as [|fuel IH]; intros addr first remaining resp Hf.
  { destruct remaining; [apply ret_triple|cbn in Hf; lia]. }
  cbn [upload_parts]. destruct remaining as [|w remaining]; [apply ret_triple|]. step_triple. cbv zeta.
  destruct (build_part _ _ _ _ _ _) as [[super addr']|]; [|apply ret_triple].
  eapply triple_bind; [by eauto with triples|]. cbn beta. intros [ec resp']. destruct (failed ec); [apply ret_triple|].
  apply IH. rewrite length_drop. cbn [length] in *. destruct connectionType; cbn; lia.
Qed.

Lemma uploadStack_triple pipe off contents : triple (D := D) idle (uploadStack pipe off contents) (λ _, idle).
Proof. unfold uploadStack. by apply upload_parts_triple. Qed.

#[local] Hint Resolve uploadStack_triple : triples.

Lemma make_stack_buffer_defined cmds : make_stack_buffer cmds ≠ Undefined.
Proof.
  induction cmds as [|c cmds IH]; [done|]. cbn [make_stack_buffer].
  destruct (encode_stack_command c) as [ws|e|] eqn:E; [|done|].
  - cbn [mbind outcome_bind]. by destruct (make_stack_buffer cmds).
  - unfold encode_stack_command in E. by destruct (sc_type c).
Qed.

Lemma stack_buffer_triple cmds : triple (D := D) idle (of_outcome (make_stack_buffer cmds)) (λ _, idle).
Proof.
  intros s Hs. unfold of_outcome. pose proof (make_stack_buffer_defined cmds). by destruct (make_stack_buffer cmds).
Qed.

#[local] Hint Resolve stack_buffer_triple : triples.

Lemma uploadStack_commands_triple pipe off cmds : triple (D := D) idle (uploadStack_commands pipe off cmds) (λ _, idle).
Proof. unfold uploadStack_commands. step_triple. eauto with triples. Qed.

Lemma exec_and_wait_triple buf : triple (D := D) (at_ POpen POpen) (exec_and_wait buf) (λ _, idle).
Proof.
  unfold exec_and_wait. eapply triple_bind; [by eauto with triples|]. cbn beta. intros ec.
  destruct (failed ec); [step_triple; eauto with triples|]. step_triple.
  eapply triple_bind; [apply super_ready_triple|]. cbn beta. intros [ec'|].
  - destruct (failed ec'); [eauto with triples|]. step_triple.
    eapply triple_bind; [apply stack_ready_triple|]. cbn beta. intros [ec''|]; [apply ret_triple|]. step_triple. eauto with triples.
  - do 3 step_triple. eauto with triples.
Qed.

#[local] Hint Resolve exec_and_wait_triple : triples.

Lemma stackTransactionImpl_triple ref b dest : triple (D := D) idle (stackTransactionImpl ref b dest) (λ _, idle).
Proof.
  unfold stackTransactionImpl. step_triple. eapply triple_bind; [by eauto with triples|]. cbn beta. intros ec.
  destruct (failed ec); [apply ret_triple|]. do 8 step_triple. apply ret_triple.
Qed.

#[local] Hint Resolve stackTransactionImpl_triple : triples.

Lemma check_execution_triple ref : triple (D := D) idle (check_execution ref) (λ _, idle).
Proof.
  unfold check_execution. eapply triple_bind; [by eauto with triples|]. cbn beta. intros [[ec s0] s1].
  destruct (failed ec); [apply ret_triple|]. cbv zeta. eapply (triple_bind _ _ (λ _, idle)).
  - destruct (s1 =? ref); eauto with triples.
  - intros _. eapply triple_bind; [by eauto with triples|]. cbn beta. intros [ec' v]. apply ret_triple.
Qed.

#[local] Hint Resolve check_execution_triple : triples.

Lemma stack_attempts_triple n k ref b dest : triple (D := D) idle (stack_attempts n k ref b dest) (λ _, idle).
Proof.
  revert k dest; induction n as [|n IH]; intros k dest; cbn [stack_attempts];
    (eapply (triple_bind _ _ (λ _, idle)); [destruct (0 <? k)%nat; eauto with triples|intros _]);
    (eapply triple_bind; [by eauto with triples|]); cbn beta; intros [ec dest'];
    (eapply (triple_bind _ _ (λ _, idle)); [destruct (_ && _); eauto with triples|]); intros [ec' broke];
    destruct (_ && _); first [apply ret_triple|apply IH].
Qed.

Lemma stackTransaction_triple ref b dest : triple (D := D) idle (stackTransaction ref b dest) (λ _, idle).
Proof.
  unfold stackTransaction. step_triple. eapply triple_bind; [apply stack_attempts_triple|]. cbn beta. intros [ec dest'].
  eapply (triple_bind _ _ (λ _, idle)); [by intros s Hs|intros check].
  eapply (triple_bind _ _ (λ _, idle)); [|intros _; apply ret_triple].
  destruct (_ && _); [|apply ret_triple]. step_triple. apply ret_triple.
Qed.

#[local] Hint Resolve stackTransaction_triple : triples.

Lemma vmeRead_triple a v m w : triple (D := D) idle (vmeRead a v m w) (λ _, idle).
Proof.
  unfold vmeRead. step_triple. cbv zeta. eapply triple_bind; [by eauto with triples|]. cbn beta. intros [ec dest].
  destruct (failed ec); [apply ret_triple|]. destruct (negb _); [apply ret_triple|]. destruct (flags_error _); apply ret_triple.
Qed.

Lemma vmeWrite_triple a v m w : triple (D := D) idle (vmeWrite a v m w) (λ _, idle).
Proof.
  unfold vmeWrite. step_triple. cbv zeta. eapply triple_bind; [by eauto with triples|]. cbn beta. intros [ec dest].
  destruct (failed ec); [apply ret_triple|]. destruct (negb _); [apply ret_triple|]. destruct (flags_error _); apply ret_triple.
Qed.

Lemma block_transaction_triple ref b dest : triple (D := D) idle (block_transaction ref b dest) (λ _, idle).
Proof.
  unfold block_transaction. eapply triple_bind; [by eauto with triples|]. cbn beta. intros [ec dest'].
  destruct (failed ec); [apply ret_triple|]. destruct (dest_words dest'); [apply ret_triple|]. destruct (flags_error _); apply ret_triple.
Qed.

#[local] Hint Resolve block_transaction_triple : triples.

(** C5: for every behaviour of the controller and the connection (any responses, none, wrong
    ones, write errors, a lost connection, a reader thread that is caught in its loop),
    as long as a read fits the space reserved for it: each call of the command interface
    that starts with no response pending returns or throws, never waits for ever on a
    response slot and never leaves the read buffer; afterwards no response is pending,
    so the next call can start. *)
Theorem api_calls_return :
  (∀ address value, triple (D := D) idle (readRegister address value) (λ _, idle))
  ∧ (∀ address value, triple (D := D) idle (writeRegister address value) (λ _, idle))
  ∧ (∀ ref cmds resp, triple (D := D) idle (superTransaction ref cmds resp) (λ _, idle))
  ∧ (∀ ref builder dest, triple (D := D) idle (stackTransaction ref builder dest) (λ _, idle))
  ∧ (∀ pipe offset contents, triple (D := D) idle (uploadStack pipe offset contents) (λ _, idle))
  ∧ (∀ pipe offset commands, triple (D := D) idle (uploadStack_commands pipe offset commands) (λ _, idle))
  ∧ (∀ address value amod width, triple (D := D) idle (vmeRead address value amod width) (λ _, idle))
  ∧ (∀ address value amod width, triple (D := D) idle (vmeWrite address value amod width) (λ _, idle))
  ∧ (∀ address amod transfers dest fifo, triple (D := D) idle (vmeBlockRead address amod transfers dest fifo) (λ _, idle))
  ∧ (∀ address rate transfers dest fifo, triple (D := D) idle (vmeBlockRead2eSST address rate transfers dest fifo) (λ _, idle))
  ∧ (∀ address amod transfers dest fifo, triple (D := D) idle (vmeBlockReadSwapped address amod transfers dest fifo) (λ _, idle))
  ∧ (∀ address rate transfers dest fifo, triple (D := D) idle (vmeBlockReadSwapped2eSST address rate transfers dest fifo) (λ _, idle)).
Proof.
  split_and!; intros; [by eauto with triples..| | | | | | |].
  - apply uploadStack_commands_triple.
  - apply vmeRead_triple.
  - apply vmeWrite_triple.
  - unfold vmeBlockRead. destruct (negb _); [apply ret_triple|]. step_triple. eauto with triples.
  - unfold vmeBlockRead2eSST. step_triple. eauto with triples.
  - unfold vmeBlockReadSwapped. step_triple. eauto with triples.
  - unfold vmeBlockReadSwapped2eSST. step_triple. eauto with triples.
Qed.
End Settle.

Lemma sim_idle {t lossy} m b : idle (sim_api (t := t) (lossy := lossy) m b).
Proof. split_and!; [exists []; apply reader_start_represents|done|done]. Qed.

Lemma api_calls_return_witness :
  (∃ r s, vmeRead (D := Sim ETH true) 0x01000000 0 vme_amods.A32 VMEDataWidth.D16 (sim_api ∅ ∅) = Done (r, s) ∧ idle s)
  ∨ ∃ e, vmeRead (D := Sim ETH true) 0x01000000 0 vme_amods.A32 VMEDataWidth.D16 (sim_api ∅ ∅) = Raise e.
Proof.
  apply (triple_run idle _ (λ _, idle)); [|apply sim_idle].
  destruct (api_calls_return (D := Sim ETH true)) as (_ & _ & _ & _ & _ & _ & H & _). apply H.
Defined.
