(* ===== verification/CmdApiController.v ===== *)
(** * Transactions with a controller that answers

    What the register accesses and stack uploads of the command interface do with a
    controller that executes register accesses and mirrors them in its response. *)

From S2P Require Import Prelude Effects Constants Frames FramesFacts Commands CommandsFacts StackErrors Errors CmdPipe CmdPipeFacts CmdApi CmdApiLaws CmdApiFacts.

(** ** The answer is the response the reader waits for *)

Lemma encode_length c : register_access c → 1 ≤ zlen (encode_super_command c) ≤ 2 ∧ (su_type c = ReadLocal → zlen (encode_super_command c) = 1).
Proof.
  unfold encode_super_command, zlen. intros [(-> & _)|(-> & _)]; cbn; split; try lia; done.
Qed.

Lemma echo_length m cmds : Forall register_access cmds → zlen (echo m cmds) ≤ 2 * zlen (cmds ≫= encode_super_command).
Proof.
  intros Hc. revert m; induction Hc as [|c cmds Hc Hcs IH]; intros m; [done|]. cbn [echo]. rewrite bind_cons, !zlen_app.
  specialize (IH (apply_write m c)). destruct (encode_length c Hc) as [H1 H2]. case_bool_decide as E.
  - rewrite (H2 E) in *. rewrite zlen_cons, zlen_nil. lia.
  - rewrite zlen_nil. lia.
Qed.

Lemma zlen_request ref cmds : zlen (request ref cmds) = 3 + zlen (cmds ≫= encode_super_command).
Proof. unfold request, make_command_buffer. rewrite bind_cons, !zlen_app. unfold encode_super_command at 1. unfold zlen. cbn. lia. Qed.

Lemma ref_word_fields ref :
  is_u16 ref →
  (ref_word ref ≫ super_commands.SuperCmdShift) .& super_commands.SuperCmdMask = SuperCommandType.ReferenceWord
  ∧ ref_word ref .& super_commands.SuperCmdArgMask = ref.
Proof.
  intros [H1 H2]. unfold ref_word, super_commands.SuperCmdShift, super_commands.SuperCmdMask, super_commands.SuperCmdArgMask.
  rewrite (field_eq _ 16 16) by lia. change 0xFFFF with (2 ^ 16 - 1). rewrite land_mask by lia.
  change (SuperCT_value ReferenceWord) with SuperCommandType.ReferenceWord.
  assert (0 ≤ SuperCommandType.ReferenceWord < 2 ^ 16) by (by vm_compute). split; zlia.
Qed.

Lemma super_header_fields len :
  0 ≤ len < 8192 →
  let h := frame_word frame_headers.SuperFrame 0 0 0 len in is_super_buffer h = true ∧ flen h = len ∧ continued h = false.
Proof.
  intros Hl h. pose proof (extract_frame_word frame_headers.SuperFrame 0 0 0 len ltac:(done) ltac:(done) ltac:(lia) ltac:(lia) ltac:(lia) Hl) as He.
  fold h in He. unfold flen, get_frame_length, continued, extract_frame_flags, is_super_buffer. rewrite <- fi_type_eq, He. done.
Qed.

Lemma max_command_words_le connection : max_command_words connection ≤ MirrorTransactionMaxWords.
Proof. by destruct connection. Qed.

Lemma answer_response m ref cmds connection :
  is_u16 ref → Forall register_access cmds → zlen (request ref cmds) ≤ max_command_words connection →
  super_response ref (super_answer m ref cmds).
Proof.
  intros Hr Hc Hl. pose proof (echo_length m cmds Hc) as He. rewrite zlen_request in Hl. pose proof (max_command_words_le connection).
  unfold MirrorTransactionMaxWords in *. pose proof (zlen_nonneg (echo m cmds)).
  destruct (super_header_fields (1 + zlen (echo m cmds)) ltac:(lia)) as (H1 & H2 & H3). unfold super_answer.
  set (h := frame_word _ _ _ _ _) in *. split.
  - replace (zlen (h :: ref_word ref :: echo m cmds)) with (flen h + 1) by (rewrite H2, !zlen_cons; lia).
    apply complete_one; [rewrite H2, !zlen_cons; lia|done].
  - destruct (ref_word_fields ref Hr). exists h, (ref_word ref), (echo m cmds). split_and!; [done|done|lia|done|done].
Qed.

(** ** The commands of one part of an upload *)

Lemma add_part_words_spec ws super a :
  0 ≤ a → a + 4 * zlen ws ≤ stacks.StackMemoryEnd + 3 →
  add_part_words super a ws = Some (super ++ writes_at (u16 a) ws, a + 4 * zlen ws).
Proof.
  revert super a; induction ws as [|w ws IH]; intros super a Ha Hf.
  { cbn [add_part_words]. unfold writes_at, zlen. cbn [imap length]. rewrite app_nil_r. do 2 f_equal. lia. }
  rewrite zlen_cons in Hf. pose proof (zlen_nonneg ws). cbn [add_part_words]. rewrite Z.geb_leb.
  unfold stacks.StackMemoryEnd, stacks.StackMemoryBegin, stacks.StackMemoryBytes, stacks.StackMemoryWords in *.
  destruct (Z.leb_spec (8192 + 2048 * 4) a); [lia|]. unfold AddressIncrement.
  assert (Hu : u16 (a + 4) = a + 4) by (apply Z.mod_small; lia). assert (Hua : u16 a = a) by (apply Z.mod_small; lia).
  rewrite Hu, IH by lia. rewrite writes_at_cons, Hua, Hu. unfold su_addWriteLocal. rewrite <- app_assoc, zlen_cons. do 2 f_equal. lia.
Qed.

Lemma add_boundary_spec super a w :
  add_boundary super a w = if a >=? stacks.StackMemoryEnd then None else add_part_words super a [w].
Proof. unfold add_boundary. cbn [add_part_words]. by destruct (a >=? stacks.StackMemoryEnd). Qed.

(** The words of one part, with the start and end of the stack. *)
Definition part_words (pipe : Z) (first last : bool) (part : list Z) : list Z :=
  (if first then [stack_start_word pipe] else []) ++ part ++ (if last then [stack_end_word] else []).

Lemma writes_at_app a ws1 ws2 : writes_at (u16 a) (ws1 ++ ws2) = writes_at (u16 a) ws1 ++ writes_at (u16 (a + 4 * zlen ws1)) ws2.
Proof.
  unfold writes_at. rewrite imap_app. f_equal. apply imap_ext. intros i w _. unfold compose. f_equal. unfold u16, zlen.
  rewrite !Zplus_mod_idemp_l. f_equal. lia.
Qed.

Lemma add_part_words_app super a ws1 ws2 :
  add_part_words super a (ws1 ++ ws2) = '(super, a) ← add_part_words super a ws1; add_part_words super a ws2.
Proof.
  revert super a; induction ws1 as [|w ws1 IH]; intros super a; [done|]. cbn [app add_part_words].
  destruct (a >=? _); [done|]. apply IH.
Qed.

Lemma build_part_words ref pipe a first last part :
  build_part ref pipe a first last part = add_part_words [mkSuper ReferenceWord 0 ref] a (part_words pipe first last part).
Proof.
  unfold build_part, part_words. cbv zeta. change (su_addReferenceWord [] ref) with [mkSuper ReferenceWord 0 ref].
  assert (Hb : ∀ super a w, add_boundary super a w = add_part_words super a [w]).
  { intros super a0 w. rewrite add_boundary_spec. cbn [add_part_words]. by destruct (a0 >=? _). }
  assert (Hrest : ∀ super a, ('(super, a) ← add_part_words super a part; if last then add_boundary super a stack_end_word else Some (super, a))
    = add_part_words super a (part ++ (if last then [stack_end_word] else []))).
  { intros super a0. rewrite add_part_words_app. destruct (add_part_words super a0 part) as [[super2 a2]|]; [|done].
    cbn [mbind option_bind]. destruct last; [apply Hb|done]. }
  destruct first; [|exact (Hrest _ _)].
  rewrite Hb, add_part_words_app. destruct (add_part_words _ a [stack_start_word pipe]) as [[super1 a1]|]; [|done]. exact (Hrest _ _).
Qed.

Lemma writes_at_access a ws : Forall is_u32 ws → Forall register_access (writes_at a ws).
Proof.
  intros Hw. apply Forall_lookup. intros i c. unfold writes_at. rewrite list_lookup_imap.
  destruct (ws !! i) as [w|] eqn:E; [|done]. intros [= <-]. right. split_and!; [done|apply Z.mod_pos_bound; lia|by eapply Forall_lookup_1].
Qed.

Lemma writes_no_trigger a ws :
  stacks.StackMemoryBegin ≤ a → a + 4 * zlen ws ≤ stacks.StackMemoryEnd + 3 → triggers (writes_at (u16 a) ws) = false.
Proof.
  unfold stacks.StackMemoryEnd, stacks.StackMemoryBegin, stacks.StackMemoryBytes, stacks.StackMemoryWords.
  revert a; induction ws as [|w ws IH]; intros a Ha Hb; [done|]. rewrite zlen_cons in Hb. pose proof (zlen_nonneg ws).
  assert (Hu : u16 (a + 4) = a + 4) by (apply Z.mod_small; lia). assert (Hua : u16 a = a) by (apply Z.mod_small; lia).
  rewrite writes_at_cons, Hua. cbn [triggers existsb]. unfold triggers in IH. rewrite IH by lia. unfold starts. cbn [su_type su_address].
  destruct (Z.eqb_spec a stacks.Stack0TriggerRegister) as [->|]; [|by rewrite andb_false_r]. unfold stacks.Stack0TriggerRegister in Ha. lia.
Qed.

Lemma zlen_request_writes ref a ws : zlen (request ref (writes_at a ws)) = 3 + 2 * zlen ws.
Proof.
  rewrite zlen_request. f_equal. assert (Ht : Forall (λ c, su_type c = WriteLocal) (writes_at a ws)).
  { apply Forall_lookup. intros i c. unfold writes_at. rewrite list_lookup_imap. destruct (ws !! i); [|done]. by intros [= <-]. }
  transitivity (2 * zlen (writes_at a ws)); [|unfold writes_at, zlen; by rewrite length_imap].
  induction Ht as [|c cs Hc Hcs IH]; [done|]. rewrite bind_cons, zlen_app, zlen_cons, IH.
  unfold encode_super_command. rewrite Hc. unfold zlen at 1. cbn [length]. lia.
Qed.

Lemma zlen_part_words pipe first last part : zlen (part_words pipe first last part) = zlen part + Z.b2z first + Z.b2z last.
Proof. unfold part_words. rewrite !zlen_app. destruct first, last; unfold zlen; cbn; lia. Qed.

(** *** Sizes *)

Lemma command_buffer_write cmds a v : zlen (make_command_buffer (su_addWriteLocal cmds a v)) = zlen (make_command_buffer cmds) + 2.
Proof.
  unfold make_command_buffer, su_addWriteLocal. rewrite bind_app, !zlen_app. cbn [mbind list_bind]. unfold encode_super_command at 2.
  cbn [su_type]. rewrite app_nil_r, !zlen_cons, zlen_nil. lia.
Qed.

Lemma add_part_words_size ws super a super' a' :
  add_part_words super a ws = Some (super', a') → zlen (make_command_buffer super') = zlen (make_command_buffer super) + 2 * zlen ws.
Proof.
  revert super a; induction ws as [|w ws IH]; intros super a; cbn [add_part_words].
  - intros [= <- <-]. unfold zlen at 3. cbn. lia.
  - destruct (a >=? _); [done|]. intros H. rewrite (IH _ _ H), command_buffer_write, zlen_cons. lia.
Qed.

(** C36: every part of a stack upload stays below the limit of the transactions, and over ETH
    it fits a UDP packet of 1472 bytes, with one exception: a stack of exactly 181 words
    is sent as one part with start and end and takes 1476 bytes. *)
Theorem upload_part_sizes connection ref pipe a first last part super a' :
  (length part ≤ PartMaxSize connection)%nat → build_part ref pipe a first last part = Some (super, a') →
  let n := zlen (make_command_buffer super) in
  n ≤ MirrorTransactionMaxWords
  ∧ (connection = ETH → 4 * n ≤ MaxPayloadSize ↔ ¬ (first = true ∧ last = true ∧ length part = 181%nat))
  ∧ (connection = ETH → first = true → last = true → length part = 181%nat → 4 * n = 1476).
Proof.
  intros Hl. rewrite build_part_words. intros Hb n. apply add_part_words_size in Hb. rewrite zlen_part_words in Hb.
  change (zlen (make_command_buffer [mkSuper ReferenceWord 0 ref])) with 3 in Hb. fold n in Hb.
  assert (Hz : zlen part = Z.of_nat (length part)) by done. unfold MirrorTransactionMaxWords, MaxPayloadSize. unfold PartMaxSize in Hl.
  split_and!; destruct connection, first, last; cbn [Z.b2z] in *; try done; try lia.
Qed.

Lemma upload_part_sizes_witness :
  let part := replicate 181 0xC6000000 in
  match build_part 1 0 stacks.StackMemoryBegin true true part with
  | Some (super, _) => 4 * zlen (make_command_buffer super) = 1476
  | None => False
  end.
Proof.
  cbv zeta. destruct (build_part 1 0 stacks.StackMemoryBegin true true (replicate 181 0xC6000000)) as [[super a']|] eqn:E.
  - apply (upload_part_sizes ETH 1 0 stacks.StackMemoryBegin true true (replicate 181 0xC6000000) super a'); [vm_compute; lia|exact E|done..].
  - exfalso. revert E. vm_compute. discriminate.
Defined.

(** ** Calls with a determined result *)

Definition exactly {D A} (P : Api D → Prop) (m : M D A) (a : A) (Q : Api D → Prop) : Prop :=
  ∀ s, P s → ∃ s', m s = Done (a, s') ∧ Q s'.

Lemma exactly_bind {D A B} P (m : M D A) a R (f : A → M D B) b Q :
  exactly P m a R → exactly R (f a) b Q → exactly P (m ≫= f) b Q.
Proof.
  intros Hm Hf s Hs. destruct (Hm s Hs) as (s1 & H1 & HR). destruct (Hf s1 HR) as (s2 & H2 & HQ).
  exists s2. split; [|done]. unfold mbind, M_bind. by rewrite H1.
Qed.

Lemma exactly_ret {D A} (P : Api D → Prop) (a : A) : exactly P (mret a) a P.
Proof. intros s Hs. by exists s. Qed.

Section Controlled.
Context {D : Type} {HC : Connection D} {HK : Controller D}.

(** The reader is at work, its buffer is empty, the two responses are as given; the
    controller is quiet and its registers are [m]. *)
Record live (b : Bus) (m : gmap Z Z) (p pk : PendingResponse) (sr kr : Z) (ac : bool) (s : Api D) : Prop := {
  lv_quiet : quiet (api_dev s);
  lv_bus : bus (api_dev s) = b;
  lv_regs : regs (api_dev s) = m;
  lv_spinning : api_spinning s = false;
  lv_check : api_alwaysCheck s = ac;
  lv_buffer : represents (rd_buffer (api_reader s)) [];
  lv_quit : quit (context s) = false;
  lv_super : pendingSuper (context s) = p;
  lv_stack : pendingStack (context s) = pk;
  lv_super_ref : nextSuperReference (context s) = sr;
  lv_stack_ref : nextStackReference (context s) = kr
}.

(** A request is on its way and [ans] will arrive. *)
Record asked (b : Bus) (m : gmap Z Z) (ans : list Z) (p pk : PendingResponse) (sr kr : Z) (ac : bool) (s : Api D) : Prop := {
  ak_arrive : ∃ rs d, impl_arrive (api_dev s) = (rs, d) ∧ quiet d ∧ bus d = b ∧ regs d = m ∧ Forall (read_ok connectionType) rs ∧ all_words rs = ans;
  ak_spinning : api_spinning s = false;
  ak_check : api_alwaysCheck s = ac;
  ak_buffer : represents (rd_buffer (api_reader s)) [];
  ak_quit : quit (context s) = false;
  ak_super : pendingSuper (context s) = p;
  ak_stack : pendingStack (context s) = pk;
  ak_super_ref : nextSuperReference (context s) = sr;
  ak_stack_ref : nextStackReference (context s) = kr
}.

Lemma arrive_live b m p pk sr kr ac : exactly (live b m p pk sr kr ac) arrive () (live b m p pk sr kr ac).
Proof.
  intros s Hs. exists s. split; [|done]. destruct Hs as [Hq _ _ Hsp _ _ _ _ _ _ _]. unfold arrive.
  rewrite (quiet_arrive _ Hq), Hsp. cbn [feed_all]. destruct s as [d rd sp al]. cbn in *. by rewrite Hsp.
Qed.

Lemma expect_super_live b m p pk sr kr ac d r :
  pr_pending p = false → exactly (live b m p pk sr kr ac) (expect_super d r) () (live b m (mkPending None d r true) pk sr kr ac).
Proof.
  intros Hp s Hs. destruct Hs. unfold expect_super, set_pending_response. subst. rewrite Hp. eexists. split; [reflexivity|by split].
Qed.

Lemma expect_stack_live b m p pk sr kr ac d r :
  pr_pending pk = false → exactly (live b m p pk sr kr ac) (expect_stack d r) () (live b m p (mkPending None d r true) sr kr ac).
Proof.
  intros Hp s Hs. destruct Hs. unfold expect_stack, set_pending_response. subst. rewrite Hp. eexists. split; [reflexivity|by split].
Qed.

Lemma get_live {A} (f : ReaderContext → A) a b m p pk sr kr ac :
  (∀ s, live b m p pk sr kr ac s → f (context s) = a) → exactly (live b m p pk sr kr ac) (get f) a (live b m p pk sr kr ac).
Proof. intros Hf s Hs. exists s. unfold get. by rewrite (Hf s Hs). Qed.

Lemma get_super {A} (g : PendingResponse → A) b m p pk sr kr ac :
  exactly (live b m p pk sr kr ac) (get (λ c, g (pendingSuper c))) (g p) (live b m p pk sr kr ac).
Proof. apply get_live. intros s []. congruence. Qed.

Lemma get_stack {A} (g : PendingResponse → A) b m p pk sr kr ac :
  exactly (live b m p pk sr kr ac) (get (λ c, g (pendingStack c))) (g pk) (live b m p pk sr kr ac).
Proof. apply get_live. intros s []. congruence. Qed.

Lemma fullfill_stack_live ec b m p pk sr kr ac :
  exactly (live b m p pk sr kr ac) (fullfill_stack ec) ec (live b m p (fullfill_pending_response pk ec []) sr kr ac).
Proof. intros s []. eexists. split; [reflexivity|]. split; cbn; try done; by subst. Qed.

Lemma tally_live k b m p pk sr kr ac : exactly (live b m p pk sr kr ac) (tally k) () (live b m p pk sr kr ac).
Proof. intros s []. eexists. split; [reflexivity|by split]. Qed.

Lemma next_super_live b m p pk sr kr ac : exactly (live b m p pk sr kr ac) next_super_ref sr (live b m p pk (u16 (sr + 1)) kr ac).
Proof. intros s []. subst. eexists. split; [reflexivity|by split]. Qed.

Lemma next_stack_live b m p pk sr kr ac : exactly (live b m p pk sr kr ac) next_stack_ref kr (live b m p pk sr (u32 (kr + 1)) ac).
Proof. intros s []. subst. eexists. split; [reflexivity|by split]. Qed.

(** What a request makes of the registers and of the bus, and what is sent besides the
    mirror response. *)
Definition effect (b : Bus) (m : gmap Z Z) (cmds : list SuperCommand) : list Z * gmap Z Z * Bus :=
  let m' := foldl apply_write m cmds in if triggers cmds then execute b m' else ([], m', b).

Lemma request_live ref cmds out b' m' b m p pk sr kr ac :
  is_u16 ref → Forall register_access cmds → zlen (request ref cmds) ≤ max_command_words connectionType →
  effect b m cmds = (out, m', b') →
  exactly (live b m p pk sr kr ac) (write (request ref cmds)) no_error (asked b' m' (super_answer m ref cmds ++ out) p pk sr kr ac).
Proof.
  intros Hr Hc Hl He s []. unfold write. pose proof (answers (api_dev s) ref cmds ltac:(done) Hr Hc Hl) as Ha. subst. unfold effect in He.
  cbv zeta in Ha. rewrite He in Ha. destruct Ha as (d1 & rs & d2 & -> & H2 & H3 & H4 & H5 & H6 & H7).
  eexists. split; [reflexivity|]. split; try done. by exists rs, d2.
Qed.

Lemma write_live ref cmds b m p pk sr kr ac :
  is_u16 ref → Forall register_access cmds → triggers cmds = false → zlen (request ref cmds) ≤ max_command_words connectionType →
  exactly (live b m p pk sr kr ac) (write (request ref cmds)) no_error
    (asked b (foldl apply_write m cmds) (super_answer m ref cmds) p pk sr kr ac).
Proof.
  intros Hr Hc Ht Hl. rewrite <- (app_nil_r (super_answer m ref cmds)). apply request_live; try done. unfold effect. by rewrite Ht.
Qed.

Lemma arrive_asked ref cmds b m m' p pk sr kr ac :
  pr_pending p = true → pr_reference p = ref →
  is_u16 ref → Forall register_access cmds → zlen (request ref cmds) ≤ max_command_words connectionType →
  exactly (asked b m' (super_answer m ref cmds) p pk sr kr ac) arrive () (live b m' (delivered p (super_answer m ref cmds)) pk sr kr ac).
Proof.
  intros Hp Href Hr Hc Hl s [(rs & d & Ha & Hq & Hbus & Hm & Hok & Hw) Hsp Hac Hb Hqt Hsup Hstk Hsr Hkr].
  pose proof (answer_response m ref cmds connectionType Hr Hc Hl) as Hresp.
  destruct (super_delivered connectionType rs (api_reader s) (super_answer m ref cmds)) as (rd & c & Hf & Hb' & Hce & Hcc);
    [done|done|unfold context in *; congruence|unfold context in *; by rewrite Hsup, Href|done|done|].
  unfold arrive. rewrite Ha, Hsp, Hf. eexists. split; [reflexivity|]. subst c.
  destruct Hce as [E1 E2 E3 E4 E5 E6 _]. cbn [quit nextSuperReference nextStackReference pendingSuper pendingStack set_super tick upd_counters] in *.
  unfold context in *. rewrite Hsup in E4. split; cbn [api_dev api_spinning api_alwaysCheck api_reader context negb]; unfold context; cbn [api_reader]; try done; congruence.
Qed.

(** ** Super transactions *)

Lemma superTransactionImpl_live ref cmds resp b m p pk sr kr ac :
  pr_pending p = false →
  is_u16 ref → Forall register_access cmds → triggers cmds = false → zlen (request ref cmds) ≤ max_command_words connectionType →
  let resp' := resp ++ super_answer m ref cmds in
  exactly (live b m p pk sr kr ac) (superTransactionImpl ref (request ref cmds) resp) (no_error, resp')
    (live b (foldl apply_write m cmds) (mkPending (Some no_error) (Vec resp') ref false) pk sr kr ac).
Proof.
  intros Hp Hr Hc Hl resp'. unfold superTransactionImpl. pose proof (max_command_words_le connectionType).
  destruct (Z.gtb_spec (zlen (request ref cmds)) MirrorTransactionMaxWords); [lia|].
  eapply exactly_bind; [apply arrive_live|]. eapply exactly_bind; [by apply expect_super_live|].
  eapply exactly_bind; [apply arrive_live|]. eapply exactly_bind; [by apply write_live|]. cbn [failed negb].
  eapply exactly_bind.
  - change (failed no_error) with false. cbv iota. eapply exactly_bind; [by apply arrive_asked|].
    eapply exactly_bind; [apply (get_super pr_promise)|]. apply exactly_ret.
  - cbn beta. eapply exactly_bind; [apply (get_super (λ p, dest_words (pr_dest p)))|]. apply exactly_ret.
Qed.

Lemma superTransaction_live ref cmds resp b m p pk sr kr ac :
  pr_pending p = false →
  is_u16 ref → Forall register_access cmds → triggers cmds = false → zlen (request ref cmds) ≤ max_command_words connectionType →
  let resp' := resp ++ super_answer m ref cmds in
  exactly (live b m p pk sr kr ac) (superTransaction ref (request ref cmds) resp) (no_error, resp')
    (live b (foldl apply_write m cmds) (mkPending (Some no_error) (Vec resp') ref false) pk sr kr ac).
Proof.
  intros Hp Hr Hc Hl resp'. unfold superTransaction. eapply exactly_bind; [apply tally_live|].
  unfold TransactionMaxAttempts. cbn [Nat.sub super_attempts]. eapply exactly_bind; [by apply superTransactionImpl_live|].
  cbv beta iota. change (failed no_error) with false. cbv iota. eapply exactly_bind; apply exactly_ret.
Qed.
(** ** Registers *)

(** No response is pending, the reader is at work and the registers are [m]. *)
Definition ready (b : Bus) (m : gmap Z Z) (s : Api D) : Prop :=
  ∃ p pk sr kr, live b m p pk sr kr false s ∧ pr_pending p = false ∧ pr_pending pk = false ∧ is_u16 sr ∧ is_u32 kr.

Lemma exactly_ready {A} b m (f : M D A) a m' :
  (∀ p pk sr kr, pr_pending p = false → pr_pending pk = false → is_u16 sr →
    ∃ p' pk' sr', pr_pending p' = false ∧ pr_pending pk' = false ∧ is_u16 sr'
      ∧ exactly (live b m p pk sr kr false) f a (live b m' p' pk' sr' kr false)) →
  exactly (ready b m) f a (ready b m').
Proof.
  intros Hf s (p & pk & sr & kr & Hl & Hp & Hpk & Hsr & Hkr).
  destruct (Hf p pk sr kr Hp Hpk Hsr) as (p' & pk' & sr' & Hp' & Hpk' & Hsr' & He).
  destruct (He s Hl) as (s' & H1 & H2). exists s'. split; [done|]. by exists p', pk', sr', kr.
Qed.

Lemma u16_range z : is_u16 (u16 z).
Proof. apply Z.mod_pos_bound. lia. Qed.

Lemma read_access a : is_u16 a → register_access (mkSuper ReadLocal a 0).
Proof. by left. Qed.
Lemma write_access a v : is_u16 a → is_u32 v → register_access (mkSuper WriteLocal a v).
Proof. by right. Qed.

Lemma short_request ref cmds : zlen cmds ≤ 4 → Forall register_access cmds → zlen (request ref cmds) ≤ max_command_words connectionType.
Proof.
  intros Hl Hc. rewrite zlen_request.
  assert (zlen (cmds ≫= encode_super_command) ≤ 2 * zlen cmds).
  { clear Hl. induction Hc as [|c cmds Hc Hcs IH]; [done|]. rewrite bind_cons, zlen_app, zlen_cons. pose proof (encode_length c Hc). lia. }
  assert (368 ≤ max_command_words connectionType) by (by destruct connectionType). lia.
Qed.

Lemma readRegister_live a v b m p pk sr kr ac :
  pr_pending p = false → is_u16 sr → is_u16 a →
  ∃ p', pr_pending p' = false
    ∧ exactly (live b m p pk sr kr ac) (readRegister a v) (no_error, reg m a) (live b m p' pk (u16 (sr + 1)) kr ac).
Proof.
  intros Hp Hsr Ha. eexists. split; [|unfold readRegister; eapply exactly_bind; [apply next_super_live|]].
  2:{ cbv zeta. change (make_command_buffer _) with (request sr [mkSuper ReadLocal a 0]).
    eapply exactly_bind; [apply superTransaction_live; [done|done|apply Forall_singleton; by apply read_access|done|]|].
    { apply short_request; [done|apply Forall_singleton; by apply read_access]. }
    cbv beta iota. change (failed no_error) with false. cbv iota. cbn [app super_answer echo].
    apply exactly_ret. }
  done.
Qed.

Lemma no_trigger a v : a ≠ stacks.Stack0TriggerRegister → triggers [mkSuper WriteLocal a v] = false.
Proof.
  intros Ha. unfold triggers, starts. cbn [existsb su_type su_address su_value]. apply Z.eqb_neq in Ha. by rewrite Ha, andb_false_r.
Qed.

Lemma writeRegister_live a v b m p pk sr kr ac :
  pr_pending p = false → is_u16 sr → is_u16 a → a ≠ stacks.Stack0TriggerRegister → is_u32 v →
  ∃ p', pr_pending p' = false
    ∧ exactly (live b m p pk sr kr ac) (writeRegister a v) no_error (live b (<[a := v]> m) p' pk (u16 (sr + 1)) kr ac).
Proof.
  intros Hp Hsr Ha Hne Hv. eexists. split; [|unfold writeRegister; eapply exactly_bind; [apply next_super_live|]].
  2:{ cbv zeta. change (make_command_buffer _) with (request sr [mkSuper WriteLocal a v]).
    eapply exactly_bind; [apply superTransaction_live; [done|done|apply Forall_singleton; by apply write_access|by apply no_trigger|]|].
    { apply short_request; [done|apply Forall_singleton; by apply write_access]. }
    cbv beta iota. change (failed no_error) with false. cbv iota. apply exactly_ret. }
  done.
Qed.

(** With a controller that answers register accesses, a register write succeeds and
    stores the value, a register read succeeds and returns the contents of the
    register, and the two together return what was written; the interface is ready for
    the next call. *)
Theorem registers_read_write b m a v a' old :
  is_u16 a → a ≠ stacks.Stack0TriggerRegister → is_u32 v → is_u16 a' →
  exactly (ready b m) (readRegister a' old) (no_error, reg m a') (ready b m)
  ∧ exactly (ready b m) (writeRegister a v) no_error (ready b (<[a := v]> m))
  ∧ exactly (ready b m) (writeRegister a v;; readRegister a old) (no_error, v) (ready b (<[a := v]> m)).
Proof.
  intros Ha Hne Hv Ha'.
  assert (HR : ∀ m a, is_u16 a → exactly (ready b m) (readRegister a old) (no_error, reg m a) (ready b m)).
  { intros m0 a0 Ha0. apply exactly_ready. intros p pk sr kr Hp Hpk Hsr.
    destruct (readRegister_live a0 old b m0 p pk sr kr false Hp Hsr Ha0) as (p' & Hp' & He).
    exists p', pk, (u16 (sr + 1)). by split_and!; [..|apply u16_range|]. }
  assert (HW : exactly (ready b m) (writeRegister a v) no_error (ready b (<[a := v]> m))).
  { apply exactly_ready. intros p pk sr kr Hp Hpk Hsr.
    destruct (writeRegister_live a v b m p pk sr kr false Hp Hsr Ha Hne Hv) as (p' & Hp' & He).
    exists p', pk, (u16 (sr + 1)). by split_and!; [..|apply u16_range|]. }
  split_and!; [by apply HR|done|]. eapply exactly_bind; [exact HW|].
  pose proof (HR (<[a := v]> m) a Ha) as H. unfold reg in H. by rewrite lookup_insert_eq in H.
Qed.

(** ** Stack uploads *)

Lemma start_word_range pipe : is_u8 pipe → is_u32 (stack_start_word pipe).
Proof.
  intros Hp. unfold stack_start_word. rewrite upload_start_word by done. unfold stack_word, is_u8, is_u32 in *.
  change (CommandType_value StackStart) with 0xF3. lia.
Qed.

Lemma part_words_range pipe first last part : is_u8 pipe → Forall is_u32 part → Forall is_u32 (part_words pipe first last part).
Proof.
  intros Hp Hw. unfold part_words. apply Forall_app. split; [destruct first; [apply Forall_singleton; by apply start_word_range|done]|].
  apply Forall_app. split; [done|]. destruct last; [by apply Forall_singleton|done].
Qed.


(** The size at which a part with both ends does not fit a UDP packet. *)
Definition part_fits (first last : bool) (part : list Z) : Prop :=
  connectionType = ETH → first = true → last = true → zlen part ≠ 181.

Lemma upload_one pipe addr first last part ref resp b m p pk sr kr ac :
  stacks.StackMemoryBegin ≤ addr → addr + 4 * (zlen part + Z.b2z first + Z.b2z last) ≤ stacks.StackMemoryEnd + 3 →
  (length part ≤ PartMaxSize connectionType)%nat → part_fits first last part →
  Forall is_u32 part → is_u8 pipe → pr_pending p = false → is_u16 ref →
  let ws := part_words pipe first last part in
  let cmds := writes_at (u16 addr) ws in
  ∃ resp', build_part ref pipe addr first last part = Some (mkSuper ReferenceWord 0 ref :: cmds, addr + 4 * zlen ws)
    ∧ exactly (live b m p pk sr kr ac) (superTransaction ref (request ref cmds) resp) (no_error, resp')
        (live b (foldl apply_write m cmds) (mkPending (Some no_error) (Vec resp') ref false) pk sr kr ac).
Proof.
  intros Ha Hf Hl Hfit Hw Hp Hpend Href ws cmds. eexists. rewrite build_part_words. fold ws. split.
  - rewrite add_part_words_spec; [done|unfold stacks.StackMemoryBegin in Ha; lia|]. unfold ws. rewrite zlen_part_words. lia.
  - apply superTransaction_live; [done|done|apply writes_at_access; by apply part_words_range|apply writes_no_trigger; [done|unfold ws; rewrite zlen_part_words; lia]|].
    unfold cmds. rewrite zlen_request_writes. unfold ws. rewrite zlen_part_words. unfold part_fits in Hfit.
    assert (zlen part = Z.of_nat (length part)) as Hz by done. revert Hl Hfit. unfold max_command_words, PartMaxSize, MirrorTransactionMaxWords.
    change (MaxPayloadSize / 4) with 368. destruct connectionType, first, last; cbn [Z.b2z]; intros Hl Hfit; try lia.
    specialize (Hfit eq_refl eq_refl eq_refl). lia.
Qed.

Lemma upload_parts_step fuel pipe addr first remaining resp :
  remaining ≠ [] →
  upload_parts (S fuel) pipe addr first remaining resp =
  (superRef ← next_super_ref;
   match build_part superRef pipe addr first (bool_decide (drop (PartMaxSize connectionType) remaining = []))
           (take (PartMaxSize connectionType) remaining) with
   | None => mret (Mvlc MVLCErrorCode.StackMemoryExceeded)
   | Some (super, writeAddress) =>
       '(ec, superResponse) ← superTransaction superRef (make_command_buffer super) resp;
       if failed ec then mret ec
       else upload_parts fuel pipe writeAddress false (drop (PartMaxSize connectionType) remaining) superResponse
   end).
Proof. by destruct remaining. Qed.

Lemma PartMaxSize_pos : (0 < PartMaxSize connectionType)%nat.
Proof. unfold PartMaxSize. destruct connectionType; lia. Qed.

(** The words of a part followed by those of the rest. *)
Lemma part_words_split pipe first part rest :
  part_words pipe first true (part ++ rest) = part_words pipe first false part ++ part_words pipe false true rest.
Proof. unfold part_words. rewrite app_nil_r, app_nil_l, <- !app_assoc. done. Qed.

Lemma upload_parts_live fuel pipe addr first remaining resp b m p pk sr kr ac :
  (length remaining ≤ fuel)%nat → remaining ≠ [] → stacks.StackMemoryBegin ≤ addr →
  addr + 4 * (zlen remaining + Z.b2z first + 1) ≤ stacks.StackMemoryEnd + 3 →
  part_fits first true remaining → Forall is_u32 remaining → is_u8 pipe → pr_pending p = false → is_u16 sr →
  ∃ p' sr', pr_pending p' = false ∧ is_u16 sr'
    ∧ exactly (live b m p pk sr kr ac) (upload_parts fuel pipe addr first remaining resp) no_error
        (live b (foldl apply_write m (writes_at (u16 addr) (part_words pipe first true remaining))) p' pk sr' kr ac).
Proof.
  revert addr first remaining resp m p sr; induction fuel as [|fuel IH]; intros addr first remaining resp m p sr Hf Hne Ha Hb Hfit Hw Hp Hpend Hsr.
  { destruct remaining; [done|cbn in Hf; lia]. }
  rewrite upload_parts_step by done. pose proof PartMaxSize_pos as Hpos. set (n := PartMaxSize connectionType) in *.
  assert (Hlen : (0 < length remaining)%nat) by (destruct remaining; [done|cbn; lia]).
  destruct (decide (drop n remaining = [])) as [E|E].
  - rewrite (bool_decide_true _ E). assert (Ht : take n remaining = remaining) by (rewrite <- (take_drop n remaining) at 2; by rewrite E, app_nil_r).
    rewrite Ht, E. destruct (upload_one pipe addr first true remaining sr resp b m p pk (u16 (sr + 1)) kr ac) as (resp' & Hbp & Hex);
      [done|cbn [Z.b2z]; lia|fold n; rewrite <- Ht, length_take; lia|done..|].
    do 2 eexists. split; [|split; [|eapply exactly_bind; [apply next_super_live|]; rewrite Hbp; eapply exactly_bind; [apply Hex|]]].
    3:{ cbv beta iota. change (failed no_error) with false. cbv iota. destruct fuel; apply exactly_ret. }
    + done.
    + apply u16_range.
  - rewrite (bool_decide_false _ E). set (part := take n remaining) in *. set (rest := drop n remaining) in *.
    assert (Hsplit : remaining = part ++ rest) by (symmetry; apply take_drop).
    assert (Hz : zlen remaining = zlen part + zlen rest) by (by rewrite Hsplit, zlen_app). pose proof (zlen_nonneg rest).
    assert (Hr : 1 ≤ zlen rest) by (destruct rest; [done|rewrite zlen_cons; pose proof (zlen_nonneg rest); lia]).
    assert (Hp1 : (length part ≤ n)%nat) by (unfold part; rewrite length_take; lia).
    destruct (Forall_app is_u32 part rest) as [Happ _]. rewrite Hsplit in Hw. destruct (Happ Hw) as [Hw1 Hw2].
    destruct (upload_one pipe addr first false part sr resp b m p pk (u16 (sr + 1)) kr ac) as (resp' & Hbp & Hex);
      [done|cbn [Z.b2z]; lia|done|by intros ? ? ?|done..|].
    pose proof (zlen_part_words pipe first false part) as Hpw. cbn [Z.b2z] in Hpw.
    destruct (IH (addr + 4 * zlen (part_words pipe first false part)) false rest resp'
      (foldl apply_write m (writes_at (u16 addr) (part_words pipe first false part))) (mkPending (Some no_error) (Vec resp') sr false)
      (u16 (sr + 1))) as (p' & sr' & Hp' & Hsr' & Hex'); [..|exists p', sr'; split_and!; [done|done|]].
    + unfold rest. rewrite length_drop. lia.
    + done.
    + pose proof (zlen_nonneg (part_words pipe first false part)). lia.
    + cbn [Z.b2z]. lia.
    + by intros ? ?.
    + done.
    + done.
    + done.
    + apply u16_range.
    + eapply exactly_bind; [apply next_super_live|]. rewrite Hbp. eapply exactly_bind; [apply Hex|].
      cbv beta iota. change (failed no_error) with false. cbv iota.
      rewrite Hsplit at 1. rewrite part_words_split, writes_at_app, foldl_app. exact Hex'.
Qed.

(** *** Stacks that do not fit *)

Lemma add_part_words_exceeds ws super a :
  0 ≤ a → stacks.StackMemoryEnd + 3 < a + 4 * zlen ws → (a < stacks.StackMemoryEnd + 4) ∨ ws ≠ [] → add_part_words super a ws = None.
Proof.
  revert super a; induction ws as [|w ws IH]; intros super a Ha Hf Hs.
  { change (zlen (@nil Z)) with 0 in Hf. destruct Hs as [Hs|Hs]; [lia|done]. }
  rewrite zlen_cons in Hf. cbn [add_part_words]. rewrite Z.geb_leb.
  unfold stacks.StackMemoryEnd, stacks.StackMemoryBegin, stacks.StackMemoryBytes, stacks.StackMemoryWords in *.
  destruct (Z.leb_spec (8192 + 2048 * 4) a); [done|]. unfold AddressIncrement.
  assert (Hu : u16 (a + 4) = a + 4) by (apply Z.mod_small; lia). rewrite Hu. apply IH; lia.
Qed.

Lemma writes_elsewhere ws m a k :
  0 ≤ a → a + 4 * zlen ws ≤ stacks.StackMemoryEnd + 3 → k < a ∨ stacks.StackMemoryEnd ≤ k →
  foldl apply_write m (writes_at (u16 a) ws) !! k = m !! k.
Proof.
  unfold stacks.StackMemoryEnd, stacks.StackMemoryBegin, stacks.StackMemoryBytes, stacks.StackMemoryWords.
  revert m a; induction ws as [|w ws IH]; intros m a Ha Hb Hk; [done|]. rewrite zlen_cons in Hb. pose proof (zlen_nonneg ws).
  assert (Hu : u16 (a + 4) = a + 4) by (apply Z.mod_small; lia). assert (Hua : u16 a = a) by (apply Z.mod_small; lia).
  rewrite writes_at_cons, Hua, Hu. cbn [foldl]. rewrite <- Hu, IH by lia. unfold apply_write. cbn [su_type su_address su_value].
  apply lookup_insert_ne. lia.
Qed.

Lemma upload_parts_exceeds fuel pipe addr first remaining resp b m p pk sr kr ac :
  (length remaining ≤ fuel)%nat → remaining ≠ [] → stacks.StackMemoryBegin ≤ addr →
  stacks.StackMemoryEnd + 3 < addr + 4 * (zlen remaining + Z.b2z first + 1) →
  Forall is_u32 remaining → is_u8 pipe → pr_pending p = false → is_u16 sr →
  ∃ p' sr' m', pr_pending p' = false ∧ is_u16 sr'
    ∧ (∀ k, k < addr ∨ stacks.StackMemoryEnd ≤ k → m' !! k = m !! k)
    ∧ exactly (live b m p pk sr kr ac) (upload_parts fuel pipe addr first remaining resp) (Mvlc MVLCErrorCode.StackMemoryExceeded)
        (live b m' p' pk sr' kr ac).
Proof.
  revert addr first remaining resp m p sr; induction fuel as [|fuel IH]; intros addr first remaining resp m p sr Hf Hne Ha Hb Hw Hp Hpend Hsr.
  { destruct remaining; [done|cbn in Hf; lia]. }
  rewrite upload_parts_step by done. pose proof PartMaxSize_pos as Hpos. set (n := PartMaxSize connectionType) in *.
  set (part := take n remaining). set (rest := drop n remaining). set (last := bool_decide (rest = [])).
  assert (Hlen : (0 < length remaining)%nat) by (destruct remaining; [done|cbn; lia]).
  assert (Hsplit : remaining = part ++ rest) by (symmetry; apply take_drop).
  assert (Hz : zlen remaining = zlen part + zlen rest) by (by rewrite Hsplit, zlen_app). pose proof (zlen_nonneg rest).
  assert (Ha0 : 0 ≤ addr) by (unfold stacks.StackMemoryBegin in Ha; lia).
  assert (Hpart : part_words pipe first last part ≠ []).
  { intros E. apply (f_equal zlen) in E. rewrite zlen_part_words, zlen_nil in E. unfold part, zlen in E. rewrite length_take in E.
    destruct first, last; cbn in E; lia. }
  destruct (decide (stacks.StackMemoryEnd + 3 < addr + 4 * zlen (part_words pipe first last part))) as [Hex|Hfits].
  - exists p, (u16 (sr + 1)), m. split_and!; [done|apply u16_range|done|]. eapply exactly_bind; [apply next_super_live|].
    rewrite build_part_words, add_part_words_exceeds by (done || by right). apply exactly_ret.
  - assert (Hlast : last = false).
    { unfold last. apply bool_decide_false. intros E. apply Hfits. rewrite zlen_part_words. unfold last. rewrite bool_decide_true by done.
      rewrite Hz, E, zlen_nil in Hb. cbn [Z.b2z]. lia. }
    rewrite Hlast in *. assert (Hr : rest ≠ []) by (intros E; unfold last in Hlast; by rewrite bool_decide_true in Hlast).
    rewrite Hsplit in Hw. apply Forall_app in Hw as [Hw1 Hw2]. pose proof (zlen_part_words pipe first false part) as Hpw. cbn [Z.b2z] in Hpw.
    destruct (upload_one pipe addr first false part sr resp b m p pk (u16 (sr + 1)) kr ac) as (resp' & Hbp & Hone);
      [done|cbn [Z.b2z]; lia|unfold part; rewrite length_take; lia|by intros ? ? ?|done..|].
    destruct (IH (addr + 4 * zlen (part_words pipe first false part)) false rest resp'
      (foldl apply_write m (writes_at (u16 addr) (part_words pipe first false part))) (mkPending (Some no_error) (Vec resp') sr false)
      (u16 (sr + 1))) as (p' & sr' & m' & Hp' & Hsr' & Hm' & Hex');
      [unfold rest; rewrite length_drop; lia|done|pose proof (zlen_nonneg (part_words pipe first false part)); lia
      |cbn [Z.b2z]; lia|done|done|done|apply u16_range|].
    exists p', sr', m'. split_and!; [done|done| |].
    + intros k Hk. rewrite Hm' by (pose proof (zlen_nonneg (part_words pipe first false part)); lia). apply writes_elsewhere; [done|lia|done].
    + eapply exactly_bind; [apply next_super_live|]. rewrite Hbp. eapply exactly_bind; [apply Hone|]. exact Hex'.
Qed.

(** *** Uploading a whole stack *)

Lemma upload_address off : 0 ≤ off < 2 ^ 15 → u16 (stacks.StackMemoryBegin + off) = stacks.StackMemoryBegin + off.
Proof. intros Ho. unfold stacks.StackMemoryBegin. apply Z.mod_small. lia. Qed.

Lemma uploadStack_live pipe off contents b m p pk sr kr ac :
  contents ≠ [] → 0 ≤ off → stacks.StackMemoryBegin + off + 4 * (zlen contents + 2) ≤ stacks.StackMemoryEnd + 3 →
  (connectionType = ETH → zlen contents ≠ 181) → Forall is_u32 contents → is_u8 pipe → pr_pending p = false → is_u16 sr →
  ∃ p' sr', pr_pending p' = false ∧ is_u16 sr'
    ∧ exactly (live b m p pk sr kr ac) (uploadStack pipe off contents) no_error
        (live b (foldl apply_write m (make_stack_upload_commands pipe off contents)) p' pk sr' kr ac).
Proof.
  intros Hne Ho Hf He Hw Hp Hpend Hsr. unfold uploadStack. pose proof (zlen_nonneg contents).
  rewrite upload_address by (unfold stacks.StackMemoryEnd, stacks.StackMemoryBegin, stacks.StackMemoryBytes, stacks.StackMemoryWords in *; lia).
  rewrite upload_commands_writes. apply upload_parts_live; try done; [unfold stacks.StackMemoryBegin; lia|cbn [Z.b2z]; lia|].
  intros E _ _. by apply He.
Qed.

(** C9: with a controller that answers register accesses, the upload of a non-empty stack
    that fits the stack memory, cut into parts and sent as transactions, succeeds and
    leaves the registers as one pass over all upload commands does (the specification
    [make_stack_upload_commands] is used by the configuration code).  Over ETH the size of
    181 words is left out: see [upload_part_sizes]. *)
Theorem uploadStack_stores b m pipe off contents :
  contents ≠ [] → 0 ≤ off → stacks.StackMemoryBegin + off + 4 * (zlen contents + 2) ≤ stacks.StackMemoryEnd + 3 →
  (connectionType = ETH → zlen contents ≠ 181) → Forall is_u32 contents → is_u8 pipe →
  exactly (ready b m) (uploadStack pipe off contents) no_error
    (ready b (foldl apply_write m (make_stack_upload_commands pipe off contents))).
Proof.
  intros Hne Ho Hf He Hw Hp. apply exactly_ready. intros p pk sr kr Hpend Hpk Hsr.
  destruct (uploadStack_live pipe off contents b m p pk sr kr false) as (p' & sr' & Hp' & Hsr' & Hx); [done..|].
  by exists p', pk, sr'.
Qed.

(** A stack that does not fit the stack memory, from whatever offset below 2^15, is
    refused with StackMemoryExceeded; parts sent before the end of the memory is reached
    stay, but nothing outside the stack memory and below the offset is written. *)
Theorem uploadStack_exceeds b m pipe off contents :
  contents ≠ [] → 0 ≤ off < 2 ^ 15 → stacks.StackMemoryEnd + 3 < stacks.StackMemoryBegin + off + 4 * (zlen contents + 2) →
  Forall is_u32 contents → is_u8 pipe →
  exactly (ready b m) (uploadStack pipe off contents) (Mvlc MVLCErrorCode.StackMemoryExceeded)
    (λ s, ∃ m', ready b m' s ∧ ∀ k, k < stacks.StackMemoryBegin + off ∨ stacks.StackMemoryEnd ≤ k → m' !! k = m !! k).
Proof.
  intros Hne Ho Hf Hw Hp s (p & pk & sr & kr & Hl & Hpend & Hpk & Hsr & Hkr).
  destruct (upload_parts_exceeds (length contents) pipe (stacks.StackMemoryBegin + off) true contents [] b m p pk sr kr false)
    as (p' & sr' & m' & Hp' & Hsr' & Hm' & Hx); [done|done|unfold stacks.StackMemoryBegin; lia|cbn [Z.b2z]; lia|done..|].
  destruct (Hx s Hl) as (s' & H1 & H2). exists s'. unfold uploadStack. rewrite upload_address by done. split; [done|].
  exists m'. split; [|done]. by exists p', pk, sr', kr.
Qed.

End Controlled.

(** ** The simulated controller *)

Lemma sim_ready {t lossy} m b : ready (D := Sim t lossy) b m (sim_api m b).
Proof.
  exists (pendingSuper new_context), (pendingStack new_context), 1, 1. by split_and!.
Qed.

Lemma registers_read_write_witness :
  ∃ s, (writeRegister 0x2004 0xC0FFEE;; readRegister 0x2004 0) (sim_api ∅ ∅ : Api (Sim USB false)) = Done ((no_error, 0xC0FFEE), s)
    ∧ ready (D := Sim USB false) ∅ (<[0x2004 := 0xC0FFEE]> ∅) s.
Proof.
  destruct (registers_read_write (D := Sim USB false) ∅ ∅ 0x2004 0xC0FFEE 0x1304 0) as (_ & _ & H); [split; lia|done|split; lia|split; lia|].
  apply H, sim_ready.
Defined.

(** 200 words are sent in two parts over ETH. *)
Lemma uploadStack_stores_witness :
  ∃ s, uploadStack 0 16 (replicate 200 0xC6000000) (sim_api ∅ ∅ : Api (Sim ETH false)) = Done (no_error, s)
    ∧ ready (D := Sim ETH false) ∅ (foldl apply_write ∅ (make_stack_upload_commands 0 16 (replicate 200 0xC6000000))) s.
Proof.
  apply (uploadStack_stores (D := Sim ETH false) ∅ ∅ 0 16 (replicate 200 0xC6000000)); [done|lia|vm_compute; discriminate|by vm_compute|apply Forall_replicate; split; lia|split; lia|apply sim_ready].
Defined.

Lemma uploadStack_exceeds_witness :
  ∃ s, uploadStack 0 0x1FF0 (replicate 200 0xC6000000) (sim_api ∅ ∅ : Api (Sim ETH false)) = Done (Mvlc MVLCErrorCode.StackMemoryExceeded, s)
    ∧ ∃ m', ready (D := Sim ETH false) ∅ m' s
      ∧ ∀ k, k < stacks.StackMemoryBegin + 0x1FF0 ∨ stacks.StackMemoryEnd ≤ k → m' !! k = (∅ : gmap Z Z) !! k.
Proof.
  apply (uploadStack_exceeds (D := Sim ETH false) ∅ ∅ 0 0x1FF0 (replicate 200 0xC6000000)); [done|lia|by vm_compute|apply Forall_replicate; split; lia|split; lia|apply sim_ready].
Defined.
