(* ===== verification/CmdApiExec.v ===== *)
(** * Stack transactions with a controller

    A stack transaction uploads its commands, starts the immediate stack and waits for the
    mirror response and the stack response.  With a controller that executes VME accesses,
    [vmeRead] and [vmeWrite] read and write the bus; when the stack response is lost, the
    transaction reports success all the same. *)

From S2P Require Import Prelude Effects Constants Frames FramesFacts Commands CommandsFacts StackErrors Errors CmdPipe CmdPipeFacts CmdApi CmdApiLaws CmdApiFacts CmdApiController.

(** The four writes that start the immediate stack. *)
Definition exec_body : list SuperCommand :=
  [mkSuper WriteLocal registers.stack_exec_status0 0; mkSuper WriteLocal registers.stack_exec_status1 0;
   mkSuper WriteLocal stacks.Stack0OffsetRegister stacks.ImmediateStackStartOffsetBytes;
   mkSuper WriteLocal stacks.Stack0TriggerRegister (1 ≪ stacks.ImmediateShift)].

Lemma exec_request sr : make_command_buffer (exec_commands sr) = request sr exec_body.
Proof. done. Qed.

Lemma exec_access : Forall register_access exec_body.
Proof. repeat (apply Forall_cons; split; [by right; split_and!|]). by apply Forall_nil. Qed.

(** ** Stack responses of one frame *)

Lemma stack_header_fields flags len :
  0 ≤ flags < 8 → 0 ≤ len < 8192 →
  let h := stack_header flags len in
  is_stack_buffer h = true ∧ flen h = len ∧ continued h = false ∧ extract_frame_flags h = flags.
Proof.
  intros Hf Hl h. pose proof (extract_frame_word frame_headers.StackFrame flags 0 0 len ltac:(done) ltac:(done) ltac:(lia) ltac:(lia) ltac:(lia) Hl) as He.
  fold (stack_header flags len) in He. fold h in He.
  unfold flen, get_frame_length, continued, extract_frame_flags, is_stack_buffer. rewrite <- fi_type_eq, He. cbn [fi_type fi_len fi_flags].
  split_and!; try done. unfold has_continue. assert (flags ∈ [0; 1; 2; 3; 4; 5; 6; 7]) as Hin by (repeat rewrite elem_of_cons; lia).
  repeat (apply elem_of_cons in Hin as [->|Hin]; [done|]). by apply elem_of_nil in Hin.
Qed.

Lemma stack_answer flags ref rest :
  0 ≤ flags < 8 → zlen rest < 8000 → stack_response ref (stack_header flags (1 + zlen rest) :: ref :: rest).
Proof.
  intros Hf Hl. pose proof (zlen_nonneg rest). destruct (stack_header_fields flags (1 + zlen rest) Hf ltac:(lia)) as (H1 & H2 & H3 & _).
  set (h := stack_header _ _) in *. split.
  - replace (zlen (h :: ref :: rest)) with (flen h + 1) by (rewrite H2, !zlen_cons; lia).
    apply complete_one; [rewrite H2, !zlen_cons; lia|done].
  - exists h, rest. split_and!; [done|done|lia].
Qed.

Section Execution.
Context {D : Type} {HC : Connection D} {HK : Controller D}.

(** Both responses arrive. *)
Lemma arrive_both ref cmds out b m m' p pk sr kr ac :
  pr_pending p = true → pr_reference p = ref → pr_pending pk = true → stack_response (pr_reference pk) out →
  is_u16 ref → Forall register_access cmds → zlen (request ref cmds) ≤ max_command_words connectionType →
  exactly (asked b m' (super_answer m ref cmds ++ out) p pk sr kr ac) arrive ()
    (live b m' (delivered p (super_answer m ref cmds)) (delivered pk out) sr kr ac).
Proof.
  intros Hp Href Hpk Hout Hr Hc Hl s [(rs & d & Ha & Hq & Hbus & Hm & Hok & Hw) Hsp Hac Hb Hqt Hsup Hstk Hsr Hkr].
  pose proof (answer_response m ref cmds connectionType Hr Hc Hl) as Hresp. unfold context in *.
  destruct (both_delivered connectionType rs (api_reader s) (super_answer m ref cmds) out) as (rd & Hf & Hb' & H1 & H2 & H3 & H4 & H5);
    [done|done|congruence|congruence|by rewrite Hsup, Href|by rewrite Hstk|done|done|].
  unfold arrive. rewrite Ha, Hsp, Hf. eexists. split; [reflexivity|].
  split; cbn [api_dev api_spinning api_alwaysCheck api_reader context negb]; unfold context; cbn [api_reader]; try done; congruence.
Qed.

(** ** One attempt *)

(** The registers after the upload of the immediate stack. *)
Definition uploaded (m : gmap Z Z) (ws : list Z) : gmap Z Z :=
  foldl apply_write m (make_stack_upload_commands CommandPipe stacks.ImmediateStackStartOffsetBytes ws).

(** A command list whose encoding can be uploaded as the immediate stack. *)
Record immediate (cmds : list StackCommand) (ws : list Z) : Prop := {
  im_buffer : make_stack_buffer cmds = Return ws;
  im_not_empty : ws ≠ [];
  im_size : zlen ws < 181;
  im_words : Forall is_u32 ws
}.

Lemma upload_immediate cmds ws b m p pk sr kr ac :
  immediate cmds ws → pr_pending p = false → is_u16 sr →
  ∃ p' sr', pr_pending p' = false ∧ is_u16 sr'
    ∧ exactly (live b m p pk sr kr ac) (uploadStack CommandPipe stacks.ImmediateStackStartOffsetBytes ws) no_error
        (live b (uploaded m ws) p' pk sr' kr ac).
Proof.
  intros [Hb Hne Hs Hw] Hp Hsr. apply uploadStack_live; try done; [|lia].
  unfold stacks.ImmediateStackStartOffsetBytes, stacks.ImmediateStackStartOffsetWords, stacks.StackMemoryEnd, stacks.StackMemoryBegin,
    stacks.StackMemoryBytes, stacks.StackMemoryWords. lia.
Qed.

Lemma exec_answered sr k dest out b m b' m' p sr' kr ac :
  is_u16 sr → effect b m exec_body = (out, m', b') → stack_response k out →
  let p := mkPending None p sr true in
  let pk := mkPending None dest k true in
  exactly (live b m p pk sr' kr ac) (exec_and_wait (request sr exec_body)) no_error
    (live b' m' (delivered p (super_answer m sr exec_body)) (delivered pk out) sr' kr ac).
Proof.
  intros Hsr He Hout p0 pk. assert (Hl : zlen (request sr exec_body) ≤ max_command_words connectionType) by (apply short_request; [done|apply exec_access]).
  unfold exec_and_wait. eapply exactly_bind; [apply request_live; [done|apply exec_access|done|exact He]|].
  change (failed no_error) with false. cbv iota. eapply exactly_bind; [apply arrive_both; try done; apply exec_access|].
  eapply exactly_bind; [apply (get_super pr_promise)|]. cbn [delivered pr_promise]. change (failed no_error) with false. cbv iota.
  eapply exactly_bind; [apply arrive_live|]. eapply exactly_bind; [apply (get_stack pr_promise)|]. apply exactly_ret.
Qed.

(** The stack response is lost. *)
Lemma exec_lost sr k dest b m b' m' p sr' kr ac :
  is_u16 sr → effect b m exec_body = ([], m', b') →
  let p := mkPending None p sr true in
  let pk := mkPending None dest k true in
  exactly (live b m p pk sr' kr ac) (exec_and_wait (request sr exec_body)) (Mvlc MVLCErrorCode.StackCommandTimeout)
    (live b' m' (delivered p (super_answer m sr exec_body))
       (fullfill_pending_response pk (Mvlc MVLCErrorCode.StackCommandTimeout) []) sr' kr ac).
Proof.
  intros Hsr He p0 pk. assert (Hl : zlen (request sr exec_body) ≤ max_command_words connectionType) by (apply short_request; [done|apply exec_access]).
  unfold exec_and_wait. eapply exactly_bind; [apply request_live; [done|apply exec_access|done|exact He]|].
  rewrite app_nil_r. change (failed no_error) with false. cbv iota. eapply exactly_bind; [apply arrive_asked; try done; apply exec_access|].
  eapply exactly_bind; [apply (get_super pr_promise)|]. cbn [delivered pr_promise]. change (failed no_error) with false. cbv iota.
  eapply exactly_bind; [apply arrive_live|]. eapply exactly_bind; [apply (get_stack pr_promise)|]. cbn [pk pr_promise].
  eapply exactly_bind; [apply arrive_live|]. apply fullfill_stack_live.
Qed.

(** The upload and the registration of the two responses, then [exec_and_wait]. *)
Lemma attempt_live k builder ws dest ec dest' b m b' m' p pk sr kr ac :
  immediate (getCommands builder) ws → pr_pending p = false → pr_pending pk = false → is_u16 sr →
  (∀ sr sr', is_u16 sr → ∃ p' pk', pr_pending p' = false ∧ pr_pending pk' = false ∧ pr_dest pk' = dest'
    ∧ exactly (live b (uploaded m ws) (mkPending None (Vec []) sr true) (mkPending None dest k true) sr' kr ac)
        (exec_and_wait (request sr exec_body)) ec (live b' m' p' pk' sr' kr ac)) →
  ∃ p' pk' sr', pr_pending p' = false ∧ pr_pending pk' = false ∧ is_u16 sr'
    ∧ exactly (live b m p pk sr kr ac) (stackTransactionImpl k builder dest) (ec, dest') (live b' m' p' pk' sr' kr ac).
Proof.
  intros Him Hp Hpk Hsr Hexec. destruct (upload_immediate _ ws b m p pk sr kr ac Him Hp Hsr) as (p1 & sr1 & Hp1 & Hsr1 & Hup).
  destruct (Hexec sr1 (u16 (sr1 + 1)) Hsr1) as (p2 & pk2 & Hp2 & Hpk2 & Hd & Hx). exists p2, pk2, (u16 (sr1 + 1)). split_and!; [done|done|apply u16_range|].
  unfold stackTransactionImpl. eapply exactly_bind; [intros s Hs; exists s; unfold of_outcome; rewrite (im_buffer _ _ Him); by split|].
  eapply exactly_bind; [exact Hup|]. change (failed no_error) with false. cbv iota. eapply exactly_bind; [apply next_super_live|].
  cbv zeta. rewrite exec_request. eapply exactly_bind; [apply arrive_live|]. eapply exactly_bind; [by apply expect_super_live|].
  eapply exactly_bind; [apply arrive_live|]. eapply exactly_bind; [by apply expect_stack_live|]. eapply exactly_bind; [apply arrive_live|].
  eapply exactly_bind; [exact Hx|]. rewrite <- Hd. eapply exactly_bind; [apply (get_stack pr_dest)|]. apply exactly_ret.
Qed.

(** ** The transaction *)

Lemma answered_live k builder ws b m out b' m' p pk sr kr ac :
  immediate (getCommands builder) ws → pr_pending p = false → pr_pending pk = false → is_u16 sr →
  effect b (uploaded m ws) exec_body = (out, m', b') → stack_response k out → ac = false →
  ∃ p' pk' sr', pr_pending p' = false ∧ pr_pending pk' = false ∧ is_u16 sr'
    ∧ exactly (live b m p pk sr kr ac) (stackTransaction k builder (Vec [])) (no_error, Vec out) (live b' m' p' pk' sr' kr ac).
Proof.
  intros Him Hp Hpk Hsr He Hout ->.
  destruct (attempt_live k builder ws (Vec []) no_error (Vec out) b m b' m' p pk sr kr false Him Hp Hpk Hsr) as (p' & pk' & sr' & Hp' & Hpk' & Hsr' & Hx).
  { intros sr0 sr1 Hsr0. do 2 eexists. split_and!; [..|apply exec_answered; [done|exact He|exact Hout]]; done. }
  exists p', pk', sr'. split_and!; [done..|]. unfold stackTransaction, TransactionMaxAttempts. cbn [Nat.sub stack_attempts].
  eapply exactly_bind; [apply tally_live|]. eapply exactly_bind.
  - eapply exactly_bind; [apply exactly_ret|]. eapply exactly_bind; [exact Hx|]. cbv beta iota. change (failed no_error) with false. cbn [andb].
    eapply exactly_bind; apply exactly_ret.
  - cbv beta iota. eapply exactly_bind; [intros s Hs; exists s; split; [by rewrite (lv_check _ _ _ _ _ _ _ _ Hs)|exact Hs]|].
    rewrite andb_false_r. eapply exactly_bind; apply exactly_ret.
Qed.

Lemma readStatus_live b m p pk sr kr ac :
  pr_pending p = false → is_u16 sr →
  ∃ p', pr_pending p' = false
    ∧ exactly (live b m p pk sr kr ac) (readStackExecStatusRegisters 0 0)
        (no_error, reg m registers.stack_exec_status0, reg m registers.stack_exec_status1) (live b m p' pk (u16 (sr + 1)) kr ac).
Proof.
  intros Hp Hsr. set (cmds := [mkSuper ReadLocal registers.stack_exec_status0 0; mkSuper ReadLocal registers.stack_exec_status1 0]).
  assert (Hc : Forall register_access cmds) by (repeat (apply Forall_cons; split; [by apply read_access|]); by apply Forall_nil).
  eexists. split; [|unfold readStackExecStatusRegisters; eapply exactly_bind; [apply next_super_live|]].
  2:{ cbv zeta. change (make_command_buffer _) with (request sr cmds).
    eapply exactly_bind; [by apply superTransaction_live; [..|apply short_request]|].
    cbv beta iota. change (failed no_error) with false. cbv iota. cbn [app super_answer echo cmds]. apply exactly_ret. }
  done.
Qed.

Lemma check_execution_live k b m p pk sr kr ac :
  pr_pending p = false → is_u16 sr →
  ∃ p' sr', pr_pending p' = false ∧ is_u16 sr'
    ∧ exactly (live b m p pk sr kr ac) (check_execution k) (no_error, false) (live b m p' pk sr' kr ac).
Proof.
  intros Hp Hsr. destruct (readStatus_live b m p pk sr kr ac Hp Hsr) as (p1 & Hp1 & H1).
  destruct (readRegister_live registers.parse_error_counter 0 b m p1 pk (u16 (sr + 1)) kr ac Hp1) as (p2 & Hp2 & H2);
    [apply u16_range|split; [done|by vm_compute]|].
  exists p2, (u16 (u16 (sr + 1) + 1)). split_and!; [done|apply u16_range|]. unfold check_execution. eapply exactly_bind; [exact H1|].
  cbv beta iota. change (failed no_error) with false. cbv iota zeta. eapply exactly_bind; [destruct (_ =? k); apply tally_live|].
  eapply exactly_bind; [exact H2|]. apply exactly_ret.
Qed.

Lemma lost_live k builder ws dest b m b' m' p pk sr kr ac :
  immediate (getCommands builder) ws → pr_pending p = false → pr_pending pk = false → is_u16 sr →
  effect b (uploaded m ws) exec_body = ([], m', b') → ac = false →
  ∃ p' pk' sr', pr_pending p' = false ∧ pr_pending pk' = false ∧ is_u16 sr'
    ∧ exactly (live b m p pk sr kr ac) (stackTransaction k builder dest) (no_error, consume_dest dest []) (live b' m' p' pk' sr' kr ac).
Proof.
  intros Him Hp Hpk Hsr He ->.
  destruct (attempt_live k builder ws dest (Mvlc MVLCErrorCode.StackCommandTimeout) (consume_dest dest []) b m b' m' p pk sr kr false Him Hp Hpk Hsr)
    as (p1 & pk1 & sr1 & Hp1 & Hpk1 & Hsr1 & Hx).
  { intros sr0 sr1 Hsr0. do 2 eexists. split_and!; [..|apply exec_lost; [done|exact He]]; done. }
  destruct (check_execution_live k b' m' p1 pk1 sr1 kr false Hp1 Hsr1) as (p2 & sr2 & Hp2 & Hsr2 & Hch).
  exists p2, pk1, sr2. split_and!; [done..|]. unfold stackTransaction, TransactionMaxAttempts. cbn [Nat.sub stack_attempts].
  eapply exactly_bind; [apply tally_live|]. eapply exactly_bind.
  - eapply exactly_bind; [apply exactly_ret|]. eapply exactly_bind; [exact Hx|]. cbv beta iota.
    eapply exactly_bind; [exact Hch|]. apply exactly_ret.
  - cbv beta iota. eapply exactly_bind; [intros s Hs; exists s; split; [by rewrite (lv_check _ _ _ _ _ _ _ _ Hs)|exact Hs]|].
    rewrite andb_false_r. eapply exactly_bind; apply exactly_ret.
Qed.

End Execution.

(** ** VME accesses *)

(** The first word of an access command. *)
Lemma access_word t amod w :
  is_u8 amod → is_u8 w →
  u32 (CommandType_value t ≪ stack_commands.CmdShift) .| (amod ≪ stack_commands.CmdArg0Shift) .| u32 (w ≪ stack_commands.CmdArg1Shift)
  = stack_word (CommandType_value t) amod w.
Proof.
  unfold is_u8. intros Ha Hw. rewrite cmd_word_sum by apply CommandType_value_range.
  assert (Hu : u32 (w ≪ stack_commands.CmdArg1Shift) = w ≪ stack_commands.CmdArg1Shift).
  { unfold stack_commands.CmdArg1Shift. rewrite Z.shiftl_0_r. apply Z.mod_small. lia. }
  rewrite Hu. apply stack_word_or; lia.
Qed.

Lemma access_word_range t amod w : is_u8 amod → is_u8 w → is_u32 (stack_word (CommandType_value t) amod w).
Proof. unfold is_u8, is_u32, stack_word. pose proof (CommandType_value_range t). lia. Qed.

Lemma read_program k a amod w :
  is_u32 k → is_u32 a → is_u8 amod → vme_amods.is_block_mode amod = false → is_u8 w →
  immediate (getCommands (addVMERead a amod w false true (addWriteMarker k empty_builder))) (read_words k a amod w).
Proof.
  intros Hk Ha Ham Hb Hw. split; [|done|done|].
  - cbn [addVMERead addWriteMarker addCommand getCommands]. unfold make_stack_buffer. cbn.
    unfold encode_read_word. cbn. rewrite Hb. cbn [negb]. rewrite Z.lor_0_r. unfold read_words, marker_words. cbn [app].
    pose proof (access_word VMERead amod w Ham Hw) as E. cbn [CommandType_value] in *. by rewrite E.
  - repeat (apply Forall_cons; split; [first [done|apply access_word_range; done]|]). by apply Forall_nil.
Qed.

Lemma write_program k a v amod w :
  is_u32 k → is_u32 a → is_u32 v → is_u8 amod → is_u8 w →
  immediate (getCommands (addVMEWrite a v amod w (addWriteMarker k empty_builder))) (write_words k a v amod w).
Proof.
  intros Hk Ha Hv Ham Hw. split; [|done|done|].
  - cbn [addVMEWrite addWriteMarker addCommand getCommands]. unfold make_stack_buffer. cbn. unfold write_words, marker_words. cbn [app].
    pose proof (access_word VMEWrite amod w Ham Hw) as E. cbn [CommandType_value] in *. by rewrite E.
  - repeat (apply Forall_cons; split; [first [done|apply access_word_range; done]|]). by apply Forall_nil.
Qed.

(** After the upload and the writes that start it, the registers hold the program. *)
Lemma program_uploaded m ws : zlen ws < 181 → program (foldl apply_write (uploaded m ws) exec_body) ws.
Proof.
  intros Hs. exists stacks.ImmediateStackStartOffsetBytes. split.
  { unfold exec_body. cbn [foldl]. unfold apply_write. cbn [su_type su_address su_value]. by rewrite lookup_insert_ne, lookup_insert_eq by done. }
  unfold uploaded. rewrite upload_commands_writes.
  set (a := stacks.StackMemoryBegin + stacks.ImmediateStackStartOffsetBytes). set (ws' := upload_contents CommandPipe ws).
  pose proof (zlen_nonneg ws). assert (Hl : zlen ws' = zlen ws + 2) by (unfold ws', upload_contents; rewrite !zlen_app; unfold zlen; cbn; lia).
  assert (Ha : a = 8196) by done.
  destruct (stored_at_writes ws' m a) as [Hst _]; [lia|lia|]. intros i w Hi. rewrite <- (Hst i w Hi).
  unfold exec_body. cbn [foldl]. unfold apply_write. cbn [su_type su_address su_value].
  unfold stacks.Stack0TriggerRegister, stacks.Stack0OffsetRegister, registers.stack_exec_status1, registers.stack_exec_status0.
  by rewrite !lookup_insert_ne by lia.
Qed.

Section Access.
Context {D : Type} {HC : Connection D} {HK : Controller D}.

Lemma exactly_with {A} b m (f : M D A) a (R : Bus → gmap Z Z → Prop) :
  (∀ p pk sr kr, pr_pending p = false → pr_pending pk = false → is_u16 sr → is_u32 kr →
    ∃ b' m' p' pk' sr' kr', R b' m' ∧ pr_pending p' = false ∧ pr_pending pk' = false ∧ is_u16 sr' ∧ is_u32 kr'
      ∧ exactly (live b m p pk sr kr false) f a (live b' m' p' pk' sr' kr' false)) →
  exactly (ready b m) f a (λ s, ∃ b' m', R b' m' ∧ ready b' m' s).
Proof.
  intros Hf s (p & pk & sr & kr & Hl & Hp & Hpk & Hsr & Hkr).
  destruct (Hf p pk sr kr Hp Hpk Hsr Hkr) as (b' & m' & p' & pk' & sr' & kr' & HR & Hp' & Hpk' & Hsr' & Hkr' & He).
  destruct (He s Hl) as (s' & H1 & H2). exists s'. split; [done|]. exists b', m'. split; [done|]. by exists p', pk', sr', kr'.
Qed.

Lemma u32_range z : is_u32 (u32 z).
Proof. apply Z.mod_pos_bound. lia. Qed.

(** C37: when the response of a stack gets lost, with a controller that answers register
    accesses, a stack transaction reports success: the error code is overwritten by that of
    an unrelated register read.  The stack is uploaded and executed exactly once, so that there
    is no second attempt: the registers and the bus are as this one execution left them.  The
    destination stays as it was, and a block read returns an empty result without an error. *)
Theorem lost_response_is_success b m b' m' k builder ws dest :
  execute b (foldl apply_write (uploaded m ws) exec_body) = ([], m', b') → immediate (getCommands builder) ws →
  exactly (ready b m) (stackTransaction k builder (Vec dest)) (no_error, Vec dest) (ready b' m')
  ∧ exactly (ready b m) (block_transaction k builder (Vec [])) (no_error, Vec []) (ready b' m').
Proof.
  intros He Him.
  assert (Hst : ∀ dest, exactly (ready b m) (stackTransaction k builder (Vec dest)) (no_error, Vec dest) (ready b' m')).
  { intros dest0 s Hs. destruct (exactly_with b m (stackTransaction k builder (Vec dest0)) (no_error, Vec dest0) (λ b0 m0, b0 = b' ∧ m0 = m')) with (s := s)
      as (s' & E & b0 & m0 & [-> ->] & Hr); [|done|by exists s'].
    intros p pk sr kr Hp Hpk Hsr Hkr.
    destruct (lost_live k builder ws (Vec dest0) b m b' m' p pk sr kr false Him Hp Hpk Hsr He eq_refl) as (p' & pk' & sr' & H1 & H2 & H3 & Hx).
    cbn [consume_dest] in Hx. unfold consume_vec in Hx. rewrite app_nil_r in Hx. by exists b', m', p', pk', sr', kr. }
  split; [apply Hst|]. unfold block_transaction. eapply exactly_bind; [apply Hst|]. apply exactly_ret.
Qed.

(** ** Reads and writes on the VME bus *)

Context {HV : VMEController D}.

Lemma effect_exec b m ws : effect b (uploaded m ws) exec_body = execute b (foldl apply_write (uploaded m ws) exec_body).
Proof. done. Qed.

Lemma vmeRead_live a old amod w b m p pk sr kr :
  is_u32 a → is_u8 amod → vme_amods.is_block_mode amod = false → is_u8 w →
  pr_pending p = false → pr_pending pk = false → is_u16 sr → is_u32 kr →
  let '(flags, v) := vme_read b a amod w in
  ∃ m' p' pk' sr', pr_pending p' = false ∧ pr_pending pk' = false ∧ is_u16 sr'
    ∧ exactly (live b m p pk sr kr false) (vmeRead a old amod w)
        (match flags_error flags with
         | Some e => (Mvlc e, old)
         | None => (no_error, v .& (if w =? VMEDataWidth.D16 then 0x0000FFFF else 0xFFFFFFFF))
         end) (live b m' p' pk' sr' (u32 (kr + 1)) false).
Proof.
  intros Ha Ham Hbm Hw Hp Hpk Hsr Hkr. pose proof (vme_read_flags b a amod w) as Hfl.
  pose proof (read_program kr a amod w Hkr Ha Ham Hbm Hw) as Him.
  pose proof (executes_read b _ kr a amod w Ham Hw (program_uploaded m _ (im_size _ _ Him))) as He.
  destruct (vme_read b a amod w) as [flags v]. destruct He as (m' & He). rewrite <- effect_exec in He. cbn [fst] in Hfl.
  destruct (stack_header_fields flags 2 Hfl ltac:(lia)) as (_ & _ & _ & Hx).
  destruct (answered_live kr _ _ b m _ b m' p pk sr (u32 (kr + 1)) false Him Hp Hpk Hsr He (stack_answer flags kr [v] Hfl ltac:(done)) eq_refl)
    as (p' & pk' & sr' & Hp' & Hpk' & Hsr' & Hst).
  exists m', p', pk', sr'. split_and!; [done..|]. unfold vmeRead. eapply exactly_bind; [apply next_stack_live|]. cbv zeta.
  eapply exactly_bind; [exact Hst|]. cbv beta iota. change (failed no_error) with false. cbn [dest_words lookup list_lookup default].
  change (negb _) with false. cbv iota. unfold default, id. cbn. rewrite Hx. destruct (flags_error flags); apply exactly_ret.
Qed.

Lemma vmeWrite_live a v amod w b m p pk sr kr :
  is_u32 a → is_u32 v → is_u8 amod → is_u8 w →
  pr_pending p = false → pr_pending pk = false → is_u16 sr → is_u32 kr →
  let '(flags, b') := vme_write b a v amod w in
  ∃ m' p' pk' sr', pr_pending p' = false ∧ pr_pending pk' = false ∧ is_u16 sr'
    ∧ exactly (live b m p pk sr kr false) (vmeWrite a v amod w)
        (match flags_error flags with Some e => Mvlc e | None => no_error end) (live b' m' p' pk' sr' (u32 (kr + 1)) false).
Proof.
  intros Ha Hv Ham Hw Hp Hpk Hsr Hkr. pose proof (vme_write_flags b a v amod w) as Hfl.
  pose proof (write_program kr a v amod w Hkr Ha Hv Ham Hw) as Him.
  pose proof (executes_write b _ kr a v amod w Ham Hw (program_uploaded m _ (im_size _ _ Him))) as He.
  destruct (vme_write b a v amod w) as [flags b']. destruct He as (m' & He). rewrite <- effect_exec in He. cbn [fst] in Hfl.
  destruct (stack_header_fields flags 1 Hfl ltac:(lia)) as (_ & _ & _ & Hx).
  destruct (answered_live kr _ _ b m _ b' m' p pk sr (u32 (kr + 1)) false Him Hp Hpk Hsr He (stack_answer flags kr [] Hfl ltac:(done)) eq_refl)
    as (p' & pk' & sr' & Hp' & Hpk' & Hsr' & Hst).
  exists m', p', pk', sr'. split_and!; [done..|]. unfold vmeWrite. eapply exactly_bind; [apply next_stack_live|]. cbv zeta.
  eapply exactly_bind; [exact Hst|]. cbv beta iota. change (failed no_error) with false. cbn [dest_words lookup list_lookup default].
  change (negb _) with false. cbv iota. unfold default, id. cbn. rewrite Hx. destruct (flags_error flags); apply exactly_ret.
Qed.

(** What a read reports and returns, and what a write reports. *)
Definition read_result (flags x old w : Z) : error_code * Z :=
  match flags_error flags with
  | Some e => (Mvlc e, old)
  | None => (no_error, x .& (if w =? VMEDataWidth.D16 then 0x0000FFFF else 0xFFFFFFFF))
  end.
Definition write_result (flags : Z) : error_code := match flags_error flags with Some e => Mvlc e | None => no_error end.

Lemma vmeRead_ready b m a old amod w :
  is_u32 a → is_u8 amod → vme_amods.is_block_mode amod = false → is_u8 w →
  exactly (ready b m) (vmeRead a old amod w)
    (let '(flags, x) := vme_read b a amod w in read_result flags x old w) (λ s, ∃ b' m', b' = b ∧ ready b' m' s).
Proof.
  intros Ha Ham Hbm Hw8. apply exactly_with. intros p pk sr kr Hp Hpk Hsr Hkr.
  pose proof (vmeRead_live a old amod w b m p pk sr kr Ha Ham Hbm Hw8 Hp Hpk Hsr Hkr) as H. destruct (vme_read b a amod w) as [flags x].
  destruct H as (m' & p' & pk' & sr' & H1 & H2 & H3 & Hx). exists b, m', p', pk', sr', (u32 (kr + 1)). split_and!; [done..|apply u32_range|done].
Qed.

Lemma vmeWrite_ready b m a v amod w :
  is_u32 a → is_u32 v → is_u8 amod → is_u8 w →
  exactly (ready b m) (vmeWrite a v amod w) (write_result (vme_write b a v amod w).1)
    (λ s, ∃ b' m', b' = (vme_write b a v amod w).2 ∧ ready b' m' s).
Proof.
  intros Ha Hv Ham Hw8. apply exactly_with. intros p pk sr kr Hp Hpk Hsr Hkr.
  pose proof (vmeWrite_live a v amod w b m p pk sr kr Ha Hv Ham Hw8 Hp Hpk Hsr Hkr) as H. destruct (vme_write b a v amod w) as [flags b'].
  destruct H as (m' & p' & pk' & sr' & H1 & H2 & H3 & Hx). exists b', m', p', pk', sr', (u32 (kr + 1)). split_and!; [done..|apply u32_range|done].
Qed.

(** C4: with a controller that executes VME accesses, a single read over the command
    interface (upload of the stack in parts, start of the stack, mirror response, stack
    response, decoding) returns the value on the bus, cut to 16 bits for D16, or the
    error that the flags of the response report, and then leaves the output value alone;
    a write changes the bus as the controller does.  The interface is ready for the
    next call. *)
Theorem vme_access b m a v old amod w :
  is_u32 a → is_u32 v → is_u8 amod → vme_amods.is_block_mode amod = false → w = VMEDataWidth.D16 ∨ w = VMEDataWidth.D32 →
  exactly (ready b m) (vmeRead a old amod w)
    (let '(flags, x) := vme_read b a amod w in
     match flags_error flags with
     | Some e => (Mvlc e, old)
     | None => (no_error, x .& (if w =? VMEDataWidth.D16 then 0x0000FFFF else 0xFFFFFFFF))
     end) (λ s, ∃ b' m', b' = b ∧ ready b' m' s)
  ∧ exactly (ready b m) (vmeWrite a v amod w)
      (match flags_error (vme_write b a v amod w).1 with Some e => Mvlc e | None => no_error end)
      (λ s, ∃ b' m', b' = (vme_write b a v amod w).2 ∧ ready b' m' s).
Proof.
  intros Ha Hv Ham Hbm Hw. assert (Hw8 : is_u8 w) by (by destruct Hw as [->| ->]).
  split; [by apply vmeRead_ready|by apply vmeWrite_ready].
Qed.

End Access.

(** ** The simulated controller *)

Lemma lost_response_is_success_witness :
  let builder := addVMERead 0x01000000 vme_amods.A32 VMEDataWidth.D16 false true (addWriteMarker 7 empty_builder) in
  ∃ s b' m', stackTransaction (D := Sim ETH true) 7 builder (Vec []) (sim_api ∅ ∅) = Done ((no_error, Vec []), s)
    ∧ ready (D := Sim ETH true) b' m' s.
Proof.
  intros builder. set (ws := read_words 7 0x01000000 vme_amods.A32 VMEDataWidth.D16).
  assert (Hlost : ∀ b m, (execute (D := Sim ETH true) b m).1.1 = []).
  { intros b m. cbn [execute Sim_controller]. unfold sim_execute. cbv zeta. destruct (_ =? _); [by destruct (sim_read _ _)|].
    destruct (_ =? _); [by destruct (sim_write _ _ _)|done]. }
  specialize (Hlost ∅ (foldl apply_write (uploaded ∅ ws) exec_body)).
  destruct (execute (D := Sim ETH true) ∅ (foldl apply_write (uploaded ∅ ws) exec_body)) as [[out m'] b'] eqn:He. cbn in Hlost. subst out.
  destruct (lost_response_is_success (D := Sim ETH true) ∅ ∅ b' m' 7 builder ws []) as [H _]; [exact He|unfold ws; apply read_program; lia || done|].
  destruct (H _ (sim_ready (t := ETH) (lossy := true) ∅ ∅)) as (s & E & Hr). exists s, b', m'. exact (conj E Hr).
Defined.

Lemma vme_access_witness :
  ∃ s, vmeRead (D := Sim ETH false) 0x01000000 0 vme_amods.A32 VMEDataWidth.D16 (sim_api ∅ {[0x01000000 := 0xABCD1234]})
         = Done ((no_error, 0x1234), s)
    ∧ ∃ b' m', b' = {[0x01000000 := 0xABCD1234]} ∧ ready (D := Sim ETH false) b' m' s.
Proof.
  destruct (vme_access (D := Sim ETH false) {[0x01000000 := 0xABCD1234]} ∅ 0x01000000 0 0 vme_amods.A32 VMEDataWidth.D16) as [H _];
    [done|done|done|done|by left|]. apply H, sim_ready.
Defined.
