(* ===== verification/TicketMutex.v ===== *)
(** * A fair mutex: [util/ticketmutex.h]

    [TicketMutex] hands out 16 bit ticket numbers and lets a thread in when its number is
    up.  The body of each member function runs under an inner mutex, so the atomic steps of
    a thread are the parts between acquiring and releasing it: drawing a ticket and going
    to sleep, looking at the head again after a wake-up, advancing the head, and notifying.
    A system is the mutex and a list of threads; [step] interleaves them. *)

From stdpp Require Import relations.
From S2P Require Import Prelude.

(** ** The mutex *)

(* ticketmutex.h:66-74 TicketMutex *)
Record Mutex : Type := mkMutex { m_queue_head : Z; m_queue_tail : Z }.

(* ticketmutex.h:27-27 TicketMutex::TicketMutex *)
Definition new_mutex : Mutex := mkMutex 0 0.

(** [m_queue_tail++] *)
(* ticketmutex.h:35-35 TicketMutex::lock *)
Definition draw (m : Mutex) : Z * Mutex := (m_queue_tail m, mkMutex (m_queue_head m) (u16 (m_queue_tail m + 1))).

(* ticketmutex.h:37-37 TicketMutex::lock *)
Definition is_turn (ticket : Z) (m : Mutex) : bool := ticket =? m_queue_head m.

(* ticketmutex.h:43-46 TicketMutex::unlock *)
Definition release (m : Mutex) : Mutex := mkMutex (u16 (m_queue_head m + 1)) (m_queue_tail m).

(** The inner mutex was free. *)
(* ticketmutex.h:54-61 TicketMutex::try_lock *)
Definition try_draw (m : Mutex) : option (Z * Mutex) := if m_queue_head m =? m_queue_tail m then Some (draw m) else None.

(** ** Threads *)

(** Outside, in [m_cond.wait] with a ticket, in the mutex, or between the two parts of
    [unlock]. *)
Inductive thread : Type :=
| Outside
| Waiting (ticket : Z) (asleep : bool)
| Inside (ticket : Z)
| Notifying.

#[global] Instance thread_eq_dec : EqDecision thread.
Proof. solve_decision. Defined.

Record System : Type := mkSystem { s_mutex : Mutex; s_threads : list thread }.

Definition set_thread (i : nat) (t : thread) (m : Mutex) (s : System) : System := mkSystem m (<[i := t]> (s_threads s)).

(** The check of the loop condition: in, or (back) to sleep. *)
(* ticketmutex.h:37-38 TicketMutex::lock *)
Definition enter_or_sleep (ticket : Z) (m : Mutex) : thread := if is_turn ticket m then Inside ticket else Waiting ticket true.

(* ticketmutex.h:32-39 TicketMutex::lock *)
Definition lock_begin (i : nat) (s : System) : System :=
  let '(ticket, m) := draw (s_mutex s) in set_thread i (enter_or_sleep ticket m) m s.

(* ticketmutex.h:37-38 TicketMutex::lock *)
Definition lock_check (i : nat) (ticket : Z) (s : System) : System := set_thread i (enter_or_sleep ticket (s_mutex s)) (s_mutex s) s.

(* ticketmutex.h:41-46 TicketMutex::unlock *)
Definition unlock_release (i : nat) (s : System) : System := set_thread i Notifying (release (s_mutex s)) s.

Definition wake (t : thread) : thread := match t with Waiting ticket _ => Waiting ticket false | t => t end.

(* ticketmutex.h:47-48 TicketMutex::unlock *)
Definition unlock_notify (i : nat) (s : System) : System := mkSystem (s_mutex s) (wake <$> <[i := Outside]> (s_threads s)).

(** Interleavings; a wait may also end without a notification, and [try_lock] may fail
    because the inner mutex is taken. *)
Inductive step : System → System → Prop :=
| step_lock s i : s_threads s !! i = Some Outside → step s (lock_begin i s)
| step_spurious s i ticket :
    s_threads s !! i = Some (Waiting ticket true) → step s (set_thread i (Waiting ticket false) (s_mutex s) s)
| step_check s i ticket : s_threads s !! i = Some (Waiting ticket false) → step s (lock_check i ticket s)
| step_unlock s i ticket : s_threads s !! i = Some (Inside ticket) → step s (unlock_release i s)
| step_notify s i : s_threads s !! i = Some Notifying → step s (unlock_notify i s)
| step_try s i ticket m :
    s_threads s !! i = Some Outside → try_draw (s_mutex s) = Some (ticket, m) → step s (set_thread i (Inside ticket) m s).

Definition start (n : nat) : System := mkSystem new_mutex (replicate n Outside).

(** ** What can be observed *)

(** A thread arrives when it gets a ticket, enters when its call of [lock] or [try_lock]
    succeeds, and leaves when it gives the mutex up in [unlock]. *)
Inductive event : Type := Arrive (i : nat) | Enter (i : nat) | Leave (i : nat).

Definition thread_events (i : nat) (t t' : thread) : list event :=
  match t, t' with
  | Outside, Waiting _ _ => [Arrive i]
  | Outside, Inside _ => [Arrive i; Enter i]
  | Waiting _ _, Inside _ => [Enter i]
  | Inside _, (Outside | Notifying) => [Leave i]
  | _, _ => []
  end.

Definition thread_at (s : System) (i : nat) : thread := default Outside (s_threads s !! i).

(** The events of a step are read off the threads before and after it. *)
Definition observe (s s' : System) : list event :=
  concat ((λ i, thread_events i (thread_at s i) (thread_at s' i)) <$> seq 0 (length (s_threads s))).

(** An execution with the events it shows. *)
Inductive run : System → list event → System → Prop :=
| run_none s : run s [] s
| run_step s tr s1 s2 : run s tr s1 → step s1 s2 → run s (tr ++ observe s1 s2) s2.

Lemma run_exists s s' : rtc step s s' → ∃ tr, run s tr s'.
Proof.
  revert s'. apply rtc_ind_r; [exists []; constructor|]. intros s1 s2 _ Hs [tr Hr]. eexists. by eapply run_step.
Qed.

(** ** The specification: a queue of threads whose first one may be let in *)

Record Fifo : Type := mkFifo { f_queue : list nat; f_granted : bool }.

Inductive fifo_step : Fifo → event → Fifo → Prop :=
| fifo_arrive q g i : i ∉ q → fifo_step (mkFifo q g) (Arrive i) (mkFifo (q ++ [i]) g)
| fifo_enter i q : fifo_step (mkFifo (i :: q) false) (Enter i) (mkFifo (i :: q) true)
| fifo_leave i q : fifo_step (mkFifo (i :: q) true) (Leave i) (mkFifo q false).

Inductive fifo_run : Fifo → list event → Fifo → Prop :=
| fifo_none a : fifo_run a [] a
| fifo_more a e a1 tr a2 : fifo_step a e a1 → fifo_run a1 tr a2 → fifo_run a (e :: tr) a2.

Lemma fifo_run_app a tr1 a1 tr2 a2 : fifo_run a tr1 a1 → fifo_run a1 tr2 a2 → fifo_run a (tr1 ++ tr2) a2.
Proof. induction 1 as [|a e a1 tr a2' Hs Hr IH]; intros H2; [done|]. cbn. eapply fifo_more; [exact Hs|by apply IH]. Qed.

Lemma fifo_once a e a' : fifo_step a e a' → fifo_run a [e] a'.
Proof. intros H. eapply fifo_more; [exact H|constructor]. Qed.

(** The threads of the arrivals, entries and exits, in their order. *)
Definition arrivals (tr : list event) : list nat := omap (λ e, match e with Arrive i => Some i | _ => None end) tr.
Definition entries (tr : list event) : list nat := omap (λ e, match e with Enter i => Some i | _ => None end) tr.
Definition exits (tr : list event) : list nat := omap (λ e, match e with Leave i => Some i | _ => None end) tr.

(** Everybody who was in the queue or came left in that order or still waits, and the entries
    are those who left and the one who is inside. *)
Lemma fifo_run_order a tr a' :
  fifo_run a tr a' → (f_granted a = true → f_queue a ≠ []) →
  f_queue a ++ arrivals tr = exits tr ++ f_queue a'
  ∧ take (if f_granted a then 1 else 0) (f_queue a) ++ entries tr = exits tr ++ take (if f_granted a' then 1 else 0) (f_queue a').
Proof.
  induction 1 as [a|a e a1 tr a2 Hs Hr IH]; intros Hg; [by rewrite !app_nil_r|].
  unfold arrivals, entries, exits in *. destruct Hs as [q g i Hn|i q|i q]; cbn [f_queue f_granted omap list_omap] in *.
  - destruct IH as [<- <-]; [by destruct q|]. rewrite <- app_assoc. split; [done|]. destruct g, q; try done. by destruct Hg.
  - destruct IH as [<- <-]; done.
  - destruct IH as [IH1 IH2]; [done|]. cbn. by rewrite IH1, <- IH2.
Qed.

(** ** The relation between a system and its queue *)

Definition ticket_of (t : thread) : option Z :=
  match t with Waiting ticket _ | Inside ticket => Some ticket | _ => None end.
Definition is_inside (t : thread) : bool := match t with Inside _ => true | _ => false end.

(** Thread number [k] of the queue has the [k]-th ticket from the head on, a thread is
    inside exactly when it is first and granted, the others have no ticket; and when the
    first one sleeps although nobody is inside, a notification is under way. *)
Record implements (s : System) (a : Fifo) : Prop := {
  im_distinct : NoDup (f_queue a);
  im_queued k i : f_queue a !! k = Some i →
    ∃ t, s_threads s !! i = Some t ∧ ticket_of t = Some (u16 (m_queue_head (s_mutex s) + Z.of_nat k))
      ∧ is_inside t = f_granted a && bool_decide (k = 0%nat);
  im_free i t : s_threads s !! i = Some t → i ∉ f_queue a → ticket_of t = None;
  im_head : is_u16 (m_queue_head (s_mutex s));
  im_tail : m_queue_tail (s_mutex s) = u16 (m_queue_head (s_mutex s) + zlen (f_queue a));
  im_notified i t : f_granted a = false → f_queue a !! 0%nat = Some i → s_threads s !! i = Some (Waiting t true) →
    ∃ j, s_threads s !! j = Some Notifying;
  im_granted : f_granted a = true → f_queue a ≠ []
}.

(** ** Facts about related states *)

Lemma u16_distinct h (k k' : Z) : 0 ≤ k < 2 ^ 16 → 0 ≤ k' < 2 ^ 16 → u16 (h + k) = u16 (h + k') → k = k'.
Proof. unfold u16. zlia. Qed.

Lemma u16_head h k : is_u16 h → 0 ≤ k < 2 ^ 16 → u16 (h + k) = h ↔ k = 0.
Proof. unfold is_u16, u16. zlia. Qed.

Lemma queue_bound s a i : implements s a → s_threads s !! i ≠ None → i ∉ f_queue a → (length (f_queue a) < length (s_threads s))%nat.
Proof.
  intros Hi Hs Hn. assert (Hd : NoDup (i :: f_queue a)) by (apply NoDup_cons; split; [done|apply (im_distinct _ _ Hi)]).
  assert (Hin : i :: f_queue a ⊆ seq 0 (length (s_threads s))).
  { intros j Hj. apply elem_of_seq. apply elem_of_cons in Hj as [->|Hj].
    - destruct (s_threads s !! i) eqn:E; [|done]. apply lookup_lt_Some in E. lia.
    - apply list_elem_of_lookup in Hj as [k Hk]. destruct (im_queued _ _ Hi k j Hk) as (t & Ht & _). apply lookup_lt_Some in Ht. lia. }
  apply (NoDup_submseteq _ _ Hd) in Hin. apply submseteq_length in Hin. rewrite length_seq in Hin. cbn in Hin. lia.
Qed.

(** A thread with a ticket stands in the queue. *)
Lemma queued s a i t ticket :
  implements s a → s_threads s !! i = Some t → ticket_of t = Some ticket →
  ∃ k, f_queue a !! k = Some i ∧ ticket = u16 (m_queue_head (s_mutex s) + Z.of_nat k) ∧ is_inside t = f_granted a && bool_decide (k = 0%nat).
Proof.
  intros Hi Ht Hk. destruct (decide (i ∈ f_queue a)) as [Hin|Hn].
  - apply list_elem_of_lookup in Hin as [k Hq]. exists k. destruct (im_queued _ _ Hi k i Hq) as (t' & Ht' & H1 & H2). simplify_eq. done.
  - by rewrite (im_free _ _ Hi i t Ht Hn) in Hk.
Qed.

Lemma position_bound s a k i : implements s a → zlen (s_threads s) ≤ 2 ^ 16 → f_queue a !! k = Some i → 0 ≤ Z.of_nat k < 2 ^ 16.
Proof.
  intros Hi Hn Hk. assert (Hl : (length (f_queue a) ≤ length (s_threads s))%nat).
  { destruct (f_queue a) as [|j q] eqn:E; [cbn; lia|]. assert (Hin : f_queue a ⊆ seq 0 (length (s_threads s))).
    { intros x Hx. apply elem_of_seq. apply list_elem_of_lookup in Hx as [k' Hk']. destruct (im_queued _ _ Hi k' x Hk') as (t & Ht & _).
      apply lookup_lt_Some in Ht. lia. }
    apply (NoDup_submseteq _ _ (im_distinct _ _ Hi)) in Hin. apply submseteq_length in Hin. rewrite length_seq, E in Hin. done. }
  apply lookup_lt_Some in Hk. unfold zlen in Hn. lia.
Qed.

(** A step of thread [i] that leaves its ticket and the mutex alone. *)
Lemma implements_thread s a i t t' g :
  implements s a → s_threads s !! i = Some t → t ≠ Notifying → ticket_of t' = ticket_of t →
  (∀ k, f_queue a !! k = Some i → is_inside t' = g && bool_decide (k = 0%nat)) →
  g = f_granted a ∨ f_queue a !! 0%nat = Some i →
  (∀ ticket, g = false → f_queue a !! 0%nat = Some i → t' = Waiting ticket true → ∃ j, s_threads s !! j = Some Notifying) →
  implements (set_thread i t' (s_mutex s) s) (mkFifo (f_queue a) g).
Proof.
  intros Hi Ht Hnn Htk Hin Hg Hnot. pose proof (lookup_lt_Some _ _ _ Ht) as Hlt. destruct a as [q g0]. cbn [f_queue f_granted] in *.
  assert (Hother : ∀ j, s_threads s !! j = Some Notifying → <[i := t']> (s_threads s) !! j = Some Notifying).
  { intros j Hj. rewrite list_lookup_insert_ne; [done|]. intros ->. congruence. }
  split; cbn [f_queue f_granted set_thread s_mutex s_threads].
  - apply (im_distinct _ _ Hi).
  - intros k j Hk. destruct (decide (j = i)) as [->|Hj].
    + exists t'. rewrite list_lookup_insert_eq by done. split_and!; [done| |by apply Hin]. rewrite Htk.
      destruct (im_queued _ _ Hi k i Hk) as (t0 & Ht0 & H1 & _). by simplify_eq.
    + rewrite list_lookup_insert_ne by done. destruct (im_queued _ _ Hi k j Hk) as (t0 & Ht0 & H1 & H2). exists t0. split_and!; [done|done|].
      rewrite H2. cbn [f_granted]. destruct Hg as [->|Hg]; [done|]. case_bool_decide; [|by rewrite !andb_false_r]. cbn [f_queue] in Hk. congruence.
  - intros j t0 Hj Hnq. destruct (decide (j = i)) as [->|Hne].
    + rewrite list_lookup_insert_eq in Hj by done. simplify_eq. rewrite Htk. by apply (im_free _ _ Hi i t).
    + rewrite list_lookup_insert_ne in Hj by done. by apply (im_free _ _ Hi j t0).
  - apply (im_head _ _ Hi).
  - apply (im_tail _ _ Hi).
  - intros j ticket Hf Hq Hj. destruct (decide (j = i)) as [->|Hne].
    + rewrite list_lookup_insert_eq in Hj by done. injection Hj as Hj. destruct (Hnot ticket Hf Hq Hj) as [x Hx]. exists x. by apply Hother.
    + rewrite list_lookup_insert_ne in Hj by done. destruct Hg as [->|Hg]; [|congruence].
      destruct (im_notified _ _ Hi j ticket Hf Hq Hj) as [x Hx]. exists x. by apply Hother.
  - intros Hgt. destruct Hg as [->|Hg]; [by apply (im_granted _ _ Hi)|]. by destruct q.
Qed.

(** A thread from outside draws a ticket. *)
Lemma implements_arrive s a i t' :
  implements s a → s_threads s !! i = Some Outside → zlen (s_threads s) ≤ 2 ^ 16 →
  ticket_of t' = Some (m_queue_tail (s_mutex s)) → is_inside t' = bool_decide (f_queue a = []) →
  implements (set_thread i t' (draw (s_mutex s)).2 s) (mkFifo (f_queue a ++ [i]) (f_granted a || bool_decide (f_queue a = []))).
Proof.
  intros Hi Ht Hn Htk Hin. pose proof (lookup_lt_Some _ _ _ Ht) as Hlt. destruct a as [q g]. cbn [f_queue f_granted] in *.
  assert (Hnq : i ∉ q).
  { intros Hx. apply list_elem_of_lookup in Hx as [k Hk]. destruct (im_queued _ _ Hi k i Hk) as (t & Ht2 & H1 & _). by simplify_eq. }
  assert (Hg : g = true → q ≠ []) by apply (im_granted _ _ Hi).
  split; cbn [f_queue f_granted set_thread s_mutex s_threads draw snd m_queue_head m_queue_tail].
  - apply NoDup_app. split_and!; [apply (im_distinct _ _ Hi)| |apply NoDup_singleton]. intros x Hx Hx1%list_elem_of_singleton. by subst.
  - intros k j Hk. apply lookup_app_Some in Hk as [Hk|[Hle Hk]].
    + assert (j ≠ i) by (intros ->; apply Hnq; by eapply list_elem_of_lookup_2). rewrite list_lookup_insert_ne by done.
      destruct (im_queued _ _ Hi k j Hk) as (t0 & Ht0 & H1 & H2). exists t0. split_and!; [done|done|]. rewrite H2. cbn [f_granted].
      assert (q ≠ []) by (intros ->; done). rewrite (bool_decide_false (q = [])) by done. by rewrite orb_false_r.
    + apply list_lookup_singleton_Some in Hk as [Hk <-]. exists t'. rewrite list_lookup_insert_eq by done. split_and!; [done| |].
      * rewrite Htk, (im_tail _ _ Hi). cbn [f_queue]. unfold zlen. do 3 f_equal. lia.
      * rewrite Hin. destruct q as [|j q]; [|by rewrite (bool_decide_false (k = 0%nat)) by (cbn in *; lia); rewrite andb_false_r].
        cbn in *. rewrite (bool_decide_true (k = 0%nat)) by lia. by rewrite orb_true_r.
  - intros j t0 Hj Hx. rewrite elem_of_app, list_elem_of_singleton in Hx.
    rewrite list_lookup_insert_ne in Hj by naive_solver. apply (im_free _ _ Hi j t0 Hj). naive_solver.
  - apply (im_head _ _ Hi).
  - rewrite (im_tail _ _ Hi), zlen_app. cbn [f_queue]. unfold u16. change (zlen [i]) with 1. zlia.
  - intros j ticket Hf Hq Hj. apply orb_false_iff in Hf as [-> Hne%bool_decide_eq_false]. destruct q as [|x q]; [done|]. cbn in Hq. injection Hq as ->.
    assert (j ≠ i) by (intros ->; apply Hnq; left). rewrite list_lookup_insert_ne in Hj by done.
    destruct (im_notified _ _ Hi j ticket eq_refl eq_refl Hj) as [y Hy]. exists y. rewrite list_lookup_insert_ne; [done|]. congruence.
  - intros _. by destruct q.
Qed.

Lemma implements_release s i q :
  implements s (mkFifo (i :: q) true) → implements (unlock_release i s) (mkFifo q false).
Proof.
  intros Hi. destruct (im_queued _ _ Hi 0%nat i eq_refl) as (t & Ht & _). pose proof (lookup_lt_Some _ _ _ Ht) as Hlt.
  pose proof (im_distinct _ _ Hi) as Hd. cbn [f_queue] in Hd. apply NoDup_cons in Hd as [Hn Hd].
  split; cbn [f_queue f_granted unlock_release set_thread s_mutex s_threads release m_queue_head m_queue_tail].
  - done.
  - intros k j Hk. assert (j ≠ i) by (intros ->; apply Hn; by eapply list_elem_of_lookup_2). rewrite list_lookup_insert_ne by done.
    destruct (im_queued _ _ Hi (S k) j Hk) as (t0 & Ht0 & H1 & H2). exists t0. split_and!; [done| |by rewrite H2; cbn [f_granted andb]; apply bool_decide_false].
    rewrite H1. unfold u16. f_equal. zlia.
  - intros j t0 Hj Hx. destruct (decide (j = i)) as [->|Hne].
    + rewrite list_lookup_insert_eq in Hj by done. by simplify_eq.
    + rewrite list_lookup_insert_ne in Hj by done. apply (im_free _ _ Hi j t0 Hj). cbn [f_queue]. rewrite elem_of_cons. naive_solver.
  - unfold is_u16, u16. zlia.
  - rewrite (im_tail _ _ Hi). cbn [f_queue]. rewrite zlen_cons. unfold u16. zlia.
  - intros j ticket _ _ _. exists i. by rewrite list_lookup_insert_eq.
  - done.
Qed.

Lemma wake_ticket t : ticket_of (wake t) = ticket_of t ∧ is_inside (wake t) = is_inside t.
Proof. by destruct t. Qed.

Lemma implements_notify s a i : implements s a → s_threads s !! i = Some Notifying → implements (unlock_notify i s) a.
Proof.
  intros Hi Ht. pose proof (lookup_lt_Some _ _ _ Ht) as Hlt. split; cbn [unlock_notify s_mutex s_threads].
  - apply (im_distinct _ _ Hi).
  - intros k j Hk. destruct (im_queued _ _ Hi k j Hk) as (t0 & Ht0 & H1 & H2).
    assert (j ≠ i) by (intros ->; simplify_eq; done). exists (wake t0). rewrite list_lookup_fmap, list_lookup_insert_ne, Ht0 by done.
    destruct (wake_ticket t0) as [-> ->]. done.
  - intros j t0 Hj Hx. rewrite list_lookup_fmap in Hj. destruct (decide (j = i)) as [->|Hne].
    + rewrite list_lookup_insert_eq in Hj by done. injection Hj as <-. done.
    + rewrite list_lookup_insert_ne in Hj by done. destruct (s_threads s !! j) as [t1|] eqn:E; [|done]. injection Hj as <-.
      destruct (wake_ticket t1) as [-> _]. by apply (im_free _ _ Hi j t1).
  - apply (im_head _ _ Hi).
  - apply (im_tail _ _ Hi).
  - intros j ticket _ _ Hj. exfalso. rewrite list_lookup_fmap in Hj. destruct (<[i := Outside]> (s_threads s) !! j) as [t1|]; [|done].
    injection Hj as Hj. by destruct t1.
  - apply (im_granted _ _ Hi).
Qed.

Lemma tail_is_head s a i :
  implements s a → s_threads s !! i = Some Outside → zlen (s_threads s) ≤ 2 ^ 16 →
  m_queue_tail (s_mutex s) = m_queue_head (s_mutex s) ↔ f_queue a = [].
Proof.
  intros Hi Ht Hn. assert (Hnq : i ∉ f_queue a).
  { intros Hx. apply list_elem_of_lookup in Hx as [k Hk]. destruct (im_queued _ _ Hi k i Hk) as (t & Ht2 & H1 & _). by simplify_eq. }
  pose proof (queue_bound s a i Hi ltac:(congruence) Hnq). rewrite (im_tail _ _ Hi), u16_head; [|apply (im_head _ _ Hi)|unfold zlen in *; lia].
  apply zlen_0.
Qed.

(** The events of a step in which only thread [i] changes what it shows. *)
Lemma observe_only s s' i :
  (i < length (s_threads s))%nat → (∀ j, j ≠ i → thread_events j (thread_at s j) (thread_at s' j) = []) →
  observe s s' = thread_events i (thread_at s i) (thread_at s' i).
Proof.
  intros Hi Hj. unfold observe. assert (Hnil : ∀ l, i ∉ l → concat ((λ k, thread_events k (thread_at s k) (thread_at s' k)) <$> l) = []).
  { induction l as [|k l IH]; intros Hn; [done|]. apply not_elem_of_cons in Hn as [Hk Hn]. cbn. by rewrite Hj, IH. }
  replace (length (s_threads s)) with (i + S (length (s_threads s) - S i))%nat by lia. rewrite seq_app, fmap_app, concat_app. cbn [seq fmap list_fmap concat Nat.add].
  rewrite !Hnil by (rewrite elem_of_seq; lia). by rewrite app_nil_r.
Qed.

Lemma thread_events_same i t : thread_events i t t = [].
Proof. by destruct t. Qed.

Lemma thread_events_wake i t : thread_events i t (wake t) = [].
Proof. by destruct t. Qed.

Lemma observe_set s i t t' m : s_threads s !! i = Some t → observe s (set_thread i t' m s) = thread_events i t t'.
Proof.
  intros Ht. pose proof (lookup_lt_Some _ _ _ Ht) as Hi. rewrite (observe_only _ _ i Hi).
  - unfold thread_at. cbn [set_thread s_threads]. by rewrite Ht, list_lookup_insert_eq.
  - intros j Hj. unfold thread_at. cbn [set_thread s_threads]. rewrite list_lookup_insert_ne by done. apply thread_events_same.
Qed.

Lemma observe_notify s i : s_threads s !! i = Some Notifying → observe s (unlock_notify i s) = [].
Proof.
  intros Ht. pose proof (lookup_lt_Some _ _ _ Ht) as Hi. rewrite (observe_only _ _ i Hi); unfold thread_at; cbn [unlock_notify s_threads].
  - by rewrite Ht, list_lookup_fmap, list_lookup_insert_eq.
  - intros j Hj. rewrite list_lookup_fmap, list_lookup_insert_ne by done. destruct (s_threads s !! j); [apply thread_events_wake|done].
Qed.

(** An arrival that is let in at once is two steps of the specification. *)
Lemma arrive_steps q g i t' :
  i ∉ q → (g = true → q ≠ []) → ticket_of t' ≠ None → is_inside t' = bool_decide (q = []) →
  fifo_run (mkFifo q g) (thread_events i Outside t') (mkFifo (q ++ [i]) (g || bool_decide (q = []))).
Proof.
  intros Hn Hg Ht Hin. destruct q as [|j q].
  - destruct g; [by destruct Hg|]. destruct t'; try done. eapply fifo_more; [by apply fifo_arrive|]. apply fifo_once. apply fifo_enter.
  - rewrite (bool_decide_false (_ = [])) in * by done. rewrite orb_false_r. destruct t'; try done. apply fifo_once. by apply fifo_arrive.
Qed.

(** A thread that gets a ticket: it is let in at once exactly when the queue is empty. *)
Lemma arrival_simulated s a i t' :
  implements s a → zlen (s_threads s) ≤ 2 ^ 16 → s_threads s !! i = Some Outside →
  ticket_of t' = Some (m_queue_tail (s_mutex s)) → is_inside t' = bool_decide (f_queue a = []) →
  ∃ a', fifo_run a (observe s (set_thread i t' (draw (s_mutex s)).2 s)) a' ∧ implements (set_thread i t' (draw (s_mutex s)).2 s) a'.
Proof.
  intros Hi Hn Ht Hk Hin. eexists. split; [|exact (implements_arrive s a i t' Hi Ht Hn Hk Hin)]. rewrite (observe_set s i Outside) by done.
  destruct a as [q g]. apply arrive_steps; [|apply (im_granted _ _ Hi)|by rewrite Hk|done].
  intros (k & Hq)%list_elem_of_lookup. destruct (im_queued _ _ Hi k i Hq) as (t & ? & ? & _). by simplify_eq.
Qed.

(** A thread that is awake looks at the head of the queue. *)
Lemma check_simulated s a i ticket :
  implements s a → zlen (s_threads s) ≤ 2 ^ 16 → s_threads s !! i = Some (Waiting ticket false) →
  ∃ a', fifo_run a (observe s (lock_check i ticket s)) a' ∧ implements (lock_check i ticket s) a'.
Proof.
  intros Hi Hn Ht. destruct (queued s a i _ ticket Hi Ht eq_refl) as (k & Hk & -> & Hin). cbn [is_inside] in Hin.
  pose proof (position_bound s a k i Hi Hn Hk) as Hb. pose proof (u16_head _ _ (im_head _ _ Hi) Hb) as Hh.
  assert (Hu : ∀ k', f_queue a !! k' = Some i → k' = k) by (intros k' Hk'; exact (NoDup_lookup _ _ _ _ (im_distinct _ _ Hi) Hk' Hk)).
  unfold lock_check, enter_or_sleep, is_turn. destruct (Z.eqb_spec (u16 (m_queue_head (s_mutex s) + Z.of_nat k)) (m_queue_head (s_mutex s))) as [E|E];
    rewrite (observe_set _ _ _ _ _ Ht); cbn [thread_events].
  - apply Hh in E. assert (k = 0%nat) by lia. subst k. exists (mkFifo (f_queue a) true). split.
    + destruct a as [[|j q] g]; [done|]. cbn in Hk. injection Hk as ->. cbn in Hin. rewrite andb_true_r in Hin. subst g. apply fifo_once, fifo_enter.
    + refine (implements_thread s a i _ _ true Hi Ht _ _ _ _ _); [done|done| |by right|done]. intros k' Hk'. by rewrite (Hu k' Hk').
  - assert (Hk0 : k ≠ 0%nat) by (intros ->; apply E, Hh; done). exists (mkFifo (f_queue a) (f_granted a)). split; [destruct a; constructor|].
    refine (implements_thread s a i _ _ _ Hi Ht _ _ _ _ _); [done|done| |by left|].
    + intros k' Hk'. rewrite (Hu k' Hk'). cbn [is_inside]. rewrite bool_decide_false by done. by rewrite andb_false_r.
    + intros ticket _ H0. by rewrite (Hu _ H0) in Hk0.
Qed.

Lemma step_simulated s a s' :
  implements s a → zlen (s_threads s) ≤ 2 ^ 16 → step s s' → ∃ a', fifo_run a (observe s s') a' ∧ implements s' a'.
Proof.
  intros Hi Hn Hs. destruct Hs as [s i Ht|s i ticket Ht|s i ticket Ht|s i ticket Ht|s i Ht|s i ticket m Ht Hd].
  - pose proof (tail_is_head s a i Hi Ht Hn) as Hh. unfold lock_begin. cbn [draw]. apply arrival_simulated; try done;
      unfold enter_or_sleep, is_turn; cbn [m_queue_head]; destruct (Z.eqb_spec (m_queue_tail (s_mutex s)) (m_queue_head (s_mutex s))); [done|done| |];
      symmetry; [apply bool_decide_true|apply bool_decide_false]; naive_solver.
  - exists a. rewrite (observe_set _ _ _ _ _ Ht). split; [constructor|]. destruct (queued s a i _ ticket Hi Ht eq_refl) as (k & Hk & _ & Hin). destruct a as [q g].
    refine (implements_thread s _ i _ _ g Hi Ht _ _ _ _ _); [done|done| |by left|done].
    intros k' Hk'. cbn in *. by rewrite (NoDup_lookup _ _ _ _ (im_distinct _ _ Hi) Hk' Hk).
  - by apply check_simulated.
  - destruct (queued s a i _ ticket Hi Ht eq_refl) as (k & Hk & _ & Hin). cbn [is_inside] in Hin. symmetry in Hin.
    apply andb_true_iff in Hin as [Hg ->%bool_decide_eq_true]. destruct a as [[|j q] g]; [done|]. cbn in Hk, Hg. injection Hk as ->. subst g.
    exists (mkFifo q false). split; [|by apply implements_release]. unfold unlock_release. rewrite (observe_set _ _ _ _ _ Ht). apply fifo_once, fifo_leave.
  - exists a. rewrite observe_notify by done. split; [constructor|by apply implements_notify].
  - unfold try_draw in Hd. destruct (Z.eqb_spec (m_queue_head (s_mutex s)) (m_queue_tail (s_mutex s))) as [E|]; [|done]. injection Hd as <- <-.
    assert (Hq : f_queue a = []) by (by apply (tail_is_head s a i Hi Ht Hn)). apply arrival_simulated; try done. symmetry. by apply bool_decide_true.
Qed.

Lemma step_length s s' : step s s' → length (s_threads s') = length (s_threads s).
Proof.
  destruct 1; cbn [lock_begin draw lock_check set_thread unlock_release unlock_notify s_threads];
    rewrite ?length_fmap, ?length_insert; done.
Qed.

Lemma start_implements n : implements (start n) (mkFifo [] false).
Proof.
  split; cbn; try done; [apply NoDup_nil_2|]. intros i t Hi _. apply lookup_replicate_1 in Hi as [-> _]. done.
Qed.

Lemma run_implements n tr s :
  Z.of_nat n ≤ 2 ^ 16 → run (start n) tr s → ∃ a, fifo_run (mkFifo [] false) tr a ∧ implements s a ∧ zlen (s_threads s) ≤ 2 ^ 16.
Proof.
  intros Hn Hr. remember (start n) as s0 eqn:E. induction Hr as [s|s tr s1 s2 Hr IH Hs]; subst s.
  - exists (mkFifo [] false). split_and!; [constructor|apply start_implements|]. unfold zlen. cbn. rewrite length_replicate. lia.
  - destruct (IH eq_refl) as (a & Ha & Hi & Hl). destruct (step_simulated s1 a s2 Hi Hl Hs) as (a' & Ha' & Hi'). exists a'.
    split_and!; [by eapply fifo_run_app|done|]. unfold zlen in *. by rewrite (step_length s1 s2 Hs).
Qed.

Lemma implements_inside s a i :
  implements s a → (∃ ticket, s_threads s !! i = Some (Inside ticket)) ↔ f_granted a = true ∧ f_queue a !! 0%nat = Some i.
Proof.
  intros Hi. split.
  - intros [ticket Ht]. destruct (queued s a i _ ticket Hi Ht eq_refl) as (k & Hk & _ & Hin). cbn [is_inside] in Hin. symmetry in Hin.
    apply andb_true_iff in Hin as [Hg ->%bool_decide_eq_true]. done.
  - intros [Hg Hq]. destruct (im_queued _ _ Hi 0%nat i Hq) as (t & Ht & _ & Hin). rewrite Hg in Hin. destruct t; try done. by exists ticket.
Qed.

Lemma implements_waiting s a i :
  implements s a → (∃ t ticket, s_threads s !! i = Some t ∧ ticket_of t = Some ticket) ↔ i ∈ f_queue a.
Proof.
  intros Hi. split.
  - intros (t & ticket & Ht & Hk). destruct (queued s a i t ticket Hi Ht Hk) as (k & Hq & _). by eapply list_elem_of_lookup_2.
  - intros (k & Hq)%list_elem_of_lookup. destruct (im_queued _ _ Hi k i Hq) as (t & Ht & H1 & _). eauto.
Qed.

(** ** Properties *)

(** C32: for at most 65536 threads the ticket mutex refines a queue of threads.  Whatever the
    interleaving, spurious wake-ups and failed attempts included, the arrivals, entries and
    exits of an execution, in their order, are an execution of the queue, which appends who
    arrives, lets in only the first one and only when nobody is inside, and removes it when it
    leaves.  At the end the threads that hold a ticket are those in the queue, with consecutive
    tickets from the head on, and the thread inside is its first one if that was let in.  So, although the 16 bit ticket numbers wrap
    around, threads get in one at a time and in the order of their arrival: the entries are
    the beginning of the arrivals, and all of them but at most one, who is inside, have left. *)
Theorem mutex_refines_fifo n tr s :
  Z.of_nat n ≤ 2 ^ 16 → run (start n) tr s →
  ∃ a, fifo_run (mkFifo [] false) tr a
    ∧ (∀ i, (∃ ticket, s_threads s !! i = Some (Inside ticket)) ↔ f_granted a = true ∧ f_queue a !! 0%nat = Some i)
    ∧ (∀ i, (∃ t ticket, s_threads s !! i = Some t ∧ ticket_of t = Some ticket) ↔ i ∈ f_queue a)
    ∧ (∀ k i, f_queue a !! k = Some i → ticket_of (thread_at s i) = Some (u16 (m_queue_head (s_mutex s) + Z.of_nat k)))
    ∧ arrivals tr = exits tr ++ f_queue a
    ∧ entries tr = exits tr ++ take (if f_granted a then 1 else 0) (f_queue a).
Proof.
  intros Hn Hr. destruct (run_implements n tr s Hn Hr) as (a & Ha & Hi & _). exists a. destruct (fifo_run_order _ _ _ Ha) as [H1 H2]; [done|].
  split_and!; [done|intros i; by apply implements_inside|intros i; by apply implements_waiting| |exact H1|exact H2].
  intros k i Hk. destruct (im_queued _ _ Hi k i Hk) as (t & Ht & H & _). unfold thread_at. by rewrite Ht.
Qed.

(** Two threads on a fresh mutex: the first is let in, the second has to wait. *)
Definition contended : System := lock_begin 1 (lock_begin 0 (start 2)).

Lemma contended_reachable : rtc step (start 2) contended.
Proof. eapply rtc_l; [by apply (step_lock _ 0)|]. apply rtc_once. by apply (step_lock _ 1). Qed.

(** The first one leaves and notifies, the second one enters. *)
Definition handed_over : System := lock_check 1 1 (unlock_notify 0 (unlock_release 0 contended)).
Definition hand_over_trace : list event := [Arrive 0; Enter 0; Arrive 1; Leave 0; Enter 1].

Lemma hand_over_run : run (start 2) hand_over_trace handed_over.
Proof.
  change hand_over_trace with ((((([] ++ observe (start 2) (lock_begin 0 (start 2))) ++ observe (lock_begin 0 (start 2)) contended)
    ++ observe contended (unlock_release 0 contended)) ++ observe (unlock_release 0 contended) (unlock_notify 0 (unlock_release 0 contended)))
    ++ observe (unlock_notify 0 (unlock_release 0 contended)) handed_over).
  eapply run_step; [eapply run_step; [eapply run_step; [eapply run_step; [eapply run_step; [constructor|]|]|]|]|].
  - by apply (step_lock _ 0).
  - by apply (step_lock _ 1).
  - by apply (step_unlock _ 0 0).
  - by apply step_notify.
  - by apply step_check.
Qed.

Lemma mutex_refines_fifo_witness :
  s_threads handed_over = [Outside; Inside 1]
  ∧ ∃ a, fifo_run (mkFifo [] false) hand_over_trace a ∧ f_granted a = true ∧ f_queue a !! 0%nat = Some 1%nat
    ∧ entries hand_over_trace = exits hand_over_trace ++ take 1 (f_queue a).
Proof.
  split; [reflexivity|]. destruct (mutex_refines_fifo 2 hand_over_trace handed_over) as (a & Ha & Hin & _ & _ & _ & He); [lia|apply hand_over_run|].
  exists a. destruct (proj1 (Hin 1%nat)) as [Hg Hq]; [by exists 1|]. rewrite Hg in He. done.
Defined.

(** The steps of threads that are already in the code of the mutex. *)
Inductive settling : System → System → Prop :=
| settle_check s i ticket : s_threads s !! i = Some (Waiting ticket false) → settling s (lock_check i ticket s)
| settle_notify s i : s_threads s !! i = Some Notifying → settling s (unlock_notify i s).

(** C33: no wake-up is lost: whenever nobody is inside and threads wait, the thread whose
    ticket is the next one gets in, without a further call of lock or unlock and without
    a spurious wake-up: it is awake, or a thread in unlock has not notified yet. *)
Theorem mutex_no_lost_wakeup n s i0 t0 b0 :
  Z.of_nat n ≤ 2 ^ 16 → rtc step (start n) s →
  (∀ i ticket, s_threads s !! i ≠ Some (Inside ticket)) → s_threads s !! i0 = Some (Waiting t0 b0) →
  ∃ i s', rtc settling s s' ∧ s_threads s' !! i = Some (Inside (m_queue_head (s_mutex s))) ∧ s_mutex s' = s_mutex s.
Proof.
  intros Hn Hr Hno Hw. apply run_exists in Hr as [tr Hr]. destruct (run_implements n tr s Hn Hr) as (a & _ & Hi & _).
  destruct (queued s a i0 _ t0 Hi Hw eq_refl) as (k & Hk & _). destruct a as [[|i q] g]; [done|].
  destruct (im_queued _ _ Hi 0%nat i eq_refl) as (t & Ht & H1 & H2). pose proof (proj2 (u16_head _ 0 (im_head _ _ Hi) ltac:(lia)) eq_refl) as E.
  change (Z.of_nat 0) with 0 in H1. rewrite E in H1.
  destruct t as [|ticket asleep|ticket|]; try done; [|by edestruct Hno]. cbn in H1. injection H1 as ->. cbn in H2.
  assert (Hcheck : ∀ s1, s_mutex s1 = s_mutex s → s_threads s1 !! i = Some (Waiting (m_queue_head (s_mutex s)) false) →
    ∃ s', rtc settling s1 s' ∧ s_threads s' !! i = Some (Inside (m_queue_head (s_mutex s))) ∧ s_mutex s' = s_mutex s).
  { intros s1 Hm H1. eexists. split; [apply rtc_once; by apply (settle_check s1 i)|]. unfold lock_check, enter_or_sleep, is_turn.
    rewrite Hm, Z.eqb_refl. cbn [set_thread s_threads s_mutex]. split; [|done]. apply list_lookup_insert_eq. by apply lookup_lt_Some in H1. }
  exists i. destruct asleep; [|by apply Hcheck].
  destruct g; [done|]. destruct (im_notified _ _ Hi i _ eq_refl eq_refl Ht) as [j Hj].
  destruct (Hcheck (unlock_notify j s) eq_refl) as (s' & Hs' & H3 & H4).
  { cbn [unlock_notify s_threads]. rewrite list_lookup_fmap, list_lookup_insert_ne, Ht; [done|]. intros ->. congruence. }
  exists s'. split_and!; [|done|done]. eapply rtc_l; [by apply settle_notify|done].
Qed.

(** The first thread has released the mutex and not notified yet; the second sleeps. *)
Lemma mutex_no_lost_wakeup_witness :
  let s := unlock_release 0 contended in
  s_threads s = [Notifying; Waiting 1 true]
  ∧ ∃ i s', rtc settling s s' ∧ s_threads s' !! i = Some (Inside 1) ∧ s_mutex s' = s_mutex s.
Proof.
  intros s. split; [reflexivity|]. apply (mutex_no_lost_wakeup 2 s 1 1 true); [lia| | |reflexivity].
  - eapply rtc_r; [apply contended_reachable|]. by apply (step_unlock _ 0 0).
  - intros [|[|i]] ticket; done.
Defined.
