(* ===== verification/ReadoutSetup.v ===== *)
(** * Setting up a readout: [mvlc_dialog_util.h]

    Reading stacks back, switching DAQ mode and triggers, uploading the readout stacks.
    The functions are templates over the interface they talk to; here they are
    computations over an instance of [Dialog]. *)

From S2P Require Import Prelude Effects Constants Frames Commands Errors CmdPipe CmdApi.

(** ** The interface *)

(** The members that the templates use of [DIALOG_API]. *)
Class Dialog (S : Type) : Type := {
  d_readRegister : Z → Z → SM S (error_code * Z);
  d_writeRegister : Z → Z → SM S error_code;
  d_superTransaction : SuperCommandBuilder → list Z → SM S (error_code * list Z);
  d_uploadStack : Z → Z → list Z → SM S error_code;
  d_uploadStack_commands : Z → Z → list StackCommand → SM S error_code;
  d_getStackCount : S → Z
}.

(** [MVLC] is such an interface. *)
#[global] Instance Mvlc_dialog {D} `{Connection D} : Dialog (Mvlc_t (D := D)) := {
  d_readRegister := mvlc_readRegister;
  d_writeRegister := mvlc_writeRegister;
  d_superTransaction := mvlc_superTransaction;
  d_uploadStack := mvlc_uploadStack;
  d_uploadStack_commands := mvlc_uploadStack_commands;
  d_getStackCount := getStackCount
}.

(* mvlc_dialog_util.h:41-49 StackInfo *)
Record StackInfo : Type := mkStackInfo {
  si_triggerValue : Z;
  si_triggerAddress : Z;
  si_offset : Z;
  si_offsetAddress : Z;
  si_startAddress : Z;
  si_contents : list Z
}.

Section Setup.
Context {S : Type} {HD : Dialog S}.

(** ** Reading stacks *)

Definition word_type (value : Z) : Z := (value ≫ stack_commands.CmdShift) .& stack_commands.CmdMask.

(** The words after the header; one unit of fuel per word.  An error is returned with the
    words read so far. *)
(* mvlc_dialog_util.h:80-91 read_stack_contents *)
Fixpoint read_stack_words (fuel : nat) (addr value : Z) (contents : list Z) : SM S (list Z * error_code) :=
  match fuel with
  | O => λ _, Hangs
  | Datatypes.S fuel =>
      if addr >=? stacks.StackMemoryEnd then mret (contents, Mvlc MVLCErrorCode.StackMemoryExceeded)
      else
        '(ec, value) ← d_readRegister (u16 addr) value;
        if failed ec then mret (contents, ec)
        else
          let contents := contents ++ [value] in
          if negb (word_type value =? StackCommandType.StackEnd) then read_stack_words fuel (u32 (addr + AddressIncrement)) value contents
          else mret (contents, no_error)
  end.

(* mvlc_dialog_util.h:51-94 read_stack_contents *)
Definition read_stack_contents (startAddress : Z) : SM S (list Z * error_code) :=
  '(ec, stackHeader) ← d_readRegister startAddress 0;
  if failed ec then mret ([], ec)
  else if stackHeader =? 0 then mret ([], no_error)
  else if negb (word_type stackHeader =? StackCommandType.StackStart)
  then mret ([stackHeader], Mvlc MVLCErrorCode.InvalidStackHeader)
  else read_stack_words (Z.to_nat (stacks.StackMemoryEnd / AddressIncrement + 1)) (startAddress + AddressIncrement) 0 [stackHeader].

(* mvlc_dialog_util.h:96-121 read_stack_info *)
Definition read_stack_info (id : Z) : SM S (StackInfo * error_code) :=
  if id >=? stacks.StackCount then mret (mkStackInfo 0 0 0 0 0 [], Mvlc MVLCErrorCode.StackCountExceeded)
  else
    let triggerAddress := stacks.get_trigger_register id in
    let offsetAddress := stacks.get_offset_register id in
    '(ec, triggerValue) ← d_readRegister triggerAddress 0;
    if failed ec then mret (mkStackInfo triggerValue triggerAddress 0 offsetAddress 0 [], ec)
    else
      '(ec, offset) ← d_readRegister offsetAddress 0;
      if failed ec then mret (mkStackInfo triggerValue triggerAddress offset offsetAddress 0 [], ec)
      else
        let startAddress := u16 (stacks.StackMemoryBegin + offset) in
        '(contents, ec) ← read_stack_contents startAddress;
        mret (mkStackInfo triggerValue triggerAddress offset offsetAddress startAddress contents, ec).

(** ** DAQ mode and triggers *)

(* mvlc_dialog_util.h:123-127 enable_daq_mode *)
Definition enable_daq_mode : SM S error_code := d_writeRegister registers.daq_mode 0xF.
(* mvlc_dialog_util.h:129-133 disable_daq_mode *)
Definition disable_daq_mode : SM S error_code := d_writeRegister registers.daq_mode 0.
(* mvlc_dialog_util.h:135-139 read_daq_mode *)
Definition read_daq_mode (daqMode : Z) : SM S (error_code * Z) := d_readRegister registers.daq_mode daqMode.

(** [rnd] is the result of [std::rand()]. *)
(* mvlc_dialog_util.h:141-154 get_disable_daq_mode_and_triggers_commands *)
Definition get_disable_daq_mode_and_triggers_commands (rnd : Z) : SuperCommandBuilder :=
  foldl (λ sb stackId, su_addWriteLocal sb (stacks.get_trigger_register (Z.of_nat stackId)) stacks.NoTrigger)
    (su_addWriteLocal (su_addReferenceWord [] (rnd mod 0xffff)) registers.daq_mode 0) (seq 0 (Z.to_nat stacks.StackCount)).

(* mvlc_dialog_util.h:164-173 disable_daq_mode_and_triggers *)
Definition disable_daq_mode_and_triggers (rnd : Z) : SM S error_code :=
  '(ec, _) ← d_superTransaction (get_disable_daq_mode_and_triggers_commands rnd) []; mret ec.

(* mvlc_dialog_util.h:182-194 get_reset_stack_offsets_commands *)
Definition get_reset_stack_offsets_commands (rnd : Z) : SuperCommandBuilder :=
  foldl (λ sb stackId, su_addWriteLocal sb (stacks.get_offset_register (Z.of_nat stackId)) 0)
    (su_addReferenceWord [] (rnd mod 0xffff)) (seq 0 (Z.to_nat stacks.StackCount)).

(* mvlc_dialog_util.h:196-205 reset_stack_offsets *)
Definition reset_stack_offsets (rnd : Z) : SM S error_code :=
  '(ec, _) ← d_superTransaction (get_reset_stack_offsets_commands rnd) []; mret ec.

(** ** Readout stacks *)

(* mvlc_dialog_util.h:235-235 setup_readout_stacks *)
Definition output_pipe (b : StackCommandBuilder) : Z := if m_suppressPipeOutput b then SuppressPipeOutput else DataPipe.

(* mvlc_dialog_util.h:221-251 setup_readout_stacks *)
Fixpoint setup_stacks (stackId uploadWordOffset : Z) (readoutStacks : list StackCommandBuilder) : SM S error_code :=
  match readoutStacks with
  | [] => mret no_error
  | stackBuilder :: rest =>
      stackCount ← get_state d_getStackCount;
      if stackId >=? stackCount then mret (Mvlc MVLCErrorCode.StackCountExceeded)
      else
        stackBuffer ← lift (make_stack_buffer (getCommands stackBuilder));
        let uploadAddress := u16 (uploadWordOffset * AddressIncrement) in
        let endAddress := u16 (uploadAddress + zlen stackBuffer * AddressIncrement) in
        if stacks.StackMemoryBegin + endAddress >=? stacks.StackMemoryEnd then mret (Mvlc MVLCErrorCode.StackMemoryExceeded)
        else
          ec ← d_uploadStack (output_pipe stackBuilder) uploadAddress stackBuffer;
          if failed ec then mret ec
          else
            ec ← d_writeRegister (stacks.get_offset_register stackId) uploadAddress;
            if failed ec then mret ec
            else setup_stacks (u8 (stackId + 1)) (u16 (uploadWordOffset + zlen stackBuffer + 1 + 2)) rest
  end.

(* mvlc_dialog_util.h:210-254 setup_readout_stacks *)
Definition setup_readout_stacks (readoutStacks : list StackCommandBuilder) : SM S error_code :=
  setup_stacks stacks.FirstReadoutStackID
    (stacks.ImmediateStackStartOffsetWords + stacks.ImmediateStackReservedWords + 1) readoutStacks.

(* mvlc_dialog_util.h:256-262 write_stack_trigger_value *)
Definition write_stack_trigger_value (stackId triggerVal : Z) : SM S error_code :=
  d_writeRegister (stacks.get_trigger_register stackId) triggerVal.

(* mvlc_dialog_util.h:273-302 setup_readout_stack *)
Definition setup_readout_stack (stackBuilder : StackCommandBuilder) (stackId stackTriggerValue : Z) : SM S error_code :=
  if stackId =? 0 then mret (Mvlc MVLCErrorCode.Stack0IsReserved)
  else if get_encoded_stack_size (getCommands stackBuilder) >? stacks.StackMemorySegmentSize
  then mret (Mvlc MVLCErrorCode.StackMemoryExceeded)
  else
    let uploadWordOffset := u16 (stackId * stacks.StackMemorySegmentSize) in
    let uploadAddress := u16 (uploadWordOffset * AddressIncrement) in
    ec ← d_uploadStack_commands (output_pipe stackBuilder) uploadAddress (getCommands stackBuilder);
    if failed ec then mret ec
    else
      ec ← d_writeRegister (stacks.get_offset_register stackId) uploadAddress;
      if failed ec then mret ec else write_stack_trigger_value stackId stackTriggerValue.

(* mvlc_dialog_util.h:304-316 setup_readout_stack *)
Definition setup_readout_stack_trigger (stackBuilder : StackCommandBuilder) (stackId : Z) (trigger : Trigger) : SM S error_code :=
  setup_readout_stack stackBuilder stackId (trigger_value trigger).

(** [triggerValues.at(triggerIdx)] throws for an index out of range. *)
(* mvlc_dialog_util.h:328-341 setup_readout_triggers *)
Fixpoint add_triggers (count : nat) (triggerIdx : nat) (stackId : Z) (triggerValues : list Z) (sb : SuperCommandBuilder)
  : outcome SuperCommandBuilder :=
  match count with
  | O => Return sb
  | Datatypes.S count =>
      match triggerValues !! triggerIdx with
      | None => Throw out_of_range
      | Some triggerVal =>
          add_triggers count (Datatypes.S triggerIdx) (u8 (stackId + 1)) triggerValues
            (su_addWriteLocal sb (stacks.get_trigger_register stackId) triggerVal)
      end
  end.

(* mvlc_dialog_util.h:319-346 setup_readout_triggers *)
Definition setup_readout_triggers_array (rnd : Z) (triggerValues : list Z) : SM S error_code :=
  stackCount ← get_state d_getStackCount;
  sb ← lift (add_triggers (Z.to_nat (u32 (stackCount - 1))) 0 stacks.FirstReadoutStackID triggerValues (su_addReferenceWord [] (rnd mod 0xffff)));
  '(ec, _) ← d_superTransaction sb []; mret ec.

(** Missing values are 0, surplus ones are cut off. *)
(* mvlc_dialog_util.h:348-361 setup_readout_triggers *)
Definition setup_readout_triggers (rnd : Z) (triggerValues : list Z) : SM S error_code :=
  let n := Z.to_nat stacks.ReadoutStackCount in
  setup_readout_triggers_array rnd (take n (triggerValues ++ replicate n 0)).

(* mvlc_dialog_util.h:363-376 setup_readout_triggers *)
Definition setup_readout_triggers_typed (rnd : Z) (triggers : list Trigger) : SM S error_code :=
  setup_readout_triggers_array rnd (trigger_value <$> triggers).

End Setup.
