(* ===== verification/ReadoutSetupFacts.v ===== *)
(** * Properties of the readout setup

    The laws of an interface with registers and stack uploads, which [MVLC] satisfies with a
    controller that answers, and what the setup functions make of the stack memory. *)

From S2P Require Import Prelude Effects Constants Frames FramesFacts Commands CommandsFacts StackErrors Errors CmdPipe CmdPipeFacts CmdApi CmdApiLaws CmdApiFacts CmdApiController CmdApiExec ReadoutSetup.

(** ** Laws of the interface *)

(** The interface works, its registers can be read and written, and stacks are stored as
    one pass over the upload commands would. *)
Class DialogLaws (S : Type) `{Dialog S} : Type := {
  d_good : S → Prop;
  d_regs : S → gmap Z Z;
  d_uploadable : list Z → Prop;
  d_after (s s' : S) (m : gmap Z Z) : Prop := d_good s' ∧ d_regs s' = m ∧ d_getStackCount s' = d_getStackCount s;
  law_read s a v :
    d_good s → is_u16 a → ∃ s', d_readRegister a v s = Done (no_error, reg (d_regs s) a, s') ∧ d_after s s' (d_regs s);
  law_write s a v :
    d_good s → is_u16 a → a ≠ stacks.Stack0TriggerRegister → is_u32 v →
    ∃ s', d_writeRegister a v s = Done (no_error, s') ∧ d_after s s' (<[a := v]> (d_regs s));
  law_super s ref cmds dest :
    d_good s → is_u16 ref → Forall register_access cmds → triggers cmds = false → zlen cmds ≤ 64 →
    ∃ s' resp, d_superTransaction (mkSuper ReferenceWord 0 ref :: cmds) dest s = Done (no_error, resp, s')
      ∧ d_after s s' (foldl apply_write (d_regs s) cmds);
  law_upload s pipe off ws :
    d_good s → ws ≠ [] → d_uploadable ws → Forall is_u32 ws → is_u8 pipe → 0 ≤ off →
    stacks.StackMemoryBegin + off + 4 * (zlen ws + 2) ≤ stacks.StackMemoryEnd + 3 →
    ∃ s', d_uploadStack pipe off ws s = Done (no_error, s')
      ∧ d_after s s' (foldl apply_write (d_regs s) (make_stack_upload_commands pipe off ws))
}.

(** ** The class [MVLC] satisfies them *)

Section Facade.
Context {D : Type} {HC : Connection D} {HK : Controller D}.

Definition mvlc_good (d : Mvlc_t (D := D)) : Prop := ready (bus (api_dev (cmdApi d))) (regs (api_dev (cmdApi d))) (cmdApi d).
Definition mvlc_regs (d : Mvlc_t (D := D)) : gmap Z Z := regs (api_dev (cmdApi d)).
Definition mvlc_after (d d' : Mvlc_t (D := D)) (m : gmap Z Z) : Prop := mvlc_good d' ∧ mvlc_regs d' = m ∧ getStackCount d' = getStackCount d.

Lemma ready_state b m (s : Api D) : ready b m s → bus (api_dev s) = b ∧ regs (api_dev s) = m.
Proof. intros (p & pk & sr & kr & [] & _). done. Qed.

(** A successful call of the command interface is one of the class. *)
Lemma checked_exactly {A} (code : A → error_code) (f : M D A) a d m' b' :
  exactly (ready (bus (api_dev (cmdApi d))) (mvlc_regs d)) f a (ready b' m') → is_type (code a) ErrorType.ConnectionError = false → mvlc_good d →
  ∃ d', checked code f d = Done (a, d') ∧ mvlc_after d d' m'.
Proof.
  intros Hf Ha Hd. destruct (Hf (cmdApi d) Hd) as (s' & E & Hs'). unfold checked, call. rewrite E. eexists. split; [reflexivity|].
  destruct (ready_state b' m' s' Hs') as [<- <-]. unfold resultCheck. by rewrite Ha.
Qed.

Lemma mvlc_read d a v :
  mvlc_good d → is_u16 a → ∃ d', mvlc_readRegister a v d = Done (no_error, reg (mvlc_regs d) a, d') ∧ mvlc_after d d' (mvlc_regs d).
Proof.
  intros Hd Ha. apply (checked_exactly fst _ (no_error, reg (mvlc_regs d) a) _ _ (bus (api_dev (cmdApi d)))); [|done|done].
  apply exactly_ready. intros p pk sr kr Hp Hpk Hsr. destruct (readRegister_live a v (bus (api_dev (cmdApi d))) (mvlc_regs d) p pk sr kr false Hp Hsr Ha)
    as (p' & Hp' & Hx). exists p', pk, (u16 (sr + 1)). by split_and!; [..|apply u16_range|].
Qed.

Lemma mvlc_write d a v :
  mvlc_good d → is_u16 a → a ≠ stacks.Stack0TriggerRegister → is_u32 v →
  ∃ d', mvlc_writeRegister a v d = Done (no_error, d') ∧ mvlc_after d d' (<[a := v]> (mvlc_regs d)).
Proof.
  intros Hd Ha Hne Hv. apply (checked_exactly id _ no_error _ _ (bus (api_dev (cmdApi d)))); [|done|done].
  apply exactly_ready. intros p pk sr kr Hp Hpk Hsr.
  destruct (writeRegister_live a v (bus (api_dev (cmdApi d))) (mvlc_regs d) p pk sr kr false Hp Hsr Ha Hne Hv) as (p' & Hp' & Hx).
  exists p', pk, (u16 (sr + 1)). by split_and!; [..|apply u16_range|].
Qed.

Lemma access_request_size ref cmds : zlen cmds ≤ 64 → Forall register_access cmds → zlen (request ref cmds) ≤ max_command_words connectionType.
Proof.
  intros Hl Hc. rewrite zlen_request. assert (zlen (cmds ≫= encode_super_command) ≤ 2 * zlen cmds).
  { clear Hl. induction Hc as [|c cmds Hc Hcs IH]; [done|]. rewrite bind_cons, zlen_app, zlen_cons. pose proof (encode_length c Hc). lia. }
  assert (368 ≤ max_command_words connectionType) by (by destruct connectionType). lia.
Qed.

Lemma mvlc_super d ref cmds dest :
  mvlc_good d → is_u16 ref → Forall register_access cmds → triggers cmds = false → zlen cmds ≤ 64 →
  ∃ d' resp, mvlc_superTransaction (mkSuper ReferenceWord 0 ref :: cmds) dest d = Done (no_error, resp, d')
    ∧ mvlc_after d d' (foldl apply_write (mvlc_regs d) cmds).
Proof.
  intros Hd Hr Hc Ht Hl. set (resp := dest ++ super_answer (mvlc_regs d) ref cmds).
  assert (Hu : u16 ref = ref) by (apply Z.mod_small; apply Hr).
  destruct (checked_exactly fst (superTransaction ref (request ref cmds) dest) (no_error, resp) d
    (foldl apply_write (mvlc_regs d) cmds) (bus (api_dev (cmdApi d)))) as (d' & E & Hd'); [|done|done|].
  - apply exactly_ready. intros p pk sr kr Hp Hpk Hsr. do 2 eexists. exists sr. split_and!; [..|apply superTransaction_live; try done; by apply access_request_size]; done.
  - exists d', resp. split; [|done]. unfold mvlc_superTransaction. cbn [su_type su_value]. rewrite bool_decide_true by done. rewrite Hu. exact E.
Qed.

Lemma mvlc_upload d pipe off ws :
  mvlc_good d → ws ≠ [] → (connectionType = ETH → zlen ws ≠ 181) → Forall is_u32 ws → is_u8 pipe → 0 ≤ off →
  stacks.StackMemoryBegin + off + 4 * (zlen ws + 2) ≤ stacks.StackMemoryEnd + 3 →
  ∃ d', mvlc_uploadStack pipe off ws d = Done (no_error, d')
    ∧ mvlc_after d d' (foldl apply_write (mvlc_regs d) (make_stack_upload_commands pipe off ws)).
Proof.
  intros Hd Hne Hu Hw Hp Ho Hf. apply (checked_exactly id _ no_error _ _ (bus (api_dev (cmdApi d)))); [|done|done].
  apply exactly_ready. intros p pk sr kr Hpend Hpk Hsr.
  destruct (uploadStack_live pipe off ws (bus (api_dev (cmdApi d))) (mvlc_regs d) p pk sr kr false) as (p' & sr' & Hp' & Hsr' & Hx); [done..|].
  by exists p', pk, sr'.
Qed.

#[global] Instance Mvlc_laws : DialogLaws (Mvlc_t (D := D)) := {
  d_good := mvlc_good; d_regs := mvlc_regs; d_uploadable ws := connectionType = ETH → zlen ws ≠ 181;
  law_read := mvlc_read; law_write := mvlc_write; law_super := mvlc_super; law_upload := mvlc_upload
}.

End Facade.

(** ** The memory layout of readout stacks *)

(** Stack [id] starts at word [off] and holds the words of the first program; the next one
    follows after a gap of one word. *)
Fixpoint placed (m : gmap Z Z) (id off : Z) (progs : list (Z * list Z)) : Prop :=
  match progs with
  | [] => True
  | (pipe, buf) :: rest =>
      m !! stacks.get_offset_register id = Some (4 * off)
      ∧ stored_at m (stacks.StackMemoryBegin + 4 * off) (upload_contents pipe buf)
      ∧ placed m (id + 1) (off + zlen buf + 3) rest
  end.

(** The words needed with their start, end and gap. *)
Definition words_needed (progs : list (Z * list Z)) : Z :=
  Z.of_nat (sum_list_with (λ p : Z * list Z, length p.2 + 3)%nat progs).

(** What a stack builder amounts to. *)
Definition compiles {S : Type} `{DialogLaws S} (b : StackCommandBuilder) (prog : Z * list Z) : Prop :=
  prog.1 = output_pipe b ∧ make_stack_buffer (getCommands b) = Return prog.2
  ∧ prog.2 ≠ [] ∧ Forall is_u32 prog.2 ∧ d_uploadable prog.2.

Definition one_uploaded (id off pipe : Z) (buf : list Z) (m : gmap Z Z) : gmap Z Z :=
  <[stacks.get_offset_register id := 4 * off]> (foldl apply_write m (make_stack_upload_commands pipe (4 * off) buf)).

Lemma offset_register id : 0 ≤ id < 256 → stacks.get_offset_register id = 0x1200 + 4 * id.
Proof.
  intros Hi. unfold stacks.get_offset_register, stacks.Stack0OffsetRegister, AddressIncrement. unfold u16. rewrite Z.mod_small; lia.
Qed.

Lemma zlen_upload_contents pipe buf : zlen (upload_contents pipe buf) = zlen buf + 2.
Proof. unfold upload_contents. rewrite !zlen_app. unfold zlen. cbn. lia. Qed.

Lemma one_uploaded_spec id off pipe buf m :
  0 ≤ id < 256 → 0 ≤ off → off + zlen buf + 3 ≤ stacks.StackMemoryWords →
  let m' := one_uploaded id off pipe buf m in
  m' !! stacks.get_offset_register id = Some (4 * off)
  ∧ stored_at m' (stacks.StackMemoryBegin + 4 * off) (upload_contents pipe buf)
  ∧ ∀ k, k ≠ 0x1200 + 4 * id → k < stacks.StackMemoryBegin + 4 * off ∨ stacks.StackMemoryBegin + 4 * (off + zlen buf + 3) ≤ k → m' !! k = m !! k.
Proof.
  intros Hid Ho Hf m'. unfold m', one_uploaded. rewrite offset_register by done. rewrite upload_commands_writes.
  unfold stacks.StackMemoryBegin, stacks.StackMemoryWords in *. pose proof (zlen_nonneg buf). pose proof (zlen_upload_contents pipe buf) as Hl.
  destruct (stored_at_writes (upload_contents pipe buf) m (8192 + 4 * off)) as [Hs Hk]; [lia|lia|]. split_and!.
  - apply lookup_insert_eq.
  - intros i w Hi. rewrite lookup_insert_ne by lia. by apply Hs.
  - intros k Hne Hr. rewrite lookup_insert_ne by lia. apply Hk. lia.
Qed.

Section Layout.
Context {S : Type} {HD : Dialog S} {HL : DialogLaws S}.

Lemma words_needed_cons pipe buf progs : words_needed ((pipe, buf) :: progs) = zlen buf + 3 + words_needed progs.
Proof. unfold words_needed, zlen. cbn. lia. Qed.

Lemma words_needed_nonneg progs : 0 ≤ words_needed progs.
Proof. unfold words_needed. lia. Qed.

Lemma pipe_range b : is_u8 (output_pipe b).
Proof. unfold output_pipe. by destruct (m_suppressPipeOutput b). Qed.

Lemma setup_stacks_ok builders progs id off s :
  d_good s → Forall2 compiles builders progs → 1 ≤ id → id + zlen progs ≤ d_getStackCount s → d_getStackCount s ≤ 16 →
  0 ≤ off → off + words_needed progs ≤ stacks.StackMemoryWords →
  ∃ s', setup_stacks id off builders s = Done (no_error, s') ∧ d_good s'
    ∧ d_getStackCount s' = d_getStackCount s ∧ placed (d_regs s') id off progs
    ∧ ∀ k, k < 0x1200 + 4 * id ∨ 0x1200 + 4 * (id + zlen progs) ≤ k → k < stacks.StackMemoryBegin + 4 * off ∨ stacks.StackMemoryEnd ≤ k →
        d_regs s' !! k = d_regs s !! k.
Proof.
  intros Hg Hc. revert id off s Hg; induction Hc as [|b [pipe buf] builders progs Hc Hcs IH]; intros id off s Hg Hid Hn Hcnt Ho Hw.
  { exists s. split_and!; done. }
  destruct Hc as (Hpipe & Hbuf & Hne & Hu & Hup). cbn [fst snd] in *. rewrite zlen_cons, words_needed_cons in *. pose proof (zlen_nonneg progs).
  pose proof (words_needed_nonneg progs). pose proof (zlen_nonneg buf). cbn [setup_stacks]. unfold mbind, SM_bind, get_state, lift. rewrite Hbuf.
  rewrite Z.geb_leb. destruct (Z.leb_spec (d_getStackCount s) id); [lia|]. cbv zeta. unfold AddressIncrement.
  unfold stacks.StackMemoryWords, stacks.StackMemoryEnd, stacks.StackMemoryBegin, stacks.StackMemoryBytes, stacks.StackMemoryWords in *.
  assert (Ha : u16 (off * 4) = 4 * off) by (unfold u16; rewrite Z.mod_small; lia). rewrite Ha.
  assert (He : u16 (4 * off + zlen buf * 4) = 4 * off + zlen buf * 4) by (unfold u16; rewrite Z.mod_small; lia). rewrite He.
  rewrite Z.geb_leb. destruct (Z.leb_spec (8192 + 2048 * 4) (8192 + (4 * off + zlen buf * 4))); [lia|]. rewrite <- Hpipe.
  destruct (law_upload s pipe (4 * off) buf Hg Hne Hup Hu) as (s1 & -> & Hg1 & Hm1 & Hc1);
    [rewrite Hpipe; apply pipe_range|lia|unfold stacks.StackMemoryEnd, stacks.StackMemoryBegin, stacks.StackMemoryBytes, stacks.StackMemoryWords; lia|].
  change (failed no_error) with false. cbv iota.
  destruct (law_write s1 (stacks.get_offset_register id) (4 * off) Hg1) as (s2 & -> & Hg2 & Hm2 & Hc2);
    [rewrite offset_register by lia; unfold is_u16; lia|rewrite offset_register by lia; unfold stacks.Stack0TriggerRegister; lia|unfold is_u32; lia|].
  change (failed no_error) with false. cbv iota. rewrite Hm1 in Hm2. fold (one_uploaded id off pipe buf (d_regs s)) in Hm2.
  assert (Hi : u8 (id + 1) = id + 1) by (unfold u8; rewrite Z.mod_small; lia). rewrite Hi.
  assert (Hx : u16 (off + zlen buf + 1 + 2) = off + zlen buf + 3) by (unfold u16; rewrite Z.mod_small; lia). rewrite Hx.
  destruct (IH (id + 1) (off + zlen buf + 3) s2 Hg2) as (s3 & E3 & Hg3 & Hc3 & Hp3 & Hk3); [lia|congruence || lia|congruence || lia|lia|lia|].
  exists s3. split_and!; [done|done|congruence| |].
  - destruct (one_uploaded_spec id off pipe buf (d_regs s)) as (Hone & Htwo & _); [lia|lia|unfold stacks.StackMemoryWords; lia|]. rewrite <- Hm2 in *.
    cbn [placed]. split_and!; [| |done].
    + rewrite Hk3; [done|rewrite offset_register by lia; lia|rewrite offset_register by lia; lia].
    + intros i w Hi2. pose proof (lookup_lt_Some _ _ _ Hi2) as Hlt. pose proof (zlen_upload_contents pipe buf) as Hl. unfold zlen in Hl.
      unfold stacks.StackMemoryBegin in *. rewrite Hk3; [by apply Htwo|lia|unfold zlen; lia].
  - intros k Hk1 Hk2. rewrite Hk3 by lia. rewrite Hm2. apply one_uploaded_spec; unfold stacks.StackMemoryWords, stacks.StackMemoryBegin; lia.
Qed.

(** ** Reading a stack back *)

(** No word of the stack looks like its end. *)
Definition no_end (buf : list Z) : Prop := Forall (λ w, word_type w ≠ StackCommandType.StackEnd) buf.

Lemma read_word_step fuel a v contents s w :
  d_good s → 0 ≤ a < stacks.StackMemoryEnd → d_regs s !! a = Some w →
  ∃ s1, d_after s s1 (d_regs s) ∧ read_stack_words (Datatypes.S fuel) a v contents s =
    if word_type w =? StackCommandType.StackEnd then Done ((contents ++ [w], no_error), s1)
    else read_stack_words fuel (a + 4) w (contents ++ [w]) s1.
Proof.
  unfold stacks.StackMemoryEnd, stacks.StackMemoryBegin, stacks.StackMemoryBytes, stacks.StackMemoryWords. intros Hg Ha Hw.
  cbn [read_stack_words]. rewrite Z.geb_leb. unfold stacks.StackMemoryEnd, stacks.StackMemoryBegin, stacks.StackMemoryBytes, stacks.StackMemoryWords.
  destruct (Z.leb_spec (8192 + 2048 * 4) a); [lia|]. unfold mbind, SM_bind.
  assert (Hu : u16 a = a) by (unfold u16; rewrite Z.mod_small; lia). rewrite Hu.
  destruct (law_read s a v Hg) as (s1 & -> & Hs1); [unfold is_u16; lia|]. exists s1. split; [done|].
  change (failed no_error) with false. unfold reg. rewrite Hw. cbn [default]. unfold AddressIncrement.
  assert (Hu4 : u32 (a + 4) = a + 4) by (unfold u32; rewrite Z.mod_small; lia). rewrite Hu4. unfold id. by destruct (word_type w =? _).
Qed.

Lemma read_words_ok ws last fuel a v contents s :
  no_end ws → word_type last = StackCommandType.StackEnd → d_good s → stored_at (d_regs s) a (ws ++ [last]) →
  0 ≤ a → a + 4 * (zlen ws + 1) ≤ stacks.StackMemoryEnd + 3 → (length ws < fuel)%nat →
  ∃ s', read_stack_words fuel a v contents s = Done ((contents ++ ws ++ [last], no_error), s') ∧ d_after s s' (d_regs s).
Proof.
  intros Hne Hlast. revert fuel a v contents s. induction ws as [|w ws IH]; intros fuel a v contents s Hg Hs Ha Hb Hf;
    (destruct fuel as [|fuel]; [cbn in Hf; lia|]); pose proof (Hs 0%nat _ eq_refl) as H0; rewrite Z.add_0_r in H0.
  - change (zlen (@nil Z)) with 0 in Hb. destruct (read_word_step fuel a v contents s last Hg) as (s1 & Hs1 & ->); [lia|done|].
    rewrite Hlast, Z.eqb_refl. by exists s1.
  - apply Forall_cons in Hne as [Hw Hws]. rewrite zlen_cons in Hb. pose proof (zlen_nonneg ws).
    destruct (read_word_step fuel a v contents s w Hg) as (s1 & (Hg1 & Hm1 & Hc1) & ->); [lia|done|]. apply Z.eqb_neq in Hw. rewrite Hw.
    destruct (IH Hws fuel (a + 4) w (contents ++ [w]) s1 Hg1) as (s2 & E & Hg2 & Hm2 & Hc2); [|lia|lia|cbn in Hf; lia|].
    + rewrite Hm1. intros i x Hi. specialize (Hs (Datatypes.S i) x Hi). rewrite <- Hs. f_equal. lia.
    + exists s2. rewrite E. rewrite <- app_assoc. cbn [app]. split; [done|]. split_and!; congruence.
Qed.

Lemma start_type pipe : is_u8 pipe → word_type (u32 (StackCommandType.StackStart ≪ stack_commands.CmdShift) .| (pipe ≪ stack_commands.CmdArg0Shift)) = StackCommandType.StackStart.
Proof.
  intros Hp. rewrite upload_start_word by done. unfold word_type. unfold is_u8 in Hp.
  by destruct (stack_word_fields (CommandType_value StackStart) pipe 0) as (-> & _); [apply CommandType_value_range|lia|lia|].
Qed.

Lemma read_stack_contents_ok pipe buf a s :
  no_end buf → is_u8 pipe → d_good s → stored_at (d_regs s) a (upload_contents pipe buf) →
  0 ≤ a → a + 4 * (zlen buf + 2) ≤ stacks.StackMemoryEnd + 3 →
  ∃ s', read_stack_contents a s = Done ((upload_contents pipe buf, no_error), s') ∧ d_after s s' (d_regs s).
Proof.
  intros Hne Hp Hg Hs Ha Hb. pose proof (zlen_nonneg buf). unfold read_stack_contents, mbind, SM_bind.
  unfold stacks.StackMemoryEnd, stacks.StackMemoryBegin, stacks.StackMemoryBytes, stacks.StackMemoryWords in Hb.
  destruct (law_read s a 0 Hg) as (s1 & -> & Hg1 & Hm1 & Hc1); [unfold is_u16; lia|]. change (failed no_error) with false. cbv iota.
  unfold upload_contents in Hs. cbn [app] in Hs. set (h := _ .| _) in Hs. pose proof (Hs 0%nat h eq_refl) as H0. rewrite Z.add_0_r in H0.
  assert (Hr : reg (d_regs s) a = h) by (unfold reg; by rewrite H0). rewrite Hr.
  pose proof (start_type pipe Hp) as Ht. fold h in Ht. destruct (Z.eqb_spec h 0) as [E|_]; [by rewrite E in Ht|]. rewrite Ht, Z.eqb_refl. cbn [negb].
  destruct (read_words_ok buf (u32 (StackCommandType.StackEnd ≪ stack_commands.CmdShift)) (Z.to_nat (stacks.StackMemoryEnd / AddressIncrement + 1))
    (a + 4) 0 [h] s1 Hne eq_refl Hg1) as (s2 & E & Hg2 & Hm2 & Hc2); [| | | |exists s2; split; [exact E|split_and!; congruence]].
  - rewrite Hm1. intros i x Hi. specialize (Hs (Datatypes.S i) x Hi). rewrite <- Hs. f_equal. lia.
  - lia.
  - unfold stacks.StackMemoryEnd, stacks.StackMemoryBegin, stacks.StackMemoryBytes, stacks.StackMemoryWords. lia.
  - change (stacks.StackMemoryEnd / AddressIncrement + 1) with 4097. unfold zlen in Hb. lia.
Qed.

Lemma placed_lookup progs m id off (i : nat) pipe buf :
  placed m id off progs → progs !! i = Some (pipe, buf) →
  ∃ o, off ≤ o ∧ o + zlen buf + 3 ≤ off + words_needed progs ∧ m !! stacks.get_offset_register (id + Z.of_nat i) = Some (4 * o)
    ∧ stored_at m (stacks.StackMemoryBegin + 4 * o) (upload_contents pipe buf).
Proof.
  revert id off i; induction progs as [|[pipe0 buf0] progs IH]; intros id off i Hp Hi; [done|]. rewrite words_needed_cons.
  pose proof (words_needed_nonneg progs). destruct Hp as (H1 & H2 & H3). destruct i as [|i].
  - injection Hi as -> ->. exists off. rewrite Z.add_0_r. split_and!; [lia|lia|done|done].
  - destruct (IH _ _ _ H3 Hi) as (o & Ho1 & Ho2 & Ho3 & Ho4). exists o. pose proof (zlen_nonneg buf0). split_and!; [lia|lia| |done].
    rewrite <- Ho3. do 2 f_equal. lia.
Qed.

Lemma trigger_register id : 0 ≤ id < 256 → stacks.get_trigger_register id = 0x1100 + 4 * id.
Proof.
  intros Hi. unfold stacks.get_trigger_register, stacks.Stack0TriggerRegister, AddressIncrement. unfold u16. rewrite Z.mod_small; lia.
Qed.

Lemma read_stack_info_ok id o pipe buf s :
  d_good s → 0 ≤ id < 16 → 0 ≤ o → o + zlen buf + 3 ≤ stacks.StackMemoryWords → no_end buf → is_u8 pipe →
  d_regs s !! stacks.get_offset_register id = Some (4 * o) → stored_at (d_regs s) (stacks.StackMemoryBegin + 4 * o) (upload_contents pipe buf) →
  ∃ s', read_stack_info id s = Done ((mkStackInfo (reg (d_regs s) (stacks.get_trigger_register id)) (stacks.get_trigger_register id) (4 * o)
      (stacks.get_offset_register id) (stacks.StackMemoryBegin + 4 * o) (upload_contents pipe buf), no_error), s')
    ∧ d_after s s' (d_regs s).
Proof.
  intros Hg Hid Ho Hw Hne Hp Hoff Hst. unfold stacks.StackMemoryWords in Hw. pose proof (zlen_nonneg buf).
  unfold read_stack_info. rewrite Z.geb_leb. destruct (Z.leb_spec stacks.StackCount id); [unfold stacks.StackCount in *; lia|]. cbv zeta.
  unfold mbind, SM_bind. destruct (law_read s (stacks.get_trigger_register id) 0 Hg) as (s1 & -> & Hg1 & Hm1 & Hc1);
    [rewrite trigger_register by lia; unfold is_u16; lia|]. change (failed no_error) with false. cbv iota.
  destruct (law_read s1 (stacks.get_offset_register id) 0 Hg1) as (s2 & -> & Hg2 & Hm2 & Hc2);
    [rewrite offset_register by lia; unfold is_u16; lia|]. change (failed no_error) with false. cbv iota.
  rewrite Hm1. assert (Hr : reg (d_regs s) (stacks.get_offset_register id) = 4 * o) by (unfold reg; by rewrite Hoff). rewrite Hr.
  assert (Ha : u16 (stacks.StackMemoryBegin + 4 * o) = stacks.StackMemoryBegin + 4 * o)
    by (unfold stacks.StackMemoryBegin; unfold u16; rewrite Z.mod_small; lia). rewrite Ha.
  destruct (read_stack_contents_ok pipe buf (stacks.StackMemoryBegin + 4 * o) s2 Hne Hp Hg2) as (s3 & -> & Hg3 & Hm3 & Hc3);
    [by rewrite Hm2, Hm1|unfold stacks.StackMemoryBegin; lia
    |unfold stacks.StackMemoryEnd, stacks.StackMemoryBegin, stacks.StackMemoryBytes, stacks.StackMemoryWords; lia|].
  exists s3. split; [reflexivity|]. split_and!; congruence.
Qed.

(** For an interface whose registers work, setting up readout stacks that fit the stack
    memory succeeds: the stacks lie one after the other from word 257 on with a gap of one
    word, each offset register points to its stack, and every register outside the
    offset registers and the stack memory behind the immediate stack keeps its value.
    Reading a stack back returns exactly the words that were uploaded with their start
    and end, provided that no word of it looks like the end of a stack. *)
Theorem readout_stacks_roundtrip builders progs s :
  d_good s → Forall2 compiles builders progs → 1 + zlen progs ≤ d_getStackCount s → d_getStackCount s ≤ 16 →
  257 + words_needed progs ≤ stacks.StackMemoryWords →
  ∃ s', setup_readout_stacks builders s = Done (no_error, s') ∧ d_good s' ∧ placed (d_regs s') 1 257 progs
    ∧ (∀ k, k < 0x1204 ∨ 0x1240 ≤ k → k < stacks.StackMemoryBegin + 4 * 257 ∨ stacks.StackMemoryEnd ≤ k → d_regs s' !! k = d_regs s !! k)
    ∧ ∀ (i : nat) pipe buf, progs !! i = Some (pipe, buf) → no_end buf →
        ∃ info s'', read_stack_info (1 + Z.of_nat i) s' = Done ((info, no_error), s'') ∧ si_contents info = upload_contents pipe buf
          ∧ si_startAddress info = stacks.StackMemoryBegin + si_offset info.
Proof.
  intros Hg Hc Hn Hcnt Hw. destruct (setup_stacks_ok builders progs 1 257 s Hg Hc ltac:(lia) Hn Hcnt ltac:(lia) Hw)
    as (s' & E & Hg' & Hc' & Hp & Hk). exists s'. split_and!; [exact E|done|done|intros k H1 H2; apply Hk; lia|].
  intros i pipe buf Hi Hne. destruct (placed_lookup progs _ 1 257 i pipe buf Hp Hi) as (o & Ho1 & Ho2 & Ho3 & Ho4).
  destruct (Forall2_lookup_r _ _ _ _ _ Hc Hi) as (b & _ & Hb & _). cbn [fst] in Hb. pose proof (lookup_lt_Some _ _ _ Hi) as Hlt.
  destruct (read_stack_info_ok (1 + Z.of_nat i) o pipe buf s' Hg') as (s'' & E'' & _); [unfold zlen in Hn; lia|lia|lia|done|rewrite Hb; apply pipe_range|done|done|].
  by eexists _, s''.
Qed.

End Layout.

(** ** DAQ mode and triggers *)

Lemma writes_keep cmds m k : k ∉ su_address <$> cmds → foldl apply_write m cmds !! k = m !! k.
Proof.
  revert m; induction cmds as [|c cmds IH]; intros m Hk; [done|]. cbn [fmap list_fmap] in Hk. apply not_elem_of_cons in Hk as [H1 H2]. cbn [foldl].
  rewrite IH by done. unfold apply_write. destruct (su_type c); try done. by apply lookup_insert_ne.
Qed.

(** A register that is only written with [v]. *)
Lemma writes_value cmds m k v :
  Forall (λ c, su_type c = WriteLocal ∧ (su_address c = k → su_value c = v)) cmds → k ∈ su_address <$> cmds →
  foldl apply_write m cmds !! k = Some v.
Proof.
  intros Hc. revert m; induction Hc as [|c cmds [Ht Hv] Hcs IH]; intros m Hk; [by apply not_elem_of_nil in Hk|]. cbn [foldl].
  destruct (decide (k ∈ su_address <$> cmds)) as [Hin|Hn]; [by apply IH|]. rewrite writes_keep by done.
  cbn [fmap list_fmap] in Hk. apply elem_of_cons in Hk as [->|]; [|done]. unfold apply_write. rewrite Ht, Hv by done. apply lookup_insert_eq.
Qed.

(** Writes to the trigger registers of the stacks from [id] on. *)
Definition trigger_writes (id : Z) (values : list Z) : list SuperCommand :=
  imap (λ i v, mkSuper WriteLocal (stacks.get_trigger_register (id + Z.of_nat i)) v) values.

Lemma trigger_writes_cons id v values :
  trigger_writes id (v :: values) = mkSuper WriteLocal (stacks.get_trigger_register id) v :: trigger_writes (id + 1) values.
Proof.
  unfold trigger_writes. rewrite imap_cons. f_equal; [f_equal; f_equal; lia|]. apply imap_ext. intros i w _. unfold compose. do 2 f_equal. lia.
Qed.

Lemma elem_trigger_writes id values c :
  c ∈ trigger_writes id values → ∃ (i : nat) v, values !! i = Some v ∧ c = mkSuper WriteLocal (stacks.get_trigger_register (id + Z.of_nat i)) v.
Proof.
  intros (i & Hi)%list_elem_of_lookup. unfold trigger_writes in Hi. rewrite list_lookup_imap in Hi.
  destruct (values !! i) as [v|] eqn:E; [|done]. injection Hi as <-. by exists i, v.
Qed.

Lemma trigger_writes_in id values (i : nat) v :
  values !! i = Some v → stacks.get_trigger_register (id + Z.of_nat i) ∈ su_address <$> trigger_writes id values.
Proof.
  intros Hi. apply list_elem_of_fmap. exists (mkSuper WriteLocal (stacks.get_trigger_register (id + Z.of_nat i)) v).
  split; [done|]. apply list_elem_of_lookup. exists i. unfold trigger_writes. by rewrite list_lookup_imap, Hi.
Qed.

Lemma add_triggers_spec n idx id values sb :
  (idx + n ≤ length values)%nat → 0 ≤ id → id + Z.of_nat n ≤ 255 →
  add_triggers n idx id values sb = Return (sb ++ trigger_writes id (take n (drop idx values))).
Proof.
  revert idx id sb; induction n as [|n IH]; intros idx id sb Hn Hid Hb; [cbn; by rewrite app_nil_r|]. cbn [add_triggers].
  destruct (values !! idx) as [v|] eqn:E; [|apply lookup_ge_None in E; lia].
  assert (Hu : u8 (id + 1) = id + 1) by (unfold u8; rewrite Z.mod_small; lia). rewrite Hu, IH by lia.
  rewrite (drop_S _ _ _ E). cbn [take]. rewrite trigger_writes_cons. unfold su_addWriteLocal. by rewrite <- app_assoc.
Qed.

Lemma disable_commands rnd :
  get_disable_daq_mode_and_triggers_commands rnd =
  mkSuper ReferenceWord 0 (rnd mod 0xffff) :: mkSuper WriteLocal registers.daq_mode 0 :: trigger_writes 0 (replicate 16 0).
Proof. reflexivity. Qed.

Lemma ref_range rnd : is_u16 (rnd mod 0xffff).
Proof. pose proof (Z.mod_pos_bound rnd 0xffff ltac:(lia)). unfold is_u16. lia. Qed.

Lemma trigger_writes_ok id values :
  0 < id → id + zlen values ≤ 16 → Forall is_u32 values →
  Forall register_access (trigger_writes id values) ∧ triggers (trigger_writes id values) = false ∧ zlen (trigger_writes id values) = zlen values
  ∧ Forall (λ c, su_type c = WriteLocal) (trigger_writes id values).
Proof.
  intros Hid Hn Hv. revert id Hid Hn. induction Hv as [|v values Hv Hvs IH]; intros id Hid Hn; [done|]. rewrite trigger_writes_cons.
  rewrite zlen_cons in Hn. rewrite !zlen_cons. pose proof (zlen_nonneg values). destruct (IH (id + 1)) as (H1 & H2 & H3 & H4); [lia|lia|].
  rewrite trigger_register by lia. split_and!; [|cbn [triggers existsb]; unfold triggers in H2; rewrite H2, orb_false_r|lia|by apply Forall_cons].
  - apply Forall_cons. split; [|done]. right. cbn. split_and!; [done|unfold is_u16; lia|done].
  - unfold starts. cbn [su_type su_address]. destruct (Z.eqb_spec (0x1100 + 4 * id) stacks.Stack0TriggerRegister) as [E|_]; [unfold stacks.Stack0TriggerRegister in E; lia|].
    by rewrite andb_false_r.
Qed.

Section Triggers.
Context {S : Type} {HD : Dialog S} {HL : DialogLaws S}.

(** For an interface whose registers work, one transaction switches DAQ mode off and
    clears the triggers of all 16 stacks, and one transaction sets the triggers of the
    readout stacks to the given values, with 0 for missing ones; no other register
    changes. *)
Theorem triggers_written s rnd values :
  d_good s → 2 ≤ d_getStackCount s ≤ 16 → Forall is_u32 values →
  (∃ s', disable_daq_mode_and_triggers rnd s = Done (no_error, s') ∧ d_good s' ∧ d_regs s' !! registers.daq_mode = Some 0
    ∧ (∀ id, 0 ≤ id < 16 → d_regs s' !! stacks.get_trigger_register id = Some 0)
    ∧ ∀ k, k ≠ registers.daq_mode → k < 0x1100 ∨ 0x1140 ≤ k → d_regs s' !! k = d_regs s !! k)
  ∧ ∃ s', setup_readout_triggers rnd values s = Done (no_error, s') ∧ d_good s'
    ∧ (∀ i : nat, 1 + Z.of_nat i < d_getStackCount s → d_regs s' !! stacks.get_trigger_register (1 + Z.of_nat i) = Some (default 0 (values !! i)))
    ∧ ∀ k, k < 0x1104 ∨ 0x1140 ≤ k → d_regs s' !! k = d_regs s !! k.
Proof.
  intros Hg Hcnt Hv. split.
  - set (cmds := mkSuper WriteLocal registers.daq_mode 0 :: trigger_writes 0 (replicate 16 0)).
    destruct (law_super s (rnd mod 0xffff) cmds [] Hg (ref_range rnd)) as (s' & resp & E & Hg' & Hm & _);
      [repeat (apply Forall_cons; split; [by right|]); by apply Forall_nil|done|done|].
    exists s'. unfold disable_daq_mode_and_triggers, mbind, SM_bind. rewrite disable_commands. fold cmds. rewrite E. split_and!; [done|done|..]; rewrite ?Hm.
    + apply writes_value; [by repeat (apply Forall_cons; split; [done|])|by left].
    + intros id Hid. rewrite trigger_register by lia. apply writes_value; [repeat (apply Forall_cons; split; [done|]); by apply Forall_nil|].
      right. rewrite <- (trigger_register id) by lia. rewrite <- (Z2Nat.id id) by lia.
      apply (trigger_writes_in 0 (replicate 16 0) (Z.to_nat id) 0). apply lookup_replicate_2. lia.
    + intros k H1 H2. apply writes_keep. intros (c & -> & Hc)%list_elem_of_fmap. apply elem_of_cons in Hc as [->|Hc]; [done|].
      apply elem_trigger_writes in Hc as (i & v & Hi & ->). apply lookup_lt_Some in Hi. rewrite length_replicate in Hi. cbn [su_address] in H2.
      rewrite trigger_register in H2 by lia. lia.
  - unfold setup_readout_triggers, setup_readout_triggers_array, mbind, SM_bind, get_state, lift.
    change (Z.to_nat stacks.ReadoutStackCount) with 15%nat. set (vs := take 15 (values ++ replicate 15 0)).
    assert (Hlen : length vs = 15%nat) by (unfold vs; rewrite length_take, length_app, length_replicate; lia).
    set (n := Z.to_nat (u32 (d_getStackCount s - 1))). assert (Hn : Z.of_nat n = d_getStackCount s - 1) by (unfold n, u32; rewrite Z.mod_small; lia).
    rewrite add_triggers_spec by (rewrite ?Hlen; unfold stacks.FirstReadoutStackID; lia). rewrite drop_0. change stacks.FirstReadoutStackID with 1.
    assert (Hvs : Forall is_u32 vs) by (apply Forall_take, Forall_app; split; [done|by apply Forall_replicate]).
    destruct (trigger_writes_ok 1 (take n vs)) as (H1 & H2 & H3 & H4); [lia|unfold zlen; rewrite length_take, Hlen; lia|by apply Forall_take|].
    set (cmds := trigger_writes 1 (take n vs)) in *.
    destruct (law_super s (rnd mod 0xffff) cmds [] Hg (ref_range rnd) H1 H2) as (s' & resp & E & Hg' & Hm & _).
    { rewrite H3. unfold zlen. rewrite length_take, Hlen. lia. }
    change (su_addReferenceWord [] (rnd mod 0xffff) ++ cmds) with (mkSuper ReferenceWord 0 (rnd mod 0xffff) :: cmds). rewrite E.
    exists s'. split_and!; [done|done|..].
    + intros i Hi. rewrite Hm. assert (Hlook : take n vs !! i = Some (default 0 (values !! i))).
      { rewrite lookup_take_lt by lia. unfold vs. rewrite lookup_take_lt by lia. destruct (values !! i) as [v|] eqn:Ev.
        - by rewrite (lookup_app_l_Some _ _ _ _ Ev).
        - apply lookup_ge_None in Ev. rewrite lookup_app_r by done. apply lookup_replicate_2. lia. }
      apply writes_value.
      * apply Forall_forall. intros c Hc. apply elem_trigger_writes in Hc as (j & v & Hj & ->). cbn [su_type su_address su_value]. split; [done|].
        pose proof (lookup_lt_Some _ _ _ Hj) as Hlt. rewrite length_take in Hlt. rewrite !trigger_register by lia. intros Heq.
        assert (j = i) by lia. subst j. rewrite Hlook in Hj. by injection Hj.
      * exact (trigger_writes_in 1 _ i _ Hlook).
    + intros k Hk. rewrite Hm. apply writes_keep. intros (c & -> & Hc)%list_elem_of_fmap. apply elem_trigger_writes in Hc as (j & v & Hj & ->).
      apply lookup_lt_Some in Hj. rewrite length_take in Hj. cbn [su_address] in Hk. rewrite trigger_register in Hk by lia. lia.
Qed.

End Triggers.

(** ** Witnesses: the class [MVLC] with the simulated controller *)

Definition sim_mvlc : Mvlc_t (D := Sim USB false) := mkMvlc (sim_api ∅ ∅) true true 0x5008 0x0040.

Lemma sim_mvlc_good : d_good sim_mvlc.
Proof. exact (sim_ready (t := USB) (lossy := false) ∅ ∅ : mvlc_good sim_mvlc). Qed.

Definition readout_builder : StackCommandBuilder :=
  addWriteMarker 0xFEED (addVMERead 0x01000000 vme_amods.A32 VMEDataWidth.D16 false true empty_builder).

Lemma readout_stacks_roundtrip_witness :
  ∃ s', setup_readout_stacks [readout_builder; readout_builder] sim_mvlc = Done (no_error, s') ∧
    ∃ info s'', read_stack_info 2 s' = Done ((info, no_error), s'')
      ∧ si_contents info = [0xF3010000; 0x12090001; 0x01000000; 0xC2000000; 0xFEED; 0xF4000000].
Proof.
  set (prog := (1, [0x12090001; 0x01000000; 0xC2000000; 0xFEED])).
  assert (Hc : compiles (S := Mvlc_t (D := Sim USB false)) readout_builder prog).
  { split_and!; [reflexivity|reflexivity|done| |by intros [=]]. repeat (apply Forall_cons; split; [split; lia|]). by apply Forall_nil. }
  destruct (readout_stacks_roundtrip [readout_builder; readout_builder] [prog; prog] sim_mvlc) as (s' & E & _ & _ & _ & Hr);
    [apply sim_mvlc_good|by repeat constructor|done|done|done|].
  exists s'. split; [exact E|]. destruct (Hr 1%nat _ _ eq_refl) as (info & s'' & E' & Hi & _); [|exists info, s''; split; [exact E'|rewrite Hi; reflexivity]].
  repeat (apply Forall_cons; split; [by vm_compute|]). by apply Forall_nil.
Defined.

Lemma triggers_written_witness :
  ∃ s', setup_readout_triggers 4711 [0x21; 0x43] sim_mvlc = Done (no_error, s') ∧ d_regs s' !! 0x1108 = Some 0x43 ∧ d_regs s' !! 0x110C = Some 0.
Proof.
  destruct (triggers_written sim_mvlc 4711 [0x21; 0x43]) as (_ & s' & E & _ & Hr & _);
    [apply sim_mvlc_good|done|repeat (apply Forall_cons; split; [split; lia|]); by apply Forall_nil|].
  exists s'. split_and!; [exact E|exact (Hr 1%nat ltac:(done))|exact (Hr 2%nat ltac:(done))].
Defined.
