(* ===== verification/StackExecutor.v ===== *)
(** * Direct execution of commands: [mvlc_stack_executor.h/.cc]

    Commands of a list are run one by one through the class [MVLC]; the first error ends
    the run unless it is a VME error and the options say to go on.  With a controller that
    executes VME accesses the results are those of an interpreter on the bus. *)

From S2P Require Import Prelude Effects Constants Frames Commands CommandsFacts StackErrors Errors CmdPipe CmdPipeFacts CmdApi CmdApiLaws CmdApiFacts CmdApiController CmdApiExec ReadoutSetup ReadoutSetupFacts.

(* mvlc_stack_executor.h:34-39 CommandExecResult *)
Record CommandExecResult : Type := mkExecResult { er_cmd : StackCommand; er_ec : error_code; er_response : list Z }.

(* mvlc_stack_executor.h:41-49 CommandExecOptions *)
Record CommandExecOptions : Type := mkExecOptions { ignoreDelays : bool; continueOnVMEError : bool }.

Section Executor.
Context {D : Type} {HC : Connection D}.

(** A single read; the value is 0 when the read fails. *)
(* mvlc_stack_executor.cc:51-62 run_command *)
Definition run_single_read (cmd : StackCommand) : SM (Mvlc_t (D := D)) CommandExecResult :=
  '(ec, value) ← (mvlc_vmeRead (sc_address cmd) 0 (sc_amod cmd) (sc_dataWidth cmd) : SM Mvlc_t (error_code * Z));
  let value := if sc_dataWidth cmd =? VMEDataWidth.D16 then value .& 0xffff else value in
  mret (mkExecResult cmd ec [value]).

Definition of_block (cmd : StackCommand) (f : SM (Mvlc_t (D := D)) (error_code * Dest)) : SM (Mvlc_t (D := D)) CommandExecResult :=
  '(ec, dest) ← f; mret (mkExecResult cmd ec (dest_words dest)).

(** Sleeping for a [SoftwareDelay] has no effect on the state. *)
(* mvlc_stack_executor.cc:15-115 run_command *)
Definition run_command (cmd : StackCommand) (options : CommandExecOptions) : SM (Mvlc_t (D := D)) CommandExecResult :=
  match sc_type cmd with
  | Invalid | StackStart | StackEnd | WriteMarker | WriteSpecial | Wait | SignalAccu | MaskShiftAccu | SetAccu | ReadToAccu
  | CompareLoopAccu | Custom => mret (mkExecResult cmd no_error [])
  | SoftwareDelay => mret (mkExecResult cmd no_error [])
  | VMERead | VMEReadMem =>
      if negb (vme_amods.is_block_mode (sc_amod cmd)) then run_single_read cmd
      else
        let fifo := bool_decide (sc_type cmd = VMERead) in
        if vme_amods.is_esst64_mode (sc_amod cmd)
        then of_block cmd (mvlc_vmeBlockRead2eSST (sc_address cmd) (sc_rate cmd) (sc_transfers cmd) (Vec []) fifo)
        else of_block cmd (mvlc_vmeBlockRead (sc_address cmd) (sc_amod cmd) (sc_transfers cmd) (Vec []) fifo)
  | VMEReadSwapped | VMEReadMemSwapped =>
      if negb (vme_amods.is_block_mode (sc_amod cmd)) then run_single_read cmd
      else
        let fifo := bool_decide (sc_type cmd = VMEReadSwapped) in
        if vme_amods.is_esst64_mode (sc_amod cmd)
        then of_block cmd (mvlc_vmeBlockReadSwapped2eSST (sc_address cmd) (sc_rate cmd) (sc_transfers cmd) (Vec []) fifo)
        else of_block cmd (mvlc_vmeBlockReadSwapped (sc_address cmd) (sc_amod cmd) (sc_transfers cmd) (Vec []) fifo)
  | VMEWrite =>
      ec ← (mvlc_vmeWrite (sc_address cmd) (sc_value cmd) (sc_amod cmd) (sc_dataWidth cmd) : SM Mvlc_t error_code);
      mret (mkExecResult cmd ec [])
  end.

(** The results that end the run. *)
(* mvlc_stack_executor.cc:132-136 run_commands *)
Definition stops (options : CommandExecOptions) (r : CommandExecResult) : bool :=
  failed (er_ec r) && (negb (is_type (er_ec r) ErrorType.VMEError) || negb (continueOnVMEError options)).

(* mvlc_stack_executor.cc:117-140 run_commands *)
Fixpoint run_commands (commands : list StackCommand) (options : CommandExecOptions) : SM (Mvlc_t (D := D)) (list CommandExecResult) :=
  match commands with
  | [] => mret []
  | cmd :: rest =>
      result ← run_command cmd options;
      if stops options result then mret [result]
      else results ← run_commands rest options; mret (result :: results)
  end.

(* mvlc_stack_executor.h:62-68 run_commands *)
Definition run_builder (stackBuilder : StackCommandBuilder) (options : CommandExecOptions) : SM (Mvlc_t (D := D)) (list CommandExecResult) :=
  run_commands (getCommands stackBuilder) options.

End Executor.

(* mvlc_stack_executor.h:71-81 get_first_error *)
Definition get_first_error (results : list CommandExecResult) : error_code :=
  match list_find (λ r, failed (er_ec r) = true) results with Some (_, r) => er_ec r | None => no_error end.

(* mvlc_stack_executor.h:83-93 get_first_error_result *)
Definition get_first_error_result (results : list CommandExecResult) : CommandExecResult :=
  match list_find (λ r, failed (er_ec r) = true) results with Some (_, r) => r | None => mkExecResult (cmd_of_type Invalid) no_error [] end.

(** ** Which commands are run *)

Section Run.
Context {D : Type} {HC : Connection D}.

Lemma bind_Done {A B} (m : SM (Mvlc_t (D := D)) A) (f : A → SM Mvlc_t B) d b d' :
  (m ≫= f) d = Done (b, d') → ∃ a d1, m d = Done (a, d1) ∧ f a d1 = Done (b, d').
Proof. unfold mbind, SM_bind. destruct (m d) as [[a d1]| | |]; try done. by exists a, d1. Qed.

Lemma single_read_cmd cmd d r d' : run_single_read (D := D) cmd d = Done (r, d') → er_cmd r = cmd.
Proof. intros ([ec v] & d1 & _ & H)%bind_Done. by injection H as <- _. Qed.
Lemma of_block_cmd cmd f d r d' : of_block (D := D) cmd f d = Done (r, d') → er_cmd r = cmd.
Proof. intros ([ec v] & d1 & _ & H)%bind_Done. by injection H as <- _. Qed.

Lemma run_command_cmd cmd options d r d' : run_command (D := D) cmd options d = Done (r, d') → er_cmd r = cmd.
Proof.
  unfold run_command. destruct (sc_type cmd); try (by intros [= <- _]);
    try (destruct (negb _); [apply single_read_cmd|destruct (vme_amods.is_esst64_mode _); apply of_block_cmd]).
  intros (ec & d1 & _ & H)%bind_Done. by injection H as <- _.
Qed.

Lemma run_commands_prefix commands options d rs d' :
  run_commands (D := D) commands options d = Done (rs, d') →
  er_cmd <$> rs = take (length rs) commands
  ∧ (∀ (i : nat) r, rs !! i = Some r → stops options r = true → Datatypes.S i = length rs)
  ∧ ((length rs < length commands)%nat → ∃ r, last rs = Some r ∧ stops options r = true).
Proof.
  revert d rs d'; induction commands as [|cmd rest IH]; intros d rs d'; cbn [run_commands].
  - intros [= <- <-]. split_and!; [done|done|cbn; lia].
  - unfold mbind, SM_bind. destruct (run_command cmd options d) as [[r d1]| | |] eqn:E; [|done..]. apply run_command_cmd in E as Hc.
    destruct (stops options r) eqn:Es.
    + intros [= <- <-]. cbn. rewrite Hc. split_and!; [done| |intros _; by exists r]. intros [|i] r'; [done|by destruct i].
    + destruct (run_commands rest options d1) as [[rs1 d2]| | |] eqn:E1; [|done..]. intros [= <- <-]. destruct (IH _ _ _ E1) as (H1 & H2 & H3).
      cbn [fmap list_fmap length take]. rewrite Hc. split_and!; [by f_equal| |].
      * intros [|i] r' Hi Hs; [cbn in Hi; congruence|]. f_equal. by apply (H2 i r').
      * intros Hl. destruct H3 as (r' & Hr' & Hs); [cbn in Hl; lia|]. exists r'. split; [|done]. by destruct rs1.
Qed.

End Run.

(** ** The bus as the reference *)

Section OnBus.
Context {D : Type} {HC : Connection D} {HK : Controller D} {HV : VMEController D}.

(** Running one command directly on the bus. *)
Definition bus_command (b : Bus) (cmd : StackCommand) : CommandExecResult * Bus :=
  match sc_type cmd with
  | VMERead | VMEReadMem | VMEReadSwapped | VMEReadMemSwapped =>
      let '(flags, x) := vme_read b (sc_address cmd) (sc_amod cmd) (sc_dataWidth cmd) in
      let '(ec, v) := read_result flags x 0 (sc_dataWidth cmd) in
      (mkExecResult cmd ec [v], b)
  | VMEWrite =>
      let '(flags, b') := vme_write b (sc_address cmd) (sc_value cmd) (sc_amod cmd) (sc_dataWidth cmd) in
      (mkExecResult cmd (write_result flags) [], b')
  | _ => (mkExecResult cmd no_error [], b)
  end.

(** Whether the next command is run: after a success, and, if asked for, after an access
    that got no answer or a bus error. *)
Definition goes_on (continue : bool) (ec : error_code) : bool :=
  bool_decide (ec = no_error) || continue && bool_decide (ec = Mvlc MVLCErrorCode.NoVMEResponse ∨ ec = Mvlc MVLCErrorCode.VMEBusError).

Fixpoint bus_run (b : Bus) (commands : list StackCommand) (options : CommandExecOptions) : list CommandExecResult * Bus :=
  match commands with
  | [] => ([], b)
  | cmd :: rest =>
      let '(r, b1) := bus_command b cmd in
      if goes_on (continueOnVMEError options) (er_ec r) then let '(rs, b2) := bus_run b1 rest options in (r :: rs, b2) else ([r], b1)
  end.

(** Single accesses with values in range; all other types are allowed. *)
Definition single_access (cmd : StackCommand) : Prop :=
  is_u32 (sc_address cmd) ∧ is_u32 (sc_value cmd) ∧ is_u8 (sc_amod cmd) ∧ vme_amods.is_block_mode (sc_amod cmd) = false
  ∧ (sc_dataWidth cmd = VMEDataWidth.D16 ∨ sc_dataWidth cmd = VMEDataWidth.D32).

Lemma flags_error_not_connection flags e : flags_error flags = Some e → is_type (Mvlc e) ErrorType.ConnectionError = false.
Proof. unfold flags_error. repeat (destruct (negb _); [by intros [= <-]|]). done. Qed.

(** A call of the class with an outcome that is not a connection error. *)
Lemma checked_call {A} (code : A → error_code) (f : M D A) a d b m b' :
  exactly (ready b m) f a (λ s, ∃ b1 m1, b1 = b' ∧ ready b1 m1 s) → is_type (code a) ErrorType.ConnectionError = false →
  ready b m (cmdApi d) → ∃ d' m', checked code f d = Done (a, d') ∧ ready b' m' (cmdApi d').
Proof.
  intros Hf Ha Hd. destruct (Hf (cmdApi d) Hd) as (s' & E & b1 & m1 & -> & Hs'). unfold checked, call. rewrite E. unfold resultCheck. rewrite Ha.
  by eexists _, m1.
Qed.

Lemma read_result_mask flags x w :
  (if w =? VMEDataWidth.D16 then (read_result flags x 0 w).2 .& 0xffff else (read_result flags x 0 w).2) = (read_result flags x 0 w).2.
Proof.
  unfold read_result. destruct (w =? VMEDataWidth.D16) eqn:E; [|done]. destruct (flags_error flags); [done|]. cbn [snd].
  by rewrite <- Z.land_assoc.
Qed.

Lemma run_single_read_bus cmd b m d :
  single_access cmd → ready b m (cmdApi d) →
  let '(flags, x) := vme_read b (sc_address cmd) (sc_amod cmd) (sc_dataWidth cmd) in
  ∃ d' m', run_single_read (D := D) cmd d
      = Done (mkExecResult cmd (read_result flags x 0 (sc_dataWidth cmd)).1 [(read_result flags x 0 (sc_dataWidth cmd)).2], d')
    ∧ ready b m' (cmdApi d').
Proof.
  intros (Ha & _ & Ham & Hbm & Hw) Hd. assert (Hw8 : is_u8 (sc_dataWidth cmd)) by (by destruct Hw as [->| ->]).
  pose proof (vmeRead_ready b m (sc_address cmd) 0 (sc_amod cmd) (sc_dataWidth cmd) Ha Ham Hbm Hw8) as Hx.
  destruct (vme_read b _ _ _) as [flags x] eqn:E. set (r := read_result flags x 0 (sc_dataWidth cmd)) in *.
  destruct (checked_call fst _ r d b m b Hx) as (d' & m' & Ec & Hd'); [|done|].
  { unfold r, read_result. destruct (flags_error flags) eqn:Ef; [by eapply flags_error_not_connection|done]. }
  exists d', m'. split; [|done]. unfold run_single_read, mbind, SM_bind, mvlc_vmeRead. rewrite Ec.
  pose proof (read_result_mask flags x (sc_dataWidth cmd)) as Hm. fold r in Hm. destruct r as [ec v]. cbn [fst snd] in *. by rewrite Hm.
Qed.

Lemma run_command_bus cmd options b m d :
  single_access cmd → ready b m (cmdApi d) →
  ∃ d' m', run_command (D := D) cmd options d = Done ((bus_command b cmd).1, d') ∧ ready (bus_command b cmd).2 m' (cmdApi d').
Proof.
  intros Hs Hd. pose proof (run_single_read_bus cmd b m d Hs Hd) as Hr. destruct Hs as (Ha & Hv & Ham & Hbm & Hw).
  assert (Hw8 : is_u8 (sc_dataWidth cmd)) by (by destruct Hw as [->| ->]). unfold run_command, bus_command.
  destruct (sc_type cmd); rewrite ?Hbm; cbn [negb]; try (by exists d, m);
    try (destruct (vme_read b _ _ _) as [flags x]; destruct Hr as (d' & m' & -> & Hd'); exists d', m';
         destruct (read_result flags x 0 (sc_dataWidth cmd)); done).
  pose proof (vmeWrite_ready b m (sc_address cmd) (sc_value cmd) (sc_amod cmd) (sc_dataWidth cmd) Ha Hv Ham Hw8) as Hx.
  destruct (vme_write b _ _ _ _) as [flags b'] eqn:E. cbn [fst snd] in Hx.
  destruct (checked_call id _ (write_result flags) d b m b' Hx) as (d' & m' & Ec & Hd'); [|done|].
  { unfold write_result, id. destruct (flags_error flags) eqn:Ef; [by eapply flags_error_not_connection|done]. }
  exists d', m'. split; [|done]. unfold mbind, SM_bind, mvlc_vmeWrite. by rewrite Ec.
Qed.

(** The errors that the bus reports. *)
Lemma bus_command_errors b cmd :
  er_ec (bus_command b cmd).1 ∈ [no_error; Mvlc MVLCErrorCode.NoVMEResponse; Mvlc MVLCErrorCode.VMEBusError; Mvlc MVLCErrorCode.StackSyntaxError].
Proof.
  assert (Hf : ∀ flags, write_result flags ∈ [no_error; Mvlc MVLCErrorCode.NoVMEResponse; Mvlc MVLCErrorCode.VMEBusError; Mvlc MVLCErrorCode.StackSyntaxError]).
  { intros flags. unfold write_result, flags_error. repeat (destruct (negb _); [set_solver|]). set_solver. }
  assert (Hr : ∀ flags x, (read_result flags x 0 (sc_dataWidth cmd)).1 = write_result flags).
  { intros flags x. unfold read_result, write_result. by destruct (flags_error flags). }
  unfold bus_command. destruct (sc_type cmd); try (cbn; set_solver);
    try (destruct (vme_read _ _ _ _) as [flags x]; specialize (Hr flags x); destruct (read_result _ _ _ _); cbn in *; subst; apply Hf).
  destruct (vme_write _ _ _ _ _) as [flags b2]. apply Hf.
Qed.

Lemma bus_stops b cmd options : stops options (bus_command b cmd).1 = negb (goes_on (continueOnVMEError options) (er_ec (bus_command b cmd).1)).
Proof.
  pose proof (bus_command_errors b cmd) as H. set (r := (bus_command b cmd).1) in *. unfold stops. rewrite !elem_of_cons, elem_of_nil in H.
  destruct H as [->|[->|[->|[->|[]]]]]; by destruct (continueOnVMEError options).
Qed.

Lemma run_commands_bus commands options b m d :
  Forall single_access commands → ready b m (cmdApi d) →
  ∃ d' m', run_commands (D := D) commands options d = Done ((bus_run b commands options).1, d')
    ∧ ready (bus_run b commands options).2 m' (cmdApi d').
Proof.
  intros Hc. revert b m d. induction Hc as [|cmd rest Hs Hss IH]; intros b m d Hd; [by exists d, m|]. cbn [run_commands bus_run].
  destruct (run_command_bus cmd options b m d Hs Hd) as (d1 & m1 & E1 & Hd1). pose proof (bus_stops b cmd options) as Hst.
  destruct (bus_command b cmd) as [r b1]. cbn [fst snd] in *.
  unfold mbind, SM_bind. rewrite E1, Hst. destruct (goes_on _ _); cbn [negb]; [|by exists d1, m1]. destruct (IH b1 m1 d1 Hd1) as (d2 & m2 & E2 & Hd2).
  unfold mbind, SM_bind in E2. rewrite E2. destruct (bus_run b1 rest options) as [rs b2]. by exists d2, m2.
Qed.

(** The bus reports no errors of the connection. *)
Lemma bus_run_not_connection commands options : ∀ b,
  Forall (λ r, is_type (er_ec r) ErrorType.ConnectionError = false) (bus_run b commands options).1.
Proof.
  assert (Hr : ∀ flags x v w, is_type (read_result flags x v w).1 ErrorType.ConnectionError = false).
  { intros flags x v w. unfold read_result. destruct (flags_error flags) eqn:E; [by eapply flags_error_not_connection|done]. }
  induction commands as [|cmd rest IH]; intros b; cbn [bus_run]; [constructor|]. destruct (bus_command b cmd) as [r b1] eqn:E.
  assert (H : is_type (er_ec r) ErrorType.ConnectionError = false).
  { unfold bus_command in E. destruct (sc_type cmd); try (by injection E as <- <-);
      try (destruct (vme_read _ _ _ _) as [flags x]; specialize (Hr flags x 0 (sc_dataWidth cmd)); destruct (read_result _ _ _ _); by injection E as <- <-).
    destruct (vme_write _ _ _ _ _) as [flags b2]. injection E as <- <-. cbn. unfold write_result.
    destruct (flags_error flags) eqn:Ef; [by eapply flags_error_not_connection|done]. }
  destruct (goes_on _ _); [|by repeat constructor]. specialize (IH b1). destruct (bus_run b1 rest options). by constructor.
Qed.

Lemma bus_command_cmd b cmd : er_cmd (bus_command b cmd).1 = cmd.
Proof.
  unfold bus_command. destruct (sc_type cmd); try done; try (destruct (vme_read _ _ _ _) as [flags x]; by destruct (read_result _ _ _ _)).
  by destruct (vme_write _ _ _ _ _).
Qed.

(** The results are those of the first commands, and all but the last one let the run go on. *)
Lemma bus_run_prefix commands options : ∀ b, let rs := (bus_run b commands options).1 in
  er_cmd <$> rs = take (length rs) commands
  ∧ (∀ (i : nat) r, rs !! i = Some r → (Datatypes.S i < length rs)%nat → goes_on (continueOnVMEError options) (er_ec r) = true)
  ∧ ((length rs < length commands)%nat → ∃ r, last rs = Some r ∧ goes_on (continueOnVMEError options) (er_ec r) = false).
Proof.
  induction commands as [|cmd rest IH]; intros b; cbn [bus_run]; [split_and!; [done|done|cbn; lia]|]. cbv zeta in IH.
  pose proof (bus_command_cmd b cmd) as Hc. destruct (bus_command b cmd) as [r b1]. cbn [fst] in Hc. destruct (goes_on _ (er_ec r)) eqn:Eg.
  - destruct (IH b1) as (H1 & H2 & H3). destruct (bus_run b1 rest options) as [rs b2]. cbn [fst] in *. cbn [fmap list_fmap length take]. rewrite Hc. split_and!; [by f_equal| |].
    + intros [|i] r' Hi Hl; [cbn in Hi; congruence|]. apply (H2 i r' Hi). lia.
    + intros Hl. destruct H3 as (r' & Hr' & Hs); [lia|]. exists r'. split; [|done]. by destruct rs.
  - cbn. rewrite Hc. split_and!; [done| |intros _; by exists r]. intros [|i] r' ? Hl; lia.
Qed.

(** C34: with a controller that executes VME accesses, running a list of commands with single
    accesses (no block transfers) returns (it neither hangs nor throws), gives the results that
    an interpreter working directly on the VME bus gives, command for command, and leaves
    the bus in the same state.  The results are those of the first commands of the list; all
    but the last of them are successes or, when the options say to go on after VME errors, accesses without
    an answer or with a bus error; and if there are fewer results than commands, the last
    one is an error after which the run must not go on. *)
Theorem run_commands_on_bus commands options b m d :
  Forall single_access commands → ready b m (cmdApi d) →
  ∃ d' m', run_commands (D := D) commands options d = Done ((bus_run b commands options).1, d')
    ∧ ready (bus_run b commands options).2 m' (cmdApi d')
    ∧ (let rs := (bus_run b commands options).1 in
       er_cmd <$> rs = take (length rs) commands
       ∧ (∀ (i : nat) r, rs !! i = Some r → (Datatypes.S i < length rs)%nat → goes_on (continueOnVMEError options) (er_ec r) = true)
       ∧ ((length rs < length commands)%nat → ∃ r, last rs = Some r ∧ goes_on (continueOnVMEError options) (er_ec r) = false)).
Proof.
  intros Hc Hd. destruct (run_commands_bus commands options b m d Hc Hd) as (d' & m' & E & Hd').
  exists d', m'. split_and!; [done|done|apply (bus_run_prefix commands options b)..].
Qed.

End OnBus.

(** Two writes to a module and one to an empty address: the run goes on after the timeout
    and the read returns what was written last. *)
Definition sample_commands : list StackCommand :=
  let write a v := set_dataWidth VMEDataWidth.D16 (set_amod vme_amods.A32 (set_value v (set_address a (cmd_of_type VMEWrite)))) in
  [write 0x01000000 1; write 0x02000000 2; write 0x01000000 3;
   set_dataWidth VMEDataWidth.D16 (set_amod vme_amods.A32 (set_address 0x01000000 (cmd_of_type VMERead)))].

Lemma run_commands_on_bus_witness :
  ∃ rs d', run_commands sample_commands (mkExecOptions false true)
      (mkMvlc (D := Sim USB false) (sim_api ∅ {[0x01000000 := 0]}) true true 0x5008 0x0040) = Done (rs, d')
    ∧ er_ec <$> rs = [no_error; Mvlc MVLCErrorCode.NoVMEResponse; no_error; no_error]
    ∧ er_response <$> rs = [[]; []; []; [3]].
Proof.
  destruct (run_commands_on_bus (D := Sim USB false) sample_commands (mkExecOptions false true) {[0x01000000 := 0]} ∅
    (mkMvlc (sim_api ∅ {[0x01000000 := 0]}) true true 0x5008 0x0040)) as (d' & m' & E & _ & _).
  - repeat (apply Forall_cons; split; [split_and!; first [by left|done]|]). by apply Forall_nil.
  - apply sim_ready.
  - eexists _, d'. split; [exact E|]. split; reflexivity.
Defined.
