(* ===== verification/Text.v ===== *)
(** * Numbers and words in text

    What the text formats of the library use of the standard library and of the format
    strings: decimal and hexadecimal output, [std::stoul] with base 0, and the extraction of
    words from a string stream. *)

From Stdlib Require Import Ascii String.
From S2P Require Import Prelude.
Open Scope list_scope.

(** ** Digits *)

Definition digit_char (d : Z) : ascii := ascii_of_nat (Z.to_nat (if d <? 10 then 48 + d else 87 + d)).

Definition char_digit (c : ascii) : option Z :=
  let n := Z.of_nat (nat_of_ascii c) in
  if (48 <=? n) && (n <=? 57) then Some (n - 48)
  else if (97 <=? n) && (n <=? 122) then Some (n - 87)
  else if (65 <=? n) && (n <=? 90) then Some (n - 55)
  else None.

(** Most significant digit first; one unit of fuel per digit. *)
Fixpoint digits (fuel : nat) (base n : Z) : list Z :=
  match fuel with
  | O => []
  | S fuel => if n <? base then [n] else digits fuel base (n / base) ++ [n mod base]
  end.

Definition chars (ds : list Z) : string := foldr (λ d, String (digit_char d)) EmptyString ds.

(** 64 digits are enough for 64 bit numbers in every base. *)
Definition number (base n : Z) : string := chars (digits 64 base n).

(** The format [{}] for unsigned numbers, and [{:#0wx}] with [w] reduced by the two
    characters of the prefix. *)
Definition dec (n : Z) : string := number 10 n.
Definition hex (width : nat) (n : Z) : string :=
  let ds := digits 64 16 n in
  String "0" (String "x" (chars (replicate (width - length ds) 0 ++ ds))).

(** The digits up to the first character that is none. *)
Fixpoint parse_digits (base acc : Z) (s : string) : Z :=
  match s with
  | EmptyString => acc
  | String c s =>
      match char_digit c with
      | Some d => if d <? base then parse_digits base (acc * base + d) s else acc
      | None => acc
      end
  end.

Definition starts_digit (base : Z) (s : string) : bool :=
  match s with
  | String c _ => match char_digit c with Some d => d <? base | None => false end
  | EmptyString => false
  end.

(** The magnitude of a number whose base is taken from its prefix. *)
Definition parse_magnitude (s : string) : outcome Z :=
  match s with
  | String "0"%char (String x rest) =>
      if ((x =? "x")%char || (x =? "X")%char) && starts_digit 16 rest then Return (parse_digits 16 0 rest)
      else Return (parse_digits 8 0 s)
  | _ => if starts_digit 10 s then Return (parse_digits 10 0 s) else Throw invalid_argument
  end.

(** [std::stoul(s, nullptr, 0)] for a string without white space; characters behind the
    number are ignored, a sign is allowed and negates modulo 2^64. *)
Definition stoul (s : string) : outcome Z :=
  let '(negative, s) :=
    match s with
    | String "-"%char s => (true, s)
    | String "+"%char s => (false, s)
    | _ => (false, s)
    end in
  n ← parse_magnitude s;
  if n <? 2 ^ 64 then Return (if negative : bool then u64 (- n) else n) else Throw out_of_range.

(** ** Words *)

Definition is_space (c : ascii) : bool :=
  let n := nat_of_ascii c in (n =? 32)%nat || ((9 <=? n)%nat && (n <=? 13)%nat).

Fixpoint skip_spaces (s : string) : string :=
  match s with String c rest => if is_space c then skip_spaces rest else s | EmptyString => EmptyString end.

Fixpoint take_word (s : string) : string * string :=
  match s with
  | String c rest => if is_space c then (EmptyString, s) else let '(w, r) := take_word rest in (String c w, r)
  | EmptyString => (EmptyString, EmptyString)
  end.

(** The next word and the rest of the stream; [None] when the extraction fails. *)
Definition next_word (s : string) : option (string * string) :=
  match skip_spaces s with EmptyString => None | s => Some (take_word s) end.

(** Each word with a blank in front. *)
Fixpoint blanks (ws : list string) : string :=
  match ws with [] => EmptyString | w :: ws => (" " +:+ w +:+ blanks ws)%string end.

(** [std::tolower] on every character *)
Definition lower_char (c : ascii) : ascii :=
  let n := nat_of_ascii c in if (65 <=? n)%nat && (n <=? 90)%nat then ascii_of_nat (n + 32) else c.
(* util/string_util.h:31-36 str_tolower *)
Fixpoint str_tolower (s : string) : string :=
  match s with String c s => String (lower_char c) (str_tolower s) | EmptyString => EmptyString end.

(** ** Printed numbers are read back *)

Lemma digit_roundtrip d : 0 ≤ d < 16 → char_digit (digit_char d) = Some d.
Proof.
  intros Hd. assert (Hin : d ∈ Z.of_nat <$> seq 0 16) by (apply list_elem_of_fmap; exists (Z.to_nat d); rewrite elem_of_seq; lia).
  cbn in Hin. repeat (apply elem_of_cons in Hin as [->|Hin]; [reflexivity|]). by apply elem_of_nil in Hin.
Qed.

Lemma digit_not_space d : 0 ≤ d < 16 → is_space (digit_char d) = false ∧ digit_char d ≠ "-"%char ∧ digit_char d ≠ "+"%char ∧ digit_char d ≠ "x"%char ∧ digit_char d ≠ "X"%char.
Proof.
  intros Hd. assert (Hin : d ∈ Z.of_nat <$> seq 0 16) by (apply list_elem_of_fmap; exists (Z.to_nat d); rewrite elem_of_seq; lia).
  cbn in Hin. repeat (apply elem_of_cons in Hin as [->|Hin]; [by split_and!|]). by apply elem_of_nil in Hin.
Qed.

Lemma digits_range fuel base n : 1 < base → 0 ≤ n → Forall (λ d, 0 ≤ d < base) (digits fuel base n).
Proof.
  intros Hb. revert n; induction fuel as [|fuel IH]; intros n Hn; cbn [digits]; [done|].
  destruct (Z.ltb_spec n base); [by apply Forall_singleton|]. apply Forall_app. split; [apply IH, Z.div_pos; lia|].
  apply Forall_singleton, Z.mod_pos_bound. lia.
Qed.

Lemma digits_value fuel base n :
  1 < base → 0 ≤ n < base ^ Z.of_nat fuel → foldl (λ a d, a * base + d) 0 (digits fuel base n) = n.
Proof.
  intros Hb. revert n; induction fuel as [|fuel IH]; intros n Hn; cbn [digits]; [cbn in Hn; cbn; lia|].
  destruct (Z.ltb_spec n base); [cbn; lia|]. rewrite foldl_app. cbn [foldl]. rewrite IH.
  - pose proof (Z.div_mod n base ltac:(lia)). lia.
  - rewrite Nat2Z.inj_succ, Z.pow_succ_r in Hn by lia. split; [apply Z.div_pos; lia|]. apply Z.div_lt_upper_bound; lia.
Qed.

(** The first digit of a positive number is not 0. *)
Lemma digits_head fuel base n :
  1 < base → 0 < n < base ^ Z.of_nat fuel → ∃ d ds, digits fuel base n = d :: ds ∧ d ≠ 0.
Proof.
  intros Hb. revert n; induction fuel as [|fuel IH]; intros n Hn; cbn [digits]; [cbn in Hn; lia|].
  destruct (Z.ltb_spec n base); [exists n, []; split; [done|lia]|].
  destruct (IH (n / base)) as (d & ds & -> & Hd); [|by exists d, (ds ++ [n mod base])].
  rewrite Nat2Z.inj_succ, Z.pow_succ_r in Hn by lia. split; [apply Z.div_str_pos; lia|]. apply Z.div_lt_upper_bound; lia.
Qed.

Lemma digits_not_nil fuel base n : (0 < fuel)%nat → digits fuel base n ≠ [].
Proof.
  destruct fuel as [|fuel]; [lia|]. intros _. cbn [digits]. destruct (n <? base); [done|]. intros H. apply app_nil in H. by destruct H.
Qed.

Lemma parse_chars base acc ds :
  base ≤ 16 → Forall (λ d, 0 ≤ d < base) ds → parse_digits base acc (chars ds) = foldl (λ a d, a * base + d) acc ds.
Proof.
  intros Hb Hd. revert acc; induction Hd as [|d ds Hd Hds IH]; intros acc; [done|]. unfold chars. cbn [foldr parse_digits foldl]. fold (chars ds).
  rewrite digit_roundtrip by lia. destruct (Z.ltb_spec d base); [|lia]. apply IH.
Qed.

Lemma foldl_zeros base k ds : foldl (λ a d, a * base + d) 0 (replicate k 0 ++ ds) = foldl (λ a d, a * base + d) 0 ds.
Proof. rewrite foldl_app. f_equal. induction k as [|k IH]; [done|]. cbn [replicate foldl]. exact IH. Qed.

Lemma stoul_dec n : 0 ≤ n < 2 ^ 64 → stoul (dec n) = Return n.
Proof.
  intros Hn. assert (Hp : 2 ^ 64 < 10 ^ Z.of_nat 64) by (by vm_compute).
  destruct (decide (n = 0)) as [->|Hnz]; [reflexivity|]. unfold dec, number.
  destruct (digits_head 64 10 n) as (d & ds & Hds & Hd); [lia|lia|]. pose proof (digits_range 64 10 n ltac:(lia) ltac:(lia)) as Hr.
  pose proof (digits_value 64 10 n ltac:(lia) ltac:(lia)) as Hv. revert Hr Hv. rewrite Hds. intros Hr Hv. destruct (proj1 (Forall_cons _ _ _) Hr) as [Hd10 _].
  assert (Hin : d ∈ Z.of_nat <$> seq 1 9) by (apply list_elem_of_fmap; exists (Z.to_nat d); rewrite elem_of_seq; lia).
  assert (Hm : parse_magnitude (chars (d :: ds)) = Return (parse_digits 10 0 (chars (d :: ds)))).
  { cbn in Hin. repeat (apply elem_of_cons in Hin as [->|Hin]; [reflexivity|]). exfalso; exact (not_elem_of_nil _ Hin). }
  assert (Hs : stoul (chars (d :: ds)) = n ← parse_magnitude (chars (d :: ds)); if n <? 2 ^ 64 then Return n else Throw out_of_range).
  { cbn in Hin. repeat (apply elem_of_cons in Hin as [->|Hin]; [reflexivity|]). exfalso; exact (not_elem_of_nil _ Hin). }
  rewrite Hs, Hm. cbn [mbind outcome_bind]. rewrite parse_chars, Hv by (done || lia). destruct (Z.ltb_spec n (2 ^ 64)); [done|lia].
Qed.

Lemma stoul_hex width n : 0 ≤ n < 2 ^ 64 → stoul (hex width n) = Return n.
Proof.
  intros Hn. assert (Hp : 2 ^ 64 < 16 ^ Z.of_nat 64) by (by vm_compute).
  pose proof (digits_range 64 16 n ltac:(lia) ltac:(lia)) as Hr. pose proof (digits_value 64 16 n ltac:(lia) ltac:(lia)) as Hv. unfold hex.
  set (ds := digits 64 16 n) in *. set (zs := replicate (width - length ds) 0 ++ ds).
  assert (Hz : Forall (λ d, 0 ≤ d < 16) zs) by (apply Forall_app; split; [by apply Forall_replicate|done]).
  assert (Hne : ∃ d rest, zs = d :: rest).
  { unfold zs. assert (Hds : ds ≠ []) by (apply digits_not_nil; lia).
    destruct (replicate _ 0) as [|z r]; [destruct ds; [done|by eexists _, _]|by eexists _, _]. }
  destruct Hne as (d & rest & Hzs). assert (Hd : starts_digit 16 (chars zs) = true).
  { rewrite Hzs in *. unfold chars. cbn [foldr starts_digit]. destruct (proj1 (Forall_cons _ _ _) Hz) as [Hd _]. rewrite digit_roundtrip by lia.
    apply Z.ltb_lt. lia. }
  unfold stoul, parse_magnitude. rewrite Ascii.eqb_refl, Hd. cbn [orb andb mbind outcome_bind].
  rewrite parse_chars by (done || lia). unfold zs. rewrite foldl_zeros, Hv. destruct (Z.ltb_spec n (2 ^ 64)); [done|lia].
Qed.

(** ** Words of a stream *)

(** A word: not empty, no white space inside. *)
Fixpoint solid (s : string) : bool := match s with String c s => negb (is_space c) && solid s | EmptyString => true end.
Definition is_word (s : string) : Prop := s ≠ EmptyString ∧ solid s = true.

Lemma chars_solid ds : Forall (λ d, 0 ≤ d < 16) ds → solid (chars ds) = true.
Proof.
  induction 1 as [|d ds Hd Hds IH]; [done|]. unfold chars. cbn [foldr solid]. fold (chars ds). rewrite IH.
  by destruct (digit_not_space d Hd) as [-> _].
Qed.

Lemma dec_word n : 0 ≤ n < 2 ^ 64 → is_word (dec n).
Proof.
  intros Hn. pose proof (digits_range 64 10 n ltac:(lia) ltac:(lia)) as Hr. split.
  - unfold dec, number. pose proof (digits_not_nil 64 10 n ltac:(lia)) as Hd. by destruct (digits 64 10 n).
  - apply chars_solid. eapply Forall_impl; [exact Hr|]. cbn. lia.
Qed.

Lemma hex_word width n : 0 ≤ n < 2 ^ 64 → is_word (hex width n).
Proof.
  intros Hn. split; [done|]. pose proof (digits_range 64 16 n ltac:(lia) ltac:(lia)) as Hr. unfold hex. cbn [solid].
  change (solid (chars (replicate (width - length (digits 64 16 n)) 0 ++ digits 64 16 n)) = true).
  apply chars_solid, Forall_app. split; [by apply Forall_replicate|done].
Qed.

Lemma take_word_blanks w ws : solid w = true → take_word (w +:+ blanks ws)%string = (w, blanks ws).
Proof.
  induction w as [|c w IH]; intros Hs; cbn [solid] in *.
  - by destruct ws.
  - apply andb_true_iff in Hs as [H1 H2]. apply negb_true_iff in H1.
    change ((String c w +:+ blanks ws)%string) with (String c (w +:+ blanks ws)%string). cbn [take_word]. by rewrite H1, IH.
Qed.

Lemma skip_word w s : is_word w → skip_spaces (w +:+ s)%string = (w +:+ s)%string.
Proof.
  intros [Hne Hs]. destruct w as [|c w]; [done|]. cbn [solid] in Hs.
  apply andb_true_iff in Hs as [H1%negb_true_iff _]. change ((String c w +:+ s)%string) with (String c (w +:+ s)%string). cbn [skip_spaces]. by rewrite H1.
Qed.

Lemma next_word_first w ws : is_word w → next_word (w +:+ blanks ws)%string = Some (w, blanks ws).
Proof.
  intros Hw. unfold next_word. rewrite skip_word by done. destruct Hw as [Hne Hs]. pose proof (take_word_blanks w ws Hs) as Ht.
  destruct (w +:+ blanks ws)%string eqn:E; [by destruct w|]. by rewrite Ht.
Qed.

Lemma next_word_blanks w ws : is_word w → next_word (blanks (w :: ws)) = Some (w, blanks ws).
Proof.
  intros Hw. unfold next_word. cbn [blanks].
  change (skip_spaces (" " +:+ w +:+ blanks ws)%string) with (skip_spaces (w +:+ blanks ws)%string).
  rewrite skip_word by done. destruct Hw as [Hne Hs]. pose proof (take_word_blanks w ws Hs) as Ht.
  destruct (w +:+ blanks ws)%string eqn:E; [by destruct w|]. by rewrite Ht.
Qed.

Lemma next_word_none : next_word (blanks []) = None.
Proof. reflexivity. Qed.
