(* ===== verification/CommandText.v ===== *)
(** * The text form of commands: [mvlc_command_builders.cc], lines 126-590

    One line of text per command, used in configuration files.  A line is a name and
    arguments separated by blanks; the parser takes its arguments from a string stream into
    one variable, [arg], which keeps its old contents when the stream has ended.  The YAML
    text of custom commands comes from a third-party library and is a parameter. *)

From Stdlib Require Import Ascii String.
From S2P Require Import Prelude Constants Commands Text.
Open Scope list_scope.

(* mvlc_command_builders.cc:126-136 accu_comparator_to_string *)
Definition accu_comparator_to_string (comparator : Z) : outcome string :=
  if comparator =? AccuComparator.EQ then Return "eq"%string
  else if comparator =? AccuComparator.LT then Return "lt"%string
  else if comparator =? AccuComparator.GT then Return "gt"%string
  else Throw (runtime_error "invalid AccuComparator").

(* mvlc_command_builders.cc:138-144 accu_comparator_from_string *)
Definition accu_comparator_from_string (comparator : string) : outcome Z :=
  if (comparator =? "eq")%string then Return AccuComparator.EQ
  else if (comparator =? "lt")%string then Return AccuComparator.LT
  else if (comparator =? "gt")%string then Return AccuComparator.GT
  else Throw (runtime_error "invalid AccuComparator").

(* mvlc_command_builders.cc:146-158 to_string *)
Definition data_width_to_string (dw : Z) : outcome string :=
  if dw =? VMEDataWidth.D16 then Return "d16"%string
  else if dw =? VMEDataWidth.D32 then Return "d32"%string
  else Throw (runtime_error "invalid VMEDataWidth").

(* mvlc_command_builders.cc:160-170 vme_data_width_from_string *)
Definition vme_data_width_from_string (str : string) : outcome Z :=
  let dwStr := str_tolower str in
  if (dwStr =? "d16")%string || (dwStr =? "16")%string then Return VMEDataWidth.D16
  else if (dwStr =? "d32")%string || (dwStr =? "32")%string then Return VMEDataWidth.D32
  else Throw (runtime_error "invalid VMEDataWidth").

(* mvlc_command_builders.cc:172-183 parse_vme_datawidth *)
Definition parse_vme_datawidth (str : string) : option Z :=
  match vme_data_width_from_string str with Return dw => Some dw | _ => None end.

(** A name and the formatted arguments. *)
Definition line (name : string) (args : list string) : string := (name +:+ blanks args)%string.

(* mvlc_command_builders.cc:185-218 to_string *)
Definition super_to_string (cmd : SuperCommand) : string :=
  match su_type cmd with
  | CmdBufferStart => "cmd_buffer_start"
  | CmdBufferEnd => "cmd_buffer_end"
  | ReferenceWord => line "reference_word" [hex 4 (su_value cmd)]
  | ReadLocal => line "read_local" [hex 4 (su_address cmd)]
  | ReadLocalBlock => line "read_local_block" [hex 4 (su_address cmd); dec (su_value cmd)]
  | WriteLocal => line "write_local" [hex 4 (su_address cmd); hex 8 (su_value cmd)]
  | WriteReset => "write_reset"
  | EthDelay => "eth_delay"
  end.

Definition late_word (cmd : StackCommand) : list string := if sc_lateRead cmd then ["late"%string] else [].

(** The three forms of the read commands. *)
(* mvlc_command_builders.cc:236-246 to_string *)
Definition single_read_text (name : string) (cmd : StackCommand) : outcome string :=
  dw ← data_width_to_string (sc_dataWidth cmd);
  Return (line name ([hex 2 (sc_amod cmd); dw; hex 8 (sc_address cmd)] ++ late_word cmd)).
(* mvlc_command_builders.cc:247-257 to_string *)
Definition block_read_text (name : string) (cmd : StackCommand) : outcome string :=
  if vme_amods.is_esst64_mode (sc_amod cmd)
  then Return (line name [hex 2 (sc_amod cmd); dec (sc_transfers cmd); hex 8 (sc_address cmd); dec (sc_rate cmd)])
  else Return (line name [hex 2 (sc_amod cmd); dec (sc_transfers cmd); hex 8 (sc_address cmd)]).
(* mvlc_command_builders.cc:235-257 to_string *)
Definition read_text (single block : string) (cmd : StackCommand) : outcome string :=
  if negb (vme_amods.is_block_mode (sc_amod cmd)) then single_read_text single cmd else block_read_text block cmd.

Section Text.
(** The YAML text of a custom command with its output words and contents, and the reader of
    such texts. *)
Variable emit_custom : Z → list Z → string.
Variable load_custom : string → outcome (Z * list Z).

(* mvlc_command_builders.cc:220-415 to_string *)
Definition to_string (cmd : StackCommand) : outcome string :=
  match sc_type cmd with
  | Invalid => Return "invalid"%string
  | StackStart => Return "stack_start"%string
  | StackEnd => Return "stack_end"%string
  | VMERead => read_text "vme_read" "vme_block_read" cmd
  | VMEReadSwapped => read_text "vme_read" "vme_block_read_swapped" cmd
  | VMEReadMem => read_text "vme_read_mem" "vme_block_read_mem" cmd
  | VMEReadMemSwapped => read_text "vme_read" "vme_block_read_mem_swapped" cmd
  | VMEWrite =>
      dw ← data_width_to_string (sc_dataWidth cmd);
      Return (line "vme_write" [hex 2 (sc_amod cmd); dw; hex 8 (sc_address cmd); hex 8 (sc_value cmd)])
  | WriteMarker => Return (line "write_marker" [hex 8 (sc_value cmd)])
  | WriteSpecial => Return (line "write_special" [dec (sc_value cmd)])
  | Wait => Return (line "wait" [dec (sc_value cmd)])
  | SignalAccu => Return "signal_accu"%string
  | MaskShiftAccu => Return (line "mask_shift_accu" [hex 8 (sc_address cmd); dec (sc_value cmd)])
  | SetAccu => Return (line "set_accu" [dec (sc_value cmd)])
  | ReadToAccu => single_read_text "read_to_accu" cmd
  | CompareLoopAccu =>
      comparator ← accu_comparator_to_string (u8 (sc_value cmd));
      Return (line "compare_loop_accu" [comparator; dec (sc_address cmd)])
  | SoftwareDelay => Return (line "software_delay" [dec (sc_value cmd)])
  | Custom => Return (emit_custom (sc_transfers cmd) (sc_customValues cmd))
  end.

(** ** Parsing *)

(** The variable [arg] and the rest of the stream. *)
Record Stream : Type := mkStream { st_arg : string; st_rest : string }.

(** [iss >> arg]; the flag tells whether it succeeded.  When the stream has ended, [arg] is
    not touched. *)
Definition extract (st : Stream) : bool * Stream :=
  match next_word (st_rest st) with
  | Some (w, rest) => (true, mkStream w rest)
  | None => (false, mkStream (st_arg st) EmptyString)
  end.
Definition clear_arg (st : Stream) : Stream := mkStream EmptyString (st_rest st).

(** [iss >> arg; x = std::stoul(arg, nullptr, 0)]: the value before it is converted to the
    type of [x]. *)
Definition number_arg (st : Stream) : outcome (Z * Stream) :=
  let '(_, st) := extract st in n ← stoul (st_arg st); Return (n, st).
Definition width_arg (st : Stream) : outcome (Z * Stream) :=
  let '(_, st) := extract st in dw ← vme_data_width_from_string (st_arg st); Return (dw, st).

(* mvlc_command_builders.cc:434-442 stack_command_from_string *)
Definition parse_single_read (type : CommandType) (st : Stream) : outcome StackCommand :=
  '(amod, st) ← number_arg st;
  '(dw, st) ← width_arg st;
  '(address, st) ← number_arg st;
  let '(_, st) := extract (clear_arg st) in
  let late := (st_arg st =? "slow")%string || (st_arg st =? "late")%string in
  Return (set_lateRead late (set_address (u32 address) (set_dataWidth dw (set_amod (u8 amod) (cmd_of_type type))))).

(** [rate_required]: the rate is read without asking whether there is one. *)
(* mvlc_command_builders.cc:453-481 stack_command_from_string *)
Definition parse_block_read (type : CommandType) (rate_required : bool) (st : Stream) : outcome StackCommand :=
  '(amod, st) ← number_arg st;
  '(transfers, st) ← number_arg st;
  '(address, st) ← number_arg st;
  let cmd := set_address (u32 address) (set_transfers (u16 transfers) (set_amod (u8 amod) (cmd_of_type type))) in
  if vme_amods.is_esst64_mode (u8 amod) then
    let '(found, st) := extract (clear_arg st) in
    if found || rate_required then rate ← stoul (st_arg st); Return (set_rate (u8 rate) cmd) else Return cmd
  else Return cmd.

(* mvlc_command_builders.cc:518-522 stack_command_from_string *)
Definition parse_value (type : CommandType) (st : Stream) : outcome StackCommand :=
  '(value, _) ← number_arg st; Return (set_value (u32 value) (cmd_of_type type)).

(* mvlc_command_builders.cc:417-590 stack_command_from_string *)
Definition stack_command_from_string (str : string) : outcome StackCommand :=
  if (str =? "")%string then Throw (runtime_error "empty line")
  else
    let '(name, rest) := match next_word str with Some (w, rest) => (w, rest) | None => (EmptyString, EmptyString) end in
    let st := mkStream EmptyString rest in
    if (name =? "stack_start")%string then Return (cmd_of_type StackStart)
    else if (name =? "stack_end")%string then Return (cmd_of_type StackEnd)
    else if (name =? "vme_read")%string then parse_single_read VMERead st
    else if (name =? "vme_read_mem")%string then parse_single_read VMEReadMem st
    else if (name =? "vme_block_read")%string then parse_block_read VMERead false st
    else if (name =? "vme_block_read_swapped")%string || (name =? "vme_mblt_swapped")%string then parse_block_read VMEReadSwapped true st
    else if (name =? "vme_block_read_mem")%string then parse_block_read VMEReadMem true st
    else if (name =? "vme_block_read_mem_swapped")%string then parse_block_read VMEReadMemSwapped true st
    else if (name =? "vme_write")%string then
      '(amod, st) ← number_arg st;
      '(dw, st) ← width_arg st;
      '(address, st) ← number_arg st;
      '(value, st) ← number_arg st;
      Return (set_value (u32 value) (set_address (u32 address) (set_dataWidth dw (set_amod (u8 amod) (cmd_of_type VMEWrite)))))
    else if (name =? "write_marker")%string then parse_value WriteMarker st
    else if (name =? "write_special")%string then parse_value WriteSpecial st
    else if (name =? "wait")%string then parse_value Wait st
    else if (name =? "signal_accu")%string then Return (cmd_of_type SignalAccu)
    else if (name =? "mask_shift_accu")%string then
      '(mask, st) ← number_arg st;
      '(shift, st) ← number_arg st;
      Return (set_value (u32 shift) (set_address (u32 mask) (cmd_of_type MaskShiftAccu)))
    else if (name =? "set_accu")%string then parse_value SetAccu st
    else if (name =? "read_to_accu")%string then parse_single_read ReadToAccu st
    else if (name =? "compare_loop_accu")%string then
      let '(_, st) := extract st in
      comparator ← accu_comparator_from_string (st_arg st);
      '(value, st) ← number_arg st;
      Return (set_address (u32 value) (set_value comparator (cmd_of_type CompareLoopAccu)))
    else if (name =? "software_delay")%string then parse_value SoftwareDelay st
    else if (name =? "custom_cmd:")%string then
      '(transfers, contents) ← load_custom str;
      Return (set_customValues contents (set_transfers (u16 transfers) (cmd_of_type Custom)))
    else Throw (runtime_error "unhandled command").

(* mvlc_command_builders.cc:794-804 StackCommandBuilder::addCommand *)
Definition addCommand_text (str : string) (b : StackCommandBuilder) : outcome StackCommandBuilder :=
  let b := if negb (hasOpenGroup b) then beginGroup EmptyString ∅ b else b in
  cmd ← stack_command_from_string str;
  Return (set_groups (push_back_last (m_groups b) cmd) b).

End Text.

(** ** Printed commands are read back *)

(** Commands whose fields fit their types and that use only the fields their text has.  A
    single read that is word swapped prints like an ordinary one. *)
Inductive printable : StackCommand → Prop :=
| printable_plain t : t ∈ [StackStart; StackEnd; SignalAccu] → printable (cmd_of_type t)
| printable_single t amod dw address late :
    t ∈ [VMERead; VMEReadMem] ∧ vme_amods.is_block_mode amod = false ∨ t = ReadToAccu →
    is_u8 amod → dw = VMEDataWidth.D16 ∨ dw = VMEDataWidth.D32 → is_u32 address →
    printable (set_lateRead late (set_address address (set_dataWidth dw (set_amod amod (cmd_of_type t)))))
| printable_block t amod transfers address :
    t ∈ [VMERead; VMEReadSwapped; VMEReadMem; VMEReadMemSwapped] → is_u8 amod → vme_amods.is_block_mode amod = true →
    vme_amods.is_esst64_mode amod = false → is_u16 transfers → is_u32 address →
    printable (set_address address (set_transfers transfers (set_amod amod (cmd_of_type t))))
| printable_2eSST t amod transfers address rate :
    t ∈ [VMERead; VMEReadSwapped; VMEReadMem; VMEReadMemSwapped] → is_u8 amod → vme_amods.is_block_mode amod = true →
    vme_amods.is_esst64_mode amod = true → is_u16 transfers → is_u32 address → is_u8 rate →
    printable (set_rate rate (set_address address (set_transfers transfers (set_amod amod (cmd_of_type t)))))
| printable_write amod dw address value :
    is_u8 amod → dw = VMEDataWidth.D16 ∨ dw = VMEDataWidth.D32 → is_u32 address → is_u32 value →
    printable (set_value value (set_address address (set_dataWidth dw (set_amod amod (cmd_of_type VMEWrite)))))
| printable_value t value :
    t ∈ [WriteMarker; WriteSpecial; Wait; SetAccu; SoftwareDelay] → is_u32 value → printable (set_value value (cmd_of_type t))
| printable_mask_shift mask shift :
    is_u32 mask → is_u32 shift → printable (set_value shift (set_address mask (cmd_of_type MaskShiftAccu)))
| printable_compare comparator value :
    comparator ∈ [AccuComparator.EQ; AccuComparator.LT; AccuComparator.GT] → is_u32 value →
    printable (set_address value (set_value comparator (cmd_of_type CompareLoopAccu))).

(** What the text of a command says of it: the fields that are printed.  Swapped reads of single
    values have the text of a plain one. *)
Definition single_read_form (t : CommandType) (cmd : StackCommand) : StackCommand :=
  set_lateRead (sc_lateRead cmd) (set_address (sc_address cmd) (set_dataWidth (sc_dataWidth cmd) (set_amod (sc_amod cmd) (cmd_of_type t)))).
Definition block_read_form (cmd : StackCommand) : StackCommand :=
  let c := set_address (sc_address cmd) (set_transfers (sc_transfers cmd) (set_amod (sc_amod cmd) (cmd_of_type (sc_type cmd)))) in
  if vme_amods.is_esst64_mode (sc_amod cmd) then set_rate (sc_rate cmd) c else c.
Definition text_form (cmd : StackCommand) : StackCommand :=
  match sc_type cmd with
  | VMERead | VMEReadSwapped | VMEReadMem | VMEReadMemSwapped =>
      if vme_amods.is_block_mode (sc_amod cmd) then block_read_form cmd
      else single_read_form (match sc_type cmd with VMEReadMem => VMEReadMem | _ => VMERead end) cmd
  | ReadToAccu => single_read_form ReadToAccu cmd
  | VMEWrite => set_value (sc_value cmd) (set_address (sc_address cmd) (set_dataWidth (sc_dataWidth cmd) (set_amod (sc_amod cmd) (cmd_of_type VMEWrite))))
  | WriteMarker | WriteSpecial | Wait | SetAccu | SoftwareDelay => set_value (sc_value cmd) (cmd_of_type (sc_type cmd))
  | MaskShiftAccu => set_value (sc_value cmd) (set_address (sc_address cmd) (cmd_of_type MaskShiftAccu))
  | CompareLoopAccu => set_address (sc_address cmd) (set_value (u8 (sc_value cmd)) (cmd_of_type CompareLoopAccu))
  | t => cmd_of_type t
  end.

(** The data width is printed. *)
Definition prints_width (cmd : StackCommand) : bool :=
  match sc_type cmd with
  | VMERead | VMEReadSwapped | VMEReadMem | VMEReadMemSwapped => negb (vme_amods.is_block_mode (sc_amod cmd))
  | ReadToAccu | VMEWrite => true
  | _ => false
  end.

(** The numbers fit their types, and the data width and the comparator are constants that exist. *)
Record text_ok (cmd : StackCommand) : Prop := {
  to_type : sc_type cmd ≠ Invalid ∧ sc_type cmd ≠ Custom;
  to_amod : is_u8 (sc_amod cmd);
  to_address : is_u32 (sc_address cmd);
  to_value : is_u32 (sc_value cmd);
  to_transfers : is_u16 (sc_transfers cmd);
  to_rate : is_u8 (sc_rate cmd);
  to_width : prints_width cmd = true → sc_dataWidth cmd = VMEDataWidth.D16 ∨ sc_dataWidth cmd = VMEDataWidth.D32;
  to_comparator : sc_type cmd = CompareLoopAccu → u8 (sc_value cmd) ∈ [AccuComparator.EQ; AccuComparator.LT; AccuComparator.GT]
}.

Lemma block_form_printable cmd :
  sc_type cmd ∈ [VMERead; VMEReadSwapped; VMEReadMem; VMEReadMemSwapped] → vme_amods.is_block_mode (sc_amod cmd) = true → text_ok cmd →
  printable (block_read_form cmd).
Proof.
  intros Ht Hb [_ Ham Ha _ Htr Hr _ _]. unfold block_read_form. destruct (vme_amods.is_esst64_mode (sc_amod cmd)) eqn:He; [by apply printable_2eSST|by apply printable_block].
Qed.

Lemma single_form_printable t cmd :
  t ∈ [VMERead; VMEReadMem] ∧ vme_amods.is_block_mode (sc_amod cmd) = false ∨ t = ReadToAccu → prints_width cmd = true → text_ok cmd → printable (single_read_form t cmd).
Proof. intros Ht Hp [_ Ham Ha _ _ _ Hw _]. apply printable_single; auto. Qed.

(** Membership in a list that is written out. *)
Ltac listed := apply list_elem_of_In; cbn; auto 10.

Lemma read_form_printable t cmd :
  sc_type cmd = t → t ∈ [VMERead; VMEReadSwapped; VMEReadMem; VMEReadMemSwapped] → text_ok cmd →
  printable (if vme_amods.is_block_mode (sc_amod cmd) then block_read_form cmd else single_read_form (match t with VMEReadMem => VMEReadMem | _ => VMERead end) cmd).
Proof.
  intros Et Ht Ho. destruct (vme_amods.is_block_mode (sc_amod cmd)) eqn:Hb; [apply block_form_printable; [by rewrite Et|done|done]|].
  apply single_form_printable; [left; split; [|done]; destruct t; listed| |done]. unfold prints_width. rewrite Et, Hb.
  repeat (apply elem_of_cons in Ht as [->|Ht]; [done|]). by apply elem_of_nil in Ht.
Qed.

Lemma text_form_printable cmd : text_ok cmd → printable (text_form cmd).
Proof.
  intros Ho. pose proof Ho as [[H1 H2] Ham Ha Hv _ _ Hw Hc]. unfold text_form. destruct (sc_type cmd) eqn:Et;
    lazymatch goal with
    | |- printable (if _ then _ else _) => apply (read_form_printable _ cmd Et); [listed|exact Ho]
    | |- printable (set_value _ (cmd_of_type _)) => apply printable_value; [listed|exact Hv]
    | |- printable (cmd_of_type _) => first [congruence | apply printable_plain; listed]
    | |- printable (single_read_form _ _) => apply single_form_printable; [by right|unfold prints_width; by rewrite Et|exact Ho]
    | |- printable (set_address _ _) => apply printable_compare; [by apply Hc|exact Ha]
    | |- printable (set_value _ (set_address _ (set_dataWidth _ _))) => apply printable_write; [exact Ham|apply Hw; unfold prints_width; by rewrite Et|exact Ha|exact Hv]
    | |- printable (set_value _ (set_address _ (cmd_of_type _))) => by apply printable_mask_shift
    end.
Qed.

Lemma text_form_type cmd :
  sc_type cmd ≠ Invalid ∧ sc_type cmd ≠ Custom →
  sc_type (text_form cmd) = sc_type cmd
  ∨ sc_type cmd ∈ [VMEReadSwapped; VMEReadMemSwapped] ∧ vme_amods.is_block_mode (sc_amod cmd) = false ∧ sc_type (text_form cmd) = VMERead.
Proof.
  intros [H1 H2]. unfold text_form, block_read_form. destruct (sc_type cmd) eqn:Et; try done; try (by left);
    (destruct (vme_amods.is_block_mode (sc_amod cmd)); [left; by destruct (vme_amods.is_esst64_mode (sc_amod cmd))|]); try (by left); right; split_and!; try done; listed.
Qed.

Lemma extract_word w ws arg : is_word w → extract (mkStream arg (blanks (w :: ws))) = (true, mkStream w (blanks ws)).
Proof. intros Hw. unfold extract. cbn [st_rest st_arg]. by rewrite next_word_blanks. Qed.

Lemma number_arg_hex width n ws arg : 0 ≤ n < 2 ^ 64 → number_arg (mkStream arg (blanks (hex width n :: ws))) = Return (n, mkStream (hex width n) (blanks ws)).
Proof. intros Hn. unfold number_arg. rewrite extract_word by (by apply hex_word). cbn [st_arg]. by rewrite stoul_hex. Qed.

Lemma number_arg_dec n ws arg : 0 ≤ n < 2 ^ 64 → number_arg (mkStream arg (blanks (dec n :: ws))) = Return (n, mkStream (dec n) (blanks ws)).
Proof. intros Hn. unfold number_arg. rewrite extract_word by (by apply dec_word). cbn [st_arg]. by rewrite stoul_dec. Qed.

Lemma width_arg_text dw ws arg :
  dw = VMEDataWidth.D16 ∨ dw = VMEDataWidth.D32 →
  ∃ w, data_width_to_string dw = Return w ∧ width_arg (mkStream arg (blanks (w :: ws))) = Return (dw, mkStream w (blanks ws)).
Proof.
  intros [->| ->]; [exists "d16"%string|exists "d32"%string]; (split; [reflexivity|]); unfold width_arg;
    rewrite extract_word by (by split); reflexivity.
Qed.

(** The first word of a line is its name. *)
Lemma line_name name args : is_word name → next_word (line name args) = Some (name, blanks args).
Proof. apply next_word_first. Qed.


Lemma parse_single_read_text name t amod dw address late :
  is_u8 amod → dw = VMEDataWidth.D16 ∨ dw = VMEDataWidth.D32 → is_u32 address →
  let cmd := set_lateRead late (set_address address (set_dataWidth dw (set_amod amod (cmd_of_type t)))) in
  ∃ args, single_read_text name cmd = Return (line name args) ∧ parse_single_read t (mkStream EmptyString (blanks args)) = Return cmd.
Proof.
  intros Ham Hdw Ha cmd. unfold is_u8, is_u32 in *. unfold single_read_text. cbn [cmd sc_dataWidth sc_amod sc_address set_lateRead set_address set_dataWidth set_amod].
  destruct (width_arg_text dw (hex 8 address :: late_word cmd) (hex 2 amod) Hdw) as (w & Hw1 & Hw2). rewrite Hw1. cbn [mbind outcome_bind].
  eexists. split; [reflexivity|]. unfold parse_single_read. cbn [app]. rewrite number_arg_hex by lia. cbn [mbind outcome_bind]. rewrite Hw2.
  cbn [mbind outcome_bind]. rewrite number_arg_hex by lia. cbn [mbind outcome_bind]. unfold clear_arg. cbn [st_rest].
  assert (Hl : (let '(_, st) := extract (mkStream EmptyString (blanks (late_word cmd))) in
    (st_arg st =? "slow")%string || (st_arg st =? "late")%string) = late) by (unfold late_word; cbn; by destruct late).
  destruct (extract _) as [b st]. rewrite Hl, u32_id, u8_id by done. done.
Qed.

Lemma parse_block_read_text name t required amod transfers address :
  is_u8 amod → vme_amods.is_esst64_mode amod = false → is_u16 transfers → is_u32 address →
  let cmd := set_address address (set_transfers transfers (set_amod amod (cmd_of_type t))) in
  ∃ args, block_read_text name cmd = Return (line name args) ∧ parse_block_read t required (mkStream EmptyString (blanks args)) = Return cmd.
Proof.
  intros Ham He Ht Ha cmd. unfold is_u8, is_u16, is_u32 in *. unfold block_read_text. cbn [cmd sc_amod sc_address sc_transfers set_address set_transfers set_amod].
  rewrite He. eexists. split; [reflexivity|]. unfold parse_block_read. rewrite number_arg_hex by lia. cbn [mbind outcome_bind].
  rewrite number_arg_dec by lia. cbn [mbind outcome_bind]. rewrite number_arg_hex by lia. cbn [mbind outcome_bind].
  rewrite (u8_id amod), He, (u16_id transfers), (u32_id address) by done. done.
Qed.

Lemma parse_2eSST_read_text name t required amod transfers address rate :
  is_u8 amod → vme_amods.is_esst64_mode amod = true → is_u16 transfers → is_u32 address → is_u8 rate →
  let cmd := set_rate rate (set_address address (set_transfers transfers (set_amod amod (cmd_of_type t)))) in
  ∃ args, block_read_text name cmd = Return (line name args) ∧ parse_block_read t required (mkStream EmptyString (blanks args)) = Return cmd.
Proof.
  intros Ham He Ht Ha Hr cmd. unfold is_u8, is_u16, is_u32 in *. unfold block_read_text.
  cbn [cmd sc_amod sc_address sc_transfers sc_rate set_address set_transfers set_amod set_rate]. rewrite He. eexists. split; [reflexivity|].
  unfold parse_block_read. rewrite number_arg_hex by lia. cbn [mbind outcome_bind].
  rewrite number_arg_dec by lia. cbn [mbind outcome_bind]. rewrite number_arg_hex by lia. cbn [mbind outcome_bind].
  rewrite (u8_id amod), He by done. unfold clear_arg. cbn [st_rest]. rewrite extract_word by (apply dec_word; lia). cbn [orb st_arg].
  rewrite stoul_dec by lia. cbn [mbind outcome_bind]. rewrite (u8_id rate), (u16_id transfers), (u32_id address) by done. done.
Qed.

(** The branch that the name of a line selects. *)
Ltac dispatch :=
  unfold stack_command_from_string;
  match goal with |- context [(line ?n ?args =? "")%string] => change (line n args =? "")%string with false end;
  rewrite line_name by (by split); cbv iota beta;
  repeat match goal with
    | |- context [(?a =? ?b)%string] =>
        let v := eval vm_compute in (a =? b)%string in change (a =? b)%string with v; cbv iota; cbn [orb]
    end.

Section Roundtrip.
Context (emit_custom : Z → list Z → string) (load_custom : string → outcome (Z * list Z)).

Definition reads_back (cmd : StackCommand) : Prop :=
  ∃ str, to_string emit_custom cmd = Return str ∧ stack_command_from_string load_custom str = Return cmd.

Lemma read_back_single t amod dw address late :
  t ∈ [VMERead; VMEReadMem] ∧ vme_amods.is_block_mode amod = false ∨ t = ReadToAccu →
  is_u8 amod → dw = VMEDataWidth.D16 ∨ dw = VMEDataWidth.D32 → is_u32 address →
  reads_back (set_lateRead late (set_address address (set_dataWidth dw (set_amod amod (cmd_of_type t))))).
Proof.
  intros Ht Ham Hdw Ha. set (cmd := set_lateRead _ _).
  assert (Hs : ∀ name, ∃ args, single_read_text name cmd = Return (line name args) ∧ parse_single_read t (mkStream EmptyString (blanks args)) = Return cmd)
    by (intros name; by apply parse_single_read_text).
  destruct Ht as [[Ht Hb]| ->].
  - apply elem_of_cons in Ht as [->|Ht]; [|apply list_elem_of_singleton in Ht as ->].
    + destruct (Hs "vme_read"%string) as (args & H1 & H2). exists (line "vme_read" args).
      split; [unfold to_string; cbn [cmd sc_type set_lateRead set_address set_dataWidth set_amod cmd_of_type]; unfold read_text;
        cbn [sc_amod cmd set_lateRead set_address set_dataWidth set_amod]; rewrite Hb; exact H1|]. dispatch. exact H2.
    + destruct (Hs "vme_read_mem"%string) as (args & H1 & H2). exists (line "vme_read_mem" args).
      split; [unfold to_string; cbn [cmd sc_type set_lateRead set_address set_dataWidth set_amod cmd_of_type]; unfold read_text;
        cbn [sc_amod cmd set_lateRead set_address set_dataWidth set_amod]; rewrite Hb; exact H1|]. dispatch. exact H2.
  - destruct (Hs "read_to_accu"%string) as (args & H1 & H2). exists (line "read_to_accu" args). split; [exact H1|]. dispatch. exact H2.
Qed.

(** The four block reads, once their text and its parser agree. *)
Lemma read_back_block t cmd :
  t ∈ [VMERead; VMEReadSwapped; VMEReadMem; VMEReadMemSwapped] → sc_type cmd = t → vme_amods.is_block_mode (sc_amod cmd) = true →
  (∀ name required, ∃ args, block_read_text name cmd = Return (line name args) ∧ parse_block_read t required (mkStream EmptyString (blanks args)) = Return cmd) →
  reads_back cmd.
Proof.
  intros Ht Hty Hb Hs. unfold reads_back, to_string. rewrite Hty. unfold read_text. rewrite Hb. cbn [negb].
  repeat (apply elem_of_cons in Ht as [->|Ht]); [| | | |by apply elem_of_nil in Ht].
  - destruct (Hs "vme_block_read"%string false) as (args & H1 & H2). exists (line "vme_block_read" args). split; [exact H1|]. dispatch. exact H2.
  - destruct (Hs "vme_block_read_swapped"%string true) as (args & H1 & H2). exists (line "vme_block_read_swapped" args). split; [exact H1|]. dispatch. exact H2.
  - destruct (Hs "vme_block_read_mem"%string true) as (args & H1 & H2). exists (line "vme_block_read_mem" args). split; [exact H1|]. dispatch. exact H2.
  - destruct (Hs "vme_block_read_mem_swapped"%string true) as (args & H1 & H2). exists (line "vme_block_read_mem_swapped" args).
    split; [exact H1|]. dispatch. exact H2.
Qed.

Lemma read_back_value t value :
  t ∈ [WriteMarker; WriteSpecial; Wait; SetAccu; SoftwareDelay] → is_u32 value → reads_back (set_value value (cmd_of_type t)).
Proof.
  intros Ht Hv. assert (H64 : 0 ≤ value < 2 ^ 64) by (unfold is_u32 in Hv; lia).
  repeat (apply elem_of_cons in Ht as [->|Ht]); [| | | | |by apply elem_of_nil in Ht]; (eexists; split; [reflexivity|]);
    cbn [sc_value set_value]; dispatch; unfold parse_value; rewrite ?number_arg_hex, ?number_arg_dec by done; cbn [mbind outcome_bind];
    by rewrite u32_id.
Qed.

Lemma printable_reads_back cmd : printable cmd → reads_back cmd.
Proof.
  intros Hp. destruct Hp as [t Ht|t amod dw address late Ht Ham Hdw Ha|t amod transfers address Ht Ham Hb He Htr Ha
    |t amod transfers address rate Ht Ham Hb He Htr Ha Hr|amod dw address value Ham Hdw Ha Hv|t value Ht Hv|mask shift Hm Hs|comparator value Hc Hv].
  - repeat (apply elem_of_cons in Ht as [->|Ht]); [| | |by apply elem_of_nil in Ht]; (eexists; split; reflexivity).
  - by apply read_back_single.
  - apply (read_back_block t); try done. intros name required. by apply parse_block_read_text.
  - apply (read_back_block t); try done. intros name required. by apply parse_2eSST_read_text.
  - unfold is_u8, is_u32 in *. destruct (width_arg_text dw [hex 8 address; hex 8 value] (hex 2 amod) Hdw) as (w & Hw1 & Hw2).
    eexists. split; [unfold to_string; cbn [sc_type set_value set_address set_dataWidth set_amod cmd_of_type sc_dataWidth];
      rewrite Hw1; cbn [mbind outcome_bind]; reflexivity|]. dispatch.
    cbn [sc_amod sc_address sc_value set_value set_address set_dataWidth set_amod]. rewrite number_arg_hex by lia. cbn [mbind outcome_bind].
    rewrite Hw2. cbn [mbind outcome_bind]. rewrite number_arg_hex by lia. cbn [mbind outcome_bind]. rewrite number_arg_hex by lia.
    cbn [mbind outcome_bind]. by rewrite (u8_id amod), (u32_id address), (u32_id value) by done.
  - by apply read_back_value.
  - unfold is_u32 in *. eexists. split; [reflexivity|]. dispatch. cbn [sc_address sc_value set_value set_address].
    rewrite number_arg_hex by lia. cbn [mbind outcome_bind]. rewrite number_arg_dec by lia. cbn [mbind outcome_bind].
    by rewrite (u32_id mask), (u32_id shift) by done.
  - unfold is_u32 in Hv. repeat (apply elem_of_cons in Hc as [->|Hc]); [| | |by apply elem_of_nil in Hc];
      (eexists; split; [reflexivity|]); dispatch; rewrite extract_word by (by split); cbn [st_arg sc_address set_address];
      (match goal with |- context [accu_comparator_from_string ?w] => let v := eval vm_compute in (accu_comparator_from_string w) in
        change (accu_comparator_from_string w) with v end); cbn [mbind outcome_bind];
      rewrite number_arg_dec by lia; cbn [mbind outcome_bind]; by rewrite (u32_id value) by done.
Qed.

Lemma text_form_text cmd : sc_type cmd ≠ Custom → to_string emit_custom (text_form cmd) = to_string emit_custom cmd.
Proof.
  intros Hc. unfold text_form, block_read_form, single_read_form, to_string.
  destruct (sc_type cmd) eqn:Et; try done; unfold read_text, single_read_text, block_read_text;
    try (destruct (vme_amods.is_block_mode (sc_amod cmd)) eqn:Hb; [destruct (vme_amods.is_esst64_mode (sc_amod cmd)) eqn:He|]);
    cbn [sc_type sc_amod sc_dataWidth sc_address sc_transfers sc_rate set_lateRead set_address set_dataWidth set_amod set_transfers set_rate cmd_of_type];
    rewrite ?Et; cbn [sc_type sc_amod sc_dataWidth sc_address sc_transfers sc_rate set_lateRead set_address set_dataWidth set_amod set_transfers set_rate cmd_of_type];
    rewrite ?Hb, ?He; try done.
  all: cbn [sc_type sc_value sc_address set_value set_address cmd_of_type]; replace (u8 (u8 (sc_value cmd))) with (u8 (sc_value cmd)) by (symmetry; apply Zmod_mod); done.
Qed.

(** C35: the parser of command lines inverts the printer.  Every command that is neither
    invalid nor custom (custom ones go through the YAML library) and whose numbers fit
    their types, with a data width and a comparator that exist where its text has one, has
    a text, and from it comes back what the text says of the command ([text_form]): its
    type and the fields that are printed, the others with their defaults.  One type changes:
    swapped reads whose address modifier is no block mode are printed as [vme_read] and come back
    as plain reads.  So a command comes back unchanged exactly if it is its own [text_form]. *)
Theorem command_text_roundtrip cmd :
  text_ok cmd →
  ∃ str, to_string emit_custom cmd = Return str ∧ stack_command_from_string load_custom str = Return (text_form cmd)
    ∧ (sc_type (text_form cmd) = sc_type cmd
       ∨ sc_type cmd ∈ [VMEReadSwapped; VMEReadMemSwapped] ∧ vme_amods.is_block_mode (sc_amod cmd) = false ∧ sc_type (text_form cmd) = VMERead).
Proof.
  intros Ho. destruct (printable_reads_back _ (text_form_printable _ Ho)) as (str & H1 & H2). rewrite text_form_text in H1 by apply Ho.
  exists str. split_and!; [done|done|]. apply text_form_type, Ho.
Qed.

(** A write line without its last argument is not refused: the extraction at the end of
    the line leaves the variable as it was, and the address is taken for the value. *)
Theorem missing_value_is_address amod dw w address :
  is_u8 amod → dw = VMEDataWidth.D16 ∨ dw = VMEDataWidth.D32 → data_width_to_string dw = Return w → is_u32 address →
  stack_command_from_string load_custom (line "vme_write" [hex 2 amod; w; hex 8 address])
  = Return (set_value address (set_address address (set_dataWidth dw (set_amod amod (cmd_of_type VMEWrite))))).
Proof.
  unfold is_u8, is_u32. intros Ham Hdw Hw Ha. destruct (width_arg_text dw [hex 8 address] (hex 2 amod) Hdw) as (w' & Hw1 & Hw2).
  rewrite Hw in Hw1. injection Hw1 as <-. dispatch. rewrite number_arg_hex by lia. cbn [mbind outcome_bind]. rewrite Hw2. cbn [mbind outcome_bind].
  rewrite number_arg_hex by lia. cbn [mbind outcome_bind]. unfold number_arg, extract. cbn [st_rest st_arg]. rewrite next_word_none. cbn [st_arg].
  rewrite stoul_hex by lia. cbn [mbind outcome_bind]. by rewrite (u8_id amod), !(u32_id address) by done.
Qed.

End Roundtrip.

(** A write, and a swapped read of a single value. *)
Lemma command_text_roundtrip_witness :
  let cmd := set_value 0xAFFE (set_address 0x01006070 (set_dataWidth VMEDataWidth.D16 (set_amod 0x09 (cmd_of_type VMEWrite)))) in
  let swapped := set_address 0x01006070 (set_dataWidth VMEDataWidth.D16 (set_amod 0x09 (cmd_of_type VMEReadSwapped))) in
  to_string (λ _ _, EmptyString) cmd = Return "vme_write 0x09 d16 0x01006070 0x0000affe"%string
  ∧ (∃ str, to_string (λ _ _, EmptyString) cmd = Return str ∧ stack_command_from_string (λ _, Throw invalid_argument) str = Return cmd)
  ∧ ∃ str, to_string (λ _ _, EmptyString) swapped = Return str
      ∧ stack_command_from_string (λ _, Throw invalid_argument) str = Return (set_address 0x01006070 (set_dataWidth VMEDataWidth.D16 (set_amod 0x09 (cmd_of_type VMERead)))).
Proof.
  intros cmd swapped. split; [reflexivity|]. split.
  - destruct (command_text_roundtrip (λ _ _, EmptyString) (λ _, Throw invalid_argument) cmd) as (str & H1 & H2 & _).
    { constructor; cbn; try (by split); try (by left); unfold is_u8, is_u16, is_u32; try lia; done. }
    by exists str.
  - destruct (command_text_roundtrip (λ _ _, EmptyString) (λ _, Throw invalid_argument) swapped) as (str & H1 & H2 & _).
    { constructor; cbn; try (by split); try (by left); unfold is_u8, is_u16, is_u32; try lia; done. }
    by exists str.
Defined.
