(* ===== verification/Listfile.v ===== *)
(** * Listfiles: [mvlc_listfile.h/.cc] and [mvlc_listfile_util.h]

    Writing the preamble and system events of a listfile, reading the preamble back, and
    the buffered reader built on it.  Write and read handles are interfaces, as in the
    source; the handles on memory that the source has are instances. *)

From S2P Require Import Prelude Effects Constants Frames Commands ReadoutBuffer.

(** ** Handles *)

(** [write] returns the number of bytes written or throws. *)
(* mvlc_listfile.h:24-32 WriteHandle *)
Class WriteHandle (W : Type) : Type := { wh_write : list Z → SM W Z }.

(** [read] stores bytes at its destination and returns their number, [seek] returns the
    position reached; both can throw. *)
(* mvlc_listfile.h:34-46 ReadHandle *)
Class ReadHandle (R : Type) : Type := {
  rh_read : Z → R → outcome (list Z) * R;
  rh_seek : Z → R → outcome Z * R
}.

(* mvlc_listfile_util.h:20-34 BufferedWriteHandle *)
#[global] Instance BufferedWriteHandle : WriteHandle (list Z) := {
  wh_write data := λ buffer, Done (zlen data, buffer ++ data)
}.

(* mvlc_listfile_util.h:39-62 ReadoutBufferWriteHandle *)
#[global] Instance ReadoutBufferWriteHandle : WriteHandle ReadoutBuffer := {
  wh_write data := λ b,
    Done (zlen data, store_bytes data (ensureFreeSpace (zlen data) b))
}.

(** ** Crate configurations *)

(* mvlc_readout_config.h:14-57 CrateConfig *)
Record CrateConfig : Type := mkCrateConfig {
  crateId : Z;
  cc_connectionType : ConnectionType;
  usbIndex : Z;
  usbSerial : string;
  ethHost : string;
  ethJumboEnable : bool;
  cc_stacks : list StackCommandBuilder;
  cc_triggers : list Z;
  initRegisters : list (Z * Z);
  initTriggerIO : StackCommandBuilder;
  initCommands : StackCommandBuilder;
  stopCommands : StackCommandBuilder;
  mcstDaqStart : StackCommandBuilder;
  mcstDaqStop : StackCommandBuilder
}.

(** ** Magic bytes *)

Definition char_codes (s : string) : list Z := (λ c, Z.of_N (Ascii.N_of_ascii c)) <$> String.list_ascii_of_string s.

(* mvlc_constants.h:680-680 get_filemagic_len *)
Definition get_filemagic_len : Z := 8.
(* mvlc_constants.h:681-681 get_filemagic_eth *)
Definition get_filemagic_eth : list Z := char_codes "MVLC_ETH".
(* mvlc_constants.h:682-682 get_filemagic_usb *)
Definition get_filemagic_usb : list Z := char_codes "MVLC_USB".

(** ** Writing *)

Section Writing.
Context {W : Type} {HW : WriteHandle W}.

(* mvlc_listfile.h:52-55 listfile_write_raw *)
Definition listfile_write_raw (buffer : list Z) : SM W Z := wh_write buffer.

(* mvlc_listfile.cc:28-44 listfile_write_magic *)
Definition listfile_write_magic (ct : ConnectionType) : SM W () :=
  let magic := match ct with ETH => get_filemagic_eth | USB => get_filemagic_usb end in
  _ ← listfile_write_raw magic; mret ().

(* mvlc_listfile.cc:91-93 listfile_write_system_event *)
Definition section_header (crateId subtype : Z) : Z :=
  (frame_headers.SystemEvent ≪ frame_headers.TypeShift)
    .| ((crateId .& system_event.CtrlIdMask) ≪ system_event.CtrlIdShift)
    .| ((subtype .& system_event.SubtypeMask) ≪ system_event.SubtypeShift).

(** The loop over the sections of an event. *)
(* mvlc_listfile.cc:83-108 listfile_write_system_event *)
Fixpoint write_sections (fuel : nat) (crateId subtype : Z) (words : list Z) : SM W () :=
  match fuel with
  | O => hang
  | S fuel =>
      match words with
      | [] => mret ()
      | _ =>
          let wordsLeft := u32 (zlen words) in
          let wordsInSection := Z.min wordsLeft system_event.LengthMask in
          let isLastSection := wordsInSection =? wordsLeft in
          let header := section_header crateId subtype in
          let header := if isLastSection then header else header .| (1 ≪ system_event.ContinueShift) in
          let header := header .| ((wordsInSection .& system_event.LengthMask) ≪ system_event.LengthShift) in
          _ ← listfile_write_raw (le_bytes header);
          _ ← listfile_write_raw (words_to_bytes (ztake wordsInSection words));
          write_sections fuel crateId subtype (zdrop wordsInSection words)
      end
  end.

(* mvlc_listfile.cc:120-131 listfile_write_system_event *)
Definition listfile_write_empty_system_event (crateId subtype : Z) : SM W () :=
  if subtype >? system_event.subtype.SubtypeMax then raise (runtime_error "system event subtype out of range")
  else _ ← listfile_write_raw (le_bytes (section_header crateId subtype)); mret ().

(* mvlc_listfile.cc:67-118 listfile_write_system_event *)
Definition listfile_write_system_event (crateId subtype : Z) (words : list Z) : SM W () :=
  if zlen words =? 0 then listfile_write_empty_system_event crateId subtype
  else if subtype >? system_event.subtype.SubtypeMax then raise (runtime_error "system event subtype out of range")
  else write_sections (S (length words)) crateId subtype words.

(* mvlc_listfile.cc:46-51 listfile_write_endian_marker *)
Definition listfile_write_endian_marker (crateId : Z) : SM W () :=
  listfile_write_system_event crateId system_event.subtype.EndianMarker [system_event.EndianMarkerValue].

(** [now] is the time in seconds, a 64 bit number that is written as two words. *)
(* mvlc_listfile.cc:133-144 listfile_write_timestamp_section *)
Definition listfile_write_timestamp_section (now crateId subtype : Z) : SM W () :=
  let timestamp := u64 now in
  listfile_write_system_event crateId subtype [u32 timestamp; timestamp ≫ 32].

(** The YAML text of a configuration comes from a third-party library. *)
Context (to_yaml : CrateConfig → list Z).

(* mvlc_listfile.cc:57-59 listfile_write_crate_config *)
Definition pad_text (text : list Z) : list Z := text ++ replicate (Z.to_nat ((- zlen text) mod 4)) 32.

(* mvlc_listfile.cc:53-65 listfile_write_crate_config *)
Definition listfile_write_crate_config (config : CrateConfig) : SM W () :=
  let yaml := pad_text (to_yaml config) in
  listfile_write_system_event (u8 (crateId config)) system_event.subtype.MVLCCrateConfig
    (bytes_to_words (Z.to_nat (zlen yaml / 4)) yaml).

(* mvlc_listfile.h:64-69 listfile_write_preamble *)
Definition listfile_write_preamble (config : CrateConfig) : SM W () :=
  listfile_write_magic (cc_connectionType config);;
  listfile_write_endian_marker (u8 (crateId config));;
  listfile_write_crate_config config.

End Writing.

(** ** Reading *)

(* mvlc_listfile.h:112-128 SystemEvent *)
Record SystemEvent : Type := mkSystemEvent { se_type : Z; se_contents : list Z }.

(* mvlc_listfile.h:130-162 Preamble *)
Record Preamble : Type := mkPreamble { pre_magic : list Z; systemEvents : list SystemEvent; endOffset : Z }.

(* mvlc_listfile.h:144-156 findSystemEvent *)
Definition findSystemEvent (p : Preamble) (type : Z) : option SystemEvent :=
  snd <$> list_find (λ e, se_type e = type) (systemEvents p).

(* mvlc_listfile.h:158-161 findCrateConfig *)
Definition findCrateConfig (p : Preamble) : option SystemEvent :=
  findSystemEvent p system_event.subtype.MVLCCrateConfig.

(** The contents of the first run of events of the given type. *)
(* mvlc_listfile.h:179-204 get_sysevent_data *)
Fixpoint get_sysevent_data (sysEvents : list SystemEvent) (sysEventType : Z) : list Z :=
  let fix run (es : list SystemEvent) : list Z :=
    match es with
    | [] => []
    | e :: es => if se_type e =? sysEventType then se_contents e ++ run es else []
    end in
  match sysEvents with
  | [] => []
  | e :: es => if se_type e =? sysEventType then run sysEvents else get_sysevent_data es sysEventType
  end.

(* mvlc_listfile.h:165-165 PreambleReadMaxSize *)
Definition PreambleReadMaxSize : Z := 100 * 1024 * 1024.

Section Reading.
Context {R : Type} {HR : ReadHandle R}.

Definition read (maxSize : Z) : SM R (list Z) := λ rh, lift (rh_read maxSize rh).1 (rh_read maxSize rh).2.
Definition seek (pos : Z) : SM R Z := λ rh, lift (rh_seek pos rh).1 (rh_seek pos rh).2.

(** A destination of [size] zero bytes after a read into it. *)
Definition read_into (size : Z) : SM R (list Z) := bytes ← read size; mret (write_bytes 0 bytes (replicate (Z.to_nat size) 0)).

(* mvlc_listfile.h:93-99 read_magic *)
Definition read_magic : SM R (list Z) := _ ← seek 0; read_into get_filemagic_len.

(* mvlc_listfile.cc:149-154 typed_read *)
Definition typed_read : SM R Z := bytes ← read_into 4; mret (le_word bytes).

(** The sections of one event: the result is the last header read, the sum of the sizes,
    the offset and the contents. *)
(* mvlc_listfile.cc:195-215 read_preamble *)
Fixpoint read_sections (fuel : nat) (preambleMaxSize frameHeader totalContentsSize byteOffset : Z) (buffer : list Z)
    : SM R (Z * Z * Z * list Z) :=
  match fuel with
  | O => hang
  | S fuel =>
      let frameInfo := extract_frame_info frameHeader in
      if negb (fi_type frameInfo =? frame_headers.SystemEvent)
      then mret (frameHeader, totalContentsSize, byteOffset, buffer)
      else
        let frameBytes := fi_len frameInfo * 4 in
        if u64 (totalContentsSize + frameBytes) >? preambleMaxSize
        then raise (runtime_error "preambleMaxSize exceeded")
        else
          bytes ← read_into frameBytes;
          let buffer := buffer ++ bytes in
          let totalContentsSize := u64 (totalContentsSize + frameBytes) in
          let byteOffset := u64 (byteOffset + frameBytes) in
          if frameHeader .& (1 ≪ system_event.ContinueShift) =? 0
          then mret (frameHeader, totalContentsSize, byteOffset, buffer)
          else
            frameHeader ← typed_read;
            read_sections fuel preambleMaxSize frameHeader totalContentsSize (u64 (byteOffset + 4)) buffer
  end.

(** The loop over the events: the events and the offset behind them. *)
(* mvlc_listfile.cc:176-221 read_preamble *)
Fixpoint read_events (fuel : nat) (preambleMaxSize totalContentsSize byteOffset : Z) (events : list SystemEvent)
    : SM R (list SystemEvent * Z) :=
  match fuel with
  | O => hang
  | S fuel' =>
      frameHeader ← typed_read;
      let byteOffset := u64 (byteOffset + 4) in
      let frameInfo := extract_frame_info frameHeader in
      if negb (fi_type frameInfo =? frame_headers.SystemEvent) then mret (events, byteOffset)
      else
        let type := system_event.extract_subtype frameHeader in
        '(lastHeader, total, byteOffset, contents) ← read_sections fuel preambleMaxSize frameHeader totalContentsSize byteOffset [];
        let events := events ++ [mkSystemEvent type contents] in
        if system_event.extract_subtype lastHeader =? system_event.subtype.BeginRun then mret (events, byteOffset)
        else read_events fuel' preambleMaxSize total byteOffset events
  end.

(* mvlc_listfile.cc:161-229 read_preamble *)
Definition read_preamble (fuel : nat) (preambleMaxSize : Z) : SM R Preamble :=
  magic ← read_magic;
  '(events, byteOffset) ← read_events fuel preambleMaxSize 0 (zlen magic) [];
  _ ← seek (zlen magic);
  mret (mkPreamble magic events byteOffset).

End Reading.

(** ** The reader with buffers *)

(* mvlc_listfile_util.h:79-90 ListfileReaderHelper *)
Record ListfileReaderHelper (R : Type) : Type := mkReaderHelper {
  destBuf : ReadoutBuffer;
  tempBuf : list Z;
  readHandle : R;
  lrh_preamble : Preamble;
  bufferFormat : ConnectionType;
  totalBytesRead : Z
}.
Arguments mkReaderHelper {R} destBuf tempBuf readHandle lrh_preamble bufferFormat totalBytesRead.
Arguments destBuf {R}.
Arguments tempBuf {R}.
Arguments readHandle {R}.
Arguments lrh_preamble {R}.
Arguments bufferFormat {R}.
Arguments totalBytesRead {R}.

Section Helper.
Context {R : Type} {HR : ReadHandle R}.

(* mvlc_listfile_util.h:92-104 make_listfile_reader_helper *)
Definition make_listfile_reader_helper (fuel : nat) (rh : R) : res (ListfileReaderHelper R) :=
  match read_preamble fuel PreambleReadMaxSize rh with
  | Done (preamble, rh) =>
      let format := if bool_decide (pre_magic preamble = get_filemagic_usb) then USB else ETH in
      Done (mkReaderHelper (setType format (new_buffer (1 ≪ 20))) [] rh preamble format get_filemagic_len)
  | Raise e => Raise e
  | Hangs => Hangs
  | Broken => Broken
  end.

(** Exceptions are swallowed; without enough fuel [fixup_buffer] does not return. *)
(* mvlc_listfile_util.h:106-138 read_next_buffer *)
Definition read_next_buffer (fuel : nat) (h : ListfileReaderHelper R) : res (ListfileReaderHelper R) :=
  let dest := ensureFreeSpace (zlen (tempBuf h)) (destBuf h) in
  let dest := store_bytes (tempBuf h) dest in
  let '(bytes, rh) := rh_read (free dest) (readHandle h) in
  match bytes with
  | Throw _ => Done (mkReaderHelper dest [] rh (lrh_preamble h) (bufferFormat h) (totalBytesRead h))
  | Undefined => Broken
  | Return bytes =>
      let dest := store_bytes bytes dest in
      let total := u64 (totalBytesRead h + zlen bytes) in
      match fixup_buffer fuel (bufferFormat h) (viewU8 dest) [] with
      | None => Hangs
      | Some (bytesMoved, temp) =>
          Done (mkReaderHelper (setUsed (m_used dest - bytesMoved) dest) temp rh (lrh_preamble h) (bufferFormat h) total)
      end
  end.

End Helper.
