(* ===== verification/ListfileFacts.v ===== *)
(** * Listfiles: what is written is read back

    Laws of the handles, the bytes of a system event, and the round trip of a preamble. *)

From S2P Require Import Prelude Effects Constants Frames FramesFacts Commands ReadoutBuffer Bits Listfile.

(** ** Laws of the handles *)

(** Written data is appended to what the handle has taken so far. *)
Class WriteHandleLaws (W : Type) `{!WriteHandle W} : Type := {
  wh_contents : W → list Z;
  wh_ok : W → Prop;
  wh_write_law : ∀ w data, wh_ok w →
    ∃ w', wh_write data w = Done (zlen data, w') ∧ wh_ok w' ∧ wh_contents w' = wh_contents w ++ data
}.

(** Reading delivers as many bytes as there are, up to the size asked for; seeking stops
    at the end of the file. *)
Class ReadHandleLaws (R : Type) `{!ReadHandle R} : Type := {
  rh_file : R → list Z;
  rh_pos : R → Z;
  rh_pos_range : ∀ r, 0 ≤ rh_pos r ≤ zlen (rh_file r);
  rh_read_law : ∀ r n, 0 ≤ n →
    ∃ r', rh_read n r = (Return (ztake n (zdrop (rh_pos r) (rh_file r))), r')
      ∧ rh_file r' = rh_file r ∧ rh_pos r' = rh_pos r + Z.min n (zlen (rh_file r) - rh_pos r);
  rh_seek_law : ∀ r n, 0 ≤ n →
    ∃ r', rh_seek n r = (Return (Z.min n (zlen (rh_file r))), r')
      ∧ rh_file r' = rh_file r ∧ rh_pos r' = Z.min n (zlen (rh_file r))
}.

#[global, program] Instance BufferedWriteHandle_laws : WriteHandleLaws (list Z) := {
  wh_contents := id;
  wh_ok _ := True
}.
Next Obligation. intros w data _. by eexists. Qed.

#[global, program] Instance ReadoutBufferWriteHandle_laws : WriteHandleLaws ReadoutBuffer := {
  wh_contents := viewU8;
  wh_ok b := 0 ≤ m_used b ≤ zlen (m_buffer b)
}.
Next Obligation.
  intros b data Hb. cbn in Hb. pose proof (zlen_nonneg data). destruct (ensureFreeSpace_view (zlen data) b) as (Hu & Hl & Hf & Hv & _); [lia|done|].
  destruct (store_bytes_ok data (ensureFreeSpace (zlen data) b)) as (Hu' & Hl' & Hv'); [lia|done|].
  eexists. split; [done|]. split; [|by rewrite Hv', Hv]. unfold free, capacity in Hf. lia.
Qed.

(** A file in memory. *)
Record MemFile : Type := mkMemFile { mf_file : list Z; mf_pos : nat }.

#[global] Instance MemFile_read : ReadHandle MemFile := {
  rh_read n f :=
    let bytes := ztake n (drop (mf_pos f) (mf_file f)) in
    (Return bytes, mkMemFile (mf_file f) (mf_pos f + length bytes));
  rh_seek n f := (Return (Z.min n (zlen (mf_file f))), mkMemFile (mf_file f) (Z.to_nat (Z.min n (zlen (mf_file f)))))
}.

#[global, program] Instance MemFile_laws : ReadHandleLaws MemFile := {
  rh_file := mf_file;
  rh_pos f := Z.min (Z.of_nat (mf_pos f)) (zlen (mf_file f))
}.
Next Obligation. intros f. pose proof (zlen_nonneg (mf_file f)). cbn; lia. Qed.
Next Obligation.
  intros f n Hn. eexists (mkMemFile (mf_file f) _). split; [|split; [done|]].
  - cbn [rh_read MemFile_read]. repeat f_equal. unfold zdrop, zlen.
    destruct (decide (mf_pos f ≤ length (mf_file f))%nat); [f_equal; lia|]. by rewrite !drop_ge by lia.
  - cbn [mf_file mf_pos]. unfold ztake, zlen. rewrite length_take, length_drop. lia.
Qed.
Next Obligation. intros f n Hn. eexists. split; [done|]. split; [done|]. cbn. pose proof (zlen_nonneg (mf_file f)). lia. Qed.

(** ** The bytes of a system event *)

(** Sections of at most 8191 words; all but the last have the continue bit. *)
Inductive sections (crate subtype : Z) : list Z → list Z → Prop :=
| sections_last ws : zlen ws ≤ 8191 →
    sections crate subtype ws (le_bytes (sysevent_word 0 crate subtype (zlen ws)) ++ words_to_bytes ws)
| sections_more ws1 ws2 bs : zlen ws1 = 8191 → ws2 ≠ [] → sections crate subtype ws2 bs →
    sections crate subtype (ws1 ++ ws2) (le_bytes (sysevent_word 1 crate subtype 8191) ++ words_to_bytes ws1 ++ bs).

Lemma section_header_word crate subtype :
  0 ≤ crate → 0 ≤ subtype < 128 → section_header crate subtype = sysevent_word 0 (crate mod 8) subtype 0.
Proof.
  intros Hc Hs. unfold section_header, sysevent_word, frame_headers.SystemEvent, frame_headers.TypeShift, system_event.CtrlIdMask,
    system_event.CtrlIdShift, system_event.SubtypeMask, system_event.SubtypeShift.
  change 7 with (2 ^ 3 - 1). change 127 with (2 ^ 7 - 1). rewrite !land_mask, !shiftl_mul by lia.
  pose proof (Z.mod_pos_bound crate 8). rewrite (Z.mod_small subtype) by lia. change (2 ^ 3) with 8.
  rewrite (lor_add (crate mod 8 * 2 ^ 20) _ 24), (lor_add (subtype * 2 ^ 13) _ 20) by (lia || zlia). lia.
Qed.

Lemma section_word cont crate subtype n :
  0 ≤ crate → 0 ≤ subtype < 128 → 0 ≤ n ≤ 8191 → (cont = 0 ∨ cont = 1) →
  (if cont =? 0 then section_header crate subtype else section_header crate subtype .| (1 ≪ system_event.ContinueShift))
    .| ((n .& system_event.LengthMask) ≪ system_event.LengthShift)
  = sysevent_word cont (crate mod 8) subtype n.
Proof.
  intros Hc Hs Hn Hcont. rewrite section_header_word by done. unfold sysevent_word, system_event.ContinueShift, system_event.LengthMask,
    system_event.LengthShift, frame_headers.SystemEvent. change 8191 with (2 ^ 13 - 1). rewrite land_mask, (shiftl_mul 1), (shiftl_mul _ 0) by lia.
  pose proof (Z.mod_pos_bound crate 8). rewrite (Z.mod_small n) by lia.
  assert (He : (if cont =? 0 then 250 * 2 ^ 24 + 0 * 2 ^ 23 + crate mod 8 * 2 ^ 20 + subtype * 2 ^ 13 + 0
      else (250 * 2 ^ 24 + 0 * 2 ^ 23 + crate mod 8 * 2 ^ 20 + subtype * 2 ^ 13 + 0) .| (1 * 2 ^ 23))
    = 250 * 2 ^ 24 + cont * 2 ^ 23 + crate mod 8 * 2 ^ 20 + subtype * 2 ^ 13).
  { destruct Hcont as [-> | ->]; [cbn; lia|]. change (1 =? 0) with false. cbv iota.
    replace (250 * 2 ^ 24 + 0 * 2 ^ 23 + crate mod 8 * 2 ^ 20 + subtype * 2 ^ 13 + 0)
      with (250 * 2 ^ 24 + (crate mod 8 * 2 ^ 20 + subtype * 2 ^ 13)) by lia.
    rewrite (lor_hole _ _ 1 23 24) by (lia || zlia). lia. }
  rewrite He, (lor_add (n * 2 ^ 0) _ 13) by (lia || zlia). lia.
Qed.

Section Written.
Context {W : Type} {HW : WriteHandle W} {HL : WriteHandleLaws W}.

(** A computation that returns after appending the given bytes. *)
Definition writes (m : SM W ()) (bs : list Z) : Prop := ∀ w, wh_ok w →
  ∃ w', m w = Done ((), w') ∧ wh_ok w' ∧ wh_contents w' = wh_contents w ++ bs.

Lemma writes_ret : writes (mret ()) [].
Proof. intros w Hw. exists w. by rewrite app_nil_r. Qed.

Lemma writes_seq m1 m2 bs1 bs2 : writes m1 bs1 → writes m2 bs2 → writes (m1;; m2) (bs1 ++ bs2).
Proof.
  intros H1 H2 w Hw. destruct (H1 w Hw) as (w1 & E1 & Hw1 & Hc1). destruct (H2 w1 Hw1) as (w2 & E2 & Hw2 & Hc2).
  exists w2. rewrite (bind_Done_eq _ _ _ _ _ E1), E2, Hc2, Hc1, app_assoc. done.
Qed.

Lemma writes_raw data m bs : writes m bs → writes (_ ← listfile_write_raw data; m) (data ++ bs).
Proof.
  intros Hm w Hw. destruct (wh_write_law w data Hw) as (w1 & E & Hw1 & Hc1). destruct (Hm w1 Hw1) as (w2 & E2 & Hw2 & Hc2).
  exists w2. unfold listfile_write_raw. rewrite (bind_Done_eq _ _ _ _ _ E), E2, Hc2, Hc1, app_assoc. done.
Qed.

Lemma writes_raw_last data m : writes m [] → writes (_ ← listfile_write_raw data; m) data.
Proof. intros Hm%(writes_raw data). by rewrite app_nil_r in Hm. Qed.

Lemma write_sections_ok crate subtype fuel words :
  0 ≤ crate → 0 ≤ subtype < 128 → words ≠ [] → zlen words < 2 ^ 32 → (length words < fuel)%nat →
  ∃ bs, sections (crate mod 8) subtype words bs ∧ writes (write_sections fuel crate subtype words) bs.
Proof.
  intros Hc Hs. revert words; induction fuel as [|fuel IH]; intros words Hne Hlt Hf; [lia|].
  pose proof (zlen_pos words Hne) as Hpos. assert (Hu : u32 (zlen words) = zlen words) by (apply Z.mod_small; lia).
  assert (Hstep : write_sections (S fuel) crate subtype words =
    (let n := Z.min (zlen words) 8191 in
     _ ← listfile_write_raw (le_bytes (sysevent_word (if n =? zlen words then 0 else 1) (crate mod 8) subtype n));
     _ ← listfile_write_raw (words_to_bytes (ztake n words));
     write_sections fuel crate subtype (zdrop n words))).
  { destruct words as [|w ws]; [done|]. cbn [write_sections]. cbv zeta. rewrite Hu. change system_event.LengthMask with 8191.
    rewrite <- (section_word (if Z.min (zlen (w :: ws)) 8191 =? zlen (w :: ws) then 0 else 1)) by (lia || (destruct (_ =? _); auto)).
    by destruct (_ =? zlen (w :: ws)). }
  rewrite Hstep. cbv zeta. clear Hstep. destruct (decide (zlen words ≤ 8191)) as [Hl|Hl].
  - rewrite Z.min_l, Z.eqb_refl by lia. rewrite ztake_all, zdrop_all by lia. eexists. split; [by constructor|].
    apply writes_raw, writes_raw_last. destruct fuel as [|fuel]; [destruct words; cbn in Hf; [done|lia]|].
    apply writes_ret.
  - rewrite Z.min_r by lia. replace (8191 =? zlen words) with false by lia.
    destruct (IH (zdrop 8191 words)) as (bs & Hbs & Hw).
    { apply zdrop_nonempty. lia. }
    { rewrite zlen_zdrop; lia. }
    { unfold zdrop, zlen in *. rewrite length_drop. lia. }
    exists (le_bytes (sysevent_word 1 (crate mod 8) subtype 8191) ++ words_to_bytes (ztake 8191 words) ++ bs). split.
    + rewrite <- (ztake_zdrop 8191 words) at 1. constructor; [rewrite zlen_ztake; lia|apply zdrop_nonempty; lia|done].
    + by apply writes_raw, writes_raw.
Qed.

(** Writing a system event with a valid subtype. *)
Lemma write_event_ok crate subtype words :
  0 ≤ crate → 0 ≤ subtype < 128 → zlen words < 2 ^ 32 →
  ∃ bs, sections (crate mod 8) subtype words bs ∧ writes (listfile_write_system_event crate subtype words) bs.
Proof.
  intros Hc Hs Hl. unfold listfile_write_system_event, listfile_write_empty_system_event, system_event.subtype.SubtypeMax, system_event.SubtypeMask.
  replace (subtype >? 127) with false by lia. destruct (zlen words =? 0) eqn:E.
  - apply Z.eqb_eq, zlen_0 in E as ->. eexists. split; [by constructor|]. rewrite section_header_word by done. apply writes_raw, writes_ret.
  - apply write_sections_ok; [done..| | |lia]; [|done]. intros ->. done.
Qed.

End Written.

(** ** Reading events back *)

Lemma sysevent_word_fields cont crate subtype len :
  0 ≤ cont < 2 → 0 ≤ crate < 8 → 0 ≤ subtype < 128 → 0 ≤ len < 8192 →
  let h := sysevent_word cont crate subtype len in
  is_u32 h ∧ fi_type (extract_frame_info h) = frame_headers.SystemEvent ∧ fi_len (extract_frame_info h) = len
  ∧ system_event.extract_subtype h = subtype ∧ (h .& (1 ≪ system_event.ContinueShift) =? 0) = (cont =? 0).
Proof.
  intros Hc Hi Hs Hl h. subst h. rewrite extract_sysevent_word by lia. split; [|split; [done|split; [done|split]]].
  - unfold is_u32, sysevent_word, frame_headers.SystemEvent. lia.
  - unfold system_event.extract_subtype, sysevent_word, frame_headers.SystemEvent, system_event.SubtypeShift, system_event.SubtypeMask.
    rewrite (field_eq _ 13 7) by lia. zlia.
  - change (1 ≪ system_event.ContinueShift) with (2 ^ 23). rewrite Z.land_comm, land_pow2_zero, Z.testbit_eqb by done. unfold sysevent_word, frame_headers.SystemEvent.
    replace (_ mod 2) with cont by zlia. lia.
Qed.

Section ReadBack.
Context {R : Type} {HR : ReadHandle R} {HL : ReadHandleLaws R}.

(** What is left of the file behind the position of the handle. *)
Definition rest (r : R) : list Z := zdrop (rh_pos r) (rh_file r).

Lemma read_ok r bs tl :
  rest r = bs ++ tl →
  ∃ r', read (zlen bs) r = Done (bs, r') ∧ rh_file r' = rh_file r ∧ rh_pos r' = rh_pos r + zlen bs ∧ rest r' = tl.
Proof.
  intros Hr. pose proof (rh_pos_range r) as Hp. pose proof (zlen_nonneg bs). pose proof (zlen_nonneg tl).
  assert (Hl : zlen (rh_file r) - rh_pos r = zlen bs + zlen tl) by (rewrite <- zlen_app, <- Hr; unfold rest; rewrite zlen_zdrop; lia).
  destruct (rh_read_law r (zlen bs)) as (r' & E & Hf & Hq); [lia|]. fold (rest r) in E. rewrite Hr, ztake_app in E.
  exists r'. unfold read. rewrite E. split; [done|]. split; [done|]. assert (Hq' : rh_pos r' = rh_pos r + zlen bs) by lia. split; [done|].
  unfold rest in *. rewrite Hf, Hq'. replace tl with (zdrop (zlen bs) (zdrop (rh_pos r) (rh_file r))) by (rewrite Hr; apply zdrop_app).
  unfold zdrop. rewrite drop_drop. f_equal. lia.
Qed.

Lemma write_bytes_all bs n : zlen bs = n → write_bytes 0 bs (replicate (Z.to_nat n) 0) = bs.
Proof. intros <-. unfold write_bytes. rewrite zdrop_all; [by rewrite app_nil_r|]. rewrite zlen_replicate. pose proof (zlen_nonneg bs). lia. Qed.

Lemma read_into_ok r bs tl :
  rest r = bs ++ tl →
  ∃ r', read_into (zlen bs) r = Done (bs, r') ∧ rh_file r' = rh_file r ∧ rh_pos r' = rh_pos r + zlen bs ∧ rest r' = tl.
Proof.
  intros (r' & E & H)%read_ok. exists r'. split; [|done]. unfold read_into. rewrite (bind_Done_eq _ _ _ _ _ E), write_bytes_all; done.
Qed.

Lemma typed_read_ok r w tl :
  is_u32 w → rest r = le_bytes w ++ tl →
  ∃ r', typed_read r = Done (w, r') ∧ rh_file r' = rh_file r ∧ rh_pos r' = rh_pos r + 4 ∧ rest r' = tl.
Proof.
  intros Hw (r' & E & H)%read_into_ok. exists r'. split; [|done]. unfold typed_read. rewrite (bind_Done_eq _ _ _ _ _ E).
  by rewrite <- (app_nil_r (le_bytes w)), le_word_bytes.
Qed.

Lemma read_sections_ok crate subtype ws bs max :
  0 ≤ crate < 8 → 0 ≤ subtype < 128 → max < 2 ^ 63 → sections crate subtype ws bs →
  ∀ r tl total off buf fuel,
    rest r = bs ++ tl → 0 ≤ total → total + 4 * zlen ws ≤ max → 0 ≤ off → off + zlen bs < 2 ^ 64 → (length bs < fuel)%nat →
    ∃ h r1 h' r', typed_read r = Done (h, r1)
      ∧ fi_type (extract_frame_info h) = frame_headers.SystemEvent ∧ system_event.extract_subtype h = subtype
      ∧ read_sections fuel max h total (u64 (off + 4)) buf r1 = Done ((h', total + 4 * zlen ws, off + zlen bs, buf ++ words_to_bytes ws), r')
      ∧ system_event.extract_subtype h' = subtype ∧ rh_file r' = rh_file r ∧ rest r' = tl.
Proof.
  intros Hc Hs Hm Hsec. induction Hsec as [ws Hl|ws1 ws2 bs Hl Hne Hsec IH]; intros r tl total off buf fuel Hr Ht Hmax Ho Hoff Hf;
    (destruct fuel as [|fuel]; [lia|]); rewrite <- !app_assoc in Hr.
  - pose proof (zlen_nonneg ws). destruct (sysevent_word_fields 0 crate subtype (zlen ws)) as (Hu & Hty & Hlen & Hsub & Hcont); [lia..|].
    set (h := sysevent_word 0 crate subtype (zlen ws)) in *. destruct (typed_read_ok r h _ Hu Hr) as (r1 & E1 & Hf1 & Hp1 & Hr1).
    destruct (read_into_ok r1 _ _ Hr1) as (r2 & E2 & Hf2 & Hp2 & Hr2). exists h, r1, h, r2. rewrite zlen_app, zlen_words_to_bytes in *.
    change (zlen (le_bytes h)) with 4 in *. split_and!; try done; [|congruence]. cbn [read_sections]. rewrite Hty, Hlen, Hcont. cbn [negb Z.eqb].
    rewrite Z.eqb_refl. cbn [negb]. unfold u64. rewrite (Z.mod_small (total + zlen ws * 4)) by lia. replace (_ >? max) with false by lia.
    rewrite Z.mul_comm in E2. rewrite (bind_Done_eq _ _ _ _ _ E2). cbv zeta. rewrite (Z.mod_small (off + 4)), Z.mod_small by lia.
    replace (off + 4 + zlen ws * 4) with (off + (4 + 4 * zlen ws)) by lia. by rewrite (Z.mul_comm (zlen ws)).
  - destruct (sysevent_word_fields 1 crate subtype 8191) as (Hu & Hty & Hlen & Hsub & Hcont); [lia..|].
    set (h := sysevent_word 1 crate subtype 8191) in *. destruct (typed_read_ok r h _ Hu Hr) as (r1 & E1 & Hf1 & Hp1 & Hr1).
    destruct (read_into_ok r1 _ _ Hr1) as (r2 & E2 & Hf2 & Hp2 & Hr2). rewrite !zlen_app, zlen_words_to_bytes in *.
    change (zlen (le_bytes h)) with 4 in *. rewrite Hl in *. pose proof (zlen_nonneg ws2). pose proof (zlen_nonneg bs).
    destruct (IH r2 tl (total + 8191 * 4) (off + 4 + 8191 * 4) (buf ++ words_to_bytes ws1) fuel)
      as (h2 & r3 & h' & r' & E3 & Hty2 & Hsub2 & E4 & Hsub' & Hf' & Hr'); [done|lia..|rewrite !length_app in Hf; cbn in Hf; lia|].
    exists h, r1, h', r'. split_and!; try done; [|congruence]. cbn [read_sections]. rewrite Hty, Hlen, Hcont, Z.eqb_refl. cbn [negb].
    unfold u64 in *. rewrite (Z.mod_small (total + 8191 * 4)) by lia. replace (_ >? max) with false by lia.
    change (8191 * 4) with (4 * 8191) at 1. rewrite (bind_Done_eq _ _ _ _ _ E2). cbv zeta. change (1 =? 0) with false. cbv iota.
    rewrite (bind_Done_eq _ _ _ _ _ E3). rewrite (Z.mod_small (off + 4)), (Z.mod_small (off + 4 + 8191 * 4)) by lia. rewrite E4.
    rewrite words_to_bytes_app, app_assoc. replace (total + 8191 * 4 + 4 * zlen ws2) with (total + 4 * (8191 + zlen ws2)) by lia.
    by replace (off + 4 + 8191 * 4 + zlen bs) with (off + (4 + (4 * 8191 + zlen bs))) by lia.
Qed.

(** Events as they are written: controller id, subtype and words. *)
Definition to_event (e : Z * Z * list Z) : SystemEvent := mkSystemEvent e.1.2 (words_to_bytes e.2).
Definition enc_event (e : Z * Z * list Z) (bs : list Z) : Prop := sections (e.1.1 mod 8) e.1.2 e.2 bs ∧ 0 ≤ e.1.2 < 128.
Definition contents_size (es : list (Z * Z * list Z)) : Z := foldr (λ e n, 4 * zlen e.2 + n) 0 es.

Lemma contents_size_nonneg es : 0 ≤ contents_size es.
Proof. induction es as [|e es IH]; [done|]. cbn [contents_size foldr]. fold (contents_size es). pose proof (zlen_nonneg e.2). lia. Qed.

Lemma sections_nonempty c t ws bs : sections c t ws bs → (4 ≤ length bs)%nat.
Proof. intros []; rewrite !length_app, length_le_bytes; lia. Qed.

(** One round of the loop over the events. *)
Lemma read_event_step e bs max r tl total off evs fuel :
  enc_event e bs → max < 2 ^ 63 → rest r = bs ++ tl → 0 ≤ total → total + 4 * zlen e.2 ≤ max →
  0 ≤ off → off + zlen bs < 2 ^ 64 → (length bs < S fuel)%nat →
  ∃ r', read_events (S fuel) max total off evs r
      = (if e.1.2 =? system_event.subtype.BeginRun then mret (evs ++ [to_event e], off + zlen bs)
         else read_events fuel max (total + 4 * zlen e.2) (off + zlen bs) (evs ++ [to_event e])) r'
    ∧ rh_file r' = rh_file r ∧ rest r' = tl.
Proof.
  intros [Hsec Ht] Hm Hr H0 Htot Ho Hoff Hf. assert (Hc : 0 ≤ e.1.1 mod 8 < 8) by (apply Z.mod_pos_bound; lia).
  destruct (read_sections_ok _ _ _ _ max Hc Ht Hm Hsec r tl total off [] (S fuel) Hr H0 Htot Ho Hoff Hf)
    as (h & r1 & h' & r' & E1 & Hty & Hsub & E2 & Hsub' & Hf' & Hr'). exists r'. split; [|done].
  cbn [read_events]. rewrite (bind_Done_eq _ _ _ _ _ E1). cbv zeta. rewrite Hty, Z.eqb_refl. cbn [negb].
  rewrite (bind_Done_eq _ _ _ _ _ E2). by rewrite Hsub, Hsub'.
Qed.

Lemma read_events_ok max e bs : ∀ es bss r tl total off evs fuel,
  enc_event e bs → e.1.2 = system_event.subtype.BeginRun →
  Forall2 enc_event es bss → Forall (λ e, e.1.2 ≠ system_event.subtype.BeginRun) es →
  max < 2 ^ 63 → rest r = concat bss ++ bs ++ tl → 0 ≤ total → total + contents_size es + 4 * zlen e.2 ≤ max →
  0 ≤ off → off + zlen (concat bss ++ bs) < 2 ^ 64 → (length (concat bss ++ bs) < fuel)%nat →
  ∃ r', read_events fuel max total off evs r = Done ((evs ++ (to_event <$> es) ++ [to_event e], off + zlen (concat bss ++ bs)), r')
    ∧ rh_file r' = rh_file r ∧ rest r' = tl.
Proof.
  induction es as [|e1 es IH]; intros bss r tl total off evs fuel He Hb Hes Hnb Hm Hr H0 Htot Ho Hoff Hf;
    (destruct fuel as [|fuel]; [lia|]).
  - apply Forall2_nil_inv_l in Hes as ->. cbn [concat app contents_size foldr] in *.
    destruct (read_event_step e bs max r tl total off evs fuel) as (r' & E & H); try done; try lia. exists r'. by rewrite E, Hb.
  - apply Forall2_cons_inv_l in Hes as (bs1 & bss' & He1 & Hes & ->). apply Forall_cons in Hnb as [Hn1 Hnb].
    cbn [concat contents_size foldr] in *. fold (contents_size es) in *. pose proof (contents_size_nonneg es).
    rewrite <- !app_assoc in *. pose proof (zlen_nonneg e.2). pose proof (zlen_nonneg e1.2). rewrite zlen_app in *.
    pose proof (zlen_nonneg (concat bss' ++ bs)). pose proof (sections_nonempty _ _ _ _ (proj1 He1)). rewrite length_app in Hf.
    destruct (read_event_step e1 bs1 max r _ total off evs fuel He1 Hm Hr) as (r1 & E & Hf1 & Hr1); [lia..|]. rewrite E.
    replace (e1.1.2 =? system_event.subtype.BeginRun) with false by lia. pose proof (zlen_nonneg bs1).
    destruct (IH bss' r1 tl (total + 4 * zlen e1.2) (off + zlen bs1) (evs ++ [to_event e1]) fuel) as (r' & E' & Hf' & Hr');
      try done; try lia. exists r'. rewrite E', <- app_assoc, Z.add_assoc. split; [done|]. split; [congruence|done].
Qed.

End ReadBack.

(** ** The round trip *)

Lemma le_bytes_word a b c d tl :
  is_u8 a → is_u8 b → is_u8 c → is_u8 d → le_bytes (le_word (a :: b :: c :: d :: tl)) = [a; b; c; d].
Proof.
  unfold is_u8. intros Ha Hb Hc Hd. unfold le_word, le_bytes. rewrite !shiftl_mul by lia.
  rewrite (lor_mul_add a b 8), (lor_mul_add _ c 16), (lor_mul_add _ d 24) by lia.
  change 255 with (2 ^ 8 - 1). rewrite !land_mask, !shiftr_div by lia. by repeat (apply f_equal2; [zlia|]).
Qed.

Lemma words_of_bytes n bytes :
  Forall is_u8 bytes → length bytes = (4 * n)%nat → words_to_bytes (bytes_to_words n bytes) = bytes.
Proof.
  revert bytes; induction n as [|n IH]; intros bytes Hb Hl; [by destruct bytes|].
  destruct bytes as [|a [|b [|c [|d bytes]]]]; cbn [length] in Hl; try lia.
  apply Forall_cons in Hb as [Ha Hb]. apply Forall_cons in Hb as [Hb' Hb]. apply Forall_cons in Hb as [Hc Hb]. apply Forall_cons in Hb as [Hd Hb].
  cbn [bytes_to_words]. change (drop 4 (a :: b :: c :: d :: bytes)) with bytes. rewrite words_to_bytes_cons, le_bytes_word, (IH bytes Hb) by (done || lia). done.
Qed.

Lemma pad_text_size text : zlen (pad_text text) mod 4 = 0 ∧ zlen text ≤ zlen (pad_text text) ≤ zlen text + 3.
Proof. unfold pad_text. rewrite zlen_app, zlen_replicate. zlia. Qed.

Lemma pad_text_words text :
  Forall is_u8 text → words_to_bytes (bytes_to_words (Z.to_nat (zlen (pad_text text) / 4)) (pad_text text)) = pad_text text.
Proof.
  intros Ht. pose proof (pad_text_size text) as [Hm _]. apply words_of_bytes.
  - unfold pad_text. apply Forall_app. split; [done|]. apply Forall_replicate. unfold is_u8. lia.
  - unfold zlen in *. zlia.
Qed.

(** More events between the preamble and the begin of the run, for instance the
    configurations of other programs. *)
Fixpoint write_events {W} `{WriteHandle W} (es : list (Z * Z * list Z)) : SM W () :=
  match es with
  | [] => mret ()
  | (crate, subtype, words) :: es => listfile_write_system_event crate subtype words;; write_events es
  end.

(** The beginning of a listfile. *)
Definition write_begin {W} `{WriteHandle W} (to_yaml : CrateConfig → list Z) (config : CrateConfig)
    (extra : list (Z * Z * list Z)) (now : Z) : SM W () :=
  listfile_write_preamble to_yaml config;; write_events extra;;
  listfile_write_timestamp_section now (u8 (crateId config)) system_event.subtype.BeginRun.

Definition magic_of (ct : ConnectionType) : list Z := match ct with ETH => get_filemagic_eth | USB => get_filemagic_usb end.

Definition config_event (to_yaml : CrateConfig → list Z) (config : CrateConfig) : SystemEvent :=
  mkSystemEvent system_event.subtype.MVLCCrateConfig (pad_text (to_yaml config)).

(** The events of the beginning of a listfile. *)
Definition begin_events (to_yaml : CrateConfig → list Z) (config : CrateConfig) (extra : list (Z * Z * list Z)) (now : Z) : list SystemEvent :=
  mkSystemEvent system_event.subtype.EndianMarker (le_bytes system_event.EndianMarkerValue)
  :: config_event to_yaml config :: (to_event <$> extra)
  ++ [mkSystemEvent system_event.subtype.BeginRun (le_bytes (u32 (u64 now)) ++ le_bytes (u64 now ≫ 32))].

Definition extra_ok (e : Z * Z * list Z) : Prop :=
  0 ≤ e.1.1 ∧ 0 ≤ e.1.2 < 128 ∧ e.1.2 ≠ system_event.subtype.BeginRun ∧ zlen e.2 < 2 ^ 32.

Section RoundTrip.
Context {W : Type} {HW : WriteHandle W} {HWL : WriteHandleLaws W}.

Lemma write_enc_event crate subtype words :
  0 ≤ crate → 0 ≤ subtype < 128 → zlen words < 2 ^ 32 →
  ∃ bs, enc_event (crate, subtype, words) bs ∧ writes (listfile_write_system_event crate subtype words) bs.
Proof. intros Hc Hs Hl. destruct (write_event_ok crate subtype words Hc Hs Hl) as (bs & Hb & Hw). by exists bs. Qed.

Lemma write_events_ok es :
  Forall extra_ok es → ∃ bss, Forall2 enc_event es bss ∧ writes (write_events es) (concat bss).
Proof.
  induction 1 as [|[[c t] ws] es (Hc & Ht & _ & Hl) Hes (bss & Hb & Hw)].
  - exists []. split; [constructor|]. apply writes_ret.
  - destruct (write_enc_event c t ws Hc Ht Hl) as (bs & Hbs & Hws). exists (bs :: bss). split; [by constructor|]. by apply writes_seq.
Qed.

(** The events of the beginning with their words, and the bytes written. *)
Lemma write_begin_ok to_yaml config extra now :
  zlen (to_yaml config) < 2 ^ 32 → Forall extra_ok extra →
  let yaml := pad_text (to_yaml config) in
  let es := (u8 (crateId config), system_event.subtype.EndianMarker, [system_event.EndianMarkerValue])
    :: (u8 (crateId config), system_event.subtype.MVLCCrateConfig, bytes_to_words (Z.to_nat (zlen yaml / 4)) yaml) :: extra in
  ∃ bss bs, Forall2 enc_event es bss
    ∧ enc_event (u8 (crateId config), system_event.subtype.BeginRun, [u32 (u64 now); u64 now ≫ 32]) bs
    ∧ writes (write_begin to_yaml config extra now) (magic_of (cc_connectionType config) ++ concat bss ++ bs).
Proof.
  intros Hy Hx yaml es. assert (Hc : 0 ≤ u8 (crateId config)) by (apply Z.mod_pos_bound; lia).
  pose proof (pad_text_size (to_yaml config)) as [_ Hp]. fold yaml in Hp. pose proof (zlen_nonneg yaml).
  destruct (write_enc_event (u8 (crateId config)) system_event.subtype.EndianMarker [system_event.EndianMarkerValue]) as (b1 & Hb1 & Hw1); [done..|].
  destruct (write_enc_event (u8 (crateId config)) system_event.subtype.MVLCCrateConfig (bytes_to_words (Z.to_nat (zlen yaml / 4)) yaml))
    as (b2 & Hb2 & Hw2); [done|done|rewrite zlen_bytes_to_words; zlia|].
  destruct (write_events_ok extra Hx) as (bss & Hbss & Hws).
  destruct (write_enc_event (u8 (crateId config)) system_event.subtype.BeginRun [u32 (u64 now); u64 now ≫ 32]) as (b3 & Hb3 & Hw3); [done..|].
  exists (b1 :: b2 :: bss), b3. split; [constructor; [done|constructor; done]|]. split; [done|]. unfold write_begin, listfile_write_preamble.
  assert (Hm : writes (listfile_write_magic (cc_connectionType config)) (magic_of (cc_connectionType config))) by apply writes_raw_last, writes_ret.
  pose proof (writes_seq _ _ _ _ (writes_seq _ _ _ _ Hm (writes_seq _ _ _ _ Hw1 Hw2)) (writes_seq _ _ _ _ Hws Hw3)) as H'.
  cbn [concat]. rewrite <- !app_assoc in *. exact H'.
Qed.

Context {R : Type} {HR : ReadHandle R} {HRL : ReadHandleLaws R}.

Lemma seek_ok (r : R) n : 0 ≤ n ≤ zlen (rh_file r) →
  ∃ r', seek n r = Done (n, r') ∧ rh_file r' = rh_file r ∧ rh_pos r' = n.
Proof.
  intros Hn. destruct (rh_seek_law r n) as (r' & E & Hf & Hp); [lia|]. rewrite Z.min_l in E, Hp by lia. exists r'. unfold seek. by rewrite E.
Qed.

Lemma read_magic_ok (r : R) magic tl :
  zlen magic = 8 → rh_file r = magic ++ tl → ∃ r', read_magic r = Done (magic, r') ∧ rh_file r' = rh_file r ∧ rest r' = tl.
Proof.
  intros Hm Hf. destruct (seek_ok r 0) as (r1 & E1 & Hf1 & Hp1); [pose proof (zlen_nonneg (rh_file r)); lia|].
  destruct (read_into_ok r1 magic tl) as (r2 & E2 & Hf2 & Hp2 & Hr2); [unfold rest; by rewrite Hf1, Hp1, Hf|].
  exists r2. unfold read_magic. rewrite (bind_Done_eq _ _ _ _ _ E1). change get_filemagic_len with 8. rewrite <- Hm, E2. split_and!; [done|congruence|done].
Qed.

Lemma preamble_read_back to_yaml config extra now max (w : W) :
  wh_ok w → wh_contents w = [] → Forall is_u8 (to_yaml config) → zlen (to_yaml config) < 2 ^ 32 → Forall extra_ok extra →
  zlen (to_yaml config) + 15 + contents_size extra ≤ max < 2 ^ 63 →
  ∃ w', write_begin to_yaml config extra now w = Done ((), w')
    ∧ ∀ (r : R) data fuel, rh_file r = wh_contents w' ++ data → zlen (wh_contents w') < 2 ^ 63 → (length (wh_contents w') < fuel)%nat →
      let p := mkPreamble (magic_of (cc_connectionType config)) (begin_events to_yaml config extra now) (zlen (wh_contents w')) in
      ∃ r', read_preamble fuel max r = Done (p, r') ∧ findCrateConfig p = Some (config_event to_yaml config)
        ∧ rh_file r' = rh_file r ∧ rh_pos r' = get_filemagic_len.
Proof.
  intros Hw Hc Hb Hy Hx Hmax. destruct (write_begin_ok to_yaml config extra now Hy Hx) as (bss & bs & Hbss & Hbs & Hwr).
  destruct (Hwr w Hw) as (w' & E & Hw' & Hc'). rewrite Hc, app_nil_l in Hc'. exists w'. split; [done|]. intros r data fuel Hf Hlt Hfuel p.
  rewrite Hc' in Hf, Hlt, Hfuel. set (magic := magic_of (cc_connectionType config)) in *.
  assert (Hm : zlen magic = 8) by (by unfold magic; destruct (cc_connectionType config)).
  destruct (read_magic_ok r magic ((concat bss ++ bs) ++ data) Hm) as (r1 & E1 & Hf1 & Hr1); [by rewrite Hf, <- !app_assoc|].
  pose proof (pad_text_size (to_yaml config)) as [Hp4 Hp]. rewrite zlen_app in Hlt. rewrite length_app in Hfuel.
  pose proof (read_events_ok max _ bs _ bss r1 data 0 8 [] fuel Hbs eq_refl Hbss) as Hre.
  destruct Hre as (r2 & E2 & Hf2 & Hr2); [|lia|by rewrite Hr1, <- app_assoc|lia| |lia|lia|lia|].
  { constructor; [done|]. constructor; [done|]. eapply Forall_impl; [exact Hx|]. by intros e (_ & _ & ? & _). }
  { cbn [contents_size foldr snd]. fold (contents_size extra). rewrite zlen_bytes_to_words, Z2Nat.id by (apply Z.div_pos; [apply zlen_nonneg|lia]).
    change (zlen [system_event.EndianMarkerValue]) with 1. change (zlen [u32 (u64 now); u64 now ≫ 32]) with 2. zlia. }
  destruct (seek_ok r2 8) as (r3 & E3 & Hf3 & Hp3); [rewrite Hf2, Hf1, Hf, !zlen_app; pose proof (zlen_nonneg (concat bss)); pose proof (zlen_nonneg bs); pose proof (zlen_nonneg data); lia|].
  exists r3. unfold read_preamble. rewrite (bind_Done_eq _ _ _ _ _ E1), Hm, (bind_Done_eq _ _ _ _ _ E2), (bind_Done_eq _ _ _ _ _ E3).
  split_and!; [|done|congruence|done]. unfold p. rewrite Hc', (zlen_app magic), Hm, app_nil_l, !fmap_cons.
  assert (Hcfg : to_event (u8 (crateId config), system_event.subtype.MVLCCrateConfig,
      bytes_to_words (Z.to_nat (zlen (pad_text (to_yaml config)) / 4)) (pad_text (to_yaml config))) = config_event to_yaml config)
    by (unfold to_event; cbn [fst snd]; by rewrite pad_text_words).
  by rewrite Hcfg.
Qed.

(** C26: the beginning of a listfile is read back.  Writing the preamble of a crate
    configuration, any further system events and the begin of the run succeeds for every
    write handle that appends what it is given.  Reading the preamble of a file that starts
    with these bytes returns the magic bytes of the connection type, one event with the
    complete contents for each event written, however many sections it was split into, and
    the offset behind the begin of the run; the configuration found is the text written,
    padded with spaces, and the next read starts behind the magic bytes. *)
Theorem preamble_roundtrip to_yaml config extra now max (w : W) :
  wh_ok w → wh_contents w = [] → Forall is_u8 (to_yaml config) → zlen (to_yaml config) < 2 ^ 32 → Forall extra_ok extra →
  zlen (to_yaml config) + 15 + contents_size extra ≤ max < 2 ^ 63 →
  ∃ w', write_begin to_yaml config extra now w = Done ((), w')
    ∧ ∀ (r : R) data fuel, rh_file r = wh_contents w' ++ data → zlen (wh_contents w') < 2 ^ 63 → (length (wh_contents w') < fuel)%nat →
      let p := mkPreamble (magic_of (cc_connectionType config)) (begin_events to_yaml config extra now) (zlen (wh_contents w')) in
      ∃ r', read_preamble fuel max r = Done (p, r') ∧ findCrateConfig p = Some (config_event to_yaml config)
        ∧ rh_file r' = rh_file r ∧ rh_pos r' = get_filemagic_len.
Proof. apply preamble_read_back. Qed.

End RoundTrip.

Definition example_crate : CrateConfig :=
  mkCrateConfig 1 ETH (-1) "" "mvlc-0124" false [] [] [] empty_builder empty_builder empty_builder empty_builder empty_builder.
Definition example_yaml (_ : CrateConfig) : list Z := char_codes "crateId: 1".
Definition example_extra : list (Z * Z * list Z) := [(1, system_event.subtype.MVMEConfig, [0x41; 0x42])].

Lemma preamble_roundtrip_witness :
  ∃ w' : list Z, write_begin example_yaml example_crate example_extra 1700000000 [] = Done ((), w')
    ∧ ∃ r', read_preamble 100 PreambleReadMaxSize (mkMemFile (w' ++ [0; 0; 0; 0xf3]) 3)
        = Done (mkPreamble get_filemagic_eth (begin_events example_yaml example_crate example_extra 1700000000) 56, r')
      ∧ rh_pos r' = 8.
Proof.
  destruct (preamble_roundtrip (R := MemFile) example_yaml example_crate example_extra 1700000000 PreambleReadMaxSize ([] : list Z))
    as (w' & E & H).
  - done.
  - done.
  - unfold is_u8. vm_compute. repeat constructor; congruence.
  - by vm_compute.
  - unfold extra_ok. repeat constructor; vm_compute; congruence.
  - by vm_compute.
  - assert (Hw : zlen w' = 56) by (vm_compute in E; by injection E as <-).
    exists w'. split; [done|]. destruct (H (mkMemFile (w' ++ [0; 0; 0; 0xf3]) 3) [0; 0; 0; 0xf3] 100%nat) as (r' & E' & _ & _ & Hp).
    + done.
    + cbn [wh_contents BufferedWriteHandle_laws id]. lia.
    + cbn [wh_contents BufferedWriteHandle_laws id]. unfold zlen in Hw. lia.
    + exists r'. split; [|done]. rewrite E'. cbn [wh_contents BufferedWriteHandle_laws id]. by rewrite Hw.
Defined.
