(* ===== verification/BufferQueues.v ===== *)
(** * Buffer queues: [util/threadsafequeue.h] and [readout_buffer_queues.h]

    The queues that connect the workers with the consumers of their data.  Every operation
    of a queue runs under its mutex and is one step here.  A buffer belongs to one queue,
    to a worker or to a consumer at any time, so the pointers in the queues are modelled by
    the buffers they point to. *)

From S2P Require Import Prelude ReadoutBuffer.

Section Queue.
Context {T : Type}.

(* util/threadsafequeue.h:30-48 enqueue *)
Definition enqueue (value : T) (q : list T) : list T := q ++ [value].

(** Both variants that do not block for ever; waiting with a timeout returns nothing only
    if the queue is still empty in the end. *)
(* util/threadsafequeue.h:51-80 dequeue *)
Definition dequeue (q : list T) : option T * list T :=
  match q with [] => (None, []) | value :: q => (Some value, q) end.

End Queue.

(* readout_buffer_queues.h:14-37 ReadoutBufferQueues_ *)
Record ReadoutBufferQueues : Type := mkQueues { filledBuffers : list ReadoutBuffer; emptyBuffers : list ReadoutBuffer }.

(* readout_buffer_queues.h:19-24 ReadoutBufferQueues_ *)
Definition new_queues (bufferCapacity : Z) (bufferCount : nat) : ReadoutBufferQueues :=
  mkQueues [] (replicate bufferCount (new_buffer bufferCapacity)).
