(* ===== verification/Replay.v ===== *)
(** * Replaying listfiles: [mvlc_replay_worker.h/.cc]

    The replay thread reads a listfile into buffers, keeps incomplete frames for the next
    buffer and hands the buffers to a consumer, while users of the class ask it to pause,
    resume and stop.  The thread, the calls of users and the consumer are interleaved
    freely: an execution is a list of actions. *)

From S2P Require Import Prelude Effects Constants Frames ReadoutBuffer BufferQueues Listfile.

(* mvlc_replay_worker.h:19-19 State *)
Inductive State : Type := Idle | Starting | Running | Paused | Stopping.
#[global] Instance State_eq_dec : EqDecision State.
Proof. solve_decision. Defined.

(* mvlc_replay_worker.h:57-64 ReplayWorkerError *)
Inductive ReplayWorkerError : Type := NoError | ReplayNotIdle | ReplayNotRunning | ReplayNotPaused | UnknownListfileFormat.
#[global] Instance ReplayWorkerError_eq_dec : EqDecision ReplayWorkerError.
Proof. solve_decision. Defined.

(** Times and the error code, which is never set, are left out. *)
(* mvlc_replay_worker.h:21-32 Counters *)
Record Counters : Type := mkCounters {
  c_state : State; c_buffersRead : Z; c_buffersFlushed : Z; c_bytesRead : Z; c_eptr : option exn
}.

(* mvlc_replay_worker.cc:68-95 Private *)
Record Private (R : Type) : Type := mkPrivate {
  w_state : State;
  desiredState : State;
  snoopQueues : ReadoutBufferQueues;
  lfh : R;
  listfileFormat : ConnectionType;
  counters : Counters;
  previousData : list Z;
  outputBuffer : option ReadoutBuffer;
  nextOutputBufferNumber : Z
}.
Arguments mkPrivate {R}.
Arguments w_state {R}.
Arguments desiredState {R}.
Arguments snoopQueues {R}.
Arguments lfh {R}.
Arguments listfileFormat {R}.
Arguments counters {R}.
Arguments previousData {R}.
Arguments outputBuffer {R}.
Arguments nextOutputBufferNumber {R}.

Section Worker.
Context {R : Type}.
Implicit Types w : Private R.

Definition set_state (s : State) w : Private R :=
  mkPrivate s (desiredState w) (snoopQueues w) (lfh w) (listfileFormat w) (counters w) (previousData w) (outputBuffer w) (nextOutputBufferNumber w).
Definition set_desired (s : State) w : Private R :=
  mkPrivate (w_state w) s (snoopQueues w) (lfh w) (listfileFormat w) (counters w) (previousData w) (outputBuffer w) (nextOutputBufferNumber w).
Definition set_queues (q : ReadoutBufferQueues) w : Private R :=
  mkPrivate (w_state w) (desiredState w) q (lfh w) (listfileFormat w) (counters w) (previousData w) (outputBuffer w) (nextOutputBufferNumber w).
Definition set_lfh (r : R) w : Private R :=
  mkPrivate (w_state w) (desiredState w) (snoopQueues w) r (listfileFormat w) (counters w) (previousData w) (outputBuffer w) (nextOutputBufferNumber w).
Definition set_format (t : ConnectionType) w : Private R :=
  mkPrivate (w_state w) (desiredState w) (snoopQueues w) (lfh w) t (counters w) (previousData w) (outputBuffer w) (nextOutputBufferNumber w).
Definition set_counters (c : Counters) w : Private R :=
  mkPrivate (w_state w) (desiredState w) (snoopQueues w) (lfh w) (listfileFormat w) c (previousData w) (outputBuffer w) (nextOutputBufferNumber w).
Definition set_previous (d : list Z) w : Private R :=
  mkPrivate (w_state w) (desiredState w) (snoopQueues w) (lfh w) (listfileFormat w) (counters w) d (outputBuffer w) (nextOutputBufferNumber w).
Definition set_output (b : option ReadoutBuffer) w : Private R :=
  mkPrivate (w_state w) (desiredState w) (snoopQueues w) (lfh w) (listfileFormat w) (counters w) (previousData w) b (nextOutputBufferNumber w).
Definition set_number (n : Z) w : Private R :=
  mkPrivate (w_state w) (desiredState w) (snoopQueues w) (lfh w) (listfileFormat w) (counters w) (previousData w) (outputBuffer w) n.

(* mvlc_replay_worker.cc:143-152 ReplayWorker *)
Definition new_worker (q : ReadoutBufferQueues) (r : R) : Private R :=
  mkPrivate Idle Idle q r USB (mkCounters Idle 0 0 0 None) [] None 1.

(* mvlc_replay_worker.cc:107-122 getOutputBuffer *)
Definition getOutputBuffer w : Private R :=
  match outputBuffer w with
  | Some _ => w
  | None =>
      let '(b, empty) := dequeue (emptyBuffers (snoopQueues w)) in
      let w := set_queues (mkQueues (filledBuffers (snoopQueues w)) empty) w in
      match b with
      | None => w
      | Some b =>
          let b := setType (listfileFormat w) (setBufferNumber (nextOutputBufferNumber w) (clear b)) in
          set_output (Some b) (set_number (u32 (nextOutputBufferNumber w + 1)) w)
      end
  end.

(* mvlc_replay_worker.cc:124-130 maybePutBackSnoopBuffer *)
Definition maybePutBackSnoopBuffer w : Private R :=
  match outputBuffer w with
  | Some b => set_output None (set_queues (mkQueues (filledBuffers (snoopQueues w)) (enqueue b (emptyBuffers (snoopQueues w)))) w)
  | None => w
  end.

Definition count_flush (c : Counters) : Counters :=
  mkCounters (c_state c) (c_buffersRead c) (inc64 (c_buffersFlushed c)) (c_bytesRead c) (c_eptr c).
Definition count_read (n : Z) (c : Counters) : Counters :=
  mkCounters (c_state c) (inc64 (c_buffersRead c)) (c_buffersFlushed c) (u64 (c_bytesRead c + n)) (c_eptr c).

(* mvlc_replay_worker.cc:132-140 flushCurrentOutputBuffer *)
Definition flushCurrentOutputBuffer w : Private R :=
  match outputBuffer w with
  | Some b =>
      if m_used b >? 0
      then set_output None (set_counters (count_flush (counters w))
             (set_queues (mkQueues (enqueue b (filledBuffers (snoopQueues w))) (emptyBuffers (snoopQueues w))) w))
      else w
  | None => w
  end.

(** ** Reading a buffer *)

Context {HR : ReadHandle R}.

(** How the body of the loop ends: with the next round, at the end of the file, with an
    exception, or not at all. *)
Inductive body_result : Type :=
| Next (w : Private R)
| Break (w : Private R)
| Caught (e : exn) (w : Private R)
| Stuck.

(** Bytes kept from the buffer before are moved to the front of the new one. *)
(* mvlc_replay_worker.cc:195-203 loop *)
Definition move_previous (d : list Z) (dest : ReadoutBuffer) : ReadoutBuffer :=
  match d with [] => dest | _ => store_bytes d (ensureFreeSpace (zlen d) dest) end.

(* mvlc_replay_worker.cc:193-228 loop *)
Definition read_buffer w : body_result :=
  let w := getOutputBuffer w in
  match outputBuffer w with
  | None => Next w
  | Some dest =>
      let dest := move_previous (previousData w) dest in
      let w := set_previous [] w in
      let '(bytes, r) := rh_read (free dest) (lfh w) in
      let w := set_lfh r w in
      match bytes with
      | Throw e => Caught e (set_output (Some dest) w)
      | Undefined => Stuck
      | Return bytes =>
          let dest := store_bytes bytes dest in
          if zlen bytes =? 0 then Break (set_output (Some dest) w)
          else
            let w := set_counters (count_read (zlen bytes) (counters w)) w in
            match fixup_buffer (S (length (viewU8 dest))) (listfileFormat w) (viewU8 dest) [] with
            | None => Stuck
            | Some (bytesMoved, rest) =>
                let dest := setUsed (m_used dest - bytesMoved) dest in
                Next (flushCurrentOutputBuffer (set_previous rest (set_output (Some dest) w)))
            end
      end
  end.

End Worker.

(** ** The thread *)

(** Where the replay thread is.  [SetState s k] and [SetDesired s k] are the two writes of
    [setState(s)], after which the thread goes on at [k], [SetPromise k] reports the successful
    start. *)
Inductive pc : Type :=
| NotStarted
| Begin
| Top
| CheckRunning (st : State)
| ReadBuffer
| CheckPause (st : State)
| CheckResume (st : State)
| CheckStop (st : State)
| PutBack
| SetState (s : State) (k : pc)
| SetDesired (s : State) (k : pc)
| SetPromise (k : pc)
| Finished
| Terminated.

(** The worker, its thread, the result passed through the promise, what calls of users are
    about to store in [desiredState], and the buffers consumed and not yet given back. *)
Record Sys (R : Type) : Type := mkSys {
  sys_w : Private R;
  sys_pc : pc;
  sys_promise : option ReplayWorkerError;
  sys_pending : list State;
  sys_consumed : list ReadoutBuffer;
  sys_held : list ReadoutBuffer
}.
Arguments mkSys {R}.
Arguments sys_w {R}.
Arguments sys_pc {R}.
Arguments sys_promise {R}.
Arguments sys_pending {R}.
Arguments sys_consumed {R}.
Arguments sys_held {R}.

Section System.
Context {R : Type} {HR : ReadHandle R} (preamble_fuel : nat).
Implicit Types s : Sys R.

Definition at_pc (k : pc) (w : Private R) s : Sys R :=
  mkSys w k (sys_promise s) (sys_pending s) (sys_consumed s) (sys_held s).
Definition promise (e : ReplayWorkerError) s : Sys R :=
  mkSys (sys_w s) (sys_pc s) (Some e) (sys_pending s) (sys_consumed s) (sys_held s).

(** What follows the loop. *)
Definition finish : pc := SetState Stopping PutBack.

(** The begin of the thread.  An exception of [read_preamble] leaves the thread function. *)
(* mvlc_replay_worker.cc:154-184 loop *)
Definition begin_step s : option (Sys R) :=
  let w := set_counters (mkCounters Idle 0 0 0 None) (sys_w s) in
  match read_preamble preamble_fuel PreambleReadMaxSize (lfh w) with
  | Done (preamble, r) =>
      let w := set_lfh r w in
      if bool_decide (pre_magic preamble = get_filemagic_eth) then Some (at_pc (SetState Running (SetPromise Top)) (set_format ETH w) s)
      else if bool_decide (pre_magic preamble = get_filemagic_usb) then Some (at_pc (SetState Running (SetPromise Top)) (set_format USB w) s)
      else Some (promise UnknownListfileFormat (at_pc Finished w s))
  | Raise _ => Some (at_pc Terminated w s)
  | _ => None
  end.

(** One step of the thread. *)
(* mvlc_replay_worker.cc:154-273 loop *)
Definition thread_step s : option (Sys R) :=
  let w := sys_w s in
  match sys_pc s with
  | NotStarted | Finished | Terminated => None
  | Begin => begin_step s
  | Top => Some (at_pc (CheckRunning (w_state w)) w s)
  | CheckRunning st =>
      if bool_decide (st = Running ∧ desiredState w = Running) then Some (at_pc ReadBuffer w s) else Some (at_pc (CheckPause st) w s)
  | ReadBuffer =>
      match read_buffer w with
      | Next w => Some (at_pc Top w s)
      | Break w => Some (at_pc finish w s)
      | Caught e w =>
          let c := counters w in
          Some (at_pc finish (set_counters (mkCounters (c_state c) (c_buffersRead c) (c_buffersFlushed c) (c_bytesRead c) (Some e)) w) s)
      | Stuck => None
      end
  | CheckPause st =>
      if bool_decide (st = Running ∧ desiredState w = Paused) then Some (at_pc (SetState Paused Top) w s) else Some (at_pc (CheckResume st) w s)
  | CheckResume st =>
      if bool_decide (st = Paused ∧ desiredState w = Running) then Some (at_pc (SetState Running Top) w s) else Some (at_pc (CheckStop st) w s)
  | CheckStop st =>
      if bool_decide (desiredState w = Stopping) then Some (at_pc finish w s) else Some (at_pc Top w s)
  | PutBack => Some (at_pc (SetState Idle Finished) (maybePutBackSnoopBuffer w) s)
  | SetState st k => Some (at_pc (SetDesired st k) (set_state st w) s)
  | SetDesired st k =>
      let c := counters w in
      Some (at_pc k (set_counters (mkCounters st (c_buffersRead c) (c_buffersFlushed c) (c_bytesRead c) (c_eptr c)) (set_desired st w)) s)
  | SetPromise k => Some (promise NoError (at_pc k w s))
  end.

(** ** Calls of users *)

Inductive call : Type := CallStop | CallPause | CallResume.

(** The check of the state; on success the write to [desiredState] follows as a step of its own. *)
(* mvlc_replay_worker.cc:292-323 stop *)
Definition check_call (c : call) (state : State) : ReplayWorkerError + State :=
  match c with
  | CallStop => if bool_decide (state = Idle ∨ state = Stopping) then inl ReplayNotRunning else inr Stopping
  | CallPause => if bool_decide (state ≠ Running) then inl ReplayNotRunning else inr Paused
  | CallResume => if bool_decide (state ≠ Paused) then inl ReplayNotPaused else inr Running
  end.

(** Assigning a new thread to a thread object that was not joined ends the program. *)
(* mvlc_replay_worker.cc:274-290 start *)
Definition start s : Sys R :=
  let w := sys_w s in
  if bool_decide (w_state w ≠ Idle) then promise ReplayNotIdle s
  else
    let c := counters w in
    let w := set_counters (mkCounters Starting (c_buffersRead c) (c_buffersFlushed c) (c_bytesRead c) (c_eptr c)) (set_desired Starting (set_state Starting w)) in
    match sys_pc s with
    | NotStarted => at_pc Begin w s
    | _ => at_pc Terminated w s
    end.

(** ** Executions *)

Inductive action : Type :=
| Thread
| Start
| Call (c : call)
| Store (i : nat)      (* the write of a pending call *)
| Consume              (* a consumer takes the next filled buffer *)
| GiveBack (i : nat).  (* and returns one it has taken *)

Definition act (a : action) s : option (Sys R) :=
  match a with
  | Thread => thread_step s
  | Start => Some (start s)
  | Call c =>
      match check_call c (w_state (sys_w s)) with
      | inl _ => Some s
      | inr st => Some (mkSys (sys_w s) (sys_pc s) (sys_promise s) (sys_pending s ++ [st]) (sys_consumed s) (sys_held s))
      end
  | Store i =>
      st ← sys_pending s !! i;
      Some (mkSys (set_desired st (sys_w s)) (sys_pc s) (sys_promise s) (delete i (sys_pending s)) (sys_consumed s) (sys_held s))
  | Consume =>
      let q := snoopQueues (sys_w s) in
      match dequeue (filledBuffers q) with
      | (Some b, filled) =>
          Some (mkSys (set_queues (mkQueues filled (emptyBuffers q)) (sys_w s)) (sys_pc s) (sys_promise s) (sys_pending s)
                  (sys_consumed s ++ [b]) (sys_held s ++ [b]))
      | (None, _) => None
      end
  | GiveBack i =>
      b ← sys_held s !! i;
      let q := snoopQueues (sys_w s) in
      Some (mkSys (set_queues (mkQueues (filledBuffers q) (enqueue b (emptyBuffers q))) (sys_w s)) (sys_pc s) (sys_promise s) (sys_pending s)
              (sys_consumed s) (delete i (sys_held s)))
  end.

Fixpoint run (acts : list action) s : option (Sys R) :=
  match acts with [] => Some s | a :: acts => s ← act a s; run acts s end.

Definition new_system (q : ReadoutBufferQueues) (r : R) : Sys R := mkSys (new_worker q r) NotStarted None [] [] [].

End System.
