(* ===== verification/ReplayFacts.v ===== *)
(** * Replaying listfiles: nothing is lost, duplicated or cut

    What the replay thread hands out is, for every interleaving with users and consumers, a
    prefix of the file made of complete frames, and a run that is left alone delivers every
    complete frame of the file. *)

From S2P Require Import Prelude Effects Constants Frames FramesFacts Commands ReadoutBuffer BufferQueues Listfile ListfileFacts Replay.

(** ** Buffers *)

(** Storing bytes after making room for them. *)
Lemma store_previous d b :
  buf_ok b →
  let b' := move_previous d b in
  buf_ok b' ∧ viewU8 b' = viewU8 b ++ d ∧ m_number b' = m_number b ∧ m_used b' = m_used b + zlen d ∧ capacity b ≤ capacity b'
  ∧ (zlen d ≤ free b → capacity b' = capacity b).
Proof.
  unfold buf_ok, move_previous. intros Hb. destruct d as [|x d].
  { rewrite app_nil_r. change (zlen (@nil Z)) with 0. split_and!; (lia || done). }
  pose proof (zlen_nonneg (x :: d)). destruct (ensureFreeSpace_view (zlen (x :: d)) b) as (Hu & Hl & Hf & Hv & Hc); [lia|done|].
  destruct (store_bytes_ok (x :: d) (ensureFreeSpace (zlen (x :: d)) b)) as (Hu' & Hl' & Hv'); [lia|done|].
  rewrite Hv', Hv, Hu', Hu. unfold free, capacity in *. rewrite Hl'.
  assert (Hn : m_number (ensureFreeSpace (zlen (x :: d)) b) = m_number b) by (unfold ensureFreeSpace; by destruct (_ <? _)).
  split_and!; try lia; [done|exact Hn|]. intros He. unfold ensureFreeSpace, free, capacity. by replace (_ <? zlen (x :: d)) with false by lia.
Qed.

(** ** What [fixup_buffer] finds, whatever the size of the buffer *)

Lemma fixup_buffer_Some fuel t buf n tmp :
  fixup_buffer fuel t buf [] = Some (n, tmp) →
  ∃ fs, buf = concat fs ++ tmp ∧ Forall (complete_frame t) fs ∧ incomplete t tmp ∧ n = zlen tmp.
Proof.
  rewrite fixup_buffer_eq. revert buf; induction fuel as [|fuel IH]; intros buf; [done|]. cbn [fixup_buffer_loop].
  destruct buf as [|x buf]; [|set (v := x :: buf)].
  { intros [= <- <-]. exists []. split_and!; [done|constructor|by left; destruct t|done]. }
  destruct (zlen v >=? 4) eqn:E4; [|apply IH]. destruct (_ || _)%bool eqn:Es.
  - intros [= <- <-]. exists []. split_and!; [done|constructor| |done]. apply orb_true_iff in Es as [Es|Es]; [left|right]; lia.
  - apply orb_false_iff in Es as [E0 E1]. intros (fs & Hv & Hfs & Ht & Hn)%IH. exists (ztake (skip_one_frame t v) v :: fs).
    pose proof (skip_multiple t v). split_and!; [|constructor; [apply skip_take; lia|done]|done|done]. cbn [concat]. rewrite <- app_assoc, <- Hv. by rewrite ztake_zdrop.
Qed.

Lemma fixup_buffer_returns t buf : zlen buf mod 4 = 0 → ∃ r, fixup_buffer (S (length buf)) t buf [] = Some r.
Proof. intros H. destruct (fixup_buffer_moves_tail t buf [] H) as (fs & r & _ & _ & _ & Hf). eexists. apply Hf. lia. Qed.

(** ** The data of the worker *)

Section Data.
Context {R : Type} {HR : ReadHandle R} {HL : ReadHandleLaws R}.
Context (t : ConnectionType) (body : list Z).
Implicit Types w : Private R.

(** Buffers numbered from 1 in the order in which they were filled. *)
Definition numbered (bs : list ReadoutBuffer) : Prop :=
  m_number <$> bs = (λ k, u32 (Z.of_nat k + 1)) <$> seq 0 (length bs).

Lemma numbered_snoc bs b : numbered bs → m_number b = u32 (Z.of_nat (length bs) + 1) → numbered (bs ++ [b]).
Proof. unfold numbered. intros H Hb. rewrite length_app, seq_app, !fmap_app, H. cbn. by rewrite Hb. Qed.

Lemma numbered_prefix bs1 bs2 : numbered (bs1 ++ bs2) → numbered bs1.
Proof.
  unfold numbered. rewrite length_app, seq_app, !fmap_app. intros [H _]%app_inj_1; [done|]. by rewrite !length_fmap, length_seq.
Qed.

(** The buffers are a sequence of complete frames, numbered in order, followed by [tail]. *)
Definition delivers (bs : list ReadoutBuffer) (tail : list Z) : Prop :=
  ∃ fs, body = concat fs ++ tail ∧ Forall (complete_frame t) fs ∧ concat (viewU8 <$> bs) = concat fs ∧ numbered bs.

Definition pool_ok w (held : list ReadoutBuffer) : Prop :=
  Forall buf_ok (emptyBuffers (snoopQueues w)) ∧ Forall buf_ok (filledBuffers (snoopQueues w)) ∧ Forall buf_ok held.

(** The bytes that were read and not yet handed out. *)
Definition held_back w : list Z := from_option viewU8 [] (outputBuffer w) ++ previousData w.

(** In the loop, with the buffers in [C] already taken by the consumer. *)
Record loop_ok (C : list ReadoutBuffer) w : Prop := mkLoopOk {
  lo_file : rh_file (lfh w) = magic_of t ++ body;
  lo_format : listfileFormat w = t;
  lo_output : from_option buf_ok True (outputBuffer w);
  lo_delivers : delivers (C ++ filledBuffers (snoopQueues w)) (held_back w ++ rest (lfh w));
  lo_incomplete : incomplete t (held_back w);
  lo_numbered : numbered (C ++ filledBuffers (snoopQueues w) ++ option_list (outputBuffer w));
  lo_next : nextOutputBufferNumber w = u32 (Z.of_nat (length (C ++ filledBuffers (snoopQueues w) ++ option_list (outputBuffer w))) + 1)
}.

Lemma getOutputBuffer_ok C held w :
  loop_ok C w → pool_ok w held → loop_ok C (getOutputBuffer w) ∧ pool_ok (getOutputBuffer w) held
  ∧ lfh (getOutputBuffer w) = lfh w ∧ previousData (getOutputBuffer w) = previousData w
  ∧ filledBuffers (snoopQueues (getOutputBuffer w)) = filledBuffers (snoopQueues w).
Proof.
  intros Hw Hp. unfold getOutputBuffer. destruct (outputBuffer w) as [b|] eqn:Eo; [done|].
  destruct Hw as [Hf Ht Ho Hd Hi Hn Hx]. destruct Hp as [He Hp]. unfold dequeue. destruct (emptyBuffers (snoopQueues w)) as [|b bs] eqn:Eb; cbv zeta.
  { by split_and!. }
  apply Forall_cons in He as [Hb He]. destruct (clear_ok b Hb) as [Hc Hv]. unfold held_back in *. rewrite Eo in *. cbn in Hn, Hx, Hd, Hi. rewrite app_nil_r in Hn, Hx.
  split_and!; try done. constructor; cbn; try done.
  - rewrite app_assoc. apply numbered_snoc; [done|]. exact Hx.
  - rewrite Hx, app_assoc, (length_app _ [_]). cbn. unfold u32. rewrite Zplus_mod_idemp_l. f_equal. lia.
Qed.

Lemma incomplete_nil : incomplete t [].
Proof. by left; destruct t. Qed.

(** A buffer of complete frames is handed out unless it is empty. *)
Lemma replay_flush_ok C held w b fs :
  outputBuffer w = Some b → buf_ok b → viewU8 b = concat fs → Forall (complete_frame t) fs → m_used b = zlen (concat fs) →
  rh_file (lfh w) = magic_of t ++ body → listfileFormat w = t → incomplete t (previousData w) →
  delivers (C ++ filledBuffers (snoopQueues w)) (concat fs ++ previousData w ++ rest (lfh w)) →
  numbered (C ++ filledBuffers (snoopQueues w) ++ [b]) →
  nextOutputBufferNumber w = u32 (Z.of_nat (length (C ++ filledBuffers (snoopQueues w) ++ [b])) + 1) →
  pool_ok w held → loop_ok C (flushCurrentOutputBuffer w) ∧ pool_ok (flushCurrentOutputBuffer w) held.
Proof.
  intros Eo Hb Hv Hfs Hu Hf Ht Hi (fs0 & Hbody & Hfs0 & Hview & Hnum0) Hn Hx (He & Hfl & Hh). unfold flushCurrentOutputBuffer. rewrite Eo.
  destruct (m_used b >? 0) eqn:E.
  - unfold enqueue. split; [|split; [done|]; split; [by apply Forall_app; split; [|constructor]|done]].
    constructor; cbn; try done; rewrite ?app_nil_r; try done. exists (fs0 ++ fs). split_and!; [|by apply Forall_app| |].
    + by rewrite concat_app, <- app_assoc.
    + rewrite app_assoc, fmap_app, !concat_app, Hview. cbn. by rewrite app_nil_r, Hv.
    + done.
  - assert (Hz : concat fs = []) by (apply zlen_0; pose proof (zlen_nonneg (concat fs)); lia). rewrite Hz in *.
    assert (Hhb : held_back w = previousData w) by (unfold held_back; rewrite Eo; cbn; by rewrite Hv).
    split; [|done]. constructor; rewrite ?Hhb, ?Eo; try done. by exists fs0.
Qed.

(** One pass of the loop body in the running state. *)
Lemma read_buffer_ok C held w :
  loop_ok C w → pool_ok w held →
  match read_buffer w with
  | Next w' => loop_ok C w' ∧ pool_ok w' held
  | Break w' => loop_ok C w' ∧ pool_ok w' held
  | Caught _ w' => loop_ok C w' ∧ pool_ok w' held
  | Stuck => True
  end.
Proof.
  intros Hw Hp. unfold read_buffer. destruct (getOutputBuffer_ok C held w Hw Hp) as (Hw1 & Hp1 & _).
  set (w1 := getOutputBuffer w) in *. clearbody w1. clear w Hw Hp. destruct Hw1 as [Hf Ht Ho Hd Hi Hn Hx]. destruct Hp1 as (He & Hfl & Hh).
  unfold held_back in *. destruct (outputBuffer w1) as [b|] eqn:Eo; [|split; [by constructor; unfold held_back; rewrite ?Eo|done]].
  cbn in Ho, Hd, Hi, Hn. destruct (store_previous (previousData w1) b Ho) as (Hb1 & Hv1 & Hn1 & Hu1 & _).
  cbv zeta. set (b1 := move_previous (previousData w1) b) in *. clearbody b1.
  pose proof (rh_pos_range (lfh w1)). destruct (rh_read_law (lfh w1) (free b1)) as (r' & Er & Hf' & Hp'); [unfold buf_ok, free, capacity in *; lia|].
  change (lfh (set_previous [] w1)) with (lfh w1). rewrite Er. fold (rest (lfh w1)) in *. set (bytes := ztake (free b1) (rest (lfh w1))) in *.
  assert (Hbytes : zlen bytes ≤ free b1) by (unfold bytes, zlen, ztake, buf_ok, free, capacity in *; rewrite length_take; lia).
  destruct (store_bytes_ok bytes b1 Hb1 Hbytes) as (Hu2 & Hl2 & Hv2). set (b2 := store_bytes bytes b1) in *.
  assert (Hrest : rest (lfh w1) = bytes ++ rest r').
  { unfold bytes. rewrite <- (ztake_zdrop (free b1) (rest (lfh w1))) at 1. f_equal. unfold rest. rewrite Hf', Hp'. unfold zdrop. rewrite drop_drop.
    unfold buf_ok, free, capacity in *. destruct (decide (zlen (m_buffer b1) - m_used b1 ≤ zlen (rh_file (lfh w1)) - rh_pos (lfh w1))).
    - f_equal. lia.
    - unfold zlen in *. rewrite !drop_ge; [done|lia..]. }
  assert (Hb2 : buf_ok b2) by (unfold buf_ok, free, capacity in *; pose proof (zlen_nonneg bytes); lia).
  assert (Hn2 : m_number b2 = m_number b) by exact Hn1.
  assert (Hv : viewU8 b2 ++ rest r' = (viewU8 b ++ previousData w1) ++ rest (lfh w1)) by (rewrite Hv2, Hv1, Hrest, <- !app_assoc; done).
  assert (Hnum : ∀ b', m_number b' = m_number b → numbered (C ++ filledBuffers (snoopQueues w1) ++ [b'])).
  { intros b' Hb'. unfold numbered in *. rewrite !fmap_app in *. cbn in *. rewrite Hb'. rewrite Hn, !length_app. done. }
  destruct (zlen bytes =? 0) eqn:Ez.
  { apply Z.eqb_eq, zlen_0 in Ez. rewrite Ez, app_nil_r in Hv2. split; [|done]. constructor; cbn; try done; [congruence| | |by apply Hnum|].
    - unfold held_back. cbn. rewrite app_nil_r, Hv. done.
    - unfold held_back. cbn. by rewrite app_nil_r, Hv2, Hv1.
    - rewrite Hx, !length_app. done. }
  cbn [listfileFormat set_counters set_lfh set_previous]. rewrite Ht.
  destruct (fixup_buffer _ t (viewU8 b2) []) as [[n tmp]|] eqn:Ef; [|done].
  apply fixup_buffer_Some in Ef as (fs & Hsplit & Hfs & Htmp & ->).
  destruct (setUsed_view b2 (concat fs) tmp Hb2 Hsplit) as (Hb3 & Hv3 & Hu3). set (b3 := setUsed _ b2) in *.
  apply (replay_flush_ok C held _ b3 fs); cbn; try done.
  - congruence.
  - rewrite app_assoc, <- Hsplit, Hv. exact Hd.
  - by apply Hnum.
  - rewrite Hx, !length_app. done.
Qed.
End Data.

(** ** Reading the preamble leaves the file as it is *)

Section Keeps.
Context {R : Type} {HR : ReadHandle R} {HL : ReadHandleLaws R}.

Definition keeps {A} (m : SM R A) : Prop := ∀ r x r', m r = Done (x, r') → rh_file r' = rh_file r.

Lemma keeps_ret {A} (x : A) : keeps (mret x).
Proof. by intros r y r' [= _ <-]. Qed.
Lemma keeps_bind {A B} (m : SM R A) (f : A → SM R B) : keeps m → (∀ x, keeps (f x)) → keeps (m ≫= f).
Proof.
  intros Hm Hf r y r'. unfold mbind, SM_bind. destruct (m r) as [[x r1]| | |] eqn:E; try done. intros H. rewrite (Hf _ _ _ _ H). by eapply Hm.
Qed.
Lemma keeps_read n : 0 ≤ n → keeps (read n).
Proof.
  intros Hn r x r'. destruct (rh_read_law r n Hn) as (r1 & E & Hf & _). unfold read. rewrite E. cbn. by intros [= _ <-].
Qed.
Lemma keeps_seek n : 0 ≤ n → keeps (seek n).
Proof.
  intros Hn r x r'. destruct (rh_seek_law r n Hn) as (r1 & E & Hf & _). unfold seek. rewrite E. cbn. by intros [= _ <-].
Qed.
Lemma keeps_raise {A} e : keeps (raise (A := A) e).
Proof. done. Qed.
Lemma keeps_hang {A} : keeps (hang (A := A)).
Proof. done. Qed.

Create HintDb keeps discriminated.
Hint Resolve keeps_ret keeps_raise keeps_hang keeps_read keeps_seek : keeps.

Lemma keeps_read_into n : 0 ≤ n → keeps (read_into n).
Proof. intros Hn. apply keeps_bind; auto with keeps. Qed.
Lemma keeps_typed_read : keeps typed_read.
Proof. apply keeps_bind; [by apply keeps_read_into|auto with keeps]. Qed.

Lemma keeps_read_sections fuel max : ∀ h total off buf, keeps (read_sections fuel max h total off buf).
Proof.
  induction fuel as [|fuel IH]; intros h total off buf; cbn [read_sections]; [apply keeps_hang|].
  destruct (negb _); [apply keeps_ret|]. destruct (_ >? max); [apply keeps_raise|].
  apply keeps_bind; [apply keeps_read_into; pose proof (fi_len_range h); lia|]. intros bytes. cbv zeta.
  destruct (_ =? 0); [apply keeps_ret|]. apply keeps_bind; [apply keeps_typed_read|]. intros h'. apply IH.
Qed.

Lemma keeps_read_events fuel max : ∀ total off evs, keeps (read_events fuel max total off evs).
Proof.
  induction fuel as [|fuel IH]; intros total off evs; cbn [read_events]; [apply keeps_hang|].
  apply keeps_bind; [apply keeps_typed_read|]. intros h. cbv zeta. destruct (negb _); [apply keeps_ret|].
  apply keeps_bind; [apply keeps_read_sections|]. intros [[[h' total'] off'] contents]. destruct (_ =? _); [apply keeps_ret|apply IH].
Qed.

Lemma read_preamble_state fuel max (r : R) magic tl p r' :
  zlen magic = 8 → rh_file r = magic ++ tl → read_preamble fuel max r = Done (p, r') →
  pre_magic p = magic ∧ rh_file r' = rh_file r ∧ rest r' = tl.
Proof.
  intros Hm Hf. destruct (read_magic_ok r magic tl Hm Hf) as (r1 & E1 & Hf1 & _). unfold read_preamble. rewrite (bind_Done_eq _ _ _ _ _ E1).
  unfold mbind at 1, SM_bind at 1. destruct (read_events _ _ _ _ _ r1) as [[[evs off] r2]| | |] eqn:E2; try done. apply keeps_read_events in E2.
  destruct (seek_ok r2 8) as (r3 & E3 & Hf3 & Hp3); [rewrite E2, Hf1, Hf, zlen_app; pose proof (zlen_nonneg tl); lia|].
  rewrite Hm, (bind_Done_eq _ _ _ _ _ E3). intros [= <- <-]. split; [done|]. assert (Hfile : rh_file r3 = rh_file r) by congruence. split; [done|].
  unfold rest. rewrite Hfile, Hp3, Hf, <- Hm. apply zdrop_app.
Qed.

End Keeps.

(** ** Every interleaving *)

(** Before the loop, in the loop, and after it. *)
Inductive region : Type := Before | Inside | After.
Fixpoint region_of (k : pc) : region :=
  match k with
  | NotStarted | Begin => Before
  | Finished | Terminated => After
  | SetState _ k | SetDesired _ k | SetPromise k => region_of k
  | _ => Inside
  end.

Section Interleavings.
Context {R : Type} {HR : ReadHandle R} {HL : ReadHandleLaws R}.
Context (fuel : nat) (t : ConnectionType) (body : list Z).
Implicit Types s : Sys R.

(** All buffers handed out, taken by the consumer or not. *)
Definition delivered s : list ReadoutBuffer := sys_consumed s ++ filledBuffers (snoopQueues (sys_w s)).

Definition before_ok (w : Private R) (C : list ReadoutBuffer) : Prop :=
  rh_file (lfh w) = magic_of t ++ body ∧ outputBuffer w = None ∧ previousData w = [] ∧ nextOutputBufferNumber w = 1
  ∧ C = [] ∧ filledBuffers (snoopQueues w) = [].

Definition sys_ok s : Prop :=
  pool_ok (sys_w s) (sys_held s) ∧ (∃ tail, delivers t body (delivered s) tail)
  ∧ match region_of (sys_pc s) with
    | Before => before_ok (sys_w s) (sys_consumed s)
    | Inside => loop_ok t body (sys_consumed s) (sys_w s)
    | After => True
    end.

(** Only the data of the worker counts. *)
Lemma sys_ok_same s w k :
  snoopQueues w = snoopQueues (sys_w s) → lfh w = lfh (sys_w s) → listfileFormat w = listfileFormat (sys_w s) →
  previousData w = previousData (sys_w s) → outputBuffer w = outputBuffer (sys_w s) → nextOutputBufferNumber w = nextOutputBufferNumber (sys_w s) →
  region_of k = region_of (sys_pc s) ∨ region_of k = After →
  sys_ok s → sys_ok (at_pc k w s).
Proof.
  intros Hq Hl Ht Hp Ho Hn Hk (Hpool & Hd & Hr). unfold sys_ok, delivered, pool_ok in *. cbn. rewrite Hq. split; [done|]. split; [done|].
  destruct Hk as [-> | ->]; [|done]. destruct (region_of (sys_pc s)); [|destruct Hr as [H1 H2 H3 H4 H5 H6 H7]|done].
  - unfold before_ok in *. by rewrite Hl, Ho, Hp, Hn, Hq.
  - constructor; unfold held_back in *; by rewrite ?Hq, ?Hl, ?Ht, ?Hp, ?Ho, ?Hn.
Qed.

Lemma loop_delivers C w : loop_ok t body C w → ∃ tail, delivers t body (C ++ filledBuffers (snoopQueues w)) tail.
Proof. intros []. by eexists. Qed.

Lemma sys_ok_loop s w k :
  loop_ok t body (sys_consumed s) w ∧ pool_ok w (sys_held s) → region_of k ≠ Before → sys_ok (at_pc k w s).
Proof.
  intros [Hw Hp] Hk. split; [done|]. split; [by apply loop_delivers|]. cbn. by destruct (region_of k).
Qed.

Lemma begin_step_ok s s' : sys_pc s = Begin → sys_ok s → begin_step fuel s = Some s' → sys_ok s'.
Proof.
  intros Hk (Hpool & Hd & Hr). rewrite Hk in Hr. destruct Hr as (Hf & Ho & Hp & Hn & HC & Hq). unfold begin_step.
  cbn [lfh set_counters]. assert (Hm : zlen (magic_of t) = 8) by (by destruct t).
  destruct (read_preamble fuel PreambleReadMaxSize (lfh (sys_w s))) as [[p r]| | |] eqn:E; try done.
  2: { intros [= <-]. unfold sys_ok, delivered in *. cbn. done. }
  apply (read_preamble_state _ _ _ (magic_of t) body) in E as (Hmag & Hf' & Hrest); [|done..]. rewrite Hmag.
  assert (Hin : sys_ok (at_pc (SetState Running (SetPromise Top)) (set_format t (set_lfh r (set_counters (mkCounters Idle 0 0 0 None) (sys_w s)))) s)).
  { split; [done|]. split; [done|]. unfold delivered in Hd. rewrite HC, Hq in *. cbn. constructor; cbn; unfold held_back; cbn; rewrite ?Ho, ?Hp, ?Hq, ?HC; cbn; try done.
    - congruence.
    - exists []. rewrite Hrest. split_and!; try done.
    - apply incomplete_nil. }
  destruct t; cbn [magic_of].
  - destruct (bool_decide (get_filemagic_usb = get_filemagic_eth)) eqn:E; [by vm_compute in E|]. rewrite bool_decide_true by done. intros [= <-]. apply Hin.
  - rewrite bool_decide_true by done. intros [= <-]. apply Hin.
Qed.

Lemma thread_step_ok s s' : sys_ok s → thread_step fuel s = Some s' → sys_ok s'.
Proof.
  intros Hs. unfold thread_step. destruct (sys_pc s) as [| | |st| |st|st|st| |st k|st k|k| |] eqn:Hk; try done; cbv zeta;
    try (case_bool_decide); try (intros [= <-]; apply sys_ok_same; by rewrite ?Hk; auto); [by apply begin_step_ok| |].
  - destruct Hs as (Hpool & _ & Hr). rewrite Hk in Hr. cbn in Hr. pose proof (read_buffer_ok t body _ _ _ Hr Hpool) as H.
    destruct (read_buffer (sys_w s)); [..|done]; intros [= <-]; try (by apply sys_ok_loop).
    apply sys_ok_loop; [|done]. destruct H as [[] ?]. split; [by constructor|done].
  - destruct Hs as (Hpool & Hd & Hr). rewrite Hk in Hr. cbn in Hr. intros [= <-]. unfold maybePutBackSnoopBuffer, enqueue.
    destruct Hpool as (He & Hf & Hh). destruct (outputBuffer (sys_w s)) as [b|] eqn:Eo; [|by split].
    split; [|by split]. split; [|done]. apply Forall_app. split; [done|]. constructor; [|done]. destruct Hr as [_ _ Ho _ _ _ _]. by rewrite Eo in Ho.
Qed.

Lemma sys_ok_user s w p pend :
  snoopQueues w = snoopQueues (sys_w s) → lfh w = lfh (sys_w s) → listfileFormat w = listfileFormat (sys_w s) →
  previousData w = previousData (sys_w s) → outputBuffer w = outputBuffer (sys_w s) → nextOutputBufferNumber w = nextOutputBufferNumber (sys_w s) →
  sys_ok s → sys_ok (mkSys w (sys_pc s) p pend (sys_consumed s) (sys_held s)).
Proof. intros Hq Hl Ht Hp Ho Hn Hs. exact (sys_ok_same s w (sys_pc s) Hq Hl Ht Hp Ho Hn (or_introl eq_refl) Hs). Qed.

(** Buffers that change hands between the queues and the consumer. *)
Lemma sys_ok_exchange s filled empty C held :
  C ++ filled = delivered s → Forall buf_ok empty → Forall buf_ok filled → Forall buf_ok held →
  (filledBuffers (snoopQueues (sys_w s)) = [] → filled = [] ∧ C = sys_consumed s) → sys_ok s →
  sys_ok (mkSys (set_queues (mkQueues filled empty) (sys_w s)) (sys_pc s) (sys_promise s) (sys_pending s) C held).
Proof.
  intros HC He Hf Hh Hb (_ & Hd & Hr). split; [done|]. split; [unfold delivered at 1; cbn; by rewrite HC|]. cbn.
  destruct (region_of (sys_pc s)); [|destruct Hr as [H1 H2 H3 H4 H5 H6 H7]|done].
  - destruct Hr as (H1 & H2 & H3 & H4 & H5 & H6). destruct (Hb H6) as [-> ->]. by split_and!.
  - unfold delivered in HC. constructor; cbn; try done.
    + by rewrite HC.
    + by rewrite app_assoc, HC, <- app_assoc.
    + by rewrite app_assoc, HC, <- app_assoc.
Qed.

Lemma act_ok a s s' : sys_ok s → act fuel a s = Some s' → sys_ok s'.
Proof.
  intros Hs. destruct a as [| |c|i| |i]; cbn [act].
  - by apply thread_step_ok.
  - intros [= <-]. unfold start. case_bool_decide; [by apply sys_ok_user|]. cbv zeta.
    destruct (sys_pc s) eqn:Hk; apply sys_ok_same; rewrite ?Hk; auto.
  - destruct (check_call c _); intros [= <-]; [done|by apply sys_ok_user].
  - destruct (sys_pending s !! i); [|done]. intros [= <-]. by apply sys_ok_user.
  - cbv zeta. unfold dequeue. destruct (filledBuffers (snoopQueues (sys_w s))) as [|b filled] eqn:Ef; [done|]. intros [= <-].
    pose proof Hs as ((He & Hf & Hh) & _). rewrite Ef in Hf. apply Forall_cons in Hf as [Hb Hf].
    apply sys_ok_exchange; try done; [unfold delivered; by rewrite Ef, <- app_assoc|by apply Forall_app; split; [|constructor]|by rewrite Ef].
  - destruct (sys_held s !! i) as [b|] eqn:Eh; [|done]. intros [= <-]. pose proof Hs as ((He & Hf & Hh) & _).
    apply sys_ok_exchange; try done; [apply Forall_app; split; [done|constructor; [by eapply Forall_lookup_1|done]]|by apply Forall_delete].
Qed.

Lemma run_ok acts : ∀ s s', sys_ok s → run fuel acts s = Some s' → sys_ok s'.
Proof.
  induction acts as [|a acts IH]; intros s s' Hs; cbn [run]; [by intros [= <-]|].
  destruct (act fuel a s) as [s1|] eqn:E; [|done]. cbn. apply IH. by eapply act_ok.
Qed.

Lemma new_system_ok q (r : R) :
  rh_file r = magic_of t ++ body → filledBuffers q = [] → Forall buf_ok (emptyBuffers q) → sys_ok (new_system q r).
Proof.
  intros Hf Hq He. split; [|split].
  - split; [done|]. cbn. by rewrite Hq.
  - exists body. exists []. cbn. rewrite Hq. by split_and!.
  - by split_and!.
Qed.

(** C13: for every listfile, whatever the sizes of the buffers and however the replay thread,
    calls of start, stop, pause and resume and the consumer are interleaved: the buffers
    handed out, in their order, are complete frames (or packets) that form a prefix of the
    file behind its magic bytes.  Nothing is lost, repeated or cut between buffers, and the
    buffers are numbered consecutively from 1. *)
Theorem replay_in_order q r acts s :
  rh_file r = magic_of t ++ body → filledBuffers q = [] → Forall buf_ok (emptyBuffers q) →
  run fuel acts (new_system q r) = Some s →
  ∃ fs tail, body = concat fs ++ tail ∧ Forall (complete_frame t) fs ∧ concat (viewU8 <$> delivered s) = concat fs ∧ numbered (delivered s).
Proof.
  intros Hf Hq He Hrun. destruct (run_ok acts _ s (new_system_ok q r Hf Hq He) Hrun) as (_ & (tail & fs & Hd) & _). by exists fs, tail.
Qed.

End Interleavings.

(** ** A replay that is left alone *)

(** Large enough for every frame and packet, and a whole number of words. *)
Definition big (b : ReadoutBuffer) : Prop := buf_ok b ∧ capacity b mod 4 = 0 ∧ 32776 ≤ capacity b.

Lemma incomplete_size t u : incomplete t u → zlen u < 32776.
Proof.
  unfold incomplete. destruct t; cbn [skip_one_frame]; rewrite ?skip_usb_eq, ?skip_eth_eq;
    pose proof (fi_len_range (le_word u)); pose proof (dataWordCount_range {| header0 := le_word u; header1 := le_word (zdrop 4 u) |});
    repeat case_match; breflect; lia.
Qed.

Section Alone.
Context {R : Type} {HR : ReadHandle R} {HL : ReadHandleLaws R}.
Context (fuel : nat) (t : ConnectionType) (body : list Z).
Implicit Types s : Sys R.

(** The worker between two rounds, with everything filled already consumed. *)
Record quiet s : Prop := mkQuiet {
  q_pc : sys_pc s = Top;
  q_state : w_state (sys_w s) = Running ∧ desiredState (sys_w s) = Running;
  q_loop : loop_ok t body (sys_consumed s) (sys_w s);
  q_filled : filledBuffers (snoopQueues (sys_w s)) = [] ∧ sys_held s = [];
  q_empty : Forall big (emptyBuffers (snoopQueues (sys_w s)));
  q_output : from_option (λ b, big b ∧ m_used b = 0) (emptyBuffers (snoopQueues (sys_w s)) ≠ []) (outputBuffer (sys_w s));
  q_words : zlen (rest (lfh (sys_w s))) mod 4 = 0 ∧ zlen (previousData (sys_w s)) mod 4 = 0
}.

(** The buffer at hand after [getOutputBuffer]. *)
Lemma quiet_buffer s :
  quiet s → ∃ b, let w := getOutputBuffer (sys_w s) in
    outputBuffer w = Some b ∧ big b ∧ m_used b = 0 ∧ Forall big (emptyBuffers (snoopQueues w))
    ∧ w_state w = Running ∧ desiredState w = Running.
Proof.
  intros [_ [H1 H2] _ _ He Ho _]. unfold getOutputBuffer. destruct (outputBuffer (sys_w s)) as [b|] eqn:Eo.
  - exists b. cbn in Ho. cbv zeta. rewrite Eo. by destruct Ho.
  - unfold dequeue. destruct (emptyBuffers (snoopQueues (sys_w s))) as [|b bs] eqn:Eb; [done|]. apply Forall_cons in He as [Hb He].
    eexists. cbv zeta. cbn [outputBuffer set_output]. split; [done|]. split; [|done]. destruct Hb as (Hb & Hc & Hm). split; [|done]. by apply clear_ok.
Qed.

(** What the handle returns for a read of [n] bytes. *)
Lemma read_rest (r : R) n :
  0 ≤ n → ∃ r', rh_read n r = (Return (ztake n (rest r)), r') ∧ rest r' = zdrop n (rest r).
Proof.
  intros Hn. pose proof (rh_pos_range r). destruct (rh_read_law r n Hn) as (r' & E & Hf & Hp). exists r'. split; [done|]. unfold rest. rewrite Hf, Hp.
  unfold zdrop. rewrite drop_drop. unfold zlen in *. destruct (decide (n ≤ Z.of_nat (length (rh_file r)) - rh_pos r)); [f_equal; lia|].
  rewrite !drop_ge; [done|lia..].
Qed.

(** The buffer after the kept bytes were moved into it: there is room for more. *)
Lemma room b d :
  big b → m_used b = 0 → zlen d mod 4 = 0 → zlen d < 32776 →
  let b' := move_previous d b in
  big b' ∧ viewU8 b' = d ∧ 0 < free b' ∧ free b' mod 4 = 0 ∧ m_used b' = zlen d.
Proof.
  intros (Hb & Hc & Hm) Hu Hd Hl. destruct (store_previous d b Hb) as (Hb' & Hv & _ & Hu' & _ & Hcap). cbv zeta. unfold big, free in *.
  rewrite Hu in *. rewrite Hcap, Hu' by lia. rewrite Hv. unfold viewU8. rewrite Hu. pose proof (zlen_nonneg d). split_and!; try done; try lia; zlia.
Qed.

Lemma quiet_end s :
  quiet s → rest (lfh (sys_w s)) = [] →
  ∃ w', read_buffer (sys_w s) = Break w' ∧ filledBuffers (snoopQueues w') = [].
Proof.
  intros Hq Hr. destruct (quiet_buffer s Hq) as (b & Eo & Hb & Hu & _). destruct Hq as [_ _ Hl [Hf Hh] He _ [_ Hw]].
  assert (Hpool : pool_ok (sys_w s) []) by (split; [by eapply Forall_impl; [exact He|intros x []]|by rewrite Hf]).
  destruct (getOutputBuffer_ok t body _ [] _ Hl Hpool) as (Hl1 & _ & Hlf & Hpd & Hfl). unfold read_buffer. rewrite Eo. cbv zeta.
  pose proof (incomplete_size t _ (lo_incomplete _ _ _ _ Hl1)) as Hi. unfold held_back in Hi. rewrite Eo, zlen_app in Hi. cbn [from_option] in Hi.
  pose proof (zlen_nonneg (viewU8 b)). rewrite <- Hpd in Hw. destruct (room b _ Hb Hu Hw) as (_ & _ & Hfree & _ & _); [lia|].
  change (lfh (set_previous [] (getOutputBuffer (sys_w s)))) with (lfh (getOutputBuffer (sys_w s))). rewrite Hlf.
  destruct (read_rest (lfh (sys_w s)) (free (move_previous (previousData (getOutputBuffer (sys_w s))) b))) as (r' & -> & _); [lia|].
  rewrite Hr. unfold ztake. rewrite take_nil. cbn [zlen length Z.of_nat Z.eqb]. eexists. split; [done|]. cbn. congruence.
Qed.

Lemma quiet_next s :
  quiet s → rest (lfh (sys_w s)) ≠ [] →
  ∃ w', read_buffer (sys_w s) = Next w' ∧ zlen (rest (lfh w')) < zlen (rest (lfh (sys_w s)))
    ∧ w_state w' = Running ∧ desiredState w' = Running ∧ zlen (rest (lfh w')) mod 4 = 0 ∧ zlen (previousData w') mod 4 = 0
    ∧ Forall big (emptyBuffers (snoopQueues w'))
    ∧ ∃ b, big b ∧ ((filledBuffers (snoopQueues w') = [] ∧ outputBuffer w' = Some b ∧ m_used b = 0)
                    ∨ (filledBuffers (snoopQueues w') = [b] ∧ outputBuffer w' = None)).
Proof.
  intros Hq Hr. destruct (quiet_buffer s Hq) as (b & Eo & Hb & Hu & He1 & Hst & Hde). destruct Hq as [_ _ Hl [Hf Hh] He _ [Hrw Hw]].
  assert (Hpool : pool_ok (sys_w s) []) by (split; [by eapply Forall_impl; [exact He|intros x []]|by rewrite Hf]).
  destruct (getOutputBuffer_ok t body _ [] _ Hl Hpool) as (Hl1 & _ & Hlf & Hpd & Hfl). unfold read_buffer. rewrite Eo. cbv zeta.
  pose proof (incomplete_size t _ (lo_incomplete _ _ _ _ Hl1)) as Hi. unfold held_back in Hi. rewrite Eo, zlen_app in Hi. cbn [from_option] in Hi.
  pose proof (zlen_nonneg (viewU8 b)). rewrite <- Hpd in Hw. destruct (room b _ Hb Hu Hw) as (Hb1 & Hv1 & Hfree & Hfree4 & Hu1); [lia|].
  set (w1 := getOutputBuffer (sys_w s)) in *. set (b1 := move_previous (previousData w1) b) in *.
  change (lfh (set_previous [] w1)) with (lfh w1). rewrite Hlf. rewrite Hf in Hfl.
  destruct (read_rest (lfh (sys_w s)) (free b1)) as (r' & -> & Hr'); [lia|]. set (rst := rest (lfh (sys_w s))) in *. set (bytes := ztake (free b1) rst) in *.
  pose proof (zlen_pos _ Hr) as Hrpos. assert (Hbl : zlen bytes = Z.min (free b1) (zlen rst)) by (unfold bytes, ztake, zlen; rewrite length_take; lia).
  replace (zlen bytes =? 0) with false by lia. assert (Hb4 : zlen bytes mod 4 = 0) by zlia. destruct Hb1 as (Hbok1 & Hc4 & Hc).
  destruct (store_bytes_ok bytes b1 Hbok1) as (Hu2 & Hl2 & Hv2); [lia|]. set (b2 := store_bytes bytes b1) in *.
  assert (Hview : zlen (viewU8 b2) mod 4 = 0) by (rewrite Hv2, Hv1, zlen_app; zlia).
  assert (Hbok2 : buf_ok b2) by (unfold buf_ok, free, capacity in *; lia).
  assert (Hzr : zlen (rest r') = zlen rst - zlen bytes) by (rewrite Hr'; unfold zdrop, zlen in *; rewrite length_drop; lia).
  destruct (fixup_buffer_returns t (viewU8 b2) Hview) as ([n tmp] & Ef). cbn [listfileFormat set_counters set_lfh set_previous].
  rewrite (lo_format _ _ _ _ Hl1), Ef. apply fixup_buffer_Some in Ef as (fs & Hsplit & Hfs & Htmp & ->).
  assert (Htmp4 : zlen tmp mod 4 = 0) by (pose proof (complete_frames_mod4 t fs Hfs); apply (f_equal zlen) in Hsplit; rewrite zlen_app in Hsplit; zlia).
  destruct (setUsed_view b2 (concat fs) tmp Hbok2 Hsplit) as (Hb3 & Hv3 & Hu3). set (b3 := setUsed _ b2) in *.
  assert (Hbig3 : big b3) by (split; [done|]; unfold capacity in *; cbn [b3 setUsed m_buffer]; by rewrite Hl2).
  eexists. split; [done|]. unfold flushCurrentOutputBuffer. cbn [outputBuffer set_output set_previous].
  destruct (m_used b3 >? 0) eqn:Eu; cbn; rewrite Hfl; (split_and!; [lia|done|done|zlia|done|done|]); exists b3; (split; [done|]).
  - by right.
  - left. split; [done|]. split; [done|]. pose proof (zlen_nonneg (concat fs)). lia.
Qed.

Lemma quiet_sys_ok s : quiet s → sys_ok t body s.
Proof.
  intros [Hk _ Hl [Hf Hh] He _ _]. split; [|split; [by apply loop_delivers|by rewrite Hk]].
  rewrite Hh. split; [by eapply Forall_impl; [exact He|intros x []]|]. by rewrite Hf.
Qed.

Lemma run_app acts1 acts2 s : run fuel (acts1 ++ acts2) s = (run fuel acts1 s ≫= run fuel acts2).
Proof. revert s; induction acts1 as [|a acts1 IH]; intros s; [done|]. cbn. destruct (act fuel a s); [apply IH|done]. Qed.

Lemma run_thread acts s s' : thread_step fuel s = Some s' → run fuel (Thread :: acts) s = run fuel acts s'.
Proof. intros E. cbn [run act]. by rewrite E. Qed.

(** Steps of the thread and of the consumer only. *)
Definition alone (a : action) : Prop := a = Thread ∨ a = Consume ∨ a = GiveBack 0.

Lemma quiet_reads s acts : quiet s → run fuel (Thread :: Thread :: acts) s = run fuel acts (at_pc ReadBuffer (sys_w s) s).
Proof.
  intros [Hk [H1 H2] _ _ _ _ _]. erewrite run_thread by (unfold thread_step; by rewrite Hk).
  erewrite run_thread; [done|]. unfold thread_step. cbn [sys_pc sys_w at_pc]. by rewrite H1, H2, bool_decide_true.
Qed.

Lemma quiet_step s w' :
  quiet s → read_buffer (sys_w s) = Next w' → run fuel [Thread; Thread; Thread] s = Some (at_pc Top w' s).
Proof.
  intros Hq E. rewrite (quiet_reads s _ Hq). erewrite run_thread; [done|]. unfold thread_step. cbn [sys_pc sys_w at_pc]. by rewrite E.
Qed.

Lemma quiet_cycle s :
  quiet s → rest (lfh (sys_w s)) ≠ [] →
  ∃ acts s', run fuel acts s = Some s' ∧ Forall alone acts ∧ quiet s' ∧ zlen (rest (lfh (sys_w s'))) < zlen (rest (lfh (sys_w s))).
Proof.
  intros Hq Hr. destruct (quiet_next s Hq Hr) as (w' & E & Hlt & Hst & Hde & Hr4 & Hp4 & He & b & Hb & Hcase).
  pose proof (quiet_step s w' Hq E) as H3. assert (Ha : Forall alone [Thread; Thread; Thread]) by (repeat constructor).
  pose proof (run_ok fuel t body _ _ _ (quiet_sys_ok s Hq) H3) as Hok. destruct Hq as [_ _ _ [_ Hh] _ _ _].
  destruct Hcase as [(Hf & Ho & Hu)|(Hf & Ho)].
  - exists [Thread; Thread; Thread], (at_pc Top w' s). split_and!; [done|done| |done]. destruct Hok as (_ & _ & Hl).
    constructor; cbn; try done. by rewrite Ho.
  - set (s2 := mkSys (set_queues (mkQueues [] (enqueue b (emptyBuffers (snoopQueues w')))) w') Top (sys_promise s) (sys_pending s) (sys_consumed s ++ [b]) []).
    assert (H5 : run fuel ([Thread; Thread; Thread] ++ [Consume; GiveBack 0]) s = Some s2).
    { rewrite run_app, H3. cbn. unfold dequeue. rewrite Hf, Hh. cbn. done. }
    exists ([Thread; Thread; Thread] ++ [Consume; GiveBack 0]), s2. split; [done|]. split; [apply Forall_app; split; [done|]; unfold alone; auto 10|].
    split; [|done]. rewrite run_app, H3 in H5. cbn [mbind option_bind] in H5.
    destruct (run_ok fuel t body _ _ _ Hok H5) as (_ & _ & Hl). constructor; cbn; try done.
    + apply Forall_app. split; [done|]. by constructor.
    + rewrite Ho. cbn. by destruct (emptyBuffers (snoopQueues w')).
Qed.

Lemma quiet_finishes : ∀ s, quiet s →
  ∃ acts s', run fuel acts s = Some s' ∧ Forall alone acts ∧ sys_pc s' = Finished ∧ w_state (sys_w s') = Idle
    ∧ ∃ fs u, body = concat fs ++ u ∧ Forall (complete_frame t) fs ∧ incomplete t u ∧ concat (viewU8 <$> sys_consumed s') = concat fs.
Proof.
  intros s. remember (Z.to_nat (zlen (rest (lfh (sys_w s))))) as n eqn:Hn. revert s Hn.
  induction n as [n IH] using lt_wf_ind. intros s Hn Hq. destruct (decide (rest (lfh (sys_w s)) = [])) as [Hr|Hr].
  - destruct (quiet_end s Hq Hr) as (w' & E & Hf). pose proof Hq as [_ _ Hl [Hf0 _] _ _ _].
    exists (replicate 8 Thread). eexists. split; [|split; [by unfold alone; repeat constructor|]].
    { cbn [replicate]. rewrite (quiet_reads s _ Hq). erewrite run_thread by (unfold thread_step; cbn [sys_pc sys_w at_pc]; by rewrite E). done. }
    split; [done|]. split; [done|]. destruct Hl as [_ _ _ (fs & Hb & Hfs & Hv & _) Hi _ _]. rewrite Hr, app_nil_r in Hb. rewrite Hf0, app_nil_r in Hv.
    by exists fs, (held_back (sys_w s)).
  - destruct (quiet_cycle s Hq Hr) as (acts1 & s1 & E1 & Ha1 & Hq1 & Hlt). pose proof (zlen_nonneg (rest (lfh (sys_w s1)))).
    destruct (IH (Z.to_nat (zlen (rest (lfh (sys_w s1)))))) with (s := s1) as (acts2 & s2 & E2 & Ha2 & H2); [lia|done|done|].
    exists (acts1 ++ acts2), s2. rewrite run_app, E1. split; [done|]. split; [by apply Forall_app|done].
Qed.

(** C14: a replay that is started and left alone ends, whatever the sizes of its buffers: if
    the preamble can be read, the file consists of whole words, and the buffers are larger
    than any frame and have a capacity of whole words (with another capacity a buffer can end
    with one to three bytes, on which fixup_buffer never returns), the thread and a consumer that gives back what it takes reach a state
    where the thread has finished, the worker is idle, and every complete frame of the file
    has been consumed; what is missing at the end is less than a frame. *)
Theorem replay_delivers_all q r p r0 :
  rh_file r = magic_of t ++ body → zlen body mod 4 = 0 → filledBuffers q = [] → Forall big (emptyBuffers q) → emptyBuffers q ≠ [] →
  read_preamble fuel PreambleReadMaxSize r = Done (p, r0) →
  ∃ acts s, run fuel (Start :: acts) (new_system q r) = Some s ∧ Forall alone acts ∧ sys_pc s = Finished ∧ w_state (sys_w s) = Idle
    ∧ ∃ fs u, body = concat fs ++ u ∧ Forall (complete_frame t) fs ∧ incomplete t u ∧ concat (viewU8 <$> sys_consumed s) = concat fs.
Proof.
  intros Hf H4 Hq He Hne Hp. assert (Hm : zlen (magic_of t) = 8) by (by destruct t).
  destruct (read_preamble_state _ _ _ _ _ _ _ Hm Hf Hp) as (Hmag & Hf0 & Hr0).
  set (s0 := start (new_system q r)). assert (Hok0 : sys_ok t body s0).
  { apply (act_ok fuel t body Start (new_system q r)); [|done]. apply new_system_ok; [done|done|]. eapply Forall_impl; [exact He|]. by intros b []. }
  assert (Hbegin : ∃ s1, begin_step fuel s0 = Some s1 ∧ sys_pc s1 = SetState Running (SetPromise Top)
    ∧ lfh (sys_w s1) = r0 ∧ snoopQueues (sys_w s1) = q ∧ outputBuffer (sys_w s1) = None ∧ previousData (sys_w s1) = [] ∧ sys_held s1 = []).
  { unfold begin_step. cbv zeta. change (lfh (set_counters _ (sys_w s0))) with r. rewrite Hp, Hmag. repeat case_bool_decide; try (eexists; split_and!; reflexivity). by destruct t. }
  destruct Hbegin as (s1 & E1 & Hk1 & Hl1 & Hq1 & Ho1 & Hp1 & Hh1).
  assert (E3 : ∃ s3, run fuel [Thread; Thread; Thread; Thread] s0 = Some s3 ∧ quiet s3).
  { assert (E3 : ∃ s3, run fuel [Thread; Thread; Thread; Thread] s0 = Some s3 ∧ sys_w s3 = set_counters (counters (sys_w s3)) (set_desired Running (set_state Running (sys_w s1)))
      ∧ sys_pc s3 = Top ∧ sys_held s3 = sys_held s1).
    { erewrite run_thread by exact E1. erewrite run_thread by (unfold thread_step; by rewrite Hk1). erewrite run_thread by reflexivity.
      erewrite run_thread by reflexivity. by eexists. }
    destruct E3 as (s3 & E3 & Hw3 & Hk3 & Hh3). exists s3. split; [done|].
    destruct (run_ok fuel t body _ _ _ Hok0 E3) as (_ & _ & Hl). rewrite Hk3 in Hl.
    constructor; [exact Hk3| |exact Hl|..]; rewrite ?Hh3, Hw3; cbn [w_state desiredState snoopQueues outputBuffer lfh previousData set_counters set_desired set_state].
    - done.
    - by rewrite Hq1.
    - by rewrite Hq1.
    - by rewrite Ho1, Hq1.
    - by rewrite Hl1, Hr0, Hp1. }
  destruct E3 as (s3 & E3 & Hq3). destruct (quiet_finishes s3 Hq3) as (acts & s & E & Ha & H). exists ([Thread; Thread; Thread; Thread] ++ acts), s.
  split; [|split; [apply Forall_app; split; [by unfold alone; repeat constructor; auto|done]|done]]. change (run fuel (([Thread; Thread; Thread; Thread] ++ acts)) s0 = Some s). rewrite run_app, E3. done.
Qed.
End Alone.

(** ** Requests that get lost *)

Section Requests.
Context {R : Type} {HR : ReadHandle R} (fuel : nat).
Implicit Types s : Sys R.

(** Paused, and nobody asks for anything else. *)
Definition paused s : Prop :=
  w_state (sys_w s) = Paused ∧ desiredState (sys_w s) = Paused
  ∧ (sys_pc s = Top ∨ sys_pc s = CheckRunning Paused ∨ sys_pc s = CheckPause Paused ∨ sys_pc s = CheckResume Paused ∨ sys_pc s = CheckStop Paused).

Lemma paused_step s : paused s → ∃ s', thread_step fuel s = Some s' ∧ paused s'.
Proof.
  intros (H1 & H2 & Hk). unfold thread_step, paused. destruct Hk as [-> |[-> |[-> |[-> | ->]]]]; cbv zeta; rewrite ?H1, ?H2;
    rewrite ?bool_decide_false by (by intros [? ?] || done); eexists; (split; [done|]); cbn; auto 10.
Qed.

Lemma paused_run n : ∀ s, paused s → ∃ s', run fuel (replicate n Thread) s = Some s' ∧ paused s'.
Proof.
  induction n as [|n IH]; intros s Hs; [by exists s|]. destruct (paused_step s Hs) as (s1 & E & Hs1). cbn [replicate run act]. rewrite E. by apply IH.
Qed.

(** A request to stop is lost if it comes while the thread enters the paused state.  The
    call of stop succeeds and stores its request, the thread then overwrites it when it
    writes the second half of [setState(Paused)]; however many steps it makes from there, it
    stays paused and never ends. *)
Theorem stop_request_lost s n :
  sys_pc s = SetState Paused Top → w_state (sys_w s) = Running → sys_pending s = [] →
  check_call CallStop (w_state (sys_w s)) = inr Stopping
  ∧ (∃ s1, run fuel [Call CallStop; Store 0] s = Some s1 ∧ desiredState (sys_w s1) = Stopping)
  ∧ ∃ s', run fuel ([Call CallStop; Store 0] ++ replicate (2 + n) Thread) s = Some s' ∧ paused s'.
Proof.
  intros Hk Hst Hp. rewrite Hst. split; [done|].
  set (s1 := mkSys (set_desired Stopping (sys_w s)) (sys_pc s) (sys_promise s) [] (sys_consumed s) (sys_held s)).
  assert (E : ∀ acts, run fuel ([Call CallStop; Store 0] ++ acts) s = run fuel acts s1).
  { intros acts. cbn [app run act]. rewrite Hst. cbn. by rewrite Hp. }
  split; [exists s1; by rewrite <- (app_nil_r [_; _]), E|]. rewrite E. cbn [Nat.add replicate].
  erewrite run_thread by (unfold thread_step; change (sys_pc s1) with (sys_pc s); by rewrite Hk).
  erewrite run_thread by reflexivity. apply paused_run. unfold paused. cbn. auto.
Qed.

End Requests.

(** ** Examples *)

(** Two complete frames behind the magic bytes and the begin of a third. *)
Definition example_body : list Z := words_to_bytes [sysevent_word 0 1 system_event.subtype.BeginRun 1; 7; 0xF3010001; 5; 0xF3010002; 1].
Definition example_listfile : MemFile := mkMemFile (magic_of USB ++ example_body) 0.
Definition example_queues : ReadoutBufferQueues := mkQueues [] [new_buffer 12; new_buffer 20].
Definition example_actions : list action := Start :: replicate 13 Thread ++ [Consume] ++ replicate 4 Thread ++ [Call CallStop; Store 0; GiveBack 0] ++ replicate 8 Thread.

Lemma replay_in_order_witness :
  ∃ s fs tail, run 20 example_actions (new_system example_queues example_listfile) = Some s ∧ delivered s ≠ []
    ∧ example_body = concat fs ++ tail ∧ Forall (complete_frame USB) fs ∧ concat (viewU8 <$> delivered s) = concat fs ∧ numbered (delivered s).
Proof.
  destruct (run 20 example_actions (new_system example_queues example_listfile)) as [s|] eqn:E; [|by vm_compute in E].
  exists s. assert (Hd : delivered s ≠ []) by (vm_compute in E; by injection E as <-).
  destruct (replay_in_order 20 USB example_body example_queues example_listfile example_actions s) as (fs & tail & H).
  - reflexivity.
  - reflexivity.
  - repeat constructor; vm_compute; congruence.
  - exact E.
  - exists fs, tail. exact (conj eq_refl (conj Hd H)).
Defined.

Lemma replay_delivers_all_witness :
  ∃ acts s, run 20 (Start :: acts) (new_system (new_queues 32776 1) example_listfile) = Some s ∧ sys_pc s = Finished
    ∧ ∃ fs u, example_body = concat fs ++ u ∧ Forall (complete_frame USB) fs ∧ incomplete USB u ∧ concat (viewU8 <$> sys_consumed s) = concat fs.
Proof.
  destruct (read_preamble 20 PreambleReadMaxSize example_listfile) as [[p r0]| | |] eqn:E; try (by vm_compute in E).
  destruct (replay_delivers_all 20 USB example_body (new_queues 32776 1) example_listfile p r0) as (acts & s & H1 & _ & H2 & _ & H3).
  - reflexivity.
  - by vm_compute.
  - reflexivity.
  - constructor; [|constructor]. unfold big, buf_ok, capacity. cbn [new_buffer m_used m_buffer]. rewrite zlen_replicate. split_and!; lia || by vm_compute.
  - discriminate.
  - exact E.
  - exists acts, s. exact (conj H1 (conj H2 H3)).
Defined.

(** Started, asked to pause, and about to do so. *)
Definition example_pausing : list action := Start :: replicate 4 Thread ++ [Call CallPause; Store 0] ++ replicate 3 Thread.

Lemma stop_request_lost_witness :
  ∃ s, run 20 example_pausing (new_system example_queues example_listfile) = Some s
    ∧ ∃ s', run 20 ([Call CallStop; Store 0] ++ replicate 1002 Thread) s = Some s' ∧ paused s'.
Proof.
  destruct (run 20 example_pausing (new_system example_queues example_listfile)) as [s|] eqn:E; [|by vm_compute in E].
  exists s. split; [reflexivity|]. assert (Hs : sys_pc s = SetState Paused Top ∧ w_state (sys_w s) = Running ∧ sys_pending s = [])
    by (vm_compute in E; by injection E as <-).
  destruct Hs as (H1 & H2 & H3). exact (proj2 (proj2 (stop_request_lost 20 s 1000 H1 H2 H3))).
Defined.
