(* ===== verification/ReadoutWorker.v ===== *)
(** * The readout worker: [mvlc_readout_worker.h/.cc]

    Reading from the data pipe into output buffers that hold complete frames only, passing
    the buffers to the listfile writer and to a consumer, and the commands that start and
    end a readout.  What the controller sends is an input of the model: the reads that
    complete until the time of a call is up. *)

From S2P Require Import Prelude Effects Constants Frames Commands Errors CmdPipe CmdApi ReadoutBuffer BufferQueues Listfile ReadoutSetup StackExecutor StackErrors.

(** ** Following the frames *)

(* mvlc_readout_worker.cc:508-513 is_valid_readout_frame *)
Definition is_valid_readout_frame (frameInfo : FrameInfo) : bool :=
  (fi_type frameInfo =? frame_headers.StackFrame) || (fi_type frameInfo =? frame_headers.StackContinuation)
  || (fi_type frameInfo =? frame_headers.SystemEvent).

Definition frame_at (view : list Z) : FrameInfo := extract_frame_info (le_word view).

(** Words that are not a frame header are skipped; the result is the rest of the view and
    the number of words skipped. *)
(* mvlc_readout_worker.cc:1415-1445 fixup_usb_buffer *)
Fixpoint skip_invalid (fuel : nat) (view : list Z) (skipped : Z) : list Z * Z :=
  match fuel with
  | O => (view, skipped)
  | S fuel =>
      if zlen view <? 4 then (view, skipped)
      else if is_valid_readout_frame (frame_at view) then (view, skipped)
      else skip_invalid fuel (zdrop 4 view) (skipped + 1)
  end.

(** What is left of the input behind the complete frames. *)
(* mvlc_readout_worker.cc:524-560 fixup_usb_buffer *)
Fixpoint fixup_span_loop (fuel : nat) (input : list Z) : option (list Z) :=
  match fuel with
  | O => None
  | S fuel =>
      if zlen input <? 4 then Some input
      else
        let '(input, _) := skip_invalid (length input) input 0 in
        if zlen input <? 4 then Some input
        else
          let frameBytes := (fi_len (frame_at input) + 1) * 4 in
          if frameBytes >? zlen input then Some input else fixup_span_loop fuel (zdrop frameBytes input)
  end.

(** The incomplete rest of the input replaces the contents of the temporary buffer; the
    result is the number of bytes in front of it. *)
(* mvlc_readout_worker.cc:515-570 fixup_usb_buffer *)
Definition fixup_usb_span (input : list Z) (tmpBuffer : ReadoutBuffer) : res (Z * ReadoutBuffer) :=
  match fixup_span_loop (S (length input)) input with
  | None => Hangs
  | Some rest =>
      let tmp := ensureFreeSpace (zlen rest) tmpBuffer in
      let tmp := mkBuffer (m_type tmp) (m_number tmp) (write_bytes (m_used tmp) rest (m_buffer tmp)) (m_used tmp) in
      Done (zlen input - zlen rest, setUsed (zlen rest) tmp)
  end.

(** ** Reading without a worker *)

(** A read of the data pipe: its error code and the bytes it stored. *)
Definition UsbRead : Type := error_code * list Z.

(** The reads until the destination is full, the time is up or an error occurs. *)
(* mvlc_readout_worker.cc:600-620 readout_usb *)
Fixpoint usb_read_loop (reads : list UsbRead) (size : Z) (data : list Z) (ec : error_code) : error_code * list Z :=
  match reads with
  | [] => (ec, data)
  | (ec', bytes) :: reads =>
      if size <? usb.USBStreamPipeReadSize then (ec, data)
      else
        let data := data ++ bytes in
        if failed ec' && negb (is_type ec' ErrorType.Timeout) then (ec', data)
        else usb_read_loop reads (size - zlen bytes) data ec'
  end.

(** The destination of [destSize] bytes after the call, the error code and the number of
    bytes in the result.  [dest] is what the destination held before. *)
(* mvlc_readout_worker.cc:572-646 readout_usb *)
Definition readout_usb (tmpBuffer : ReadoutBuffer) (dest : list Z) (reads : list UsbRead)
    : res (list Z * error_code * Z * ReadoutBuffer) :=
  let moved := if negb (m_used tmpBuffer =? 0) && (zlen dest >=? m_used tmpBuffer) then viewU8 tmpBuffer else [] in
  let tmpBuffer := if negb (m_used tmpBuffer =? 0) && (zlen dest >=? m_used tmpBuffer) then clear tmpBuffer else tmpBuffer in
  let '(ec, received) := usb_read_loop reads (zlen dest - zlen moved) [] no_error in
  let dest := write_bytes 0 (moved ++ received) dest in
  match fixup_usb_span (ztake (zlen received) dest) tmpBuffer with
  | Done (_, tmpBuffer) => Done (dest, ec, zlen received + zlen moved - m_used tmpBuffer, tmpBuffer)
  | Raise e => Raise e
  | Hangs => Hangs
  | Broken => Broken
  end.

(** A packet and its error code. *)
Definition EthRead : Type := error_code * list Z.

(* mvlc_readout_worker.cc:648-667 readout_eth *)
Fixpoint readout_eth (reads : list EthRead) (size : Z) (data : list Z) (ec : error_code) : error_code * list Z :=
  match reads with
  | [] => (ec, data)
  | (ec', bytes) :: reads =>
      if size <? eth.JumboFrameMaxSize then (ec, data)
      else
        let data := data ++ bytes in
        if failed ec' then (ec', data) else readout_eth reads (size - zlen bytes) data ec'
  end.

(** ** The worker *)

(** Times, the ETH pipe statistics, the error code and the counters of the listfile writer
    are kept elsewhere or left out. *)
(* mvlc_readout_worker.h:153-221 Counters *)
Record Counters : Type := mkCounters {
  buffersRead : Z;
  buffersFlushed : Z;
  bytesRead : Z;
  snoopMissedBuffers : Z;
  usbFramingErrors : Z;
  usbTempMovedBytes : Z;
  ethShortReads : Z;
  readTimeouts : Z;
  stackHits : list Z
}.

Definition no_counts : Counters := mkCounters 0 0 0 0 0 0 0 0 (replicate 16 0).

(** The buffer that is being filled is one of the consumer or the local one. *)
(* mvlc_readout_worker.cc:687-716 Private *)
Record Worker : Type := mkWorker {
  w_format : ConnectionType;
  snoop : option ReadoutBufferQueues;
  listfileQueues : ReadoutBufferQueues;
  localBuffer : ReadoutBuffer;
  previousData : ReadoutBuffer;
  outputBuffer : option (bool * ReadoutBuffer);   (* whether it is the local buffer *)
  nextOutputBufferNumber : Z;
  w_counters : Counters
}.

Definition set_counters (c : Counters) (w : Worker) : Worker :=
  mkWorker (w_format w) (snoop w) (listfileQueues w) (localBuffer w) (previousData w) (outputBuffer w) (nextOutputBufferNumber w) c.
Definition set_previous (b : ReadoutBuffer) (w : Worker) : Worker :=
  mkWorker (w_format w) (snoop w) (listfileQueues w) (localBuffer w) b (outputBuffer w) (nextOutputBufferNumber w) (w_counters w).
Definition set_output (o : option (bool * ReadoutBuffer)) (w : Worker) : Worker :=
  mkWorker (w_format w) (snoop w) (listfileQueues w) (localBuffer w) (previousData w) o (nextOutputBufferNumber w) (w_counters w).
Definition set_local (b : ReadoutBuffer) (w : Worker) : Worker :=
  mkWorker (w_format w) (snoop w) (listfileQueues w) b (previousData w) (outputBuffer w) (nextOutputBufferNumber w) (w_counters w).
Definition set_snoop (q : option ReadoutBufferQueues) (w : Worker) : Worker :=
  mkWorker (w_format w) q (listfileQueues w) (localBuffer w) (previousData w) (outputBuffer w) (nextOutputBufferNumber w) (w_counters w).
Definition set_listfile (q : ReadoutBufferQueues) (w : Worker) : Worker :=
  mkWorker (w_format w) (snoop w) q (localBuffer w) (previousData w) (outputBuffer w) (nextOutputBufferNumber w) (w_counters w).
Definition set_number (n : Z) (w : Worker) : Worker :=
  mkWorker (w_format w) (snoop w) (listfileQueues w) (localBuffer w) (previousData w) (outputBuffer w) n (w_counters w).

(* mvlc_readout_worker.cc:689-690 ListfileWriterBufferSize *)
Definition ListfileWriterBufferSize : Z := 1024 * 1024.
Definition ListfileWriterBufferCount : nat := 10.

(* mvlc_readout_worker.cc:718-734 Private *)
Definition new_worker (t : ConnectionType) (snoopQueues : option ReadoutBufferQueues) : Worker :=
  mkWorker t snoopQueues (new_queues ListfileWriterBufferSize ListfileWriterBufferCount) (new_buffer ListfileWriterBufferSize)
    (new_buffer ListfileWriterBufferSize) None 1 no_counts.

(** The buffer of the consumer, if one is free, or the local one. *)
(* mvlc_readout_worker.cc:749-765 getOutputBuffer *)
Definition getOutputBuffer (w : Worker) : bool * ReadoutBuffer * Worker :=
  match outputBuffer w with
  | Some (local, b) => (local, b, w)
  | None =>
      let '(local, b, w) :=
        match snoop w with
        | Some q =>
            match dequeue (emptyBuffers q) with
            | (Some b, empty) => (false, b, set_snoop (Some (mkQueues (filledBuffers q) empty)) w)
            | (None, _) => (true, localBuffer w, w)
            end
        | None => (true, localBuffer w, w)
        end in
      let b := setType (w_format w) (setBufferNumber (nextOutputBufferNumber w) (clear b)) in
      (local, b, set_output (Some (local, b)) (set_number (u32 (nextOutputBufferNumber w + 1)) w))
  end.

(* mvlc_readout_worker.cc:767-776 maybePutBackSnoopBuffer *)
Definition maybePutBackSnoopBuffer (w : Worker) : Worker :=
  match outputBuffer w with
  | Some (true, b) => set_output None (set_local b w)
  | Some (false, b) =>
      let w := match snoop w with Some q => set_snoop (Some (mkQueues (filledBuffers q) (enqueue b (emptyBuffers q)))) w | None => w end in
      set_output None w
  | None => w
  end.

Definition count_flush (missed : bool) (c : Counters) : Counters :=
  mkCounters (buffersRead c) (inc64 (buffersFlushed c)) (bytesRead c) (if missed then inc64 (snoopMissedBuffers c) else snoopMissedBuffers c)
    (usbFramingErrors c) (usbTempMovedBytes c) (ethShortReads c) (readTimeouts c) (stackHits c).

(** The data is copied into a buffer for the listfile writer, which the call waits for, and
    handed to the consumer. *)
(* mvlc_readout_worker.cc:778-798 flushCurrentOutputBuffer *)
Definition flushCurrentOutputBuffer (w : Worker) : res Worker :=
  match outputBuffer w with
  | Some (local, b) =>
      if m_used b >? 0 then
        match dequeue (emptyBuffers (listfileQueues w)) with
        | (None, _) => Hangs
        | (Some _, empty) =>
            let w := set_listfile (mkQueues (enqueue b (filledBuffers (listfileQueues w))) empty) w in
            let w := if local then set_local b w
                     else match snoop w with Some q => set_snoop (Some (mkQueues (enqueue b (filledBuffers q)) (emptyBuffers q))) w | None => w end in
            Done (set_output None (set_counters (count_flush local (w_counters w)) w))
        end
      else Done w
  | None => Done w
  end.

(** ** Reading USB data *)

Definition count_framing (errors : Z) (c : Counters) : Counters :=
  mkCounters (buffersRead c) (buffersFlushed c) (bytesRead c) (snoopMissedBuffers c) (u64 (usbFramingErrors c + errors))
    (usbTempMovedBytes c) (ethShortReads c) (readTimeouts c) (stackHits c).
Definition count_moved (bytes : Z) (c : Counters) : Counters :=
  mkCounters (buffersRead c) (buffersFlushed c) (bytesRead c) (snoopMissedBuffers c) (usbFramingErrors c)
    (u64 (usbTempMovedBytes c + bytes)) (ethShortReads c) (readTimeouts c) (stackHits c).
Definition count_hit (stack : Z) (c : Counters) : Counters :=
  mkCounters (buffersRead c) (buffersFlushed c) (bytesRead c) (snoopMissedBuffers c) (usbFramingErrors c)
    (usbTempMovedBytes c) (ethShortReads c) (readTimeouts c) (alter inc64 (Z.to_nat stack) (stackHits c)).

Definition is_stack_frame (frameInfo : FrameInfo) : bool :=
  (fi_type frameInfo =? frame_headers.StackFrame) || (fi_type frameInfo =? frame_headers.StackContinuation).

(** The loop over the frames: the incomplete frame at the end, if any, and the counters.
    With one to three bytes left the loop does not end. *)
(* mvlc_readout_worker.cc:1408-1478 fixup_usb_buffer *)
Fixpoint fixup_usb_loop (fuel : nat) (view : list Z) (c : Counters) : option (list Z * Counters) :=
  match fuel with
  | O => None
  | S fuel =>
      match view with
      | [] => Some ([], c)
      | _ =>
          if zlen view <? 4 then fixup_usb_loop fuel view c
          else
            let '(view, errors) := skip_invalid (length view) view 0 in
            let c := count_framing errors c in
            if zlen view <? 4 then fixup_usb_loop fuel view c
            else
              let frameInfo := frame_at view in
              if (fi_len frameInfo + 1) * 4 >? zlen view then Some (view, count_moved (zlen view) c)
              else
                let c := if is_stack_frame frameInfo then count_hit (fi_stack frameInfo) c else c in
                fixup_usb_loop fuel (zdrop ((fi_len frameInfo + 1) * 4) view) c
      end
  end.

(** The incomplete frame at the end of the read buffer is copied to the start of the other one. *)
(* mvlc_readout_worker.cc:1401-1479 fixup_usb_buffer *)
Definition fixup_usb_buffer (readBuffer tempBuffer : ReadoutBuffer) (c : Counters) : res (ReadoutBuffer * ReadoutBuffer * Counters) :=
  match fixup_usb_loop (S (length (viewU8 readBuffer))) (viewU8 readBuffer) c with
  | None => Hangs
  | Some ([], c) => Done (readBuffer, tempBuffer, c)
  | Some (rest, c) =>
      if zlen rest >? capacity tempBuffer then Broken
      else
        let temp := mkBuffer (m_type tempBuffer) (m_number tempBuffer) (write_bytes 0 rest (m_buffer tempBuffer)) (m_used tempBuffer) in
        Done (setUsed (m_used readBuffer - zlen rest) readBuffer, setUsed (zlen rest) temp, c)
  end.

(** The reads until there is no room for another one, the connection is lost or the time is up;
    the time is up after the last read of the list. *)
(* mvlc_readout_worker.cc:1556-1585 readout_usb *)
Fixpoint worker_usb_loop (reads : list UsbRead) (dest : ReadoutBuffer) (total : Z) (ec : error_code) : ReadoutBuffer * Z * error_code :=
  match reads with
  | [] => (dest, total, ec)
  | (ec', bytes) :: reads =>
      if free dest <? usb.USBStreamPipeReadSize then (dest, total, ec)
      else
        let dest := store_bytes bytes dest in
        let total := u64 (total + zlen bytes) in
        if is_type ec' ErrorType.ConnectionError then (dest, total, ec') else worker_usb_loop reads dest total ec'
  end.

(* mvlc_readout_worker.cc:1535-1602 readout_usb *)
Definition worker_readout_usb (reads : list UsbRead) (w : Worker) : res (error_code * Z * Worker) :=
  let '(local, dest, w) := getOutputBuffer w in
  let prev := previousData w in
  let '(dest, prev) :=
    if negb (m_used prev =? 0) then (store_bytes (viewU8 prev) (ensureFreeSpace (m_used prev) dest), clear prev) else (dest, prev) in
  let dest := ensureFreeSpace usb.USBStreamPipeReadSize dest in
  let '(dest, total, ec) := worker_usb_loop reads dest 0 no_error in
  match fixup_usb_buffer dest prev (w_counters w) with
  | Done (dest, prev, c) => Done (ec, total, set_output (Some (local, dest)) (set_previous prev (set_counters c w)))
  | Raise e => Raise e
  | Hangs => Hangs
  | Broken => Broken
  end.

(** ** Reading ETH packets *)

(** The frames of the payload are followed from the header pointer on. *)
(* mvlc_readout_worker.cc:1796-1806 count_stack_hits *)
Fixpoint count_hits_loop (fuel : nat) (payload : list Z) (hits : list Z) : bool * list Z :=
  match fuel, payload with
  | S fuel, header :: _ =>
      let fi := extract_frame_info header in
      if is_stack_frame fi
      then count_hits_loop fuel (zdrop (fi_len fi + 1) payload) (alter inc64 (Z.to_nat (fi_stack fi)) hits)
      else (false, hits)
  | _, _ => (true, hits)
  end.

(* mvlc_eth_interface.h:137-143 availablePayloadWords *)
Definition availablePayloadWords (packet : list Z) : Z :=
  if zlen packet <? eth.HeaderBytes then 0 else (zlen packet - eth.HeaderBytes) / 4.

(* mvlc_eth_interface.h:150-158 payloadBegin *)
Definition payload_words (packet : list Z) : list Z :=
  bytes_to_words (Z.to_nat (availablePayloadWords packet)) (zdrop eth.HeaderBytes packet).

(** Without headers there is no payload and no valid pointer into it. *)
(* mvlc_eth_interface.h:160-177 isNextHeaderPointerValid *)
Definition valid_header_pointer (packet : list Z) : option Z :=
  let nhp := nextHeaderPointer {| header0 := le_word packet; header1 := le_word (zdrop 4 packet) |} in
  if negb (nhp =? eth.header1.NoHeaderPointerPresent) && (nhp <? availablePayloadWords packet) then Some nhp else None.

(* mvlc_readout_worker.cc:1790-1810 count_stack_hits *)
Definition count_stack_hits (packet : list Z) (hits : list Z) : bool * list Z :=
  match valid_header_pointer packet with
  | Some nhp => count_hits_loop (length (payload_words packet)) (zdrop nhp (payload_words packet)) hits
  | None => (true, hits)
  end.

(* mvlc_eth_interface.h:145-148 leftoverBytes *)
Definition leftoverBytes (packet : list Z) : Z := zlen packet mod 4.

Definition count_short (c : Counters) : Counters :=
  mkCounters (buffersRead c) (buffersFlushed c) (bytesRead c) (snoopMissedBuffers c) (usbFramingErrors c) (usbTempMovedBytes c)
    (inc64 (ethShortReads c)) (readTimeouts c) (stackHits c).
Definition add_hits (hits : list Z) (c : Counters) : Counters :=
  mkCounters (buffersRead c) (buffersFlushed c) (bytesRead c) (snoopMissedBuffers c) (usbFramingErrors c) (usbTempMovedBytes c)
    (ethShortReads c) (readTimeouts c) (zip_with (λ n k, u64 (n + k)) (stackHits c) hits).

(** The result says whether the call returns at once, without counting the stack hits. *)
(* mvlc_readout_worker.cc:1617-1671 readout_eth *)
Fixpoint worker_eth_loop (reads : list EthRead) (dest : ReadoutBuffer) (total : Z) (ec : error_code) (hits : list Z) (c : Counters)
    : bool * ReadoutBuffer * Z * error_code * list Z * Counters :=
  match reads with
  | [] => (false, dest, total, ec, hits, c)
  | (ec', packet) :: reads =>
      if free dest <? eth.JumboFrameMaxSize then (false, dest, total, ec, hits, c)
      else
        let dest := store_bytes packet dest in
        let total := u64 (total + zlen packet) in
        if is_type ec' ErrorType.ConnectionError then (true, dest, total, ec', hits, c)
        else if bool_decide (ec' = Mvlc MVLCErrorCode.ShortRead) then worker_eth_loop reads dest total ec' hits (count_short c)
        else
          let hits := (count_stack_hits packet hits).2 in
          let dest := if leftoverBytes packet =? 0 then dest else setUsed (m_used dest - leftoverBytes packet) dest in
          worker_eth_loop reads dest total ec' hits c
  end.

(* mvlc_readout_worker.cc:1604-1686 readout_eth *)
Definition worker_readout_eth (reads : list EthRead) (w : Worker) : error_code * Z * Worker :=
  let '(local, dest, w) := getOutputBuffer w in
  let '(lost, dest, total, ec, hits, c) := worker_eth_loop reads dest 0 no_error (replicate 16 0) (w_counters w) in
  (ec, total, set_output (Some (local, dest)) (set_counters (if lost then c else add_hits hits c) w)).

Definition count_readout (bytes : Z) (timeout : bool) (c : Counters) : Counters :=
  mkCounters (if bytes =? 0 then buffersRead c else inc64 (buffersRead c)) (buffersFlushed c)
    (if bytes =? 0 then bytesRead c else u64 (bytesRead c + bytes)) (snoopMissedBuffers c) (usbFramingErrors c) (usbTempMovedBytes c)
    (ethShortReads c) (if timeout then inc64 (readTimeouts c) else readTimeouts c) (stackHits c).

(* mvlc_readout_worker.cc:1492-1533 readout *)
Definition readout (reads : list (error_code * list Z)) (w : Worker) : res (error_code * Z * Worker) :=
  match (match w_format w with USB => worker_readout_usb reads w | ETH => Done (worker_readout_eth reads w) end) with
  | Done (ec, bytesTransferred, w) =>
      let w := set_counters (count_readout bytesTransferred (is_type ec ErrorType.Timeout) (w_counters w)) w in
      match flushCurrentOutputBuffer w with
      | Done w => Done (ec, bytesTransferred, w)
      | Raise e => Raise e
      | Hangs => Hangs
      | Broken => Broken
      end
  | Raise e => Raise e
  | Hangs => Hangs
  | Broken => Broken
  end.

(** ** Starting and ending a readout *)

(** The commands run while another thread reads the data pipe; [rnd] is the number chosen
    for the reference word of a transaction. *)
Section Commands.
Context {D : Type} {HC : Connection D}.
Notation MM A := (SM (Mvlc_t (D := D)) A).

Definition mcst_options : CommandExecOptions := mkExecOptions false true.

(** Running multicast commands: only a connection error ends the sequence. *)
(* mvlc_readout_worker.cc:1199-1233 startReadout *)
Definition run_mcst (commands : StackCommandBuilder) (next : MM error_code) : MM error_code :=
  results ← run_builder commands mcst_options;
  let ec := get_first_error results in
  if failed ec && is_type ec ErrorType.ConnectionError then mret ec else next.

(* mvlc_readout_worker.cc:1164-1266 startReadout *)
Definition startReadout (rnd : Z) (stackTriggers : list Z) (mcstDaqStart : StackCommandBuilder) : MM error_code :=
  let enable : MM error_code := if builder_empty mcstDaqStart then enable_daq_mode else run_mcst mcstDaqStart enable_daq_mode in
  match stackTriggers with
  | [] => enable
  | _ =>
      ec ← setup_readout_triggers rnd stackTriggers;
      if failed ec then mret ec else enable
  end.

(** The builder that decides is the one with the stop commands, the one that is run the one
    with the start commands. *)
(* mvlc_readout_worker.cc:1274-1389 terminateReadout *)
Definition terminateReadout (mcstDaqStart mcstDaqStop : StackCommandBuilder) : MM error_code :=
  if builder_empty mcstDaqStop then disable_daq_mode else run_mcst mcstDaqStart disable_daq_mode.

(** ** The init sequence *)

(* mvlc_readout_worker.h:43-49 ReadoutInitResults *)
Record ReadoutInitResults : Type := mkInitResults {
  ir_ec : error_code;
  ir_ex : option exn;
  ir_init : list CommandExecResult;
  ir_triggerIo : list CommandExecResult
}.

Definition set_ec (ec : error_code) (r : ReadoutInitResults) : ReadoutInitResults := mkInitResults ec (ir_ex r) (ir_init r) (ir_triggerIo r).

(** The callback of the user returns an error code or throws. *)
(* mvlc_readout_worker.h:31-34 ReadoutInitCallback *)
Definition InitCallback : Type := option (string → Mvlc_t (D := D) → (error_code + exn) * Mvlc_t (D := D)).

(* mvlc_readout_worker.cc:104-126 init_readout *)
Definition maybe_invoke_callback (callback : InitCallback) (stage : string) (ret : ReadoutInitResults) : MM ReadoutInitResults := λ d,
  match callback with
  | None => Done (ret, d)
  | Some f =>
      match f stage d with
      | (inl ec, d) => Done (if failed ec then set_ec ec ret else ret, d)
      | (inr e, d) => Done (mkInitResults (ir_ec ret) (Some e) (ir_init ret) (ir_triggerIo ret), d)
      end
  end.

(** The writes go on after an error. *)
(* mvlc_readout_worker.cc:146-154 init_readout *)
Fixpoint write_init_registers (regs : list (Z * Z)) (ret : ReadoutInitResults) : MM ReadoutInitResults :=
  match regs with
  | [] => mret ret
  | (addr, value) :: regs =>
      ec ← d_writeRegister addr value;
      write_init_registers regs (if failed ec then set_ec ec ret else ret)
  end.

(** The last stages, from the upload of the stacks on. *)
(* mvlc_readout_worker.cc:196-234 init_readout *)
Definition init_upload (rnd : Z) (crateConfig : CrateConfig) (callback : InitCallback) (ret : ReadoutInitResults) : MM ReadoutInitResults :=
  ec ← setup_readout_stacks (cc_stacks crateConfig);
  let ret := set_ec ec ret in
  if failed ec then mret ret
  else
    ret ← maybe_invoke_callback callback "upload_readout_stacks" ret;
    ec ← setup_readout_triggers rnd (cc_triggers crateConfig);
    let ret := set_ec ec ret in
    if failed ec then mret ret
    else
      ret ← maybe_invoke_callback callback "setup_readout_triggers" ret;
      match connectionType (D := D) with
      | ETH => ec ← (enableJumboFrames (ethJumboEnable crateConfig) : MM error_code); mret (set_ec ec ret)
      | USB => mret ret
      end.

(* mvlc_readout_worker.cc:96-235 init_readout *)
Definition init_readout (rnd1 rnd2 : Z) (crateConfig : CrateConfig) (stackExecOptions : CommandExecOptions) (callback : InitCallback)
    : MM ReadoutInitResults :=
  let ret := mkInitResults no_error None [] [] in
  ec ← disable_daq_mode_and_triggers rnd1;
  if failed ec then mret (set_ec ec ret)
  else
    ec ← d_writeRegister registers.controller_id (crateId crateConfig);
    if failed ec then mret (set_ec ec ret)
    else
      ret ← write_init_registers (initRegisters crateConfig) ret;
      ret ← maybe_invoke_callback callback "init_registers" ret;
      triggerIo ← run_builder (initTriggerIO crateConfig) stackExecOptions;
      let ret := mkInitResults (ir_ec ret) (ir_ex ret) (ir_init ret) triggerIo in
      let result := get_first_error_result triggerIo in
      if failed (er_ec result) then mret (set_ec (er_ec result) ret)
      else
        ret ← maybe_invoke_callback callback "init_trigger_io" ret;
        init ← run_builder (initCommands crateConfig) stackExecOptions;
        let ret := mkInitResults (ir_ec ret) (ir_ex ret) init (ir_triggerIo ret) in
        let ec := get_first_error init in
        let ret := if failed ec then set_ec ec ret else ret in
        if failed ec && negb (continueOnVMEError stackExecOptions) then mret ret
        else
          ret ← maybe_invoke_callback callback "init_modules" ret;
          init_upload rnd2 crateConfig callback ret.

End Commands.

(** ** The listfile writer *)

(* mvlc_readout_worker.h:82-96 ListfileWriterCounters *)
Record ListfileWriterCounters : Type := mkWriterCounters { lw_writes : Z; lw_bytesWritten : Z; lw_eptr : option exn }.

Section Writer.
Context {W : Type} {HW : WriteHandle W}.

(** The writer with its handle, if any, and the buffers it has returned. *)
Record Writer : Type := mkWriter {
  lw_running : bool;
  lw_handle : option W;
  lw_counters : ListfileWriterCounters;
  lw_empty : list ReadoutBuffer
}.

(** The buffers of the queue in their order; an empty buffer ends the thread. *)
(* mvlc_readout_worker.cc:237-333 listfile_buffer_writer *)
Fixpoint listfile_buffer_writer (filled : list ReadoutBuffer) (lw : Writer) : res Writer :=
  match filled with
  | [] => Done lw
  | buffer :: filled =>
      if negb (lw_running lw) then Done lw
      else
        let empty := enqueue buffer (lw_empty lw) in
        if m_used buffer =? 0 then Done (mkWriter false (lw_handle lw) (lw_counters lw) empty)
        else
          match lw_handle lw with
          | None => listfile_buffer_writer filled (mkWriter true None (lw_counters lw) empty)
          | Some lfh =>
              match wh_write (viewU8 buffer) lfh with
              | Done (n, lfh) =>
                  let c := lw_counters lw in
                  listfile_buffer_writer filled
                    (mkWriter true (Some lfh) (mkWriterCounters (inc64 (lw_writes c)) (u64 (lw_bytesWritten c + n)) (lw_eptr c)) empty)
              | Raise e =>
                  let c := lw_counters lw in
                  Done (mkWriter false None (mkWriterCounters (lw_writes c) (lw_bytesWritten c) (Some e)) empty)
              | Hangs => Hangs
              | Broken => Broken
              end
          end
  end.

End Writer.

(** ** Plugins of the readout loop *)

(** Times are in nanoseconds of a clock; the time of day is in seconds. *)
Section Plugins.
Context {W : Type} {HW : WriteHandle W}.

(* mvlc_readout_worker.h:125-129 Result *)
Inductive PluginResult : Type := ContinueReadout | StopReadout.

(* mvlc_readout_worker.cc:388-403 ReadoutDurationPlugin *)
Definition duration_plugin (timeToRun tReadoutStart now : Z) : PluginResult :=
  if negb (timeToRun =? 0) && (now - tReadoutStart >=? timeToRun * 1000000000) then StopReadout else ContinueReadout.

(* mvlc_readout_worker.cc:405-417 TimetickPlugin::readoutStart *)
Definition timetick_start (crateId timeOfDay : Z) : SM W () :=
  listfile_write_timestamp_section timeOfDay crateId system_event.subtype.BeginRun.

(* mvlc_readout_worker.cc:419-429 TimetickPlugin::readoutStop *)
Definition timetick_stop (crateId timeOfDay : Z) : SM W () :=
  listfile_write_timestamp_section timeOfDay crateId system_event.subtype.EndRun.

(** The result is the new time of the last tick. *)
(* mvlc_readout_worker.cc:431-449 TimetickPlugin *)
Definition timetick_plugin (crateId timeOfDay tLastTick now : Z) : SM W Z :=
  if now - tLastTick >=? 1000000000
  then listfile_write_timestamp_section timeOfDay crateId system_event.subtype.UnixTimetick;; mret now
  else mret tLastTick.

(* mvlc_readout_worker.cc:494-504 writeStackErrorsEvent *)
Definition writeStackErrorsEvent (crateId : Z) (stackErrors : list (list (StackErrorInfo * Z))) : SM W () :=
  match stack_errors_to_sysevent_data stackErrors with
  | [] => mret ()
  | buffer => listfile_write_system_event crateId system_event.subtype.StackErrors buffer
  end.

(** The errors recorded last and the time of the last check; maps are lists in their order. *)
(* mvlc_readout_worker.cc:463-492 StackErrorsPlugin *)
Definition stack_errors_plugin (crateId : Z) (stackErrors : list (list (StackErrorInfo * Z))) (now : Z)
    (prev : list (list (StackErrorInfo * Z))) (tLastCheck : Z) : SM W (list (list (StackErrorInfo * Z)) * Z) :=
  if now - tLastCheck >=? 1000000000 then
    if bool_decide (stackErrors = prev) then mret (prev, now)
    else writeStackErrorsEvent crateId stackErrors;; mret (stackErrors, now)
  else mret (prev, tLastCheck).

End Plugins.
