(* ===== verification/ReadoutWorkerFacts.v ===== *)
(** * The readout worker: the data reaches the listfile

    Following frames in a USB buffer, the data of one call, and the listfile that results
    from any number of calls. *)

From S2P Require Import Prelude Effects Constants Frames FramesFacts Commands Errors CmdPipe CmdPipeFacts CmdApi CmdApiLaws CmdApiFacts CmdApiController CmdApiExec ReadoutBuffer BufferQueues Listfile ListfileFacts ReadoutSetup StackExecutor StackErrors ReadoutWorker.

(** ** Pieces of a buffer *)

(** A complete frame, or a single word that is no frame header. *)
Definition piece (p : list Z) : Prop :=
  4 ≤ zlen p ∧ zlen p = if is_valid_readout_frame (frame_at p) then (fi_len (frame_at p) + 1) * 4 else 4.

(** The start of a frame whose end is missing. *)
Definition cut (r : list Z) : Prop :=
  4 ≤ zlen r ∧ is_valid_readout_frame (frame_at r) = true ∧ zlen r < (fi_len (frame_at r) + 1) * 4.

Lemma frame_at_take n v : 4 ≤ n → 4 ≤ zlen v → frame_at (ztake n v) = frame_at v.
Proof. intros Hn Hv. unfold frame_at, ztake. unfold zlen in *. by rewrite le_word_take by lia. Qed.

Lemma cut_size r : cut r → zlen r < 32768.
Proof. intros (_ & _ & H). pose proof (fi_len_range (le_word r)). unfold frame_at in H. lia. Qed.

Lemma stack_frame_valid fi : is_stack_frame fi = true → is_valid_readout_frame fi = true.
Proof. unfold is_stack_frame, is_valid_readout_frame. by intros ->. Qed.

Lemma split_piece n v :
  4 ≤ zlen v → 4 ≤ n ≤ zlen v → n = (if is_valid_readout_frame (frame_at v) then (fi_len (frame_at v) + 1) * 4 else 4) →
  piece (ztake n v) ∧ v = ztake n v ++ zdrop n v ∧ zlen (zdrop n v) = zlen v - n.
Proof.
  intros Hv Hn He. unfold piece. rewrite frame_at_take, zlen_ztake, <- He, zlen_zdrop, ztake_zdrop by lia. split_and!; lia || done.
Qed.

Lemma skip_invalid_ok fuel : ∀ v k v' k',
  (length v ≤ fuel)%nat → skip_invalid fuel v k = (v', k') →
  ∃ ps, v = concat ps ++ v' ∧ Forall (λ p, piece p ∧ is_valid_readout_frame (frame_at p) = false) ps ∧ k' = k + zlen ps
    ∧ (zlen v' < 4 ∨ 4 ≤ zlen v' ∧ is_valid_readout_frame (frame_at v') = true).
Proof.
  induction fuel as [|fuel IH]; intros v k v' k' Hf; cbn [skip_invalid].
  { intros [= <- <-]. exists []. split_and!; [done|constructor|rewrite zlen_nil; lia|]. left. destruct v; cbn in *; [by vm_compute|lia]. }
  destruct (zlen v <? 4) eqn:E4; [|destruct (is_valid_readout_frame (frame_at v)) eqn:Ev].
  - intros [= <- <-]. exists []. split_and!; [done|constructor|rewrite zlen_nil; lia|]. left. lia.
  - intros [= <- <-]. exists []. split_and!; [done|constructor|rewrite zlen_nil; lia|]. right. split; [lia|done].
  - intros H. destruct (split_piece 4 v) as (Hp & Hs & Hl); [lia..|by rewrite Ev|].
    apply IH in H as (ps & Hv & Hps & -> & Hend); [|unfold zlen in *; lia].
    exists (ztake 4 v :: ps). split_and!; [cbn; rewrite <- app_assoc, <- Hv; by rewrite ztake_zdrop| |rewrite zlen_cons; lia|done].
    constructor; [|done]. split; [done|]. by rewrite frame_at_take by lia.
Qed.

(** The stack hits of a sequence of pieces. *)
Definition hits_of (ps : list (list Z)) (hits : list Z) : list Z :=
  foldl (λ h p, if is_stack_frame (frame_at p) then alter inc64 (Z.to_nat (fi_stack (frame_at p))) h else h) hits ps.

Lemma hits_of_app ps1 ps2 hits : hits_of (ps1 ++ ps2) hits = hits_of ps2 (hits_of ps1 hits).
Proof. apply foldl_app. Qed.

Lemma hits_of_invalid ps hits : Forall (λ p, piece p ∧ is_valid_readout_frame (frame_at p) = false) ps → hits_of ps hits = hits.
Proof.
  intros H. induction H as [|p ps [_ Hp] Hps IH]; [done|]. cbn. destruct (is_stack_frame (frame_at p)) eqn:E; [|exact IH].
  apply stack_frame_valid in E. congruence.
Qed.

Lemma fixup_usb_loop_ok fuel : ∀ v c rest c',
  fixup_usb_loop fuel v c = Some (rest, c') →
  ∃ ps, v = concat ps ++ rest ∧ Forall piece ps ∧ (rest = [] ∨ cut rest)
    ∧ stackHits c' = hits_of ps (stackHits c).
Proof.
  induction fuel as [|fuel IH]; intros v c rest c'; [done|]. cbn [fixup_usb_loop].
  destruct v as [|x v0]; [|set (v := x :: v0)].
  { intros [= <- <-]. exists []. split_and!; [done|constructor|by left|done]. }
  destruct (zlen v <? 4) eqn:E4; [apply IH|]. destruct (skip_invalid (length v) v 0) as [v1 errors] eqn:Es.
  apply skip_invalid_ok in Es as (ps & Hv & Hps & _ & Hend); [|done].
  assert (Hpieces : Forall piece ps) by (eapply Forall_impl; [exact Hps|]; by intros p []).
  destruct (zlen v1 <? 4) eqn:E5.
  - intros (ps' & Hv1 & Hps' & Hr & Hh)%IH. exists (ps ++ ps'). rewrite concat_app, <- app_assoc, <- Hv1, hits_of_app, Hh. cbn [stackHits count_framing].
    rewrite (hits_of_invalid ps) by done. split_and!; [done|by apply Forall_app|done|done].
  - destruct Hend as [|[_ Hval]]; [lia|]. destruct (_ >? zlen v1) eqn:El.
    + intros [= <- <-]. exists ps. cbn [stackHits count_moved count_framing]. rewrite (hits_of_invalid ps) by done. split_and!; [done|done| |done].
      right. split_and!; [lia|done|lia].
    + pose proof (fi_len_range (le_word v1)). fold (frame_at v1) in *.
      destruct (split_piece ((fi_len (frame_at v1) + 1) * 4) v1) as (Hp & Hs & _); [lia|lia|by rewrite Hval|].
      intros (ps' & Hv1 & Hps' & Hr & Hh)%IH. exists (ps ++ ztake ((fi_len (frame_at v1) + 1) * 4) v1 :: ps').
      rewrite concat_app, hits_of_app, Hh. cbn [concat]. rewrite <- !app_assoc, <- Hv1, <- Hs. split_and!; [done| |done|].
      * apply Forall_app. split; [done|]. by constructor.
      * rewrite (hits_of_invalid ps) by done. cbn [hits_of foldl]. rewrite frame_at_take by lia. by destruct (is_stack_frame (frame_at v1)).
Qed.

(** Enough rounds for a buffer of whole words. *)
Lemma fixup_usb_loop_returns fuel : ∀ v c, zlen v mod 4 = 0 → (length v < fuel)%nat → ∃ r, fixup_usb_loop fuel v c = Some r.
Proof.
  induction fuel as [|fuel IH]; intros v c Hm Hf; [lia|]. cbn [fixup_usb_loop]. destruct v as [|x v0]; [by eexists|set (v := x :: v0) in *].
  assert (H4 : 4 ≤ zlen v) by (pose proof (zlen_pos v ltac:(done)); zlia). replace (zlen v <? 4) with false by lia.
  destruct (skip_invalid (length v) v 0) as [v1 errors] eqn:Es. apply skip_invalid_ok in Es as (ps & Hv & Hps & _ & Hend); [|done].
  assert (Hpm : zlen (concat ps) mod 4 = 0).
  { clear -Hps. induction Hps as [|p ps [[_ Hp] Hi] Hps IH]; [done|]. cbn. rewrite zlen_app. rewrite Hi in Hp. zlia. }
  assert (Hl : zlen v = zlen (concat ps) + zlen v1) by (by rewrite <- zlen_app, <- Hv).
  assert (Hm1 : zlen v1 mod 4 = 0) by zlia. pose proof (zlen_nonneg (concat ps)). pose proof (zlen_nonneg v1).
  destruct (zlen v1 <? 4) eqn:E5.
  - assert (v1 = []) as -> by (apply zlen_0; zlia). destruct fuel as [|fuel]; [cbn in Hf; lia|]. by eexists.
  - destruct (_ >? zlen v1) eqn:El; [by eexists|]. pose proof (fi_len_range (le_word v1)). unfold frame_at in *.
    apply IH; [rewrite zlen_zdrop by lia; zlia|]. unfold zdrop, zlen in *. rewrite length_drop. lia.
Qed.

(** ** One call of the worker *)

(** A read stores whole words, at most as many bytes as were asked for. *)
Definition usb_read_ok (r : UsbRead) : Prop := zlen r.2 mod 4 = 0 ∧ zlen r.2 ≤ usb.USBStreamPipeReadSize.

(** The bytes of the first [k] reads. *)
Definition received (k : nat) (reads : list UsbRead) : list Z := concat (take k reads.*2).

Lemma worker_usb_loop_ok reads : ∀ dest total ec dest' total' ec',
  buf_ok dest → Forall usb_read_ok reads → worker_usb_loop reads dest total ec = (dest', total', ec') →
  ∃ k, buf_ok dest' ∧ viewU8 dest' = viewU8 dest ++ received k reads ∧ u64 total' = u64 (total + zlen (received k reads))
    ∧ m_number dest' = m_number dest ∧ (usb.USBStreamPipeReadSize ≤ free dest → reads ≠ [] → k ≠ O).
Proof.
  induction reads as [|[ec1 bytes] reads IH]; intros dest total ec dest' total' ec' Hb Hr; cbn [worker_usb_loop].
  { intros [= <- <- <-]. exists O. unfold received. cbn. rewrite app_nil_r, Z.add_0_r. by split_and!. }
  destruct (free dest <? _) eqn:Ef.
  { intros [= <- <- <-]. exists O. unfold received. cbn. rewrite app_nil_r, Z.add_0_r. split_and!; try done. lia. }
  apply Forall_cons in Hr as [[Hm Hs] Hr]. cbn [snd] in *.
  destruct (store_bytes_ok bytes dest Hb) as (Hu & Hl & Hv); [lia|].
  assert (Hb1 : buf_ok (store_bytes bytes dest)) by (unfold buf_ok, free, capacity in *; pose proof (zlen_nonneg bytes); lia).
  destruct (is_type ec1 ErrorType.ConnectionError).
  - intros [= <- <- <-]. exists 1%nat. unfold received. cbn. rewrite app_nil_r, Hv. unfold u64. rewrite Zmod_mod. by split_and!.
  - intros H. destruct (IH _ _ _ _ _ _ Hb1 Hr H) as (k & Hb' & Hv' & Ht & Hn & _). exists (S k). unfold received in *. cbn. rewrite Hv', Hv, <- app_assoc, zlen_app.
    split_and!; try done. rewrite Ht. unfold u64. rewrite Zplus_mod_idemp_l. f_equal. lia.
Qed.

Lemma zlen_received k reads : Forall usb_read_ok reads → zlen (received k reads) mod 4 = 0.
Proof.
  unfold received. intros H. revert k; induction H as [|[ec bytes] reads [Hm _] _ IH]; intros [|k]; try done. cbn [fmap list_fmap take concat snd].
  rewrite zlen_app. specialize (IH k). cbn in Hm. zlia.
Qed.

(** The local data of the worker between two calls. *)
Record worker_ok (w : Worker) : Prop := mkWorkerOk {
  wk_local : buf_ok (localBuffer w);
  wk_previous : buf_ok (previousData w) ∧ 32768 ≤ capacity (previousData w) ∧ m_used (previousData w) mod 4 = 0;
  wk_output : from_option (λ o, buf_ok o.2 ∧ m_used o.2 mod 4 = 0 ∧ (o.1 = false → snoop w ≠ None)) True (outputBuffer w);
  wk_snoop : from_option (λ q, Forall buf_ok (emptyBuffers q)) True (snoop w)
}.

(** What the buffer that is being filled holds. *)
Definition output_view (w : Worker) : list Z := from_option (λ o, viewU8 o.2) [] (outputBuffer w).

Lemma worker_output_ok w local b w' :
  worker_ok w → getOutputBuffer w = (local, b, w') →
  worker_ok w' ∧ outputBuffer w' = Some (local, b) ∧ viewU8 b = output_view w ∧ previousData w' = previousData w
  ∧ listfileQueues w' = listfileQueues w ∧ w_counters w' = w_counters w ∧ w_format w' = w_format w.
Proof.
  intros Hw. unfold getOutputBuffer, output_view. destruct (outputBuffer w) as [[l b0]|] eqn:Eo; [intros [= <- <- <-]; by rewrite Eo|].
  destruct Hw as [Hl Hp _ Hs]. set (x := match snoop w with Some q => _ | None => _ end).
  assert (Hx : ∃ l b0 w0, x = (l, b0, w0) ∧ buf_ok b0 ∧ localBuffer w0 = localBuffer w ∧ previousData w0 = previousData w ∧ listfileQueues w0 = listfileQueues w
    ∧ w_counters w0 = w_counters w ∧ w_format w0 = w_format w ∧ from_option (λ q, Forall buf_ok (emptyBuffers q)) True (snoop w0) ∧ (l = false → snoop w0 ≠ None)).
  { unfold x. destruct (snoop w) as [q|] eqn:Es; [|by eexists _, _, _; split_and!; try done; rewrite Es].
    unfold dequeue. destruct (emptyBuffers q) as [|b1 bs] eqn:Eb; [by eexists _, _, _; split_and!; try done; rewrite Es; cbn; rewrite Eb|].
    cbn in Hs. rewrite Eb in Hs. apply Forall_cons in Hs as [Hb1 Hs]. by eexists _, _, _; split_and!. }
  destruct Hx as (l & b0 & w0 & -> & Hb0 & H1 & H2 & H3 & H4 & H5 & H6 & H7). intros [= <- <- <-].
  destruct (clear_ok b0 Hb0) as [Hc Hv]. split; [|split_and!; try done]. constructor; cbn; rewrite ?H1, ?H2; try done.
Qed.

Lemma fixup_usb_loop_bytes fuel : ∀ v c rest c', fixup_usb_loop fuel v c = Some (rest, c') → bytesRead c' = bytesRead c.
Proof.
  induction fuel as [|fuel IH]; intros v c rest c'; [done|]. cbn [fixup_usb_loop]. destruct v as [|x v]; [by intros [= <- <-]|].
  destruct (_ <? 4); [apply IH|]. destruct (skip_invalid _ _ _) as [v1 errors]. destruct (_ <? 4); [by intros ->%IH|].
  destruct (_ >? _); [by intros [= <- <-]|]. intros ->%IH. by destruct (is_stack_frame _).
Qed.

(** The incomplete frame moves from the end of the one buffer to the other. *)
Lemma fixup_usb_buffer_ok b prev c :
  buf_ok b → m_used b mod 4 = 0 → buf_ok prev → m_used prev = 0 → 32768 ≤ capacity prev →
  ∃ b' prev' c' ps, fixup_usb_buffer b prev c = Done (b', prev', c') ∧ buf_ok b' ∧ viewU8 b' = concat ps ∧ Forall piece ps
    ∧ viewU8 b = viewU8 b' ++ viewU8 prev' ∧ buf_ok prev' ∧ capacity prev' = capacity prev ∧ (viewU8 prev' = [] ∨ cut (viewU8 prev'))
    ∧ stackHits c' = hits_of ps (stackHits c) ∧ bytesRead c' = bytesRead c ∧ m_number b' = m_number b.
Proof.
  intros Hb Hm Hp Hu Hcap. assert (Hl : zlen (viewU8 b) = m_used b) by (unfold viewU8; apply zlen_ztake; exact Hb).
  destruct (fixup_usb_loop_returns (S (length (viewU8 b))) (viewU8 b) c) as ([rest c'] & E); [by rewrite Hl|lia|].
  assert (Hbytes : bytesRead c' = bytesRead c).
  { by eapply fixup_usb_loop_bytes. }
  unfold fixup_usb_buffer. rewrite E. apply fixup_usb_loop_ok in E as (ps & Hv & Hps & Hr & Hh).
  assert (Hprev : viewU8 prev = []) by (unfold viewU8; rewrite Hu; done).
  destruct rest as [|x rest]; [|set (r := x :: rest) in *].
  - exists b, prev, c', ps. rewrite app_nil_r in Hv. rewrite Hprev, app_nil_r. split_and!; try done.
  - destruct Hr as [|Hcut]; [done|]. pose proof (cut_size r Hcut) as Hsize. pose proof (zlen_nonneg r).
    replace (zlen r >? capacity prev) with false by lia. destruct (setUsed_view b (concat ps) r Hb Hv) as (Hb' & Hv' & _).
    set (prev' := setUsed (zlen r) _). assert (Hpv : viewU8 prev' = r).
    { unfold viewU8, prev'. cbn [setUsed m_used m_buffer]. unfold write_bytes. change (ztake 0 (m_buffer prev)) with (@nil Z). rewrite app_nil_l. apply ztake_app. }
    assert (Hpc : capacity prev' = capacity prev) by (unfold capacity, prev' in *; cbn [setUsed m_buffer]; apply zlen_write_bytes; lia).
    assert (Hpo : buf_ok prev') by (unfold buf_ok; change (m_used prev') with (zlen r); unfold capacity in Hpc; rewrite Hpc; unfold capacity in Hcap; lia).
    eexists _, prev', c', ps. split; [done|]. rewrite Hpv, Hv'. split_and!; try done. by right.
Qed.

(** The previous data comes first, then what was received; what is incomplete is kept. *)
Lemma worker_readout_usb_ok w reads :
  worker_ok w → Forall usb_read_ok reads →
  ∃ ec total w' k ps, worker_readout_usb reads w = Done (ec, total, w') ∧ worker_ok w' ∧ outputBuffer w' ≠ None
    ∧ output_view w' = concat ps ∧ Forall piece ps
    ∧ output_view w ++ viewU8 (previousData w) ++ received k reads = output_view w' ++ viewU8 (previousData w')
    ∧ (viewU8 (previousData w') = [] ∨ cut (viewU8 (previousData w')))
    ∧ u64 total = u64 (zlen (received k reads)) ∧ (reads ≠ [] → k ≠ O)
    ∧ stackHits (w_counters w') = hits_of ps (stackHits (w_counters w)) ∧ bytesRead (w_counters w') = bytesRead (w_counters w)
    ∧ listfileQueues w' = listfileQueues w ∧ w_format w' = w_format w.
Proof.
  intros Hw Hreads. unfold worker_readout_usb. destruct (getOutputBuffer w) as [[local b] w1] eqn:Eg.
  destruct (worker_output_ok w local b w1 Hw Eg) as (Hw1 & Eo & Hview & Hprev & Hlq & Hc & Hf).
  destruct Hw1 as [Hl (Hp & Hpc & Hpm) Ho Hs]. rewrite Eo in Ho. destruct Ho as (Hb & Hbm & Hsn). cbn [fst snd] in *.
  assert (Hpl : zlen (viewU8 (previousData w1)) = m_used (previousData w1)) by (unfold viewU8; by apply zlen_ztake).
  set (x := if negb _ then _ else _).
  assert (Hx : ∃ b1 p1, x = (b1, p1) ∧ buf_ok b1 ∧ m_used b1 mod 4 = 0 ∧ viewU8 b1 = viewU8 b ++ viewU8 (previousData w1) ∧ buf_ok p1 ∧ m_used p1 = 0
    ∧ capacity p1 = capacity (previousData w1)).
  { unfold x. destruct (m_used (previousData w1) =? 0) eqn:E0; cbn [negb].
    - exists b, (previousData w1). apply Z.eqb_eq in E0. split_and!; try done. rewrite E0 in Hpl. apply zlen_0 in Hpl. by rewrite Hpl, app_nil_r.
    - destruct (ensureFreeSpace_view (m_used (previousData w1)) b) as (Hu1 & Hl1 & Hf1 & Hv1 & _); [unfold buf_ok in Hp; lia|done|].
      destruct (store_bytes_ok (viewU8 (previousData w1)) (ensureFreeSpace (m_used (previousData w1)) b)) as (Hu2 & Hl2 & Hv2); [unfold buf_ok in *; lia|lia|].
      eexists _, _. split; [done|]. unfold buf_ok, free, capacity in *. rewrite Hv2, Hv1, Hu2, Hu1, Hpl, Hl2. destruct (clear_ok _ Hp) as [Hcl _].
      unfold buf_ok in Hcl. split_and!; try done; try lia; zlia. }
  destruct Hx as (b1 & p1 & -> & Hb1 & Hbm1 & Hv1 & Hp1 & Hpu1 & Hpc1).
  destruct (ensureFreeSpace_view usb.USBStreamPipeReadSize b1) as (Hu2 & Hl2 & Hf2 & Hv2 & _); [by vm_compute|done|]. set (b2 := ensureFreeSpace _ b1) in *.
  destruct (worker_usb_loop reads b2 0 no_error) as [[b3 total] ec] eqn:El.
  apply worker_usb_loop_ok in El as (k & Hb3 & Hv3 & Ht & _ & Hk); [|unfold buf_ok in *; lia|done].
  assert (Hbm3 : m_used b3 mod 4 = 0).
  { replace (m_used b3) with (zlen (viewU8 b3)) by (unfold viewU8; by apply zlen_ztake). rewrite Hv3, Hv2, zlen_app. pose proof (zlen_received k reads Hreads).
    replace (zlen (viewU8 b1)) with (m_used b1) by (unfold viewU8; symmetry; by apply zlen_ztake). zlia. }
  destruct (fixup_usb_buffer_ok b3 p1 (w_counters w1) Hb3 Hbm3 Hp1 Hpu1) as (b4 & p4 & c4 & ps & -> & Hb4 & Hv4 & Hps & Hsplit & Hp4 & Hpc4 & Hcut & Hh & Hby & _); [lia|].
  eexists ec, total, _, k, ps. split; [done|]. unfold output_view. cbn [outputBuffer set_output from_option snd previousData set_previous set_counters w_counters listfileQueues w_format].
  assert (Hm4 : ∀ l, Forall piece l → zlen (concat l) mod 4 = 0).
  { induction 1 as [|q l [_ Hq] _ IH]; [done|]. cbn. rewrite zlen_app. destruct (is_valid_readout_frame (frame_at q)); zlia. }
  assert (Hlen4 : m_used b4 mod 4 = 0) by (replace (m_used b4) with (zlen (viewU8 b4)) by (unfold viewU8; by apply zlen_ztake); rewrite Hv4; by apply Hm4).
  assert (Hlenp : m_used p4 mod 4 = 0).
  { replace (m_used p4) with (zlen (viewU8 p4)) by (unfold viewU8; by apply zlen_ztake). pose proof (f_equal zlen Hsplit) as Hz. rewrite zlen_app in Hz.
    replace (zlen (viewU8 b3)) with (m_used b3) in Hz by (unfold viewU8; symmetry; by apply zlen_ztake).
    replace (zlen (viewU8 b4)) with (m_used b4) in Hz by (unfold viewU8; symmetry; by apply zlen_ztake). zlia. }
  split_and!; try done.
  - constructor; cbn; try done. split_and!; [done|lia|done].
  - rewrite <- Hsplit, Hv3, Hv2, Hv1, Hview, Hprev. unfold output_view. by rewrite <- !app_assoc.
  - intros Hne. by apply Hk.
  - by rewrite Hh, Hc.
  - by rewrite Hby, Hc.
Qed.

(** ** Any number of calls, with the listfile writer *)

Lemma worker_flush_ok w :
  worker_ok w → emptyBuffers (listfileQueues w) ≠ [] →
  ∃ w' fl, flushCurrentOutputBuffer w = Done w' ∧ worker_ok w' ∧ output_view w' = [] ∧ previousData w' = previousData w
    ∧ filledBuffers (listfileQueues w') = filledBuffers (listfileQueues w) ++ fl ∧ concat (viewU8 <$> fl) = output_view w
    ∧ Forall (λ b, buf_ok b ∧ 0 < m_used b) fl
    ∧ (length fl + length (emptyBuffers (listfileQueues w')) = length (emptyBuffers (listfileQueues w)))%nat
    ∧ stackHits (w_counters w') = stackHits (w_counters w) ∧ bytesRead (w_counters w') = bytesRead (w_counters w) ∧ w_format w' = w_format w.
Proof.
  intros Hw He. unfold flushCurrentOutputBuffer, output_view. destruct (outputBuffer w) as [[local b]|] eqn:Eo.
  2: { exists w, []. rewrite Eo. split_and!; try done. by rewrite app_nil_r. }
  destruct (m_used b >? 0) eqn:Eu.
  - unfold dequeue. destruct (emptyBuffers (listfileQueues w)) as [|e es] eqn:Ee; [done|]. cbv zeta.
    destruct Hw as [Hl Hp Ho Hs]. rewrite Eo in Ho. destruct Ho as (Hb & Hm & Hsn). cbn in Hb, Hm, Hsn.
    eexists _, [b]. split; [done|]. split.
    { destruct local; [by constructor|]. cbn. destruct (snoop w) as [q|] eqn:Es; constructor; cbn in *; rewrite ?Es; done. }
    assert (Hv : concat (viewU8 <$> [b]) = viewU8 b) by (cbn; apply app_nil_r).
    destruct local; [|cbn; destruct (snoop w) as [q|]]; cbn; rewrite ?Ee; cbn; split_and!; try done; try (constructor; [split; [done|lia]|constructor]); by rewrite ?app_nil_r.
  - exists w, []. rewrite Eo. pose proof (wk_output w Hw) as Ho. rewrite Eo in Ho. destruct Ho as (Hb & _). cbn in Hb.
    assert (Hz : m_used b = 0) by (unfold buf_ok in Hb; lia). cbn. unfold viewU8. rewrite Hz. split_and!; try done. by rewrite app_nil_r.
Qed.

Lemma readout_usb_ok w reads :
  worker_ok w → w_format w = USB → Forall usb_read_ok reads → emptyBuffers (listfileQueues w) ≠ [] →
  ∃ ec total w' k ps fl, readout reads w = Done (ec, total, w') ∧ worker_ok w' ∧ output_view w' = [] ∧ w_format w' = USB
    ∧ filledBuffers (listfileQueues w') = filledBuffers (listfileQueues w) ++ fl ∧ concat (viewU8 <$> fl) = concat ps ∧ Forall piece ps
    ∧ Forall (λ b, buf_ok b ∧ 0 < m_used b) fl
    ∧ (length fl + length (emptyBuffers (listfileQueues w')) = length (emptyBuffers (listfileQueues w)))%nat
    ∧ output_view w ++ viewU8 (previousData w) ++ received k reads = concat ps ++ viewU8 (previousData w')
    ∧ (viewU8 (previousData w') = [] ∨ cut (viewU8 (previousData w'))) ∧ (reads ≠ [] → k ≠ O)
    ∧ stackHits (w_counters w') = hits_of ps (stackHits (w_counters w))
    ∧ (0 ≤ bytesRead (w_counters w) < 2 ^ 64 → bytesRead (w_counters w') = u64 (bytesRead (w_counters w) + zlen (received k reads))).
Proof.
  intros Hw Hf Hr He. destruct (worker_readout_usb_ok w reads Hw Hr) as (ec & total & w1 & k & ps & E & Hw1 & _ & Hv & Hps & Hsplit & Hcut & Ht & Hk & Hh & Hb & Hq & Hf1).
  unfold readout. rewrite Hf, E. set (w2 := set_counters _ w1).
  assert (Hw2 : worker_ok w2) by (destruct Hw1; by constructor).
  destruct (worker_flush_ok w2 Hw2) as (w3 & fl & -> & Hw3 & Ho3 & Hp3 & Hfl & Hflv & Hfok & Hlen & Hh3 & Hb3 & Hf3); [cbn; by rewrite Hq|].
  eexists ec, total, w3, k, ps, fl. split; [done|]. rewrite Ho3, Hp3, Hfl, Hh3, Hb3, Hf3. cbn [w2 set_counters w_counters listfileQueues previousData w_format stackHits bytesRead count_readout].
  rewrite <- Hq, <- Hv. split_and!; try done; [congruence|]. intros Hu. rewrite Hb.
  destruct (total =? 0) eqn:Et.
  - apply Z.eqb_eq in Et as ->. unfold u64 in *. rewrite <- Zplus_mod_idemp_r, <- Ht. change (0 mod 2 ^ 64) with 0. rewrite Z.add_0_r. symmetry. by apply Z.mod_small.
  - unfold u64 in *. by rewrite <- Zplus_mod_idemp_r, Ht, Zplus_mod_idemp_r.
Qed.

Section Files.
Context {W : Type} {HW : WriteHandle W} {HL : WriteHandleLaws W}.

Lemma writer_ok filled : ∀ (lw : Writer (W := W)) h,
  Forall (λ b, buf_ok b ∧ 0 < m_used b) filled → lw_running lw = true → lw_handle lw = Some h → wh_ok h →
  ∃ lw' h', listfile_buffer_writer filled lw = Done lw' ∧ lw_running lw' = true ∧ lw_handle lw' = Some h' ∧ wh_ok h'
    ∧ wh_contents h' = wh_contents h ++ concat (viewU8 <$> filled) ∧ lw_empty lw' = lw_empty lw ++ filled.
Proof.
  induction filled as [|b filled IH]; intros lw h Hf Hr Hh Hok; cbn [listfile_buffer_writer].
  { exists lw, h. cbn. rewrite !app_nil_r. by split_and!. }
  apply Forall_cons in Hf as [[Hb Hu] Hf]. rewrite Hr, Hh. cbn [negb]. replace (m_used b =? 0) with false by lia.
  destruct (wh_write_law h (viewU8 b) Hok) as (h1 & -> & Hok1 & Hc1). cbv zeta.
  set (lw1 := mkWriter true (Some h1) _ _).
  destruct (IH lw1 h1 Hf eq_refl eq_refl Hok1) as (lw' & h' & E & Hr' & Hh' & Hok' & Hc' & He').
  exists lw', h'. rewrite E, Hc', Hc1, He'. cbn. unfold enqueue. rewrite <- !app_assoc. by split_and!.
Qed.

(** A call of the worker, after which the writer empties its queue and gives the buffers back. *)
Definition usb_round (reads : list UsbRead) (w : Worker) (lw : Writer (W := W)) : res (Worker * Writer (W := W)) :=
  match readout reads w with
  | Done (_, _, w) =>
      match listfile_buffer_writer (filledBuffers (listfileQueues w)) lw with
      | Done lw =>
          Done (set_listfile (mkQueues [] (emptyBuffers (listfileQueues w) ++ lw_empty lw)) w,
                mkWriter (lw_running lw) (lw_handle lw) (lw_counters lw) [])
      | Raise e => Raise e
      | Hangs => Hangs
      | Broken => Broken
      end
  | Raise e => Raise e
  | Hangs => Hangs
  | Broken => Broken
  end.

Fixpoint usb_rounds (rounds : list (list UsbRead)) (w : Worker) (lw : Writer (W := W)) : res (Worker * Writer (W := W)) :=
  match rounds with
  | [] => Done (w, lw)
  | reads :: rounds =>
      match usb_round reads w lw with
      | Done (w, lw) => usb_rounds rounds w lw
      | Raise e => Raise e
      | Hangs => Hangs
      | Broken => Broken
      end
  end.

(** Between two rounds everything complete is in the file. *)
Record round_ok (w : Worker) (lw : Writer (W := W)) (h : W) : Prop := mkRoundOk {
  ro_worker : worker_ok w;
  ro_format : w_format w = USB;
  ro_output : output_view w = [];
  ro_queues : filledBuffers (listfileQueues w) = [] ∧ emptyBuffers (listfileQueues w) ≠ [];
  ro_writer : lw_running lw = true ∧ lw_handle lw = Some h ∧ wh_ok h ∧ lw_empty lw = [];
  ro_bytes : 0 ≤ bytesRead (w_counters w) < 2 ^ 64
}.

Lemma usb_round_ok reads w lw h :
  round_ok w lw h → Forall usb_read_ok reads →
  ∃ w' lw' h' k ps, usb_round reads w lw = Done (w', lw') ∧ round_ok w' lw' h' ∧ wh_contents h' = wh_contents h ++ concat ps ∧ Forall piece ps
    ∧ viewU8 (previousData w) ++ received k reads = concat ps ++ viewU8 (previousData w')
    ∧ (viewU8 (previousData w') = [] ∨ cut (viewU8 (previousData w'))) ∧ (reads ≠ [] → k ≠ O)
    ∧ stackHits (w_counters w') = hits_of ps (stackHits (w_counters w))
    ∧ bytesRead (w_counters w') = u64 (bytesRead (w_counters w) + zlen (received k reads)).
Proof.
  intros [Hw Hf Ho [Hq He] (Hr & Hh & Hok & Hem) Hb] Hreads.
  destruct (readout_usb_ok w reads Hw Hf Hreads He) as (ec & total & w1 & k & ps & fl & E & Hw1 & Ho1 & Hf1 & Hfl & Hv & Hps & Hfok & Hlen & Hsplit & Hcut & Hk & Hh1 & Hb1).
  specialize (Hb1 Hb). rewrite Hq in Hfl. cbn in Hfl. rewrite Ho in Hsplit.
  destruct (writer_ok fl lw h Hfok Hr Hh Hok) as (lw1 & h1 & E1 & Hr1 & Hh1' & Hok1 & Hc1 & Hem1). unfold usb_round. rewrite E, Hfl, E1.
  eexists _, _, h1, k, ps. split; [done|]. split.
  { constructor; cbn; try done.
    - by destruct Hw1; constructor.
    - split; [done|]. rewrite Hem1, Hem. cbn. intros [H1 H2]%app_eq_nil. rewrite H1, H2 in Hlen. cbn in Hlen. by destruct (emptyBuffers (listfileQueues w)).
    - rewrite Hb1. by apply Z.mod_pos_bound. }
  rewrite Hc1, Hv. by split_and!.
Qed.

Lemma usb_rounds_ok rounds : ∀ w lw h,
  round_ok w lw h → Forall (Forall usb_read_ok) rounds → (viewU8 (previousData w) = [] ∨ cut (viewU8 (previousData w))) →
  ∃ w' lw' h' ks ps, usb_rounds rounds w lw = Done (w', lw') ∧ round_ok w' lw' h' ∧ wh_contents h' = wh_contents h ++ concat ps ∧ Forall piece ps
    ∧ Forall2 (λ k reads, reads ≠ [] → k ≠ O) ks rounds
    ∧ viewU8 (previousData w) ++ concat (zip_with received ks rounds) = concat ps ++ viewU8 (previousData w')
    ∧ (viewU8 (previousData w') = [] ∨ cut (viewU8 (previousData w')))
    ∧ stackHits (w_counters w') = hits_of ps (stackHits (w_counters w))
    ∧ bytesRead (w_counters w') = u64 (bytesRead (w_counters w) + zlen (concat (zip_with received ks rounds))).
Proof.
  induction rounds as [|reads rounds IH]; intros w lw h Hw Hr Hp; cbn [usb_rounds].
  { exists w, lw, h, [], []. cbn. rewrite !app_nil_r, Z.add_0_r. split_and!; try done. symmetry. apply Z.mod_small, (ro_bytes _ _ _ Hw). }
  apply Forall_cons in Hr as [Hr1 Hr]. destruct (usb_round_ok reads w lw h Hw Hr1) as (w1 & lw1 & h1 & k & ps1 & E1 & Hw1 & Hc1 & Hps1 & Hs1 & Hp1 & Hk1 & Hh1 & Hb1).
  destruct (IH w1 lw1 h1 Hw1 Hr Hp1) as (w2 & lw2 & h2 & ks & ps2 & E2 & Hw2 & Hc2 & Hps2 & Hk2 & Hs2 & Hp2 & Hh2 & Hb2).
  exists w2, lw2, h2, (k :: ks), (ps1 ++ ps2). rewrite E1, E2, Hc2, Hc1, Hh2, Hh1, Hb2, Hb1, hits_of_app, concat_app. cbn [zip_with concat].
  rewrite zlen_app, <- !app_assoc, <- Hs2, (app_assoc (concat ps1)), <- Hs1, <- app_assoc. split_and!; try done.
  - by apply Forall_app.
  - by constructor.
  - unfold u64. rewrite Zplus_mod_idemp_l. f_equal. lia.
Qed.

Lemma new_worker_ok q (h : W) lw :
  from_option (λ q, Forall buf_ok (emptyBuffers q)) True q → lw_running lw = true → lw_handle lw = Some h → wh_ok h → lw_empty lw = [] →
  round_ok (new_worker USB q) lw h.
Proof.
  intros Hq Hr Hh Hok He. assert (Hn : buf_ok (new_buffer ListfileWriterBufferSize)).
  { unfold buf_ok, new_buffer. cbn [m_used m_buffer]. rewrite zlen_replicate. unfold ListfileWriterBufferSize. lia. }
  assert (Hc : 32768 ≤ capacity (new_buffer ListfileWriterBufferSize)).
  { unfold capacity, new_buffer. cbn [m_buffer]. rewrite zlen_replicate. unfold ListfileWriterBufferSize. lia. }
  assert (Hu : m_used (new_buffer ListfileWriterBufferSize) = 0) by reflexivity.
  constructor; [|reflexivity|reflexivity|split; [reflexivity|discriminate]|auto|by cbn].
  constructor; cbn [new_worker localBuffer previousData outputBuffer snoop from_option]; [exact Hn| |exact I|exact Hq].
  split; [exact Hn|]. split; [exact Hc|]. by rewrite Hu.
Qed.

(** C12: everything that is received over USB reaches the listfile.  For any sequence of calls
    of the readout and any reads of whole words in them, with a writer that keeps up and a
    handle that appends what it is given: every call returns, the file grows by complete
    frames (and single words that are no frame headers), and what was written together with
    the data kept for the next call is exactly what was received, in order.  The data kept
    is empty or the start of a single incomplete frame.  The stack hits count the stack frames
    written, and the byte counter the bytes received. *)
Theorem usb_data_reaches_listfile q (h : W) lw rounds :
  from_option (λ q, Forall buf_ok (emptyBuffers q)) True q → lw_running lw = true → lw_handle lw = Some h → wh_ok h → lw_empty lw = [] →
  Forall (Forall usb_read_ok) rounds →
  ∃ w' lw' h' ks ps, usb_rounds rounds (new_worker USB q) lw = Done (w', lw') ∧ lw_handle lw' = Some h'
    ∧ wh_contents h' = wh_contents h ++ concat ps ∧ Forall piece ps
    ∧ Forall2 (λ k reads, reads ≠ [] → k ≠ O) ks rounds
    ∧ concat (zip_with received ks rounds) = concat ps ++ viewU8 (previousData w')
    ∧ (viewU8 (previousData w') = [] ∨ cut (viewU8 (previousData w')))
    ∧ stackHits (w_counters w') = hits_of ps (replicate 16 0)
    ∧ bytesRead (w_counters w') = u64 (zlen (concat (zip_with received ks rounds))).
Proof.
  intros Hq Hr Hh Hok He Hrounds. pose proof (new_worker_ok q h lw Hq Hr Hh Hok He) as Hw.
  destruct (usb_rounds_ok rounds _ _ _ Hw Hrounds) as (w' & lw' & h' & ks & ps & E & Hw' & Hc & Hps & Hk & Hs & Hp & Hhits & Hb); [by left|].
  exists w', lw', h', ks, ps. destruct (ro_writer _ _ _ Hw') as (_ & Hh' & _). by split_and!.
Qed.
End Files.

(** A file in memory, and two calls: the first receives a frame of two words and the header of
    another one, the second the rest of that one. *)
Definition memory_writer : Writer (W := list Z) := mkWriter true (Some []) (mkWriterCounters 0 0 None) [].
Definition two_rounds : list (list UsbRead) :=
  [[(no_error, words_to_bytes [0xF3010001; 7; 0xF3020001])]; [(no_error, words_to_bytes [8])]].

Lemma usb_data_reaches_listfile_witness :
  Forall (Forall usb_read_ok) two_rounds ∧
  ∃ w' lw' h' ks ps, usb_rounds two_rounds (new_worker USB None) memory_writer = Done (w', lw') ∧ lw_handle lw' = Some h'
    ∧ h' = concat ps ∧ concat (zip_with received ks two_rounds) = concat ps ++ viewU8 (previousData w').
Proof.
  assert (Hr : Forall (Forall usb_read_ok) two_rounds).
  { repeat constructor; vm_compute; congruence. }
  split; [exact Hr|].
  destruct (usb_data_reaches_listfile None [] memory_writer two_rounds) as (w' & lw' & h' & ks & ps & H1 & H2 & H3 & _ & _ & H4 & _);
    [exact I|reflexivity|reflexivity|exact I|reflexivity|exact Hr|].
  exists w', lw', h', ks, ps. exact (conj H1 (conj H2 (conj H3 H4))).
Defined.

(** ** Reading without a worker *)

Lemma usb_read_loop_ok reads : ∀ size data ec ec' data',
  Forall usb_read_ok reads → usb_read_loop reads size data ec = (ec', data') →
  ∃ k, data' = data ++ received k reads ∧ (0 ≤ size → zlen (received k reads) ≤ size).
Proof.
  induction reads as [|[ec1 bytes] reads IH]; intros size data ec ec' data' Hr; cbn [usb_read_loop].
  { intros [= <- <-]. exists O. by rewrite app_nil_r. }
  apply Forall_cons in Hr as [[Hm Hs] Hr]. cbn [snd] in *. destruct (size <? _) eqn:E.
  { intros [= <- <-]. exists O. by rewrite app_nil_r. }
  destruct (_ && _).
  - intros [= <- <-]. exists 1%nat. unfold received. cbn. rewrite app_nil_r. split; [done|]. lia.
  - intros H. destruct (IH _ _ _ _ _ Hr H) as (k & -> & Hk). exists (S k). unfold received in *. cbn. rewrite <- app_assoc, zlen_app. split; [done|]. lia.
Qed.

Lemma fixup_span_loop_ok fuel : ∀ v rest,
  fixup_span_loop fuel v = Some rest → ∃ ps, v = concat ps ++ rest ∧ Forall piece ps ∧ (zlen rest < 4 ∨ cut rest).
Proof.
  induction fuel as [|fuel IH]; intros v rest; [done|]. cbn [fixup_span_loop]. destruct (zlen v <? 4) eqn:E4.
  { intros [= <-]. exists []. split_and!; [done|constructor|left; lia]. }
  destruct (skip_invalid (length v) v 0) as [v1 errors] eqn:Es. apply skip_invalid_ok in Es as (ps & Hv & Hps & _ & Hend); [|done].
  assert (Hpieces : Forall piece ps) by (eapply Forall_impl; [exact Hps|]; by intros p []).
  destruct (zlen v1 <? 4) eqn:E5; [intros [= <-]; exists ps; split_and!; [done|done|left; lia]|].
  destruct Hend as [|[_ Hval]]; [lia|]. destruct (_ >? zlen v1) eqn:El.
  - intros [= <-]. exists ps. split_and!; [done|done|]. right. split_and!; [lia|done|lia].
  - pose proof (fi_len_range (le_word v1)). fold (frame_at v1) in *.
    destruct (split_piece ((fi_len (frame_at v1) + 1) * 4) v1) as (Hp & Hs & _); [lia|lia|by rewrite Hval|].
    intros (ps' & Hv1 & Hps' & Hr)%IH. exists (ps ++ ztake ((fi_len (frame_at v1) + 1) * 4) v1 :: ps').
    rewrite concat_app. cbn [concat]. rewrite <- !app_assoc, <- Hv1, <- Hs. split_and!; [done| |done]. apply Forall_app. split; [done|]. by constructor.
Qed.

Lemma fixup_span_loop_returns fuel : ∀ v, (length v < fuel)%nat → ∃ r, fixup_span_loop fuel v = Some r.
Proof.
  induction fuel as [|fuel IH]; intros v Hf; [lia|]. cbn [fixup_span_loop]. destruct (zlen v <? 4) eqn:E4; [by eexists|].
  destruct (skip_invalid (length v) v 0) as [v1 errors] eqn:Es. apply skip_invalid_ok in Es as (ps & Hv & _); [|done].
  destruct (zlen v1 <? 4) eqn:E5; [by eexists|]. destruct (_ >? zlen v1) eqn:El; [by eexists|]. pose proof (fi_len_range (le_word v1)).
  unfold frame_at in *. apply IH. apply (f_equal length) in Hv. rewrite length_app in Hv. unfold zdrop, zlen in *. rewrite length_drop. lia.
Qed.

(** The rest replaces the contents of an empty temporary buffer. *)
Lemma fixup_usb_span_ok input tmp :
  buf_ok tmp → m_used tmp = 0 →
  ∃ ps rest tmp', fixup_usb_span input tmp = Done (zlen (concat ps), tmp') ∧ input = concat ps ++ rest ∧ Forall piece ps
    ∧ (zlen rest < 4 ∨ cut rest) ∧ viewU8 tmp' = rest ∧ m_used tmp' = zlen rest.
Proof.
  intros Hb Hu. destruct (fixup_span_loop_returns (S (length input)) input) as [rest E]; [lia|]. unfold fixup_usb_span. rewrite E.
  apply fixup_span_loop_ok in E as (ps & Hi & Hps & Hr). pose proof (zlen_nonneg rest).
  eexists ps, rest, _. split; [do 2 f_equal; rewrite Hi, zlen_app; lia|]. split_and!; try done. unfold viewU8. cbn [setUsed m_used m_buffer].
  destruct (ensureFreeSpace_view (zlen rest) tmp) as (Hu1 & _); [done|done|]. rewrite Hu1, Hu. unfold write_bytes.
  change (ztake 0 _) with (@nil Z). rewrite app_nil_l. apply ztake_app.
Qed.

(** What a readout without a worker returns.  With the bytes kept from the call before in
    front of the received ones, the call follows the frames only in as many bytes as were
    received: it keeps the incomplete frame found at the end of that part and cuts the same
    number of bytes off the end of the data.  When nothing was kept before, the result and the
    bytes kept are the received data; otherwise data can be lost and repeated. *)
Theorem readout_usb_result tmp dest reads :
  buf_ok tmp → m_used tmp ≤ zlen dest → Forall usb_read_ok reads →
  ∃ dest' ec tmp' k ps rest, let data := viewU8 tmp ++ received k reads in
    readout_usb tmp dest reads = Done (dest', ec, zlen data - zlen rest, tmp')
    ∧ ztake (zlen data) dest' = data
    ∧ ztake (zlen (received k reads)) data = concat ps ++ rest ∧ Forall piece ps ∧ (zlen rest < 4 ∨ cut rest) ∧ viewU8 tmp' = rest
    ∧ (m_used tmp = 0 → ztake (zlen data - zlen rest) dest' ++ viewU8 tmp' = received k reads).
Proof.
  intros Hb Hd Hr. assert (Hl : zlen (viewU8 tmp) = m_used tmp) by (unfold viewU8; by apply zlen_ztake).
  unfold readout_usb. set (moved := if _ && _ then viewU8 tmp else []). set (tmp1 := if _ && _ then clear tmp else tmp).
  assert (Hm : moved = viewU8 tmp ∧ m_used tmp1 = 0 ∧ buf_ok tmp1).
  { unfold moved, tmp1. destruct (m_used tmp =? 0) eqn:E0; cbn [negb andb].
    - apply Z.eqb_eq in E0. split_and!; try done. rewrite E0 in Hl. symmetry. by apply zlen_0.
    - replace (zlen dest >=? m_used tmp) with true by lia. split_and!; try done. by apply clear_ok. }
  destruct Hm as (-> & Hu1 & Hb1). destruct (usb_read_loop reads _ [] no_error) as [ec recv] eqn:El.
  apply usb_read_loop_ok in El as (k & -> & Hk); [|done]. rewrite app_nil_l in *. specialize (Hk ltac:(lia)).
  set (data := viewU8 tmp ++ received k reads). assert (Hdata : zlen data = zlen (viewU8 tmp) + zlen (received k reads)) by apply zlen_app.
  pose proof (zlen_nonneg (received k reads)). set (dest' := write_bytes 0 data dest).
  assert (Hdest : dest' = data ++ zdrop (zlen data) dest) by (unfold dest', write_bytes; by change (ztake 0 dest) with (@nil Z)).
  assert (Ht : ztake (zlen (received k reads)) dest' = ztake (zlen (received k reads)) data).
  { rewrite Hdest. apply ztake_app_le. pose proof (zlen_nonneg (viewU8 tmp)). lia. }
  destruct (fixup_usb_span_ok (ztake (zlen (received k reads)) dest') tmp1 Hb1 Hu1) as (ps & rest & tmp' & -> & Hi & Hps & Hrest & Hv & Hu').
  exists dest', ec, tmp', k, ps, rest. cbv zeta. fold data. rewrite Hu', <- Ht. replace (zlen (received k reads) + zlen (viewU8 tmp)) with (zlen data) by lia.
  split_and!; try done; [rewrite Hdest; apply ztake_app|]. intros H0. rewrite Ht in Hi. assert (He : viewU8 tmp = []) by (apply zlen_0; lia).
  unfold data in *. rewrite He in *. rewrite app_nil_l in *. rewrite ztake_all in Hi by done.
  pose proof (f_equal zlen Hi) as Hz. rewrite zlen_app in Hz. rewrite Hdest, Hi, Hv, <- app_assoc. f_equal. rewrite zlen_app.
  replace (zlen (concat ps) + zlen rest - zlen rest) with (zlen (concat ps)) by lia. apply ztake_app.
Qed.

(** A frame of three words of which two were kept, and a call that receives the third and the
    header of another frame. *)
Definition kept_frame : ReadoutBuffer := store_bytes (words_to_bytes [0xF3010002; 1]) (new_buffer 64).
Definition next_read : UsbRead := (no_error, words_to_bytes [2; 0xF3020001]).
Definition read_room : list Z := replicate (Z.to_nat (2 * usb.USBStreamPipeReadSize)) 0.

Lemma readout_usb_result_witness :
  zlen (viewU8 kept_frame) = 8 ∧
  ∃ dest' ec tmp' k ps rest, let data := viewU8 kept_frame ++ received k [next_read] in
    readout_usb kept_frame read_room [next_read] = Done (dest', ec, zlen data - zlen rest, tmp')
    ∧ ztake (zlen (received k [next_read])) data = concat ps ++ rest.
Proof.
  split; [by vm_compute|].
  destruct (readout_usb_result kept_frame read_room [next_read]) as (dest' & ec & tmp' & k & ps & rest & H1 & _ & H2 & _).
  - unfold buf_ok. split; vm_compute; congruence.
  - unfold read_room, usb.USBStreamPipeReadSize, usb.USBSingleTransferMaxBytes. rewrite zlen_replicate. change (m_used kept_frame) with 8. lia.
  - constructor; [|constructor]. split; vm_compute; congruence.
  - exists dest', ec, tmp', k, ps, rest. exact (conj H1 H2).
Defined.

(** Such a call returns the two words kept before, keeps the same two words again, and the two
    received words are gone. *)
Lemma readout_usb_loses_data dest :
  2 * usb.USBStreamPipeReadSize ≤ zlen dest →
  ∃ dest' ec tmp', readout_usb kept_frame dest [next_read] = Done (dest', ec, 8, tmp')
    ∧ ztake 8 dest' = words_to_bytes [0xF3010002; 1] ∧ viewU8 tmp' = words_to_bytes [0xF3010002; 1].
Proof.
  intros Hd. assert (Hs : usb.USBStreamPipeReadSize = 1048576) by done. unfold readout_usb. change (m_used kept_frame) with 8.
  replace (zlen dest >=? 8) with true by lia. change (negb (8 =? 0) && true)%bool with true. cbv iota.
  change (viewU8 kept_frame) with (words_to_bytes [0xF3010002; 1]). cbn [usb_read_loop next_read].
  replace (zlen dest - zlen (words_to_bytes [0xF3010002; 1]) <? usb.USBStreamPipeReadSize) with false by (change (zlen (words_to_bytes [0xF3010002; 1])) with 8; lia).
  unfold write_bytes. change (ztake 0 dest) with (@nil Z).
  change (failed no_error && negb (is_type no_error ErrorType.Timeout))%bool with false. cbv beta iota.
  match goal with |- context [zdrop ?n dest] => generalize (zdrop n dest) as tl end. intros tl.
  eexists _, _, _. split; [reflexivity|]. split; reflexivity.
Qed.

(** ** Starting and ending a readout *)

Section OnBus.
Context {D : Type} {HC : Connection D} {HK : Controller D} {HV : VMEController D}.

(** Writing the DAQ mode register leaves the bus alone. *)
Lemma daq_mode_write v b m (d : Mvlc_t (D := D)) :
  is_u32 v → ready b m (cmdApi d) →
  ∃ d', mvlc_writeRegister registers.daq_mode v d = Done (no_error, d') ∧ ready b (<[registers.daq_mode := v]> m) (cmdApi d').
Proof.
  intros Hv Hd. assert (He : exactly (ready b m) (writeRegister (D := D) registers.daq_mode v) no_error (ready b (<[registers.daq_mode := v]> m))).
  { apply exactly_ready. intros p pk sr kr Hp Hpk Hsr.
    destruct (writeRegister_live registers.daq_mode v b m p pk sr kr false Hp Hsr) as (p' & Hp' & Hx); [done|done|done|].
    exists p', pk, (u16 (sr + 1)). by split_and!; [..|apply u16_range|]. }
  destruct (He (cmdApi d) Hd) as (s' & E & Hs'). unfold mvlc_writeRegister, checked, call. rewrite E. by eexists.
Qed.

Lemma run_mcst_bus commands (next : SM (Mvlc_t (D := D)) error_code) b m d :
  Forall single_access (getCommands commands) → ready b m (cmdApi d) →
  ∃ d' m', run_mcst commands next d = next d' ∧ ready (bus_run b (getCommands commands) mcst_options).2 m' (cmdApi d').
Proof.
  intros Hc Hd. destruct (run_commands_bus _ mcst_options b m d Hc Hd) as (d' & m' & E & Hd'). exists d', m'. split; [|done].
  unfold run_mcst, mbind, SM_bind, run_builder. rewrite E. pose proof (bus_run_not_connection (getCommands commands) mcst_options b) as Hn.
  assert (Hf : is_type (get_first_error (bus_run b (getCommands commands) mcst_options).1) ErrorType.ConnectionError = false).
  { unfold get_first_error. destruct (list_find _ _) as [[i r]|] eqn:El; [|done]. apply list_find_Some in El as (Hi & _).
    by apply (Forall_lookup_1 _ _ _ _ Hn Hi). }
  by rewrite Hf, andb_false_r.
Qed.

(** What starting and ending a readout do to the VME bus and to the DAQ mode.  Starting runs
    the start commands, ignoring VME errors, and then enables the DAQ mode.  Ending runs
    the start commands once more, when there are stop commands, and then disables
    the DAQ mode; the stop commands themselves are never run. *)
Theorem daq_commands_on_bus start stop b m d rnd :
  Forall single_access (getCommands start) → ready b m (cmdApi d) →
  let after := (bus_run b (getCommands start) mcst_options).2 in
  (∃ d' m', startReadout (D := D) rnd [] start d = Done (no_error, d')
     ∧ ready (if builder_empty start then b else after) (<[registers.daq_mode := 0xF]> m') (cmdApi d'))
  ∧ (∃ d' m', terminateReadout (D := D) start stop d = Done (no_error, d')
     ∧ ready (if builder_empty stop then b else after) (<[registers.daq_mode := 0]> m') (cmdApi d')).
Proof.
  intros Hc Hd after. destruct (run_mcst_bus start enable_daq_mode b m d Hc Hd) as (d1 & m1 & E1 & H1).
  destruct (run_mcst_bus start disable_daq_mode b m d Hc Hd) as (d2 & m2 & E2 & H2). unfold startReadout, terminateReadout. split.
  - destruct (builder_empty start).
    + destruct (daq_mode_write 0xF b m d) as (d' & E & H'); [done|done|]. exists d', m. by split.
    + destruct (daq_mode_write 0xF after m1 d1) as (d' & E & H'); [done|done|]. exists d', m1. by rewrite E1.
  - destruct (builder_empty stop).
    + destruct (daq_mode_write 0 b m d) as (d' & E & H'); [done|done|]. exists d', m. by split.
    + destruct (daq_mode_write 0 after m2 d2) as (d' & E & H'); [done|done|]. exists d', m2. by rewrite E2.
Qed.
End OnBus.

(** Start commands that write 1 and stop commands that write 2 to a module: the module holds 1
    after the readout was ended. *)
Definition daq_start : StackCommandBuilder := addVMEWrite 0x01000000 1 vme_amods.A32 VMEDataWidth.D16 empty_builder.
Definition daq_stop : StackCommandBuilder := addVMEWrite 0x01000000 2 vme_amods.A32 VMEDataWidth.D16 empty_builder.

Lemma daq_commands_on_bus_witness :
  let d : Mvlc_t (D := Sim USB false) := mkMvlc (sim_api ∅ {[0x01000000 := 0]}) true true 0x5008 0x0040 in
  ∃ d' m', terminateReadout daq_start daq_stop d = Done (no_error, d') ∧ ready {[0x01000000 := 1]} m' (cmdApi d').
Proof.
  cbv zeta. destruct (daq_commands_on_bus (D := Sim USB false) daq_start daq_stop {[0x01000000 := 0]} ∅
    (mkMvlc (sim_api ∅ {[0x01000000 := 0]}) true true 0x5008 0x0040) 4711) as (_ & d' & m' & E & Hd).
  - repeat (apply Forall_cons; split; [split_and!; first [by left|done]|]). by apply Forall_nil.
  - apply sim_ready.
  - eexists d', _. split; [exact E|]. exact Hd.
Defined.
