(* ===== verification/ReadoutLoop.v ===== *)
(** * The loop of the readout worker: [mvlc_readout_worker.cc]

    The readout thread from its start to its end: plugins, reading, pausing and resuming,
    the sequence that ends a run, together with the second reader that is active while
    commands are run, the listfile writer, and the calls of users.  The threads are interleaved
    freely: an execution is a list of actions. *)

From S2P Require Import Prelude Effects Constants Frames Commands Errors StackErrors CmdPipe CmdApi ReadoutBuffer BufferQueues Listfile ReadoutSetup StackExecutor ReadoutWorker.

(* mvlc_readout_worker.h:150-150 State *)
Inductive State : Type := Idle | Starting | Running | Paused | Stopping.
#[global] Instance State_eq_dec : EqDecision State.
Proof. solve_decision. Defined.

(* mvlc_readout_worker.h:112-118 ReadoutWorkerError *)
Inductive ReadoutWorkerError : Type := NoError | ReadoutNotIdle | ReadoutNotRunning | ReadoutNotPaused.

(** ** Plugins *)

(** The plugins that the constructor registers, with their data. *)
(* mvlc_readout_worker.h:306-356 ReadoutDurationPlugin *)
Inductive Plugin : Type :=
| DurationPlugin (timeToRun tReadoutStart : Z)
| TimetickPlugin (tLastTick : Z)
| StackErrorsPlugin (prevCounters : list (list (StackErrorInfo * Z))) (tLastCheck : Z).

(** What a plugin observes when it is called: the clock, the time of day, and the stack errors. *)
Record Moment : Type := mkMoment { m_now : Z; m_timeOfDay : Z; m_errors : list (list (StackErrorInfo * Z)) }.

(* mvlc_readout_worker.cc:383-460 readoutStart *)
Definition plugin_readoutStart (crateId : Z) (m : Moment) (p : Plugin) : SM ReadoutBuffer Plugin :=
  match p with
  | DurationPlugin timeToRun _ => mret (DurationPlugin timeToRun (m_now m))
  | TimetickPlugin _ => timetick_start crateId (m_timeOfDay m);; mret (TimetickPlugin (m_now m))
  | StackErrorsPlugin _ _ => mret (StackErrorsPlugin (m_errors m) (m_now m))
  end.

(* mvlc_readout_worker.cc:419-429 readoutStop *)
Definition plugin_readoutStop (crateId : Z) (m : Moment) (p : Plugin) : SM ReadoutBuffer Plugin :=
  match p with
  | TimetickPlugin tLastTick => timetick_stop crateId (m_timeOfDay m);; mret (TimetickPlugin tLastTick)
  | _ => mret p
  end.

(* mvlc_readout_worker.cc:388-492 operator() *)
Definition plugin_call (crateId : Z) (m : Moment) (p : Plugin) : SM ReadoutBuffer (PluginResult * Plugin) :=
  match p with
  | DurationPlugin timeToRun tReadoutStart => mret (duration_plugin timeToRun tReadoutStart (m_now m), p)
  | TimetickPlugin tLastTick =>
      tLastTick ← timetick_plugin crateId (m_timeOfDay m) tLastTick (m_now m);
      mret (ContinueReadout, TimetickPlugin tLastTick)
  | StackErrorsPlugin prevCounters tLastCheck =>
      r ← stack_errors_plugin crateId (m_errors m) (m_now m) prevCounters tLastCheck;
      mret (ContinueReadout, StackErrorsPlugin r.1 r.2)
  end.

(** All plugins in their order, each with a moment of its own. *)
(* mvlc_readout_worker.cc:955-966 loop *)
Fixpoint for_plugins (f : Moment → Plugin → SM ReadoutBuffer Plugin) (moments : nat → Moment) (ps : list Plugin) : SM ReadoutBuffer (list Plugin) :=
  match ps with
  | [] => mret []
  | p :: ps =>
      p ← f (moments O) p;
      ps ← for_plugins f (λ n, moments (S n)) ps;
      mret (p :: ps)
  end.

(** The calls end with the first plugin that asks to stop. *)
(* mvlc_readout_worker.cc:986-1008 loop *)
Fixpoint call_plugins (crateId : Z) (moments : nat → Moment) (ps : list Plugin) : SM ReadoutBuffer (bool * list Plugin) :=
  match ps with
  | [] => mret (false, [])
  | p :: ps =>
      r ← plugin_call crateId (moments O) p;
      match r.1 with
      | StopReadout => mret (true, r.2 :: ps)
      | ContinueReadout =>
          q ← call_plugins crateId (λ n, moments (S n)) ps;
          mret (q.1, r.2 :: q.2)
      end
  end.

(** Writing system events into the current output buffer. *)
(* mvlc_readout_worker.cc:957-962 loop *)
Definition with_output {A} (m : SM ReadoutBuffer A) (w : Worker) : res (A * Worker) :=
  let '(local, b, w) := getOutputBuffer w in
  match m b with
  | Done (a, b) => Done (a, set_output (Some (local, b)) w)
  | Raise e => Raise e
  | Hangs => Hangs
  | Broken => Broken
  end.

(** ** The threads *)

(* mvlc_readout_worker.cc:1278-1283 ReaderAction *)
Inductive ReaderAction : Type := Run | Quit | QuitWhenEmpty.

(** The reader that runs beside the commands: it looks at the action, reads, or has ended. *)
Inductive reader_pc : Type := RCheck | RRead (action : ReaderAction) | RDone.

(** Why commands are run. *)
Inductive phase : Type := FirstStart | Pausing | Resuming | Ending.

(** Where the readout thread is.  [SetState s k] and [SetDesired s k] are the two writes of
    [setState(s)]. *)
Inductive pc : Type :=
| NotStarted
| Begin
| StartPlugins
| RunCommands (ph : phase) (r : reader_pc)
| Join (ph : phase) (action : ReaderAction) (r : reader_pc) (result : error_code + exn)
| Top
| LoadState
| CheckRunning (st : State)
| DoReadout
| CheckPause (st : State)
| CheckResume (st : State)
| CheckStop (st : State)
| WriteEvent (next : State)
| CheckWriter
| StopPlugins
| FinalFlush
| PutBack
| Sentinel
| JoinWriter
| CheckBuffers
| SetState (s : State) (k : pc)
| SetDesired (s : State) (k : pc)
| Finished
| Terminated.

(** The listfile writer is not there, has not begun yet, is in its loop, has left the loop
    without having reported it, or is idle. *)
Inductive WriterPhase : Type := WriterNone | WriterCreated | WriterLoop | WriterLeft | WriterIdle.
#[global] Instance WriterPhase_eq_dec : EqDecision WriterPhase.
Proof. solve_decision. Defined.

(** What users and the readout thread share; the writes of calls to [desiredState] that are
    still to come, and whether [start] is about to create the thread. *)
Record Shared : Type := mkShared {
  sh_state : State; sh_desired : State; sh_pending : list State; sh_launch : bool; sh_promise : option error_code
}.
Definition set_state (s : State) (sh : Shared) : Shared := mkShared s (sh_desired sh) (sh_pending sh) (sh_launch sh) (sh_promise sh).
Definition set_desired (s : State) (sh : Shared) : Shared := mkShared (sh_state sh) s (sh_pending sh) (sh_launch sh) (sh_promise sh).
Definition set_promise (ec : error_code) (sh : Shared) : Shared := mkShared (sh_state sh) (sh_desired sh) (sh_pending sh) (sh_launch sh) (Some ec).

(** Settings that do not change during a run. *)
(* mvlc_readout_worker.cc:687-716 Private *)
Record Settings : Type := mkSettings {
  s_crateId : Z; s_stackTriggers : list Z; s_mcstDaqStart : StackCommandBuilder; s_mcstDaqStop : StackCommandBuilder
}.

Section Loop.
Context {D : Type} {HC : Connection D} {W : Type} {HW : WriteHandle W}.
Context (cfg : Settings).

(** The data path: the worker with its buffers, the writer, the plugins and the handle. *)
Record Data : Type := mkData {
  d_worker : Worker; d_writer : Writer (W := W); d_phase : WriterPhase; d_plugins : list Plugin; d_lfh : option W
}.
Definition set_worker (w : Worker) (dt : Data) : Data := mkData w (d_writer dt) (d_phase dt) (d_plugins dt) (d_lfh dt).
Definition set_plugins (ps : list Plugin) (dt : Data) : Data := mkData (d_worker dt) (d_writer dt) (d_phase dt) ps (d_lfh dt).
Definition set_writer (lw : Writer (W := W)) (ph : WriterPhase) (dt : Data) : Data := mkData (d_worker dt) lw ph (d_plugins dt) (d_lfh dt).

(** The controller, the error code of the loop and the counters [ec] and [eptr]. *)
Record Control : Type := mkControl { c_mvlc : Mvlc_t (D := D); c_loop_ec : error_code; c_ec : error_code; c_eptr : option exn }.
Definition set_mvlc (d : Mvlc_t (D := D)) (c : Control) : Control := mkControl d (c_loop_ec c) (c_ec c) (c_eptr c).
Definition set_loop_ec (ec : error_code) (c : Control) : Control := mkControl (c_mvlc c) ec (c_ec c) (c_eptr c).
Definition set_eptr (e : exn) (c : Control) : Control := mkControl (c_mvlc c) (c_loop_ec c) (c_ec c) (Some e).

Record Sys : Type := mkSys { s_shared : Shared; s_data : Data; s_control : Control; s_pc : pc }.

(** What a step gets from outside: what plugins observe, the reads that complete, random
    numbers, the result of redirecting the ETH data, the time of day, and the controller
    as an exception leaves it. *)
Record Input : Type := mkInput {
  in_moments : nat → Moment;
  in_reads : list (error_code * list Z);
  in_rnd : Z;
  in_redirect : error_code;
  in_timeOfDay : Z;
  in_mvlc : Mvlc_t (D := D)
}.

(* mvlc.cc:657-660 resetStackErrorCounters *)
Definition resetStackErrorCounters (d : Mvlc_t (D := D)) : Mvlc_t (D := D) :=
  let api := cmdApi d in
  mkMvlc (mkApi (api_dev api) (mkReader (rd_buffer (api_reader api)) (upd_errors (λ _, new_error_counters) (rd_context (api_reader api))) (rd_ec (api_reader api))) (api_spinning api) (api_alwaysCheck api))
    (thread d) (isConnected_ d) (hardwareId_ d) (firmwareRevision_ d).

(** The commands of a phase, run while the other reader reads. *)
(* mvlc_readout_worker.cc:1164-1266 startReadout *)
Definition phase_commands (ph : phase) (rnd : Z) : SM (Mvlc_t (D := D)) error_code :=
  match ph with
  | FirstStart | Resuming => startReadout rnd (s_stackTriggers cfg) (s_mcstDaqStart cfg)
  | Pausing | Ending => terminateReadout (s_mcstDaqStart cfg) (s_mcstDaqStop cfg)
  end.

(** What the reader is told when the commands are done. *)
(* mvlc_readout_worker.cc:1384-1386 terminateReadout *)
Definition action_after (ph : phase) (ec : error_code) : ReaderAction :=
  match ph with
  | FirstStart | Resuming => Quit
  | Pausing | Ending => if failed ec then Quit else QuitWhenEmpty
  end.

(* mvlc_readout_worker.cc:1088-1093 loop *)
Definition finish : pc := SetState Stopping (RunCommands Ending RCheck).

(** What follows when both the commands and the reader have ended. *)
(* mvlc_readout_worker.cc:971-1048 loop *)
Definition joined (ph : phase) (result : error_code + exn) (s : Sys) : Sys :=
  let 'mkSys sh dt ct _ := s in
  match ph, result with
  | FirstStart, inl ec =>
      let sh := set_promise ec sh in
      let ct := set_loop_ec ec ct in
      if failed ec then mkSys sh dt ct finish else mkSys sh dt ct Top
  | Pausing, inl _ => mkSys sh dt ct (WriteEvent Paused)
  | Resuming, inl _ => mkSys sh dt ct (WriteEvent Running)
  | Ending, inl _ => mkSys sh dt ct StopPlugins
  | (Pausing | Resuming), inr e => mkSys sh dt (set_eptr e ct) finish
  | (FirstStart | Ending), inr _ => mkSys sh dt ct Terminated
  end.

(** The queue of empty buffers of the writer; [None] while there is none. *)
(* mvlc_readout_worker.cc:1122-1128 loop *)
Definition put_sentinel (w : Worker) : option Worker :=
  match dequeue (emptyBuffers (listfileQueues w)) with
  | (Some b, empty) => Some (set_listfile (mkQueues (enqueue (clear b) (filledBuffers (listfileQueues w))) empty) w)
  | (None, _) => None
  end.

Definition writer_reports_running (ph : WriterPhase) : bool := bool_decide (ph = WriterLoop ∨ ph = WriterLeft).

Definition next_of {A} (r : res (A * Worker)) (f : A → Worker → Sys) (caught : exn → Sys) : option Sys :=
  match r with
  | Done (a, w) => Some (f a w)
  | Raise e => Some (caught e)
  | Hangs | Broken => None
  end.

(** One step of the readout thread.  A step is missing while the thread has to wait. *)
(* mvlc_readout_worker.cc:904-1154 loop *)
Definition thread_step (i : Input) (s : Sys) : option Sys :=
  let 'mkSys sh dt ct k := s in
  let w := d_worker dt in
  match k with
  | NotStarted | Finished | Terminated => None
  | Begin =>
      let dt := set_worker (set_counters no_counts w) dt in
      let ct := mkControl (c_mvlc ct) no_error no_error None in
      if bool_decide (w_format w = ETH) && failed (in_redirect i)
      then Some (mkSys (set_promise (in_redirect i) sh) dt ct (SetState Idle Finished))
      else
        Some (mkSys sh (set_writer (mkWriter true (d_lfh dt) (mkWriterCounters 0 0 None) []) WriterCreated dt)
                (set_mvlc (resetStackErrorCounters (c_mvlc ct)) ct) StartPlugins)
  | StartPlugins =>
      next_of (with_output (for_plugins (plugin_readoutStart (s_crateId cfg)) (in_moments i) (d_plugins dt)) w)
        (λ ps w, mkSys sh (set_plugins ps (set_worker w dt)) ct (SetState Running (RunCommands FirstStart RCheck)))
        (λ _, mkSys sh dt ct Terminated)
  | RunCommands ph r =>
      match phase_commands ph (in_rnd i) (c_mvlc ct) with
      | Done (ec, d) => Some (mkSys sh dt (set_mvlc d ct) (Join ph (action_after ph ec) r (inl ec)))
      | Raise e => Some (mkSys sh dt (set_mvlc (in_mvlc i) ct) (Join ph Quit r (inr e)))
      | Hangs | Broken => None
      end
  | Join ph _ RDone result => Some (joined ph result s)
  | Join _ _ _ _ => None
  | Top =>
      if is_type (c_loop_ec ct) ErrorType.ConnectionError then Some (mkSys sh dt ct finish)
      else
        next_of (with_output (call_plugins (s_crateId cfg) (in_moments i) (d_plugins dt)) w)
          (λ r w, mkSys sh (set_plugins r.2 (set_worker w dt)) ct (if r.1 then finish else LoadState))
          (λ e, mkSys sh dt (set_eptr e ct) finish)
  | LoadState => Some (mkSys sh dt ct (CheckRunning (sh_state sh)))
  | CheckRunning st =>
      if bool_decide (st = Running ∧ sh_desired sh = Running) then Some (mkSys sh dt ct DoReadout) else Some (mkSys sh dt ct (CheckPause st))
  | DoReadout =>
      next_of (match readout (in_reads i) w with Done (ec, n, w) => Done (ec, w) | Raise e => Raise e | Hangs => Hangs | Broken => Broken end)
        (λ ec w,
           let ct := set_loop_ec ec ct in
           if is_type ec ErrorType.ConnectionError
           then mkSys sh (set_worker w dt) (set_mvlc (disconnect (c_mvlc ct)).2 ct) finish
           else mkSys sh (set_worker w dt) ct CheckWriter)
        (λ e, mkSys sh dt (set_eptr e ct) finish)
  | CheckPause st =>
      if bool_decide (st = Running ∧ sh_desired sh = Paused) then Some (mkSys sh dt ct (RunCommands Pausing RCheck)) else Some (mkSys sh dt ct (CheckResume st))
  | CheckResume st =>
      if bool_decide (st = Paused ∧ sh_desired sh = Running) then Some (mkSys sh dt ct (RunCommands Resuming RCheck)) else Some (mkSys sh dt ct (CheckStop st))
  | CheckStop st =>
      if bool_decide (sh_desired sh = Stopping) then Some (mkSys sh dt ct finish)
      else Some (mkSys sh dt ct CheckWriter)          (* paused, or the branch that is asserted not to be taken *)
  | WriteEvent next =>
      let subtype := match next with Paused => system_event.subtype.Pause | _ => system_event.subtype.Resume end in
      next_of (match with_output (listfile_write_timestamp_section (in_timeOfDay i) (s_crateId cfg) subtype) w with
               | Done (_, w) => match flushCurrentOutputBuffer w with Done w => Done ((), w) | Raise e => Raise e | Hangs => Hangs | Broken => Broken end
               | Raise e => Raise e
               | Hangs => Hangs
               | Broken => Broken
               end)
        (λ _ w, mkSys sh (set_worker w dt) ct (SetState next CheckWriter))
        (λ e, mkSys sh dt (set_eptr e ct) finish)
  | CheckWriter =>
      match lw_eptr (lw_counters (d_writer dt)) with
      | Some e => Some (mkSys sh dt (set_eptr e ct) finish)
      | None => Some (mkSys sh dt ct Top)
      end
  | StopPlugins =>
      next_of (with_output (for_plugins (plugin_readoutStop (s_crateId cfg)) (in_moments i) (d_plugins dt)) w)
        (λ ps w, mkSys sh (set_plugins ps (set_worker w dt)) ct FinalFlush)
        (λ _, mkSys sh dt ct Terminated)
  | FinalFlush =>
      if writer_reports_running (d_phase dt) then
        match flushCurrentOutputBuffer w with
        | Done w => Some (mkSys sh (set_worker w dt) ct PutBack)
        | Raise _ => Some (mkSys sh dt ct Terminated)
        | Hangs | Broken => None
        end
      else Some (mkSys sh dt ct PutBack)
  | PutBack => Some (mkSys sh (set_worker (maybePutBackSnoopBuffer w) dt) ct Sentinel)
  | Sentinel =>
      if writer_reports_running (d_phase dt) then w ← put_sentinel w; Some (mkSys sh (set_worker w dt) ct JoinWriter)
      else Some (mkSys sh dt ct JoinWriter)
  | JoinWriter =>
      if bool_decide (d_phase dt = WriterIdle)
      then Some (mkSys sh dt (mkControl (c_mvlc ct) (c_loop_ec ct) (c_loop_ec ct) (c_eptr ct)) CheckBuffers) else None
  | CheckBuffers =>
      Some (mkSys sh (mkData w (d_writer dt) WriterNone (d_plugins dt) None) ct (SetState Idle Finished))
  | SetState st k => Some (mkSys (set_state st sh) dt ct (SetDesired st k))
  | SetDesired st k => Some (mkSys (set_desired st sh) dt ct k)
  end.

(** The reader beside the commands. *)
(* mvlc_readout_worker.cc:1287-1302 terminateReadout *)
Definition reader_step (i : Input) (s : Sys) : option Sys :=
  let 'mkSys sh dt ct k := s in
  let step (action : ReaderAction) (r : reader_pc) : option (reader_pc * Data) :=
    match r with
    | RCheck => Some (match action with Quit => RDone | _ => RRead action end, dt)
    | RRead a =>
        match readout (in_reads i) (d_worker dt) with
        | Done (_, bytesTransferred, w) =>
            Some (match a with QuitWhenEmpty => if bytesTransferred =? 0 then RDone else RCheck | _ => RCheck end, set_worker w dt)
        | _ => None
        end
    | RDone => None
    end in
  match k with
  | RunCommands ph r => '(r, dt) ← step Run r; Some (mkSys sh dt ct (RunCommands ph r))
  | Join ph action r result => '(r, dt) ← step action r; Some (mkSys sh dt ct (Join ph action r result))
  | _ => None
  end.

(** One step of the writer: it reports that it runs, writes a buffer, or reports its end. *)
(* mvlc_readout_worker.cc:237-333 listfile_buffer_writer *)
Definition writer_step (s : Sys) : option Sys :=
  let 'mkSys sh dt ct k := s in
  let lw := d_writer dt in
  match d_phase dt with
  | WriterNone | WriterIdle => None
  | WriterCreated => Some (mkSys sh (set_writer lw WriterLoop dt) ct k)
  | WriterLoop =>
      let q := listfileQueues (d_worker dt) in
      match dequeue (filledBuffers q) with
      | (None, _) => None
      | (Some b, filled) =>
          match listfile_buffer_writer [b] lw with
          | Done lw =>
              let dt := set_worker (set_listfile (mkQueues filled (emptyBuffers q ++ lw_empty lw)) (d_worker dt)) dt in
              let phase := if lw_running lw then WriterLoop else WriterLeft in
              Some (mkSys sh (set_writer (mkWriter (lw_running lw) (lw_handle lw) (lw_counters lw) []) phase dt) ct k)
          | _ => None
          end
      end
  | WriterLeft => Some (mkSys sh (set_writer lw WriterIdle dt) ct k)
  end.

(** ** Calls of users *)

Inductive call : Type := CallStop | CallPause | CallResume.

(* mvlc_readout_worker.cc:1757-1788 stop *)
Definition check_call (c : call) (state : State) : ReadoutWorkerError + State :=
  match c with
  | CallStop => if bool_decide (state = Idle ∨ state = Stopping) then inl ReadoutNotRunning else inr Stopping
  | CallPause => if bool_decide (state ≠ Running) then inl ReadoutNotRunning else inr Paused
  | CallResume => if bool_decide (state ≠ Paused) then inl ReadoutNotPaused else inr Running
  end.

Definition set_timeToRun (t : Z) (ps : list Plugin) : list Plugin :=
  match ps with DurationPlugin _ tReadoutStart :: ps => DurationPlugin t tReadoutStart :: ps | _ => ps end.

(** The first part of the call; the thread of an earlier run is joined before the new one is
    created. *)
(* mvlc_readout_worker.cc:1733-1746 start *)
Definition start (timeToRun : Z) (s : Sys) : ReadoutWorkerError * Sys :=
  let 'mkSys sh dt ct k := s in
  if bool_decide (sh_state sh ≠ Idle) then (ReadoutNotIdle, s)
  else (NoError, mkSys (mkShared Starting Starting (sh_pending sh) true (sh_promise sh)) (set_plugins (set_timeToRun timeToRun (d_plugins dt)) dt) ct k).

(* mvlc_readout_worker.cc:1747-1755 start *)
Definition launch (s : Sys) : option Sys :=
  let 'mkSys sh dt ct k := s in
  match k with
  | NotStarted | Finished =>
      if sh_launch sh then Some (mkSys (mkShared (sh_state sh) (sh_desired sh) (sh_pending sh) false None) dt ct Begin) else None
  | _ => None
  end.

(* mvlc_readout_worker.cc:808-817 registerPlugin *)
Definition registerPlugin (p : Plugin) (s : Sys) : bool * Sys :=
  let 'mkSys sh dt ct k := s in
  if bool_decide (sh_state sh ≠ Idle) then (false, s) else (true, mkSys sh (set_plugins (d_plugins dt ++ [p]) dt) ct k).

(** ** Executions *)

Inductive action : Type :=
| Thread (i : Input)
| ReadData (i : Input)
| Write
| Start (timeToRun : Z)
| Launch
| Call (c : call)
| Store (n : nat).     (* the write of a pending call *)

Definition act (a : action) (s : Sys) : option Sys :=
  match a with
  | Thread i => thread_step i s
  | ReadData i => reader_step i s
  | Write => writer_step s
  | Start t => Some (start t s).2
  | Launch => launch s
  | Call c =>
      let 'mkSys sh dt ct k := s in
      match check_call c (sh_state sh) with
      | inl _ => Some s
      | inr st => Some (mkSys (mkShared (sh_state sh) (sh_desired sh) (sh_pending sh ++ [st]) (sh_launch sh) (sh_promise sh)) dt ct k)
      end
  | Store n =>
      let 'mkSys sh dt ct k := s in
      st ← sh_pending sh !! n;
      Some (mkSys (mkShared (sh_state sh) st (delete n (sh_pending sh)) (sh_launch sh) (sh_promise sh)) dt ct k)
  end.

Fixpoint run (acts : list action) (s : Sys) : option Sys :=
  match acts with [] => Some s | a :: acts => s ← act a s; run acts s end.

(** A new worker. *)
(* mvlc_readout_worker.cc:822-838 ReadoutWorker *)
Definition new_system (t : ConnectionType) (d : Mvlc_t (D := D)) (snoopQueues : option ReadoutBufferQueues) (lfh : option W) : Sys :=
  mkSys (mkShared Idle Idle [] false None)
    (mkData (new_worker t snoopQueues) (mkWriter false None (mkWriterCounters 0 0 None) []) WriterNone [DurationPlugin 0 0; TimetickPlugin 0; StackErrorsPlugin [] 0] lfh)
    (mkControl d no_error no_error None) NotStarted.

End Loop.
