(* ===== verification/ReadoutLoopFacts.v ===== *)
(** * The readout loop: what a run leaves in the listfile

    The data path is followed through every interleaving of the readout thread, the second
    reader, the listfile writer and the calls of users. *)

From S2P Require Import Prelude Effects Constants Frames FramesFacts Commands Errors StackErrors CmdPipe CmdPipeFacts CmdApi CmdApiLaws CmdApiFacts CmdApiController CmdApiExec ReadoutBuffer BufferQueues Listfile ListfileFacts ReadoutSetup StackExecutor ReadoutWorker ReadoutWorkerFacts ReadoutLoop.

(** ** System events as frames *)

Definition event_frame (p : list Z) : Prop := piece p ∧ fi_type (frame_at p) = frame_headers.SystemEvent.

Lemma section_frame cont crate subtype ws :
  0 ≤ cont < 2 → 0 ≤ crate < 8 → 0 ≤ subtype < 128 → zlen ws ≤ 8191 →
  event_frame (le_bytes (sysevent_word cont crate subtype (zlen ws)) ++ words_to_bytes ws).
Proof.
  intros Hc Hi Hs Hl. pose proof (zlen_nonneg ws). destruct (sysevent_word_fields cont crate subtype (zlen ws)) as (Hu & Ht & Hn & _); [lia..|].
  unfold event_frame, piece, frame_at. rewrite le_word_bytes by done. unfold is_valid_readout_frame. rewrite Ht, Hn, zlen_app, zlen_words_to_bytes.
  change (frame_headers.SystemEvent =? frame_headers.SystemEvent) with true. rewrite orb_true_r. change (zlen (le_bytes _)) with 4. split; [lia|done].
Qed.

Lemma sections_frames crate subtype ws bs :
  0 ≤ crate < 8 → 0 ≤ subtype < 128 → sections crate subtype ws bs → ∃ es, bs = concat es ∧ Forall event_frame es.
Proof.
  intros Hc Hs. induction 1 as [ws Hl|ws1 ws2 bs Hl _ _ (es & -> & He)].
  - exists [le_bytes (sysevent_word 0 crate subtype (zlen ws)) ++ words_to_bytes ws]. split; [cbn; by rewrite app_nil_r|].
    repeat constructor; apply section_frame; lia.
  - exists ((le_bytes (sysevent_word 1 crate subtype 8191) ++ words_to_bytes ws1) :: es). split; [by rewrite app_assoc|].
    constructor; [|done]. rewrite <- Hl. apply section_frame; lia.
Qed.

(** Complete frames are recognized where they start: two ways of cutting the same bytes agree. *)
Lemma piece_same p q x y : piece p → piece q → p ++ x = q ++ y → p = q ∧ x = y.
Proof.
  intros [Hp Hlp] [Hq Hlq] E. apply app_inj_1; [|done].
  assert (Hf : frame_at p = frame_at q).
  { unfold frame_at. f_equal. unfold zlen in *.
    rewrite <- (le_word_take p 4), <- (le_word_take q 4) by lia. f_equal.
    apply (f_equal (take 4)) in E. rewrite !take_app_le in E by lia. done. }
  rewrite Hf in Hlp. unfold zlen in *. lia.
Qed.

Lemma piece_not_cut p x r : piece p → cut r → p ++ x = r → False.
Proof.
  intros [Hp Hl] (Hr & Hv & Hlt) E. assert (Hf : frame_at p = frame_at r).
  { unfold frame_at. f_equal. subst r. unfold zlen in *. rewrite <- (le_word_take p 4), <- (le_word_take (p ++ x) 4), take_app_le by lia. done. }
  rewrite Hf, Hv in Hl. apply (f_equal zlen) in E. rewrite zlen_app in E. pose proof (zlen_nonneg x). lia.
Qed.

Lemma pieces_prefix qs : ∀ ps x r,
  Forall piece qs → Forall piece ps → (r = [] ∨ cut r) → concat qs ++ x = concat ps ++ r → ∃ ps', ps = qs ++ ps' ∧ x = concat ps' ++ r.
Proof.
  induction qs as [|q qs IH]; intros ps x r Hq Hp Hr E; [by exists ps|]. apply Forall_cons in Hq as [Hq Hqs]. cbn in E. rewrite <- app_assoc in E.
  destruct ps as [|p ps]; cbn in E.
  - destruct Hr as [->|Hr]; [|by destruct (piece_not_cut _ _ _ Hq Hr E)]. destruct Hq as [Hq _]. apply (f_equal zlen) in E.
    rewrite zlen_app in E. pose proof (zlen_nonneg (concat qs ++ x)). change (zlen []) with 0 in E. lia.
  - apply Forall_cons in Hp as [Hp Hps]. rewrite <- app_assoc in E. destruct (piece_same _ _ _ _ Hq Hp E) as [-> E'].
    destruct (IH ps x r Hqs Hps Hr E') as (ps' & -> & ->). by exists ps'.
Qed.

(** ** Writing into the output buffer *)

Definition appends {A} (m : SM ReadoutBuffer A) : Prop := ∀ b, buf_ok b →
  ∃ a b' es, m b = Done (a, b') ∧ buf_ok b' ∧ viewU8 b' = viewU8 b ++ concat es ∧ Forall event_frame es.

Lemma appends_ret {A} (a : A) : appends (mret a).
Proof. intros b Hb. exists a, b, []. cbn. by rewrite app_nil_r. Qed.

Lemma appends_bind {A B} (m : SM ReadoutBuffer A) (f : A → SM ReadoutBuffer B) : appends m → (∀ a, appends (f a)) → appends (m ≫= f).
Proof.
  intros Hm Hf b Hb. destruct (Hm b Hb) as (a & b1 & es1 & E1 & Hb1 & Hv1 & Hes1). destruct (Hf a b1 Hb1) as (a2 & b2 & es2 & E2 & Hb2 & Hv2 & Hes2).
  exists a2, b2, (es1 ++ es2). rewrite (bind_Done_eq _ _ _ _ _ E1), E2, Hv2, Hv1, concat_app, app_assoc. split_and!; try done. by apply Forall_app.
Qed.

Lemma appends_event crate subtype words :
  0 ≤ crate → 0 ≤ subtype < 128 → zlen words < 2 ^ 32 → appends (listfile_write_system_event crate subtype words).
Proof.
  intros Hc Hs Hl b Hb. destruct (write_event_ok (W := ReadoutBuffer) crate subtype words Hc Hs Hl) as (bs & Hbs & Hw).
  destruct (Hw b Hb) as (b' & E & Hb' & Hv). apply sections_frames in Hbs as (es & -> & Hes); [|by apply Z.mod_pos_bound|done].
  by exists (), b', es.
Qed.

Lemma appends_timestamp now crate subtype : 0 ≤ crate → 0 ≤ subtype < 128 → appends (listfile_write_timestamp_section now crate subtype).
Proof. intros Hc Hs. by apply appends_event. Qed.

Create HintDb readout_loop discriminated.
#[local] Hint Resolve appends_ret appends_bind appends_event appends_timestamp : readout_loop.

(** The lists of stack errors have less than 2^32 entries. *)
Definition moment_ok (m : Moment) : Prop := zlen (stack_errors_to_sysevent_data (m_errors m)) < 2 ^ 32.

Lemma appends_start crate m p : 0 ≤ crate → appends (plugin_readoutStart crate m p).
Proof. intros Hc. destruct p; cbn; try apply appends_ret. apply appends_bind; [|intros _; apply appends_ret]. by apply appends_timestamp. Qed.

Lemma appends_stop crate m p : 0 ≤ crate → appends (plugin_readoutStop crate m p).
Proof. intros Hc. destruct p; cbn; try apply appends_ret. apply appends_bind; [|intros _; apply appends_ret]. by apply appends_timestamp. Qed.

Lemma appends_call crate m p : 0 ≤ crate → moment_ok m → appends (plugin_call crate m p).
Proof.
  intros Hc Hm. destruct p; cbn; [apply appends_ret|..]; (apply appends_bind; [|intros; apply appends_ret]).
  - unfold timetick_plugin. destruct (_ >=? _); [|apply appends_ret]. apply appends_bind; [|intros _; apply appends_ret]. by apply appends_timestamp.
  - unfold stack_errors_plugin. destruct (_ >=? _); [|apply appends_ret]. case_bool_decide; [apply appends_ret|].
    apply appends_bind; [|intros _; apply appends_ret]. unfold writeStackErrorsEvent, moment_ok in *.
    destruct (stack_errors_to_sysevent_data (m_errors m)); [apply appends_ret|]. by apply appends_event.
Qed.

Lemma appends_for f ps : (∀ m p, appends (f m p)) → ∀ moments, appends (for_plugins f moments ps).
Proof.
  intros Hf. induction ps as [|p ps IH]; intros moments; cbn [for_plugins]; [apply appends_ret|].
  apply appends_bind; [done|]. intros q. apply appends_bind; [done|]. intros; apply appends_ret.
Qed.

Lemma appends_calls crate ps : ∀ moments, 0 ≤ crate → (∀ n, moment_ok (moments n)) → appends (call_plugins crate moments ps).
Proof.
  induction ps as [|p ps IH]; intros moments Hc Hm; cbn [call_plugins]; [apply appends_ret|].
  apply appends_bind; [by apply appends_call|]. intros [[] q]; [|apply appends_ret]. apply appends_bind; [by apply IH|]. intros; apply appends_ret.
Qed.

Lemma zlen_view b : buf_ok b → zlen (viewU8 b) = m_used b.
Proof. intros Hb. unfold viewU8. by apply zlen_ztake. Qed.

Lemma zlen_events es : Forall event_frame es → zlen (concat es) mod 4 = 0.
Proof.
  induction 1 as [|p es [[_ Hp] _] _ IH]; [done|]. cbn. rewrite zlen_app. destruct (is_valid_readout_frame (frame_at p)); zlia.
Qed.

Lemma with_output_ok {A} (m : SM ReadoutBuffer A) w :
  appends m → worker_ok w →
  ∃ a w' es, with_output m w = Done (a, w') ∧ worker_ok w' ∧ output_view w' = output_view w ++ concat es ∧ Forall event_frame es
    ∧ previousData w' = previousData w ∧ listfileQueues w' = listfileQueues w ∧ w_format w' = w_format w.
Proof.
  intros Hm Hw. unfold with_output. destruct (getOutputBuffer w) as [[local b] w1] eqn:Eg.
  destruct (worker_output_ok w local b w1 Hw Eg) as (Hw1 & Eo & Hview & Hprev & Hlq & _ & Hf). destruct Hw1 as [Hl Hp Ho Hs]. rewrite Eo in Ho.
  destruct Ho as (Hb & Hbm & Hsn). cbn [fst snd] in *. destruct (Hm b Hb) as (a & b' & es & -> & Hb' & Hv & Hes).
  eexists a, _, es. split; [done|]. unfold output_view. cbn. split_and!; try done; [|by rewrite Hv, Hview].
  constructor; cbn; try done. split_and!; try done. rewrite <- zlen_view, Hv, zlen_app, zlen_view by done. pose proof (zlen_events es Hes). zlia.
Qed.

(** A flush that returns has found a buffer of the writer, or there was nothing to flush. *)
Lemma flush_done w w' :
  worker_ok w → flushCurrentOutputBuffer w = Done w' →
  ∃ fl, worker_ok w' ∧ output_view w' = [] ∧ previousData w' = previousData w
    ∧ filledBuffers (listfileQueues w') = filledBuffers (listfileQueues w) ++ fl ∧ concat (viewU8 <$> fl) = output_view w
    ∧ Forall (λ b, buf_ok b ∧ 0 < m_used b) fl
    ∧ (length fl + length (emptyBuffers (listfileQueues w')) = length (emptyBuffers (listfileQueues w)))%nat ∧ w_format w' = w_format w.
Proof.
  intros Hw E. destruct (emptyBuffers (listfileQueues w)) as [|e empty] eqn:He.
  - assert (w' = w ∧ output_view w = []) as [-> Ho].
    { unfold flushCurrentOutputBuffer, output_view in *. destruct (outputBuffer w) as [[local b]|] eqn:Eo; [|by injection E as <-].
      destruct (m_used b >? 0) eqn:Eu; [by rewrite He in E|]. injection E as <-. pose proof (wk_output w Hw) as Ho. rewrite Eo in Ho. destruct Ho as (Hb & _).
      cbn in *. split; [done|]. apply zlen_0. rewrite zlen_view by done. unfold buf_ok in Hb. lia. }
    exists []. rewrite app_nil_r, Ho, He. by split_and!.
  - destruct (worker_flush_ok w Hw) as (w1 & fl & E1 & Hw1 & Ho & Hp & Hf & Hv & Hfl & Hl & _ & _ & Hfmt); [by rewrite He|]. rewrite E in E1. injection E1 as <-.
    exists fl. rewrite He in Hl. by split_and!.
Qed.

Lemma flush_not_raise w e : flushCurrentOutputBuffer w ≠ Raise e.
Proof.
  unfold flushCurrentOutputBuffer. destruct (outputBuffer w) as [[local b]|]; [|done]. destruct (_ >? _); [|done]. by destruct (dequeue _) as [[] ?].
Qed.

Lemma readout_done w reads ec total w' :
  worker_ok w → w_format w = USB → Forall usb_read_ok reads → readout reads w = Done (ec, total, w') →
  ∃ k ps fl, worker_ok w' ∧ output_view w' = [] ∧ w_format w' = USB
    ∧ filledBuffers (listfileQueues w') = filledBuffers (listfileQueues w) ++ fl ∧ concat (viewU8 <$> fl) = concat ps ∧ Forall piece ps
    ∧ Forall (λ b, buf_ok b ∧ 0 < m_used b) fl
    ∧ (length fl + length (emptyBuffers (listfileQueues w')) = length (emptyBuffers (listfileQueues w)))%nat
    ∧ output_view w ++ viewU8 (previousData w) ++ received k reads = concat ps ++ viewU8 (previousData w')
    ∧ (viewU8 (previousData w') = [] ∨ cut (viewU8 (previousData w'))) ∧ (reads ≠ [] → k ≠ O).
Proof.
  intros Hw Hf Hr. destruct (worker_readout_usb_ok w reads Hw Hr) as (ec1 & n1 & w1 & k & ps & E & Hw1 & _ & Hv & Hps & Hsplit & Hcut & _ & Hk & _ & _ & Hq & Hf1).
  unfold readout. rewrite Hf, E. set (w2 := set_counters _ w1). destruct (flushCurrentOutputBuffer w2) as [w3| | |] eqn:Ef; [|done..]. intros [= <- <- <-].
  destruct (flush_done w2 w3) as (fl & Hw3 & Ho3 & Hp3 & Hfl & Hflv & Hfok & Hlen & Hf3); [destruct Hw1; by constructor|done|].
  exists k, ps, fl. rewrite Ho3, Hp3, Hfl, Hflv, Hf3. cbn [w2 set_counters listfileQueues previousData w_format] in *.
  change (output_view w2) with (output_view w1). rewrite Hq in *. rewrite <- Hv. split_and!; try done. congruence.
Qed.

Lemma readout_not_raise w reads e : worker_ok w → w_format w = USB → Forall usb_read_ok reads → readout reads w ≠ Raise e.
Proof.
  intros Hw Hf Hr. destruct (worker_readout_usb_ok w reads Hw Hr) as (ec1 & n1 & w1 & k & ps & E & _). unfold readout. rewrite Hf, E.
  set (w2 := set_counters _ w1). pose proof (flush_not_raise w2 e). destruct (flushCurrentOutputBuffer w2); try done. by intros [= ->].
Qed.

(** ** The invariant *)

(** Frames of the file with a mark for those that came from the controller. *)
Definition item_ok (it : bool * list Z) : Prop := if it.1 then piece it.2 else event_frame it.2.
Definition data_of (items : list (bool * list Z)) : list Z := concat ((λ it : bool * list Z, if it.1 then it.2 else []) <$> items).

Lemma data_of_app i1 i2 : data_of (i1 ++ i2) = data_of i1 ++ data_of i2.
Proof. unfold data_of. by rewrite fmap_app, concat_app. Qed.

Lemma data_of_events es : data_of (pair false <$> es) = [].
Proof. unfold data_of. by induction es as [|e es IH]. Qed.

Lemma data_of_pieces ps : data_of (pair true <$> ps) = concat ps.
Proof. unfold data_of. induction ps as [|p ps IH]; [done|]. cbn. by rewrite IH. Qed.

Lemma items_of (b : bool) (ps : list (list Z)) : (pair b <$> ps).*2 = ps.
Proof. induction ps as [|p ps IH]; [done|]. cbn. by rewrite IH. Qed.

Lemma items_events es : Forall event_frame es → Forall item_ok (pair false <$> es).
Proof. induction 1; by constructor. Qed.

Lemma items_pieces ps : Forall piece ps → Forall item_ok (pair true <$> ps).
Proof. induction 1; by constructor. Qed.

Lemma events_pieces es : Forall event_frame es → Forall piece es.
Proof. intros H. eapply Forall_impl; [exact H|]. by intros p []. Qed.

Section Loop.
Context {D : Type} {HC : Connection D} {W : Type} {HW : WriteHandle W} {HL : WriteHandleLaws W}.
Context (cfg : Settings) (Hcrate : 0 ≤ s_crateId cfg).
Implicit Types dt : Data (W := W).

Definition filled dt : list ReadoutBuffer := filledBuffers (listfileQueues (d_worker dt)).
Definition empties dt : list ReadoutBuffer := emptyBuffers (listfileQueues (d_worker dt)).

(** The file, the buffers that wait for the writer and the output buffer, in this order, hold
    frames only; without the events they are what was received, up to the data kept. *)
Record path_ok (before rcv : list Z) (h : W) (items : list (bool * list Z)) (es : list (list Z)) dt : Prop := mkPathOk {
  po_worker : worker_ok (d_worker dt);
  po_format : w_format (d_worker dt) = USB;
  po_pool : (length (filled dt) + length (empties dt) = ListfileWriterBufferCount)%nat;
  po_handle : lw_handle (d_writer dt) = Some h ∧ wh_ok h ∧ lw_empty (d_writer dt) = [] ∧ lw_eptr (lw_counters (d_writer dt)) = None;
  po_contents : wh_contents h ++ concat (viewU8 <$> filled dt) = before ++ concat items.*2;
  po_items : Forall item_ok items;
  po_output : output_view (d_worker dt) = concat es ∧ Forall event_frame es;
  po_data : data_of items ++ viewU8 (previousData (d_worker dt)) = rcv;
  po_prev : viewU8 (previousData (d_worker dt)) = [] ∨ cut (viewU8 (previousData (d_worker dt)))
}.

Definition waiting (b : ReadoutBuffer) : Prop := buf_ok b ∧ 0 < m_used b.

(** The stages of a run, from the start of the writer on. *)
Inductive stage : Type := Outside | Open | Flushed | Closing | Closed.
Fixpoint stage_of (k : pc) : stage :=
  match k with
  | NotStarted | Begin => Outside
  | PutBack | Sentinel => Flushed
  | JoinWriter => Closing
  | CheckBuffers | Finished => Closed
  | SetState _ k | SetDesired _ k => stage_of k
  | _ => Open
  end.

Definition writing dt : Prop := d_phase dt = WriterLoop ∧ lw_running (d_writer dt) = true.

Definition stage_ok (st : stage) (es : list (list Z)) dt : Prop :=
  match st with
  | Outside => False
  | Open => writing dt ∧ Forall waiting (filled dt)
  | Flushed => writing dt ∧ Forall waiting (filled dt) ∧ es = []
  | Closing =>
      (writing dt ∧ (∃ fl b, filled dt = fl ++ [b] ∧ Forall waiting fl ∧ m_used b = 0)
       ∨ (d_phase dt = WriterLeft ∨ d_phase dt = WriterIdle) ∧ filled dt = []) ∧ es = []
  | Closed => (d_phase dt = WriterIdle ∨ d_phase dt = WriterNone) ∧ filled dt = [] ∧ es = []
  end.

Definition run_ok_at (before rcv : list Z) (k : pc) dt : Prop :=
  ∃ h items es, path_ok before rcv h items es dt ∧ stage_ok (stage_of k) es dt.

(** ** Steps of the data path *)

Lemma path_readout before rcv h items es dt reads ec n w' :
  path_ok before rcv h items es dt → stage_ok Open es dt → Forall usb_read_ok reads → readout reads (d_worker dt) = Done (ec, n, w') →
  ∃ k, (reads ≠ [] → k ≠ O) ∧ ∃ items', path_ok before (rcv ++ received k reads) h items' [] (set_worker w' dt) ∧ stage_ok Open [] (set_worker w' dt).
Proof.
  intros [Hw Hf Hpool Hh Hc Hi [Ho Hes] Hd Hp] [Hwr Hfill] Hr E.
  destruct (readout_done _ _ _ _ _ Hw Hf Hr E) as (k & ps & fl & Hw' & Ho' & Hf' & Hfl & Hflv & Hps & Hfok & Hlen & Hsplit & Hcut & Hk).
  exists k. split; [done|]. rewrite Ho in Hsplit.
  destruct (pieces_prefix es ps _ _ (events_pieces _ Hes) Hps Hcut Hsplit) as (ps' & -> & Hsplit').
  exists (items ++ (pair false <$> es) ++ (pair true <$> ps')). unfold filled, empties in *. split; [constructor; cbn; unfold filled, empties; cbn|]; try done.
  - rewrite Hfl, length_app. lia.
  - rewrite Hfl, !fmap_app, !concat_app, app_assoc, Hc, !items_of, Hflv, concat_app, !app_assoc. done.
  - rewrite !Forall_app. split_and!; [done|by apply items_events|]. apply items_pieces. by apply Forall_app in Hps as [_ ?].
  - rewrite <- Hd, !data_of_app, data_of_events, data_of_pieces, <- !app_assoc, Hsplit'. done.
  - split; [done|]. unfold filled. cbn. rewrite Hfl. by apply Forall_app.
Qed.

Lemma path_events {A} before rcv h items es dt (m : SM ReadoutBuffer A) :
  path_ok before rcv h items es dt → stage_ok Open es dt → appends m →
  ∃ a w' es', with_output m (d_worker dt) = Done (a, w') ∧ path_ok before rcv h items es' (set_worker w' dt) ∧ stage_ok Open es' (set_worker w' dt).
Proof.
  intros [Hw Hf Hpool Hh Hc Hi [Ho Hes] Hd Hp] [Hwr Hfill] Hm.
  destruct (with_output_ok m _ Hm Hw) as (a & w' & es' & E & Hw' & Ho' & Hes' & Hp' & Hq' & Hf'). exists a, w', (es ++ es'). split; [done|].
  unfold filled, empties in *. split; [constructor; cbn; unfold filled, empties; cbn|]; rewrite ?Hp', ?Hq', ?Hf'; try done.
  - rewrite Ho', Ho, concat_app. split; [done|]. by apply Forall_app.
  - split; [done|]. unfold filled. cbn. by rewrite Hq'.
Qed.

Lemma path_flush before rcv h items es dt w' :
  path_ok before rcv h items es dt → stage_ok Open es dt → flushCurrentOutputBuffer (d_worker dt) = Done w' →
  ∃ items', path_ok before rcv h items' [] (set_worker w' dt) ∧ stage_ok Flushed [] (set_worker w' dt).
Proof.
  intros [Hw Hf Hpool Hh Hc Hi [Ho Hes] Hd Hp] [Hwr Hfill] E. destruct (flush_done _ _ Hw E) as (fl & Hw' & Ho' & Hp' & Hfl & Hflv & Hfok & Hlen & Hf').
  exists (items ++ (pair false <$> es)). unfold filled, empties in *. split; [constructor; cbn; unfold filled, empties; cbn|]; rewrite ?Hp', ?Hf'; try done.
  - rewrite Hfl, length_app. lia.
  - by rewrite Hfl, !fmap_app, !concat_app, app_assoc, Hc, items_of, Hflv, Ho, <- app_assoc.
  - apply Forall_app. split; [done|by apply items_events].
  - by rewrite data_of_app, data_of_events, app_nil_r.
  - split_and!; [done| |done]. unfold filled. cbn. rewrite Hfl. by apply Forall_app.
Qed.

Lemma path_putback before rcv h items dt :
  path_ok before rcv h items [] dt → stage_ok Flushed [] dt →
  let dt' := set_worker (maybePutBackSnoopBuffer (d_worker dt)) dt in path_ok before rcv h items [] dt' ∧ stage_ok Flushed [] dt'.
Proof.
  intros [Hw Hf Hpool Hh Hc Hi [Ho Hes] Hd Hp] Hs. cbv zeta. set (w := d_worker dt) in *. set (w' := maybePutBackSnoopBuffer w).
  assert (H : worker_ok w' ∧ output_view w' = [] ∧ listfileQueues w' = listfileQueues w ∧ previousData w' = previousData w ∧ w_format w' = w_format w).
  { unfold w', maybePutBackSnoopBuffer. destruct Hw as [Hl Hpr Hout Hsn]. destruct (outputBuffer w) as [[local b]|] eqn:Eo.
    2: { split; [constructor; rewrite ?Eo; done|]. unfold output_view. by rewrite Eo. }
    destruct Hout as (Hb & Hm & _). cbn [fst snd] in *. destruct local; cbn; [split_and!; try done; by constructor|].
    destruct (snoop w) as [q|] eqn:Es; split_and!; try done; constructor; cbn in *; rewrite ?Es; try done.
    unfold enqueue. apply Forall_app. split; [done|by constructor]. }
  destruct H as (Hw' & Ho' & Hq' & Hp' & Hf'). unfold filled, empties in *. fold w in Hpool, Hc. split; [constructor; cbn; unfold filled, empties; cbn|]; rewrite ?Hp', ?Hf', ?Hq', ?Ho'; try done.
  destruct Hs as (Hwr & Hfill & _). split_and!; [done| |done]. unfold filled in *. cbn. by rewrite Hq'.
Qed.

Lemma path_sentinel before rcv h items dt w' :
  path_ok before rcv h items [] dt → stage_ok Flushed [] dt → put_sentinel (d_worker dt) = Some w' →
  path_ok before rcv h items [] (set_worker w' dt) ∧ stage_ok Closing [] (set_worker w' dt).
Proof.
  intros [Hw Hf Hpool Hh Hc Hi Ho Hd Hp] (Hwr & Hfill & _). unfold put_sentinel, dequeue, filled, empties in *.
  destruct (emptyBuffers (listfileQueues (d_worker dt))) as [|b empty] eqn:Ee; [done|]. intros [= <-]. cbn in Hpool.
  assert (Hv : viewU8 (clear b) = []) by done.
  split; [constructor; cbn; unfold filled, empties, enqueue; cbn; try done|].
  - destruct Hw; by constructor.
  - rewrite length_app. cbn. lia.
  - by rewrite fmap_app, concat_app, fmap_cons, Hv, !app_nil_r.
  - split; [|done]. left. split; [done|]. exists (filledBuffers (listfileQueues (d_worker dt))), (clear b). done.
Qed.

(** The writer writes what waits, and ends at the sentinel. *)
Lemma path_write before rcv h items es dt b fl lw' :
  path_ok before rcv h items es dt → writing dt → filled dt = b :: fl → (waiting b ∨ m_used b = 0) →
  listfile_buffer_writer [b] (d_writer dt) = Done lw' →
  let dt' := set_writer (mkWriter (lw_running lw') (lw_handle lw') (lw_counters lw') []) (if lw_running lw' then WriterLoop else WriterLeft)
    (set_worker (set_listfile (mkQueues fl (empties dt ++ lw_empty lw')) (d_worker dt)) dt) in
  lw_running lw' = negb (m_used b =? 0) ∧ ∃ h', path_ok before rcv h' items es dt' ∧ filled dt' = fl.
Proof.
  intros [Hw Hf Hpool (Hh & Hok & He & Hx) Hc Hi Ho Hd Hp] [Hph Hr] Hfl Hb. cbn [listfile_buffer_writer]. rewrite Hr, Hh, He. cbn [negb].
  rewrite Hfl in Hpool, Hc. cbn in Hpool, Hc. unfold empties in *.
  assert (Hwk : worker_ok (set_listfile (mkQueues fl (emptyBuffers (listfileQueues (d_worker dt)) ++ [b])) (d_worker dt))) by (destruct Hw; by constructor).
  destruct (m_used b =? 0) eqn:Eu.
  - intros [= <-]. cbn. split; [done|]. exists h. split; [|done]. assert (Hv : viewU8 b = []) by (unfold viewU8; by replace (m_used b) with 0 by lia).
    rewrite Hv in Hc. constructor; cbn; unfold filled, empties; cbn; try done. rewrite length_app. cbn. lia.
  - destruct (wh_write_law h (viewU8 b) Hok) as (h1 & -> & Hok1 & Hc1). intros [= <-]. cbn. split; [done|]. exists h1. split; [|done].
    constructor; cbn; unfold filled, empties; cbn; try done; [rewrite length_app; cbn; lia|]. by rewrite Hc1, <- app_assoc.
Qed.

(** Either the writer is in its loop, or nothing waits for it. *)
Lemma stage_cases st es dt :
  stage_ok st es dt → writing dt ∨ (d_phase dt = WriterLeft ∨ d_phase dt = WriterIdle ∨ d_phase dt = WriterNone) ∧ filled dt = [].
Proof.
  destruct st; cbn; [done|intros [? _]; by left|intros [? _]; by left|intros [[[? _]|[Hph ?]] _]|intros (Hph & ? & _)];
    [by left|right; destruct Hph; auto..].
Qed.

Lemma writer_step_ok before rcv (s s' : Sys (D := D) (W := W)) :
  run_ok_at before rcv (s_pc s) (s_data s) → writer_step s = Some s' → run_ok_at before rcv (s_pc s') (s_data s').
Proof.
  destruct s as [sh dt ct k]. cbn [s_pc s_data]. intros (h & items & es & Hp & Hs). unfold writer_step. cbv zeta.
  destruct (d_phase dt) eqn:Eph; try done.
  - intros _. exfalso. destruct (stage_cases _ _ _ Hs) as [[? _]|[[|[|]] _]]; congruence.
  - unfold dequeue. destruct (filledBuffers (listfileQueues (d_worker dt))) as [|b fl] eqn:Ef; [done|].
    assert (Hb : writing dt ∧ (waiting b ∨ m_used b = 0)).
    { destruct (stage_of k); cbn in Hs; unfold filled in Hs; rewrite ?Ef in Hs.
      - done.
      - destruct Hs as [? Hs]. apply Forall_cons in Hs as [? _]. auto.
      - destruct Hs as (? & Hs & _). apply Forall_cons in Hs as [? _]. auto.
      - destruct Hs as [[[? (fl' & z & E & Hfl & Hz)]|[_ ?]] _]; [|done]. destruct fl' as [|b' fl']; injection E as <- ->; [auto|]. apply Forall_cons in Hfl as [? _]. auto.
      - by destruct Hs as (_ & ? & _). }
    destruct Hb as [Hwr Hb]. destruct (listfile_buffer_writer [b] (d_writer dt)) as [lw'| | |] eqn:El; [|done..]. intros [= <-].
    destruct (path_write _ _ _ _ _ _ _ _ _ Hp Hwr Ef Hb El) as (Hrun & h' & Hp' & Hf'). exists h', items, es. split; [exact Hp'|].
    set (dt' := set_writer _ _ _) in *. cbn [s_pc s_data].
    assert (Hz : (m_used b =? 0) = false → writing dt') by (intros Hz; unfold writing, dt'; cbn; by rewrite ?Hrun, Hz).
    destruct (stage_of k); cbn in Hs; unfold stage_ok; rewrite ?Hf'; unfold filled in Hs; rewrite ?Ef in Hs.
    + done.
    + destruct Hs as [_ Hs]. apply Forall_cons in Hs as [[_ Hu] Hs]. split; [apply Hz; lia|done].
    + destruct Hs as (_ & Hs & ->). apply Forall_cons in Hs as [[_ Hu] Hs]. split_and!; [apply Hz; lia|done|done].
    + destruct Hs as [[[_ (fl' & z & E & Hfl & Hm)]|[_ ?]] ->]; [|done]. split; [|done]. destruct fl' as [|b' fl']; injection E as <- ->.
      * right. split; [|done]. left. unfold dt'. cbn. by rewrite Hrun, Hm.
      * apply Forall_cons in Hfl as [[_ Hu] Hfl]. left. split; [apply Hz; lia|]. by exists fl', z.
    + by destruct Hs as (_ & ? & _).
  - intros [= <-]. exists h, items, es. split; [destruct Hp; by constructor|]. cbn. unfold writing in Hs. destruct (stage_of k); cbn in *; unfold writing in *.
    + done.
    + by destruct Hs as [[? _] _]; congruence.
    + by destruct Hs as [[? _] _]; congruence.
    + destruct Hs as [[[[? _] _]|[_ ?]] ->]; [congruence|]. split; [right; auto|done].
    + destruct Hs as ([|] & _); congruence.
Qed.

(** ** Steps of the threads *)

Definition input_ok (i : Input (D := D)) : Prop := Forall usb_read_ok (in_reads i) ∧ ∀ n, moment_ok (in_moments i n).

Lemma run_ok_keep before rcv k k' dt : run_ok_at before rcv k dt → stage_of k' = stage_of k → run_ok_at before rcv k' dt.
Proof. intros H E. unfold run_ok_at. by rewrite E. Qed.

Lemma run_ok_plugins before rcv k dt ps : run_ok_at before rcv k dt → run_ok_at before rcv k (set_plugins ps dt).
Proof. intros (h & items & es & [] & Hs). exists h, items, es. split; [by constructor|exact Hs]. Qed.

Lemma run_ok_open before rcv h items es k dt :
  path_ok before rcv h items es dt → stage_ok Open es dt → stage_of k = Open → run_ok_at before rcv k dt.
Proof. intros Hp Hs E. exists h, items, es. by rewrite E. Qed.

(** Events written by plugins or for a change of the state. *)
Lemma run_ok_events {A} before rcv k k' dt (m : SM ReadoutBuffer A) :
  run_ok_at before rcv k dt → stage_of k = Open → appends m → stage_of k' = Open →
  ∃ a w', with_output m (d_worker dt) = Done (a, w') ∧ run_ok_at before rcv k' (set_worker w' dt).
Proof.
  intros (h & items & es & Hp & Hs) Ek Hm Ek'. rewrite Ek in Hs. destruct (path_events _ _ _ _ _ _ m Hp Hs Hm) as (a & w' & es' & E & Hp' & Hs').
  exists a, w'. split; [done|]. by eapply run_ok_open.
Qed.

Lemma run_ok_flush before rcv k k' dt w' :
  run_ok_at before rcv k dt → stage_of k = Open → flushCurrentOutputBuffer (d_worker dt) = Done w' → stage_of k' = Open ∨ stage_of k' = Flushed →
  run_ok_at before rcv k' (set_worker w' dt).
Proof.
  intros (h & items & es & Hp & Hs) Ek E Ek'. rewrite Ek in Hs. destruct (path_flush _ _ _ _ _ _ _ Hp Hs E) as (items' & Hp' & Hs').
  exists h, items', []. split; [done|]. destruct Ek' as [-> | ->]; [|exact Hs']. destruct Hs' as (? & ? & _). by split.
Qed.

Lemma run_ok_readout before rcv k k' dt reads ec n w' :
  run_ok_at before rcv k dt → stage_of k = Open → Forall usb_read_ok reads → readout reads (d_worker dt) = Done (ec, n, w') → stage_of k' = Open →
  ∃ m, (reads ≠ [] → m ≠ O) ∧ run_ok_at before (rcv ++ received m reads) k' (set_worker w' dt).
Proof.
  intros (h & items & es & Hp & Hs) Ek Hr E Ek'. rewrite Ek in Hs. destruct (path_readout _ _ _ _ _ _ _ _ _ _ Hp Hs Hr E) as (m & Hm & items' & Hp' & Hs').
  exists m. split; [done|]. by eapply run_ok_open.
Qed.

Lemma run_ok_worker before rcv k dt : run_ok_at before rcv k dt → worker_ok (d_worker dt) ∧ w_format (d_worker dt) = USB.
Proof. intros (h & items & es & [] & _). done. Qed.

(** The end of a run. *)
Lemma run_ok_ending before rcv dt :
  (run_ok_at before rcv PutBack dt → run_ok_at before rcv Sentinel (set_worker (maybePutBackSnoopBuffer (d_worker dt)) dt))
  ∧ (run_ok_at before rcv Sentinel dt → d_phase dt = WriterLoop)
  ∧ (∀ w', run_ok_at before rcv Sentinel dt → put_sentinel (d_worker dt) = Some w' → run_ok_at before rcv JoinWriter (set_worker w' dt))
  ∧ (run_ok_at before rcv JoinWriter dt → d_phase dt = WriterIdle → run_ok_at before rcv CheckBuffers dt)
  ∧ (run_ok_at before rcv CheckBuffers dt → length (empties dt) = ListfileWriterBufferCount
     ∧ run_ok_at before rcv Finished (mkData (d_worker dt) (d_writer dt) WriterNone (d_plugins dt) None)).
Proof.
  split_and!.
  - intros (h & items & es & Hp & Hs). assert (es = []) as -> by (by destruct Hs as (_ & _ & ?)). exists h, items, [].
    by apply path_putback.
  - intros (h & items & es & _ & [[? _] _]). done.
  - intros w' (h & items & es & Hp & Hs) E. assert (es = []) as -> by (by destruct Hs as (_ & _ & ?)). exists h, items, [].
    by eapply path_sentinel.
  - intros (h & items & es & Hp & Hs) E. exists h, items, es. split; [done|]. destruct Hs as [[[[? _] _]|[_ ?]] ?]; [congruence|]. cbn. auto.
  - intros (h & items & es & Hp & Hs). destruct Hs as (_ & Hf & ->). split.
    + destruct Hp as [_ _ Hpool _ _ _ _ _ _]. rewrite Hf in Hpool. cbn in Hpool. done.
    + exists h, items, []. split; [destruct Hp; by constructor|]. cbn. split_and!; auto.
Qed.

Definition reads_at (a : action (D := D)) (s : Sys (D := D) (W := W)) : list UsbRead :=
  match a, s_pc s with
  | Thread i, DoReadout => in_reads i
  | ReadData i, RunCommands _ (RRead _) | ReadData i, Join _ _ (RRead _) _ => in_reads i
  | _, _ => []
  end.

(** All steps of the readout thread but the one that reads. *)
Lemma thread_other_ok before rcv i (s s' : Sys (D := D) (W := W)) :
  run_ok_at before rcv (s_pc s) (s_data s) → input_ok i → s_pc s ≠ DoReadout → thread_step cfg i s = Some s' → run_ok_at before rcv (s_pc s') (s_data s').
Proof.
  destruct s as [sh dt ct k]. cbn [s_pc s_data]. intros H [Hi Hm] Hk. destruct (run_ok_ending before rcv dt) as (H1 & H2 & H3 & H4 & H5).
  destruct k as [| | |ph r|ph a r res| | |st| |st|st|st|next| | | | | | | |st k|st k| |]; cbn [thread_step]; try done.
  - by destruct H as (h & items & es & _ & []).
  - destruct (run_ok_events _ _ _ (SetState Running (RunCommands FirstStart RCheck)) _ (for_plugins (plugin_readoutStart (s_crateId cfg)) (in_moments i) (d_plugins dt)) H)
      as (ps & w' & -> & H'); [done|apply appends_for; intros; by apply appends_start|done|]. intros [= <-]. by apply run_ok_plugins.
  - destruct (phase_commands _ _ _ _) as [[ec d]| | |]; [..|done|done]; intros [= <-]; by apply (run_ok_keep _ _ (RunCommands ph r)).
  - destruct r; [done|done|]. intros [= <-]. unfold joined. destruct ph, res; try destruct (failed _); by apply (run_ok_keep _ _ (Join FirstStart a RDone (inl no_error))).
  - destruct (is_type _ _); [intros [= <-]; by apply (run_ok_keep _ _ Top)|].
    destruct (run_ok_events _ _ _ Top _ (call_plugins (s_crateId cfg) (in_moments i) (d_plugins dt)) H) as (r & w' & -> & H'); [done|by apply appends_calls|done|].
    intros [= <-]. cbn. apply run_ok_plugins. eapply run_ok_keep; [exact H'|]. by destruct r.1.
  - intros [= <-]. by apply (run_ok_keep _ _ LoadState).
  - case_bool_decide; intros [= <-]; by apply (run_ok_keep _ _ (CheckRunning st)).
  - case_bool_decide; intros [= <-]; by apply (run_ok_keep _ _ (CheckPause st)).
  - case_bool_decide; intros [= <-]; by apply (run_ok_keep _ _ (CheckResume st)).
  - repeat case_bool_decide; intros [= <-]; by apply (run_ok_keep _ _ (CheckStop st)).
  - set (sub := match next with Paused => _ | _ => _ end). assert (Hsub : 0 ≤ sub < 128) by (by destruct next).
    destruct (run_ok_events _ _ _ Top _ (listfile_write_timestamp_section (in_timeOfDay i) (s_crateId cfg) sub) H) as (u & w' & -> & H');
      [done|by apply appends_timestamp|done|].
    destruct (flushCurrentOutputBuffer w') as [w''|e| |] eqn:E; [..|done|done]; intros [= <-]; [|by destruct (flush_not_raise _ _ E)].
    apply (run_ok_flush _ _ Top (SetState next CheckWriter) (set_worker w' dt) w''); [done|done|done|by left].
  - destruct (lw_eptr _); intros [= <-]; by apply (run_ok_keep _ _ CheckWriter).
  - destruct (run_ok_events _ _ _ FinalFlush _ (for_plugins (plugin_readoutStop (s_crateId cfg)) (in_moments i) (d_plugins dt)) H)
      as (ps & w' & -> & H'); [done|apply appends_for; intros; by apply appends_stop|done|]. intros [= <-]. by apply run_ok_plugins.
  - assert (Hph : d_phase dt = WriterLoop) by (by destruct H as (h & items & es & _ & [[? _] _])). rewrite Hph. cbn [writer_reports_running].
    destruct (flushCurrentOutputBuffer (d_worker dt)) as [w'|e| |] eqn:E; [..|done|done]; intros [= <-].
    + eapply run_ok_flush; [exact H|done|done|by right].
    + by destruct (flush_not_raise _ _ E).
  - intros [= <-]. by apply H1.
  - rewrite (H2 H). cbn [writer_reports_running]. destruct (put_sentinel (d_worker dt)) as [w'|] eqn:E; [|done]. intros [= <-]. by apply H3.
  - case_bool_decide; [|done]. intros [= <-]. by apply H4.
  - destruct (H5 H) as [Hl H']. intros [= <-]. exact H'.
  - intros [= <-]. by apply (run_ok_keep _ _ (SetState st k)).
  - intros [= <-]. by apply (run_ok_keep _ _ (SetDesired st k)).
Qed.

Lemma reader_step_ok before rcv i (s s' : Sys (D := D) (W := W)) :
  run_ok_at before rcv (s_pc s) (s_data s) → input_ok i → reader_step i s = Some s' →
  ∃ m, (reads_at (ReadData i) s ≠ [] → m ≠ O) ∧ run_ok_at before (rcv ++ received m (reads_at (ReadData i) s)) (s_pc s') (s_data s').
Proof.
  destruct s as [sh dt ct k]. cbn [s_pc s_data]. intros H [Hi _].
  destruct k as [| | |ph r|ph a r res| | |st| |st|st|st|next| | | | | | | |st k|st k| |]; cbn [reader_step]; try done; destruct r as [|ra|]; try done.
  - intros [= <-]. exists O. by rewrite app_nil_r.
  - destruct (readout _ _) as [[[ec n] w']| | |] eqn:E; [|done..]. intros [= <-].
    destruct (run_ok_readout _ _ _ Top _ _ _ _ _ H eq_refl Hi E eq_refl) as (m & Hm & H'). by exists m.
  - intros [= <-]. exists O. by rewrite app_nil_r.
  - destruct (readout _ _) as [[[ec n] w']| | |] eqn:E; [|done..]. intros [= <-].
    destruct (run_ok_readout _ _ _ Top _ _ _ _ _ H eq_refl Hi E eq_refl) as (m & Hm & H'). by exists m.
Qed.

Definition action_ok (a : action (D := D)) : Prop :=
  match a with Thread i | ReadData i => input_ok i | Launch => False | _ => True end.

Lemma act_run_ok before rcv a (s s' : Sys (D := D) (W := W)) :
  run_ok_at before rcv (s_pc s) (s_data s) → action_ok a → act cfg a s = Some s' →
  ∃ m, (reads_at a s ≠ [] → m ≠ O) ∧ run_ok_at before (rcv ++ received m (reads_at a s)) (s_pc s') (s_data s').
Proof.
  intros H Ha. assert (Hsame : run_ok_at before rcv (s_pc s') (s_data s') → ∃ m, (@nil UsbRead ≠ [] → m ≠ O) ∧ run_ok_at before (rcv ++ received m []) (s_pc s') (s_data s')).
  { intros H'. exists O. by rewrite app_nil_r. }
  destruct a as [i|i| |t| |c|n]; cbn [act].
  - assert (s_pc s = DoReadout ∨ s_pc s ≠ DoReadout) as [Ek|Ek] by (destruct (s_pc s); first [by left|by right]).
    + unfold reads_at. rewrite Ek. destruct s as [sh dt ct k]. cbn in Ek. subst k. cbn [thread_step]. destruct Ha as [Hi _]. cbn [s_pc s_data] in H.
      destruct (run_ok_worker _ _ _ _ H) as [Hw Hf].
      destruct (readout (in_reads i) (d_worker dt)) as [[[ec n] w']|e| |] eqn:E; [..|done|done]; [|by destruct (readout_not_raise _ _ e Hw Hf Hi)].
      intros [= <-]. destruct (run_ok_readout _ _ _ Top _ _ _ _ _ H eq_refl Hi E eq_refl) as (m & Hm & H'). exists m. split; [done|].
      destruct (is_type ec ErrorType.ConnectionError); exact H'.
    + intros E. replace (reads_at (Thread i) s) with (@nil UsbRead) by (unfold reads_at; by destruct (s_pc s)). apply Hsame. by eapply thread_other_ok.
  - by apply reader_step_ok.
  - intros E. apply Hsame. by eapply writer_step_ok.
  - intros [= <-]. apply Hsame. destruct s as [sh dt ct k]. unfold start. case_bool_decide; [done|]. by apply run_ok_plugins.
  - done.
  - destruct s as [sh dt ct k]. destruct (check_call _ _); intros [= <-]; by apply Hsame.
  - destruct s as [sh dt ct k]. cbn. destruct (sh_pending sh !! n); [|done]. intros [= <-]. by apply Hsame.
Qed.

(** The reads of all calls of the readout in an execution. *)
Fixpoint rounds (acts : list (action (D := D))) (s : Sys (D := D) (W := W)) : list (list UsbRead) :=
  match acts with
  | [] => []
  | a :: acts => reads_at a s :: match act cfg a s with Some s => rounds acts s | None => [] end
  end.

Lemma acts_run_ok before acts : ∀ rcv (s s' : Sys (D := D) (W := W)),
  run_ok_at before rcv (s_pc s) (s_data s) → Forall action_ok acts → run cfg acts s = Some s' →
  ∃ ms, Forall2 (λ m reads, reads ≠ [] → m ≠ O) ms (rounds acts s)
    ∧ run_ok_at before (rcv ++ concat (zip_with received ms (rounds acts s))) (s_pc s') (s_data s').
Proof.
  induction acts as [|a acts IH]; intros rcv s s' H Ha; cbn [run rounds].
  { intros [= <-]. exists []. split; [constructor|]. cbn. by rewrite app_nil_r. }
  apply Forall_cons in Ha as [Ha Has]. destruct (act cfg a s) as [s1|] eqn:E; [|done]. cbn [mbind option_bind]. intros Hrun.
  destruct (act_run_ok _ _ _ _ _ H Ha E) as (m & Hm & H1). destruct (IH _ _ _ H1 Has Hrun) as (ms & Hms & H2).
  exists (m :: ms). split; [by constructor|]. cbn. by rewrite app_assoc.
Qed.

Lemma readout_run_app acts1 acts2 (s : Sys (D := D) (W := W)) : run cfg (acts1 ++ acts2) s = (run cfg acts1 s ≫= run cfg acts2).
Proof. revert s; induction acts1 as [|a acts1 IH]; intros s; [done|]. cbn. destruct (act cfg a s); [apply IH|done]. Qed.

(** The begin of a run: the thread is created and has created the writer, which has begun. *)
Definition run_begin (t : Z) (i : Input (D := D)) : list action := [Start t; Launch; Thread i; Write].

Lemma run_begin_ok t i d q (h : W) :
  from_option (λ q, Forall buf_ok (emptyBuffers q)) True q → wh_ok h →
  ∃ s, run cfg (run_begin t i) (new_system USB d q (Some h)) = Some s ∧ s_pc s = StartPlugins ∧ sh_pending (s_shared s) = []
    ∧ run_ok_at (wh_contents h) [] (s_pc s) (s_data s).
Proof.
  intros Hq Hok. eexists. split; [reflexivity|]. split; [reflexivity|]. split; [reflexivity|].
  assert (Hn : buf_ok (new_buffer ListfileWriterBufferSize) ∧ capacity (new_buffer ListfileWriterBufferSize) = 1024 * 1024).
  { unfold buf_ok, new_buffer, capacity, ListfileWriterBufferSize. cbn [m_used m_buffer]. rewrite zlen_replicate. lia. }
  destruct Hn as [Hn Hcap]. exists h, [], []. split; [|split; [split; reflexivity|constructor]].
  assert (Hw : worker_ok (set_counters no_counts (new_worker USB q))).
  { constructor; cbn [new_worker localBuffer previousData outputBuffer snoop from_option set_counters]; [exact Hn| |exact I|exact Hq].
    split; [exact Hn|]. split; [rewrite Hcap; lia|]. reflexivity. }
  constructor; [exact Hw|reflexivity|reflexivity|split_and!; [reflexivity|exact Hok|reflexivity|reflexivity]|..].
  - change (wh_contents h ++ [] = wh_contents h ++ []). reflexivity.
  - constructor.
  - split; [reflexivity|constructor].
  - reflexivity.
  - left. reflexivity.
Qed.

(** C10: the listfile of the first run of a worker on a USB connection, with a file that takes
    every write, from the moment on when the listfile writer has begun (a writer that begins
    later can be missed at the end of the run, see [late_writer_blocks]).  In every
    interleaving of the readout thread, the reader that is active while commands run, the
    writer and calls that pause, resume and stop the readout: the file continued by the buffers that wait for the writer consists of complete
    frames (and single words that are no frame headers), the output buffer of system events; the
    frames that did not come from the worker itself, together with the data kept for the next
    read, are exactly what was received, in order.  When the run has finished, nothing waits, all
    buffers of the writer have been returned, and all frames are in the file. *)
Theorem readout_listfile t i d q (h : W) acts s0 s :
  from_option (λ q, Forall buf_ok (emptyBuffers q)) True q → wh_ok h → Forall action_ok acts →
  run cfg (run_begin t i) (new_system USB d q (Some h)) = Some s0 → run cfg acts s0 = Some s →
  ∃ h' items es ms, let w := d_worker (s_data s) in let rs := rounds acts s0 in
    lw_handle (d_writer (s_data s)) = Some h'
    ∧ wh_contents h' ++ concat (viewU8 <$> filled (s_data s)) = wh_contents h ++ concat items.*2 ∧ Forall item_ok items
    ∧ output_view w = concat es ∧ Forall event_frame es
    ∧ data_of items ++ viewU8 (previousData w) = concat (zip_with received ms rs) ∧ Forall2 (λ m reads, reads ≠ [] → m ≠ O) ms rs
    ∧ (viewU8 (previousData w) = [] ∨ cut (viewU8 (previousData w)))
    ∧ (s_pc s = Finished → wh_contents h' = wh_contents h ++ concat items.*2 ∧ es = [] ∧ length (empties (s_data s)) = ListfileWriterBufferCount).
Proof.
  intros Hq Hok Ha E0 E. destruct (run_begin_ok t i d q h Hq Hok) as (s1 & E1 & _ & _ & H). rewrite E0 in E1. injection E1 as <-.
  destruct (acts_run_ok _ _ _ _ _ H Ha E) as (ms & Hms & h' & items & es & Hp & Hs). rewrite app_nil_l in Hp.
  exists h', items, es, ms. destruct Hp as [_ _ Hpool (Hh & _) Hc Hi [Ho Hes] Hd Hprev]. cbv zeta. split_and!; try done.
  intros Hk. rewrite Hk in Hs. destruct Hs as (_ & Hf & ->). rewrite Hf in *. cbn in *. rewrite app_nil_r in Hc. by split_and!.
Qed.

(** ** A run that is to stop ends *)

(** Actions of the threads, without any data from the controller. *)
Definition quiet_action (i : Input (D := D)) (a : action (D := D)) : Prop := a = Thread i ∨ a = ReadData i ∨ a = Write.

Definition leads (i : Input (D := D)) (s s' : Sys (D := D) (W := W)) : Prop :=
  ∃ acts, Forall (quiet_action i) acts ∧ run cfg acts s = Some s'.

Lemma leads_refl i s : leads i s s.
Proof. exists []. by split. Qed.

Lemma leads_trans i s1 s2 s3 : leads i s1 s2 → leads i s2 s3 → leads i s1 s3.
Proof.
  intros (a1 & H1 & E1) (a2 & H2 & E2). exists (a1 ++ a2). split; [by apply Forall_app|]. by rewrite readout_run_app, E1.
Qed.

Lemma leads_step i s1 a s2 s3 : quiet_action i a → act cfg a s1 = Some s2 → leads i s2 s3 → leads i s1 s3.
Proof. intros Ha E. apply leads_trans. exists [a]. split; [by constructor|]. cbn. by rewrite E. Qed.

Lemma leads_thread i s1 s2 s3 : thread_step cfg i s1 = Some s2 → leads i s2 s3 → leads i s1 s3.
Proof. intros E. by apply (leads_step i s1 (Thread i)); [left|]. Qed.

Lemma leads_data i s1 s2 s3 : reader_step i s1 = Some s2 → leads i s2 s3 → leads i s1 s3.
Proof. intros E. by apply (leads_step i s1 (ReadData i)); [right; left|]. Qed.

(** The writer can always write what waits for it. *)
Lemma writer_drains i before rcv sh ct k : ∀ dt,
  run_ok_at before rcv k dt → writing dt → Forall waiting (filled dt) →
  ∃ dt', leads i (mkSys sh dt ct k) (mkSys sh dt' ct k) ∧ run_ok_at before rcv k dt' ∧ writing dt' ∧ filled dt' = [] ∧ d_plugins dt' = d_plugins dt.
Proof.
  intros dt. remember (filled dt) as fl eqn:Ef. symmetry in Ef. revert dt Ef.
  induction fl as [|b fl IH]; intros dt Ef H Hwr Hfl; [exists dt; by split_and!; [apply leads_refl|..]|].
  apply Forall_cons in Hfl as [Hb Hfl]. destruct H as (h & items & es & Hp & Hs) eqn:EH.
  pose proof Hp as [_ _ _ (Hh & Hok & He & _) _ _ _ _ _]. destruct Hwr as [Hph Hr]. destruct Hb as [Hb Hu].
  destruct (wh_write_law h (viewU8 b) Hok) as (h1 & Ew & Hok1 & Hc1).
  assert (El : ∃ lw', listfile_buffer_writer [b] (d_writer dt) = Done lw').
  { cbn [listfile_buffer_writer]. rewrite Hr, Hh. cbn [negb]. replace (m_used b =? 0) with false by lia. rewrite Ew. by eexists. }
  destruct El as (lw' & El). destruct (path_write _ _ _ _ _ _ _ _ _ Hp (conj Hph Hr) Ef (or_introl (conj Hb Hu)) El) as (Hrun & h' & Hp' & Hf').
  replace (m_used b =? 0) with false in Hrun by lia. cbn [negb] in Hrun. set (dt1 := set_writer _ _ _) in *.
  assert (E1 : writer_step (mkSys sh dt ct k) = Some (mkSys sh dt1 ct k)).
  { unfold writer_step. cbv zeta. rewrite Hph. unfold filled in Ef. rewrite Ef. cbn [dequeue]. by rewrite El. }
  assert (Hwr1 : writing dt1) by (unfold writing, dt1; cbn; by rewrite Hrun).
  destruct (IH dt1 Hf') as (dt2 & Hl & H2 & Hwr2 & Hf2 & Hpl); [|done|done|].
  { apply (writer_step_ok before rcv (mkSys sh dt ct k) (mkSys sh dt1 ct k)); [|done]. exact (ex_intro _ h (ex_intro _ items (ex_intro _ es (conj Hp Hs)))). }
  exists dt2. split_and!; try done. eapply (leads_step i _ Write); [by right; right|exact E1|exact Hl].
Qed.

(** Reading when there is nothing to read. *)
Lemma readout_nothing w :
  worker_ok w → w_format w = USB → emptyBuffers (listfileQueues w) ≠ [] → ∃ ec w', readout [] w = Done (ec, 0, w').
Proof.
  intros Hw Hf He. destruct (readout_usb_ok w [] Hw Hf (Forall_nil_2 _) He) as (ec & n & w' & _ & _ & _ & E & _). exists ec, w'.
  enough (n = 0) as -> by exact E. unfold readout in E. rewrite Hf in E. destruct (worker_readout_usb [] w) as [[[ec1 n1] w1]| | |] eqn:E1; [|done..].
  assert (n = n1) as -> by (destruct (flushCurrentOutputBuffer _); [by injection E|done..]). unfold worker_readout_usb in E1.
  destruct (getOutputBuffer w) as [[local b] w2]. destruct (if negb _ then _ else _) as [b1 p1]. cbn [worker_usb_loop] in E1.
  destruct (fixup_usb_buffer _ _ _) as [[[b2 p2] c2]| | |]; [|done..]. by injection E1 as _ <- _.
Qed.

Lemma empties_free before rcv k dt : run_ok_at before rcv k dt → filled dt = [] → empties dt ≠ [].
Proof. intros (h & items & es & [_ _ Hpool _ _ _ _ _ _] & _) Hf. rewrite Hf in Hpool. intros E. by rewrite E in Hpool. Qed.

Lemma open_writing before rcv k dt : run_ok_at before rcv k dt → stage_of k = Open ∨ stage_of k = Flushed → writing dt ∧ Forall waiting (filled dt).
Proof. intros (h & items & es & _ & Hs) [Ek|Ek]; rewrite Ek in Hs; destruct Hs as (? & Hs); [done|]. by destruct Hs. Qed.

(** The states in which a run has ended. *)
Definition ended (before rcv : list Z) (s : Sys (D := D) (W := W)) : Prop :=
  s_pc s = Finished ∧ sh_state (s_shared s) = Idle ∧ run_ok_at before rcv Finished (s_data s).

Section Ending.
Context (before rcv : list Z) (i : Input (D := D)).
Context (Hreads : in_reads i = []) (Hmoments : ∀ n, moment_ok (in_moments i n)).
Definition can_end (s : Sys (D := D) (W := W)) : Prop := ∃ s', leads i s s' ∧ ended before rcv s'.

Lemma can_end_thread s1 s2 : thread_step cfg i s1 = Some s2 → can_end s2 → can_end s1.
Proof. intros E (s' & H & He). exists s'. split; [by eapply leads_thread|done]. Qed.

Lemma can_end_drained sh dt ct k :
  run_ok_at before rcv k dt → stage_of k = Open ∨ stage_of k = Flushed →
  (∀ dt', run_ok_at before rcv k dt' → writing dt' → filled dt' = [] → empties dt' ≠ [] → can_end (mkSys sh dt' ct k)) → can_end (mkSys sh dt ct k).
Proof.
  intros H Ek Hnext. destruct (open_writing _ _ _ _ H Ek) as [Hwr Hw].
  destruct (writer_drains i before rcv sh ct k dt H Hwr Hw) as (dt' & Hl & H' & Hwr' & Hf' & _).
  destruct (Hnext dt' H' Hwr' Hf') as (s' & Hl' & He); [by eapply empties_free|]. exists s'. split; [by eapply leads_trans|done].
Qed.

(** The writer ends when it has found the sentinel. *)
Lemma check_buffers_end sh dt ct : run_ok_at before rcv CheckBuffers dt → can_end (mkSys sh dt ct CheckBuffers).
Proof.
  intros H. destruct (run_ok_ending before rcv dt) as (_ & _ & _ & _ & H5). destruct (H5 H) as [Hl H6]. eexists. split.
  - do 3 (eapply leads_thread; [reflexivity|]). apply leads_refl.
  - split; [reflexivity|]. split; [reflexivity|]. exact H6.
Qed.

Lemma can_end_write s1 s2 : writer_step s1 = Some s2 → can_end s2 → can_end s1.
Proof. intros E (s' & H & He). exists s'. split; [by eapply (leads_step i _ Write); [right; right| |]|done]. Qed.

Lemma join_idle_ends sh dt ct : run_ok_at before rcv JoinWriter dt → d_phase dt = WriterIdle → can_end (mkSys sh dt ct JoinWriter).
Proof.
  intros H Hph. eapply can_end_thread; [cbn [thread_step]; by rewrite bool_decide_true|]. apply check_buffers_end. by apply (run_ok_ending before rcv dt).
Qed.

Lemma join_left_ends sh dt ct : run_ok_at before rcv JoinWriter dt → d_phase dt = WriterLeft → can_end (mkSys sh dt ct JoinWriter).
Proof.
  intros H Hph. set (dt' := set_writer (d_writer dt) WriterIdle dt).
  assert (E : writer_step (mkSys sh dt ct JoinWriter) = Some (mkSys sh dt' ct JoinWriter)) by (unfold writer_step; cbv zeta; by rewrite Hph).
  eapply can_end_write; [exact E|]. apply join_idle_ends; [|done]. exact (writer_step_ok before rcv (mkSys sh dt ct JoinWriter) (mkSys sh dt' ct JoinWriter) H E).
Qed.

Lemma join_writer_ends sh ct n : ∀ dt, (length (filled dt) ≤ n)%nat → run_ok_at before rcv JoinWriter dt → can_end (mkSys sh dt ct JoinWriter).
Proof.
  induction n as [|n IH]; intros dt Hn H; pose proof H as (h & items & es & Hp & Hs & _).
  { destruct Hs as [[_ (fl & b & E & _)]|[[Hph|Hph] _]]; [|by apply join_left_ends|by apply join_idle_ends]. rewrite E, length_app in Hn. cbn in Hn. lia. }
  destruct Hs as [[Hwr (fl & b0 & E & Hfl & Hb0)]|[[Hph|Hph] _]]; [|by apply join_left_ends|by apply join_idle_ends].
  destruct (filled dt) as [|b rest] eqn:Ef; [by destruct fl|].
  assert (Hb : waiting b ∨ m_used b = 0) by (destruct fl as [|c fl]; injection E as -> _; [by right|left; by apply Forall_cons in Hfl as [? _]]).
  assert (El : ∃ lw', listfile_buffer_writer [b] (d_writer dt) = Done lw').
  { destruct Hwr as [_ Hr]. pose proof Hp as [_ _ _ (Hh & Hok & _) _ _ _ _ _]. cbn [listfile_buffer_writer]. rewrite Hr, Hh. cbn [negb]. destruct (m_used b =? 0); [by eexists|].
    destruct (wh_write_law h (viewU8 b) Hok) as (h1 & -> & _). by eexists. }
  destruct El as (lw' & El). destruct (path_write _ _ _ _ _ _ _ _ _ Hp Hwr Ef Hb El) as (_ & h' & _ & Hf'). set (dt1 := set_writer _ _ _) in *.
  assert (E1 : writer_step (mkSys sh dt ct JoinWriter) = Some (mkSys sh dt1 ct JoinWriter)).
  { unfold writer_step. cbv zeta. rewrite (proj1 Hwr). unfold filled in Ef. rewrite Ef. cbn [dequeue]. by rewrite El. }
  eapply can_end_write; [exact E1|]. apply IH; [rewrite Hf'; cbn in Hn; lia|].
  exact (writer_step_ok before rcv (mkSys sh dt ct JoinWriter) (mkSys sh dt1 ct JoinWriter) H E1).
Qed.

Lemma sentinel_ends sh dt ct : run_ok_at before rcv Sentinel dt → can_end (mkSys sh dt ct Sentinel).
Proof.
  intros H. apply can_end_drained; [done|by right|]. clear dt H. intros dt H [Hph Hr] Hf He.
  destruct (empties dt) as [|b empty] eqn:Ee; [done|]. set (w := set_listfile (mkQueues [clear b] empty) (d_worker dt)).
  assert (E1 : thread_step cfg i (mkSys sh dt ct Sentinel) = Some (mkSys sh (set_worker w dt) ct JoinWriter)).
  { cbn [thread_step]. rewrite Hph. cbn [writer_reports_running]. unfold put_sentinel. unfold empties in Ee. rewrite Ee. cbn [dequeue].
    unfold filled in Hf. by rewrite Hf. }
  eapply can_end_thread; [exact E1|]. eapply join_writer_ends; [done|].
  apply (thread_other_ok before rcv) in E1 as H1; [exact H1|exact H|split; [by rewrite Hreads|done]|done].
Qed.

Lemma put_back_ends sh dt ct : run_ok_at before rcv PutBack dt → can_end (mkSys sh dt ct PutBack).
Proof. intros H. eapply can_end_thread; [reflexivity|]. apply sentinel_ends. by apply run_ok_ending. Qed.

Lemma final_flush_ends sh dt ct : run_ok_at before rcv FinalFlush dt → can_end (mkSys sh dt ct FinalFlush).
Proof.
  intros H. apply can_end_drained; [done|by left|]. clear dt H.
  intros dt H [Hph Hr] Hf He. destruct (run_ok_worker _ _ _ _ H) as [Hw _]. destruct (worker_flush_ok _ Hw He) as (w' & _ & E & _).
  pose proof (run_ok_flush _ _ _ PutBack _ _ H eq_refl E (or_intror eq_refl)) as H1.
  eapply can_end_thread; [cbn [thread_step]; rewrite Hph; cbn [writer_reports_running]; rewrite E; reflexivity|]. by apply put_back_ends.
Qed.

Lemma stop_plugins_end sh dt ct : run_ok_at before rcv StopPlugins dt → can_end (mkSys sh dt ct StopPlugins).
Proof.
  intros H. destruct (run_ok_events _ _ _ FinalFlush _ (for_plugins (plugin_readoutStop (s_crateId cfg)) (in_moments i) (d_plugins dt)) H)
    as (ps & w' & E & H'); [done|apply appends_for; intros; by apply appends_stop|done|].
  eapply can_end_thread; [cbn [thread_step]; rewrite E; reflexivity|]. apply final_flush_ends. by apply run_ok_plugins.
Qed.

Lemma can_end_data s1 s2 : reader_step i s1 = Some s2 → can_end s2 → can_end s1.
Proof. intros E (s' & H & He). exists s'. split; [by eapply leads_data|done]. Qed.

(** The reader beside the commands, when they are done. *)
Lemma reader_done_ends sh dt ct a ec : run_ok_at before rcv Top dt → can_end (mkSys sh dt ct (Join Ending a RDone (inl ec))).
Proof. intros H. eapply can_end_thread; [reflexivity|]. by apply stop_plugins_end. Qed.

Lemma reader_reads sh dt ct a b ec :
  run_ok_at before rcv Top dt →
  (∀ dt', run_ok_at before rcv Top dt' → can_end (mkSys sh dt' ct (Join Ending a (match b with QuitWhenEmpty => RDone | _ => RCheck end) (inl ec)))) →
  can_end (mkSys sh dt ct (Join Ending a (RRead b) (inl ec))).
Proof.
  intros H Hnext. apply (can_end_drained sh dt ct (Join Ending a (RRead b) (inl ec))); [exact H|by left|]. clear dt H. intros dt H _ _ He.
  destruct (run_ok_worker _ _ _ _ H) as [Hw Hfm]. destruct (readout_nothing _ Hw Hfm He) as (ec' & w' & Er).
  destruct (run_ok_readout _ _ _ Top _ _ _ _ _ H eq_refl (Forall_nil_2 _) Er eq_refl) as (m & _ & H').
  replace (received m []) with (@nil Z) in H' by (by destruct m). rewrite app_nil_r in H'.
  eapply can_end_data; [cbn [reader_step]; rewrite Hreads; cbn [mbind option_bind]; rewrite Er; reflexivity|].
  specialize (Hnext _ H'). by destruct b.
Qed.

Lemma reader_checks sh dt ct a ec : run_ok_at before rcv Top dt → a ≠ Run → can_end (mkSys sh dt ct (Join Ending a RCheck (inl ec))).
Proof.
  intros H Ha. destruct a; [done| |].
  - eapply can_end_data; [reflexivity|]. by apply reader_done_ends.
  - eapply can_end_data; [reflexivity|]. apply reader_reads; [done|]. intros dt' H'. by apply reader_done_ends.
Qed.

Lemma reader_ends sh dt ct a r ec : run_ok_at before rcv Top dt → a ≠ Run → can_end (mkSys sh dt ct (Join Ending a r (inl ec))).
Proof.
  intros H Ha. destruct r as [|b|]; [by apply reader_checks| |by apply reader_done_ends]. apply reader_reads; [done|]. intros dt' H'.
  destruct b; by first [apply reader_checks|apply reader_done_ends].
Qed.

(** The commands that end the readout return. *)
Definition commands_return (ct : Control (D := D)) : Prop :=
  ∃ ec d, terminateReadout (s_mcstDaqStart cfg) (s_mcstDaqStop cfg) (c_mvlc ct) = Done (ec, d).

Lemma commands_end sh dt ct r : run_ok_at before rcv Top dt → commands_return ct → can_end (mkSys sh dt ct (RunCommands Ending r)).
Proof.
  intros H (ec & d & Ec). eapply can_end_thread; [cbn [thread_step phase_commands]; rewrite Ec; reflexivity|]. apply reader_ends; [done|].
  cbn [action_after]. by destruct (failed ec).
Qed.

Lemma finish_ends sh dt ct : run_ok_at before rcv Top dt → commands_return ct → can_end (mkSys sh dt ct finish).
Proof. intros H Hc. eapply can_end_thread; [reflexivity|]. eapply can_end_thread; [reflexivity|]. by apply commands_end. Qed.

(** Where the readout thread can be after a request to stop was seen at the top of the loop. *)
Definition ending (s : Sys (D := D) (W := W)) : Prop :=
  run_ok_at before rcv (s_pc s) (s_data s) ∧
  match s_pc s with
  | Top | LoadState | CheckRunning _ | CheckPause _ | CheckResume _ | CheckStop _ => sh_desired (s_shared s) = Stopping ∧ commands_return (s_control s)
  | SetState Stopping (RunCommands Ending RCheck) | SetDesired Stopping (RunCommands Ending RCheck) | RunCommands Ending _ => commands_return (s_control s)
  | Join Ending a _ (inl _) => a ≠ Run
  | StopPlugins | FinalFlush | PutBack | Sentinel | JoinWriter | CheckBuffers | SetState Idle Finished => True
  | SetDesired Idle Finished | Finished => sh_state (s_shared s) = Idle
  | _ => False
  end.

Lemma check_stop_ends sh dt ct st : run_ok_at before rcv Top dt → sh_desired sh = Stopping → commands_return ct → can_end (mkSys sh dt ct (CheckStop st)).
Proof. intros H Hd Hc. eapply can_end_thread; [cbn [thread_step]; rewrite Hd, bool_decide_true by done; reflexivity|]. by apply finish_ends. Qed.

Ltac passes Hd := eapply can_end_thread; [cbn [thread_step]; rewrite Hd, bool_decide_false by (by intros [_ ?]); reflexivity|].

Lemma check_resume_ends sh dt ct st : run_ok_at before rcv Top dt → sh_desired sh = Stopping → commands_return ct → can_end (mkSys sh dt ct (CheckResume st)).
Proof. intros H Hd Hc. passes Hd. by apply check_stop_ends. Qed.
Lemma check_pause_ends sh dt ct st : run_ok_at before rcv Top dt → sh_desired sh = Stopping → commands_return ct → can_end (mkSys sh dt ct (CheckPause st)).
Proof. intros H Hd Hc. passes Hd. by apply check_resume_ends. Qed.
Lemma check_running_ends sh dt ct st : run_ok_at before rcv Top dt → sh_desired sh = Stopping → commands_return ct → can_end (mkSys sh dt ct (CheckRunning st)).
Proof. intros H Hd Hc. passes Hd. by apply check_pause_ends. Qed.

Lemma top_ends sh dt ct : run_ok_at before rcv Top dt → sh_desired sh = Stopping → commands_return ct → can_end (mkSys sh dt ct Top).
Proof.
  intros H Hd Hc. destruct (is_type (c_loop_ec ct) ErrorType.ConnectionError) eqn:Et.
  { eapply can_end_thread; [cbn [thread_step]; rewrite Et; reflexivity|]. by apply finish_ends. }
  destruct (run_ok_events _ _ _ Top _ (call_plugins (s_crateId cfg) (in_moments i) (d_plugins dt)) H) as (r & w' & E & H'); [done|by apply appends_calls|done|].
  eapply can_end_thread; [cbn [thread_step]; rewrite Et, E; reflexivity|]. apply (run_ok_plugins _ _ _ _ r.2) in H'. destruct r.1; [by apply finish_ends|].
  eapply can_end_thread; [reflexivity|]. by apply check_running_ends.
Qed.

Lemma ending_can_end s : ending s → can_end s.
Proof.
  destruct s as [sh dt ct k]. unfold ending. cbn [s_pc s_data s_shared s_control]. intros [H Hk].
  destruct k as [| | |ph r|ph a r res| | |st| |st|st|st|next| | | | | | | |st k|st k| |]; try done.
  - destruct ph; try done. by apply commands_end.
  - destruct ph, res; try done. by apply reader_ends.
  - destruct Hk as [Hd Hc]. by apply top_ends.
  - destruct Hk as [Hd Hc]. eapply can_end_thread; [reflexivity|]. by apply check_running_ends.
  - destruct Hk as [Hd Hc]. by apply check_running_ends.
  - destruct Hk as [Hd Hc]. by apply check_pause_ends.
  - destruct Hk as [Hd Hc]. by apply check_resume_ends.
  - destruct Hk as [Hd Hc]. by apply check_stop_ends.
  - by apply stop_plugins_end.
  - by apply final_flush_ends.
  - by apply put_back_ends.
  - by apply sentinel_ends.
  - by eapply join_writer_ends.
  - by apply check_buffers_end.
  - destruct st, k as [| | |[] []| | | | | | | | | | | | | | | | | | | |]; try done.
    + do 2 (eapply can_end_thread; [reflexivity|]). eexists. split; [apply leads_refl|done].
    + do 2 (eapply can_end_thread; [reflexivity|]). by apply commands_end.
  - destruct st, k as [| | |[] []| | | | | | | | | | | | | | | | | | | |]; try done.
    + eapply can_end_thread; [reflexivity|]. eexists. split; [apply leads_refl|done].
    + eapply can_end_thread; [reflexivity|]. by apply commands_end.
  - eexists. split; [apply leads_refl|done].
Qed.

(** The threads stay on this way. *)
Lemma ending_thread s s' : ending s → thread_step cfg i s = Some s' → ending s'.
Proof.
  intros [H Hk] E. assert (Hin : input_ok i) by (split; [by rewrite Hreads|done]).
  assert (Hne : s_pc s ≠ DoReadout) by (intros Ek; by rewrite Ek in Hk). split; [by eapply thread_other_ok|].
  destruct s as [sh dt ct k]. cbn [s_pc s_data s_shared s_control] in *.
  destruct k as [| | |ph r|ph a r res| | |st| |st|st|st|next| | | | | | | |st k|st k| |]; cbn [thread_step] in E; try done.
  - destruct ph; try done. destruct Hk as (ec & d & Ec). cbn [phase_commands] in E. rewrite Ec in E. injection E as <-. cbn. by destruct (failed ec).
  - destruct ph, res; try done. destruct r; try done. by injection E as <-.
  - destruct (is_type _ _); [injection E as <-; by destruct Hk|]. destruct (with_output _ _) as [[r w']| | |]; try done; injection E as <-; cbn; destruct Hk; [by destruct r.1|done].
  - by injection E as <-.
  - destruct Hk as [Hd Hc]. rewrite Hd, bool_decide_false in E by (by intros [_ ?]). by injection E as <-.
  - destruct Hk as [Hd Hc]. rewrite Hd, bool_decide_false in E by (by intros [_ ?]). by injection E as <-.
  - destruct Hk as [Hd Hc]. rewrite Hd, bool_decide_false in E by (by intros [_ ?]). by injection E as <-.
  - destruct Hk as [Hd Hc]. rewrite Hd, bool_decide_true in E by done. by injection E as <-.
  - destruct (run_ok_events _ _ _ FinalFlush _ (for_plugins (plugin_readoutStop (s_crateId cfg)) (in_moments i) (d_plugins dt)) H)
      as (ps & w' & Ew & _); [done|apply appends_for; intros; by apply appends_stop|done|]. rewrite Ew in E. by injection E as <-.
  - rewrite (proj1 (proj1 (open_writing _ _ _ _ H (or_introl eq_refl)))) in E. cbn [writer_reports_running] in E.
    destruct (flushCurrentOutputBuffer _) as [w'|e| |] eqn:Ef; try done; injection E as <-; [done|]. by destruct (flush_not_raise _ _ Ef).
  - by injection E as <-.
  - rewrite (proj1 (proj1 (open_writing _ _ _ _ H (or_intror eq_refl)))) in E. cbn [writer_reports_running] in E.
    destruct (put_sentinel _); [|done]. by injection E as <-.
  - case_bool_decide; [|done]. by injection E as <-.
  - by injection E as <-.
  - injection E as <-. by destruct st, k as [| | |[] []| | | | | | | | | | | | | | | | | | | |].
  - injection E as <-. by destruct st, k as [| | |[] []| | | | | | | | | | | | | | | | | | | |].
Qed.

Lemma ending_reader s s' : ending s → reader_step i s = Some s' → ending s'.
Proof.
  intros [H Hk] E. assert (Hin : input_ok i) by (split; [by rewrite Hreads|done]). split.
  - destruct (reader_step_ok before rcv i s s' H Hin E) as (m & _ & H'). replace (received m (reads_at (ReadData i) s)) with (@nil Z) in H'; [by rewrite app_nil_r in H'|].
    assert (Hn : reads_at (ReadData i) s = []) by (unfold reads_at; rewrite Hreads; by destruct (s_pc s) as [| | |? []|? ? [] ?| | | | | | | | | | | | | | | | | | |]).
    rewrite Hn. by destruct m.
  - clear H. destruct s as [sh dt ct k]. cbn [s_pc s_data s_shared s_control] in *. destruct k as [| | |ph r|ph a r res| | |st| |st|st|st|next| | | | | | | |st k|st k| |]; try done; cbn [reader_step] in E.
    + destruct ph; try done. destruct r; try done; [by injection E as <-|]. destruct (readout _ _) as [[[ec n] w']| | |]; try done. by injection E as <-.
    + destruct ph, res; try done. destruct r; try done; [by injection E as <-|]. destruct (readout _ _) as [[[ec n] w']| | |]; try done. by injection E as <-.
Qed.

Lemma writer_step_same (s s' : Sys (D := D) (W := W)) :
  writer_step s = Some s' → s_pc s' = s_pc s ∧ s_shared s' = s_shared s ∧ s_control s' = s_control s.
Proof.
  destruct s as [sh dt ct k]. unfold writer_step. cbv zeta. destruct (d_phase dt); try done; try (by intros [= <-]).
  destruct (dequeue _) as [[b|] fl]; [|done]. destruct (listfile_buffer_writer _ _); try done. by intros [= <-].
Qed.

Lemma ending_leads s s' : ending s → leads i s s' → ending s'.
Proof.
  intros H (acts & Ha & E). revert s H E. induction Ha as [|a acts Ha _ IH]; intros s H E; [by injection E as <-|]. cbn in E.
  destruct (act cfg a s) as [s1|] eqn:E1; [|done]. apply (IH s1); [|done]. destruct Ha as [->|[->| ->]]; cbn in E1.
  - by eapply ending_thread.
  - by eapply ending_reader.
  - destruct (writer_step_same s s1 E1) as (Hpc & Hsh & Hct). destruct H as [H Hk]. split; [by eapply writer_step_ok|]. by rewrite Hpc, Hsh, Hct.
Qed.
End Ending.

(** C11: a stop request ends the run, for a run as in the previous theorem (USB, the first run of
    a worker, a writer that has begun, a file that takes every write).  When the readout
    thread is at the top of its loop, a stop request is set and the commands that end the
    readout return, then, as long as only the threads run and no more data arrives: however they
    have been interleaved so far, they can go on to the end of the run, so that they never
    block each other.  At the end the worker is idle again, and the file holds everything received, in
    complete frames, but for the bytes kept at the end, which are an incomplete frame or none. *)
Theorem stop_request_ends_run t i0 d0 q (h : W) acts s0 s ec d i :
  from_option (λ q, Forall buf_ok (emptyBuffers q)) True q → wh_ok h → Forall action_ok acts →
  run cfg (run_begin t i0) (new_system USB d0 q (Some h)) = Some s0 → run cfg acts s0 = Some s →
  s_pc s = Top → sh_desired (s_shared s) = Stopping → in_reads i = [] → (∀ n, moment_ok (in_moments i n)) →
  terminateReadout (s_mcstDaqStart cfg) (s_mcstDaqStop cfg) (c_mvlc (s_control s)) = Done (ec, d) →
  ∀ s1, leads i s s1 →
  ∃ s' h' items ms, leads i s1 s' ∧ s_pc s' = Finished ∧ sh_state (s_shared s') = Idle
    ∧ lw_handle (d_writer (s_data s')) = Some h' ∧ wh_contents h' = wh_contents h ++ concat items.*2 ∧ Forall item_ok items
    ∧ data_of items ++ viewU8 (previousData (d_worker (s_data s'))) = concat (zip_with received ms (rounds acts s0))
    ∧ Forall2 (λ m reads, reads ≠ [] → m ≠ O) ms (rounds acts s0)
    ∧ (viewU8 (previousData (d_worker (s_data s'))) = [] ∨ cut (viewU8 (previousData (d_worker (s_data s'))))).
Proof.
  intros Hq Hok Ha E0 E Hk Hd Hr Hm Ec s1 Hl1. destruct (run_begin_ok t i0 d0 q h Hq Hok) as (s2 & E1 & _ & _ & H). rewrite E0 in E1. injection E1 as <-.
  destruct (acts_run_ok _ _ _ _ _ H Ha E) as (ms & Hms & H'). rewrite app_nil_l in H'.
  assert (He : ending (wh_contents h) (concat (zip_with received ms (rounds acts s0))) s) by (split; [exact H'|]; rewrite Hk; split; [done|by exists ec, d]).
  apply (ending_leads _ _ i Hr Hm _ _ He) in Hl1. destruct (ending_can_end _ _ i Hr Hm _ Hl1) as (s' & Hl & Hk' & Hst & h' & items & es & [_ _ _ (Hh & _) Hc Hi _ Hdat Hcut] & Hs).
  destruct Hs as (_ & Hf & _). rewrite Hf in Hc. cbn in Hc. rewrite app_nil_r in Hc. by exists s', h', items, ms.
Qed.

(** ** A writer that begins late *)

(** When the writer has not reported that it runs at the end of the run, it is not told to stop,
    and the readout thread waits for it for ever. *)
Definition waits_for_ever (s : Sys (D := D) (W := W)) : Prop :=
  s_pc s = JoinWriter ∧ filled (s_data s) = [] ∧ (d_phase (s_data s) = WriterCreated ∨ d_phase (s_data s) = WriterLoop).

Lemma waits_act a s s' : waits_for_ever s → act cfg a s = Some s' → waits_for_ever s'.
Proof.
  destruct s as [sh dt ct k]. unfold waits_for_ever, filled. cbn. intros (-> & Hf & Hp).
  assert (Hp' : d_phase dt ≠ WriterIdle) by (destruct Hp; congruence).
  destruct a as [i|i| |t| |c|n]; cbn [act thread_step reader_step launch]; try done.
  - by rewrite bool_decide_false.
  - unfold writer_step. cbv zeta. destruct Hp as [Hp|Hp]; rewrite Hp; [intros [= <-]; cbn; by auto|]. by rewrite Hf.
  - intros [= <-]. unfold start. case_bool_decide; cbn; auto.
  - destruct (check_call c _); intros [= <-]; cbn; auto.
  - destruct (sh_pending sh !! n); [|done]. intros [= <-]. cbn. auto.
Qed.

Lemma late_writer_blocks i s acts s' :
  s_pc s = FinalFlush → d_phase (s_data s) = WriterCreated → filled (s_data s) = [] →
  run cfg ([Thread i; Thread i; Thread i] ++ acts) s = Some s' → s_pc s' = JoinWriter.
Proof.
  destruct s as [sh dt ct k]. cbn [s_pc s_data]. intros -> Hp Hf. rewrite readout_run_app.
  assert (H3 : ∃ s3, run cfg [Thread i; Thread i; Thread i] (mkSys sh dt ct FinalFlush) = Some s3 ∧ waits_for_ever s3).
  { set (dt' := set_worker (maybePutBackSnoopBuffer (d_worker dt)) dt).
    assert (E1 : thread_step cfg i (mkSys sh dt ct FinalFlush) = Some (mkSys sh dt ct PutBack)) by (cbn [thread_step]; by rewrite Hp).
    assert (E3 : thread_step cfg i (mkSys sh dt' ct Sentinel) = Some (mkSys sh dt' ct JoinWriter)) by (cbn [thread_step dt' set_worker d_phase]; by rewrite Hp).
    exists (mkSys sh dt' ct JoinWriter). split.
    { assert (E2 : thread_step cfg i (mkSys sh dt ct PutBack) = Some (mkSys sh dt' ct Sentinel)) by reflexivity.
      cbn [run act]. rewrite E1. unfold mbind, option_bind. by rewrite E2, E3. }
    split_and!; [reflexivity| |by left]. unfold filled in *. cbn. unfold maybePutBackSnoopBuffer. destruct (outputBuffer (d_worker dt)) as [[[] b]|]; cbn; [done| |done].
    by destruct (snoop (d_worker dt)). }
  destruct H3 as (s3 & -> & H3). cbn [mbind option_bind]. revert s3 H3; induction acts as [|a acts IH]; intros s3 H3; cbn [run].
  - intros [= <-]. apply H3.
  - destruct (act cfg a s3) as [s4|] eqn:E; [|done]. apply IH. by eapply waits_act.
Qed.

(** ** Two requests at the same time *)

(** A pause and a stop request whose writes come in the wrong moment lead to the branch that
    is asserted not to be taken. *)
Lemma concurrent_requests_invalid_path i sh dt ct :
  sh_state sh = Running → sh_pending sh = [] →
  ∃ s', run cfg [Call CallPause; Call CallStop; Store 1; Thread i; Thread i; Thread i; Store 0] (mkSys sh dt ct (CheckRunning Running)) = Some s'
    ∧ s_pc s' = CheckStop Running ∧ sh_desired (s_shared s') ≠ Stopping.
Proof. destruct sh as [st de pe la pr]. cbn [sh_state sh_pending]. intros -> ->. eexists. split; [reflexivity|]. by split. Qed.
End Loop.

(** ** Witnesses: a run with the simulated controller *)

Lemma reset_ready {D} {HC : Connection D} {HK : Controller D} b m (d : Mvlc_t (D := D)) :
  ready b m (cmdApi d) → ready b m (cmdApi (resetStackErrorCounters d)).
Proof. intros (p & pk & sr & kr & [] & H). exists p, pk, sr, kr. split; [by constructor|done]. Qed.

Definition example_settings : Settings := mkSettings 1 [] empty_builder empty_builder.
Definition example_mvlc : Mvlc_t (D := Sim USB false) := mkMvlc (sim_api ∅ ∅) true true 0x5008 0x0040.
Definition example_input : Input (D := Sim USB false) := mkInput (λ _, mkMoment 7 1000 []) [] 4711 no_error 1000 example_mvlc.

(** Plugins, the start commands, the top of the loop, and a request to stop. *)
Definition example_run : list (action (D := Sim USB false)) :=
  let th := Thread example_input in [th; th; th; th; ReadData example_input; th; Call CallStop; Store 0].

Lemma example_input_ok : input_ok example_input.
Proof. split; [constructor|]. intros n. by vm_compute. Qed.

Lemma example_run_ok : Forall action_ok example_run.
Proof. repeat constructor; apply example_input_ok. Qed.

Lemma example_run_top :
  ∃ s0 s d, run example_settings (run_begin 0 example_input) (new_system USB example_mvlc None (Some (@nil Z))) = Some s0
    ∧ run example_settings example_run s0 = Some s ∧ s_pc s = Top ∧ sh_desired (s_shared s) = Stopping
    ∧ terminateReadout empty_builder empty_builder (c_mvlc (s_control s)) = Done (no_error, d).
Proof.
  destruct (daq_mode_write 0xF ∅ ∅ (resetStackErrorCounters example_mvlc)) as (d1 & E1 & Hd1); [split; lia|apply reset_ready, sim_ready|].
  destruct (daq_mode_write 0 ∅ _ d1 (conj (Z.le_refl 0) eq_refl) Hd1) as (d2 & E2 & _).
  assert (Ec : phase_commands example_settings FirstStart 4711 (resetStackErrorCounters example_mvlc) = Done (no_error, d1)) by exact E1.
  set (s0 := new_system USB example_mvlc None (Some [])). set (ct := mkControl (resetStackErrorCounters example_mvlc) no_error no_error None).
  assert (E3 : ∃ dt, run example_settings (run_begin 0 example_input ++ take 3 example_run) s0
    = Some (mkSys (mkShared Running Running [] false None) dt ct (RunCommands FirstStart RCheck))) by (eexists; reflexivity).
  destruct E3 as (dt & E3). rewrite readout_run_app in E3. destruct (run example_settings (run_begin 0 example_input) s0) as [s1|]; [|discriminate E3].
  assert (E4 : thread_step example_settings example_input (mkSys (mkShared Running Running [] false None) dt ct (RunCommands FirstStart RCheck))
    = Some (mkSys (mkShared Running Running [] false None) dt (set_mvlc d1 ct) (Join FirstStart Quit RCheck (inl no_error)))).
  { cbn [thread_step]. change (c_mvlc ct) with (resetStackErrorCounters example_mvlc). change (in_rnd example_input) with 4711. by rewrite Ec. }
  exists s1, (mkSys (mkShared Running Stopping [] false (Some no_error)) dt (set_mvlc d1 ct) Top), d2. split; [reflexivity|]. split; [|split_and!; [reflexivity..|exact E2]].
  change example_run with (take 3 example_run ++ drop 3 example_run). rewrite readout_run_app. cbn [mbind option_bind] in E3. rewrite E3.
  unfold mbind, option_bind. cbn [example_run drop run act]. rewrite E4. reflexivity.
Qed.

(** The output buffer holds the BeginRun event and nothing has been received yet. *)
Lemma readout_listfile_witness :
  ∃ s0 s, run example_settings (run_begin 0 example_input) (new_system USB example_mvlc None (Some (@nil Z))) = Some s0
    ∧ run example_settings example_run s0 = Some s
    ∧ ∃ h' items es ms, lw_handle (d_writer (s_data s)) = Some h'
      ∧ wh_contents h' ++ concat (viewU8 <$> filled (s_data s)) = [] ++ concat items.*2
      ∧ output_view (d_worker (s_data s)) = concat es
      ∧ data_of items ++ viewU8 (previousData (d_worker (s_data s))) = concat (zip_with received ms (rounds example_settings example_run s0)).
Proof.
  destruct example_run_top as (s0 & s & d & E0 & E & _). exists s0, s. split; [exact E0|]. split; [exact E|].
  assert (Hc : 0 ≤ s_crateId example_settings) by (unfold example_settings; cbn; lia).
  destruct (readout_listfile example_settings Hc 0 example_input example_mvlc None [] example_run s0 s)
    as (h' & items & es & ms & H1 & H2 & _ & H3 & _ & H4 & _); [exact I|exact I|apply example_run_ok|exact E0|exact E|].
  exists h', items, es, ms. exact (conj H1 (conj H2 (conj H3 H4))).
Defined.

Lemma stop_request_ends_run_witness :
  ∃ s0 s s' h', run example_settings (run_begin 0 example_input) (new_system USB example_mvlc None (Some (@nil Z))) = Some s0
    ∧ run example_settings example_run s0 = Some s
    ∧ leads example_settings example_input s s' ∧ s_pc s' = Finished ∧ sh_state (s_shared s') = Idle ∧ lw_handle (d_writer (s_data s')) = Some h'.
Proof.
  destruct example_run_top as (s0 & s & d & E0 & E & Hk & Hd & Ec). assert (Hc : 0 ≤ s_crateId example_settings) by (unfold example_settings; cbn; lia).
  destruct (stop_request_ends_run example_settings Hc 0 example_input example_mvlc None [] example_run s0 s no_error d example_input)
    with (s1 := s) as (s' & h' & items & ms & H1 & H2 & H3 & H4 & _); [exact I|exact I|apply example_run_ok|exact E0|exact E|exact Hk|exact Hd|reflexivity|apply example_input_ok|exact Ec|apply leads_refl|].
  exists s0, s, s', h'. exact (conj E0 (conj E (conj H1 (conj H2 (conj H3 H4))))).
Defined.
