(* ===== verification/EventBuilder.v ===== *)
(** * The event builder: [event_builder.h/.cc]

    Module data from several crates is buffered with its timestamps and assembled into
    events around the data of a main module.  The source keeps one vector per kind of
    counter; here the counters of a module are one record. *)

From S2P Require Import Prelude Effects Constants DataFilter.

(* event_builder.h:25-30 event_builder *)
Definition DefaultMatchWindow : Z * Z := (-8, 8).
Definition DefaultMemoryLimit : Z := 1024 * 1024 * 1024.
Definition TimestampMax : Z := 0x3fffffff.
Definition TimestampHalf : Z := TimestampMax ≫ 1.
Definition TimestampExtractionFailed : Z := 0xffffffff.

(** ** Timestamps *)

(** A negative index counts from the end of the data. *)
(* event_builder.cc:13-36 IndexedTimestampFilterExtractor *)
Definition IndexedTimestampFilterExtractor (filter : DataFilter) (wordIndex : Z) (matchChar : Ascii.ascii) (data : list Z) : Z :=
  let abs := if wordIndex <? 0 then zlen data + wordIndex else wordIndex in
  if (0 <=? abs) && (abs <? zlen data) then
    let v := default 0 (data !! Z.to_nat abs) in
    if matches filter v (-1) then extract (make_cache_entry filter matchChar) v else TimestampExtractionFailed
  else TimestampExtractionFailed.

(* event_builder.cc:37-53 TimestampFilterExtractor *)
Fixpoint TimestampFilterExtractor (filter : DataFilter) (matchChar : Ascii.ascii) (data : list Z) : Z :=
  match data with
  | [] => TimestampExtractionFailed
  | v :: data => if matches filter v (-1) then extract (make_cache_entry filter matchChar) v else TimestampFilterExtractor filter matchChar data
  end.

(* event_builder.h:68-74 InvalidTimestampExtractor *)
Definition InvalidTimestampExtractor (data : list Z) : Z := TimestampExtractionFailed.

(* event_builder.h:178-183 WindowMatch *)
Inductive WindowMatch : Type := too_old | in_window | too_new.
#[global] Instance WindowMatch_eq_dec : EqDecision WindowMatch.
Proof. solve_decision. Defined.

(** The difference of two timestamps, corrected for an overflow of the 30 bit counter. *)
(* event_builder.cc:102-111 timestamp_match *)
Definition timestamp_difference (tsMain tsModule : Z) : Z :=
  let diff := tsMain - tsModule in
  if Z.abs diff >? TimestampHalf then if diff <? 0 then diff + TimestampMax else diff - TimestampMax else diff.

(* event_builder.cc:98-127 timestamp_match *)
Definition timestamp_match (tsMain tsModule : Z) (matchWindow : Z * Z) : WindowMatch * Z :=
  let diff := timestamp_difference tsMain tsModule in
  if diff >=? 0
  then if diff >? - matchWindow.1 then (too_old, u32 (Z.abs diff)) else (in_window, u32 (Z.abs diff))
  else if - diff >? matchWindow.2 then (too_new, u32 (Z.abs diff)) else (in_window, u32 (Z.abs diff)).

(** ** Configuration *)

(* event_builder.h:79-86 CrateSetup *)
Record CrateSetup : Type := mkCrateSetup { moduleTimestampExtractors : list (list Z → Z); moduleMatchWindows : list (Z * Z) }.

(* event_builder.h:77-99 EventSetup *)
Record EventSetup : Type := mkEventSetup { es_enabled : bool; crateSetups : list CrateSetup; mainModule : Z * Z }.

(* event_builder.h:101-105 EventBuilderConfig *)
Record EventBuilderConfig : Type := mkConfig { cfg_setups : list EventSetup; cfg_memoryLimit : Z }.

(** ** State *)

(* event_builder.cc:62-71 ModuleEventStorage *)
Record ModuleEventStorage : Type := mkStorage { st_timestamp : Z; st_data : list Z }.
Definition usedMemory (e : ModuleEventStorage) : Z := zlen (st_data e) * 4.

(** What the builder keeps for one module of one event. *)
(* event_builder.cc:152-174 Private *)
Record ModuleState : Type := mkModule {
  m_buffer : list ModuleEventStorage;
  m_mem : Z;
  m_discarded : Z;
  m_empty : Z;
  m_invScore : Z;
  m_inputHits : Z;
  m_outputHits : Z;
  m_tooOld : Z;
  m_tooNew : Z
}.
Definition new_module : ModuleState := mkModule [] 0 0 0 0 0 0 0 0.

(** The entry of a module in the event that is being assembled; the pointer can be null. *)
(* mvlc_readout_parser.h:85-102 ModuleData *)
Record Assembled : Type := mkAssembled {
  as_data : option (list Z); as_prefixSize : Z; as_dynamicSize : Z; as_suffixSize : Z; as_hasDynamic : bool
}.
Definition no_data : Assembled := mkAssembled None 0 0 0 false.

(* event_builder.cc:84-94 module_data_from_event_storage *)
Definition module_data_from_event_storage (input : ModuleEventStorage) : Assembled :=
  mkAssembled (Some (st_data input)) 0 (u32 (zlen (st_data input))) 0 true.

(** One event: the table of linear module indexes and the modules in their linear order. *)
Record EventState : Type := mkEvent {
  ev_enabled : bool;
  ev_index : list (Z * Z);                          (* crate and module of each linear index *)
  ev_extractors : list (list Z → Z);
  ev_windows : list (Z * Z);
  ev_main : nat;
  ev_modules : list ModuleState
}.

(* event_builder.cc:73-78 PassthroughEventStorage *)
Record PassthroughEvent : Type := mkPassthrough { pt_crate : Z; pt_event : Z; pt_data : list (list Z) }.

(* event_builder.cc:129-176 Private *)
Record Builder : Type := mkBuilder {
  b_events : list EventState;
  b_memoryLimit : Z;
  b_systemEvents : list (Z * list Z);
  b_passThrough : list PassthroughEvent;
  b_maxUsedMemory : Z;
  b_assembly : list Assembled
}.
Definition set_events (es : list EventState) (b : Builder) : Builder :=
  mkBuilder es (b_memoryLimit b) (b_systemEvents b) (b_passThrough b) (b_maxUsedMemory b) (b_assembly b).
Definition set_modules (ms : list ModuleState) (e : EventState) : EventState :=
  mkEvent (ev_enabled e) (ev_index e) (ev_extractors e) (ev_windows e) (ev_main e) ms.

(** The first entry with the key, as it was entered in the table. *)
(* event_builder.cc:178-189 getLinearModuleIndex *)
Definition getLinearModuleIndex (e : EventState) (crateIndex moduleIndex : Z) : option nat :=
  fst <$> list_find (λ k, k = (crateIndex, moduleIndex)) (ev_index e).

(** ** Construction *)

(* event_builder.cc:309-321 EventBuilder *)
Definition crate_modules (crateIndex : Z) (c : CrateSetup) : list (Z * Z) :=
  (λ i, (crateIndex, Z.of_nat i)) <$> seq 0 (length (moduleTimestampExtractors c)).

(** One window per extractor; the access to a window that does not exist throws, and windows
    beyond the last extractor are not used. *)
(* event_builder.cc:309-321 EventBuilder *)
Definition crate_windows (c : CrateSetup) : outcome (list (Z * Z)) :=
  if (length (moduleMatchWindows c) <? length (moduleTimestampExtractors c))%nat then Throw (out_of_range)
  else Return (take (length (moduleTimestampExtractors c)) (moduleMatchWindows c)).

(* event_builder.cc:303-333 EventBuilder *)
Fixpoint event_windows (cs : list CrateSetup) : outcome (list (Z * Z)) :=
  match cs with [] => Return [] | c :: cs => w ← crate_windows c; ws ← event_windows cs; Return (w ++ ws) end.

(** An enabled event without its main module throws. *)
(* event_builder.cc:281-340 EventBuilder *)
Definition make_event (s : EventSetup) : outcome EventState :=
  if negb (es_enabled s) then Return (mkEvent false [] [] [] 0 [])
  else
    let index := concat (imap (λ i c, crate_modules (Z.of_nat i) c) (crateSetups s)) in
    windows ← event_windows (crateSetups s);
    let e := mkEvent true index (concat (moduleTimestampExtractors <$> crateSetups s)) windows 0 (replicate (length index) new_module) in
    match getLinearModuleIndex e (mainModule s).1 (mainModule s).2 with
    | None => Throw (out_of_range)
    | Some n => Return (mkEvent true (ev_index e) (ev_extractors e) (ev_windows e) n (ev_modules e))
    end.

Fixpoint make_events (ss : list EventSetup) : outcome (list EventState) :=
  match ss with [] => Return [] | s :: ss => e ← make_event s; es ← make_events ss; Return (e :: es) end.

(* event_builder.cc:259-341 EventBuilder *)
Definition make_builder (cfg : EventBuilderConfig) : outcome Builder :=
  es ← make_events (cfg_setups cfg); Return (mkBuilder es (cfg_memoryLimit cfg) [] [] 0 []).

(* event_builder.cc:356-361 isEnabledFor *)
Definition isEnabledFor (b : Builder) (eventIndex : Z) : bool :=
  if 0 <=? eventIndex then from_option ev_enabled false (b_events b !! Z.to_nat eventIndex) else false.

(* event_builder.cc:363-367 isEnabledForAnyEvent *)
Definition isEnabledForAnyEvent (b : Builder) : bool := existsb ev_enabled (b_events b).

(** ** Memory *)

(* event_builder.cc:205-213 getMemoryUsage *)
Definition getMemoryUsage (b : Builder) : Z :=
  foldl (λ a e, u64 (a + foldl (λ a m, u64 (a + m_mem m)) 0 (ev_modules e))) 0 (b_events b).

(* event_builder.cc:224-229 discardAllEventData *)
Definition discard_module (m : ModuleState) : ModuleState :=
  mkModule [] 0 (u64 (m_discarded m + zlen (m_buffer m))) (m_empty m) (m_invScore m) (m_inputHits m) (m_outputHits m) (m_tooOld m) (m_tooNew m).

(* event_builder.cc:217-236 discardAllEventData *)
Definition discardAllEventData (b : Builder) : Builder :=
  set_events ((λ e, set_modules (discard_module <$> ev_modules e) e) <$> b_events b) b.

(* event_builder.cc:238-257 resetCounters *)
Definition reset_module (m : ModuleState) : ModuleState := mkModule (m_buffer m) 0 0 0 0 0 0 0 0.
Definition resetCounters (b : Builder) : Builder :=
  let b := set_events ((λ e, set_modules (reset_module <$> ev_modules e) e) <$> b_events b) b in
  mkBuilder (b_events b) (b_memoryLimit b) (b_systemEvents b) (b_passThrough b) 0 (b_assembly b).

(* event_builder.cc:894-899 reset *)
Definition reset (b : Builder) : Builder := resetCounters (discardAllEventData b).

(** ** Recording *)

(* event_builder.cc:423-459 recordEventData *)
Definition record_data (extractor : list Z → Z) (data : list Z) (m : ModuleState) : ModuleState :=
  if zlen data =? 0
  then mkModule (m_buffer m) (m_mem m) (m_discarded m) (inc64 (m_empty m)) (m_invScore m) (inc64 (m_inputHits m)) (m_outputHits m) (m_tooOld m) (m_tooNew m)
  else
    let s := mkStorage (extractor data) data in
    mkModule (m_buffer m ++ [s]) (u64 (m_mem m + usedMemory s)) (m_discarded m) (m_empty m) (m_invScore m) (inc64 (m_inputHits m)) (m_outputHits m)
      (m_tooOld m) (m_tooNew m).

(** The data of the modules of a crate, in their order; a module that is not configured throws,
    with the data of the modules before it recorded. *)
(* event_builder.cc:416-460 recordEventData *)
Fixpoint record_modules (crateIndex moduleIndex : Z) (mds : list (list Z)) (e : EventState) : option exn * EventState :=
  match mds with
  | [] => (None, e)
  | data :: mds =>
      match getLinearModuleIndex e crateIndex moduleIndex with
      | None => (Some (out_of_range), e)
      | Some i =>
          let extractor := default InvalidTimestampExtractor (ev_extractors e !! i) in
          record_modules crateIndex (moduleIndex + 1) mds (set_modules (alter (record_data extractor data) i (ev_modules e)) e)
      end
  end.

(* event_builder.cc:369-472 recordEventData *)
Definition recordEventData (crateIndex eventIndex : Z) (mds : list (list Z)) (b : Builder) : option exn * Builder :=
  if negb (isEnabledFor b eventIndex)
  then (None, mkBuilder (b_events b) (b_memoryLimit b) (b_systemEvents b) (b_passThrough b ++ [mkPassthrough crateIndex eventIndex mds])
                (b_maxUsedMemory b) (b_assembly b))
  else
    let b := if getMemoryUsage b >=? b_memoryLimit b then discardAllEventData b else b in
    match b_events b !! Z.to_nat eventIndex with
    | None => (Some (out_of_range), b)
    | Some e =>
        let '(err, e) := record_modules crateIndex 0 mds e in
        let b := set_events (<[Z.to_nat eventIndex := e]> (b_events b)) b in
        match err with
        | Some x => (Some x, b)
        | None =>
            (None, mkBuilder (b_events b) (b_memoryLimit b) (b_systemEvents b) (b_passThrough b) (Z.max (b_maxUsedMemory b) (getMemoryUsage b)) (b_assembly b))
        end
    end.

(* event_builder.cc:474-484 recordSystemEvent *)
Definition recordSystemEvent (crateIndex : Z) (data : list Z) (b : Builder) : Builder :=
  mkBuilder (b_events b) (b_memoryLimit b) (b_systemEvents b ++ [(crateIndex, data)]) (b_passThrough b) (b_maxUsedMemory b) (b_assembly b).

(** Passed-through events do not count as data. *)
(* event_builder.cc:486-507 waitForData *)
Definition has_data (b : Builder) : bool :=
  negb (bool_decide (b_systemEvents b = []))
  || existsb (λ e, existsb (λ m, match m_buffer m with [] => false | _ => true end) (ev_modules e)) (b_events b).

(** ** Building *)

(** What the callbacks are given. *)
(* mvlc_readout_parser.h:155-171 ReadoutParserCallbacks *)
Inductive Output : Type :=
| SystemEventOut (crateIndex : Z) (data : list Z)
| EventDataOut (crateIndex eventIndex : Z) (modules : list Assembled).

Definition set_buffer (buf : list ModuleEventStorage) (m : ModuleState) : ModuleState :=
  mkModule buf (m_mem m) (m_discarded m) (m_empty m) (m_invScore m) (m_inputHits m) (m_outputHits m) (m_tooOld m) (m_tooNew m).

(* event_builder.cc:746-759 buildEvents *)
Definition count_discarded (e : ModuleEventStorage) (m : ModuleState) : ModuleState :=
  mkModule (m_buffer m) (u64 (m_mem m - usedMemory e)) (inc64 (m_discarded m)) (m_empty m) (m_invScore m) (m_inputHits m) (m_outputHits m)
    (inc64 (m_tooOld m)) (m_tooNew m).
(* event_builder.cc:761-770 buildEvents *)
Definition count_match (invscore : Z) (m : ModuleState) : ModuleState :=
  mkModule (m_buffer m) (m_mem m) (m_discarded m) (m_empty m) (u64 (m_invScore m + invscore)) (m_inputHits m) (m_outputHits m) (m_tooOld m) (m_tooNew m).
(* event_builder.cc:772-777 buildEvents *)
Definition count_tooNew (m : ModuleState) : ModuleState :=
  mkModule (m_buffer m) (m_mem m) (m_discarded m) (m_empty m) (m_invScore m) (m_inputHits m) (m_outputHits m) (m_tooOld m) (inc64 (m_tooNew m)).

(** An entry without a timestamp matches everything. *)
(* event_builder.cc:730-742 buildEvents *)
Definition match_entry (mainTs : Z) (window : Z * Z) (e : ModuleEventStorage) : WindowMatch * Z :=
  if negb (st_timestamp e =? TimestampExtractionFailed) then timestamp_match mainTs (st_timestamp e) window else (in_window, 0xffffffff).

(** The entries of a module that are too old are dropped; the first other one is used if it is
    in the window. *)
(* event_builder.cc:724-780 buildEvents *)
Fixpoint match_module (mainTs : Z) (window : Z * Z) (buf : list ModuleEventStorage) (m : ModuleState) : ModuleState * Assembled :=
  match buf with
  | [] => (set_buffer [] m, no_data)
  | e :: rest =>
      match match_entry mainTs window e with
      | (too_old, _) => match_module mainTs window rest (count_discarded e m)
      | (in_window, invscore) => (set_buffer buf (count_match invscore m), module_data_from_event_storage e)
      | (too_new, _) => (set_buffer buf (count_tooNew m), no_data)
      end
  end.

(** All modules of the event. *)
(* event_builder.cc:722-781 buildEvents *)
Definition match_modules (mainTs : Z) (windows : list (Z * Z)) (ms : list ModuleState) : list (ModuleState * Assembled) :=
  zip_with (λ w m, match_module mainTs w (m_buffer m) m) windows ms.

(** Data that was used is removed after the callback. *)
(* event_builder.cc:815-830 buildEvents *)
Definition pop_used (r : ModuleState * Assembled) : ModuleState :=
  let '(m, a) := r in
  match as_data a, m_buffer m with
  | Some _, e :: rest =>
      mkModule rest (u64 (m_mem m - usedMemory e)) (m_discarded m) (m_empty m) (m_invScore m) (m_inputHits m) (inc64 (m_outputHits m)) (m_tooOld m) (m_tooNew m)
  | _, _ => m
  end.

Definition buffer_empty (m : ModuleState) : bool := match m_buffer m with [] => true | _ => false end.

(** The loop over the entries of the main module.  The result has the events built, the
    modules and the event assembly. *)
(* event_builder.cc:714-832 buildEvents *)
Fixpoint build_loop (fuel : nat) (windows : list (Z * Z)) (main : nat) (flush : bool) (ms : list ModuleState) (assembly : list Assembled)
    : option (list (list Assembled) * list ModuleState * list Assembled) :=
  match fuel with
  | O => None
  | S fuel =>
      match m_buffer <$> ms !! main with
      | Some (e :: _) =>
          if flush || negb (existsb buffer_empty ms) then
            let results := match_modules (st_timestamp e) windows ms in
            let assembly := results.*2 in
            if negb flush && existsb (λ r, bool_decide (as_data r.2 = None) && buffer_empty r.1) results
            then Some ([], results.*1, assembly)
            else
              match build_loop fuel windows main flush (pop_used <$> results) assembly with
              | Some (out, ms, last) => Some (assembly :: out, ms, last)
              | None => None
              end
          else Some ([], ms, assembly)
      | _ => Some ([], ms, assembly)
      end
  end.

(* event_builder.cc:834-845 buildEvents *)
Definition flush_module (m : ModuleState) : ModuleState :=
  mkModule [] 0 (m_discarded m) (m_empty m) (m_invScore m) (m_inputHits m) (m_outputHits m) (m_tooOld m) (m_tooNew m).

Definition resize_assembly (n : nat) (a : list Assembled) : list Assembled := take n a ++ replicate (n - length a) no_data.

(** Each round of the loop removes an entry of the main module. *)
(* event_builder.cc:689-850 buildEvents *)
Definition build_event (eventIndex : Z) (flush : bool) (e : EventState) (assembly : list Assembled)
    : option (list Output * EventState * list Assembled) :=
  let assembly := resize_assembly (length (ev_modules e)) assembly in
  let fuel := S (length (from_option m_buffer [] (ev_modules e !! ev_main e))) in
  match build_loop fuel (ev_windows e) (ev_main e) flush (ev_modules e) assembly with
  | Some (out, ms, assembly) => Some (EventDataOut 0 eventIndex <$> out, set_modules (if flush then flush_module <$> ms else ms) e, assembly)
  | None => None
  end.

(** The data pointers of the entries are set, their other fields keep what they had. *)
(* event_builder.cc:523-546 buildEvents *)
Definition passthrough_assembly (data : list (list Z)) (assembly : list Assembled) : list Assembled :=
  zip_with (λ d a, mkAssembled (Some d) (as_prefixSize a) (as_dynamicSize a) (as_suffixSize a) (as_hasDynamic a))
    data (resize_assembly (length data) assembly).

(* event_builder.cc:523-546 buildEvents *)
Fixpoint pass_through (es : list PassthroughEvent) (assembly : list Assembled) : list Output * list Assembled :=
  match es with
  | [] => ([], assembly)
  | p :: es =>
      let assembly := passthrough_assembly (pt_data p) assembly in
      let '(out, assembly') := pass_through es assembly in
      (EventDataOut (pt_crate p) (pt_event p) assembly :: out, assembly')
  end.

(* event_builder.cc:549-558 buildEvents *)
Fixpoint build_all (eventIndex : Z) (flush : bool) (es : list EventState) (assembly : list Assembled) : option (list Output * list EventState * list Assembled) :=
  match es with
  | [] => Some ([], [], assembly)
  | e :: es =>
      if ev_enabled e then
        match build_event eventIndex flush e assembly with
        | Some (out1, e, assembly) =>
            match build_all (eventIndex + 1) flush es assembly with
            | Some (out2, es, assembly) => Some (out1 ++ out2, e :: es, assembly)
            | None => None
            end
        | None => None
        end
      else
        match build_all (eventIndex + 1) flush es assembly with
        | Some (out, es, assembly) => Some (out, e :: es, assembly)
        | None => None
        end
  end.

(** System events first, then events that are passed through, then the events that were built. *)
(* event_builder.cc:509-559 buildEvents *)
Definition buildEvents (flush : bool) (b : Builder) : option (list Output * Builder) :=
  let sys := (λ s, SystemEventOut s.1 s.2) <$> b_systemEvents b in
  let '(pass, assembly) := pass_through (b_passThrough b) (b_assembly b) in
  match build_all 0 flush (b_events b) assembly with
  | Some (out, es, assembly) => Some (sys ++ pass ++ out, mkBuilder es (b_memoryLimit b) [] [] (b_maxUsedMemory b) assembly)
  | None => None
  end.
