(* ===== verification/EventBuilderFacts.v ===== *)
(** * Properties of the event builder

    The loop ends, the counters and the memory account for every module event, events are
    built in the order of the data, and data that matches is assembled completely. *)

From S2P Require Import Prelude Effects Constants DataFilter EventBuilder.

(** ** Timestamps *)

(** The main module is never behind itself. *)
Lemma match_self ts w : (timestamp_match ts ts w).1 ≠ too_new.
Proof.
  unfold timestamp_match, timestamp_difference. rewrite Z.sub_diag. change (Z.abs 0 >? TimestampHalf) with false. change (0 >=? 0) with true. cbv iota. by destruct (0 >? - w.1).
Qed.

Lemma match_main e w : (match_entry (st_timestamp e) w e).1 ≠ too_new.
Proof. unfold match_entry. destruct (negb _); [apply match_self|done]. Qed.

(** A timestamp that could not be extracted is far behind every valid one. *)
Lemma match_failed_main ts w :
  0 ≤ ts ≤ TimestampMax → - 2 ^ 31 < w.1 → (timestamp_match TimestampExtractionFailed ts w).1 = too_old.
Proof.
  unfold timestamp_match, timestamp_difference, TimestampHalf, TimestampExtractionFailed, TimestampMax. intros Ht Hw.
  change (0x3fffffff ≫ 1) with 536870911. replace (Z.abs (0xffffffff - ts) >? 536870911) with true by lia.
  replace (0xffffffff - ts <? 0) with false by lia. replace (_ >=? 0) with true by lia. by replace (_ >? - w.1) with true by lia.
Qed.

(** What the window means.  The distance [d] of a timestamp from the one of the main module is
    the one of the two differences around the counter that is nearer to 0; data that comes
    before the main module has a negative distance.  The counter is taken to have a period of
    [TimestampMax] = 2^30 - 1, as in the source. *)
Definition distance (mainTs ts d : Z) : Prop :=
  2 * Z.abs d < TimestampMax ∧ (ts - mainTs = d ∨ ts - mainTs = d + TimestampMax ∨ ts - mainTs = d - TimestampMax).

(** Data belongs to an entry of the main module when its distance is in the window, both ends
    included, or when it has no timestamp. *)
Definition near (mainTs : Z) (w : Z * Z) (e : ModuleEventStorage) : Prop :=
  st_timestamp e = TimestampExtractionFailed ∨ ∃ d, distance mainTs (st_timestamp e) d ∧ w.1 ≤ d ≤ w.2.

Definition timed (e : ModuleEventStorage) : Prop := 0 ≤ st_timestamp e ≤ TimestampMax.
Definition timed_or_failed (e : ModuleEventStorage) : Prop := timed e ∨ st_timestamp e = TimestampExtractionFailed.
Definition around_zero (w : Z * Z) : Prop := w.1 ≤ 0 ≤ w.2.

Lemma distance_unique mainTs ts d1 d2 : distance mainTs ts d1 → distance mainTs ts d2 → d1 = d2.
Proof. unfold distance, TimestampMax. lia. Qed.

Lemma timestamp_difference_distance mainTs ts :
  0 ≤ mainTs ≤ TimestampMax → 0 ≤ ts ≤ TimestampMax → distance mainTs ts (- timestamp_difference mainTs ts).
Proof.
  unfold distance, timestamp_difference, TimestampHalf, TimestampMax. change (0x3fffffff ≫ 1) with 536870911. intros H1 H2.
  destruct (Z.gtb_spec (Z.abs (mainTs - ts)) 536870911); [|lia]. destruct (Z.ltb_spec (mainTs - ts) 0); lia.
Qed.

(** The code's test is this window. *)
Lemma match_entry_near mainTs w e :
  0 ≤ mainTs ≤ TimestampMax → around_zero w → timed_or_failed e → (match_entry mainTs w e).1 = in_window ↔ near mainTs w e.
Proof.
  unfold around_zero, match_entry, near. intros Hm Hw [Ht| ->]; [|naive_solver]. unfold timed in Ht.
  replace (st_timestamp e =? TimestampExtractionFailed) with false by (unfold TimestampMax, TimestampExtractionFailed in *; lia). cbn [negb].
  pose proof (timestamp_difference_distance mainTs (st_timestamp e) Hm Ht) as Hd. unfold timestamp_match. set (diff := timestamp_difference _ _) in *.
  assert (Hin : near mainTs w e ↔ w.1 ≤ - diff ≤ w.2).
  { split; [|intros ?; right; by exists (- diff)]. intros [Hf|(d & Hd' & ?)]; [unfold TimestampMax, TimestampExtractionFailed in *; lia|].
    by rewrite (distance_unique _ _ _ _ Hd Hd'). }
  unfold near in Hin. rewrite Hin. clear Hin Hd. clearbody diff.
  destruct (Z.geb_spec diff 0); [destruct (Z.gtb_spec diff (- w.1))|destruct (Z.gtb_spec (- diff) w.2)]; cbn; split; try done; lia.
Qed.

(** ** Accounting *)

Definition same64 (a b : Z) : Prop := (a - b) mod 2 ^ 64 = 0.

Lemma same64_u64 a b : same64 (u64 a) b ↔ same64 a b.
Proof. unfold same64, u64. by rewrite Zminus_mod_idemp_l. Qed.

Lemma same64_refl a : same64 a a.
Proof. unfold same64. by rewrite Z.sub_diag. Qed.

Lemma same64_trans a b c : same64 a b → same64 b c → same64 a c.
Proof. unfold same64. intros Hab Hbc. zlia. Qed.

Definition memory_of (buf : list ModuleEventStorage) : Z := foldr (λ e n, usedMemory e + n) 0 buf.

Lemma memory_of_app b1 b2 : memory_of (b1 ++ b2) = memory_of b1 + memory_of b2.
Proof. unfold memory_of. induction b1 as [|e b1 IH]; [done|]. cbn. rewrite IH. lia. Qed.

(** Every input of a module was empty, has been discarded or put out, or waits; the memory
    counter has the size of what waits. *)
Definition balanced (m : ModuleState) : Prop :=
  same64 (m_inputHits m) (m_empty m + m_discarded m + m_outputHits m + zlen (m_buffer m)) ∧ same64 (m_mem m) (memory_of (m_buffer m)).

Lemma balanced_new : balanced new_module.
Proof. by split. Qed.

Lemma balanced_discard m : balanced m → balanced (discard_module m).
Proof.
  intros [H1 H2]. split; cbn; [|done]. unfold same64, u64 in *. rewrite zlen_nil. zlia.
Qed.

Lemma balanced_reset m : m_buffer m = [] → balanced (reset_module m).
Proof. intros E. unfold balanced. cbn. rewrite E. by split. Qed.

Lemma balanced_record f data m : balanced m → balanced (record_data f data m).
Proof.
  intros [H1 H2]. unfold record_data. destruct (zlen data =? 0); split; cbn [m_inputHits m_empty m_discarded m_outputHits m_buffer m_mem];
    unfold same64, inc64, u64 in *; rewrite ?memory_of_app, ?zlen_app; [zlia|done|rewrite zlen_cons, zlen_nil; zlia|].
  cbn [memory_of foldr]. set (n := usedMemory _). clearbody n. zlia.
Qed.

(** What matching does to a module: entries that are too old are dropped and counted. *)
Lemma match_module_spec mainTs w buf : ∀ m,
  ∃ dropped, let r := match_module mainTs w buf m in
    buf = dropped ++ m_buffer r.1 ∧ Forall (λ e, (match_entry mainTs w e).1 = too_old) dropped
    ∧ r.2 = (match m_buffer r.1 with
             | e :: _ => if decide ((match_entry mainTs w e).1 = in_window) then module_data_from_event_storage e else no_data
             | [] => no_data
             end)
    ∧ match m_buffer r.1 with e :: _ => (match_entry mainTs w e).1 ≠ too_old | [] => True end
    ∧ m_inputHits r.1 = m_inputHits m ∧ m_empty r.1 = m_empty m ∧ m_outputHits r.1 = m_outputHits m
    ∧ same64 (m_discarded r.1) (m_discarded m + zlen dropped) ∧ same64 (m_mem r.1) (m_mem m - memory_of dropped).
Proof.
  induction buf as [|e buf IH]; intros m; cbn [match_module].
  { exists []. cbn. rewrite zlen_nil, Z.add_0_r, Z.sub_0_r. split_and!; try done; apply same64_refl. }
  destruct (match_entry mainTs w e) as [wm inv] eqn:E. destruct wm.
  - destruct (IH (count_discarded e m)) as (dropped & Hb & Hd & Ha & Hn & H1 & H2 & H3 & H4 & H5). exists (e :: dropped). cbv zeta in *.
    cbn [count_discarded m_inputHits m_empty m_outputHits m_discarded m_mem] in H1, H2, H3, H4, H5. split_and!; try done.
    + by rewrite Hb at 1.
    + constructor; [by rewrite E|done].
    + unfold same64, inc64, u64 in *. rewrite zlen_cons. zlia.
    + unfold same64, u64 in *. cbn [memory_of foldr]. fold (memory_of dropped). zlia.
  - exists []. cbn. rewrite E, zlen_nil, Z.add_0_r, Z.sub_0_r. split_and!; try done; apply same64_refl.
  - exists []. cbn. rewrite E, zlen_nil, Z.add_0_r, Z.sub_0_r. split_and!; try done; apply same64_refl.
Qed.

Lemma balanced_match mainTs w m : balanced m → balanced (match_module mainTs w (m_buffer m) m).1.
Proof.
  intros [H1 H2]. destruct (match_module_spec mainTs w (m_buffer m) m) as (dropped & Hb & _ & _ & _ & Hi & He & Ho & Hd & Hm). cbv zeta in *.
  set (m' := (match_module mainTs w (m_buffer m) m).1) in *. rewrite Hb in H1, H2. rewrite zlen_app in H1. rewrite memory_of_app in H2.
  split; rewrite ?Hi, ?He, ?Ho; unfold same64 in *; zlia.
Qed.

Lemma balanced_pop r : balanced r.1 → balanced (pop_used r).
Proof.
  destruct r as [m a]. cbn. intros H. destruct (as_data a); [|done]. destruct (m_buffer m) as [|e rest] eqn:E; [done|]. destruct H as [H1 H2].
  rewrite E in H1, H2. split; cbn in *; unfold same64, inc64, u64 in *; rewrite ?zlen_cons in *; zlia.
Qed.

Lemma Forall_zip_results mainTs windows ms :
  Forall balanced ms → Forall (λ r, balanced r.1) (match_modules mainTs windows ms).
Proof.
  intros H. unfold match_modules. revert windows; induction H as [|m ms Hm Hms IH]; intros [|w windows]; cbn; constructor; [by apply balanced_match|apply IH].
Qed.

Lemma build_loop_balanced fuel windows main flush : ∀ ms assembly out ms' last,
  Forall balanced ms → build_loop fuel windows main flush ms assembly = Some (out, ms', last) → Forall balanced ms'.
Proof.
  induction fuel as [|fuel IH]; intros ms assembly out ms' last H; cbn [build_loop]; [done|].
  destruct (m_buffer <$> ms !! main) as [[|e rest]|]; try (by intros [= <- <- <-]). destruct (flush || _); [|by intros [= <- <- <-]].
  pose proof (Forall_zip_results (st_timestamp e) windows ms H) as Hr. set (results := match_modules _ _ _) in *. destruct (negb flush && _).
  - intros [= <- <- <-]. by apply Forall_fmap.
  - destruct (build_loop fuel windows main flush (pop_used <$> results) results.*2) as [[[out1 ms1] last1]|] eqn:E; [|done]. intros [= <- <- <-].
    eapply IH; [|exact E]. apply Forall_fmap. eapply Forall_impl; [exact Hr|]. intros r. apply balanced_pop.
Qed.

(** ** The loop ends *)

(** One round takes at least one entry of the main module. *)
Lemma main_shrinks windows main ms m e rest :
  length windows = length ms → ms !! main = Some m → m_buffer m = e :: rest →
  ∃ m', (pop_used <$> match_modules (st_timestamp e) windows ms) !! main = Some m' ∧ (length (m_buffer m') < length (m_buffer m))%nat.
Proof.
  intros Hl Hm Hb. assert (Hw : ∃ w, windows !! main = Some w) by (apply lookup_lt_is_Some; rewrite Hl; by eapply lookup_lt_Some).
  destruct Hw as [w Hw]. rewrite list_lookup_fmap. unfold match_modules. rewrite lookup_zip_with, Hw, Hm. cbn [mbind option_bind fmap option_fmap option_map].
  eexists. split; [done|]. destruct (match_module_spec (st_timestamp e) w (m_buffer m) m) as (dropped & Hd & Hf & Ha & Hn & _). cbv zeta in *.
  destruct (match_module (st_timestamp e) w (m_buffer m) m) as [m1 a]. cbn [fst snd] in *. rewrite Hd, length_app. unfold pop_used.
  destruct dropped as [|d dropped].
  - rewrite Hb in Hd. destruct (m_buffer m1) as [|e1 rest1] eqn:E1; [done|]. injection Hd as <- ->. pose proof (match_main e w) as Hnew.
    destruct (match_entry (st_timestamp e) w e).1; [done| |done]. rewrite decide_True in Ha by done. subst a. cbn. lia.
  - destruct (as_data a); [|cbn; lia]. destruct (m_buffer m1) as [|e1 rest1] eqn:E1; cbn; rewrite ?E1; cbn; lia.
Qed.

Lemma length_results mainTs windows ms : length windows = length ms → length (match_modules mainTs windows ms) = length ms.
Proof. intros H. unfold match_modules. rewrite length_zip_with. lia. Qed.

Lemma build_loop_returns fuel windows main flush : ∀ ms assembly,
  length windows = length ms → (length (from_option m_buffer [] (ms !! main)) < fuel)%nat →
  ∃ out ms' last, build_loop fuel windows main flush ms assembly = Some (out, ms', last) ∧ length ms' = length ms.
Proof.
  induction fuel as [|fuel IH]; intros ms assembly Hl Hf; [lia|]. cbn [build_loop].
  destruct (ms !! main) as [m|] eqn:Em; [|by eexists _, _, _]. cbn in Hf |- *. destruct (m_buffer m) as [|e rest] eqn:Eb; [by eexists _, _, _|].
  destruct (flush || _); [|by eexists _, _, _]. pose proof (length_results (st_timestamp e) windows ms Hl) as Hr.
  destruct (main_shrinks windows main ms m e rest Hl Em Eb) as (m' & Em' & Hlt). set (results := match_modules _ _ _) in *.
  destruct (negb flush && _); [eexists _, _, _; split; [done|by rewrite length_fmap]|].
  destruct (IH (pop_used <$> results) results.*2) as (out & ms' & last & -> & Hl'); [by rewrite length_fmap, Hr|rewrite Em'; cbn; rewrite Eb in Hlt; cbn in *; lia|].
  eexists _, _, _. split; [done|]. by rewrite Hl', length_fmap.
Qed.

(** ** Executions *)

Inductive op : Type :=
| OpEvent (crateIndex eventIndex : Z) (mds : list (list Z))
| OpSystem (crateIndex : Z) (data : list Z)
| OpBuild (flush : bool)
| OpDiscard
| OpReset.

Definition step (o : op) (b : Builder) : option (list Output * Builder) :=
  match o with
  | OpEvent c e mds => Some ([], (recordEventData c e mds b).2)
  | OpSystem c data => Some ([], recordSystemEvent c data b)
  | OpBuild flush => buildEvents flush b
  | OpDiscard => Some ([], discardAllEventData b)
  | OpReset => Some ([], reset b)
  end.

Fixpoint run (ops : list op) (b : Builder) : option (list Output * Builder) :=
  match ops with
  | [] => Some ([], b)
  | o :: ops =>
      match step o b with
      | Some (out1, b) => match run ops b with Some (out2, b) => Some (out1 ++ out2, b) | None => None end
      | None => None
      end
  end.

(** As many windows as modules, and all modules balanced. *)
Definition event_ok (e : EventState) : Prop := length (ev_windows e) = length (ev_modules e) ∧ Forall balanced (ev_modules e).
Definition builder_ok (b : Builder) : Prop := Forall event_ok (b_events b).

Lemma event_ok_map f e : (∀ m, balanced m → balanced (f m)) → event_ok e → event_ok (set_modules (f <$> ev_modules e) e).
Proof.
  intros Hf [Hl Hb]. split; cbn; [by rewrite length_fmap|]. apply Forall_fmap. eapply Forall_impl; [exact Hb|]. exact Hf.
Qed.

Lemma record_crate_ok c mds : ∀ i e, event_ok e → event_ok (record_modules c i mds e).2.
Proof.
  induction mds as [|data mds IH]; intros i e H; cbn; [done|]. destruct (getLinearModuleIndex e c i) as [n|]; [|done]. apply IH.
  destruct H as [Hl Hb]. split; cbn; [by rewrite length_alter|]. apply Forall_alter; [done|]. intros m _ Hm. by apply balanced_record.
Qed.

Lemma discard_ok b : builder_ok b → builder_ok (discardAllEventData b).
Proof.
  intros H. unfold builder_ok. cbn. apply Forall_fmap. eapply Forall_impl; [exact H|]. intros e He. cbn. apply event_ok_map; [|done]. apply balanced_discard.
Qed.

Lemma reset_ok b : builder_ok b → builder_ok (reset b).
Proof.
  intros H. unfold builder_ok. cbn. rewrite !Forall_fmap. eapply Forall_impl; [exact H|]. intros e [Hl _]. cbn. split; cbn; [by rewrite !length_fmap|].
  rewrite !Forall_fmap. apply Forall_true. intros m. exact (balanced_reset (discard_module m) eq_refl).
Qed.

Lemma record_ok c i mds b : builder_ok b → builder_ok (recordEventData c i mds b).2.
Proof.
  intros H. unfold recordEventData. destruct (negb _); [done|]. set (b1 := if getMemoryUsage b >=? b_memoryLimit b then discardAllEventData b else b).
  assert (H1 : builder_ok b1) by (unfold b1; destruct (_ >=? _); [by apply discard_ok|done]). destruct (b_events b1 !! Z.to_nat i) as [e|] eqn:E; [|done].
  pose proof (record_crate_ok c mds 0 e (Forall_lookup_1 _ _ _ _ H1 E)) as He. destruct (record_modules c 0 mds e) as [err e']. cbn in He.
  assert (H2 : Forall event_ok (<[Z.to_nat i := e']> (b_events b1))) by (by apply Forall_insert). by destruct err.
Qed.

Lemma build_event_ok i e assembly :
  event_ok e → ∃ out e' assembly', build_event i false e assembly = Some (out, e', assembly') ∧ event_ok e'.
Proof.
  intros [Hl Hb]. unfold build_event.
  destruct (build_loop_returns (S (length (from_option m_buffer [] (ev_modules e !! ev_main e)))) (ev_windows e) (ev_main e) false (ev_modules e)
    (resize_assembly (length (ev_modules e)) assembly) Hl) as (out & ms' & last & E & Hl'); [lia|]. rewrite E.
  eexists _, _, _. split; [done|]. split; cbn; [lia|]. by eapply build_loop_balanced.
Qed.

Lemma build_all_ok es : ∀ i assembly, Forall event_ok es →
  ∃ out es' assembly', build_all i false es assembly = Some (out, es', assembly') ∧ Forall event_ok es'.
Proof.
  induction es as [|e es IH]; intros i assembly H; cbn [build_all]; [by eexists _, _, _|]. apply Forall_cons in H as [He Hes].
  destruct (ev_enabled e).
  - destruct (build_event_ok i e assembly He) as (out1 & e' & a1 & -> & He'). destruct (IH (i + 1) a1 Hes) as (out2 & es' & a2 & -> & Hes').
    eexists _, _, _. split; [done|]. by constructor.
  - destruct (IH (i + 1) assembly Hes) as (out2 & es' & a2 & -> & Hes'). eexists _, _, _. split; [done|]. by constructor.
Qed.

Lemma step_ok o b : builder_ok b → o ≠ OpBuild true → ∃ out b', step o b = Some (out, b') ∧ builder_ok b'.
Proof.
  intros H Ho. destruct o as [c i mds|c data|[]| |]; cbn [step].
  - eexists _, _. split; [reflexivity|]. by apply record_ok.
  - by eexists _, _.
  - done.
  - unfold buildEvents. destruct (pass_through _ _) as [pass assembly]. destruct (build_all_ok (b_events b) 0 assembly H) as (out & es & a & -> & Hes).
    eexists _, _. by split.
  - eexists _, _. split; [reflexivity|]. by apply discard_ok.
  - eexists _, _. split; [reflexivity|]. by apply reset_ok.
Qed.

Lemma crate_run_ok ops : ∀ b, builder_ok b → Forall (λ o, o ≠ OpBuild true) ops → ∃ out b', run ops b = Some (out, b') ∧ builder_ok b'.
Proof.
  induction ops as [|o ops IH]; intros b H Ho; cbn [run]; [by eexists _, _|]. apply Forall_cons in Ho as [Ho Hos].
  destruct (step_ok o b H Ho) as (out1 & b1 & -> & H1). destruct (IH b1 H1 Hos) as (out2 & b2 & -> & H2). by eexists _, _.
Qed.

(** ** A new builder *)

Lemma length_index cs : ∀ windows k,
  event_windows cs = Return windows → length windows = length (concat (imap (λ i c, crate_modules (Z.of_nat (k + i)) c) cs)).
Proof.
  induction cs as [|c cs IH]; intros windows k; cbn [event_windows]; [by intros [= <-]|]. unfold crate_windows. destruct (Nat.ltb_spec (length (moduleMatchWindows c))
    (length (moduleTimestampExtractors c))) as [|Hw]; [done|]. cbn. destruct (event_windows cs) as [ws| |]; [|done..]. intros [= <-].
  rewrite !length_app, length_take_le by done. f_equal.
  - unfold crate_modules. by rewrite length_fmap, length_seq.
  - rewrite (IH ws (S k) eq_refl). do 2 f_equal. apply imap_ext. intros i x _. cbn. f_equal. lia.
Qed.

Lemma make_event_ok s e : make_event s = Return e → event_ok e.
Proof.
  unfold make_event. destruct (negb _); [intros [= <-]; split; [done|constructor]|]. set (index := concat _).
  destruct (event_windows (crateSetups s)) as [windows| |] eqn:Ew; [|done..]. cbn -[getLinearModuleIndex].
  destruct (getLinearModuleIndex _ _ _); [|done]. intros [= <-]. split; cbn.
  - rewrite length_replicate. exact (length_index _ _ O Ew).
  - apply Forall_replicate, balanced_new.
Qed.

Lemma crate_builder_ok cfg b : make_builder cfg = Return b → builder_ok b.
Proof.
  unfold make_builder. destruct (make_events (cfg_setups cfg)) as [es| |] eqn:E; [|done..]. intros [= <-]. unfold builder_ok. cbn.
  revert es E. induction (cfg_setups cfg) as [|s ss IH]; intros es E; cbn in E; [by injection E as <-|].
  destruct (make_event s) as [e| |] eqn:E1; [|done..]. cbn in E. destruct (make_events ss) as [es1| |]; [|done..]. injection E as <-.
  constructor; [by eapply make_event_ok|by apply IH].
Qed.

(** The memory usage is the size of all data that waits. *)
Definition waiting_memory (b : Builder) : Z :=
  foldr (λ e n, foldr (λ m k, memory_of (m_buffer m) + k) 0 (ev_modules e) + n) 0 (b_events b).

Lemma event_memory ms : ∀ a, Forall balanced ms → same64 (foldl (λ a m, u64 (a + m_mem m)) a ms) (a + foldr (λ m k, memory_of (m_buffer m) + k) 0 ms).
Proof.
  induction ms as [|m ms IH]; intros a H; cbn; [rewrite Z.add_0_r; apply same64_refl|]. apply Forall_cons in H as [[_ Hm] Hms].
  eapply same64_trans; [by apply IH|]. unfold same64, u64 in *. zlia.
Qed.

Lemma memory_usage b : builder_ok b → same64 (getMemoryUsage b) (waiting_memory b).
Proof.
  unfold builder_ok, getMemoryUsage, waiting_memory. intros H.
  assert (Hg : ∀ a, same64 (foldl (λ a e, u64 (a + foldl (λ a m, u64 (a + m_mem m)) 0 (ev_modules e))) a (b_events b))
    (a + foldr (λ e n, foldr (λ m k, memory_of (m_buffer m) + k) 0 (ev_modules e) + n) 0 (b_events b))).
  { induction H as [|e es [_ He] Hes IH]; intros a; cbn; [rewrite Z.add_0_r; apply same64_refl|]. eapply same64_trans; [apply IH|].
    pose proof (event_memory (ev_modules e) 0 He) as Hm. unfold same64, u64 in *. zlia. }
  exact (Hg 0).
Qed.

(** C30: the accounting of the event builder.  For any sequence of recorded events, system events,
    attempts to build, discards and resets (without a flush): every call returns; for every
    module the inputs are the empty ones, those discarded, those put out and those
    that wait, and the memory usage is the size of the data that waits, all modulo 2^64. *)
Theorem builder_accounts cfg b ops :
  make_builder cfg = Return b → Forall (λ o, o ≠ OpBuild true) ops →
  ∃ out b', run ops b = Some (out, b') ∧ same64 (getMemoryUsage b') (waiting_memory b')
    ∧ ∀ i e j m, b_events b' !! i = Some e → ev_modules e !! j = Some m →
        same64 (m_inputHits m) (m_empty m + m_discarded m + m_outputHits m + zlen (m_buffer m)).
Proof.
  intros Hb Ho. destruct (crate_run_ok ops b (crate_builder_ok cfg b Hb) Ho) as (out & b' & E & H). exists out, b'. split; [done|]. split; [by apply memory_usage|].
  intros i e j m He Hm. destruct (Forall_lookup_1 _ _ _ _ H He) as [_ Hbal]. by destruct (Forall_lookup_1 _ _ _ _ Hbal Hm).
Qed.

(** ** The order of the data *)

(** The data of one module in the events that were built. *)
Definition picked (j : nat) (out : list (list Assembled)) : list (list Z) := omap (λ row, row !! j ≫= as_data) out.

Lemma match_picks mainTs w m :
  let r := match_module mainTs w (m_buffer m) m in
  ∃ dropped used, m_buffer m = dropped ++ m_buffer r.1 ∧ m_buffer r.1 = used ++ m_buffer (pop_used r) ∧ option_list (as_data r.2) = st_data <$> used
    ∧ Forall (λ e, (match_entry mainTs w e).1 = too_old) dropped ∧ Forall (λ e, (match_entry mainTs w e).1 = in_window) used.
Proof.
  cbv zeta. destruct (match_module_spec mainTs w (m_buffer m) m) as (dropped & Hb & Hd & Ha & _). cbv zeta in *.
  destruct (match_module mainTs w (m_buffer m) m) as [m1 a]. cbn [fst snd] in *. unfold pop_used. subst a.
  exists dropped. destruct (m_buffer m1) as [|e rest] eqn:E1; [exists []; cbn; rewrite E1; by split_and!|].
  destruct (decide _) as [Hw|Hw]; cbn.
  - exists [e]. split_and!; [done|done|done|done|by repeat constructor].
  - exists []. rewrite E1. by split_and!.
Qed.

(** Each round uses the timestamp of an entry of the main module, and only data in the window. *)
Definition row_ok (windows : list (Z * Z)) (ms : list ModuleState) (main : nat) (row : list Assembled) : Prop :=
  ∃ m0 e0, ms !! main = Some m0 ∧ e0 ∈ m_buffer m0 ∧
    ∀ j d, row !! j ≫= as_data = Some d →
      ∃ m w e, ms !! j = Some m ∧ windows !! j = Some w ∧ e ∈ m_buffer m ∧ st_data e = d ∧ (match_entry (st_timestamp e0) w e).1 = in_window.

Lemma results_lookup mainTs windows ms j r :
  match_modules mainTs windows ms !! j = Some r →
  ∃ w m, windows !! j = Some w ∧ ms !! j = Some m ∧ r = match_module mainTs w (m_buffer m) m.
Proof. unfold match_modules. rewrite lookup_zip_with_Some. intros (w & m & -> & Hw & Hm). by exists w, m. Qed.

Lemma build_loop_order fuel windows main flush : ∀ ms assembly out ms' last j m m',
  length windows = length ms → build_loop fuel windows main flush ms assembly = Some (out, ms', last) → ms !! j = Some m → ms' !! j = Some m' →
  sublist (picked j out ++ (st_data <$> m_buffer m')) (st_data <$> m_buffer m).
Proof.
  induction fuel as [|fuel IH]; intros ms assembly out ms' last j m m' Hl; cbn [build_loop]; [done|].
  assert (Hsame : ms !! j = Some m → ms !! j = Some m' → sublist (picked j [] ++ (st_data <$> m_buffer m')) (st_data <$> m_buffer m)) by (intros -> [= <-]; done).
  destruct (m_buffer <$> ms !! main) as [[|e rest]|]; try (intros [= <- <- <-]; exact Hsame). destruct (flush || _); [|intros [= <- <- <-]; exact Hsame].
  set (results := match_modules (st_timestamp e) windows ms).
  intros H Hm Hm'. pose proof (length_results (st_timestamp e) windows ms Hl) as Hlr. fold results in Hlr.
  assert (Hr : is_Some (results !! j)) by (apply lookup_lt_is_Some; rewrite Hlr; by eapply lookup_lt_Some). destruct Hr as [r Er].
  destruct (results_lookup _ _ _ _ _ Er) as (w & m1 & _ & Hm1 & Hr). rewrite Hm in Hm1. injection Hm1 as <-.
  destruct (match_picks (st_timestamp e) w m) as (dropped & used & Hb & Hu & Hp & _). rewrite <- Hr in *. rewrite Hb, fmap_app. apply sublist_inserts_l.
  destruct (negb flush && _).
  - injection H as <- <- <-. rewrite list_lookup_fmap, Er in Hm'. injection Hm' as <-. done.
  - destruct (build_loop fuel windows main flush (pop_used <$> results) results.*2) as [[[out1 ms1] last1]|] eqn:E; [|done]. injection H as <- <- <-.
    rewrite Hu, fmap_app, <- Hp. eapply IH in E; [|by rewrite length_fmap, Hlr|by rewrite list_lookup_fmap, Er|exact Hm'].
    assert (Hpick : picked j (results.*2 :: out1) = option_list (as_data r.2) ++ picked j out1).
    { unfold picked. cbn. rewrite list_lookup_fmap, Er. cbn. by destruct (as_data r.2). }
    rewrite Hpick, <- app_assoc. by apply sublist_app.
Qed.

Lemma build_loop_rows fuel windows main flush : ∀ ms assembly out ms' last,
  length windows = length ms → build_loop fuel windows main flush ms assembly = Some (out, ms', last) → Forall (row_ok windows ms main) out.
Proof.
  induction fuel as [|fuel IH]; intros ms assembly out ms' last Hl; cbn [build_loop]; [done|].
  destruct (ms !! main) as [m0|] eqn:Em0; cbn [fmap option_fmap option_map]; [|by intros [= <- <- <-]].
  destruct (m_buffer m0) as [|e rest] eqn:Eb; [by intros [= <- <- <-]|]. destruct (flush || _); [|by intros [= <- <- <-]].
  pose proof (length_results (st_timestamp e) windows ms Hl) as Hlr. set (results := match_modules (st_timestamp e) windows ms) in *.
  destruct (negb flush && _); [by intros [= <- <- <-]|].
  destruct (build_loop fuel windows main flush (pop_used <$> results) results.*2) as [[[out1 ms1] last1]|] eqn:E; [|done]. intros [= <- <- <-].
  assert (Hres : ∀ j r, results !! j = Some r → ∃ w m, windows !! j = Some w ∧ ms !! j = Some m
    ∧ (∀ x, x ∈ m_buffer (pop_used r) → x ∈ m_buffer m) ∧ ∀ d, as_data r.2 = Some d → ∃ x, x ∈ m_buffer m ∧ st_data x = d ∧ (match_entry (st_timestamp e) w x).1 = in_window).
  { intros j r Hr. destruct (results_lookup _ _ _ _ _ Hr) as (w & m & Hw & Hm & ->). exists w, m. split; [done|]. split; [done|].
    destruct (match_picks (st_timestamp e) w m) as (dropped & used & Hb & Hu & Hp & _ & Hin). split.
    - intros x Hx. rewrite Hb, Hu. set_solver.
    - intros d Hd. rewrite Hd in Hp. destruct used as [|x used]; [done|]. injection Hp as Hp _. exists x. split; [rewrite Hb, Hu; set_solver|].
      split; [done|]. by apply Forall_cons in Hin as [? _]. }
  constructor.
  - exists m0, e. split; [done|]. split; [rewrite Eb; set_solver|]. intros j d. rewrite list_lookup_fmap. destruct (results !! j) as [r|] eqn:Er; [|done]. cbn.
    intros Hd. destruct (Hres j r Er) as (w & m & Hw & Hm & _ & Hx). destruct (Hx d Hd) as (x & ? & ? & ?). by exists m, w, x.
  - eapply Forall_impl; [eapply IH; [|exact E]; by rewrite length_fmap, Hlr|]. intros row (m1 & e1 & Hm1 & He1 & Hrow).
    rewrite list_lookup_fmap_Some in Hm1. destruct Hm1 as (r1 & -> & Hr1). destruct (Hres main r1 Hr1) as (w1 & m1 & _ & Hm1 & Hin1 & _).
    exists m1, e1. split; [done|]. split; [by apply Hin1|]. intros j d Hd. destruct (Hrow j d Hd) as (m & w & x & Hm & Hw & Hx & Hxd & Hwin).
    rewrite list_lookup_fmap_Some in Hm. destruct Hm as (r & -> & Hr). destruct (Hres j r Hr) as (w' & m' & Hw' & Hm' & Hin & _).
    exists m', w, x. split_and!; try done. by apply Hin.
Qed.

(** What is put out.  Building the events of one event index returns; each event it puts out
    belongs to an entry of the main module and contains only data whose timestamp is in the
    window around that entry (or that has no timestamp); and for each module the data put
    out, followed by the data that still waits, keeps the order of the recorded data. *)
Theorem built_in_order i flush e assembly :
  length (ev_windows e) = length (ev_modules e) →
  ∃ out e' last, build_event i flush e assembly = Some (EventDataOut 0 i <$> out, e', last)
    ∧ Forall (row_ok (ev_windows e) (ev_modules e) (ev_main e)) out
    ∧ ∀ j m m', ev_modules e !! j = Some m → ev_modules e' !! j = Some m' → sublist (picked j out ++ (st_data <$> m_buffer m')) (st_data <$> m_buffer m).
Proof.
  intros Hl. unfold build_event.
  destruct (build_loop_returns (S (length (from_option m_buffer [] (ev_modules e !! ev_main e)))) (ev_windows e) (ev_main e) flush (ev_modules e)
    (resize_assembly (length (ev_modules e)) assembly) Hl) as (out & ms' & last & E & _); [lia|]. rewrite E. eexists out, _, last. split; [done|].
  split; [by eapply build_loop_rows|]. intros j m m' Hm Hm'. cbn in Hm'. destruct flush; [|by eapply build_loop_order].
  rewrite list_lookup_fmap_Some in Hm'. destruct Hm' as (m1 & -> & Hm1). cbn. rewrite app_nil_r.
  etransitivity; [|by eapply build_loop_order]. apply sublist_inserts_r. done.
Qed.

(** ** Data that matches *)

(** The buffers of the modules, read across. *)
Definition columns (rows : list (list ModuleEventStorage)) (ms : list ModuleState) : Prop :=
  ∀ j m, ms !! j = Some m → Forall2 (λ row e, row !! j = Some e) rows (m_buffer m).

(** One entry per module, all in the window of the entry of the main module. *)
Definition row_matches (windows : list (Z * Z)) (main : nat) (row : list ModuleEventStorage) : Prop :=
  length row = length windows ∧ ∃ e0, row !! main = Some e0 ∧
    ∀ j w e, windows !! j = Some w → row !! j = Some e → (match_entry (st_timestamp e0) w e).1 = in_window.

(** The same with the meaning of the windows. *)
Definition row_near (windows : list (Z * Z)) (main : nat) (row : list ModuleEventStorage) : Prop :=
  length row = length windows ∧ ∃ e0, row !! main = Some e0 ∧
    ∀ j w e, windows !! j = Some w → row !! j = Some e → near (st_timestamp e0) w e.

(** A row that was put out has the place of an entry of the main module; what it has of any module
    is a recorded entry of that module near it. *)
Definition built_near (windows : list (Z * Z)) (ms : list ModuleState) (main : nat) (row : list Assembled) : Prop :=
  ∃ m0 e0, ms !! main = Some m0 ∧ e0 ∈ m_buffer m0 ∧
    ∀ j d, row !! j ≫= as_data = Some d →
      ∃ m w e, ms !! j = Some m ∧ windows !! j = Some w ∧ e ∈ m_buffer m ∧ st_data e = d ∧ near (st_timestamp e0) w e.

(** The timestamps of an event: the main module has one for each entry. *)
Definition timestamps_ok (main : nat) (ms : list ModuleState) : Prop :=
  Forall (λ m, Forall timed_or_failed (m_buffer m)) ms ∧ ∀ m, ms !! main = Some m → Forall timed (m_buffer m).

Lemma row_ok_near windows ms main row :
  Forall around_zero windows → timestamps_ok main ms → row_ok windows ms main row → built_near windows ms main row.
Proof.
  intros Hw [Ht Hm] (m0 & e0 & Hm0 & He0 & Hrow). exists m0, e0. split; [done|]. split; [done|]. intros j d Hd.
  destruct (Hrow j d Hd) as (m & w & e & Hmj & Hwj & He & Hde & Hin). exists m, w, e. split_and!; try done. apply match_entry_near in Hin; [done| | |].
  - exact (proj1 (Forall_forall _ _) (Hm _ Hm0) _ He0).
  - by eapply Forall_lookup_1.
  - exact (proj1 (Forall_forall _ _) (Forall_lookup_1 _ _ _ _ Ht Hmj) _ He).
Qed.

Lemma row_near_matches windows ms main rows :
  Forall around_zero windows → length windows = length ms → (main < length ms)%nat → timestamps_ok main ms → columns rows ms →
  Forall (row_near windows main) rows → Forall (row_matches windows main) rows.
Proof.
  intros Hw Hl Hmain [Ht Hm] Hc Hr. assert (Hin : ∀ j m row e, ms !! j = Some m → row ∈ rows → row !! j = Some e → e ∈ m_buffer m).
  { intros j m row e Hj Hrow He. apply list_elem_of_lookup in Hrow as (k & Hk). destruct (Forall2_lookup_l _ _ _ _ _ (Hc _ _ Hj) Hk) as (e' & He' & Hre).
    rewrite He in Hre. injection Hre as <-. by eapply list_elem_of_lookup_2. }
  apply Forall_forall. intros row Hrow. destruct (proj1 (Forall_forall _ _) Hr _ Hrow) as (Hlr & e0 & He0 & Hn). split; [done|].
  exists e0. split; [done|]. intros j w e Hj He. destruct (lookup_lt_is_Some_2 ms main Hmain) as [m0 Hm0].
  assert (is_Some (ms !! j)) as [m Hmj] by (apply lookup_lt_is_Some; rewrite <- Hl; by eapply lookup_lt_Some).
  apply match_entry_near; [| | |by eapply Hn].
  - refine (proj1 (Forall_forall _ _) (Hm _ Hm0) e0 _). by eapply Hin.
  - by eapply Forall_lookup_1.
  - refine (proj1 (Forall_forall _ _) (Forall_lookup_1 _ _ _ _ Ht Hmj) e _). by eapply Hin.
Qed.

Definition full_row (row : list ModuleEventStorage) : list Assembled := module_data_from_event_storage <$> row.

Lemma match_first mainTs w m e rest :
  m_buffer m = e :: rest → (match_entry mainTs w e).1 = in_window →
  let r := match_module mainTs w (m_buffer m) m in
  r.2 = module_data_from_event_storage e ∧ m_buffer r.1 = e :: rest ∧ m_buffer (pop_used r) = rest.
Proof. intros -> Hw. cbn. destruct (match_entry mainTs w e) as [wm inv]. cbn in Hw. by subst wm. Qed.

Lemma build_loop_rows_complete rows : ∀ fuel windows main flush ms assembly,
  length windows = length ms → (main < length ms)%nat → (length rows < fuel)%nat → columns rows ms → Forall (row_matches windows main) rows →
  ∃ ms' last, build_loop fuel windows main flush ms assembly = Some (full_row <$> rows, ms', last)
    ∧ length ms' = length ms ∧ Forall (λ m, m_buffer m = []) ms'.
Proof.
  induction rows as [|row rows IH]; intros fuel windows main flush ms assembly Hl Hmain Hf Hc Hr; (destruct fuel as [|fuel]; [cbn in Hf; lia|]); cbn [build_loop];
    destruct (lookup_lt_is_Some_2 ms main Hmain) as [m0 Hm0]; rewrite Hm0; cbn [fmap option_fmap option_map].
  - pose proof (Hc _ _ Hm0) as H0. apply Forall2_nil_inv_l in H0. rewrite H0. exists ms, assembly. split_and!; [done|done|].
    apply Forall_lookup. intros j m Hm. by apply (Forall2_nil_inv_l _ _ (Hc _ _ Hm)).
  - apply Forall_cons in Hr as [[Hlr (e0 & He0 & Hmatch)] Hr]. pose proof (Hc _ _ Hm0) as H0. apply Forall2_cons_inv_l in H0 as (e & rest & He & _ & Hb).
    rewrite He0 in He. injection He as <-. rewrite Hb.
    assert (Hne : existsb buffer_empty ms = false).
    { apply not_true_is_false. intros (m & Hin & Hm)%existsb_exists. apply list_elem_of_In, list_elem_of_lookup in Hin as (j & Hj).
      destruct (Forall2_cons_inv_l _ _ _ _ (Hc _ _ Hj)) as (x & xs & _ & _ & Ex). unfold buffer_empty in Hm. by rewrite Ex in Hm. }
    rewrite Hne, orb_true_r. cbn [negb]. set (results := match_modules (st_timestamp e0) windows ms).
    assert (Hlres : length results = length ms) by (by apply length_results).
    assert (Hres : ∀ j r, results !! j = Some r → ∃ x rest m, row !! j = Some x ∧ ms !! j = Some m ∧ m_buffer m = x :: rest
      ∧ r.2 = module_data_from_event_storage x ∧ m_buffer r.1 = x :: rest ∧ m_buffer (pop_used r) = rest).
    { intros j r Hj. destruct (results_lookup _ _ _ _ _ Hj) as (w & m & Hw & Hm & ->). destruct (Forall2_cons_inv_l _ _ _ _ (Hc _ _ Hm)) as (x & xs & Hx & _ & Ex).
      exists x, xs, m. split; [done|]. split; [done|]. split; [done|]. apply match_first; [done|]. by eapply Hmatch. }
    assert (Hassembly : results.*2 = full_row row).
    { unfold full_row. apply list_eq_same_length with (length ms); [rewrite length_fmap; lia|by rewrite length_fmap|]. intros j a1 a2 _ H1 H2.
      rewrite list_lookup_fmap_Some in H1. destruct H1 as (r & -> & Hj). destruct (Hres j r Hj) as (x & xs & m & Hx & _ & _ & Ha & _).
      rewrite list_lookup_fmap, Hx in H2. injection H2 as <-. done. }
    replace (negb flush && existsb _ results) with false.
    2: { symmetry. apply andb_false_intro2, not_true_is_false. intros (r & Hin & Hd)%existsb_exists. apply list_elem_of_In, list_elem_of_lookup in Hin as (j & Hj).
         destruct (Hres j r Hj) as (x & xs & m & _ & _ & _ & Ha & _). by rewrite Ha in Hd. }
    destruct (IH fuel windows main flush (pop_used <$> results) results.*2) as (ms' & last & -> & Hlm & Hend).
    + by rewrite length_fmap, Hlres.
    + by rewrite length_fmap, Hlres.
    + cbn in Hf. lia.
    + intros j m' Hm'. rewrite list_lookup_fmap_Some in Hm'. destruct Hm' as (r & -> & Hj). destruct (Hres j r Hj) as (x & xs & m & Hx & Hm & Hbm & _ & _ & ->).
      pose proof (Hc _ _ Hm) as H2. rewrite Hbm in H2. by apply Forall2_cons in H2 as [_ ?].
    + done.
    + exists ms', last. rewrite Hassembly. split_and!; [done|by rewrite Hlm, length_fmap|done].
Qed.

Lemma rows_assembled i flush e assembly rows :
  length (ev_windows e) = length (ev_modules e) → (ev_main e < length (ev_modules e))%nat →
  columns rows (ev_modules e) → Forall (row_matches (ev_windows e) (ev_main e)) rows →
  ∃ e' last, build_event i flush e assembly = Some (EventDataOut 0 i <$> (full_row <$> rows), e', last)
    ∧ Forall (λ m, m_buffer m = []) (ev_modules e').
Proof.
  intros Hl Hm Hc Hr. unfold build_event. destruct (lookup_lt_is_Some_2 _ _ Hm) as [m0 Hm0]. rewrite Hm0. cbn [from_option].
  destruct (build_loop_rows_complete rows (S (length (m_buffer m0))) (ev_windows e) (ev_main e) flush (ev_modules e) (resize_assembly (length (ev_modules e)) assembly)
    Hl Hm) as (ms' & last & E & _ & Hend); [rewrite (Forall2_length _ _ _ (Hc _ _ Hm0)); lia|done|done|]. rewrite E. eexists _, last. split; [done|].
  cbn. destruct flush; [|done]. apply Forall_fmap. by apply Forall_true.
Qed.

#[local] Instance EventDataOut_inj c i : Inj (=) (=) (EventDataOut c i).
Proof. by intros x y [= ->]. Qed.

(** C29: the time windows of the event builder, for windows that contain 0, a main module whose
    entries all have 30 bit timestamps and other modules whose entries have one or none.
    Building returns; each event that is put out has the place of an entry of the main module,
    and the data it has of a module is an entry of that module whose distance from the main
    entry - the nearer one around the counter, which the source takes to have a period of
    2^30 - 1 - is inside the module's window, ends included, or that has no timestamp.  When
    the data that waits consists of rows with such an entry for every module, then exactly these
    rows are put out, in their order and with the data of all modules, and nothing is left. *)
Theorem matching_rows_assembled i flush e assembly :
  length (ev_windows e) = length (ev_modules e) → (ev_main e < length (ev_modules e))%nat →
  Forall around_zero (ev_windows e) → timestamps_ok (ev_main e) (ev_modules e) →
  ∃ out e' last, build_event i flush e assembly = Some (EventDataOut 0 i <$> out, e', last)
    ∧ Forall (built_near (ev_windows e) (ev_modules e) (ev_main e)) out
    ∧ ∀ rows, columns rows (ev_modules e) → Forall (row_near (ev_windows e) (ev_main e)) rows →
        out = full_row <$> rows ∧ Forall (λ m, m_buffer m = []) (ev_modules e').
Proof.
  intros Hl Hm Hw Ht. destruct (built_in_order i flush e assembly Hl) as (out & e' & last & E & Hrows & _). exists out, e', last. split; [done|].
  split; [eapply Forall_impl; [exact Hrows|]; intros row; by apply row_ok_near|]. intros rows Hc Hr.
  apply (row_near_matches _ _ _ _ Hw Hl Hm Ht Hc) in Hr. destruct (rows_assembled i flush e assembly rows Hl Hm Hc Hr) as (e2 & last2 & E2 & Hend).
  rewrite E in E2. injection E2 as Eout <- <-. split; [|done]. apply (inj (fmap (EventDataOut 0 i))) in Eout. exact Eout.
Qed.

(** ** A main module without timestamps *)

(** When the timestamp of the main module could not be extracted, the data of all other modules
    that has timestamps is dropped. *)
Lemma main_without_timestamp w m :
  - 2 ^ 31 < w.1 → Forall (λ e, 0 ≤ st_timestamp e ≤ TimestampMax) (m_buffer m) →
  m_buffer (match_module TimestampExtractionFailed w (m_buffer m) m).1 = [] ∧ as_data (match_module TimestampExtractionFailed w (m_buffer m) m).2 = None.
Proof.
  intros Hw. generalize (m_buffer m). intros buf Hb. revert m. induction Hb as [|e buf He Hbs IH]; intros m; [done|]. cbn [match_module].
  assert (Hm : (match_entry TimestampExtractionFailed w e).1 = too_old).
  { unfold match_entry. replace (st_timestamp e =? TimestampExtractionFailed) with false by (unfold TimestampMax, TimestampExtractionFailed in *; lia).
    by apply match_failed_main. }
  destruct (match_entry TimestampExtractionFailed w e) as [wm inv]. cbn in Hm. subst wm. apply IH.
Qed.

(** ** Witnesses: two crates with a module each *)

Definition first_word (data : list Z) : Z := default TimestampExtractionFailed (head data).
Definition sample_setup : EventSetup :=
  mkEventSetup true [mkCrateSetup [first_word] [DefaultMatchWindow]; mkCrateSetup [first_word] [DefaultMatchWindow]] (0, 0).
Definition sample_config : EventBuilderConfig := mkConfig [sample_setup] DefaultMemoryLimit.

(** The second crate sends an old event, an empty one and two that match. *)
Definition sample_ops : list op :=
  [OpEvent 0 0 [[100; 1]]; OpEvent 1 0 [[50; 2]]; OpEvent 1 0 [[]]; OpEvent 1 0 [[103; 3]]; OpBuild false; OpEvent 0 0 [[200; 4]]; OpEvent 1 0 [[201; 5]]].

Lemma builder_accounts_witness :
  ∃ b out b', make_builder sample_config = Return b ∧ run sample_ops b = Some (out, b')
    ∧ out = [EventDataOut 0 0 [mkAssembled (Some [100; 1]) 0 2 0 true; mkAssembled (Some [103; 3]) 0 2 0 true]]
    ∧ same64 (getMemoryUsage b') (waiting_memory b') ∧ waiting_memory b' = 16.
Proof.
  eexists. destruct (builder_accounts sample_config _ sample_ops eq_refl) as (out & b' & E & H & _);
    [repeat (apply Forall_cons; split; [discriminate|]); apply Forall_nil_2; exact I|].
  vm_compute in E. injection E as <- <-. eexists _, _. split; [reflexivity|]. split; [vm_compute; reflexivity|]. split; [reflexivity|]. split; [exact H|reflexivity].
Defined.

Definition sample_row (a b : Z) : list ModuleEventStorage := [mkStorage a [a]; mkStorage b [b; b]].
Definition sample_rows : list (list ModuleEventStorage) := [sample_row 100 108; sample_row 200 197; sample_row 0x3ffffffe 3].
Definition sample_event : EventState :=
  mkEvent true [(0, 0); (1, 0)] [first_word; first_word] [DefaultMatchWindow; DefaultMatchWindow] 0
    (set_buffer [mkStorage 100 [100]; mkStorage 200 [200]; mkStorage 0x3ffffffe [0x3ffffffe]] new_module
     :: [set_buffer [mkStorage 108 [108; 108]; mkStorage 197 [197; 197]; mkStorage 3 [3; 3]] new_module]).

Lemma matching_rows_assembled_witness :
  ∃ e' last, build_event 0 false sample_event [] = Some (EventDataOut 0 0 <$> (full_row <$> sample_rows), e', last)
    ∧ Forall (λ m, m_buffer m = []) (ev_modules e').
Proof.
  destruct (matching_rows_assembled 0 false sample_event []) as (out & e' & last & E & _ & H).
  - reflexivity.
  - cbn. lia.
  - repeat constructor; cbn; lia.
  - split; [|intros m; cbn; intros [= <-]]; repeat constructor; cbn; unfold timed_or_failed, timed, TimestampMax; cbn; lia.
  - destruct (H sample_rows) as [-> H2].
    + intros [|[|j]] m; cbn; intros [= <-]; repeat constructor.
    + do 3 (apply Forall_cons; split; [split; [reflexivity|]; eexists; split; [reflexivity|]; intros [|[|j]] w e; cbn; intros [= <-] [= <-]; (apply match_entry_near;
        [cbn; unfold TimestampMax; lia|split; cbn; lia|left; unfold timed, TimestampMax; cbn; lia|reflexivity])|]).
      by apply Forall_nil_2.
    + exists e', last. split; [exact E|exact H2].
Defined.

Lemma built_in_order_witness :
  ∃ out e' last, build_event 0 false sample_event [] = Some (EventDataOut 0 0 <$> out, e', last)
    ∧ Forall (row_ok (ev_windows sample_event) (ev_modules sample_event) (ev_main sample_event)) out ∧ length out = 3%nat.
Proof.
  destruct (built_in_order 0 false sample_event [] eq_refl) as (out & e' & last & E & H & _). exists out, e', last.
  split; [exact E|]. split; [exact H|]. apply (f_equal (λ r, match r with Some (o, _, _) => length o | None => O end)) in E. rewrite length_fmap in E.
  rewrite <- E. reflexivity.
Defined.
