(* ===== verification/Dialog.v ===== *)
(** * The dialog layer: [mvlc_dialog.h/.cc]

    [MVLCDialog_internal] sends requests over the command pipe and reads the responses
    itself, without a reader thread; the connection implementations use it while they
    connect.  The connection is an instance of [BasicInterface].

    The vectors that a call fills are kept in the state under a name ([Buf]), because the
    member [m_responseBuffer] is at the same time the destination of a transaction and the
    scratch buffer of the register writes inside of it. *)

From S2P Require Import Prelude Effects Constants Frames Commands StackErrors Errors ReadoutBuffer.

(** ** The connection *)

(** [write] returns the number of bytes written, [read] the bytes it stored.  [bi_now] is
    the steady clock in milliseconds, [bi_usb2] the flag of the device information of the
    USB implementation. *)
(* mvlc_basic_interface.h:40-63 MVLCBasicInterface *)
Class BasicInterface (C : Type) : Type := {
  bi_connectionType : ConnectionType;
  bi_usb2 : C → bool;
  bi_write : Pipe → list Z → C → error_code * Z * C;
  bi_read : Pipe → Z → C → error_code * list Z * C;
  bi_now : C → Z
}.

(* mvlc_dialog.cc:65-92 check_mirror *)
Definition check_mirror (request response : list Z) : error_code :=
  if bool_decide (request = []) then Mvlc MVLCErrorCode.MirrorEmptyRequest
  else if bool_decide (response = []) then Mvlc MVLCErrorCode.MirrorEmptyResponse
  else if zlen response <? zlen request - 1 then Mvlc MVLCErrorCode.MirrorShortResponse
  else
    let inner (ws : list Z) := take (length request - 2) (drop 1 ws) in
    if bool_decide (inner request = inner response) then no_error else Mvlc MVLCErrorCode.MirrorNotEqual.

(** ** The state of a dialog *)

(** The vectors a transaction can fill: the member [m_responseBuffer], the vector of the
    caller, and the local vector of [stackTransaction]. *)
Inductive Buf : Type := Response | Caller | Local.

(* mvlc_dialog.h:183-187 MVLCDialog_internal *)
Record Dlg (C : Type) : Type := mkDlg {
  dlg_dev : C;
  dlg_reference : Z;
  dlg_response : list Z;
  dlg_caller : list Z;
  dlg_local : list Z;
  dlg_errors : StackErrorCounters
}.
Arguments mkDlg {C}.
Arguments dlg_dev {C}.
Arguments dlg_reference {C}.
Arguments dlg_response {C}.
Arguments dlg_caller {C}.
Arguments dlg_local {C}.
Arguments dlg_errors {C}.

(* mvlc_dialog.cc:96-102 MVLCDialog_internal *)
Definition new_dialog {C} (mvlc : C) : Dlg C := mkDlg mvlc 1 [] [] [] new_error_counters.

Definition buf_of {C} (b : Buf) (s : Dlg C) : list Z :=
  match b with Response => dlg_response s | Caller => dlg_caller s | Local => dlg_local s end.

Definition set_dev {C} (c : C) (s : Dlg C) : Dlg C :=
  mkDlg c (dlg_reference s) (dlg_response s) (dlg_caller s) (dlg_local s) (dlg_errors s).
Definition with_buf {C} (b : Buf) (ws : list Z) (s : Dlg C) : Dlg C :=
  match b with
  | Response => mkDlg (dlg_dev s) (dlg_reference s) ws (dlg_caller s) (dlg_local s) (dlg_errors s)
  | Caller => mkDlg (dlg_dev s) (dlg_reference s) (dlg_response s) ws (dlg_local s) (dlg_errors s)
  | Local => mkDlg (dlg_dev s) (dlg_reference s) (dlg_response s) (dlg_caller s) ws (dlg_errors s)
  end.
Definition with_errors {C} (e : StackErrorCounters) (s : Dlg C) : Dlg C :=
  mkDlg (dlg_dev s) (dlg_reference s) (dlg_response s) (dlg_caller s) (dlg_local s) e.

(* mvlc_dialog.h:162-165 getStackErrorCounters *)
Definition getStackErrorCounters {C} (s : Dlg C) : StackErrorCounters := dlg_errors s.
(* mvlc_dialog.h:172-175 clearStackErrorCounters *)
Definition clearStackErrorCounters {C} (s : Dlg C) : Dlg C := with_errors new_error_counters s.
(* mvlc_dialog.h:160-160 getResponseBuffer *)
Definition getResponseBuffer {C} (s : Dlg C) : list Z := dlg_response s.

(* mvlc_dialog.h:52-52 ReadResponseMaxWait *)
Definition ReadResponseMaxWait : Z := 60000.
(* mvlc_dialog.h:58-58 MirrorMaxRetries *)
Definition MirrorMaxRetries : nat := 3.

Section Dialog.
Context {C : Type} {HC : BasicInterface C}.

(** The rounds that the loops over responses may take. *)
Context (rounds : nat).

Definition set_buf (b : Buf) (ws : list Z) : SM (Dlg C) () := λ s, Done ((), with_buf b ws s).
Definition count_error (frame : list Z) : SM (Dlg C) () := λ s,
  Done ((), with_errors (update_stack_error_counters (dlg_errors s) frame) s).

(** [m_referenceWord++] on a 16 bit integer *)
Definition next_reference : SM (Dlg C) Z := λ s,
  Done (dlg_reference s,
    mkDlg (dlg_dev s) (u16 (dlg_reference s + 1)) (dlg_response s) (dlg_caller s) (dlg_local s) (dlg_errors s)).

Definition lower_write (bytes : list Z) : SM (Dlg C) (error_code * Z) := λ s,
  let '(ec, n, c) := bi_write Command bytes (dlg_dev s) in Done ((ec, n), set_dev c s).
Definition lower_read (size : Z) : SM (Dlg C) (error_code * list Z) := λ s,
  let '(ec, bytes, c) := bi_read Command size (dlg_dev s) in Done ((ec, bytes), set_dev c s).

(** ** Words and buffers *)

(* mvlc_dialog.cc:104-119 MVLCDialog_internal::doWrite *)
Definition doWrite (buffer : list Z) : SM (Dlg C) error_code :=
  '(ec, bytesTransferred) ← lower_write (words_to_bytes buffer);
  mret (if negb (failed ec) && negb (4 * zlen buffer =? bytesTransferred) then Mvlc MVLCErrorCode.ShortWrite else ec).

(** One read and at most [more] further ones. *)
(* mvlc_dialog.cc:158-177 MVLCDialog_internal::readWords *)
Fixpoint read_attempts (more : nat) (bytesToTransfer : Z) : SM (Dlg C) (error_code * list Z) :=
  '(ec, bytes) ← lower_read bytesToTransfer;
  if is_timeout ec && (zlen bytes =? 0) then
    match more with
    | O => mret (ec, bytes)
    | S more => read_attempts more bytesToTransfer
    end
  else mret (ec, bytes).

(** The result is the error code, the bytes stored at [dest] and [wordsTransferred]. *)
(* mvlc_dialog.cc:123-194 MVLCDialog_internal::readWords *)
Definition readWords (count : Z) : SM (Dlg C) (error_code * list Z * Z) :=
  if count =? 0 then mret (no_error, [], 0)
  else
    let bytesToTransfer := count * 4 in
    usb2 ← get_state (λ s, bool_decide (bi_connectionType = USB) && bi_usb2 (dlg_dev s));
    '(ec, bytes) ← read_attempts (if usb2 : bool then 1 else 0)%nat bytesToTransfer;
    mret (if negb (failed ec) && negb (zlen bytes =? bytesToTransfer) then Mvlc MVLCErrorCode.ShortRead else ec,
          bytes, zlen bytes / 4).

(** [count] zero words with the bytes copied over their beginning. *)
Definition fill_words (count : Z) (bytes : list Z) : list Z :=
  bytes_to_words (Z.to_nat count) (bytes ++ replicate (Z.to_nat (4 * count) - length bytes) 0).

(* mvlc_dialog.cc:196-234 MVLCDialog_internal::readKnownBuffer *)
Definition readKnownBuffer (dest : Buf) : SM (Dlg C) error_code :=
  set_buf dest [];;
  '(ec, bytes, _) ← readWords 1;
  if failed ec then mret ec
  else
    let header := default 0 (fill_words 1 bytes !! 0%nat) in
    if negb (is_known_frame_header header) then
      set_buf dest [header];; mret (Mvlc MVLCErrorCode.InvalidBufferHeader)
    else
      let responseLength := u16 (header .& frame_headers.LengthMask) in
      '(ec, bytes, wordsTransferred) ← readWords responseLength;
      let contents := header :: fill_words responseLength bytes in
      set_buf dest (if bool_decide (ec = Mvlc MVLCErrorCode.ShortRead) then ztake (1 + wordsTransferred) contents
                    else contents);;
      mret ec.

(* mvlc_dialog.cc:245-264 MVLCDialog_internal::readResponse *)
Fixpoint read_response_loop (fuel : nat) (tStart : Z) (dest : Buf) : SM (Dlg C) error_code :=
  match fuel with
  | O => hang
  | S fuel =>
      ec ← readKnownBuffer dest;
      if failed ec then mret ec
      else
        frame ← get_state (buf_of dest);
        if is_stackerror_notification (default 0 (frame !! 0%nat)) then
          count_error frame;;
          now ← get_state (λ s, bi_now (dlg_dev s));
          if now - tStart >=? ReadResponseMaxWait then mret (Mvlc MVLCErrorCode.ReadResponseMaxWaitExceeded)
          else read_response_loop fuel tStart dest
        else mret no_error
  end.

(* mvlc_dialog.cc:236-281 MVLCDialog_internal::readResponse *)
Definition readResponse (bhv : Z → bool) (dest : Buf) : SM (Dlg C) error_code :=
  tStart ← get_state (λ s, bi_now (dlg_dev s));
  ec ← read_response_loop rounds tStart dest;
  if failed ec then mret ec
  else
    response ← get_state (buf_of dest);
    match response with
    | [] => mret (Mvlc MVLCErrorCode.ShortRead)
    | header :: _ => mret (if bhv header then no_error else Mvlc MVLCErrorCode.UnexpectedBufferHeader)
    end.

(** ** Transactions *)

(** The last [tries] attempts; [ret] is the result of the one before. *)
(* mvlc_dialog.cc:376-415 MVLCDialog_internal::superTransaction *)
Fixpoint super_tries (tries : nat) (ret : error_code) (cmdBuffer : list Z) (dest : Buf) : SM (Dlg C) error_code :=
  match tries with
  | O => mret ret
  | S tries =>
      ec ← doWrite cmdBuffer;
      if failed ec then (if is_timeout ec then super_tries tries ec cmdBuffer dest else mret ec)
      else
        ec ← readResponse is_super_buffer dest;
        if failed ec then (if is_timeout ec then super_tries tries ec cmdBuffer dest else mret ec)
        else
          response ← get_state (buf_of dest);
          mret (check_mirror cmdBuffer response)
  end.

(* mvlc_dialog.cc:367-416 MVLCDialog_internal::superTransaction *)
Definition superTransaction (cmdBuffer : list Z) (dest : Buf) : SM (Dlg C) error_code :=
  if zlen cmdBuffer >? MirrorTransactionMaxWords then mret (Mvlc MVLCErrorCode.MirrorTransactionMaxWordsExceeded)
  else super_tries MirrorMaxRetries no_error cmdBuffer dest.

(* mvlc_dialog.h:132-136 superTransaction *)
Definition superTransaction_builder (superBuilder : SuperCommandBuilder) (dest : Buf) : SM (Dlg C) error_code :=
  superTransaction (make_command_buffer superBuilder) dest.

(** The result is the error code and the output parameter. *)
(* mvlc_dialog.cc:283-305 MVLCDialog_internal::readRegister *)
Definition readRegister (address value : Z) : SM (Dlg C) (error_code * Z) :=
  ref ← next_reference;
  let request := make_command_buffer (su_addReadLocal (su_addReferenceWord [] ref) address) in
  ec ← superTransaction request Response;
  if failed ec then mret (ec, value)
  else
    response ← get_state (buf_of Response);
    if zlen response <? 4 then mret (Mvlc MVLCErrorCode.UnexpectedResponseSize, value)
    else mret (no_error, default 0 (response !! 3%nat)).

(* mvlc_dialog.cc:346-365 MVLCDialog_internal::writeRegister *)
Definition writeRegister (address value : Z) : SM (Dlg C) error_code :=
  ref ← next_reference;
  let request := make_command_buffer (su_addWriteLocal (su_addReferenceWord [] ref) address value) in
  ec ← superTransaction request Response;
  if failed ec then mret ec
  else
    response ← get_state (buf_of Response);
    mret (if negb (zlen response =? 4) then Mvlc MVLCErrorCode.UnexpectedResponseSize else no_error).

(** Continuation frames are read and appended until the Continue flag is clear.  The result
    is the error code and the flags of the last frame. *)
(* mvlc_dialog.cc:460-472 MVLCDialog_internal::stackTransaction *)
Fixpoint read_continuations (fuel : nat) (flags : Z) (dest : Buf) : SM (Dlg C) (error_code * Z) :=
  if (flags .& frame_flags.Continue) =? 0 then mret (no_error, flags)
  else
    match fuel with
    | O => hang
    | S fuel =>
        ec ← readResponse is_stack_buffer_continuation Local;
        if failed ec then mret (ec, flags)
        else
          localBuffer ← get_state (buf_of Local);
          frames ← get_state (buf_of dest);
          set_buf dest (frames ++ localBuffer);;
          let header := default 0 (localBuffer !! 0%nat) in
          read_continuations fuel (fi_flags (extract_frame_info header)) dest
    end.

(** The part that [stackTransaction] and [execImmediateStack] have in common: start stack 0
    and read its response. *)
(* mvlc_dialog.cc:564-632 MVLCDialog_internal::execImmediateStack *)
Definition run_immediate_stack (stackMemoryOffset : Z) (dest : Buf) : SM (Dlg C) error_code :=
  ec ← writeRegister stacks.Stack0OffsetRegister stackMemoryOffset;
  if failed ec then mret ec
  else
    ec ← writeRegister stacks.Stack0TriggerRegister (1 ≪ stacks.ImmediateShift);
    if failed ec then mret ec
    else
      ec ← readResponse is_stack_buffer dest;
      if failed ec then mret ec
      else
        response ← get_state (buf_of dest);
        let flags := fi_flags (extract_frame_info (default 0 (response !! 0%nat))) in
        set_buf Local [];;
        '(ec, flags) ← read_continuations rounds flags dest;
        mret (if failed ec then ec
              else if negb ((flags .& frame_flags.Timeout) =? 0) then Mvlc MVLCErrorCode.NoVMEResponse
              else if negb ((flags .& frame_flags.SyntaxError) =? 0) then Mvlc MVLCErrorCode.StackSyntaxError
              else no_error).

(* mvlc_dialog.cc:559-632 MVLCDialog_internal::execImmediateStack *)
Definition execImmediateStack (stackMemoryOffset : Z) (dest : Buf) : SM (Dlg C) error_code :=
  run_immediate_stack stackMemoryOffset dest.

(* mvlc_dialog.cc:418-497 MVLCDialog_internal::stackTransaction *)
Definition stackTransaction (stack : list Z) (dest : Buf) : SM (Dlg C) error_code :=
  ec ← superTransaction stack dest;
  if failed ec then mret ec
  else run_immediate_stack 0 dest.

(** ** Stack uploads *)

(** The commands that fit into one request, starting with [encodedSize] words, and the
    commands after them. *)
(* mvlc_dialog.cc:523-532 MVLCDialog_internal::uploadStack *)
Fixpoint next_part (encodedSize : Z) (commands : list SuperCommand) : list SuperCommand * list SuperCommand :=
  match commands with
  | [] => ([], [])
  | cmd :: rest =>
      let size := super_get_encoded_size (su_type cmd) in
      if encodedSize + size >? MirrorTransactionMaxContentsWords then ([], commands)
      else let '(part, others) := next_part (encodedSize + size) rest in (cmd :: part, others)
  end.

(** One round per part. *)
(* mvlc_dialog.cc:517-550 MVLCDialog_internal::uploadStack *)
Fixpoint upload_parts (fuel : nat) (commands : list SuperCommand) (dest : Buf) : SM (Dlg C) error_code :=
  match commands, fuel with
  | [], _ => mret no_error
  | _, O => hang
  | _, S fuel =>
      let '(part, others) := next_part 0 commands in
      ec ← superTransaction (make_command_buffer part) dest;
      if failed ec then mret ec else upload_parts fuel others dest
  end.

(* mvlc_dialog.cc:499-557 MVLCDialog_internal::uploadStack *)
Definition uploadStack (stackOutputPipe stackMemoryOffset : Z) (commands : list StackCommand) (dest : Buf)
    : SM (Dlg C) error_code :=
  stackBuffer ← lift (make_stack_buffer commands);
  if stacks.StackMemoryBegin + stackMemoryOffset + zlen stackBuffer * 4 >=? stacks.StackMemoryEnd then
    mret (Mvlc MVLCErrorCode.StackMemoryExceeded)
  else
    let uploadCommands := make_stack_upload_commands stackOutputPipe stackMemoryOffset stackBuffer in
    upload_parts (length uploadCommands) uploadCommands dest.

(* mvlc_dialog.h:98-105 uploadStack *)
Definition uploadStack_builder (stackOutputPipe stackMemoryOffset : Z) (stack : StackCommandBuilder) (dest : Buf)
    : SM (Dlg C) error_code :=
  uploadStack stackOutputPipe stackMemoryOffset (getCommands stack) dest.

(** ** VME accesses *)

(* mvlc_dialog.cc:634-656 MVLCDialog_internal::vmeWrite *)
Definition vmeWrite (address value amod dataWidth : Z) : SM (Dlg C) error_code :=
  ref ← next_reference;
  cmdList ← lift (su_addVMEWrite (su_addReferenceWord [] ref) address value amod dataWidth);
  ec ← stackTransaction (make_command_buffer cmdList) Response;
  if failed ec then mret ec
  else
    response ← get_state (buf_of Response);
    if negb (zlen response =? 1) then mret (Mvlc MVLCErrorCode.UnexpectedResponseSize)
    else
      mret (if negb ((fi_flags (extract_frame_info (default 0 (response !! 0%nat))) .& frame_flags.Timeout) =? 0)
            then Mvlc MVLCErrorCode.NoVMEResponse else ec).

(** The builder call without the optional arguments: no late read, a FIFO address. *)
(* mvlc_dialog.cc:658-685 MVLCDialog_internal::vmeRead *)
Definition vmeRead (address value amod dataWidth : Z) : SM (Dlg C) (error_code * Z) :=
  ref ← next_reference;
  cmdList ← lift (su_addVMERead (su_addReferenceWord [] ref) address amod dataWidth false true);
  ec ← stackTransaction (make_command_buffer cmdList) Response;
  if failed ec then mret (ec, value)
  else
    response ← get_state (buf_of Response);
    if negb (zlen response =? 2) then mret (Mvlc MVLCErrorCode.UnexpectedResponseSize, value)
    else if negb ((fi_flags (extract_frame_info (default 0 (response !! 0%nat))) .& frame_flags.Timeout) =? 0)
    then mret (Mvlc MVLCErrorCode.NoVMEResponse, value)
    else
      let Mask := if dataWidth =? VMEDataWidth.D16 then 0x0000FFFF else 0xFFFFFFFF in
      mret (ec, default 0 (response !! 1%nat) .& Mask).

(* mvlc_dialog.cc:687-704 MVLCDialog_internal::vmeBlockRead *)
Definition vmeBlockRead (address amod maxTransfers : Z) (dest : Buf) : SM (Dlg C) error_code :=
  if negb (vme_amods.is_block_mode amod) then mret (Mvlc MVLCErrorCode.NonBlockAddressMode)
  else
    ref ← next_reference;
    cmdList ← lift (su_addVMEBlockRead (su_addReferenceWord [] ref) address amod maxTransfers true);
    stackTransaction (make_command_buffer cmdList) dest.

(* mvlc_dialog.cc:706-720 MVLCDialog_internal::vmeMBLTSwapped *)
Definition vmeMBLTSwapped (address maxTransfers : Z) (dest : Buf) : SM (Dlg C) error_code :=
  ref ← next_reference;
  cmdList ← lift (su_addVMEBlockReadSwapped (su_addReferenceWord [] ref) address vme_amods.MBLT64 maxTransfers true);
  stackTransaction (make_command_buffer cmdList) dest.

(** The register accesses of [mvlc_dialog_util.h] as the connections use them. *)
(* mvlc_dialog_util.h:135-139 read_daq_mode *)
Definition read_daq_mode (daqMode : Z) : SM (Dlg C) (error_code * Z) := readRegister registers.daq_mode daqMode.

End Dialog.
