(* ===== verification/DialogFacts.v ===== *)
(** * Properties of the dialog layer

    What the dialog layer may expect of a connection is stated in two classes.
    [StreamLaws]: reads deliver the bytes of a stream.  [DialogController]: a write of
    register accesses makes the controller execute them and append its response to the
    stream. *)

From S2P Require Import Prelude Effects Constants Frames FramesFacts Commands CommandsFacts StackErrors Errors ReadoutBuffer CmdPipe CmdPipeFacts CmdApiLaws CmdApiController Dialog.

(** ** A connection that delivers a stream of bytes *)

(** [incoming] are the bytes that the command pipe will deliver.  While the connection is
    [attentive], they arrive before [deadline], which is less than a read timeout away.
    Reading does not change what is on the other side ([view]). *)
Class StreamLaws (C : Type) `{BasicInterface C} : Type := {
  View : Type;
  view : C → View;
  incoming : C → list Z;
  attentive : Z → C → Prop;
  attentive_now deadline c : attentive deadline c → deadline - 500 < bi_now c ≤ deadline;
  read_incoming deadline c n :
    attentive deadline c → 0 < n ≤ zlen (incoming c) →
    ∃ c', bi_read Command n c = (no_error, ztake n (incoming c), c') ∧ attentive deadline c'
      ∧ incoming c' = zdrop n (incoming c) ∧ view c' = view c
}.

(** ** Words read back from bytes *)

Lemma bytes_words ws k : Forall is_u32 ws → bytes_to_words (length ws) (words_to_bytes ws ++ k) = ws.
Proof.
  intros H. induction H as [|w ws Hw Hws IH]; [done|]. rewrite words_to_bytes_cons, <- app_assoc. cbn [bytes_to_words length].
  rewrite le_word_bytes by done. f_equal. exact IH.
Qed.

Lemma fill_words_all ws : Forall is_u32 ws → fill_words (zlen ws) (words_to_bytes ws) = ws.
Proof. intros H. unfold fill_words. unfold zlen at 1. rewrite Nat2Z.id. by apply bytes_words. Qed.

Lemma fill_words_head h : is_u32 h → default 0 (fill_words 1 (words_to_bytes [h]) !! 0%nat) = h.
Proof. intros H. change 1 with (zlen [h]). rewrite fill_words_all; [done|by apply Forall_cons]. Qed.

Lemma ztake_words n ws rest : n = 4 * zlen ws → ztake n (words_to_bytes (ws ++ rest)) = words_to_bytes ws.
Proof. intros ->. rewrite words_to_bytes_app, <- zlen_words_to_bytes. apply ztake_app. Qed.
Lemma zdrop_words n ws rest : n = 4 * zlen ws → zdrop n (words_to_bytes (ws ++ rest)) = words_to_bytes rest.
Proof. intros ->. rewrite words_to_bytes_app, <- zlen_words_to_bytes. apply zdrop_app. Qed.

(** A frame of the command pipe: a known header and as many words as it announces. *)
Definition whole_frame (frame : list Z) : Prop :=
  match frame with
  | [] => False
  | h :: ws => is_known_frame_header h = true ∧ zlen ws = h .& frame_headers.LengthMask ∧ Forall is_u32 frame
  end.

Definition notification (frame : list Z) : Prop :=
  whole_frame frame ∧ is_stackerror_notification (default 0 (frame !! 0%nat)) = true.

Lemma whole_frame_length h ws : whole_frame (h :: ws) → u16 (h .& frame_headers.LengthMask) = zlen ws.
Proof.
  intros (_ & Hl & _). rewrite <- Hl. apply u16_id. split; [apply zlen_nonneg|]. rewrite Hl. unfold frame_headers.LengthMask.
  change 0x1FFF with (2 ^ 13 - 1). rewrite land_mask by lia. pose proof (field_range h 13). lia.
Qed.

Section Stream.
Context {C : Type} {HC : BasicInterface C} {HS : StreamLaws C}.
Context (rounds : nat).

(** The dialog is [on_line]: the stream of the command pipe consists of the given words. *)
Definition on_line (deadline : Z) (stream : list Z) (ref : Z) (errors : StackErrorCounters) (v : View) (s : Dlg C) : Prop :=
  attentive deadline (dlg_dev s) ∧ incoming (dlg_dev s) = words_to_bytes stream ∧ dlg_reference s = ref
  ∧ dlg_errors s = errors ∧ view (dlg_dev s) = v.

(** [dest] is filled, the other vectors are left alone. *)
Definition filled (dest : Buf) (ws : list Z) (s s' : Dlg C) : Prop :=
  buf_of dest s' = ws ∧ ∀ b, b ≠ dest → buf_of b s' = buf_of b s.

Lemma with_buf_on_line deadline stream ref errors v b ws s :
  on_line deadline stream ref errors v s → on_line deadline stream ref errors v (with_buf b ws s).
Proof. by destruct b. Qed.

Lemma with_buf_filled b ws s s' : (∀ b', buf_of b' s' = buf_of b' s) → filled b ws s (with_buf b ws s').
Proof. intros H. split; [by destruct b|]. intros b' Hb. rewrite <- H. by destruct b, b'. Qed.

Lemma filled_trans b ws ws' s s' s'' : filled b ws s s' → filled b ws' s' s'' → filled b ws' s s''.
Proof. intros [_ H1] [H2 H3]. split; [done|]. intros b' Hb. by rewrite H3, H1. Qed.

(** Words that are in the stream are read at once. *)
Lemma readWords_ok deadline ws rest ref errors v s :
  on_line deadline (ws ++ rest) ref errors v s →
  ∃ s', readWords (zlen ws) s = Done ((no_error, words_to_bytes ws, zlen ws), s')
    ∧ on_line deadline rest ref errors v s' ∧ ∀ b, buf_of b s' = buf_of b s.
Proof.
  intros (Ha & Hi & Hr & He & Hv). unfold readWords. destruct (Z.eqb_spec (zlen ws) 0) as [E|E].
  { apply zlen_0 in E as ->. by exists s. }
  destruct (read_incoming deadline (dlg_dev s) (zlen ws * 4) Ha) as (c' & Hrd & Ha' & Hi' & Hv').
  { rewrite Hi, zlen_words_to_bytes, zlen_app. pose proof (zlen_nonneg ws). pose proof (zlen_nonneg rest). lia. }
  rewrite Hi in Hrd, Hi'. rewrite ztake_words in Hrd by lia. rewrite zdrop_words in Hi' by lia.
  set (usb2 := bool_decide (bi_connectionType = USB) && bi_usb2 (dlg_dev s)).
  assert (Hat : ∀ n, read_attempts n (zlen ws * 4) s = Done ((no_error, words_to_bytes ws), set_dev c' s)).
  { intros n. destruct n; cbn [read_attempts]; unfold mbind, SM_bind, lower_read; rewrite Hrd; done. }
  exists (set_dev c' s). split; [|split; [unfold on_line; cbn; by rewrite Hv', Hi'|by intros []]].
  unfold mbind, SM_bind, get_state. cbv beta. fold usb2. rewrite Hat. unfold mret, SM_ret. rewrite zlen_words_to_bytes.
  replace (4 * zlen ws =? zlen ws * 4) with true by (symmetry; apply Z.eqb_eq; lia). replace (4 * zlen ws) with (zlen ws * 4) by lia.
  by rewrite Z.div_mul by lia.
Qed.

Lemma readKnownBuffer_ok dest deadline frame rest ref errors v s :
  whole_frame frame → on_line deadline (frame ++ rest) ref errors v s →
  ∃ s', readKnownBuffer dest s = Done (no_error, s') ∧ on_line deadline rest ref errors v s' ∧ filled dest frame s s'.
Proof.
  destruct frame as [|h ws]; [done|]. intros Hf Hs. pose proof (whole_frame_length _ _ Hf) as Hlen. destruct Hf as (Hk & _ & Hu).
  apply Forall_cons in Hu as [Hh Hu]. unfold readKnownBuffer.
  destruct (readWords_ok deadline [h] (ws ++ rest) ref errors v (with_buf dest [] s)) as (s1 & H1 & Hs1 & Hb1).
  { by apply with_buf_on_line. }
  destruct (readWords_ok deadline ws rest ref errors v s1 Hs1) as (s2 & H2 & Hs2 & Hb2).
  exists (with_buf dest (h :: ws) s2). split; [|split; [by apply with_buf_on_line|]].
  - unfold mbind at 1, SM_bind at 1, set_buf at 1. erewrite bind_Done_eq by exact H1. cbn [failed no_error Z.eqb negb].
    rewrite fill_words_head by done. rewrite Hk. cbn [negb]. rewrite Hlen.
    erewrite bind_Done_eq by exact H2. cbv beta iota zeta. rewrite bool_decide_eq_false_2 by done. rewrite fill_words_all by done. done.
  - eapply filled_trans; [apply (with_buf_filled dest [] s s); done|]. apply with_buf_filled. intros b. by rewrite Hb2, Hb1.
Qed.

(** [readResponse] counts and drops the error notifications in front of a response. *)
Lemma response_loop_ok dest deadline notes : ∀ fuel tStart frame rest ref errors v s,
  (length notes < fuel)%nat → deadline - 500 < tStart →
  Forall notification notes → whole_frame frame → is_stackerror_notification (default 0 (frame !! 0%nat)) = false →
  on_line deadline (concat notes ++ frame ++ rest) ref errors v s →
  ∃ s', read_response_loop fuel tStart dest s = Done (no_error, s')
    ∧ on_line deadline rest ref (foldl update_stack_error_counters errors notes) v s' ∧ filled dest frame s s'.
Proof.
  induction notes as [|note notes IH]; intros fuel tStart frame rest ref errors v s Hl Ht Hn Hf He Hs; (destruct fuel as [|fuel]; [cbn in Hl; lia|]); cbn [read_response_loop].
  - destruct (readKnownBuffer_ok dest deadline frame rest ref errors v s Hf Hs) as (s1 & H1 & Hs1 & Hb1).
    exists s1. erewrite bind_Done_eq by exact H1. cbn [failed no_error Z.eqb negb]. unfold mbind, SM_bind, get_state. cbv beta iota. by rewrite (proj1 Hb1), He.
  - apply Forall_cons in Hn as [[Hnf Hne] Hn]. cbn [concat] in Hs. rewrite <- app_assoc in Hs.
    destruct (readKnownBuffer_ok dest deadline note _ ref errors v s Hnf Hs) as (s1 & H1 & Hs1 & Hb1).
    set (s2 := with_errors (update_stack_error_counters errors note) s1).
    assert (Hs2 : on_line deadline (concat notes ++ frame ++ rest) ref (update_stack_error_counters errors note) v s2).
    { destruct Hs1 as (? & ? & ? & ? & ?). done. }
    destruct (IH fuel tStart frame rest ref _ v s2 ltac:(cbn in Hl; lia) Ht Hn Hf He Hs2) as (s' & H' & Hs' & Hb').
    exists s'. split_and!; [|done|].
    + erewrite bind_Done_eq by exact H1. cbn [failed no_error Z.eqb negb].
      unfold mbind, SM_bind, get_state, count_error. cbv beta. rewrite (proj1 Hb1), Hne. destruct Hs1 as (Ha1 & _ & _ & He1 & _).
      rewrite He1. fold s2. change (dlg_dev s2) with (dlg_dev s1). pose proof (attentive_now _ _ Ha1).
      replace (bi_now (dlg_dev s1) - tStart >=? ReadResponseMaxWait) with false
        by (symmetry; unfold ReadResponseMaxWait; destruct (Z.geb_spec (bi_now (dlg_dev s1) - tStart) 60000); [lia|done]).
      exact H'.
    + split; [apply Hb'|]. intros b Hb. rewrite (proj2 Hb' b Hb), <- (proj2 Hb1 b Hb). by destruct b.
Qed.

Lemma readResponse_ok bhv dest deadline notes frame rest ref errors v s :
  (length notes < rounds)%nat → Forall notification notes → whole_frame frame →
  is_stackerror_notification (default 0 (frame !! 0%nat)) = false → bhv (default 0 (frame !! 0%nat)) = true →
  on_line deadline (concat notes ++ frame ++ rest) ref errors v s →
  ∃ s', readResponse rounds bhv dest s = Done (no_error, s')
    ∧ on_line deadline rest ref (foldl update_stack_error_counters errors notes) v s' ∧ filled dest frame s s'.
Proof.
  intros Hl Hn Hf He Hb Hs. pose proof (attentive_now deadline _ (proj1 Hs)) as Hnow.
  destruct (response_loop_ok dest deadline notes rounds (bi_now (dlg_dev s)) frame rest ref errors v s) as (s' & H' & Hs' & Hb'); try done; [lia|].
  exists s'. split; [|done]. unfold readResponse. unfold mbind at 1, SM_bind at 1, get_state at 1. erewrite bind_Done_eq by exact H'.
  cbn [failed no_error Z.eqb negb]. unfold mbind, SM_bind, get_state. cbv beta iota. rewrite (proj1 Hb'). destruct frame as [|h ws]; [done|]. cbn in Hb. by rewrite Hb.
Qed.

End Stream.

(** ** Mirror responses *)

(** The commands that the controller mirrors: reference words and register accesses. *)
Definition mirrored (c : SuperCommand) : Prop :=
  register_access c ∨ (su_type c = ReferenceWord ∧ su_address c = 0 ∧ is_u16 (su_value c)).

(** The response to a list of commands. *)
Definition mirror (m : gmap Z Z) (cmds : list SuperCommand) : list Z :=
  frame_word frame_headers.SuperFrame 0 0 0 (zlen (echo m cmds)) :: echo m cmds.

Lemma encode_mirrored c : mirrored c → 1 ≤ zlen (encode_super_command c) ≤ 2 ∧ Forall is_u32 (encode_super_command c).
Proof.
  assert (Hw : ∀ t arg, is_u16 arg → is_u32 (u32 (SuperCT_value t ≪ super_commands.SuperCmdShift) .| (arg .& super_commands.SuperCmdArgMask))).
  { intros t arg [H1 H2]. rewrite super_word_sum by done. assert (0 ≤ SuperCT_value t < 2 ^ 16) by (destruct t; vm_compute; split; congruence). split; lia. }
  destruct c as [ty a v]. unfold mirrored, register_access, encode_super_command. cbn [su_type su_address su_value].
  intros [[(-> & ? & _)|(-> & ? & ?)]|(-> & _ & ?)]; (split; [rewrite ?zlen_cons, zlen_nil; lia|]); repeat (apply Forall_cons; split); try (by apply Hw); done.
Qed.

Definition no_read (c : SuperCommand) : Prop := su_type c ≠ ReadLocal.

(** Reads are allowed as the last command only: the value that the response carries after
    any other read shifts the words that [check_mirror] compares. *)
Lemma echo_last_read m cmds c :
  Forall no_read cmds →
  echo m (cmds ++ [c]) = ((cmds ++ [c]) ≫= encode_super_command)
    ++ (if bool_decide (su_type c = ReadLocal) then [reg (foldl apply_write m cmds) (su_address c)] else []).
Proof.
  intros H. revert m; induction H as [|d cmds Hd Hcs IH]; intros m.
  - cbn. by rewrite !app_nil_r.
  - cbn [app echo foldl]. rewrite bool_decide_eq_false_2 by exact Hd. rewrite IH. cbn [app]. rewrite bind_cons. by rewrite app_assoc.
Qed.

Lemma check_mirror_ok cmds tail : cmds ≠ [] → Forall mirrored cmds →
  check_mirror (make_command_buffer cmds) (frame_word frame_headers.SuperFrame 0 0 0 (zlen (cmds ≫= encode_super_command) + zlen tail)
    :: (cmds ≫= encode_super_command) ++ tail) = no_error.
Proof.
  intros Hne Hm. set (body := cmds ≫= encode_super_command). unfold check_mirror, make_command_buffer. fold body.
  rewrite bool_decide_eq_false_2 by done. rewrite bool_decide_eq_false_2 by done.
  rewrite zlen_app, zlen_app, zlen_cons, zlen_app, !zlen_cons, !zlen_nil. pose proof (zlen_nonneg tail). pose proof (zlen_nonneg body).
  destruct (Z.ltb_spec (1 + (zlen body + zlen tail)) (1 + 0 + (zlen body + (1 + 0)) - 1)); [lia|].
  rewrite bool_decide_eq_true_2; [done|]. cbn [app drop length]. rewrite length_app. cbn [length].
  replace (S (length body + 1) - 2)%nat with (length body) by lia. by rewrite !drop_0, !take_app_length.
Qed.

(** A controller that executes register accesses and mirrors them: [cc_write] are the
    writes, [cc_execute] is what the immediate stack sends and what it leaves behind.  Error
    notifications can come before the response. *)
Class DialogController (C : Type) `{StreamLaws C} : Type := {
  cc_regs : View → gmap Z Z;
  cc_write : View → list SuperCommand → View;
  cc_execute : View → list Z * View;
  cc_notes : C → list (list Z);
  cc_write_regs v cmds : cc_regs (cc_write v cmds) = foldl apply_write (cc_regs v) cmds;
  cc_regs_words deadline c a : attentive deadline c → is_u32 (reg (cc_regs (view c)) a);
  cc_notes_ok c : Forall notification (cc_notes c);
  cc_answers deadline c cmds :
    attentive deadline c → incoming c = [] → cmds ≠ [] → Forall mirrored cmds → zlen (make_command_buffer cmds) ≤ MirrorTransactionMaxWords →
    let v := cc_write (view c) cmds in
    let '(out, v') := if triggers cmds then cc_execute v else ([], v) in
    ∃ c', bi_write Command (words_to_bytes (make_command_buffer cmds)) c = (no_error, 4 * zlen (make_command_buffer cmds), c')
      ∧ attentive deadline c' ∧ view c' = v'
      ∧ incoming c' = words_to_bytes (concat (cc_notes c) ++ mirror (cc_regs (view c)) cmds ++ out)
}.

Lemma writes_keep_words m cmds : (∀ a, is_u32 (reg m a)) → Forall mirrored cmds → ∀ a, is_u32 (reg (foldl apply_write m cmds) a).
Proof.
  intros Hm Hc. revert m Hm; induction Hc as [|d ds Hd Hds IH]; intros m Hm; [apply Hm|]. cbn [foldl]. apply IH.
  intros a. unfold apply_write, reg. destruct Hd as [[(-> & _)|(-> & _ & Hv)]|(-> & _)]; [apply Hm| |apply Hm].
  destruct (decide (su_address d = a)) as [<-|Hne]; [by rewrite lookup_insert_eq|]. rewrite lookup_insert_ne by done. apply Hm.
Qed.

Lemma flen_mask h : flen h = h .& frame_headers.LengthMask.
Proof. unfold flen, get_frame_length, extract_frame_info. by destruct (_ =? _); cbn [fi_len]; rewrite Z.shiftr_0_r. Qed.

Lemma mirror_frame m cmds c :
  (∀ a, is_u32 (reg m a)) → Forall mirrored (cmds ++ [c]) → Forall no_read cmds → zlen (make_command_buffer (cmds ++ [c])) ≤ MirrorTransactionMaxWords →
  whole_frame (mirror m (cmds ++ [c])) ∧ is_stackerror_notification (default 0 (mirror m (cmds ++ [c]) !! 0%nat)) = false
  ∧ is_super_buffer (default 0 (mirror m (cmds ++ [c]) !! 0%nat)) = true.
Proof.
  intros Hm Hc Hn Hl. unfold make_command_buffer, MirrorTransactionMaxWords in Hl. rewrite !zlen_app, !zlen_cons, !zlen_nil in Hl.
  assert (Hw : Forall is_u32 (echo m (cmds ++ [c]))).
  { rewrite echo_last_read by done. apply Forall_app. split.
    - apply Forall_bind. eapply Forall_impl; [exact Hc|]. intros d Hd. by apply encode_mirrored.
    - case_bool_decide; [|done]. apply Forall_singleton. apply Forall_app in Hc as [Hc _]. by apply writes_keep_words. }
  assert (Hlen : 0 ≤ zlen (echo m (cmds ++ [c])) < 8192).
  { split; [apply zlen_nonneg|]. rewrite echo_last_read, zlen_app by done. case_bool_decide; rewrite ?zlen_cons, ?zlen_nil; lia. }
  destruct (super_header_fields _ Hlen) as (H1 & H2 & _). cbn [mirror lookup list_lookup default from_option id].
  set (h := frame_word _ _ _ _ _) in *. assert (Hsup := H1). unfold is_super_buffer in H1. apply Z.eqb_eq in H1.
  split; [|split; [unfold is_stackerror_notification; by rewrite H1|done]].
  change (whole_frame (h :: echo m (cmds ++ [c]))). cbn [whole_frame]. split_and!; [unfold is_known_frame_header; by rewrite H1| |].
  - by rewrite <- flen_mask, H2.
  - apply Forall_cons. split; [|done]. unfold h, is_u32, frame_word. unfold frame_headers.SuperFrame. lia.
Qed.

Section Controlled.
Context {C : Type} {HC : BasicInterface C} {HS : StreamLaws C} {HK : DialogController C}.
Context (rounds : nat) (enough_rounds : ∀ c, (length (cc_notes c) < rounds)%nat).
Context (deadline : Z).

(** What a transaction sees of the other side: the words on the way and the view. *)
Definition awaits (stream : list Z) (ref : Z) (v : View) (s : Dlg C) : Prop :=
  ∃ errors, on_line deadline stream ref errors v s.

Lemma doWrite_ok cmds ref v s :
  awaits [] ref v s → cmds ≠ [] → Forall mirrored cmds → zlen (make_command_buffer cmds) ≤ MirrorTransactionMaxWords →
  let '(out, v') := if triggers cmds then cc_execute (cc_write v cmds) else ([], cc_write v cmds) in
  ∃ s', doWrite (make_command_buffer cmds) s = Done (no_error, s')
    ∧ awaits (concat (cc_notes (dlg_dev s)) ++ mirror (cc_regs v) cmds ++ out) ref v' s' ∧ ∀ b, buf_of b s' = buf_of b s.
Proof.
  intros (errors & Ha & Hi & Hr & He & <-) Hne Hm Hl. pose proof (cc_answers deadline (dlg_dev s) cmds Ha Hi Hne Hm Hl) as H. cbv zeta in H.
  destruct (if triggers cmds then _ else _) as [out v']. destruct H as (c' & Hw & Ha' & Hv' & Hi').
  exists (set_dev c' s). split; [|split; [by exists errors|by intros []]].
  unfold doWrite, mbind, SM_bind, lower_write. rewrite Hw. unfold mret, SM_ret. by rewrite Z.eqb_refl.
Qed.

(** The first attempt succeeds. *)
Lemma super_tries_ok tries ret dest cmds c ref v s :
  awaits [] ref v s → Forall mirrored (cmds ++ [c]) → Forall no_read cmds → zlen (make_command_buffer (cmds ++ [c])) ≤ MirrorTransactionMaxWords →
  let '(out, v') := if triggers (cmds ++ [c]) then cc_execute (cc_write v (cmds ++ [c])) else ([], cc_write v (cmds ++ [c])) in
  ∃ s', super_tries rounds (S tries) ret (make_command_buffer (cmds ++ [c])) dest s = Done (no_error, s')
    ∧ awaits out ref v' s' ∧ filled dest (mirror (cc_regs v) (cmds ++ [c])) s s'.
Proof.
  intros Hs Hm Hn Hl. assert (Hne : cmds ++ [c] ≠ []) by (by destruct cmds). assert (Hreg : ∀ a, is_u32 (reg (cc_regs v) a)).
  { destruct Hs as (errors & Ha & _ & _ & _ & <-). intros a. by eapply cc_regs_words. }
  destruct (mirror_frame (cc_regs v) cmds c Hreg Hm Hn Hl) as (Hf & Hse & Hsu).
  pose proof (doWrite_ok (cmds ++ [c]) ref v s Hs Hne Hm Hl) as H. destruct (if triggers _ then _ else _) as [out v'].
  destruct H as (s1 & H1 & (errors1 & Hs1) & Hb1).
  destruct (readResponse_ok rounds is_super_buffer dest deadline (cc_notes (dlg_dev s)) (mirror (cc_regs v) (cmds ++ [c])) out ref errors1 v' s1)
    as (s2 & H2 & Hs2 & Hb2); try done; [apply cc_notes_ok|].
  exists s2. split; [|split; [by eexists|split; [apply Hb2|]]].
  - cbn [super_tries]. erewrite bind_Done_eq by exact H1. cbn [failed no_error Z.eqb negb].
    erewrite bind_Done_eq by exact H2. cbn [failed no_error Z.eqb negb]. unfold mbind, SM_bind, get_state, mret, SM_ret. cbv beta iota.
    rewrite (proj1 Hb2). unfold mirror. rewrite echo_last_read by done. rewrite zlen_app. by rewrite check_mirror_ok.
  - intros b Hb. by rewrite (proj2 Hb2 b Hb), Hb1.
Qed.

Lemma superTransaction_ok dest cmds c ref v s :
  awaits [] ref v s → Forall mirrored (cmds ++ [c]) → Forall no_read cmds → zlen (make_command_buffer (cmds ++ [c])) ≤ MirrorTransactionMaxWords →
  let '(out, v') := if triggers (cmds ++ [c]) then cc_execute (cc_write v (cmds ++ [c])) else ([], cc_write v (cmds ++ [c])) in
  ∃ s', superTransaction rounds (make_command_buffer (cmds ++ [c])) dest s = Done (no_error, s')
    ∧ awaits out ref v' s' ∧ filled dest (mirror (cc_regs v) (cmds ++ [c])) s s'.
Proof.
  intros Hs Hm Hn Hl. unfold superTransaction. destruct (Z.gtb_spec (zlen (make_command_buffer (cmds ++ [c]))) MirrorTransactionMaxWords); [lia|].
  exact (super_tries_ok _ no_error dest cmds c ref v s Hs Hm Hn Hl).
Qed.

Lemma next_reference_ok stream ref v s : awaits stream ref v s →
  ∃ s', next_reference s = Done (ref, s') ∧ awaits stream (u16 (ref + 1)) v s' ∧ ∀ b, buf_of b s' = buf_of b s.
Proof.
  intros (errors & Ha & Hi & <- & He & Hv). eexists. split; [reflexivity|]. split; [by exists errors|by intros []].
Qed.

Lemma readRegister_ok a old ref v s :
  awaits [] ref v s → is_u16 ref → is_u16 a →
  ∃ s', readRegister rounds a old s = Done ((no_error, reg (cc_regs v) a), s')
    ∧ awaits [] (u16 (ref + 1)) (cc_write v [mkSuper ReferenceWord 0 ref; mkSuper ReadLocal a 0]) s' ∧ ∀ b, b ≠ Response → buf_of b s' = buf_of b s.
Proof.
  intros Hs Hr Ha. destruct (next_reference_ok [] ref v s Hs) as (s1 & H1 & Hs1 & Hb1).
  pose proof (superTransaction_ok Response [mkSuper ReferenceWord 0 ref] (mkSuper ReadLocal a 0) (u16 (ref + 1)) v s1 Hs1) as H.
  destruct H as (s2 & H2 & Hs2 & Hb2).
  { apply Forall_cons. split; [by right|]. apply Forall_singleton. left. by apply read_access. }
  { by apply Forall_singleton. }
  { done. }
  exists s2. split_and!; [|done|].
  - unfold readRegister. erewrite bind_Done_eq by exact H1. cbv zeta. erewrite bind_Done_eq by exact H2. cbn [failed no_error Z.eqb negb].
    unfold mbind, SM_bind, get_state. cbv beta iota. rewrite (proj1 Hb2). done.
  - intros b Hb. by rewrite (proj2 Hb2 b Hb), Hb1.
Qed.

Lemma writeRegister_ok a x ref v s :
  awaits [] ref v s → is_u16 ref → is_u16 a → is_u32 x →
  let cmds := [mkSuper ReferenceWord 0 ref; mkSuper WriteLocal a x] in
  let '(out, v') := if triggers cmds then cc_execute (cc_write v cmds) else ([], cc_write v cmds) in
  ∃ s', writeRegister rounds a x s = Done (no_error, s') ∧ awaits out (u16 (ref + 1)) v' s' ∧ ∀ b, b ≠ Response → buf_of b s' = buf_of b s.
Proof.
  intros Hs Hr Ha Hx. destruct (next_reference_ok [] ref v s Hs) as (s1 & H1 & Hs1 & Hb1). cbv zeta.
  pose proof (superTransaction_ok Response [mkSuper ReferenceWord 0 ref] (mkSuper WriteLocal a x) (u16 (ref + 1)) v s1 Hs1) as H.
  cbn [app] in H. destruct (if triggers _ then _ else _) as [out v']. destruct H as (s2 & H2 & Hs2 & Hb2).
  { apply Forall_cons. split; [by right|]. apply Forall_singleton. left. by apply write_access. }
  { by apply Forall_singleton. }
  { done. }
  exists s2. split_and!; [|done|].
  - unfold writeRegister. erewrite bind_Done_eq by exact H1. cbv zeta. erewrite bind_Done_eq by exact H2. cbn [failed no_error Z.eqb negb].
    unfold mbind, SM_bind, get_state. cbv beta iota. rewrite (proj1 Hb2). done.
  - intros b Hb. by rewrite (proj2 Hb2 b Hb), Hb1.
Qed.

End Controlled.

(** ** Parts of an upload *)

Definition commands_size (cmds : list SuperCommand) : Z := zlen (cmds ≫= encode_super_command).

Lemma encoded_size_write c : su_type c = WriteLocal → super_get_encoded_size (su_type c) = 2 ∧ zlen (encode_super_command c) = 2.
Proof. intros H. unfold encode_super_command. by rewrite H. Qed.

(** A part is a prefix of the commands that fits the request and takes at least one. *)
Lemma next_part_ok cmds : ∀ size part others,
  Forall (λ c, su_type c = WriteLocal) cmds → next_part size cmds = (part, others) →
  cmds = part ++ others ∧ size + commands_size part ≤ Z.max size MirrorTransactionMaxContentsWords
  ∧ (cmds ≠ [] → size + 2 ≤ MirrorTransactionMaxContentsWords → part ≠ []).
Proof.
  induction cmds as [|c cmds IH]; intros size part others Hw H; cbn [next_part] in H.
  { injection H as <- <-. split_and!; [done| |done]. change (commands_size []) with 0. lia. }
  apply Forall_cons in Hw as [Hc Hw]. destruct (encoded_size_write c Hc) as [E1 E2]. rewrite E1 in H.
  destruct (Z.gtb_spec (size + 2) MirrorTransactionMaxContentsWords).
  { injection H as <- <-. split_and!; [done| |intros; lia]. change (commands_size []) with 0. lia. }
  destruct (next_part (size + 2) cmds) as [part' others'] eqn:E. injection H as <- <-.
  destruct (IH _ _ _ Hw E) as (-> & Hs & _). split_and!; [done| |done]. revert Hs. unfold commands_size. rewrite bind_cons, zlen_app, E2. lia.
Qed.

Lemma zlen_command_buffer cmds : zlen (make_command_buffer cmds) = 2 + commands_size cmds.
Proof. unfold make_command_buffer. rewrite !zlen_app, !zlen_cons, !zlen_nil. unfold commands_size. lia. Qed.

Lemma triggers_app cmds cmds' : triggers (cmds ++ cmds') = triggers cmds || triggers cmds'.
Proof. apply existsb_app. Qed.

Lemma high_writes_no_trigger a ws : stacks.StackMemoryBegin ≤ a → a + 4 * zlen ws ≤ 2 ^ 16 → triggers (writes_at (u16 a) ws) = false.
Proof.
  unfold stacks.StackMemoryBegin. intros Ha Hb. apply not_true_is_false. intros H. apply existsb_exists in H as (c & Hc & Hs).
  apply list_elem_of_In, list_elem_of_lookup in Hc as (i & Hi). unfold writes_at in Hi. rewrite list_lookup_imap in Hi.
  destruct (ws !! i) as [w|] eqn:E; [|done]. injection Hi as <-. apply lookup_lt_Some in E. unfold zlen in Hb.
  unfold starts in Hs. cbn [su_type su_address] in Hs. apply andb_true_iff in Hs as [Hs _]. apply andb_true_iff in Hs as [_ Hs].
  apply Z.eqb_eq in Hs. revert Hs. rewrite (u16_id a), u16_id by (split; lia). unfold stacks.Stack0TriggerRegister. lia.
Qed.

Section Uploads.
Context {C : Type} {HC : BasicInterface C} {HS : StreamLaws C} {HK : DialogController C}.
Context (rounds : nat) (enough_rounds : ∀ c, (length (cc_notes c) < rounds)%nat).
Context (deadline : Z).

Lemma upload_parts_ok dest : ∀ fuel cmds ref v s,
  (length cmds ≤ fuel)%nat → Forall register_access cmds → Forall (λ c, su_type c = WriteLocal) cmds → triggers cmds = false →
  awaits deadline [] ref v s →
  ∃ s' v', upload_parts rounds fuel cmds dest s = Done (no_error, s') ∧ awaits deadline [] ref v' s'
    ∧ cc_regs v' = foldl apply_write (cc_regs v) cmds.
Proof.
  induction fuel as [|fuel IH]; intros cmds ref v s Hl Ha Hw Ht Hs.
  { destruct cmds; [|cbn in Hl; lia]. by exists s, v. }
  destruct cmds as [|c0 cmds0]; [by exists s, v|]. cbn [upload_parts]. set (cmds := c0 :: cmds0) in *.
  destruct (next_part 0 cmds) as [part others] eqn:E. destruct (next_part_ok _ _ _ _ Hw E) as (Heq & Hsize & Hne).
  specialize (Hne ltac:(done) ltac:(done)). clearbody cmds. subst cmds. clear E. apply Forall_app in Ha as [Ha Ha'].
  apply Forall_app in Hw as [Hw Hw']. rewrite triggers_app in Ht. apply orb_false_iff in Ht as [Ht Ht'].
  destruct (exists_last Hne) as (front & c & ->).
  pose proof (superTransaction_ok rounds enough_rounds deadline dest front c ref v s Hs) as H. rewrite Ht in H.
  destruct H as (s1 & H1 & Hs1 & _).
  { eapply Forall_impl; [exact Ha|]. by left. }
  { apply Forall_app in Hw as [Hw _]. eapply Forall_impl; [exact Hw|]. intros d Hd. unfold no_read. by rewrite Hd. }
  { rewrite zlen_command_buffer. unfold MirrorTransactionMaxContentsWords, MirrorTransactionMaxWords in *. lia. }
  destruct (IH others ref _ s1 ltac:(rewrite !length_app in Hl; cbn in Hl; lia) Ha' Hw' Ht' Hs1) as (s2 & v2 & H2 & Hs2 & Hr2).
  exists s2, v2. split_and!; [|done|by rewrite Hr2, cc_write_regs, <- foldl_app].
  erewrite bind_Done_eq by exact H1. exact H2.
Qed.

(** A stack that passes the size check is stored: the words lie between the start and the
    end word at consecutive addresses, in whatever number of requests it was sent. *)
Lemma uploadStack_ok dest pipe off commands buf ref v s :
  awaits deadline [] ref v s → make_stack_buffer commands = Return buf → Forall is_u32 buf → is_u8 pipe →
  0 ≤ off → stacks.StackMemoryBegin + off + 4 * zlen buf < stacks.StackMemoryEnd →
  ∃ s' v', uploadStack rounds pipe off commands dest s = Done (no_error, s') ∧ awaits deadline [] ref v' s'
    ∧ stored_at (cc_regs v') (stacks.StackMemoryBegin + off) (upload_contents pipe buf)
    ∧ ∀ k, k < stacks.StackMemoryBegin + off ∨ stacks.StackMemoryBegin + off + 4 * (zlen buf + 2) ≤ k → cc_regs v' !! k = cc_regs v !! k.
Proof.
  intros Hs Hb Hw Hp Ho Hfit. unfold stacks.StackMemoryEnd, stacks.StackMemoryBytes, stacks.StackMemoryWords in Hfit.
  assert (Hlen : zlen (upload_contents pipe buf) = zlen buf + 2) by (unfold upload_contents; rewrite !zlen_app, !zlen_cons, !zlen_nil; lia).
  assert (Hcw : Forall is_u32 (upload_contents pipe buf)) by exact (part_words_range pipe true true buf Hp Hw).
  set (a := stacks.StackMemoryBegin + off) in *. assert (Ha : stacks.StackMemoryBegin ≤ a) by (unfold a; lia).
  unfold stacks.StackMemoryBegin in Ha, Hfit.
  destruct (upload_parts_ok dest (length (make_stack_upload_commands pipe off buf)) (make_stack_upload_commands pipe off buf) ref v s)
    as (s' & v' & H' & Hs' & Hr'); try done.
  { rewrite upload_commands_writes. by apply writes_at_access. }
  { rewrite upload_commands_writes. apply Forall_lookup. intros i c. unfold writes_at. rewrite list_lookup_imap.
    destruct (_ !! i); [|done]. by intros [= <-]. }
  { rewrite upload_commands_writes. apply high_writes_no_trigger; [done|]. rewrite Hlen. fold a. lia. }
  exists s', v'. split; [|split; [done|]].
  - unfold uploadStack. erewrite bind_Done_eq by (unfold lift; rewrite Hb; reflexivity). fold a.
    destruct (Z.geb_spec (a + zlen buf * 4) stacks.StackMemoryEnd) as [Hge|]; [|exact H'].
    unfold stacks.StackMemoryEnd, stacks.StackMemoryBegin, stacks.StackMemoryBytes, stacks.StackMemoryWords in Hge. lia.
  - rewrite Hr', upload_commands_writes. fold a. rewrite <- Hlen. apply stored_at_writes; [lia|rewrite Hlen; lia].
Qed.

(** The size check leaves out the start and the end word: the end word of the largest stack
    that passes is written behind the stack memory. *)
Lemma upload_end_outside dest pipe commands buf ref v s :
  awaits deadline [] ref v s → make_stack_buffer commands = Return buf → Forall is_u32 buf → is_u8 pipe → zlen buf = 2047 →
  ∃ s' v', uploadStack rounds pipe 0 commands dest s = Done (no_error, s') ∧ awaits deadline [] ref v' s'
    ∧ cc_regs v' !! stacks.StackMemoryEnd = Some (u32 (StackCommandType.StackEnd ≪ stack_commands.CmdShift)).
Proof.
  intros Hs Hb Hw Hp Hl. destruct (uploadStack_ok dest pipe 0 commands buf ref v s) as (s' & v' & H' & Hs' & Hst & _); try done; [by rewrite Hl|].
  exists s', v'. split_and!; [done|done|]. rewrite <- (Hst 2048%nat); [done|]. unfold upload_contents, zlen in *.
  rewrite app_assoc, lookup_app_r; rewrite length_app; cbn [length]; [|lia]. by replace (2048 - (1 + length buf))%nat with 0%nat by lia.
Qed.

End Uploads.

(** ** Stack responses *)

Definition head_flags (frame : list Z) : Z := fi_flags (extract_frame_info (default 0 (frame !! 0%nat))).

(** Continuation frames, each with the notifications in front of it; all but the last frame
    have the Continue flag. *)
Fixpoint chain (rounds : nat) (flags : Z) (conts : list (list (list Z) * list Z)) : Prop :=
  match conts with
  | [] => flags .& frame_flags.Continue = 0
  | (notes, frame) :: conts =>
      flags .& frame_flags.Continue ≠ 0 ∧ (length notes < rounds)%nat ∧ Forall notification notes ∧ whole_frame frame
      ∧ is_stack_buffer_continuation (default 0 (frame !! 0%nat)) = true ∧ chain rounds (head_flags frame) conts
  end.

Definition chain_words (conts : list (list (list Z) * list Z)) : list Z := conts ≫= λ '(notes, frame), concat notes ++ frame.
Definition last_flags (flags : Z) (conts : list (list (list Z) * list Z)) : Z := foldl (λ _ '(_, frame), head_flags frame) flags conts.

(** The error that the flags of the last frame stand for.  Bus errors are not reported. *)
Definition stack_result (flags : Z) : error_code :=
  if negb ((flags .& frame_flags.Timeout) =? 0) then Mvlc MVLCErrorCode.NoVMEResponse
  else if negb ((flags .& frame_flags.SyntaxError) =? 0) then Mvlc MVLCErrorCode.StackSyntaxError
  else no_error.

Lemma type_not_error (f : Z) h : f ≠ frame_headers.StackError → (get_frame_type h =? f) = true → is_stackerror_notification h = false.
Proof. intros Hf H. apply Z.eqb_eq in H. unfold is_stackerror_notification. rewrite H. by apply Z.eqb_neq. Qed.

Section Responses.
Context {C : Type} {HC : BasicInterface C} {HS : StreamLaws C} {HK : DialogController C}.
Context (rounds : nat) (enough_rounds : ∀ c, (length (cc_notes c) < rounds)%nat).
Context (deadline : Z).

Lemma read_continuations_ok dest conts : dest ≠ Local → ∀ fuel flags ref v s,
  (length conts ≤ fuel)%nat → chain rounds flags conts → awaits deadline (chain_words conts) ref v s →
  ∃ s', read_continuations rounds fuel flags dest s = Done ((no_error, last_flags flags conts), s')
    ∧ awaits deadline [] ref v s' ∧ buf_of dest s' = buf_of dest s ++ concat conts.*2.
Proof.
  intros Hd. induction conts as [|[notes frame] conts IH]; intros fuel flags ref v s Hl Hc Hs.
  { exists s. cbn in Hc. destruct fuel; cbn [read_continuations]; rewrite Hc; by rewrite app_nil_r. }
  destruct fuel as [|fuel]; [cbn in Hl; lia|]. destruct Hc as (Hf & Hn & Hnn & Hw & Hk & Hc). destruct Hs as (errors & Hs).
  cbn [chain_words] in Hs. unfold chain_words in Hs. rewrite bind_cons, <- app_assoc in Hs.
  destruct (readResponse_ok rounds is_stack_buffer_continuation Local deadline notes frame (chain_words conts) ref errors v s)
    as (s1 & H1 & Hs1 & Hb1); try done; [by apply (type_not_error frame_headers.StackContinuation)|].
  destruct (IH fuel (head_flags frame) ref v (with_buf dest (buf_of dest s1 ++ frame) s1)) as (s2 & H2 & Hs2 & Hb2);
    [cbn in Hl; lia|done|eexists; by apply with_buf_on_line|].
  exists s2. split_and!; [|done|].
  - cbn [read_continuations]. apply Z.eqb_neq in Hf. rewrite Hf. erewrite bind_Done_eq by exact H1. cbn [failed no_error Z.eqb negb].
    unfold mbind, SM_bind, get_state, set_buf. cbv beta iota zeta. rewrite (proj1 Hb1). exact H2.
  - rewrite Hb2. replace (buf_of dest (with_buf dest _ s1)) with (buf_of dest s1 ++ frame) by (by destruct dest).
    rewrite (proj2 Hb1 dest Hd). cbn [fmap list_fmap concat snd]. by rewrite app_assoc.
Qed.

Lemma run_immediate_stack_ok off dest notes frame conts ref v v' s :
  let refs := [mkSuper ReferenceWord 0 ref; mkSuper WriteLocal stacks.Stack0OffsetRegister off] in
  let start := [mkSuper ReferenceWord 0 (u16 (ref + 1)); mkSuper WriteLocal stacks.Stack0TriggerRegister (1 ≪ stacks.ImmediateShift)] in
  awaits deadline [] ref v s → is_u16 ref → is_u32 off → dest ≠ Local →
  cc_execute (cc_write (cc_write v refs) start) = (concat notes ++ frame ++ chain_words conts, v') →
  (length notes < rounds)%nat → (length conts ≤ rounds)%nat → Forall notification notes → whole_frame frame →
  is_stack_buffer (default 0 (frame !! 0%nat)) = true → chain rounds (head_flags frame) conts →
  ∃ s', run_immediate_stack rounds off dest s = Done (stack_result (last_flags (head_flags frame) conts), s')
    ∧ awaits deadline [] (u16 (u16 (ref + 1) + 1)) v' s' ∧ buf_of dest s' = frame ++ concat conts.*2.
Proof.
  intros refs start Hs Hr Ho Hd He Hn Hl Hnn Hf Hk Hc.
  destruct (writeRegister_ok rounds enough_rounds deadline stacks.Stack0OffsetRegister off ref v s Hs Hr ltac:(done) Ho) as (s1 & H1 & Hs1 & _).
  pose proof (writeRegister_ok rounds enough_rounds deadline stacks.Stack0TriggerRegister (1 ≪ stacks.ImmediateShift) (u16 (ref + 1)) _ s1
    Hs1 (u16_range _) ltac:(done) ltac:(done)) as H. cbv zeta in H. fold start in H. change (triggers start) with true in H. cbv iota in H.
  fold refs in H. rewrite He in H. destruct H as (s2 & H2 & (errors & Hs2) & _).
  destruct (readResponse_ok rounds is_stack_buffer dest deadline notes frame (chain_words conts) (u16 (u16 (ref + 1) + 1)) errors v' s2) as (s3 & H3 & Hs3 & Hb3); try done.
  { by apply (type_not_error frame_headers.StackFrame). }
  destruct (read_continuations_ok dest conts Hd rounds (head_flags frame) (u16 (u16 (ref + 1) + 1)) v' (with_buf Local [] s3)) as (s4 & H4 & Hs4 & Hb4);
    [done|done|eexists; by apply with_buf_on_line|].
  exists s4. split_and!; [|done|].
  - unfold run_immediate_stack. erewrite bind_Done_eq by exact H1. cbn [failed no_error Z.eqb negb].
    erewrite bind_Done_eq by exact H2. cbn [failed no_error Z.eqb negb]. erewrite bind_Done_eq by exact H3. cbn [failed no_error Z.eqb negb].
    unfold mbind at 1 2, SM_bind at 1 2, get_state at 1, set_buf at 1. cbv beta iota zeta. rewrite (proj1 Hb3). erewrite bind_Done_eq by exact H4. done.
  - rewrite Hb4. f_equal. rewrite <- (proj1 Hb3). by destruct dest.
Qed.

(** The view after a stack transaction has sent [cmds] and started stack 0. *)
Definition started (v : View) (ref : Z) (cmds : list SuperCommand) : View :=
  cc_write (cc_write (cc_write v cmds) [mkSuper ReferenceWord 0 ref; mkSuper WriteLocal stacks.Stack0OffsetRegister 0])
    [mkSuper ReferenceWord 0 (u16 (ref + 1)); mkSuper WriteLocal stacks.Stack0TriggerRegister (1 ≪ stacks.ImmediateShift)].

(** A stack transaction uploads its commands, starts stack 0 and returns the frames of
    the response one after the other: a response in several frames is read up to the first
    frame without the Continue flag, error notifications in between are counted and left
    out, and the code reports the flags of the last frame. *)
Lemma stackTransaction_ok cmds c dest notes frame conts ref v v' s :
  awaits deadline [] ref v s → is_u16 ref → dest ≠ Local →
  Forall mirrored (cmds ++ [c]) → Forall no_read cmds → triggers (cmds ++ [c]) = false →
  zlen (make_command_buffer (cmds ++ [c])) ≤ MirrorTransactionMaxWords →
  cc_execute (started v ref (cmds ++ [c])) = (concat notes ++ frame ++ chain_words conts, v') →
  (length notes < rounds)%nat → (length conts ≤ rounds)%nat → Forall notification notes → whole_frame frame →
  is_stack_buffer (default 0 (frame !! 0%nat)) = true → chain rounds (head_flags frame) conts →
  ∃ s', stackTransaction rounds (make_command_buffer (cmds ++ [c])) dest s = Done (stack_result (last_flags (head_flags frame) conts), s')
    ∧ awaits deadline [] (u16 (u16 (ref + 1) + 1)) v' s' ∧ buf_of dest s' = frame ++ concat conts.*2.
Proof.
  intros Hs Hr Hd Hm Hnr Ht Hl He Hn Hlc Hnn Hf Hk Hc.
  pose proof (superTransaction_ok rounds enough_rounds deadline dest cmds c ref v s Hs Hm Hnr Hl) as H. rewrite Ht in H.
  destruct H as (s1 & H1 & Hs1 & _).
  destruct (run_immediate_stack_ok 0 dest notes frame conts ref _ v' s1 Hs1 Hr ltac:(done) Hd He Hn Hlc Hnn Hf Hk Hc) as (s2 & H2 & Hs2 & Hb2).
  exists s2. split; [|done]. unfold stackTransaction. erewrite bind_Done_eq by exact H1. exact H2.
Qed.

End Responses.

(** ** Requests that fail *)

(** A request with two reads is executed, but its response does not pass the check: the
    value of the first read stands where the check expects the second command. *)
Lemma two_reads_rejected m ref a b :
  is_u16 ref → is_u16 a → is_u16 b → reg m a ≠ SuperCT_value ReadLocal * 2 ^ 16 + b →
  let cmds := [mkSuper ReferenceWord 0 ref; mkSuper ReadLocal a 0; mkSuper ReadLocal b 0] in
  check_mirror (make_command_buffer cmds) (mirror m cmds) = Mvlc MVLCErrorCode.MirrorNotEqual.
Proof.
  intros Hr Ha Hb Hne. cbv zeta. unfold mirror, make_command_buffer. cbn [echo app mbind list_bind].
  rewrite (bool_decide_eq_false_2 (su_type (mkSuper ReferenceWord 0 ref) = ReadLocal)), !bool_decide_eq_true_2 by done.
  unfold encode_super_command. cbn [su_type su_address su_value app]. rewrite !super_word_sum by done. unfold check_mirror.
  rewrite !(bool_decide_eq_false_2 (_ :: _ = [])) by done. set (h := frame_word _ _ _ _ _).
  match goal with |- (if ?c then _ else _) = _ => change c with false end. cbn [length Nat.sub drop take].
  rewrite bool_decide_eq_false_2; [done|]. unfold apply_write. cbn [su_type su_address]. congruence.
Qed.

Section Silence.
Context {C : Type} {HC : BasicInterface C}.
Context (rounds : nat).

(** A controller that takes every request and never answers: after [MirrorMaxRetries]
    requests the timeout of the last read is returned. *)
Lemma silent_controller (sent waited : C → C) ec cmdBuffer dest s :
  (∀ c, bi_write Command (words_to_bytes cmdBuffer) c = (no_error, 4 * zlen cmdBuffer, sent c)) →
  (∀ c, bi_read Command 4 c = (ec, [], waited c)) →
  failed ec = true → is_timeout ec = true → bi_connectionType = ETH → zlen cmdBuffer ≤ MirrorTransactionMaxWords → (0 < rounds)%nat →
  superTransaction rounds cmdBuffer dest s
  = Done (ec, with_buf dest [] (set_dev (Nat.iter MirrorMaxRetries (waited ∘ sent) (dlg_dev s)) s)).
Proof.
  intros Hw Hr Hf Ht Hc Hl Hro. destruct rounds as [|fuel]; [lia|]. unfold superTransaction.
  destruct (Z.gtb_spec (zlen cmdBuffer) MirrorTransactionMaxWords); [lia|].
  assert (Hk : ∀ s', readKnownBuffer dest s' = Done (ec, with_buf dest [] (set_dev (waited (dlg_dev s')) s'))).
  { intros s'. unfold readKnownBuffer, readWords. cbn [Z.eqb]. unfold mbind, SM_bind, set_buf, get_state. cbv beta iota.
    rewrite Hc. cbn [bool_decide]. rewrite bool_decide_eq_false_2 by done. cbn [andb read_attempts]. unfold mbind, SM_bind, lower_read. change (1 * 4) with 4.
    rewrite Hr, Ht. cbn [andb]. rewrite zlen_nil. cbn [Z.eqb]. unfold mret, SM_ret. rewrite Hf. cbn [negb andb]. rewrite Hf. by destruct dest. }
  assert (Hone : ∀ tries ret s', super_tries (S fuel) (S tries) ret cmdBuffer dest s'
    = super_tries (S fuel) tries ec cmdBuffer dest (with_buf dest [] (set_dev (waited (sent (dlg_dev s'))) s'))).
  { intros tries ret s'. cbn [super_tries]. assert (Hd : doWrite cmdBuffer s' = Done (no_error, set_dev (sent (dlg_dev s')) s')).
    { unfold doWrite, mbind, SM_bind, lower_write. rewrite Hw. unfold mret, SM_ret. by rewrite Z.eqb_refl. }
    erewrite bind_Done_eq by exact Hd. cbn [failed no_error Z.eqb negb]. unfold readResponse. cbn [read_response_loop].
    unfold mbind, SM_bind, get_state. cbv beta iota.
    rewrite Hk, Hf. unfold mret, SM_ret. cbv beta iota. rewrite Hf, Ht, ?Hf. by destruct dest. }
  unfold MirrorMaxRetries. rewrite !Hone. cbn [super_tries Nat.iter]. unfold mret, SM_ret. by destruct dest.
Qed.
End Silence.
