(* ===== verification/DialogVme.v ===== *)
(** * VME accesses of the dialog layer

    A VME access is uploaded as a stack of one command and executed at once.  The
    controller's side of it is the class [DialogVME]; a simulated controller is an instance
    of it and of the classes below it. *)

From S2P Require Import Prelude Effects Constants Frames FramesFacts Commands CommandsFacts StackErrors Errors ReadoutBuffer CmdPipe CmdPipeFacts CmdApiLaws CmdApiController CmdApiExec Dialog DialogFacts.

(** The response to a stack with one VME access: one frame, or several for a block read.
    Register accesses leave the bus alone. *)
Class DialogVME (C : Type) `{DialogController C} : Type := {
  cv_read : View → Z → Z → Z → Z * Z;
  cv_read_write v cmds a amod w : cv_read (cc_write v cmds) a amod w = cv_read v a amod w;
  cv_read_flags v a amod w : 0 ≤ (cv_read v a amod w).1 < 8;
  cv_read_word v a amod w : is_u32 (cv_read v a amod w).2;
  cv_executes_read v a amod w :
    is_u8 amod → vme_amods.is_block_mode amod = false → is_u8 w →
    program (cc_regs v) [stack_word (CommandType_value VMERead) amod w; a] →
    let '(flags, x) := cv_read v a amod w in ∃ v', cc_execute v = ([stack_header flags 1; x], v')
}.

(** ** The request of an access *)

Definition access_request (ref : Z) (ws : list Z) : list SuperCommand :=
  mkSuper ReferenceWord 0 ref :: writes_at (u16 stacks.StackMemoryBegin) (upload_contents CommandPipe ws).

Lemma access_upload ref builder ws :
  make_stack_buffer (getCommands builder) = Return ws →
  su_addStackUpload (su_addReferenceWord [] ref) builder CommandPipe 0 = Return (access_request ref ws).
Proof.
  intros H. unfold su_addStackUpload, make_stack_upload_commands_of. rewrite H. cbn [mbind outcome_bind].
  rewrite upload_commands_writes, Z.add_0_r. done.
Qed.

Lemma upload_contents_size ws : zlen (upload_contents CommandPipe ws) = zlen ws + 2.
Proof. unfold upload_contents. rewrite !zlen_app, !zlen_cons, !zlen_nil. lia. Qed.

Lemma upload_contents_words ws : Forall is_u32 ws → Forall is_u32 (upload_contents CommandPipe ws).
Proof. intros H. exact (part_words_range CommandPipe true true ws ltac:(done) H). Qed.

Lemma writes_at_types a ws : Forall (λ c, su_type c = WriteLocal) (writes_at a ws).
Proof.
  apply Forall_lookup. intros i c. unfold writes_at. rewrite list_lookup_imap. destruct (ws !! i); [|done]. by intros [= <-].
Qed.

Lemma writes_size a ws : zlen (writes_at a ws ≫= encode_super_command) = 2 * zlen ws.
Proof.
  transitivity (2 * zlen (writes_at a ws)); [|unfold writes_at, zlen; by rewrite length_imap].
  induction (writes_at_types a ws) as [|c cs Hc Hcs IH]; [done|]. rewrite bind_cons, zlen_app, zlen_cons, IH.
  rewrite (proj2 (encoded_size_write c Hc)). lia.
Qed.

(** The request in the form that [check_mirror] accepts: all commands but the last are no
    reads. *)
Lemma access_request_shape ref ws :
  is_u16 ref → Forall is_u32 ws → zlen ws ≤ 100 →
  ∃ cmds c, access_request ref ws = cmds ++ [c] ∧ Forall mirrored (cmds ++ [c]) ∧ Forall no_read cmds ∧ triggers (cmds ++ [c]) = false
    ∧ zlen (make_command_buffer (cmds ++ [c])) ≤ MirrorTransactionMaxWords.
Proof.
  intros Hr Hw Hl. destruct (exists_last (l := access_request ref ws) ltac:(done)) as (cmds & c & E). exists cmds, c.
  split; [done|]. rewrite <- E. pose proof (upload_contents_size ws) as Hs. split_and!.
  - apply Forall_cons. split; [by right|]. eapply Forall_impl; [apply writes_at_access, upload_contents_words, Hw|]. by left.
  - assert (Hn : Forall no_read (access_request ref ws)).
    { apply Forall_cons. split; [done|]. eapply Forall_impl; [apply writes_at_types|]. intros d Hd. unfold no_read. by rewrite Hd. }
    rewrite E in Hn. by apply Forall_app in Hn as [Hn _].
  - unfold access_request, triggers. cbn [existsb]. apply high_writes_no_trigger; [done|]. rewrite Hs. unfold stacks.StackMemoryBegin. lia.
  - rewrite zlen_command_buffer. unfold commands_size, access_request. rewrite bind_cons, zlen_app, writes_size, Hs.
    change (zlen (encode_super_command (mkSuper ReferenceWord 0 ref))) with 1. unfold MirrorTransactionMaxWords. lia.
Qed.

Section Access.
Context {C : Type} {HC : BasicInterface C} {HS : StreamLaws C} {HK : DialogController C}.

Lemma started_regs v ref cmds :
  cc_regs (started v ref cmds)
  = <[stacks.Stack0TriggerRegister := 1 ≪ stacks.ImmediateShift]> (<[stacks.Stack0OffsetRegister := 0]> (foldl apply_write (cc_regs v) cmds)).
Proof. unfold started. by rewrite !cc_write_regs. Qed.

(** When the stack starts, the registers hold the program. *)
Lemma program_started v ref ref' ws : zlen ws ≤ 100 → program (cc_regs (started v ref' (access_request ref ws))) ws.
Proof.
  intros Hl. exists 0. rewrite started_regs.
  split; [by rewrite lookup_insert_ne, lookup_insert_eq by done|]. rewrite Z.add_0_r. unfold access_request. cbn [foldl].
  destruct (stored_at_writes (upload_contents CommandPipe ws) (apply_write (cc_regs v) (mkSuper ReferenceWord 0 ref)) stacks.StackMemoryBegin)
    as [Hst _]; [done|rewrite upload_contents_size; unfold stacks.StackMemoryBegin; lia|].
  intros i w Hi. rewrite <- (Hst i w Hi). unfold stacks.Stack0TriggerRegister, stacks.Stack0OffsetRegister, stacks.StackMemoryBegin.
  by rewrite !lookup_insert_ne by lia.
Qed.

Context {HV : DialogVME C}.
Context (rounds : nat) (enough_rounds : ∀ c, (length (cc_notes c) < rounds)%nat).
Context (deadline : Z).

Lemma started_read v ref cmds a amod w : cv_read (started v ref cmds) a amod w = cv_read v a amod w.
Proof. unfold started. by rewrite !cv_read_write. Qed.

Lemma read_stack_words a amod w :
  is_u32 a → is_u8 amod → vme_amods.is_block_mode amod = false → is_u8 w →
  make_stack_buffer (getCommands (addVMERead a amod w false true empty_builder)) = Return [stack_word (CommandType_value VMERead) amod w; a].
Proof.
  intros Ha Ham Hb Hw. cbn [addVMERead addCommand getCommands empty_builder]. unfold make_stack_buffer. cbn.
  unfold encode_read_word. cbn. rewrite Hb. cbn [negb]. rewrite Z.lor_0_r.
  pose proof (access_word VMERead amod w Ham Hw) as E. cbn [CommandType_value] in *. by rewrite E.
Qed.

(** A response frame of one word. *)
Lemma response_frame flags x :
  0 ≤ flags < 8 → is_u32 x →
  whole_frame [stack_header flags 1; x] ∧ is_stack_buffer (stack_header flags 1) = true ∧ head_flags [stack_header flags 1; x] = flags
  ∧ flags .& frame_flags.Continue = 0.
Proof.
  intros Hf Hx. assert (Hc : flags = 0 ∨ flags = 1 ∨ flags = 2 ∨ flags = 3 ∨ flags = 4 ∨ flags = 5 ∨ flags = 6 ∨ flags = 7) by lia.
  unfold whole_frame. destruct Hc as [->|[->|[->|[->|[->|[->|[->| ->]]]]]]]; (split_and!; [done|done| |done|done|done]); by repeat (apply Forall_cons; split).
Qed.

(** C18: A single cycle VME read of the dialog layer returns the value that the addressed
    module sends, cut to the data width.  A read that times out on the bus or that the
    controller rejects is reported and leaves the output parameter alone; a bus error flag
    is not reported. *)
Theorem dialog_vme_read a old amod w ref v s :
  awaits deadline [] ref v s → is_u16 ref → is_u32 a → is_u8 amod → vme_amods.is_block_mode amod = false → is_u8 w →
  let '(flags, x) := cv_read v a amod w in
  ∃ s' v', vmeRead rounds a old amod w s
      = Done (if failed (stack_result flags) then (stack_result flags, old)
              else (no_error, x .& (if w =? VMEDataWidth.D16 then 0xFFFF else 0xFFFFFFFF)), s')
    ∧ awaits deadline [] (u16 (u16 (u16 (ref + 1) + 1) + 1)) v' s'.
Proof.
  intros Hs Hr Ha Ham Hb Hw. set (ws := [stack_word (CommandType_value VMERead) amod w; a]).
  destruct (next_reference_ok deadline [] ref v s Hs) as (s1 & H1 & Hs1 & _).
  assert (Hws : Forall is_u32 ws) by (apply Forall_cons; split; [by apply access_word_range|by apply Forall_singleton]).
  destruct (access_request_shape ref ws Hr Hws ltac:(done)) as (cmds & c & Eq & Hm & Hn & Ht & Hl).
  pose proof (cv_executes_read (started v (u16 (ref + 1)) (access_request ref ws)) a amod w Ham Hb Hw) as He.
  pose proof (cv_read_flags v a amod w) as Hfl. pose proof (cv_read_word v a amod w) as Hx. rewrite started_read in He.
  destruct (cv_read v a amod w) as [flags x]. cbn [fst snd] in Hfl, Hx. destruct He as [v' He]; [by apply program_started|].
  destruct (response_frame flags x Hfl Hx) as (Hwf & Hsb & Hhf & Hnc). rewrite Eq in He.
  destruct (stackTransaction_ok rounds enough_rounds deadline cmds c Response [] [stack_header flags 1; x] [] (u16 (ref + 1)) v v' s1)
    as (s2 & H2 & Hs2 & Hb2); try done; [apply u16_range|pose proof (enough_rounds (dlg_dev s)); cbn; lia|cbn; lia|by rewrite Hhf|].
  exists s2, v'. split; [|done]. unfold vmeRead. erewrite bind_Done_eq by exact H1. unfold su_addVMERead.
  erewrite bind_Done_eq by (unfold lift; erewrite access_upload by (by apply read_stack_words); reflexivity). fold ws. rewrite Eq.
  erewrite bind_Done_eq by exact H2. cbn [last_flags foldl]. rewrite Hhf. destruct (failed (stack_result flags)) eqn:Ef; [done|].
  unfold mbind, SM_bind, get_state. cbv beta iota. rewrite Hb2. cbn [app concat fmap list_fmap].
  change (zlen [stack_header flags 1; x] =? 2) with true. cbn [negb]. fold (head_flags [stack_header flags 1; x]). rewrite Hhf.
  revert Ef. unfold stack_result. destruct (flags .& frame_flags.Timeout =? 0); [|done]. cbn [negb].
  destruct (flags .& frame_flags.SyntaxError =? 0); [|done]. done.
Qed.

End Access.

(** ** Block reads *)

Lemma lor_u32 x y : is_u32 x → is_u32 y → is_u32 (x .| y).
Proof.
  unfold is_u32. intros [Hx Hx'] [Hy Hy']. split; [by apply Z.lor_nonneg|].
  rewrite <- (Z.mod_small x (2 ^ 32)), <- (Z.mod_small y (2 ^ 32)) by lia. rewrite <- !Z.land_ones, <- Z.land_lor_distr_l, Z.land_ones by lia.
  apply Z.mod_pos_bound. lia.
Qed.

Lemma block_stack_words a amod n :
  is_u32 a → is_u8 amod →
  ∃ word, make_stack_buffer (getCommands (addVMEBlockRead a amod n true empty_builder)) = Return [word; a] ∧ is_u32 word.
Proof.
  intros Ha Ham. eexists. split; [reflexivity|]. unfold encode_read_word, stack_commands.CmdArg0Shift, stack_commands.CmdArg1Shift, stack_commands.CmdArg1Mask.
  cbn -[u32 Z.shiftl Z.lor Z.land vme_amods.is_block_mode vme_amods.is_blt_mode vme_amods.is_mblt_mode vme_amods.is_esst64_mode Z.pow].
  assert (H0 : ∀ z, is_u32 (u32 z)) by (intros z; apply Z.mod_pos_bound; lia).
  assert (H1 : is_u32 (amod ≪ 16)) by (rewrite shiftl_mul by lia; unfold is_u8, is_u32 in *; lia).
  assert (H2 : is_u32 ((n .& 0xFFFF) ≪ 0)).
  { rewrite Z.shiftl_0_r. change 0xFFFF with (2 ^ 16 - 1). rewrite land_mask by lia. pose proof (field_range n 16). unfold is_u32. lia. }
  repeat case_match; repeat apply lor_u32; auto.
Qed.

Section BlockReads.
Context {C : Type} {HC : BasicInterface C} {HS : StreamLaws C} {HK : DialogController C}.
Context (rounds : nat) (enough_rounds : ∀ c, (length (cc_notes c) < rounds)%nat).
Context (deadline : Z).

(** A block read of the dialog layer returns the frames of the response one after the
    other: a response in several frames is read up to the first frame without the Continue
    flag, error notifications in between are counted and left out, and the code reports the
    flags of the last frame. *)
Theorem dialog_block_read a amod n ws notes frame conts ref v v' s :
  awaits deadline [] ref v s → is_u16 ref → is_u32 a → is_u8 amod → vme_amods.is_block_mode amod = true →
  make_stack_buffer (getCommands (addVMEBlockRead a amod n true empty_builder)) = Return ws →
  cc_execute (started v (u16 (ref + 1)) (access_request ref ws)) = (concat notes ++ frame ++ chain_words conts, v') →
  (length notes < rounds)%nat → (length conts ≤ rounds)%nat → Forall notification notes → whole_frame frame →
  is_stack_buffer (default 0 (frame !! 0%nat)) = true → chain rounds (head_flags frame) conts →
  ∃ s', vmeBlockRead rounds a amod n Caller s = Done (stack_result (last_flags (head_flags frame) conts), s')
    ∧ awaits deadline [] (u16 (u16 (u16 (ref + 1) + 1) + 1)) v' s' ∧ dlg_caller s' = frame ++ concat conts.*2.
Proof.
  intros Hs Hr Ha Ham Hb Hws He Hn Hlc Hnn Hf Hk Hc. destruct (block_stack_words a amod n Ha Ham) as (word & Hws' & Hword).
  rewrite Hws in Hws'. injection Hws' as ->. destruct (next_reference_ok deadline [] ref v s Hs) as (s1 & H1 & Hs1 & _).
  destruct (access_request_shape ref [word; a] Hr ltac:(by repeat (apply Forall_cons; split)) ltac:(done)) as (cmds & c & Eq & Hm & Hno & Ht & Hl).
  rewrite Eq in He.
  destruct (stackTransaction_ok rounds enough_rounds deadline cmds c Caller notes frame conts (u16 (ref + 1)) v v' s1)
    as (s2 & H2 & Hs2 & Hb2); try done; [apply u16_range|].
  exists s2. split; [|done]. unfold vmeBlockRead. rewrite Hb. cbn [negb]. erewrite bind_Done_eq by exact H1. unfold su_addVMEBlockRead.
  erewrite bind_Done_eq by (unfold lift; erewrite access_upload by exact Hws; reflexivity). rewrite Eq. exact H2.
Qed.

End BlockReads.

(** ** Reading an upload back *)

Section Readback.
Context {C : Type} {HC : BasicInterface C} {HS : StreamLaws C} {HK : DialogController C}.
Context (rounds : nat) (enough_rounds : ∀ c, (length (cc_notes c) < rounds)%nat).
Context (deadline : Z).

(** C19: A stack that the dialog layer has uploaded can be read back: the size check lets the
    stack pass, the upload succeeds in whatever number of requests it takes, and reading the
    registers of the stack memory gives the start word with the output pipe, the words of
    the stack and the end word, in order. *)
Theorem dialog_upload_readback dest pipe off commands buf ref v s i w old :
  awaits deadline [] ref v s → is_u16 ref → make_stack_buffer commands = Return buf → Forall is_u32 buf → is_u8 pipe →
  0 ≤ off → stacks.StackMemoryBegin + off + 4 * zlen buf < stacks.StackMemoryEnd → upload_contents pipe buf !! i = Some w →
  ∃ s' s'', uploadStack rounds pipe off commands dest s = Done (no_error, s')
    ∧ readRegister rounds (stacks.StackMemoryBegin + off + 4 * Z.of_nat i) old s' = Done ((no_error, w), s'').
Proof.
  intros Hs Hr Hb Hw Hp Ho Hfit Hi. destruct (uploadStack_ok rounds enough_rounds deadline dest pipe off commands buf ref v s) as (s' & v' & H' & Hs' & Hst & _); try done.
  assert (Hlt : Z.of_nat i < zlen buf + 2).
  { apply lookup_lt_Some in Hi. unfold upload_contents in Hi. rewrite !length_app in Hi. unfold zlen. cbn in Hi. lia. }
  unfold stacks.StackMemoryEnd, stacks.StackMemoryBytes, stacks.StackMemoryWords, stacks.StackMemoryBegin in Hfit.
  destruct (readRegister_ok rounds enough_rounds deadline (stacks.StackMemoryBegin + off + 4 * Z.of_nat i) old ref v' s' Hs' Hr)
    as (s'' & H'' & _); [unfold stacks.StackMemoryBegin; split; lia|].
  exists s', s''. split; [done|]. rewrite H''. unfold reg. by rewrite (Hst i w Hi).
Qed.

End Readback.

(** ** A simulated controller *)

(** Registers, VME modules with one register per address, the bytes that wait to be read,
    and the error notifications that come before the next response. *)
Record Dsim : Type := mkDsim { ds_regs : gmap Z Z; ds_bus : gmap Z Z; ds_out : list Z; ds_note : bool }.

Definition stack_note : list Z := [frame_word frame_headers.StackError 1 2 0 1; 5].
Definition ds_notes (c : Dsim) : list (list Z) := if ds_note c then [stack_note] else [].

Definition ds_read (b : gmap Z Z) (a : Z) : Z * Z := let '(flags, x) := sim_read b a in (flags, u32 x).

(** The immediate stack: a single read; a block read answers with two frames. *)
Definition ds_execute (v : gmap Z Z * gmap Z Z) : list Z * (gmap Z Z * gmap Z Z) :=
  let '(m, b) := v in
  let word i := reg m (stacks.StackMemoryBegin + reg m stacks.Stack0OffsetRegister + 4 * i) in
  let '(flags, x) := ds_read b (word 2) in
  if vme_amods.is_block_mode ((word 1 ≫ stack_commands.CmdArg0Shift) .& stack_commands.CmdArg0Mask)
  then ([stack_header frame_flags.Continue 1; x; frame_word frame_headers.StackContinuation flags 0 0 1; x], v)
  else ([stack_header flags 1; x], v).

Definition ds_write (v : gmap Z Z * gmap Z Z) (cmds : list SuperCommand) : gmap Z Z * gmap Z Z :=
  (foldl apply_write v.1 cmds, v.2).

Definition ds_request (cmds : list SuperCommand) (c : Dsim) : Dsim :=
  let v := ds_write (ds_regs c, ds_bus c) cmds in
  let '(out, v') := if triggers cmds then ds_execute v else ([], v) in
  mkDsim v'.1 v'.2 (ds_out c ++ words_to_bytes (concat (ds_notes c) ++ mirror (ds_regs c) cmds ++ out)) (ds_note c).

#[global] Instance Dsim_interface : BasicInterface Dsim := {
  bi_connectionType := USB;
  bi_usb2 _ := true;
  bi_write _ bytes c :=
    match super_builder_from_buffer (bytes_to_words (Z.to_nat (zlen bytes / 4)) bytes) with
    | Return cmds => (no_error, zlen bytes, ds_request cmds c)
    | _ => (no_error, zlen bytes, c)
    end;
  bi_read _ n c :=
    if zlen (ds_out c) <? n then (Mvlc MVLCErrorCode.SocketReadTimeout, [], c)
    else (no_error, ztake n (ds_out c), mkDsim (ds_regs c) (ds_bus c) (zdrop n (ds_out c)) (ds_note c));
  bi_now _ := 0
}.

Definition ds_attentive (deadline : Z) (c : Dsim) : Prop := deadline = 0 ∧ ∀ a, is_u32 (reg (ds_regs c) a).

Lemma ds_now deadline c : ds_attentive deadline c → deadline - 500 < bi_now c ≤ deadline.
Proof. intros [-> _]. done. Qed.

Lemma ds_read_incoming deadline c n :
  ds_attentive deadline c → 0 < n ≤ zlen (ds_out c) →
  ∃ c', bi_read Command n c = (no_error, ztake n (ds_out c), c') ∧ ds_attentive deadline c' ∧ ds_out c' = zdrop n (ds_out c)
    ∧ (ds_regs c', ds_bus c') = (ds_regs c, ds_bus c).
Proof.
  intros Ha Hn. exists (mkDsim (ds_regs c) (ds_bus c) (zdrop n (ds_out c)) (ds_note c)). cbn [bi_read Dsim_interface].
  destruct (Z.ltb_spec (zlen (ds_out c)) n); [lia|done].
Qed.

#[global] Instance Dsim_stream : StreamLaws Dsim := {
  View := gmap Z Z * gmap Z Z; view c := (ds_regs c, ds_bus c); incoming := ds_out; attentive := ds_attentive;
  attentive_now := ds_now; read_incoming := ds_read_incoming
}.

Lemma ds_notes_ok c : Forall notification (ds_notes c).
Proof.
  unfold ds_notes. destruct (ds_note c); [|done]. apply Forall_singleton. split; [|done]. split_and!; [done|done|]. by repeat (apply Forall_cons; split).
Qed.

Lemma mirrored_encodable c : mirrored c → super_encodable c.
Proof. intros [H|(H1 & H2 & H3)]; [by apply access_encodable|]. unfold super_encodable. by rewrite H1. Qed.

Lemma command_buffer_words cmds : Forall mirrored cmds → Forall is_u32 (make_command_buffer cmds).
Proof.
  intros H. unfold make_command_buffer. apply Forall_app. split; [by apply Forall_singleton|]. apply Forall_app. split; [|by apply Forall_singleton].
  apply Forall_bind. eapply Forall_impl; [exact H|]. intros c Hc. by apply encode_mirrored.
Qed.

Lemma ds_answers deadline c cmds :
  ds_attentive deadline c → ds_out c = [] → cmds ≠ [] → Forall mirrored cmds → zlen (make_command_buffer cmds) ≤ MirrorTransactionMaxWords →
  let v := ds_write (ds_regs c, ds_bus c) cmds in
  let '(out, v') := if triggers cmds then ds_execute v else ([], v) in
  ∃ c', bi_write Command (words_to_bytes (make_command_buffer cmds)) c = (no_error, 4 * zlen (make_command_buffer cmds), c')
    ∧ ds_attentive deadline c' ∧ (ds_regs c', ds_bus c') = v'
    ∧ ds_out c' = words_to_bytes (concat (ds_notes c) ++ mirror (ds_regs c) cmds ++ out).
Proof.
  intros [-> Hr] Ho Hne Hm _ v. assert (Hv : ∀ b, (ds_execute (foldl apply_write (ds_regs c) cmds, b)).2 = (foldl apply_write (ds_regs c) cmds, b)).
  { intros b. unfold ds_execute. destruct (ds_read _ _). by destruct (vme_amods.is_block_mode _). }
  assert (Hv' : (if triggers cmds then ds_execute v else ([], v)).2 = v) by (unfold v, ds_write; cbn [fst snd]; destruct (triggers cmds); [apply Hv|done]).
  destruct (if triggers cmds then _ else _) as [out v'] eqn:E. cbn [snd] in Hv'. subst v'.
  exists (ds_request cmds c). cbn [bi_write Dsim_interface]. rewrite zlen_words_to_bytes.
  replace (4 * zlen (make_command_buffer cmds) / 4) with (zlen (make_command_buffer cmds)) by (rewrite Z.mul_comm, Z.div_mul; lia).
  rewrite <- (app_nil_r (words_to_bytes _)). unfold zlen at 1. rewrite Nat2Z.id, bytes_words by (by apply command_buffer_words).
  rewrite command_buffer_decodes by (eapply Forall_impl; [exact Hm|apply mirrored_encodable]).
  unfold ds_request. fold v. rewrite E, Ho. cbn [ds_regs ds_bus ds_out app]. split_and!; [done| |by destruct v|done].
  split; [done|]. cbn [ds_regs v ds_write fst]. by apply writes_keep_words.
Qed.

Lemma ds_regs_words deadline c a : ds_attentive deadline c → is_u32 (reg (ds_regs c) a).
Proof. intros [_ H]. apply H. Qed.

#[global] Instance Dsim_controller : DialogController Dsim := {
  cc_regs v := v.1; cc_write := ds_write; cc_execute := ds_execute; cc_notes := ds_notes;
  cc_write_regs v cmds := eq_refl; cc_regs_words := ds_regs_words; cc_notes_ok := ds_notes_ok; cc_answers := ds_answers
}.

Lemma ds_read_flags b a : 0 ≤ (ds_read b a).1 < 8.
Proof. unfold ds_read. pose proof (sim_read_flags b a). by destruct (sim_read b a). Qed.
Lemma ds_read_word b a : is_u32 (ds_read b a).2.
Proof. unfold ds_read. destruct (sim_read b a). apply Z.mod_pos_bound. lia. Qed.

Lemma ds_executes_read v a amod w :
  is_u8 amod → vme_amods.is_block_mode amod = false → is_u8 w → program v.1 [stack_word (CommandType_value VMERead) amod w; a] →
  let '(flags, x) := ds_read v.2 a in ∃ v', ds_execute v = ([stack_header flags 1; x], v').
Proof.
  destruct v as [m b]. cbn [fst snd]. intros Ham Hb Hw Hp. destruct (ds_read b a) as [flags x] eqn:E. unfold ds_execute. cbv zeta.
  rewrite (program_word m _ 1 _ Hp eq_refl eq_refl), (program_word m _ 2 _ Hp eq_refl eq_refl), E. unfold is_u8 in *.
  destruct (stack_word_fields (CommandType_value VMERead) amod w) as (_ & -> & _); [done|lia|lia|]. rewrite Hb. by eexists.
Qed.

#[global] Instance Dsim_vme : DialogVME Dsim := {
  cv_read v a _ _ := ds_read v.2 a;
  cv_read_write v cmds a _ _ := eq_refl;
  cv_read_flags v a _ _ := ds_read_flags v.2 a;
  cv_read_word v a _ _ := ds_read_word v.2 a;
  cv_executes_read := ds_executes_read
}.

Definition sim_dialog (b : gmap Z Z) : Dlg Dsim := new_dialog (mkDsim ∅ b [] true).

Lemma sim_rounds (c : Dsim) : (length (cc_notes c) < 3)%nat.
Proof. cbn [cc_notes Dsim_controller]. unfold ds_notes. destruct (ds_note c); cbn; lia. Qed.

Lemma sim_awaits b : awaits 0 [] 1 (∅, b) (sim_dialog b).
Proof. exists new_error_counters. split_and!; [|done|done|done|done]. split; [done|]. intros a. unfold reg. cbn. by rewrite lookup_empty. Qed.

Lemma dialog_vme_read_witness :
  ∃ s' v', vmeRead 3 0x6000 0 vme_amods.A32 VMEDataWidth.D16 (sim_dialog {[0x6000 := 0x1234ABCD]}) = Done ((no_error, 0xABCD), s')
    ∧ awaits 0 [] 4 v' s'.
Proof.
  exact (dialog_vme_read (C := Dsim) 3 sim_rounds 0 0x6000 0 vme_amods.A32 VMEDataWidth.D16 1 (∅, {[0x6000 := 0x1234ABCD]}) _
    (sim_awaits _) ltac:(done) ltac:(done) ltac:(done) ltac:(done) ltac:(done)).
Defined.

Definition block_view : View (C := Dsim) := (∅, {[0x6000 := 7]}).
Definition block_words : list Z := [stack_word (CommandType_value VMERead) vme_amods.BLT32 16; 0x6000].

Definition block_frame : list Z := [stack_header frame_flags.Continue 1; 7].
Definition block_rest : list Z := [frame_word frame_headers.StackContinuation 0 0 0 1; 7].

Lemma block_executes :
  cc_execute (started block_view 2 (access_request 1 block_words))
  = (concat [] ++ block_frame ++ chain_words [([], block_rest)], started block_view 2 (access_request 1 block_words)).
Proof. vm_compute. reflexivity. Qed.

Lemma block_frames : whole_frame block_frame ∧ chain 3 (head_flags block_frame) [([], block_rest)].
Proof.
  assert (H : whole_frame block_frame ∧ whole_frame block_rest) by (split; (split_and!; [done|done|by repeat (apply Forall_cons; split)])).
  split; [apply H|]. split_and!; [done|cbn; lia|done|apply H|done|done].
Qed.

Lemma dialog_block_read_witness :
  ∃ s', vmeBlockRead 3 0x6000 vme_amods.BLT32 16 Caller (sim_dialog {[0x6000 := 7]}) = Done (no_error, s') ∧ dlg_caller s' = block_frame ++ block_rest.
Proof.
  destruct (dialog_block_read (C := Dsim) 3 sim_rounds 0 0x6000 vme_amods.BLT32 16 block_words [] block_frame
    [([], block_rest)] 1 block_view (started block_view 2 (access_request 1 block_words))
    (sim_dialog {[0x6000 := 7]}) (sim_awaits _) ltac:(done) ltac:(done) ltac:(done) ltac:(done) ltac:(vm_compute; reflexivity) block_executes
    ltac:(cbn; lia) ltac:(cbn; lia) ltac:(done) (proj1 block_frames) ltac:(done) (proj2 block_frames)) as (s' & H1 & _ & H2).
  exists s'. split; [exact H1|]. rewrite H2. reflexivity.
Defined.

Lemma dialog_upload_readback_witness :
  ∃ s' s'', uploadStack 3 DataPipe 512 [mkCmd WriteMarker 0 0x87654321 0 0 0 0 [] false EmptyString] Caller (sim_dialog ∅) = Done (no_error, s')
    ∧ readRegister 3 (stacks.StackMemoryBegin + 512 + 4 * Z.of_nat 2) 0 s' = Done ((no_error, 0x87654321), s'').
Proof.
  apply (dialog_upload_readback (C := Dsim) 3 sim_rounds 0 Caller DataPipe 512 [mkCmd WriteMarker 0 0x87654321 0 0 0 0 [] false EmptyString]
    [stack_word (CommandType_value WriteMarker) 0 0; 0x87654321] 1 (∅, ∅) (sim_dialog ∅) 2 0x87654321 0 (sim_awaits _)).
  - done.
  - vm_compute. reflexivity.
  - by repeat (apply Forall_cons; split).
  - done.
  - done.
  - vm_compute. reflexivity.
  - vm_compute. reflexivity.
Defined.
