(* ===== verification/EthImpl.v ===== *)
(** * The ETH connection: [mvlc_impl_eth.cc], [util/udp_sockets.cc], [mvlc_counters.h]

    [eth::Impl] talks to the controller over three UDP sockets.  [read_packet] receives one
    packet, checks its headers and keeps the statistics; [read] cuts the payloads of the
    packets into the sizes that its callers ask for.

    What the operating system does is part of the state: the results that the next calls of
    [recvfrom] and [send] will have, with the time at which they return.  An empty list of
    results is a socket on which nothing arrives.  The calls of [connect] are in the record
    [Os].  Logging, the throttle thread and the Windows versions are left out. *)

From S2P Require Import Prelude Effects Constants Frames StackErrors Errors ReadoutBuffer ReadoutWorker Dialog.

(** ** Statistics *)

(* mvlc_counters.h:19-45 PipeStats *)
Record PipeStats : Type := mkPipeStats {
  ps_receiveAttempts : Z;
  ps_receivedPackets : Z;
  ps_receivedBytes : Z;
  ps_shortPackets : Z;
  ps_packetsWithResidue : Z;
  ps_noHeader : Z;
  ps_headerOutOfRange : Z;
  ps_packetChannelOutOfRange : Z;
  ps_lostPackets : Z;
  ps_packetSizes : gmap Z Z;
  ps_headerTypes : gmap Z Z
}.

(* mvlc_counters.h:47-57 PacketChannelStats *)
Record PacketChannelStats : Type := mkChannelStats {
  cs_receivedPackets : Z;
  cs_receivedBytes : Z;
  cs_lostPackets : Z;
  cs_noHeader : Z;
  cs_headerOutOfRange : Z;
  cs_packetSizes : gmap Z Z;
  cs_headerTypes : gmap Z Z
}.

Definition new_pipe_stats : PipeStats := mkPipeStats 0 0 0 0 0 0 0 0 0 ∅ ∅.
Definition new_channel_stats : PacketChannelStats := mkChannelStats 0 0 0 0 0 ∅ ∅.

Definition ps_attempt (p : PipeStats) : PipeStats :=
  mkPipeStats (inc64 (ps_receiveAttempts p)) (ps_receivedPackets p) (ps_receivedBytes p) (ps_shortPackets p) (ps_packetsWithResidue p)
    (ps_noHeader p) (ps_headerOutOfRange p) (ps_packetChannelOutOfRange p) (ps_lostPackets p) (ps_packetSizes p) (ps_headerTypes p).
(* mvlc_impl_eth.cc:962-967 Impl::read_packet *)
Definition ps_receive (bytes : Z) (p : PipeStats) : PipeStats :=
  mkPipeStats (ps_receiveAttempts p) (inc64 (ps_receivedPackets p)) (u64 (ps_receivedBytes p + bytes)) (ps_shortPackets p) (ps_packetsWithResidue p)
    (ps_noHeader p) (ps_headerOutOfRange p) (ps_packetChannelOutOfRange p) (ps_lostPackets p) (count_key bytes (ps_packetSizes p)) (ps_headerTypes p).
Definition ps_short (p : PipeStats) : PipeStats :=
  mkPipeStats (ps_receiveAttempts p) (ps_receivedPackets p) (ps_receivedBytes p) (inc64 (ps_shortPackets p)) (ps_packetsWithResidue p)
    (ps_noHeader p) (ps_headerOutOfRange p) (ps_packetChannelOutOfRange p) (ps_lostPackets p) (ps_packetSizes p) (ps_headerTypes p).
Definition ps_residue (p : PipeStats) : PipeStats :=
  mkPipeStats (ps_receiveAttempts p) (ps_receivedPackets p) (ps_receivedBytes p) (ps_shortPackets p) (inc64 (ps_packetsWithResidue p))
    (ps_noHeader p) (ps_headerOutOfRange p) (ps_packetChannelOutOfRange p) (ps_lostPackets p) (ps_packetSizes p) (ps_headerTypes p).
Definition ps_bad_channel (p : PipeStats) : PipeStats :=
  mkPipeStats (ps_receiveAttempts p) (ps_receivedPackets p) (ps_receivedBytes p) (ps_shortPackets p) (ps_packetsWithResidue p)
    (ps_noHeader p) (ps_headerOutOfRange p) (inc64 (ps_packetChannelOutOfRange p)) (ps_lostPackets p) (ps_packetSizes p) (ps_headerTypes p).
Definition ps_lose (loss : Z) (p : PipeStats) : PipeStats :=
  mkPipeStats (ps_receiveAttempts p) (ps_receivedPackets p) (ps_receivedBytes p) (ps_shortPackets p) (ps_packetsWithResidue p)
    (ps_noHeader p) (ps_headerOutOfRange p) (ps_packetChannelOutOfRange p) (u64 (ps_lostPackets p + loss)) (ps_packetSizes p) (ps_headerTypes p).
Definition ps_pointer_out (p : PipeStats) : PipeStats :=
  mkPipeStats (ps_receiveAttempts p) (ps_receivedPackets p) (ps_receivedBytes p) (ps_shortPackets p) (ps_packetsWithResidue p)
    (ps_noHeader p) (inc64 (ps_headerOutOfRange p)) (ps_packetChannelOutOfRange p) (ps_lostPackets p) (ps_packetSizes p) (ps_headerTypes p).
Definition ps_type (type : Z) (p : PipeStats) : PipeStats :=
  mkPipeStats (ps_receiveAttempts p) (ps_receivedPackets p) (ps_receivedBytes p) (ps_shortPackets p) (ps_packetsWithResidue p)
    (ps_noHeader p) (ps_headerOutOfRange p) (ps_packetChannelOutOfRange p) (ps_lostPackets p) (ps_packetSizes p) (count_key type (ps_headerTypes p)).
Definition ps_no_header (p : PipeStats) : PipeStats :=
  mkPipeStats (ps_receiveAttempts p) (ps_receivedPackets p) (ps_receivedBytes p) (ps_shortPackets p) (ps_packetsWithResidue p)
    (inc64 (ps_noHeader p)) (ps_headerOutOfRange p) (ps_packetChannelOutOfRange p) (ps_lostPackets p) (ps_packetSizes p) (ps_headerTypes p).

(* mvlc_impl_eth.cc:1023-1028 Impl::read_packet *)
Definition cs_receive (bytes : Z) (c : PacketChannelStats) : PacketChannelStats :=
  mkChannelStats (inc64 (cs_receivedPackets c)) (u64 (cs_receivedBytes c + bytes)) (cs_lostPackets c) (cs_noHeader c) (cs_headerOutOfRange c)
    (cs_packetSizes c) (cs_headerTypes c).
Definition cs_lose (loss : Z) (c : PacketChannelStats) : PacketChannelStats :=
  mkChannelStats (cs_receivedPackets c) (cs_receivedBytes c) (u64 (cs_lostPackets c + loss)) (cs_noHeader c) (cs_headerOutOfRange c)
    (cs_packetSizes c) (cs_headerTypes c).
Definition cs_size (bytes : Z) (c : PacketChannelStats) : PacketChannelStats :=
  mkChannelStats (cs_receivedPackets c) (cs_receivedBytes c) (cs_lostPackets c) (cs_noHeader c) (cs_headerOutOfRange c)
    (count_key bytes (cs_packetSizes c)) (cs_headerTypes c).
Definition cs_pointer_out (c : PacketChannelStats) : PacketChannelStats :=
  mkChannelStats (cs_receivedPackets c) (cs_receivedBytes c) (cs_lostPackets c) (cs_noHeader c) (inc64 (cs_headerOutOfRange c))
    (cs_packetSizes c) (cs_headerTypes c).
Definition cs_type (type : Z) (c : PacketChannelStats) : PacketChannelStats :=
  mkChannelStats (cs_receivedPackets c) (cs_receivedBytes c) (cs_lostPackets c) (cs_noHeader c) (cs_headerOutOfRange c)
    (cs_packetSizes c) (count_key type (cs_headerTypes c)).
Definition cs_no_header (c : PacketChannelStats) : PacketChannelStats :=
  mkChannelStats (cs_receivedPackets c) (cs_receivedBytes c) (cs_lostPackets c) (inc64 (cs_noHeader c)) (cs_headerOutOfRange c)
    (cs_packetSizes c) (cs_headerTypes c).

(** ** The operating system *)

Definition EAGAIN : Z := 11.
(** A code of the system category.  Only [EAGAIN] is equivalent to an error type; the type
    of the others is never asked for. *)
(* mvlc_error.cc:311-326 equivalent *)
Definition system_error (errno : Z) : error_code :=
  Foreign errno (if errno =? EAGAIN then ErrorType.Timeout else ErrorType.Success).

(** The result of a call of [recvfrom] and the time when it returns, in milliseconds. *)
Inductive Recv : Type :=
| Datagram (bytes : list Z) (at_ms : Z)
| RecvError (errno : Z) (at_ms : Z).

(** The result of a call of [send]: bytes sent, or [errno]. *)
Inductive Send : Type :=
| Sent (bytes : Z)
| SendError (errno : Z).

Inductive Sock : Type := CmdSock | DataSock | DelaySock.

(** The calls of [connect]: candidates of the name lookup (size and address), file
    descriptors or negative error numbers, and 0 or an error number. *)
Record Os : Type := mkOs {
  os_getaddrinfo : string → Z → option (list (Z * Z));
  os_socket : Sock → Z;
  os_bind : Sock → Z;
  os_connect : Sock → Z;
  os_write_timeout : Sock → Z;
  os_read_timeout : Sock → Z;
  os_receive_buffer : Sock → Z
}.

(* mvlc_impl_eth.cc:78-78 DefaultReadTimeout_ms *)
Definition DefaultReadTimeout_ms : Z := 500.
(* mvlc_constants.h:533-533 NumPacketChannels *)
Definition NumPacketChannels : Z := 3.

(** [std::make_error_code(std::errc::not_connected)]: ENOTCONN *)
Definition not_connected : error_code := system_error 107.
(** [sizeof(sockaddr_in)] *)
Definition sockaddr_size : Z := 16.

(** The first candidate of the right size. *)
(* udp_sockets.cc:208-252 lookup *)
Definition lookup_host (os : Os) (host : string) (port : Z) : error_code + Z :=
  if bool_decide (host = EmptyString) then inl not_connected
  else
    match os_getaddrinfo os host port with
    | None => inl not_connected
    | Some results =>
        match filter (λ r : Z * Z, r.1 = sockaddr_size) results with
        | [] => inl not_connected
        | r :: _ => inr r.2
        end
    end.

(** ** The state of the connection *)

(** Addresses are pairs of address and port; a receive buffer is the part of it that has
    not been consumed.  [im_undefined] records that an array was indexed out of its range,
    from where on the behaviour is undefined. *)
(* mvlc_impl_eth.cc:510-553 Private *)
Record Impl : Type := mkImpl {
  im_host : string;
  im_cmdSock : Z;
  im_dataSock : Z;
  im_delaySock : Z;
  im_cmdAddr : Z * Z;
  im_dataAddr : Z * Z;
  im_delayAddr : Z * Z;
  im_cmdBuffer : list Z;
  im_dataBuffer : list Z;
  im_cmdStats : PipeStats;
  im_dataStats : PipeStats;
  im_channelStats : list PacketChannelStats;
  im_lastPacketNumbers : list Z;
  im_disableTriggersOnConnect : bool;
  im_cmdIn : list Recv;
  im_dataIn : list Recv;
  im_sends : list Send;
  im_sent : list (Sock * list Z);
  im_now : Z;
  im_undefined : bool
}.

Definition set_sockets (cmd data delay : Z) (d : Impl) : Impl :=
  mkImpl (im_host d) cmd data delay (im_cmdAddr d) (im_dataAddr d) (im_delayAddr d) (im_cmdBuffer d) (im_dataBuffer d)
    (im_cmdStats d) (im_dataStats d) (im_channelStats d) (im_lastPacketNumbers d) (im_disableTriggersOnConnect d)
    (im_cmdIn d) (im_dataIn d) (im_sends d) (im_sent d) (im_now d) (im_undefined d).
Definition set_address (ip : Z) (d : Impl) : Impl :=
  mkImpl (im_host d) (im_cmdSock d) (im_dataSock d) (im_delaySock d) (ip, eth.CommandPort) (ip, eth.DataPort) (ip, eth.DelayPort)
    (im_cmdBuffer d) (im_dataBuffer d) (im_cmdStats d) (im_dataStats d) (im_channelStats d) (im_lastPacketNumbers d)
    (im_disableTriggersOnConnect d) (im_cmdIn d) (im_dataIn d) (im_sends d) (im_sent d) (im_now d) (im_undefined d).
Definition set_stats (cmd data : PipeStats) (channels : list PacketChannelStats) (last : list Z) (d : Impl) : Impl :=
  mkImpl (im_host d) (im_cmdSock d) (im_dataSock d) (im_delaySock d) (im_cmdAddr d) (im_dataAddr d) (im_delayAddr d)
    (im_cmdBuffer d) (im_dataBuffer d) cmd data channels last
    (im_disableTriggersOnConnect d) (im_cmdIn d) (im_dataIn d) (im_sends d) (im_sent d) (im_now d) (im_undefined d).
Definition set_buffers (cmd data : list Z) (d : Impl) : Impl :=
  mkImpl (im_host d) (im_cmdSock d) (im_dataSock d) (im_delaySock d) (im_cmdAddr d) (im_dataAddr d) (im_delayAddr d)
    cmd data (im_cmdStats d) (im_dataStats d) (im_channelStats d) (im_lastPacketNumbers d)
    (im_disableTriggersOnConnect d) (im_cmdIn d) (im_dataIn d) (im_sends d) (im_sent d) (im_now d) (im_undefined d).
Definition set_queues (cmd data : list Recv) (now : Z) (d : Impl) : Impl :=
  mkImpl (im_host d) (im_cmdSock d) (im_dataSock d) (im_delaySock d) (im_cmdAddr d) (im_dataAddr d) (im_delayAddr d)
    (im_cmdBuffer d) (im_dataBuffer d) (im_cmdStats d) (im_dataStats d) (im_channelStats d) (im_lastPacketNumbers d)
    (im_disableTriggersOnConnect d) cmd data (im_sends d) (im_sent d) now (im_undefined d).
Definition set_sends (sends : list Send) (sent : list (Sock * list Z)) (d : Impl) : Impl :=
  mkImpl (im_host d) (im_cmdSock d) (im_dataSock d) (im_delaySock d) (im_cmdAddr d) (im_dataAddr d) (im_delayAddr d)
    (im_cmdBuffer d) (im_dataBuffer d) (im_cmdStats d) (im_dataStats d) (im_channelStats d) (im_lastPacketNumbers d)
    (im_disableTriggersOnConnect d) (im_cmdIn d) (im_dataIn d) sends sent (im_now d) (im_undefined d).

(** A new object; [m_lastPacketNumbers] gets its value in [connect]. *)
(* mvlc_impl_eth.cc:546-566 Impl::Impl *)
Definition new_impl (host : string) (cmdIn dataIn : list Recv) (sends : list Send) : Impl :=
  mkImpl host (-1) (-1) (-1) (0, 0) (0, 0) (0, 0) [] [] new_pipe_stats new_pipe_stats
    (replicate (Z.to_nat NumPacketChannels) new_channel_stats) (replicate (Z.to_nat NumPacketChannels) (-1)) false cmdIn dataIn sends [] 0 false.

Definition im_buffer (pipe : Pipe) (d : Impl) : list Z := match pipe with Command => im_cmdBuffer d | Data => im_dataBuffer d end.
Definition im_in (pipe : Pipe) (d : Impl) : list Recv := match pipe with Command => im_cmdIn d | Data => im_dataIn d end.
Definition im_stats (pipe : Pipe) (d : Impl) : PipeStats := match pipe with Command => im_cmdStats d | Data => im_dataStats d end.

Definition set_buffer (pipe : Pipe) (bytes : list Z) (d : Impl) : Impl :=
  match pipe with Command => set_buffers bytes (im_dataBuffer d) d | Data => set_buffers (im_cmdBuffer d) bytes d end.
Definition set_in (pipe : Pipe) (q : list Recv) (now : Z) (d : Impl) : Impl :=
  match pipe with Command => set_queues q (im_dataIn d) now d | Data => set_queues (im_cmdIn d) q now d end.

(** The statistics of a pipe, of a channel, and the last packet number of a channel. *)
Definition on_pipe (pipe : Pipe) (f : PipeStats → PipeStats) (d : Impl) : Impl :=
  match pipe with
  | Command => set_stats (f (im_cmdStats d)) (im_dataStats d) (im_channelStats d) (im_lastPacketNumbers d) d
  | Data => set_stats (im_cmdStats d) (f (im_dataStats d)) (im_channelStats d) (im_lastPacketNumbers d) d
  end.
(** An access to the arrays of the channels. *)
Definition touch (channel : Z) (d : Impl) : Impl :=
  mkImpl (im_host d) (im_cmdSock d) (im_dataSock d) (im_delaySock d) (im_cmdAddr d) (im_dataAddr d) (im_delayAddr d)
    (im_cmdBuffer d) (im_dataBuffer d) (im_cmdStats d) (im_dataStats d) (im_channelStats d) (im_lastPacketNumbers d)
    (im_disableTriggersOnConnect d) (im_cmdIn d) (im_dataIn d) (im_sends d) (im_sent d) (im_now d)
    (im_undefined d || negb ((0 <=? channel) && (channel <? zlen (im_channelStats d)) && (channel <? zlen (im_lastPacketNumbers d)))).
Definition on_channel (channel : Z) (f : PacketChannelStats → PacketChannelStats) (d : Impl) : Impl :=
  set_stats (im_cmdStats d) (im_dataStats d) (alter f (Z.to_nat channel) (im_channelStats d)) (im_lastPacketNumbers d) (touch channel d).
Definition set_last (channel number : Z) (d : Impl) : Impl :=
  set_stats (im_cmdStats d) (im_dataStats d) (im_channelStats d) (<[Z.to_nat channel := number]> (im_lastPacketNumbers d)) (touch channel d).

(* mvlc_impl_eth.cc:893-896 Impl::isConnected *)
Definition isConnected (d : Impl) : bool := (im_cmdSock d >=? 0) && (im_dataSock d >=? 0) && (im_delaySock d >=? 0).

(* mvlc_impl_eth.cc:1242-1248 Impl::resetPipeAndChannelStats *)
Definition resetPipeAndChannelStats (d : Impl) : Impl :=
  set_stats new_pipe_stats new_pipe_stats (replicate (Z.to_nat NumPacketChannels) new_channel_stats)
    (replicate (Z.to_nat NumPacketChannels) (-1)) d.

(* mvlc_impl_eth.cc:1230-1234 Impl::getPipeStats *)
Definition getPipeStats (d : Impl) : list PipeStats := [im_cmdStats d; im_dataStats d].
(* mvlc_impl_eth.cc:1236-1240 Impl::getPacketChannelStats *)
Definition getPacketChannelStats (d : Impl) : list PacketChannelStats := im_channelStats d.
(* mvlc_impl_eth.cc:1250-1253 Impl::getCmdAddress *)
Definition getCmdAddress (d : Impl) : Z := (im_cmdAddr d).1.
(* mvlc_impl_eth.cc:1255-1258 Impl::getDataAddress *)
Definition getDataAddress (d : Impl) : Z := (im_dataAddr d).1.
(* mvlc_impl_eth.cc:1262-1262 Impl::setDisableTriggersOnConnect *)
Definition setDisableTriggersOnConnect (b : bool) (d : Impl) : Impl :=
  mkImpl (im_host d) (im_cmdSock d) (im_dataSock d) (im_delaySock d) (im_cmdAddr d) (im_dataAddr d) (im_delayAddr d)
    (im_cmdBuffer d) (im_dataBuffer d) (im_cmdStats d) (im_dataStats d) (im_channelStats d) (im_lastPacketNumbers d)
    b (im_cmdIn d) (im_dataIn d) (im_sends d) (im_sent d) (im_now d) (im_undefined d).

(** ** Writing *)

(** Without a prepared result the whole buffer is sent. *)
(* udp_sockets.cc:352-371 write_to_socket *)
Definition write_to_socket (sock : Sock) (buffer : list Z) (d : Impl) : error_code * Z * Impl :=
  let d' := set_sends (tail (im_sends d)) (im_sent d ++ [(sock, buffer)]) d in
  match im_sends d with
  | [] => (no_error, zlen buffer, d')
  | Sent n :: _ => (no_error, n, d')
  | SendError errno :: _ => (system_error errno, 0, d')
  end.

(* mvlc_impl_eth.cc:1264-1264 Impl::getSocket *)
Definition getSocket (pipe : Pipe) : Sock := match pipe with Command => CmdSock | Data => DataSock end.

(* mvlc_impl_eth.cc:898-912 Impl::write *)
Definition write (pipe : Pipe) (buffer : list Z) (d : Impl) : error_code * Z * Impl :=
  if negb (isConnected d) then (Mvlc MVLCErrorCode.IsDisconnected, 0, d)
  else write_to_socket (getSocket pipe) buffer d.

(* mvlc_impl_eth.cc:493-508 send_delay_command *)
Definition send_delay_command (delay_us : Z) (d : Impl) : error_code * Impl :=
  let cmd := u32 (SuperCommandType.EthDelay ≪ super_commands.SuperCmdShift) .| delay_us in
  let '(ec, bytesTransferred, d) := write_to_socket DelaySock (le_bytes cmd) d in
  if failed ec then (ec, d)
  else if negb (bytesTransferred =? 4) then (Mvlc MVLCErrorCode.ShortWrite, d)
  else (no_error, d).

(** ** Receiving packets *)

(** The code, the bytes that were received and the number of lost packets. *)
(* mvlc_eth_interface.h:95-100 PacketReadResult *)
Record PacketReadResult : Type := mkPacket { pk_ec : error_code; pk_bytes : list Z; pk_lost : Z }.

(* mvlc_eth_interface.h:102-105 hasHeaders *)
Definition hasHeaders (packet : list Z) : bool := zlen packet >=? eth.HeaderBytes.
Definition headers_of (packet : list Z) : PayloadHeaderInfo :=
  {| header0 := le_word packet; header1 := le_word (zdrop 4 packet) |}.

(** A datagram that is longer than the buffer is cut off. *)
(* udp_sockets.cc:421-440 receive_one_packet *)
Definition receive_one_packet (pipe : Pipe) (size : Z) (d : Impl) : error_code * list Z * Impl :=
  match im_in pipe d with
  | [] => (system_error EAGAIN, [], set_in pipe [] (im_now d + DefaultReadTimeout_ms) d)
  | RecvError errno t :: q => (system_error errno, [], set_in pipe q t d)
  | Datagram bytes t :: q => (no_error, ztake size bytes, set_in pipe q t d)
  end.

(** Packet loss: the number of the last packet of the channel is -1 before the first one. *)
(* mvlc_impl_eth.cc:1030-1060 Impl::read_packet *)
Definition count_loss (pipe : Pipe) (channel number bytes : Z) (d : Impl) : Z * Impl :=
  let last := default 0 (im_lastPacketNumbers d !! Z.to_nat channel) in
  let '(lost, d) :=
    if last >=? 0 then
      let loss := calc_packet_loss (u16 last) number in
      (loss, on_channel channel (cs_lose loss) (on_pipe pipe (ps_lose loss) d))
    else (0, d) in
  (lost, on_channel channel (cs_size bytes) (set_last channel number d)).

(** The frame that [nextHeaderPointer] points to. *)
(* mvlc_impl_eth.cc:1062-1098 Impl::read_packet *)
Definition count_header (pipe : Pipe) (channel : Z) (packet : list Z) (d : Impl) : Impl :=
  let nhp := nextHeaderPointer (headers_of packet) in
  if negb (nhp =? eth.header1.NoHeaderPointerPresent) then
    match payload_words packet !! Z.to_nat nhp with
    | None => on_channel channel cs_pointer_out (on_pipe pipe ps_pointer_out d)
    | Some header => on_channel channel (cs_type (get_frame_type header)) (on_pipe pipe (ps_type (get_frame_type header)) d)
    end
  else on_channel channel cs_no_header (on_pipe pipe ps_no_header d).

(** A packet with headers. *)
(* mvlc_impl_eth.cc:989-1101 Impl::read_packet *)
Definition handle_packet (pipe : Pipe) (packet : list Z) (d : Impl) : PacketReadResult * Impl :=
  let h := headers_of packet in
  if dataWordCount h >? availablePayloadWords packet then
    (mkPacket (Mvlc MVLCErrorCode.UDPDataWordCountExceedsPacketSize) packet 0, d)
  else
    let packet :=
      if availablePayloadWords packet >? dataWordCount h then ztake (dataWordCount h * 4 + eth.HeaderBytes) packet else packet in
    let d := if leftoverBytes packet >? 0 then on_pipe pipe ps_residue d else d in
    let channel := packetChannel h in
    if channel >=? NumPacketChannels then
      (mkPacket (Mvlc MVLCErrorCode.UDPPacketChannelOutOfRange) packet 0, on_pipe pipe ps_bad_channel d)
    else
      let d := on_channel channel (cs_receive (zlen packet)) d in
      let '(lost, d) := count_loss pipe channel (packetNumber h) (zlen packet) d in
      (mkPacket no_error packet lost, count_header pipe channel packet d).

(* mvlc_impl_eth.cc:914-1101 Impl::read_packet *)
Definition read_packet (pipe : Pipe) (size : Z) (d : Impl) : PacketReadResult * Impl :=
  let d := on_pipe pipe ps_attempt d in
  if negb (isConnected d) then (mkPacket (Mvlc MVLCErrorCode.IsDisconnected) [] 0, d)
  else
    let '(ec, received, d) := receive_one_packet pipe size d in
    let packet := ztake (u16 (zlen received)) received in
    if failed ec && (zlen packet =? 0) then (mkPacket ec packet 0, d)
    else
      let d := on_pipe pipe (ps_receive (zlen packet)) d in
      if negb (hasHeaders packet) then (mkPacket (Mvlc MVLCErrorCode.ShortRead) packet 0, on_pipe pipe ps_short d)
      else handle_packet pipe packet d.

(** ** Reading bytes *)

(** The payload of a packet that [read] takes over. *)
(* mvlc_eth_interface.h:150-158 payloadBegin *)
Definition payload_bytes (packet : list Z) : list Z := ztake (4 * availablePayloadWords packet) (zdrop eth.HeaderBytes packet).

(** [copy_and_update]: what is copied to the destination, and the rest of the buffer. *)
(* mvlc_impl_eth.cc:1137-1149 Impl::read *)
Definition copy_and_update (pipe : Pipe) (size : Z) (d : Impl) : list Z * Impl :=
  let toCopy := Z.min (zlen (im_buffer pipe d)) size in
  (ztake toCopy (im_buffer pipe d), set_buffer pipe (zdrop toCopy (im_buffer pipe d)) d).

(** The loop is followed along the results of [recvfrom], which are the queue of the socket;
    [size] is what is left to read, [dest] what was read.  On an empty queue the call times
    out. *)
(* mvlc_impl_eth.cc:1168-1204 Impl::read *)
Fixpoint read_loop (queue : list Recv) (pipe : Pipe) (size tStart : Z) (dest : list Z) (d : Impl) : error_code * list Z * Impl :=
  if size =? 0 then (no_error, dest, d)
  else
    let '(rr, d) := read_packet pipe eth.JumboFrameMaxSize (set_buffer pipe [] d) in
    if failed (pk_ec rr) && (zlen (pk_bytes rr) =? 0) then (pk_ec rr, dest, d)
    else
      let '(copied, d) := copy_and_update pipe size (set_buffer pipe (payload_bytes (pk_bytes rr)) d) in
      if im_now d - tStart >=? DefaultReadTimeout_ms then (Mvlc MVLCErrorCode.SocketReadTimeout, dest ++ copied, d)
      else
        match queue with
        | [] => (pk_ec rr, dest ++ copied, d)
        | _ :: queue => read_loop queue pipe (size - zlen copied) tStart (dest ++ copied) d
        end.

(* mvlc_impl_eth.cc:1115-1210 Impl::read *)
Definition read (pipe : Pipe) (size : Z) (d : Impl) : error_code * list Z * Impl :=
  if negb (isConnected d) then (Mvlc MVLCErrorCode.IsDisconnected, [], d)
  else
    let '(copied, d) := copy_and_update pipe size d in
    if size - zlen copied =? 0 then (no_error, copied, d)
    else read_loop (im_in pipe d) pipe (size - zlen copied) (im_now d) copied d.

(** [Impl] is a connection as the dialog layer needs it. *)
(* mvlc_impl_eth.h:80-92 Impl *)
#[global] Instance Impl_interface : BasicInterface Impl := {
  bi_connectionType := ETH;
  bi_usb2 _ := false;
  bi_write := write;
  bi_read := read;
  bi_now := im_now
}.

(** ** Connecting *)

Definition close_sockets (d : Impl) : Impl := set_sockets (-1) (-1) (-1) d.

(** The first failing call of a list, as an error number. *)
Definition first_error (results : list Z) : option Z := head (filter (λ r, r ≠ 0) results).

(** Creating the sockets; the codes of failing calls are [errno]. *)
(* mvlc_impl_eth.cc:648-677 Impl::connect *)
Definition create_sockets (os : Os) (d : Impl) : error_code * Impl :=
  let cmd := os_socket os CmdSock in
  if cmd <? 0 then (system_error (- cmd), set_sockets (-1) (im_dataSock d) (im_delaySock d) d)
  else
    let data := os_socket os DataSock in
    if data <? 0 then (system_error (- data), close_sockets d)
    else
      let delay := os_socket os DelaySock in
      if delay <? 0 then (system_error (- delay), close_sockets d)
      else (no_error, set_sockets cmd data delay d).

(** Binding and connecting: on an error the sockets are closed. *)
(* mvlc_impl_eth.cc:681-728 Impl::connect *)
Definition bind_and_connect (os : Os) (d : Impl) : error_code * Impl :=
  match first_error [os_bind os CmdSock; os_bind os DataSock; os_bind os DelaySock;
                     os_connect os CmdSock; os_connect os DataSock; os_connect os DelaySock] with
  | Some errno => (system_error errno, close_sockets d)
  | None => (no_error, d)
  end.

(** The options of the sockets: on an error the sockets stay open. *)
(* mvlc_impl_eth.cc:730-795 Impl::connect *)
Definition set_options (os : Os) (d : Impl) : error_code * Impl :=
  match first_error [os_write_timeout os CmdSock; os_read_timeout os CmdSock; os_write_timeout os DataSock; os_read_timeout os DataSock;
                     os_write_timeout os DelaySock; os_receive_buffer os CmdSock; os_receive_buffer os DataSock] with
  | Some errno => (system_error errno, d)
  | None => (no_error, d)
  end.

(** The first dialog with the controller: who else uses it. *)
(* mvlc_impl_eth.cc:799-832 Impl::connect *)
Definition check_in_use (rounds : nat) : SM Impl error_code := λ d,
  match readRegister rounds registers.firmware_revision 0 (new_dialog d) with
  | Done ((ec, fwRev), dlg) =>
      if failed ec then Done (ec, close_sockets (dlg_dev dlg))
      else
        match read_daq_mode rounds 0 dlg with
        | Done ((ec, daqMode), dlg) =>
            if failed ec then Done (ec, close_sockets (dlg_dev dlg))
            else if negb (daqMode =? 0) && negb (im_disableTriggersOnConnect (dlg_dev dlg)) && (fwRev >? 0x34)
            then Done (Mvlc MVLCErrorCode.InUse, close_sockets (dlg_dev dlg))
            else Done (no_error, dlg_dev dlg)
        | Raise e => Raise e | Hangs => Hangs | Broken => Broken
        end
  | Raise e => Raise e | Hangs => Hangs | Broken => Broken
  end.

(** The throttle thread that [connect] starts at its end is not part of the model. *)
(* mvlc_impl_eth.cc:596-872 Impl::connect *)
Definition connect (rounds : nat) (os : Os) : SM Impl error_code := λ d,
  if isConnected d then Done (Mvlc MVLCErrorCode.IsConnected, d)
  else
    let d := resetPipeAndChannelStats (set_sockets (-1) (-1) (-1) d) in
    match lookup_host os (im_host d) eth.CommandPort with
    | inl ec => Done (ec, d)
    | inr ip =>
        let '(ec, d) := create_sockets os (set_address ip d) in
        if failed ec then Done (ec, d)
        else
          let '(ec, d) := bind_and_connect os d in
          if failed ec then Done (ec, d)
          else
            let '(ec, d) := set_options os d in
            if failed ec then Done (ec, d) else check_in_use rounds d
    end.

(* mvlc_impl_eth.cc:874-891 Impl::disconnect *)
Definition disconnect (d : Impl) : error_code * Impl :=
  if negb (isConnected d) then (Mvlc MVLCErrorCode.IsDisconnected, d) else (no_error, close_sockets d).

(* mvlc_impl_eth.cc:568-575 Impl::~Impl *)
Definition destroy_impl (d : Impl) : Impl := (disconnect d).2.
