(* ===== verification/EthFacts.v ===== *)
(** * Properties of the ETH connection

    Reads deliver the payloads of the packets as one stream of bytes, whatever the packets
    and the sizes of the reads are; lost packets are counted per pipe and channel; and the
    connection satisfies the interface of the dialog layer. *)

From S2P Require Import Prelude Effects Constants Frames FramesFacts Commands CommandsFacts StackErrors Errors ReadoutBuffer ReadoutWorker CmdApiLaws CmdApiController Dialog DialogFacts EthImpl.

(** ** Statistics do not touch the transport *)

Definition transport (d : Impl) : Z * Z * Z * list Z * list Z * list Recv * list Recv * list Send * list (Sock * list Z) * Z :=
  (im_cmdSock d, im_dataSock d, im_delaySock d, im_cmdBuffer d, im_dataBuffer d, im_cmdIn d, im_dataIn d, im_sends d, im_sent d, im_now d).

Lemma transport_on_pipe pipe f d : transport (on_pipe pipe f d) = transport d.
Proof. by destruct pipe. Qed.
Lemma transport_on_channel c f d : transport (on_channel c f d) = transport d.
Proof. done. Qed.
Lemma transport_set_last c n d : transport (set_last c n d) = transport d.
Proof. done. Qed.

Lemma transport_count_loss pipe c n b d : transport (count_loss pipe c n b d).2 = transport d.
Proof.
  unfold count_loss. destruct (_ >=? 0); cbn [snd]; rewrite !transport_on_channel, !transport_set_last, ?transport_on_channel; [apply transport_on_pipe|done].
Qed.

Lemma transport_count_header pipe c p d : transport (count_header pipe c p d) = transport d.
Proof. unfold count_header. destruct (negb _); [destruct (_ !! _)|]; rewrite transport_on_channel; apply transport_on_pipe. Qed.

Lemma transport_handle_packet pipe p d : transport (handle_packet pipe p d).2 = transport d.
Proof.
  unfold handle_packet. destruct (_ >? _); [done|]. cbv zeta. set (p' := if _ >? _ then _ else _).
  set (d' := if leftoverBytes p' >? 0 then _ else _). assert (Hd : transport d' = transport d) by (unfold d'; destruct (_ >? 0); [apply transport_on_pipe|done]).
  destruct (_ >=? NumPacketChannels); cbn [snd]; [by rewrite transport_on_pipe|].
  pose proof (transport_count_loss pipe (packetChannel (headers_of p)) (packetNumber (headers_of p)) (zlen p')
    (on_channel (packetChannel (headers_of p)) (cs_receive (zlen p')) d')) as Hl. rewrite transport_on_channel, Hd in Hl.
  destruct (count_loss _ _ _ _ _) as [lost d2]. cbn [snd] in *. by rewrite transport_count_header.
Qed.

(** ** What a packet delivers *)

(** The words that the header announces, as far as the packet has them. *)
Definition packet_payload (packet : list Z) : list Z :=
  if hasHeaders packet then ztake (4 * Z.min (dataWordCount (headers_of packet)) (availablePayloadWords packet)) (zdrop eth.HeaderBytes packet) else [].

Definition recv_payload (r : Recv) : list Z :=
  match r with
  | Datagram bytes _ => packet_payload (ztake eth.JumboFrameMaxSize bytes)
  | RecvError _ _ => []
  end.
Definition recv_time (r : Recv) : Z := match r with Datagram _ t | RecvError _ t => t end.

Lemma wordcount_range h : 0 ≤ dataWordCount h < 8192.
Proof.
  unfold dataWordCount, eth.header0.NumDataWordsShift, eth.header0.NumDataWordsMask, u16. change 0x1fff with (2 ^ 13 - 1).
  rewrite land_mask by lia. pose proof (field_range (header0 h ≫ 0) 13 ltac:(lia)). rewrite Z.mod_small by lia. lia.
Qed.

Lemma avail_payload packet : hasHeaders packet = true → availablePayloadWords packet = (zlen packet - 8) / 4 ∧ 8 ≤ zlen packet.
Proof.
  unfold hasHeaders, availablePayloadWords, eth.HeaderBytes, eth.HeaderWords. cbn [Z.mul]. intros H. apply Z.geb_le in H.
  destruct (Z.ltb_spec (zlen packet) (2 * 4)); [lia|]. split; [done|lia].
Qed.

Lemma zdrop_ztake {A} n k (l : list A) : 0 ≤ n → 0 ≤ k → zdrop k (ztake (n + k) l) = ztake n (zdrop k l).
Proof. intros. unfold zdrop, ztake. rewrite take_drop_commute. f_equal. f_equal. lia. Qed.

Lemma handled_payload pipe packet d : hasHeaders packet = true →
  payload_bytes (pk_bytes (handle_packet pipe packet d).1) = packet_payload packet ∧ pk_bytes (handle_packet pipe packet d).1 ≠ [].
Proof.
  intros Hh. destruct (avail_payload packet Hh) as [Hav Hlen]. pose proof (wordcount_range (headers_of packet)) as Hwc.
  unfold packet_payload. rewrite Hh. unfold handle_packet. set (wc := dataWordCount (headers_of packet)) in *.
  assert (Hne : packet ≠ []) by (intros ->; rewrite zlen_nil in Hlen; lia).
  destruct (Z.gtb_spec wc (availablePayloadWords packet)) as [Hgt|Hle].
  { cbn [fst pk_bytes]. split; [|done]. unfold payload_bytes. by rewrite Z.min_r by lia. }
  cbv zeta. set (p' := if availablePayloadWords packet >? wc then _ else _).
  assert (Hp : payload_bytes p' = ztake (4 * Z.min wc (availablePayloadWords packet)) (zdrop eth.HeaderBytes packet) ∧ p' ≠ []).
  { unfold p'. rewrite Z.min_l by lia. destruct (Z.gtb_spec (availablePayloadWords packet) wc) as [Hgt|Heq].
    - unfold eth.HeaderBytes, eth.HeaderWords. change (2 * 4) with 8.
      assert (Hl : zlen (ztake (wc * 4 + 8) packet) = wc * 4 + 8) by (apply zlen_ztake; zlia).
      split; [|intros E; rewrite E, zlen_nil in Hl; lia]. unfold payload_bytes, eth.HeaderBytes, eth.HeaderWords. change (2 * 4) with 8.
      destruct (avail_payload (ztake (wc * 4 + 8) packet)) as [-> _].
      { unfold hasHeaders, eth.HeaderBytes, eth.HeaderWords. rewrite Hl. apply Z.geb_le. lia. }
      rewrite Hl. replace ((wc * 4 + 8 - 8) / 4) with wc by (replace (wc * 4 + 8 - 8) with (wc * 4) by lia; by rewrite Z.div_mul).
      rewrite zdrop_ztake by lia. rewrite ztake_all; [by rewrite Z.mul_comm|].
      unfold zlen, ztake. rewrite length_take. lia.
    - split; [|done]. unfold payload_bytes. by replace (availablePayloadWords packet) with wc by lia. }
  destruct (_ >=? NumPacketChannels); [done|]. by destruct (count_loss _ _ _ _ _).
Qed.

(** ** Reading one packet *)

Lemma transport_connected d d' : transport d = transport d' → isConnected d = isConnected d'.
Proof. unfold transport, isConnected. by intros [= -> -> ->]. Qed.

(** What one call changes of the transport: the queue and the clock. *)
Lemma receive_one_cons pipe d r q :
  im_in pipe d = r :: q →
  ∃ ec bytes, receive_one_packet pipe eth.JumboFrameMaxSize d = (ec, bytes, set_in pipe q (recv_time r) d)
    ∧ (∀ b t, r = Datagram b t → ec = no_error ∧ bytes = ztake eth.JumboFrameMaxSize b) ∧ (∀ e t, r = RecvError e t → bytes = []).
Proof.
  intros H. unfold receive_one_packet. rewrite H. destruct r as [b t|e t]; do 2 eexists; (split; [done|]); split; intros ? ? [= <- <-]; done.
Qed.

Lemma u16_received (b : list Z) : ztake (u16 (zlen (ztake eth.JumboFrameMaxSize b))) (ztake eth.JumboFrameMaxSize b) = ztake eth.JumboFrameMaxSize b.
Proof.
  apply ztake_all. rewrite u16_id; [lia|]. unfold is_u16, zlen, ztake. rewrite length_take. unfold eth.JumboFrameMaxSize. lia.
Qed.

Lemma read_packet_cons pipe d r q :
  isConnected d = true → im_in pipe d = r :: q →
  let '(rr, d') := read_packet pipe eth.JumboFrameMaxSize d in
  transport d' = transport (set_in pipe q (recv_time r) d) ∧
  (if failed (pk_ec rr) && (zlen (pk_bytes rr) =? 0) then recv_payload r = [] else payload_bytes (pk_bytes rr) = recv_payload r).
Proof.
  intros Hc Hq. unfold read_packet. set (d1 := on_pipe pipe ps_attempt d). assert (Ht1 : transport d1 = transport d) by apply transport_on_pipe.
  rewrite (transport_connected d1 d Ht1), Hc. cbn [negb]. assert (Hq1 : im_in pipe d1 = r :: q) by (rewrite <- Hq; by destruct pipe).
  destruct (receive_one_cons pipe d1 r q Hq1) as (ec & bytes & -> & Hdat & Herr).
  set (d2 := set_in pipe q (recv_time r) d1). assert (Ht2 : transport d2 = transport (set_in pipe q (recv_time r) d)) by (by destruct pipe).
  destruct r as [b t|e t].
  - destruct (Hdat b t eq_refl) as [-> ->]. rewrite u16_received. cbn [failed no_error Z.eqb negb andb recv_payload].
    set (packet := ztake eth.JumboFrameMaxSize b). destruct (hasHeaders packet) eqn:Hh; cbn [negb].
    + destruct (handled_payload pipe packet (on_pipe pipe (ps_receive (zlen packet)) d2) Hh) as [Hp Hne].
      pose proof (transport_handle_packet pipe packet (on_pipe pipe (ps_receive (zlen packet)) d2)) as Ht. rewrite transport_on_pipe in Ht.
      destruct (handle_packet _ _ _) as [rr d3]. cbn [fst snd] in *. split; [by rewrite Ht|].
      destruct (Z.eqb_spec (zlen (pk_bytes rr)) 0) as [E|E]; [by apply zlen_0 in E|]. by rewrite andb_false_r.
    + split; [by rewrite !transport_on_pipe|]. cbn [pk_ec pk_bytes]. unfold packet_payload. rewrite Hh. destruct (_ && _); [done|].
      unfold payload_bytes, availablePayloadWords. unfold hasHeaders in Hh. rewrite Z.geb_leb in Hh. apply Z.leb_gt in Hh.
      apply Z.ltb_lt in Hh. by rewrite Hh.
  - rewrite (Herr e t eq_refl). cbn [recv_payload]. destruct (failed ec) eqn:Hf; cbn [andb zlen length].
    + change (ztake _ []) with (@nil Z). rewrite zlen_nil. cbn [Z.eqb pk_ec pk_bytes]. rewrite Hf, zlen_nil. done.
    + change (ztake _ []) with (@nil Z). cbn [hasHeaders]. split; [by rewrite !transport_on_pipe|]. done.
Qed.

Lemma read_packet_nil pipe d :
  isConnected d = true → im_in pipe d = [] →
  let '(rr, d') := read_packet pipe eth.JumboFrameMaxSize d in
  transport d' = transport (set_in pipe [] (im_now d + DefaultReadTimeout_ms) d) ∧ pk_ec rr = system_error EAGAIN ∧ pk_bytes rr = [].
Proof.
  intros Hc Hq. unfold read_packet. set (d1 := on_pipe pipe ps_attempt d). assert (Ht1 : transport d1 = transport d) by apply transport_on_pipe.
  rewrite (transport_connected d1 d Ht1), Hc. cbn [negb]. unfold receive_one_packet.
  replace (im_in pipe d1) with (@nil Recv) by (rewrite <- Hq; by destruct pipe). change (ztake _ []) with (@nil Z). rewrite zlen_nil.
  split_and!; [by destruct pipe|done|done].
Qed.

(** ** The stream of a pipe *)

Definition other (pipe : Pipe) : Pipe := match pipe with Command => Data | Data => Command end.

(** What reading from a pipe leaves alone. *)
Definition elsewhere (pipe : Pipe) (d : Impl) : Z * Z * Z * list Z * list Recv * list Send * list (Sock * list Z) :=
  (im_cmdSock d, im_dataSock d, im_delaySock d, im_buffer (other pipe) d, im_in (other pipe) d, im_sends d, im_sent d).

Lemma elsewhere_connected pipe d d' : elsewhere pipe d = elsewhere pipe d' → isConnected d = isConnected d'.
Proof. unfold elsewhere, isConnected. by intros [= -> -> -> _ _ _ _]. Qed.

Lemma transport_parts pipe d d' : transport d = transport d' →
  elsewhere pipe d = elsewhere pipe d' ∧ im_buffer pipe d = im_buffer pipe d' ∧ im_in pipe d = im_in pipe d' ∧ im_now d = im_now d'.
Proof. unfold transport, elsewhere. intros [= ? ? ? ? ? ? ? ? ? ?]. destruct pipe; cbn [other im_buffer im_in]; split_and!; congruence. Qed.

Lemma set_in_parts pipe q t d :
  elsewhere pipe (set_in pipe q t d) = elsewhere pipe d ∧ im_buffer pipe (set_in pipe q t d) = im_buffer pipe d
  ∧ im_in pipe (set_in pipe q t d) = q ∧ im_now (set_in pipe q t d) = t.
Proof. by destruct pipe. Qed.

Lemma set_buffer_parts pipe b d :
  elsewhere pipe (set_buffer pipe b d) = elsewhere pipe d ∧ im_buffer pipe (set_buffer pipe b d) = b
  ∧ im_in pipe (set_buffer pipe b d) = im_in pipe d ∧ im_now (set_buffer pipe b d) = im_now d.
Proof. by destruct pipe. Qed.

Lemma copy_ok pipe size d copied d' :
  0 ≤ size → copy_and_update pipe size d = (copied, d') →
  copied ++ im_buffer pipe d' = im_buffer pipe d ∧ zlen copied = Z.min (zlen (im_buffer pipe d)) size
  ∧ (size - zlen copied ≠ 0 → im_buffer pipe d' = [])
  ∧ elsewhere pipe d' = elsewhere pipe d ∧ im_in pipe d' = im_in pipe d ∧ im_now d' = im_now d.
Proof.
  unfold copy_and_update. intros Hs [= <- <-]. set (n := Z.min (zlen (im_buffer pipe d)) size).
  destruct (set_buffer_parts pipe (zdrop n (im_buffer pipe d)) d) as (H1 & H2 & H3 & H4). pose proof (zlen_nonneg (im_buffer pipe d)).
  assert (Hl : zlen (ztake n (im_buffer pipe d)) = n) by (apply zlen_ztake; lia).
  split_and!; [by rewrite H2, ztake_zdrop|done| |done|done|done]. rewrite Hl, H2. intros Hne. apply zdrop_all. lia.
Qed.

(** The packets that a call consumed and the bytes it delivered are parts of the same
    stream: what was buffered, then the payloads in the order of arrival. *)
Definition delivers (pipe : Pipe) (d : Impl) (bytes : list Z) (d' : Impl) : Prop :=
  elsewhere pipe d' = elsewhere pipe d ∧
  ∃ k, im_in pipe d' = drop k (im_in pipe d)
    ∧ bytes ++ im_buffer pipe d' = im_buffer pipe d ++ concat (recv_payload <$> take k (im_in pipe d)).

Lemma delivers_trans pipe d b1 d1 b2 d2 : delivers pipe d b1 d1 → delivers pipe d1 b2 d2 → delivers pipe d (b1 ++ b2) d2.
Proof.
  intros (He1 & k1 & Hk1 & Hb1) (He2 & k2 & Hk2 & Hb2). split; [by rewrite He2|]. exists (k1 + k2)%nat. rewrite Hk2, Hk1, drop_drop.
  split; [done|]. rewrite <- app_assoc, Hb2, app_assoc, Hb1, <- app_assoc. f_equal. rewrite Hk1, <- concat_app, <- fmap_app. f_equal. f_equal.
  by rewrite take_take_drop.
Qed.

Lemma delivers_copy pipe size d copied d' : 0 ≤ size → copy_and_update pipe size d = (copied, d') → delivers pipe d copied d'.
Proof.
  intros Hs H. destruct (copy_ok _ _ _ _ _ Hs H) as (Hb & _ & _ & He & Hi & _). split; [done|]. exists 0%nat. rewrite Hi, take_0, drop_0. by rewrite app_nil_r.
Qed.

Lemma read_loop_ok queue : ∀ pipe size tStart dest d ec out d',
  isConnected d = true → im_in pipe d = queue → im_buffer pipe d = [] → 0 ≤ size →
  read_loop queue pipe size tStart dest d = (ec, out, d') →
  ∃ bytes, out = dest ++ bytes ∧ delivers pipe d bytes d' ∧ zlen bytes ≤ size ∧ (ec = no_error → zlen bytes = size).
Proof.
  assert (Hdone : ∀ pipe d d', elsewhere pipe d' = elsewhere pipe d → im_in pipe d' = im_in pipe d → im_buffer pipe d = [] → im_buffer pipe d' = [] → delivers pipe d [] d').
  { intros pipe d d' He Hi Hb Hb'. split; [done|]. exists 0%nat. by rewrite take_0, drop_0, Hb, Hb', Hi. }
  assert (Hfail : ∀ ec, failed ec = true → ec ≠ no_error) by (intros ec H ->; discriminate H).
  induction queue as [|r queue IH]; intros pipe size tStart dest d ec out d' Hc Hq Hb Hs; cbn [read_loop];
    (destruct (Z.eqb_spec size 0) as [->|Hne];
      [intros [= <- <- <-]; exists []; rewrite app_nil_r; split_and!; [done|by apply Hdone|done|done]|]);
    destruct (set_buffer_parts pipe [] d) as (Pe & Pb & Pi & Pn);
    pose proof (elsewhere_connected pipe _ _ Pe) as Hc'; rewrite Hc in Hc'.
  - pose proof (read_packet_nil pipe (set_buffer pipe [] d) Hc' ltac:(by rewrite Pi)) as H.
    destruct (read_packet _ _ _) as [rr d1]. destruct H as (Ht & He & Hbz). rewrite He, Hbz. cbn [failed system_error EAGAIN Z.eqb negb andb zlen length Z.of_nat].
    intros [= <- <- <-]. apply (transport_parts pipe) in Ht as (Te & Tb & Ti & _).
    destruct (set_in_parts pipe [] (im_now (set_buffer pipe [] d) + DefaultReadTimeout_ms) (set_buffer pipe [] d)) as (Se & Sb & Si & _).
    exists []. rewrite app_nil_r. split_and!; [done| |rewrite zlen_nil; lia|done]. apply Hdone; [by rewrite Te, Se|by rewrite Ti, Si|done|by rewrite Tb, Sb].
  - pose proof (read_packet_cons pipe (set_buffer pipe [] d) r queue Hc' ltac:(by rewrite Pi)) as H.
    destruct (read_packet _ _ _) as [rr d1]. destruct H as (Ht & Hp). apply (transport_parts pipe) in Ht as (Te & Tb & Ti & _).
    destruct (set_in_parts pipe queue (recv_time r) (set_buffer pipe [] d)) as (Se & Sb & Si & _).
    destruct (failed (pk_ec rr) && (zlen (pk_bytes rr) =? 0)) eqn:Hf.
    { intros [= <- <- <-]. exists []. rewrite app_nil_r. split_and!; [done| |rewrite zlen_nil; lia|].
      - split; [by rewrite Te, Se|]. exists 1%nat. rewrite Ti, Si, Hq. split; [done|]. rewrite Tb, Sb, Pb, Hb. cbn. by rewrite Hp.
      - apply andb_true_iff in Hf as [Hf _]. intros E. by apply Hfail in Hf. }
    destruct (set_buffer_parts pipe (payload_bytes (pk_bytes rr)) d1) as (Qe & Qb & Qi & Qn).
    destruct (copy_and_update pipe size _) as [copied d2] eqn:Ecopy. destruct (copy_ok _ _ _ _ _ Hs Ecopy) as (Cb & Cl & Cr & Ce & Ci & Cn).
    assert (Hstep : delivers pipe d copied d2).
    { split; [by rewrite Ce, Qe, Te, Se, Pe|]. exists 1%nat. rewrite Ci, Qi, Ti, Si, Hq. split; [done|].
      rewrite Cb, Qb, Hp, Hb. cbn. by rewrite app_nil_r. }
    destruct (_ >=? DefaultReadTimeout_ms).
    { intros [= <- <- <-]. exists copied. split_and!; [done|done|lia|done]. }
    destruct (Z.eq_dec (size - zlen copied) 0) as [Ez|Ez].
    + intros H. destruct queue; cbn [read_loop] in H; rewrite Ez in H; cbn [Z.eqb] in H; injection H as <- <- <-; (exists copied; split_and!; [done|done|lia|lia]).
    + intros H. destruct (IH pipe (size - zlen copied) tStart (dest ++ copied) d2 ec out d') as (bytes & -> & Hd & Hl & Hz); try done.
      * rewrite <- (elsewhere_connected pipe d d2); [done|]. by destruct Hstep as [-> _].
      * by rewrite Ci, Qi, Ti, Si.
      * by apply Cr.
      * lia.
      * exists (copied ++ bytes). split_and!; [by rewrite app_assoc|by eapply delivers_trans|rewrite zlen_app; lia|rewrite zlen_app; intros E; specialize (Hz E); lia].
Qed.

Lemma eth_read_ok pipe size d ec bytes d' :
  isConnected d = true → 0 ≤ size → read pipe size d = (ec, bytes, d') →
  delivers pipe d bytes d' ∧ zlen bytes ≤ size ∧ (ec = no_error → zlen bytes = size).
Proof.
  intros Hc Hs. unfold read. rewrite Hc. cbn [negb]. destruct (copy_and_update pipe size d) as [copied d1] eqn:E.
  pose proof (delivers_copy _ _ _ _ _ Hs E) as Hd. destruct (copy_ok _ _ _ _ _ Hs E) as (_ & Hl & Hr & He & Hi & _).
  destruct (Z.eqb_spec (size - zlen copied) 0) as [Ez|Ez]; [intros [= <- <- <-]; split_and!; [done|lia|lia]|].
  intros H. destruct (read_loop_ok (im_in pipe d1) pipe (size - zlen copied) (im_now d1) copied d1 ec bytes d') as (more & -> & Hm & Hml & Hmz); try done.
  - by rewrite (elsewhere_connected pipe d1 d He).
  - by apply Hr.
  - lia.
  - split_and!; [by eapply delivers_trans|rewrite zlen_app; lia|rewrite zlen_app; intros Ee; specialize (Hmz Ee); lia].
Qed.

(** Reads one after the other, with their results. *)
Fixpoint read_all (pipe : Pipe) (sizes : list Z) (d : Impl) : list (error_code * list Z) * Impl :=
  match sizes with
  | [] => ([], d)
  | size :: sizes =>
      let '(ec, bytes, d) := read pipe size d in
      let '(rs, d) := read_all pipe sizes d in ((ec, bytes) :: rs, d)
  end.

(** C15: Reads deliver a stream: whatever packets arrive and whatever sizes are read, the bytes
    of all reads together with what stays buffered are the buffered bytes before followed by
    the payloads of the packets consumed, in the order of arrival.  No read delivers more
    than was asked for, a read without an error delivers exactly that, and reading one pipe
    does not touch the other one. *)
Theorem eth_reads_stream pipe sizes d results d' :
  isConnected d = true → Forall (λ size, 0 ≤ size) sizes → read_all pipe sizes d = (results, d') →
  delivers pipe d (concat results.*2) d' ∧ Forall2 (λ size r, zlen r.2 ≤ size ∧ (r.1 = no_error → zlen r.2 = size)) sizes results.
Proof.
  intros Hc Hs. revert d Hc results d'; induction Hs as [|size sizes Hsize Hs IH]; intros d Hc results d'; cbn [read_all].
  { intros [= <- <-]. split; [|done]. split; [done|]. exists 0%nat. rewrite take_0, drop_0. cbn. by rewrite app_nil_r. }
  destruct (read pipe size d) as [[ec bytes] d1] eqn:E. destruct (eth_read_ok _ _ _ _ _ _ Hc Hsize E) as (Hd & Hl & Hz).
  destruct (read_all pipe sizes d1) as [rs d2] eqn:E2. intros [= <- <-].
  destruct (IH d1 ltac:(by rewrite (elsewhere_connected pipe d1 d (proj1 Hd))) rs d2 E2) as [Hd2 HF].
  split; [by eapply delivers_trans|by constructor].
Qed.

(** ** A connection for the dialog layer *)

(** The bytes of the command pipe: the buffer and the packets on their way. *)
Definition eth_incoming (d : Impl) : list Z := im_cmdBuffer d ++ concat (recv_payload <$> im_cmdIn d).

(** The packets on the way have headers and arrive in time. *)
Definition arrives (deadline : Z) (r : Recv) : Prop :=
  match r with Datagram bytes t => 8 ≤ zlen bytes ∧ deadline - 500 < t ≤ deadline | RecvError _ _ => False end.
Definition eth_attentive (deadline : Z) (d : Impl) : Prop :=
  isConnected d = true ∧ deadline - 500 < im_now d ≤ deadline ∧ Forall (arrives deadline) (im_cmdIn d).

Lemma eth_now deadline d : eth_attentive deadline d → deadline - 500 < bi_now d ≤ deadline.
Proof. by intros (_ & H & _). Qed.

Lemma arrives_headers deadline bytes t : arrives deadline (Datagram bytes t) → hasHeaders (ztake eth.JumboFrameMaxSize bytes) = true.
Proof.
  intros [H _]. unfold hasHeaders, eth.HeaderBytes, eth.HeaderWords, eth.JumboFrameMaxSize. apply Z.geb_le. change (2 * 4) with 8.
  unfold zlen, ztake in *. rewrite length_take. lia.
Qed.

(** A packet that arrives is no reason to stop reading. *)
Lemma read_packet_arrives deadline d r q :
  isConnected d = true → im_cmdIn d = r :: q → arrives deadline r →
  zlen (pk_bytes (read_packet Command eth.JumboFrameMaxSize d).1) ≠ 0.
Proof.
  intros Hc Hq Ha. unfold read_packet. set (d1 := on_pipe Command ps_attempt d).
  rewrite (transport_connected d1 d (transport_on_pipe _ _ _)), Hc. cbn [negb]. unfold receive_one_packet. cbn [im_in im_cmdIn d1 on_pipe set_stats].
  rewrite Hq. destruct r as [b t|]; [|done]. rewrite u16_received. cbn [failed no_error Z.eqb negb andb]. rewrite (arrives_headers deadline b t Ha). cbn [negb].
  intros E. apply zlen_0 in E. by eapply handled_payload in E; [|by eapply arrives_headers].
Qed.

Lemma read_loop_attentive queue : ∀ size tStart dest d deadline ec out d',
  isConnected d = true → im_cmdIn d = queue → im_cmdBuffer d = [] → Forall (arrives deadline) queue →
  deadline - 500 < tStart → 0 ≤ size ≤ zlen (concat (recv_payload <$> queue)) → deadline - 500 < im_now d ≤ deadline →
  read_loop queue Command size tStart dest d = (ec, out, d') → ec = no_error ∧ deadline - 500 < im_now d' ≤ deadline.
Proof.
  induction queue as [|r queue IH]; intros size tStart dest d deadline ec out d' Hc Hq Hb Ha Ht Hs Hnow; cbn [read_loop].
  { change (zlen (concat (recv_payload <$> []))) with 0 in Hs. replace size with 0 by lia. by intros [= <- _ <-]. }
  destruct (Z.eqb_spec size 0) as [->|Hne]; [by intros [= <- _ <-]|]. apply Forall_cons in Ha as [Hr Ha].
  pose proof (read_packet_arrives deadline (set_buffer Command [] d) r queue Hc Hq Hr) as Hz.
  pose proof (read_packet_cons Command (set_buffer Command [] d) r queue Hc Hq) as H. destruct (read_packet _ _ _) as [rr d1]. cbn [fst] in Hz.
  destruct H as (Htr & Hp). apply (transport_parts Command) in Htr as (Te & Tb & Ti & Tn). apply Z.eqb_neq in Hz. rewrite Hz, andb_false_r in *.
  destruct (copy_and_update Command size _) as [copied d2] eqn:Ecopy.
  destruct (copy_ok Command size _ _ _ ltac:(lia) Ecopy) as (Cb & Cl & Cr & Ce & Ci & Cn).
  assert (Hn2 : im_now d2 = recv_time r) by (by rewrite Cn). assert (Hrt : deadline - 500 < recv_time r ≤ deadline) by (by destruct r as [? ?|]; [apply Hr|]).
  assert (Hc2 : isConnected d2 = true) by exact (eq_trans (elsewhere_connected Command d2 _ Ce) (eq_trans (elsewhere_connected Command d1 _ Te) Hc)).
  destruct (Z.geb_spec (im_now d2 - tStart) DefaultReadTimeout_ms) as [Hge|Hlt]; [unfold DefaultReadTimeout_ms in Hge; lia|].
  destruct (Z.eq_dec (size - zlen copied) 0) as [Ez|Ez].
  - intros H. rewrite Hn2 in *. destruct queue; cbn [read_loop] in H; rewrite Ez in H; cbn [Z.eqb] in H; injection H as <- <- <-; split; try done; lia.
  - apply (IH (size - zlen copied) tStart (dest ++ copied) d2 deadline ec out d'); try done; [|by apply Cr| |lia].
    + exact (eq_trans Ci Ti).
    + change (im_buffer Command (set_buffer Command (payload_bytes (pk_bytes rr)) d1)) with (payload_bytes (pk_bytes rr)) in Cl. rewrite Hp in Cl.
      rewrite fmap_cons in Hs. cbn [concat] in Hs. rewrite zlen_app in Hs. lia.
Qed.

Lemma eth_read_incoming deadline d n :
  eth_attentive deadline d → 0 < n ≤ zlen (eth_incoming d) →
  ∃ d', bi_read Command n d = (no_error, ztake n (eth_incoming d), d') ∧ eth_attentive deadline d' ∧ eth_incoming d' = zdrop n (eth_incoming d)
    ∧ im_sent d' = im_sent d ∧ im_sends d' = im_sends d.
Proof.
  intros (Hc & Hnow & Ha) Hn. cbn [bi_read Impl_interface]. destruct (read Command n d) as [[ec bytes] d'] eqn:E.
  destruct (eth_read_ok Command n d ec bytes d' Hc ltac:(lia) E) as ((He & k & Hk & Hb) & _ & Hz).
  assert (Hok : ec = no_error ∧ deadline - 500 < im_now d' ≤ deadline).
  { unfold read in E. rewrite Hc in E. cbn [negb] in E. destruct (copy_and_update Command n d) as [copied d1] eqn:Ec.
    destruct (copy_ok Command n d copied d1 ltac:(lia) Ec) as (_ & Cl & Cr & Ce & Ci & Cn).
    destruct (Z.eqb_spec (n - zlen copied) 0) as [Ez|Ez]; [injection E as <- <- <-; by rewrite Cn|].
    apply (read_loop_attentive (im_in Command d1) (n - zlen copied) (im_now d1) copied d1 deadline ec bytes d'); try done.
    - by rewrite (elsewhere_connected Command _ _ Ce).
    - by apply Cr.
    - by rewrite Ci.
    - lia.
    - rewrite Ci. unfold eth_incoming in Hn. rewrite zlen_app in Hn. cbn [im_buffer im_in] in *. lia.
    - by rewrite Cn. }
  destruct Hok as [-> Hnow']. specialize (Hz eq_refl).
  assert (Hin : eth_incoming d = bytes ++ eth_incoming d').
  { unfold eth_incoming. cbn [im_buffer im_in] in *. rewrite app_assoc, Hb, <- app_assoc. f_equal. rewrite Hk, <- concat_app, <- fmap_app, take_drop. done. }
  exists d'. rewrite Hin, <- Hz, ztake_app, zdrop_app. split_and!; [done| |done|by injection He|by injection He].
  split_and!; [by rewrite (elsewhere_connected Command _ _ He)|lia|lia|]. cbn [im_in] in Hk. rewrite Hk. by apply Forall_drop.
Qed.

Lemma eth_stream_law deadline d n :
  eth_attentive deadline d → 0 < n ≤ zlen (eth_incoming d) →
  ∃ d', bi_read Command n d = (no_error, ztake n (eth_incoming d), d') ∧ eth_attentive deadline d' ∧ eth_incoming d' = zdrop n (eth_incoming d)
    ∧ (im_sent d', im_sends d') = (im_sent d, im_sends d).
Proof. intros Ha Hn. destruct (eth_read_incoming deadline d n Ha Hn) as (d' & H1 & H2 & H3 & H4 & H5). exists d'. by rewrite H4, H5. Qed.

#[global] Instance Eth_stream : StreamLaws Impl := {
  View := list (Sock * list Z) * list Send; view d := (im_sent d, im_sends d); incoming := eth_incoming; attentive := eth_attentive;
  attentive_now := eth_now; read_incoming := eth_stream_law
}.

(** The response of the controller to the read of a register. *)
Definition register_response (ref a x : Z) : list Z :=
  [frame_word frame_headers.SuperFrame 0 0 0 3; ref_word ref; SuperCT_value ReadLocal * 2 ^ 16 + a; x].

Lemma register_response_mirror ref a x :
  is_u16 ref → is_u16 a →
  register_response ref a x = mirror {[a := x]} ([mkSuper ReferenceWord 0 ref] ++ [mkSuper ReadLocal a 0]).
Proof.
  intros Hr Ha. unfold mirror. cbn [app echo]. rewrite (bool_decide_eq_false_2 (su_type (mkSuper ReferenceWord 0 ref) = ReadLocal)), bool_decide_eq_true_2 by done.
  unfold encode_super_command. cbn [su_type su_address su_value app]. rewrite !super_word_sum by done. unfold reg, apply_write. cbn [su_type].
  by rewrite lookup_singleton_eq.
Qed.

Lemma register_response_checked ref a x :
  is_u16 ref → is_u16 a →
  check_mirror (make_command_buffer [mkSuper ReferenceWord 0 ref; mkSuper ReadLocal a 0]) (register_response ref a x) = no_error.
Proof.
  intros Hr Ha. rewrite register_response_mirror by done. unfold mirror. rewrite echo_last_read by (by apply Forall_singleton). rewrite zlen_app.
  apply (check_mirror_ok [mkSuper ReferenceWord 0 ref; mkSuper ReadLocal a 0]); [done|].
  apply Forall_cons. split; [by right|]. apply Forall_singleton. left. by apply read_access.
Qed.

(** A register is read over the ETH connection however the response is cut into packets:
    the bytes of the error notifications and of the response can lie in any number of
    packets, with any other bytes after them; the value is returned, the notifications are
    counted, and what follows the response stays to be read. *)
Theorem eth_register_read rounds deadline d notes a x old rest :
  eth_attentive deadline d → im_sends d = [] → is_u16 a → is_u32 x → (length notes < rounds)%nat → Forall notification notes →
  eth_incoming d = words_to_bytes (concat notes ++ register_response 1 a x ++ rest) →
  ∃ s, readRegister rounds a old (new_dialog d) = Done ((no_error, x), s)
    ∧ dlg_errors s = foldl update_stack_error_counters new_error_counters notes
    ∧ eth_incoming (dlg_dev s) = words_to_bytes rest
    ∧ im_sent (dlg_dev s) = im_sent d ++ [(CmdSock, words_to_bytes (make_command_buffer [mkSuper ReferenceWord 0 1; mkSuper ReadLocal a 0]))].
Proof.
  intros Ha Hsends Hadr Hx Hr Hn Hin. assert (H1 : is_u16 1) by done.
  set (cmds := [mkSuper ReferenceWord 0 1; mkSuper ReadLocal a 0]). set (bytes := words_to_bytes (make_command_buffer cmds)).
  set (d1 := set_sends [] (im_sent d ++ [(CmdSock, bytes)]) d). set (s1 := mkDlg d1 2 [] [] [] new_error_counters : Dlg Impl).
  assert (Hw : doWrite (make_command_buffer cmds) (mkDlg d 2 [] [] [] new_error_counters) = Done (no_error, s1)).
  { unfold doWrite, mbind, SM_bind, lower_write. cbn [bi_write Impl_interface dlg_dev]. unfold write. rewrite (proj1 Ha). cbn [negb].
    unfold write_to_socket. rewrite Hsends. fold bytes. unfold mret, SM_ret. unfold bytes at 1. rewrite zlen_words_to_bytes, Z.eqb_refl. done. }
  assert (Hm : ∀ b, is_u32 (reg {[a := x]} b)).
  { intros b. unfold reg. destruct (decide (a = b)) as [<-|Hne]; [by rewrite lookup_singleton_eq|by rewrite lookup_singleton_ne]. }
  destruct (mirror_frame {[a := x]} [mkSuper ReferenceWord 0 1] (mkSuper ReadLocal a 0) Hm) as (Hwf & Hse & Hsu).
  { apply Forall_cons. split; [by right|]. apply Forall_singleton. left. by apply read_access. }
  { by apply Forall_singleton. }
  { done. }
  rewrite <- register_response_mirror in Hwf, Hse, Hsu by done.
  destruct (readResponse_ok rounds is_super_buffer Response deadline notes (register_response 1 a x) rest 2 new_error_counters (view d1) s1)
    as (s2 & H2 & (Ha2 & Hi2 & Hr2 & He2 & Hv2) & Hb2); try done.
  exists s2. split_and!; [|done|done|by injection Hv2].
  assert (Hst : superTransaction rounds (make_command_buffer cmds) Response (mkDlg d 2 [] [] [] new_error_counters) = Done (no_error, s2)).
  { unfold superTransaction. change (zlen (make_command_buffer cmds) >? MirrorTransactionMaxWords) with false. cbv iota. unfold MirrorMaxRetries.
    cbn [super_tries]. erewrite bind_Done_eq by exact Hw. cbn [failed no_error Z.eqb negb]. erewrite bind_Done_eq by exact H2.
    cbn [failed no_error Z.eqb negb]. unfold mbind, SM_bind, get_state, mret, SM_ret. cbv beta iota. rewrite (proj1 Hb2). unfold cmds. by rewrite register_response_checked. }
  unfold readRegister. unfold mbind at 1, SM_bind at 1, next_reference at 1. cbv zeta.
  erewrite bind_Done_eq by exact Hst. cbn [failed no_error Z.eqb negb]. unfold mbind, SM_bind, get_state. cbv beta iota. by rewrite (proj1 Hb2).
Qed.

(** ** Packet loss *)

(** What the accounting of lost packets touches. *)
Definition losses (pipe : Pipe) (d : Impl) : Z * list Z * list Z :=
  (ps_lostPackets (im_stats pipe d), cs_lostPackets <$> im_channelStats d, im_lastPacketNumbers d).

Lemma losses_on_pipe pipe f d : (∀ p, ps_lostPackets (f p) = ps_lostPackets p) → losses pipe (on_pipe pipe f d) = losses pipe d.
Proof. intros Hf. unfold losses. destruct pipe; cbn; by rewrite Hf. Qed.

Lemma fmap_alter {A B} (f : A → B) g h (i : nat) (l : list A) : (∀ x, f (g x) = h (f x)) → f <$> alter g i l = alter h i (f <$> l).
Proof.
  intros H. apply list_eq. intros j. rewrite list_lookup_fmap. destruct (decide (i = j)) as [<-|Hne].
  - rewrite !list_lookup_alter_eq, list_lookup_fmap. destruct (l !! i); [|done]. cbn. by rewrite H.
  - rewrite !list_lookup_alter_ne by done. by rewrite list_lookup_fmap.
Qed.

Lemma losses_on_channel pipe c f h d L C N :
  (∀ s, cs_lostPackets (f s) = h (cs_lostPackets s)) → losses pipe d = (L, C, N) →
  losses pipe (on_channel c f d) = (L, alter h (Z.to_nat c) C, N).
Proof.
  intros Hf [= <- <- <-]. unfold losses. replace (im_stats pipe (on_channel c f d)) with (im_stats pipe d) by (by destruct pipe).
  cbn [on_channel set_stats im_channelStats im_lastPacketNumbers]. f_equal. f_equal. by apply fmap_alter.
Qed.

Lemma losses_same_channel pipe c f d : (∀ s, cs_lostPackets (f s) = cs_lostPackets s) → losses pipe (on_channel c f d) = losses pipe d.
Proof. intros Hf. by rewrite (losses_on_channel pipe c f id d _ _ _ Hf eq_refl), list_alter_id. Qed.

Lemma losses_set_in pipe q t d : losses pipe (set_in pipe q t d) = losses pipe d.
Proof. by destruct pipe. Qed.

Definition lost_between (last number : Z) : Z := if last >=? 0 then calc_packet_loss (u16 last) number else 0.

(** Adding a loss; a counter that gets nothing is left as it is. *)
Definition add_loss (last loss n : Z) : Z := if last >=? 0 then u64 (n + loss) else n.

Lemma losses_count_loss pipe c number bytes d L C N :
  losses pipe d = (L, C, N) →
  let last := default 0 (N !! Z.to_nat c) in
  losses pipe (count_loss pipe c number bytes d).2
  = (add_loss last (lost_between last number) L, alter (add_loss last (lost_between last number)) (Z.to_nat c) C, <[Z.to_nat c := number]> N).
Proof.
  intros Hd. cbv zeta. assert (HN : im_lastPacketNumbers d = N) by (by injection Hd). unfold count_loss, lost_between, add_loss. rewrite HN.
  set (last := default 0 (N !! Z.to_nat c)). destruct (last >=? 0) eqn:E; cbn [snd]; rewrite losses_same_channel by done.
  - set (loss := calc_packet_loss (u16 last) number).
    assert (H1 : losses pipe (on_pipe pipe (ps_lose loss) d) = (u64 (L + loss), C, N)) by (injection Hd as <- <- <-; by destruct pipe).
    pose proof (losses_on_channel pipe c (cs_lose loss) (λ n, u64 (n + loss)) _ _ _ _ (λ s, eq_refl) H1) as H2. injection H2 as H2a H2b H2c.
    unfold losses. f_equal; [f_equal|].
    + rewrite <- H2a. by destruct pipe.
    + exact H2b.
    + cbn [set_last set_stats im_lastPacketNumbers]. f_equal. exact H2c.
  - rewrite list_alter_id by done. injection Hd as <- <- <-. by destruct pipe.
Qed.

(** A packet of a channel; [seq] is the number the controller has given it, of which the
    header carries 12 bits. *)
Definition packet_of (channel seq : Z) (bytes : list Z) : Prop :=
  8 ≤ zlen bytes ≤ eth.JumboFrameMaxSize ∧ dataWordCount (headers_of bytes) ≤ availablePayloadWords bytes
  ∧ packetChannel (headers_of bytes) = channel ∧ packetNumber (headers_of bytes) = seq mod 4096 ∧ 0 ≤ channel < NumPacketChannels.

Lemma losses_packet pipe channel seq bytes d L C N :
  packet_of channel seq bytes → losses pipe d = (L, C, N) →
  let last := default 0 (N !! Z.to_nat channel) in
  losses pipe (handle_packet pipe bytes d).2
  = (add_loss last (lost_between last (seq mod 4096)) L, alter (add_loss last (lost_between last (seq mod 4096))) (Z.to_nat channel) C,
     <[Z.to_nat channel := seq mod 4096]> N).
Proof.
  intros (Hlen & Hwc & Hch & Hnum & Hr) Hd. cbv zeta. unfold handle_packet.
  destruct (Z.gtb_spec (dataWordCount (headers_of bytes)) (availablePayloadWords bytes)); [lia|]. cbv zeta.
  set (p' := if _ >? _ then _ else _). set (d' := if leftoverBytes p' >? 0 then _ else _).
  assert (Hd' : losses pipe d' = (L, C, N)) by (unfold d'; destruct (_ >? 0); [rewrite losses_on_pipe by done|]; done).
  rewrite Hch. destruct (Z.geb_spec channel NumPacketChannels); [lia|]. rewrite Hnum.
  assert (Hrec : losses pipe (on_channel channel (cs_receive (zlen p')) d') = (L, C, N)) by (rewrite losses_same_channel by done; exact Hd').
  pose proof (losses_count_loss pipe channel (seq mod 4096) (zlen p') _ L C N Hrec) as HL. cbv zeta in HL.
  destruct (count_loss pipe channel (seq mod 4096) (zlen p') _) as [lost d2]. cbn [snd] in *. rewrite <- HL.
  unfold count_header. clearbody p'. clear. destruct (negb _); [destruct (payload_words p' !! _) as [h|]|]; rewrite losses_same_channel by done; by apply losses_on_pipe.
Qed.

Lemma read_packet_losses pipe channel seq bytes t q d L C N :
  isConnected d = true → im_in pipe d = Datagram bytes t :: q → packet_of channel seq bytes → losses pipe d = (L, C, N) →
  let last := default 0 (N !! Z.to_nat channel) in
  losses pipe (read_packet pipe eth.JumboFrameMaxSize d).2
  = (add_loss last (lost_between last (seq mod 4096)) L, alter (add_loss last (lost_between last (seq mod 4096))) (Z.to_nat channel) C,
     <[Z.to_nat channel := seq mod 4096]> N).
Proof.
  intros Hc Hq Hp Hd. unfold read_packet. set (d1 := on_pipe pipe ps_attempt d).
  rewrite (transport_connected d1 d (transport_on_pipe _ _ _)), Hc. cbn [negb]. assert (Hq1 : im_in pipe d1 = Datagram bytes t :: q) by (rewrite <- Hq; by destruct pipe).
  unfold receive_one_packet. rewrite Hq1. rewrite u16_received. cbn [failed no_error Z.eqb negb andb].
  assert (Hall : ztake eth.JumboFrameMaxSize bytes = bytes) by (apply ztake_all; destruct Hp; lia). rewrite Hall.
  replace (hasHeaders bytes) with true by (symmetry; unfold hasHeaders; apply Z.geb_le; destruct Hp; change eth.HeaderBytes with 8; lia). cbn [negb].
  apply losses_packet; [done|]. rewrite losses_on_pipe by done. rewrite losses_set_in. unfold d1. by rewrite losses_on_pipe.
Qed.

(** ** Sequences of packets *)

Fixpoint read_packets (n : nat) (pipe : Pipe) (d : Impl) : Impl :=
  match n with O => d | S n => read_packets n pipe (read_packet pipe eth.JumboFrameMaxSize d).2 end.

(** The number of the last packet of each channel, if there was one.  A packet follows
    another one of its channel if fewer than 4096 packets are missing in between. *)
Definition follows (before : option Z) (seq : Z) : Prop := match before with Some l => l < seq ≤ l + 4096 | None => True end.
Definition missing (before : option Z) (seq : Z) : Z := match before with Some l => seq - l - 1 | None => 0 end.

Fixpoint ordered (before : list (option Z)) (packets : list (Z * Z)) : Prop :=
  match packets with
  | [] => True
  | (channel, seq) :: packets =>
      0 ≤ seq ∧ follows (mjoin (before !! Z.to_nat channel)) seq ∧ ordered (<[Z.to_nat channel := Some seq]> before) packets
  end.

(** The packets missing on the channels that satisfy [P]. *)
Fixpoint missing_on (P : Z → bool) (before : list (option Z)) (packets : list (Z * Z)) : Z :=
  match packets with
  | [] => 0
  | (channel, seq) :: packets =>
      (if P channel then missing (mjoin (before !! Z.to_nat channel)) seq else 0)
      + missing_on P (<[Z.to_nat channel := Some seq]> before) packets
  end.

(** The stored numbers are the last ones, cut to 12 bits. *)
Definition number_of (before : option Z) : Z := match before with Some l => l mod 4096 | None => -1 end.

Lemma lost_missing before seq n :
  follows before seq → match before with Some l => 0 ≤ l | None => True end → 0 ≤ n < 2 ^ 64 →
  add_loss (number_of before) (lost_between (number_of before) (seq mod 4096)) n = u64 (n + missing before seq).
Proof.
  destruct before as [l|]; cbn [follows number_of missing]; intros Hf Hl Hn.
  - unfold add_loss, lost_between. pose proof (Z.mod_pos_bound l 4096 ltac:(lia)) as Hm. pose proof (Z.mod_pos_bound seq 4096 ltac:(lia)) as Hs.
    destruct (Z.geb_spec (l mod 4096) 0); [|lia]. rewrite u16_id by (unfold is_u16; lia).
    destruct (calc_packet_loss_mod (l mod 4096) (seq mod 4096)) as [-> _]; [lia|lia|]. f_equal. f_equal. zlia.
  - unfold add_loss. cbn. rewrite Z.add_0_r. symmetry. by apply Z.mod_small.
Qed.

Definition carries (p : Z * Z) (r : Recv) : Prop := ∃ bytes t, r = Datagram bytes t ∧ packet_of p.1 p.2 bytes.

Lemma u64_add a b c : u64 (u64 (a + b) + c) = u64 (a + (b + c)).
Proof. unfold u64. rewrite Zplus_mod_idemp_l. f_equal. lia. Qed.

Lemma number_of_nonneg (before : list (option Z)) i :
  Forall (λ b, match b with Some l => 0 ≤ l | None => True end) before →
  match mjoin (before !! i) with Some l => 0 ≤ l | None => True end.
Proof. intros H. destruct (before !! i) as [b|] eqn:E; [|done]. cbn. by apply (Forall_lookup_1 _ _ _ _ H E). Qed.

Lemma losses_packets pipe packets : ∀ queue rest before d L C,
  isConnected d = true → im_in pipe d = queue ++ rest → Forall2 carries packets queue → length before = Z.to_nat NumPacketChannels →
  Forall (λ b, match b with Some l => 0 ≤ l | None => True end) before → ordered before packets →
  0 ≤ L < 2 ^ 64 → Forall (λ n, 0 ≤ n < 2 ^ 64) C → losses pipe d = (L, C, number_of <$> before) →
  ∃ C' N', losses pipe (read_packets (length packets) pipe d) = (u64 (L + missing_on (λ _, true) before packets), C', N')
    ∧ ∀ ch n, 0 ≤ ch → C !! Z.to_nat ch = Some n → C' !! Z.to_nat ch = Some (u64 (n + missing_on (Z.eqb ch) before packets)).
Proof.
  assert (Hu : ∀ z, 0 ≤ u64 z < 2 ^ 64) by (intros z; apply Z.mod_pos_bound; lia).
  induction packets as [|[c seq] packets IH]; intros queue rest before d L C Hc Hq HF Hb Hn Ho HL HC Hd.
  { exists C, (number_of <$> before). cbn [length read_packets missing_on]. unfold u64. rewrite Z.add_0_r, (Z.mod_small L) by lia.
    split; [done|]. intros ch n _ Hch. rewrite Z.add_0_r, Z.mod_small; [done|]. exact (Forall_lookup_1 _ _ _ _ HC Hch). }
  apply Forall2_cons_inv_l in HF as (r & queue' & (bytes & t & -> & Hp) & HF & ->). destruct Ho as (Hs & Hf & Ho). cbn [fst snd] in Hp.
  assert (Hrange : 0 ≤ c < NumPacketChannels) by apply Hp.
  pose proof (read_packet_losses pipe c seq bytes t (queue' ++ rest) d L C _ Hc Hq Hp Hd) as H1. cbv zeta in H1.
  pose proof (read_packet_cons pipe d (Datagram bytes t) (queue' ++ rest) Hc Hq) as H2. cbn [read_packets length].
  destruct (read_packet pipe eth.JumboFrameMaxSize d) as [rr d1]. cbn [snd] in *. destruct H2 as [Ht _].
  apply (transport_parts pipe) in Ht as (Te & _ & Ti & _). cbn [recv_time] in Te, Ti. destruct (set_in_parts pipe (queue' ++ rest) t d) as (Se & _ & Si & _).
  destruct (lookup_lt_is_Some_2 before (Z.to_nat c)) as [b Eb]; [rewrite Hb; unfold NumPacketChannels in *; lia|].
  pose proof (number_of_nonneg before (Z.to_nat c) Hn) as Hbn. rewrite Eb in Hf, Hbn. cbn in Hf, Hbn.
  rewrite list_lookup_fmap, Eb in H1. cbn [fmap option_fmap option_map default from_option id] in H1. rewrite lost_missing in H1 by done.
  assert (HC2 : Forall (λ n, 0 ≤ n < 2 ^ 64) (alter (add_loss (number_of b) (lost_between (number_of b) (seq mod 4096))) (Z.to_nat c) C)).
  { apply Forall_alter; [done|]. intros n Hn1 Hn2. rewrite lost_missing by done. apply Hu. }
  change (seq mod 4096) with (number_of (Some seq)) in H1 at 2. rewrite <- (list_fmap_insert number_of before) in H1.
  destruct (IH queue' rest (<[Z.to_nat c := Some seq]> before) d1 (u64 (L + missing b seq))
    (alter (add_loss (number_of b) (lost_between (number_of b) (seq mod 4096))) (Z.to_nat c) C)) as (C' & N' & H' & HC'); try done.
  - rewrite (elsewhere_connected pipe d1 d); [done|]. by rewrite Te, Se.
  - by rewrite Ti, Si.
  - by rewrite length_insert.
  - by apply Forall_insert.
  - exists C', N'. split; [rewrite H'; cbn [missing_on]; rewrite Eb; cbn [mjoin option_join]; by rewrite u64_add|].
    intros ch n Hch Hlk. cbn [missing_on]. rewrite Eb. cbn [mjoin option_join]. destruct (Z.eqb_spec ch c) as [->|Hne].
    + erewrite HC'; [|done|rewrite list_lookup_alter_eq, Hlk; reflexivity]. rewrite lost_missing, u64_add; [done|done|done|exact (Forall_lookup_1 _ _ _ _ HC Hlk)].
    + rewrite Z.add_0_l. apply HC'; [done|]. rewrite list_lookup_alter_ne by lia. done.
Qed.

(** ** Witnesses *)

(** A packet of the command pipe with the given payload. *)
Definition cmd_packet (payload : list Z) (t : Z) : Recv := Datagram (words_to_bytes (zlen payload :: 0xFFF :: payload)) t.

Definition split_impl : Impl :=
  set_sockets 3 4 5 (new_impl "mvlc-0001"
    [cmd_packet [frame_word frame_headers.SuperFrame 0 0 0 3; ref_word 1] 1; cmd_packet [] 2;
     cmd_packet [SuperCT_value ReadLocal * 2 ^ 16 + 0x1304; 77; 0xF3000000] 3] [] []).

Lemma split_delivers : ∃ results d', read_all Command [4; 8] split_impl = (results, d') ∧ results.*1 = [no_error; no_error].
Proof. do 2 eexists. split; [vm_compute; reflexivity|reflexivity]. Qed.

Lemma eth_reads_stream_witness :
  ∃ results d', read_all Command [4; 8] split_impl = (results, d') ∧ results.*1 = [no_error; no_error]
    ∧ delivers Command split_impl (concat results.*2) d'.
Proof.
  destruct split_delivers as (results & d' & H & Hec). exists results, d'. split_and!; [exact H|exact Hec|].
  exact (proj1 (eth_reads_stream Command [4; 8] split_impl results d' eq_refl ltac:(by repeat (apply Forall_cons; split)) H)).
Defined.

Lemma split_attentive : eth_attentive 100 split_impl.
Proof. split; [reflexivity|]. split; [done|]. repeat (apply Forall_cons; split); done. Qed.

Lemma split_incoming : eth_incoming split_impl = words_to_bytes (concat [] ++ register_response 1 0x1304 77 ++ [0xF3000000]).
Proof. vm_compute. reflexivity. Qed.

Lemma eth_register_read_witness :
  ∃ s, readRegister 1 0x1304 0 (new_dialog split_impl) = Done ((no_error, 77), s) ∧ eth_incoming (dlg_dev s) = words_to_bytes [0xF3000000].
Proof.
  destruct (eth_register_read 1 100 split_impl [] 0x1304 77 0 [0xF3000000] split_attentive eq_refl ltac:(done) ltac:(done) ltac:(cbn; lia)
    ltac:(by apply Forall_nil) split_incoming) as (s & H1 & _ & H2 & _).
  exists s. split; [exact H1|exact H2].
Defined.
