(* ===== verification/EthConnect.v ===== *)
(** * Connecting over ETH, and the accounting after it

    The claims about lost packets after the counters were reset, and about what [connect]
    leaves behind. *)

From S2P Require Import Prelude Effects Constants Frames FramesFacts Commands CommandsFacts StackErrors Errors ReadoutBuffer ReadoutWorker CmdApiLaws CmdApiController Dialog DialogFacts EthImpl EthFacts.

(** ** Lost packets *)

(** No packet has been received on any channel. *)
Definition nothing_before : list (option Z) := replicate (Z.to_nat NumPacketChannels) None.

(** C17: After the counters were reset, reading packets counts the lost ones: the controller
    numbers the packets of a channel one after the other and sends 12 bits of the number; as
    long as fewer than 4096 packets are missing between two that arrive, the counter of the
    pipe is the number of packets missing on all its channels, and the counter of each
    channel the number missing on that channel, modulo the width of the counters. *)
Theorem eth_loss_counted pipe packets queue rest d :
  isConnected d = true → im_in pipe d = queue ++ rest → Forall2 carries packets queue → ordered nothing_before packets →
  let d' := read_packets (length packets) pipe (resetPipeAndChannelStats d) in
  ps_lostPackets (im_stats pipe d') = u64 (missing_on (λ _, true) nothing_before packets)
  ∧ ∀ ch, 0 ≤ ch < NumPacketChannels →
      cs_lostPackets <$> (im_channelStats d' !! Z.to_nat ch) = Some (u64 (missing_on (Z.eqb ch) nothing_before packets)).
Proof.
  intros Hc Hq HF Ho. cbv zeta.
  destruct (losses_packets pipe packets queue rest nothing_before (resetPipeAndChannelStats d) 0 [0; 0; 0]) as (C' & N' & H & HC); try done.
  - by apply Forall_replicate.
  - by repeat (apply Forall_cons; split).
  - by destruct pipe.
  - injection H as H1 H2 _. split; [done|]. intros ch Hch. rewrite <- list_lookup_fmap, H2. unfold NumPacketChannels in Hch.
    apply (HC ch 0); [lia|]. assert (Hcases : ch = 0 ∨ ch = 1 ∨ ch = 2) by lia. by destruct Hcases as [->|[->| ->]].
Qed.

(** Packets 4094, 4097 and 4098 of channel 2: two are missing. *)
Definition demo_packet (number : Z) : Recv :=
  Datagram (words_to_bytes [2 * 2 ^ 28 + (number mod 4096) * 2 ^ 16 + 1; 0; 0xF3000000]) 0.
Definition demo_numbers : list (Z * Z) := [(2, 4094); (2, 4097); (2, 4098)].
Definition demo_queue : list Recv := demo_packet <$> demo_numbers.*2.
Definition demo_impl : Impl := set_sockets 3 4 5 (new_impl "mvlc-0001" [] demo_queue []).
Definition demo_read : Impl := read_packets (length demo_numbers) Data (resetPipeAndChannelStats demo_impl).

Lemma demo_carries : Forall2 carries demo_numbers demo_queue.
Proof.
  unfold demo_numbers, demo_queue. cbn [fmap list_fmap snd].
  repeat apply Forall2_cons_2; try done; do 2 eexists; (split; [reflexivity|]);
    (split_and!; first [reflexivity|by vm_compute|split; by vm_compute]).
Qed.

Lemma demo_ordered : ordered nothing_before demo_numbers.
Proof. unfold demo_numbers. cbn [ordered fst snd]. split_and!; try lia; try done; cbn; lia. Qed.

Lemma demo_missing : u64 (missing_on (λ _, true) nothing_before demo_numbers) = 2.
Proof. vm_compute. reflexivity. Qed.

Lemma eth_loss_counted_witness : ps_lostPackets (im_stats Data demo_read) = 2.
Proof.
  rewrite <- demo_missing. exact (proj1 (eth_loss_counted Data demo_numbers demo_queue [] demo_impl eq_refl eq_refl demo_carries demo_ordered)).
Defined.

(** ** Connecting *)

Lemma first_error_Some results e : first_error results = Some e → e ≠ 0 ∧ e ∈ results.
Proof.
  unfold first_error. intros H. destruct (filter _ results) as [|x l] eqn:E; [done|]. injection H as ->.
  assert (Hin : e ∈ filter (λ r : Z, r ≠ 0) results) by (rewrite E; apply list_elem_of_here).
  by apply list_elem_of_filter in Hin.
Qed.

Lemma failed_system e : failed (system_error e) = negb (e =? 0).
Proof. done. Qed.

Lemma close_sockets_closed d : isConnected (close_sockets d) = false.
Proof. done. Qed.

(** The first dialog ends with the sockets open or closed, as its result says. *)
Lemma check_in_use_closes rounds d ec d' : check_in_use rounds d = Done (ec, d') → failed ec = true → isConnected d' = false.
Proof.
  unfold check_in_use. destruct (readRegister _ _ _ _) as [[[ec1 fw] dlg1]| | |]; try done.
  destruct (failed ec1); [intros [= <- <-] _; apply close_sockets_closed|].
  destruct (read_daq_mode _ _ _) as [[[ec2 mode] dlg2]| | |]; try done.
  destruct (failed ec2); [intros [= <- <-] _; apply close_sockets_closed|].
  destruct (_ && _); intros [= <- <-]; [intros _; apply close_sockets_closed|done].
Qed.

(** The calls that set options of the sockets. *)
Definition option_calls (os : Os) : list Z :=
  [os_write_timeout os CmdSock; os_read_timeout os CmdSock; os_write_timeout os DataSock; os_read_timeout os DataSock;
   os_write_timeout os DelaySock; os_receive_buffer os CmdSock; os_receive_buffer os DataSock].

(** A [connect] that fails leaves the object disconnected, except in two cases: it was
    connected before, or a call that sets an option of a socket failed; then the sockets stay
    open. *)
Theorem eth_connect_error rounds os d ec d' :
  connect rounds os d = Done (ec, d') → failed ec = true →
  isConnected d' = isConnected d ∧ (isConnected d = false ∨ ec = Mvlc MVLCErrorCode.IsConnected)
  ∨ isConnected d = false ∧ ∃ errno, errno ≠ 0 ∧ errno ∈ option_calls os ∧ ec = system_error errno ∧ isConnected d' = true.
Proof.
  unfold connect. destruct (isConnected d) eqn:Hc; [intros [= <- <-] _; left; split; [done|by right]|].
  set (d0 := resetPipeAndChannelStats _). assert (H0 : isConnected d0 = false) by done.
  destruct (lookup_host _ _ _) as [e|ip]; [intros [= <- <-] _; left; split; [done|by left]|].
  unfold create_sockets. destruct (Z.ltb_spec (os_socket os CmdSock) 0).
  { rewrite failed_system. destruct (Z.eqb_spec (- os_socket os CmdSock) 0); [lia|]. intros [= <- <-] _. left. split; [done|by left]. }
  destruct (Z.ltb_spec (os_socket os DataSock) 0).
  { rewrite failed_system. destruct (Z.eqb_spec (- os_socket os DataSock) 0); [lia|]. intros [= <- <-] _. left. split; [done|by left]. }
  destruct (Z.ltb_spec (os_socket os DelaySock) 0).
  { rewrite failed_system. destruct (Z.eqb_spec (- os_socket os DelaySock) 0); [lia|]. intros [= <- <-] _. left. split; [done|by left]. }
  cbn [failed no_error Z.eqb negb]. set (d1 := set_sockets _ _ _ _).
  assert (Hopen : isConnected d1 = true) by (unfold isConnected; cbn; repeat (apply andb_true_iff; split); by apply Z.geb_le).
  unfold bind_and_connect. destruct (first_error _) as [e|] eqn:Eb.
  { apply first_error_Some in Eb as [He _]. rewrite failed_system. apply Z.eqb_neq in He. rewrite He. intros [= <- <-] _. left. split; [done|by left]. }
  cbn [failed no_error Z.eqb negb]. unfold set_options. fold (option_calls os). destruct (first_error (option_calls os)) as [e|] eqn:Eo.
  { apply first_error_Some in Eo as [He Hin]. rewrite failed_system. pose proof He as He'. apply Z.eqb_neq in He. rewrite He. intros [= <- <-] _. right.
    split; [done|]. by exists e. }
  cbn [failed no_error Z.eqb negb]. intros H' Hf. left. split; [by eapply check_in_use_closes|by left].
Qed.

(** Sockets and name lookup that work, with one option that cannot be set. *)
Definition demo_os (timeout : Z) : Os :=
  mkOs (λ _ _, Some [(28, 1); (16, 0xC0A80001)]) (λ s, match s with CmdSock => 3 | DataSock => 4 | DelaySock => 5 end)
    (λ _, 0) (λ _, 0) (λ _, timeout) (λ _, 0) (λ _, 0).

(** The failed call leaves an object that calls itself connected. *)
Lemma eth_connect_error_witness :
  ∃ d', connect 3 (demo_os 22) (new_impl "mvlc-0001" [] [] []) = Done (system_error 22, d') ∧ isConnected d' = true.
Proof.
  eexists. split; [vm_compute; reflexivity|].
  destruct (eth_connect_error 3 (demo_os 22) (new_impl "mvlc-0001" [] [] []) (system_error 22) _ eq_refl eq_refl)
    as [[H1 H2]|(_ & errno & _ & _ & _ & H)]; [|exact H]. vm_compute in H1. discriminate H1.
Defined.

(** ** What stays behind *)

(** A controller that answers the two requests of [connect], and bytes of an earlier
    response in the buffer. *)
Definition stale_impl : Impl :=
  set_buffer Command (words_to_bytes [0xF1000000])
    (set_sockets 3 4 5 (new_impl "mvlc-0001" [cmd_packet (register_response 1 registers.firmware_revision 0x37) 0;
                                              cmd_packet (register_response 2 registers.daq_mode 0) 0] [] [])).

(** Closing the connection keeps the bytes that were received and not read; when the
    connection is opened again, the first request takes them for its response and the
    connection fails.  With an empty buffer it succeeds. *)
Lemma stale_bytes_read :
  let d := (disconnect stale_impl).2 in
  (∃ d', connect 3 (demo_os 0) d = Done (Mvlc MVLCErrorCode.MirrorShortResponse, d'))
  ∧ ∃ d', connect 3 (demo_os 0) (set_buffer Command [] d) = Done (no_error, d').
Proof. split; eexists; vm_compute; reflexivity. Qed.

(** A read that gets all of its bytes is reported as timed out when they came late. *)
Lemma complete_read_times_out :
  let d := set_sockets 3 4 5 (new_impl "mvlc-0001" [cmd_packet [7] 500] [] []) in
  (read Command 4 d).1 = (Mvlc MVLCErrorCode.SocketReadTimeout, words_to_bytes [7]).
Proof. vm_compute. reflexivity. Qed.

(** Packets with a channel that does not exist, or with fewer words than they announce, are
    reported by [read_packet]; [read] delivers their payload without an error. *)
Lemma malformed_packets_delivered :
  let bad_channel := Datagram (words_to_bytes [3 * 2 ^ 28 + 1; 0xFFF; 7]) 0 in
  let bad_count := Datagram (words_to_bytes [5; 0xFFF; 8]) 0 in
  let d := set_sockets 3 4 5 (new_impl "mvlc-0001" [bad_channel; bad_count] [] []) in
  pk_ec (read_packet Command 9000 d).1 = Mvlc MVLCErrorCode.UDPPacketChannelOutOfRange
  ∧ (read Command 8 d).1 = (no_error, words_to_bytes [7; 8]).
Proof. vm_compute. done. Qed.
