(* ===== verification/DialogInvariant.v ===== *)
(** * Properties of the connection that a dialog keeps

    A property of a connection that its reads and writes keep is kept by every operation of
    the dialog layer. *)

From S2P Require Import Prelude Effects Constants Errors Commands Dialog.

Section Keeps.
Context {C : Type} {HC : BasicInterface C} (P : C → Prop).
Context (read_keeps : ∀ pipe n c, P c → P (bi_read pipe n c).2) (write_keeps : ∀ pipe bytes c, P c → P (bi_write pipe bytes c).2).

(** Whatever [m] returns, the connection still satisfies [P]. *)
Definition stays {A} (m : SM (Dlg C) A) : Prop := ∀ s a s', P (dlg_dev s) → m s = Done (a, s') → P (dlg_dev s').

Lemma stays_ret {A} (a : A) : stays (mret a).
Proof. by intros s b s' Hs [= <- <-]. Qed.

Lemma stays_bind {A B} (m : SM (Dlg C) A) (f : A → SM (Dlg C) B) : stays m → (∀ a, stays (f a)) → stays (m ≫= f).
Proof.
  intros Hm Hf s b s' Hs. unfold mbind, SM_bind. destruct (m s) as [[a s1]| | |] eqn:E; try done. apply Hf. by eapply Hm.
Qed.

Lemma stays_get {A} (f : Dlg C → A) : stays (get_state f).
Proof. by intros s a s' Hs [= <- <-]. Qed.
Lemma stays_hang {A} : stays (hang : SM (Dlg C) A).
Proof. by intros s a s'. Qed.
Lemma stays_set_buf b ws : stays (set_buf b ws).
Proof. intros s a s' Hs [= <- <-]. by destruct b. Qed.
Lemma stays_count_error f : stays (count_error f).
Proof. by intros s a s' Hs [= <- <-]. Qed.
Lemma stays_next_reference : stays next_reference.
Proof. by intros s a s' Hs [= <- <-]. Qed.

Lemma stays_lower_read n : stays (lower_read n).
Proof.
  intros s a s' Hs. unfold lower_read. pose proof (read_keeps Command n (dlg_dev s) Hs) as H.
  destruct (bi_read _ _ _) as [[ec bytes] c]. by intros [= <- <-].
Qed.
Lemma stays_lower_write b : stays (lower_write b).
Proof.
  intros s a s' Hs. unfold lower_write. pose proof (write_keeps Command b (dlg_dev s) Hs) as H.
  destruct (bi_write _ _ _) as [[ec n] c]. by intros [= <- <-].
Qed.

Create HintDb stays discriminated.
#[local] Hint Resolve stays_ret stays_get stays_hang stays_set_buf stays_count_error stays_next_reference stays_lower_read stays_lower_write : stays.

(** Follow the structure of a computation. *)
Ltac keep := repeat first [progress eauto with stays | apply stays_bind; [|intros ?] | progress cbv beta zeta | case_match].

Lemma stays_doWrite b : stays (doWrite b).
Proof. unfold doWrite. keep. Qed.
Lemma stays_read_attempts more n : stays (read_attempts more n).
Proof. induction more as [|more IH]; cbn [read_attempts]; keep. Qed.
#[local] Hint Resolve stays_doWrite stays_read_attempts : stays.
Lemma stays_readWords n : stays (readWords n).
Proof. unfold readWords. keep. Qed.
#[local] Hint Resolve stays_readWords : stays.
Lemma stays_readKnownBuffer d : stays (readKnownBuffer d).
Proof. unfold readKnownBuffer. keep. Qed.
#[local] Hint Resolve stays_readKnownBuffer : stays.
Lemma stays_response_loop fuel t d : stays (read_response_loop fuel t d).
Proof. induction fuel as [|fuel IH]; cbn [read_response_loop]; keep. Qed.
#[local] Hint Resolve stays_response_loop : stays.
Lemma stays_readResponse rounds v d : stays (readResponse rounds v d).
Proof. unfold readResponse. keep. Qed.
#[local] Hint Resolve stays_readResponse : stays.
Lemma stays_super_tries rounds n ret b d : stays (super_tries rounds n ret b d).
Proof. revert ret; induction n as [|n IH]; intros ret; cbn [super_tries]; keep. Qed.
#[local] Hint Resolve stays_super_tries : stays.
Lemma stays_superTransaction rounds b d : stays (superTransaction rounds b d).
Proof. unfold superTransaction. keep. Qed.
#[local] Hint Resolve stays_superTransaction : stays.
Lemma stays_readRegister rounds a v : stays (readRegister rounds a v).
Proof. unfold readRegister. keep. Qed.

Lemma stays_writeRegister rounds a v : stays (writeRegister rounds a v).
Proof. unfold writeRegister. keep. Qed.

End Keeps.
