(* ===== verification/EthInvariant.v ===== *)
(** * The state of the ETH connection stays well-formed

    Counters keep their width, there is one set of counters and one packet number per packet
    channel, and stored packet numbers are numbers of packets or -1, under every operation. *)

From S2P Require Import Prelude Effects Constants Frames FramesFacts StackErrors Errors ReadoutBuffer ReadoutWorker Commands Dialog DialogInvariant EthImpl.

(** ** Well-formed states *)

Definition is_u64 (z : Z) : Prop := 0 ≤ z < 2 ^ 64.

Definition pipe_ok (p : PipeStats) : Prop :=
  Forall is_u64 [ps_receiveAttempts p; ps_receivedPackets p; ps_receivedBytes p; ps_shortPackets p; ps_packetsWithResidue p; ps_noHeader p;
    ps_headerOutOfRange p; ps_packetChannelOutOfRange p; ps_lostPackets p]
  ∧ map_Forall (λ _, is_u64) (ps_packetSizes p) ∧ map_Forall (λ _, is_u64) (ps_headerTypes p).

Definition channel_ok (c : PacketChannelStats) : Prop :=
  Forall is_u64 [cs_receivedPackets c; cs_receivedBytes c; cs_lostPackets c; cs_noHeader c; cs_headerOutOfRange c]
  ∧ map_Forall (λ _, is_u64) (cs_packetSizes c) ∧ map_Forall (λ _, is_u64) (cs_headerTypes c).

Definition impl_ok (d : Impl) : Prop :=
  pipe_ok (im_cmdStats d) ∧ pipe_ok (im_dataStats d)
  ∧ length (im_channelStats d) = Z.to_nat NumPacketChannels ∧ Forall channel_ok (im_channelStats d)
  ∧ length (im_lastPacketNumbers d) = Z.to_nat NumPacketChannels ∧ Forall (λ n, -1 ≤ n < 4096) (im_lastPacketNumbers d)
  ∧ im_undefined d = false.

Definition in_channels (c : Z) : Prop := 0 ≤ c < NumPacketChannels.

Lemma u64_ok z : is_u64 (u64 z).
Proof. apply Z.mod_pos_bound. lia. Qed.

Lemma count_key_ok k m : map_Forall (λ _, is_u64) m → map_Forall (λ _ : Z, is_u64) (count_key k m).
Proof. intros H. apply map_Forall_insert_2; [apply u64_ok|done]. Qed.

(** Changes of one counter of a pipe or of a channel. *)
Ltac stats_ok :=
  intros p (Hc & H1 & H2); repeat apply Forall_cons in Hc as [? Hc];
  split; [repeat (apply Forall_cons; split); try done; apply u64_ok|split; cbn; first [done|by apply count_key_ok]].

Lemma on_pipe_ok pipe f d : (∀ p, pipe_ok p → pipe_ok (f p)) → impl_ok d → impl_ok (on_pipe pipe f d).
Proof. intros Hf (H1 & H2 & H3 & H4 & H5 & H6 & H7). destruct pipe; split_and!; try done; cbn; by apply Hf. Qed.
Lemma touch_defined c d : in_channels c → impl_ok d → im_undefined (touch c d) = false.
Proof.
  intros [Hc1 Hc2] (_ & _ & H3 & _ & H5 & _ & H7). unfold touch, zlen. cbn [im_undefined]. rewrite H3, H5, H7. change (Z.of_nat (Z.to_nat NumPacketChannels)) with NumPacketChannels.
  by rewrite (proj2 (Z.leb_le _ _) Hc1), (proj2 (Z.ltb_lt _ _) Hc2).
Qed.
Lemma on_channel_ok c f d : in_channels c → (∀ p, channel_ok p → channel_ok (f p)) → impl_ok d → impl_ok (on_channel c f d).
Proof.
  intros Hc Hf Hd. pose proof (touch_defined c d Hc Hd). destruct Hd as (H1 & H2 & H3 & H4 & H5 & H6 & H7). split_and!; try done; cbn; [by rewrite length_alter|].
  apply Forall_alter; [done|]. intros p _ Hp. by apply Hf.
Qed.
Lemma set_last_ok c n d : in_channels c → -1 ≤ n < 4096 → impl_ok d → impl_ok (set_last c n d).
Proof.
  intros Hc Hn Hd. pose proof (touch_defined c d Hc Hd). destruct Hd as (H1 & H2 & H3 & H4 & H5 & H6 & H7).
  split_and!; try done; cbn; [by rewrite length_insert|by apply Forall_insert].
Qed.

Lemma ps_attempt_ok : ∀ p, pipe_ok p → pipe_ok (ps_attempt p).
Proof. stats_ok. Qed.
Lemma ps_short_ok : ∀ p, pipe_ok p → pipe_ok (ps_short p).
Proof. stats_ok. Qed.
Lemma ps_residue_ok : ∀ p, pipe_ok p → pipe_ok (ps_residue p).
Proof. stats_ok. Qed.
Lemma ps_bad_channel_ok : ∀ p, pipe_ok p → pipe_ok (ps_bad_channel p).
Proof. stats_ok. Qed.
Lemma ps_pointer_out_ok : ∀ p, pipe_ok p → pipe_ok (ps_pointer_out p).
Proof. stats_ok. Qed.
Lemma ps_no_header_ok : ∀ p, pipe_ok p → pipe_ok (ps_no_header p).
Proof. stats_ok. Qed.
Lemma ps_receive_ok n : ∀ p, pipe_ok p → pipe_ok (ps_receive n p).
Proof. stats_ok. Qed.
Lemma ps_lose_ok n : ∀ p, pipe_ok p → pipe_ok (ps_lose n p).
Proof. stats_ok. Qed.
Lemma ps_type_ok n : ∀ p, pipe_ok p → pipe_ok (ps_type n p).
Proof. stats_ok. Qed.
Lemma cs_receive_ok n : ∀ p, channel_ok p → channel_ok (cs_receive n p).
Proof. stats_ok. Qed.
Lemma cs_lose_ok n : ∀ p, channel_ok p → channel_ok (cs_lose n p).
Proof. stats_ok. Qed.
Lemma cs_size_ok n : ∀ p, channel_ok p → channel_ok (cs_size n p).
Proof. stats_ok. Qed.
Lemma cs_type_ok n : ∀ p, channel_ok p → channel_ok (cs_type n p).
Proof. stats_ok. Qed.
Lemma cs_pointer_ok : ∀ p, channel_ok p → channel_ok (cs_pointer_out p).
Proof. stats_ok. Qed.
Lemma cs_no_header_ok : ∀ p, channel_ok p → channel_ok (cs_no_header p).
Proof. stats_ok. Qed.

(** ** The operations *)

Create HintDb impl_ok discriminated.
#[export] Hint Resolve on_pipe_ok on_channel_ok set_last_ok ps_attempt_ok ps_short_ok ps_residue_ok ps_bad_channel_ok ps_pointer_out_ok ps_no_header_ok
  ps_receive_ok ps_lose_ok ps_type_ok cs_receive_ok cs_lose_ok cs_size_ok cs_type_ok cs_pointer_ok cs_no_header_ok : impl_ok.

Lemma set_buffer_ok pipe b d : impl_ok d → impl_ok (set_buffer pipe b d).
Proof. by destruct pipe. Qed.
Lemma set_in_ok pipe q t d : impl_ok d → impl_ok (set_in pipe q t d).
Proof. by destruct pipe. Qed.
#[export] Hint Resolve set_buffer_ok set_in_ok : impl_ok.

Lemma packetChannel_nonneg h : 0 ≤ packetChannel h.
Proof. unfold packetChannel, u16. apply Z.mod_pos_bound. lia. Qed.
Lemma packetNumber_range h : -1 ≤ packetNumber h < 4096.
Proof.
  unfold packetNumber, eth.header0.PacketNumberShift, eth.header0.PacketNumberMask, u16. rewrite (field_eq _ 16 12) by lia.
  pose proof (field_range (header0 h / 2 ^ 16) 12 ltac:(lia)). rewrite Z.mod_small by lia. lia.
Qed.
#[export] Hint Resolve packetNumber_range : impl_ok.

Lemma count_loss_ok pipe c n b d : in_channels c → -1 ≤ n < 4096 → impl_ok d → impl_ok (count_loss pipe c n b d).2.
Proof. intros Hc Hn H. unfold count_loss. destruct (_ >=? 0); cbn [snd]; auto 10 with impl_ok. Qed.
Lemma count_header_ok pipe c p d : in_channels c → impl_ok d → impl_ok (count_header pipe c p d).
Proof. intros Hc H. unfold count_header. destruct (negb _); [destruct (payload_words p !! _)|]; auto 10 with impl_ok. Qed.
#[export] Hint Resolve count_loss_ok count_header_ok : impl_ok.

Lemma handle_packet_ok pipe p d : impl_ok d → impl_ok (handle_packet pipe p d).2.
Proof.
  intros H. unfold handle_packet. destruct (_ >? _); [done|]. cbv zeta. set (p' := if _ >? _ then _ else _). set (d' := if leftoverBytes p' >? 0 then _ else _).
  assert (Hd : impl_ok d') by (unfold d'; destruct (leftoverBytes p' >? 0); auto with impl_ok).
  destruct (Z.geb_spec (packetChannel (headers_of p)) NumPacketChannels) as [|Hlt]; [cbn [snd]; auto with impl_ok|].
  assert (Hc : in_channels (packetChannel (headers_of p))) by (split; [apply packetChannel_nonneg|done]).
  pose proof (count_loss_ok pipe (packetChannel (headers_of p)) (packetNumber (headers_of p)) (zlen p') (on_channel (packetChannel (headers_of p)) (cs_receive (zlen p')) d')
    Hc (packetNumber_range _) ltac:(auto with impl_ok)) as Hl.
  destruct (count_loss _ _ _ _ _) as [lost d2]. cbn [snd] in *. auto with impl_ok.
Qed.

Lemma read_packet_ok pipe n d : impl_ok d → impl_ok (read_packet pipe n d).2.
Proof.
  intros H. unfold read_packet. assert (H1 : impl_ok (on_pipe pipe ps_attempt d)) by auto with impl_ok. destruct (negb _); [done|].
  unfold receive_one_packet. set (d1 := on_pipe pipe ps_attempt d) in *.
  destruct (im_in pipe d1) as [|[b t|e t] q]; (destruct (_ && _); [cbn [snd]; auto with impl_ok|]); (destruct (negb _); [cbn [snd]; auto 10 with impl_ok|apply handle_packet_ok; auto 10 with impl_ok]).
Qed.

Lemma copy_and_update_ok pipe n d : impl_ok d → impl_ok (copy_and_update pipe n d).2.
Proof. intros H. cbn. auto with impl_ok. Qed.

Lemma read_loop_typed queue : ∀ pipe size t dest d, impl_ok d → impl_ok (read_loop queue pipe size t dest d).2.
Proof.
  induction queue as [|r queue IH]; intros pipe size t dest d H; cbn [read_loop]; (destruct (size =? 0); [done|]);
    pose proof (read_packet_ok pipe eth.JumboFrameMaxSize (set_buffer pipe [] d) ltac:(auto with impl_ok)) as H1;
    destruct (read_packet _ _ _) as [rr d1]; cbn [snd] in H1; (destruct (failed _ && _); [done|]);
    pose proof (copy_and_update_ok pipe size (set_buffer pipe (payload_bytes (pk_bytes rr)) d1) ltac:(auto with impl_ok)) as H2;
    destruct (copy_and_update _ _ _) as [copied d2]; cbn [snd] in H2; (destruct (_ >=? _); [done|]); [done|by apply IH].
Qed.

Lemma read_typed pipe size d : impl_ok d → impl_ok (read pipe size d).2.
Proof.
  intros H. unfold read. destruct (negb _); [done|]. pose proof (copy_and_update_ok pipe size d H) as H1.
  destruct (copy_and_update _ _ _) as [copied d1]. cbn [snd] in H1. destruct (_ =? 0); [done|by apply read_loop_typed].
Qed.

Lemma write_to_socket_typed sock b d : impl_ok d → impl_ok (write_to_socket sock b d).2.
Proof. intros H. unfold write_to_socket. by destruct (im_sends d) as [|[n|e] l]. Qed.
Lemma write_typed pipe b d : impl_ok d → impl_ok (write pipe b d).2.
Proof. intros H. unfold write. destruct (negb _); [done|]. by apply write_to_socket_typed. Qed.

Lemma reset_typed d : im_undefined d = false → impl_ok (resetPipeAndChannelStats d).
Proof.
  intros Hd.
  assert (Hp : pipe_ok new_pipe_stats) by (split; [by repeat (apply Forall_cons; split)|split; apply map_Forall_empty]).
  assert (Hc : channel_ok new_channel_stats) by (split; [by repeat (apply Forall_cons; split)|split; apply map_Forall_empty]).
  split_and!; try done; cbn [im_channelStats im_lastPacketNumbers resetPipeAndChannelStats set_stats].
  - by apply Forall_replicate.
  - by apply Forall_replicate.
Qed.

Lemma check_in_use_typed rounds d ec d' : impl_ok d → check_in_use rounds d = Done (ec, d') → impl_ok d'.
Proof.
  intros H. unfold check_in_use. pose proof (stays_readRegister impl_ok read_typed write_typed rounds) as Hk.
  destruct (readRegister _ _ _ _) as [[[ec1 fw] dlg1]| | |] eqn:E; try done. pose proof (Hk _ _ (new_dialog d) _ _ H E) as H1.
  destruct (failed ec1); [by intros [= <- <-]|]. unfold read_daq_mode.
  destruct (readRegister _ registers.daq_mode _ _) as [[[ec2 mode] dlg2]| | |] eqn:E2; try done. pose proof (Hk _ _ _ _ _ H1 E2) as H2.
  destruct (failed ec2); [by intros [= <- <-]|]. destruct (_ && _); by intros [= <- <-].
Qed.

Lemma connect_typed rounds os d ec d' : impl_ok d → connect rounds os d = Done (ec, d') → impl_ok d'.
Proof.
  intros H. unfold connect. destruct (isConnected d); [by intros [= <- <-]|]. set (d0 := resetPipeAndChannelStats _).
  assert (H0 : impl_ok d0) by (apply reset_typed; apply H). destruct (lookup_host _ _ _) as [e|ip]; [by intros [= <- <-]|].
  assert (Hs : impl_ok (create_sockets os (set_address ip d0)).2) by (unfold create_sockets; repeat case_match; done).
  destruct (create_sockets _ _) as [ec1 d1]. cbn [snd] in Hs. destruct (failed ec1); [by intros [= <- <-]|].
  assert (Hb : impl_ok (bind_and_connect os d1).2) by (unfold bind_and_connect; case_match; done).
  destruct (bind_and_connect _ _) as [ec2 d2]. cbn [snd] in Hb. destruct (failed ec2); [by intros [= <- <-]|].
  assert (Ho : impl_ok (set_options os d2).2) by (unfold set_options; case_match; done).
  destruct (set_options _ _) as [ec3 d3]. cbn [snd] in Ho. destruct (failed ec3); [by intros [= <- <-]|]. by apply check_in_use_typed.
Qed.

(** ** Runs of operations *)

(** Calls in any order; the results of the system calls are those of the state. *)
Inductive reachable (d : Impl) : Impl → Prop :=
| reach_start : reachable d d
| reach_connect rounds os d1 ec d2 : reachable d d1 → connect rounds os d1 = Done (ec, d2) → reachable d d2
| reach_disconnect d1 : reachable d d1 → reachable d (disconnect d1).2
| reach_read pipe n d1 : reachable d d1 → reachable d (read pipe n d1).2
| reach_packet pipe n d1 : reachable d d1 → reachable d (read_packet pipe n d1).2
| reach_write pipe b d1 : reachable d d1 → reachable d (write pipe b d1).2
| reach_delay us d1 : reachable d d1 → reachable d (send_delay_command us d1).2
| reach_reset d1 : reachable d d1 → reachable d (resetPipeAndChannelStats d1)
| reach_disable b d1 : reachable d d1 → reachable d (setDisableTriggersOnConnect b d1).

(** C16: Whatever is called on a new connection object, in whatever order and with whatever
    results of the system calls and packets, the state stays well-formed: no packet leads to
    an access outside of the arrays of counters and packet numbers, every counter keeps its width, there is one set of counters and one packet number per packet channel, and
    the stored packet numbers are -1 or 12 bit numbers, so that the accounting of lost packets
    is never done with anything else. *)
Theorem eth_state_typed host cmdIn dataIn sends d :
  reachable (new_impl host cmdIn dataIn sends) d → impl_ok d.
Proof.
  induction 1 as [|rounds os d1 ec d2 H IH E|d1 H IH|pipe n d1 H IH|pipe n d1 H IH|pipe b d1 H IH|us d1 H IH|d1 H IH|b d1 H IH].
  - by apply (reset_typed (new_impl host cmdIn dataIn sends)).
  - by eapply connect_typed.
  - unfold disconnect. by destruct (negb _).
  - by apply read_typed.
  - by apply read_packet_ok.
  - by apply write_typed.
  - unfold send_delay_command. pose proof (write_to_socket_typed DelaySock (le_bytes (u32 (SuperCommandType.EthDelay ≪ super_commands.SuperCmdShift) .| us)) d1 IH) as Hw.
    destruct (write_to_socket _ _ _) as [[ec n] d2]. cbn [snd] in Hw. by repeat case_match.
  - apply reset_typed, IH.
  - done.
Qed.

Lemma eth_state_typed_witness :
  impl_ok (read_packet Command 9000 (set_sockets 3 4 5 (new_impl "mvlc-0001" [Datagram (words_to_bytes [1; 0xFFF; 7]) 0] [] []))).2
  ∧ impl_ok (read Data 4 (resetPipeAndChannelStats (new_impl "mvlc-0001" [] [] []))).2.
Proof.
  split.
  - apply read_packet_ok. exact (eth_state_typed "mvlc-0001" [Datagram (words_to_bytes [1; 0xFFF; 7]) 0] [] [] _ (reach_start _)).
  - apply (eth_state_typed "mvlc-0001" [] [] []). apply reach_read, reach_reset, reach_start.
Defined.
