(* ===== verification/UsbImpl.v ===== *)
(** * The USB connection: [mvlc_impl_usb*.cc]

    [usb::Impl] for Linux and for Windows on top of the FTDI driver library.  The library is
    an instance of [Ftdi]: every call gets the state of the driver and the devices and
    returns a status, what it stored, and the new state.

    [post_connect_cleanup] runs two threads, one on each pipe.  A schedule says how many
    reads of the thread of the data pipe are made before each call of the other thread; every
    interleaving of the calls has such a schedule. *)

From S2P Require Import Prelude Effects Constants Errors Text Dialog ReadoutSetup.

(** ** The driver library *)

(* mvlc_impl_usb_internal.cc:19-60 FTErrorCategory::message *)
Inductive FT_STATUS : Type :=
| FT_OK | FT_INVALID_HANDLE | FT_DEVICE_NOT_FOUND | FT_DEVICE_NOT_OPENED | FT_IO_ERROR | FT_INSUFFICIENT_RESOURCES
| FT_INVALID_PARAMETER | FT_INVALID_BAUD_RATE | FT_DEVICE_NOT_OPENED_FOR_ERASE | FT_DEVICE_NOT_OPENED_FOR_WRITE
| FT_FAILED_TO_WRITE_DEVICE | FT_EEPROM_READ_FAILED | FT_EEPROM_WRITE_FAILED | FT_EEPROM_ERASE_FAILED
| FT_EEPROM_NOT_PRESENT | FT_EEPROM_NOT_PROGRAMMED | FT_INVALID_ARGS | FT_NOT_SUPPORTED | FT_NO_MORE_ITEMS | FT_TIMEOUT
| FT_OPERATION_ABORTED | FT_RESERVED_PIPE | FT_INVALID_CONTROL_REQUEST_DIRECTION | FT_INVALID_CONTROL_REQUEST_TYPE
| FT_IO_PENDING | FT_IO_INCOMPLETE | FT_HANDLE_EOF | FT_BUSY | FT_NO_SYSTEM_RESOURCES | FT_DEVICE_LIST_NOT_READY
| FT_DEVICE_NOT_CONNECTED | FT_INCORRECT_DEVICE_PATH | FT_OTHER_ERROR.

#[global] Instance FT_STATUS_eq_dec : EqDecision FT_STATUS.
Proof. solve_decision. Defined.

(** The values are the positions in the enumeration of the library. *)
Definition ft_value (st : FT_STATUS) : Z :=
  match st with
  | FT_OK => 0 | FT_INVALID_HANDLE => 1 | FT_DEVICE_NOT_FOUND => 2 | FT_DEVICE_NOT_OPENED => 3 | FT_IO_ERROR => 4
  | FT_INSUFFICIENT_RESOURCES => 5 | FT_INVALID_PARAMETER => 6 | FT_INVALID_BAUD_RATE => 7 | FT_DEVICE_NOT_OPENED_FOR_ERASE => 8
  | FT_DEVICE_NOT_OPENED_FOR_WRITE => 9 | FT_FAILED_TO_WRITE_DEVICE => 10 | FT_EEPROM_READ_FAILED => 11
  | FT_EEPROM_WRITE_FAILED => 12 | FT_EEPROM_ERASE_FAILED => 13 | FT_EEPROM_NOT_PRESENT => 14 | FT_EEPROM_NOT_PROGRAMMED => 15
  | FT_INVALID_ARGS => 16 | FT_NOT_SUPPORTED => 17 | FT_NO_MORE_ITEMS => 18 | FT_TIMEOUT => 19 | FT_OPERATION_ABORTED => 20
  | FT_RESERVED_PIPE => 21 | FT_INVALID_CONTROL_REQUEST_DIRECTION => 22 | FT_INVALID_CONTROL_REQUEST_TYPE => 23
  | FT_IO_PENDING => 24 | FT_IO_INCOMPLETE => 25 | FT_HANDLE_EOF => 26 | FT_BUSY => 27 | FT_NO_SYSTEM_RESOURCES => 28
  | FT_DEVICE_LIST_NOT_READY => 29 | FT_DEVICE_NOT_CONNECTED => 30 | FT_INCORRECT_DEVICE_PATH => 31 | FT_OTHER_ERROR => 32
  end.

(* mvlc_impl_usb_internal.cc:62-114 FTErrorCategory::default_error_condition *)
Definition ft_error_condition (st : FT_STATUS) : ErrorType.t :=
  match st with
  | FT_OK => ErrorType.Success
  | FT_TIMEOUT => ErrorType.Timeout
  | _ => ErrorType.ConnectionError
  end.

(* mvlc_impl_usb_internal.cc:124-127 make_error_code *)
Definition make_error_code (st : FT_STATUS) : error_code := Foreign (ft_value st) (ft_error_condition st).

(** [FT_DEVICE_LIST_INFO_NODE] and [FT_60XCONFIGURATION], as far as they are used. *)
Record InfoNode : Type := mkInfoNode { in_flags : Z; in_serial : string; in_description : string; in_handle : option Z }.
Record ChipConfiguration : Type := mkChip {
  FIFOClock : Z; FIFOMode : Z; ChannelConfig : Z; PowerAttributes : Z; OptionalFeatureSupport : Z }.

Definition FT_FLAGS_OPENED : Z := 1.
Definition FT_FLAGS_HISPEED : Z := 2.
Definition FT_FLAGS_SUPERSPEED : Z := 4.
Definition CONFIGURATION_FIFO_CLK_100 : Z := 0.
Definition CONFIGURATION_FIFO_MODE_600 : Z := 1.
Definition CONFIGURATION_CHANNEL_CONFIG_2 : Z := 1.
Definition CONFIGURATION_OPTIONAL_FEATURE_DISABLEALL : Z := 0.

(** The calls used.  A handle is [None] where the source has a null pointer; [FT_Create]
    gets the handle variable and returns what it holds afterwards.  The nodes that
    [FT_GetDeviceInfoList] returns are as many as the count it stores.  Reads return the bytes
    stored, writes the number of bytes taken; the last argument of the [Ex] calls is a timeout, if
    there is one (on Windows it is a null pointer).  [ft_now] is the steady clock in milliseconds. *)
Class Ftdi (D : Type) : Type := {
  FT_CreateDeviceInfoList : D → FT_STATUS * Z * D;
  FT_GetDeviceInfoList : Z → D → FT_STATUS * list InfoNode * D;
  FT_Create : Z → option Z → D → FT_STATUS * option Z * D;
  FT_Close : Z → D → FT_STATUS * D;
  FT_GetChipConfiguration : option Z → D → FT_STATUS * ChipConfiguration * D;
  FT_SetPipeTimeout : option Z → Z → Z → D → FT_STATUS * D;
  FT_AbortPipe : option Z → Z → D → FT_STATUS * D;
  FT_SetStreamPipe : option Z → bool → bool → Z → Z → D → FT_STATUS * D;
  FT_WritePipeEx : option Z → Z → list Z → option Z → D → FT_STATUS * Z * D;
  FT_ReadPipeEx : option Z → Z → Z → option Z → D → FT_STATUS * list Z * D;
  FT_ReadPipe : option Z → Z → Z → D → FT_STATUS * list Z * D;
  ft_now : D → Z
}.

(** ** Devices *)

Module Flags.
Definition Opened : Z := 1. (* mvlc_impl_usb_common.h:23 *)
Definition USB2 : Z := 2. (* mvlc_impl_usb_common.h:24 *)
Definition USB3 : Z := 4. (* mvlc_impl_usb_common.h:25 *)
End Flags.

(* mvlc_impl_usb_common.h:17-35 DeviceInfo *)
Record DeviceInfo : Type := mkDeviceInfo {
  di_index : Z; di_serial : string; di_description : string; di_flags : Z; di_handle : option Z }.
(* mvlc_impl_usb_common.h:28-32 DeviceInfo *)
Definition no_device : DeviceInfo := mkDeviceInfo (-1) "" "" 0 None.
(* mvlc_impl_usb_common.h:34-34 DeviceInfo *)
Definition is_device (di : DeviceInfo) : bool := di_index di >=? 0.

(* mvlc_impl_usb_common.cc:36-53 make_device_info_list *)
Definition make_device_info (ftIndex : nat) (infoNode : InfoNode) : DeviceInfo :=
  let bit (mask flag : Z) (flags : Z) := if in_flags infoNode .& mask =? 0 then flags else flags .| flag in
  mkDeviceInfo (Z.of_nat ftIndex) (in_serial infoNode) (in_description infoNode)
    (bit FT_FLAGS_SUPERSPEED Flags.USB3 (bit FT_FLAGS_HISPEED Flags.USB2 (bit FT_FLAGS_OPENED Flags.Opened 0))) (in_handle infoNode).

(* mvlc_impl_usb_common.h:39-43 ListOptions *)
Inductive ListOptions : Type := MVLCDevices | AllDevices.
(* mvlc_impl_usb_common.h:51-55 EndpointDirection *)
Inductive EndpointDirection : Type := In | Out.

(* mvlc_impl_usb.h:150-160 get_fifo_id *)
Definition get_fifo_id (pipe : Pipe) : Z := match pipe with Command => 0 | Data => 1 end.
(* mvlc_impl_usb.h:162-181 get_endpoint *)
Definition get_endpoint (pipe : Pipe) (dir : EndpointDirection) : Z :=
  let result := match pipe with Command => 0x2 | Data => 0x3 end in
  match dir with In => result .| 0x80 | Out => result end.

(** The regular expression has no operators: its search is one for a substring. *)
Definition contains (needle s : string) : bool := match String.index 0 needle s with Some _ => true | None => false end.

(* mvlc_impl_usb_linux_x86_64.cc:43-43 WriteTimeout_ms *)
Definition WriteTimeout_ms : Z := 2000.
(* mvlc_impl_usb_linux_x86_64.cc:45-45 ReadTimeout_ms *)
Definition ReadTimeout_ms : Z := 1000.

(** ** Connections and their use by two threads *)

(* mvlc_usb_interface.h:42-50 MVLC_USB_Interface *)
Class MVLC_USB_Interface (C : Type) : Type := { ui_read_unbuffered : Pipe → Z → C → error_code * list Z * C }.

Section Cleanup.
Context {C : Type} {HU : MVLC_USB_Interface C}.

(** One round of the loop: the error code, the bytes so far and whether the loop ends. *)
(* mvlc_impl_usb_internal.cc:140-160 read_pipe_until_empty *)
Definition drain_once (pipe : Pipe) (total : Z) (c : C) : error_code * Z * bool * C :=
  let '(ec, bytes, c) := ui_read_unbuffered pipe usb.USBStreamPipeReadSize c in
  (ec, u64 (total + zlen bytes), is_connection_error ec || negb (zlen bytes >? 0), c).

(* mvlc_impl_usb_internal.cc:131-163 read_pipe_until_empty *)
Fixpoint read_pipe_until_empty (fuel : nat) (pipe : Pipe) (total : Z) : SM C (error_code * Z) := λ c,
  match fuel with
  | O => Hangs
  | S fuel =>
      let '(ec, total, ends, c) := drain_once pipe total c in
      if ends : bool then Done ((ec, total), c) else read_pipe_until_empty fuel pipe total c
  end.

End Cleanup.

(** The thread of the data pipe: in its loop, or done with a result. *)
Inductive DataThread : Type := Reading (total : Z) | Finished (ec : error_code) (total : Z).

(** The connection as the other thread uses it: before each of its calls the thread of the
    data pipe makes as many reads as the schedule says. *)
Record Shared (C : Type) : Type := mkShared { sh_impl : C; sh_data : DataThread; sh_schedule : list nat }.
Arguments mkShared {C}.
Arguments sh_impl {C}.
Arguments sh_data {C}.
Arguments sh_schedule {C}.

Section Threads.
Context {C : Type} {HB : BasicInterface C} {HU : MVLC_USB_Interface C}.

Definition data_step (s : Shared C) : Shared C :=
  match sh_data s with
  | Reading total =>
      let '(ec, total, ends, c) := drain_once Data total (sh_impl s) in
      mkShared c (if ends : bool then Finished ec total else Reading total) (sh_schedule s)
  | Finished _ _ => s
  end.

Definition let_data_run (s : Shared C) : Shared C :=
  match sh_schedule s with
  | [] => s
  | n :: rest => Nat.iter n data_step (mkShared (sh_impl s) (sh_data s) rest)
  end.

Definition on_shared {A} (f : C → A * C) (s : Shared C) : A * Shared C :=
  let s := let_data_run s in let '(a, c) := f (sh_impl s) in (a, mkShared c (sh_data s) (sh_schedule s)).

#[global] Instance Shared_interface : BasicInterface (Shared C) := {
  bi_connectionType := bi_connectionType (C := C);
  bi_usb2 s := bi_usb2 (sh_impl s);
  bi_write pipe bytes := on_shared (bi_write pipe bytes);
  bi_read pipe size := on_shared (bi_read pipe size);
  bi_now s := bi_now (sh_impl s)
}.
#[global] Instance Shared_usb : MVLC_USB_Interface (Shared C) := {
  ui_read_unbuffered pipe size := on_shared (ui_read_unbuffered pipe size)
}.

(** The rounds of the loops. *)
Context (rounds fuel : nat).

Definition on_device {A} (m : SM (Shared C) A) : SM (Dlg (Shared C)) A := λ s,
  match m (dlg_dev s) with
  | Done (a, c) => Done (a, set_dev c s)
  | Raise e => Raise e
  | Hangs => Hangs
  | Broken => Broken
  end.

(* mvlc_dialog_util.h:129-133 disable_daq_mode *)
Definition disable_daq_mode : SM (Dlg (Shared C)) error_code := writeRegister rounds registers.daq_mode 0.

(* mvlc_impl_usb_common.cc:206-233 post_connect_cleanup *)
Fixpoint disable_tries (tries : nat) (ret : error_code * Z) : SM (Dlg (Shared C)) (error_code * Z) :=
  match tries with
  | O => mret ret
  | S tries =>
      ec ← disable_daq_mode;
      if failed ec then
        if is_connection_error ec then mret (ec, ret.2)
        else
          rr ← on_device (read_pipe_until_empty fuel Command 0);
          let ret := (rr.1, u64 (ret.2 + rr.2)) in
          if is_connection_error ret.1 then mret ret else disable_tries tries ret
      else mret ret
  end.

(** What is left of the thread of the data pipe. *)
(* mvlc_impl_usb_common.cc:235-242 post_connect_cleanup *)
Definition join_data (s : Shared C) : res (error_code * Z * C) :=
  match sh_data s with
  | Reading total => read_pipe_until_empty fuel Data total (sh_impl s)
  | Finished ec total => Done ((ec, total), sh_impl s)
  end.

(* mvlc_impl_usb_common.cc:195-195 DisableTriggerRetryCount *)
Definition DisableTriggerRetryCount : nat := 5.

(* mvlc_impl_usb_common.cc:247-255 post_connect_cleanup *)
Definition cleanup_result (rCmd rData : error_code) : error_code :=
  let ec := if failed rCmd then rCmd else if failed rData then rData else no_error in
  if is_timeout ec then no_error else ec.

(* mvlc_impl_usb_common.cc:190-260 post_connect_cleanup *)
Definition post_connect_cleanup (schedule : list nat) : SM C error_code := λ impl,
  match disable_tries DisableTriggerRetryCount (no_error, 0) (new_dialog (mkShared impl (Reading 0) schedule)) with
  | Done (rCmd, dlg) =>
      match join_data (dlg_dev dlg) with
      | Done (rData, impl) => Done (cleanup_result rCmd.1 rData.1, impl)
      | Raise e => Raise e
      | Hangs => Hangs
      | Broken => Broken
      end
  | Raise e => Raise e
  | Hangs => Hangs
  | Broken => Broken
  end.

End Threads.

(** ** The connection on Linux *)

(* mvlc_impl_usb.h:120-132 ConnectMode *)
Inductive ConnectMode : Type := First | ByIndex (index : Z) | BySerial (serial : string).

(* mvlc_impl_usb.h:119-145 Impl *)
Record Impl (D : Type) : Type := mkImpl {
  usb_handle : option Z;
  usb_mode : ConnectMode;
  usb_info : DeviceInfo;
  usb_disableTriggers : bool;
  usb_driver : D
}.
Arguments mkImpl {D}.
Arguments usb_handle {D}.
Arguments usb_mode {D}.
Arguments usb_info {D}.
Arguments usb_disableTriggers {D}.
Arguments usb_driver {D}.

(** [static_cast<int>] of an unsigned integer *)
Definition to_int (n : Z) : Z := let m := u32 n in if m <? 2 ^ 31 then m else m - 2 ^ 32.

Section Linux.
Context {D : Type} {HD : Ftdi D}.

Definition set_handle (h : option Z) (d : Impl D) : Impl D := mkImpl h (usb_mode d) (usb_info d) (usb_disableTriggers d) (usb_driver d).
Definition set_info (i : DeviceInfo) (d : Impl D) : Impl D := mkImpl (usb_handle d) (usb_mode d) i (usb_disableTriggers d) (usb_driver d).
Definition set_driver (s : D) (d : Impl D) : Impl D := mkImpl (usb_handle d) (usb_mode d) (usb_info d) (usb_disableTriggers d) s.

(* mvlc_impl_usb_linux_x86_64.cc:52-65 Impl::Impl *)
Definition new_impl (mode : ConnectMode) (driver : D) : Impl D := mkImpl None mode no_device true driver.

(* mvlc_impl_usb.h:106-109 setDisableTriggersOnConnect *)
Definition setDisableTriggersOnConnect (b : bool) (d : Impl D) : Impl D := mkImpl (usb_handle d) (usb_mode d) (usb_info d) b (usb_driver d).

(* mvlc_impl_usb_linux_x86_64.cc:234-237 Impl::isConnected *)
Definition isConnected (d : Impl D) : bool := match usb_handle d with Some _ => true | None => false end.

(* mvlc_impl_usb_linux_x86_64.cc:72-83 Impl::closeHandle *)
Definition closeHandle (d : Impl D) : error_code * Impl D :=
  match usb_handle d with
  | None => (make_error_code FT_OK, d)
  | Some h => let '(st, s) := FT_Close h (usb_driver d) in (make_error_code st, set_handle None (set_driver s d))
  end.

(* mvlc_impl_usb_linux_x86_64.cc:224-232 Impl::disconnect *)
Definition disconnect (d : Impl D) : error_code * Impl D :=
  if negb (isConnected d) then (Mvlc MVLCErrorCode.IsDisconnected, d) else closeHandle d.

(* mvlc_impl_usb_linux_x86_64.cc:67-70 Impl::~Impl *)
Definition destroy_impl (d : Impl D) : Impl D := (disconnect d).2.

(* mvlc_impl_usb_linux_x86_64.cc:239-271 Impl::write *)
Definition write (pipe : Pipe) (buffer : list Z) (d : Impl D) : error_code * Z * Impl D :=
  let '(st, transferred, s) := FT_WritePipeEx (usb_handle d) (get_fifo_id pipe) buffer (Some WriteTimeout_ms) (usb_driver d) in
  (make_error_code st, transferred, set_driver s d).

(* mvlc_impl_usb_linux_x86_64.cc:273-327 Impl::read *)
Definition read (pipe : Pipe) (size : Z) (d : Impl D) : error_code * list Z * Impl D :=
  let '(st, bytes, s) :=
    if negb (di_flags (usb_info d) .& Flags.USB2 =? 0)
    then FT_ReadPipeEx (usb_handle d) (get_fifo_id pipe) size (Some 1) (usb_driver d)
    else FT_ReadPipe (usb_handle d) (get_endpoint pipe In) size (usb_driver d) in
  (make_error_code st, bytes, set_driver s d).

(* mvlc_impl_usb_linux_x86_64.cc:329-359 Impl::read_unbuffered *)
Definition read_unbuffered (pipe : Pipe) (size : Z) (d : Impl D) : error_code * list Z * Impl D :=
  let '(st, bytes, s) := FT_ReadPipe (usb_handle d) (get_endpoint pipe In) size (usb_driver d) in
  (make_error_code st, bytes, set_driver s d).

#[global] Instance Impl_interface : BasicInterface (Impl D) := {
  bi_connectionType := USB;
  bi_usb2 d := negb (di_flags (usb_info d) .& Flags.USB2 =? 0);
  bi_write := write;
  bi_read := read;
  bi_now d := ft_now (usb_driver d)
}.
#[global] Instance Impl_usb : MVLC_USB_Interface (Impl D) := { ui_read_unbuffered := read_unbuffered }.

(* mvlc_impl_usb_linux_x86_64.cc:361-379 Impl::connectionInfo *)
Definition connectionInfo (d : Impl D) : string :=
  let info := usb_info d in
  let flag (f : Z) := negb (di_flags info .& f =? 0) in
  ("mvlc_usb: speed=" +:+ (if flag Flags.USB2 then "USB2" else if flag Flags.USB3 then "USB3" else "<unknown>")
   +:+ ", serial='" +:+ (if String.eqb (di_serial info) "" then "<unknown>" else di_serial info) +:+ "'")%string.

(** ** Connecting *)

(* mvlc_impl_usb_common.cc:15-59 make_device_info_list *)
Definition make_device_info_list (d : Impl D) : list DeviceInfo * Impl D :=
  let '(st, numDevs, s) := FT_CreateDeviceInfoList (usb_driver d) in
  if bool_decide (st = FT_OK) && (numDevs >? 0) then
    let '(st, nodes, s) := FT_GetDeviceInfoList numDevs s in
    (if bool_decide (st = FT_OK) then imap make_device_info nodes else [], set_driver s d)
  else ([], set_driver s d).

(* mvlc_impl_usb_common.cc:127-143 get_device_info_list *)
Definition get_device_info_list (opts : ListOptions) (d : Impl D) : list DeviceInfo * Impl D :=
  let '(result, d) := make_device_info_list d in
  (match opts with MVLCDevices => filter (λ di, contains "MVLC" (di_description di) = true) result | AllDevices => result end, d).

(* mvlc_impl_usb_common.cc:145-153 get_device_info_by_serial *)
Definition get_device_info_by_serial (infoList : list DeviceInfo) (serial : string) : DeviceInfo :=
  default no_device (head (filter (λ di, di_serial di = serial) infoList)).

(* mvlc_impl_usb_common.cc:155-175 check_chip_configuration *)
Definition check_chip_configuration (d : Impl D) : error_code * Impl D :=
  let '(st, conf, s) := FT_GetChipConfiguration (usb_handle d) (usb_driver d) in
  (if negb (bool_decide (st = FT_OK)) then make_error_code st
   else if negb (FIFOClock conf =? CONFIGURATION_FIFO_CLK_100) || negb (FIFOMode conf =? CONFIGURATION_FIFO_MODE_600)
           || negb (ChannelConfig conf =? CONFIGURATION_CHANNEL_CONFIG_2) || (PowerAttributes conf .& 0x40 =? 0)
           || (PowerAttributes conf .& 0x20 =? 0) || negb (OptionalFeatureSupport conf =? CONFIGURATION_OPTIONAL_FEATURE_DISABLEALL)
   then Mvlc MVLCErrorCode.USBChipConfigError
   else no_error, set_driver s d).

(* mvlc_impl_usb_linux_x86_64.cc:381-385 set_endpoint_timeout *)
Definition set_endpoint_timeout (ep ms : Z) (d : Impl D) : error_code * Impl D :=
  let '(st, s) := FT_SetPipeTimeout (usb_handle d) ep ms (usb_driver d) in (make_error_code st, set_driver s d).

(** [FT_Create] for a device of the list, which becomes the device of the connection. *)
Definition create (info : DeviceInfo) (d : Impl D) : FT_STATUS * Impl D :=
  let '(st, h, s) := FT_Create (di_index info) (usb_handle d) (usb_driver d) in (st, set_handle h (set_info info (set_driver s d))).

(* mvlc_impl_usb_linux_x86_64.cc:103-144 Impl::connect *)
Definition open_device (infoList : list DeviceInfo) (d : Impl D) : FT_STATUS * Impl D :=
  match usb_mode d with
  | First => match infoList with [] => (FT_DEVICE_NOT_FOUND, d) | info :: _ => create info d end
  | ByIndex index =>
      match head (filter (λ info, di_index info = to_int index) infoList) with
      | None => (FT_DEVICE_NOT_FOUND, d)
      | Some info => create info d
      end
  | BySerial serial =>
      let info := get_device_info_by_serial infoList serial in
      let d := set_info info d in
      if is_device info then create info d else (FT_DEVICE_NOT_FOUND, d)
  end.

(* mvlc_impl_usb_linux_x86_64.cc:97-97 MaxOpenAttempts *)
Definition MaxOpenAttempts : nat := 3.

(* mvlc_impl_usb_linux_x86_64.cc:101-148 Impl::connect *)
Fixpoint open_attempts (attempts : nat) (st : FT_STATUS) (infoList : list DeviceInfo) (d : Impl D) : FT_STATUS * Impl D :=
  match attempts with
  | O => (st, d)
  | S attempts =>
      let '(st, d) := open_device infoList d in
      if bool_decide (st = FT_OK) then (st, d) else open_attempts attempts st infoList d
  end.

(** The timeouts in the order in which they are set; the first error ends the loop. *)
(* mvlc_impl_usb_linux_x86_64.cc:171-188 Impl::connect *)
Fixpoint set_timeouts (l : list (Z * Z)) (d : Impl D) : error_code * Impl D :=
  match l with
  | [] => (no_error, d)
  | (ep, ms) :: l => let '(ec, d) := set_endpoint_timeout ep ms d in if failed ec then (ec, d) else set_timeouts l d
  end.
Definition pipe_timeouts : list (Z * Z) :=
  [(get_endpoint Command In, ReadTimeout_ms); (get_endpoint Command Out, WriteTimeout_ms);
   (get_endpoint Data In, ReadTimeout_ms); (get_endpoint Data Out, WriteTimeout_ms)].

(** An error after the device was opened: the handle is closed. *)
Definition close_with (ec : error_code) (d : Impl D) : res (error_code * Impl D) := Done (ec, (closeHandle d).2).

(* mvlc_impl_usb_linux_x86_64.cc:207-221 Impl::connect *)
Definition set_polling (d : Impl D) : res (error_code * Impl D) :=
  let '(ec, d) := set_endpoint_timeout (get_endpoint Command In) 0 d in
  if failed ec then close_with ec d else Done (no_error, d).

(** The loop around the cleanup ends in its first round in either case. *)
(* mvlc_impl_usb_linux_x86_64.cc:85-222 Impl::connect *)
Definition connect (rounds fuel : nat) (schedule : list nat) : SM (Impl D) error_code := λ d,
  if isConnected d then Done (Mvlc MVLCErrorCode.IsConnected, d)
  else
    let '(infoList, d) := get_device_info_list MVLCDevices d in
    let '(st, d) := open_attempts MaxOpenAttempts FT_OK infoList d in
    if failed (make_error_code st) then Done (make_error_code st, d)
    else
      let '(ec, d) := check_chip_configuration d in
      if failed ec then close_with ec d
      else
        let '(ec, d) := set_timeouts pipe_timeouts d in
        if failed ec then close_with ec d
        else if usb_disableTriggers d then
          match post_connect_cleanup rounds fuel schedule d with
          | Done (ec, d) => if failed ec then Done (ec, d) else set_polling d
          | Raise e => Raise e
          | Hangs => Hangs
          | Broken => Broken
          end
        else set_polling d.

End Linux.
