(* ===== verification/UsbFacts.v ===== *)
(** * Properties of the USB connection

    Which devices are open after connecting in each case, and that it ends with the data
    acquisition switched off and nothing left in the command pipe, whatever the interleaving of
    the two threads that clean up the pipes and also when some writes time out. *)

From S2P Require Import Prelude Effects Constants Frames Commands StackErrors Errors ReadoutBuffer CmdApiLaws CmdApiController Dialog DialogFacts DialogVme DialogInvariant UsbImpl.

Lemma make_error_code_failed st : failed (make_error_code st) = negb (bool_decide (st = FT_OK)).
Proof. by destruct st. Qed.

(** ** What connecting leaves behind *)

(** The devices that are open, by their handles.  An open that succeeds stores a new handle
    and one that fails leaves the variable alone; closing an open handle succeeds; the other calls
    neither open nor close anything. *)
Class FtdiLaws (D : Type) `{Ftdi D} : Type := {
  open_handles : D → gset Z;
  create_opens i s st h s' :
    FT_Create i None s = (st, h, s') →
    if bool_decide (st = FT_OK) then ∃ x, h = Some x ∧ x ∉ open_handles s ∧ open_handles s' = {[x]} ∪ open_handles s
    else h = None ∧ open_handles s' = open_handles s;
  close_closes h s : h ∈ open_handles s → ∃ s', FT_Close h s = (FT_OK, s') ∧ open_handles s' = open_handles s ∖ {[h]};
  count_keeps s : open_handles (FT_CreateDeviceInfoList s).2 = open_handles s;
  list_keeps n s : open_handles (FT_GetDeviceInfoList n s).2 = open_handles s;
  chip_keeps h s : open_handles (FT_GetChipConfiguration h s).2 = open_handles s;
  timeout_keeps h ep ms s : open_handles (FT_SetPipeTimeout h ep ms s).2 = open_handles s;
  write_keeps h ep bytes t s : open_handles (FT_WritePipeEx h ep bytes t s).2 = open_handles s;
  readEx_keeps h ep n t s : open_handles (FT_ReadPipeEx h ep n t s).2 = open_handles s;
  read_keeps h ep n s : open_handles (FT_ReadPipe h ep n s).2 = open_handles s
}.

Section Outcome.
Context {D : Type} {HD : Ftdi D} {HL : FtdiLaws D}.
Implicit Types d : Impl D.

(** The handle of the connection and all open handles. *)
Definition held (d : Impl D) : option Z * gset Z := (usb_handle d, open_handles (usb_driver d)).

(** The connection has nothing open, or one device more than [before]. *)
Definition holds_none (before : gset Z) (d : Impl D) : Prop := held d = (None, before).
Definition holds_new (before : gset Z) (d : Impl D) : Prop := ∃ h, h ∉ before ∧ held d = (Some h, {[h]} ∪ before).

Lemma holds_new_same before d d' : holds_new before d → held d' = held d → holds_new before d'.
Proof. intros (h & Hn & Hh) E. exists h. by rewrite E. Qed.

Lemma holds_new_connected before d : holds_new before d → isConnected d = true.
Proof. intros (h & _ & [= Hh _]). unfold isConnected. by rewrite Hh. Qed.

(** What the last call left behind. *)
Definition opened_as (before : gset Z) (st : FT_STATUS) (d : Impl D) : Prop :=
  if bool_decide (st = FT_OK) then holds_new before d else holds_none before d.

Lemma create_outcome before info d st d' : holds_none before d → create info d = (st, d') → opened_as before st d'.
Proof.
  intros [= Hn Ho]. unfold create, opened_as. destruct (FT_Create _ _ _) as [[st' h] s'] eqn:E. intros [= <- <-]. rewrite Hn in E.
  apply create_opens in E. rewrite Ho in E. destruct (bool_decide (st' = FT_OK)).
  - destruct E as (x & -> & Hx & Hs). by exists x; unfold held; cbn; rewrite Hs.
  - destruct E as [-> Hs]. unfold holds_none, held. cbn. by rewrite Hs.
Qed.

Lemma open_device_outcome before infos d st d' : holds_none before d → open_device infos d = (st, d') → opened_as before st d'.
Proof.
  intros Hn. unfold open_device. destruct (usb_mode d) as [|i|serial].
  - destruct infos; [by intros [= <- <-]|]. by apply create_outcome.
  - destruct (head _); [|by intros [= <- <-]]. by apply create_outcome.
  - destruct (is_device _); [|by intros [= <- <-]]. by apply create_outcome.
Qed.

Lemma open_attempts_outcome before n : ∀ st0 infos d st d',
  (0 < n)%nat → holds_none before d → open_attempts n st0 infos d = (st, d') → opened_as before st d'.
Proof.
  induction n as [|n IH]; intros st0 infos d st d' Hp Hn; [lia|]. cbn [open_attempts].
  destruct (open_device infos d) as [st1 d1] eqn:E. pose proof (open_device_outcome before infos d st1 d1 Hn E) as H1.
  destruct (bool_decide (st1 = FT_OK)) eqn:Eb; [by intros [= <- <-]|]. destruct n as [|n].
  - cbn. by intros [= <- <-].
  - apply IH; [lia|]. unfold opened_as in H1. by rewrite Eb in H1.
Qed.

Lemma get_device_info_list_held opts d infos d' : get_device_info_list opts d = (infos, d') → held d' = held d.
Proof.
  unfold get_device_info_list, make_device_info_list. pose proof (count_keeps (usb_driver d)) as H1.
  destruct (FT_CreateDeviceInfoList _) as [[st n] s]. cbn in H1. destruct (_ && _).
  - pose proof (list_keeps n s) as H2. destruct (FT_GetDeviceInfoList n s) as [[st' nodes] s']. cbn in H2.
    intros [= <- <-]. unfold held. cbn. by rewrite H2, H1.
  - intros [= <- <-]. unfold held. cbn. by rewrite H1.
Qed.

Lemma set_endpoint_timeout_held ep ms d ec d' : set_endpoint_timeout ep ms d = (ec, d') → held d' = held d.
Proof.
  unfold set_endpoint_timeout. pose proof (timeout_keeps (usb_handle d) ep ms (usb_driver d)) as H. destruct (FT_SetPipeTimeout _ _ _ _) as [st s].
  intros [= <- <-]. unfold held. cbn in *. by rewrite H.
Qed.

Lemma set_timeouts_held l : ∀ d ec d', set_timeouts l d = (ec, d') → held d' = held d.
Proof.
  induction l as [|[ep ms] l IH]; intros d ec d'; cbn [set_timeouts]; [by intros [= <- <-]|].
  destruct (set_endpoint_timeout ep ms d) as [ec1 d1] eqn:E. apply set_endpoint_timeout_held in E.
  destruct (failed ec1); [by intros [= <- <-]|]. intros H. by rewrite <- E, (IH _ _ _ H).
Qed.

Lemma check_chip_held d ec d' : check_chip_configuration d = (ec, d') → held d' = held d.
Proof.
  unfold check_chip_configuration. pose proof (chip_keeps (usb_handle d) (usb_driver d)) as H. destruct (FT_GetChipConfiguration _ _) as [[st conf] s].
  intros [= <- <-]. unfold held. cbn in *. by rewrite H.
Qed.

Lemma closeHandle_closes before d : holds_new before d → holds_none before (closeHandle d).2.
Proof.
  intros (h & Hn & [= Hh Ho]). unfold closeHandle. rewrite Hh. destruct (close_closes h (usb_driver d)) as (s' & -> & Hs); [set_solver|].
  unfold holds_none, held. cbn. rewrite Hs, Ho. f_equal. set_solver.
Qed.

(** The threads of the cleanup neither open nor close. *)
Lemma read_unbuffered_held pipe size d : held (read_unbuffered pipe size d).2 = held d.
Proof.
  unfold read_unbuffered. pose proof (read_keeps (usb_handle d) (get_endpoint pipe In) size (usb_driver d)) as H.
  destruct (FT_ReadPipe _ _ _ _) as [[st bytes] s]. unfold held. cbn in *. by rewrite H.
Qed.

Lemma read_held pipe size d : held (read pipe size d).2 = held d.
Proof.
  unfold read. destruct (negb _).
  - pose proof (readEx_keeps (usb_handle d) (get_fifo_id pipe) size (Some 1) (usb_driver d)) as H. destruct (FT_ReadPipeEx _ _ _ _ _) as [[st bytes] s].
    unfold held. cbn in *. by rewrite H.
  - exact (read_unbuffered_held pipe size d).
Qed.

Lemma write_held pipe bytes d : held (write pipe bytes d).2 = held d.
Proof.
  unfold write. pose proof (write_keeps (usb_handle d) (get_fifo_id pipe) bytes (Some WriteTimeout_ms) (usb_driver d)) as H.
  destruct (FT_WritePipeEx _ _ _ _ _) as [[st n] s]. unfold held. cbn in *. by rewrite H.
Qed.

Lemma drain_held pipe total d ec t ends d' : drain_once pipe total d = (ec, t, ends, d') → held d' = held d.
Proof.
  unfold drain_once. cbn [ui_read_unbuffered Impl_usb]. pose proof (read_unbuffered_held pipe usb.USBStreamPipeReadSize d) as H.
  destruct (read_unbuffered _ _ _) as [[st bytes] s]. by intros [= <- <- <- <-].
Qed.

Lemma until_empty_held fuel pipe : ∀ total d r d', read_pipe_until_empty fuel pipe total d = Done (r, d') → held d' = held d.
Proof.
  induction fuel as [|fuel IH]; intros total d r d'; cbn [read_pipe_until_empty]; [done|].
  destruct (drain_once pipe total d) as [[[ec t] ends] d1] eqn:E. apply drain_held in E.
  destruct ends; [by intros [= <- <-]|]. intros H. by rewrite <- E, (IH _ _ _ _ H).
Qed.

Definition holds (h : option Z * gset Z) (s : Shared (Impl D)) : Prop := held (sh_impl s) = h.

Lemma data_steps_held h n s : holds h s → holds h (Nat.iter n data_step s).
Proof.
  intros Hs. induction n as [|n IH]; [done|]. rewrite Nat.iter_succ. set (s1 := Nat.iter n data_step s) in *. clearbody s1. unfold data_step.
  destruct (sh_data s1); [|done]. destruct (drain_once Data total (sh_impl s1)) as [[[ec t] ends] d1] eqn:E. apply drain_held in E.
  unfold holds in *. cbn [sh_impl]. by rewrite E.
Qed.

Lemma on_shared_held {A} h (f : Impl D → A * Impl D) s : (∀ d, held (f d).2 = held d) → holds h s → holds h (on_shared f s).2.
Proof.
  intros Hf Hs. unfold on_shared. assert (H1 : holds h (let_data_run s)).
  { unfold let_data_run. destruct (sh_schedule s); [done|]. by apply data_steps_held. }
  pose proof (Hf (sh_impl (let_data_run s))) as H2. destruct (f _) as [a c]. unfold holds in *. cbn [sh_impl snd] in *. congruence.
Qed.

Lemma drained_stays h fuel pipe total : stays (holds h) (on_device (read_pipe_until_empty fuel pipe total)).
Proof.
  intros s r s' Hs. unfold on_device. destruct (read_pipe_until_empty fuel pipe total (dlg_dev s)) as [[a c]| | |] eqn:E; try done.
  intros [= <- <-]. cbn [dlg_dev set_dev]. revert total E. generalize (dlg_dev s), Hs. clear s Hs.
  induction fuel as [|fuel IH]; intros s Hs total; cbn [read_pipe_until_empty]; [done|]. unfold drain_once at 1. cbn [ui_read_unbuffered Shared_usb].
  pose proof (on_shared_held h (ui_read_unbuffered pipe usb.USBStreamPipeReadSize) s (read_unbuffered_held _ _) Hs) as H1.
  destruct (on_shared _ s) as [[ec bytes] s1]. cbn [snd] in H1. cbv iota beta. destruct (_ || _); [by intros [= <- <-]|]. by apply IH.
Qed.

Lemma cleanup_held rounds fuel schedule d ec d' : post_connect_cleanup rounds fuel schedule d = Done (ec, d') → held d' = held d.
Proof.
  unfold post_connect_cleanup. set (h := held d).
  assert (Hr : ∀ (pipe : Pipe) (n : Z) (c : Shared (Impl D)), holds h c → holds h (bi_read pipe n c).2) by (intros pipe n c; apply on_shared_held, read_held).
  assert (Hw : ∀ (pipe : Pipe) (b : list Z) (c : Shared (Impl D)), holds h c → holds h (bi_write pipe b c).2) by (intros pipe b c; apply on_shared_held, write_held).
  assert (Ht : ∀ (n : nat) (ret : error_code * Z), stays (holds h) (disable_tries rounds fuel n ret)).
  { induction n as [|n IH]; intros ret; cbn [disable_tries]; [apply stays_ret|]. apply stays_bind; [by apply stays_writeRegister|]. intros ec0.
    destruct (failed ec0); [|apply stays_ret]. destruct (is_connection_error ec0); [apply stays_ret|]. apply stays_bind; [by apply drained_stays|].
    intros rr. destruct (is_connection_error _); [apply stays_ret|apply IH]. }
  destruct (disable_tries _ _ _ _ _) as [[rCmd dlg]| | |] eqn:E; try done. apply Ht in E; [|done].
  unfold join_data. destruct (sh_data (dlg_dev dlg)); [|by intros [= <- <-]].
  destruct (read_pipe_until_empty _ _ _ _) as [[rData d1]| | |] eqn:E2; try done. intros [= <- <-]. apply until_empty_held in E2. by rewrite E2.
Qed.

(** The outcomes of the last step. *)
Lemma set_polling_outcome before d ec d' :
  holds_new before d → set_polling d = Done (ec, d') → if failed ec then holds_none before d' else holds_new before d'.
Proof.
  intros Hc. unfold set_polling. destruct (set_endpoint_timeout _ _ d) as [ec1 d1] eqn:E. apply set_endpoint_timeout_held in E.
  pose proof (holds_new_same _ _ _ Hc E) as H1. destruct (failed ec1) eqn:F; intros [= <- <-]; [rewrite F; by apply closeHandle_closes|done].
Qed.

(** The state in which the cleanup of the pipes starts, and a cleanup that fails. *)
Definition prepared (d d1 : Impl D) : Prop :=
  ∃ infos d0 d2 d3, get_device_info_list MVLCDevices d = (infos, d0) ∧ open_attempts MaxOpenAttempts FT_OK infos d0 = (FT_OK, d2)
    ∧ (∃ ec, check_chip_configuration d2 = (ec, d3) ∧ failed ec = false) ∧ (∃ ec, set_timeouts pipe_timeouts d3 = (ec, d1) ∧ failed ec = false)
    ∧ usb_disableTriggers d1 = true.
Definition cleanup_fails (rounds fuel : nat) (schedule : list nat) (d : Impl D) (ec : error_code) (d' : Impl D) : Prop :=
  failed ec = true ∧ ∃ d1, prepared d d1 ∧ post_connect_cleanup rounds fuel schedule d1 = Done (ec, d').

Lemma prepared_connect rounds fuel schedule d d1 :
  isConnected d = false → prepared d d1 →
  connect rounds fuel schedule d
  = match post_connect_cleanup rounds fuel schedule d1 with
    | Done (ec, d) => if failed ec then Done (ec, d) else set_polling d
    | Raise e => Raise e | Hangs => Hangs | Broken => Broken
    end.
Proof.
  intros Hd (infos & d0 & d2 & d3 & E1 & E2 & (ec3 & E3 & F3) & (ec4 & E4 & F4) & Ht). unfold connect. rewrite Hd, E1, E2. cbv iota beta.
  rewrite make_error_code_failed. change (negb (bool_decide (FT_OK = FT_OK))) with false. cbv iota. by rewrite E3, F3, E4, F4, Ht.
Qed.

Lemma prepared_holds d d1 : isConnected d = false → prepared d d1 → holds_new (open_handles (usb_driver d)) d1.
Proof.
  intros Hd (infos & d0 & d2 & d3 & E1 & E2 & (ec3 & E3 & _) & (ec4 & E4 & _) & _). apply get_device_info_list_held in E1. apply check_chip_held in E3.
  apply set_timeouts_held in E4. apply (holds_new_same _ d2); [|by rewrite E4, E3].
  refine (open_attempts_outcome _ MaxOpenAttempts _ infos d0 FT_OK d2 _ _ E2); [unfold MaxOpenAttempts; lia|].
  unfold holds_none. rewrite E1. unfold held, isConnected in *. by destruct (usb_handle d).
Qed.

End Outcome.

(** C38: what connecting leaves open, for a driver in which closing an open handle succeeds and
    only the calls for opening and closing change which handles are open.  A connect that
    succeeds has opened one device and holds its handle.  A connect that fails, whichever
    call failed, holds no handle and the driver has the same devices open as before, with
    one exception: if the cleanup of the pipes is reached and fails, connect returns its
    error with the device left open, so [isConnected] says true although an error was returned,
    and connecting again returns [IsConnected]. *)
Theorem usb_connect_outcome {D : Type} {HD : Ftdi D} {HL : FtdiLaws D} rounds fuel schedule (d : Impl D) ec d' :
  isConnected d = false → connect rounds fuel schedule d = Done (ec, d') →
  let before := open_handles (usb_driver d) in
  (failed ec = false → holds_new before d')
  ∧ (failed ec = true → ¬ cleanup_fails rounds fuel schedule d ec d' → holds_none before d')
  ∧ (∀ ec1 d1, cleanup_fails rounds fuel schedule d ec1 d1 →
       ec1 = ec ∧ d1 = d' ∧ failed ec = true ∧ holds_new before d' ∧ connect rounds fuel schedule d' = Done (Mvlc MVLCErrorCode.IsConnected, d')).
Proof.
  intros Hd Hcon. cbv zeta. set (before := open_handles (usb_driver d)). assert (Hd0 : holds_none before d) by (unfold holds_none, held, isConnected in *; by destruct (usb_handle d)).
  cut (if failed ec then cleanup_fails rounds fuel schedule d ec d' ∨ holds_none before d' else holds_new before d').
  { intros Hout. split; [intros F; by rewrite F in Hout|]. split; [intros F Hn; rewrite F in Hout; by destruct Hout|].
    intros ec1 d1 (F & d2 & Hp & E). rewrite (prepared_connect _ _ _ _ _ Hd Hp), E, F in Hcon. injection Hcon as <- <-.
    assert (Hnew : holds_new before d1) by (eapply holds_new_same; [by apply prepared_holds|by eapply cleanup_held]). split_and!; try done.
    unfold connect. by rewrite (holds_new_connected _ _ Hnew). }
  revert Hcon. unfold connect at 1. rewrite Hd. destruct (get_device_info_list _ d) as [infos d1] eqn:E1. pose proof (get_device_info_list_held _ _ _ _ E1) as H1.
  destruct (open_attempts _ _ infos d1) as [st d2] eqn:E2. pose proof (open_attempts_outcome before MaxOpenAttempts _ _ _ _ _ ltac:(unfold MaxOpenAttempts; lia)
    ltac:(unfold holds_none; by rewrite H1) E2) as H2. unfold opened_as in H2. rewrite make_error_code_failed.
  destruct (bool_decide (st = FT_OK)) eqn:Est; cbn [negb]; [|intros [= <- <-]; rewrite make_error_code_failed, Est; by right].
  assert (Hclose : ∀ d3 ec3, failed ec3 = true → holds_new before d3 → close_with ec3 d3 = Done (ec, d') →
    if failed ec then cleanup_fails rounds fuel schedule d ec d' ∨ holds_none before d' else holds_new before d').
  { intros d3 ec3 F Hh [= <- <-]. rewrite F. right. by apply closeHandle_closes. }
  assert (Hpoll : ∀ d3, holds_new before d3 → set_polling d3 = Done (ec, d') →
    if failed ec then cleanup_fails rounds fuel schedule d ec d' ∨ holds_none before d' else holds_new before d').
  { intros d3 Hh Hp. apply (set_polling_outcome before) in Hp; [|done]. destruct (failed ec); [by right|done]. }
  destruct (check_chip_configuration d2) as [ec3 d3] eqn:E3. pose proof (holds_new_same _ _ _ H2 (check_chip_held _ _ _ E3)) as H3.
  destruct (failed ec3) eqn:F3; [by apply Hclose|].
  destruct (set_timeouts pipe_timeouts d3) as [ec4 d4] eqn:E4. pose proof (holds_new_same _ _ _ H3 (set_timeouts_held _ _ _ _ E4)) as H4.
  destruct (failed ec4) eqn:F4; [by apply Hclose|]. destruct (usb_disableTriggers d4) eqn:Ht; [|by apply Hpoll].
  destruct (post_connect_cleanup _ _ _ d4) as [[ec5 d5]| | |] eqn:E5; try done. destruct (failed ec5) eqn:F5.
  - intros [= <- <-]. rewrite F5. left. split; [done|]. exists d4. split; [|done]. exists infos, d1, d2, d3. apply bool_decide_eq_true in Est. subst st. naive_solver.
  - apply Hpoll. eapply holds_new_same; [exact H4|]. by eapply cleanup_held.
Qed.

(** ** Cleaning up the pipes of a controller that answers *)

(** [stalled n]: the next [n] writes to the command pipe run into their timeout, with nothing
    transferred; then the controller is attentive.  Reads of the command pipe find nothing as long
    as nothing is on its way.  Reads of the data pipe do not disturb the command pipe, and at
    worst run into their timeout.  [pending] bounds the reads that find data in the data pipe
    once the data acquisition is off. *)
Class UsbLaws (C : Type) `{DialogController C} {HU : MVLC_USB_Interface C} : Type := {
  pending : C → nat;
  stalled : nat → Z → C → Prop;
  stalled_none deadline c : stalled 0 deadline c ↔ attentive deadline c;
  stalled_write n deadline bytes c :
    stalled (S n) deadline c →
    ∃ ec written c', bi_write Command bytes c = (ec, written, c') ∧ failed ec = true ∧ is_timeout ec = true
      ∧ stalled n deadline c' ∧ incoming c' = incoming c ∧ view c' = view c;
  stalled_read n deadline c :
    stalled n deadline c → incoming c = [] →
    ∃ ec c', ui_read_unbuffered Command usb.USBStreamPipeReadSize c = (ec, [], c') ∧ is_timeout ec = true
      ∧ stalled n deadline c' ∧ incoming c' = [] ∧ view c' = view c;
  read_data n deadline c :
    stalled n deadline c →
    ∃ ec bytes c', ui_read_unbuffered Data usb.USBStreamPipeReadSize c = (ec, bytes, c')
      ∧ (ec = no_error ∨ is_timeout ec = true) ∧ stalled n deadline c' ∧ incoming c' = incoming c ∧ view c' = view c
      ∧ (reg (cc_regs (view c)) registers.daq_mode = 0 → bytes ≠ [] → (pending c' < pending c)%nat)
}.

Lemma timeout_no_connection_error ec : ec = no_error ∨ is_timeout ec = true → is_connection_error ec = false.
Proof.
  intros [->|H]; [done|]. unfold is_timeout, is_connection_error, is_type in *.
  destruct ec; apply bool_decide_eq_true in H; apply bool_decide_eq_false; by rewrite H.
Qed.

Section Ready.
Context {C : Type} {HC : BasicInterface C} {HS : StreamLaws C} {HK : DialogController C} {HU : MVLC_USB_Interface C} {HL : UsbLaws C}.

(** The other side of the connection, as the command pipe sees it, is the same. *)
Definition same_side (n : nat) (deadline : Z) (c c' : C) : Prop :=
  stalled n deadline c' ∧ incoming c' = incoming c ∧ view c' = view c.

Definition data_ok (t : DataThread) : Prop := match t with Reading _ => True | Finished ec _ => ec = no_error ∨ is_timeout ec = true end.

Lemma drain_data n deadline total c :
  stalled n deadline c → ∃ ec t ends c', drain_once Data total c = (ec, t, ends, c') ∧ same_side n deadline c c'
    ∧ (ec = no_error ∨ is_timeout ec = true)
    ∧ (ends = false → reg (cc_regs (view c)) registers.daq_mode = 0 → (pending c' < pending c)%nat).
Proof.
  intros Ha. destruct (read_data n deadline c Ha) as (ec & bytes & c' & E & Hec & Ha' & Hi & Hv & Hp).
  unfold drain_once. rewrite E. do 4 eexists. split; [reflexivity|]. split; [done|]. split; [done|].
  rewrite (timeout_no_connection_error _ Hec). cbn [orb]. destruct (Z.gtb_spec (zlen bytes) 0) as [Hl|Hl]; cbn [negb].
  - intros _ Hr. apply Hp; [done|]. intros ->. unfold zlen in Hl. cbn in Hl. lia.
  - done.
Qed.

Lemma data_steps_ok k deadline n (s : Shared C) :
  stalled k deadline (sh_impl s) → data_ok (sh_data s) →
  same_side k deadline (sh_impl s) (sh_impl (Nat.iter n data_step s)) ∧ data_ok (sh_data (Nat.iter n data_step s)).
Proof.
  intros Ha Hd. induction n as [|n IH]; [done|]. rewrite Nat.iter_succ. set (s1 := Nat.iter n data_step s) in *. clearbody s1.
  destruct IH as ((Ha1 & Hi1 & Hv1) & Hd1). unfold data_step. destruct (sh_data s1) as [total|ec total] eqn:E; [|by rewrite E].
  destruct (drain_data k deadline total (sh_impl s1) Ha1) as (ec & t & ends & c' & -> & (Ha' & Hi' & Hv') & Hec & _). cbn [sh_impl sh_data].
  split; [unfold same_side; split_and!; congruence|]. by destruct ends.
Qed.

Lemma let_data_run_ok k deadline (s : Shared C) :
  stalled k deadline (sh_impl s) → data_ok (sh_data s) →
  same_side k deadline (sh_impl s) (sh_impl (let_data_run s)) ∧ data_ok (sh_data (let_data_run s)).
Proof.
  intros Ha Hd. unfold let_data_run. destruct (sh_schedule s) as [|n rest]; [done|]. by apply (data_steps_ok k deadline n (mkShared _ _ _)).
Qed.

(** With the other thread at work the connection still satisfies the laws. *)
Definition sh_attentive (deadline : Z) (s : Shared C) : Prop := attentive deadline (sh_impl s) ∧ data_ok (sh_data s).

Lemma sh_now deadline s : sh_attentive deadline s → deadline - 500 < bi_now s ≤ deadline.
Proof. intros [H _]. exact (attentive_now deadline (sh_impl s) H). Qed.

Lemma sh_read_incoming deadline s n :
  sh_attentive deadline s → 0 < n ≤ zlen (incoming (sh_impl s)) →
  ∃ s', bi_read Command n s = (no_error, ztake n (incoming (sh_impl s)), s') ∧ sh_attentive deadline s'
    ∧ incoming (sh_impl s') = zdrop n (incoming (sh_impl s)) ∧ view (sh_impl s') = view (sh_impl s).
Proof.
  intros [Ha Hd] Hn. destruct (let_data_run_ok 0 deadline s (proj2 (stalled_none _ _) Ha) Hd) as ((Ha1%stalled_none & Hi1 & Hv1) & Hd1). rewrite <- Hi1 in Hn.
  destruct (read_incoming deadline (sh_impl (let_data_run s)) n Ha1 Hn) as (c' & E & Ha' & Hi' & Hv').
  cbn [bi_read Shared_interface]. unfold on_shared. rewrite E. rewrite <- Hi1. eexists. split; [reflexivity|]. cbn [sh_impl]. by rewrite Hv', Hv1.
Qed.

#[export] Instance Shared_stream : StreamLaws (Shared C) := {
  View := View (C := C); view s := view (sh_impl s); incoming s := incoming (sh_impl s); attentive := sh_attentive;
  attentive_now := sh_now; read_incoming := sh_read_incoming
}.

Lemma sh_regs_words deadline s a : sh_attentive deadline s → is_u32 (reg (cc_regs (view (sh_impl s))) a).
Proof. intros [H _]. by eapply cc_regs_words. Qed.

Lemma sh_notes_ok s : Forall notification (cc_notes (sh_impl (let_data_run s))).
Proof. apply cc_notes_ok. Qed.

Lemma sh_answers deadline s cmds :
  sh_attentive deadline s → incoming (sh_impl s) = [] → cmds ≠ [] → Forall mirrored cmds → zlen (make_command_buffer cmds) ≤ MirrorTransactionMaxWords →
  let v := cc_write (view (sh_impl s)) cmds in
  let '(out, v') := if triggers cmds then cc_execute v else ([], v) in
  ∃ s', bi_write Command (words_to_bytes (make_command_buffer cmds)) s = (no_error, 4 * zlen (make_command_buffer cmds), s')
    ∧ sh_attentive deadline s' ∧ view (sh_impl s') = v'
    ∧ incoming (sh_impl s') = words_to_bytes (concat (cc_notes (sh_impl (let_data_run s))) ++ mirror (cc_regs (view (sh_impl s))) cmds ++ out).
Proof.
  intros [Ha Hd] Hi Hne Hm Hl. destruct (let_data_run_ok 0 deadline s (proj2 (stalled_none _ _) Ha) Hd) as ((Ha1%stalled_none & Hi1 & Hv1) & Hd1).
  pose proof (cc_answers deadline (sh_impl (let_data_run s)) cmds Ha1 ltac:(by rewrite Hi1) Hne Hm Hl) as H. rewrite Hv1 in H. cbv zeta in *.
  destruct (if triggers cmds then _ else _) as [out v']. destruct H as (c' & E & Ha' & Hv' & Hi').
  cbn [bi_write Shared_interface]. unfold on_shared. rewrite E. by eexists.
Qed.

#[export] Instance Shared_controller : DialogController (Shared C) := {
  cc_regs := cc_regs (C := C); cc_write := cc_write (C := C); cc_execute := cc_execute (C := C); cc_notes s := cc_notes (sh_impl (let_data_run s));
  cc_write_regs := cc_write_regs (C := C); cc_regs_words := sh_regs_words; cc_notes_ok := sh_notes_ok; cc_answers := sh_answers
}.

(** Once the data acquisition is off, the loop on the data pipe ends. *)
Lemma until_empty_ok deadline fuel : ∀ total c,
  attentive deadline c → reg (cc_regs (view c)) registers.daq_mode = 0 → (pending c < fuel)%nat →
  ∃ ec t c', read_pipe_until_empty fuel Data total c = Done ((ec, t), c') ∧ same_side 0 deadline c c'
    ∧ (ec = no_error ∨ is_timeout ec = true).
Proof.
  induction fuel as [|fuel IH]; intros total c Ha Hr Hf; [lia|]. cbn [read_pipe_until_empty].
  destruct (drain_data 0 deadline total c (proj2 (stalled_none _ _) Ha)) as (ec & t & ends & c1 & -> & (Ha1%stalled_none & Hi1 & Hv1) & Hec & Hp). destruct ends.
  - exists ec, t, c1. split; [done|]. split; [|done]. split; [by apply stalled_none|done].
  - specialize (Hp eq_refl Hr). destruct (IH t c1 Ha1 ltac:(by rewrite Hv1) ltac:(lia)) as (ec' & t' & c' & -> & (Ha' & Hi' & Hv') & Hec').
    exists ec', t', c'. unfold same_side. split_and!; try done; congruence.
Qed.

Definition quiet (ec : error_code) : Prop := ec = no_error ∨ is_timeout ec = true.

Lemma cleanup_result_ok rCmd rData : quiet rCmd → quiet rData → cleanup_result rCmd rData = no_error.
Proof.
  intros Hc Hd. unfold cleanup_result. destruct (failed rCmd) eqn:Fc; [destruct Hc as [-> | ->]; done|].
  destruct (failed rData) eqn:Fd; [destruct Hd as [-> | ->]; done|done].
Qed.

(** The write that switches the data acquisition off. *)
Definition daq_off (ref : Z) : list SuperCommand := [mkSuper ReferenceWord 0 ref; mkSuper WriteLocal registers.daq_mode 0].

Lemma daq_off_regs ref (v : View (C := C)) : cc_regs (C := C) (cc_write (C := C) v (daq_off ref)) = <[registers.daq_mode := 0]> (cc_regs (C := C) v).
Proof. exact (cc_write_regs (C := C) v (daq_off ref)). Qed.

Definition timed_out (ec : error_code) : Prop := failed ec = true ∧ is_timeout ec = true.

(** A dialog whose next [n] writes time out. *)
Definition stuck (n : nat) (deadline ref : Z) (v : View (C := C)) (s : Dlg (Shared C)) : Prop :=
  stalled n deadline (sh_impl (dlg_dev s)) ∧ data_ok (sh_data (dlg_dev s)) ∧ incoming (sh_impl (dlg_dev s)) = [] ∧ view (sh_impl (dlg_dev s)) = v
  ∧ dlg_reference s = ref.

Lemma stuck_none deadline ref v s : stuck 0 deadline ref v s → awaits (C := Shared C) deadline [] ref v s.
Proof. intros (Ha%stalled_none & Hd & Hi & Hv & Hr). by exists (dlg_errors s). Qed.

(** Attempts that time out. *)
Lemma super_tries_stalled rounds deadline ref v buf dest k : ∀ n tries ret s,
  stuck (k + n) deadline ref v s →
  ∃ ret' s', super_tries rounds (k + tries) ret buf dest s = super_tries rounds tries ret' buf dest s' ∧ stuck n deadline ref v s'
    ∧ (timed_out ret ∨ (0 < k)%nat → timed_out ret').
Proof.
  induction k as [|k IH]; intros n tries ret s Hs; [exists ret, s; split_and!; try done; intros [?|?]; [done|lia]|]. destruct Hs as (Ha & Hd & Hi & Hv & Hr).
  destruct (let_data_run_ok _ deadline (dlg_dev s) Ha Hd) as ((Ha1 & Hi1 & Hv1) & Hd1).
  destruct (stalled_write (k + n) deadline (words_to_bytes buf) _ Ha1) as (ec & written & c' & E & Hf & Ht & Ha2 & Hi2 & Hv2).
  set (sh := mkShared c' (sh_data (let_data_run (dlg_dev s))) (sh_schedule (let_data_run (dlg_dev s)))).
  assert (Hw : doWrite buf s = Done (ec, set_dev sh s)).
  { unfold doWrite, mbind, SM_bind, lower_write. cbn [bi_write Shared_interface]. unfold on_shared. rewrite E. unfold mret, SM_ret. by rewrite Hf. }
  destruct (IH n tries ec (set_dev sh s)) as (ret' & s' & E' & Hs' & Hret).
  { unfold stuck. cbn [dlg_dev set_dev sh_impl sh_data sh dlg_reference]. split_and!; try done; congruence. }
  exists ret', s'. split_and!; [|done|].
  - cbn [Nat.add super_tries]. erewrite bind_Done_eq by exact Hw. by rewrite Hf, Ht.
  - intros _. apply Hret. by left.
Qed.

(** A write of the register that fails: all its attempts time out. *)
Lemma disable_fails rounds deadline n ref v s :
  stuck (MirrorMaxRetries + n) deadline ref v s →
  ∃ ec s', disable_daq_mode rounds s = Done (ec, s') ∧ timed_out ec ∧ stuck n deadline (u16 (ref + 1)) v s'.
Proof.
  intros (Ha & Hd & Hi & Hv & Hr). set (s1 := mkDlg (dlg_dev s) (u16 (dlg_reference s + 1)) (dlg_response s) (dlg_caller s) (dlg_local s) (dlg_errors s)).
  assert (Hs1 : stuck (MirrorMaxRetries + n) deadline (u16 (ref + 1)) v s1) by (unfold stuck; cbn; by rewrite Hr).
  destruct (super_tries_stalled rounds deadline (u16 (ref + 1)) v (make_command_buffer (daq_off (dlg_reference s))) Response MirrorMaxRetries n 0 no_error s1 Hs1)
    as (ec & s' & E & Hs' & Hec). exists ec, s'. specialize (Hec ltac:(right; unfold MirrorMaxRetries; lia)). split_and!; [|done|done].
  unfold disable_daq_mode, writeRegister. erewrite bind_Done_eq by reflexivity. cbv zeta.
  change (su_addWriteLocal (su_addReferenceWord [] (dlg_reference s)) registers.daq_mode 0) with (daq_off (dlg_reference s)).
  assert (Hsuper : superTransaction rounds (make_command_buffer (daq_off (dlg_reference s))) Response s1 = Done (ec, s')).
  { unfold superTransaction. rewrite Nat.add_0_r in E. replace (_ >? _) with false by done. by rewrite E. }
  erewrite bind_Done_eq by exact Hsuper. by rewrite (proj1 Hec).
Qed.

(** A write of the register that succeeds, with up to two attempts that time out. *)
Lemma disable_succeeds rounds deadline n ref v s :
  (∀ c' : Shared C, (length (cc_notes c') < rounds)%nat) → (n < MirrorMaxRetries)%nat → is_u16 ref → stuck n deadline ref v s →
  ∃ s', disable_daq_mode rounds s = Done (no_error, s') ∧ stuck 0 deadline (u16 (ref + 1)) (cc_write (C := C) v (daq_off ref)) s'.
Proof.
  intros Hn Hlt Href (Ha & Hd & Hi & Hv & <-). set (s1 := mkDlg (dlg_dev s) (u16 (dlg_reference s + 1)) (dlg_response s) (dlg_caller s) (dlg_local s) (dlg_errors s)).
  assert (Hs1 : stuck (n + 0) deadline (u16 (dlg_reference s + 1)) v s1) by (unfold stuck; cbn; by rewrite Nat.add_0_r).
  destruct (super_tries_stalled rounds deadline (u16 (dlg_reference s + 1)) v (make_command_buffer (daq_off (dlg_reference s))) Response n 0 (S (MirrorMaxRetries - S n)) no_error s1 Hs1)
    as (ec & s2 & E2 & Hs2%stuck_none & _).
  pose proof (super_tries_ok (C := Shared C) rounds Hn deadline (MirrorMaxRetries - S n) ec Response [mkSuper ReferenceWord 0 (dlg_reference s)] (mkSuper WriteLocal registers.daq_mode 0) _ _ s2 Hs2) as H.
  cbn [app] in H. destruct H as (s3 & E3 & (errors & (Ha3 & Hd3) & Hi3 & Hr3 & _ & Hv3) & Hb3).
  { apply Forall_cons. split; [by right|]. apply Forall_singleton. left. by apply write_access. }
  { by apply Forall_singleton. }
  { done. }
  exists s3. split; [|unfold stuck; rewrite stalled_none; by split_and!].
  unfold disable_daq_mode, writeRegister. erewrite bind_Done_eq by reflexivity. cbv zeta.
  change (su_addWriteLocal (su_addReferenceWord [] (dlg_reference s)) registers.daq_mode 0) with (daq_off (dlg_reference s)).
  assert (Hsuper : superTransaction rounds (make_command_buffer (daq_off (dlg_reference s))) Response s1 = Done (no_error, s3)).
  { unfold superTransaction. replace (_ >? _) with false by done. assert (Hm : MirrorMaxRetries = (n + S (MirrorMaxRetries - S n))%nat) by lia.
    rewrite Hm at 1. rewrite E2. exact E3. }
  erewrite bind_Done_eq by exact Hsuper. cbn [failed no_error Z.eqb negb]. unfold mbind, SM_bind, get_state. cbv beta iota. by rewrite (proj1 Hb3).
Qed.

(** Nothing is found in the command pipe. *)
Lemma drain_command n deadline ref v s :
  stuck n deadline ref v s →
  ∃ ec s', (∀ fuel, (0 < fuel)%nat → on_device (read_pipe_until_empty fuel Command 0) s = Done ((ec, 0), s')) ∧ is_timeout ec = true ∧ stuck n deadline ref v s'.
Proof.
  intros (Ha & Hd & Hi & Hv & Hr). destruct (let_data_run_ok n deadline (dlg_dev s) Ha Hd) as ((Ha1 & Hi1 & Hv1) & Hd1).
  destruct (stalled_read n deadline _ Ha1 ltac:(by rewrite Hi1)) as (ec & c' & E & Ht & Ha2 & Hi2 & Hv2).
  exists ec, (set_dev (mkShared c' (sh_data (let_data_run (dlg_dev s))) (sh_schedule (let_data_run (dlg_dev s)))) s). split_and!; [|done|].
  - intros [|f] Hf; [lia|]. unfold on_device. cbn [read_pipe_until_empty]. unfold drain_once. cbn [ui_read_unbuffered Shared_usb]. unfold on_shared. rewrite E.
    change (zlen [] >? 0) with false. cbn [negb]. by rewrite orb_true_r.
  - unfold stuck. cbn [dlg_dev set_dev sh_impl sh_data dlg_reference]. split_and!; try done; congruence.
Qed.

(** The loop of [post_connect_cleanup] around the register write. *)
Lemma disable_tries_ok rounds deadline : (∀ c' : Shared C, (length (cc_notes c') < rounds)%nat) → ∀ tries n ref v ret s,
  (n < tries * MirrorMaxRetries)%nat → is_u16 ref → quiet ret.1 → stuck n deadline ref v s →
  ∃ ref' r ref1 s', (∀ fuel, (0 < fuel)%nat → disable_tries rounds fuel tries ret s = Done (r, s')) ∧ quiet r.1
    ∧ stuck 0 deadline ref1 (cc_write (C := C) v (daq_off ref')) s'.
Proof.
  intros Hn. induction tries as [|tries IH]; intros n ref v ret s Hlt Href Hq Hs; [lia|]. destruct (decide (n < MirrorMaxRetries)%nat) as [Hlt3|Hge].
  - destruct (disable_succeeds rounds deadline n ref v s Hn Hlt3 Href Hs) as (s' & E & Hs'). exists ref, ret, (u16 (ref + 1)), s'. split_and!; [|done|done].
    intros fuel _. cbn [disable_tries]. erewrite bind_Done_eq by exact E. done.
  - replace n with (MirrorMaxRetries + (n - MirrorMaxRetries))%nat in Hs by lia.
    destruct (disable_fails rounds deadline _ ref v s Hs) as (ec & s1 & E1 & [Hf Ht] & Hs1).
    destruct (drain_command _ deadline _ v s1 Hs1) as (ec2 & s2 & E2 & Ht2 & Hs2).
    assert (Hq2 : quiet (ec2, u64 (ret.2 + 0)).1) by (by right).
    destruct (IH (n - MirrorMaxRetries)%nat (u16 (ref + 1)) v (ec2, u64 (ret.2 + 0)) s2 ltac:(rewrite Nat.mul_succ_l in Hlt; lia) ltac:(apply Z.mod_pos_bound; lia) Hq2 Hs2)
      as (ref' & r & ref1 & s' & E & Hr & Hs'). exists ref', r, ref1, s'. split_and!; [|done|done].
    intros fuel Hfu. cbn [disable_tries]. erewrite bind_Done_eq by exact E1. rewrite Hf, (timeout_no_connection_error ec) by (by right).
    erewrite bind_Done_eq by exact (E2 fuel Hfu). cbn [fst snd]. rewrite (timeout_no_connection_error ec2) by (by right). by apply E.
Qed.

Lemma cleanup_ok rounds deadline n schedule c :
  (∀ c' : C, (length (cc_notes c') < rounds)%nat) → (n < DisableTriggerRetryCount * MirrorMaxRetries)%nat → stalled n deadline c → incoming c = [] →
  ∃ k, ∀ fuel, (k < fuel)%nat →
    ∃ c' ref, post_connect_cleanup rounds fuel schedule c = Done (no_error, c') ∧ attentive deadline c' ∧ incoming c' = []
      ∧ view c' = cc_write (C := C) (view c) (daq_off ref).
Proof.
  intros Hn Hlt Ha Hi. assert (Hns : ∀ s : Shared C, (length (cc_notes s) < rounds)%nat) by (intros s; apply (Hn (sh_impl (let_data_run s)))).
  set (s0 := new_dialog (mkShared c (Reading 0) schedule)).
  assert (Hs0 : stuck n deadline 1 (view c) s0) by done.
  destruct (disable_tries_ok rounds deadline Hns DisableTriggerRetryCount n 1 (view c) (no_error, 0) s0 Hlt ltac:(done) ltac:(by left) Hs0)
    as (ref & r & ref1 & s1 & E1 & Hq & (Ha1%stalled_none & Hd1 & Hi1 & Hv1 & _)).
  assert (Hr1 : reg (cc_regs (view (sh_impl (dlg_dev s1)))) registers.daq_mode = 0) by (unfold reg; rewrite Hv1, daq_off_regs; by rewrite lookup_insert_eq).
  exists (pending (sh_impl (dlg_dev s1))). intros fuel Hf. unfold post_connect_cleanup. fold s0. rewrite E1 by lia. unfold join_data.
  destruct (sh_data (dlg_dev s1)) as [total|ec total] eqn:Ed.
  - destruct (until_empty_ok deadline fuel total (sh_impl (dlg_dev s1)) Ha1 Hr1 Hf) as (ec & t & c' & -> & (Ha'%stalled_none & Hi' & Hv') & Hec).
    cbn [fst]. rewrite cleanup_result_ok by done. exists c', ref. by rewrite Hi', Hv', Hi1, Hv1.
  - cbn [fst]. rewrite cleanup_result_ok by done. exists (sh_impl (dlg_dev s1)), ref. by rewrite Hi1, Hv1.
Qed.

End Ready.

(** Timeouts can be set, and setting them changes nothing on the other side. *)
Class UsbDevice (D : Type) {HD : Ftdi D} {HS : StreamLaws (Impl D)} {HK : DialogController (Impl D)} {HL : UsbLaws (Impl D)} : Prop := {
  timeout_set n deadline ep ms (d : Impl D) :
    stalled n deadline d → ∃ d', set_endpoint_timeout ep ms d = (no_error, d') ∧ same_side n deadline d d' ∧ usb_disableTriggers d' = usb_disableTriggers d
}.

(** The device is found, can be opened and has the expected configuration. *)
Definition opened `{Ftdi D} (d d' : Impl D) : Prop :=
  ∃ infos d0 d1, get_device_info_list MVLCDevices d = (infos, d0) ∧ open_attempts MaxOpenAttempts FT_OK infos d0 = (FT_OK, d1)
    ∧ check_chip_configuration d1 = (no_error, d').

Section Connect.
Context {D : Type} {HD : Ftdi D} {HS : StreamLaws (Impl D)} {HK : DialogController (Impl D)} {HL : UsbLaws (Impl D)} {HT : UsbDevice D}.

Lemma timeouts_ok n deadline l : ∀ (d : Impl D),
  stalled n deadline d → ∃ d', set_timeouts l d = (no_error, d') ∧ same_side n deadline d d' ∧ usb_disableTriggers d' = usb_disableTriggers d.
Proof.
  induction l as [|[ep ms] l IH]; intros d Ha; cbn [set_timeouts]; [by exists d|].
  destruct (timeout_set n deadline ep ms d Ha) as (d1 & -> & (Ha1 & Hi1 & Hv1) & Ht1). cbn [failed no_error Z.eqb negb].
  destruct (IH d1 Ha1) as (d' & -> & (Ha' & Hi' & Hv') & Ht'). exists d'. unfold same_side. split_and!; try done; congruence.
Qed.

Lemma polling_ok deadline (d : Impl D) : attentive deadline d → ∃ d', set_polling d = Done (no_error, d') ∧ same_side 0 deadline d d'.
Proof.
  intros Ha%stalled_none. unfold set_polling. destruct (timeout_set 0 deadline (get_endpoint Command In) 0 d Ha) as (d' & -> & Hs & _). by exists d'.
Qed.

End Connect.

(** C24: connecting switches the data acquisition off and retries when the controller does not
    take the command.  For a connection that is to disable the triggers (the default), a
    device that can be opened, whose command pipe has nothing left to read then, and a
    controller that answers on the command pipe, possibly with error notifications in front of its
    responses, after the first [n] writes to it have timed out, where [n] is less than 15, the 5
    rounds of 3 attempts that are made; whatever waits in the data pipe, and under every interleaving
    of the thread that writes the register and the one that empties the data pipe: connect
    ends and succeeds; the register of the DAQ mode is 0, no other register has changed, and
    no response is left in the command pipe. *)
Theorem usb_connect_ready {D} {HD : Ftdi D} {HS : StreamLaws (Impl D)} {HK : DialogController (Impl D)} {HL : UsbLaws (Impl D)} {HT : UsbDevice D}
    rounds n deadline schedule (d d1 : Impl D) :
  (∀ c : Impl D, (length (cc_notes c) < rounds)%nat) → isConnected d = false → opened d d1 →
  usb_disableTriggers d1 = true → stalled n deadline d1 → (n < 15)%nat → incoming d1 = [] →
  ∃ k, ∀ fuel, (k < fuel)%nat →
    ∃ d', connect rounds fuel schedule d = Done (no_error, d') ∧ attentive deadline d' ∧ incoming d' = []
      ∧ cc_regs (C := Impl D) (view d') = <[registers.daq_mode := 0]> (cc_regs (C := Impl D) (view d1)).
Proof.
  intros Hn Hc (infos & d0 & dd & E1 & E2 & E3) Ht Ha Hlt Hi.
  destruct (timeouts_ok n deadline pipe_timeouts d1 Ha) as (d2 & E4 & (Ha2 & Hi2 & Hv2) & Ht2).
  destruct (cleanup_ok rounds deadline n schedule d2 Hn ltac:(done) Ha2 ltac:(by rewrite Hi2)) as (k & Hcl). exists k. intros fuel Hf.
  destruct (Hcl fuel Hf) as (d3 & ref & E5 & Ha3 & Hi3 & Hv3). destruct (polling_ok deadline d3 Ha3) as (d' & E6 & (Ha'%stalled_none & Hi' & Hv')).
  exists d'. unfold connect. rewrite Hc, E1, E2. cbv iota beta. rewrite make_error_code_failed. change (negb (bool_decide (FT_OK = FT_OK))) with false. cbv iota.
  rewrite E3. cbn [failed no_error Z.eqb negb]. rewrite E4. cbn [failed no_error Z.eqb negb]. rewrite Ht2, Ht, E5. cbn [failed no_error Z.eqb negb].
  split_and!; [done|done|by rewrite Hi'|]. by rewrite Hv', Hv3, daq_off_regs, Hv2.
Qed.

(** A timeout of the command pipe hides an error of the data pipe. *)
Lemma data_error_masked rCmd rData : failed rCmd = true → is_timeout rCmd = true → cleanup_result rCmd rData = no_error.
Proof. intros Hf Ht. unfold cleanup_result. by rewrite Hf, Ht. Qed.

(** ** A simulated device *)

(** A controller behind the driver, the chunks that wait in the data pipe, whether reads
    of the data pipe fail, the number of writes that time out, whether the device is open, and
    whether its timeouts can be set. *)
Record UsbSim : Type := mkUsbSim { us_dev : Dsim; us_data : list (list Z); us_lost : bool; us_stalls : nat; us_open : gset Z; us_sets : bool }.

Definition us_set_dev (c : Dsim) (s : UsbSim) : UsbSim := mkUsbSim c (us_data s) (us_lost s) (us_stalls s) (us_open s) (us_sets s).
Definition us_set_data (l : list (list Z)) (s : UsbSim) : UsbSim := mkUsbSim (us_dev s) l (us_lost s) (us_stalls s) (us_open s) (us_sets s).
Definition us_set_stalls (n : nat) (s : UsbSim) : UsbSim := mkUsbSim (us_dev s) (us_data s) (us_lost s) n (us_open s) (us_sets s).
Definition us_set_open (o : gset Z) (s : UsbSim) : UsbSim := mkUsbSim (us_dev s) (us_data s) (us_lost s) (us_stalls s) o (us_sets s).

Definition us_read_command (size : Z) (s : UsbSim) : FT_STATUS * list Z * UsbSim :=
  let '(ec, bytes, c) := bi_read Command size (us_dev s) in (if failed ec then FT_TIMEOUT else FT_OK, bytes, us_set_dev c s).
Definition us_read_data (s : UsbSim) : FT_STATUS * list Z * UsbSim :=
  if us_lost s then (FT_IO_ERROR, [], s)
  else match us_data s with [] => (FT_TIMEOUT, [], s) | chunk :: rest => (FT_OK, chunk, us_set_data rest s) end.
Definition us_write (bytes : list Z) (s : UsbSim) : FT_STATUS * Z * UsbSim :=
  match us_stalls s with
  | S n => (FT_TIMEOUT, 0, us_set_stalls n s)
  | O => let '(_, n, c) := bi_write Command bytes (us_dev s) in (FT_OK, n, us_set_dev c s)
  end.

#[global] Instance UsbSim_driver : Ftdi UsbSim := {
  FT_CreateDeviceInfoList s := (FT_OK, 1, s);
  FT_GetDeviceInfoList _ s := (FT_OK, [mkInfoNode FT_FLAGS_SUPERSPEED "000000220021" "MVLC" None], s);
  FT_Create i h s := if (i =? 0) && bool_decide (1 ∉ us_open s) then (FT_OK, Some 1, us_set_open ({[1]} ∪ us_open s) s) else (FT_DEVICE_NOT_FOUND, h, s);
  FT_Close h s := if bool_decide (h ∈ us_open s) then (FT_OK, us_set_open (us_open s ∖ {[h]}) s) else (FT_INVALID_HANDLE, s);
  FT_GetChipConfiguration _ s :=
    (FT_OK, mkChip CONFIGURATION_FIFO_CLK_100 CONFIGURATION_FIFO_MODE_600 CONFIGURATION_CHANNEL_CONFIG_2 0xE0 CONFIGURATION_OPTIONAL_FEATURE_DISABLEALL, s);
  FT_SetPipeTimeout _ _ _ s := (if us_sets s then FT_OK else FT_IO_ERROR, s);
  FT_AbortPipe _ _ s := (FT_OK, s);
  FT_SetStreamPipe _ _ _ _ _ s := (FT_OK, s);
  FT_WritePipeEx _ _ bytes _ s := us_write bytes s;
  FT_ReadPipeEx _ fifo size _ s := if fifo =? 0 then us_read_command size s else us_read_data s;
  FT_ReadPipe _ ep size s := if ep =? 0x82 then us_read_command size s else us_read_data s;
  ft_now _ := 0
}.

Lemma us_create_opens i (s : UsbSim) st h s' :
  FT_Create i None s = (st, h, s') →
  if bool_decide (st = FT_OK) then ∃ x, h = Some x ∧ x ∉ us_open s ∧ us_open s' = {[x]} ∪ us_open s else h = None ∧ us_open s' = us_open s.
Proof.
  cbn [FT_Create UsbSim_driver]. destruct (i =? 0); [|by intros [= <- <- <-]]. cbn [andb]. case_bool_decide as Hn; intros [= <- <- <-]; [by exists 1|done].
Qed.

Lemma us_close_closes h (s : UsbSim) : h ∈ us_open s → ∃ s', FT_Close h s = (FT_OK, s') ∧ us_open s' = us_open s ∖ {[h]}.
Proof. intros Hh. cbn [FT_Close UsbSim_driver]. rewrite bool_decide_eq_true_2 by done. by eexists. Qed.

Lemma us_command_keeps n (s : UsbSim) : us_open (us_read_command n s).2 = us_open s.
Proof. unfold us_read_command. by destruct (bi_read Command n (us_dev s)) as [[ec bytes] c]. Qed.
Lemma us_data_keeps (s : UsbSim) : us_open (us_read_data s).2 = us_open s.
Proof. unfold us_read_data. destruct (us_lost s); [done|]. by destruct (us_data s). Qed.
Lemma us_write_keeps bytes (s : UsbSim) : us_open (us_write bytes s).2 = us_open s.
Proof. unfold us_write. destruct (us_stalls s); [|done]. by destruct (bi_write Command bytes (us_dev s)) as [[ec n] c]. Qed.

Lemma us_readEx_keeps (h : option Z) fifo n (t : option Z) (s : UsbSim) : us_open (FT_ReadPipeEx h fifo n t s).2 = us_open s.
Proof. cbn [FT_ReadPipeEx UsbSim_driver]. destruct (fifo =? 0); [apply us_command_keeps|apply us_data_keeps]. Qed.
Lemma us_read_keeps (h : option Z) ep n (s : UsbSim) : us_open (FT_ReadPipe h ep n s).2 = us_open s.
Proof. cbn [FT_ReadPipe UsbSim_driver]. destruct (ep =? 0x82); [apply us_command_keeps|apply us_data_keeps]. Qed.

#[global] Instance UsbSim_laws : FtdiLaws UsbSim := {
  open_handles := us_open; create_opens := us_create_opens; close_closes := us_close_closes;
  count_keeps _ := eq_refl; list_keeps _ _ := eq_refl; chip_keeps _ _ := eq_refl; timeout_keeps _ _ _ _ := eq_refl;
  write_keeps _ _ bytes _ s := us_write_keeps bytes s; readEx_keeps := us_readEx_keeps; read_keeps := us_read_keeps
}.

(** The next [n] writes are lost; otherwise the device works. *)
Definition us_stalled (n : nat) (deadline : Z) (d : Impl UsbSim) : Prop :=
  attentive deadline (us_dev (usb_driver d)) ∧ us_lost (usb_driver d) = false ∧ us_sets (usb_driver d) = true ∧ us_stalls (usb_driver d) = n.
Definition us_attentive : Z → Impl UsbSim → Prop := us_stalled 0.

Lemma us_now deadline (d : Impl UsbSim) : us_attentive deadline d → deadline - 500 < bi_now d ≤ deadline.
Proof. intros [H _]. exact (attentive_now deadline (us_dev (usb_driver d)) H). Qed.

Lemma us_read_incoming deadline (d : Impl UsbSim) n :
  us_attentive deadline d → 0 < n ≤ zlen (incoming (us_dev (usb_driver d))) →
  ∃ d', bi_read Command n d = (no_error, ztake n (incoming (us_dev (usb_driver d))), d') ∧ us_attentive deadline d'
    ∧ incoming (us_dev (usb_driver d')) = zdrop n (incoming (us_dev (usb_driver d))) ∧ view (us_dev (usb_driver d')) = view (us_dev (usb_driver d)).
Proof.
  intros [Ha Hl] Hn. destruct (read_incoming deadline (us_dev (usb_driver d)) n Ha Hn) as (c' & E & Ha' & Hi' & Hv').
  assert (H : us_read_command n (usb_driver d) = (FT_OK, ztake n (incoming (us_dev (usb_driver d))), us_set_dev c' (usb_driver d)))
    by (unfold us_read_command; by rewrite E).
  exists (set_driver (us_set_dev c' (usb_driver d)) d). split; [|done]. cbn [bi_read Impl_interface]. unfold read.
  cbn [FT_ReadPipeEx FT_ReadPipe UsbSim_driver get_fifo_id get_endpoint]. change (0 =? 0) with true. change (2 .| 0x80 =? 0x82) with true. cbv iota.
  rewrite H. by destruct (negb _).
Qed.

#[global] Instance UsbSim_stream : StreamLaws (Impl UsbSim) := {
  View := View (C := Dsim); view d := view (us_dev (usb_driver d)); incoming d := incoming (us_dev (usb_driver d)); attentive := us_attentive;
  attentive_now := us_now; read_incoming := us_read_incoming
}.

Lemma us_regs_words deadline (d : Impl UsbSim) a : us_attentive deadline d → is_u32 (reg (cc_regs (C := Dsim) (view (us_dev (usb_driver d)))) a).
Proof. intros [H _]. by apply (cc_regs_words (C := Dsim) deadline). Qed.

Lemma us_notes_ok (d : Impl UsbSim) : Forall notification (cc_notes (us_dev (usb_driver d))).
Proof. apply cc_notes_ok. Qed.

Lemma us_answers deadline (d : Impl UsbSim) cmds :
  us_attentive deadline d → incoming (us_dev (usb_driver d)) = [] → cmds ≠ [] → Forall mirrored cmds → zlen (make_command_buffer cmds) ≤ MirrorTransactionMaxWords →
  let v := cc_write (C := Dsim) (view (us_dev (usb_driver d))) cmds in
  let '(out, v') := if triggers cmds then cc_execute (C := Dsim) v else ([], v) in
  ∃ d', bi_write Command (words_to_bytes (make_command_buffer cmds)) d = (no_error, 4 * zlen (make_command_buffer cmds), d')
    ∧ us_attentive deadline d' ∧ view (us_dev (usb_driver d')) = v'
    ∧ incoming (us_dev (usb_driver d'))
      = words_to_bytes (concat (cc_notes (us_dev (usb_driver d))) ++ mirror (cc_regs (C := Dsim) (view (us_dev (usb_driver d)))) cmds ++ out).
Proof.
  intros (Ha & Hl & Ht & Hst) Hi Hne Hm Hs. pose proof (cc_answers (C := Dsim) deadline (us_dev (usb_driver d)) cmds Ha Hi Hne Hm Hs) as H. cbv zeta in *.
  destruct (if triggers cmds then _ else _) as [out v']. destruct H as (c' & E & Ha' & Hv' & Hi').
  exists (set_driver (us_set_dev c' (usb_driver d)) d). split; [|done].
  cbn [bi_write Impl_interface]. unfold write. cbn [FT_WritePipeEx UsbSim_driver]. unfold us_write. by rewrite Hst, E.
Qed.

#[global] Instance UsbSim_controller : DialogController (Impl UsbSim) := {
  cc_regs := cc_regs (C := Dsim); cc_write := cc_write (C := Dsim); cc_execute := cc_execute (C := Dsim); cc_notes d := cc_notes (us_dev (usb_driver d));
  cc_write_regs := cc_write_regs (C := Dsim); cc_regs_words := us_regs_words; cc_notes_ok := us_notes_ok; cc_answers := us_answers
}.

Lemma us_stalled_write n deadline bytes (d : Impl UsbSim) :
  us_stalled (S n) deadline d →
  ∃ ec written d', bi_write Command bytes d = (ec, written, d') ∧ failed ec = true ∧ is_timeout ec = true
    ∧ us_stalled n deadline d' ∧ incoming d' = incoming d ∧ view d' = view d.
Proof.
  intros (Ha & Hl & Ht & Hst). cbn [bi_write Impl_interface]. unfold write. cbn [FT_WritePipeEx UsbSim_driver]. unfold us_write. rewrite Hst.
  do 3 eexists. split; [reflexivity|]. by split_and!.
Qed.

Lemma us_stalled_read n deadline (d : Impl UsbSim) :
  us_stalled n deadline d → incoming d = [] →
  ∃ ec d', ui_read_unbuffered Command usb.USBStreamPipeReadSize d = (ec, [], d') ∧ is_timeout ec = true
    ∧ us_stalled n deadline d' ∧ incoming d' = [] ∧ view d' = view d.
Proof.
  intros Hs Hi. cbn [ui_read_unbuffered Impl_usb]. unfold read_unbuffered. cbn [FT_ReadPipe UsbSim_driver]. change (get_endpoint Command In =? 0x82) with true. cbv iota.
  unfold us_read_command. cbn [bi_read Dsim_interface incoming UsbSim_stream Dsim_stream] in *. rewrite Hi. change (zlen [] <? usb.USBStreamPipeReadSize) with true. cbv iota.
  do 2 eexists. split; [reflexivity|]. split_and!; [done|exact Hs|exact Hi|done].
Qed.

Lemma us_read_data_law n deadline (d : Impl UsbSim) :
  us_stalled n deadline d →
  ∃ ec bytes d', ui_read_unbuffered Data usb.USBStreamPipeReadSize d = (ec, bytes, d')
    ∧ (ec = no_error ∨ is_timeout ec = true) ∧ us_stalled n deadline d' ∧ incoming d' = incoming d ∧ view d' = view d
    ∧ (reg (cc_regs (view d)) registers.daq_mode = 0 → bytes ≠ [] → (length (us_data (usb_driver d')) < length (us_data (usb_driver d)))%nat).
Proof.
  intros (Ha & Hl & Ht & Hst). cbn [ui_read_unbuffered Impl_usb]. unfold read_unbuffered. cbn [FT_ReadPipe UsbSim_driver].
  change (get_endpoint Data In =? 0x82) with false. cbv iota. unfold us_read_data. rewrite Hl.
  destruct (us_data (usb_driver d)) as [|chunk rest] eqn:E; do 3 eexists; (split; [reflexivity|]).
  - split_and!; try done. by right.
  - split_and!; try done; [by left|]. intros _ _. cbn. lia.
Qed.
#[global] Instance UsbSim_usb : UsbLaws (Impl UsbSim) := {
  pending d := length (us_data (usb_driver d)); stalled := us_stalled; stalled_none _ _ := iff_refl _;
  stalled_write := us_stalled_write; stalled_read := us_stalled_read; read_data := us_read_data_law
}.

Lemma us_timeout_set n deadline ep ms (d : Impl UsbSim) :
  us_stalled n deadline d → ∃ d', set_endpoint_timeout ep ms d = (no_error, d') ∧ same_side n deadline d d' ∧ usb_disableTriggers d' = usb_disableTriggers d.
Proof.
  intros Ha. exists d. split; [|done]. destruct Ha as (_ & _ & Hs & _). unfold set_endpoint_timeout. cbn [FT_SetPipeTimeout UsbSim_driver]. rewrite Hs. by destruct d.
Qed.
#[global] Instance UsbSim_device : UsbDevice UsbSim := { timeout_set := us_timeout_set }.

(** A device whose data acquisition runs, with data in its pipe; another device is open. *)
Definition running_device (lost : bool) (stalls : nat) (sets : bool) : Impl UsbSim :=
  new_impl First (mkUsbSim (mkDsim {[registers.daq_mode := 0xF]} ∅ [] true) [[1; 2; 3; 4]; [5; 6; 7; 8]] lost stalls {[7]} sets).
Definition opened_device (stalls : nat) : Impl UsbSim :=
  mkImpl (Some 1) First (mkDeviceInfo 0 "000000220021" "MVLC" Flags.USB3 None) true (us_set_open {[1; 7]} (usb_driver (running_device false stalls true))).

Lemma device_opens stalls : opened (running_device false stalls true) (opened_device stalls).
Proof. exists [usb_info (opened_device stalls)], (running_device false stalls true), (opened_device stalls). split_and!; reflexivity. Qed.

Lemma opened_stalled stalls : us_stalled stalls 0 (opened_device stalls).
Proof.
  split; [|done]. split; [done|]. intros a. change (is_u32 (reg {[registers.daq_mode := 0xF]} a)). unfold reg. destruct (decide (registers.daq_mode = a)) as [<-|Hne].
  - by rewrite lookup_singleton_eq.
  - by rewrite lookup_singleton_ne.
Qed.

Lemma us_rounds (c : Impl UsbSim) : (length (cc_notes c) < 3)%nat.
Proof. exact (sim_rounds (us_dev (usb_driver c))). Qed.

(** Seven writes time out: two whole rounds and the first attempt of the third one. *)
Lemma usb_connect_ready_witness :
  ∃ k, ∀ fuel, (k < fuel)%nat → ∃ d', connect 3 fuel [1; 0; 1]%nat (running_device false 7 true) = Done (no_error, d')
    ∧ ds_regs (us_dev (usb_driver d')) !! registers.daq_mode = Some 0.
Proof.
  destruct (usb_connect_ready 3 7 0 [1; 0; 1]%nat (running_device false 7 true) (opened_device 7) us_rounds eq_refl (device_opens 7) eq_refl)
    as (k & H); [exact (opened_stalled 7)|lia|reflexivity|]. exists k. intros fuel Hf. destruct (H fuel Hf) as (d' & E & _ & _ & Hr). exists d'. split; [exact E|].
  cbn in Hr. rewrite Hr. apply lookup_insert_eq.
Defined.

(** A device whose timeouts cannot be set is closed again; one whose data pipe fails stays open. *)
Lemma usb_connect_outcome_witness :
  (∃ ec d', connect 3 10 [] (running_device false 0 false) = Done (ec, d') ∧ failed ec = true ∧ held d' = (None, {[7]}))
  ∧ ∃ ec d', connect 3 10 [] (running_device true 0 true) = Done (ec, d') ∧ failed ec = true ∧ isConnected d' = true
      ∧ connect 3 10 [] d' = Done (Mvlc MVLCErrorCode.IsConnected, d').
Proof.
  split.
  - destruct (connect 3 10 [] (running_device false 0 false)) as [[ec d']| | |] eqn:E; [|exfalso; vm_compute in E; discriminate..].
    assert (Hf : failed ec = true) by (vm_compute in E; injection E as <- _; reflexivity).
    destruct (usb_connect_outcome 3 10 [] (running_device false 0 false) ec d' eq_refl E) as (_ & H & _). exists ec, d'. split_and!; [done|done|].
    apply H; [done|]. intros (_ & d1 & (infos & d0 & d2 & d3 & E1 & E2 & (ec3 & E3 & _) & (ec4 & E4 & F4) & _) & _).
    injection E1 as <- <-. vm_compute in E2. injection E2 as <-. vm_compute in E3. injection E3 as <- <-. vm_compute in E4. injection E4 as <- <-. discriminate F4.
  - destruct (connect 3 10 [] (running_device true 0 true)) as [[ec d']| | |] eqn:E; [|exfalso; vm_compute in E; discriminate..].
    assert (Hf : failed ec = true) by (vm_compute in E; injection E as <- _; reflexivity).
    assert (Hc : isConnected d' = true) by (vm_compute in E; injection E as _ <-; reflexivity).
    destruct (usb_connect_outcome 3 10 [] (running_device true 0 true) ec d' eq_refl E) as (_ & _ & H). exists ec, d'. split_and!; [done|done|done|].
    refine (proj2 (proj2 (proj2 (proj2 (H ec d' _))))). split; [done|]. eexists. split.
    + do 4 eexists. split; [reflexivity|]. split; [vm_compute; reflexivity|]. split; [eexists; split; reflexivity|]. split; [eexists; split; reflexivity|]. reflexivity.
    + rewrite <- E. vm_compute. reflexivity.
Defined.
