(* ===== verification/UsbWindows.v ===== *)
(** * The USB connection on Windows: [mvlc_impl_usb_windows.cc]

    The Windows library loses the bytes of a transfer that a read did not ask for.  The
    implementation therefore always reads full transfers into a buffer per pipe and serves
    reads from there.  Shown is that this delivers the bytes of the transfers as one stream,
    each once and in order. *)

From S2P Require Import Prelude Effects Constants Errors ReadoutBuffer Dialog UsbImpl.

(** The buffer of a pipe is the part between [first] and [last]. *)
(* mvlc_impl_usb.h:134-145 Impl *)
Record WinImpl (D : Type) : Type := mkWin { win_impl : Impl D; win_cmdBuffer : list Z; win_dataBuffer : list Z }.
Arguments mkWin {D}.
Arguments win_impl {D}.
Arguments win_cmdBuffer {D}.
Arguments win_dataBuffer {D}.

Section Windows.
Context {D : Type} {HD : Ftdi D}.
Implicit Types d : WinImpl D.

(* mvlc_impl_usb_windows.cc:126-148 Impl::Impl *)
Definition new_win (mode : ConnectMode) (driver : D) : WinImpl D := mkWin (new_impl mode driver) [] [].

Definition win_buffer (pipe : Pipe) d : list Z := match pipe with Command => win_cmdBuffer d | Data => win_dataBuffer d end.
Definition set_buffer (pipe : Pipe) (b : list Z) d : WinImpl D :=
  match pipe with Command => mkWin (win_impl d) b (win_dataBuffer d) | Data => mkWin (win_impl d) (win_cmdBuffer d) b end.
Definition set_win_driver (s : D) d : WinImpl D := mkWin (set_driver s (win_impl d)) (win_cmdBuffer d) (win_dataBuffer d).
Definition win_driver d : D := usb_driver (win_impl d).
Definition win_handle d : option Z := usb_handle (win_impl d).

(* mvlc_impl_usb_windows.cc:93-114 abort_pipe *)
Definition abort_pipe (pipe : Pipe) (dir : EndpointDirection) d : error_code * WinImpl D :=
  let '(st, s) := FT_AbortPipe (win_handle d) (get_endpoint pipe dir) (win_driver d) in (make_error_code st, set_win_driver s d).

(** [st != FT_OK && st != FT_IO_PENDING] *)
Definition bad (st : FT_STATUS) : bool := negb (bool_decide (st = FT_OK)) && negb (bool_decide (st = FT_IO_PENDING)).

(* mvlc_impl_usb_windows.cc:378-378 MaxWriteAttempts *)
Definition MaxWriteAttempts : nat := 3.

(** The loop over the attempts: an error of the abort, or status and count of the last one. *)
(* mvlc_impl_usb_windows.cc:381-405 Impl::write *)
Fixpoint write_attempts (attempts : nat) (pipe : Pipe) (buffer : list Z) (st : FT_STATUS) (transferred : Z) d
  : (error_code + FT_STATUS * Z) * WinImpl D :=
  match attempts with
  | O => (inr (st, transferred), d)
  | S attempts =>
      let '(st, transferred, s) := FT_WritePipeEx (win_handle d) (get_endpoint pipe Out) buffer None (win_driver d) in
      let d := set_win_driver s d in
      let '(ec, d) := if bad st then abort_pipe pipe Out d else (no_error, d) in
      if failed ec then (inl ec, d)
      else if bool_decide (st = FT_TIMEOUT) && (transferred =? 0) then write_attempts attempts pipe buffer st transferred d
      else (inr (st, transferred), d)
  end.

(** [bytesTransferred] is the variable of the caller; one of the returns leaves it alone. *)
(* mvlc_impl_usb_windows.cc:358-465 Impl::write *)
Definition write (pipe : Pipe) (buffer : list Z) (bytesTransferred : Z) d : error_code * Z * WinImpl D :=
  match write_attempts MaxWriteAttempts pipe buffer FT_OK 0 d with
  | (inl ec, d) => (ec, bytesTransferred, d)
  | (inr (st, transferred), d) =>
      let d := if bad st then (abort_pipe pipe Out d).2 else d in
      (make_error_code st, transferred, d)
  end.

(* mvlc_impl_usb_windows.cc:546-556 Impl::read *)
Definition copy_and_update (pipe : Pipe) (size : Z) d : list Z * WinImpl D :=
  let toCopy := Z.min (zlen (win_buffer pipe d)) size in
  (ztake toCopy (win_buffer pipe d), set_buffer pipe (zdrop toCopy (win_buffer pipe d)) d).

(** A full transfer into the buffer of the pipe. *)
(* mvlc_impl_usb_windows.cc:575-645 Impl::read *)
Definition fill_buffer (pipe : Pipe) d : error_code * WinImpl D :=
  let '(st, bytes, s) := FT_ReadPipeEx (win_handle d) (get_endpoint pipe In) usb.USBStreamPipeReadSize None (win_driver d) in
  let d := set_win_driver s d in
  let d := if bad st then (abort_pipe pipe In d).2 else d in
  (make_error_code st, set_buffer pipe bytes d).

(* mvlc_impl_usb_windows.cc:522-669 Impl::read *)
Definition read (pipe : Pipe) (size : Z) d : error_code * list Z * WinImpl D :=
  if size =? 0 then (no_error, [], d)
  else
    let '(dest, d) := copy_and_update pipe size d in
    let size := size - zlen dest in
    if size =? 0 then (no_error, dest, d)
    else
      let '(ec, d) := fill_buffer pipe d in
      let '(more, d) := copy_and_update pipe size d in
      (ec, dest ++ more, d).

(* mvlc_impl_usb_windows.cc:740-840 Impl::read_unbuffered *)
Definition read_unbuffered (pipe : Pipe) (size : Z) d : outcome (error_code * list Z * WinImpl D) :=
  if negb (size =? usb.USBSingleTransferMaxBytes) then Throw (runtime_error "Read size does not equal stream pipe size")
  else
    let '(st, bytes, s) := FT_ReadPipeEx (win_handle d) (get_endpoint pipe In) size None (win_driver d) in
    let d := set_win_driver s d in
    let d := if bad st then (abort_pipe pipe In d).2 else d in
    Return (make_error_code st, bytes, d).

(* mvlc_impl_usb_windows.cc:155-166 Impl::closeHandle *)
Definition win_closeHandle d : error_code * WinImpl D :=
  let '(ec, i) := closeHandle (win_impl d) in (ec, mkWin i (win_cmdBuffer d) (win_dataBuffer d)).
(* mvlc_impl_usb_windows.cc:342-350 Impl::disconnect *)
Definition win_disconnect d : error_code * WinImpl D :=
  if negb (isConnected (win_impl d)) then (Mvlc MVLCErrorCode.IsDisconnected, d) else win_closeHandle d.

(** ** The stream *)

(** The transfer that a read makes, if it makes one. *)
Definition transfer (pipe : Pipe) d : list Z :=
  (FT_ReadPipeEx (win_handle d) (get_endpoint pipe In) usb.USBStreamPipeReadSize None (win_driver d)).1.2.

Lemma buffer_set pipe b d : win_buffer pipe (set_buffer pipe b d) = b.
Proof. by destruct pipe. Qed.

Lemma buffer_abort pipe pipe' dir d : win_buffer pipe (abort_pipe pipe' dir d).2 = win_buffer pipe d.
Proof. unfold abort_pipe. destruct (FT_AbortPipe _ _ _). by destruct pipe. Qed.

Lemma copied pipe size d : 0 ≤ size → let '(dest, d') := copy_and_update pipe size d in
  win_buffer pipe d = dest ++ win_buffer pipe d' ∧ zlen dest = Z.min (zlen (win_buffer pipe d)) size
  ∧ win_handle d' = win_handle d ∧ win_driver d' = win_driver d.
Proof.
  intros Hs. unfold copy_and_update. rewrite buffer_set. pose proof (zlen_nonneg (win_buffer pipe d)). split_and!.
  - symmetry. apply ztake_zdrop.
  - apply zlen_ztake. lia.
  - by destruct pipe.
  - by destruct pipe.
Qed.

Lemma filled_buffer pipe d : win_buffer pipe (fill_buffer pipe d).2 = transfer pipe d.
Proof. unfold fill_buffer, transfer. destruct (FT_ReadPipeEx _ _ _ _ _) as [[st bytes] s]. cbn [fst snd]. by rewrite buffer_set. Qed.

(** One read: it makes a transfer only when the buffer does not hold enough, and what it
    returns and what it leaves in the buffer is what was there followed by the transfer; it
    returns less than it was asked for only when nothing is left. *)
Lemma win_read_stream pipe size d ec bytes d' :
  0 ≤ size → read pipe size d = (ec, bytes, d') →
  bytes ++ win_buffer pipe d' = win_buffer pipe d ++ (if size <=? zlen (win_buffer pipe d) then [] else transfer pipe d)
  ∧ (zlen bytes = size ∨ zlen bytes < size ∧ win_buffer pipe d' = []).
Proof.
  intros Hs. unfold read. destruct (Z.eqb_spec size 0) as [->|Hne].
  { intros [= <- <- <-]. pose proof (zlen_nonneg (win_buffer pipe d)). destruct (Z.leb_spec 0 (zlen (win_buffer pipe d))); [|lia].
    rewrite app_nil_r. split; [done|by left]. }
  pose proof (copied pipe size d Hs) as H. destruct (copy_and_update pipe size d) as [dest d1]. destruct H as (Hb & Hl & Hh & Hd).
  destruct (Z.eqb_spec (size - zlen dest) 0) as [E|E].
  { intros [= <- <- <-]. destruct (Z.leb_spec size (zlen (win_buffer pipe d))); [|lia]. rewrite app_nil_r, Hb. split; [done|left; lia]. }
  destruct (Z.leb_spec size (zlen (win_buffer pipe d))); [lia|]. assert (H1 : win_buffer pipe d1 = []).
  { apply zlen_0. pose proof (f_equal zlen Hb) as Hz. rewrite zlen_app in Hz. pose proof (zlen_nonneg (win_buffer pipe d1)). lia. }
  pose proof (filled_buffer pipe d1) as Hf. destruct (fill_buffer pipe d1) as [ec2 d2]. cbn [snd] in Hf.
  pose proof (copied pipe (size - zlen dest) d2 ltac:(lia)) as H2. destruct (copy_and_update pipe _ d2) as [more d3]. destruct H2 as (Hb2 & Hl2 & _).
  intros [= <- <- <-]. rewrite H1, app_nil_r in Hb. unfold transfer in *. rewrite Hh, Hd in Hf. rewrite Hb, <- app_assoc, <- Hb2, Hf. split; [done|].
  rewrite zlen_app. destruct (Z.min_spec (zlen (win_buffer pipe d2)) (size - zlen dest)) as [[? Hm]|[? Hm]]; [right|left; lia].
  split; [lia|]. apply zlen_0. pose proof (f_equal zlen Hb2) as Hz. rewrite zlen_app in Hz. pose proof (zlen_nonneg (win_buffer pipe d3)). lia.
Qed.

(** What the buffer holds when the connection is closed is still there when it is opened
    again, and is delivered before the data of the new connection. *)
Lemma disconnect_keeps_buffer pipe d : win_buffer pipe (win_disconnect d).2 = win_buffer pipe d.
Proof. unfold win_disconnect, win_closeHandle. destruct (negb _); [done|]. destruct (closeHandle _). by destruct pipe. Qed.

(** The reads of the cleanup have the size that is asked for. *)
Lemma cleanup_read_size pipe d e : read_unbuffered pipe usb.USBStreamPipeReadSize d ≠ Throw e.
Proof. unfold read_unbuffered. cbn. by destruct (FT_ReadPipeEx _ _ _ _ _) as [[? ?] ?]. Qed.

End Windows.
