(* ===== verification/Yaml.v ===== *)
(** * YAML documents

    What the configuration code uses of the YAML library: a document is a tree of nodes; a
    node is subscripted, iterated over and converted to strings, numbers and flags; a text
    is loaded into a tree and a tree is emitted as a text.  The two directions between texts
    and trees are the operations of class [YamlLibrary]; [YamlLaws] states that a document
    that was emitted is loaded again, also with white space behind it.

    An invalid node, the result of looking up a key that is not there, is [None]. *)

From Stdlib Require Import Ascii String.
From stdpp Require Import countable.
From S2P Require Import Prelude Text.
Open Scope list_scope.

Inductive Node : Type :=
| Null
| Scalar (s : string)
| Sequence (l : list Node)
| Mapping (l : list (Node * Node)).

(** The entry of a mapping whose key is a plain string. *)
Definition entry (key : string) (n : Node) : Node * Node := (Scalar key, n).

Definition invalid_node {A} : outcome A := Throw (runtime_error "invalid node").
Definition bad_conversion {A} : outcome A := Throw (runtime_error "bad conversion").
Definition bad_subscript {A} : outcome A := Throw (runtime_error "operator[] call on a scalar").

(** ** Access *)

Definition key_is (key : string) (kv : Node * Node) : bool :=
  match kv.1 with Scalar s => (s =? key)%string | _ => false end.

Fixpoint find_key (key : string) (l : list (Node * Node)) : option Node :=
  match l with [] => None | kv :: l => if key_is key kv then Some kv.2 else find_key key l end.

(** [node[key]] for a node that is not changed by it. *)
Definition subscript (key : string) (n : option Node) : outcome (option Node) :=
  match n with
  | None => invalid_node
  | Some (Scalar _) => bad_subscript
  | Some (Mapping l) => Return (find_key key l)
  | Some _ => Return None
  end.

(** The nodes a range-based loop sees: the entries of a mapping are pairs, and the node part
    of a pair is not valid. *)
Definition elements_of (n : option Node) : list (option Node) :=
  match n with
  | Some (Sequence l) => Some <$> l
  | Some (Mapping l) => (λ _, None) <$> l
  | _ => []
  end.

(** The [first] and [second] a loop with an iterator sees. *)
Definition pairs_of (n : option Node) : list (option Node * option Node) :=
  match n with
  | Some (Mapping l) => (λ kv, (Some kv.1, Some kv.2)) <$> l
  | Some (Sequence l) => (λ _, (None, None)) <$> l
  | _ => []
  end.

(** ** Conversions *)

Definition as_string (n : option Node) : outcome string :=
  match n with
  | None => invalid_node
  | Some Null => Return "null"%string
  | Some (Scalar s) => Return s
  | Some _ => bad_conversion
  end.

(** The digits at the beginning of a text, and what is behind them. *)
Fixpoint scan_digits (base acc : Z) (s : string) : Z * string :=
  match s with
  | String c rest =>
      match char_digit c with
      | Some d => if d <? base then scan_digits base (acc * base + d) rest else (acc, s)
      | None => (acc, s)
      end
  | EmptyString => (acc, s)
  end.

(** Extraction of a number from a string stream that finds out the base itself; [None] if
    there is no number. *)
Definition scan_magnitude (s : string) : option (Z * string) :=
  match s with
  | String "0"%char (String x rest) =>
      if (x =? "x")%char || (x =? "X")%char
      then if starts_digit 16 rest then Some (scan_digits 16 0 rest) else None
      else Some (scan_digits 8 0 s)
  | _ => if starts_digit 10 s then Some (scan_digits 10 0 s) else None
  end.

Definition scan_number (s : string) : option (Z * string) :=
  match s with
  | String "-"%char s => (λ '(n, rest), (- n, rest)) <$> scan_magnitude s
  | String "+"%char s => scan_magnitude s
  | _ => scan_magnitude s
  end.

(** A number in the range of its type with nothing but white space behind it. *)
Definition number_in (low high : Z) (s : string) : outcome Z :=
  match scan_number s with
  | Some (n, rest) =>
      if (low <=? n) && (n <=? high) && (skip_spaces rest =? "")%string then Return n else bad_conversion
  | None => bad_conversion
  end.

Definition as_u32 (n : option Node) : outcome Z :=
  match n with
  | None => invalid_node
  | Some (Scalar (String "-"%char _)) => bad_conversion
  | Some (Scalar s) => number_in 0 (2 ^ 32 - 1) s
  | Some _ => bad_conversion
  end.

Definition as_int (n : option Node) : outcome Z :=
  match n with
  | None => invalid_node
  | Some (Scalar s) => number_in (- 2 ^ 31) (2 ^ 31 - 1) s
  | Some _ => bad_conversion
  end.

Definition is_lower (c : ascii) : bool := let n := nat_of_ascii c in (97 <=? n)%nat && (n <=? 122)%nat.
Definition is_upper (c : ascii) : bool := let n := nat_of_ascii c in (65 <=? n)%nat && (n <=? 90)%nat.
Fixpoint entirely (f : ascii → bool) (s : string) : bool :=
  match s with String c s => f c && entirely f s | EmptyString => true end.

Definition flexible_case (s : string) : bool :=
  entirely is_lower s
  || match s with String c rest => is_upper c && (entirely is_lower rest || entirely is_upper rest) | EmptyString => true end.

Definition as_bool (n : option Node) : outcome bool :=
  match n with
  | None => invalid_node
  | Some (Scalar s) =>
      let t := str_tolower s in
      if negb (flexible_case s) then bad_conversion
      else if bool_decide (t ∈ ["y"; "yes"; "true"; "on"]%string) then Return true
      else if bool_decide (t ∈ ["n"; "no"; "false"; "off"]%string) then Return false
      else bad_conversion
  | Some _ => bad_conversion
  end.

(** A map of strings. *)
Fixpoint string_entries (l : list (Node * Node)) (m : gmap string string) : outcome (gmap string string) :=
  match l with
  | [] => Return m
  | (k, v) :: l => key ← as_string (Some k); value ← as_string (Some v); string_entries l (<[key := value]> m)
  end.

Definition as_string_map (n : option Node) : outcome (gmap string string) :=
  match n with
  | None => invalid_node
  | Some (Mapping l) => string_entries l ∅
  | Some _ => bad_conversion
  end.

(** ** Texts *)

Class YamlLibrary : Type := {
  yaml_load : string → outcome Node;
  yaml_emit : Node → string;
  yaml_text : string → Prop
}.

Fixpoint spaces (k : nat) : string := match k with O => EmptyString | S k => String " " (spaces k) end.

(** All texts in a document are such that the library can write them ([yaml_text]). *)
Fixpoint representable `{YamlLibrary} (n : Node) : Prop :=
  match n with
  | Null => True
  | Scalar s => yaml_text s
  | Sequence l => (fix all l := match l with [] => True | n :: l => representable n ∧ all l end) l
  | Mapping l => (fix all l := match l with [] => True | (k, v) :: l => representable k ∧ representable v ∧ all l end) l
  end.

Class YamlLaws `{YamlLibrary} : Prop := {
  yaml_load_emit : ∀ n k, representable n → yaml_load (yaml_emit n +:+ spaces k)%string = Return n
}.

(** ** Numbers that were written are read back *)

Lemma scan_chars base acc ds rest :
  base ≤ 16 → Forall (λ d, 0 ≤ d < base) ds → (∀ c s, rest = String c s → char_digit c = None) →
  scan_digits base acc (chars ds +:+ rest)%string = (foldl (λ a d, a * base + d) acc ds, rest).
Proof.
  intros Hb Hd Hr. revert acc; induction Hd as [|d ds Hd Hds IH]; intros acc.
  - destruct rest as [|c rest]; [done|]. change (chars [] +:+ String c rest)%string with (String c rest). cbn [scan_digits foldl]. by rewrite (Hr c rest).
  - change (chars (d :: ds) +:+ rest)%string with (String (digit_char d) (chars ds +:+ rest)%string). cbn [scan_digits foldl].
    rewrite digit_roundtrip by lia. destruct (Z.ltb_spec d base); [|lia]. apply IH.
Qed.

Lemma append_empty s : (s +:+ EmptyString)%string = s.
Proof. induction s as [|c s IH]; [done|]. change (String c (s +:+ EmptyString)%string = String c s). by rewrite IH. Qed.

(** [std::to_string] of a signed number. *)
Definition int_text (n : Z) : string := if n <? 0 then String "-" (dec (- n)) else dec n.

Lemma scan_magnitude_dec n : 0 ≤ n < 2 ^ 64 → scan_magnitude (dec n) = Some (n, EmptyString) ∧ ∃ d s, dec n = String (digit_char d) s ∧ 0 ≤ d < 10.
Proof.
  intros Hn. assert (Hp : 2 ^ 64 < 10 ^ Z.of_nat 64) by (by vm_compute).
  destruct (decide (n = 0)) as [->|Hnz]; [split; [reflexivity|exists 0, EmptyString; split; [reflexivity|lia]]|]. unfold dec, number.
  destruct (digits_head 64 10 n) as (d & ds & Hds & Hd); [lia|lia|]. pose proof (digits_range 64 10 n ltac:(lia) ltac:(lia)) as Hr.
  pose proof (digits_value 64 10 n ltac:(lia) ltac:(lia)) as Hv. revert Hr Hv. rewrite Hds. intros Hr Hv. destruct (proj1 (Forall_cons _ _ _) Hr) as [Hd10 _].
  split; [|exists d, (chars ds); split; [reflexivity|exact Hd10]]. assert (Hs : scan_digits 10 0 (chars (d :: ds)) = (n, EmptyString)).
  { pose proof (scan_chars 10 0 (d :: ds) EmptyString ltac:(lia) Hr ltac:(done)) as H.
    by rewrite append_empty, Hv in H. }
  assert (Hin : d ∈ Z.of_nat <$> seq 1 9) by (apply list_elem_of_fmap; exists (Z.to_nat d); rewrite elem_of_seq; lia).
  rewrite <- Hs. cbn in Hin. repeat (apply elem_of_cons in Hin as [->|Hin]; [reflexivity|]). exfalso; exact (not_elem_of_nil _ Hin).
Qed.

Lemma number_in_dec low high n : 0 ≤ n < 2 ^ 64 → low ≤ n ≤ high → number_in low high (dec n) = Return n.
Proof.
  intros Hn Hr. destruct (scan_magnitude_dec n Hn) as (Hm & d & s & Hs & Hd). unfold number_in.
  assert (Hsc : scan_number (dec n) = scan_magnitude (dec n)).
  { rewrite Hs. assert (Hin : d ∈ Z.of_nat <$> seq 0 10) by (apply list_elem_of_fmap; exists (Z.to_nat d); rewrite elem_of_seq; lia).
    cbn in Hin. repeat (apply elem_of_cons in Hin as [->|Hin]; [reflexivity|]). exfalso; exact (not_elem_of_nil _ Hin). }
  rewrite Hsc, Hm. by replace ((low <=? n) && (n <=? high)) with true by lia.
Qed.

Lemma number_in_int low high n : - 2 ^ 63 ≤ n < 2 ^ 63 → low ≤ n ≤ high → number_in low high (int_text n) = Return n.
Proof.
  intros Hn Hr. unfold int_text. destruct (Z.ltb_spec n 0); [|by apply number_in_dec; lia].
  destruct (scan_magnitude_dec (- n)) as (Hm & _); [lia|]. unfold number_in, scan_number. rewrite Hm. cbn [fmap option_fmap option_map].
  rewrite Z.opp_involutive. by replace ((low <=? n) && (n <=? high)) with true by lia.
Qed.

(** The digits of a hexadecimal number. *)
Lemma hex_digits width n :
  0 ≤ n < 2 ^ 64 → ∃ zs, hex width n = String "0" (String "x" (chars zs)) ∧ Forall (λ d, 0 ≤ d < 16) zs
    ∧ foldl (λ a d, a * 16 + d) 0 zs = n ∧ starts_digit 16 (chars zs) = true.
Proof.
  intros Hn. assert (Hp : 2 ^ 64 < 16 ^ Z.of_nat 64) by (by vm_compute).
  pose proof (digits_range 64 16 n ltac:(lia) ltac:(lia)) as Hr. pose proof (digits_value 64 16 n ltac:(lia) ltac:(lia)) as Hv.
  pose proof (digits_not_nil 64 16 n ltac:(lia)) as Hne. unfold hex. set (ds := digits 64 16 n) in *. exists (replicate (width - length ds) 0 ++ ds).
  split_and!; [done|by apply Forall_app; split; [apply Forall_replicate|]|by rewrite foldl_zeros|].
  destruct (replicate _ 0) as [|z r] eqn:E; [destruct ds as [|d ds']; [done|]|].
  - cbn [app]. unfold chars. cbn [foldr starts_digit]. apply Forall_cons in Hr as [Hd _]. rewrite digit_roundtrip by lia. apply Z.ltb_lt. lia.
  - apply replicate_S_inv in E || (destruct (width - length ds)%nat; [done|]; injection E as <- _). reflexivity.
Qed.

Lemma scan_number_hex width n : 0 ≤ n < 2 ^ 64 → scan_number (hex width n) = Some (n, EmptyString).
Proof.
  intros Hn. destruct (hex_digits width n Hn) as (zs & -> & Hz & Hv & Hs). unfold scan_number, scan_magnitude.
  rewrite Ascii.eqb_refl, Hs. cbn [orb]. pose proof (scan_chars 16 0 zs EmptyString ltac:(lia) Hz ltac:(done)) as H.
  rewrite append_empty, Hv in H. by rewrite H.
Qed.

Lemma number_in_hex low high width n : 0 ≤ n < 2 ^ 64 → low ≤ n ≤ high → number_in low high (hex width n) = Return n.
Proof.
  intros Hn Hr. unfold number_in. rewrite scan_number_hex by done. by replace ((low <=? n) && (n <=? high)) with true by lia.
Qed.

Lemma as_u32_hex n width : is_u32 n → as_u32 (Some (Scalar (hex width n))) = Return n.
Proof. unfold is_u32. intros Hn. unfold as_u32. change (number_in 0 (2 ^ 32 - 1) (hex width n) = Return n). apply number_in_hex; lia. Qed.

Lemma as_int_text n : - 2 ^ 31 ≤ n < 2 ^ 31 → as_int (Some (Scalar (int_text n))) = Return n.
Proof. intros Hn. apply number_in_int; lia. Qed.

Lemma as_bool_text (b : bool) : as_bool (Some (Scalar (if b then "true" else "false"))) = Return b.
Proof. by destruct b. Qed.

(** ** A library that satisfies the laws

    Documents as numbers in binary: nothing of the interface depends on the syntax. *)

Section NodeInd.
Context (P : Node → Prop) (HN : P Null) (HS : ∀ s, P (Scalar s))
  (Hseq : ∀ l, Forall P l → P (Sequence l)) (Hmap : ∀ l, Forall (λ kv, P kv.1 ∧ P kv.2) l → P (Mapping l)).

Fixpoint Node_nested_ind (n : Node) : P n :=
  match n with
  | Null => HN
  | Scalar s => HS s
  | Sequence l => Hseq l ((fix all l : Forall P l := match l with [] => Forall_nil_2 _ | n :: l => Forall_cons_2 _ _ _ (Node_nested_ind n) (all l) end) l)
  | Mapping l =>
      Hmap l ((fix all l : Forall (λ kv, P kv.1 ∧ P kv.2) l :=
        match l with
        | [] => Forall_nil_2 _
        | kv :: l => Forall_cons_2 _ _ _ (conj (Node_nested_ind kv.1) (Node_nested_ind kv.2)) (all l)
        end) l)
  end.
End NodeInd.

Fixpoint tree_of (n : Node) : gen_tree string :=
  match n with
  | Null => GenNode 0 []
  | Scalar s => GenLeaf s
  | Sequence l => GenNode 1 (tree_of <$> l)
  | Mapping l => GenNode 2 ((λ kv, GenNode 3 [tree_of kv.1; tree_of kv.2]) <$> l)
  end.

Fixpoint node_of (t : gen_tree string) : Node :=
  match t with
  | GenLeaf s => Scalar s
  | GenNode 1 l => Sequence (node_of <$> l)
  | GenNode 2 l => Mapping ((λ t, match t with GenNode _ [k; v] => (node_of k, node_of v) | _ => (Null, Null) end) <$> l)
  | GenNode _ _ => Null
  end.

Lemma node_of_tree n : node_of (tree_of n) = n.
Proof.
  induction n as [| |l IH|l IH] using Node_nested_ind; [done..| |]; cbn; f_equal.
  - induction IH as [|n l Hn Hl IHl]; [done|]. cbn. by rewrite Hn, IHl.
  - induction IH as [|[k v] l [Hk Hv] Hl IHl]; [done|]. cbn in *. by rewrite Hk, Hv, IHl.
Qed.

Fixpoint pos_text (p : positive) : string :=
  match p with xH => EmptyString | xO p => String "0" (pos_text p) | xI p => String "1" (pos_text p) end.
Fixpoint text_pos (s : string) : positive :=
  match s with String "0"%char s => xO (text_pos s) | String "1"%char s => xI (text_pos s) | _ => xH end.

Lemma text_pos_text p k : text_pos (pos_text p +:+ spaces k)%string = p.
Proof.
  induction p as [p IH|p IH|]; cbn [pos_text].
  - change (text_pos (String "1" (pos_text p +:+ spaces k)%string) = xI p). cbn [text_pos]. by rewrite IH.
  - change (text_pos (String "0" (pos_text p +:+ spaces k)%string) = xO p). cbn [text_pos]. by rewrite IH.
  - by destruct k.
Qed.

Definition binary_yaml : YamlLibrary := {|
  yaml_load s := match decode (text_pos s) with Some t => Return (node_of t) | None => Throw (runtime_error "syntax error") end;
  yaml_emit n := pos_text (encode (tree_of n));
  yaml_text _ := True
|}.

Lemma binary_yaml_laws : @YamlLaws binary_yaml.
Proof. constructor. intros n k _. cbn. by rewrite text_pos_text, decode_encode, node_of_tree. Qed.

Lemma binary_representable n : @representable binary_yaml n.
Proof.
  induction n as [| |l IH|l IH] using Node_nested_ind; [done..| |]; cbn.
  - by induction IH as [|n l Hn _ IHl].
  - induction IH as [|[k v] l [Hk Hv] _ IHl]; [done|]. by split_and!.
Qed.
