(* ===== verification/ReadoutConfig.v ===== *)
(** * Readout configurations: [mvlc_readout_config.cc]

    A crate configuration is written to listfiles and configuration files as YAML and read
    back from them.  Writing describes a document to the emitter of the YAML library; here
    the functions that write return that document.  Comments, which the emitter puts behind
    the commands, are not part of a document. *)

From Stdlib Require Import Ascii String.
From stdpp Require Import sorting.
From S2P Require Import Prelude Constants Commands Text CommandText ReadoutBuffer Listfile Yaml.
Open Scope list_scope.

(** ** Numbers in configuration files *)

Definition trim_char (c : ascii) : bool := bool_decide (nat_of_ascii c ∈ [32; 10; 13; 9]%nat).

Fixpoint trim_front (s : string) : string :=
  match s with String c rest => if trim_char c then trim_front rest else s | EmptyString => EmptyString end.

(** The text up to the last character that is not a space. *)
Fixpoint trim_back (s : string) : string :=
  match s with
  | EmptyString => EmptyString
  | String c rest =>
      match trim_back rest with
      | EmptyString => if trim_char c then EmptyString else String c EmptyString
      | rest => String c rest
      end
  end.

(* util/string_util.h:38-52 trim *)
Definition trimmed (s : string) : string := trim_front (trim_back s).

(** [max] is the largest number of the type. *)
(* util/string_util.h:79-105 parse_unsigned *)
Definition parse_unsigned (max : Z) (str_ : string) : option Z :=
  match scan_number (skip_spaces (trimmed str_)) with
  | Some (n, EmptyString) =>
      if Z.abs n <? 2 ^ 64 then let parsed := u64 n in if parsed >? max then None else Some parsed else None
  | _ => None
  end.

(** ** Connection types *)

(* mvlc_readout_config.cc:19-31 to_string *)
Definition connection_type_to_string (ct : ConnectionType) : string :=
  match ct with USB => "MVLC_USB" | ETH => "MVLC_ETH" end%string.

(* mvlc_readout_config.cc:33-42 connection_type_from_string *)
Definition connection_type_from_string (str : string) : outcome ConnectionType :=
  if (str =? "MVLC_USB")%string then Return USB
  else if (str =? "MVLC_ETH")%string then Return ETH
  else Throw (runtime_error "invalid connection type").

(** ** Comparisons and accessors *)

(* mvlc_command_builders.h:145-157 StackCommand::operator== *)
Definition command_eqb (a b : StackCommand) : bool :=
  bool_decide (sc_type a = sc_type b) && (sc_address a =? sc_address b) && (sc_value a =? sc_value b) && (sc_amod a =? sc_amod b)
  && (sc_dataWidth a =? sc_dataWidth b) && (sc_transfers a =? sc_transfers b) && (sc_rate a =? sc_rate b)
  && bool_decide (sc_customValues a = sc_customValues b) && eqb (sc_lateRead a) (sc_lateRead b).

Fixpoint list_eqb {A} (f : A → A → bool) (l k : list A) : bool :=
  match l, k with [], [] => true | a :: l, b :: k => f a b && list_eqb f l k | _, _ => false end.

(* mvlc_command_builders.h:224-228 Group::operator== *)
Definition group_eqb (a b : Group) : bool := (g_name a =? g_name b)%string && list_eqb command_eqb (g_commands a) (g_commands b).

(* mvlc_command_builders.cc:615-620 StackCommandBuilder::operator== *)
Definition builder_eqb (a b : StackCommandBuilder) : bool :=
  (m_name a =? m_name b)%string && eqb (m_suppressPipeOutput a) (m_suppressPipeOutput b) && list_eqb group_eqb (m_groups a) (m_groups b).

(* mvlc_readout_config.cc:46-62 CrateConfig::operator== *)
Definition crate_config_eqb (a b : CrateConfig) : bool :=
  (crateId a =? crateId b) && bool_decide (cc_connectionType a = cc_connectionType b) && (usbIndex a =? usbIndex b)
  && (usbSerial a =? usbSerial b)%string && (ethHost a =? ethHost b)%string && list_eqb builder_eqb (cc_stacks a) (cc_stacks b)
  && bool_decide (cc_triggers a = cc_triggers b) && bool_decide (initRegisters a = initRegisters b)
  && builder_eqb (initTriggerIO a) (initTriggerIO b) && builder_eqb (initCommands a) (initCommands b)
  && builder_eqb (stopCommands a) (stopCommands b) && builder_eqb (mcstDaqStart a) (mcstDaqStart b)
  && builder_eqb (mcstDaqStop a) (mcstDaqStop b).

(** [std::vector::at] *)
Definition at_ {A} (l : list A) (i : Z) : outcome A :=
  if i <? 0 then Throw out_of_range else match l !! Z.to_nat i with Some x => Return x | None => Throw out_of_range end.

(* mvlc_readout_config.cc:69-72 CrateConfig::getEventReadoutStack *)
Definition getEventReadoutStack (c : CrateConfig) (eventIndex : Z) : outcome StackCommandBuilder := at_ (cc_stacks c) eventIndex.

(* mvlc_readout_config.cc:64-67 CrateConfig::getEventName *)
Definition getEventName (c : CrateConfig) (eventIndex : Z) : outcome string :=
  s ← at_ (cc_stacks c) eventIndex; Return (m_name s).

(** The stack is constant here, and the constant version of [getGroup] does not check its
    index, which is converted to an unsigned number. *)
Definition getGroup_int (s : StackCommandBuilder) (moduleIndex : Z) : outcome Group :=
  if moduleIndex <? 0 then Undefined else getGroup_const s moduleIndex.

(* mvlc_readout_config.cc:79-82 CrateConfig::getModuleReadoutCommands *)
Definition getModuleReadoutCommands (c : CrateConfig) (eventIndex moduleIndex : Z) : outcome Group :=
  s ← at_ (cc_stacks c) eventIndex; getGroup_int s moduleIndex.

(* mvlc_readout_config.cc:74-77 CrateConfig::getModuleName *)
Definition getModuleName (c : CrateConfig) (eventIndex moduleIndex : Z) : outcome string :=
  s ← at_ (cc_stacks c) eventIndex; g ← getGroup_int s moduleIndex; Return (g_name g).

(* mvlc_readout_config.cc:84-87 CrateConfig::getNumberOfEvents *)
Definition getNumberOfEvents (c : CrateConfig) : Z := zlen (cc_stacks c).

(* mvlc_readout_config.cc:89-92 CrateConfig::getNumberOfModules *)
Definition getNumberOfModules (c : CrateConfig) (eventIndex : Z) : outcome Z :=
  s ← at_ (cc_stacks c) eventIndex; Return (zlen (m_groups s)).

(** ** Writing *)

Section Config.
Context `{Yaml : YamlLibrary}.

(* mvlc_command_builders.cc:387-412 to_string *)
Definition custom_node (transfers : Z) (customValues : list Z) : Node :=
  Mapping [entry "custom_cmd" (Mapping [
    entry "output_words" (Scalar (dec transfers));
    entry "custom_contents" (Sequence (Scalar ∘ hex 8 <$> customValues))])].

(* mvlc_command_builders.cc:387-412 to_string *)
Definition emit_custom (transfers : Z) (customValues : list Z) : string := yaml_emit (custom_node transfers customValues).

(* mvlc_command_builders.cc:566-585 stack_command_from_string *)
Definition load_custom (str : string) : outcome (Z * list Z) :=
  yRoot ← yaml_load str;
  yCmd ← subscript "custom_cmd" (Some yRoot);
  match yCmd with
  | None => Throw (runtime_error "Could not parse inline YAML for 'custom_cmd'")
  | Some _ =>
      yWords ← subscript "output_words" yCmd;
      transfers ← match yWords with None => Return 0 | Some _ => as_u32 yWords end;
      yContents ← subscript "custom_contents" yCmd;
      values ← mapM as_u32 (elements_of yContents);
      Return (transfers, values)
  end.

(** The entries of a [std::map], which is ordered by its keys. *)
Definition key_le (a b : string * string) : Prop := String.leb a.1 b.1 = true.
#[global] Instance key_le_dec a b : Decision (key_le a b).
Proof. unfold key_le. apply _. Defined.

Definition sorted_entries (m : gmap string string) : list (string * string) := merge_sort key_le (map_to_list m).

(* mvlc_readout_config.cc:107-127 operator<< *)
Definition group_node (group : Group) : outcome Node :=
  contents ← mapM (to_string emit_custom) (g_commands group);
  Return (Mapping (
    [entry "name" (Scalar (g_name group)); entry "contents" (Sequence (Scalar <$> contents))]
    ++ if bool_decide (g_meta group = ∅) then []
       else [entry "meta" (Mapping ((λ kv, entry kv.1 (Scalar kv.2)) <$> sorted_entries (g_meta group)))])).

(* mvlc_readout_config.cc:132-136 operator<< *)
Definition yaml_meta_entry (kv : string * string) : outcome (Node * Node) :=
  yamlNode ← yaml_load kv.2; Return (entry kv.1 yamlNode).

(* mvlc_readout_config.cc:97-141 operator<< *)
Definition stack_node (stack : StackCommandBuilder) : outcome Node :=
  groups ← mapM group_node (m_groups stack);
  meta ← mapM yaml_meta_entry (sorted_entries (m_yamlMeta stack));
  Return (Mapping ([entry "name" (Scalar (m_name stack)); entry "groups" (Sequence groups)] ++ meta)).

(* mvlc_readout_config.cc:190-197 operator<< *)
Definition connection_node (c : CrateConfig) : Node :=
  Mapping [
    entry "type" (Scalar (connection_type_to_string (cc_connectionType c)));
    entry "usbIndex" (Scalar (int_text (usbIndex c)));
    entry "usbSerial" (Scalar (usbSerial c));
    entry "ethHost" (Scalar (ethHost c));
    entry "ethJumboEnable" (Scalar (if ethJumboEnable c then "true" else "false"))].

(* mvlc_readout_config.cc:208-214 operator<< *)
Definition register_entry (regWrite : Z * Z) : Node * Node := entry (hex 4 regWrite.1) (Scalar (hex 8 regWrite.2)).

(** Numbers are written in hexadecimal form. *)
(* mvlc_readout_config.cc:181-227 operator<< *)
Definition crate_node (c : CrateConfig) : outcome Node :=
  stacks ← mapM stack_node (cc_stacks c);
  triggerIO ← stack_node (initTriggerIO c);
  init ← stack_node (initCommands c);
  stop ← stack_node (stopCommands c);
  mcstStart ← stack_node (mcstDaqStart c);
  mcstStop ← stack_node (mcstDaqStop c);
  Return (Mapping [entry "crate" (Mapping [
    entry "crateId" (Scalar (hex 0 (crateId c)));
    entry "mvlc_connection" (connection_node c);
    entry "readout_stacks" (Sequence stacks);
    entry "stack_triggers" (Sequence (Scalar ∘ hex 0 <$> cc_triggers c));
    entry "init_registers" (Mapping (register_entry <$> initRegisters c));
    entry "init_trigger_io" triggerIO;
    entry "init_commands" init;
    entry "stop_commands" stop;
    entry "mcst_daq_start" mcstStart;
    entry "mcst_daq_stop" mcstStop])]).

(* mvlc_readout_config.cc:349-353 to_yaml *)
Definition crate_to_yaml (c : CrateConfig) : outcome string := n ← crate_node c; Return (yaml_emit n).

(* mvlc_readout_config.cc:343-347 to_yaml *)
Definition stack_to_yaml (sb : StackCommandBuilder) : outcome string := n ← stack_node sb; Return (yaml_emit n).

(** ** Reading *)

(* mvlc_readout_config.cc:157-158 stack_command_builder_from_yaml *)
Definition command_from_node (yCmd : option Node) : outcome StackCommand :=
  str ← as_string yCmd; stack_command_from_string load_custom str.

(* mvlc_readout_config.cc:161-172 stack_command_builder_from_yaml *)
Definition module_meta (yMeta : option Node) : gmap string string :=
  match yMeta with
  | None => ∅
  | Some _ => match as_string_map yMeta with Return m => m | _ => ∅ end
  end.

(* mvlc_readout_config.cc:151-175 stack_command_builder_from_yaml *)
Definition add_group_from_node (yGroup : option Node) (stack : StackCommandBuilder) : outcome StackCommandBuilder :=
  yName ← subscript "name" yGroup;
  groupName ← as_string yName;
  yContents ← subscript "contents" yGroup;
  groupCommands ← mapM command_from_node (elements_of yContents);
  yMeta ← subscript "meta" yGroup;
  Return (addGroup groupName groupCommands (module_meta yMeta) stack).

Fixpoint add_groups_from_nodes (yGroups : list (option Node)) (stack : StackCommandBuilder) : outcome StackCommandBuilder :=
  match yGroups with
  | [] => Return stack
  | yGroup :: yGroups => stack ← add_group_from_node yGroup stack; add_groups_from_nodes yGroups stack
  end.

(* mvlc_readout_config.cc:143-179 stack_command_builder_from_yaml *)
Definition stack_from_node (yStack : option Node) : outcome StackCommandBuilder :=
  yName ← subscript "name" yStack;
  name ← as_string yName;
  yGroups ← subscript "groups" yStack;
  add_groups_from_nodes (elements_of yGroups) (mkBuilder name [] ∅ false).

(* mvlc_readout_config.cc:355-369 stack_command_builder_from_yaml *)
Definition stack_from_yaml (yaml : string) : outcome StackCommandBuilder :=
  yRoot ← yaml_load yaml; stack_from_node (Some yRoot).

Record Connection : Type := mkConnection {
  con_type : ConnectionType; con_usbIndex : Z; con_usbSerial : string; con_ethHost : string; con_ethJumboEnable : bool
}.

(* mvlc_readout_config.cc:265-272 crate_config_from_yaml *)
Definition connection_from_node (yCon : option Node) : outcome Connection :=
  match yCon with
  | None => Return (mkConnection USB (-1) EmptyString EmptyString false)
  | Some _ =>
      y ← subscript "type" yCon; s ← as_string y; ct ← connection_type_from_string s;
      y ← subscript "usbIndex" yCon; index ← as_int y;
      y ← subscript "usbSerial" yCon; serial ← as_string y;
      y ← subscript "ethHost" yCon; host ← as_string y;
      y ← subscript "ethJumboEnable" yCon; jumbo ← as_bool y;
      Return (mkConnection ct index serial host jumbo)
  end.

(** Entries that are no numbers are left out. *)
(* mvlc_readout_config.cc:286-299 crate_config_from_yaml *)
Fixpoint registers_from_pairs (pairs : list (option Node * option Node)) : outcome (list (Z * Z)) :=
  match pairs with
  | [] => Return []
  | (k, v) :: pairs =>
      sAddr ← as_string k;
      sVal ← as_string v;
      rest ← registers_from_pairs pairs;
      Return (match parse_unsigned (2 ^ 16 - 1) sAddr, parse_unsigned (2 ^ 32 - 1) sVal with
              | Some addr, Some val => (addr, val) :: rest
              | _, _ => rest
              end)
  end.

(* mvlc_readout_config.cc:305-311 crate_config_from_yaml *)
Definition optional_stack (yStack : option Node) : outcome StackCommandBuilder :=
  match yStack with None => Return empty_builder | Some _ => stack_from_node yStack end.

(** The identifier of the crate is only taken if there is such a key outside of the node of
    the crate. *)
(* mvlc_readout_config.cc:262-263 crate_config_from_yaml *)
Definition crate_id_from_node (yRoot yCrate : option Node) : outcome Z :=
  y ← subscript "crateId" yRoot;
  match y with None => Return 0 | Some _ => y ← subscript "crateId" yCrate; as_u32 y end.

(* mvlc_readout_config.cc:250-315 crate_config_from_yaml *)
Definition crate_config_from_node (yRoot : option Node) : outcome CrateConfig :=
  match yRoot with
  | None => Throw (runtime_error "CrateConfig YAML data is empty")
  | Some _ =>
      yCrate ← subscript "crate" yRoot;
      match yCrate with
      | None => Throw (runtime_error "No 'crate' node found in YAML input")
      | Some _ =>
          id ← crate_id_from_node yRoot yCrate;
          yCon ← subscript "mvlc_connection" yCrate; con ← connection_from_node yCon;
          yStacks ← subscript "readout_stacks" yCrate; stacks ← mapM stack_from_node (elements_of yStacks);
          yTriggers ← subscript "stack_triggers" yCrate; triggers ← mapM as_u32 (elements_of yTriggers);
          yRegisters ← subscript "init_registers" yCrate; registers ← registers_from_pairs (pairs_of yRegisters);
          y ← subscript "init_trigger_io" yCrate; triggerIO ← stack_from_node y;
          y ← subscript "init_commands" yCrate; init ← stack_from_node y;
          y ← subscript "stop_commands" yCrate; stop ← stack_from_node y;
          y ← subscript "mcst_daq_start" yCrate; mcstStart ← optional_stack y;
          y ← subscript "mcst_daq_stop" yCrate; mcstStop ← optional_stack y;
          Return (mkCrateConfig id (con_type con) (con_usbIndex con) (con_usbSerial con) (con_ethHost con) (con_ethJumboEnable con)
                    stacks triggers registers triggerIO init stop mcstStart mcstStop)
      end
  end.

(* mvlc_readout_config.cc:317-325 crate_config_from_yaml *)
Definition crate_config_from_yaml (yamlText : string) : outcome CrateConfig :=
  yRoot ← yaml_load yamlText; crate_config_from_node (Some yRoot).

End Config.
