(* ===== verification/ReadoutConfigFacts.v ===== *)
(** * Readout configurations are read back

    What a configuration keeps when it is written as YAML and read again: everything but the
    identifier of the crate, the comments and the additional YAML data of the stacks. *)

From Stdlib Require Import Ascii String.
From stdpp Require Import sorting.
From S2P Require Import Prelude Constants Commands Text CommandText ReadoutBuffer Listfile Yaml ReadoutConfig.
Open Scope list_scope.

(** ** What is lost *)

Definition forget_comment (c : StackCommand) : StackCommand :=
  mkCmd (sc_type c) (sc_address c) (sc_value c) (sc_amod c) (sc_dataWidth c) (sc_transfers c) (sc_rate c) (sc_customValues c) (sc_lateRead c) EmptyString.

Definition forget_group (g : Group) : Group := mkGroup (g_name g) (forget_comment <$> g_commands g) (g_meta g).

Definition forget_builder (b : StackCommandBuilder) : StackCommandBuilder := mkBuilder (m_name b) (forget_group <$> m_groups b) ∅ false.

Definition forget_crate (c : CrateConfig) : CrateConfig :=
  mkCrateConfig 0 (cc_connectionType c) (usbIndex c) (usbSerial c) (ethHost c) (ethJumboEnable c) (forget_builder <$> cc_stacks c)
    (cc_triggers c) (initRegisters c) (forget_builder (initTriggerIO c)) (forget_builder (initCommands c)) (forget_builder (stopCommands c))
    (forget_builder (mcstDaqStart c)) (forget_builder (mcstDaqStop c)).

(** ** Lists *)

(** Writing a list and reading its parts. *)
Lemma mapM_roundtrip {A B C D} (write : A → outcome B) (wrap : B → C) (read : C → outcome D) (keep : A → D) l :
  Forall (λ x, ∃ y, write x = Return y ∧ read (wrap y) = Return (keep x)) l →
  ∃ ys, mapM write l = Return ys ∧ mapM read (wrap <$> ys) = Return (keep <$> l).
Proof.
  induction 1 as [|x l (y & Hw & Hr) _ (ys & Hws & Hrs)]; [by exists []|]. exists (y :: ys). cbn. by rewrite Hw, Hws, Hr, Hrs.
Qed.

Lemma mapM_read {A B} (wrap : A → B) (read : B → outcome A) l : Forall (λ x, read (wrap x) = Return x) l → mapM read (wrap <$> l) = Return l.
Proof. induction 1 as [|x l Hx _ IH]; [done|]. cbn. by rewrite Hx, IH. Qed.

(** ** Groups *)

Lemma push_back_last_app gs g c : push_back_last (gs ++ [g]) c = gs ++ [mkGroup (g_name g) (g_commands g ++ [c]) (g_meta g)].
Proof.
  induction gs as [|g' gs IH]; [done|]. cbn [app]. destruct (gs ++ [g]) as [|g2 gs2] eqn:E; [by destruct gs|].
  change (push_back_last (g' :: g2 :: gs2) c) with (g' :: push_back_last (g2 :: gs2) c). by rewrite IH.
Qed.

Lemma addCommands_last cs gs name cs0 meta b :
  addCommands cs (set_groups (gs ++ [mkGroup name cs0 meta]) b) = set_groups (gs ++ [mkGroup name (cs0 ++ cs) meta]) b.
Proof.
  revert cs0; induction cs as [|c cs IH]; intros cs0; cbn; [by rewrite app_nil_r|].
  assert (Hc : addCommand c (set_groups (gs ++ [mkGroup name cs0 meta]) b) = set_groups (gs ++ [mkGroup name (cs0 ++ [c]) meta]) b).
  { unfold addCommand, hasOpenGroup. cbn [m_groups set_groups]. destruct (gs ++ [mkGroup name cs0 meta]) eqn:E; [by destruct gs|]. rewrite <- E. cbn.
    by rewrite push_back_last_app. }
  rewrite Hc. unfold addCommands in IH. rewrite IH. by rewrite <- app_assoc.
Qed.

Lemma addGroup_last name cs meta b : addGroup name cs meta b = set_groups (m_groups b ++ [mkGroup name cs meta]) b.
Proof. unfold addGroup, beginGroup. by rewrite addCommands_last. Qed.

(** ** Meta data *)

Lemma string_entries_fold l m :
  string_entries ((λ kv, entry kv.1 (Scalar kv.2)) <$> l) m = Return (foldl (λ m kv, <[kv.1 := kv.2]> m) m l).
Proof. revert m; induction l as [|[k v] l IH]; intros m; [done|]. cbn. apply IH. Qed.

Lemma foldl_insert_lookup (l : list (string * string)) (m : gmap string string) k :
  NoDup l.*1 → foldl (λ m kv, <[kv.1 := kv.2]> m) m l !! k = match (list_to_map l : gmap string string) !! k with Some v => Some v | None => m !! k end.
Proof.
  revert m; induction l as [|[k' v] l IH]; intros m Hn; [done|]. cbn in Hn. apply NoDup_cons in Hn as [Hk Hn].
  cbn [foldl list_to_map foldr fst snd]. rewrite IH by done. change (foldr _ ∅ l) with (list_to_map l : gmap string string).
  destruct (decide (k = k')) as [->|Hne].
  - rewrite lookup_insert_eq, (not_elem_of_list_to_map_1 _ _ Hk). by rewrite lookup_insert_eq.
  - rewrite !lookup_insert_ne by done. done.
Qed.

Lemma sorted_entries_map (m : gmap string string) : foldl (λ m kv, <[kv.1 := kv.2]> m) ∅ (sorted_entries m) = m.
Proof.
  assert (Hp : sorted_entries m ≡ₚ map_to_list m) by apply merge_sort_Permutation.
  assert (Hn : NoDup (sorted_entries m).*1) by (rewrite Hp; apply NoDup_fst_map_to_list).
  apply map_eq. intros k. rewrite foldl_insert_lookup by done. rewrite (list_to_map_proper _ _ Hn Hp), list_to_map_to_list, lookup_empty. by destruct (m !! k).
Qed.

(** ** Numbers *)

Lemma trim_char_space c : trim_char c = true → is_space c = true.
Proof.
  unfold trim_char, is_space. intros H%bool_decide_eq_true. repeat (apply elem_of_cons in H as [->|H]; [done|]). by apply elem_of_nil in H.
Qed.

Lemma solid_trimmed s : solid s = true → trimmed s = s.
Proof.
  intros Hs. assert (Hb : trim_back s = s).
  { induction s as [|c s IH]; [done|]. cbn in *. apply andb_true_iff in Hs as [Hc Hs]. rewrite IH by done.
    destruct s; [|done]. destruct (trim_char c) eqn:E; [|done]. by rewrite trim_char_space in Hc. }
  unfold trimmed. rewrite Hb. destruct s as [|c s]; [done|]. cbn in *. apply andb_true_iff in Hs as [Hc _].
  destruct (trim_char c) eqn:E; [|done]. by rewrite trim_char_space in Hc.
Qed.

Lemma parse_unsigned_hex width max n : 0 ≤ n ≤ max → max < 2 ^ 64 → parse_unsigned max (hex width n) = Some n.
Proof.
  intros Hn Hm. destruct (hex_word width n) as [Hne Hs]; [lia|]. unfold parse_unsigned. rewrite solid_trimmed by done.
  assert (Hsk : skip_spaces (hex width n) = hex width n) by done. rewrite Hsk, scan_number_hex by lia.
  replace (u64 n) with n by (unfold u64; zlia). replace (Z.abs n <? 2 ^ 64) with true by lia. cbv zeta. by replace (n >? max) with false by lia.
Qed.

Lemma registers_roundtrip l :
  Forall (λ r, is_u16 r.1 ∧ is_u32 r.2) l → registers_from_pairs ((λ kv, (Some kv.1, Some kv.2)) <$> (register_entry <$> l)) = Return l.
Proof.
  induction 1 as [|[a v] l [Ha Hv] _ IH]; [done|]. cbn [fmap list_fmap] in *. cbn [registers_from_pairs register_entry entry fst snd as_string mbind outcome_bind].
  rewrite IH. cbn [mbind outcome_bind]. unfold is_u16, is_u32 in *. cbn in Ha, Hv. rewrite !parse_unsigned_hex by lia. done.
Qed.

Section Facts.
Context `{Yaml : YamlLibrary}.

(** A command that is read back from its text, up to its comment. *)
Definition readable (c : StackCommand) : Prop := reads_back emit_custom load_custom (forget_comment c).

Lemma to_string_comment c : to_string emit_custom (forget_comment c) = to_string emit_custom c.
Proof. by destruct c. Qed.

Lemma group_roundtrip g :
  Forall readable (g_commands g) →
  ∃ n, group_node g = Return n ∧ ∀ b, add_group_from_node (Some n) b = Return (set_groups (m_groups b ++ [forget_group g]) b).
Proof.
  intros Hc. destruct (mapM_roundtrip (to_string emit_custom) (λ s, Some (Scalar s)) command_from_node forget_comment (g_commands g)) as (texts & Hw & Hr).
  { eapply Forall_impl; [exact Hc|]. intros c (str & H1 & H2). exists str. by rewrite <- to_string_comment. }
  unfold group_node. rewrite Hw. eexists. split; [done|]. intros b. unfold add_group_from_node.
  change (subscript "name" _) with (Return (Some (Scalar (g_name g)))). cbn [mbind outcome_bind as_string].
  change (subscript "contents" _) with (Return (Some (Sequence (Scalar <$> texts)))). cbn [mbind outcome_bind elements_of].
  rewrite <- list_fmap_compose. change (Some ∘ Scalar) with (λ s, Some (Scalar s)). rewrite Hr. cbn [mbind outcome_bind].
  destruct (bool_decide (g_meta g = ∅)) eqn:E.
  - apply bool_decide_eq_true in E. cbn [app subscript find_key key_is entry fst snd mbind outcome_bind module_meta]. unfold forget_group. rewrite E.
    by rewrite addGroup_last.
  - match goal with |- context [subscript "meta" (Some ?n)] =>
      change (subscript "meta" (Some n)) with (Return (Some (Mapping ((λ kv, entry kv.1 (Scalar kv.2)) <$> sorted_entries (g_meta g))))) end.
    cbn [mbind outcome_bind module_meta as_string_map]. by rewrite string_entries_fold, sorted_entries_map, addGroup_last.
Qed.

(** ** Stacks *)

(** A builder that can be written: its commands are readable and its additional YAML data
    are documents. *)
Definition builder_ok (b : StackCommandBuilder) : Prop :=
  Forall (λ g, Forall readable (g_commands g)) (m_groups b) ∧ map_Forall (λ _ text, ∃ n, yaml_load text = Return n) (m_yamlMeta b).

Lemma add_groups_roundtrip gs :
  Forall (λ g, Forall readable (g_commands g)) gs →
  ∃ ns, mapM group_node gs = Return ns ∧ ∀ b, add_groups_from_nodes (Some <$> ns) b = Return (set_groups (m_groups b ++ (forget_group <$> gs)) b).
Proof.
  induction 1 as [|g gs Hg _ (ns & Hw & Hr)].
  - exists []. split; [done|]. intros [name groups meta sup]. cbn. unfold set_groups. cbn. by rewrite app_nil_r.
  - destruct (group_roundtrip g Hg) as (n & Hn & Hrn). exists (n :: ns). cbn [mapM]. rewrite Hn. cbn [mbind outcome_bind]. rewrite Hw. split; [done|]. intros b.
    cbn [fmap list_fmap add_groups_from_nodes]. rewrite Hrn. cbn [mbind outcome_bind]. rewrite Hr. cbn [set_groups m_groups]. unfold set_groups. cbn. by rewrite <- app_assoc.
Qed.

Lemma yaml_meta_written l : Forall (λ kv, ∃ n, yaml_load kv.2 = Return n) l → ∃ ms, mapM yaml_meta_entry l = Return ms.
Proof.
  induction 1 as [|kv l (n & Hn) _ (ms & Hm)]; [by eexists|]. exists (entry kv.1 n :: ms). cbn [mapM].
  assert (Hk : yaml_meta_entry kv = Return (entry kv.1 n)) by (unfold yaml_meta_entry; by rewrite Hn). rewrite Hk. cbn [mbind outcome_bind]. by rewrite Hm.
Qed.

Lemma stack_roundtrip b : builder_ok b → ∃ n, stack_node b = Return n ∧ stack_from_node (Some n) = Return (forget_builder b).
Proof.
  intros [Hg Hm]. destruct (add_groups_roundtrip _ Hg) as (ns & Hw & Hr). destruct (yaml_meta_written (sorted_entries (m_yamlMeta b))) as [ms Hms].
  { assert (Hp : sorted_entries (m_yamlMeta b) ≡ₚ map_to_list (m_yamlMeta b)) by apply merge_sort_Permutation. rewrite Hp.
    apply map_Forall_to_list in Hm. eapply Forall_impl; [exact Hm|]. by intros [k v]. }
  unfold stack_node. rewrite Hw. cbn [mbind outcome_bind]. rewrite Hms. eexists. split; [reflexivity|]. unfold stack_from_node.
  change (subscript "name" _) with (Return (Some (Scalar (m_name b)))). cbn [mbind outcome_bind as_string].
  change (subscript "groups" _) with (Return (Some (Sequence ns))). cbn [mbind outcome_bind elements_of]. by rewrite Hr.
Qed.

(** ** Crates *)

(** Numbers in the ranges of their types, builders that can be written. *)
Record crate_ok (c : CrateConfig) : Prop := {
  ck_usbIndex : - 2 ^ 31 ≤ usbIndex c < 2 ^ 31;
  ck_triggers : Forall is_u32 (cc_triggers c);
  ck_registers : Forall (λ r, is_u16 r.1 ∧ is_u32 r.2) (initRegisters c);
  ck_stacks : Forall builder_ok (cc_stacks c);
  ck_triggerIO : builder_ok (initTriggerIO c);
  ck_init : builder_ok (initCommands c);
  ck_stop : builder_ok (stopCommands c);
  ck_mcstStart : builder_ok (mcstDaqStart c);
  ck_mcstStop : builder_ok (mcstDaqStop c)
}.

Lemma connection_roundtrip c :
  - 2 ^ 31 ≤ usbIndex c < 2 ^ 31 →
  connection_from_node (Some (connection_node c)) = Return (mkConnection (cc_connectionType c) (usbIndex c) (usbSerial c) (ethHost c) (ethJumboEnable c)).
Proof.
  intros Hi. unfold connection_from_node, connection_node.
  cbn [subscript find_key key_is entry fst snd mbind outcome_bind String.eqb Ascii.eqb Bool.eqb as_string].
  assert (Hc : connection_type_from_string (connection_type_to_string (cc_connectionType c)) = Return (cc_connectionType c)) by (by destruct (cc_connectionType c)).
  rewrite Hc. cbn [mbind outcome_bind]. rewrite as_int_text by done. cbn [mbind outcome_bind]. by rewrite as_bool_text.
Qed.

(** The document of a configuration, and what is read from it. *)
Lemma crate_roundtrip c :
  crate_ok c → ∃ n, crate_node c = Return n ∧ crate_config_from_node (Some n) = Return (forget_crate c).
Proof.
  intros [Hi Ht Hr Hs H1 H2 H3 H4 H5]. destruct (mapM_roundtrip stack_node Some stack_from_node forget_builder (cc_stacks c)) as (ns & Hw & Hrs).
  { eapply Forall_impl; [exact Hs|]. intros b Hb. by apply stack_roundtrip. }
  assert (Htr : mapM as_u32 (Some <$> (Scalar ∘ hex 0 <$> cc_triggers c)) = Return (cc_triggers c)).
  { rewrite <- list_fmap_compose. apply mapM_read. eapply Forall_impl; [exact Ht|]. intros t Hts. by apply as_u32_hex. }
  destruct (stack_roundtrip _ H1) as (n1 & W1 & R1), (stack_roundtrip _ H2) as (n2 & W2 & R2), (stack_roundtrip _ H3) as (n3 & W3 & R3),
    (stack_roundtrip _ H4) as (n4 & W4 & R4), (stack_roundtrip _ H5) as (n5 & W5 & R5).
  unfold crate_node. rewrite Hw, W1, W2, W3, W4, W5. cbn [mbind outcome_bind]. eexists. split; [reflexivity|].
  unfold crate_config_from_node, crate_id_from_node. cbn [subscript find_key key_is entry fst snd mbind outcome_bind String.eqb Ascii.eqb Bool.eqb].
  rewrite connection_roundtrip by done. cbn [mbind outcome_bind elements_of pairs_of]. rewrite Hrs. cbn [mbind outcome_bind].
  rewrite Htr. cbn [mbind outcome_bind].
  rewrite registers_roundtrip by done. cbn [mbind outcome_bind optional_stack]. by rewrite R1, R2, R3, R4, R5.
Qed.

(** The configuration with the text that was written, and padding behind it. *)
Lemma crate_text_roundtrip {Laws : YamlLaws} c n k :
  crate_ok c → crate_node c = Return n → representable n → crate_config_from_yaml (yaml_emit n +:+ spaces k)%string = Return (forget_crate c).
Proof.
  intros Hc Hn Hr. unfold crate_config_from_yaml. rewrite yaml_load_emit by done. cbn [mbind outcome_bind].
  destruct (crate_roundtrip c Hc) as (n' & Hn' & Hf). by rewrite Hn in Hn'; injection Hn' as <-.
Qed.

(** ** Comparing configurations *)

Lemma list_eqb_fmap {A} (f : A → A → bool) (g : A → A) l : (∀ x, f x (g x) = true) → list_eqb f l (g <$> l) = true.
Proof. intros H. induction l as [|x l IH]; [done|]. cbn. by rewrite H, IH. Qed.

Lemma list_eqb_fmap_forallb {A} (f : A → A → bool) (g : A → A) (p : A → bool) l :
  (∀ x, f x (g x) = p x) → list_eqb f l (g <$> l) = forallb p l.
Proof. intros H. induction l as [|x l IH]; [done|]. cbn. by rewrite H, IH. Qed.

Lemma command_eqb_forget c : command_eqb c (forget_comment c) = true.
Proof. unfold command_eqb, forget_comment. cbn. rewrite !Z.eqb_refl, !bool_decide_true, Bool.eqb_reflx by done. done. Qed.

Lemma builder_eqb_forget b : builder_eqb b (forget_builder b) = negb (m_suppressPipeOutput b).
Proof.
  unfold builder_eqb, forget_builder. cbn. rewrite String.eqb_refl. cbn. rewrite list_eqb_fmap; [by destruct (m_suppressPipeOutput b)|]. intros g.
  unfold group_eqb, forget_group. cbn. rewrite String.eqb_refl. apply list_eqb_fmap. apply command_eqb_forget.
Qed.

(** No builder of the configuration suppresses output. *)
Definition no_suppression (c : CrateConfig) : bool :=
  forallb (λ b, negb (m_suppressPipeOutput b)) (cc_stacks c ++ [initTriggerIO c; initCommands c; stopCommands c; mcstDaqStart c; mcstDaqStop c]).

Lemma crate_eqb_forget c : crate_config_eqb c (forget_crate c) = (crateId c =? 0) && no_suppression c.
Proof.
  unfold no_suppression, crate_config_eqb, forget_crate. rewrite forallb_app. cbn -[builder_eqb].
  rewrite !builder_eqb_forget, Z.eqb_refl, !String.eqb_refl, !bool_decide_true by done.
  rewrite (list_eqb_fmap_forallb _ _ _ _ builder_eqb_forget). by rewrite !andb_true_r, !andb_assoc.
Qed.

End Facts.

(** C25: a configuration survives being written and read.  For every configuration whose
    numbers fit their types, whose commands are read back unchanged from their texts (as those
    are that are neither invalid nor custom, no swapped reads of single values, and have only the
    fields their text has) and whose additional data are YAML documents, writing succeeds; and
    with a YAML library that loads what it emitted, reading the text, also with spaces
    behind it, gives the same configuration: connection, stacks with their groups, commands
    and meta data, triggers, register writes in their order and the command lists.  Lost are
    the comments, the additional YAML data, the suppression of the output of stacks, which is
    read as off, and the identifier of the crate, which is read as 0.  So the result compares
    equal to the original ([operator==]) exactly if the crate had the identifier 0 and no
    stack or command list suppresses its output. *)
Theorem crate_config_roundtrip `{Laws : YamlLaws} c k :
  crate_ok c →
  ∃ n, crate_to_yaml c = Return (yaml_emit n) ∧
    (representable n → crate_config_from_yaml (yaml_emit n +:+ spaces k)%string = Return (forget_crate c))
    ∧ crate_config_eqb c (forget_crate c) = (crateId c =? 0) && no_suppression c.
Proof.
  intros Hc. destruct (crate_roundtrip c Hc) as (n & Hn & _). exists n. unfold crate_to_yaml. rewrite Hn.
  split_and!; [done|by apply crate_text_roundtrip|apply crate_eqb_forget].
Qed.

Lemma printable_readable `{YamlLibrary} c : printable (forget_comment c) → readable c.
Proof. apply printable_reads_back. Qed.

Definition example_stack_config : StackCommandBuilder :=
  mkBuilder "event0" [mkGroup "adc" [mkCmd VMEWrite 0x01006070 7 9 VMEDataWidth.D16 0 0 [] false "reset"; cmd_of_type SignalAccu] {["vendor" := "mesytec"]}] ∅ false.

Definition example_config : CrateConfig :=
  mkCrateConfig 2 USB (-1) "0124" "" false [example_stack_config] [0x21; 0x101] [(0x1100, 5); (0x1104, 0xFFFFFFFF)]
    (mkBuilder "" [] ∅ false) (mkBuilder "" [] ∅ false) (mkBuilder "" [] ∅ false) (mkBuilder "" [] ∅ false) (mkBuilder "" [] ∅ false).

Lemma example_config_ok : @crate_ok binary_yaml example_config.
Proof.
  assert (Hb : ∀ name, @builder_ok binary_yaml (mkBuilder name [] ∅ false)) by (intros name; split; [constructor|apply map_Forall_empty]).
  constructor; try apply Hb; cbn; [lia| | |].
  - repeat constructor; unfold is_u32; lia.
  - repeat constructor; unfold is_u16, is_u32; cbn; lia.
  - constructor; [|constructor]. split; [|apply map_Forall_empty]. constructor; [|constructor]. cbn. constructor; [|constructor; [|constructor]].
    + apply (printable_readable (H := binary_yaml)). apply (printable_write 9 VMEDataWidth.D16 0x01006070 7); [unfold is_u8; lia|by left|unfold is_u32; lia|unfold is_u32; lia].
    + apply (printable_readable (H := binary_yaml)). apply (printable_plain SignalAccu). set_solver.
Qed.

Lemma crate_config_roundtrip_witness :
  @crate_ok binary_yaml example_config
  ∧ ∃ n, @crate_to_yaml binary_yaml example_config = Return (@yaml_emit binary_yaml n)
      ∧ @crate_config_from_yaml binary_yaml (@yaml_emit binary_yaml n +:+ spaces 3)%string = Return (forget_crate example_config).
Proof.
  split; [apply example_config_ok|]. destruct (@crate_config_roundtrip binary_yaml binary_yaml_laws example_config 3 example_config_ok) as (n & H1 & H2 & _).
  exists n. split; [exact H1|]. apply H2, binary_representable.
Defined.
