(* ===== verification/ReplayFacade.v ===== *)
(** * Opening a listfile for replay: [mvlc_replay.cc]

    A listfile carries the configuration of its readout.  [init_common] takes it from the
    preamble and makes the parser for the data that follow. *)

From Stdlib Require Import Ascii String.
From S2P Require Import Prelude Effects Constants Frames FramesFacts Commands Text CommandText ReadoutBuffer Listfile ListfileFacts ReadoutParser Yaml ReadoutConfig ReadoutConfigFacts.
Open Scope list_scope.

(** ** Bytes and strings *)

Fixpoint string_of_codes (codes : list Z) : string :=
  match codes with [] => EmptyString | c :: codes => String (ascii_of_N (Z.to_N c)) (string_of_codes codes) end.

(* mvlc_listfile.h:117-127 SystemEvent::contentsToString *)
Definition contentsToString (e : Listfile.SystemEvent) : string := string_of_codes (se_contents e).

Section Facade.
Context `{Yaml : YamlLibrary} {R : Type} {HR : ReadHandle R}.

(** The configuration and the state of the parser; the threads start with them. *)
(* mvlc_replay.cc:68-97 init_common *)
Definition init_common (fuel : nat) : SM R (CrateConfig * ReadoutParserState) :=
  preamble ← read_preamble fuel PreambleReadMaxSize;
  if negb (bool_decide (pre_magic preamble = get_filemagic_eth) || bool_decide (pre_magic preamble = get_filemagic_usb))
  then raise (runtime_error "Invalid listfile file format")
  else
    match findCrateConfig preamble with
    | None => raise (runtime_error "No MVLC CrateConfig found in listfile")
    | Some configSection =>
        crateConfig ← lift (crate_config_from_yaml (contentsToString configSection));
        readoutParser ← lift (make_readout_parser (cc_stacks crateConfig));
        mret (crateConfig, readoutParser)
    end.

(** The bytes of the text of a configuration; writing throws if there is no text. *)
(* mvlc_readout_config.cc:349-353 to_yaml *)
Definition yaml_bytes (c : CrateConfig) : list Z := match crate_to_yaml c with Return text => char_codes text | _ => [] end.

End Facade.

(** ** The parser does not depend on comments *)

Definition forget_structure (m : ModuleReadoutStructure) : ModuleReadoutStructure :=
  mkMRS (prefixLen m) (suffixLen m) (hasDynamic m) (mrs_name m) (forget_comment <$> mrs_commands m) (mrs_meta m) (isMesytecAndUsing2eSST m).

Definition forget_parse (m : module_parse) : module_parse := mkMP (mp_state m) (forget_structure (mp_parts m)) (mp_accumulatorActive m).

(** The outcome of a computation whose result is changed. *)
Definition outcome_map {A B} (f : A → B) (o : outcome A) : outcome B := match o with Return a => Return (f a) | Throw e => Throw e | Undefined => Undefined end.

Lemma parse_command_forget mes m c :
  parse_module_command mes (forget_parse m) (forget_comment c) = outcome_map forget_parse (parse_module_command mes m c).
Proof.
  unfold parse_module_command. change (is_read_command (forget_comment c)) with (is_read_command c).
  change (sc_amod (forget_comment c)) with (sc_amod c). change (sc_type (forget_comment c)) with (sc_type c).
  change (sc_transfers (forget_comment c)) with (sc_transfers c). destruct m as [st p acc]. cbn [forget_parse mp_state mp_accumulatorActive mp_parts].
  destruct (_ || _ || _)%bool; [by destruct st|]. destruct (is_read_command c); [by destruct st|]. by destruct (sc_type c), st.
Qed.

Lemma parse_commands_forget mes m cs :
  parse_module_commands mes (forget_parse m) (forget_comment <$> cs) = outcome_map forget_parse (parse_module_commands mes m cs).
Proof.
  revert m; induction cs as [|c cs IH]; intros m; [done|]. cbn [fmap list_fmap parse_module_commands]. rewrite parse_command_forget.
  destruct (parse_module_command mes m c); [|done..]. cbn [mbind outcome_bind outcome_map]. apply IH.
Qed.

Lemma group_structures_forget (gs : list Group) :
  build_group_structures (forget_group <$> gs) = outcome_map (map forget_structure) (build_group_structures gs).
Proof.
  induction gs as [|g gs IH]; [done|]. cbn [fmap list_fmap build_group_structures].
  assert (Hg : parse_module_readout_commands (forget_group g) = outcome_map forget_structure (parse_module_readout_commands g)).
  { unfold parse_module_readout_commands. cbn [forget_group g_commands g_meta g_name].
    match goal with |- context [parse_module_commands ?mes (mkMP Prefix ?p false) (forget_comment <$> _)] =>
      change (mkMP Prefix p false) with (forget_parse (mkMP Prefix (mkMRS 0 0 false EmptyString (g_commands g) (g_meta g) false) false)) end.
    rewrite parse_commands_forget. by destruct (parse_module_commands _ _ _). }
  rewrite Hg. destruct (parse_module_readout_commands g); [|done..]. cbn [mbind outcome_bind outcome_map]. rewrite IH.
  by destruct (build_group_structures gs).
Qed.

Lemma structure_forget (stacks : list StackCommandBuilder) :
  build_readout_structure (forget_builder <$> stacks) = outcome_map (map (map forget_structure)) (build_readout_structure stacks).
Proof.
  induction stacks as [|b stacks IH]; [done|]. cbn [fmap list_fmap build_readout_structure forget_builder m_groups]. rewrite group_structures_forget.
  destruct (build_group_structures (m_groups b)); [|done..]. cbn [mbind outcome_bind outcome_map]. rewrite IH. by destruct (build_readout_structure stacks).
Qed.

Definition forget_parser (s : ReadoutParserState) : ReadoutParserState := 
  mkState (lastBufferNumber s) (workBuffer s) (readoutDataSpans s) (moduleDataBuffer s) (map (map forget_structure) (readoutStructure s))
    (eventIndex s) (moduleIndex s) (groupParseState s) (curStackFrame s) (curBlockFrame s) (lastPacketNumber s).

Lemma make_parser_forget stacks st :
  make_readout_parser stacks = Return st → make_readout_parser (forget_builder <$> stacks) = Return (forget_parser st).
Proof.
  unfold make_readout_parser. rewrite structure_forget. destruct (build_readout_structure stacks) as [rs| |]; [|done..]. cbn [mbind outcome_bind outcome_map].
  assert (Hm : ∀ m, foldl (λ m g, Nat.max m (length g)) m (map (map forget_structure) rs) = foldl (λ m g, Nat.max m (length g)) m rs).
  { induction rs as [|g rs IH]; intros m; [done|]. cbn [map foldl]. by rewrite length_map, IH. }
  intros [= <-]. unfold forget_parser. cbn -[ensure_free_space]. by rewrite Hm.
Qed.

(** ** Text in listfiles *)

Lemma string_of_char_codes s : string_of_codes (char_codes s) = s.
Proof.
  unfold char_codes. induction s as [|c s IH]; [done|]. cbn. rewrite N2Z.id, ascii_N_embedding. f_equal. exact IH.
Qed.

Lemma char_codes_u8 s : Forall is_u8 (char_codes s).
Proof.
  unfold char_codes. induction s as [|c s IH]; cbn; [constructor|]. constructor; [|exact IH]. unfold is_u8.
  pose proof (N_ascii_bounded c). lia.
Qed.

Lemma char_codes_app s t : char_codes (s +:+ t)%string = char_codes s ++ char_codes t.
Proof.
  unfold char_codes. induction s as [|c s IH]; [done|]. change (String c s +:+ t)%string with (String c (s +:+ t)%string). cbn. f_equal. exact IH.
Qed.

Lemma char_codes_spaces k : char_codes (spaces k) = replicate k 32.
Proof. induction k as [|k IH]; [done|]. cbn. f_equal. exact IH. Qed.

(** The padded text is the text with spaces behind it. *)
Lemma padded_text s : ∃ k, string_of_codes (pad_text (char_codes s)) = (s +:+ spaces k)%string.
Proof.
  unfold pad_text. eexists. rewrite <- char_codes_spaces, <- char_codes_app. apply string_of_char_codes.
Qed.

Section Replay.
Context `{Yaml : YamlLibrary} {Laws : YamlLaws} {W : Type} {HW : WriteHandle W} {HWL : WriteHandleLaws W} {R : Type} {HR : ReadHandle R} {HRL : ReadHandleLaws R}.

(** C22: A listfile is replayed with the configuration of its readout.  Writing the preamble
    of a configuration, further system events and the begin of the run, and opening the file
    for replay, gives the configuration that was written, up to what the YAML text loses,
    and a parser in the state in which the parser of the readout started: the structure of
    the events and modules is the same, up to the comments of the commands.  The file is
    positioned behind its magic bytes, where the replay starts reading. *)
Theorem replay_opens_readout c n st extra now (w : W) :
  crate_ok c → crate_node c = Return n → representable n → make_readout_parser (cc_stacks c) = Return st →
  wh_ok w → wh_contents w = [] → Forall extra_ok extra →
  zlen (char_codes (yaml_emit n)) + 15 + contents_size extra ≤ PreambleReadMaxSize →
  ∃ w', write_begin yaml_bytes c extra now w = Done ((), w')
    ∧ ∀ (r : R) data fuel, rh_file r = wh_contents w' ++ data → zlen (wh_contents w') < 2 ^ 63 → (length (wh_contents w') < fuel)%nat →
      ∃ r', init_common fuel r = Done ((forget_crate c, forget_parser st), r') ∧ rh_file r' = rh_file r ∧ rh_pos r' = get_filemagic_len.
Proof.
  intros Hc Hn Hrep Hst Hw He Hx Hm. assert (Hy : yaml_bytes c = char_codes (yaml_emit n)) by (unfold yaml_bytes, crate_to_yaml; by rewrite Hn).
  assert (Hmax : PreambleReadMaxSize < 2 ^ 32) by (by vm_compute). assert (Hcs : 0 ≤ contents_size extra).
  { clear. induction extra as [|e l IH]; [done|]. cbn. fold (contents_size l). pose proof (zlen_nonneg e.2). lia. }
  destruct (preamble_read_back (R := R) yaml_bytes c extra now PreambleReadMaxSize w Hw He) as (w' & Hwr & H).
  { rewrite Hy. apply char_codes_u8. }
  { rewrite Hy. lia. }
  { done. }
  { rewrite Hy. lia. }
  exists w'. split; [done|]. intros r data fuel Hf Hl Hfu. destruct (H r data fuel Hf Hl Hfu) as (r' & Hr & Hcfg & Hrf & Hrp). exists r'. split; [|done].
  unfold init_common. rewrite (bind_Done_eq _ _ _ _ _ Hr). cbn [pre_magic].
  assert (Hmag : bool_decide (magic_of (cc_connectionType c) = get_filemagic_eth) || bool_decide (magic_of (cc_connectionType c) = get_filemagic_usb) = true)
    by (by destruct (cc_connectionType c)).
  rewrite Hmag. cbn [negb]. rewrite Hcfg. unfold contentsToString, config_event. cbn [se_contents]. rewrite Hy.
  destruct (padded_text (yaml_emit n)) as [k ->]. rewrite (crate_text_roundtrip c n k) by done.
  assert (Hp : make_readout_parser (cc_stacks (forget_crate c)) = Return (forget_parser st)) by (by apply make_parser_forget).
  unfold mbind, SM_bind, lift. by rewrite Hp.
Qed.

End Replay.

Lemma example_crate_ok : @crate_ok binary_yaml example_crate.
Proof.
  assert (Hb : @builder_ok binary_yaml empty_builder) by (split; [constructor|apply map_Forall_empty]).
  constructor; try apply Hb; cbn; [lia|constructor..].
Qed.

Lemma replay_opens_readout_witness :
  ∃ st (w' : list Z), make_readout_parser (cc_stacks example_crate) = Return st
    ∧ write_begin (@yaml_bytes binary_yaml) example_crate example_extra 1700000000 [] = Done ((), w')
    ∧ ∃ r', @init_common binary_yaml MemFile _ (S (length w')) (mkMemFile (w' ++ [0; 0; 0; 0xf3]) 3) = Done ((forget_crate example_crate, forget_parser st), r')
      ∧ rh_pos r' = get_filemagic_len.
Proof.
  destruct (@crate_roundtrip binary_yaml example_crate example_crate_ok) as (n & Hn & _). eexists.
  edestruct (@replay_opens_readout binary_yaml binary_yaml_laws (list Z) _ _ MemFile _ _ example_crate n) with (extra := example_extra) (now := 1700000000)
    (w := @nil Z) as (w' & Hw & H); [apply example_crate_ok|exact Hn|apply binary_representable|reflexivity|done|done| | |].
  - unfold extra_ok. repeat constructor; vm_compute; congruence.
  - assert (Hy : match @crate_node binary_yaml example_crate with Return n => zlen (char_codes (@yaml_emit binary_yaml n)) <? 1000000 | _ => false end = true)
      by (vm_compute; reflexivity). rewrite Hn in Hy. apply Z.ltb_lt in Hy. unfold PreambleReadMaxSize. change (contents_size example_extra) with 8. lia.
  - exists w'. split; [reflexivity|]. split; [exact Hw|].
    assert (Hl : match write_begin (@yaml_bytes binary_yaml) example_crate example_extra 1700000000 ([] : list Z) with Done (_, w) => zlen w <? 1000000 | _ => false end = true)
      by (vm_compute; reflexivity).
    rewrite Hw in Hl. apply Z.ltb_lt in Hl.
    destruct (H (mkMemFile (w' ++ [0; 0; 0; 0xf3]) 3) [0; 0; 0; 0xf3] (S (length w'))) as (r' & Hr & _ & Hp); [done| |cbn; lia|].
    + change (zlen w' < 2 ^ 63). lia.
    + exists r'. by split.
Defined.
