(* ===== verification/Zip.v ===== *)
(** * Archives: [mvlc_listfile_zip.h/.cc]

    Listfiles are written to and read from ZIP archives, plain or compressed with LZ4, in one
    archive or split into several ones by size or time.  The ZIP library (minizip) and the LZ4
    library are instances of [Minizip], [Lz4Compression] and [Lz4Decompression]; the state of the first contains the file
    system, the clock and the handles of one creator and one reader.  The numbers of library
    errors are left out of the messages of exceptions. *)

From Stdlib Require Import Ascii String.
From S2P Require Import Prelude Effects Text ReadoutBuffer Listfile.
Open Scope list_scope.

(** ** The libraries *)

Inductive Method : Type := STORE | DEFLATE.

(** Calls that return an error code return 0 on success; reads and writes return the number of
    bytes, or a negative error code. *)
Class Minizip (M : Type) : Type := {
  mz_os_file_exists : string → M → bool;
  mz_path_get_filename : string → option string;
  steady_now : M → Z;
  mz_stream_open : string → M → Z * M;
  mz_stream_is_open : M → bool;
  mz_stream_close : M → Z * M;
  mz_zip_writer_open : M → Z * M;
  mz_zip_writer_close : M → Z * M;
  mz_zip_writer_entry_open : string → Method → Z → M → Z * M;
  mz_zip_writer_entry_write : list Z → M → Z * M;
  mz_zip_writer_entry_close : M → Z * M;
  mz_stream_os_open : string → M → Z * M;
  mz_stream_os_close : M → Z * M;
  mz_zip_reader_open : M → Z * M;
  mz_zip_reader_close : M → Z * M;
  mz_zip_reader_goto_first_entry : M → Z * M;
  mz_zip_reader_goto_next_entry : M → Z * M;
  mz_zip_reader_entry_get_info : M → Z * (string * Z * Z) * M;
  mz_zip_reader_locate_entry : string → M → Z * M;
  mz_zip_reader_entry_open : M → Z * M;
  mz_zip_reader_entry_read : Z → M → Z * list Z * M;
  mz_zip_reader_entry_close : M → Z * M
}.

Definition MZ_END_OF_LIST : Z := -100.
Definition MZ_CRC_ERROR : Z := -105.

Inductive BlockSizeID : Type := LZ4F_default | LZ4F_max64KB | LZ4F_max256KB | LZ4F_max1MB | LZ4F_max4MB | LZ4F_other.

(** Contexts for compression and decompression.  The calls get the size of the output buffer
    and the input and return an error code, or the output; [LZ4F_getFrameInfo] and
    [LZ4F_decompress] also return how many bytes of the input they have used. *)
Class Lz4Compression (CC : Type) : Type := {
  LZ4F_createCompressionContext : Z * CC;
  LZ4F_compressBound : Z → Z → Z;
  LZ4F_compressBegin : Z → Z → CC → (Z + list Z) * CC;
  LZ4F_compressUpdate : Z → list Z → CC → (Z + list Z) * CC;
  LZ4F_compressEnd : Z → CC → (Z + list Z) * CC
}.
Class Lz4Decompression (DC : Type) : Type := {
  LZ4F_resetDecompressionContext : DC → DC;
  LZ4F_getFrameInfo : list Z → DC → (Z + BlockSizeID * Z) * DC;
  LZ4F_decompress : Z → list Z → DC → (Z + list Z * Z) * DC
}.

(** ** Data *)

(* mvlc_listfile_zip.h:15-15 Type *)
Inductive EntryType : Type := ZIP | LZ4.
#[global] Instance EntryType_eq_dec : EqDecision EntryType.
Proof. solve_decision. Defined.

(* mvlc_listfile_zip.h:13-42 ZipEntryInfo *)
Record ZipEntryInfo : Type := mkInfo {
  ei_type : EntryType;
  ei_name : string;
  ei_isOpen : bool;
  ei_bytesWritten : Z;
  ei_lz4Written : Z;
  ei_bytesRead : Z;
  ei_lz4Read : Z;
  ei_compressedSize : Z;
  ei_uncompressedSize : Z
}.
(* mvlc_listfile_zip.h:17-34 ZipEntryInfo *)
Definition no_entry : ZipEntryInfo := mkInfo ZIP "" false 0 0 0 0 0 0.
(* mvlc_listfile_zip.h:36-41 bytesWrittenToFile *)
Definition bytesWrittenToFile (i : ZipEntryInfo) : Z := match ei_type i with ZIP => ei_bytesWritten i | LZ4 => ei_lz4Written i end.

Definition new_entry (t : EntryType) (name : string) : ZipEntryInfo := mkInfo t name true 0 0 0 0 0 0.
(** The counters after [n] more bytes, and [z] more bytes after compression. *)
Definition wrote (n z : Z) (i : ZipEntryInfo) : ZipEntryInfo :=
  mkInfo (ei_type i) (ei_name i) (ei_isOpen i) (u64 (ei_bytesWritten i + n)) (u64 (ei_lz4Written i + z)) (ei_bytesRead i) (ei_lz4Read i)
    (ei_compressedSize i) (ei_uncompressedSize i).
Definition closed (i : ZipEntryInfo) : ZipEntryInfo :=
  mkInfo (ei_type i) (ei_name i) false (ei_bytesWritten i) (ei_lz4Written i) (ei_bytesRead i) (ei_lz4Read i) (ei_compressedSize i) (ei_uncompressedSize i).

(* mvlc_listfile_zip.h:44-48 OverwriteMode *)
Inductive OverwriteMode : Type := DontOverwrite | Overwrite.
(* mvlc_listfile_zip.h:110-110 ZipSplitMode *)
Inductive ZipSplitMode : Type := DontSplit | SplitBySize | SplitByTime.

(* mvlc_listfile_zip.cc:68-68 ChunkSize *)
Definition ChunkSize : Z := 1024 * 1024.

(** ** [ZipCreator] *)

Section Creator.
Context {M CC : Type} {HM : Minizip M} {HZ : Lz4Compression CC}.

(* mvlc_listfile_zip.cc:57-136 ZipCreator::Private *)
Record Creator : Type := mkCreator { cr_mz : M; cr_info : ZipEntryInfo; cr_lz4 : CC; cr_buffer : Z; cr_archive : string }.

Definition set_mz (m : M) (c : Creator) : Creator := mkCreator m (cr_info c) (cr_lz4 c) (cr_buffer c) (cr_archive c).
Definition set_info (i : ZipEntryInfo) : SM Creator () := λ c, Done ((), mkCreator (cr_mz c) i (cr_lz4 c) (cr_buffer c) (cr_archive c)).
Definition set_archive (name : string) : SM Creator () := λ c, Done ((), mkCreator (cr_mz c) (cr_info c) (cr_lz4 c) (cr_buffer c) name).
Definition set_lz4 (ctx : CC) (size : Z) : SM Creator () := λ c, Done ((), mkCreator (cr_mz c) (cr_info c) ctx size (cr_archive c)).
Definition count_written (n z : Z) : SM Creator () := λ c, set_info (wrote n z (cr_info c)) c.

Definition close_info : SM Creator () := λ c, set_info (closed (cr_info c)) c.

(** A library call whose error is thrown. *)
Definition call (name : string) (f : M → Z * M) : SM Creator () := λ c,
  let '(err, m) := f (cr_mz c) in if err =? 0 then Done ((), set_mz m c) else Raise (runtime_error name).

(* mvlc_listfile_zip.cc:192-192 ZipCreator::isOpen *)
Definition isOpen (c : Creator) : bool := mz_stream_is_open (cr_mz c).
(* mvlc_listfile_zip.cc:279-279 ZipCreator::hasOpenEntry *)
Definition hasOpenEntry (c : Creator) : bool := ei_isOpen (cr_info c).

(* mvlc_listfile_zip.cc:162-179 ZipCreator::createArchive *)
Definition createArchive (zipFilename : string) (mode : OverwriteMode) : SM Creator () :=
  opened ← get_state isOpen;
  if opened : bool then raise (runtime_error "ZipCreator has an open archive")
  else
    exists_ ← get_state (λ c, match mode with DontOverwrite => mz_os_file_exists zipFilename (cr_mz c) | Overwrite => false end);
    if exists_ : bool then raise (runtime_error "output archive file exists")
    else call "mz_stream_open" (mz_stream_open zipFilename);; call "mz_zip_writer_open" mz_zip_writer_open;; set_archive zipFilename.

(* mvlc_listfile_zip.cc:181-190 ZipCreator::closeArchive *)
Definition closeArchive : SM Creator () :=
  call "mz_zip_writer_close" mz_zip_writer_close;; call "mz_stream_close" mz_stream_close;; set_archive "".

(* mvlc_listfile_zip.cc:117-127 writeToCurrentZIPEntry *)
Definition writeToCurrentZIPEntry (data : list Z) : SM Creator Z := λ c,
  let '(bytesWritten, m) := mz_zip_writer_entry_write data (cr_mz c) in
  if bytesWritten <? 0 then Raise (runtime_error "mz_zip_writer_entry_write") else Done (bytesWritten, set_mz m c).

(* mvlc_listfile_zip.cc:196-227 ZipCreator::createZIPEntry *)
Definition createZIPEntry (entryName : string) (compressLevel : Z) : SM Creator () :=
  open ← get_state hasOpenEntry;
  if open : bool then raise (runtime_error "ZipCreator has open archive entry")
  else call "mz_zip_writer_entry_open" (mz_zip_writer_entry_open entryName DEFLATE compressLevel);; set_info (new_entry ZIP entryName).

(** Run an LZ4 call and keep its context. *)
Definition lz4_call (name : string) (f : CC → (Z + list Z) * CC) : SM Creator (list Z) := λ c,
  match f (cr_lz4 c) with
  | (inl _, _) => Raise (runtime_error name)
  | (inr out, ctx) => Done (out, mkCreator (cr_mz c) (cr_info c) ctx (cr_buffer c) (cr_archive c))
  end.

(* mvlc_listfile_zip.cc:82-90 begin *)
Definition lz4_begin (compressLevel : Z) : SM Creator () :=
  let '(err, ctx) := LZ4F_createCompressionContext in
  if negb (err =? 0) then raise (runtime_error "LZ4F_createCompressionContext")
  else set_lz4 ctx (LZ4F_compressBound ChunkSize compressLevel).

(* mvlc_listfile_zip.cc:229-277 ZipCreator::createLZ4Entry *)
Definition createLZ4Entry (entryName_ : string) (compressLevel : Z) : SM Creator () :=
  open ← get_state hasOpenEntry;
  if open : bool then raise (runtime_error "ZipCreator has open archive entry")
  else
    let entryName := (entryName_ +:+ ".lz4")%string in
    call "mz_zip_writer_entry_open" (mz_zip_writer_entry_open entryName STORE 0);;
    set_info (new_entry LZ4 entryName);;
    lz4_begin compressLevel;;
    size ← get_state cr_buffer;
    header ← lz4_call "LZ4F_compressBegin" (LZ4F_compressBegin compressLevel size);
    _ ← writeToCurrentZIPEntry header;
    count_written (zlen header) (zlen header).

(** The loop over the chunks of the input; one round per chunk. *)
(* mvlc_listfile_zip.cc:298-320 ZipCreator::writeToCurrentEntry *)
Fixpoint write_chunks (fuel : nat) (inputData : list Z) : SM Creator () :=
  match inputData with
  | [] => mret ()
  | _ =>
      match fuel with
      | O => hang
      | S fuel =>
          size ← get_state cr_buffer;
          let chunk := ztake (Z.min (zlen inputData) size) inputData in
          out ← lz4_call "LZ4F_compressUpdate" (LZ4F_compressUpdate size chunk);
          _ ← writeToCurrentZIPEntry out;
          count_written (zlen chunk) (zlen out);;
          write_chunks fuel (zdrop (zlen chunk) inputData)
      end
  end.

(* mvlc_listfile_zip.cc:283-325 ZipCreator::writeToCurrentEntry *)
Definition writeToCurrentEntry (inputData : list Z) : SM Creator Z :=
  info ← get_state cr_info;
  if negb (ei_isOpen info) then raise (runtime_error "ZipCreator has no open archive entry")
  else
    match ei_type info with
    | ZIP => bytesWritten ← writeToCurrentZIPEntry inputData; count_written bytesWritten 0;; mret bytesWritten
    | LZ4 => write_chunks (length inputData) inputData;; mret (zlen inputData)
    end.

(* mvlc_listfile_zip.cc:332-346 ZipCreator::closeCurrentEntry *)
Definition lz4_end : SM Creator () :=
  size ← get_state cr_buffer;
  out ← lz4_call "LZ4F_compressEnd" (LZ4F_compressEnd size);
  bytesWritten ← writeToCurrentZIPEntry out;
  count_written bytesWritten (zlen out).

(* mvlc_listfile_zip.cc:327-352 ZipCreator::closeCurrentEntry *)
Definition closeCurrentEntry : SM Creator () :=
  info ← get_state cr_info;
  if negb (ei_isOpen info) then raise (runtime_error "ZipCreator has no open archive entry")
  else
    (match ei_type info with LZ4 => lz4_end | ZIP => mret () end : SM Creator ());;
    call "mz_zip_writer_entry_close" mz_zip_writer_entry_close;;
    close_info.

End Creator.
Arguments Creator : clear implicits.

(** ** [SplitZipCreator] *)

(** [{:03d}] for numbers that are not negative *)
Definition dec3 (n : Z) : string := let ds := digits 64 10 n in chars (replicate (3 - length ds) 0 ++ ds).

Definition part_name (prefix : string) (n : Z) (extension : string) : string := (prefix +:+ "_part" +:+ dec3 n +:+ extension)%string.

(* mvlc_listfile_zip.h:123-150 SplitListfileSetup *)
Record Setup : Type := mkSetup {
  su_entryType : EntryType;
  su_compressLevel : Z;
  su_overwriteMode : OverwriteMode;
  su_splitMode : ZipSplitMode;
  su_splitSize : Z;
  su_splitTime : Z;
  su_filenamePrefix : string;
  su_preamble : list Z
}.

Section Split.
Context {M CC : Type} {HM : Minizip M} {HZ : Lz4Compression CC}.

(* mvlc_listfile_zip.cc:360-375 SplitZipCreator::Private *)
Record Split : Type := mkSplit {
  sp_zip : Creator M CC;
  sp_setup : Setup;
  sp_partIndex : Z;
  sp_isSplitEntry : bool;
  sp_partCreation : Z
}.

(** The callbacks of the setup, if they are set. *)
Context (openArchiveCallback closeArchiveCallback : option (SM Split ())).

Definition on_zip {A} (m : SM (Creator M CC) A) : SM Split A := λ s,
  match m (sp_zip s) with
  | Done (a, z) => Done (a, mkSplit z (sp_setup s) (sp_partIndex s) (sp_isSplitEntry s) (sp_partCreation s))
  | Raise e => Raise e
  | Hangs => Hangs
  | Broken => Broken
  end.
Definition set_setup (x : Setup) : SM Split () := λ s, Done ((), mkSplit (sp_zip s) x (sp_partIndex s) (sp_isSplitEntry s) (sp_partCreation s)).
Definition set_part (n : Z) : SM Split () := λ s, Done ((), mkSplit (sp_zip s) (sp_setup s) n (sp_isSplitEntry s) (sp_partCreation s)).
Definition set_split (b : bool) : SM Split () := λ s, Done ((), mkSplit (sp_zip s) (sp_setup s) (sp_partIndex s) b (sp_partCreation s)).
Definition set_created : SM Split () := λ s,
  Done ((), mkSplit (sp_zip s) (sp_setup s) (sp_partIndex s) (sp_isSplitEntry s) (steady_now (cr_mz (sp_zip s)))).
Definition callback (f : option (SM Split ())) : SM Split () := match f with Some f => f | None => mret () end.

(* mvlc_listfile_zip.cc:411-422 createNextArchive *)
Definition createNextArchive : SM Split () :=
  name ← get_state (λ s, part_name (su_filenamePrefix (sp_setup s)) (sp_partIndex s) ".zip");
  mode ← get_state (λ s, su_overwriteMode (sp_setup s));
  on_zip (createArchive name mode);; callback openArchiveCallback.

(* mvlc_listfile_zip.cc:388-409 SplitZipCreator::createArchive *)
Definition split_createArchive (setup : Setup) : SM Split () :=
  opened ← get_state (λ s, isOpen (sp_zip s));
  if opened : bool then raise (runtime_error "SplitZipCreator has an open archive")
  else
    set_setup setup;;
    match su_splitMode setup with
    | DontSplit => on_zip (createArchive (su_filenamePrefix setup +:+ ".zip") (su_overwriteMode setup));; callback openArchiveCallback
    | _ => set_part 1;; createNextArchive
    end.

(* mvlc_listfile_zip.cc:439-445 SplitZipCreator::createZIPEntry *)
Definition split_createZIPEntry (entryName : string) (compressLevel : Z) : SM Split () :=
  on_zip (createZIPEntry entryName compressLevel);; set_split false.
(* mvlc_listfile_zip.cc:447-453 SplitZipCreator::createLZ4Entry *)
Definition split_createLZ4Entry (entryName : string) (compressLevel : Z) : SM Split () :=
  on_zip (createLZ4Entry entryName compressLevel);; set_split false.

(* mvlc_listfile_zip.cc:528-528 SplitZipCreator::closeCurrentEntry *)
Definition split_closeCurrentEntry : SM Split () := on_zip closeCurrentEntry.

(* mvlc_listfile_zip.cc:424-433 SplitZipCreator::closeArchive *)
Definition split_closeArchive : SM Split () :=
  open ← get_state (λ s, hasOpenEntry (sp_zip s));
  (if open : bool then split_closeCurrentEntry else mret ());;
  callback closeArchiveCallback;;
  on_zip closeArchive.

(* filesystem.cc:21-29 basename *)
Definition basename (filepath : string) : string := default filepath (mz_path_get_filename filepath).

(* mvlc_listfile_zip.cc:463-468 SplitZipCreator::createListfileEntry *)
Definition member_name (s : Split) : string :=
  basename (match su_splitMode (sp_setup s) with
            | DontSplit => (su_filenamePrefix (sp_setup s) +:+ ".mvlclst")%string
            | _ => part_name (su_filenamePrefix (sp_setup s)) (sp_partIndex s) ".mvlclst"
            end).

Definition splits (mode : ZipSplitMode) : bool := match mode with DontSplit => false | _ => true end.

(* mvlc_listfile_zip.cc:455-494 SplitZipCreator::createListfileEntry *)
Definition createListfileEntry : SM Split () :=
  open ← get_state (λ s, hasOpenEntry (sp_zip s));
  if open : bool then raise (runtime_error "SplitZipCreator has open archive entry")
  else
    setup ← get_state sp_setup;
    name ← get_state member_name;
    on_zip (match su_entryType setup with
            | ZIP => createZIPEntry name (su_compressLevel setup)
            | LZ4 => createLZ4Entry name (su_compressLevel setup)
            end);;
    set_split (splits (su_splitMode setup));;
    set_created;;
    _ ← on_zip (writeToCurrentEntry (su_preamble setup));
    mret ().

(* mvlc_listfile_zip.cc:503-513 SplitZipCreator::writeToCurrentEntry *)
Definition needNewPart (s : Split) : bool :=
  match su_splitMode (sp_setup s) with
  | SplitBySize => bytesWrittenToFile (cr_info (sp_zip s)) >=? su_splitSize (sp_setup s)
  | SplitByTime => steady_now (cr_mz (sp_zip s)) - sp_partCreation s >=? su_splitTime (sp_setup s)
  | DontSplit => false
  end.

(* mvlc_listfile_zip.cc:515-523 SplitZipCreator::writeToCurrentEntry *)
Definition start_part : SM Split () :=
  split_closeArchive;;
  n ← get_state sp_partIndex;
  set_part (u64 (n + 1));;
  createNextArchive;;
  createListfileEntry.

(* mvlc_listfile_zip.cc:496-526 SplitZipCreator::writeToCurrentEntry *)
Definition split_writeToCurrentEntry (data : list Z) : SM Split Z :=
  split ← get_state sp_isSplitEntry;
  if negb split then on_zip (writeToCurrentEntry data)
  else
    need ← get_state needNewPart;
    (if need : bool then start_part else mret ());;
    on_zip (writeToCurrentEntry data).

(* mvlc_listfile_zip.cc:382-386 SplitZipCreator::~SplitZipCreator *)
Definition destroy_split : SM Split () :=
  opened ← get_state (λ s, isOpen (sp_zip s));
  if opened : bool then split_closeArchive else mret ().

(* mvlc_listfile_zip.cc:534-534 SplitZipCreator::isSplitEntry *)
Definition isSplitEntry (s : Split) : bool := if hasOpenEntry (sp_zip s) then sp_isSplitEntry s else false.

End Split.
Arguments Split : clear implicits.

(** ** [ZipReader] *)

(** [regex_search] with [.+\.mvlclst(\.lz4)?]: the text [.mvlclst] behind a character that is
    no line break. *)
Definition line_break (c : ascii) : bool := bool_decide (nat_of_ascii c ∈ [10; 13]%nat).
Fixpoint is_listfile_name (s : string) : bool :=
  match s with
  | EmptyString => false
  | String c rest => (negb (line_break c) && String.prefix ".mvlclst" rest) || is_listfile_name rest
  end.

(** The last [n] characters. *)
Definition str_suffix (n : nat) (s : string) : string := String.substring (String.length s - n) n s.

Section Reader.
Context {M DC : Type} {HM : Minizip M} {HZ : Lz4Decompression DC}.

(** [rd_capacity] is the size of the output buffer of the decompression, the views are the
    bytes not used yet. *)
(* mvlc_listfile_zip.cc:582-642 ZipReader::Private *)
Record Reader : Type := mkReader {
  rd_mz : M;
  rd_names : list string;
  rd_info : ZipEntryInfo;
  rd_ctx : DC;
  rd_capacity : Z;
  rd_compressed : list Z;
  rd_decompressed : list Z
}.

Definition rd_set_mz (m : M) (r : Reader) : Reader :=
  mkReader m (rd_names r) (rd_info r) (rd_ctx r) (rd_capacity r) (rd_compressed r) (rd_decompressed r).
Definition rd_set_names (names : list string) (r : Reader) : Reader :=
  mkReader (rd_mz r) names (rd_info r) (rd_ctx r) (rd_capacity r) (rd_compressed r) (rd_decompressed r).
Definition rd_set_info (i : ZipEntryInfo) (r : Reader) : Reader :=
  mkReader (rd_mz r) (rd_names r) i (rd_ctx r) (rd_capacity r) (rd_compressed r) (rd_decompressed r).
Definition rd_set_views (ctx : DC) (compressed decompressed : list Z) (r : Reader) : Reader :=
  mkReader (rd_mz r) (rd_names r) (rd_info r) ctx (rd_capacity r) compressed decompressed.
Definition rd_set_capacity (n : Z) (r : Reader) : Reader :=
  mkReader (rd_mz r) (rd_names r) (rd_info r) (rd_ctx r) n (rd_compressed r) (rd_decompressed r).
Definition update (f : Reader → Reader) : SM Reader () := λ r, Done ((), f r).

Definition rd_call (name : string) (f : M → Z * M) : SM Reader () := λ r,
  let '(err, m) := f (rd_mz r) in if err =? 0 then Done ((), rd_set_mz m r) else Raise (runtime_error name).
(** A call whose error code is looked at. *)
Definition rd_try (f : M → Z * M) : SM Reader Z := λ r, let '(err, m) := f (rd_mz r) in Done (err, rd_set_mz m r).
Definition rd_entry_info : SM Reader (string * Z * Z) := λ r,
  let '(err, info, m) := mz_zip_reader_entry_get_info (rd_mz r) in
  if err =? 0 then Done (info, rd_set_mz m r) else Raise (runtime_error "mz_zip_reader_entry_get_info").

(** The names of the entries from the current one on. *)
(* mvlc_listfile_zip.cc:693-711 ZipReader::openArchive *)
Fixpoint collect_names (fuel : nat) (names : list string) : SM Reader (list string) :=
  match fuel with
  | O => hang
  | S fuel =>
      '(filename, _, _) ← rd_entry_info;
      err ← rd_try mz_zip_reader_goto_next_entry;
      let names := names ++ [filename] in
      if err =? 0 then collect_names fuel names
      else if err =? MZ_END_OF_LIST then mret names
      else raise (runtime_error "mz_zip_reader_goto_next_entry")
  end.

(* mvlc_listfile_zip.cc:676-712 ZipReader::openArchive *)
Definition openArchive (fuel : nat) (archiveName : string) : SM Reader () :=
  rd_call "mz_stream_os_open" (mz_stream_os_open archiveName);;
  rd_call "mz_zip_reader_open" mz_zip_reader_open;;
  err ← rd_try mz_zip_reader_goto_first_entry;
  if negb (err =? 0) && negb (err =? MZ_END_OF_LIST) then raise (runtime_error "mz_zip_reader_goto_first_entry")
  else update (rd_set_names []);; names ← collect_names fuel []; update (rd_set_names names).

(* mvlc_listfile_zip.cc:714-723 ZipReader::closeArchive *)
Definition rd_closeArchive : SM Reader () :=
  rd_call "mz_zip_reader_close" mz_zip_reader_close;; rd_call "mz_stream_os_close" mz_stream_os_close;; update (rd_set_names []).

(* mvlc_listfile_zip.cc:619-630 readFromCurrentZipEntry *)
Definition readFromCurrentZipEntry (maxSize : Z) : SM Reader (list Z) := λ r,
  let '(res, bytes, m) := mz_zip_reader_entry_read maxSize (rd_mz r) in
  if res <? 0 then Raise (runtime_error "mz_zip_reader_entry_read") else Done (bytes, rd_set_mz m r).

(* mvlc_listfile_zip.cc:730-747 get_block_size *)
Definition get_block_size (id : BlockSizeID) : outcome Z :=
  match id with
  | LZ4F_default | LZ4F_max64KB => Return (1 ≪ 16)
  | LZ4F_max256KB => Return (1 ≪ 18)
  | LZ4F_max1MB => Return (1 ≪ 20)
  | LZ4F_max4MB => Return (1 ≪ 22)
  | LZ4F_other => Throw (runtime_error "impossible LZ4 block size with current frame specification (<=v1.6.1)")
  end.

Definition entry_type_of (name : string) : EntryType :=
  if (4 <=? String.length name)%nat && (str_suffix 4 name =? ".lz4")%string then LZ4 else ZIP.

(** The first bytes of an LZ4 entry: the header of the frame. *)
(* mvlc_listfile_zip.cc:780-825 ZipReader::openEntry *)
Definition open_lz4 : SM Reader () :=
  bytes ← readFromCurrentZipEntry ChunkSize;
  info ← get_state rd_info;
  update (rd_set_info (mkInfo (ei_type info) (ei_name info) (ei_isOpen info) (ei_bytesWritten info) (ei_lz4Written info) (ei_bytesRead info)
                         (u64 (ei_lz4Read info + zlen bytes)) (ei_compressedSize info) (ei_uncompressedSize info)));;
  if zlen bytes =? 0 then raise (runtime_error "ZipReader::openEntry: not enough data to initialise LZ4 decompression")
  else
    ctx ← get_state rd_ctx;
    match LZ4F_getFrameInfo bytes ctx with
    | (inl _, _) => raise (runtime_error "LZ4F_getFrameInfo")
    | (inr (blockSizeID, bytesConsumed), ctx) =>
        update (rd_set_views ctx (zdrop bytesConsumed bytes) []);;
        dstCapacity ← lift (get_block_size blockSizeID);
        update (rd_set_capacity dstCapacity)
    end.

(* mvlc_listfile_zip.cc:751-832 ZipReader::openEntry *)
Definition openEntry (name : string) : SM Reader () :=
  rd_call "mz_zip_reader_locate_entry" (mz_zip_reader_locate_entry name);;
  rd_call "mz_zip_reader_entry_open" mz_zip_reader_entry_open;;
  '(_, compressed, uncompressed) ← rd_entry_info;
  update (λ r, rd_set_views (LZ4F_resetDecompressionContext (rd_ctx r)) [] [] r);;
  update (rd_set_info (mkInfo (entry_type_of name) name false 0 0 0 0 compressed uncompressed));;
  (match entry_type_of name with LZ4 => open_lz4 | ZIP => mret () end : SM Reader ());;
  info ← get_state rd_info;
  update (rd_set_info (mkInfo (ei_type info) (ei_name info) true (ei_bytesWritten info) (ei_lz4Written info) (ei_bytesRead info)
                         (ei_lz4Read info) (ei_compressedSize info) (ei_uncompressedSize info))).

(* mvlc_listfile_zip.cc:836-842 ZipReader::closeCurrentEntry *)
Definition rd_closeCurrentEntry : SM Reader () :=
  err ← rd_try mz_zip_reader_entry_close;
  if negb (err =? 0) && negb (err =? MZ_CRC_ERROR) then raise (runtime_error "mz_zip_reader_entry_close") else mret ().

(** More decompressed data, or the end of the entry. *)
(* mvlc_listfile_zip.cc:862-905 ZipReader::readCurrentEntry *)
Definition decompress_more : SM Reader bool :=
  view ← get_state rd_compressed;
  compressed ← (match view with [] => readFromCurrentZipEntry ChunkSize | _ => mret view end : SM Reader (list Z));
  ctx ← get_state rd_ctx;
  update (rd_set_views ctx compressed []);;
  match compressed with
  | [] => mret false
  | _ =>
      size ← get_state rd_capacity;
      match LZ4F_decompress size compressed ctx with
      | (inl _, _) => raise (runtime_error "LZ4F_decompress")
      | (inr (out, used), ctx) => update (rd_set_views ctx (zdrop used compressed) out);; mret true
      end
  end.

(* mvlc_listfile_zip.cc:854-929 ZipReader::readCurrentEntry *)
Fixpoint read_lz4 (fuel : nat) (maxSize : Z) (dest : list Z) : SM Reader (list Z) :=
  if maxSize - zlen dest >? 0 then
    match fuel with
    | O => hang
    | S fuel =>
        view ← get_state rd_decompressed;
        more ← (match view with [] => decompress_more | _ => mret true end : SM Reader bool);
        if negb more then mret dest
        else
          view ← get_state rd_decompressed;
          let toCopy := Z.min (zlen view) (maxSize - zlen dest) in
          update (λ r, rd_set_views (rd_ctx r) (rd_compressed r) (zdrop toCopy view) r);;
          read_lz4 fuel maxSize (dest ++ ztake toCopy view)
    end
  else mret dest.

(* mvlc_listfile_zip.cc:844-935 ZipReader::readCurrentEntry *)
Definition readCurrentEntry (fuel : nat) (maxSize : Z) : SM Reader (list Z) :=
  type ← get_state (λ r, ei_type (rd_info r));
  match type with ZIP => readFromCurrentZipEntry maxSize | LZ4 => read_lz4 fuel maxSize [] end.

(* mvlc_listfile_zip.cc:571-577 ZipReadHandle::seek *)
Fixpoint skip_bytes (fuel fuel' : nat) (pos total : Z) : SM Reader Z :=
  if total <? pos then
    match fuel with
    | O => hang
    | S fuel =>
        bytes ← readCurrentEntry fuel' (Z.min ChunkSize (pos - total));
        let total := total + zlen bytes in
        if zlen bytes =? 0 then mret total else skip_bytes fuel fuel' pos total
    end
  else mret total.

(* mvlc_listfile_zip.cc:561-580 ZipReadHandle::seek *)
Definition seek (fuel : nat) (pos : Z) : SM Reader Z :=
  currentName ← get_state (λ r, ei_name (rd_info r));
  rd_closeCurrentEntry;;
  openEntry currentName;;
  skip_bytes fuel fuel pos 0.

(* mvlc_listfile_zip.cc:941-953 ZipReader::firstListfileEntryName *)
Definition firstListfileEntryName (r : Reader) : string :=
  default ""%string (head (filter (λ name, is_listfile_name name = true) (rd_names r))).

(** [read_magic_str] on the handle of the current entry. *)
(* mvlc_listfile.h:93-110 read_magic_str *)
Definition read_magic_str (fuel : nat) : SM Reader (list Z) :=
  _ ← seek fuel 0;
  bytes ← readCurrentEntry fuel get_filemagic_len;
  mret (write_bytes 0 bytes (replicate (Z.to_nat get_filemagic_len) 0)).

End Reader.
Arguments Reader : clear implicits.

(** ** [SplitZipReader] *)

(** The digits at the end of a string, given as the list of its characters from the back. *)
Definition is_dec (c : ascii) : bool := (48 <=? nat_of_ascii c)%nat && (nat_of_ascii c <=? 57)%nat.
Fixpoint span_digits (cs : list ascii) : list ascii * list ascii :=
  match cs with
  | c :: rest => if is_dec c then let '(ds, others) := span_digits rest in (c :: ds, others) else ([], cs)
  | [] => ([], [])
  end.
(** The list without a prefix. *)
Fixpoint strip (p l : list ascii) : option (list ascii) :=
  match p, l with
  | [], _ => Some l
  | c :: p, d :: l => if bool_decide (c = d) then strip p l else None
  | _, [] => None
  end.

(** The parts of a name that matches [^(.+)_part([0-9]+)\.zip]: the match is unique, since the
    character in front of the digits is none. *)
Definition split_name (name : string) : option (string * string) :=
  match strip (rev (String.list_ascii_of_string ".zip")) (rev (String.list_ascii_of_string name)) with
  | None => None
  | Some cs =>
      let '(ds, others) := span_digits cs in
      match ds, strip (rev (String.list_ascii_of_string "_part")) others with
      | _ :: _, Some (c :: p) =>
          if existsb line_break (c :: p) then None
          else Some (String.string_of_list_ascii (rev (c :: p)), String.string_of_list_ascii (rev ds))
      | _, _ => None
      end
  end.

(** The conversion of the number is undefined if it does not fit. *)
(* mvlc_listfile_zip.cc:957-972 next_archive_name *)
Definition next_archive_name (currentArchiveName : string) : outcome string :=
  match split_name currentArchiveName with
  | None => Return ""%string
  | Some (partPrefix, partNumStr) =>
      let partNumber := parse_digits 10 0 partNumStr in
      if partNumber + 1 <? 2 ^ 63 then Return (part_name partPrefix (partNumber + 1) ".zip") else Undefined
  end.

Section SplitReader.
Context {M DC : Type} {HM : Minizip M} {HZ : Lz4Decompression DC}.

(* mvlc_listfile_zip.cc:981-1006 SplitZipReader::Private *)
Record SplitReader : Type := mkSplitReader {
  sr_zip : Reader M DC;
  sr_isSplitEntry : bool;
  sr_firstArchive : string;
  sr_currentArchive : string
}.

(** The callback for changed archives gets the reader; it is taken to only look at it. *)
Definition on_reader {A} (m : SM (Reader M DC) A) : SM SplitReader A := λ s,
  match m (sr_zip s) with
  | Done (a, r) => Done (a, mkSplitReader r (sr_isSplitEntry s) (sr_firstArchive s) (sr_currentArchive s))
  | Raise e => Raise e
  | Hangs => Hangs
  | Broken => Broken
  end.
Definition sr_update (f : SplitReader → SplitReader) : SM SplitReader () := λ s, Done ((), f s).
Definition set_archives (first current : string) (s : SplitReader) : SplitReader := mkSplitReader (sr_zip s) (sr_isSplitEntry s) first current.
Definition set_sr_split (b : bool) (s : SplitReader) : SplitReader := mkSplitReader (sr_zip s) b (sr_firstArchive s) (sr_currentArchive s).

(** The rounds of the loops. *)
Context (fuel : nat).

(* mvlc_listfile_zip.cc:1015-1022 SplitZipReader::openArchive *)
Definition split_openArchive (archiveName : string) : SM SplitReader () :=
  on_reader (openArchive fuel archiveName);; sr_update (set_archives archiveName archiveName).

(* mvlc_listfile_zip.cc:1028-1032 SplitZipReader::openEntry *)
Definition split_openEntry (name : string) : SM SplitReader () := sr_update (set_sr_split false);; on_reader (openEntry name).

(* mvlc_listfile_zip.cc:1036-1040 SplitZipReader::closeCurrentEntry *)
Definition split_rd_closeCurrentEntry : SM SplitReader () := on_reader rd_closeCurrentEntry;; sr_update (set_sr_split false).

(* mvlc_listfile_zip.cc:1093-1099 SplitZipReader::openFirstListfileEntry *)
Definition openFirstListfileEntry : SM SplitReader () :=
  name ← get_state (λ s, firstListfileEntryName (sr_zip s));
  on_reader (openEntry name);; sr_update (set_sr_split true).

(** Close the archive, open the next one and read past the magic bytes of its listfile. *)
(* mvlc_listfile_zip.cc:1062-1077 SplitZipReader::readCurrentEntry *)
Definition change_archive (nextArchiveName : string) : SM SplitReader () :=
  on_reader rd_closeArchive;;
  on_reader (openArchive fuel nextArchiveName);;
  sr_update (λ s, set_archives (sr_firstArchive s) nextArchiveName s);;
  name ← get_state (λ s, firstListfileEntryName (sr_zip s));
  on_reader (openEntry name);;
  _ ← on_reader (read_magic_str fuel);
  mret ().

(* mvlc_listfile_zip.cc:1049-1079 SplitZipReader::readCurrentEntry *)
Fixpoint read_parts (rounds : nat) (maxSize : Z) (dest : list Z) : SM SplitReader (list Z) :=
  if zlen dest <? maxSize then
    match rounds with
    | O => hang
    | S rounds =>
        bytes ← on_reader (readCurrentEntry fuel (maxSize - zlen dest));
        if zlen bytes =? 0 then
          current ← get_state sr_currentArchive;
          nextArchiveName ← lift (next_archive_name current);
          there ← get_state (λ s, mz_os_file_exists nextArchiveName (rd_mz (sr_zip s)));
          if negb there then mret dest
          else change_archive nextArchiveName;; read_parts rounds maxSize dest
        else read_parts rounds maxSize (dest ++ bytes)
    end
  else mret dest.

(* mvlc_listfile_zip.cc:1042-1082 SplitZipReader::readCurrentEntry *)
Definition split_readCurrentEntry (maxSize : Z) : SM SplitReader (list Z) :=
  split ← get_state sr_isSplitEntry;
  if negb split then on_reader (readCurrentEntry fuel maxSize) else read_parts fuel maxSize [].

(* mvlc_listfile_zip.cc:1120-1127 SplitZipReader::seek *)
Fixpoint seek_loop (rounds : nat) (pos total : Z) : SM SplitReader Z :=
  if total <? pos then
    match rounds with
    | O => hang
    | S rounds =>
        bytesRead ← on_reader (seek fuel (pos - total));
        let total := total + bytesRead in
        if bytesRead =? 0 then mret total else seek_loop rounds pos total
    end
  else mret total.

(* mvlc_listfile_zip.cc:1106-1114 SplitZipReader::seek *)
Definition back_to_first : SM SplitReader () :=
  first ← get_state sr_firstArchive;
  current ← get_state sr_currentArchive;
  if (current =? first)%string then mret ()
  else on_reader rd_closeArchive;; on_reader (openArchive fuel first);; sr_update (set_archives first first).

(* mvlc_listfile_zip.cc:1101-1130 SplitZipReader::seek *)
Definition split_seek (pos : Z) : SM SplitReader Z :=
  split ← get_state sr_isSplitEntry;
  if negb split then on_reader (seek fuel pos)
  else
    back_to_first;;
    on_reader rd_closeCurrentEntry;;
    name ← get_state (λ s, firstListfileEntryName (sr_zip s));
    on_reader (openEntry name);;
    seek_loop fuel pos 0.

End SplitReader.
Arguments SplitReader : clear implicits.
