(* ===== verification/ZipNames.v ===== *)
(** * Names of archives and their members

    The names of the parts of a split listfile: [next_archive_name] goes from each part to the
    next one, the names of different parts differ, and the names of the members are recognised
    as listfiles and tell the type of the entry. *)

From Stdlib Require Import Ascii String.
From S2P Require Import Prelude Effects Text ReadoutBuffer Listfile Zip.
Open Scope list_scope.

Abbreviation los := String.list_ascii_of_string.

Lemma str_app_cons c (a b : string) : (String c a +:+ b = String c (a +:+ b))%string.
Proof. done. Qed.
Lemma los_app a b : los (a +:+ b) = los a ++ los b.
Proof. induction a as [|c a IH]; [done|]. rewrite str_app_cons. cbn [los app]. by rewrite IH. Qed.
Lemma sol_los s : String.string_of_list_ascii (los s) = s.
Proof. apply String.string_of_list_ascii_of_string. Qed.
Lemma str_app_assoc (a b c : string) : ((a +:+ b) +:+ c = a +:+ (b +:+ c))%string.
Proof. induction a as [|x a IH]; [done|]. by rewrite !str_app_cons, IH. Qed.
Lemma str_app_length (a b : string) : String.length (a +:+ b) = (String.length a + String.length b)%nat.
Proof. induction a as [|x a IH]; [done|]. rewrite str_app_cons. cbn [String.length]. by rewrite IH. Qed.

(** ** Part numbers *)

Lemma dec3_digits n : 0 ≤ n < 2 ^ 64 →
  ∃ ds, dec3 n = chars ds ∧ ds ≠ [] ∧ Forall (λ d, 0 ≤ d < 10) ds ∧ foldl (λ a d, a * 10 + d) 0 ds = n.
Proof.
  intros Hn. exists (replicate (3 - length (digits 64 10 n)) 0 ++ digits 64 10 n). split; [done|]. split_and!.
  - intros [_ H]%app_eq_nil. by apply (digits_not_nil 64 10 n) in H; [|lia].
  - apply Forall_app; split; [apply Forall_replicate; lia|apply digits_range; lia].
  - rewrite foldl_zeros. apply digits_value; lia.
Qed.

Lemma parse_dec3 n : 0 ≤ n < 2 ^ 64 → parse_digits 10 0 (dec3 n) = n.
Proof. intros Hn. destruct (dec3_digits n Hn) as (ds & -> & _ & Hd & Hv). by rewrite parse_chars. Qed.

Lemma los_chars ds : los (chars ds) = digit_char <$> ds.
Proof. induction ds as [|d ds IH]; [done|]. cbn. by f_equal. Qed.

(** What holds of the ten digits. *)
Lemma decimal_digit (f : ascii → bool) d : 0 ≤ d < 10 → forallb f (los "0123456789") = true → f (digit_char d) = true.
Proof.
  intros Hd Hf. rewrite forallb_forall in Hf. apply Hf, list_elem_of_In.
  assert (d = 0 ∨ d = 1 ∨ d = 2 ∨ d = 3 ∨ d = 4 ∨ d = 5 ∨ d = 6 ∨ d = 7 ∨ d = 8 ∨ d = 9) as Hc by lia.
  destruct_or! Hc; subst d; apply (bool_decide_unpack _); by vm_compute.
Qed.

Lemma is_dec_digit d : 0 ≤ d < 10 → is_dec (digit_char d) = true.
Proof. intros H. by apply decimal_digit. Qed.

Lemma span_digits_app ds c rest :
  Forall (λ x, is_dec x = true) ds → is_dec c = false → span_digits (ds ++ c :: rest) = (ds, c :: rest).
Proof. intros H Hc. induction H as [|d ds Hd _ IH]; cbn; [by rewrite Hc|]. by rewrite Hd, IH. Qed.

Lemma strip_app p l : strip p (p ++ l) = Some l.
Proof. induction p as [|c p IH]; cbn; [by destruct l|]. by rewrite bool_decide_eq_true_2. Qed.

(** ** Archives *)

(** The prefixes of file names that the names of parts can be taken apart from. *)
Definition good_prefix (p : string) : bool := negb (p =? "")%string && negb (existsb line_break (los p)).

Lemma existsb_rev {A} (f : A → bool) l : existsb f (rev l) = existsb f l.
Proof. induction l as [|x l IH]; [done|]. cbn. rewrite existsb_app, IH. cbn. by destruct (f x), (existsb f l). Qed.

Lemma split_name_part p n : good_prefix p = true → 0 ≤ n < 2 ^ 64 → split_name (part_name p n ".zip") = Some (p, dec3 n).
Proof.
  intros [Hp Hb]%andb_true_iff Hn. apply negb_true_iff in Hp, Hb. apply String.eqb_neq in Hp. destruct (dec3_digits n Hn) as (ds & Hds & Hne & Hd & _).
  unfold split_name, part_name. rewrite !los_app, !rev_app_distr, <- !app_assoc, strip_app, Hds, los_chars.
  change (rev (los "_part")) with ("t"%char :: rev (los "_par")). cbn [app]. rewrite span_digits_app.
  2:{ apply Forall_rev, Forall_fmap. eapply Forall_impl; [exact Hd|]. intros d. apply is_dec_digit. }
  2:{ done. }
  destruct (rev (digit_char <$> ds)) as [|x xs] eqn:Er.
  { apply (f_equal (@rev _)) in Er. rewrite rev_involutive in Er. by destruct ds. }
  change ("t"%char :: rev (los "_par") ++ rev (los p)) with (("t"%char :: rev (los "_par")) ++ rev (los p)). rewrite strip_app.
  rewrite <- Er. destruct (rev (los p)) as [|c cs] eqn:Ep.
  { apply (f_equal (@rev _)) in Ep. rewrite rev_involutive in Ep. by destruct p. }
  rewrite <- Ep, existsb_rev, Hb, !rev_involutive, sol_los. by rewrite <- los_chars, sol_los.
Qed.

Lemma next_part p n : good_prefix p = true → 0 ≤ n → n + 1 < 2 ^ 63 → next_archive_name (part_name p n ".zip") = Return (part_name p (n + 1) ".zip").
Proof. intros Hp Hn Hb. unfold next_archive_name. rewrite split_name_part, parse_dec3 by lia || done. destruct (Z.ltb_spec (n + 1) (2 ^ 63)); [done|lia]. Qed.

Lemma part_name_inj p n k : good_prefix p = true → 0 ≤ n < 2 ^ 64 → 0 ≤ k < 2 ^ 64 → part_name p n ".zip" = part_name p k ".zip" → n = k.
Proof.
  intros Hp Hn Hk H. apply (f_equal split_name) in H. rewrite !split_name_part in H by done. injection H as H.
  by rewrite <- (parse_dec3 n), <- (parse_dec3 k), H by done.
Qed.

(** ** Members *)

Lemma listfile_name_app a b : is_listfile_name b = true → is_listfile_name (a +:+ b) = true.
Proof. intros H. induction a as [|c a IH]; [done|]. rewrite str_app_cons. cbn [is_listfile_name]. by rewrite IH, orb_true_r. Qed.

Lemma prefix_app a b : String.prefix a (a +:+ b) = true.
Proof. induction a as [|c a IH]; [by destruct b|]. rewrite str_app_cons. cbn [String.prefix]. by destruct (ascii_dec c c). Qed.

Lemma digit_no_break d : 0 ≤ d < 10 → line_break (digit_char d) = false.
Proof. intros H. apply negb_true_iff. by apply (decimal_digit (λ c, negb (line_break c))). Qed.

Lemma chars_listfile ds tail : ds ≠ [] → Forall (λ d, 0 ≤ d < 10) ds → is_listfile_name (chars ds +:+ (".mvlclst" +:+ tail)) = true.
Proof.
  intros Hne Hd. induction Hd as [|d ds Hd Hds IH]; [done|]. unfold chars. cbn [foldr]. fold (chars ds). rewrite str_app_cons. cbn [is_listfile_name].
  destruct ds as [|d' ds].
  - rewrite digit_no_break by done. change (chars [] +:+ (".mvlclst" +:+ tail))%string with (".mvlclst" +:+ tail)%string. by rewrite prefix_app.
  - by rewrite IH, orb_true_r.
Qed.

Lemma str_drop (a b : string) : String.substring (String.length a) (String.length b) (a +:+ b) = b.
Proof.
  induction a as [|c a IH]; [|by rewrite str_app_cons]. change ("" +:+ b)%string with b. cbn [String.length]. induction b as [|c b IH]; [done|]. cbn. by rewrite IH.
Qed.

Lemma suffix_app a b : str_suffix (String.length b) (a +:+ b) = b.
Proof. unfold str_suffix. rewrite str_app_length. replace (String.length a + String.length b - String.length b)%nat with (String.length a) by lia. apply str_drop. Qed.

Lemma entry_type_lz4 a : entry_type_of (a +:+ ".lz4") = LZ4.
Proof. unfold entry_type_of. change 4%nat with (String.length ".lz4") at 2. rewrite suffix_app, str_app_length, (proj2 (Nat.leb_le 4 _)) by (cbn; lia). done. Qed.

Lemma entry_type_plain a : entry_type_of (a +:+ ".mvlclst") = ZIP.
Proof.
  unfold entry_type_of. change ".mvlclst"%string with (".mvl" +:+ "clst")%string. change 4%nat with (String.length "clst") at 2.
  rewrite <- str_app_assoc, suffix_app. by rewrite andb_false_r.
Qed.
