(* ===== verification/ZipLaws.v ===== *)
(** * What the archive libraries promise

    [MinizipLaws]: the state of the ZIP library seen as finished archives, lists of named
    entries, with at most one archive being written and one being read.  [Lz4Laws]: what was
    compressed to a frame is decompressed again, in whatever pieces the frame is given to the
    decompression. *)

From Stdlib Require Import Ascii String.
From S2P Require Import Prelude Effects Text ReadoutBuffer Listfile Zip.
Open Scope list_scope.

(** ** Archives *)

Abbreviation Archive := (list (string * list Z)).

(** The stream of the file is open, or also the archive, with its finished entries and the
    one that is being written. *)
Inductive WState : Type :=
| WClosed
| WStream (name : string)
| WOpen (name : string) (entries : Archive) (entry : option (string * list Z)).

(** The archive that is read, the current entry and, if it is open, what is left of it. *)
Inductive RState : Type :=
| RClosed
| RStream (entries : Archive)
| ROpen (entries : Archive) (current : nat) (rest : option (list Z)).

Record ZState : Type := mkZState { zs_files : gmap string Archive; zs_writer : WState; zs_reader : RState }.

(** The separators of paths. *)
Definition separator (c : ascii) : bool := bool_decide (c = "/"%char) || bool_decide (c = "\"%char).
Definition no_separator (s : string) : bool := forallb (λ c, negb (separator c)) (String.list_ascii_of_string s).

Class MinizipLaws (M : Type) {HM : Minizip M} : Type := {
  zs : M → ZState;
  filename_law a b : no_separator b = true → b ≠ ""%string → ∃ c, mz_path_get_filename (a +:+ b) = Some (c +:+ b)%string;
  exists_law n m : mz_os_file_exists n m = bool_decide (is_Some (zs_files (zs m) !! n));
  is_open_law m : mz_stream_is_open m = match zs_writer (zs m) with WClosed => false | _ => true end;
  stream_open_law n m f r : zs m = mkZState f WClosed r →
    ∃ m', mz_stream_open n m = (0, m') ∧ zs m' = mkZState (<[n := []]> f) (WStream n) r;
  writer_open_law n m f r : zs m = mkZState f (WStream n) r →
    ∃ m', mz_zip_writer_open m = (0, m') ∧ zs m' = mkZState f (WOpen n [] None) r;
  entry_open_law n es e method level m f r : zs m = mkZState f (WOpen n es None) r →
    ∃ m', mz_zip_writer_entry_open e method level m = (0, m') ∧ zs m' = mkZState f (WOpen n es (Some (e, []))) r;
  entry_write_law n es e c data m f r : zs m = mkZState f (WOpen n es (Some (e, c))) r →
    ∃ m', mz_zip_writer_entry_write data m = (zlen data, m') ∧ zs m' = mkZState f (WOpen n es (Some (e, c ++ data))) r;
  entry_close_law n es e c m f r : zs m = mkZState f (WOpen n es (Some (e, c))) r →
    ∃ m', mz_zip_writer_entry_close m = (0, m') ∧ zs m' = mkZState f (WOpen n (es ++ [(e, c)]) None) r;
  writer_close_law n es m f r : zs m = mkZState f (WOpen n es None) r →
    ∃ m', mz_zip_writer_close m = (0, m') ∧ zs m' = mkZState (<[n := es]> f) (WStream n) r;
  stream_close_law n m f r : zs m = mkZState f (WStream n) r →
    ∃ m', mz_stream_close m = (0, m') ∧ zs m' = mkZState f WClosed r;
  os_open_law n es m f w : zs m = mkZState f w RClosed → f !! n = Some es →
    ∃ m', mz_stream_os_open n m = (0, m') ∧ zs m' = mkZState f w (RStream es);
  os_close_law es m f w : zs m = mkZState f w (RStream es) →
    ∃ m', mz_stream_os_close m = (0, m') ∧ zs m' = mkZState f w RClosed;
  reader_open_law es m f w : zs m = mkZState f w (RStream es) →
    ∃ m', mz_zip_reader_open m = (0, m') ∧ zs m' = mkZState f w (ROpen es 0 None);
  reader_close_law es i rest m f w : zs m = mkZState f w (ROpen es i rest) →
    ∃ m', mz_zip_reader_close m = (0, m') ∧ zs m' = mkZState f w (RStream es);
  first_law es i m f w : zs m = mkZState f w (ROpen es i None) → es ≠ [] →
    ∃ m', mz_zip_reader_goto_first_entry m = (0, m') ∧ zs m' = mkZState f w (ROpen es 0 None);
  next_law es i m f w : zs m = mkZState f w (ROpen es i None) →
    ∃ m', mz_zip_reader_goto_next_entry m = (if (S i <? length es)%nat then 0 else MZ_END_OF_LIST, m')
      ∧ zs m' = mkZState f w (ROpen es (if (S i <? length es)%nat then S i else i) None);
  info_law es i rest e c m f w : zs m = mkZState f w (ROpen es i rest) → es !! i = Some (e, c) →
    ∃ z m', mz_zip_reader_entry_get_info m = (0, (e, z, zlen c), m') ∧ zs m' = zs m;
  locate_law pre e c post i m f w : zs m = mkZState f w (ROpen (pre ++ (e, c) :: post) i None) → e ∉ pre.*1 →
    ∃ m', mz_zip_reader_locate_entry e m = (0, m') ∧ zs m' = mkZState f w (ROpen (pre ++ (e, c) :: post) (length pre) None);
  rd_entry_open_law es i e c m f w : zs m = mkZState f w (ROpen es i None) → es !! i = Some (e, c) →
    ∃ m', mz_zip_reader_entry_open m = (0, m') ∧ zs m' = mkZState f w (ROpen es i (Some c));
  entry_read_law es i rest n m f w : zs m = mkZState f w (ROpen es i (Some rest)) → 0 ≤ n →
    ∃ m', mz_zip_reader_entry_read n m = (zlen (ztake n rest), ztake n rest, m') ∧ zs m' = mkZState f w (ROpen es i (Some (zdrop n rest)));
  rd_entry_close_law es i rest m f w : zs m = mkZState f w (ROpen es i (Some rest)) →
    ∃ err m', mz_zip_reader_entry_close m = (err, m') ∧ (err = 0 ∨ err = MZ_CRC_ERROR) ∧ zs m' = mkZState f w (ROpen es i None)
}.

(** ** LZ4 frames *)

(** [cc_sofar ctx level out plain]: the context has turned [plain] into [out] so far.
    [dc_rest ctx comp plain]: from the rest [comp] of a frame the context makes [plain].  A call
    succeeds if the output buffer has the size that [LZ4F_compressBound] asks for. *)
Class Lz4Laws (CC DC : Type) {HC : Lz4Compression CC} {HD : Lz4Decompression DC} : Type := {
  cc_sofar : CC → Z → list Z → list Z → Prop;
  is_frame : list Z → list Z → Prop;
  dc_rest : DC → list Z → list Z → Prop;
  compress_bound_mono n n' level : 0 ≤ n ≤ n' → LZ4F_compressBound n level ≤ LZ4F_compressBound n' level;
  compress_bound_room n level : 0 ≤ n → n ≤ LZ4F_compressBound n level;
  create_law : LZ4F_createCompressionContext.1 = 0;
  begin_law level size : LZ4F_compressBound 0 level ≤ size →
    ∃ header ctx, LZ4F_compressBegin level size LZ4F_createCompressionContext.2 = (inr header, ctx) ∧ cc_sofar ctx level header [];
  compress_law ctx level out plain data size :
    cc_sofar ctx level out plain → data ≠ [] → LZ4F_compressBound (zlen data) level ≤ size →
    ∃ more ctx', LZ4F_compressUpdate size data ctx = (inr more, ctx') ∧ cc_sofar ctx' level (out ++ more) (plain ++ data);
  end_law ctx level out plain size :
    cc_sofar ctx level out plain → LZ4F_compressBound 0 level ≤ size →
    ∃ more ctx', LZ4F_compressEnd size ctx = (inr more, ctx') ∧ is_frame (out ++ more) plain;
  frame_info_law frame plain ctx n : is_frame frame plain → ChunkSize ≤ n →
    frame ≠ [] ∧ ∃ id used ctx' k, LZ4F_getFrameInfo (ztake n frame) (LZ4F_resetDecompressionContext ctx) = (inr (id, used), ctx')
      ∧ 0 ≤ used ≤ zlen (ztake n frame) ∧ get_block_size id = Return k ∧ dc_rest ctx' (zdrop used frame) plain;
  decompress_law ctx src more plain size : dc_rest ctx (src ++ more) plain → src ≠ [] → 0 < size →
    ∃ out used ctx' plain', LZ4F_decompress size src ctx = (inr (out, used), ctx') ∧ 0 ≤ used ≤ zlen src ∧ plain = out ++ plain'
      ∧ dc_rest ctx' (zdrop used src ++ more) plain' ∧ (0 < used ∨ out ≠ []);
  frame_end_law ctx plain : dc_rest ctx [] plain → plain = []
}.
