(* ===== verification/ZipReading.v ===== *)
(** * Reading archives

    An open entry, plain or compressed, is a stream of bytes; a listfile that was split into
    several archives is read as one stream, in which the magic bytes appear only at the start. *)

From Stdlib Require Import Ascii String.
From S2P Require Import Prelude Effects Text ReadoutBuffer Listfile Zip ZipLaws.
Open Scope list_scope.

Lemma ztake_app_short {A} n (l k : list A) : n ≤ zlen l → ztake n (l ++ k) = ztake n l.
Proof. intros H. unfold ztake, zlen in *. by rewrite take_app_le by lia. Qed.
Lemma zdrop_app_short {A} n (l k : list A) : n ≤ zlen l → zdrop n (l ++ k) = zdrop n l ++ k.
Proof. intros H. unfold zdrop, zlen in *. by rewrite drop_app_le by lia. Qed.

Section Reading.
Context {M CC DC : Type} {HM : Minizip M} {HML : MinizipLaws M} {HC : Lz4Compression CC} {HD : Lz4Decompression DC} {HL : Lz4Laws CC DC}.
Implicit Types r : Reader M DC.

Definition holds (t : EntryType) (contents plain : list Z) : Prop :=
  match t with ZIP => contents = plain | LZ4 => is_frame contents plain end.

(** The open entry will deliver [plain]; [k] bounds the rounds this takes. *)
Definition reads (f : gmap string Archive) (w : WState) (es : Archive) (i : nat) (k : nat) (plain : list Z) r : Prop :=
  ∃ rest, zs (rd_mz r) = mkZState f w (ROpen es i (Some rest)) ∧
    match ei_type (rd_info r) with
    | ZIP => rest = plain
    | LZ4 => ∃ plain', plain = rd_decompressed r ++ plain' ∧ dc_rest (rd_ctx r) (rd_compressed r ++ rest) plain'
        ∧ 0 < rd_capacity r ∧ (length (rd_compressed r ++ rest) + length plain < k)%nat
    end.

(** What a read leaves alone. *)
Definition same_entry r r' : Prop := rd_names r' = rd_names r ∧ rd_info r' = rd_info r.

Lemma read_zip_ok f w es i rest n r :
  zs (rd_mz r) = mkZState f w (ROpen es i (Some rest)) → 0 ≤ n →
  ∃ m, readFromCurrentZipEntry n r = Done (ztake n rest, rd_set_mz m r) ∧ zs m = mkZState f w (ROpen es i (Some (zdrop n rest))).
Proof.
  intros Hz Hn. destruct (entry_read_law es i rest n _ f w Hz Hn) as (m & E & Hm). exists m. split; [|done].
  unfold readFromCurrentZipEntry. rewrite E. pose proof (zlen_nonneg (ztake n rest)). destruct (Z.ltb_spec (zlen (ztake n rest)) 0); [lia|done].
Qed.

(** Decompressed data are there, or the entry is at its end. *)
Lemma decompress_more_ok f w es i rest plain' r :
  zs (rd_mz r) = mkZState f w (ROpen es i (Some rest)) → dc_rest (rd_ctx r) (rd_compressed r ++ rest) plain' → 0 < rd_capacity r →
  ∃ more r', decompress_more r = Done (more, r') ∧ same_entry r r' ∧ rd_capacity r' = rd_capacity r
    ∧ ∃ rest' plain'', zs (rd_mz r') = mkZState f w (ROpen es i (Some rest')) ∧ plain' = rd_decompressed r' ++ plain''
        ∧ dc_rest (rd_ctx r') (rd_compressed r' ++ rest') plain''
        ∧ (length (rd_compressed r' ++ rest') ≤ length (rd_compressed r ++ rest))%nat
        ∧ (if more : bool then (length (rd_compressed r' ++ rest') < length (rd_compressed r ++ rest))%nat ∨ rd_decompressed r' ≠ []
           else plain' = []).
Proof.
  intros Hz Hd Hc. unfold decompress_more, mbind, SM_bind, get_state, update. cbv beta iota.
  assert (Hread : ∃ compressed rest' m, (match rd_compressed r with [] => readFromCurrentZipEntry ChunkSize | _ => mret (rd_compressed r) end : SM (Reader M DC) (list Z)) r
    = Done (compressed, rd_set_mz m r) ∧ zs m = mkZState f w (ROpen es i (Some rest')) ∧ rd_compressed r ++ rest = compressed ++ rest' ∧ (compressed = [] → rest' = [])).
  { destruct (rd_compressed r) as [|b bs] eqn:E.
    - destruct (read_zip_ok f w es i rest ChunkSize r Hz ltac:(done)) as (m & Hr & Hm). exists (ztake ChunkSize rest), (zdrop ChunkSize rest), m.
      split_and!; [done|done|by rewrite ztake_zdrop|]. intros H. destruct rest; [done|]. exfalso. cbn in H. done.
    - exists (b :: bs), rest, (rd_mz r). split_and!; [by destruct r|done|done|done]. }
  destruct Hread as (compressed & rest' & m & -> & Hm & Happ & Hempty). rewrite Happ in Hd. destruct compressed as [|b bs].
  - specialize (Hempty eq_refl) as ->. rewrite app_nil_r in Hd. cbn in Hd. do 2 eexists. split; [reflexivity|]. split; [done|]. split; [done|].
    exists [], plain'. cbn. split_and!; [done|done|done|lia|by apply (frame_end_law _ _ Hd)].
  - destruct (decompress_law _ (b :: bs) rest' plain' (rd_capacity r) Hd ltac:(done) Hc) as (out & used & ctx' & plain'' & E & Hu & -> & Hd' & Hprog).
    cbn [rd_capacity rd_set_mz rd_set_views rd_ctx]. rewrite E. unfold mret, SM_ret. do 2 eexists. split; [reflexivity|]. split; [done|]. split; [done|].
    exists rest', plain''. cbn [rd_mz rd_decompressed rd_ctx rd_compressed rd_set_views rd_set_mz]. rewrite Happ, !length_app. unfold zdrop. rewrite length_drop.
    split_and!; [done|done|done|lia|]. destruct Hprog as [Hp|Hp]; [left|by right]. unfold zlen in Hu. lia.
Qed.

Lemma read_lz4_ok f w es i n : ∀ fuel dest plain r,
  ei_type (rd_info r) = LZ4 → reads f w es i fuel plain r → zlen dest ≤ n →
  ∃ r', read_lz4 fuel n dest r = Done (dest ++ ztake (n - zlen dest) plain, r')
    ∧ same_entry r r' ∧ reads f w es i fuel (zdrop (n - zlen dest) plain) r'.
Proof.
  induction fuel as [|fuel IH]; intros dest plain r Ht (rest & Hz & H) Hn; rewrite Ht in H; destruct H as (plain' & Hp & Hd & Hc & Hk); [lia|].
  cbn [read_lz4]. destruct (Z.gtb_spec (n - zlen dest) 0) as [Hgt|Hle].
  2:{ exists r. unfold mret, SM_ret. unfold ztake, zdrop. replace (Z.to_nat (n - zlen dest)) with 0%nat by lia. rewrite take_0, app_nil_r, drop_0.
      split_and!; [done|done|]. exists rest. rewrite Ht. split; [done|]. by exists plain'. }
  (* one round leaves a state with decompressed data or is the last one *)
  assert (Hround : ∃ more r1, (match rd_decompressed r with [] => decompress_more | _ => mret true end : SM (Reader M DC) bool) r = Done (more, r1)
    ∧ same_entry r r1 ∧ rd_capacity r1 = rd_capacity r ∧ ∃ rest' plain'', zs (rd_mz r1) = mkZState f w (ROpen es i (Some rest'))
      ∧ plain = rd_decompressed r1 ++ plain'' ∧ dc_rest (rd_ctx r1) (rd_compressed r1 ++ rest') plain''
      ∧ (length (rd_compressed r1 ++ rest') ≤ length (rd_compressed r ++ rest))%nat
      ∧ (if more : bool then (length (rd_compressed r1 ++ rest') < length (rd_compressed r ++ rest))%nat ∨ rd_decompressed r1 ≠ [] else plain = [])).
  { destruct (rd_decompressed r) as [|b bs] eqn:E.
    - cbn in Hp. subst plain'. exact (decompress_more_ok f w es i rest plain r Hz Hd Hc).
    - exists true, r. split_and!; [done|done|done|]. exists rest, plain'. rewrite E. split_and!; [done|done|done|done|by right]. }
  destruct Hround as (more & r1 & E1 & [Hn1 Hi1] & Hc1 & rest' & plain'' & Hz1 & Hp1 & Hd1 & Hlen & Hmore).
  unfold mbind, SM_bind, get_state at 1. cbv beta. rewrite E1. destruct more; cbn [negb].
  2:{ rewrite Hmore in Hp1, Hk |- *. symmetry in Hp1. apply app_eq_nil in Hp1 as [Hp1 ->]. exists r1. unfold ztake, zdrop. rewrite take_nil, drop_nil, app_nil_r.
      split_and!; [done|done|]. exists rest'. rewrite Hi1, Ht. split; [done|]. exists []. rewrite Hp1, Hc1. split_and!; [done|done|done|]. cbn in *. lia. }
  unfold get_state, update. cbv beta iota. set (toCopy := Z.min (zlen (rd_decompressed r1)) (n - zlen dest)).
  assert (Htc : 0 ≤ toCopy ≤ zlen (rd_decompressed r1)) by (unfold toCopy; pose proof (zlen_nonneg (rd_decompressed r1)); lia).
  set (r2 := rd_set_views (rd_ctx r1) (rd_compressed r1) (zdrop toCopy (rd_decompressed r1)) r1).
  assert (Hlt : zlen (ztake toCopy (rd_decompressed r1)) = toCopy) by (by apply zlen_ztake).
  destruct (IH (dest ++ ztake toCopy (rd_decompressed r1)) (zdrop toCopy (rd_decompressed r1) ++ plain'') r2) as (r' & E' & [Hn' Hi'] & Hr').
  { cbn. by rewrite Hi1. }
  { exists rest'. unfold r2. cbn [rd_mz rd_info rd_decompressed rd_ctx rd_compressed rd_capacity rd_set_views]. rewrite Hi1, Ht. split; [done|]. exists plain''.
    split_and!; [done|done|by rewrite Hc1|]. rewrite Hp1 in Hk. rewrite !length_app in *. unfold zdrop. rewrite length_drop. unfold zlen in *.
    destruct Hmore as [Hm|Hm]; [lia|]. assert ((0 < length (rd_decompressed r1))%nat) by (destruct (rd_decompressed r1); [done|cbn; lia]). unfold toCopy. lia. }
  { rewrite zlen_app, Hlt. unfold toCopy. lia. }
  exists r'. rewrite zlen_app, Hlt in E', Hr'. rewrite Hp1. rewrite <- app_assoc in E'.
  assert (Hsplit : ztake toCopy (rd_decompressed r1) ++ ztake (n - (zlen dest + toCopy)) (zdrop toCopy (rd_decompressed r1) ++ plain'')
    = ztake (n - zlen dest) (rd_decompressed r1 ++ plain'') ∧ zdrop (n - (zlen dest + toCopy)) (zdrop toCopy (rd_decompressed r1) ++ plain'')
    = zdrop (n - zlen dest) (rd_decompressed r1 ++ plain'')).
  { rewrite <- (zdrop_app_short toCopy) by lia. set (l := rd_decompressed r1) in *. rewrite <- (ztake_app_short toCopy l plain'') by lia.
    unfold ztake, zdrop. rewrite drop_drop, <- (take_drop (Z.to_nat toCopy) (take (Z.to_nat (n - zlen dest)) (l ++ plain''))).
    rewrite take_take, take_drop_commute. split; [f_equal; f_equal|f_equal]; f_equal; unfold toCopy; lia. }
  destruct Hsplit as [Hs1 Hs2]. rewrite Hs1 in E'. rewrite Hs2 in Hr'. split_and!; [exact E'|split; [rewrite Hn'; exact Hn1|rewrite Hi'; exact Hi1]|].
  destruct Hr' as (rest2 & Hz2 & Hr2). exists rest2. split; [done|].
  assert (Ht' : ei_type (rd_info r') = LZ4) by (rewrite Hi'; unfold r2; cbn [rd_info rd_set_views]; by rewrite Hi1).
  rewrite Ht' in Hr2 |- *. destruct Hr2 as (p2 & ? & ? & ? & ?). exists p2. split_and!; try done. lia.
Qed.

(** ** Entries *)

(** The rounds given to the loops. *)
Context (fuel : nat).

Lemma readCurrentEntry_ok f w es i n plain r :
  reads f w es i fuel plain r → 0 ≤ n →
  ∃ r', readCurrentEntry fuel n r = Done (ztake n plain, r') ∧ same_entry r r' ∧ reads f w es i fuel (zdrop n plain) r'.
Proof.
  intros Hr Hn. unfold readCurrentEntry, mbind, SM_bind, get_state. cbv beta iota. destruct (ei_type (rd_info r)) eqn:Et.
  - destruct Hr as (rest & Hz & H). rewrite Et in H. subst rest. destruct (read_zip_ok f w es i plain n r Hz Hn) as (m & E & Hm).
    eexists. split; [exact E|]. split; [done|]. exists (zdrop n plain). cbn [rd_mz rd_info rd_set_mz]. by rewrite Et.
  - destruct (read_lz4_ok f w es i n fuel [] plain r Et Hr Hn) as (r' & E & Hs & Hr'). rewrite Z.sub_0_r in E, Hr'. by exists r'.
Qed.

Lemma rd_call_ok name op r m' : op (rd_mz r) = (0, m') → rd_call name op r = Done ((), rd_set_mz m' r).
Proof. intros H. unfold rd_call. by rewrite H. Qed.

(** The header of an LZ4 frame. *)
Lemma open_lz4_ok f w es i c plain r :
  zs (rd_mz r) = mkZState f w (ROpen es i (Some c)) → is_frame c plain → ei_type (rd_info r) = LZ4 →
  (∃ ctx, rd_ctx r = LZ4F_resetDecompressionContext ctx) → (length c + length plain < fuel)%nat →
  ∃ r', open_lz4 r = Done ((), r') ∧ rd_names r' = rd_names r ∧ ei_name (rd_info r') = ei_name (rd_info r) ∧ ei_type (rd_info r') = LZ4
    ∧ reads f w es i fuel plain r'.
Proof.
  intros Hz Hf Ht [ctx Hctx] Hk. destruct (read_zip_ok f w es i c ChunkSize r Hz ltac:(done)) as (m & E & Hm).
  destruct (frame_info_law c plain ctx ChunkSize Hf ltac:(done)) as (Hne & id & used & ctx' & size & Ei & Hu & Hsize & Hd).
  unfold open_lz4. erewrite bind_Done_eq by exact E. unfold mbind, SM_bind, get_state, update. cbv beta iota.
  assert (Hne' : (zlen (ztake ChunkSize c) =? 0) = false) by (apply Z.eqb_neq; intros H%zlen_0; by destruct c).
  rewrite Hne'. cbn [rd_ctx rd_set_mz rd_set_info]. rewrite Hctx, Ei, Hsize. eexists. split; [reflexivity|]. split_and!; [done|done|done|].
  exists (zdrop ChunkSize c). cbn [rd_mz rd_info rd_set_mz rd_set_info rd_set_views rd_set_capacity ei_type]. rewrite Ht. split; [done|].
  assert (Hview : zdrop used (ztake ChunkSize c) ++ zdrop ChunkSize c = zdrop used c) by (rewrite <- zdrop_app_short by lia; by rewrite ztake_zdrop).
  exists plain. cbn [rd_decompressed rd_ctx rd_compressed rd_capacity rd_set_capacity rd_set_views rd_set_info rd_set_mz]. split_and!; [done| | |].
  - by rewrite Hview.
  - by destruct id; cbn in Hsize; simplify_eq.
  - rewrite Hview. unfold zdrop. rewrite length_drop. lia.
Qed.

Lemma openEntry_ok f w pre e c post i plain r :
  zs (rd_mz r) = mkZState f w (ROpen (pre ++ (e, c) :: post) i None) → e ∉ pre.*1 → holds (entry_type_of e) c plain → (length c + length plain < fuel)%nat →
  ∃ r', openEntry e r = Done ((), r') ∧ rd_names r' = rd_names r ∧ ei_name (rd_info r') = e
    ∧ reads f w (pre ++ (e, c) :: post) (length pre) fuel plain r'.
Proof.
  intros Hz Hpre Hh Hk. set (es := pre ++ (e, c) :: post) in *. assert (Hl : es !! length pre = Some (e, c)) by (unfold es; by rewrite list_lookup_middle).
  destruct (locate_law pre e c post i _ f w Hz Hpre) as (m1 & E1 & H1). destruct (rd_entry_open_law es (length pre) e c m1 f w H1 Hl) as (m2 & E2 & H2).
  destruct (info_law es (length pre) (Some c) e c m2 f w H2 Hl) as (z & m3 & E3 & H3). rewrite H2 in H3.
  unfold openEntry. erewrite bind_Done_eq by (by apply rd_call_ok). erewrite bind_Done_eq by (by apply rd_call_ok).
  unfold rd_entry_info. unfold mbind at 1, SM_bind at 1. cbn [rd_mz rd_set_mz]. rewrite E3. cbn [Z.eqb]. cbv beta iota.
  unfold mbind at 1 2, SM_bind at 1 2, update at 1 2. cbv beta iota.
  set (r0 := rd_set_info _ _). assert (Hz0 : zs (rd_mz r0) = mkZState f w (ROpen es (length pre) (Some c))) by done.
  destruct (entry_type_of e) eqn:Et.
  - unfold mbind, SM_bind, mret, SM_ret, get_state, update. cbv beta iota. eexists. split; [reflexivity|]. split_and!; [done|done|].
    exists c. split; [done|]. cbn. by rewrite Hh.
  - destruct (open_lz4_ok f w es (length pre) c plain r0 Hz0 Hh) as (r1 & Eo & Hn & Hi & Ht & Hr); [done|by eexists|done|].
    erewrite bind_Done_eq by exact Eo. unfold mbind, SM_bind, get_state, update. cbv beta iota. eexists. split; [reflexivity|]. split_and!; [done|done|].
    destruct Hr as (rest & Hz1 & Hr). exists rest. rewrite Ht in Hr. cbn [rd_mz rd_info rd_set_info ei_type]. by rewrite Ht.
Qed.

Lemma closeEntry_ok f w es i rest r :
  zs (rd_mz r) = mkZState f w (ROpen es i (Some rest)) →
  ∃ m, rd_closeCurrentEntry r = Done ((), rd_set_mz m r) ∧ zs m = mkZState f w (ROpen es i None).
Proof.
  intros Hz. destruct (rd_entry_close_law es i rest _ f w Hz) as (err & m & E & He & Hm). exists m. split; [|done].
  unfold rd_closeCurrentEntry, mbind, SM_bind, rd_try. rewrite E. by destruct He as [->| ->].
Qed.

(** ** Archives *)

Lemma collect_names_ok f w es k : ∀ i names r,
  zs (rd_mz r) = mkZState f w (ROpen es i None) → (i < length es)%nat → (length es ≤ i + k)%nat →
  ∃ m j, collect_names k names r = Done (names ++ (drop i es).*1, rd_set_mz m r) ∧ zs m = mkZState f w (ROpen es j None).
Proof.
  induction k as [|k IH]; intros i names r Hz Hi Hk; [lia|]. destruct (lookup_lt_is_Some_2 es i Hi) as [[e c] Hl].
  destruct (info_law es i None e c _ f w Hz Hl) as (z & m1 & E1 & H1). rewrite Hz in H1. destruct (next_law es i m1 f w H1) as (m2 & E2 & H2).
  cbn [collect_names]. unfold mbind at 1, SM_bind at 1, rd_entry_info. rewrite E1. cbn [Z.eqb]. cbv beta iota.
  unfold mbind at 1, SM_bind at 1, rd_try. cbn [rd_mz rd_set_mz]. rewrite E2. cbv beta iota zeta.
  rewrite (drop_S es (e, c) i Hl). cbn [fmap list_fmap fst]. destruct (Nat.ltb_spec (S i) (length es)) as [Hlt|Hge].
  - cbn [Z.eqb]. destruct (IH (S i) (names ++ [e]) (rd_set_mz m2 (rd_set_mz m1 r)) H2 Hlt ltac:(lia)) as (m & j & E & Hm). exists m, j.
    rewrite E. rewrite <- app_assoc. split; [by destruct r|done].
  - change (MZ_END_OF_LIST =? 0) with false. cbv iota. rewrite Z.eqb_refl. exists m2, i. rewrite (drop_ge es (S i)) by lia. split; [by destruct r|done].
Qed.

Lemma openArchive_ok f w name es r :
  zs (rd_mz r) = mkZState f w RClosed → f !! name = Some es → es ≠ [] → (length es ≤ fuel)%nat →
  ∃ r' j, openArchive fuel name r = Done ((), r') ∧ rd_names r' = es.*1 ∧ zs (rd_mz r') = mkZState f w (ROpen es j None).
Proof.
  intros Hz Hf Hne Hk. destruct (os_open_law name es _ f w Hz Hf) as (m1 & E1 & H1). destruct (reader_open_law es m1 f w H1) as (m2 & E2 & H2).
  destruct (first_law es 0 m2 f w H2 Hne) as (m3 & E3 & H3).
  destruct (collect_names_ok f w es fuel 0 [] (rd_set_names [] (rd_set_mz m3 (rd_set_mz m2 (rd_set_mz m1 r)))) H3) as (m4 & j & E4 & H4);
    [destruct es; [done|cbn; lia]|lia|].
  unfold openArchive. erewrite bind_Done_eq by (by apply rd_call_ok). erewrite bind_Done_eq by (by apply rd_call_ok).
  unfold mbind at 1, SM_bind at 1, rd_try. cbn [rd_mz rd_set_mz]. rewrite E3. cbn [Z.eqb negb andb]. cbv beta iota.
  unfold mbind at 1, SM_bind at 1, update at 1. cbv beta iota. erewrite bind_Done_eq by exact E4. do 2 eexists. split; [reflexivity|].
  cbn [rd_names rd_mz rd_set_names rd_set_mz]. by rewrite drop_0.
Qed.

Lemma closeArchive_ok f w es i rest r :
  zs (rd_mz r) = mkZState f w (ROpen es i rest) → ∃ r', rd_closeArchive r = Done ((), r') ∧ zs (rd_mz r') = mkZState f w RClosed.
Proof.
  intros Hz. destruct (reader_close_law es i rest _ f w Hz) as (m1 & E1 & H1). destruct (os_close_law es m1 f w H1) as (m2 & E2 & H2).
  unfold rd_closeArchive. erewrite bind_Done_eq by (by apply rd_call_ok). erewrite bind_Done_eq by (by apply rd_call_ok). by eexists.
Qed.

(** ** Listfiles in several archives *)

(** The first listfile of an archive holds [plain]. *)
Definition listfile_in (es : Archive) (plain : list Z) : Prop :=
  ∃ pre e c post, es = pre ++ (e, c) :: post ∧ Forall (λ x : string * list Z, is_listfile_name x.1 = false) pre ∧ is_listfile_name e = true
    ∧ holds (entry_type_of e) c plain ∧ (length c + length plain < fuel)%nat ∧ (length es ≤ fuel)%nat.

Lemma first_listfile pre e c post r :
  rd_names r = (pre ++ (e, c) :: post).*1 → Forall (λ x : string * list Z, is_listfile_name x.1 = false) pre → is_listfile_name e = true →
  firstListfileEntryName r = e ∧ e ∉ pre.*1.
Proof.
  intros Hn Hp He. split.
  - unfold firstListfileEntryName. rewrite Hn, fmap_app, filter_app. cbn [fmap list_fmap fst].
    assert (Hnil : filter (λ name, is_listfile_name name = true) pre.*1 = []).
    { clear Hn. induction Hp as [|x pre Hx Hp IH]; [done|]. cbn [fmap list_fmap]. rewrite filter_cons_False; [done|]. by rewrite Hx. }
    rewrite Hnil, filter_cons_True by done. done.
  - intros Hin. apply list_elem_of_fmap in Hin as (x & -> & Hin). rewrite Forall_forall in Hp. specialize (Hp x Hin). cbn in Hp. congruence.
Qed.

(** Opening the listfile of an archive. *)
Lemma open_listfile_ok f w name es plain r :
  zs (rd_mz r) = mkZState f w RClosed → f !! name = Some es → listfile_in es plain →
  ∃ r' i, (openArchive fuel name ≫= λ _, get_state firstListfileEntryName ≫= openEntry) r = Done ((), r') ∧ reads f w es i fuel plain r'
    ∧ ∃ pre e c post, es = pre ++ (e, c) :: post ∧ ei_name (rd_info r') = e ∧ e ∉ pre.*1 ∧ holds (entry_type_of e) c plain
        ∧ (length c + length plain < fuel)%nat.
Proof.
  intros Hz Hf (pre & e & c & post & -> & Hpre & He & Hh & Hk & Hl).
  destruct (openArchive_ok f w name _ r Hz Hf ltac:(by destruct pre) Hl) as (r1 & j & E1 & Hn1 & H1).
  destruct (first_listfile pre e c post r1 Hn1 Hpre He) as [Hfirst Hnin].
  destruct (openEntry_ok f w pre e c post j plain r1 H1 Hnin Hh Hk) as (r2 & E2 & Hn2 & Hi2 & Hr2).
  exists r2, (length pre). split; [|split; [done|by exists pre, e, c, post]].
  erewrite bind_Done_eq by exact E1. unfold mbind, SM_bind, get_state. cbv beta iota. by rewrite Hfirst.
Qed.

(** Reading past the magic bytes. *)
Lemma read_magic_str_ok f w pre e c post i plain r :
  reads f w (pre ++ (e, c) :: post) i fuel plain r → ei_name (rd_info r) = e → e ∉ pre.*1 → holds (entry_type_of e) c plain →
  (length c + length plain < fuel)%nat →
  ∃ magic r' j, read_magic_str fuel r = Done (magic, r') ∧ reads f w (pre ++ (e, c) :: post) j fuel (zdrop get_filemagic_len plain) r'.
Proof.
  intros (rest & Hz & _) Hi Hnin Hh Hk. destruct (closeEntry_ok f w _ i rest r Hz) as (m & E1 & H1).
  destruct (openEntry_ok f w pre e c post i plain (rd_set_mz m r) H1 Hnin Hh Hk) as (r2 & E2 & _ & _ & Hr2).
  destruct (readCurrentEntry_ok f w _ _ get_filemagic_len plain r2 Hr2 ltac:(done)) as (r3 & E3 & _ & Hr3).
  assert (Es : seek fuel 0 r = Done (0, r2)).
  { unfold seek. erewrite (bind_Done_eq (get_state _)) by reflexivity. rewrite Hi. erewrite bind_Done_eq by exact E1. erewrite bind_Done_eq by exact E2.
    by destruct fuel. }
  do 3 eexists. split; [|exact Hr3]. unfold read_magic_str. erewrite bind_Done_eq by exact Es. by erewrite bind_Done_eq by exact E3.
Qed.

(** The archives that come after [current], up to the first that does not exist. *)
Fixpoint archives_after (f : gmap string Archive) (current : string) (plains : list (list Z)) : Prop :=
  match plains with
  | [] => ∃ next, next_archive_name current = Return next ∧ f !! next = None
  | plain :: plains => ∃ next es, next_archive_name current = Return next ∧ f !! next = Some es ∧ listfile_in es plain ∧ archives_after f next plains
  end.

(** The stream of a split listfile from a position in one of its parts on. *)
Definition split_stream (rest : list Z) (plains : list (list Z)) : list Z := rest ++ concat (zdrop get_filemagic_len <$> plains).

Definition split_reads (f : gmap string Archive) (w : WState) (rest : list Z) (plains : list (list Z)) (s : SplitReader M DC) : Prop :=
  sr_isSplitEntry s = true ∧ (∃ es i, reads f w es i fuel rest (sr_zip s)) ∧ archives_after f (sr_currentArchive s) plains.

Lemma on_reader_ok {A} (op : SM (Reader M DC) A) s a r' :
  op (sr_zip s) = Done (a, r') → on_reader op s = Done (a, mkSplitReader r' (sr_isSplitEntry s) (sr_firstArchive s) (sr_currentArchive s)).
Proof. intros H. unfold on_reader. by rewrite H. Qed.

Lemma change_archive_ok f w plain plains next es es0 i rest s :
  sr_isSplitEntry s = true → reads f w es0 i fuel rest (sr_zip s) → f !! next = Some es → listfile_in es plain → archives_after f next plains →
  ∃ s', change_archive fuel next s = Done ((), s') ∧ split_reads f w (zdrop get_filemagic_len plain) plains s'.
Proof.
  intros Hsp (rest0 & Hz & _) Hf Hin Hafter. destruct (closeArchive_ok f w es0 i (Some rest0) (sr_zip s) Hz) as (r1 & E1 & H1).
  destruct (open_listfile_ok f w next es plain r1 H1 Hf Hin) as (r3 & j & E3 & Hr3 & pre & e & c & post & -> & Hname & Hnin & Hh & Hk).
  unfold mbind at 1, SM_bind at 1 in E3. destruct (openArchive fuel next r1) as [[[] r2]| | |] eqn:E2; try done.
  unfold mbind, SM_bind, get_state in E3. cbv beta iota in E3.
  destruct (read_magic_str_ok f w pre e c post j plain r3 Hr3 Hname Hnin Hh Hk) as (magic & r4 & j' & E4 & Hr4).
  eexists. unfold change_archive. erewrite bind_Done_eq by (by apply on_reader_ok). erewrite bind_Done_eq by (by apply on_reader_ok).
  unfold mbind at 1 2, SM_bind at 1 2, sr_update, get_state. cbv beta iota. erewrite bind_Done_eq by (by apply on_reader_ok).
  erewrite bind_Done_eq by (by apply on_reader_ok). split; [reflexivity|]. split_and!; [done|by do 2 eexists|done].
Qed.

Lemma read_parts_full n rounds dest s : zlen dest = n → read_parts fuel rounds n dest s = Done (dest, s).
Proof. intros H. destruct rounds; cbn [read_parts]; by rewrite H, Z.ltb_irrefl. Qed.

(** The rounds that reading may take from here on. *)
Definition rounds_for (rest : list Z) (plains : list (list Z)) : nat := 2 * length plains + match rest with [] => 1 | _ => 2 end.

Lemma read_parts_ok f w n rounds : ∀ dest rest plains s,
  split_reads f w rest plains s → zlen dest ≤ n → (rounds_for rest plains ≤ rounds)%nat →
  ∃ s' rest' plains', read_parts fuel rounds n dest s = Done (dest ++ ztake (n - zlen dest) (split_stream rest plains), s')
    ∧ split_reads f w rest' plains' s' ∧ split_stream rest' plains' = zdrop (n - zlen dest) (split_stream rest plains)
    ∧ (length plains' ≤ length plains)%nat.
Proof.
  induction rounds as [|rounds IH]; intros dest rest plains s Hs Hn Hr; [unfold rounds_for in Hr; destruct rest; lia|].
  cbn [read_parts]. destruct (Z.ltb_spec (zlen dest) n) as [Hlt|Hge].
  2:{ exists s, rest, plains. unfold ztake, zdrop. replace (Z.to_nat (n - zlen dest)) with 0%nat by lia. rewrite take_0, app_nil_r, drop_0. by split_and!. }
  destruct Hs as (Hsp & (es & i & Hrd) & Hafter). destruct (readCurrentEntry_ok f w es i (n - zlen dest) rest (sr_zip s) Hrd ltac:(lia)) as (r1 & E1 & _ & Hr1).
  erewrite bind_Done_eq by (by apply on_reader_ok). set (s1 := mkSplitReader r1 _ _ _).
  destruct (Z.eqb_spec (zlen (ztake (n - zlen dest) rest)) 0) as [E0|Hne0].
  - assert (rest = []) as ->. { apply zlen_0 in E0. destruct rest; [done|]. unfold ztake in E0. destruct (Z.to_nat (n - zlen dest)) eqn:E; [lia|done]. }
    unfold mbind at 1, SM_bind at 1, get_state at 1. cbv beta iota. destruct plains as [|plain plains].
    + destruct Hafter as (next & Enext & Hnone). cbn [s1 sr_currentArchive]. rewrite Enext. unfold mbind, SM_bind, lift, get_state. cbv beta iota.
      rewrite exists_law. pose proof Hr1 as (rest1 & Hz1 & _). change (sr_zip s1) with r1. rewrite Hz1. cbn [zs_files]. rewrite Hnone. cbn [negb].
      change (bool_decide (is_Some (@None Archive))) with false. cbn [negb]. exists s1, [], []. unfold split_stream. cbn.
      unfold ztake, zdrop. rewrite take_nil, drop_nil, app_nil_r. split_and!; try done. split_and!; [done| |by exists next].
      exists es, i. cbn. unfold zdrop in Hr1. by rewrite drop_nil in Hr1.
    + destruct Hafter as (next & es' & Enext & Hf & Hin & Hafter). cbn [s1 sr_currentArchive]. rewrite Enext. unfold mbind, SM_bind, lift, get_state. cbv beta iota.
      rewrite exists_law. pose proof Hr1 as (rest1 & Hz1 & _). change (sr_zip s1) with r1. rewrite Hz1. cbn [zs_files]. rewrite Hf.
      rewrite bool_decide_eq_true_2 by done. cbn [negb].
      destruct (change_archive_ok f w plain plains next es' es i _ s1 Hsp Hr1 Hf Hin Hafter) as (s2 & E2 & Hs2). rewrite E2.
      destruct (IH dest (zdrop get_filemagic_len plain) plains s2 Hs2 Hn) as (s' & rest' & plains' & E' & Hs' & Hst & Hlen).
      { unfold rounds_for in *. cbn [length] in Hr. destruct (zdrop _ plain); lia. }
      exists s', rest', plains'. split_and!; [done|done|done|cbn; lia].
  - assert (Hs1 : split_reads f w (zdrop (n - zlen dest) rest) plains s1) by (split_and!; [done|by exists es, i|done]).
    pose proof (zlen_nonneg rest). assert (Hz : zlen (ztake (n - zlen dest) rest) = Z.min (n - zlen dest) (zlen rest)).
    { unfold zlen, ztake. rewrite length_take. unfold zlen in *. lia. }
    destruct (Z.leb_spec (zlen rest) (n - zlen dest)) as [Hle|Hgt].
    + assert (Hd : zdrop (n - zlen dest) rest = []) by (unfold zdrop; apply drop_ge; unfold zlen in *; lia).
      assert (Ht : ztake (n - zlen dest) rest = rest) by (apply ztake_all; lia). rewrite Hd in Hs1. rewrite Ht in *.
      destruct (IH (dest ++ rest) [] plains s1 Hs1) as (s' & rest' & plains' & E' & Hs' & Hst & Hlen).
      { rewrite zlen_app. lia. }
      { unfold rounds_for in *. destruct rest; [done|lia]. }
      exists s', rest', plains'. rewrite zlen_app in E', Hst. rewrite E', Hst. unfold split_stream. cbn [app]. rewrite <- app_assoc.
      replace (n - (zlen dest + zlen rest)) with (n - zlen dest - zlen rest) by lia. split_and!; [|done| |done].
      * do 3 f_equal. unfold ztake. rewrite take_app_ge by (unfold zlen in *; lia). do 2 f_equal. unfold zlen. lia.
      * unfold zdrop. rewrite drop_app_ge by (unfold zlen in *; lia). f_equal. unfold zlen. lia.
    + rewrite read_parts_full by (rewrite zlen_app; lia). exists s1, (zdrop (n - zlen dest) rest), plains. unfold split_stream.
      rewrite ztake_app_short, zdrop_app_short by lia. by split_and!.
Qed.

End Reading.
