(* ===== verification/ZipWriting.v ===== *)
(** * Writing archives

    The creator of archives and the creator of split archives: what was written to an entry is
    what the entry holds when the archive is closed, and a listfile that is split appears in
    consecutively numbered archives, each with the preamble in front and with whole writes. *)

From Stdlib Require Import Ascii String.
From S2P Require Import Prelude Effects Text ReadoutBuffer Listfile Zip ZipNames ZipLaws ZipReading.
Open Scope list_scope.

Section Writing.
Context {M CC DC : Type} {HM : Minizip M} {HML : MinizipLaws M} {HC : Lz4Compression CC} {HD : Lz4Decompression DC} {HL : Lz4Laws CC DC}.
Implicit Types c : Creator M CC.
Implicit Types f : gmap string Archive.

(** ** One archive *)

(** The archive [name] with the entries [es] is open, no entry is. *)
Definition idle f (name : string) (es : Archive) (r : RState) c : Prop :=
  zs (cr_mz c) = mkZState f (WOpen name es None) r ∧ ei_isOpen (cr_info c) = false.

(** The entry [e] of the archive is open and [plain] was written to it. *)
Definition writes f (name : string) (es : Archive) (e : string) (t : EntryType) (level : Z) (plain : list Z) (r : RState) c : Prop :=
  ei_isOpen (cr_info c) = true ∧ ei_type (cr_info c) = t ∧ ∃ contents, zs (cr_mz c) = mkZState f (WOpen name es (Some (e, contents))) r ∧
    match t with
    | ZIP => contents = plain
    | LZ4 => cc_sofar (cr_lz4 c) level contents plain ∧ cr_buffer c = LZ4F_compressBound ChunkSize level
    end.

Lemma call_ok name op c m' : op (cr_mz c) = (0, m') → call name op c = Done ((), set_mz m' c).
Proof. intros H. unfold call. by rewrite H. Qed.

Lemma write_entry_ok f n es e contents data r c :
  zs (cr_mz c) = mkZState f (WOpen n es (Some (e, contents))) r →
  ∃ m, writeToCurrentZIPEntry data c = Done (zlen data, set_mz m c) ∧ zs m = mkZState f (WOpen n es (Some (e, contents ++ data))) r.
Proof.
  intros Hz. destruct (entry_write_law n es e contents data _ f r Hz) as (m & E & Hm). exists m. split; [|done].
  unfold writeToCurrentZIPEntry. rewrite E. pose proof (zlen_nonneg data). destruct (Z.ltb_spec (zlen data) 0); [lia|done].
Qed.

Lemma createArchive_ok f r name mode c :
  zs (cr_mz c) = mkZState f WClosed r → hasOpenEntry c = false → f !! name = None →
  ∃ c', createArchive name mode c = Done ((), c') ∧ idle (<[name := []]> f) name [] r c'.
Proof.
  intros Hz Ho Hf. destruct (stream_open_law name _ f r Hz) as (m1 & E1 & H1). destruct (writer_open_law name m1 _ r H1) as (m2 & E2 & H2).
  unfold createArchive. erewrite (bind_Done_eq (get_state _)) by reflexivity. unfold isOpen. rewrite is_open_law, Hz. cbn [zs_writer].
  erewrite (bind_Done_eq (get_state _)) by reflexivity.
  assert (He : match mode with DontOverwrite => mz_os_file_exists name (cr_mz c) | Overwrite => false end = false).
  { destruct mode; [|done]. rewrite exists_law, Hz. cbn [zs_files]. rewrite Hf. apply bool_decide_eq_false_2. by intros [? ?]. }
  rewrite He. erewrite bind_Done_eq by (by apply call_ok). erewrite bind_Done_eq by (by apply call_ok). eexists. split; [reflexivity|]. done.
Qed.

Lemma closeArchive_writes f name es r c :
  idle f name es r c → ∃ c', closeArchive c = Done ((), c') ∧ zs (cr_mz c') = mkZState (<[name := es]> f) WClosed r ∧ hasOpenEntry c' = false.
Proof.
  intros [Hz Ho]. destruct (writer_close_law name es _ f r Hz) as (m1 & E1 & H1). destruct (stream_close_law name m1 _ r H1) as (m2 & E2 & H2).
  unfold closeArchive. erewrite bind_Done_eq by (by apply call_ok). erewrite bind_Done_eq by (by apply call_ok). eexists. split; [reflexivity|]. done.
Qed.

Lemma lz4_call_ok name op c out ctx : op (cr_lz4 c) = (inr out, ctx) →
  lz4_call name op c = Done (out, mkCreator (cr_mz c) (cr_info c) ctx (cr_buffer c) (cr_archive c)).
Proof. intros H. unfold lz4_call. by rewrite H. Qed.

Lemma bound_le n level : 0 ≤ n ≤ ChunkSize → LZ4F_compressBound n level ≤ LZ4F_compressBound ChunkSize level.
Proof. apply compress_bound_mono. Qed.

Definition entry_file_name (t : EntryType) (e : string) : string := match t with ZIP => e | LZ4 => (e +:+ ".lz4")%string end.

Lemma create_entry_ok f name es r e t level c :
  idle f name es r c →
  ∃ c', (match t with ZIP => createZIPEntry e level | LZ4 => createLZ4Entry e level end) c = Done ((), c')
    ∧ writes f name es (entry_file_name t e) t level [] r c'.
Proof.
  intros [Hz Ho]. destruct t.
  - destruct (entry_open_law name es e DEFLATE level _ f r Hz) as (m & E & Hm). unfold createZIPEntry.
    erewrite (bind_Done_eq (get_state _)) by reflexivity. unfold hasOpenEntry. rewrite Ho. erewrite bind_Done_eq by (by apply call_ok).
    eexists. split; [reflexivity|]. split_and!; [done|done|]. by exists [].
  - destruct (entry_open_law name es (e +:+ ".lz4") STORE 0 _ f r Hz) as (m & E & Hm).
    destruct (begin_law level (LZ4F_compressBound ChunkSize level) (bound_le 0 level ltac:(done))) as (header & ctx & Eb & Hb).
    unfold createLZ4Entry. erewrite (bind_Done_eq (get_state _)) by reflexivity. unfold hasOpenEntry. rewrite Ho. erewrite bind_Done_eq by (by apply call_ok).
    erewrite (bind_Done_eq (set_info _)) by reflexivity.
    assert (Hl : ∀ c1, lz4_begin level c1 = Done ((), mkCreator (cr_mz c1) (cr_info c1) LZ4F_createCompressionContext.2 (LZ4F_compressBound ChunkSize level) (cr_archive c1))).
    { intros c1. unfold lz4_begin. pose proof create_law as Hc. destruct LZ4F_createCompressionContext as [err ctx0]. cbn in Hc. by subst err. }
    erewrite bind_Done_eq by (apply Hl). erewrite (bind_Done_eq (get_state _)) by reflexivity. erewrite bind_Done_eq by (apply lz4_call_ok; exact Eb).
    edestruct (write_entry_ok f name es (e +:+ ".lz4") [] header r) as (m2 & E2 & Hm2); [|erewrite bind_Done_eq by exact E2]; [exact Hm|].
    eexists. split; [reflexivity|]. split_and!; [done|done|]. by exists header.
Qed.

Lemma write_chunks_ok f name es e level plain data r c :
  writes f name es e LZ4 level plain r c → zlen data ≤ ChunkSize →
  ∃ c', write_chunks (length data) data c = Done ((), c') ∧ writes f name es e LZ4 level (plain ++ data) r c'.
Proof.
  intros (Ho & Ht & contents & Hz & Hc & Hb) Hd. destruct data as [|b bs].
  - exists c. split; [done|]. rewrite app_nil_r. split_and!; [done|done|by exists contents].
  - set (data := b :: bs) in *. pose proof (zlen_nonneg data). cbn [write_chunks length data]. fold data. erewrite (bind_Done_eq (get_state _)) by reflexivity.
    rewrite Hb. pose proof (compress_bound_room ChunkSize level ltac:(done)). rewrite Z.min_l by lia. rewrite ztake_all by done.
    destruct (compress_law _ level contents plain data (LZ4F_compressBound ChunkSize level) Hc ltac:(done) (bound_le (zlen data) level ltac:(lia))) as (out & ctx & E & Hc').
    erewrite bind_Done_eq by (by apply lz4_call_ok).
    edestruct (write_entry_ok f name es e contents out r) as (m & E2 & Hm); [|erewrite bind_Done_eq by exact E2]; [exact Hz|].
    erewrite (bind_Done_eq (count_written _ _)) by reflexivity. unfold zdrop, zlen. rewrite Nat2Z.id, drop_all.
    destruct (length bs); (eexists; split; [reflexivity|]; split_and!; [done|done|by exists (contents ++ out)]).
Qed.

Lemma write_current_ok f name es e t level plain data r c :
  writes f name es e t level plain r c → (t = LZ4 → zlen data ≤ ChunkSize) →
  ∃ c', writeToCurrentEntry data c = Done (zlen data, c') ∧ writes f name es e t level (plain ++ data) r c'.
Proof.
  intros Hw Hd. unfold writeToCurrentEntry. erewrite (bind_Done_eq (get_state _)) by reflexivity. pose proof Hw as (Ho & Ht & contents & Hz & Hc).
  rewrite Ho, Ht. cbn [negb]. destruct t.
  - subst contents. destruct (write_entry_ok f name es e plain data r c Hz) as (m & E & Hm). erewrite bind_Done_eq by exact E.
    erewrite (bind_Done_eq (count_written _ _)) by reflexivity. eexists. split; [reflexivity|]. split_and!; [done|done|by exists (plain ++ data)].
  - destruct (write_chunks_ok f name es e level plain data r c Hw (Hd eq_refl)) as (c' & E & Hw'). erewrite bind_Done_eq by exact E. by exists c'.
Qed.

Lemma close_current_ok f name es e t level plain r c :
  writes f name es e t level plain r c →
  ∃ c' contents, closeCurrentEntry c = Done ((), c') ∧ idle f name (es ++ [(e, contents)]) r c' ∧ holds t contents plain.
Proof.
  intros (Ho & Ht & contents & Hz & Hc). unfold closeCurrentEntry. erewrite (bind_Done_eq (get_state _)) by reflexivity. rewrite Ho, Ht. cbn [negb]. destruct t.
  - destruct (entry_close_law name es e contents _ f r Hz) as (m & E & Hm). erewrite (bind_Done_eq (mret ())) by reflexivity.
    erewrite bind_Done_eq by (by apply call_ok). by eexists _, contents.
  - destruct Hc as [Hc Hb]. destruct (end_law _ level contents plain (cr_buffer c) Hc) as (out & ctx & E & Hf); [rewrite Hb; by apply bound_le|].
    edestruct (write_entry_ok f name es e contents out r) as (m & E2 & Hm); [exact Hz|].
    destruct (entry_close_law name es e (contents ++ out) m f r Hm) as (m2 & E3 & Hm2).
    assert (Hend : ∃ c1, lz4_end c = Done ((), c1) ∧ cr_mz c1 = m).
    { unfold lz4_end. erewrite (bind_Done_eq (get_state _)) by reflexivity. erewrite bind_Done_eq by (by apply lz4_call_ok).
      unfold writeToCurrentZIPEntry in E2 |- *. unfold mbind, SM_bind. cbn [cr_mz]. destruct (mz_zip_writer_entry_write out (cr_mz c)) as [k m']. destruct (k <? 0); [done|].
      injection E2 as <- Em. eexists. split; [reflexivity|]. done. }
    destruct Hend as (c1 & E4 & <-). erewrite bind_Done_eq by exact E4. erewrite bind_Done_eq by (by apply call_ok). by eexists _, (contents ++ out).
Qed.

(** ** Split archives *)

Definition other_files : Archive → Prop := Forall (λ x : string * list Z, is_listfile_name x.1 = false).

(** The first listfile of an archive holds [plain]. *)
Definition listfile_of (es : Archive) (plain : list Z) : Prop :=
  ∃ pre e contents post, es = pre ++ (e, contents) :: post ∧ other_files pre ∧ is_listfile_name e = true ∧ holds (entry_type_of e) contents plain.

Context (setup : Setup).
Context (onOpen onClose : option (SM (Split M CC) ())).
Implicit Types s : Split M CC.

Let archive (n : Z) : string := part_name (su_filenamePrefix setup) n ".zip".

(** A callback that may add entries to the archive, but no listfile. *)
Definition adds_files (cb : option (SM (Split M CC) ())) : Prop := ∀ s f name es r, idle f name es r (sp_zip s) →
  ∃ s' more, callback cb s = Done ((), s') ∧ idle f name (es ++ more) r (sp_zip s') ∧ other_files more
    ∧ sp_setup s' = sp_setup s ∧ sp_partIndex s' = sp_partIndex s ∧ sp_isSplitEntry s' = sp_isSplitEntry s.

Context (Hopen : adds_files onOpen) (Hclose : adds_files onClose).
Context (Hprefix : good_prefix (su_filenamePrefix setup) = true) (Hsplit : splits (su_splitMode setup) = true).

(** The archives of the parts so far, and none with a later number. *)
Definition has_parts f (parts : list (list Z)) : Prop :=
  (∀ i plain, parts !! i = Some plain → ∃ es, f !! archive (Z.of_nat i + 1) = Some es ∧ listfile_of es plain)
  ∧ ∀ k, zlen parts < k < 2 ^ 64 → f !! archive k = None.

Definition params (n : Z) s : Prop := sp_setup s = setup ∧ sp_partIndex s = n.

(** Between two archives; with an open archive; with an open listfile. *)
Definition between f r (parts : list (list Z)) s : Prop :=
  zs (cr_mz (sp_zip s)) = mkZState f WClosed r ∧ hasOpenEntry (sp_zip s) = false ∧ has_parts f parts.
Definition started f r (parts : list (list Z)) s : Prop :=
  params (zlen parts + 1) s ∧ ∃ f0 es, f = <[archive (zlen parts + 1) := []]> f0 ∧ has_parts f0 parts
    ∧ idle f (archive (zlen parts + 1)) es r (sp_zip s) ∧ other_files es.
Definition recording f r (parts : list (list Z)) (plain : list Z) s : Prop :=
  params (zlen parts + 1) s ∧ sp_isSplitEntry s = true ∧ ∃ f0 es e, f = <[archive (zlen parts + 1) := []]> f0 ∧ has_parts f0 parts
    ∧ writes f (archive (zlen parts + 1)) es e (su_entryType setup) (su_compressLevel setup) plain r (sp_zip s) ∧ other_files es
    ∧ is_listfile_name e = true ∧ entry_type_of e = su_entryType setup.

Lemma on_zip_ok {A} (op : SM (Creator M CC) A) s a c' :
  op (sp_zip s) = Done (a, c') → on_zip op s = Done (a, mkSplit c' (sp_setup s) (sp_partIndex s) (sp_isSplitEntry s) (sp_partCreation s)).
Proof. intros H. unfold on_zip. by rewrite H. Qed.

Lemma createNextArchive_ok f r parts s :
  between f r parts s → params (zlen parts + 1) s → zlen parts + 1 < 2 ^ 64 →
  ∃ f' s', createNextArchive onOpen s = Done ((), s') ∧ started f' r parts s'.
Proof.
  intros (Hz & Ho & Hp) [Hs Hn] Hb. pose proof (zlen_nonneg parts).
  destruct (createArchive_ok f r (archive (zlen parts + 1)) (su_overwriteMode setup) _ Hz Ho) as (c' & E & Hi); [by apply Hp; lia|].
  unfold createNextArchive. do 2 erewrite (bind_Done_eq (get_state _)) by reflexivity. rewrite Hs, Hn. fold (archive (zlen parts + 1)).
  erewrite bind_Done_eq by (apply on_zip_ok; exact E).
  edestruct (Hopen (mkSplit c' (sp_setup s) (sp_partIndex s) (sp_isSplitEntry s) (sp_partCreation s))) as (s' & more & Ec & Hi' & Hm & Hs' & Hn' & _); [exact Hi|].
  do 2 eexists. split; [exact Ec|]. split; [split; [by rewrite Hs'|by rewrite Hn']|]. exists f, more. split_and!; done.
Qed.

Lemma no_separator_app a b : no_separator (a +:+ b) = no_separator a && no_separator b.
Proof. unfold no_separator. by rewrite los_app, forallb_app. Qed.
Lemma no_separator_chars ds : Forall (λ d, 0 ≤ d < 10) ds → no_separator (chars ds) = true.
Proof.
  intros H. unfold no_separator. rewrite los_chars. apply forallb_forall. intros x (d & -> & Hd)%list_elem_of_In%list_elem_of_fmap.
  rewrite Forall_forall in H. by apply (decimal_digit (λ x, negb (separator x)) d (H d Hd)).
Qed.

(** The names of members. *)
Lemma member_ok n s : params n s → 0 ≤ n < 2 ^ 64 →
  is_listfile_name (entry_file_name (su_entryType setup) (member_name s)) = true
  ∧ entry_type_of (entry_file_name (su_entryType setup) (member_name s)) = su_entryType setup.
Proof.
  intros [Hs Hn] Hb. destruct (dec3_digits n Hb) as (ds & Hds & Hne & Hd & _).
  assert (Hm : ∃ a, member_name s = (a +:+ (chars ds +:+ ".mvlclst"))%string).
  { assert (Hname : member_name s = basename (part_name (su_filenamePrefix setup) n ".mvlclst")) by (unfold member_name; rewrite Hs, Hn; by destruct (su_splitMode setup)).
    destruct (filename_law (su_filenamePrefix setup) ("_part" +:+ (chars ds +:+ ".mvlclst"))) as [a Ha]; [|done|].
    { by rewrite !no_separator_app, no_separator_chars. }
    exists (a +:+ "_part")%string. rewrite Hname. unfold basename, part_name. rewrite Hds, Ha, str_app_assoc. done. }
  destruct Hm as [a ->]. destruct (su_entryType setup); cbn [entry_file_name].
  - split; [|by rewrite <- str_app_assoc, entry_type_plain]. apply listfile_name_app. exact (chars_listfile ds "" Hne Hd).
  - split; [|apply entry_type_lz4]. rewrite !str_app_assoc. apply listfile_name_app. by apply chars_listfile.
Qed.

Lemma createListfileEntry_ok f r parts s :
  started f r parts s → zlen parts + 1 < 2 ^ 64 → (su_entryType setup = LZ4 → zlen (su_preamble setup) ≤ ChunkSize) →
  ∃ s', createListfileEntry s = Done ((), s') ∧ recording f r parts (su_preamble setup) s'.
Proof.
  intros ([Hs Hn] & f0 & es & Hf & Hp & Hi & He) Hb Hd. pose proof (zlen_nonneg parts). destruct (member_ok (zlen parts + 1) s) as [Hl Ht]; [done|lia|].
  destruct (create_entry_ok f (archive (zlen parts + 1)) es r (member_name s) (su_entryType setup) (su_compressLevel setup) _ Hi) as (c1 & E1 & Hw1).
  destruct (write_current_ok _ _ _ _ _ _ _ (su_preamble setup) _ _ Hw1 Hd) as (c2 & E2 & Hw2).
  unfold createListfileEntry. erewrite (bind_Done_eq (get_state _)) by reflexivity. unfold hasOpenEntry. rewrite (proj2 Hi).
  do 2 erewrite (bind_Done_eq (get_state _)) by reflexivity. rewrite Hs. erewrite bind_Done_eq by (apply on_zip_ok; exact E1).
  erewrite (bind_Done_eq (set_split _)) by reflexivity. erewrite (bind_Done_eq set_created) by reflexivity. erewrite bind_Done_eq by (apply on_zip_ok; exact E2).
  eexists. split; [reflexivity|]. split; [done|]. split; [exact Hsplit|]. exists f0, es. eexists. split_and!; done.
Qed.

Lemma split_close_ok f r parts plain s :
  recording f r parts plain s → zlen parts + 1 < 2 ^ 64 →
  ∃ f' s', split_closeArchive onClose s = Done ((), s') ∧ between f' r (parts ++ [plain]) s' ∧ params (zlen parts + 1) s'.
Proof.
  intros ([Hs Hn] & Hsp & f0 & es & e & Hf & Hp & Hw & He & Hl & Ht) Hb. destruct (close_current_ok _ _ _ _ _ _ _ _ _ Hw) as (c1 & contents & E1 & Hi1 & Hh).
  edestruct (Hclose (mkSplit c1 (sp_setup s) (sp_partIndex s) (sp_isSplitEntry s) (sp_partCreation s))) as (s2 & more & E2 & Hi2 & Hm & Hs2 & Hn2 & _); [exact Hi1|].
  destruct (closeArchive_writes _ _ _ _ _ Hi2) as (c3 & E3 & Hz3 & Ho3).
  unfold split_closeArchive. erewrite (bind_Done_eq (get_state _)) by reflexivity. unfold hasOpenEntry. rewrite (proj1 Hw).
  erewrite bind_Done_eq by (apply on_zip_ok; exact E1). erewrite bind_Done_eq by exact E2. do 2 eexists. split; [by apply on_zip_ok|].
  split; [|by split; cbn; [rewrite Hs2|rewrite Hn2]]. split_and!; [exact Hz3|done|]. rewrite Hf, insert_insert_eq. pose proof (zlen_nonneg parts). split.
  - intros i p Hip. destruct (decide (i = length parts)) as [->|Hne].
    + rewrite list_lookup_middle in Hip by done. simplify_eq. exists ((es ++ [(e, contents)]) ++ more). split; [by rewrite lookup_insert_eq|].
      exists es, e, contents, more. rewrite Ht, <- app_assoc. by split_and!.
    + assert (Hi : (i < length parts)%nat) by (apply lookup_lt_Some in Hip; rewrite length_app in Hip; cbn in Hip; lia).
      rewrite lookup_app_l in Hip by done. destruct (proj1 Hp i p Hip) as (es' & Hes & Hlf). exists es'. split; [|done].
      rewrite lookup_insert_ne; [done|]. intros Heq%part_name_inj; [unfold zlen in Heq; lia|done|unfold zlen in *; lia|unfold zlen in *; lia].
  - intros k Hk. rewrite zlen_app in Hk. change (zlen [plain]) with 1 in Hk. rewrite lookup_insert_ne; [apply (proj2 Hp); lia|].
    intros Heq%part_name_inj; [lia|done|lia|lia].
Qed.

Context (Hfit : su_entryType setup = LZ4 → zlen (su_preamble setup) ≤ ChunkSize).

Lemma start_part_ok f r parts plain s :
  recording f r parts plain s → zlen parts + 2 < 2 ^ 64 →
  ∃ f' s', start_part onOpen onClose s = Done ((), s') ∧ recording f' r (parts ++ [plain]) (su_preamble setup) s'.
Proof.
  intros Hr Hb. pose proof (zlen_nonneg parts). destruct (split_close_ok f r parts plain s Hr ltac:(lia)) as (f1 & s1 & E1 & Hb1 & [Hs1 Hn1]).
  assert (Hlen : zlen (parts ++ [plain]) = zlen parts + 1) by (by rewrite zlen_app).
  destruct (createNextArchive_ok f1 r (parts ++ [plain]) (mkSplit (sp_zip s1) (sp_setup s1) (zlen parts + 2) (sp_isSplitEntry s1) (sp_partCreation s1)))
    as (f2 & s2 & E2 & Hst); [done|split; [done|cbn; lia]|lia|].
  destruct (createListfileEntry_ok f2 r _ s2 Hst ltac:(lia) Hfit) as (s3 & E3 & Hr3). exists f2, s3. split; [|done].
  unfold start_part. erewrite bind_Done_eq by exact E1. erewrite (bind_Done_eq (get_state _)) by reflexivity.
  erewrite (bind_Done_eq (set_part _)) by reflexivity. rewrite Hn1. replace (u64 (zlen parts + 1 + 1)) with (zlen parts + 2).
  2:{ unfold u64. rewrite Z.mod_small by lia. lia. }
  erewrite bind_Done_eq by exact E2. exact E3.
Qed.

Lemma split_write_ok f r parts plain data s :
  recording f r parts plain s → zlen parts + 2 < 2 ^ 64 → (su_entryType setup = LZ4 → zlen data ≤ ChunkSize) →
  ∃ f' s', split_writeToCurrentEntry onOpen onClose data s = Done (zlen data, s')
    ∧ (recording f' r parts (plain ++ data) s' ∨ recording f' r (parts ++ [plain]) (su_preamble setup ++ data) s').
Proof.
  intros Hr Hb Hd.
  assert (Hwrite : ∀ f parts plain s, recording f r parts plain s →
    ∃ s', on_zip (writeToCurrentEntry data) s = Done (zlen data, s') ∧ recording f r parts (plain ++ data) s').
  { clear Hr Hb. intros f1 parts1 plain1 s1 (Hpar & Hsp & f0 & es & e & Hf & Hp & Hw & Hrest). destruct (write_current_ok _ _ _ _ _ _ _ data _ _ Hw Hd) as (c & E & Hw').
    eexists. split; [apply on_zip_ok; exact E|]. split; [done|]. split; [done|]. by exists f0, es, e. }
  unfold split_writeToCurrentEntry. erewrite (bind_Done_eq (get_state _)) by reflexivity. rewrite (proj1 (proj2 Hr)). cbn [negb].
  erewrite (bind_Done_eq (get_state _)) by reflexivity. destruct (needNewPart s).
  - destruct (start_part_ok f r parts plain s Hr Hb) as (f1 & s1 & E1 & Hr1). erewrite bind_Done_eq by exact E1.
    destruct (Hwrite _ _ _ _ Hr1) as (s2 & E2 & Hr2). exists f1, s2. split; [done|by right].
  - erewrite (bind_Done_eq (mret ())) by reflexivity. destruct (Hwrite _ _ _ _ Hr) as (s2 & E2 & Hr2). exists f, s2. split; [done|by left].
Qed.

(** ** A whole listfile *)

Fixpoint write_all (datas : list (list Z)) : SM (Split M CC) () :=
  match datas with [] => mret () | data :: datas => _ ← split_writeToCurrentEntry onOpen onClose data; write_all datas end.

(** The contents of a part. *)
Definition part_plain (writes : list (list Z)) : list Z := su_preamble setup ++ concat writes.

Lemma write_all_ok r datas : ∀ f parts current s,
  recording f r parts (part_plain current) s → zlen parts + zlen datas + 1 < 2 ^ 64 →
  (su_entryType setup = LZ4 → Forall (λ d : list Z, zlen d ≤ ChunkSize) datas) →
  ∃ f' s' finished last, write_all datas s = Done ((), s') ∧ recording f' r (parts ++ (part_plain <$> finished)) (part_plain last) s'
    ∧ concat (finished ++ [last]) = current ++ datas ∧ zlen finished ≤ zlen datas.
Proof.
  induction datas as [|data datas IH]; intros f parts current s Hr Hb Hd.
  - exists f, s, [], current. rewrite app_nil_r. cbn [concat app]. by split_and!.
  - rewrite zlen_cons in Hb. pose proof (zlen_nonneg datas). pose proof (zlen_nonneg parts).
    assert (Hd1 : su_entryType setup = LZ4 → zlen data ≤ ChunkSize) by (intros H1; by pose proof (Forall_inv (Hd H1))).
    assert (Hd2 : su_entryType setup = LZ4 → Forall (λ d : list Z, zlen d ≤ ChunkSize) datas) by (intros H1; by pose proof (Forall_inv_tail (Hd H1))).
    destruct (split_write_ok f r parts (part_plain current) data s Hr ltac:(lia) Hd1) as (f1 & s1 & E1 & Hr1). cbn [write_all]. erewrite bind_Done_eq by exact E1.
    destruct Hr1 as [Hr1|Hr1].
    + destruct (IH f1 parts (current ++ [data]) s1) as (f2 & s2 & fin & last & E2 & Hr2 & Hc & Hl).
      { unfold part_plain in *. rewrite concat_app, app_assoc. cbn. by rewrite app_nil_r. }
      { lia. }
      { done. }
      exists f2, s2, fin, last. rewrite <- app_assoc in Hc. split_and!; try done. rewrite zlen_cons. lia.
    + destruct (IH f1 (parts ++ [part_plain current]) [data] s1) as (f2 & s2 & fin & last & E2 & Hr2 & Hc & Hl).
      { unfold part_plain at 2. cbn. by rewrite app_nil_r. }
      { rewrite zlen_app. change (zlen [part_plain current]) with 1. lia. }
      { done. }
      exists f2, s2, (current :: fin), last. rewrite <- app_assoc in Hr2. split_and!; [done|done| |rewrite !zlen_cons; lia].
      cbn [concat app]. by rewrite Hc.
Qed.

(** Create the archives, write the listfile and close the last archive. *)
Definition record (datas : list (list Z)) : SM (Split M CC) () :=
  split_createArchive onOpen setup;; createListfileEntry;; write_all datas;; split_closeArchive onClose.

Lemma record_parts_ok f r datas s :
  between f r [] s → zlen datas < 2 ^ 62 → (su_entryType setup = LZ4 → Forall (λ d : list Z, zlen d ≤ ChunkSize) datas) →
  ∃ f' s' parts, record datas s = Done ((), s') ∧ between f' r (part_plain <$> parts) s' ∧ concat parts = datas ∧ parts ≠ [] ∧ zlen parts < 2 ^ 62 + 1.
Proof.
  intros Hb Hn Hd. pose proof Hb as (Hz & Ho & Hp).
  assert (E0 : ∃ f1 s1, split_createArchive onOpen setup s = Done ((), s1) ∧ started f1 r [] s1).
  { unfold split_createArchive. erewrite (bind_Done_eq (get_state _)) by reflexivity. unfold isOpen. rewrite is_open_law, Hz. cbn [zs_writer].
    erewrite (bind_Done_eq (set_setup _)) by reflexivity.
    destruct (createNextArchive_ok f r [] (mkSplit (sp_zip s) setup 1 (sp_isSplitEntry s) (sp_partCreation s))) as (f1 & s1 & E1 & H1); [done|done|done|].
    destruct (su_splitMode setup); [done| |]; (erewrite (bind_Done_eq (set_part _)) by reflexivity; by exists f1, s1). }
  destruct E0 as (f1 & s1 & E1 & H1). destruct (createListfileEntry_ok f1 r [] s1 H1 ltac:(done) Hfit) as (s2 & E2 & H2).
  destruct (write_all_ok r datas f1 [] [] s2) as (f3 & s3 & fin & last & E3 & H3 & Hc & Hl); [unfold part_plain; by rewrite app_nil_r|change (zlen []) with 0; lia|done|].
  cbn [app] in H3, Hc. destruct (split_close_ok f3 r _ _ s3 H3) as (f4 & s4 & E4 & H4 & _); [unfold zlen in *; rewrite length_fmap; lia|].
  exists f4, s4, (fin ++ [last]). unfold record. erewrite bind_Done_eq by exact E1. erewrite bind_Done_eq by exact E2. erewrite bind_Done_eq by exact E3.
  split_and!; [done|by rewrite fmap_app|done|by destruct fin|]. rewrite zlen_app. change (zlen [last]) with 1. lia.
Qed.

End Writing.
