(* ===== verification/ZipSim.v ===== *)
(** * A ZIP and an LZ4 library

    Small instances of [MinizipLaws] and [Lz4Laws], for the examples: archives that are kept
    in memory, and frames with a header byte in front of the inverted data. *)

From Stdlib Require Import Ascii String.
From S2P Require Import Prelude Effects Text ReadoutBuffer Listfile Zip ZipNames ZipLaws.
Open Scope list_scope.

(** ** Archives *)

Fixpoint after_separator (s : string) : string :=
  match s with
  | EmptyString => EmptyString
  | String c rest => if existsb separator (los rest) then after_separator rest else if separator c then rest else s
  end.

Definition on_writer (op : gmap string Archive → WState → option (gmap string Archive * WState)) (z : ZState) : Z * ZState :=
  match op (zs_files z) (zs_writer z) with Some (f, w) => (0, mkZState f w (zs_reader z)) | None => (-1, z) end.
Definition on_read (op : gmap string Archive → RState → Z * RState) (z : ZState) : Z * ZState :=
  let '(e, r) := op (zs_files z) (zs_reader z) in (e, mkZState (zs_files z) (zs_writer z) r).

Definition find_entry (name : string) (es : Archive) : option nat := fst <$> list_find (λ x : string * list Z, x.1 = name) es.

#[global] Instance sim_minizip : Minizip ZState := {
  mz_os_file_exists n z := bool_decide (is_Some (zs_files z !! n));
  mz_path_get_filename p := Some (after_separator p);
  steady_now _ := 0;
  mz_stream_open n := on_writer (λ f w, match w with WClosed => Some (<[n := []]> f, WStream n) | _ => None end);
  mz_stream_is_open z := match zs_writer z with WClosed => false | _ => true end;
  mz_stream_close := on_writer (λ f w, match w with WStream _ => Some (f, WClosed) | _ => None end);
  mz_zip_writer_open := on_writer (λ f w, match w with WStream n => Some (f, WOpen n [] None) | _ => None end);
  mz_zip_writer_close := on_writer (λ f w, match w with WOpen n es None => Some (<[n := es]> f, WStream n) | _ => None end);
  mz_zip_writer_entry_open e _ _ := on_writer (λ f w, match w with WOpen n es None => Some (f, WOpen n es (Some (e, []))) | _ => None end);
  mz_zip_writer_entry_write data z :=
    match zs_writer z with
    | WOpen n es (Some (e, c)) => (zlen data, mkZState (zs_files z) (WOpen n es (Some (e, c ++ data))) (zs_reader z))
    | _ => (-1, z)
    end;
  mz_zip_writer_entry_close := on_writer (λ f w, match w with WOpen n es (Some x) => Some (f, WOpen n (es ++ [x]) None) | _ => None end);
  mz_stream_os_open n := on_read (λ f r, match r, f !! n with RClosed, Some es => (0, RStream es) | _, _ => (-1, r) end);
  mz_stream_os_close := on_read (λ _ r, match r with RStream _ => (0, RClosed) | _ => (-1, r) end);
  mz_zip_reader_open := on_read (λ _ r, match r with RStream es => (0, ROpen es 0 None) | _ => (-1, r) end);
  mz_zip_reader_close := on_read (λ _ r, match r with ROpen es _ _ => (0, RStream es) | _ => (-1, r) end);
  mz_zip_reader_goto_first_entry := on_read (λ _ r, match r with ROpen [] _ None => (MZ_END_OF_LIST, r) | ROpen es _ None => (0, ROpen es 0 None) | _ => (-1, r) end);
  mz_zip_reader_goto_next_entry := on_read (λ _ r,
    match r with ROpen es i None => if (S i <? length es)%nat then (0, ROpen es (S i) None) else (MZ_END_OF_LIST, r) | _ => (-1, r) end);
  mz_zip_reader_entry_get_info z :=
    match zs_reader z with
    | ROpen es i _ => match es !! i with Some (e, c) => (0, (e, zlen c, zlen c), z) | None => (-1, (""%string, 0, 0), z) end
    | _ => (-1, (""%string, 0, 0), z)
    end;
  mz_zip_reader_locate_entry e := on_read (λ _ r,
    match r with ROpen es _ None => match find_entry e es with Some i => (0, ROpen es i None) | None => (MZ_END_OF_LIST, r) end | _ => (-1, r) end);
  mz_zip_reader_entry_open := on_read (λ _ r,
    match r with ROpen es i None => match es !! i with Some (_, c) => (0, ROpen es i (Some c)) | None => (-1, r) end | _ => (-1, r) end);
  mz_zip_reader_entry_read n z :=
    match zs_reader z with
    | ROpen es i (Some rest) => (zlen (ztake n rest), ztake n rest, mkZState (zs_files z) (zs_writer z) (ROpen es i (Some (zdrop n rest))))
    | _ => (-1, [], z)
    end;
  mz_zip_reader_entry_close := on_read (λ _ r, match r with ROpen es i (Some _) => (0, ROpen es i None) | _ => (-1, r) end)
}.

Lemma existsb_separator b : existsb separator (los b) = negb (no_separator b).
Proof.
  unfold no_separator. induction (los b) as [|c l IH]; [done|]. cbn [existsb forallb]. by rewrite IH, negb_andb, negb_involutive.
Qed.

Lemma after_separator_app a b : no_separator b = true → b ≠ ""%string → ∃ c, after_separator (a +:+ b) = (c +:+ b)%string.
Proof.
  intros Hb Hne. induction a as [|x a IH].
  - exists ""%string. change ("" +:+ b)%string with b. destruct b as [|c b]; [done|]. cbn [after_separator].
    unfold no_separator in Hb. cbn [los forallb] in Hb. apply andb_true_iff in Hb as [Hc Hb]. fold (no_separator b) in Hb. rewrite existsb_separator, Hb. cbn [negb].
    by destruct (separator c).
  - rewrite str_app_cons. cbn [after_separator]. destruct (existsb separator (los (a +:+ b))); [done|]. destruct (separator x); [by exists a|]. by exists (String x a).
Qed.

#[global] Program Instance sim_minizip_laws : MinizipLaws ZState := {| zs z := z |}.
Next Obligation. intros a b Hb Hne. destruct (after_separator_app a b Hb Hne) as [c Hc]. exists c. cbn. by rewrite Hc. Qed.
Next Obligation. done. Qed.
Next Obligation. done. Qed.
Next Obligation. intros n m f r ->. by eexists. Qed.
Next Obligation. intros n m f r ->. by eexists. Qed.
Next Obligation. intros n es e method level m f r ->. by eexists. Qed.
Next Obligation. intros n es e c data m f r ->. by eexists. Qed.
Next Obligation. intros n es e c m f r ->. by eexists. Qed.
Next Obligation. intros n es m f r ->. by eexists. Qed.
Next Obligation. intros n m f r ->. by eexists. Qed.
Next Obligation. intros n es m f w -> Hf. cbn. unfold on_read. cbn. rewrite Hf. by eexists. Qed.
Next Obligation. intros es m f w ->. by eexists. Qed.
Next Obligation. intros es m f w ->. by eexists. Qed.
Next Obligation. intros es i rest m f w ->. by eexists. Qed.
Next Obligation. intros es i m f w -> Hne. destruct es; [done|]. by eexists. Qed.
Next Obligation. intros es i m f w ->. cbn -[Nat.ltb]. unfold on_read. cbn [zs_files zs_reader zs_writer]. destruct (S i <? length es)%nat; (eexists; split; [reflexivity|done]). Qed.
Next Obligation. intros es i rest e c m f w -> Hl. cbn. rewrite Hl. by do 2 eexists. Qed.
Next Obligation.
  intros pre e c post i m f w -> Hnin. cbn. unfold on_read. cbn [zs_files zs_reader zs_writer].
  assert (Hf : find_entry e (pre ++ (e, c) :: post) = Some (length pre)).
  { unfold find_entry. rewrite (proj2 (list_find_Some (λ x : string * list Z, x.1 = e) _ (length pre) (e, c))); [done|]. split_and!; [by rewrite list_lookup_middle|done|].
    intros j y Hj Hlt Hy. rewrite lookup_app_l in Hj by done. apply Hnin. rewrite <- Hy. apply list_elem_of_fmap. exists y. split; [done|]. by eapply list_elem_of_lookup_2. }
  rewrite Hf. by eexists.
Qed.
Next Obligation. intros es i e c m f w -> Hl. cbn. unfold on_read. cbn [zs_files zs_reader zs_writer]. rewrite Hl. by eexists. Qed.
Next Obligation. intros es i rest n m f w -> Hn. by eexists. Qed.
Next Obligation. intros es i rest m f w ->. do 2 eexists. split; [reflexivity|]. split; [by left|done]. Qed.

(** ** Frames *)

Definition invert (l : list Z) : list Z := Z.lxor 255 <$> l.
Lemma invert_invert l : invert (invert l) = l.
Proof. induction l as [|x l IH]; [done|]. cbn. f_equal; [|done]. by rewrite <- Z.lxor_assoc, Z.lxor_nilpotent, Z.lxor_0_l. Qed.
Lemma invert_app l k : invert (l ++ k) = invert l ++ invert k.
Proof. apply fmap_app. Qed.

#[global] Instance sim_compression : Lz4Compression unit := {
  LZ4F_createCompressionContext := (0, ());
  LZ4F_compressBound n _ := n + 1;
  LZ4F_compressBegin _ size ctx := (if size <? 1 then inl 1 else inr [4], ctx);
  LZ4F_compressUpdate size data ctx := (if size <? zlen data + 1 then inl 1 else inr (invert data), ctx);
  LZ4F_compressEnd _ ctx := (inr [], ctx)
}.
#[global] Instance sim_decompression : Lz4Decompression unit := {
  LZ4F_resetDecompressionContext ctx := ctx;
  LZ4F_getFrameInfo bytes ctx := (match bytes with [] => inl 1 | _ => inr (LZ4F_max64KB, 1) end, ctx);
  LZ4F_decompress size src ctx := (inr (invert (ztake size src), zlen (ztake size src)), ctx)
}.

#[global] Program Instance sim_lz4_laws : Lz4Laws unit unit :=
  {| cc_sofar _ _ out plain := out = 4 :: invert plain; is_frame frame plain := frame = 4 :: invert plain; dc_rest _ rest plain := plain = invert rest |}.
Next Obligation. intros n n' level H. cbn. lia. Qed.
Next Obligation. intros n level H. cbn. lia. Qed.
Next Obligation. done. Qed.
Next Obligation. intros level size H. cbn in *. destruct (Z.ltb_spec size 1); [lia|]. by do 2 eexists. Qed.
Next Obligation.
  intros ctx level out plain data size -> Hne Hs. cbn in *. destruct (Z.ltb_spec size (zlen data + 1)); [lia|]. do 2 eexists. split; [reflexivity|].
  by rewrite invert_app.
Qed.
Next Obligation. intros ctx level out plain size -> Hs. exists [], ctx. split; [done|]. exact (app_nil_r _). Qed.
Next Obligation.
  intros frame plain ctx n -> Hn. split; [done|]. unfold ChunkSize in Hn. assert (E : ∃ l, ztake n (4 :: invert plain) = 4 :: l).
  { unfold ztake. destruct (Z.to_nat n) eqn:E; [lia|]. by eexists. }
  destruct E as [l ->]. exists LZ4F_max64KB, 1, ctx, (1 ≪ 16). rewrite zlen_cons. pose proof (zlen_nonneg l). split_and!; [done|lia|lia|done|].
  change (zdrop 1 (4 :: invert plain)) with (invert plain). by rewrite invert_invert.
Qed.
Next Obligation.
  intros ctx src more plain size -> Hne Hs. exists (invert (ztake size src)), (zlen (ztake size src)), ctx, (invert (zdrop size src ++ more)).
  pose proof (zlen_nonneg (ztake size src)). assert (Hle : zlen (ztake size src) ≤ zlen src) by (unfold zlen, ztake; rewrite length_take; lia).
  assert (Hd : zdrop (zlen (ztake size src)) src = zdrop size src).
  { unfold zdrop, zlen, ztake. rewrite Nat2Z.id, length_take. destruct (Nat.le_ge_cases (Z.to_nat size) (length src)); [by rewrite Nat.min_l|].
    rewrite Nat.min_r by done. by rewrite !drop_ge by lia. }
  rewrite Hd. split_and!; [done|done|done| |done|].
  - by rewrite <- invert_app, app_assoc, ztake_zdrop.
  - right. destruct src; [done|]. unfold ztake. by destruct (Z.to_nat size) eqn:E; [lia|].
Qed.
Next Obligation. by intros ctx plain ->. Qed.
