(* ===== verification/ZipFacts.v ===== *)
(** * Split listfiles: what was written is read back

    The creator and the reader of split archives together, and what goes wrong when a split
    listfile is sought in. *)

From Stdlib Require Import Ascii String.
From S2P Require Import Prelude Effects Text ReadoutBuffer Listfile Zip ZipNames ZipLaws ZipReading ZipWriting ZipSim.
Open Scope list_scope.

Section RoundTrip.
Context {M CC DC : Type} {HM : Minizip M} {HML : MinizipLaws M} {HC : Lz4Compression CC} {HD : Lz4Decompression DC} {HL : Lz4Laws CC DC}.

(** ** Reading a listfile in pieces *)

Fixpoint read_pieces (fuel : nat) (sizes : list Z) : SM (SplitReader M DC) (list (list Z)) :=
  match sizes with
  | [] => mret []
  | n :: sizes => piece ← split_readCurrentEntry fuel n; pieces ← read_pieces fuel sizes; mret (piece :: pieces)
  end.

Definition read_listfile (fuel : nat) (name : string) (sizes : list Z) : SM (SplitReader M DC) (list (list Z)) :=
  split_openArchive fuel name;; openFirstListfileEntry;; read_pieces fuel sizes.

(** A stream cut into pieces; shorter ones only at its end. *)
Fixpoint cut (sizes : list Z) (stream : list Z) : list (list Z) :=
  match sizes with [] => [] | n :: sizes => ztake n stream :: cut sizes (zdrop n stream) end.

Lemma read_pieces_ok f w fuel sizes : ∀ rest plains (q : SplitReader M DC),
  split_reads (CC := CC) fuel f w rest plains q → Forall (λ n, 0 ≤ n) sizes → (2 * length plains + 2 ≤ fuel)%nat →
  ∃ q', read_pieces fuel sizes q = Done (cut sizes (split_stream rest plains), q').
Proof.
  induction sizes as [|n sizes IH]; intros rest plains q Hq Hn Hf; [by exists q|]. apply Forall_cons in Hn as [Hn Hns].
  destruct (read_parts_ok fuel f w n fuel [] rest plains q Hq Hn) as (q1 & rest1 & plains1 & E1 & Hq1 & Hs1 & Hl1); [unfold rounds_for; destruct rest; lia|].
  rewrite Z.sub_0_r in E1, Hs1. destruct (IH rest1 plains1 q1 Hq1 Hns ltac:(lia)) as (q2 & E2). exists q2. cbn [read_pieces cut].
  assert (E0 : split_readCurrentEntry fuel n q = Done (ztake n (split_stream rest plains), q1)).
  { unfold split_readCurrentEntry. erewrite (bind_Done_eq (get_state _)) by reflexivity. rewrite (proj1 Hq). exact E1. }
  erewrite bind_Done_eq by exact E0. erewrite bind_Done_eq by exact E2. by rewrite Hs1.
Qed.

Lemma listfile_fuel es plain : listfile_of (CC := CC) (DC := DC) es plain → ∃ K, ∀ fuel, (K ≤ fuel)%nat → listfile_in (CC := CC) (DC := DC) fuel es plain.
Proof.
  intros (pre & e & c & post & -> & Hp & He & Hh). exists (S (length c + length plain + length (pre ++ (e, c) :: post))). intros fuel Hf.
  exists pre, e, c, post. split_and!; try done; lia.
Qed.

Lemma enough {A} (P : nat → A → nat → Prop) (l : list A) :
  (∀ i x, l !! i = Some x → ∃ K, ∀ k, (K ≤ k)%nat → P i x k) → ∃ K, ∀ k, (K ≤ k)%nat → ∀ i x, l !! i = Some x → P i x k.
Proof.
  revert P. induction l as [|x l IH]; intros P H; [by exists 0%nat|]. destruct (H 0%nat x eq_refl) as [K1 H1].
  destruct (IH (λ i, P (S i)) (λ i, H (S i))) as [K2 H2]. exists (Nat.max K1 K2). intros k Hk [|i] y Hy.
  - cbn in Hy. simplify_eq. apply H1. lia.
  - apply H2; [lia|done].
Qed.

Section Parts.
Context (setup : Setup) (Hprefix : good_prefix (su_filenamePrefix setup) = true).
Let archive (n : Z) : string := part_name (su_filenamePrefix setup) n ".zip".

Lemma after_parts fuel f (parts : list (list Z)) :
  zlen parts < 2 ^ 62 + 1 → (∀ k, zlen parts < k < 2 ^ 64 → f !! archive k = None) →
  (∀ i plain, parts !! i = Some plain → ∃ es, f !! archive (Z.of_nat i + 1) = Some es ∧ listfile_in (CC := CC) (DC := DC) fuel es plain) →
  ∀ i, (i < length parts)%nat → archives_after (CC := CC) (DC := DC) fuel f (archive (Z.of_nat i + 1)) (drop (S i) parts).
Proof.
  intros Hb Hnone Hin i Hi. remember (drop (S i) parts) as plains eqn:Hd. revert i Hi Hd. induction plains as [|plain plains IH]; intros i Hi Hd.
  - exists (archive (Z.of_nat i + 1 + 1)). split; [apply next_part; [done|lia|unfold zlen in Hb; lia]|]. apply Hnone.
    apply (f_equal length) in Hd. rewrite length_drop in Hd. cbn in Hd. unfold zlen in *. lia.
  - assert (Hl : parts !! S i = Some plain) by (rewrite <- (Nat.add_0_r (S i)), <- lookup_drop, <- Hd; done). pose proof (lookup_lt_Some _ _ _ Hl) as Hlt.
    destruct (Hin (S i) plain Hl) as (es & Hes & Hlf). exists (archive (Z.of_nat i + 1 + 1)), es.
    replace (Z.of_nat (S i) + 1) with (Z.of_nat i + 1 + 1) in Hes by lia. split_and!; [apply next_part; [done|lia|unfold zlen in Hb; lia]|done|done|].
    replace (Z.of_nat i + 1 + 1) with (Z.of_nat (S i) + 1) by lia. apply IH; [lia|]. rewrite (drop_S _ _ _ Hl) in Hd. by simplify_eq.
Qed.

(** Reading the archives from the first one. *)
Lemma read_listfile_ok f (parts : list (list Z)) plain plains :
  parts = plain :: plains → zlen parts < 2 ^ 62 + 1 → has_parts (CC := CC) (DC := DC) setup f parts →
  ∃ K, ∀ fuel sizes w (q : SplitReader M DC), (K ≤ fuel)%nat → Forall (λ n, 0 ≤ n) sizes → zs (rd_mz (sr_zip q)) = mkZState f w RClosed →
    ∃ q', read_listfile fuel (archive 1) sizes q = Done (cut sizes (split_stream plain plains), q').
Proof.
  intros Hparts Hb [Hin Hnone].
  destruct (enough (λ i plain fuel, ∃ es, f !! archive (Z.of_nat i + 1) = Some es ∧ listfile_in (CC := CC) (DC := DC) fuel es plain) parts) as [K HK].
  { intros i p Hip. destruct (Hin i p Hip) as (es & Hes & Hlf). destruct (listfile_fuel es p Hlf) as [K HK]. exists K. intros k Hk. exists es. split; [done|by apply HK]. }
  exists (Nat.max K (2 * length plains + 2)). intros fuel sizes w q Hf Hn Hz. specialize (HK fuel ltac:(lia)).
  destruct (HK 0%nat plain) as (es & Hes & Hlf); [by rewrite Hparts|]. cbn in Hes.
  destruct (open_listfile_ok fuel f w (archive 1) es plain (sr_zip q) Hz Hes Hlf) as (r2 & i & E & Hr & _).
  unfold mbind at 1, SM_bind at 1 in E. destruct (openArchive fuel (archive 1) (sr_zip q)) as [[[] r1]| | |] eqn:E1; try done.
  unfold mbind, SM_bind, get_state in E. cbv beta iota in E.
  destruct (read_pieces_ok f w fuel sizes plain plains (mkSplitReader r2 true (archive 1) (archive 1))) as (q' & Eq); [|done|lia|].
  { split_and!; [done|by exists es, i|]. cbn [sr_currentArchive]. pose proof (after_parts fuel f parts Hb Hnone HK 0%nat) as Ha. rewrite Hparts in Ha. apply Ha. cbn. lia. }
  exists q'. unfold read_listfile. assert (E2 : split_openArchive fuel (archive 1) q = Done ((), mkSplitReader r1 (sr_isSplitEntry q) (archive 1) (archive 1))).
  { unfold split_openArchive. by erewrite bind_Done_eq by (apply on_reader_ok; exact E1). }
  erewrite bind_Done_eq by exact E2.
  assert (E3 : openFirstListfileEntry (mkSplitReader r1 (sr_isSplitEntry q) (archive 1) (archive 1)) = Done ((), mkSplitReader r2 true (archive 1) (archive 1))).
  { unfold openFirstListfileEntry. erewrite (bind_Done_eq (get_state _)) by reflexivity. by erewrite bind_Done_eq by (apply on_reader_ok; exact E). }
  erewrite bind_Done_eq by exact E3. exact Eq.
Qed.

End Parts.

(** The listfile that is read from the parts with these writes: the preamble appears in front
    of each part, without the magic bytes from the second one on. *)
Definition listfile_stream (setup : Setup) (parts : list (list (list Z))) : list Z :=
  match parts with
  | [] => []
  | writes :: parts => split_stream (part_plain setup writes) (part_plain setup <$> parts)
  end.

(** C23: A listfile that is split into several archives, by size or by time, plain or compressed,
    can be read back, if the prefix of the file names is not empty and has no line break, no
    file with the name of a part exists, and, for compressed listfiles, neither the preamble
    nor a single write is longer than 1 MiB (a longer write can fail, see
    [long_write_refused]).  Creating the archives, writing the listfile and closing succeed;
    each part holds whole writes, in order; and a reader that starts with the first archive
    gets, with whatever sizes it asks for, one stream: the preamble and the writes of the first
    part, then for each further part the preamble without the magic bytes and its writes.
    The callbacks may add other files to the archives.  Enough rounds for the reader exist. *)
Theorem split_archives_roundtrip (setup : Setup) (onOpen onClose : option (SM (Split M CC) ())) (datas : list (list Z)) (s : Split M CC) :
  adds_files onOpen → adds_files onClose →
  good_prefix (su_filenamePrefix setup) = true → splits (su_splitMode setup) = true →
  zs_writer (zs (cr_mz (sp_zip s))) = WClosed → hasOpenEntry (sp_zip s) = false →
  (∀ n, 0 < n < 2 ^ 64 → zs_files (zs (cr_mz (sp_zip s))) !! part_name (su_filenamePrefix setup) n ".zip" = None) →
  (su_entryType setup = LZ4 → Forall (λ d : list Z, zlen d ≤ ChunkSize) (su_preamble setup :: datas)) → zlen datas < 2 ^ 62 →
  ∃ s' parts, record setup onOpen onClose datas s = Done ((), s') ∧ zs_writer (zs (cr_mz (sp_zip s'))) = WClosed ∧ concat parts = datas
    ∧ ∃ K, ∀ fuel sizes (q : SplitReader M DC), (K ≤ fuel)%nat → Forall (λ n, 0 ≤ n) sizes →
        zs_files (zs (rd_mz (sr_zip q))) = zs_files (zs (cr_mz (sp_zip s'))) → zs_reader (zs (rd_mz (sr_zip q))) = RClosed →
        ∃ q', read_listfile fuel (part_name (su_filenamePrefix setup) 1 ".zip") sizes q = Done (cut sizes (listfile_stream setup parts), q').
Proof.
  intros Ho Hc Hp Hs Hw He Hf Hfit Hn.
  destruct (record_parts_ok setup onOpen onClose Ho Hc Hp Hs (λ H, Forall_inv (Hfit H)) (zs_files (zs (cr_mz (sp_zip s)))) (zs_reader (zs (cr_mz (sp_zip s)))) datas s)
    as (f & s' & parts & E & (Hz & _ & Hparts) & Hd & Hne & Hb).
  - split_and!; [destruct (zs (cr_mz (sp_zip s))); cbn in *; by subst|done|]. split; [done|]. intros k Hk. apply Hf. change (zlen []) with 0 in Hk. lia.
  - done.
  - intros H. exact (Forall_inv_tail (Hfit H)).
  - exists s', parts. rewrite Hz. split_and!; [done|done|done|]. destruct parts as [|p parts]; [done|].
    destruct (read_listfile_ok setup Hp f (part_plain setup <$> p :: parts) (part_plain setup p) (part_plain setup <$> parts)) as [K HK];
      [done|unfold zlen in *; by rewrite length_fmap|done|].
    exists K. intros fuel sizes q Hk Hsz Hfs Hr. apply (HK fuel sizes (zs_writer (zs (rd_mz (sr_zip q)))) q Hk Hsz).
    cbn in Hfs. destruct (zs (rd_mz (sr_zip q))); cbn in *; by subst.
Qed.

(** A callback that adds a file. *)
Definition add_file (name : string) (data : list Z) : SM (Split M CC) () :=
  on_zip (createZIPEntry name 1;; _ ← writeToCurrentEntry data; closeCurrentEntry).

Lemma add_file_ok name data : is_listfile_name name = false → adds_files (Some (add_file name data)).
Proof.
  intros Hname s f n es r Hi. destruct (create_entry_ok f n es r name ZIP 1 _ Hi) as (c1 & E1 & H1).
  destruct (write_current_ok _ _ _ _ _ _ _ data _ _ H1) as (c2 & E2 & H2); [done|]. destruct (close_current_ok _ _ _ _ _ _ _ _ _ H2) as (c3 & contents & E3 & H3 & _).
  eexists _, [(name, contents)]. split.
  - cbn [callback]. unfold add_file. apply on_zip_ok. erewrite bind_Done_eq by exact E1. erewrite bind_Done_eq by exact E2. exact E3.
  - split_and!; [done|by apply Forall_singleton|done|done|done].
Qed.

Lemma no_callback_ok : adds_files (M := M) (CC := CC) None.
Proof. intros s f n es r Hi. exists s, []. rewrite app_nil_r. split_and!; [done|done|by apply Forall_nil|done|done|done]. Qed.

End RoundTrip.

(** ** An example *)

Definition sample_setup : Setup := mkSetup LZ4 0 DontOverwrite SplitBySize 18 0 "/data/run" (get_filemagic_usb ++ [1; 2; 3; 4]).
Definition sample_writes : list (list Z) := [[10; 11; 12; 13]; [14; 15]; [16; 17; 18; 19]].
Definition sample_creator : Split ZState unit := mkSplit (mkCreator (mkZState ∅ WClosed RClosed) no_entry () 0 "") sample_setup 0 false 0.
Definition sample_reader (z : ZState) : SplitReader ZState unit := mkSplitReader (mkReader z [] no_entry () 0 [] []) false "" "".

Lemma split_archives_roundtrip_witness :
  ∃ s' parts, record sample_setup None (Some (add_file "messages.log" [104; 105])) sample_writes sample_creator = Done ((), s')
    ∧ zs_writer (zs (cr_mz (sp_zip s'))) = WClosed ∧ concat parts = sample_writes
    ∧ ∃ K, ∀ fuel sizes (q : SplitReader ZState unit), (K ≤ fuel)%nat → Forall (λ n, 0 ≤ n) sizes →
        zs_files (zs (rd_mz (sr_zip q))) = zs_files (zs (cr_mz (sp_zip s'))) → zs_reader (zs (rd_mz (sr_zip q))) = RClosed →
        ∃ q', read_listfile fuel (part_name (su_filenamePrefix sample_setup) 1 ".zip") sizes q = Done (cut sizes (listfile_stream sample_setup parts), q').
Proof.
  apply (split_archives_roundtrip (DC := unit) sample_setup None (Some (add_file "messages.log" [104; 105])) sample_writes sample_creator).
  - apply no_callback_ok.
  - by apply add_file_ok.
  - reflexivity.
  - reflexivity.
  - reflexivity.
  - reflexivity.
  - intros n _. apply lookup_empty.
  - intros _. repeat constructor; by vm_compute.
  - by vm_compute.
Defined.

Definition recorded : option ZState :=
  match record sample_setup None (Some (add_file "messages.log" [104; 105])) sample_writes sample_creator with
  | Done (_, s') => Some (cr_mz (sp_zip s'))
  | _ => None
  end.
Definition read_recorded {A} (m : SM (SplitReader ZState unit) A) : option A :=
  match recorded with
  | Some z => match m (sample_reader z) with Done (a, _) => Some a | _ => None end
  | None => None
  end.

(** The second write still goes to the first part; the third one starts the second part. *)
Example sample_read : read_recorded (read_listfile 40 "/data/run_part001.zip" [20; 100; 5])
  = Some [get_filemagic_usb ++ [1; 2; 3; 4; 10; 11; 12; 13; 14; 15; 1; 2]; [3; 4; 16; 17; 18; 19]; []].
Proof. by vm_compute. Qed.

(** Seeking a split listfile reaches only the first part: the loop seeks the rest of the
    distance from the start of the first part again.  The listfile has 26 bytes, 18 of them
    from the first part; [seek 20] reports success, but the position is 2. *)
Lemma split_seek_stays_in_first_part :
  read_recorded (_ ← read_listfile 40 "/data/run_part001.zip" [4]; n ← split_seek 40 20; bytes ← split_readCurrentEntry 40 4; mret (n, bytes))
    = Some (20, ztake 4 (zdrop 2 get_filemagic_usb))
  ∧ read_recorded (read_listfile 40 "/data/run_part001.zip" [20; 4]) = Some [get_filemagic_usb ++ [1; 2; 3; 4; 10; 11; 12; 13; 14; 15; 1; 2]; [3; 4; 16; 17]].
Proof. by vm_compute. Qed.

(** The buffer of the compression is larger than the chunks it was made for, and the loop cuts
    the input by the size of the buffer: a library that insists on the size it asks for refuses
    a long write. *)
Lemma long_write_refused ctx data : zlen data = ChunkSize + 1 →
  (LZ4F_compressUpdate (LZ4F_compressBound ChunkSize 0) (ztake (Z.min (zlen data) (LZ4F_compressBound ChunkSize 0)) data) ctx).1 = inl 1.
Proof.
  intros Hd. cbn -[ChunkSize]. rewrite Hd, Z.min_id. rewrite ztake_all by lia. rewrite Hd. destruct (Z.ltb_spec (ChunkSize + 1) (ChunkSize + 1 + 1)); [done|lia].
Qed.
