(* ===== verification/BlockingApi.v ===== *)
(** * The blocking data API: [mvlc_blocking_data_api.h], [mvlc_blocking_data_api.cc]

    [next_event] turns the callbacks of the readout parser around: the user asks for the
    next event and waits for it.  Three threads meet in a [BlockingContext]: the parser
    thread ([run_readout_parser] of [mvlc_readout_parser_util.cc]), whose callbacks put one
    event into the context; the user, who takes it out; and the monitor, which waits for the
    end of the run and puts in a last event of type [None].  A fourth one, the readout or
    replay worker, fills the buffers the parser gets.

    A critical section is one step of its thread, and so is a call of [notify_one]; waiting
    on the condition variable is looking at the predicate and going to sleep if it does not
    hold.  [exec] runs one step, named by a [label]; an interleaving is a list of labels.

    An event in the context holds pointers into memory of the parser.  The array of
    [ModuleData] it points to is always the [moduleDataBuffer] of the parser state, which is
    part of the system ([s_memory]).  The pointer to the header of a system event is
    represented by the number of the callback that passed it. *)

From stdpp Require Import relations.
From S2P Require Import Prelude Constants Commands ReadoutBuffer BufferQueues ReadoutParser.

(** ** Events *)

(* mvlc_blocking_data_api.h:18-23 EventContainer::Type *)
Inductive EventType : Type := NoneEvent | ReadoutEvent | SystemEventType.

Inductive pointer : Type := nullptr | ModuleDataBuffer | HeaderOfCall (n : nat).

#[global] Instance EventType_eq_dec : EqDecision EventType.
Proof. solve_decision. Defined.

#[global] Instance pointer_eq_dec : EqDecision pointer.
Proof. solve_decision. Defined.

(* mvlc_blocking_data_api.h:16-47 EventContainer *)
Record EventContainer : Type := mkEventContainer {
  ec_type : EventType;
  ec_eventIndex : Z;
  ec_moduleDataList : pointer;
  ec_moduleCount : Z;
  ec_header : pointer;
  ec_size : Z;
  ec_crateId : Z
}.

#[global] Instance EventContainer_eq_dec : EqDecision EventContainer.
Proof. solve_decision. Defined.

(* mvlc_blocking_data_api.h:43-46 operator bool *)
Definition is_event (e : EventContainer) : bool := negb (bool_decide (ec_type e = NoneEvent)).

(* mvlc_blocking_data_api.cc:120-122 monitor *)
Definition none_event : EventContainer := mkEventContainer NoneEvent 0 nullptr 0 nullptr 0 0.

(** The callbacks copy their arguments; the crate index is not used. *)
(* mvlc_blocking_data_api.cc:36-39 event_data_blocking *)
Definition readout_event (eventIndex : Z) (moduleDataList : list ModuleData) : EventContainer :=
  mkEventContainer ReadoutEvent eventIndex ModuleDataBuffer (zlen moduleDataList) nullptr 0 0.

(* mvlc_blocking_data_api.cc:64-67 system_event_blocking *)
Definition system_event (header : nat) (words : list Z) : EventContainer :=
  mkEventContainer SystemEventType 0 nullptr 0 (HeaderOfCall header) (zlen words) 0.

(** The event of call number [n] of the parser. *)
(* mvlc_blocking_data_api.cc:190-194 make_mvlc_readout_blocking *)
Definition event_of_call (n : nat) (c : CallbackEvent) : EventContainer :=
  match c with
  | EventData _ eventIndex moduleDataList => readout_event eventIndex moduleDataList
  | SystemEvent _ words => system_event n words
  end.

(** ** The context *)

(* mvlc_blocking_data_api.cc:10-17 BlockingContext *)
Record BlockingContext : Type := mkBlockingContext { ready_ : bool; processed_ : bool; event_ : EventContainer }.

(* mvlc_blocking_data_api.cc:14-16 BlockingContext *)
Definition new_context : BlockingContext := mkBlockingContext false true none_event.

(* mvlc_blocking_data_api.cc:41-43 event_data_blocking *)
Definition post (e : EventContainer) : BlockingContext := mkBlockingContext true false e.

(* mvlc_blocking_data_api.cc:296-300 next_event *)
Definition accept (c : BlockingContext) : BlockingContext := mkBlockingContext false true (event_ c).

(** ** Threads *)

(** In the parser thread: looking at [quit], in [dequeue], in the wait of a callback for
    the first of some calls, behind the critical section of a callback, returning the
    buffer. *)
Inductive ParserPc : Type :=
| P_quit
| P_dequeue
| P_call (b : ReadoutBuffer) (c : CallbackEvent) (cs : list CallbackEvent) (sleeping : bool)
| P_notify (b : ReadoutBuffer) (cs : list CallbackEvent)
| P_return (b : ReadoutBuffer)
| P_done.

Inductive MonitorPc : Type := M_idle | M_queue | M_quit | M_join | M_wait (sleeping : bool) | M_notify | M_done.

(** Outside of [next_event], behind its first critical section, in its wait, behind it. *)
Inductive ConsumerPc : Type := C_out | C_notify | C_wait (sleeping : bool) | C_return.

(** [s_todo] is what the worker still has to deliver; [s_posted], [s_returned] and
    [s_skipped] are the history of the run: how many events were put into the context,
    which ones [next_event] returned, and how many it threw away unseen. *)
Record System : Type := mkSystem {
  s_ctx : BlockingContext;
  s_world : World;
  s_memory : list ModuleData;
  s_queues : ReadoutBufferQueues;
  s_todo : list ReadoutBuffer;
  s_idle : bool;
  s_parserQuit : bool;
  s_parser : ParserPc;
  s_monitor : MonitorPc;
  s_consumer : ConsumerPc;
  s_posted : nat;
  s_returned : list EventContainer;
  s_skipped : nat
}.

(** Right after [start]: the threads run and the user has not called [next_event] yet. *)
(* mvlc_blocking_data_api.cc:167-184 BlockingReadout::start *)
Definition start_run (buffers : list ReadoutBuffer) (pool : list ReadoutBuffer) (w : World) : System :=
  mkSystem new_context w (moduleDataBuffer (w_state w)) (mkQueues [] pool) buffers false false P_quit M_idle C_out 0 [] 0.

Definition set_ctx (c : BlockingContext) (s : System) : System :=
  mkSystem c (s_world s) (s_memory s) (s_queues s) (s_todo s) (s_idle s) (s_parserQuit s) (s_parser s) (s_monitor s) (s_consumer s)
    (s_posted s) (s_returned s) (s_skipped s).
Definition set_parser (p : ParserPc) (s : System) : System :=
  mkSystem (s_ctx s) (s_world s) (s_memory s) (s_queues s) (s_todo s) (s_idle s) (s_parserQuit s) p (s_monitor s) (s_consumer s)
    (s_posted s) (s_returned s) (s_skipped s).
Definition set_monitor (m : MonitorPc) (s : System) : System :=
  mkSystem (s_ctx s) (s_world s) (s_memory s) (s_queues s) (s_todo s) (s_idle s) (s_parserQuit s) (s_parser s) m (s_consumer s)
    (s_posted s) (s_returned s) (s_skipped s).
Definition set_consumer (c : ConsumerPc) (s : System) : System :=
  mkSystem (s_ctx s) (s_world s) (s_memory s) (s_queues s) (s_todo s) (s_idle s) (s_parserQuit s) (s_parser s) (s_monitor s) c
    (s_posted s) (s_returned s) (s_skipped s).
Definition set_queues (q : ReadoutBufferQueues) (s : System) : System :=
  mkSystem (s_ctx s) (s_world s) (s_memory s) q (s_todo s) (s_idle s) (s_parserQuit s) (s_parser s) (s_monitor s) (s_consumer s)
    (s_posted s) (s_returned s) (s_skipped s).

(** One event is put into the context. *)
Definition post_event (e : EventContainer) (s : System) : System :=
  mkSystem (post e) (s_world s) (s_memory s) (s_queues s) (s_todo s) (s_idle s) (s_parserQuit s) (s_parser s) (s_monitor s) (s_consumer s)
    (S (s_posted s)) (s_returned s) (s_skipped s).

(** ** The condition variable *)

Inductive thread_id : Type := TParser | TMonitor | TConsumer.

Definition asleep (t : thread_id) (s : System) : bool :=
  match t with
  | TParser => match s_parser s with P_call _ _ _ b => b | _ => false end
  | TMonitor => match s_monitor s with M_wait b => b | _ => false end
  | TConsumer => match s_consumer s with C_wait b => b | _ => false end
  end.

Definition wake (t : thread_id) (s : System) : System :=
  match t with
  | TParser => match s_parser s with P_call b c cs _ => set_parser (P_call b c cs false) s | _ => s end
  | TMonitor => match s_monitor s with M_wait _ => set_monitor (M_wait false) s | _ => s end
  | TConsumer => match s_consumer s with C_wait _ => set_consumer (C_wait false) s | _ => s end
  end.

(** [notify_one] wakes one of the sleeping threads, if there is one. *)
Definition notify_one (who : option thread_id) (s : System) : option System :=
  match who with
  | Some t => if asleep t s then Some (wake t s) else None
  | None => if asleep TParser s || asleep TMonitor s || asleep TConsumer s then None else Some s
  end.

(** ** The worker *)

(** It fills an empty buffer, or is done; the workers are modelled in [Replay] and
    [ReadoutLoop]. *)
Definition worker_step (s : System) : option System :=
  if s_idle s then None else
  match s_todo s with
  | [] => Some (mkSystem (s_ctx s) (s_world s) (s_memory s) (s_queues s) [] true (s_parserQuit s) (s_parser s) (s_monitor s) (s_consumer s)
                  (s_posted s) (s_returned s) (s_skipped s))
  | b :: todo =>
      match dequeue (emptyBuffers (s_queues s)) with
      | (Some _, pool) =>
          Some (mkSystem (s_ctx s) (s_world s) (s_memory s) (mkQueues (enqueue b (filledBuffers (s_queues s))) pool) todo false
                  (s_parserQuit s) (s_parser s) (s_monitor s) (s_consumer s) (s_posted s) (s_returned s) (s_skipped s))
      | (None, _) => None
      end
  end.

(** ** The parser thread *)

Definition buffer_type (b : ReadoutBuffer) : option ConnectionType :=
  if m_type b =? ConnectionType_value USB then Some USB else if m_type b =? ConnectionType_value ETH then Some ETH else None.

(** What parsing a buffer calls, and the parser state afterwards. *)
(* mvlc_readout_parser_util.cc:57-76 run_readout_parser *)
Definition parse_one (b : ReadoutBuffer) (w : World) : option (list CallbackEvent * World) :=
  if m_used b =? 0 then Some ([], w) else
  match buffer_type b with
  | None => Some ([], w)
  | Some ty =>
      match parse_readout_buffer_typed ty (m_number b) (viewU32 b) (mkWorld (w_state w) (w_counters w) [] (w_input w)) with
      | Some (Return _, w') => Some (w_callbacks w', w')
      | _ => None
      end
  end.

(** The parser goes on to the next call it makes: the data of an event are assembled in
    [moduleDataBuffer] before the callback runs. *)
Definition next_call (b : ReadoutBuffer) (cs : list CallbackEvent) (s : System) : System :=
  match cs with
  | [] => set_parser (P_return b) s
  | c :: cs =>
      let memory := match c with
                    | EventData _ _ l => l ++ drop (length l) (s_memory s)
                    | SystemEvent _ _ => s_memory s
                    end in
      mkSystem (s_ctx s) (s_world s) memory (s_queues s) (s_todo s) (s_idle s) (s_parserQuit s) (P_call b c cs false) (s_monitor s)
        (s_consumer s) (s_posted s) (s_returned s) (s_skipped s)
  end.

(** A callback looks at its predicate and stores the event or goes to sleep. *)
(* mvlc_blocking_data_api.cc:22-44 event_data_blocking *)
Definition callback_step (b : ReadoutBuffer) (c : CallbackEvent) (cs : list CallbackEvent) (s : System) : System :=
  if processed_ (s_ctx s) then set_parser (P_notify b cs) (post_event (event_of_call (s_posted s) c) s)
  else set_parser (P_call b c cs true) s.

(** One step of [run_readout_parser] and of the callbacks it makes, without the
    notifications.  Nothing else uses the parser state, so a buffer is parsed in one step
    and its calls are made one by one. *)
(* mvlc_readout_parser_util.cc:21-99 run_readout_parser *)
Definition parser_step (s : System) : option System :=
  match s_parser s with
  | P_quit => Some (set_parser (if s_parserQuit s then P_done else P_dequeue) s)
  | P_dequeue =>
      match dequeue (filledBuffers (s_queues s)) with
      | (None, _) => Some (set_parser P_quit s)
      | (Some b, filled) =>
          match parse_one b (s_world s) with
          | Some (cs, w) =>
              Some (next_call b cs
                (mkSystem (s_ctx s) w (s_memory s) (mkQueues filled (emptyBuffers (s_queues s))) (s_todo s) (s_idle s) (s_parserQuit s)
                   (s_parser s) (s_monitor s) (s_consumer s) (s_posted s) (s_returned s) (s_skipped s)))
          | None => None
          end
      end
  | P_call b c cs false => Some (callback_step b c cs s)
  | P_return b =>
      Some (set_parser P_quit (set_queues (mkQueues (filledBuffers (s_queues s)) (enqueue b (emptyBuffers (s_queues s)))) s))
  | _ => None
  end.

(* mvlc_blocking_data_api.cc:46-47 event_data_blocking *)
Definition parser_notify (who : option thread_id) (s : System) : option System :=
  match s_parser s with P_notify b cs => next_call b cs <$> notify_one who s | _ => None end.

(** ** The monitor *)

(* mvlc_blocking_data_api.cc:80-127 monitor *)
Definition monitor_step (s : System) : option System :=
  match s_monitor s with
  | M_idle => if s_idle s then Some (set_monitor M_queue s) else None
  | M_queue => match filledBuffers (s_queues s) with [] => Some (set_monitor M_quit s) | _ => Some s end
  | M_quit => Some (mkSystem (s_ctx s) (s_world s) (s_memory s) (s_queues s) (s_todo s) (s_idle s) true (s_parser s) M_join (s_consumer s)
                      (s_posted s) (s_returned s) (s_skipped s))
  | M_join => match s_parser s with P_done => Some (set_monitor (M_wait false) s) | _ => None end
  | M_wait false =>
      if processed_ (s_ctx s) then Some (set_monitor M_notify (post_event none_event s)) else Some (set_monitor (M_wait true) s)
  | _ => None
  end.

(* mvlc_blocking_data_api.cc:129-133 monitor *)
Definition monitor_notify (who : option thread_id) (s : System) : option System :=
  match s_monitor s with M_notify => set_monitor M_done <$> notify_one who s | _ => None end.

(** ** The user

    The two versions of [next_event], for a readout and for a replay, have the same text. *)

(** An event is in the context that [next_event] did not return. *)
Definition unseen (s : System) : bool :=
  negb (bool_decide (s_posted s = length (s_returned s) + s_skipped s)%nat).

(* mvlc_blocking_data_api.cc:290-300 next_event *)
Definition call_next_event (s : System) : option System :=
  match s_consumer s with
  | C_out =>
      Some (mkSystem (accept (s_ctx s)) (s_world s) (s_memory s) (s_queues s) (s_todo s) (s_idle s) (s_parserQuit s) (s_parser s)
              (s_monitor s) C_notify (s_posted s) (s_returned s) (if unseen s then S (s_skipped s) else s_skipped s))
  | _ => None
  end.

(* mvlc_blocking_data_api.cc:302-302 next_event *)
Definition consumer_notify (who : option thread_id) (s : System) : option System :=
  match s_consumer s with C_notify => set_consumer (C_wait false) <$> notify_one who s | _ => None end.

(** The wait, and the copy of the event, which is made without the mutex. *)
(* mvlc_blocking_data_api.cc:304-314 next_event *)
Definition consumer_step (s : System) : option System :=
  match s_consumer s with
  | C_wait false => Some (set_consumer (if ready_ (s_ctx s) then C_return else C_wait true) s)
  | C_return =>
      Some (mkSystem (s_ctx s) (s_world s) (s_memory s) (s_queues s) (s_todo s) (s_idle s) (s_parserQuit s) (s_parser s) (s_monitor s)
              C_out (s_posted s) (s_returned s ++ [event_ (s_ctx s)]) (s_skipped s))
  | _ => None
  end.

(** ** Interleavings *)

Inductive label : Type :=
| Worker
| Parser
| ParserNotify (who : option thread_id)
| Monitor
| MonitorNotify (who : option thread_id)
| CallNextEvent
| Consumer
| ConsumerNotify (who : option thread_id)
| Spurious (t : thread_id).

Definition exec (l : label) (s : System) : option System :=
  match l with
  | Worker => worker_step s
  | Parser => parser_step s
  | ParserNotify who => parser_notify who s
  | Monitor => monitor_step s
  | MonitorNotify who => monitor_notify who s
  | CallNextEvent => call_next_event s
  | Consumer => consumer_step s
  | ConsumerNotify who => consumer_notify who s
  | Spurious t => if asleep t s then Some (wake t s) else None
  end.

Definition run (ls : list label) (s : System) : option System := foldl (λ s l, s ≫= exec l) (Some s) ls.

Definition step (s s' : System) : Prop := ∃ l, exec l s = Some s'.

(** The words an event that was returned gives access to: what its pointer points to now. *)
Definition module_data (e : EventContainer) (s : System) : list ModuleData :=
  match ec_moduleDataList e with ModuleDataBuffer => ztake (ec_moduleCount e) (s_memory s) | _ => [] end.

(** ** The reference: the calls of all buffers, in order *)

Fixpoint all_calls (buffers : list ReadoutBuffer) (w : World) : option (list CallbackEvent) :=
  match buffers with
  | [] => Some []
  | b :: buffers =>
      match parse_one b w with
      | Some (cs, w') => (λ l, cs ++ l) <$> all_calls buffers w'
      | None => None
      end
  end.

(** The events a user is to see. *)
Definition events_of (calls : list CallbackEvent) : list EventContainer := imap event_of_call calls ++ [none_event].
