(* ===== verification/BlockingFacts.v ===== *)
(** * The blocking data API: what [next_event] returns

    For every interleaving of the four threads: the events come in the order of the parser's
    callbacks, each at most once, with the final event at the end, and no wake-up is lost.
    What can go wrong is shown as well: the first event is lost if it arrives before the
    user asks for it, and the data an event points to are those of a later one as soon as
    the parser gets that far. *)

From stdpp Require Import relations.
From S2P Require Import Prelude Constants Commands ReadoutBuffer BufferQueues ReadoutParser ParserSafety ParserFacts BlockingApi.

#[global] Instance thread_id_eq_dec : EqDecision thread_id.
Proof. solve_decision. Defined.

(** ** The invariant *)

Section Run.
Context (calls : list CallbackEvent) (pool : nat).
Implicit Types s : System.

Definition monitor_rank (m : MonitorPc) : nat :=
  match m with M_idle => 0 | M_queue => 1 | M_quit => 2 | M_join => 3 | M_wait _ => 4 | M_notify => 5 | M_done => 6 end.

(** The calls for the buffer at hand that are still to be made. *)
Definition calls_left (p : ParserPc) : list CallbackEvent :=
  match p with P_call _ c cs _ => c :: cs | P_notify _ cs => cs | _ => [] end.

Definition held (p : ParserPc) : nat := match p with P_call _ _ _ _ | P_notify _ _ | P_return _ => 1 | _ => 0 end.

(** How far the user is with the events that were put into the context. *)
Definition seen (s : System) : Prop :=
  let n := (length (s_returned s) + s_skipped s)%nat in
  let ready := ready_ (s_ctx s) in
  match s_consumer s with
  | C_out => (s_returned s = [] ∧ s_skipped s = 0%nat ∧ s_posted s = Nat.b2n ready) ∨ (ready = true ∧ s_posted s = n ∧ s_returned s ≠ [])
  | C_notify | C_wait _ => s_posted s = (n + Nat.b2n ready)%nat
  | C_return => ready = true ∧ s_posted s = S n
  end.

(** What the user got so far, and what is in the context. *)
Record counts_ok (s : System) : Prop := {
  co_flags : processed_ (s_ctx s) = negb (ready_ (s_ctx s));
  co_seen : seen s;
  co_event : ready_ (s_ctx s) = true → ∃ n, s_posted s = S n ∧ events_of calls !! n = Some (event_ (s_ctx s));
  co_returned : s_returned s = take (length (s_returned s)) (drop (s_skipped s) (events_of calls));
  co_skipped : (s_skipped s ≤ 1)%nat
}.

(** The calls that were made are the first ones of the run, the rest is on its way. *)
Record flow_ok (s : System) : Prop := {
  fl_calls : (monitor_rank (s_monitor s) < 5)%nat → (s_posted s ≤ length calls)%nat ∧
    ∃ rest, all_calls (filledBuffers (s_queues s) ++ s_todo s) (s_world s) = Some rest
      ∧ drop (s_posted s) calls = calls_left (s_parser s) ++ rest;
  fl_end : (5 ≤ monitor_rank (s_monitor s))%nat → s_posted s = S (length calls);
  fl_todo : s_idle s = true → s_todo s = [];
  fl_idle : (0 < monitor_rank (s_monitor s))%nat → s_idle s = true;
  fl_filled : (1 < monitor_rank (s_monitor s))%nat → filledBuffers (s_queues s) = [];
  fl_quit : s_parserQuit s = bool_decide (2 < monitor_rank (s_monitor s))%nat;
  fl_done : s_parser s = P_done → s_parserQuit s = true;
  fl_join : (3 < monitor_rank (s_monitor s))%nat → s_parser s = P_done;
  fl_pool : (length (emptyBuffers (s_queues s)) + length (filledBuffers (s_queues s)) + held (s_parser s))%nat = pool
}.

(** A thread that sleeps although its predicate holds is about to be notified. *)
Record waits_ok (s : System) : Prop := {
  wa_parser : asleep TParser s = true → processed_ (s_ctx s) = true → s_consumer s = C_notify;
  wa_monitor : asleep TMonitor s = true → processed_ (s_ctx s) = true → s_consumer s = C_notify;
  wa_consumer : asleep TConsumer s = true → ready_ (s_ctx s) = true → (∃ b cs, s_parser s = P_notify b cs) ∨ s_monitor s = M_notify
}.

Definition inv s : Prop := counts_ok s ∧ flow_ok s ∧ waits_ok s.

(** *** Events *)

Lemma events_of_call n c : calls !! n = Some c → events_of calls !! n = Some (event_of_call n c).
Proof.
  intros H. unfold events_of. rewrite lookup_app_l by (rewrite length_imap; by eapply lookup_lt_Some).
  by rewrite list_lookup_imap, H.
Qed.

Lemma events_of_end : events_of calls !! length calls = Some none_event.
Proof. unfold events_of. by rewrite lookup_app_r, length_imap, Nat.sub_diag by (rewrite length_imap; lia). Qed.

Lemma length_events : length (events_of calls) = S (length calls).
Proof. unfold events_of. rewrite length_app, length_imap. cbn. lia. Qed.

Lemma next_of_drop n c cs : drop n calls = c :: cs → calls !! n = Some c ∧ drop (S n) calls = cs ∧ (n < length calls)%nat.
Proof.
  intros H. assert (Hc : calls !! n = Some c) by (by rewrite <- (Nat.add_0_r n), <- lookup_drop, H).
  split_and!; [done| |by eapply lookup_lt_Some]. by rewrite (drop_S _ _ _ Hc) in H; injection H.
Qed.

Lemma drop_all_calls n : drop n calls = [] → (n ≤ length calls)%nat → n = length calls.
Proof. intros H Hn. apply (f_equal length) in H. rewrite length_drop in H. cbn in H. lia. Qed.

(** Taking one more. *)
Lemma take_next {A} (l : list A) k n e : l !! (n + k)%nat = Some e → take n (drop k l) ++ [e] = take (S n) (drop k l).
Proof. intros H. symmetry. apply take_S_r. by rewrite lookup_drop, Nat.add_comm. Qed.

(** *** The counts *)

Lemma counts_frame s s' :
  s_ctx s' = s_ctx s → s_posted s' = s_posted s → s_returned s' = s_returned s → s_skipped s' = s_skipped s →
  s_consumer s' = s_consumer s → counts_ok s → counts_ok s'.
Proof. intros E1 E2 E3 E4 E5 [H1 H2 H3 H4 H5]. constructor; unfold seen in *; rewrite ?E1, ?E2, ?E3, ?E4, ?E5; done. Qed.

Lemma counts_post e s s' :
  counts_ok s → processed_ (s_ctx s) = true → events_of calls !! s_posted s = Some e →
  s_ctx s' = post e → s_posted s' = S (s_posted s) → s_returned s' = s_returned s → s_skipped s' = s_skipped s →
  s_consumer s' = s_consumer s → counts_ok s'.
Proof.
  intros [H1 H2 H3 H4 H5] Hp He E1 E2 E3 E4 E5. rewrite Hp in H1. destruct (ready_ (s_ctx s)) eqn:Er; [done|].
  constructor; unfold seen in *; rewrite ?E1, ?E2, ?E3, ?E4, ?E5; cbn; [done| |by eexists|done|done].
  rewrite Er in H2. destruct (s_consumer s); cbn in H2; [|lia..|by destruct H2]. destruct H2 as [(-> & -> & ->)|[? _]]; [by left|done].
Qed.

Lemma counts_call s s' : counts_ok s → call_next_event s = Some s' → counts_ok s'.
Proof.
  intros [H1 H2 H3 H4 H5] H. unfold call_next_event in H. destruct (s_consumer s) eqn:Ec; [|done..]. injection H as <-.
  unfold seen in H2. rewrite Ec in H2. unfold unseen.
  constructor; unfold seen; cbn -[Nat.add]; [done| |done| |].
  - destruct H2 as [(-> & -> & ->)|(_ & -> & _)]; cbn -[Nat.add]; [|by rewrite bool_decide_true; cbn; lia].
    destruct (ready_ (s_ctx s)); cbn; done.
  - destruct H2 as [(Hr & Hs & Hp)|(Hr & Hp & _)]; [by rewrite Hr|]. by rewrite Hp, bool_decide_true.
  - destruct H2 as [(-> & -> & ->)|(_ & -> & _)]; [|by rewrite bool_decide_true]. by case_match; lia.
Qed.

Lemma counts_consumer s s' : counts_ok s → consumer_step s = Some s' → counts_ok s'.
Proof.
  intros [H1 H2 H3 H4 H5] H. unfold consumer_step in H. unfold seen in H2. destruct (s_consumer s) as [| |[]|] eqn:Ec; try done; injection H as <-.
  - constructor; unfold seen; cbn -[Nat.add]; try done. destruct (ready_ (s_ctx s)) eqn:Er; cbn in *; [split; [done|]; lia|done].
  - destruct H2 as [Hr Hp]. destruct (H3 Hr) as (n & Hn & He). rewrite Hp in Hn. injection Hn as <-.
    constructor; unfold seen; cbn -[Nat.add]; try done; rewrite ?length_app; cbn -[Nat.add].
    + right. split_and!; [done|lia|]. by destruct (s_returned s).
    + rewrite H4 at 1. rewrite Nat.add_1_r. by apply take_next.
Qed.

(** A thread that was notified, or woke up by itself. *)
Lemma counts_wake t s : counts_ok s → counts_ok (wake t s).
Proof.
  intros H. destruct t; cbn.
  - destruct (s_parser s); try done. by apply (counts_frame s).
  - destruct (s_monitor s); try done. by apply (counts_frame s).
  - destruct (s_consumer s) eqn:Ec; try done. destruct H as [H1 H2 H3 H4 H5]. unfold seen in H2. rewrite Ec in H2. by constructor.
Qed.

Lemma notify_one_wakes who s s' : notify_one who s = Some s' →
  (∃ t, asleep t s = true ∧ s' = wake t s) ∨ ((∀ t, asleep t s = false) ∧ s' = s).
Proof.
  unfold notify_one. destruct who as [t|].
  - destruct (asleep t s) eqn:E; [|done]. intros [= <-]. by left; exists t.
  - destruct (_ || _ || _)%bool eqn:E; [done|]. intros [= <-]. right. split; [|done]. apply orb_false_iff in E as [[? ?]%orb_false_iff ?]. by intros [].
Qed.

(** A notification leaves its sender where it is. *)
Lemma notify_keeps who s s' : notify_one who s = Some s' →
  (∀ b cs, s_parser s = P_notify b cs → s_parser s' = P_notify b cs)
  ∧ (s_monitor s = M_notify → s_monitor s' = M_notify) ∧ (s_consumer s = C_notify → s_consumer s' = C_notify).
Proof.
  intros [(t & _ & ->)|[_ ->]]%notify_one_wakes; [|done]. destruct t; cbn.
  - by destruct (s_parser s) eqn:E; cbn; rewrite ?E.
  - by destruct (s_monitor s) eqn:E; cbn; rewrite ?E.
  - by destruct (s_consumer s) eqn:E; cbn; rewrite ?E.
Qed.

Lemma counts_notify who s s' : counts_ok s → notify_one who s = Some s' → counts_ok s'.
Proof. intros H [(t & _ & ->)|[_ ->]]%notify_one_wakes; [by apply counts_wake|done]. Qed.

Lemma counts_next_call b cs s : counts_ok s → counts_ok (next_call b cs s).
Proof. destruct cs as [|[]]; intros; by apply (counts_frame s). Qed.

Lemma next_post s : flow_ok s → (monitor_rank (s_monitor s) < 5)%nat → ∀ b c cs z, s_parser s = P_call b c cs z →
  events_of calls !! s_posted s = Some (event_of_call (s_posted s) c).
Proof.
  intros Hf Hm b c cs z Hp. destruct (fl_calls _ Hf Hm) as (_ & rest & _ & Hd). rewrite Hp in Hd. cbn in Hd.
  apply events_of_call. by apply next_of_drop in Hd as (? & _).
Qed.

Lemma last_post s z : flow_ok s → s_monitor s = M_wait z → s_posted s = length calls.
Proof.
  intros Hf Hm. destruct (fl_calls _ Hf) as (Hl & rest & Ha & Hd); [by rewrite Hm; cbn; lia|].
  rewrite (fl_filled _ Hf), (fl_todo _ Hf), (fl_join _ Hf) in * by (try apply (fl_idle _ Hf); rewrite Hm; cbn; lia).
  cbn in Ha. injection Ha as <-. by apply drop_all_calls.
Qed.

Lemma rank_of_parser s : flow_ok s → s_parser s ≠ P_done → (monitor_rank (s_monitor s) < 4)%nat.
Proof. intros Hf Hp. destruct (decide (monitor_rank (s_monitor s) < 4)%nat); [done|]. destruct Hp. apply (fl_join _ Hf). lia. Qed.

Lemma counts_step l s s' : counts_ok s → flow_ok s → exec l s = Some s' → counts_ok s'.
Proof.
  intros Hc Hf H. destruct l; cbn in H.
  - unfold worker_step in H. destruct (s_idle s); [done|]. destruct (s_todo s); [by injection H as <-; apply (counts_frame s)|].
    destruct (dequeue _) as [[]]; [|done]. by injection H as <-; apply (counts_frame s).
  - unfold parser_step in H. destruct (s_parser s) as [| |b c cs []| | |] eqn:Ep; try done.
    + injection H as <-. by apply (counts_frame s).
    + destruct (dequeue _) as [[b|] filled]; [|by injection H as <-; apply (counts_frame s)].
      destruct (parse_one _ _) as [[cs w]|]; [|done]. injection H as <-. apply counts_next_call. by apply (counts_frame s).
    + injection H as <-. unfold callback_step. destruct (processed_ (s_ctx s)) eqn:Er; [|by apply (counts_frame s)].
      eapply (counts_post _ s); [done..| |done|done|done|done|done]. eapply next_post; [done| |done].
      pose proof (rank_of_parser s Hf) as Hr. rewrite Ep in Hr. by specialize (Hr ltac:(done)); lia.
    + injection H as <-. by apply (counts_frame s).
  - unfold parser_notify in H. destruct (s_parser s); try done. apply fmap_Some in H as (s1 & H & ->).
    apply counts_next_call. by eapply counts_notify.
  - unfold monitor_step in H. destruct (s_monitor s) as [| | | |[]| |] eqn:Em; try done.
    + destruct (s_idle s); [|done]. injection H as <-. by apply (counts_frame s).
    + destruct (filledBuffers _); injection H as <-; [by apply (counts_frame s)|done].
    + injection H as <-. by apply (counts_frame s).
    + destruct (s_parser s); try done. injection H as <-. by apply (counts_frame s).
    + destruct (processed_ (s_ctx s)) eqn:Er; injection H as <-; [|by apply (counts_frame s)].
      eapply (counts_post _ s); [done..| |done|done|done|done|done]. rewrite (last_post s false) by done. apply events_of_end.
  - unfold monitor_notify in H. destruct (s_monitor s); try done. apply fmap_Some in H as (s1 & H & ->).
    apply (counts_frame s1); [done..|]. by eapply counts_notify.
  - by eapply counts_call.
  - by eapply counts_consumer.
  - unfold consumer_notify in H. destruct (s_consumer s) eqn:Ec; try done. apply fmap_Some in H as (s1 & H & ->).
    assert (Hc1 : counts_ok s1) by (by eapply counts_notify). assert (Ec1 : s_consumer s1 = C_notify) by (by apply notify_keeps in H as (_ & _ & ->)).
    destruct Hc1 as [H1 H2 H3 H4 H5]. unfold seen in H2. rewrite Ec1 in H2. by constructor.
  - destruct (asleep _ _); [|done]. injection H as <-. by apply counts_wake.
Qed.

(** *** The flow of the data *)

(** What matters for the flow of the position of the parser. *)
Definition same_place (p p' : ParserPc) : Prop := calls_left p' = calls_left p ∧ held p' = held p ∧ (p' = P_done ↔ p = P_done).

Lemma flow_frame s s' :
  s_world s' = s_world s → s_queues s' = s_queues s → s_todo s' = s_todo s → s_idle s' = s_idle s → s_parserQuit s' = s_parserQuit s →
  s_posted s' = s_posted s → monitor_rank (s_monitor s') = monitor_rank (s_monitor s) → same_place (s_parser s) (s_parser s') →
  flow_ok s → flow_ok s'.
Proof.
  intros E1 E2 E3 E4 E5 E6 E7 (E8 & E9 & E10) [H1 H2 H3 H4 H5 H6 H7 H8 H9].
  constructor; rewrite ?E1, ?E2, ?E3, ?E4, ?E5, ?E6, ?E7, ?E8, ?E9, ?E10; tauto.
Qed.

Lemma same_place_refl p : same_place p p.
Proof. done. Qed.

Lemma flow_wake t s : flow_ok s → flow_ok (wake t s).
Proof.
  intros H. destruct t; cbn.
  - destruct (s_parser s) eqn:E; try done. apply (flow_frame s); try done. rewrite E. by split_and!.
  - destruct (s_monitor s) eqn:E; try done. apply (flow_frame s); try done. by rewrite E.
  - destruct (s_consumer s) eqn:E; try done. by apply (flow_frame s).
Qed.

Lemma flow_notify who s s' : flow_ok s → notify_one who s = Some s' → flow_ok s'.
Proof. intros H [(t & _ & ->)|[_ ->]]%notify_one_wakes; [by apply flow_wake|done]. Qed.

(** The parser goes on with the calls of a buffer. *)
Lemma flow_next_call b cs s s1 :
  calls_left (s_parser s) = cs → held (s_parser s) = 1%nat → s_parser s ≠ P_done →
  flow_ok s → s_world s1 = s_world s → s_queues s1 = s_queues s → s_todo s1 = s_todo s → s_idle s1 = s_idle s →
  s_parserQuit s1 = s_parserQuit s → s_posted s1 = s_posted s → s_monitor s1 = s_monitor s → flow_ok (next_call b cs s1).
Proof.
  intros Hc Hh Hd Hf E1 E2 E3 E4 E5 E6 E7. destruct cs as [|c cs]; apply (flow_frame s); cbn; rewrite ?E7; try done; split_and!; try done; by rewrite Hc.
Qed.

Lemma flow_worker s s' : flow_ok s → worker_step s = Some s' → flow_ok s'.
Proof.
  intros [H1 H2 H3 H4 H5 H6 H7 H8 H9] H. unfold worker_step in H. destruct (s_idle s) eqn:Ei; [done|].
  assert (Hr : monitor_rank (s_monitor s) = 0%nat) by (destruct (monitor_rank (s_monitor s)); [done|by specialize (H4 ltac:(lia))]).
  destruct (s_todo s) as [|b todo] eqn:Et.
  - injection H as <-. by constructor.
  - unfold dequeue, enqueue in H. destruct (emptyBuffers (s_queues s)) as [|b' bs] eqn:Ee; [done|]. injection H as <-.
    constructor; cbn; try done; try lia; [by rewrite <- app_assoc|]. rewrite length_app. cbn in *. lia.
Qed.

Lemma all_calls_cons b bs w cs w' rest :
  parse_one b w = Some (cs, w') → all_calls (b :: bs) w = Some rest → ∃ rest', all_calls bs w' = Some rest' ∧ rest = cs ++ rest'.
Proof. cbn. intros -> H. apply fmap_Some in H as (l & H & ->). by eexists. Qed.

Lemma flow_dequeue s b bs cs w :
  flow_ok s → s_parser s = P_dequeue → filledBuffers (s_queues s) = b :: bs → parse_one b (s_world s) = Some (cs, w) →
  flow_ok (next_call b cs (mkSystem (s_ctx s) w (s_memory s) (mkQueues bs (emptyBuffers (s_queues s))) (s_todo s) (s_idle s) (s_parserQuit s)
    (s_parser s) (s_monitor s) (s_consumer s) (s_posted s) (s_returned s) (s_skipped s))).
Proof.
  intros [H1 H2 H3 H4 H5 H6 H7 H8 H9] Ep Eb Hp.
  assert (Hr : (monitor_rank (s_monitor s) ≤ 1)%nat).
  { destruct (decide (monitor_rank (s_monitor s) ≤ 1)%nat); [done|]. rewrite H5 in Eb by lia. done. }
  destruct H1 as (Hl & rest & Ha & Hd); [lia|]. rewrite Eb in Ha. cbn [app] in Ha. destruct (all_calls_cons _ _ _ _ _ _ Hp Ha) as (rest' & Ha' & ->).
  rewrite Eb, Ep in *. destruct cs as [|c cs]; constructor; cbn in *; try done; try lia; intros _; (split; [done|]; by eexists).
Qed.

Lemma flow_parser s s' : flow_ok s → parser_step s = Some s' → flow_ok s'.
Proof.
  intros Hf H. pose proof (rank_of_parser s Hf) as Hr. unfold parser_step in H. destruct (s_parser s) as [| |b c cs []| |b|] eqn:Ep; try done.
  - injection H as <-. destruct (s_parserQuit s) eqn:Eq; [|by apply (flow_frame s); try done; rewrite Ep].
    destruct Hf as [H1 H2 H3 H4 H5 H6 H7 H8 H9]. rewrite Ep in *. by constructor.
  - unfold dequeue in H. destruct (filledBuffers (s_queues s)) as [|b bs] eqn:Eb.
    + injection H as <-. apply (flow_frame s); try done. by rewrite Ep.
    + destruct (parse_one b (s_world s)) as [[cs w]|] eqn:E; [|done]. injection H as <-. by apply flow_dequeue.
  - injection H as <-. specialize (Hr ltac:(done)). unfold callback_step. destruct (processed_ (s_ctx s)).
    + destruct (fl_calls _ Hf) as (Hl & rest & Ha & Hd); [lia|]. rewrite Ep in Hd. cbn in Hd. apply next_of_drop in Hd as (_ & Hd & Hn).
      destruct Hf as [H1 H2 H3 H4 H5 H6 H7 H8 H9]. rewrite Ep in *. constructor; cbn in *; try done; try lia. intros _. split; [lia|]. by eexists.
    + apply (flow_frame s); try done. by rewrite Ep.
  - injection H as <-. destruct Hf as [H1 H2 H3 H4 H5 H6 H7 H8 H9]. rewrite Ep in *. constructor; cbn in *; try done.
    + intros Hm. by specialize (H8 Hm).
    + unfold enqueue. rewrite length_app. cbn. lia.
Qed.

(** The fields of the invariant that only depend on how far the monitor is. *)
Ltac by_rank :=
  constructor; cbn in *; repeat match goal with E : filledBuffers _ = _ |- _ => rewrite E | E : s_parser _ = _ |- _ => rewrite E end; intros; cbn;
  first [done | lia | match goal with H : (_ < _)%nat → ?G |- ?G => apply H; lia end | auto].

Lemma flow_monitor s s' : flow_ok s → monitor_step s = Some s' → flow_ok s'.
Proof.
  intros Hf H. pose proof Hf as [H1 H2 H3 H4 H5 H6 H7 H8 H9]. unfold monitor_step in H. destruct (s_monitor s) as [| | | |[]| |] eqn:Em; try done.
  - destruct (s_idle s) eqn:Ei; [|done]. injection H as <-. by_rank.
  - destruct (filledBuffers _) eqn:Eb; injection H as <-; [|done]. by_rank.
  - injection H as <-. by_rank.
  - destruct (s_parser s) eqn:Ep; try done. injection H as <-. by_rank.
  - destruct (processed_ (s_ctx s)); injection H as <-.
    + pose proof (last_post s false Hf Em). by_rank.
    + apply (flow_frame s); try done. by rewrite Em.
Qed.

Lemma flow_step l s s' : flow_ok s → exec l s = Some s' → flow_ok s'.
Proof.
  intros Hf H. destruct l; cbn in H.
  - by eapply flow_worker.
  - by eapply flow_parser.
  - unfold parser_notify in H. destruct (s_parser s) as [| | |b cs| |] eqn:Ep; try done. apply fmap_Some in H as (s1 & H & ->).
    assert (Hp : s_parser s1 = P_notify b cs) by (by apply notify_keeps in H as [H _]; apply H).
    apply (flow_next_call b cs s1 s1); rewrite ?Hp; try done. by eapply flow_notify.
  - by eapply flow_monitor.
  - unfold monitor_notify in H. destruct (s_monitor s) eqn:Em; try done. apply fmap_Some in H as (s1 & H & ->).
    assert (Hm : s_monitor s1 = M_notify) by (by apply notify_keeps in H as (_ & -> & _)).
    assert (Hf1 : flow_ok s1) by (by eapply flow_notify). destruct Hf1 as [H1 H2 H3 H4 H5 H6 H7 H8 H9]. rewrite Hm in *. by_rank.
  - unfold call_next_event in H. destruct (s_consumer s); try done. injection H as <-. by apply (flow_frame s).
  - unfold consumer_step in H. destruct (s_consumer s) as [| |[]|]; try done; injection H as <-; by apply (flow_frame s).
  - unfold consumer_notify in H. destruct (s_consumer s); try done. apply fmap_Some in H as (s1 & H & ->).
    apply (flow_frame s1); try done. by eapply flow_notify.
  - destruct (asleep _ _); [|done]. injection H as <-. by apply flow_wake.
Qed.

(** *** Sleeping threads *)

(** A position of the monitor behind its wait tells that the parser is done, so that at most
    one of the two sleeps. *)
Lemma one_sleeper s : flow_ok s → asleep TParser s = true → asleep TMonitor s = true → False.
Proof.
  intros Hf Hp Hm. cbn in *. destruct (s_monitor s) eqn:Em; try done. assert (Hd : s_parser s = P_done) by (apply (fl_join _ Hf); rewrite Em; cbn; lia).
  by rewrite Hd in Hp.
Qed.

Lemma waits_frame s s' :
  s_ctx s' = s_ctx s → s_parser s' = s_parser s → s_monitor s' = s_monitor s → s_consumer s' = s_consumer s → waits_ok s → waits_ok s'.
Proof. intros E1 E2 E3 E4 [H1 H2 H3]. constructor; cbn in *; rewrite ?E1, ?E2, ?E3, ?E4; done. Qed.

(** A notification that finds no other sleeper than the one it is meant for. *)
Lemma notified who t s s' : notify_one who s = Some s' → (∀ t', t' ≠ t → asleep t' s = false) → s' = wake t s.
Proof.
  intros [(t' & Ht & ->)|[Ha ->]]%notify_one_wakes Hn.
  - destruct (decide (t' = t)) as [->|Hne]; [done|]. by rewrite Hn in Ht.
  - specialize (Ha t). destruct t; cbn in *.
    + destruct (s_parser s) as [| |b c cs []| | |] eqn:E; try done. destruct s; cbn in *. by subst.
    + destruct (s_monitor s) as [| | | |[]| |] eqn:E; try done. destruct s; cbn in *. by subst.
    + destruct (s_consumer s) as [| |[]|] eqn:E; try done. destruct s; cbn in *. by subst.
Qed.

Lemma waits_parser s s' : waits_ok s → parser_step s = Some s' → waits_ok s'.
Proof.
  intros [H1 H2 H3] H. unfold parser_step in H. cbn in *. destruct (s_parser s) as [| |b c cs []| |b|] eqn:Ep; try done.
  - injection H as <-. constructor; cbn; [by destruct (s_parserQuit s)|done|]. intros Ha Hr. destruct (H3 Ha Hr) as [(? & ? & ?)|?]; [done|by right].
  - destruct (dequeue _) as [[b|] filled].
    + destruct (parse_one b (s_world s)) as [[cs w]|]; [|done]. injection H as <-.
      destruct cs; constructor; cbn; try done; intros Ha Hr; (destruct (H3 Ha Hr) as [(? & ? & ?)|?]; [done|by right]).
    + injection H as <-. constructor; cbn; [done..|]. intros Ha Hr. destruct (H3 Ha Hr) as [(? & ? & ?)|?]; [done|by right].
  - injection H as <-. unfold callback_step. destruct (processed_ (s_ctx s)) eqn:E.
    + constructor; cbn; [done..|]. intros _ _. left. by eexists _, _.
    + constructor; cbn; rewrite ?E; [done..|]. intros Ha Hr. destruct (H3 Ha Hr) as [(? & ? & ?)|?]; [done|by right].
  - injection H as <-. constructor; cbn; [done..|]. intros Ha Hr. destruct (H3 Ha Hr) as [(? & ? & ?)|?]; [done|by right].
Qed.

Lemma waits_monitor s s' : waits_ok s → monitor_step s = Some s' → waits_ok s'.
Proof.
  intros [H1 H2 H3] H. unfold monitor_step in H. cbn in *. destruct (s_monitor s) as [| | | |[]| |] eqn:Em; try done.
  - destruct (s_idle s); [|done]. injection H as <-. constructor; cbn; [done..|]. intros Ha Hr. destruct (H3 Ha Hr) as [?|?]; [by left|done].
  - destruct (filledBuffers _); injection H as <-; constructor; cbn; rewrite ?Em; try done.
    intros Ha Hr. destruct (H3 Ha Hr) as [?|?]; [by left|done].
  - injection H as <-. constructor; cbn; [done..|]. intros Ha Hr. destruct (H3 Ha Hr) as [?|?]; [by left|done].
  - destruct (s_parser s) eqn:Ep; try done. injection H as <-. constructor; cbn; rewrite ?Ep; [done..|]. intros Ha Hr.
    destruct (H3 Ha Hr) as [(? & ? & ?)|?]; done.
  - destruct (processed_ (s_ctx s)) eqn:E; injection H as <-.
    + constructor; cbn; [done..|]. intros _ _. by right.
    + constructor; cbn; rewrite ?E; [done..|]. intros Ha Hr. destruct (H3 Ha Hr) as [?|?]; [by left|done].
Qed.

Lemma waits_consumer s s' : waits_ok s → consumer_step s = Some s' → waits_ok s'.
Proof.
  intros [H1 H2 H3] H. unfold consumer_step in H. cbn in *. destruct (s_consumer s) as [| |[]|] eqn:Ec; try done; injection H as <-.
  - constructor; cbn; [intros Ha Hp; by specialize (H1 Ha Hp)|intros Ha Hp; by specialize (H2 Ha Hp)|].
    by destruct (ready_ (s_ctx s)).
  - constructor; cbn; [intros Ha Hp; by specialize (H1 Ha Hp)|intros Ha Hp; by specialize (H2 Ha Hp)|done].
Qed.

(** The poster of an event wakes the user if he sleeps; nobody else does. *)
Lemma poster_wakes who s s' :
  flow_ok s → (∃ b cs, s_parser s = P_notify b cs) ∨ s_monitor s = M_notify → notify_one who s = Some s' →
  s' = wake TConsumer s ∧ asleep TParser s = false ∧ asleep TMonitor s = false.
Proof.
  intros Hf Hp H. assert (asleep TParser s = false ∧ asleep TMonitor s = false) as [Ha1 Ha2].
  { destruct Hp as [(b & cs & Hp)|Hm]; cbn.
    - pose proof (rank_of_parser s Hf) as Hr. rewrite Hp in *. specialize (Hr ltac:(done)). split; [done|]. destruct (s_monitor s); cbn in *; done || lia.
    - rewrite (fl_join _ Hf) by (rewrite Hm; cbn; lia). by rewrite Hm. }
  split_and!; [|done..]. eapply notified; [done|]. by intros [].
Qed.

Lemma waits_step l s s' : flow_ok s → waits_ok s → exec l s = Some s' → waits_ok s'.
Proof.
  intros Hf Hw H. destruct l; cbn in H.
  - unfold worker_step in H. destruct (s_idle s); [done|]. destruct (s_todo s); [by injection H as <-; apply (waits_frame s)|].
    destruct (dequeue _) as [[]]; [|done]. by injection H as <-; apply (waits_frame s).
  - by eapply waits_parser.
  - unfold parser_notify in H. destruct (s_parser s) as [| | |b cs| |] eqn:Ep; try done. apply fmap_Some in H as (s1 & H & ->).
    apply poster_wakes in H as (-> & Ha & Hm); [|done|left; by eexists _, _]. cbn in Hm.
    destruct (s_consumer s) as [| |z|] eqn:Ec; destruct cs as [|[]]; constructor; cbn; rewrite ?Ec, ?Ep; cbn; congruence.
  - by eapply waits_monitor.
  - unfold monitor_notify in H. destruct (s_monitor s) eqn:Em; try done. apply fmap_Some in H as (s1 & H & ->).
    apply poster_wakes in H as (-> & Ha & Hm); [|done|by right]. cbn in Ha.
    destruct (s_consumer s) as [| |z|] eqn:Ec; constructor; cbn; rewrite ?Ec; cbn; congruence.
  - unfold call_next_event in H. destruct (s_consumer s) eqn:Ec; try done. injection H as <-. by constructor.
  - by eapply waits_consumer.
  - unfold consumer_notify in H. destruct (s_consumer s) eqn:Ec; try done. apply fmap_Some in H as (s1 & H & ->).
    assert (Ha : asleep TParser s1 = false ∧ asleep TMonitor s1 = false).
    { pose proof (one_sleeper s Hf). apply notify_one_wakes in H as [([] & Ht & ->)|[Ha ->]]; [..|by rewrite !Ha].
      - assert (Hm : asleep TMonitor s = false) by (destruct (asleep TMonitor s); tauto). cbn in *. destruct (s_parser s); done.
      - assert (Hm : asleep TParser s = false) by (destruct (asleep TParser s); tauto). cbn in *. destruct (s_monitor s); done.
      - cbn in Ht. by rewrite Ec in Ht. }
    cbn in Ha. destruct Ha as [Ha1 Ha2]. constructor; cbn; rewrite ?Ha1, ?Ha2; done.
  - destruct (asleep t s) eqn:Ea; [|done]. injection H as <-. destruct Hw as [H1 H2 H3]. destruct t; cbn in *.
    + destruct (s_parser s) eqn:Ep; try done. constructor; cbn; [done..|]. intros Ha Hr. destruct (H3 Ha Hr) as [(? & ? & ?)|?]; [done|by right].
    + destruct (s_monitor s) eqn:Ep; try done. constructor; cbn; [done..|]. intros Ha Hr. destruct (H3 Ha Hr) as [?|?]; [by left|done].
    + destruct (s_consumer s) eqn:Ec; try done. constructor; cbn; [intros Ha Hp; by specialize (H1 Ha Hp)|intros Ha Hp; by specialize (H2 Ha Hp)|done].
Qed.

Lemma inv_step l s s' : inv s → exec l s = Some s' → inv s'.
Proof. intros (H1 & H2 & H3) H. split_and!; [by eapply counts_step|by eapply flow_step|by eapply waits_step]. Qed.

Lemma inv_steps s s' : inv s → rtc step s s' → inv s'.
Proof. intros Hi H. induction H as [|s s1 s' [l Hl] _ IH]; [done|]. apply IH. by eapply inv_step. Qed.

End Run.

Lemma inv_start buffers bs w calls : all_calls buffers w = Some calls → inv calls (length bs) (start_run buffers bs w).
Proof.
  intros H. split_and!; constructor; cbn; try done; try lia.
  - by left.
  - intros _. split; [lia|]. by exists calls.
Qed.
