(* ===== verification/BlockingLive.v ===== *)
(** * The blocking data API: [next_event] returns

    The steps of a run that are not just waiting are counted by a measure, and as long as
    the user has not got the final event there is such a step; and the two ways in which the
    API fails. *)

From stdpp Require Import relations.
From S2P Require Import Prelude Constants Commands ReadoutBuffer BufferQueues ReadoutParser ParserSafety ParserFacts BlockingApi BlockingFacts.

Section Measure.
Context (calls : list CallbackEvent) (pool : nat).
Implicit Types s : System.

(** Steps that leave everything as it was: a look at a predicate that does not hold, a
    timeout of the queue, a wake-up without a notification. *)
Definition waiting (l : label) (s : System) : bool :=
  match l with
  | Parser =>
      match s_parser s with
      | P_quit | P_dequeue => negb (s_parserQuit s) && bool_decide (filledBuffers (s_queues s) = [])
      | P_call _ _ _ _ => negb (processed_ (s_ctx s))
      | _ => false
      end
  | Monitor =>
      match s_monitor s with
      | M_queue => negb (bool_decide (filledBuffers (s_queues s) = []))
      | M_wait _ => negb (processed_ (s_ctx s))
      | _ => false
      end
  | Consumer => match s_consumer s with C_wait _ => negb (ready_ (s_ctx s)) | _ => false end
  | Spurious _ => true
  | _ => false
  end.

Definition consumer_weight (c : ConsumerPc) (ready : bool) : nat :=
  match c with C_out => 2 | C_notify => 1 + 4 * Nat.b2n ready | C_wait _ => 4 * Nat.b2n ready | C_return => 3 end.

Definition parser_weight (p : ParserPc) (quit : bool) (filled : nat) : nat :=
  match p with
  | P_quit => 1
  | P_dequeue => if quit then 2 else match filled with O => 1 | _ => 0 end
  | P_call _ _ _ _ | P_return _ => 2
  | P_notify _ _ => 3
  | P_done => 0
  end.

Definition monitor_weight (m : MonitorPc) : nat :=
  match m with M_idle => 6 | M_queue => 5 | M_quit => 4 | M_join => 2 | M_wait _ | M_notify => 1 | M_done => 0 end.

Definition measure (s : System) : nat :=
  let filled := length (filledBuffers (s_queues s)) in
  6 * (S (length calls) - s_posted s) + 5 * length (s_todo s) + 4 * filled + Nat.b2n (negb (s_idle s))
  + parser_weight (s_parser s) (s_parserQuit s) filled + monitor_weight (s_monitor s) + consumer_weight (s_consumer s) (ready_ (s_ctx s)).

Definition decreases (l : label) (s s' : System) : Prop := (measure s' ≤ measure s)%nat ∧ (waiting l s = false → (measure s' < measure s)%nat).

(** Putting an event into the context is paid for. *)
Lemma consumer_weight_post c : (consumer_weight c true ≤ consumer_weight c false + 4)%nat.
Proof. destruct c; cbn; lia. Qed.

Lemma measure_wake t s : measure (wake t s) = measure s.
Proof.
  unfold measure. destruct t; cbn -[Nat.mul].
  - by destruct (s_parser s) eqn:E; cbn -[Nat.mul]; rewrite ?E.
  - by destruct (s_monitor s) eqn:E; cbn -[Nat.mul]; rewrite ?E.
  - by destruct (s_consumer s) eqn:E; cbn -[Nat.mul]; rewrite ?E.
Qed.

Lemma measure_notify who s s' : notify_one who s = Some s' → measure s' = measure s.
Proof. intros [(t & _ & ->)|[_ ->]]%notify_one_wakes; [apply measure_wake|done]. Qed.

Lemma decreases_worker s s' : worker_step s = Some s' → decreases Worker s s'.
Proof.
  unfold worker_step, decreases, measure. destruct (s_idle s); [done|]. destruct (s_todo s) as [|b todo].
  - intros [= <-]. cbn -[Nat.mul]. lia.
  - unfold dequeue, enqueue. destruct (emptyBuffers _); [done|]. intros [= <-]. cbn -[Nat.mul]. rewrite length_app. cbn -[Nat.mul].
    destruct (s_parser s); cbn -[Nat.mul]; try lia. destruct (s_parserQuit s), (length (filledBuffers (s_queues s))); cbn -[Nat.mul]; lia.
Qed.

Lemma next_call_measure b cs s :
  (measure (next_call b cs s) + parser_weight (s_parser s) (s_parserQuit s) (length (filledBuffers (s_queues s))) = measure s + 2)%nat.
Proof. unfold measure. destruct cs; cbn -[Nat.mul]; lia. Qed.

Lemma decreases_parser s s' : inv calls pool s → parser_step s = Some s' → decreases Parser s s'.
Proof.
  intros (Hc & Hf & _) H. pose proof (rank_of_parser _ _ s Hf) as Hr. pose proof (fl_filled _ _ _ Hf) as Hfi. pose proof (fl_quit _ _ _ Hf) as Hq.
  unfold parser_step in H. unfold decreases, waiting. destruct (s_parser s) as [| |b c cs []| |b|] eqn:Ep; try done.
  - injection H as <-. unfold measure. rewrite Ep. destruct (s_parserQuit s) eqn:E; cbn -[Nat.mul]; [lia|].
    rewrite E. destruct (filledBuffers (s_queues s)); cbn -[Nat.mul]; [split; [lia|done]|lia].
  - unfold dequeue in H. destruct (filledBuffers (s_queues s)) as [|b bs] eqn:Eb.
    + injection H as <-. unfold measure. rewrite Ep, Eb. destruct (s_parserQuit s); cbn -[Nat.mul]; rewrite ?Eb; cbn -[Nat.mul]; [lia|split; [lia|done]].
    + destruct (parse_one b (s_world s)) as [[cs w]|]; [|done]. injection H as <-.
      match goal with |- context [next_call b cs ?s1] => pose proof (next_call_measure b cs s1) as Hm end.
      unfold measure in *. cbn -[Nat.mul next_call] in Hm. rewrite Ep, Eb in *. cbn -[Nat.mul next_call] in *.
      destruct (s_parserQuit s) eqn:E; [|destruct bs; cbn -[Nat.mul next_call] in *; lia].
      symmetry in Hq. apply bool_decide_eq_true in Hq. by specialize (Hfi ltac:(lia)).
  - injection H as <-. unfold callback_step. pose proof (co_flags _ _ Hc) as Hfl. destruct (processed_ (s_ctx s)) eqn:E.
    + destruct (ready_ (s_ctx s)) eqn:Er; [done|]. destruct (fl_calls _ _ _ Hf) as (Hl & rest & _ & Hd); [specialize (Hr ltac:(done)); lia|].
      rewrite Ep in Hd. apply next_of_drop in Hd as (_ & _ & Hn). unfold measure. rewrite Ep, Er. cbn -[Nat.mul Nat.sub].
      pose proof (consumer_weight_post (s_consumer s)). lia.
    + unfold measure. rewrite Ep. cbn -[Nat.mul]. split; [lia|done].
  - injection H as <-. unfold measure. rewrite Ep. cbn -[Nat.mul]. lia.
Qed.

Lemma decreases_monitor s s' : inv calls pool s → monitor_step s = Some s' → decreases Monitor s s'.
Proof.
  intros (Hc & Hf & _) H. unfold monitor_step in H. unfold decreases, waiting. destruct (s_monitor s) as [| | | |[]| |] eqn:Em; try done.
  - destruct (s_idle s) eqn:E; [|done]. injection H as <-. unfold measure. rewrite Em. cbn -[Nat.mul]. rewrite E. cbn -[Nat.mul]. lia.
  - destruct (filledBuffers _) eqn:E; injection H as <-; [|split; [lia|done]]. unfold measure. rewrite Em. cbn -[Nat.mul]. rewrite E. cbn -[Nat.mul]. lia.
  - injection H as <-. unfold measure. rewrite Em. cbn -[Nat.mul].
    assert (parser_weight (s_parser s) true (length (filledBuffers (s_queues s))) ≤ 1 + parser_weight (s_parser s) (s_parserQuit s) (length (filledBuffers (s_queues s))))%nat.
    { rewrite (fl_filled _ _ _ Hf) by (rewrite Em; cbn; lia). destruct (s_parser s), (s_parserQuit s); cbn; lia. }
    lia.
  - destruct (s_parser s) eqn:Ep; try done. injection H as <-. unfold measure. rewrite Em. cbn -[Nat.mul]. lia.
  - pose proof (co_flags _ _ Hc) as Hfl. destruct (processed_ (s_ctx s)) eqn:E; injection H as <-.
    + destruct (ready_ (s_ctx s)) eqn:Er; [done|]. pose proof (last_post _ _ s false Hf Em). unfold measure. rewrite Em, Er. cbn -[Nat.mul Nat.sub].
      pose proof (consumer_weight_post (s_consumer s)). lia.
    + unfold measure. rewrite Em. cbn -[Nat.mul]. split; [lia|done].
Qed.

Lemma decreases_step l s s' : inv calls pool s → exec l s = Some s' → decreases l s s'.
Proof.
  intros Hi H. destruct l; cbn in H.
  - by apply decreases_worker.
  - by apply decreases_parser.
  - unfold parser_notify in H. destruct (s_parser s) as [| | |b cs| |] eqn:Ep; try done. apply fmap_Some in H as (s1 & H & ->).
    pose proof (measure_notify _ _ _ H) as Hm. pose proof (next_call_measure b cs s1) as Hn.
    assert (Hp : s_parser s1 = P_notify b cs) by (by apply notify_keeps in H as [H _]; apply H).
    rewrite Hp in Hn. cbn -[measure next_call] in Hn. split; [|intros _]; lia.
  - by apply decreases_monitor.
  - unfold monitor_notify in H. destruct (s_monitor s) eqn:Em; try done. apply fmap_Some in H as (s1 & H & ->).
    pose proof (measure_notify _ _ _ H) as Hm.
    assert (Em1 : s_monitor s1 = M_notify) by (by apply notify_keeps in H as (_ & -> & _)).
    unfold decreases. rewrite <- Hm. unfold measure. rewrite Em1. cbn -[Nat.mul]. lia.
  - unfold call_next_event in H. destruct (s_consumer s) eqn:Ec; try done. injection H as <-. unfold decreases, measure. rewrite Ec. cbn -[Nat.mul]. lia.
  - unfold consumer_step in H. destruct (s_consumer s) as [| |[]|] eqn:Ec; try done; injection H as <-; unfold decreases, measure, waiting; rewrite Ec.
    + destruct (ready_ (s_ctx s)) eqn:Er; cbn -[Nat.mul]; rewrite ?Er; cbn -[Nat.mul]; [lia|split; [lia|done]].
    + cbn -[Nat.mul]. lia.
  - unfold consumer_notify in H. destruct (s_consumer s) eqn:Ec; try done. apply fmap_Some in H as (s1 & H & ->).
    pose proof (measure_notify _ _ _ H) as Hm.
    assert (Ec1 : s_consumer s1 = C_notify) by (by apply notify_keeps in H as (_ & _ & ->)).
    unfold decreases. rewrite <- Hm. unfold measure. rewrite Ec1. cbn -[Nat.mul]. lia.
  - destruct (asleep _ _); [|done]. injection H as <-. split; [by rewrite measure_wake|done].
Qed.

(** ** Progress *)

Lemma notify_possible s : ∃ who s', notify_one who s = Some s'.
Proof.
  destruct (asleep TParser s) eqn:E1; [exists (Some TParser); cbn in *; rewrite E1; by eexists|].
  destruct (asleep TMonitor s) eqn:E2; [exists (Some TMonitor); cbn in *; rewrite E2; by eexists|].
  destruct (asleep TConsumer s) eqn:E3; [exists (Some TConsumer); cbn in *; rewrite E3; by eexists|].
  exists None, s. unfold notify_one. by rewrite E1, E2, E3.
Qed.

Definition can_advance s : Prop := ∃ l s', exec l s = Some s' ∧ waiting l s = false.

Lemma advance_notify s :
  (∃ b cs, s_parser s = P_notify b cs) ∨ s_monitor s = M_notify ∨ s_consumer s = C_notify → can_advance s.
Proof.
  destruct (notify_possible s) as (who & s' & H). intros [(b & cs & E)|[E|E]]; [exists (ParserNotify who)|exists (MonitorNotify who)|exists (ConsumerNotify who)];
    cbn; [unfold parser_notify|unfold monitor_notify|unfold consumer_notify]; rewrite E, H; by eexists.
Qed.

(** Neither the parser nor the user has anything to do: the worker or the monitor has. *)
Lemma advance_producer s :
  flow_ok calls pool s → (0 < pool)%nat → s_parserQuit s = false → filledBuffers (s_queues s) = [] → s_parser s = P_quit ∨ s_parser s = P_dequeue →
  can_advance s.
Proof.
  intros Hf Hp Hq Hb Hpc. pose proof (fl_pool _ _ _ Hf) as Hl. rewrite Hb in Hl. assert (Hh : held (s_parser s) = 0%nat) by (by destruct Hpc as [-> | ->]).
  rewrite Hh in Hl. cbn in Hl. pose proof (fl_quit _ _ _ Hf) as Hr. rewrite Hq in Hr. symmetry in Hr. apply bool_decide_eq_false in Hr.
  destruct (s_idle s) eqn:Ei.
  - exists Monitor. cbn. unfold monitor_step. destruct (s_monitor s) as [| | | | | |] eqn:Em; cbn in Hr; try lia; rewrite ?Ei, ?Hb; by eexists.
  - exists Worker. cbn. unfold worker_step. rewrite Ei. destruct (s_todo s); [by eexists|]. unfold dequeue.
    destruct (emptyBuffers (s_queues s)); cbn in Hl; [lia|by eexists].
Qed.

(** The parser has a buffer that can be parsed. *)
Lemma advance_dequeue s :
  flow_ok calls pool s → s_parser s = P_dequeue → s_parserQuit s = false → filledBuffers (s_queues s) ≠ [] → can_advance s.
Proof.
  intros Hf Hp Hq Hb. pose proof (rank_of_parser _ _ s Hf) as Hr. rewrite Hp in Hr. destruct (fl_calls _ _ _ Hf) as (_ & rest & Ha & _); [specialize (Hr ltac:(done)); lia|].
  exists Parser. cbn. unfold parser_step. rewrite Hp, Hq. destruct (filledBuffers (s_queues s)) as [|b bs]; [done|]. cbn in *.
  destruct (parse_one b (s_world s)) as [[cs w]|]; [by eexists|done].
Qed.

Lemma advance_parser s :
  inv calls pool s → (0 < pool)%nat → s_parser s ≠ P_done → processed_ (s_ctx s) = true → s_consumer s ≠ C_notify → can_advance s.
Proof.
  intros (_ & Hf & Hw) Hp Hd Hpr Hc. destruct (s_parser s) as [| |b c cs z|b cs|b|] eqn:Ep; [| | | | |done].
  - destruct (s_parserQuit s) eqn:Eq; [|destruct (filledBuffers (s_queues s)) eqn:Eb; [by apply advance_producer; auto|]];
      exists Parser; cbn; unfold parser_step; rewrite Ep, Eq, ?Eb; by eexists.
  - destruct (s_parserQuit s) eqn:Eq.
    + exists Parser. cbn. unfold parser_step. pose proof (fl_quit _ _ _ Hf) as Hr. rewrite Eq in Hr. symmetry in Hr. apply bool_decide_eq_true in Hr.
      rewrite Ep, Eq, (fl_filled _ _ _ Hf) by lia. by eexists.
    + destruct (decide (filledBuffers (s_queues s) = [])); [by apply advance_producer; auto|by apply advance_dequeue].
  - destruct z; [by destruct Hc; apply (wa_parser _ Hw); [cbn; rewrite Ep|]|].
    exists Parser. cbn. unfold parser_step. rewrite Ep, Hpr. by eexists.
  - apply advance_notify. left. by eexists _, _.
  - exists Parser. cbn. unfold parser_step. rewrite Ep. by eexists.
Qed.

(** As long as the user has not got everything, some thread has work to do. *)
Lemma progress s :
  inv calls pool s → (0 < pool)%nat → (length (s_returned s) + s_skipped s < length (events_of calls))%nat → can_advance s.
Proof.
  intros Hi Hp Hl. pose proof Hi as (Hc & Hf & Hw). rewrite length_events in Hl. destruct (s_consumer s) as [| |z|] eqn:Ec.
  - exists CallNextEvent. cbn. unfold call_next_event. rewrite Ec. by eexists.
  - apply advance_notify; auto.
  - pose proof (co_seen _ _ Hc) as Hs. unfold seen in Hs. rewrite Ec in Hs. pose proof (co_flags _ _ Hc) as Hfl. destruct (ready_ (s_ctx s)) eqn:Er.
    + destruct z.
      * apply advance_notify. destruct (wa_consumer _ Hw) as [?|?]; auto. cbn. by rewrite Ec.
      * exists Consumer. cbn. unfold consumer_step. rewrite Ec, Er. by eexists.
    + cbn in Hs, Hfl. assert (s_parser s = P_done ∨ s_parser s ≠ P_done) as [Hd|Hd] by (destruct (s_parser s); auto); [|apply advance_parser; try done; by rewrite Ec].
      pose proof (fl_quit _ _ _ Hf) as Hr. rewrite (fl_done _ _ _ Hf Hd) in Hr. symmetry in Hr. apply bool_decide_eq_true in Hr.
      pose proof (fl_end _ _ _ Hf) as He. exists Monitor. cbn. unfold monitor_step. destruct (s_monitor s) as [| | | |z'| |] eqn:Em; cbn in Hr, He; try lia.
      * rewrite Hd. by eexists.
      * destruct z'; [exfalso; assert (Hx : s_consumer s = C_notify) by (apply (wa_monitor _ Hw); [by cbn; rewrite Em|done]); by rewrite Ec in Hx|].
        rewrite Hfl. by eexists.
  - exists Consumer. cbn. unfold consumer_step. rewrite Ec. by eexists.
Qed.

(** Got everything. *)
Lemma all_returned s :
  counts_ok calls s → (length (events_of calls) ≤ length (s_returned s) + s_skipped s)%nat → s_returned s = drop (s_skipped s) (events_of calls).
Proof. intros Hc Hl. rewrite (co_returned _ _ Hc). apply take_ge. rewrite length_drop. lia. Qed.

Lemma completes n s :
  inv calls pool s → (0 < pool)%nat → (measure s < n)%nat → ∃ s', rtc step s s' ∧ s_returned s' = drop (s_skipped s') (events_of calls).
Proof.
  revert s; induction n as [|n IH]; intros s Hi Hp Hn; [lia|].
  destruct (decide (length (s_returned s) + s_skipped s < length (events_of calls))%nat) as [Hl|Hl].
  - destruct (progress s Hi Hp Hl) as (l & s1 & H1 & Hw). destruct (decreases_step l s s1 Hi H1) as [_ Hd]. specialize (Hd Hw).
    destruct (IH s1) as (s' & Hs & He); [by eapply inv_step|done|lia|]. exists s'. split; [|done]. by eapply rtc_l; [exists l|].
  - exists s. split; [done|]. apply all_returned; [apply Hi|lia].
Qed.

(** ** Nothing is skipped once the user has asked *)

Definition engaged s : Prop := s_consumer s ≠ C_out ∨ s_returned s ≠ [].

Lemma wake_keeps t s : s_skipped (wake t s) = s_skipped s ∧ (engaged s → engaged (wake t s)).
Proof.
  destruct t; cbn; [by destruct (s_parser s)|by destruct (s_monitor s)|]. destruct (s_consumer s) eqn:E; try done. split; [done|]. by left.
Qed.

Lemma notify_engaged who s s' : notify_one who s = Some s' → s_skipped s' = s_skipped s ∧ (engaged s → engaged s').
Proof. intros [(t & _ & ->)|[_ ->]]%notify_one_wakes; [apply wake_keeps|done]. Qed.

Lemma next_call_keeps b cs s : s_skipped (next_call b cs s) = s_skipped s ∧ (engaged s → engaged (next_call b cs s)).
Proof. by destruct cs. Qed.

Lemma skipped_step l s s' : counts_ok calls s → engaged s → exec l s = Some s' → engaged s' ∧ s_skipped s' = s_skipped s.
Proof.
  intros Hc He H. destruct l; cbn in H.
  - unfold worker_step in H. destruct (s_idle s); [done|]. destruct (s_todo s); [by injection H as <-|]. destruct (dequeue _) as [[]]; [|done]. by injection H as <-.
  - unfold parser_step in H. destruct (s_parser s) as [| |b c cs []| |b|]; try done; [by injection H as <-| |by injection H as <-; unfold callback_step; destruct (processed_ _)|by injection H as <-].
    destruct (dequeue _) as [[b|] f]; [|by injection H as <-]. destruct (parse_one _ _) as [[cs w]|]; [|done]. injection H as <-.
    match goal with |- context [next_call b cs ?s1] => destruct (next_call_keeps b cs s1) as [H1 H2] end. split; [by apply H2|done].
  - unfold parser_notify in H. destruct (s_parser s) as [| | |b cs| |]; try done. apply fmap_Some in H as (s1 & H & ->).
    destruct (notify_engaged _ _ _ H) as [H1 H2], (next_call_keeps b cs s1) as [H3 H4]. split; [auto|congruence].
  - unfold monitor_step in H. destruct (s_monitor s) as [| | | |[]| |]; try done; [destruct (s_idle s); [|done]|destruct (filledBuffers _)| |destruct (s_parser s); try done|destruct (processed_ _)];
      by injection H as <-.
  - unfold monitor_notify in H. destruct (s_monitor s); try done. apply fmap_Some in H as (s1 & H & ->).
    destruct (notify_engaged _ _ _ H) as [H1 H2]. split; [by apply H2|done].
  - unfold call_next_event in H. destruct (s_consumer s) eqn:Ec; try done. injection H as <-. split; [by left|]. cbn.
    pose proof (co_seen _ _ Hc) as Hs. unfold seen in Hs. rewrite Ec in Hs. destruct Hs as [(Hr & _)|(_ & Hn & _)]; [by destruct He|].
    unfold unseen. by rewrite Hn, bool_decide_true.
  - unfold consumer_step in H. destruct (s_consumer s) as [| |[]|]; try done; injection H as <-; (split; [|done]).
    + left. cbn. by destruct (ready_ _).
    + right. cbn. by destruct (s_returned s).
  - unfold consumer_notify in H. destruct (s_consumer s); try done. apply fmap_Some in H as (s1 & H & ->).
    destruct (notify_engaged _ _ _ H) as [H1 _]. split; [by left|done].
  - destruct (asleep _ _); [|done]. injection H as <-. destruct (wake_keeps t s) as [H1 H2]. auto.
Qed.

Lemma skipped_steps s s' : inv calls pool s → engaged s → rtc step s s' → s_skipped s' = s_skipped s.
Proof.
  intros Hi He H. induction H as [|s s1 s' [l Hl] _ IH]; [done|]. destruct (skipped_step l s s1) as [H1 H2]; [apply Hi|done|done|].
  rewrite IH; [done|by eapply inv_step|done].
Qed.

Lemma none_skipped s : counts_ok calls s → s_posted s = 0%nat → s_skipped s = 0%nat.
Proof.
  intros Hc Hp. pose proof (co_seen _ _ Hc) as Hs. unfold seen in Hs. destruct (s_consumer s); [destruct Hs as [(_ & ? & _)|(? & ? & Hn)]|..]; try lia.
Qed.

End Measure.

(** ** Every run of a real parser has its calls *)

Definition buffer_words (buffers : list ReadoutBuffer) : Z := foldr (λ b n, zlen (viewU32 b) + n) 0 buffers.

Lemma buffer_words_nonneg buffers : 0 ≤ buffer_words buffers.
Proof. induction buffers as [|b l IH]; [done|]. cbn. fold (buffer_words l). pose proof (zlen_nonneg (viewU32 b)). lia. Qed.

Lemma parse_one_ok b w :
  parser_inv (w_state w) → wb_used (workBuffer (w_state w)) + zlen (viewU32 b) + 1 ≤ 2 ^ 32 →
  ∃ cs w', parse_one b w = Some (cs, w') ∧ parser_inv (w_state w')
    ∧ wb_used (workBuffer (w_state w')) ≤ wb_used (workBuffer (w_state w)) + zlen (viewU32 b).
Proof.
  intros Hp Hl. pose proof (zlen_nonneg (viewU32 b)). unfold parse_one.
  destruct (m_used b =? 0); [by eexists _, _; split_and!; [done|done|lia]|].
  destruct (buffer_type b) as [ty|]; [|by eexists _, _; split_and!; [done|done|lia]].
  destruct (parse_readout_buffer_typed_ok (wb_used (workBuffer (w_state w)) + zlen (viewU32 b) + 1) ty (m_number b) (viewU32 b)
    (mkWorld (w_state w) (w_counters w) [] (w_input w))) as (pr & w' & H1 & _ & [Hp1 Hs1 _] & _); [lia|by split; [|cbn; lia|]|].
  rewrite H1. eexists _, _. split_and!; [done|done|]. pose proof (zlen_nonneg (w_input w')). lia.
Qed.

Lemma all_calls_some buffers w :
  parser_inv (w_state w) → wb_used (workBuffer (w_state w)) + buffer_words buffers < 2 ^ 32 → ∃ calls, all_calls buffers w = Some calls.
Proof.
  revert w; induction buffers as [|b buffers IH]; intros w Hp Hl; [by eexists|]. cbn in Hl. fold (buffer_words buffers) in Hl.
  pose proof (buffer_words_nonneg buffers). destruct (parse_one_ok b w Hp) as (cs & w' & H1 & Hp1 & Hl1); [lia|].
  destruct (IH w' Hp1) as [calls Hc]; [lia|]. cbn. rewrite H1, Hc. by eexists.
Qed.

Lemma parser_calls_some stacks st buffers :
  make_readout_parser stacks = Return st → buffer_words buffers < 2 ^ 32 → ∃ calls, all_calls buffers (initial_world st) = Some calls.
Proof. intros Hm Hl. destruct (initial_parser_inv stacks st Hm) as [Hp Hu]. apply all_calls_some; [done|]. cbn. lia. Qed.

Lemma run_cons l ls s s' : run (l :: ls) s = Some s' → ∃ s1, exec l s = Some s1 ∧ run ls s1 = Some s'.
Proof.
  unfold run. cbn. destruct (exec l s) as [s1|]; [by exists s1|]. assert (Hn : foldl (λ s l, s ≫= exec l) None ls = None) by (by induction ls).
  by rewrite Hn.
Qed.

Lemma run_steps ls s s' : run ls s = Some s' → rtc step s s'.
Proof.
  revert s; induction ls as [|l ls IH]; intros s; [by intros [= <-]|]. intros (s1 & H1 & H)%run_cons.
  eapply rtc_l; [by exists l|]. by apply IH.
Qed.

(** ** The properties *)

(** C20: The user gets the events in order.  For a parser made from any readout stacks, any
    buffers with any contents, and every interleaving of the worker, the parser thread, the
    monitor and the user, spurious wake-ups included: what the calls of [next_event] have
    returned is, in the order of the parser's callbacks, one event per callback, closed by
    the event of type [None], up to some point; none is returned twice, and the only event
    that can be missing is the first one.  It is not missing if the user's first call of
    [next_event] had begun before any callback was made. *)
Theorem blocking_events_in_order stacks st buffers bs :
  make_readout_parser stacks = Return st → buffer_words buffers < 2 ^ 32 →
  ∃ calls, all_calls buffers (initial_world st) = Some calls
    ∧ ∀ s, rtc step (start_run buffers bs (initial_world st)) s →
        s_returned s `prefix_of` drop (s_skipped s) (events_of calls) ∧ (s_skipped s ≤ 1)%nat
        ∧ (s_consumer s ≠ C_out → s_posted s = 0%nat → ∀ s', rtc step s s' → s_returned s' `prefix_of` events_of calls).
Proof.
  intros Hm Hl. destruct (parser_calls_some stacks st buffers Hm Hl) as [calls Hc]. exists calls. split; [done|]. intros s Hs.
  assert (Hi : inv calls (length bs) s) by (eapply inv_steps; [by apply inv_start|done]). pose proof Hi as (Hcs & _).
  assert (Hpre : ∀ s', counts_ok calls s' → s_returned s' `prefix_of` drop (s_skipped s') (events_of calls)).
  { intros s' Hc'. rewrite (co_returned _ _ Hc'). apply prefix_take. }
  split_and!; [by apply Hpre|by apply (co_skipped _ _ Hcs)|]. intros Hco Hp s' Hs'. assert (Hi' : inv calls (length bs) s') by (by eapply inv_steps).
  pose proof (Hpre s' (proj1 Hi')) as H. by rewrite (skipped_steps calls (length bs) s s' Hi (or_introl Hco) Hs'), (none_skipped calls s Hcs Hp) in H.
Qed.

(** C21: The user's loop comes to its end.  As long as the user, who calls [next_event] again
    and again, has not got all events that were not lost, up to the final one of type
    [None], some thread has a step to take that is not just waiting; such steps decrease a
    measure that no other step increases, so only finitely many of them happen before the
    user has everything: no wake-up is lost and the threads cannot block each other.  In
    particular every run can be continued to one in which everything is delivered. *)
Theorem blocking_delivers stacks st buffers bs :
  make_readout_parser stacks = Return st → buffer_words buffers < 2 ^ 32 → bs ≠ [] →
  ∃ calls, all_calls buffers (initial_world st) = Some calls
    ∧ ∀ s, rtc step (start_run buffers bs (initial_world st)) s →
        (s_returned s = drop (s_skipped s) (events_of calls) ∨ can_advance s)
        ∧ (∀ l s', exec l s = Some s' → decreases calls l s s')
        ∧ ∃ s', rtc step s s' ∧ s_returned s' = drop (s_skipped s') (events_of calls).
Proof.
  intros Hm Hl Hb. destruct (parser_calls_some stacks st buffers Hm Hl) as [calls Hc]. exists calls. split; [done|]. intros s Hs.
  assert (Hi : inv calls (length bs) s) by (eapply inv_steps; [by apply inv_start|done]).
  assert (Hp : (0 < length bs)%nat) by (destruct bs; cbn; [done|lia]). split_and!; [| |by apply (completes calls (length bs) (S (measure calls s))); [| |lia]].
  - destruct (decide (length (s_returned s) + s_skipped s < length (events_of calls))%nat) as [Hd|Hd].
    + right. by apply (progress calls (length bs)).
    + left. apply all_returned; [apply Hi|lia].
  - intros l s' H. by apply (decreases_step _ (length bs)).
Qed.

(** C40: The data of an event do not outlive the callback.  A callback stores pointers to the
    parser's [moduleDataBuffer] and returns without waiting for the user, so the parser
    goes on and assembles the next event in the same place.  If a buffer holds two events
    with the same number of modules, then in some run, although the user asks for events
    before there are any, the first call of [next_event] returns the first event, and the
    module data it points to are those of the second event. *)
Theorem blocking_data_overwritten b w bs b' c0 e0 d0 c1 e1 d1 cs w' :
  parse_one b w = Some (EventData c0 e0 d0 :: EventData c1 e1 d1 :: cs, w') → length d1 = length d0 →
  ∃ s, rtc step (start_run [b] (b' :: bs) w) s ∧ s_consumer s = C_out
    ∧ s_returned s = [readout_event e0 d0] ∧ module_data (readout_event e0 d0) s = d1.
Proof.
  intros Hp Hl.
  assert (Hrun : ∃ s, run [CallNextEvent; ConsumerNotify None; Worker; Parser; Parser; Parser; ParserNotify None; Consumer; Consumer]
    (start_run [b] (b' :: bs) w) = Some s ∧ s_consumer s = C_out ∧ s_returned s = [readout_event e0 d0] ∧ module_data (readout_event e0 d0) s = d1).
  { cbn -[parse_one]. rewrite Hp. cbn -[parse_one]. eexists. split_and!; [done..|]. unfold module_data. cbn.
    rewrite <- Hl. unfold ztake, zlen. rewrite Hl, <- Hl, Nat2Z.id. by rewrite take_app_length. }
  destruct Hrun as (s & Hr & H). exists s. split; [by eapply run_steps|done].
Qed.

Lemma run_without_events bs w :
  ∃ s, run [Worker; Monitor; Monitor; Monitor; Parser; Monitor; Monitor; MonitorNotify None; CallNextEvent; ConsumerNotify None; Consumer]
    (start_run [] bs w) = Some s ∧ s_consumer s = C_wait true ∧ s_skipped s = 1%nat.
Proof. eexists. split; [vm_compute; reflexivity|]. done. Qed.

(** A run without events, over before the user asks: his call takes the final event for one
    he has seen, and waits for ever. *)
Lemma final_event_lost bs w :
  ∃ s, rtc step (start_run [] bs w) s ∧ s_consumer s = C_wait true ∧ ∀ s', rtc step s s' → s_returned s' = [].
Proof.
  destruct (run_without_events bs w) as (s & Hr%run_steps & Hc & Hk). exists s. split_and!; [done..|]. intros s' Hs.
  assert (Hi : inv [] (length bs) s) by (eapply inv_steps; [by apply (inv_start [] bs w)|done]).
  assert (Hk' : s_skipped s' = 1%nat) by (rewrite <- Hk; apply (skipped_steps [] (length bs)); [done|left; by rewrite Hc|done]).
  assert (Hi' : inv [] (length bs) s') by (by eapply inv_steps). rewrite (co_returned _ _ (proj1 Hi')), Hk'. apply take_nil.
Qed.

(** The user holds an event and does not ask for the next one. *)
Definition abandoned (n : nat) (s : System) : Prop :=
  s_consumer s = C_out ∧ processed_ (s_ctx s) = false ∧ s_posted s = n.

Lemma abandoned_wake n t s : abandoned n s → abandoned n (wake t s).
Proof.
  intros (H1 & H2 & H3). destruct t; cbn; [by destruct (s_parser s)|by destruct (s_monitor s)|]. by rewrite H1; split_and!.
Qed.

Lemma abandoned_notify n who s s' : abandoned n s → notify_one who s = Some s' → abandoned n s'.
Proof. intros H [(t & _ & ->)|[_ ->]]%notify_one_wakes; [by apply abandoned_wake|done]. Qed.

Lemma abandoned_next_call n b cs s : abandoned n s → abandoned n (next_call b cs s).
Proof. by destruct cs. Qed.

Lemma abandoned_step n l s s' : abandoned n s → l ≠ CallNextEvent → exec l s = Some s' → abandoned n s'.
Proof.
  intros Ha Hl H. pose proof Ha as (H1 & H2 & H3). destruct l; cbn in H; try done.
  - unfold worker_step in H. destruct (s_idle s); [done|]. destruct (s_todo s); [by injection H as <-|]. destruct (dequeue _) as [[]]; [|done]. by injection H as <-.
  - unfold parser_step in H. destruct (s_parser s) as [| |b c cs []| |b|]; try done; [by injection H as <-| |by injection H as <-; unfold callback_step; rewrite H2|by injection H as <-].
    destruct (dequeue _) as [[b|] f]; [|by injection H as <-]. destruct (parse_one _ _) as [[cs w]|]; [|done]. injection H as <-. by apply abandoned_next_call.
  - unfold parser_notify in H. destruct (s_parser s); try done. apply fmap_Some in H as (s1 & H & ->). apply abandoned_next_call. by eapply abandoned_notify.
  - unfold monitor_step in H. rewrite H2 in H. destruct (s_monitor s) as [| | | |[]| |]; try done; [destruct (s_idle s); [|done]|destruct (filledBuffers _)| |destruct (s_parser s); try done|];
      by injection H as <-.
  - unfold monitor_notify in H. destruct (s_monitor s); try done. apply fmap_Some in H as (s1 & H & ->). by apply (abandoned_notify n) in H.
  - unfold consumer_step in H. by rewrite H1 in H.
  - unfold consumer_notify in H. by rewrite H1 in H.
  - destruct (asleep _ _); [|done]. injection H as <-. by apply abandoned_wake.
Qed.

Lemma abandoned_run n ls s s' : abandoned n s → CallNextEvent ∉ ls → run ls s = Some s' → abandoned n s'.
Proof.
  revert s; induction ls as [|l ls IH]; intros s Ha Hl; [by intros [= <-]|]. intros (s1 & H1 & H)%run_cons.
  apply not_elem_of_cons in Hl as [Hne Hl]. eapply IH; [|done|done]. by eapply abandoned_step.
Qed.

(** The destructor of [BlockingReadout] and [BlockingReplay] waits for the monitor: if the
    user stops asking before the final event, it waits for ever. *)
Lemma destructor_hangs calls pool s ls s' :
  inv calls pool s → s_consumer s = C_out → ready_ (s_ctx s) = true → (s_posted s ≤ length calls)%nat →
  CallNextEvent ∉ ls → run ls s = Some s' → s_monitor s' ≠ M_done.
Proof.
  intros Hi Hc Hr Hp Hls H Hm. assert (Ha : abandoned (s_posted s) s) by (split_and!; [done| |done]; by rewrite (co_flags _ _ (proj1 Hi)), Hr).
  assert (Hi' : inv calls pool s') by (eapply inv_steps; [done|by eapply run_steps]).
  apply (abandoned_run _ ls s s') in Ha as (_ & _ & Hp'); [|done|done].
  pose proof (fl_end _ _ _ (proj1 (proj2 Hi'))) as He. rewrite Hm in He. cbn in He. lia.
Qed.

(** ** Examples *)

Definition words_buffer (number : Z) (words : list Z) : ReadoutBuffer :=
  mkBuffer (ConnectionType_value USB) number (concat (le_bytes <$> words)) (4 * zlen words).

Definition two_events : ReadoutBuffer :=
  words_buffer 1 [0xF3010005; 1; 0xF5000002; 10; 11; 3; 0xF3010005; 4; 0xF5000002; 20; 21; 6].

Lemma blocking_events_in_order_witness :
  ∃ st calls, make_readout_parser [example_stack] = Return st ∧ all_calls [two_events] (initial_world st) = Some calls
    ∧ ∀ s, rtc step (start_run [two_events] [new_buffer 64] (initial_world st)) s →
        s_returned s `prefix_of` drop (s_skipped s) (events_of calls) ∧ (s_skipped s ≤ 1)%nat
        ∧ (s_consumer s ≠ C_out → s_posted s = 0%nat → ∀ s', rtc step s s' → s_returned s' `prefix_of` events_of calls).
Proof.
  eexists. edestruct blocking_events_in_order with (stacks := [example_stack]) (buffers := [two_events]) (bs := [new_buffer 64]) as (calls & H1 & H2);
    [reflexivity|reflexivity|]. exists calls. split; [reflexivity|]. by split.
Defined.

Lemma blocking_delivers_witness :
  ∃ st calls, make_readout_parser [example_stack] = Return st ∧ all_calls [two_events] (initial_world st) = Some calls
    ∧ ∃ s', rtc step (start_run [two_events] [new_buffer 64] (initial_world st)) s' ∧ s_returned s' = drop (s_skipped s') (events_of calls).
Proof.
  eexists. edestruct blocking_delivers with (stacks := [example_stack]) (buffers := [two_events]) (bs := [new_buffer 64]) as (calls & H1 & H2);
    [reflexivity|reflexivity|done|]. exists calls. split_and!; [reflexivity|done|]. by destruct (H2 _ (rtc_refl _ _)) as (_ & _ & H).
Defined.

Definition example_event (words : list Z) : CallbackEvent := EventData 0 0 [mkModuleData words 4 1 2 1 true].

Lemma two_events_parsed st :
  make_readout_parser [example_stack] = Return st →
  ∃ w', parse_one two_events (initial_world st) = Some ([example_event [1; 10; 11; 3]; example_event [4; 20; 21; 6]], w').
Proof.
  assert (H : match make_readout_parser [example_stack] with
              | Return st => fst <$> parse_one two_events (initial_world st)
              | _ => None
              end = Some [example_event [1; 10; 11; 3]; example_event [4; 20; 21; 6]]) by (vm_compute; reflexivity).
  intros E. rewrite E in H. apply fmap_Some in H as ([cs w'] & Hp & Hcs). exists w'. by rewrite Hp, Hcs.
Qed.

Lemma blocking_data_overwritten_witness :
  ∃ st s e, make_readout_parser [example_stack] = Return st ∧ rtc step (start_run [two_events] [new_buffer 64] (initial_world st)) s
    ∧ s_returned s = [e] ∧ md_data <$> module_data e s = [[4; 20; 21; 6]].
Proof.
  eexists. edestruct two_events_parsed as [w' Hw]; [reflexivity|].
  edestruct blocking_data_overwritten with (b := two_events) (b' := new_buffer 64) (bs := @nil ReadoutBuffer) as (s & H1 & _ & H2 & H3);
    [exact Hw|reflexivity|]. exists s. eexists. split_and!; [reflexivity|exact H1|exact H2|]. rewrite H3. reflexivity.
Defined.
